(* ===== verification/_CoqProject ===== *)
-Q . S2P
Prelude.v
Bytes.v
Bitmap.v
Dlist.v
Fifo.v
Pipe.v
Mutex.v
Task.v
Sched.v
Life.v
Signal.v
Page.v
Alloc.v
Memory.v
Refs.v
Tables.v
Cow.v
Fault.v
Fork.v
Free.v
Boot.v
Mm.v
MmDemo.v
Exec.v
Chksum.v
Addr.v
Vsprintf.v
Time.v
Port.v
Tcp.v
TcpWire.v
TcpOutput.v
TcpPcb.v
TcpInput.v
TcpTimer.v
Iovec.v
TcpSocket.v
Net.v
Frame.v
Arp.v
Ip.v
Udp.v
Raw.v
Eth.v
Resolv.v
Dhcp.v
Str.v
Arena.v
Device.v
Buffer.v
Fs.v
Minix.v
Iso9660.v
Vfs.v
AbsPath.v
MinixZone.v
MinixMap.v
MinixBmap.v
MinixFile.v
MinixDir.v
MinixTrunc.v
MinixDemo.v
Fds.v
