(* ===== verification/Prelude.v ===== *)
(** * Onix: a verification development for the core of the kernel (root file)

    Onix is a 32-bit operating system kernel in C.  This library translates the
    parts of it that carry its own logic into Rocq definitions and proves what
    makes them correct.  Paths are relative to the root of the repository.

    ** The program and the files of the library

    A definition bears the name of the C function, type or macro it translates.
    Files are named by what they model; each opens with a comment of its own.

    - Prelude (this file): machine integers, the monad of stateful code that can
      stop, weakest preconditions and their tactics, step relations, record
      update, and lemmas on lists and maps.
    - Data structures: Bitmap ([lib/bitmap.c]), Dlist ([lib/list.c]), Fifo
      ([lib/fifo.c]), Str ([lib/string.c]); Bytes is what a word is in memory;
      Vsprintf is [lib/vsprintf.c] and [atoi]; Time is the calendar of
      [kernel/time.c].
    - Tasks: Task is [kernel/task.c], [timer.c], [alarm.c], [clock.c] and
      [sys_kill]; Sched and Life prove the scheduler, the timers, fork, exit
      and wait; Mutex is [kernel/mutex.c]; Signal is [kernel/signal.c]; Pipe
      the transfers of [fs/pipe/pipe.c] over Fifo.
    - Memory: Page and Memory are the two halves of [kernel/memory.c]; Alloc,
      Refs, Tables, Cow, Fault, Fork, Free, Boot and Mm prove the invariant of
      the reference counts and what each operation does to the memory that the
      processes see; MmDemo applies it to a concrete memory and runs the [mmap]
      over a shared page that breaks isolation.  Arena is the heap
      of [kernel/arena.c]; it uses the kernel pages through the class [KPages],
      which the allocator of Page implements.  Exec is [kernel/execve.c] and the
      start of a program ([lib/crt.asm], [lib/crt1.c]).
    - Devices and files: Device is [kernel/device.c] with the queue of block
      requests; Buffer is [kernel/buffer.c], over the class [BlockDev] of what
      [device_request] does.
    - File systems: Fs is the tables of inodes, super blocks and open files
      ([fs/inode.c], [super.c], [file.c]) over the blocks of the buffer cache;
      Vfs is [fs/namei.c] and [fs/fsyscall.c], with the operations of a file
      system as a parameter; AbsPath proves the text of the working directory.
      Minix is [fs/minix/minix.c], one such operation table: MinixZone proves
      its bitmaps, MinixMap and MinixBmap the tree of zones of a file, MinixFile
      reading and writing, MinixDir directories, MinixTrunc truncation;
      MinixDemo applies the theorems to a small disk.  Iso9660 is
      [fs/iso9660/iso9660.c], a read-only operation table.
      Fds proves the descriptors and counts of open files of Vfs over any file
      system that leaves them alone, and that Minix does.
    - Network: Chksum ([net/chksum.c]), Addr ([net/addr.c]), Port
      ([net/port.c]), Iovec ([net/iovec.c]); Tcp, TcpWire, TcpOutput, TcpPcb,
      TcpInput, TcpTimer and TcpSocket are [net/tcp.h] and [net/tcp*.c].  Below
      TCP the state is one record, in Net with the packet buffers, the
      interfaces and the loopback ([pbuf.c], [netif.c], [loopif.c]); Arp, Ip
      ([ip_output], [icmp.c]), Udp, Raw ([raw.c], [pkt.c]) and Eth ([eth_input],
      [ip_input], the tasks of [netif.c]) are its operations, in the order in
      which they call each other; Frame reasons about the fields of a frame.
      The clients over UDP are Resolv ([net/resolv.c]) and Dhcp ([net/dhcp.c]),
      with the calls on sockets as parameters.

    ** How the code is modelled

    State is a record per component, passed by the monad [ST]: an operation
    returns a value and a new state or stops, with [Assert] for a failed
    assertion or [panic] and [Fault] for an access to memory that is not there
    (the model's word for undefined behaviour).  Integers are [Z] with the
    truncations of the C code written out ([u8], [u16], [u32], [s32]).
    Interrupts are off in a system call, so that an operation runs to the end
    or to the call that blocks; where it blocks it is split, and the parts are
    steps of a relation whose interleavings the theorems quantify over.
    Pointers are addresses in maps; a list of [lib/list.c] is the Rocq list of
    the addresses of its nodes, with the operations of [Dlist.Abs], which
    Dlist proves the pointer code to implement.  Memory that [kmalloc] returns
    appears as an argument of the operation that allocates, with the condition
    that it is new, which Arena proves.

    The memory manager reads and writes page entries as 32-bit words of the
    physical memory, through the translation of the present page directory;
    there is no translation cache.  The reference counts ([memory_map]), the
    bitmap of the kernel pages and the memory fields of a process are records of
    their own and not bytes of that memory.  [lseek] and [read], with which
    [sys_mmap] fills a mapping, are arguments of it.  Drivers and the functions
    stored in a device or a file system are parameters.

    [task_exit] releases inodes and files after it has set the state DIED, and
    the release may block in a driver or wake tasks: it is a parameter that
    returns the woken tasks and how it stopped, finished or at a block, and the
    exit is resumed from there.  The theorems on an exit that ends are about a
    release that finishes; [Life.exit_write_revives] computes what happens to a
    task whose release writes.

    ** What the theorems show

    - Data structures: all functions of [list.c] refine operations on sequences; the
      ring buffer refines a bounded queue; [bitmap_scan] takes the first run
      that fits; the string functions compute the functions on lists they are
      named after.  What [sprintf] prints of a number is laid out as its flags
      say and read back by [atoi] or [inet_aton]; [mktime] is the Gregorian
      calendar for a hundred years, and [localtime] is right on the days that
      the theorem gives and on no other.
    - Tasks: every operation keeps the invariant of the scheduler in all
      reachable states; what [schedule], [task_fork], [task_exit],
      [task_waitpid] and the timers do, error cases included; a lock has one
      holder; a signal handler runs once with its mask and returns to the
      interrupted code; a pipe passes its bytes on in order, every run of it
      ends, and where it ends is determined.
    - Memory: reference counts are exact and no page that is not marked shared is
      shared writable in every state that the steps [mm_step] reach from the boot
      (all but an [mmap] over a page that a fork has shared); a write fault makes the page private; fork
      duplicates what the child reads; [memory_access] is the set of mapped
      pages; the blocks of the heap never overlap; the arguments of [execve]
      reach [main] through the pages and the stack they are copied to.
    - Devices: one task at a time is inside a driver, and the elevator reaches
      every request; the buffer cache is transparent: it refines a map from
      blocks to contents, which is on the disk once the buffers are released.
    - File systems: allocation of zones takes the first free one and freeing
      restores the map; what is written to a file is read back and nothing else
      changes; a directory is a list of entries with the first free one reused;
      truncation frees exactly the zones of the file; the text of the working
      directory is the normal form of the path; descriptors and counts of open
      files agree after any sequence of system calls, and a call that fails
      leaves them as they were, two calls apart; the search of an ISO 9660
      directory finds the first record of a name, and reading is exact.
    - TCP: sequence comparison, window and retransmission arithmetic, the
      segmentation of the output stream, the dispatch of segments and the edges
      of the state machine, what an acknowledgement and received data change,
      the parser of options and its round trip, and the sockets' blocking reads.
    - Below TCP: a query for an address, its answer and the packets that waited
      for it; an echo request comes back as an answer that verifies; what one
      socket sends in a datagram the other receives, through the frames and both
      checksums.
    - Clients: the query of the resolver and the address it takes from an answer;
      the frames that the DHCP client sends and what it learns from an answer,
      under the conditions where the code takes its options as they are meant.

    A theorem of the form "in every reachable state" is about [steps] of a
    relation from the state the initialisation leaves.  Errors of the code that
    the proofs met appear as hypotheses of the theorems they would break.

    ** Fuel

    Loops over data are structural.  Those that are not take fuel: the C string
    loops as much as the memory has bytes, which they cannot outrun without
    leaving it; [memory_access] 0x100001 turns, one more than there are pages;
    the parser of TCP options the length of the options, and a theorem says when
    that is enough.  Page walks and scans run over finite ranges.  Reading and writing a file takes
    one turn more than there are bytes, adding an entry to a directory two more
    than it has entries, a path one more than it has characters,
    [vsprintf] one more than the format has characters and [number] 32, a turn
    for each binary digit.  A queue of packet buffers is emptied in as many turns
    as it has buffers.  The parsers of DNS names and DHCP options take one turn more
    than there are bytes; the loops that wait for an answer take an argument, one
    more than the packets that come before it; the search of a compact disc a
    turn for each byte of its blocks.

    ** Not modelled

    - The assembly ([boot/], the stubs of [kernel/*.asm]): entry of interrupts and
      system calls and [task_switch]; a task switch is the change of [current].
    - Drivers ([ide.c], [floppy.c], [e1000.c], [sb16.c], [serial.c], [pci.c],
      [isa.c], [rtc.c], [console.c], [keyboard.c], [tty.c], [ramdisk.c]) and the
      set-up of the processor ([gate.c], [global.c], [interrupt.c], [cpu.c],
      [fpu.c]): port input and output.
    - [fs/dev.c] (it makes the entries of /dev by system calls); [bwrite] and the
      dirty flag of the buffers in the file systems, which decide only when the
      disk follows (Buffer).
    - [net/socket.c], whose calls check their arguments and go to
      the operations of the protocol.
    - User programs ([builtin/]), tests ([kernel/test.c]) and the user side of
      the system calls ([lib/syscall.c]). *)
From Stdlib Require Export ZArith Lia.
From stdpp Require Export base numbers option gmap.
From stdpp Require Export list.
Open Scope Z_scope.

(** ** Machine integers of [src/src/include/onix/types.h]

    An unsigned [w]-bit integer is a [Z] in [0, 2^w); the wrap-around of the C
    arithmetic is written out with these functions. *)
Definition u8 (z : Z) : Z := z `mod` 2 ^ 8.
Definition u16 (z : Z) : Z := z `mod` 2 ^ 16.
Definition u32 (z : Z) : Z := z `mod` 2 ^ 32.

(** Conversion to [int32] (two's complement). *)
Definition s32 (z : Z) : Z :=
  let m := z `mod` 2 ^ 32 in if m <? 2 ^ 31 then m else m - 2 ^ 32.

(** Conversion to [int8] (the [char] of the i386 target is signed). *)
Definition s8 (z : Z) : Z :=
  let m := z `mod` 2 ^ 8 in if m <? 2 ^ 7 then m else m - 2 ^ 8.

(** Unfolds the widths and normalises their powers, for [lia]. *)
Ltac unfold_int :=
  unfold u8, u16, u32, s32, s8 in *;
  change (2 ^ 8) with 256 in *; change (2 ^ 7) with 128 in *;
  change (2 ^ 16) with 65536 in *;
  change (2 ^ 32) with 4294967296 in *; change (2 ^ 31) with 2147483648 in *.

(** Linear arithmetic modulo the machine widths. *)
Ltac int_lia :=
  unfold_int; repeat case_match;
  repeat match goal with
  | H : (_ <? _) = true |- _ => apply Z.ltb_lt in H
  | H : (_ <? _) = false |- _ => apply Z.ltb_ge in H
  end;
  Z.div_mod_to_equations; lia.

Lemma u8_range z : 0 ≤ u8 z < 256.
Proof. apply Z.mod_pos_bound; lia. Qed.
Lemma u16_range z : 0 ≤ u16 z < 65536.
Proof. apply Z.mod_pos_bound; lia. Qed.
Lemma u32_range z : 0 ≤ u32 z < 4294967296.
Proof. apply Z.mod_pos_bound; lia. Qed.
Lemma s32_range z : -2147483648 ≤ s32 z < 2147483648.
Proof. int_lia. Qed.
Lemma u8_small z : 0 ≤ z < 256 → u8 z = z.
Proof. intros; apply Z.mod_small; lia. Qed.
Lemma u16_small z : 0 ≤ z < 65536 → u16 z = z.
Proof. intros; apply Z.mod_small; lia. Qed.
Lemma u32_small z : 0 ≤ z < 4294967296 → u32 z = z.
Proof. intros; apply Z.mod_small; lia. Qed.
Lemma s32_small z : -2147483648 ≤ z < 2147483648 → s32 z = z.
Proof. intros; int_lia. Qed.
Lemma u32_idemp z : u32 (u32 z) = u32 z.
Proof. apply u32_small, u32_range. Qed.
Lemma s32_u32 z : s32 (u32 z) = s32 z.
Proof. unfold s32, u32. by rewrite Z.mod_mod. Qed.
Lemma u32_s32 z : u32 (s32 z) = u32 z.
Proof. int_lia. Qed.
Lemma u32_add_l a b : u32 (u32 a + b) = u32 (a + b).
Proof. apply Zplus_mod_idemp_l. Qed.
Lemma u32_add_r a b : u32 (a + u32 b) = u32 (a + b).
Proof. apply Zplus_mod_idemp_r. Qed.
Lemma u32_sub_l a b : u32 (u32 a - b) = u32 (a - b).
Proof. apply Zminus_mod_idemp_l. Qed.
Lemma u32_sub_r a b : u32 (a - u32 b) = u32 (a - b).
Proof. apply Zminus_mod_idemp_r. Qed.

(** ** Error codes of [src/src/include/onix/errno.h] *)
Definition EOK : Z := 0.
Definition EPERM : Z := 1.
Definition ENOENT : Z := 2.
Definition EINTR : Z := 4.
Definition EIO : Z := 5.
Definition EBADF : Z := 9.
Definition ECHILD : Z := 10.
Definition EAGAIN : Z := 11.
Definition ENOMEM : Z := 12.
Definition EACCES : Z := 13.
Definition EFAULT : Z := 14.
Definition EEXIST : Z := 17.
Definition ENODEV : Z := 19.
Definition ENOTDIR : Z := 20.
Definition EISDIR : Z := 21.
Definition EINVAL : Z := 22.
Definition EMFILE : Z := 24.
Definition ENOSPC : Z := 28.
Definition ENOSYS : Z := 38.
Definition ENOTEMPTY : Z := 39.
Definition ETIME : Z := 62.
Definition EMSGSIZE : Z := 90.
Definition ERROR : Z := 99.
Definition EEOF : Z := 100.
Definition EADDR : Z := 101.
Definition EPROTO : Z := 102.
Definition EOPTION : Z := 103.
Definition EFRAG : Z := 104.
Definition ESOCKET : Z := 105.
Definition EOCCUPIED : Z := 106.
Definition ENOTCONN : Z := 107.
Definition ERESET : Z := 108.
Definition ECHKSUM : Z := 109.

(** [types.h]. *)
Definition EOF : Z := - EEOF.

(** ** Outcomes

    A call of a C function either returns, or stops: an [assert] or a [panic]
    failed ([Assert]), memory outside the objects of the model was accessed
    ([Fault], undefined behaviour of the C program), or the loop bound of the
    model was reached ([Fuel]). *)
Inductive stop := Assert | Fault | Fuel.

#[export] Instance stop_eq_dec : EqDecision stop.
Proof. solve_decision. Defined.

Inductive res (A : Type) := Ok (a : A) | Stop (e : stop).
Arguments Ok {A} a.
Arguments Stop {A} e.

Definition res_bind {A B} (m : res A) (k : A → res B) : res B :=
  match m with Ok a => k a | Stop e => Stop e end.

Declare Scope onix_scope.
Delimit Scope onix_scope with onix.
Open Scope onix_scope.

Notation "'let!' x ':=' m 'in' k" := (res_bind m (λ x, k))
  (at level 10, x pattern, m at level 100, k at level 200,
   format "'[v' 'let!'  x  ':='  m  'in' '/' k ']'") : onix_scope.

(** [assert(b)] of [src/src/lib/assert.c]: a false condition never returns. *)
Definition check (b : bool) : res unit := if b then Ok tt else Stop Assert.

Notation "'assert!' b 'in' k" := (res_bind (check b) (λ _, k))
  (at level 10, b at level 100, k at level 200,
   format "'[v' 'assert!'  b  'in' '/' k ']'") : onix_scope.

(** Access to an object of the store; a dangling or null pointer faults. *)
Definition deref {A} (o : option A) : res A :=
  match o with Some a => Ok a | None => Stop Fault end.

(** ** Stateful code: state passing over [res] *)
Definition ST (S A : Type) := S → res (A * S).

Definition st_ret {S A} (a : A) : ST S A := λ s, Ok (a, s).
Definition st_bind {S A B} (m : ST S A) (k : A → ST S B) : ST S B :=
  λ s, match m s with Ok (a, s') => k a s' | Stop e => Stop e end.
Definition st_get {S} : ST S S := λ s, Ok (s, s).
Definition st_put {S} (s : S) : ST S unit := λ _, Ok (tt, s).
Definition st_gets {S A} (f : S → A) : ST S A := λ s, Ok (f s, s).
Definition st_mod {S} (f : S → S) : ST S unit := λ s, Ok (tt, f s).
Definition st_check {S} (b : bool) : ST S unit :=
  λ s, if b then Ok (tt, s) else Stop Assert.
Definition st_lift {S A} (m : res A) : ST S A :=
  λ s, match m with Ok a => Ok (a, s) | Stop e => Stop e end.
Definition st_deref {S A} (f : S → option A) : ST S A :=
  λ s, match f s with Some a => Ok (a, s) | None => Stop Fault end.
Definition st_stop {S A} (e : stop) : ST S A := λ _, Stop e.
Definition st_when {S} (b : bool) (m : ST S unit) : ST S unit :=
  if b then m else st_ret tt.

Notation "'let*' x ':=' m 'in' k" := (st_bind m (λ x, k))
  (at level 10, x pattern, m at level 100, k at level 200,
   format "'[v' 'let*'  x  ':='  m  'in' '/' k ']'") : onix_scope.
Notation "'do!' m ';' k" := (st_bind m (λ _, k))
  (at level 10, m at level 100, k at level 200,
   format "'[v' 'do!'  m ';' '/' k ']'") : onix_scope.

(** [for (; ...; )] over a list, front to back. *)
Fixpoint st_for {S A} (l : list A) (body : A → ST S unit) : ST S unit :=
  match l with
  | [] => st_ret tt
  | a :: l' => do! body a; st_for l' body
  end.

(** One step of a sequence whose first action is known. *)
Lemma st_bind_ok {S A B} (m : ST S A) (k : A → ST S B) s a s' :
  m s = Ok (a, s') → st_bind m k s = k a s'.
Proof. intros H. unfold st_bind. by rewrite H. Qed.
Lemma st_bind_stop {S A B} (m : ST S A) (k : A → ST S B) s e :
  m s = Stop e → st_bind m k s = Stop e.
Proof. intros H. unfold st_bind. by rewrite H. Qed.
Lemma st_bind_inv {S A B} (m : ST S A) (k : A → ST S B) s x :
  st_bind m k s = Ok x → ∃ a s', m s = Ok (a, s') ∧ k a s' = Ok x.
Proof. unfold st_bind. destruct (m s) as [[a s']|]; [eauto|done]. Qed.

(** What a call that may block gives: its value, or that the task is blocked. *)
Inductive outcome (A : Type) := Returned (a : A) | Blocked.
Arguments Returned {A} a.
Arguments Blocked {A}.

(** ** Postconditions

    [wp E m Q s]: from [s] the call [m] returns a result and a state in [Q], or
    stops for a reason in [E]; with [no_stop] this is total correctness. *)
Definition wp {S A} (E : stop → Prop) (m : ST S A) (Q : A → S → Prop) (s : S) : Prop :=
  match m s with Ok (a, s') => Q a s' | Stop e => E e end.

Definition no_stop : stop → Prop := λ _, False.
(** Only an assertion or a panic of the program stops it. *)
Definition assert_only : stop → Prop := λ e, e = Assert.

Section wp.
Context {S : Type} (E : stop → Prop).

Lemma wp_bind {A B} (m : ST S A) (k : A → ST S B) Q s :
  wp E m (λ a, wp E (k a) Q) s → wp E (st_bind m k) Q s.
Proof. unfold wp, st_bind. by destruct (m s) as [[a s']|]. Qed.
Lemma wp_ret {A} (a : A) (Q : A → S → Prop) s : Q a s → wp E (st_ret a) Q s.
Proof. done. Qed.
Lemma wp_get (Q : S → S → Prop) s : Q s s → wp E st_get Q s.
Proof. done. Qed.
Lemma wp_gets {A} (f : S → A) (Q : A → S → Prop) s : Q (f s) s → wp E (st_gets f) Q s.
Proof. done. Qed.
Lemma wp_mod f (Q : unit → S → Prop) s : Q tt (f s) → wp E (st_mod f) Q s.
Proof. done. Qed.
Lemma wp_check b (Q : unit → S → Prop) s :
  (b = false → E Assert) → (b = true → Q tt s) → wp E (st_check b) Q s.
Proof. unfold wp, st_check. destruct b; auto. Qed.
Lemma wp_check_true b (Q : unit → S → Prop) s :
  b = true → Q tt s → wp E (st_check b) Q s.
Proof. by intros ->. Qed.
Lemma wp_deref {A} (f : S → option A) a (Q : A → S → Prop) s :
  f s = Some a → Q a s → wp E (st_deref f) Q s.
Proof. unfold wp, st_deref. by intros ->. Qed.
Lemma wp_lift {A} (m : res A) a (Q : A → S → Prop) s :
  m = Ok a → Q a s → wp E (st_lift m) Q s.
Proof. unfold wp, st_lift. by intros ->. Qed.
Lemma wp_conseq {A} (m : ST S A) (Q Q' : A → S → Prop) s :
  wp E m Q s → (∀ a s', Q a s' → Q' a s') → wp E m Q' s.
Proof. unfold wp. destruct (m s) as [[a s']|]; auto. Qed.
Lemma wp_ok {A} (m : ST S A) (Q : A → S → Prop) s a s' :
  m s = Ok (a, s') → Q a s' → wp E m Q s.
Proof. unfold wp. by intros ->. Qed.
Lemma wp_result {A} (m : ST S A) (Q : A → S → Prop) s a s' :
  wp E m Q s → m s = Ok (a, s') → Q a s'.
Proof. unfold wp. intros H Hm. by rewrite Hm in H. Qed.
Lemma wp_and {A} (m : ST S A) (Q Q' : A → S → Prop) s :
  wp E m Q s → wp E m Q' s → wp E m (λ a s', Q a s' ∧ Q' a s') s.
Proof. unfold wp. destruct (m s) as [[a s']|]; auto. Qed.

(** A loop keeps an invariant indexed by what is still to do. *)
Lemma wp_for {A} (l : list A) (body : A → ST S unit) (I : list A → S → Prop) s :
  (∀ l1 a l2 s, l = l1 ++ a :: l2 → I (a :: l2) s → wp E (body a) (λ _, I l2) s) →
  I l s → wp E (st_for l body) (λ _, I []) s.
Proof.
  intros Hb. assert (∀ l1 l2 s, l = l1 ++ l2 → I l2 s →
    wp E (st_for l2 body) (λ _, I []) s) as H; [|by apply (H [])].
  intros l1 l2. revert l1. induction l2 as [|a l2 IH]; intros l1 s1 Hl HI; [done|].
  cbn [st_for]. apply wp_bind. eapply wp_conseq; [by apply (Hb l1)|]. intros [] s2.
  apply (IH (l1 ++ [a])). by rewrite Hl, <- app_assoc.
Qed.

(** A counting loop keeps an invariant indexed by the counter. *)
Lemma wp_for_seq (n : Z) (body : Z → ST S unit) (I : Z → S → Prop) s : 0 ≤ n →
  (∀ i s, 0 ≤ i < n → I i s → wp E (body i) (λ _, I (i + 1)) s) →
  I 0 s → wp E (st_for (seqZ 0 n) body) (λ _, I n) s.
Proof.
  intros Hn Hb H0.
  eapply wp_conseq; [apply (wp_for (seqZ 0 n) body (λ l, I (n - Z.of_nat (length l))))|].
  - intros l1 i l2 s' Hl HI.
    assert (Z.of_nat (length l1) + 1 + Z.of_nat (length l2) = n) as Hlen.
    { apply (f_equal length) in Hl. rewrite length_seqZ, length_app in Hl. cbn in Hl. lia. }
    assert (i = Z.of_nat (length l1)) as Hi.
    { assert (seqZ 0 n !! length l1 = Some i) as Hl'
        by (rewrite Hl; by rewrite lookup_app_r, Nat.sub_diag by lia).
      apply lookup_seqZ in Hl' as [-> _]. lia. }
    cbn in HI. eapply wp_conseq; [apply (Hb i); [lia|]|].
    + by replace i with (n - Z.of_nat (Datatypes.S (length l2))) by lia.
    + intros [] s2. by replace (i + 1) with (n - Z.of_nat (length l2)) by lia.
  - rewrite length_seqZ. by replace (n - Z.of_nat (Z.to_nat n)) with 0 by lia.
  - intros [] s2. cbn. by rewrite Z.sub_0_r.
Qed.
End wp.

Lemma wp_total {S A} (m : ST S A) (Q : A → S → Prop) s :
  wp no_stop m Q s → ∃ a s', m s = Ok (a, s') ∧ Q a s'.
Proof. unfold wp. destruct (m s) as [[a s']|e]; [eauto|done]. Qed.
Lemma wp_weaken {S A} (E E' : stop → Prop) (m : ST S A) (Q : A → S → Prop) s :
  (∀ e, E e → E' e) → wp E m Q s → wp E' m Q s.
Proof. unfold wp. destruct (m s) as [[a s']|e]; eauto. Qed.

(** The next action of a sequence, when it reads or writes the state. *)
Ltac wp_step :=
  lazymatch goal with
  | |- wp _ (st_bind _ _) _ _ => apply wp_bind
  | |- wp _ (st_ret _) _ _ => apply wp_ret
  | |- wp _ st_get _ _ => apply wp_get
  | |- wp _ (st_gets _) _ _ => apply wp_gets
  | |- wp _ (st_mod _) _ _ => apply wp_mod
  end; cbv beta.

(** ** Step systems *)
Section steps.
Context {S : Type} (step : S → S → Prop).

Inductive steps : S → S → Prop :=
| steps_refl s : steps s s
| steps_cons s1 s2 s3 : step s1 s2 → steps s2 s3 → steps s1 s3.

Lemma steps_trans s1 s2 s3 : steps s1 s2 → steps s2 s3 → steps s1 s3.
Proof. induction 1; eauto using steps. Qed.

Lemma steps_once s1 s2 : step s1 s2 → steps s1 s2.
Proof. eauto using steps. Qed.

(** An inductive invariant holds in every reachable state. *)
Lemma steps_invariant (I : S → Prop) s s' :
  (∀ a b, I a → step a b → I b) → I s → steps s s' → I s'.
Proof. intros HI Hs Hst. induction Hst; eauto. Qed.
End steps.

(** ** Updates of one field of a record

    [r <| f := v |>] is the assignment [r.f = v] of C.  A record type declares an
    [Expand] instance, its constructor applied to its projections; the instance
    of [Modify] of a field is computed from it. *)
Class Expand (R : Type) := expand : R → R.
Class Modify {R T : Type} (f : R → T) := modify : (T → T) → R → R.
Arguments modify {R T} f {_} _ _ : simpl never.

Ltac derive_modify f :=
  match type of f with
  | ?R → _ =>
      let e := constr:(@expand R _) in
      let e := eval hnf in e in
      match eval pattern f in e with
      | ?F _ => let m := eval cbv beta in (λ g r, F (λ x, g (f x)) r) in exact m
      end
  end.
#[export] Hint Extern 0 (@Modify _ _ ?f) => derive_modify f : typeclass_instances.

(** Reads fields of updated records. *)
Ltac upd_simpl :=
  repeat match goal with
  | |- context [?f (modify ?g ?h ?r)] =>
      is_const f; first [ constr_eq f g; progress change (f (modify g h r)) with (h (f r))
            | progress change (f (modify g h r)) with (f r) ]; cbv beta
  | H : context [?f (modify ?g ?h ?r)] |- _ =>
      is_const f; first [ constr_eq f g; progress change (f (modify g h r)) with (h (f r)) in H
            | progress change (f (modify g h r)) with (f r) in H ]; cbv beta in H
  end.

Notation "r '<|' f := v '|>'" := (modify f (λ _, v) r)
  (at level 12, f constr at level 9, v at level 200, left associativity,
   format "r  '<|'  f  :=  v  '|>'") : onix_scope.
Notation "r '<|' f '$=' g '|>'" := (modify f g r)
  (at level 12, f constr at level 9, g at level 200, left associativity,
   format "r  '<|'  f  '$='  g  '|>'") : onix_scope.

(** ** Automation *)

(** Case analysis on the outcome of the sub-computations of a hypothesis. *)
Ltac inv_ok :=
  repeat match goal with
  | H : Ok _ = Ok _ |- _ => injection H as H; subst
  | H : Stop _ = Ok _ |- _ => discriminate H
  | H : Ok _ = Stop _ |- _ => discriminate H
  | H : check ?b = Ok _ |- _ =>
      let E := fresh "Hchk" in destruct b eqn:E; [clear H|discriminate H]
  | H : res_bind ?m _ = Ok _ |- _ =>
      let E := fresh "E" in
      destruct m eqn:E; [cbn [res_bind] in H | discriminate H]
  | H : st_bind _ _ _ = Ok _ |- _ => unfold st_bind at 1 in H
  | H : match ?m with Ok _ => _ | Stop _ => _ end = Ok _ |- _ =>
      let E := fresh "E" in destruct m eqn:E; [|discriminate H]
  | p : (_ * _)%type |- _ => destruct p
  end.

Create HintDb onix discriminated.
#[export] Hint Resolve u8_range u16_range u32_range s32_range : onix.
Create Rewrite HintDb onix_int.
#[export] Hint Rewrite u32_idemp s32_u32 u32_s32 u32_add_l u32_add_r u32_sub_l
  u32_sub_r : onix_int.

(** ** Bits and bytes *)

Lemma land_1_shift a k : 0 ≤ k →
  negb (Z.land a (Z.shiftl 1 k) =? 0) = Z.testbit a k.
Proof.
  intros Hk. rewrite Z.shiftl_1_l.
  destruct (Z.eqb_spec (Z.land a (2 ^ k)) 0) as [E|E].
  - assert (Z.testbit (Z.land a (2 ^ k)) k = false) as H
      by (rewrite E; apply Z.bits_0).
    rewrite Z.land_spec, Z.pow2_bits_true, andb_true_r in H by lia.
    by rewrite H.
  - destruct (Z.testbit a k) eqn:Hb; [done|]. exfalso. apply E.
    apply Z.bits_inj'. intros n Hn.
    rewrite Z.land_spec, Z.bits_0, Z.pow2_bits_eqb by lia.
    destruct (Z.eqb_spec k n) as [->|]; [by rewrite Hb|apply andb_false_r].
Qed.

Lemma testbit_high a n k : 0 ≤ n ≤ k → 0 ≤ a < 2 ^ n → Z.testbit a k = false.
Proof.
  intros Hk Ha. destruct (Z.eq_dec a 0) as [->|]; [apply Z.bits_0|].
  apply Z.bits_above_log2; [lia|].
  assert (Z.log2 a < n) by (apply Z.log2_lt_pow2; lia). lia.
Qed.

Lemma u8_testbit a k : 0 ≤ k < 8 → Z.testbit (u8 a) k = Z.testbit a k.
Proof. intros. apply Z.mod_pow2_bits_low. lia. Qed.

(** ** Lists *)

Lemma Forall_insert_list {A} (P : A → Prop) (l : list A) i x :
  Forall P l → P x → Forall P (<[i:=x]> l).
Proof.
  intros Hl Hx. apply Forall_lookup. intros j y Hj.
  destruct (decide (i = j)) as [->|Hne].
  - destruct (decide (j < length l)%nat).
    + rewrite list_lookup_insert_eq in Hj by lia. by simplify_eq.
    + rewrite list_insert_ge in Hj by lia. by eapply Forall_lookup_1 in Hj.
  - rewrite list_lookup_insert_ne in Hj by done.
    by eapply Forall_lookup_1 in Hj.
Qed.

Lemma filter_all {A} (P : A → Prop) `{!∀ x, Decision (P x)} (l : list A) :
  (∀ x, x ∈ l → P x) → filter P l = l.
Proof.
  induction l as [|x l IH]; intros Hall; [done|].
  rewrite filter_cons_True by (apply Hall; left). f_equal. apply IH.
  intros y Hy. apply Hall. by right.
Qed.

Lemma filter_none {A} (P : A → Prop) `{!∀ x, Decision (P x)} (l : list A) :
  (∀ x, x ∈ l → ¬ P x) → filter P l = [].
Proof.
  induction l as [|x l IH]; intros Hall; [done|].
  rewrite filter_cons_False by (apply Hall; left). apply IH.
  intros y Hy. apply Hall. by right.
Qed.

(** ** Sums over finite lists *)
Section zsum.
Context {A : Type}.
Implicit Types (f g : A → Z) (l : list A).

Fixpoint zsum f l : Z := match l with [] => 0 | a :: l' => f a + zsum f l' end.

Lemma zsum_app f l1 l2 : zsum f (l1 ++ l2) = zsum f l1 + zsum f l2.
Proof. induction l1; cbn; lia. Qed.
Lemma zsum_ext f g l : (∀ a, a ∈ l → f a = g a) → zsum f l = zsum g l.
Proof.
  induction l as [|a l IH]; intros H; [done|]. cbn.
  rewrite (H a) by left. f_equal. apply IH. intros; apply H; by right.
Qed.
Lemma zsum_nonneg f l : (∀ a, a ∈ l → 0 ≤ f a) → 0 ≤ zsum f l.
Proof.
  induction l as [|a l IH]; intros H; cbn; [lia|].
  assert (0 ≤ f a) by (apply H; left).
  assert (0 ≤ zsum f l) by (apply IH; intros; apply H; by right). lia.
Qed.
Lemma zsum_zero f l : (∀ a, a ∈ l → f a = 0) → zsum f l = 0.
Proof.
  induction l as [|a l IH]; intros H; cbn; [done|].
  rewrite (H a) by left. rewrite IH; [lia|]. intros; apply H; by right.
Qed.
Lemma zsum_plus f g l : zsum (λ a, f a + g a) l = zsum f l + zsum g l.
Proof. induction l; cbn; lia. Qed.

(** Only the term of [a] changes. *)
Lemma zsum_update f g l a : NoDup l → a ∈ l →
  (∀ b, b ∈ l → b ≠ a → f b = g b) → zsum g l = zsum f l - f a + g a.
Proof.
  induction 1 as [|b l Hb Hnd IH]; intros Hin Hne; [by apply elem_of_nil in Hin|].
  cbn. apply elem_of_cons in Hin as [->|Hin].
  - rewrite (zsum_ext g f l); [lia|]. intros c Hc. symmetry. apply Hne; [by right|].
    by intros ->.
  - rewrite IH; [|done|intros; apply Hne; [by right|done]].
    rewrite (Hne b); [lia|left|by intros ->].
Qed.

(** A term is at most a sum of terms that are not negative. *)
Lemma zsum_split f l a : NoDup l → a ∈ l → (∀ b, b ∈ l → 0 ≤ f b) →
  f a ≤ zsum f l ∧ ∀ b, b ∈ l → b ≠ a → f a + f b ≤ zsum f l.
Proof.
  induction 1 as [|c l Hc Hnd IH]; intros Hin Hp; [by apply elem_of_nil in Hin|].
  assert (0 ≤ f c) by (apply Hp; left).
  assert (∀ b, b ∈ l → 0 ≤ f b) as Hp' by (intros; apply Hp; by right).
  assert (∀ b, b ∈ l → f b ≤ zsum f l) as Hle.
  { intros b Hb. clear -Hp' Hb. induction l as [|d l IH]; [by apply elem_of_nil in Hb|].
    cbn. assert (0 ≤ f d) by (apply Hp'; left).
    assert (∀ e, e ∈ l → 0 ≤ f e) as Hl by (intros; apply Hp'; by right).
    pose proof (zsum_nonneg f l Hl).
    apply elem_of_cons in Hb as [->|Hb]; [lia|]. specialize (IH Hl Hb). lia. }
  cbn. apply elem_of_cons in Hin as [->|Hin]; split.
  - pose proof (zsum_nonneg f l Hp'). lia.
  - intros b Hb Hne. apply elem_of_cons in Hb as [->|Hb]; [done|]. specialize (Hle b Hb). lia.
  - specialize (Hle a Hin). lia.
  - destruct IH as [_ IH]; [done|done|].
    intros b Hb Hne. apply elem_of_cons in Hb as [->|Hb].
    + specialize (Hle a Hin). lia.
    + specialize (IH b Hb Hne). lia.
Qed.
End zsum.

Lemma zsum_insert {A} (f : A → Z) (l : list A) i x y : l !! i = Some x →
  zsum f (<[i := y]> l) = zsum f l - f x + f y.
Proof.
  revert i. induction l as [|a l IH]; intros [|i] H; simplify_eq/=; [lia|].
  rewrite (IH i H). lia.
Qed.

(** ** Updates of lists and maps *)
Lemma insert_lookup {A} (l : list A) n x y : l !! n = Some x → <[n := y]> l !! n = Some y.
Proof. intros Hx. apply list_lookup_insert_eq. by eapply lookup_lt_Some. Qed.

Lemma alter_list_insert {A} (f : A → A) (l : list A) i x :
  l !! i = Some x → alter f i l = <[i := f x]> l.
Proof.
  intros Hx. apply list_eq. intros j. destruct (decide (i = j)) as [<-|Hne].
  - rewrite list_lookup_alter_eq, list_lookup_insert_eq, Hx; [done|]. by eapply lookup_lt_Some.
  - by rewrite list_lookup_alter_ne, list_lookup_insert_ne.
Qed.

Lemma filter_ext_elem {A} (P P' : A → Prop) `{!∀ x, Decision (P x), !∀ x, Decision (P' x)} (l : list A) :
  (∀ x, x ∈ l → P x ↔ P' x) → filter P l = filter P' l.
Proof.
  intros Hx. induction l as [|x l IH]; [done|]. rewrite !filter_cons, IH by (intros; apply Hx; by right).
  assert (P x ↔ P' x) as Hx' by (apply Hx; left).
  destruct (decide (P x)), (decide (P' x)); tauto.
Qed.

Lemma alter_map_insert {A} (f : A → A) (m : gmap Z A) i x :
  m !! i = Some x → alter f i m = <[i := f x]> m.
Proof.
  intros Hx. apply map_eq. intros j. destruct (decide (i = j)) as [<-|Hne].
  - by rewrite lookup_alter_eq, lookup_insert_eq, Hx.
  - by rewrite lookup_alter_ne, lookup_insert_ne.
Qed.

Lemma removelast_spec {A} (l : list A) a : NoDup l → last l = Some a →
  NoDup (removelast l) ∧ ∀ c, c ∈ removelast l ↔ c ∈ l ∧ c ≠ a.
Proof.
  destruct l as [|x l _] using rev_ind; [done|]. rewrite last_snoc, removelast_last.
  intros (Hnd & Hx & _)%NoDup_app [= <-]. split; [done|]. intros c.
  rewrite elem_of_app, list_elem_of_singleton. split; [|tauto].
  intros Hc. split; [by left|]. intros ->. apply (Hx x Hc). by apply list_elem_of_singleton.
Qed.
