(* ===== verification/Bytes.v ===== *)
(** * Bytes

    Little-endian numbers as lists of bytes, and parts of a block of memory. *)
From S2P Require Import Prelude.
Open Scope Z_scope.

Fixpoint le (l : list Z) : Z := match l with [] => 0 | b :: l' => b + 256 * le l' end.
Fixpoint le_bytes (n : nat) (v : Z) : list Z :=
  match n with O => [] | S n' => u8 v :: le_bytes n' (v `div` 256) end.
Definition slice (off n : nat) (l : list Z) : list Z := take n (drop off l).

Lemma length_le_bytes n v : length (le_bytes n v) = n.
Proof. revert v. induction n as [|n IH]; intros v; cbn; [done|by rewrite IH]. Qed.

Lemma le_le_bytes n v : le (le_bytes n v) = v `mod` 256 ^ Z.of_nat n.
Proof.
  revert v. induction n as [|n IH]; intros v; [by rewrite Z.mod_1_r|]. cbn [le le_bytes]. rewrite IH.
  rewrite Nat2Z.inj_succ, Z.pow_succ_r, (Z.rem_mul_r v 256 (256 ^ Z.of_nat n)) by lia. done.
Qed.

Lemma le_range l : Forall (λ b, 0 ≤ b < 256) l → 0 ≤ le l < 256 ^ Z.of_nat (length l).
Proof.
  induction 1 as [|b l Hb Hl IH]; cbn [le length]; [done|].
  rewrite Nat2Z.inj_succ, Z.pow_succ_r by lia. lia.
Qed.

Lemma le_bytes_range n v : Forall (λ b, 0 ≤ b < 256) (le_bytes n v).
Proof. revert v. induction n as [|n IH]; intros v; constructor; [apply u8_range|apply IH]. Qed.

Lemma length_slice off n (l : list Z) : (off + n ≤ length l)%nat → length (slice off n l) = n.
Proof. intros H. unfold slice. rewrite length_take, length_drop. lia. Qed.

Lemma lookup_slice off n (l : list Z) i : (i < n)%nat → slice off n l !! i = l !! (off + i)%nat.
Proof. intros H. unfold slice. by rewrite lookup_take_lt, lookup_drop. Qed.

Lemma slice_ext off n (l l' : list Z) : (∀ i, (off ≤ i < off + n)%nat → l !! i = l' !! i) →
  slice off n l = slice off n l'.
Proof.
  intros H. apply list_eq. intros i. destruct (decide (i < n)%nat).
  - rewrite !lookup_slice by done. apply H. lia.
  - rewrite !lookup_ge_None_2; [done|unfold slice; rewrite length_take; lia..].
Qed.

Lemma slice_inserts off (k l : list Z) : (off + length k ≤ length l)%nat →
  slice off (length k) (list_inserts off k l) = k.
Proof.
  intros H. apply list_eq. intros i. destruct (decide (i < length k)%nat).
  - rewrite lookup_slice, list_lookup_inserts by lia. f_equal. lia.
  - rewrite !lookup_ge_None_2; [done|lia|unfold slice; rewrite length_take; lia].
Qed.

Lemma slice_inserts_apart off n off' (k l : list Z) :
  (off + n ≤ off' ∨ off' + length k ≤ off)%nat → slice off n (list_inserts off' k l) = slice off n l.
Proof.
  intros H. apply slice_ext. intros i Hi. destruct H.
  - by rewrite list_lookup_inserts_lt by lia.
  - by rewrite list_lookup_inserts_ge by lia.
Qed.

(** A zero block holds only zeros. *)
Lemma le_zeros n : le (replicate n 0) = 0.
Proof. induction n as [|n IH]; cbn; [done|by rewrite IH]. Qed.

Lemma list_inserts_drop (l m : list Z) k : (k + length l ≤ length m)%nat →
  list_inserts k l m = take k m ++ l ++ drop (k + length l) m.
Proof.
  intros H. apply list_eq. intros i. destruct (decide (i < k)%nat).
  - rewrite list_lookup_inserts_lt, lookup_app_l, lookup_take_lt by (rewrite ?length_take; lia). done.
  - rewrite lookup_app_r by (rewrite length_take; lia). rewrite length_take, Nat.min_l by lia.
    destruct (decide (i < k + length l)%nat).
    + rewrite list_lookup_inserts, lookup_app_l by lia. done.
    + rewrite list_lookup_inserts_ge, lookup_app_r, lookup_drop by lia. f_equal. lia.
Qed.

Lemma slice_app off a b (l : list Z) : slice off (a + b) l = slice off a l ++ slice (off + a) b l.
Proof.
  unfold slice. rewrite <-(take_drop a (take (a + b) (drop off l))). rewrite take_take, Nat.min_l by lia. f_equal.
  rewrite skipn_firstn_comm, drop_drop. by replace (a + b - a)%nat with b by lia.
Qed.

(** ** A block of memory as the state *)
Definition store (off : nat) (bytes : list Z) : ST (list Z) unit :=
  let* m := st_get in
  if (off + length bytes <=? length m)%nat then st_mod (list_inserts off bytes) else st_stop Fault.

Lemma wp_store E off bytes m (Q : unit → list Z → Prop) : (off + length bytes ≤ length m)%nat →
  Q tt (list_inserts off bytes m) → wp E (store off bytes) Q m.
Proof. intros H HQ. unfold store. apply wp_bind, wp_get. rewrite (proj2 (Nat.leb_le _ _)) by done. by apply wp_mod. Qed.

Lemma inserts_next off (a b m : list Z) : list_inserts (off + length a) b (list_inserts off a m) = list_inserts off (a ++ b) m.
Proof. by rewrite list_inserts_app_l, Nat.add_comm. Qed.

Lemma head_of (l m : list Z) : (length l ≤ length m)%nat → list_inserts 0 l m = l ++ drop (length l) m.
Proof. intros. rewrite <-(take_drop (length l) m) at 1. rewrite list_inserts_0_r; [done|]. rewrite length_take. lia. Qed.

(** A sequence of encodings, none of them empty, is as long as the sequence. *)
Lemma counted {A} (f : A → list Z) (l : list A) : (∀ x, (1 ≤ length (f x))%nat) → (length l ≤ length (mjoin (f <$> l)))%nat.
Proof. intros Hf. induction l as [|x l IH]; [done|]. change (mjoin (f <$> x :: l)) with (f x ++ mjoin (f <$> l)). rewrite length_app. specialize (Hf x). cbn. lia. Qed.
