(* ===== verification/Bitmap.v ===== *)
(** * Bitmaps ([src/src/lib/bitmap.c], [src/src/include/onix/bitmap.h])

    The bitmap of the kernel pages, of the user mappings, of the ports and of
    the minix allocation maps: single-bit test and set, and the first-fit scan
    of a run of clear bits that [bitmap_scan] allocates. *)
From S2P Require Import Prelude.

(** [bits] is the buffer the pointer designates; [length] is the byte count the
    program believes it has.  An access outside the buffer is a [Fault]. *)
Record bitmap_t := mk_bitmap { bits : list Z; length : Z; offset : Z }.

Definition bitmap_make (buf : list Z) (len off : Z) : bitmap_t :=
  mk_bitmap buf len off.

(** [memset(bits, 0, length)]: the first [length] bytes of the buffer. *)
Definition bitmap_init (buf : list Z) (len start : Z) : res bitmap_t :=
  if len <=? Z.of_nat (List.length buf) then
    Ok (bitmap_make (replicate (Z.to_nat len) 0 ++ drop (Z.to_nat len) buf) len start)
  else Stop Fault.

Definition load_byte (buf : list Z) (i : Z) : res Z := deref (buf !! Z.to_nat i).

Definition store_byte (buf : list Z) (i v : Z) : res (list Z) :=
  if i <? Z.of_nat (List.length buf) then Ok (<[Z.to_nat i := v]> buf) else Stop Fault.

Definition bitmap_test (map : bitmap_t) (index : Z) : res bool :=
  assert! offset map <=? index in
  let idx := u32 (index - offset map) in
  let bytes := idx `div` 8 in
  let b := u8 (idx `mod` 8) in
  assert! bytes <? length map in
  let! v := load_byte (bits map) bytes in
  Ok (negb (Z.land v (Z.shiftl 1 b) =? 0)).

Definition bitmap_set (map : bitmap_t) (index : Z) (value : bool) : res bitmap_t :=
  assert! offset map <=? index in
  let idx := u32 (index - offset map) in
  let bytes := idx `div` 8 in
  let b := u8 (idx `mod` 8) in
  let! v := load_byte (bits map) bytes in
  let! buf :=
    store_byte (bits map) bytes
      (if value then u8 (Z.lor v (Z.shiftl 1 b))
       else u8 (Z.land v (Z.lnot (Z.shiftl 1 b)))) in
  Ok (mk_bitmap buf (length map) (offset map)).

(** The search loop [while (bits_left-- > 0)]; it returns the value of [start]. *)
Fixpoint scan_loop (map : bitmap_t) (count : Z) (bits_left : nat)
    (next_bit counter : Z) : res Z :=
  match bits_left with
  | O => Ok EOF
  | S left' =>
      let! used := bitmap_test map (u32 (offset map + next_bit)) in
      let counter := if negb used then u32 (counter + 1) else 0 in
      let next_bit := u32 (next_bit + 1) in
      if counter =? count then Ok (s32 (next_bit - count))
      else scan_loop map count left' next_bit counter
  end.

(** The marking loop [while (bits_left--)]. *)
Fixpoint mark_loop (map : bitmap_t) (bits_left : nat) (next_bit : Z) : res bitmap_t :=
  match bits_left with
  | O => Ok map
  | S left' =>
      let! map' := bitmap_set map (u32 (offset map + next_bit)) true in
      mark_loop map' left' (u32 (next_bit + 1))
  end.

Definition bitmap_scan (map : bitmap_t) (count : Z) : res (Z * bitmap_t) :=
  let! start := scan_loop map count (Z.to_nat (u32 (length map * 8))) 0 0 in
  if start =? EOF then Ok (EOF, map)
  else
    let! map' := mark_loop map (Z.to_nat count) (u32 start) in
    Ok (s32 (start + offset map), map').

(** ** The bits of a bitmap *)

(** Bit [k] (counted from the start of the buffer). *)
Definition bit (buf : list Z) (k : Z) : bool :=
  match buf !! Z.to_nat (k `div` 8) with
  | Some v => Z.testbit v (k `mod` 8)
  | None => false
  end.

Definition nbits (map : bitmap_t) : Z := length map * 8.

(** Well-formed: the buffer has [length] bytes, and the indices fit an [int]. *)
Record bitmap_wf (map : bitmap_t) : Prop := {
  wf_len : length map = Z.of_nat (List.length (bits map));
  wf_off : 0 ≤ offset map;
  wf_fit : offset map + nbits map < 2 ^ 31;
  wf_byte : Forall (λ v, 0 ≤ v < 256) (bits map) }.

(** The run of [count] bits from [s] is inside the bitmap and clear. *)
Definition free_run (map : bitmap_t) (count s : Z) : Prop :=
  0 ≤ s ∧ s + count ≤ nbits map ∧
  ∀ k, s ≤ k < s + count → bit (bits map) k = false.

(** [map'] is [map] with exactly the bits of the set [P] changed to [v]. *)
Definition bits_updated (map map' : bitmap_t) (P : Z → bool) (v : bool) : Prop :=
  length map' = length map ∧ offset map' = offset map ∧
  ∀ k, 0 ≤ k → bit (bits map') k =
    if P k && (k <? nbits map) then v else bit (bits map) k.

Lemma load_byte_ok buf i : 0 ≤ i < Z.of_nat (List.length buf) →
  ∃ v, buf !! Z.to_nat i = Some v ∧ load_byte buf i = Ok v.
Proof.
  intros Hi. destruct (lookup_lt_is_Some_2 buf (Z.to_nat i)) as [v Hv]; [lia|].
  exists v. unfold load_byte. by rewrite Hv.
Qed.

Section wf.
Context (map : bitmap_t) (Hwf : bitmap_wf map).

Lemma nbits_nonneg : 0 ≤ nbits map.
Proof using Hwf. destruct Hwf. unfold nbits in *. lia. Qed.

Lemma bitmap_test_ok k : 0 ≤ k < nbits map →
  bitmap_test map (offset map + k) = Ok (bit (bits map) k).
Proof using Hwf.
  intros Hk. destruct Hwf as [Hl Ho Hf Hb]. unfold nbits in *.
  change (2 ^ 31) with 2147483648 in Hf.
  unfold bitmap_test. rewrite (proj2 (Z.leb_le _ _)) by lia. cbn [check res_bind].
  replace (u32 (offset map + k - offset map)) with k by (symmetry; rewrite u32_small; lia).
  rewrite (proj2 (Z.ltb_lt _ _)) by (apply Z.div_lt_upper_bound; lia).
  cbn [check res_bind].
  destruct (load_byte_ok (bits map) (k `div` 8)) as (v & Hv & ->).
  { split; [apply Z.div_pos; lia | apply Z.div_lt_upper_bound; lia]. }
  cbn [res_bind]. unfold bit. rewrite Hv.
  assert (0 ≤ k `mod` 8 < 8) by (apply Z.mod_pos_bound; lia).
  rewrite u8_small by lia. by rewrite land_1_shift by lia.
Qed.

Lemma set_bit_value v b k value : 0 ≤ b < 8 → 0 ≤ k < 8 → 0 ≤ v < 256 →
  Z.testbit (if (value : bool) then u8 (Z.lor v (Z.shiftl 1 b))
             else u8 (Z.land v (Z.lnot (Z.shiftl 1 b)))) k
  = if k =? b then value else Z.testbit v k.
Proof.
  intros Hb Hk Hv. rewrite !Z.shiftl_1_l.
  destruct value; rewrite u8_testbit by lia.
  - rewrite Z.lor_spec, Z.pow2_bits_eqb, (Z.eqb_sym b k) by lia.
    destruct (k =? b); [apply orb_true_r | apply orb_false_r].
  - rewrite Z.land_spec, Z.lnot_spec, Z.pow2_bits_eqb, (Z.eqb_sym b k) by lia.
    destruct (k =? b); [apply andb_false_r | apply andb_true_r].
Qed.

Lemma bitmap_set_ok k value : 0 ≤ k < nbits map →
  ∃ map', bitmap_set map (offset map + k) value = Ok map' ∧
    bitmap_wf map' ∧ bits_updated map map' (λ j, j =? k) value.
Proof using Hwf.
  intros Hk. destruct Hwf as [Hl Ho Hf Hb]. unfold nbits in *.
  change (2 ^ 31) with 2147483648 in Hf.
  unfold bitmap_set. rewrite (proj2 (Z.leb_le _ _)) by lia. cbn [check res_bind].
  replace (u32 (offset map + k - offset map)) with k by (symmetry; rewrite u32_small; lia).
  assert (0 ≤ k `div` 8 < Z.of_nat (List.length (bits map))) as Hd.
  { split; [apply Z.div_pos; lia | apply Z.div_lt_upper_bound; lia]. }
  assert (0 ≤ k `mod` 8 < 8) as Hm by (apply Z.mod_pos_bound; lia).
  destruct (load_byte_ok (bits map) (k `div` 8)) as (v & Hv & ->); [done|].
  cbn [res_bind]. rewrite (u8_small (k `mod` 8)) by lia.
  unfold store_byte. rewrite (proj2 (Z.ltb_lt _ _)) by lia. cbn [res_bind].
  assert (0 ≤ v < 256) as Hvb by exact (Forall_lookup_1 _ _ _ _ Hb Hv).
  eexists; split; [reflexivity|]. split; [split; cbn|].
  - by rewrite length_insert.
  - done.
  - unfold nbits; cbn. lia.
  - apply Forall_insert_list; [done|]. destruct value; apply u8_range.
  - split; [done|]. split; [done|]. intros j Hj. cbn [bits]. unfold bit, nbits.
    destruct (decide (j `div` 8 = k `div` 8)) as [E|E].
    + rewrite E, list_lookup_insert_eq, Hv by lia.
      rewrite set_bit_value by (try apply Z.mod_pos_bound; lia).
      rewrite (proj2 (Z.ltb_lt j _)) by (Z.div_mod_to_equations; lia).
      rewrite andb_true_r.
      destruct (Z.eqb_spec (j `mod` 8) (k `mod` 8)), (Z.eqb_spec j k); try done;
        exfalso; Z.div_mod_to_equations; lia.
    + rewrite list_lookup_insert_ne
        by (intros HH; apply E; apply Z2Nat.inj in HH;
            [done | apply Z.div_pos; lia | apply Z.div_pos; lia]).
      destruct (Z.eqb_spec j k) as [->|]; [done|]. done.
Qed.
End wf.

(** ** The scan is first fit *)

(** What the search loop has seen so far: [counter] is the length of the clear
    run that ends at [next_bit], it is maximal, and no run of [count] bits ends
    before. *)
Record scan_inv (map : bitmap_t) (count next_bit counter : Z) : Prop := {
  si_cnt : 0 ≤ counter < count;
  si_pos : counter ≤ next_bit ≤ nbits map;
  si_run : ∀ k, next_bit - counter ≤ k < next_bit → bit (bits map) k = false;
  si_none : ∀ s, 0 ≤ s → s + count ≤ next_bit → ¬ free_run map count s;
  si_max : counter < next_bit → bit (bits map) (next_bit - counter - 1) = true }.

Lemma scan_inv_used map count nb c : 0 < count →
  scan_inv map count nb c → nb < nbits map → bit (bits map) nb = true →
  scan_inv map count (nb + 1) 0.
Proof.
  intros Hc [Hcn Hp Hr Hn Hm] Hlt Hb. split; try lia.
  - intros s Hs Hs2 (_ & _ & Hf).
    destruct (Z.eq_dec (s + count) (nb + 1)) as [E|E].
    + rewrite Hf in Hb by lia. done.
    + apply (Hn s); [lia|lia|]. split; [lia|]. split; [lia|]. done.
  - intros _. by replace (nb + 1 - 0 - 1) with nb by lia.
Qed.

Lemma scan_inv_free map count nb c :
  scan_inv map count nb c → nb < nbits map → bit (bits map) nb = false →
  c + 1 < count → scan_inv map count (nb + 1) (c + 1).
Proof.
  intros [Hcn Hp Hr Hn Hm] Hlt Hb Hc. split; try lia.
  - intros k Hk. destruct (Z.eq_dec k nb) as [->|]; [done|]. apply Hr. lia.
  - intros s Hs Hs2 (_ & _ & Hf).
    destruct (Z.eq_dec (s + count) (nb + 1)) as [E|E].
    + assert (c < nb) as Hlt' by lia. specialize (Hm Hlt').
      rewrite Hf in Hm by lia. done.
    + apply (Hn s); [lia|lia|]. split; [lia|]. split; [lia|]. done.
  - intros. replace (nb + 1 - (c + 1) - 1) with (nb - c - 1) by lia. apply Hm. lia.
Qed.

Lemma scan_loop_spec map count (Hwf : bitmap_wf map) (Hc : 0 < count < 2 ^ 31)
    left nb c :
  scan_inv map count nb c → Z.of_nat left = nbits map - nb →
  (scan_loop map count left nb c = Ok EOF ∧ ∀ s, ¬ free_run map count s) ∨
  (∃ s, scan_loop map count left nb c = Ok s ∧ free_run map count s ∧
        ∀ s', 0 ≤ s' < s → ¬ free_run map count s').
Proof.
  revert nb c. induction left as [|left IH]; intros nb c Hinv Hleft.
  - left. split; [done|]. intros s Hf. destruct Hinv.
    destruct Hf as (Hs & Hs2 & Hf). apply (si_none0 s); [lia|lia|done].
  - pose proof Hwf as [_ Ho Hfit _]. pose proof Hinv as [Hcn Hp Hr Hn Hm].
    change (2 ^ 31) with 2147483648 in *.
    cbn [scan_loop]. rewrite (u32_small (offset map + nb)) by lia.
    rewrite bitmap_test_ok by (done || lia). cbn [res_bind].
    rewrite (u32_small (nb + 1)) by lia.
    destruct (bit (bits map) nb) eqn:Hb; cbn [negb].
    + rewrite (proj2 (Z.eqb_neq 0 count)) by lia.
      apply IH; [|lia]. eapply scan_inv_used; eauto; lia.
    + rewrite (u32_small (c + 1)) by lia.
      destruct (Z.eqb_spec (c + 1) count) as [E|E].
      * right. exists (nb + 1 - count). split; [|split].
        -- f_equal. apply s32_small. lia.
        -- split; [lia|]. split; [lia|]. intros k Hk.
           destruct (Z.eq_dec k nb) as [->|]; [done|]. apply Hr. lia.
        -- intros s' Hs'. apply Hn; lia.
      * apply IH; [|lia]. apply scan_inv_free; auto; lia.
Qed.

Lemma mark_loop_ok n : ∀ map nb, bitmap_wf map →
  0 ≤ nb → nb + Z.of_nat n ≤ nbits map →
  ∃ map', mark_loop map n nb = Ok map' ∧ bitmap_wf map' ∧
    bits_updated map map' (λ k, (nb <=? k) && (k <? nb + Z.of_nat n)) true.
Proof.
  induction n as [|n IH]; intros map nb Hwf Hnb Hfit.
  - exists map. split; [done|]. split; [done|]. split; [done|]. split; [done|].
    intros k _. destruct (Z.leb_spec nb k), (Z.ltb_spec k (nb + Z.of_nat 0));
      (lia || done).
  - pose proof Hwf as [_ Ho Hf _]. change (2 ^ 31) with 2147483648 in *.
    cbn [mark_loop]. rewrite (u32_small (offset map + nb)) by lia.
    destruct (bitmap_set_ok map Hwf nb true) as (m1 & -> & Hwf1 & Hl1 & Ho1 & Hb1); [lia|].
    cbn [res_bind]. rewrite (u32_small (nb + 1)) by lia.
    assert (nbits m1 = nbits map) as Hn1 by (unfold nbits; lia).
    destruct (IH m1 (nb + 1)) as (m2 & -> & Hwf2 & Hl2 & Ho2 & Hb2); [done|lia|lia|].
    exists m2. split; [done|]. split; [done|]. split; [lia|]. split; [lia|].
    intros k Hk. rewrite Hb2, Hb1, Hn1 by done.
    destruct (Z.eqb_spec k nb), (Z.leb_spec (nb + 1) k), (Z.leb_spec nb k),
      (Z.ltb_spec k (nb + 1 + Z.of_nat n)), (Z.ltb_spec k (nb + Z.of_nat (S n))),
      (Z.ltb_spec k (nbits map)); cbn; (done || lia).
Qed.

Lemma scan_inv_start map count : bitmap_wf map → 0 < count →
  scan_inv map count 0 0.
Proof.
  intros Hwf Hc. pose proof (nbits_nonneg map Hwf). split; try lia.
Qed.

(** [bitmap_scan]: the two outcomes. *)
Lemma bitmap_scan_spec (map : bitmap_t) (count : Z)
    (Hwf : bitmap_wf map) (Hc : 0 < count < 2 ^ 31) :
  (bitmap_scan map count = Ok (EOF, map) ∧ ∀ s, ¬ free_run map count s) ∨
  (∃ s map', bitmap_scan map count = Ok (offset map + s, map') ∧
     free_run map count s ∧ (∀ s', 0 ≤ s' < s → ¬ free_run map count s') ∧
     bitmap_wf map' ∧
     bits_updated map map' (λ k, (s <=? k) && (k <? s + count)) true).
Proof.
  pose proof (nbits_nonneg map Hwf) as Hn0. pose proof Hwf as [Hl Ho Hf _].
  change (2 ^ 31) with 2147483648 in *. unfold bitmap_scan.
  fold (nbits map). rewrite u32_small by lia.
  destruct (scan_loop_spec map count Hwf ltac:(lia) (Z.to_nat (nbits map)) 0 0
    (scan_inv_start map count Hwf ltac:(lia)) ltac:(lia))
    as [[-> Hnone]|(s & -> & Hs & Hmin)].
  - left. cbn. done.
  - right. cbn [res_bind]. pose proof Hs as (Hs0 & Hs1 & _).
    rewrite (proj2 (Z.eqb_neq s EOF)) by (unfold EOF, EEOF; lia).
    rewrite (u32_small s) by lia.
    destruct (mark_loop_ok (Z.to_nat count) map s Hwf) as (m' & -> & Hwf' & Hu); [lia|lia|].
    exists s, m'. cbn [res_bind]. rewrite s32_small by lia.
    rewrite Z2Nat.id in Hu by lia. rewrite Z.add_comm. done.
Qed.

(** [bitmap_scan] is a first-fit allocator and never stops: on a well-formed
    bitmap it either finds the lowest run of [count] clear bits, returns its
    index and sets exactly the bits of that run, or reports [EOF], leaving the
    bitmap unchanged, when no such run exists. *)
Theorem bitmap_scan_first_fit (map : bitmap_t) (count : Z)
    (Hwf : bitmap_wf map) (Hc : 0 < count < 2 ^ 31) :
  (bitmap_scan map count = Ok (EOF, map) ∧ ∀ s, ¬ free_run map count s) ∨
  (∃ s map', bitmap_scan map count = Ok (offset map + s, map') ∧
     free_run map count s ∧ (∀ s', 0 ≤ s' < s → ¬ free_run map count s') ∧
     bitmap_wf map' ∧
     bits_updated map map' (λ k, (s <=? k) && (k <? s + count)) true).
Proof. by apply bitmap_scan_spec. Qed.

Definition demo_map : bitmap_t := mk_bitmap [7; 0] 2 256.

Lemma demo_map_wf : bitmap_wf demo_map.
Proof. split; vm_compute; try done. repeat constructor; done. Qed.

Lemma bitmap_scan_first_fit_witness :
  (bitmap_scan demo_map 4 = Ok (EOF, demo_map) ∧ ∀ s, ¬ free_run demo_map 4 s) ∨
  (∃ s map', bitmap_scan demo_map 4 = Ok (offset demo_map + s, map') ∧
     free_run demo_map 4 s ∧ (∀ s', 0 ≤ s' < s → ¬ free_run demo_map 4 s') ∧
     bitmap_wf map' ∧
     bits_updated demo_map map' (λ k, (s <=? k) && (k <? s + 4)) true).
Proof. apply (bitmap_scan_first_fit demo_map 4 demo_map_wf). split; reflexivity. Defined.

Example bitmap_scan_demo :
  bitmap_scan demo_map 4 = Ok (259, mk_bitmap [127; 0] 2 256).
Proof. reflexivity. Qed.
