(* ===== verification/Dlist.v ===== *)
(** * Intrusive doubly linked lists ([src/src/lib/list.c], [src/src/include/onix/list.h])

    The store holds the [list_node_t] cells by address; a [list_t] is the pair
    of addresses of its two sentinels.  The operations follow the pointer code;
    [Abs] is their specification on Rocq lists, which the clients of the list
    (timers, buffers, TCP, ARP, ...) use, and [dlist] relates the two. *)
From S2P Require Import Prelude.

Record list_node_t := mk_node { prev : Z; next : Z }.
Record list_t := mk_list { head : Z; tail : Z }.

(** The cells of the store; [NULL] is address 0, where no cell lives. *)
Abbreviation heap := (gmap Z list_node_t).
Definition NULL : Z := 0.

Definition get_prev (p : Z) : ST heap Z := st_deref (λ h, prev <$> h !! p).
Definition get_next (p : Z) : ST heap Z := st_deref (λ h, next <$> h !! p).
Definition set_prev (p v : Z) : ST heap unit :=
  let* n := st_deref (λ h, h !! p) in
  st_mod (λ h, <[p := mk_node v (next n)]> h).
Definition set_next (p v : Z) : ST heap unit :=
  let* n := st_deref (λ h, h !! p) in
  st_mod (λ h, <[p := mk_node (prev n) v]> h).

Definition list_init (l : list_t) : ST heap unit :=
  do! set_prev (head l) NULL;
  do! set_next (tail l) NULL;
  do! set_next (head l) (tail l);
  set_prev (tail l) (head l).

Definition list_insert_before (anchor node : Z) : ST heap unit :=
  let* p := get_prev anchor in
  do! set_prev node p;
  do! set_next node anchor;
  let* p' := get_prev anchor in
  do! set_next p' node;
  set_prev anchor node.

Definition list_insert_after (anchor node : Z) : ST heap unit :=
  do! set_prev node anchor;
  let* n := get_next anchor in
  do! set_next node n;
  let* n' := get_next anchor in
  do! set_prev n' node;
  set_next anchor node.

(** The loop of [list_search]; the fuel is the number of cells, see
    [search_loop_ok]. *)
Fixpoint search_loop (fuel : nat) (tl nxt node : Z) : ST heap bool :=
  match fuel with
  | O => st_stop Fuel
  | S f =>
      if nxt =? tl then st_ret false
      else if nxt =? node then st_ret true
      else let* n := get_next nxt in search_loop f tl n node
  end.

Definition list_search (l : list_t) (node : Z) : ST heap bool :=
  let* n := get_next (head l) in
  let* h := st_get in
  search_loop (S (size h)) (tail l) n node.

Definition list_empty (l : list_t) : ST heap bool :=
  let* n := get_next (head l) in st_ret (n =? tail l).

Definition list_remove (node : Z) : ST heap unit :=
  let* p := get_prev node in
  do! st_check (negb (p =? NULL));
  let* n := get_next node in
  do! st_check (negb (n =? NULL));
  do! set_next p n;
  do! set_prev n p;
  do! set_next node NULL;
  set_prev node NULL.

Definition list_push (l : list_t) (node : Z) : ST heap unit :=
  let* found := list_search l node in
  do! st_check (negb found);
  list_insert_after (head l) node.

Definition list_pop (l : list_t) : ST heap Z :=
  let* e := list_empty l in
  do! st_check (negb e);
  let* node := get_next (head l) in
  do! list_remove node;
  st_ret node.

Definition list_pushback (l : list_t) (node : Z) : ST heap unit :=
  let* found := list_search l node in
  do! st_check (negb found);
  list_insert_before (tail l) node.

Definition list_popback (l : list_t) : ST heap Z :=
  let* e := list_empty l in
  do! st_check (negb e);
  let* node := get_prev (tail l) in
  do! list_remove node;
  st_ret node.

Fixpoint size_loop (fuel : nat) (tl nxt sz : Z) : ST heap Z :=
  match fuel with
  | O => st_stop Fuel
  | S f =>
      if nxt =? tl then st_ret sz
      else let* n := get_next nxt in size_loop f tl n (u32 (sz + 1))
  end.

Definition list_size (l : list_t) : ST heap Z :=
  let* n := get_next (head l) in
  let* h := st_get in
  size_loop (S (size h)) (tail l) n 0.

(** [key p] is the integer the macro [element_node_key(p, offset)] reads: it lies
    in the object around the node, outside the cells, and is read as an [int]. *)
Fixpoint anchor_loop (fuel : nat) (key : Z → Z) (tl ptr k : Z) : ST heap Z :=
  match fuel with
  | O => st_stop Fuel
  | S f =>
      if ptr =? tl then st_ret tl
      else if k <? key ptr then st_ret ptr
      else let* n := get_next ptr in anchor_loop f key tl n k
  end.

Definition list_insert_sort (key : Z → Z) (l : list_t) (node : Z) : ST heap unit :=
  let* n := get_next (head l) in
  let* h := st_get in
  let* anchor := anchor_loop (S (size h)) key (tail l) n (key node) in
  let* nn := get_next node in
  do! st_check (nn =? NULL);
  let* np := get_prev node in
  do! st_check (np =? NULL);
  list_insert_before anchor node.

(** ** Specification on Rocq lists *)
Module Abs.
Fixpoint insert_sort {A} (key : A → Z) (n : A) (xs : list A) : list A :=
  match xs with
  | [] => [n]
  | x :: xs' => if key n <? key x then n :: x :: xs' else x :: insert_sort key n xs'
  end.

(** [list_remove] of a node that is in the list. *)
Definition remove (n : Z) (xs : list Z) : list Z := filter (λ x, x ≠ n) xs.

(** Decides the [list_search] calls of the code. *)
Definition mem (n : Z) (xs : list Z) : bool := bool_decide (n ∈ xs).

(** The node goes before [a], or to the end; after [a], or to the front. *)
Fixpoint insert_before (a n : Z) (xs : list Z) : list Z :=
  match xs with
  | [] => [n]
  | x :: xs' => if x =? a then n :: x :: xs' else x :: insert_before a n xs'
  end.

Fixpoint after (a n : Z) (xs : list Z) : list Z :=
  match xs with
  | [] => []
  | x :: xs' => if x =? a then x :: n :: xs' else x :: after a n xs'
  end.
Definition insert_after (a n : Z) (xs : list Z) : list Z :=
  if mem a xs then after a n xs else n :: xs.

Inductive op :=
| Push (n : Z) | Pop | Pushback (n : Z) | Popback | Remove (n : Z)
| InsertSort (n : Z) | InsertBefore (a n : Z) | InsertAfter (a n : Z)
| Search (n : Z) | Empty | Size.

Definition op_node (o : op) : option Z :=
  match o with
  | Push n | Pushback n | Remove n | InsertSort n | InsertBefore _ n | InsertAfter _ n => Some n
  | Pop | Popback | Search _ | Empty | Size => None
  end.

(** New contents and returned value, a node, a truth value or a number; [None] when
    an assertion of the code fails. *)
Definition run (key : Z → Z) (o : op) (xs : list Z) : option (list Z * option Z) :=
  match o with
  | Push n => if mem n xs then None else Some (n :: xs, None)
  | Pushback n => if mem n xs then None else Some (xs ++ [n], None)
  | Pop => match xs with [] => None | x :: xs' => Some (xs', Some x) end
  | Popback =>
      match last xs with None => None | Some x => Some (removelast xs, Some x) end
  | Remove n => if mem n xs then Some (remove n xs, None) else None
  | InsertSort n => if mem n xs then None else Some (insert_sort key n xs, None)
  | InsertBefore a n => Some (insert_before a n xs, None)
  | InsertAfter a n => Some (insert_after a n xs, None)
  | Search n => Some (xs, Some (Z.b2z (mem n xs)))
  | Empty => Some (xs, Some (Z.b2z (bool_decide (xs = []))))
  | Size => Some (xs, Some (u32 (Z.of_nat (length xs))))
  end.
End Abs.

(** The operation the code runs. *)
Definition run_op (key : Z → Z) (l : list_t) (o : Abs.op) : ST heap (option Z) :=
  match o with
  | Abs.Push n => do! list_push l n; st_ret None
  | Abs.Pop => let* n := list_pop l in st_ret (Some n)
  | Abs.Pushback n => do! list_pushback l n; st_ret None
  | Abs.Popback => let* n := list_popback l in st_ret (Some n)
  | Abs.Remove n => do! list_remove n; st_ret None
  | Abs.InsertSort n => do! list_insert_sort key l n; st_ret None
  | Abs.InsertBefore a n => do! list_insert_before a n; st_ret None
  | Abs.InsertAfter a n => do! list_insert_after a n; st_ret None
  | Abs.Search n => let* b := list_search l n in st_ret (Some (Z.b2z b))
  | Abs.Empty => let* b := list_empty l in st_ret (Some (Z.b2z b))
  | Abs.Size => let* n := list_size l in st_ret (Some n)
  end.

(** ** The representation predicate *)

Definition nxt (h : heap) (p : Z) : option Z := next <$> h !! p.
Definition prv (h : heap) (p : Z) : option Z := prev <$> h !! p.

(** Consecutive cells point at each other. *)
Fixpoint chain (h : heap) (cs : list Z) : Prop :=
  match cs with
  | a :: ((b :: _) as t) => nxt h a = Some b ∧ prv h b = Some a ∧ chain h t
  | _ => True
  end.

Definition cells (l : list_t) (xs : list Z) : list Z := head l :: xs ++ [tail l].

Record dlist (h : heap) (l : list_t) (xs : list Z) : Prop := {
  dl_nodup : NoDup (cells l xs);
  dl_null : NULL ∉ cells l xs;
  dl_chain : chain h (cells l xs);
  dl_head : prv h (head l) = Some NULL;
  dl_tail : nxt h (tail l) = Some NULL }.

(** A node in no list, as [list_remove] leaves it. *)
Definition detached (h : heap) (n : Z) : Prop :=
  nxt h n = Some NULL ∧ prv h n = Some NULL.

(** Only the cells in [cs] may have changed. *)
Definition frame (cs : list Z) (h h' : heap) : Prop :=
  ∀ p, p ∉ cs → h' !! p = h !! p.

(** ** Field-level effect of the primitives *)

Lemma nxt_dom h p v : nxt h p = Some v → ∃ n, h !! p = Some n ∧ next n = v.
Proof. unfold nxt. destruct (h !! p); naive_solver. Qed.

Lemma prv_dom h p v : prv h p = Some v → ∃ n, h !! p = Some n ∧ prev n = v.
Proof. unfold prv. destruct (h !! p); naive_solver. Qed.

Lemma get_next_ok h p v : nxt h p = Some v → get_next p h = Ok (v, h).
Proof. unfold nxt, get_next, st_deref. by intros ->. Qed.

Lemma get_prev_ok h p v : prv h p = Some v → get_prev p h = Ok (v, h).
Proof. unfold prv, get_prev, st_deref. by intros ->. Qed.

Lemma set_next_ok h p n v : h !! p = Some n →
  set_next p v h = Ok (tt, <[p := mk_node (prev n) v]> h).
Proof. unfold set_next, st_bind, st_deref. by intros ->. Qed.

Lemma set_prev_ok h p n v : h !! p = Some n →
  set_prev p v h = Ok (tt, <[p := mk_node v (next n)]> h).
Proof. unfold set_prev, st_bind, st_deref. by intros ->. Qed.

Lemma nxt_insert h p n q : nxt (<[p := n]> h) q = if decide (p = q) then Some (next n) else nxt h q.
Proof. unfold nxt. rewrite lookup_insert. by case_decide. Qed.

Lemma prv_insert h p n q : prv (<[p := n]> h) q = if decide (p = q) then Some (prev n) else prv h q.
Proof. unfold prv. rewrite lookup_insert. by case_decide. Qed.

(** [node] is linked between [p] and [q]; nothing else changed. *)
Record linked (h h' : heap) (p node q : Z) : Prop := {
  lk_nxt : ∀ x, nxt h' x = if decide (x = node) then Some q
                           else if decide (x = p) then Some node else nxt h x;
  lk_prv : ∀ x, prv h' x = if decide (x = node) then Some p
                           else if decide (x = q) then Some node else prv h x;
  lk_frame : frame [p; node; q] h h' }.

(** [node] is unlinked from between [p] and [q]. *)
Record unlinked (h h' : heap) (p node q : Z) : Prop := {
  ul_nxt : ∀ x, nxt h' x = if decide (x = node) then Some NULL
                           else if decide (x = p) then Some q else nxt h x;
  ul_prv : ∀ x, prv h' x = if decide (x = node) then Some NULL
                           else if decide (x = q) then Some p else prv h x;
  ul_frame : frame [p; node; q] h h' }.

(** Runs one store access of a goal [prog h = Ok _] and simplifies. *)
Ltac heap_step :=
  unfold st_bind at 1;
  first
    [ erewrite get_prev_ok by (rewrite ?prv_insert; repeat (case_decide; try congruence); eauto)
    | erewrite get_next_ok by (rewrite ?nxt_insert; repeat (case_decide; try congruence); eauto)
    | erewrite set_prev_ok by (rewrite ?lookup_insert_ne, ?lookup_insert_eq by congruence; eauto)
    | erewrite set_next_ok by (rewrite ?lookup_insert_ne, ?lookup_insert_eq by congruence; eauto) ];
  cbn [next prev].

(** Proves the three fields of [linked]/[unlinked] of an explicit store. *)
Ltac heap_fields :=
  split; [ intros x; rewrite !nxt_insert; cbn [next]; unfold nxt;
           repeat case_decide; subst; try congruence; simplify_map_eq; done
         | intros x; rewrite !prv_insert; cbn [prev]; unfold prv;
           repeat case_decide; subst; try congruence; simplify_map_eq; done
         | intros x Hx; rewrite !lookup_insert_ne by set_solver; done ].

Lemma list_insert_before_ok h p node q n :
  h !! node = Some n → prv h q = Some p → is_Some (h !! p) →
  node ≠ p → node ≠ q → p ≠ q →
  ∃ h', list_insert_before q node h = Ok (tt, h') ∧ linked h h' p node q.
Proof.
  intros Hn Hq [np Hp] H1 H2 H3.
  destruct (prv_dom _ _ _ Hq) as (nq & Hq' & Eq).
  unfold list_insert_before. do 5 heap_step.
  erewrite set_prev_ok by (rewrite !lookup_insert_ne by congruence; eauto).
  eexists; split; [done|]. heap_fields.
Qed.

Lemma list_insert_after_ok h p node q n :
  h !! node = Some n → nxt h p = Some q → is_Some (h !! q) →
  node ≠ p → node ≠ q → p ≠ q →
  ∃ h', list_insert_after p node h = Ok (tt, h') ∧ linked h h' p node q.
Proof.
  intros Hn Hp [nq Hq] H1 H2 H3.
  destruct (nxt_dom _ _ _ Hp) as (np & Hp' & Ep).
  unfold list_insert_after. do 5 heap_step.
  erewrite set_next_ok by (rewrite !lookup_insert_ne by congruence; eauto).
  eexists; split; [done|]. heap_fields.
Qed.

Lemma list_remove_ok h p node q :
  prv h node = Some p → nxt h node = Some q →
  is_Some (h !! p) → is_Some (h !! q) → p ≠ NULL → q ≠ NULL →
  node ≠ p → node ≠ q → p ≠ q →
  ∃ h', list_remove node h = Ok (tt, h') ∧ unlinked h h' p node q.
Proof.
  intros Hp Hq [np Hp'] [nq Hq'] Hpn Hqn H1 H2 H3.
  destruct (prv_dom _ _ _ Hp) as (n & Hn & En).
  unfold list_remove. heap_step.
  unfold st_bind at 1, st_check. rewrite (proj2 (Z.eqb_neq p NULL)) by done.
  cbn [negb]. heap_step.
  unfold st_bind at 1. rewrite (proj2 (Z.eqb_neq q NULL)) by done. cbn [negb].
  do 3 heap_step.
  erewrite set_prev_ok by (rewrite lookup_insert_eq; eauto).
  eexists; split; [done|]. heap_fields.
Qed.

(** ** Chains of cells *)

Lemma chain_app h xs a ys :
  chain h (xs ++ a :: ys) ↔ chain h (xs ++ [a]) ∧ chain h (a :: ys).
Proof.
  induction xs as [|x xs IH]; [cbn; tauto|].
  destruct xs as [|y xs]; [cbn; tauto|].
  cbn [app chain] in *.
  tauto.
Qed.

Lemma chain_frame h h' cs :
  (∀ q, q ∈ removelast cs → nxt h' q = nxt h q) →
  (∀ q, q ∈ List.tl cs → prv h' q = prv h q) → chain h cs → chain h' cs.
Proof.
  induction cs as [|a [|b t] IH]; try done. intros Hn Hp (H1 & H2 & H3).
  split; [|split].
  - rewrite Hn; [done|]. left.
  - rewrite Hp; [done|]. left.
  - apply IH; [| |done].
    + intros q Hq. apply Hn. by right.
    + intros q Hq. apply Hp. by right.
Qed.

Lemma chain_dom h a b cs x : chain h (a :: b :: cs) → x ∈ (a :: b :: cs) → is_Some (h !! x).
Proof.
  revert a b. induction cs as [|c cs IH]; intros a b Hc Hx.
  - destruct Hc as (Hn & Hp & _).
    apply nxt_dom in Hn as (? & ? & _). apply prv_dom in Hp as (? & ? & _).
    set_unfold in Hx. naive_solver.
  - destruct Hc as (Hn & _ & Hc). apply elem_of_cons in Hx as [->|Hx].
    + apply nxt_dom in Hn as (? & ? & _). eauto.
    + eapply IH; eauto.
Qed.

Lemma elem_of_removelast_app {A} (xs : list A) a q : q ∈ removelast (xs ++ [a]) → q ∈ xs.
Proof. by rewrite removelast_last. Qed.

Lemma elem_of_removelast (cs : list Z) x : x ∈ removelast cs → x ∈ cs.
Proof.
  destruct cs as [|y cs]; [done|].
  destruct (exists_last (l := y :: cs)) as (c3 & z & E); [done|].
  rewrite E. rewrite removelast_last. set_solver.
Qed.

Lemma NoDup_mid (c1 c2 : list Z) p :
  NoDup (c1 ++ p :: c2) ↔ p ∉ c1 ∧ p ∉ c2 ∧ NoDup (c1 ++ c2).
Proof. rewrite !NoDup_app, NoDup_cons. set_solver. Qed.

Lemma chain_insert h h' c1 c2 p n q :
  NoDup (c1 ++ p :: n :: q :: c2) → chain h (c1 ++ p :: q :: c2) →
  linked h h' p n q → chain h' (c1 ++ p :: n :: q :: c2).
Proof.
  intros Hnd Hc [Ln Lp _].
  apply NoDup_mid in Hnd as (Hp1 & Hp2 & Hnd). apply NoDup_mid in Hnd as (Hn1 & Hn2 & Hnd).
  apply NoDup_mid in Hnd as (Hq1 & Hq2 & _).
  apply chain_app in Hc as [Hc1 (Hpq & Hqp & Hc2)]. apply chain_app. split.
  - revert Hc1. apply chain_frame.
    + intros x Hx%elem_of_removelast_app. rewrite Ln. repeat case_decide; set_solver.
    + intros x Hx. assert (x ∈ c1 ++ [p]) by (destruct c1; set_solver).
      rewrite Lp. repeat case_decide; set_solver.
  - split; [|split; [|split; [|split]]].
    + rewrite Ln. repeat case_decide; set_solver.
    + rewrite Lp. repeat case_decide; set_solver.
    + rewrite Ln. repeat case_decide; set_solver.
    + rewrite Lp. repeat case_decide; set_solver.
    + revert Hc2. apply chain_frame.
      * intros x Hx%elem_of_removelast. rewrite Ln. repeat case_decide; set_solver.
      * intros x Hx. cbn in Hx. rewrite Lp. repeat case_decide; set_solver.
Qed.

Lemma chain_remove h h' c1 c2 p n q :
  NoDup (c1 ++ p :: n :: q :: c2) → chain h (c1 ++ p :: n :: q :: c2) →
  unlinked h h' p n q → chain h' (c1 ++ p :: q :: c2).
Proof.
  intros Hnd Hc [Ln Lp _].
  apply NoDup_mid in Hnd as (Hp1 & Hp2 & Hnd). apply NoDup_mid in Hnd as (Hn1 & Hn2 & Hnd).
  apply NoDup_mid in Hnd as (Hq1 & Hq2 & _).
  apply chain_app in Hc as [Hc1 (Hpn & Hnp & Hnq & Hqn & Hc2)]. apply chain_app. split.
  - revert Hc1. apply chain_frame.
    + intros x Hx%elem_of_removelast_app. rewrite Ln. repeat case_decide; set_solver.
    + intros x Hx. assert (x ∈ c1 ++ [p]) by (destruct c1; set_solver).
      rewrite Lp. repeat case_decide; set_solver.
  - split; [|split].
    + rewrite Ln. repeat case_decide; set_solver.
    + rewrite Lp. repeat case_decide; set_solver.
    + revert Hc2. apply chain_frame.
      * intros x Hx%elem_of_removelast. rewrite Ln. repeat case_decide; set_solver.
      * intros x Hx. cbn in Hx. rewrite Lp. repeat case_decide; set_solver.
Qed.

(** ** Lists of the store *)

Lemma dlist_dom h l xs x : dlist h l xs → x ∈ cells l xs → is_Some (h !! x).
Proof.
  intros [_ _ Hc _ _]. unfold cells in *. destruct xs as [|y xs]; intros Hx.
  - eapply (chain_dom h _ _ []); eauto.
  - eapply (chain_dom h _ _ (xs ++ [tail l])); eauto.
Qed.

(** The last cell before, and the first cell after, a position. *)
Lemma cells_split l ys zs : ∃ c1 p q c2,
  head l :: ys = c1 ++ [p] ∧ zs ++ [tail l] = q :: c2 ∧
  cells l (ys ++ zs) = c1 ++ p :: q :: c2.
Proof.
  destruct (exists_last (l := head l :: ys)) as (c1 & p & E1); [done|].
  destruct (zs ++ [tail l]) as [|q c2] eqn:E2; [by destruct zs|].
  exists c1, p, q, c2. split; [done|]. split; [done|].
  unfold cells. rewrite <-app_assoc, E2, app_comm_cons, E1, <-app_assoc. done.
Qed.

Lemma cells_insert l ys zs n c1 p q c2 :
  head l :: ys = c1 ++ [p] → zs ++ [tail l] = q :: c2 →
  cells l (ys ++ n :: zs) = c1 ++ p :: n :: q :: c2.
Proof.
  intros E1 E2. unfold cells. rewrite <-app_assoc. cbn [app].
  rewrite E2, app_comm_cons, E1, <-app_assoc. done.
Qed.

Lemma head_in_front l ys c1 p : head l :: ys = c1 ++ [p] →
  head l = p ∨ head l ∈ c1.
Proof. destruct c1; cbn; intros [=]; [by left|]. right. subst. left. Qed.

Lemma tail_in_back l zs q c2 : zs ++ [tail l] = q :: c2 →
  tail l = q ∨ tail l ∈ c2.
Proof.
  destruct zs; cbn; intros [= -> E]; [by left|]. right. rewrite <-E. set_solver.
Qed.

Lemma dlist_linked h h' l ys zs n c1 p q c2 :
  head l :: ys = c1 ++ [p] → zs ++ [tail l] = q :: c2 →
  dlist h l (ys ++ zs) → n ∉ cells l (ys ++ zs) → n ≠ NULL → linked h h' p n q →
  dlist h' l (ys ++ n :: zs).
Proof.
  intros E1 E2 [Hnd H0 Hc Hh Ht] Hn Hn0 Hl.
  pose proof (cells_insert l ys zs n _ _ _ _ E1 E2) as E.
  destruct (cells_split l ys zs) as (c1' & p' & q' & c2' & E1' & E2' & E3).
  rewrite E1 in E1'. apply app_inj_tail in E1' as [<- <-].
  rewrite E2 in E2'. injection E2' as <- <-. rewrite E3 in *.
  assert (NoDup (c1 ++ p :: n :: q :: c2)) as Hnd'.
  { rewrite (cons_middle p c1), (cons_middle n). rewrite app_assoc.
    apply NoDup_mid. split; [set_solver|]. split; [set_solver|].
    by rewrite <-app_assoc. }
  pose proof (head_in_front _ _ _ _ E1) as Hhd.
  pose proof (tail_in_back _ _ _ _ E2) as Htl.
  pose proof Hl as [Ln Lp _].
  apply NoDup_mid in Hnd as (Hp1 & Hp2 & Hnd). apply NoDup_mid in Hnd as (Hq1 & Hq2 & _).
  split; rewrite ?E; [done|set_solver|by eapply chain_insert| |].
  - rewrite Lp. repeat case_decide; try done; set_solver.
  - rewrite Ln. repeat case_decide; try done; set_solver.
Qed.

Lemma dlist_unlinked h h' l ys zs n c1 p q c2 :
  head l :: ys = c1 ++ [p] → zs ++ [tail l] = q :: c2 →
  dlist h l (ys ++ n :: zs) → unlinked h h' p n q →
  dlist h' l (ys ++ zs) ∧ detached h' n.
Proof.
  intros E1 E2 [Hnd H0 Hc Hh Ht] Hl.
  rewrite (cells_insert l ys zs n _ _ _ _ E1 E2) in *.
  destruct (cells_split l ys zs) as (c1' & p' & q' & c2' & E1' & E2' & E3).
  rewrite E1 in E1'. apply app_inj_tail in E1' as [<- <-].
  rewrite E2 in E2'. injection E2' as <- <-.
  pose proof (head_in_front _ _ _ _ E1) as Hhd.
  pose proof (tail_in_back _ _ _ _ E2) as Htl.
  pose proof (chain_remove _ _ _ _ _ _ _ Hnd Hc Hl) as Hc'.
  destruct Hl as [Ln Lp _].
  apply NoDup_mid in Hnd as (Hp1 & Hp2 & Hnd). apply NoDup_mid in Hnd as (Hn1 & Hn2 & Hnd).
  pose proof Hnd as (Hq1 & Hq2 & _)%NoDup_mid.
  split; [split; rewrite ?E3|].
  - apply NoDup_mid. set_solver.
  - set_solver.
  - done.
  - rewrite Lp. repeat case_decide; try done; set_solver.
  - rewrite Ln. repeat case_decide; try done; set_solver.
  - split; [rewrite Ln | rewrite Lp]; by rewrite decide_True.
Qed.

(** The links around a position of the list. *)
Lemma dlist_links h l c1 p q c2 xs :
  dlist h l xs → cells l xs = c1 ++ p :: q :: c2 →
  nxt h p = Some q ∧ prv h q = Some p ∧ is_Some (h !! p) ∧ is_Some (h !! q) ∧ p ≠ q ∧
  p ≠ NULL ∧ q ≠ NULL.
Proof.
  intros Hd E. pose proof Hd as [Hnd H0 Hc _ _]. rewrite E in Hnd, H0, Hc.
  apply chain_app in Hc as [_ (Hpq & Hqp & _)].
  assert (p ≠ q) by (apply NoDup_mid in Hnd as (_ & ? & _); set_solver).
  split; [done|]. split; [done|].
  split; [eapply dlist_dom; eauto; rewrite E; set_solver|].
  split; [eapply dlist_dom; eauto; rewrite E; set_solver|]. set_solver.
Qed.

Lemma dlist_frame h h' l xs : dlist h l xs →
  (∀ p, p ∈ cells l xs → h' !! p = h !! p) → dlist h' l xs.
Proof.
  intros [Hnd H0 Hc Hh Ht] Hf.
  assert (head l ∈ cells l xs) by (unfold cells; left).
  assert (tail l ∈ cells l xs) by (unfold cells; set_solver).
  split; [done|done| | |].
  - revert Hc. apply chain_frame.
    + intros q Hq%elem_of_removelast. unfold nxt. by rewrite Hf.
    + intros q Hq. unfold prv. rewrite Hf; [done|]. destruct (cells l xs); set_solver.
  - unfold prv. by rewrite Hf.
  - unfold nxt. by rewrite Hf.
Qed.

Lemma dlist_size h l xs : dlist h l xs → (length xs + 2 ≤ size h)%nat.
Proof.
  intros Hd. pose proof Hd as [Hnd _ _ _ _].
  assert (list_to_set (cells l xs) ⊆ dom h) as Hsub.
  { intros x Hx%elem_of_list_to_set. apply elem_of_dom. by eapply dlist_dom. }
  apply subseteq_size in Hsub. rewrite size_list_to_set, size_dom in Hsub by done.
  unfold cells in Hsub. cbn in Hsub. rewrite length_app in Hsub. cbn in Hsub. lia.
Qed.

(** ** The traversals terminate within their fuel *)

Lemma chain_front h z zs tl : chain h (z :: zs ++ [tl]) →
  nxt h z = Some (List.hd tl zs) ∧ chain h (zs ++ [tl]).
Proof. destruct zs; cbn; tauto. Qed.

Lemma search_loop_ok h tl node zs : ∀ fuel,
  chain h (zs ++ [tl]) → tl ∉ zs → node ≠ tl → (length zs < fuel)%nat →
  search_loop fuel tl (List.hd tl zs) node h = Ok (Abs.mem node zs, h).
Proof.
  induction zs as [|z zs IH]; intros [|fuel] Hc Ht Hn Hf; cbn in Hf; try lia; cbn [List.hd].
  - cbn. by rewrite Z.eqb_refl.
  - apply chain_front in Hc as [Hz Hc]. cbn [search_loop].
    apply not_elem_of_cons in Ht as [Htz Ht].
    rewrite (proj2 (Z.eqb_neq z tl)) by congruence. unfold Abs.mem.
    destruct (Z.eqb_spec z node) as [->|Hzn].
    + unfold st_ret. by rewrite bool_decide_eq_true_2 by left.
    + unfold st_bind. erewrite get_next_ok by done. rewrite IH by (done || lia).
      unfold Abs.mem. repeat f_equal. apply bool_decide_ext. set_solver.
Qed.

Lemma size_loop_ok h tl zs : ∀ fuel sz,
  chain h (zs ++ [tl]) → tl ∉ zs → (length zs < fuel)%nat → u32 sz = sz →
  size_loop fuel tl (List.hd tl zs) sz h = Ok (u32 (sz + Z.of_nat (length zs)), h).
Proof.
  induction zs as [|z zs IH]; intros [|fuel] sz Hc Ht Hf Hs; cbn in Hf; try lia; cbn [List.hd].
  - cbn. rewrite Z.eqb_refl. unfold st_ret. by rewrite Z.add_0_r, Hs.
  - apply chain_front in Hc as [Hz Hc]. cbn [size_loop].
    apply not_elem_of_cons in Ht as [Htz Ht].
    rewrite (proj2 (Z.eqb_neq z tl)) by congruence.
    unfold st_bind. erewrite get_next_ok by done.
    rewrite IH by (done || lia || apply u32_idemp).
    rewrite u32_add_l. cbn [length]. do 3 f_equal. lia.
Qed.

Lemma anchor_loop_ok h key tl n zs : ∀ fuel,
  chain h (zs ++ [tl]) → tl ∉ zs → (length zs < fuel)%nat →
  ∃ ys' zs', zs = ys' ++ zs' ∧ Abs.insert_sort key n zs = ys' ++ n :: zs' ∧
    anchor_loop fuel key tl (List.hd tl zs) (key n) h = Ok (List.hd tl zs', h).
Proof.
  induction zs as [|z zs IH]; intros [|fuel] Hc Ht Hf; cbn in Hf; try lia; cbn [List.hd].
  - exists [], []. cbn. by rewrite Z.eqb_refl.
  - apply chain_front in Hc as [Hz Hc]. cbn [anchor_loop Abs.insert_sort].
    apply not_elem_of_cons in Ht as [Htz Ht].
    rewrite (proj2 (Z.eqb_neq z tl)) by congruence.
    destruct (key n <? key z) eqn:Hk.
    + exists [], (z :: zs). done.
    + destruct (IH fuel) as (ys' & zs' & -> & Hi & Ha); [done|done|lia|].
      exists (z :: ys'), zs'. split; [done|]. split; [by rewrite Hi|].
      unfold st_bind. erewrite get_next_ok by done. done.
Qed.

Lemma last_of_cons (a d : Z) ys : List.last (a :: ys) d = List.last ys a.
Proof.
  revert a d. induction ys as [|y ys IH]; intros a d; [done|].
  change (List.last (y :: ys) d = List.last (y :: ys) a). by rewrite !IH.
Qed.

(** ** The operations implement their specifications *)
Section ops.
Context (h : heap) (l : list_t) (xs : list Z) (Hd : dlist h l xs).

Lemma dlist_walk : chain h (xs ++ [tail l]) ∧ tail l ∉ xs ∧
  nxt h (head l) = Some (List.hd (tail l) xs) ∧ (length xs < S (size h))%nat.
Proof using Hd.
  pose proof Hd as [Hnd _ Hc _ _]. unfold cells in *.
  apply chain_front in Hc as [Hh Hc]. pose proof (dlist_size _ _ _ Hd).
  split; [done|]. split; [|split; [done|lia]].
  apply NoDup_cons in Hnd as [_ Hnd]. apply NoDup_app in Hnd as (_ & Hx & _).
  intros Hin. apply (Hx _ Hin). set_solver.
Qed.

Lemma list_search_ok node : node ≠ tail l →
  list_search l node h = Ok (Abs.mem node xs, h).
Proof using Hd.
  intros Hn. destruct dlist_walk as (Hc & Ht & Hh & Hs).
  unfold list_search, st_bind. erewrite get_next_ok by done.
  cbn [st_get]. by apply search_loop_ok.
Qed.

Lemma list_size_ok : list_size l h = Ok (u32 (Z.of_nat (length xs)), h).
Proof using Hd.
  destruct dlist_walk as (Hc & Ht & Hh & Hs).
  unfold list_size, st_bind. erewrite get_next_ok by done. cbn [st_get].
  by rewrite size_loop_ok.
Qed.

Lemma list_empty_ok : list_empty l h = Ok (bool_decide (xs = []), h).
Proof using Hd.
  destruct dlist_walk as (Hc & Ht & Hh & _).
  unfold list_empty, st_bind. erewrite get_next_ok by done. unfold st_ret.
  destruct xs as [|x ys]; cbn [List.hd].
  - by rewrite Z.eqb_refl.
  - rewrite (proj2 (Z.eqb_neq x (tail l))) by set_solver. done.
Qed.

Lemma insert_before_dlist ys zs n :
  xs = ys ++ zs → n ∉ cells l xs → n ≠ NULL → is_Some (h !! n) →
  ∃ h', list_insert_before (List.hd (tail l) zs) n h = Ok (tt, h') ∧
    dlist h' l (ys ++ n :: zs) ∧ frame (n :: cells l xs) h h'.
Proof using Hd.
  intros -> Hn Hn0 [nn Hnn].
  destruct (cells_split l ys zs) as (c1 & p & q & c2 & E1 & E2 & E3).
  destruct (dlist_links _ _ _ _ _ _ _ Hd E3) as (Hpq & Hqp & Hp & Hq & Hne & _).
  assert (List.hd (tail l) zs = q) as -> by (destruct zs; cbn in *; congruence).
  assert (n ≠ p ∧ n ≠ q) as [Hnp Hnq] by (rewrite E3 in Hn; set_solver).
  destruct (list_insert_before_ok h p n q nn) as (h' & Hrun & Hl); try done.
  exists h'. split; [done|]. split; [by eapply dlist_linked|].
  intros x Hx. apply Hl. rewrite E3 in Hx. set_solver.
Qed.

Lemma insert_after_dlist ys zs n :
  xs = ys ++ zs → n ∉ cells l xs → n ≠ NULL → is_Some (h !! n) →
  ∃ h', list_insert_after (List.last ys (head l)) n h = Ok (tt, h') ∧
    dlist h' l (ys ++ n :: zs) ∧ frame (n :: cells l xs) h h'.
Proof using Hd.
  intros -> Hn Hn0 [nn Hnn].
  destruct (cells_split l ys zs) as (c1 & p & q & c2 & E1 & E2 & E3).
  destruct (dlist_links _ _ _ _ _ _ _ Hd E3) as (Hpq & Hqp & Hp & Hq & Hne & _).
  assert (List.last ys (head l) = p) as ->.
  { by rewrite <-(last_of_cons _ 0), E1, List.last_last. }
  assert (n ≠ p ∧ n ≠ q) as [Hnp Hnq] by (rewrite E3 in Hn; set_solver).
  destruct (list_insert_after_ok h p n q nn) as (h' & Hrun & Hl); try done.
  exists h'. split; [done|]. split; [by eapply dlist_linked|].
  intros x Hx. apply Hl. rewrite E3 in Hx. set_solver.
Qed.

Lemma list_remove_dlist ys zs n : xs = ys ++ n :: zs →
  ∃ h', list_remove n h = Ok (tt, h') ∧ dlist h' l (ys ++ zs) ∧ detached h' n ∧
    frame (cells l xs) h h'.
Proof using Hd.
  intros E.
  destruct (cells_split l ys zs) as (c1 & p & q & c2 & E1 & E2 & E3).
  pose proof (cells_insert l ys zs n _ _ _ _ E1 E2) as E4.
  rewrite <-E in E4. pose proof E4 as E5.
  rewrite (cons_middle p c1), app_assoc in E5.
  destruct (dlist_links _ _ _ _ _ _ _ Hd E4) as (_ & Hnp & Hp & _ & Hne1 & Hp0 & _).
  destruct (dlist_links _ _ _ _ _ _ _ Hd E5) as (Hnq & _ & _ & Hq & Hne2 & _ & Hq0).
  pose proof Hd as [Hnd _ _ _ _]. rewrite E4 in Hnd.
  apply NoDup_mid in Hnd as (_ & Hp2 & _).
  destruct (list_remove_ok h p n q) as (h' & Hrun & Hl); try done; [set_solver|].
  exists h'. split; [done|]. rewrite E in Hd.
  destruct (dlist_unlinked _ _ _ _ _ _ _ _ _ _ E1 E2 Hd Hl) as [Hd' Hdet].
  split; [done|]. split; [done|].
  intros x Hx. apply Hl. rewrite E4 in Hx. set_solver.
Qed.
End ops.

(** ** Refinement of the specification *)

(** A node argument designates a cell that is not a sentinel and that is either
    in the list or in no list; the two insertions, which check nothing, are given a
    node that is not in the list and an anchor that is, or the sentinel. *)
Definition op_valid (h : heap) (l : list_t) (xs : list Z) (o : Abs.op) : Prop :=
  match Abs.op_node o with
  | Some n => n ≠ NULL ∧ n ≠ head l ∧ n ≠ tail l ∧ is_Some (h !! n) ∧
              (n ∉ xs → detached h n)
  | None => True
  end ∧
  match o with
  | Abs.InsertBefore a n => n ∉ xs ∧ (a ∈ xs ∨ a = tail l)
  | Abs.InsertAfter a n => n ∉ xs ∧ (a ∈ xs ∨ a = head l)
  | Abs.Search n => n ≠ tail l
  | _ => True
  end.

(** The nodes an operation takes out of the list. *)
Definition op_removes (o : Abs.op) (r : option Z) : option Z :=
  match o with
  | Abs.Remove n => Some n
  | Abs.Pop | Abs.Popback => r
  | _ => None
  end.

Definition refines (key : Z → Z) (h : heap) (l : list_t) (xs : list Z) (o : Abs.op) : Prop :=
  match Abs.run key o xs with
  | None => run_op key l o h = Stop Assert
  | Some (xs', r) =>
      ∃ h', run_op key l o h = Ok (r, h') ∧ dlist h' l xs' ∧
        frame (option_list (Abs.op_node o) ++ cells l xs) h h' ∧
        ∀ n, op_removes o r = Some n → detached h' n
  end.

Lemma fresh_node l xs n : n ≠ head l → n ≠ tail l → n ∉ xs → n ∉ cells l xs.
Proof. unfold cells. set_solver. Qed.

Section refine.
Context (key : Z → Z) (h : heap) (l : list_t) (xs : list Z) (Hd : dlist h l xs).

Lemma push_refines n : op_valid h l xs (Abs.Push n) → refines key h l xs (Abs.Push n).
Proof using Hd.
  intros [(Hn0 & Hh & Ht & Hdom & _) _]. unfold refines. cbn [Abs.run run_op].
  unfold list_push, st_bind. rewrite (list_search_ok h l xs Hd) by done.
  unfold st_check, Abs.mem. case_bool_decide as Hin; [done|]. cbn [negb].
  destruct (insert_after_dlist h l xs Hd [] xs n) as (h' & Hrun & Hd' & Hf);
    [done|by apply fresh_node|done..|].
  cbn [List.last] in Hrun. rewrite Hrun.
  exists h'. done.
Qed.

Lemma pushback_refines n :
  op_valid h l xs (Abs.Pushback n) → refines key h l xs (Abs.Pushback n).
Proof using Hd.
  intros [(Hn0 & Hh & Ht & Hdom & _) _]. unfold refines. cbn [Abs.run run_op].
  unfold list_pushback, st_bind. rewrite (list_search_ok h l xs Hd) by done.
  unfold st_check, Abs.mem. case_bool_decide as Hin; [done|]. cbn [negb].
  destruct (insert_before_dlist h l xs Hd xs [] n) as (h' & Hrun & Hd' & Hf);
    [by rewrite app_nil_r|by apply fresh_node|done..|].
  cbn [List.hd] in Hrun. rewrite Hrun. exists h'. done.
Qed.

Lemma pop_refines : refines key h l xs Abs.Pop.
Proof using Hd.
  unfold refines. cbn [Abs.run run_op]. unfold list_pop, st_bind.
  rewrite (list_empty_ok h l xs Hd). unfold st_check.
  destruct (dlist_walk h l xs Hd) as (_ & _ & Hh & _).
  destruct xs as [|x ys]; [done|]. cbn [bool_decide decide_rel negb List.hd] in *.
  rewrite bool_decide_eq_false_2 by done. cbn [negb].
  erewrite get_next_ok by done.
  destruct (list_remove_dlist h l (x :: ys) Hd [] ys x eq_refl) as (h' & -> & Hd' & Hdet & Hf).
  exists h'. split; [done|]. split; [done|]. split; [done|]. by intros ? [= <-].
Qed.

Lemma popback_refines : refines key h l xs Abs.Popback.
Proof using Hd.
  unfold refines. cbn [Abs.run run_op]. unfold list_popback, st_bind.
  rewrite (list_empty_ok h l xs Hd). unfold st_check.
  destruct xs as [|x ys] eqn:Exs; [done|]. rewrite <-Exs in *.
  rewrite bool_decide_eq_false_2 by congruence. cbn [negb].
  destruct (exists_last (l := xs)) as (zs & z & E); [congruence|].
  rewrite E, last_snoc, removelast_last.
  assert (cells l xs = (head l :: zs) ++ z :: tail l :: []) as Ec
    by (unfold cells; rewrite E, <-app_assoc; done).
  destruct (dlist_links _ _ _ _ _ _ _ Hd Ec) as (_ & Hz & _).
  erewrite get_prev_ok by done.
  destruct (list_remove_dlist h l xs Hd zs [] z E) as (h' & -> & Hd' & Hdet & Hf).
  rewrite app_nil_r in Hd'. exists h'. rewrite <-E.
  split; [done|]. split; [done|]. split; [done|]. by intros ? [= <-].
Qed.

Lemma remove_refines n : op_valid h l xs (Abs.Remove n) → refines key h l xs (Abs.Remove n).
Proof using Hd.
  intros [(Hn0 & Hh & Ht & Hdom & Hdet) _]. unfold refines. cbn [Abs.run run_op].
  unfold Abs.mem. case_bool_decide as Hin.
  - apply list_elem_of_split in Hin as (ys & zs & E).
    destruct (list_remove_dlist h l xs Hd ys zs n E) as (h' & Hrun & Hd' & Hdet' & Hf).
    unfold st_bind. rewrite Hrun. exists h'. split; [done|].
    assert (Abs.remove n xs = ys ++ zs) as ->.
    { pose proof Hd as [Hnd _ _ _ _]. unfold cells in Hnd.
      apply NoDup_cons in Hnd as [_ Hnd]. apply NoDup_app in Hnd as (Hnd & _ & _).
      rewrite E in Hnd. apply NoDup_mid in Hnd as (Hy & Hz & _).
      rewrite E. unfold Abs.remove. rewrite filter_app, filter_cons_False by auto.
      f_equal; apply filter_all; intros x Hx ->; done. }
    split; [done|]. split; [intros p Hp; apply Hf; set_solver|]. by intros ? [= <-].
  - destruct (Hdet Hin) as [_ Hp]. unfold list_remove, st_bind.
    erewrite get_prev_ok by done. done.
Qed.

Lemma insert_sort_refines n :
  op_valid h l xs (Abs.InsertSort n) → refines key h l xs (Abs.InsertSort n).
Proof using Hd.
  intros [(Hn0 & Hh & Ht & Hdom & Hdet) _]. unfold refines. cbn [Abs.run run_op].
  destruct (dlist_walk h l xs Hd) as (Hc & Htl & Hfirst & Hsz).
  unfold list_insert_sort, st_bind. erewrite get_next_ok by done. cbn [st_get].
  destruct (anchor_loop_ok h key (tail l) n xs (S (size h)) Hc Htl Hsz)
    as (ys & zs & E & Ei & ->).
  unfold Abs.mem. case_bool_decide as Hin.
  - apply list_elem_of_split in Hin as (us & vs & Eu).
    destruct (cells_split l us vs) as (c1 & p & q & c2 & E1 & E2 & _).
    pose proof (cells_insert l us vs n _ _ _ _ E1 E2) as E4. rewrite <-Eu in E4.
    rewrite (cons_middle p c1), app_assoc in E4.
    destruct (dlist_links _ _ _ _ _ _ _ Hd E4) as (Hnq & _ & _ & _ & _ & _ & Hq0).
    erewrite get_next_ok by done. unfold st_check.
    by rewrite (proj2 (Z.eqb_neq q NULL)) by done.
  - destruct (Hdet Hin) as [Hnn Hnp].
    erewrite get_next_ok by done. cbn [st_check Z.eqb]. unfold st_check.
    rewrite Z.eqb_refl. erewrite get_prev_ok by done. rewrite Z.eqb_refl.
    destruct (insert_before_dlist h l xs Hd ys zs n E) as (h' & -> & Hd' & Hf);
      [by apply fresh_node|done..|].
    exists h'. rewrite Ei. done.
Qed.

Lemma before_split a n ys zs : a ∉ ys →
  Abs.insert_before a n (ys ++ a :: zs) = ys ++ n :: a :: zs.
Proof using.
  induction ys as [|y ys IH]; cbn; [by rewrite Z.eqb_refl|].
  intros [Hy Hn]%not_elem_of_cons. rewrite (proj2 (Z.eqb_neq y a)) by congruence. by rewrite IH.
Qed.

Lemma before_end a n ys : a ∉ ys → Abs.insert_before a n ys = ys ++ [n].
Proof using.
  induction ys as [|y ys IH]; cbn; [done|].
  intros [Hy Hn]%not_elem_of_cons. rewrite (proj2 (Z.eqb_neq y a)) by congruence. by rewrite IH.
Qed.

Lemma after_split a n ys zs : a ∉ ys → Abs.after a n (ys ++ a :: zs) = (ys ++ [a]) ++ n :: zs.
Proof using.
  induction ys as [|y ys IH]; cbn; [by rewrite Z.eqb_refl|].
  intros [Hy Hn]%not_elem_of_cons. rewrite (proj2 (Z.eqb_neq y a)) by congruence. by rewrite IH.
Qed.

(** A node of the list is there once. *)
Lemma first_split a : a ∈ xs → ∃ ys zs, xs = ys ++ a :: zs ∧ a ∉ ys.
Proof using.
  clear Hd. induction xs as [|x t IH]; [by intros ?%elem_of_nil|].
  destruct (decide (a = x)) as [->|Ha]; [exists [], t; split; [done|by intros ?%elem_of_nil]|].
  intros [|Hin]%elem_of_cons; [done|]. destruct (IH Hin) as (ys & zs & -> & Hy).
  exists (x :: ys), zs. split; [done|]. by apply not_elem_of_cons.
Qed.

Lemma insert_before_refines a n :
  op_valid h l xs (Abs.InsertBefore a n) → refines key h l xs (Abs.InsertBefore a n).
Proof using Hd.
  intros [(Hn0 & Hh & Ht & Hdom & _) [Hn Ha]]. unfold refines. cbn [Abs.run run_op].
  assert (∃ ys zs, xs = ys ++ zs ∧ a = List.hd (tail l) zs ∧
    Abs.insert_before a n xs = ys ++ n :: zs) as (ys & zs & E & -> & ->).
  { destruct Ha as [(ys & zs & -> & Hy)%first_split| ->].
    - exists ys, (a :: zs). split; [done|]. split; [done|]. by apply before_split.
    - exists xs, []. split; [by rewrite app_nil_r|]. split; [done|].
      apply before_end. apply (dlist_walk h l xs Hd). }
  destruct (insert_before_dlist h l xs Hd ys zs n E) as (h' & Hrun & Hd' & Hf);
    [by apply fresh_node|done..|].
  unfold st_bind. rewrite Hrun. exists h'. done.
Qed.

Lemma insert_after_refines a n :
  op_valid h l xs (Abs.InsertAfter a n) → refines key h l xs (Abs.InsertAfter a n).
Proof using Hd.
  intros [(Hn0 & Hh & Ht & Hdom & _) [Hn Ha]]. unfold refines. cbn [Abs.run run_op].
  assert (∃ ys zs, xs = ys ++ zs ∧ a = List.last ys (head l) ∧
    Abs.insert_after a n xs = ys ++ n :: zs) as (ys & zs & E & -> & ->).
  { unfold Abs.insert_after, Abs.mem. case_bool_decide as Hin.
    - destruct (first_split a Hin) as (ys & zs & -> & Hy). exists (ys ++ [a]), zs.
      split; [by rewrite <-app_assoc|]. split; [by rewrite List.last_last|]. by apply after_split.
    - destruct Ha as [Ha| ->]; [done|]. by exists [], xs. }
  destruct (insert_after_dlist h l xs Hd ys zs n E) as (h' & Hrun & Hd' & Hf);
    [by apply fresh_node|done..|].
  unfold st_bind. rewrite Hrun. exists h'. done.
Qed.

Lemma search_refines n : op_valid h l xs (Abs.Search n) → refines key h l xs (Abs.Search n).
Proof using Hd.
  intros [_ Hn]. unfold refines. cbn [Abs.run run_op]. unfold st_bind.
  rewrite (list_search_ok h l xs Hd n Hn). by exists h.
Qed.

Lemma empty_refines : refines key h l xs Abs.Empty.
Proof using Hd.
  unfold refines. cbn [Abs.run run_op]. unfold st_bind. rewrite (list_empty_ok h l xs Hd). by exists h.
Qed.

Lemma size_refines : refines key h l xs Abs.Size.
Proof using Hd.
  unfold refines. cbn [Abs.run run_op]. unfold st_bind. rewrite (list_size_ok h l xs Hd). by exists h.
Qed.
End refine.

(** [list_init] of two sentinels. *)
Lemma list_init_ok h l : head l ≠ NULL → tail l ≠ NULL → head l ≠ tail l →
  is_Some (h !! head l) → is_Some (h !! tail l) →
  ∃ h', list_init l h = Ok (tt, h') ∧ dlist h' l [] ∧ frame [head l; tail l] h h'.
Proof.
  intros H1 H2 H3 [nh Hh] [nt Ht]. unfold list_init. do 3 heap_step.
  erewrite set_prev_ok by (rewrite ?lookup_insert_ne, ?lookup_insert_eq by congruence; eauto).
  eexists. split; [done|]. split.
  - split; unfold cells; cbn [app chain]; [|set_solver|split; [|split; [|done]]|..];
      rewrite ?nxt_insert, ?prv_insert; cbn [next prev]; repeat case_decide; try done.
    apply NoDup_cons; split; [set_solver|apply NoDup_singleton].
  - intros x Hx. by rewrite !lookup_insert_ne by set_solver.
Qed.

(** C20: every function of [list.c] implements its specification on Rocq lists.
    [list_init] makes the empty list of two sentinels.  Each of the others, from a
    store that represents the list [xs], stops at an assertion exactly when the
    specification is undefined (pushing a node already in the list, popping an empty
    list, removing a node that is in no list), and otherwise returns the specified
    node, truth value or number in a store that represents the specified list,
    leaves every other cell as it was and detaches the node it takes out.  The
    insertions before and after a node, which check nothing, are given a node that
    is not in the list and an anchor that is, or the sentinel. *)
Theorem list_ops_refine (key : Z → Z) (h : heap) (l : list_t) :
  (head l ≠ NULL → tail l ≠ NULL → head l ≠ tail l →
   is_Some (h !! head l) → is_Some (h !! tail l) →
   ∃ h', list_init l h = Ok (tt, h') ∧ dlist h' l [] ∧ frame [head l; tail l] h h') ∧
  ∀ (xs : list Z) (o : Abs.op), dlist h l xs → op_valid h l xs o →
  match Abs.run key o xs with
  | None => run_op key l o h = Stop Assert
  | Some (xs', r) =>
      ∃ h', run_op key l o h = Ok (r, h') ∧ dlist h' l xs' ∧
        frame (option_list (Abs.op_node o) ++ cells l xs) h h' ∧
        ∀ n, op_removes o r = Some n → detached h' n
  end.
Proof.
  split; [apply list_init_ok|]. intros xs o Hd Hv. change (refines key h l xs o).
  destruct o; eauto using push_refines, pop_refines, pushback_refines, popback_refines,
    remove_refines, insert_sort_refines, insert_before_refines, insert_after_refines,
    search_refines, empty_refines, size_refines.
Qed.

(** A store with the empty list of sentinels 8 and 16 and a detached node 24. *)
Definition demo_heap : heap :=
  <[8 := mk_node 0 16]> (<[16 := mk_node 8 0]> (<[24 := mk_node 0 0]> ∅)).
Definition demo_list : list_t := mk_list 8 16.

Lemma demo_dlist : dlist demo_heap demo_list [].
Proof.
  split; try reflexivity.
  - apply (bool_decide_unpack (NoDup _)). reflexivity.
  - apply (bool_decide_unpack (NULL ∉ _)). reflexivity.
  - repeat split.
Qed.

Lemma list_ops_refine_witness :
  ∃ h', run_op id demo_list (Abs.InsertSort 24) demo_heap = Ok (None, h') ∧
    dlist h' demo_list [24] ∧
    frame ([24] ++ cells demo_list []) demo_heap h' ∧
    ∀ n, op_removes (Abs.InsertSort 24) None = Some n → detached h' n.
Proof.
  apply (proj2 (list_ops_refine id demo_heap demo_list) [] (Abs.InsertSort 24) demo_dlist).
  split; [|done]. split; [done|]. split; [done|]. split; [done|]. split; [by eexists|]. by split.
Defined.

(** ** Sorted insertion *)

(** Keys increase along the list. *)
Definition sorted_by {A} (key : A → Z) (xs : list A) : Prop :=
  ∀ i j x y, (i < j)%nat → xs !! i = Some x → xs !! j = Some y → key x ≤ key y.

Lemma sorted_by_cons {A} (key : A → Z) x xs :
  sorted_by key (x :: xs) ↔ (∀ y, y ∈ xs → key x ≤ key y) ∧ sorted_by key xs.
Proof.
  split.
  - intros Hs. split.
    + intros y (j & Hj)%list_elem_of_lookup. by apply (Hs O (S j)); [lia|..].
    + intros i j a b Hij Ha Hb. apply (Hs (S i) (S j)); [lia|done..].
  - intros [Hx Hs] [|i] [|j] a b Hij Ha Hb; try lia; cbn in *.
    + injection Ha as <-. apply Hx, list_elem_of_lookup. eauto.
    + by apply (Hs i j); [lia|..].
Qed.

Lemma insert_sort_perm {A} (key : A → Z) n xs : Abs.insert_sort key n xs ≡ₚ n :: xs.
Proof.
  induction xs as [|x xs IH]; cbn; [done|].
  destruct (key n <? key x); [done|]. rewrite IH. apply Permutation_swap.
Qed.

Lemma insert_sort_sorted {A} (key : A → Z) n xs :
  sorted_by key xs → sorted_by key (Abs.insert_sort key n xs).
Proof.
  induction xs as [|x xs IH]; cbn; intros Hs.
  - apply sorted_by_cons. split; [set_solver|]. intros i j ? ? ? Hi. done.
  - pose proof Hs as [Hx Hs']%sorted_by_cons.
    destruct (Z.ltb_spec (key n) (key x)).
    + apply sorted_by_cons. split; [|done].
      intros y [->|Hy]%elem_of_cons; [lia|]. specialize (Hx _ Hy). lia.
    + apply sorted_by_cons. split; [|by apply IH].
      intros y Hy. rewrite insert_sort_perm in Hy.
      apply elem_of_cons in Hy as [->|Hy]; [lia|by apply Hx].
Qed.

Lemma insert_sort_last {A} (key : A → Z) n xs : (∀ x, x ∈ xs → key x ≤ key n) →
  Abs.insert_sort key n xs = xs ++ [n].
Proof.
  induction xs as [|x xs IH]; intros Hx; [done|]. cbn [Abs.insert_sort app].
  rewrite (proj2 (Z.ltb_ge (key n) (key x))) by (apply Hx; by left). f_equal. apply IH.
  intros y Hy. apply Hx. by right.
Qed.
