(* ===== verification/Fifo.v ===== *)
(** * Ring buffers ([src/src/lib/fifo.c], [src/src/include/onix/fifo.h])

    The byte queue of pipes, the keyboard and the serial port, and its
    refinement of a bounded queue that drops its oldest byte when it is full. *)
From S2P Require Import Prelude.

Record fifo_t := mk_fifo { buf : list Z; length : Z; head : Z; tail : Z }.

(** [(pos + 1) % fifo->length]; a zero length traps, [fifo_wf] excludes it. *)
Definition fifo_next (f : fifo_t) (pos : Z) : Z := u32 (pos + 1) `mod` length f.

Definition fifo_init (b : list Z) (len : Z) : fifo_t := mk_fifo b len 0 0.

Definition fifo_full (f : fifo_t) : bool := fifo_next f (head f) =? tail f.
Definition fifo_empty (f : fifo_t) : bool := head f =? tail f.

Definition fifo_get (f : fifo_t) : res (Z * fifo_t) :=
  assert! negb (fifo_empty f) in
  let! byte := deref (buf f !! Z.to_nat (tail f)) in
  Ok (byte, mk_fifo (buf f) (length f) (head f) (fifo_next f (tail f))).

(** The loop [while (fifo_full(fifo)) fifo_get(fifo);]. *)
Fixpoint drop_loop (fuel : nat) (f : fifo_t) : res fifo_t :=
  match fuel with
  | O => Stop Fuel
  | S n => if fifo_full f then let! (_, f') := fifo_get f in drop_loop n f' else Ok f
  end.

Definition fifo_put (f : fifo_t) (byte : Z) : res fifo_t :=
  let! f := drop_loop (S (Z.to_nat (length f))) f in
  if head f <? Z.of_nat (List.length (buf f)) then
    Ok (mk_fifo (<[Z.to_nat (head f) := byte]> (buf f)) (length f)
          (fifo_next f (head f)) (tail f))
  else Stop Fault.

(** ** Specification: a bounded queue *)
Module Spec.
Definition put (cap : nat) (q : list Z) (b : Z) : list Z :=
  (if (List.length q <? cap)%nat then q else List.tl q) ++ [b].
Definition get (q : list Z) : option (Z * list Z) :=
  match q with [] => None | x :: q' => Some (x, q') end.
End Spec.

Record fifo_wf (f : fifo_t) : Prop := {
  fw_len : length f = Z.of_nat (List.length (buf f));
  fw_cap : 2 ≤ length f < 2 ^ 32;
  fw_head : 0 ≤ head f < length f;
  fw_tail : 0 ≤ tail f < length f }.

(** The number of bytes queued, and the bytes themselves, oldest first. *)
Definition count (f : fifo_t) : Z := (head f - tail f) `mod` length f.
Definition slot (f : fifo_t) (i : Z) : Z :=
  default 0 (buf f !! Z.to_nat ((tail f + i) `mod` length f)).
Definition contents (f : fifo_t) : list Z := slot f <$> seqZ 0 (count f).
Definition capacity (f : fifo_t) : nat := Z.to_nat (length f - 1).

(** A position of the ring seen from another one. *)
Lemma ring_next p L : 2 ≤ L < 2 ^ 32 → 0 ≤ p < L →
  u32 (p + 1) `mod` L = if p + 1 =? L then 0 else p + 1.
Proof.
  intros HL Hp. change (2 ^ 32) with 4294967296 in HL.
  destruct (Z.eqb_spec (p + 1) L) as [E|E].
  - rewrite E. rewrite u32_small by lia. by rewrite Z.mod_same by lia.
  - rewrite u32_small by lia. apply Z.mod_small. lia.
Qed.

Lemma ring_dist a b L : 2 ≤ L → 0 ≤ a < L → 0 ≤ b < L →
  (a - b) `mod` L = if b <=? a then a - b else a - b + L.
Proof.
  intros HL Ha Hb. destruct (Z.leb_spec b a).
  - apply Z.mod_small. lia.
  - symmetry. apply (Z.mod_unique _ _ (-1)); lia.
Qed.

Lemma ring_at p i L : 2 ≤ L → 0 ≤ p < L → 0 ≤ i < L →
  (p + i) `mod` L = if p + i <? L then p + i else p + i - L.
Proof.
  intros HL Hp Hi. destruct (Z.ltb_spec (p + i) L).
  - apply Z.mod_small. lia.
  - symmetry. apply (Z.mod_unique _ _ 1); lia.
Qed.

(** Rewrites every ring expression of a well-formed buffer to cases of [lia]. *)
Ltac ring_cases :=
  rewrite ?ring_next, ?ring_dist, ?ring_at by
    (rewrite ?ring_next by lia; repeat case_match; lia);
  repeat match goal with
  | |- context [?a =? ?b] => destruct (Z.eqb_spec a b)
  | |- context [?a <=? ?b] => destruct (Z.leb_spec a b)
  | |- context [?a <? ?b] => destruct (Z.ltb_spec a b)
  end; try lia.

Section wf.
Context (f : fifo_t) (Hwf : fifo_wf f).

Lemma count_range : 0 ≤ count f < length f.
Proof using Hwf. destruct Hwf. apply Z.mod_pos_bound. lia. Qed.

Lemma contents_length : List.length (contents f) = Z.to_nat (count f).
Proof. unfold contents. by rewrite length_fmap, length_seqZ. Qed.

Lemma fifo_empty_spec : fifo_empty f = bool_decide (contents f = []).
Proof using Hwf.
  pose proof count_range as Hcr. pose proof contents_length as Hl.
  destruct Hwf as [_ HL Hh Ht]. unfold fifo_empty.
  assert (count f = 0 ↔ head f = tail f) as Hc.
  { unfold count. split; ring_cases. }
  destruct (Z.eqb_spec (head f) (tail f)) as [E|E].
  - rewrite bool_decide_eq_true_2; [done|].
    apply nil_length_inv. rewrite Hl. rewrite (proj2 Hc E). done.
  - rewrite bool_decide_eq_false_2; [done|]. intros E2. rewrite E2 in Hl. cbn in Hl. lia.
Qed.

Lemma fifo_full_spec : fifo_full f = (List.length (contents f) =? capacity f)%nat.
Proof using Hwf.
  rewrite contents_length. pose proof count_range.
  destruct Hwf as [_ HL Hh Ht]. unfold fifo_full, fifo_next, capacity.
  assert (count f = length f - 1 ↔ u32 (head f + 1) `mod` length f = tail f) as Hc.
  { unfold count. split; ring_cases. }
  destruct (Z.eqb_spec (u32 (head f + 1) `mod` length f) (tail f)) as [E|E], 
    (Nat.eqb_spec (Z.to_nat (count f)) (Z.to_nat (length f - 1))); lia.
Qed.

Lemma fifo_get_ok x q : contents f = x :: q →
  ∃ f', fifo_get f = Ok (x, f') ∧ fifo_wf f' ∧ contents f' = q ∧ length f' = length f.
Proof using Hwf.
  intros Hq. pose proof count_range as Hcr. pose proof contents_length as Hl.
  unfold fifo_get. rewrite fifo_empty_spec, Hq, bool_decide_eq_false_2 by done.
  cbn [negb check res_bind]. pose proof Hwf as [HB HL Hh Ht].
  rewrite Hq in Hl. cbn in Hl. unfold contents in Hq.
  assert (1 ≤ count f) as Hpos by lia.
  rewrite seqZ_cons in Hq by lia. rewrite fmap_cons in Hq. injection Hq as Hx Hq.
  destruct (lookup_lt_is_Some_2 (buf f) (Z.to_nat (tail f))) as [v Hv]; [lia|].
  unfold slot in Hx. rewrite Z.add_0_r, Z.mod_small, Hv in Hx by lia. cbn in Hx. subst x.
  rewrite Hv. cbn [deref res_bind]. eexists. split; [done|]. split; [|split; [|done]].
  - split; cbn; try done. unfold fifo_next. apply Z.mod_pos_bound. lia.
  - rewrite <-Hq. unfold contents. cbn.
    assert (count (mk_fifo (buf f) (length f) (head f) (fifo_next f (tail f)))
            = Z.pred (count f)) as ->.
    { unfold count, fifo_next in *. cbn. revert Hpos. clear Hq Hl Hcr. ring_cases. }
    change (Z.succ 0) with (1 + 0). rewrite <-fmap_add_seqZ, <-list_fmap_compose.
    apply list_fmap_ext. intros i j Hij. apply lookup_seqZ in Hij as [-> Hi].
    unfold slot, fifo_next; cbn. do 3 f_equal. ring_cases.
Qed.

Lemma fifo_push_ok b : (List.length (contents f) < capacity f)%nat →
  ∃ f', fifo_put f b = Ok f' ∧ fifo_wf f' ∧ contents f' = contents f ++ [b] ∧
    length f' = length f.
Proof using Hwf.
  intros Hlt. pose proof count_range as Hcr. rewrite contents_length in Hlt.
  unfold fifo_put. cbn [drop_loop].
  rewrite fifo_full_spec, contents_length, (proj2 (Nat.eqb_neq _ _)) by lia.
  cbn [res_bind]. pose proof Hwf as [HB HL Hh Ht].
  rewrite (proj2 (Z.ltb_lt _ _)) by lia. unfold capacity in Hlt.
  eexists. split; [done|]. split; [|split; [|done]].
  - split; cbn; try done; [by rewrite length_insert|].
    unfold fifo_next. apply Z.mod_pos_bound. lia.
  - unfold contents.
    assert (count (mk_fifo (<[Z.to_nat (head f):=b]> (buf f)) (length f)
              (fifo_next f (head f)) (tail f)) = count f + 1) as ->.
    { unfold count, fifo_next in *. cbn. revert Hlt. ring_cases. }
    rewrite seqZ_app, fmap_app by lia. f_equal.
    + apply list_fmap_ext. intros i j Hij. apply lookup_seqZ in Hij as [-> Hi].
      unfold slot; cbn. rewrite list_lookup_insert_ne; [done|].
      intros E%Z2Nat.inj; [|lia|apply Z.mod_pos_bound; lia].
      assert (0 ≤ 0 + Z.of_nat i < length f) as Hjl by lia.
      revert E Hi. unfold count. ring_cases.
    + rewrite Z.add_0_l, seqZ_cons, seqZ_nil by lia. cbn. unfold slot; cbn.
      assert ((tail f + count f) `mod` length f = head f) as ->.
      { unfold count. ring_cases. }
      rewrite list_lookup_insert_eq by lia. done.
Qed.

Lemma contents_bound : (List.length (contents f) ≤ capacity f)%nat.
Proof using Hwf. pose proof count_range. rewrite contents_length. unfold capacity. lia. Qed.
End wf.

Lemma fifo_put_ok f b : fifo_wf f →
  ∃ f', fifo_put f b = Ok f' ∧ fifo_wf f' ∧ length f' = length f ∧
    contents f' = Spec.put (capacity f) (contents f) b.
Proof.
  intros Hwf. unfold Spec.put. destruct (Nat.ltb_spec (List.length (contents f)) (capacity f)).
  - destruct (fifo_push_ok f Hwf b) as (f' & ? & ? & ? & ?); eauto.
  - pose proof (contents_bound f Hwf) as Hb. pose proof Hwf as [_ HL _ _].
    destruct (contents f) as [|x q] eqn:Hq; [unfold capacity in *; cbn in *; lia|].
    destruct (fifo_get_ok f Hwf x q Hq) as (f1 & Hg & Hwf1 & Hq1 & Hl1).
    assert (capacity f1 = capacity f) as Hc1 by (unfold capacity; lia).
    destruct (fifo_push_ok f1 Hwf1 b) as (f' & Hp & Hwf' & Hq' & Hl').
    { rewrite Hq1, Hc1. cbn in *. lia. }
    exists f'. split; [|split; [done|split; [lia|by rewrite Hq', Hq1]]].
    unfold fifo_put in *. rewrite <-Hl1.
    destruct (Z.to_nat (length f1)) as [|n] eqn:En; [lia|].
    cbn [drop_loop] in Hp |- *. rewrite fifo_full_spec, Hq in * by done.
    rewrite (proj2 (Nat.eqb_eq _ _)) by (cbn in *; lia). rewrite Hg. cbn [res_bind].
    rewrite (fifo_full_spec f1 Hwf1), Hq1, Hc1 in *.
    rewrite (proj2 (Nat.eqb_neq _ _)) in Hp |- * by (cbn in *; lia). done.
Qed.

(** The ring buffer is a bounded queue: [fifo_get] returns the oldest byte
    and is an assertion failure on an empty buffer; [fifo_put] always returns,
    appends the byte, and drops the oldest one when [length - 1] bytes are
    queued; [fifo_full] and [fifo_empty] test the two ends of the capacity. *)
Theorem fifo_refines_queue (f : fifo_t) (b : Z) (Hwf : fifo_wf f) :
  (∃ f', fifo_put f b = Ok f' ∧ fifo_wf f' ∧ length f' = length f ∧
     contents f' = Spec.put (capacity f) (contents f) b) ∧
  match Spec.get (contents f) with
  | None => fifo_get f = Stop Assert
  | Some (x, q) => ∃ f', fifo_get f = Ok (x, f') ∧ fifo_wf f' ∧ contents f' = q
  end ∧
  fifo_full f = (List.length (contents f) =? capacity f)%nat ∧
  fifo_empty f = bool_decide (contents f = []).
Proof.
  split; [|split; [|by split; [apply fifo_full_spec | apply fifo_empty_spec]]].
  - by apply fifo_put_ok.
  - destruct (contents f) as [|x q] eqn:Hq; cbn [Spec.get].
    + unfold fifo_get. by rewrite fifo_empty_spec, Hq.
    + destruct (fifo_get_ok f Hwf x q Hq) as (f' & ? & ? & ? & _). eauto.
Qed.

Definition demo_fifo : fifo_t := mk_fifo [1; 2; 3] 3 1 2.

Lemma demo_fifo_wf : fifo_wf demo_fifo.
Proof. split; vm_compute; done. Qed.

Lemma fifo_refines_queue_witness :
  (∃ f', fifo_put demo_fifo 9 = Ok f' ∧ fifo_wf f' ∧ length f' = length demo_fifo ∧
     contents f' = Spec.put (capacity demo_fifo) (contents demo_fifo) 9) ∧
  match Spec.get (contents demo_fifo) with
  | None => fifo_get demo_fifo = Stop Assert
  | Some (x, q) => ∃ f', fifo_get demo_fifo = Ok (x, f') ∧ fifo_wf f' ∧ contents f' = q
  end ∧
  fifo_full demo_fifo = (List.length (contents demo_fifo) =? capacity demo_fifo)%nat ∧
  fifo_empty demo_fifo = bool_decide (contents demo_fifo = []).
Proof. apply (fifo_refines_queue demo_fifo 9 demo_fifo_wf). Defined.

(** The demo buffer is full ([3; 1] queued): putting 9 drops the 3. *)
Example fifo_put_demo :
  fifo_full demo_fifo = true ∧ contents demo_fifo = [3; 1] ∧
  match fifo_put demo_fifo 9 with Ok f => contents f = [1; 9] | _ => False end.
Proof. split; [|split]; reflexivity. Qed.
