(* ===== verification/Pipe.v ===== *)
(** * Pipes ([src/src/fs/pipe/pipe.c]: [pipe_read], [pipe_write])

    A reader and a writer task share the inode of a pipe.  A system call runs
    with interrupts off until it blocks, so the calls interleave at
    [task_block]; the step relation is finer, it interleaves the two calls at
    every turn of their loops. *)
From S2P Require Import Prelude Fifo.

(** The fields of the inode that the two calls share. *)
Record pipe := mk_pipe { ring : fifo_t; rxwaiter : option Z; txwaiter : option Z }.

(** Where a call stands: at the head of its [while] loop, in [task_block], after
    the blocking [if], or returned. *)
Inductive pc := Loop | Blocked | Resume | Done.

#[export] Instance pc_eq_dec : EqDecision pc.
Proof. solve_decision. Defined.

(** [pipe_read]: the first half of a turn, up to the [task_block] call. *)
Definition read_wait (me : Z) (p : pipe) : res (pipe * pc) :=
  if fifo_empty (ring p) then
    assert! bool_decide (rxwaiter p = None) in
    Ok (mk_pipe (ring p) (Some me) (txwaiter p), Blocked)
  else Ok (p, Resume).

(** The second half: the byte, the pipe, and the task [task_unblock] wakes. *)
Definition read_byte (p : pipe) : res (Z * pipe * option Z) :=
  let! (b, f) := fifo_get (ring p) in
  Ok (b, mk_pipe f (rxwaiter p) None, txwaiter p).

(** [pipe_write], likewise. *)
Definition write_wait (me : Z) (p : pipe) : res (pipe * pc) :=
  if fifo_full (ring p) then
    assert! bool_decide (txwaiter p = None) in
    Ok (mk_pipe (ring p) (rxwaiter p) (Some me), Blocked)
  else Ok (p, Resume).

Definition write_byte (b : Z) (p : pipe) : res (pipe * option Z) :=
  let! f := fifo_put (ring p) b in
  Ok (mk_pipe f None (txwaiter p), rxwaiter p).

(** The two calls in progress: [out] is what [pipe_read] has stored in its
    [data], of the [want] bytes asked for; [rest] is what [pipe_write] has still
    to put. *)
Record sys := mk_sys {
  shared : pipe;
  rpc : pc; out : list Z; want : nat;
  wpc : pc; rest : list Z }.

(** [task_unblock]: a blocked call goes on after its [if]. *)
Definition wake (me : Z) (w : option Z) (c : pc) : pc :=
  if bool_decide (w = Some me) then Resume else c.

Section run.
Context (rd wr : Z).

(** [Stop] is an assertion failure of one of the two calls. *)
Definition read_step (s : sys) : res (option sys) :=
  match rpc s with
  | Loop =>
      if (List.length (out s) <? want s)%nat then
        let! (p, c) := read_wait rd (shared s) in
        Ok (Some (mk_sys p c (out s) (want s) (wpc s) (rest s)))
      else Ok (Some (mk_sys (shared s) Done (out s) (want s) (wpc s) (rest s)))
  | Resume =>
      let! (b, p, w) := read_byte (shared s) in
      Ok (Some (mk_sys p Loop (out s ++ [b]) (want s) (wake wr w (wpc s)) (rest s)))
  | Blocked | Done => Ok None
  end.

Definition write_step (s : sys) : res (option sys) :=
  match wpc s with
  | Loop =>
      match rest s with
      | [] => Ok (Some (mk_sys (shared s) (rpc s) (out s) (want s) Done []))
      | _ :: _ =>
          let! (p, c) := write_wait wr (shared s) in
          Ok (Some (mk_sys p (rpc s) (out s) (want s) c (rest s)))
      end
  | Resume =>
      match rest s with
      | [] => Stop Fault
      | b :: rest' =>
          let! (p, w) := write_byte b (shared s) in
          Ok (Some (mk_sys p (wake rd w (rpc s)) (out s) (want s) Loop rest'))
      end
  | Blocked | Done => Ok None
  end.

Inductive step : sys → sys → Prop :=
| step_read s s' : read_step s = Ok (Some s') → step s s'
| step_write s s' : write_step s = Ok (Some s') → step s s'.

(** [pipe_open] with a fresh ring of [size] bytes, and the two calls. *)
Definition start (size : nat) (data : list Z) (n : nat) : sys :=
  mk_sys (mk_pipe (fifo_init (replicate size 0) (Z.of_nat size)) None None)
    Loop [] n Loop data.

(** ** Invariant; [cap] is how many bytes the ring holds. *)
Context (cap : nat).

Record inv (data : list Z) (s : sys) : Prop := {
  i_wf : fifo_wf (ring (shared s));
  i_cap : capacity (ring (shared s)) = cap;
  i_data : out s ++ contents (ring (shared s)) ++ rest s = data;
  i_rd_wait : rxwaiter (shared s) = if decide (rpc s = Blocked) then Some rd else None;
  i_wr_wait : txwaiter (shared s) = if decide (wpc s = Blocked) then Some wr else None;
  i_rd_block : rpc s = Blocked → contents (ring (shared s)) = [] ∧ (List.length (out s) < want s)%nat;
  i_wr_block : wpc s = Blocked → rest s ≠ [] ∧
     List.length (contents (ring (shared s))) = capacity (ring (shared s));
  i_rd_go : rpc s = Resume → contents (ring (shared s)) ≠ [] ∧ (List.length (out s) < want s)%nat;
  i_wr_go : wpc s = Resume → rest s ≠ [] ∧
     (List.length (contents (ring (shared s))) < capacity (ring (shared s)))%nat;
  i_rd_done : rpc s = Done → (want s <= List.length (out s))%nat;
  i_wr_done : wpc s = Done → rest s = [];
  i_le : (List.length (out s) <= want s)%nat }.

Lemma wake_blocked me c :
  wake me (if decide (c = Blocked) then Some me else None) c
  = if decide (c = Blocked) then Resume else c.
Proof. unfold wake. by repeat case_decide; case_bool_decide. Qed.

Lemma inv_read data s : inv data s →
  match read_step s with Ok (Some s') => inv data s' | Ok None => True | Stop _ => False end.
Proof.
  intros [Hwf Hcp Hdat Hrw Hww Hrb Hwb Hrg Hwg Hrd Hwd Hle]. unfold read_step.
  destruct (rpc s) eqn:Er; try done.
  - destruct (Nat.ltb_spec (List.length (out s)) (want s)) as [Hlt|Hge].
    + unfold read_wait. rewrite fifo_empty_spec by done. case_bool_decide as He.
      * rewrite decide_False in Hrw by done. rewrite Hrw.
        rewrite bool_decide_eq_true_2 by done. cbn [check res_bind].
        split; cbn; try done.
      * cbn [res_bind]. split; cbn; try done; rewrite ?Er in *; try done.
    + cbn [res_bind]. split; cbn; try done; rewrite ?Er in *; try done.
  - destruct (Hrg eq_refl) as [Hne Hlt].
    destruct (contents (ring (shared s))) as [|x q] eqn:Hq; [done|].
    destruct (fifo_get_ok _ Hwf _ _ Hq) as (f & Hget & Hwf' & Hq' & Hl).
    unfold read_byte. rewrite Hget. cbn [res_bind]. rewrite Hww, wake_blocked.
    assert (capacity f = capacity (ring (shared s))) as Hcap by (unfold capacity; lia).
    pose proof (contents_bound _ Hwf) as Hb. rewrite Hq in Hb. cbn in Hb.
    split; cbn; rewrite ?Hq', ?Hcap; try done.
    + rewrite <-app_assoc. done.
    + by repeat case_decide.
    + case_decide; done.
    + case_decide as Hc; [intros _|]; [|intros Hc']; [|by destruct (Hwg Hc'); split; [|cbn in *; lia]].
      destruct (Hwb Hc). split; [done|lia].
    + case_decide; [done|]. auto.
    + rewrite length_app. cbn. lia.
Qed.

Lemma inv_write data s : inv data s →
  match write_step s with Ok (Some s') => inv data s' | Ok None => True | Stop _ => False end.
Proof.
  intros [Hwf Hcp Hdat Hrw Hww Hrb Hwb Hrg Hwg Hrd Hwd Hle]. unfold write_step.
  destruct (wpc s) eqn:Ew; try done.
  - destruct (rest s) as [|b rest'] eqn:Hrest.
    + split; cbn; try done.
    + unfold write_wait. rewrite fifo_full_spec by done.
      destruct (Nat.eqb_spec (List.length (contents (ring (shared s)))) (capacity (ring (shared s)))).
      * rewrite decide_False in Hww by done. rewrite Hww.
        rewrite bool_decide_eq_true_2 by done. cbn [check res_bind].
        split; cbn; try done; by rewrite Hrest.
      * cbn [res_bind]. pose proof (contents_bound _ Hwf).
        split; cbn; rewrite ?Hrest; try done. intros _. split; [done|lia].
  - destruct (Hwg eq_refl) as [Hne Hlt].
    destruct (rest s) as [|b rest'] eqn:Hrest; [done|].
    destruct (fifo_push_ok _ Hwf b Hlt) as (f & Hput & Hwf' & Hq' & Hl).
    unfold write_byte. rewrite Hput. cbn [res_bind]. rewrite Hrw, wake_blocked.
    rewrite decide_False in Hww by done. clear Hrw.
    split; cbn; rewrite ?Hq'; try done.
    + rewrite <-Hcp. unfold capacity. by rewrite Hl.
    + by rewrite <-app_assoc.
    + by repeat case_decide.
    + case_decide; [done|by intros ?].
    + case_decide as Hc; intros Hc'; (split; [by intros []%app_nil|]).
      * by destruct (Hrb Hc).
      * by destruct (Hrg Hc').
    + case_decide; [done|]. auto.
Qed.

Lemma inv_step data s s' : inv data s → step s s' → inv data s'.
Proof.
  intros Hi Hs. destruct Hs as [s s' Hs|s s' Hs].
  - pose proof (inv_read data s Hi) as H. by rewrite Hs in H.
  - pose proof (inv_write data s Hi) as H. by rewrite Hs in H.
Qed.

Lemma inv_start size data n : cap = (size - 1)%nat → (2 ≤ size)%nat → Z.of_nat size < 2 ^ 32 →
  inv data (start size data n).
Proof.
  intros Hcap Hs Hs2.
  assert (contents (fifo_init (replicate size 0) (Z.of_nat size)) = []) as Hc.
  { unfold contents, count. cbn. by rewrite Z.mod_0_l by lia. }
  split; cbn; rewrite ?Hc; try done; [|unfold capacity; cbn; lia|lia].
  split; cbn; rewrite ?length_replicate; lia.
Qed.

(** ** Termination measure: every step consumes some. *)
Definition weight (c : pc) : nat :=
  match c with Loop => 3 | Blocked => 2 | Resume => 1 | Done => 0 end.

Definition measure (s : sys) : nat :=
  4 * (want s - List.length (out s)) + weight (rpc s)
  + (4 * List.length (rest s) + weight (wpc s)).

Lemma weight_woken c :
  (weight (if decide (c = Blocked) then Resume else c) ≤ weight c)%nat.
Proof. case_decide; subst; cbn; lia. Qed.

Lemma step_measure data s s' : inv data s → step s s' → (measure s' < measure s)%nat.
Proof.
  intros Hi Hs. pose proof (i_rd_wait _ _ Hi) as Hr. pose proof (i_wr_wait _ _ Hi) as Hw.
  pose proof (i_rd_go _ _ Hi) as Hgo. destruct Hs as [s s' Hs|s s' Hs].
  - unfold read_step in Hs. unfold measure. destruct (rpc s) eqn:Er; try done.
    + destruct (Nat.ltb_spec (List.length (out s)) (want s)).
      * unfold read_wait, check in Hs. repeat case_match; cbn in Hs; simplify_eq; cbn; lia.
      * simplify_eq. cbn. lia.
    + destruct (Hgo eq_refl) as [_ Hlt]. unfold read_byte in Hs. rewrite Hw in Hs.
      destruct (fifo_get _) as [[b f]|]; cbn in Hs; simplify_eq. cbn.
      rewrite wake_blocked, length_app. pose proof (weight_woken (wpc s)). cbn. lia.
  - unfold write_step in Hs. unfold measure. destruct (wpc s) eqn:Ew; try done.
    + destruct (rest s) as [|b r] eqn:Erest; [simplify_eq; cbn; lia|].
      unfold write_wait, check in Hs. repeat case_match; cbn in Hs; simplify_eq; cbn; lia.
    + destruct (rest s) as [|b r] eqn:Erest; [done|]. unfold write_byte in Hs.
      rewrite Hr in Hs. destruct (fifo_put _ _); cbn in Hs; simplify_eq. cbn.
      rewrite wake_blocked. pose proof (weight_woken (rpc s)). lia.
Qed.

Lemma step_acc data s : inv data s → Acc (flip step) s.
Proof.
  remember (measure s) as m eqn:Em. revert s Em.
  induction (lt_wf m) as [m _ IH]. intros s -> Hi. constructor. intros s' Hs.
  eapply IH; [|done|by eapply inv_step]. by eapply step_measure.
Qed.

Lemma inv_no_stop data s e : inv data s → read_step s ≠ Stop e ∧ write_step s ≠ Stop e.
Proof.
  intros Hi. pose proof (inv_read _ _ Hi). pose proof (inv_write _ _ Hi).
  split; intros E; by rewrite E in *.
Qed.

(** Neither call can go on: each has returned or waits, and when. *)
Record stuck_at (data : list Z) (s : sys) : Prop := {
  st_out : out s = take (want s) data;
  st_read : rpc s = if (want s <=? List.length data)%nat then Done else Blocked;
  st_write : wpc s = if (List.length data <=? want s + cap)%nat then Done else Blocked }.

Lemma inv_stuck data s : inv data s → (∀ s', ¬ step s s') → stuck_at data s.
Proof.
  intros Hi Hst. pose proof (inv_read _ _ Hi) as Hr. pose proof (inv_write _ _ Hi) as Hw.
  assert (rpc s = Blocked ∨ rpc s = Done) as Hrs.
  { destruct (read_step s) as [[s'|]|] eqn:E; [|clear Hr|done].
    - exfalso. by eapply Hst, step_read.
    - unfold read_step, read_wait, read_byte in E. destruct (rpc s); auto; exfalso;
        unfold check, res_bind in E; repeat (case_match; try done). }
  assert (wpc s = Blocked ∨ wpc s = Done) as Hws.
  { destruct (write_step s) as [[s'|]|] eqn:E; [|clear Hw|done].
    - exfalso. by eapply Hst, step_write.
    - unfold write_step, write_wait, write_byte in E. destruct (wpc s); auto; exfalso;
        unfold check, res_bind in E; repeat (case_match; try done). }
  destruct Hi as [Hwf Hcp Hdat _ _ Hrb Hwb _ _ Hrd Hwd Hle]. 
  pose proof (fw_cap _ Hwf) as Hpos. pose proof (contents_bound _ Hwf) as Hcb.
  assert (List.length data = (List.length (out s) + (List.length (contents (ring (shared s))) +
    List.length (rest s)))%nat) as Hlen by (by rewrite <-Hdat, !length_app).
  rewrite Hcp in *. destruct Hrs as [Hrs|Hrs], Hws as [Hws|Hws].
  - destruct (Hrb Hrs) as [Hc _], (Hwb Hws) as [_ Hfull]. rewrite Hc in Hfull.
    unfold capacity in Hcp. cbn in Hfull. lia.
  - destruct (Hrb Hrs) as [Hc Hlt]. rewrite (Hwd Hws), Hc in *. cbn in Hlen.
    rewrite !app_nil_r in Hdat. split.
    + rewrite <-Hdat. symmetry. apply take_ge. lia.
    + rewrite Hrs, (proj2 (Nat.leb_gt _ _)) by lia. done.
    + rewrite Hws, (proj2 (Nat.leb_le _ _)) by lia. done.
  - specialize (Hrd Hrs). destruct (Hwb Hws) as [Hne Hfull].
    assert (List.length (rest s) ≠ O) by (by destruct (rest s)). split.
    + rewrite <-Hdat, take_app_length'; [done|lia].
    + rewrite Hrs, (proj2 (Nat.leb_le _ _)) by lia. done.
    + rewrite Hws, (proj2 (Nat.leb_gt _ _)) by lia. done.
  - specialize (Hrd Hrs). rewrite (Hwd Hws) in *. cbn in Hlen. split.
    + rewrite <-Hdat, take_app_length'; [done|lia].
    + rewrite Hrs, (proj2 (Nat.leb_le _ _)) by lia. done.
    + rewrite Hws, (proj2 (Nat.leb_le _ _)) by lia. done.
Qed.
End run.

Lemma want_step rd wr s s' : step rd wr s s' → want s' = want s.
Proof.
  intros [? ? H|? ? H]; [unfold read_step in H | unfold write_step in H];
    unfold res_bind in H; repeat (case_match; try done); by simplify_eq.
Qed.

(** C22: a pipe delivers what is written to it, whatever the interleaving of the
    reader and the writer and however small the ring: no assertion of
    [pipe_read]/[pipe_write] ever fails, every run ends after finitely many turns,
    and the bytes read so far are always a prefix of the bytes written.  When no call
    can go on, the reader has got the first [n] bytes of the data and has returned,
    or, when it asks for more than there is, has got them all and waits; the writer
    has returned, or waits exactly when what the reader leaves does not fit the ring.
    There is no deadlock with both sides waiting, and no byte is lost, duplicated or
    reordered. *)
Theorem pipe_transfers (rd wr : Z) (size : nat) (data : list Z) (n : nat)
    (Hsize : (2 ≤ size)%nat) (Hfit : Z.of_nat size < 2 ^ 32) :
  Acc (flip (step rd wr)) (start size data n) ∧
  ∀ s, steps (step rd wr) (start size data n) s →
    (∀ e, read_step rd wr s ≠ Stop e ∧ write_step rd wr s ≠ Stop e) ∧
    out s `prefix_of` data ∧
    ((∀ s', ¬ step rd wr s s') → out s = take n data ∧
      rpc s = (if (n <=? List.length data)%nat then Done else Blocked) ∧
      wpc s = (if (List.length data <=? n + (size - 1))%nat then Done else Blocked)).
Proof.
  pose proof (inv_start rd wr (size - 1) size data n ltac:(done) Hsize Hfit) as Hi0.
  split; [by eapply step_acc|]. intros s Hst.
  assert (inv rd wr (size - 1) data s ∧ want s = n) as [Hi Hw].
  { eapply (steps_invariant _ (λ s, inv rd wr (size - 1) data s ∧ want s = n)); [|by split|done].
    intros a b [Ha Hwa] Hab. split; [by eapply inv_step|]. by rewrite (want_step _ _ _ _ Hab). }
  split; [intros e; by eapply inv_no_stop|]. split.
  - rewrite <-(i_data _ _ _ _ _ Hi). by eexists.
  - intros Hstuck. rewrite <-Hw. by destruct (inv_stuck _ _ _ _ _ Hi Hstuck).
Qed.

Lemma pipe_transfers_witness :
  Acc (flip (step 1 2)) (start 2 [10; 11; 12] 3) ∧
  ∀ s, steps (step 1 2) (start 2 [10; 11; 12] 3) s →
    (∀ e, read_step 1 2 s ≠ Stop e ∧ write_step 1 2 s ≠ Stop e) ∧
    out s `prefix_of` [10; 11; 12] ∧
    ((∀ s', ¬ step 1 2 s s') → out s = take 3 [10; 11; 12] ∧ rpc s = Done ∧ wpc s = Done).
Proof. apply (pipe_transfers 1 2 2 [10; 11; 12] 3); [lia|reflexivity]. Defined.
