(* ===== verification/Mutex.v ===== *)
(** * Mutexes and reentrant locks ([src/src/kernel/mutex.c])

    Any number of tasks use one [lock_t].  Each step of the relation is a stretch
    of code that runs without a task switch: the turns of [mutex_lock]'s loop and
    [mutex_unlock] run with interrupts off; [lock_acquire] and [lock_release] can
    be preempted before and after them. *)
From stdpp Require Import functions.
From S2P Require Import Prelude.

Record mutex_t := mk_mutex { value : bool; waiters : list Z }.
Record lock_t := mk_lock { holder : option Z; mutex : mutex_t; repeat : Z }.

Definition mutex_init : mutex_t := mk_mutex false [].
Definition lock_init : lock_t := mk_lock None mutex_init 0.

(** One turn of the loop of [mutex_lock]: [task_block] pushes the task on the
    wait list (an assertion if it is there already); [false] is "blocked". *)
Definition mutex_lock_turn (me : Z) (m : mutex_t) : res (mutex_t * bool) :=
  if value m then
    assert! negb (bool_decide (me ∈ waiters m)) in
    Ok (mk_mutex (value m) (me :: waiters m), false)
  else Ok (mk_mutex true (waiters m), true).

(** [mutex_unlock], with the task it unblocks: [waiters.tail.prev]. *)
Definition mutex_unlock (m : mutex_t) : res (mutex_t * option Z) :=
  assert! value m in
  match last (waiters m) with
  | None => Ok (mk_mutex false (waiters m), None)
  | Some t => Ok (mk_mutex false (removelast (waiters m)), Some t)
  end.

(** Where a task stands: outside the lock code, in the loop of [mutex_lock],
    blocked there, after [mutex_lock] in [lock_acquire], and before
    [mutex_unlock] in [lock_release].  [depth] counts the acquisitions of a task
    that it has not released (a ghost of the calling code). *)
Inductive pc := Out | Try | Blocked | Got | Rel.

#[export] Instance pc_eq_dec : EqDecision pc.
Proof. solve_decision. Defined.

Record thread := mk_thread { at_ : pc; depth : Z }.
Record sys := mk_sys { lock : lock_t; threads : Z → thread }.

Definition upd (s : sys) (l : lock_t) (t : Z) (th : thread) : sys :=
  mk_sys l (<[t := th]> (threads s)).

(** [lock_acquire] up to the loop of [mutex_lock]. *)
Definition acquire (me : Z) (s : sys) : res sys :=
  let l := lock s in
  if bool_decide (holder l = Some me) then
    Ok (upd s (mk_lock (holder l) (mutex l) (u32 (repeat l + 1))) me
          (mk_thread Out (depth (threads s me) + 1)))
  else Ok (upd s l me (mk_thread Try 0)).

Definition try_lock (me : Z) (s : sys) : res sys :=
  let l := lock s in
  let! (m, got) := mutex_lock_turn me (mutex l) in
  Ok (upd s (mk_lock (holder l) m (repeat l)) me
        (mk_thread (if got then Got else Blocked) 0)).

(** The rest of [lock_acquire]. *)
Definition own (me : Z) (s : sys) : res sys :=
  let l := lock s in
  assert! repeat l =? 0 in
  Ok (upd s (mk_lock (Some me) (mutex l) 1) me (mk_thread Out 1)).

(** [lock_release] up to [mutex_unlock]. *)
Definition release (me : Z) (s : sys) : res sys :=
  let l := lock s in
  assert! bool_decide (holder l = Some me) in
  if 1 <? repeat l then
    Ok (upd s (mk_lock (holder l) (mutex l) (u32 (repeat l - 1))) me
          (mk_thread Out (depth (threads s me) - 1)))
  else
    assert! repeat l =? 1 in
    Ok (upd s (mk_lock None (mutex l) 0) me (mk_thread Rel 0)).

(** [mutex_unlock]; the woken task tests [value] again. *)
Definition unlock (me : Z) (s : sys) : res sys :=
  let l := lock s in
  let! (m, w) := mutex_unlock (mutex l) in
  let s' := upd s (mk_lock (holder l) m (repeat l)) me (mk_thread Out 0) in
  Ok (match w with
      | None => s'
      | Some t => upd s' (lock s') t (mk_thread Try (depth (threads s' t)))
      end).

(** What task [me] does next.  The calling code releases only what it holds, and
    nests less than [2^32 - 1] acquisitions. *)
Inductive action : Z → sys → (sys → res sys) → Prop :=
| act_acquire me s : at_ (threads s me) = Out → depth (threads s me) < 2 ^ 32 - 1 →
    action me s (acquire me)
| act_try me s : at_ (threads s me) = Try → action me s (try_lock me)
| act_own me s : at_ (threads s me) = Got → action me s (own me)
| act_release me s : at_ (threads s me) = Out → 0 < depth (threads s me) →
    action me s (release me)
| act_unlock me s : at_ (threads s me) = Rel → action me s (unlock me).

Definition step (s s' : sys) : Prop := ∃ me f, action me s f ∧ f s = Ok s'.

Definition start : sys := mk_sys lock_init (λ _, mk_thread Out 0).

(** ** Invariant *)

(** The mutex belongs to task [t]. *)
Definition holds (s : sys) (t : Z) : Prop :=
  0 < depth (threads s t) ∨ at_ (threads s t) = Got ∨ at_ (threads s t) = Rel.

Record inv (s : sys) (owner : option Z) : Prop := {
  i_value : value (mutex (lock s)) = bool_decide (owner ≠ None);
  i_holds : ∀ t, holds s t ↔ owner = Some t;
  i_holder : ∀ t, holder (lock s) = Some t ↔ 0 < depth (threads s t);
  i_repeat : repeat (lock s) =
     match holder (lock s) with Some t => depth (threads s t) | None => 0 end;
  i_depth : ∀ t, 0 ≤ depth (threads s t) < 2 ^ 32;
  i_out : ∀ t, 0 < depth (threads s t) → at_ (threads s t) = Out;
  i_wait : ∀ t, t ∈ waiters (mutex (lock s)) ↔ at_ (threads s t) = Blocked;
  i_nodup : NoDup (waiters (mutex (lock s)));
  i_wakeup : value (mutex (lock s)) = false → waiters (mutex (lock s)) ≠ [] →
     ∃ t, at_ (threads s t) = Try }.

(** Looks up updated threads, splitting on the thread. *)
Ltac upd_cases :=
  repeat match goal with
  | |- context [(<[?a := _]> _) ?a] => rewrite fn_lookup_insert
  | |- context [(<[?a := _]> _) ?b] =>
      destruct (decide (b = a)) as [->|?];
      [rewrite fn_lookup_insert | rewrite fn_lookup_insert_ne by congruence]
  | H : context [(<[?a := _]> _) ?b] |- _ =>
      destruct (decide (b = a)) as [->|?];
      [rewrite fn_lookup_insert in H | rewrite fn_lookup_insert_ne in H by congruence]
  end; cbn [at_ depth] in *.

(** Closes the propositional goals about program points and depths. *)
Ltac solve_pc := intuition (first [congruence | lia]).

(** The clauses of the invariant of an updated state. *)
Ltac split_inv :=
  split; unfold holds in *; cbn [upd lock threads holder mutex repeat value waiters];
  try done.

Section preservation.
Context (s : sys) (o : option Z) (Hi : inv s o) (me : Z).

Lemma acquire_inv : at_ (threads s me) = Out → depth (threads s me) < 2 ^ 32 - 1 →
  ∃ s', acquire me s = Ok s' ∧ inv s' o.
Proof using Hi.
  intros Hpc Hd. destruct Hi as [Hv Hh Hhd Hr Hdp Hout Hw Hnd Hwk].
  unfold acquire. pose proof (Hdp me). change (2 ^ 32) with 4294967296 in *.
  destruct (bool_decide_reflect (holder (lock s) = Some me)) as [Eh|Eh]; (eexists; split; [done|]); unfold holds in *.
  - rewrite Eh in Hr. pose proof (proj1 (Hhd me) Eh) as Hpos.
    split_inv.
    + intros t. rewrite <-Hh. upd_cases; [rewrite Hpc; solve_pc|done].
    + intros t. rewrite Hhd. upd_cases; [lia|done].
    + rewrite Eh. upd_cases. rewrite Hr, u32_small by lia. done.
    + intros t. upd_cases; [lia|apply Hdp].
    + intros t. upd_cases; [done|apply Hout].
    + intros t. rewrite Hw. upd_cases; [by rewrite Hpc|done].
    + intros Hf Hne. destruct (Hwk Hf Hne) as [t Ht]. exists t.
      upd_cases; [congruence|done].
  - assert (depth (threads s me) = 0) as D.
    { rewrite Hhd in Eh. pose proof (Hdp me). lia. }
    split_inv.
    + intros t. rewrite <-Hh. upd_cases; [rewrite Hpc, D; solve_pc|done].
    + intros t. rewrite Hhd. upd_cases; [lia|done].
    + rewrite Hr. destruct (holder (lock s)) as [t|] eqn:Et; [|done].
      upd_cases; [congruence|done].
    + intros t. upd_cases; [lia|apply Hdp].
    + intros t. upd_cases; [lia|apply Hout].
    + intros t. rewrite Hw. upd_cases; [by rewrite Hpc|done].
    + intros Hf Hne. destruct (Hwk Hf Hne) as [t Ht]. exists t.
      upd_cases; [done|done].
Qed.

Lemma try_inv : at_ (threads s me) = Try → ∃ s' o', try_lock me s = Ok s' ∧ inv s' o'.
Proof using Hi.
  intros Hpc. destruct Hi as [Hv Hh Hhd Hr Hdp Hout Hw Hnd Hwk].
  assert (depth (threads s me) = 0) as D.
  { pose proof (Hdp me). destruct (Z.eq_dec (depth (threads s me)) 0); [done|].
    rewrite Hout in Hpc by lia. done. }
  assert (holder (lock s) ≠ Some me) as Hnh by (rewrite Hhd; lia).
  assert (me ∉ waiters (mutex (lock s))) as Hnw by (rewrite Hw; congruence).
  unfold try_lock, mutex_lock_turn. destruct (value (mutex (lock s))) eqn:Ev.
  - rewrite bool_decide_eq_false_2 by done. cbn [negb check res_bind].
    eexists _, o; split; [done|]. split_inv.
    + intros t. rewrite <-Hh. upd_cases; [rewrite Hpc, D; solve_pc|done].
    + intros t. rewrite Hhd. upd_cases; [lia|done].
    + rewrite Hr. destruct (holder (lock s)) as [t|] eqn:Et; [|done].
      upd_cases; [congruence|done].
    + intros t. upd_cases; [lia|apply Hdp].
    + intros t. upd_cases; [lia|apply Hout].
    + intros t. rewrite elem_of_cons, Hw. upd_cases; solve_pc.
    + by apply NoDup_cons.
  - assert (o = None) as ->.
    { symmetry in Hv. rewrite bool_decide_eq_false in Hv. by apply dec_stable. }
    eexists _, (Some me); split; [done|]. split_inv.
    + intros t. specialize (Hh t). upd_cases; [solve_pc|]. split; [solve_pc|congruence].
    + intros t. rewrite Hhd. upd_cases; [lia|done].
    + rewrite Hr. destruct (holder (lock s)) as [t|] eqn:Et; [|done].
      upd_cases; [congruence|done].
    + intros t. upd_cases; [lia|apply Hdp].
    + intros t. upd_cases; [lia|apply Hout].
    + intros t. rewrite Hw. upd_cases; [solve_pc|done].
Qed.

Lemma own_inv : at_ (threads s me) = Got → ∃ s', own me s = Ok s' ∧ inv s' o.
Proof using Hi.
  intros Hpc. destruct Hi as [Hv Hh Hhd Hr Hdp Hout Hw Hnd Hwk].
  assert (o = Some me) as -> by (apply Hh; unfold holds; auto).
  assert (∀ t, depth (threads s t) = 0) as D.
  { intros t. pose proof (Hdp t). destruct (Z.eq_dec (depth (threads s t)) 0); [done|].
    assert (Some me = Some t) as [= ->] by (apply Hh; left; lia).
    rewrite Hout in Hpc by lia. done. }
  assert (holder (lock s) = None) as En.
  { destruct (holder (lock s)) as [t|] eqn:Et; [|done].
    specialize (proj1 (Hhd t) eq_refl). rewrite D. lia. }
  rewrite En in Hr. unfold own. rewrite Hr. cbn [Z.eqb check res_bind].
  eexists; split; [done|]. split_inv.
  - intros t. rewrite <-Hh. upd_cases; [solve_pc|done].
  - intros t. upd_cases; [solve_pc|]. rewrite D. split; [congruence|lia].
  - upd_cases. done.
  - intros t. upd_cases; [lia|apply Hdp].
  - intros t. upd_cases; [done|apply Hout].
  - intros t. rewrite Hw. upd_cases; [by rewrite Hpc|done].
  - intros Hf Hne. destruct (Hwk Hf Hne) as [t Ht]. exists t. upd_cases; [congruence|done].
Qed.

Lemma release_inv : at_ (threads s me) = Out → 0 < depth (threads s me) →
  ∃ s', release me s = Ok s' ∧ inv s' o.
Proof using Hi.
  intros Hpc Hpos. destruct Hi as [Hv Hh Hhd Hr Hdp Hout Hw Hnd Hwk].
  pose proof (Hdp me). change (2 ^ 32) with 4294967296 in *.
  assert (o = Some me) as -> by (apply Hh; by left).
  assert (holder (lock s) = Some me) as Eh by (by apply Hhd).
  assert (∀ t, t ≠ me → depth (threads s t) = 0) as D.
  { intros t Ht. pose proof (Hdp t). destruct (Z.eq_dec (depth (threads s t)) 0); [done|].
    assert (holder (lock s) = Some t) by (apply Hhd; lia). congruence. }
  rewrite Eh in Hr. unfold release. rewrite Eh, bool_decide_eq_true_2 by done.
  cbn [check res_bind]. rewrite Hr.
  destruct (Z.ltb_spec 1 (depth (threads s me))).
  - eexists; split; [done|]. split_inv.
    + intros t. rewrite <-Hh. upd_cases; [rewrite Hpc; solve_pc|done].
    + intros t. specialize (Hhd t). upd_cases; [solve_pc|]. by rewrite Eh in Hhd.
    + upd_cases. by rewrite u32_small by lia.
    + intros t. upd_cases; [lia|apply Hdp].
    + intros t. upd_cases; [done|apply Hout].
    + intros t. rewrite Hw. upd_cases; [by rewrite Hpc|done].
    + intros Hf Hne. destruct (Hwk Hf Hne) as [t Ht]. exists t. upd_cases; [congruence|done].
  - assert (depth (threads s me) = 1) as -> by lia. cbn [Z.eqb check res_bind Pos.eqb].
    eexists; split; [done|]. split_inv.
    + intros t. rewrite <-Hh. upd_cases; [solve_pc|done].
    + intros t. upd_cases; [solve_pc|]. rewrite D by done. split; [done|lia].
    + intros t. upd_cases; [lia|apply Hdp].
    + intros t. upd_cases; [lia|apply Hout].
    + intros t. rewrite Hw. upd_cases; [by rewrite Hpc|done].
    + intros Hf Hne. destruct (Hwk Hf Hne) as [t Ht]. exists t. upd_cases; [congruence|done].
Qed.

Lemma unlock_inv : at_ (threads s me) = Rel → ∃ s' o', unlock me s = Ok s' ∧ inv s' o'.
Proof using Hi.
  intros Hpc. destruct Hi as [Hv Hh Hhd Hr Hdp Hout Hw Hnd Hwk].
  assert (o = Some me) as -> by (apply Hh; unfold holds; auto).
  assert (∀ t, t ≠ me → ¬ holds s t) as Hot by (intros t Ht; rewrite Hh; congruence).
  assert (∀ t, depth (threads s t) = 0) as D.
  { intros t. pose proof (Hdp t). destruct (Z.eq_dec (depth (threads s t)) 0); [done|].
    assert (Some me = Some t) as [= ->] by (apply Hh; left; lia).
    rewrite Hout in Hpc by lia. done. }
  assert (holder (lock s) = None) as En.
  { destruct (holder (lock s)) as [t|] eqn:Et; [|done].
    specialize (proj1 (Hhd t) eq_refl). rewrite D. lia. }
  rewrite En in Hr. unfold holds in Hot.
  rewrite bool_decide_eq_true_2 in Hv by done.
  unfold unlock, mutex_unlock. rewrite Hv. cbn [check res_bind].
  destruct (last (waiters (mutex (lock s)))) as [w|] eqn:El.
  - apply last_Some in El as [ws El]. rewrite El in *. rewrite removelast_last.
    assert (at_ (threads s w) = Blocked) as Hbw by (apply Hw; set_solver).
    assert (w ≠ me) as Hwm by congruence.
    apply NoDup_app in Hnd as (Hnd & Hdis & _).
    eexists _, None; split; [done|]. split_inv.
    + intros t. specialize (D t). specialize (Hot t). upd_cases; solve_pc.
    + intros t. rewrite En. specialize (D t). upd_cases; solve_pc.
    + by rewrite En.
    + intros t. specialize (D t). upd_cases; solve_pc.
    + intros t. specialize (D t). upd_cases; solve_pc.
    + intros t. specialize (Hw t). rewrite elem_of_app, list_elem_of_singleton in Hw.
      specialize (Hdis t). rewrite list_elem_of_singleton in Hdis.
      upd_cases; solve_pc.
    + intros _ _. exists w. upd_cases; done.
  - apply last_None in El. rewrite El in *.
    eexists _, None; split; [done|]. split_inv.
    + intros t. specialize (D t). specialize (Hot t). upd_cases; solve_pc.
    + intros t. rewrite En. specialize (D t). upd_cases; solve_pc.
    + by rewrite En.
    + intros t. specialize (D t). upd_cases; solve_pc.
    + intros t. specialize (D t). upd_cases; solve_pc.
    + intros t. specialize (Hw t). upd_cases; solve_pc.
Qed.

Lemma action_inv f : action me s f → ∃ s' o', f s = Ok s' ∧ inv s' o'.
Proof using Hi.
  inversion 1; subst.
  - destruct acquire_inv as (? & ? & ?); eauto.
  - apply try_inv; done.
  - destruct own_inv as (? & ? & ?); eauto.
  - destruct release_inv as (? & ? & ?); eauto.
  - apply unlock_inv; done.
Qed.
End preservation.

Lemma start_inv : inv start None.
Proof.
  split; cbn; try done; unfold holds; cbn; try (intros; solve_pc).
  - intros t. set_solver.
  - apply NoDup_nil_2.
Qed.

Lemma reachable_inv s : steps step start s → ∃ o, inv s o.
Proof.
  apply (steps_invariant step (λ s, ∃ o, inv s o)); [|eauto using start_inv].
  intros a b [o Ho] (me & f & Hf & E). destruct (action_inv a o Ho me f Hf) as (b' & o' & E' & ?).
  rewrite E' in E. injection E as <-. eauto.
Qed.

(** C23: in every reachable state of any number of tasks that use one [lock_t],
    no assertion of [mutex.c] fails in the next step of any task; at most one task
    is between acquiring and releasing the lock, [holder] names exactly the task
    with unreleased acquisitions and [repeat] counts them; the wait list holds
    exactly the blocked tasks, once each; and a free lock with waiters always has a
    woken task about to retry, so that no wakeup is lost. *)
Theorem lock_excludes (s : sys) (Hs : steps step start s) :
  (∀ me f, action me s f → ∃ s', f s = Ok s') ∧
  (∀ t1 t2, holds s t1 → holds s t2 → t1 = t2) ∧
  (∀ t, holder (lock s) = Some t ↔ 0 < depth (threads s t)) ∧
  (∀ t, 0 < depth (threads s t) → repeat (lock s) = depth (threads s t)) ∧
  (∀ t, t ∈ waiters (mutex (lock s)) ↔ at_ (threads s t) = Blocked) ∧
  NoDup (waiters (mutex (lock s))) ∧
  (value (mutex (lock s)) = false → waiters (mutex (lock s)) ≠ [] →
   ∃ t, at_ (threads s t) = Try).
Proof.
  destruct (reachable_inv s Hs) as [o Ho]. pose proof Ho as [].
  split; [intros me f Hf; destruct (action_inv s o Ho me f Hf) as (? & ? & ? & _); eauto|].
  split; [intros t1 t2; rewrite !i_holds0; congruence|]. split; [done|].
  split; [intros t Ht; by rewrite i_repeat0, (proj2 (i_holder0 t) Ht)|]. done.
Qed.

(** Two tasks: 1 holds the lock, 2 is blocked. *)
Definition contended : res sys :=
  let! s := acquire 1 start in let! s := try_lock 1 s in let! s := own 1 s in
  let! s := acquire 2 s in try_lock 2 s.

Lemma lock_excludes_witness :
  ∃ s, contended = Ok s ∧ waiters (mutex (lock s)) = [2] ∧
    (∀ me f, action me s f → ∃ s', f s = Ok s') ∧
    (∀ t1 t2, holds s t1 → holds s t2 → t1 = t2).
Proof.
  eexists. split; [reflexivity|]. split; [reflexivity|].
  epose proof (lock_excludes _ _) as (H1 & H2 & _). split; [exact H1|exact H2].
  Unshelve.
  eapply steps_cons; [exists 1, (acquire 1); split; [by apply act_acquire|reflexivity]|].
  eapply steps_cons; [exists 1, (try_lock 1); split; [by apply act_try|reflexivity]|].
  eapply steps_cons; [exists 1, (own 1); split; [by apply act_own|reflexivity]|].
  eapply steps_cons; [exists 2, (acquire 2); split; [by apply act_acquire|reflexivity]|].
  eapply steps_cons; [exists 2, (try_lock 2); split; [by apply act_try|reflexivity]|].
  apply steps_refl.
Defined.
