(* ===== verification/Task.v ===== *)
(** * Tasks, timers and the clock ([src/src/kernel/task.c], [timer.c], [alarm.c],
    [clock.c], and [sys_kill] of [signal.c])

    One state, [sched], holds the task table, the wait lists, the timers and the
    clock.  Every operation runs with interrupts off and is modelled up to the
    point where [schedule] switches to another task; a blocked call goes on when
    its task is scheduled again and reads its [status]. *)
From S2P Require Import Prelude Dlist.

Inductive task_state_t :=
| TASK_INIT | TASK_RUNNING | TASK_READY | TASK_BLOCKED | TASK_SLEEPING
| TASK_WAITING | TASK_DIED.

#[export] Instance task_state_eq_dec : EqDecision task_state_t.
Proof. solve_decision. Defined.

Record sigaction_t := mk_sigaction {
  handler : Z; mask : Z; flags : Z; restorer : Z }.

(** [node] is the wait list the task's list node is in; [timer] and [alarm] are
    timer addresses.  The memory, the files and the directories of a task are in
    [res_state] below. *)
Record task_t := mk_task {
  node : option Z; state : task_state_t; priority : Z; ticks : Z; tjiffies : Z;
  uid : Z; pid : Z; ppid : Z; pgid : Z; sid : Z; status : Z; waitpid : Z;
  signal : Z; blocked : Z; alarm : option Z; timer : option Z;
  actions : list sigaction_t }.

#[export] Instance task_expand : Expand task_t := λ t,
  mk_task (node t) (state t) (priority t) (ticks t) (tjiffies t) (uid t) (pid t)
    (ppid t) (pgid t) (sid t) (status t) (waitpid t) (signal t) (blocked t)
    (alarm t) (timer t) (actions t).

(** The handlers the kernel registers: none (a task timeout), [task_alarm], and
    the motor timeout of the floppy driver, which only touches the device. *)
Inductive handler_t := H_none | H_alarm | H_device.

#[export] Instance handler_eq_dec : EqDecision handler_t.
Proof. solve_decision. Defined.

Record timer_t := mk_timer {
  ttask : Z; expires : Z; thandler : handler_t; active : bool }.

#[export] Instance timer_expand : Expand timer_t := λ r,
  mk_timer (ttask r) (expires r) (thandler r) (active r).

(** [task_table[i]] is the task of pid [i]; [lists] are the wait lists by address,
    an absent one is empty; [timers] are the allocated timers and [timer_list] the
    order of their nodes. *)
Record sched := mk_sched {
  task_table : gmap Z task_t; current : Z; lists : gmap Z (list Z);
  timers : gmap Z timer_t; timer_list : list Z; jiffies : Z }.

#[export] Instance sched_expand : Expand sched := λ s,
  mk_sched (task_table s) (current s) (lists s) (timers s) (timer_list s) (jiffies s).

Definition TASK_NR : Z := 64.
Definition KERNEL_USER : Z := 0.
Definition MAXSIG : Z := 31.
Definition SIGHUP : Z := 1.
Definition SIGKILL : Z := 9.
Definition SIGALRM : Z := 14.
Definition SIGCHLD : Z := 17.
Definition SIGMASK (sig : Z) : Z := Z.shiftl 1 (sig - 1).

(** The addresses of [block_list] and [sleep_list], and the pid of [idle_task]. *)
Definition block_list : Z := 0.
Definition sleep_list : Z := 1.
Definition idle_task : Z := 0.

Definition wait_list (s : sched) (b : Z) : list Z := default [] (lists s !! b).

(** ** Access to the tasks *)
Definition task_at (p : Z) : ST sched task_t := st_deref (λ s, task_table s !! p).
Definition put_task (p : Z) (t : task_t) : ST sched unit :=
  st_mod (λ s, s <| task_table $= <[p := t]> |>).
Definition mod_task (p : Z) (f : task_t → task_t) : ST sched unit :=
  let* t := task_at p in put_task p (f t).
Definition running_task : ST sched Z := st_gets current.

(** The task of pid [p], for the loop of [get_task] over the table. *)
Definition get_task (p : Z) (s : sched) : option Z :=
  List.find (λ i, match task_table s !! i with
                  | Some t => pid t =? p
                  | None => false
                  end) (seqZ 0 TASK_NR).

(** [get_free_task]: the first free slot, with a zeroed task. *)
Definition zero_task (i : Z) : task_t :=
  mk_task None TASK_INIT 0 0 0 0 i 0 0 0 0 0 0 0 None None [].

Definition free_slot (s : sched) : option Z :=
  List.find (λ i, bool_decide (task_table s !! i = None)) (seqZ 0 TASK_NR).

Definition get_free_task : ST sched Z :=
  let* s := st_get in
  match free_slot s with
  | None => st_stop Assert
  | Some i => do! put_task i (zero_task i); st_ret i
  end.

(** ** Timers *)
Definition jiffy : Z := 10.

(** [expires] is read as an [int] by [list_insert_sort]. *)
Definition timer_key (s : sched) (tm : Z) : Z :=
  s32 (default 0 (expires <$> timers s !! tm)).

Definition timer_expire_jiffies (expire_ms : Z) (s : sched) : Z :=
  u32 (jiffies s + u32 expire_ms `div` jiffy).

Definition timer_is_expires (e : Z) (s : sched) : bool := e <? jiffies s.

Definition timer_insert (tm : Z) : ST sched unit :=
  let* s := st_get in
  do! st_check (negb (Abs.mem tm (timer_list s)));
  st_mod (λ s, s <| timer_list $= Abs.insert_sort (timer_key s) tm |>).

(** [timer_put]: [list_remove], then [kfree]. *)
Definition timer_unlink (tm : Z) : ST sched unit :=
  let* s := st_get in
  do! st_check (Abs.mem tm (timer_list s));
  st_mod (λ s, s <| timer_list $= Abs.remove tm |>).

Definition timer_put (tm : Z) : ST sched unit :=
  let* _ := st_deref (λ s, timers s !! tm) in
  do! timer_unlink tm;
  st_mod (λ s, s <| timers $= delete tm |>).

(** [kmalloc] returns an address that is not in use. *)
Definition timer_add (expire_ms : Z) (h : handler_t) : ST sched Z :=
  let* s := st_get in
  let tm := fresh (dom (timers s)) in
  do! st_mod (λ s, s <| timers $= <[tm :=
        mk_timer (current s) (timer_expire_jiffies expire_ms s) h false]> |>);
  do! timer_insert tm;
  st_ret tm.

Definition timer_update (tm expire_ms : Z) : ST sched unit :=
  let* r := st_deref (λ s, timers s !! tm) in
  do! timer_unlink tm;
  do! st_mod (λ s, s <| timers $= <[tm :=
        r <| expires := timer_expire_jiffies expire_ms s |>]> |>);
  timer_insert tm.

(** The first expiry; [EOF] as a [u32] when there is no timer. *)
Definition timer_expires (s : sched) : res Z :=
  match timer_list s with
  | [] => Ok (u32 EOF)
  | tm :: _ => let! r := deref (timers s !! tm) in Ok (expires r)
  end.

Definition timer_remove (p : Z) : ST sched unit :=
  let* s := st_get in
  st_for (timer_list s) (λ tm,
    let* r := st_deref (λ s, timers s !! tm) in
    st_when (ttask r =? p) (timer_put tm)).

(** ** Scheduling *)

(** One turn of the loop of [task_search]: [best] is the candidate so far. *)
Definition search_turn (st : task_state_t) (s : sched) (best : option Z) (i : Z)
    : option Z :=
  match task_table s !! i with
  | None => best
  | Some ptr =>
      if negb (bool_decide (state ptr = st)) then best
      else if current s =? i then best
      else match best with
           | None => Some i
           | Some b =>
               match task_table s !! b with
               | None => best
               | Some task =>
                   if (ticks task <? ticks ptr) || (tjiffies ptr <? tjiffies task)
                   then Some i else best
               end
           end
  end.

Definition task_search (st : task_state_t) (s : sched) : option Z :=
  match foldl (search_turn st s) None (seqZ 0 TASK_NR) with
  | None => if bool_decide (st = TASK_READY) then Some idle_task else None
  | b => b
  end.

Definition schedule : ST sched unit :=
  let* s := st_get in
  match task_search TASK_READY s with
  | None => st_stop Assert
  | Some nxt =>
  do! mod_task (current s) (λ t,
        if bool_decide (state t = TASK_RUNNING) then t <| state := TASK_READY |> else t);
  do! mod_task (current s) (λ t,
        if ticks t =? 0 then t <| ticks := priority t |> else t);
  do! mod_task nxt (λ t, t <| state := TASK_RUNNING |>);
  st_mod (λ s, s <| current := nxt |>)
  end.

Definition task_yield : ST sched unit := schedule.

(** [task_block]; [blist] is [None] for [block_list]. *)
Definition task_block (p : Z) (blist : option Z) (st : task_state_t) (timeout_ms : Z)
    : ST sched unit :=
  let* t := task_at p in
  do! st_check (bool_decide (node t = None));
  let b := default block_list blist in
  do! st_check (negb (bool_decide (st = TASK_READY)) && negb (bool_decide (st = TASK_RUNNING)));
  let* s := st_get in
  do! st_check (negb (Abs.mem p (wait_list s b)));
  do! st_mod (λ s, s <| lists $= <[b := p :: wait_list s b]> |>);
  do! mod_task p (λ t, t <| node := Some b |>);
  do! (if 0 <? timeout_ms then
         do! st_check (bool_decide (timer t = None));
         let* tm := timer_add timeout_ms H_none in
         mod_task p (λ t, t <| timer := Some tm |>)
       else st_ret tt);
  do! mod_task p (λ t, t <| state := st |>);
  let* me := running_task in
  st_when (me =? p) schedule.

Definition task_unblock (p reason : Z) : ST sched unit :=
  let* t := task_at p in
  do! (match node t with
       | None => st_ret tt
       | Some b =>
           let* s := st_get in
           do! st_check (Abs.mem p (wait_list s b));
           do! st_mod (λ s, s <| lists $= <[b := Abs.remove p (wait_list s b)]> |>);
           mod_task p (λ t, t <| node := None |>)
       end);
  do! (match timer t with
       | None => st_ret tt
       | Some tm =>
           let* r := st_deref (λ s, timers s !! tm) in
           do! st_when (negb (active r)) (timer_put tm);
           mod_task p (λ t, t <| timer := None |>)
       end);
  do! st_check (negb (bool_decide (state t = TASK_RUNNING)));
  mod_task p (λ t, t <| status := reason |> <| state := TASK_READY |>).

Definition task_sleep (ms : Z) : ST sched unit :=
  let* me := running_task in task_block me (Some sleep_list) TASK_SLEEPING ms.

(** ** Signals that unblock a task, and the alarm *)
Definition sys_kill (p sig : Z) : ST sched Z :=
  if (sig <? 1) || (MAXSIG <? sig) then st_ret EOF
  else
    let* s := st_get in
    match get_task p s with
    | None => st_ret EOF
    | Some i =>
        let* t := task_at i in
        if uid t =? KERNEL_USER then st_ret EOF
        else if pid t =? 1 then st_ret EOF
        else
          do! mod_task i (λ t, t <| signal $= λ m, Z.lor m (SIGMASK sig) |>);
          do! st_when (bool_decide (state t = TASK_WAITING) || bool_decide (state t = TASK_SLEEPING))
                (task_unblock i (- EINTR));
          st_ret 0
    end.

Definition task_alarm (r : timer_t) : ST sched unit :=
  do! mod_task (ttask r) (λ t, t <| alarm := None |>);
  let* t := task_at (ttask r) in
  do! sys_kill (pid t) SIGALRM;
  st_ret tt.

Definition sys_alarm (sec : Z) : ST sched unit :=
  let* me := running_task in
  let* t := task_at me in
  do! (match alarm t with Some tm => timer_put tm | None => st_ret tt end);
  let* tm := timer_add (sec * 1000) H_alarm in
  mod_task me (λ t, t <| alarm := Some tm |>).

(** ** Expiry *)
Definition default_timeout (r : timer_t) : ST sched unit :=
  task_unblock (ttask r) (- ETIME).

(** The body of the loop of [timer_wakeup], on the head of the list. *)
Definition fire_timer (tm : Z) : ST sched unit :=
  let* r := st_deref (λ s, timers s !! tm) in
  do! st_mod (λ s, s <| timers $= <[tm := r <| active := true |>]> |>);
  let* s := st_get in
  do! st_check (expires r <=? jiffies s);
  do! (match thandler r with
       | H_none => default_timeout r
       | H_alarm => task_alarm r
       | H_device => st_ret tt
       end);
  timer_put tm.

Fixpoint wakeup_loop (fuel : nat) : ST sched unit :=
  match fuel with
  | O => st_stop Fuel
  | S f =>
      let* s := st_get in
      let* e := st_lift (timer_expires s) in
      if e <=? jiffies s then
        match timer_list s with
        | [] => st_stop Fault
        | tm :: _ => do! fire_timer tm; wakeup_loop f
        end
      else st_ret tt
  end.

Definition timer_wakeup : ST sched unit :=
  let* s := st_get in wakeup_loop (S (List.length (timer_list s))).

Definition clock_handler : ST sched unit :=
  do! st_mod (λ s, s <| jiffies $= λ j, u32 (j + 1) |>);
  do! timer_wakeup;
  let* me := running_task in
  let* s := st_get in
  do! mod_task me (λ t, t <| tjiffies := jiffies s |> <| ticks $= λ k, k - 1 |>);
  let* t := task_at me in
  st_when (ticks t =? 0) schedule.

(** ** Creation, exit and wait *)

(** How the release of the resources of an exiting task comes back to the
    scheduler: it is done; it waits in [task_block], on a list and with a time, as
    [device_request], [ide_pio_write] and [mutex_lock] do; or it gives the
    processor away, as [mutex_unlock] does. *)
Inductive exit_stop :=
| Exit_released | Exit_blocks (blist : option Z) (timeout_ms : Z) | Exit_yields.

(** The resources of the tasks outside the scheduler (address space, stack page,
    files, directories, fpu state): what [task_create], [task_fork], [task_exit]
    and [task_waitpid] ask of memory.c, arena.c and the file system.

    [exit_resources p st] goes on with the release of the resources of [p] up to
    the next point where it leaves the processor, and says which tasks it has woken
    on the way (with [EOK]) and how it stopped; the progress of the release is part
    of [R].  [st] is what the [task_block] it was in returned, [EOK] at the
    start. *)
Class Resources (R : Type) := {
  create_resources : Z → R → res R;
  fork_resources : Z → Z → R → res R;
  exit_resources : Z → Z → R → res ((list Z * exit_stop) * R);
  free_task_page : Z → R → res R }.

Record sys (R : Type) := mk_sys { sch : sched; rsrc : R }.
Arguments mk_sys {R} sch rsrc.
Arguments sch {R} s.
Arguments rsrc {R} s.

Section resources.
Context {R : Type} `{!Resources R}.

Definition on_sched {A} (m : ST sched A) : ST (sys R) A :=
  λ s, let! (a, c) := m (sch s) in Ok (a, mk_sys c (rsrc s)).
Definition on_rsrc (f : R → res R) : ST (sys R) unit :=
  λ s, let! r := f (rsrc s) in Ok (tt, mk_sys (sch s) r).
Definition of_rsrc {A} (f : R → res (A * R)) : ST (sys R) A :=
  λ s, let! (a, r) := f (rsrc s) in Ok (a, mk_sys (sch s) r).

Definition default_action : sigaction_t := mk_sigaction 0 0 0 0.

Definition task_create (prio user : Z) : ST (sys R) Z :=
  let* i := on_sched get_free_task in
  do! on_sched (mod_task i (λ t, t <| priority := prio |> <| ticks := prio |>
        <| tjiffies := 0 |> <| state := TASK_READY |> <| uid := user |>
        <| pgid := 0 |> <| sid := 0 |>));
  do! on_rsrc (create_resources i);
  do! on_sched (mod_task i (λ t, t <| signal := 0 |> <| blocked := 0 |>
        <| actions := replicate (Z.to_nat MAXSIG) default_action |>
        <| timer := None |> <| alarm := None |>));
  st_ret i.

Definition task_fork : ST (sys R) Z :=
  let* me := on_sched running_task in
  let* t := on_sched (task_at me) in
  do! st_check (bool_decide (node t = None) && bool_decide (state t = TASK_RUNNING));
  let* child := on_sched get_free_task in
  do! on_sched (put_task child (t <| pid := child |> <| ppid := pid t |>
        <| ticks := priority t |> <| state := TASK_READY |>));
  do! on_rsrc (fork_resources me child);
  st_ret child.

(** [task_kill_session] and [task_tell_father]. *)
Definition task_leader (t : task_t) : bool := sid t =? pid t.

Definition task_kill_session (me : Z) : ST sched unit :=
  let* t := task_at me in
  if negb (task_leader t) then st_ret tt
  else st_for (seqZ 0 TASK_NR) (λ i,
    let* s := st_get in
    match task_table s !! i with
    | None => st_ret tt
    | Some c =>
        st_when (negb (me =? i) && (sid t =? sid c))
          (put_task i (c <| signal $= λ m, Z.lor m (SIGMASK SIGHUP) |>))
    end).

Definition task_tell_father (me : Z) : ST sched unit :=
  let* t := task_at me in
  if ppid t =? 0 then st_ret tt
  else
    let* s := st_get in
    match get_task (ppid t) s with
    | None => st_stop Assert
    | Some i => mod_task i (λ p, p <| signal $= λ m, Z.lor m (SIGMASK SIGCHLD) |>)
    end.

(** The loop that gives the children of [me] to its own parent. *)
Definition reparent (me : Z) : ST sched unit :=
  let* t := task_at me in
  st_for (seqZ 2 (TASK_NR - 2)) (λ i,
    let* s := st_get in
    match task_table s !! i with
    | None => st_ret tt
    | Some c => st_when (ppid c =? pid t) (put_task i (c <| ppid := ppid t |>))
    end).

(** The end of [task_exit], when everything is released. *)
Definition task_exit_end (me : Z) : ST (sys R) unit :=
  do! on_sched (reparent me);
  let* t := on_sched (task_at me) in
  let* parent := on_sched (task_at (ppid t)) in
  do! st_when (bool_decide (state parent = TASK_WAITING) &&
               ((waitpid parent =? -1) || (waitpid parent =? pid t)))
        (on_sched (task_unblock (ppid t) EOK));
  on_sched schedule.

(** The release up to the next switch to another task, or the end. *)
Definition task_exit_release (me st : Z) : ST (sys R) unit :=
  let* (woken, e) := of_rsrc (exit_resources me st) in
  do! st_for woken (λ p, on_sched (task_unblock p EOK));
  match e with
  | Exit_released => task_exit_end me
  | Exit_blocks blist ms => on_sched (task_block me blist TASK_BLOCKED ms)
  | Exit_yields => on_sched task_yield
  end.

(** [task_exit] up to the first switch; [task_exit_resume] is the same call when
    its task is scheduled again in the middle of the release. *)
Definition task_exit (code : Z) : ST (sys R) unit :=
  let* me := on_sched running_task in
  let* t := on_sched (task_at me) in
  do! st_check (bool_decide (node t = None) && bool_decide (state t = TASK_RUNNING));
  do! on_sched (mod_task me (λ t, t <| state := TASK_DIED |> <| status := code |>));
  do! on_sched (task_kill_session me);
  do! on_sched (task_tell_father me);
  do! on_sched (timer_remove me);
  task_exit_release me EOK.

Definition task_exit_resume : ST (sys R) unit :=
  let* me := on_sched running_task in
  let* t := on_sched (task_at me) in
  task_exit_release me (status t).

(** One turn of the loop of [task_waitpid]: the scan of the table, then the
    child is reaped ([inl] its pid and status), the task blocks and will loop
    ([inr true]), or there is no child ([inr false], the call returns -1). *)
Inductive scan_t := Scan_none | Scan_child | Scan_dead (i : Z).

Fixpoint scan_children (me p : Z) (s : sched) (ids : list Z) (acc : scan_t) : scan_t :=
  match ids with
  | [] => acc
  | i :: ids' =>
      match task_table s !! i with
      | None => scan_children me p s ids' acc
      | Some ptr =>
          if negb (ppid ptr =? me) then scan_children me p s ids' acc
          else if negb (p =? pid ptr) && negb (p =? -1) then scan_children me p s ids' acc
          else if bool_decide (state ptr = TASK_DIED) then Scan_dead i
          else scan_children me p s ids' Scan_child
      end
  end.

Definition task_waitpid_turn (p : Z) : ST (sys R) (Z * Z + bool)%type :=
  let* me := on_sched running_task in
  let* t := on_sched (task_at me) in
  let* s := on_sched st_get in
  match scan_children (pid t) p s (seqZ 2 (TASK_NR - 2)) Scan_none with
  | Scan_dead i =>
      let* child := on_sched (task_at i) in
      do! on_sched (st_mod (λ s, s <| task_table $= delete i |>));
      do! on_rsrc (free_task_page i);
      st_ret (inl (pid child, status child))
  | Scan_child =>
      do! on_sched (mod_task me (λ t, t <| waitpid := p |>));
      do! on_sched (task_block me None TASK_WAITING (-1));
      st_ret (inr true)
  | Scan_none => st_ret (inr false)
  end.
End resources.
