(* ===== verification/Sched.v ===== *)
(** * Correctness of the scheduler, the timers and the task operations of [Task] *)
From S2P Require Import Prelude Dlist Task.

(** ** Invariant *)

Definition is_blocked (st : task_state_t) : Prop :=
  st = TASK_BLOCKED ∨ st = TASK_SLEEPING ∨ st = TASK_WAITING.

(** [strict] is false between the change of state of the current task and the
    switch: it may then be blocked or dead. *)
Record task_ok (strict : bool) (s : sched) (p : Z) (t : task_t) : Prop := {
  ok_slot : 0 ≤ p < TASK_NR;
  ok_pid : pid t = p;
  ok_run : state t = TASK_RUNNING → p = current s;
  ok_cur : strict → p = current s → state t = TASK_RUNNING;
  ok_blk : is_blocked (state t) ↔ node t ≠ None;
  ok_node : ∀ b, node t = Some b ↔ p ∈ wait_list s b;
  ok_timer : ∀ tm, timer t = Some tm ↔
     ∃ r, timers s !! tm = Some r ∧ ttask r = p ∧ thandler r = H_none;
  ok_timed : timer t ≠ None → node t ≠ None }.

Record timers_ok (s : sched) : Prop := {
  tl_nodup : NoDup (timer_list s);
  tl_dom : ∀ tm, tm ∈ timer_list s ↔ timers s !! tm ≠ None;
  tl_sorted : sorted_by (timer_key s) (timer_list s);
  tl_active : ∀ tm r, timers s !! tm = Some r → thandler r = H_none → active r = false;
  tl_owner : ∀ tm r, timers s !! tm = Some r → task_table s !! ttask r ≠ None }.

(** The parents form a tree under the idle task; the slots 0 and 1 stay taken. *)
Record family_ok (s : sched) : Prop := {
  f_parents : ∀ p t, task_table s !! p = Some t →
     task_table s !! ppid t ≠ None ∧ (p < 2 → ppid t = 0);
  f_init : task_table s !! 1 ≠ None;
  f_tree : ∃ rank : Z → nat, ∀ p t, task_table s !! p = Some t → p ≠ 0 →
     (rank (ppid t) < rank p)%nat }.

Record sched_ok (strict : bool) (s : sched) : Prop := {
  s_tasks : ∀ p t, task_table s !! p = Some t → task_ok strict s p t;
  s_cur : task_table s !! current s ≠ None;
  s_idle : ∃ t, task_table s !! idle_task = Some t ∧
     (state t = TASK_RUNNING ∨ state t = TASK_READY);
  s_lists : ∀ b, NoDup (wait_list s b);
  s_members : ∀ b p, p ∈ wait_list s b → task_table s !! p ≠ None;
  s_timers : timers_ok s;
  s_family : family_ok s }.

(** Dead tasks own no timer and have no children. *)
Record dead_ok (s : sched) : Prop := {
  d_timer : ∀ tm r t, timers s !! tm = Some r → task_table s !! ttask r = Some t →
     state t ≠ TASK_DIED;
  d_parent : ∀ p t t', task_table s !! p = Some t → task_table s !! ppid t = Some t' →
     state t' ≠ TASK_DIED }.

Definition sched_inv (s : sched) : Prop := sched_ok true s ∧ dead_ok s.

(** ** Updates of one task *)

Lemma wait_list_table s f b : wait_list (s <| task_table $= f |>) b = wait_list s b.
Proof. done. Qed.

Lemma timer_key_table s f : timer_key (s <| task_table $= f |>) = timer_key s.
Proof. done. Qed.

(** What an update of task [p] keeps. *)
Record same_role (t t' : task_t) : Prop := {
  r_pid : pid t' = pid t; r_ppid : ppid t' = ppid t; r_state : state t' = state t;
  r_node : node t' = node t; r_timer : timer t' = timer t }.

Lemma task_ok_role strict s p t t' : same_role t t' →
  task_ok strict s p t → task_ok strict s p t'.
Proof. intros [] []. split; try congruence; by rewrite ?r_state0, ?r_node0, ?r_timer0. Qed.

Lemma task_ok_ext strict s s' p t :
  current s' = current s →
  (∀ b, p ∈ wait_list s' b ↔ p ∈ wait_list s b) →
  (∀ tm r, ttask r = p → thandler r = H_none →
     timers s' !! tm = Some r ↔ timers s !! tm = Some r) →
  task_ok strict s p t → task_ok strict s' p t.
Proof.
  intros Hc Hw Ht []. split; try done.
  - by rewrite Hc.
  - by rewrite Hc.
  - intros b. by rewrite Hw.
  - intros tm. rewrite ok_timer0. split; intros (r & Hr & E1 & E2); exists r;
      (split; [by apply Ht|done]).
Qed.

Lemma family_mono s s' :
  (∀ q t', task_table s' !! q = Some t' → ∃ t, task_table s !! q = Some t ∧ ppid t' = ppid t) →
  (∀ q, task_table s !! q ≠ None → task_table s' !! q ≠ None) →
  family_ok s → family_ok s'.
Proof.
  intros Hp Hdom [H1 H2 (rank & H3)]. split.
  - intros q t' Hq. destruct (Hp q t' Hq) as (t & Ht & ->). destruct (H1 q t Ht). auto.
  - auto.
  - exists rank. intros q t' Hq. destruct (Hp q t' Hq) as (t & Ht & ->). eauto.
Qed.

Section role.
Context (strict : bool) (s : sched) (p : Z) (t t' : task_t).
Context (Ht : task_table s !! p = Some t) (Hr : same_role t t').
Let s' := s <| task_table $= <[p := t']> |>.

Lemma put_role_ok : sched_ok strict s → sched_ok strict s'.
Proof using Ht Hr.
  intros [Htk Hcur Hidle Hl Hm Htm Hfam]. unfold s'.
  assert (∀ q, task_table s !! q ≠ None → <[p:=t']> (task_table s) !! q ≠ None) as Hdom.
  { intros q Hq. destruct (decide (q = p)) as [->|]; by simplify_map_eq. }
  split; upd_simpl; try done.
  - intros q u Hq. apply (task_ok_ext strict s); [done..|].
    apply lookup_insert_Some in Hq as [[<- <-]|[Hne Hq]]; [|by apply Htk].
    eapply task_ok_role; [done|]. by apply Htk.
  - by apply Hdom.
  - destruct Hidle as (u & Hu & Hst). destruct (decide (p = idle_task)) as [E|].
    + exists t'. rewrite E, lookup_insert_eq. split; [done|].
      rewrite (r_state _ _ Hr). congruence.
    + exists u. by rewrite lookup_insert_ne.
  - intros b q Hq. apply Hdom, (Hm b q Hq).
  - destruct Htm. split; upd_simpl; try done. intros tm r Hr'. apply Hdom. eauto.
  - apply (family_mono s); [|done|done]. upd_simpl.
    intros q u [[<- <-]|[Hne Hq]]%lookup_insert_Some; [|by eauto].
    exists t. by rewrite (r_ppid _ _ Hr).
Qed.

Lemma put_role_dead : dead_ok s → dead_ok s'.
Proof using Ht Hr.
  intros [Ht1 Ht2]. unfold s'. split; upd_simpl.
  - intros tm r u Htm [[E <-]|[Hne Hq]]%lookup_insert_Some; [|by eapply Ht1].
    rewrite (r_state _ _ Hr). eapply Ht1; [done|]. by rewrite <-E.
  - intros q u u' Hq Hu'. assert (∃ v, task_table s !! q = Some v ∧ ppid v = ppid u) as (v & Hv & Ev).
    { apply lookup_insert_Some in Hq as [[<- <-]|[]]; [|eauto].
      exists t. by rewrite (r_ppid _ _ Hr). }
    apply lookup_insert_Some in Hu' as [[E <-]|[Hne Hu']]; [|by eapply Ht2; [|rewrite Ev]].
    rewrite (r_state _ _ Hr). eapply Ht2; [done|]. by rewrite Ev, <-E.
Qed.
End role.

(** ** Running the primitives *)

Lemma mod_task_run p f s t : task_table s !! p = Some t →
  mod_task p f s = Ok (tt, s <| task_table $= <[p := f t]> |>).
Proof. intros Ht. unfold mod_task, task_at, st_bind, st_deref. by rewrite Ht. Qed.

Lemma timer_put_run tm s r : timers s !! tm = Some r → tm ∈ timer_list s →
  timer_put tm s = Ok (tt, s <| timer_list $= Abs.remove tm |> <| timers $= delete tm |>).
Proof.
  intros Hr Hin. unfold timer_put, timer_unlink, st_bind, st_deref, st_get, st_check, Abs.mem.
  by rewrite Hr, bool_decide_eq_true_2 by done.
Qed.

(** The state after [task_unblock]. *)
Definition unblocked (p reason : Z) (t : task_t) (s : sched) : sched :=
  mk_sched
    (<[p := t <| node := None |> <| timer := None |> <| status := reason |>
            <| state := TASK_READY |>]> (task_table s))
    (current s)
    (match node t with
     | None => lists s | Some b => <[b := Abs.remove p (wait_list s b)]> (lists s)
     end)
    (match timer t with None => timers s | Some tm => delete tm (timers s) end)
    (match timer t with None => timer_list s | Some tm => Abs.remove tm (timer_list s) end)
    (jiffies s).

Lemma sched_eq s1 s2 : task_table s1 = task_table s2 → current s1 = current s2 →
  lists s1 = lists s2 → timers s1 = timers s2 → timer_list s1 = timer_list s2 →
  jiffies s1 = jiffies s2 → s1 = s2.
Proof. destruct s1, s2. cbn. congruence. Qed.

Lemma unlink_run s p t b : task_table s !! p = Some t → node t = Some b →
  p ∈ wait_list s b →
  (let* s := st_get in
   do! st_check (Abs.mem p (wait_list s b));
   do! st_mod (λ s, s <| lists $= <[b := Abs.remove p (wait_list s b)]> |>);
   mod_task p (λ t, t <| node := None |>)) s =
  Ok (tt, s <| lists $= <[b := Abs.remove p (wait_list s b)]> |>
            <| task_table $= <[p := t <| node := None |>]> |>).
Proof.
  intros Ht Hn Hin. unfold st_bind, st_get, st_check, Abs.mem, st_mod.
  rewrite bool_decide_eq_true_2 by done. by erewrite mod_task_run.
Qed.

Lemma cancel_run s p t tm r : task_table s !! p = Some t → timer t = Some tm →
  timers s !! tm = Some r → active r = false → tm ∈ timer_list s →
  (let* r := st_deref (λ s, timers s !! tm) in
   do! st_when (negb (active r)) (timer_put tm);
   mod_task p (λ t, t <| timer := None |>)) s =
  Ok (tt, s <| timer_list $= Abs.remove tm |> <| timers $= delete tm |>
            <| task_table $= <[p := t <| timer := None |>]> |>).
Proof.
  intros Ht Hn Hr Ha Hin. unfold st_bind, st_deref. rewrite Hr, Ha. cbn [negb st_when].
  rewrite (timer_put_run tm s r) by done. by erewrite mod_task_run.
Qed.

Section unblock.
Context (strict : bool) (s : sched) (p reason : Z) (t : task_t).
Context (Hok : sched_ok strict s) (Ht : task_table s !! p = Some t).
Context (Hst : state t ≠ TASK_RUNNING).

Lemma own_timer tm : timer t = Some tm → ∃ r, timers s !! tm = Some r ∧ ttask r = p ∧
  thandler r = H_none ∧ active r = false ∧ tm ∈ timer_list s.
Proof using Hok Ht.
  intros Htm. destruct Hok as [Htk _ _ _ _ [] _]. apply (ok_timer _ _ _ _ (Htk p t Ht)) in Htm.
  destruct Htm as (r & Hr & E1 & E2). exists r. rewrite tl_dom0, Hr. eauto 10.
Qed.

Lemma task_unblock_run : task_unblock p reason s = Ok (tt, unblocked p reason t s).
Proof using Hok Ht Hst.
  pose proof (s_tasks _ _ Hok p t Ht) as Htk. unfold task_unblock.
  unfold st_bind at 1. unfold task_at, st_deref at 1. rewrite Ht.
  destruct (node t) as [b|] eqn:En.
  - pose proof (proj1 (ok_node _ _ _ _ Htk b) En) as Hin.
    unfold st_bind at 1. rewrite (unlink_run s p t b) by done.
    destruct (timer t) as [tm|] eqn:Etm.
    + destruct (own_timer tm Etm) as (r & Hr & _ & _ & Ha & Htl).
      unfold st_bind at 1. erewrite (cancel_run _ p (t <| node := None |>) tm r);
        [|upd_simpl; by simplify_map_eq|done..].
      unfold st_bind, st_check. rewrite bool_decide_eq_false_2 by done. cbn [negb].
      erewrite mod_task_run by (upd_simpl; by simplify_map_eq).
      do 2 f_equal. apply sched_eq; unfold unblocked; upd_simpl; rewrite ?En, ?Etm; try done.
      cbn [task_table]. by rewrite !insert_insert_eq.
    + unfold st_bind, st_ret, st_check. rewrite bool_decide_eq_false_2 by done. cbn [negb].
      erewrite mod_task_run by (upd_simpl; by simplify_map_eq).
      do 2 f_equal. apply sched_eq; unfold unblocked; upd_simpl; rewrite ?En, ?Etm; try done.
      cbn [task_table]. rewrite !insert_insert_eq. f_equal. destruct t; cbn in *. by subst.
  - assert (timer t = None) as Etm.
    { destruct (timer t) as [tm|] eqn:E; [|done]. exfalso. apply (ok_timed _ _ _ _ Htk); congruence. }
    rewrite Etm. unfold st_bind, st_ret, st_check. rewrite bool_decide_eq_false_2 by done.
    cbn [negb]. erewrite mod_task_run by done.
    do 2 f_equal. apply sched_eq; unfold unblocked; upd_simpl; rewrite ?En, ?Etm; try done.
    cbn [task_table]. f_equal. destruct t; cbn in *. by subst.
Qed.

Lemma elem_of_remove (x y : Z) xs : x ∈ Abs.remove y xs ↔ x ∈ xs ∧ x ≠ y.
Proof. unfold Abs.remove. rewrite list_elem_of_filter. naive_solver. Qed.

Lemma unblocked_wait b q :
  q ∈ wait_list (unblocked p reason t s) b ↔ q ∈ wait_list s b ∧ q ≠ p.
Proof using Hok Ht.
  pose proof (ok_node _ _ _ _ (s_tasks _ _ Hok p t Ht)) as Hn.
  unfold wait_list, unblocked; cbn [lists]. destruct (node t) as [b'|].
  - destruct (decide (b = b')) as [->|Hne].
    + rewrite lookup_insert_eq. cbn [default from_option id]. by rewrite elem_of_remove.
    + rewrite lookup_insert_ne by done. split; [|tauto]. intros Hq. split; [done|].
      intros ->. apply Hn in Hq. congruence.
  - split; [|tauto]. intros Hq. split; [done|]. intros ->. by apply Hn in Hq.
Qed.

Lemma unblocked_timers tm r : timers (unblocked p reason t s) !! tm = Some r ↔
  timers s !! tm = Some r ∧ ¬ (ttask r = p ∧ thandler r = H_none).
Proof using Hok Ht.
  pose proof (ok_timer _ _ _ _ (s_tasks _ _ Hok p t Ht)) as Hn.
  unfold unblocked; cbn [timers]. destruct (timer t) as [tm'|] eqn:E.
  - destruct (own_timer tm' E) as (r' & Hr' & E1 & E2 & _).
    rewrite lookup_delete_Some. split.
    + intros [Hne Hr]. split; [done|]. intros Ho.
      assert (Some tm' = Some tm) by (apply Hn; eauto). congruence.
    + intros [Hr Ho]. split; [|done]. intros <-. naive_solver.
  - split; [|tauto]. intros Hr. split; [done|]. intros Ho.
    assert (None = Some tm) by (apply Hn; eauto). done.
Qed.

Lemma unblocked_order tm : tm ∈ timer_list (unblocked p reason t s) ↔
  timers (unblocked p reason t s) !! tm ≠ None.
Proof using Hok Ht.
  pose proof (tl_dom _ (s_timers _ _ Hok) tm) as Hd. unfold unblocked; cbn [timers timer_list].
  destruct (timer t) as [tm'|]; [|done]. rewrite elem_of_remove, Hd.
  destruct (decide (tm = tm')) as [->|].
  - rewrite lookup_delete_eq. tauto.
  - rewrite lookup_delete_ne by done. tauto.
Qed.
End unblock.

(** Removing timers keeps the order. *)
Lemma sorted_by_sublist {A} (key : A → Z) xs ys :
  xs `sublist_of` ys → sorted_by key ys → sorted_by key xs.
Proof.
  induction 1 as [|x xs ys Hsub IH|x xs ys Hsub IH]; intros Hs; [done|..].
  - apply sorted_by_cons in Hs as [Hx Hs]. apply sorted_by_cons.
    split; [|by apply IH]. intros y Hy. apply Hx. by eapply elem_of_sublist.
  - apply sorted_by_cons in Hs as [_ Hs]. by apply IH.
Qed.

Lemma sorted_by_ext {A} (key key' : A → Z) xs : (∀ x, x ∈ xs → key x = key' x) →
  sorted_by key xs → sorted_by key' xs.
Proof.
  intros He Hs i j x y Hij Hx Hy. rewrite <-!He by (apply list_elem_of_lookup; eauto).
  by apply (Hs i j).
Qed.

Lemma timers_shrink s s' : timers_ok s →
  timer_list s' `sublist_of` timer_list s →
  (∀ tm, tm ∈ timer_list s' ↔ timers s' !! tm ≠ None) →
  (∀ tm r, timers s' !! tm = Some r → timers s !! tm = Some r) →
  (∀ p, task_table s !! p ≠ None → task_table s' !! p ≠ None) →
  timers_ok s'.
Proof.
  intros [] Hsub Hd Hsome Htab. split; try done.
  - eapply sublist_NoDup; eauto.
  - eapply sorted_by_ext, sorted_by_sublist, tl_sorted0; [|done]. intros tm Hin.
    unfold timer_key. apply Hd in Hin. destruct (timers s' !! tm) as [r|] eqn:E; [|done].
    by rewrite (Hsome _ _ E).
  - eauto.
  - eauto.
Qed.

Lemma remove_sublist n (xs : list Z) : Abs.remove n xs `sublist_of` xs.
Proof. apply sublist_filter. Qed.

Lemma remove_sublist_mono n (xs ys : list Z) :
  xs `sublist_of` ys → Abs.remove n xs `sublist_of` Abs.remove n ys.
Proof.
  unfold Abs.remove. induction 1 as [|x xs ys Hsub IH|x xs ys Hsub IH]; [done|..];
    rewrite ?filter_cons; repeat case_decide; try done; by constructor.
Qed.

Lemma remove_NoDup n (xs : list Z) : NoDup xs → NoDup (Abs.remove n xs).
Proof. apply NoDup_filter. Qed.

Section unblock_ok.
Context (strict : bool) (s : sched) (p reason : Z) (t : task_t).
Context (Hok : sched_ok strict s) (Ht : task_table s !! p = Some t).
Context (Hst : state t ≠ TASK_RUNNING).
Let s' := unblocked p reason t s.

Lemma unblocked_table q u : task_table s' !! q = Some u ↔
  (q = p ∧ u = t <| node := None |> <| timer := None |> <| status := reason |>
               <| state := TASK_READY |>) ∨
  (q ≠ p ∧ task_table s !! q = Some u).
Proof. unfold s', unblocked; cbn [task_table]. rewrite lookup_insert_Some. naive_solver. Qed.

Lemma unblocked_dom q : task_table s !! q ≠ None → task_table s' !! q ≠ None.
Proof.
  unfold s', unblocked; cbn [task_table]. intros Hq.
  destruct (decide (q = p)) as [->|]; by simplify_map_eq.
Qed.

Lemma unblocked_ok : sched_ok strict s'.
Proof using Hok Ht Hst.
  pose proof (s_tasks _ _ Hok p t Ht) as Hp.
  pose proof unblocked_dom as Hdom. destruct Hok as [Htk Hcur Hidle Hl Hm Htm Hfam]. split.
  - intros q u [[-> ->]|[Hne Hq]]%unblocked_table.
    + destruct Hp. split; upd_simpl; try done.
      * intros Hs E. by destruct Hst; apply ok_cur0.
      * split; [|done]. by intros [|[|]].
      * intros b. unfold s'. rewrite (unblocked_wait strict) by done. naive_solver.
      * intros tm. split; [done|]. intros (r & Hr & E1 & E2).
        unfold s' in Hr. rewrite (unblocked_timers strict) in Hr by done. naive_solver.
    + apply (task_ok_ext strict s); [done| | |by apply Htk].
      * intros b. unfold s'. rewrite (unblocked_wait strict) by done. naive_solver.
      * intros tm r Er Eh. unfold s'. rewrite (unblocked_timers strict) by done. naive_solver.
  - by apply Hdom.
  - destruct Hidle as (u & Hu & Hs). destruct (decide (idle_task = p)) as [E|].
    + eexists. rewrite unblocked_table. split; [by left|]. by right.
    + exists u. rewrite unblocked_table. auto.
  - intros b. unfold s', unblocked, wait_list; cbn [lists]. destruct (node t) as [b'|]; [|apply Hl].
    destruct (decide (b = b')) as [->|].
    + rewrite lookup_insert_eq. apply remove_NoDup, Hl.
    + rewrite lookup_insert_ne by done. apply Hl.
  - intros b q Hq. unfold s' in Hq. rewrite (unblocked_wait strict) in Hq by done.
    apply Hdom, (Hm b q), Hq.
  - apply (timers_shrink s); [done|..|done].
    + unfold s', unblocked; cbn [timer_list]. destruct (timer t); [apply remove_sublist|done].
    + intros tm. by apply (unblocked_order strict).
    + intros tm r. unfold s'. rewrite (unblocked_timers strict) by done. tauto.
  - apply (family_mono s); [|done|done].
    intros q u [[-> ->]|[Hne Hq]]%unblocked_table; upd_simpl; eauto.
Qed.

Lemma unblocked_dead : dead_ok s → dead_ok s'.
Proof using Hok Ht.
  intros [H1 H2]. split.
  - intros tm r u Hr [[E ->]|[Hne Hq]]%unblocked_table; upd_simpl; [done|].
    unfold s' in Hr. rewrite (unblocked_timers strict) in Hr by done. by eapply H1; [apply Hr|].
  - intros q u u' Hq [[E ->]|[Hne Hq']]%unblocked_table; upd_simpl; [done|].
    apply unblocked_table in Hq as [[-> ->]|[Hne' Hq]]; upd_simpl; eauto.
Qed.
End unblock_ok.

(** ** Timers without a blocked task behind them *)

Section alarm_timer.
Context (strict : bool) (s : sched) (tm : Z) (r : timer_t).
Context (Hok : sched_ok strict s) (Hr : timers s !! tm = Some r).
Context (Hh : thandler r ≠ H_none).

Lemma set_active_ok r' : ttask r' = ttask r → thandler r' = thandler r →
  expires r' = expires r → sched_ok strict (s <| timers $= <[tm := r']> |>).
Proof using Hok Hr Hh.
  intros E1 E2 E3. destruct Hok as [Htk Hcur Hidle Hl Hm Htm Hfam].
  split; upd_simpl; try done.
  - intros q u Hq. apply (task_ok_ext strict s); [done..| |by apply Htk].
    intros tm' r0 Eo Eh. upd_simpl. rewrite lookup_insert_Some. naive_solver congruence.
  - destruct Htm. split; upd_simpl; try done.
    + intros tm'. rewrite tl_dom0. destruct (decide (tm' = tm)) as [->|]; by simplify_map_eq.
    + eapply sorted_by_ext, tl_sorted0. intros x Hx. unfold timer_key. upd_simpl.
      destruct (decide (x = tm)) as [->|]; [|by simplify_map_eq].
      rewrite lookup_insert_eq, Hr. cbn. by rewrite E3.
    + intros tm' r0 [[<- <-]|[Hne Hr0]]%lookup_insert_Some; [congruence|eauto].
    + intros tm' r0 [[<- <-]|[Hne Hr0]]%lookup_insert_Some; [rewrite E1|]; eauto.
  - by destruct Hfam.
Qed.

Lemma drop_timer_ok :
  sched_ok strict (s <| timer_list $= Abs.remove tm |> <| timers $= delete tm |>).
Proof using Hok Hr Hh.
  destruct Hok as [Htk Hcur Hidle Hl Hm Htm Hfam]. split; upd_simpl; try done.
  - intros q u Hq. apply (task_ok_ext strict s); [done..| |by apply Htk].
    intros tm' r0 Eo Eh. upd_simpl. rewrite lookup_delete_Some. naive_solver congruence.
  - apply (timers_shrink s); upd_simpl; [done|apply remove_sublist|..|done].
    + intros tm'. rewrite elem_of_remove, (tl_dom _ Htm).
      destruct (decide (tm' = tm)) as [->|]; simplify_map_eq; tauto.
    + intros tm' r0 [_ ?]%lookup_delete_Some. done.
  - by destruct Hfam.
Qed.

Lemma drop_timer_dead : dead_ok s →
  dead_ok (s <| timer_list $= Abs.remove tm |> <| timers $= delete tm |>).
Proof.
  intros [H1 H2]. split; upd_simpl; [|done]. intros tm' r0 t [_ ?]%lookup_delete_Some. eauto.
Qed.
End alarm_timer.

Lemma find_seqZ (P : Z → bool) n p : 0 ≤ p < n → P p = true →
  (∀ i, 0 ≤ i < n → P i = true → i = p) → List.find P (seqZ 0 n) = Some p.
Proof.
  intros Hp HP Hu. destruct (List.find P (seqZ 0 n)) as [i|] eqn:E.
  - apply List.find_some in E as [Hin Hi]. f_equal. apply Hu; [|done].
    apply list_elem_of_In, elem_of_seqZ in Hin. lia.
  - exfalso. eapply List.find_none in E; [|apply list_elem_of_In, elem_of_seqZ; instantiate (1 := p); lia].
    congruence.
Qed.

Lemma get_task_spec strict s p : sched_ok strict s →
  get_task p s = (if task_table s !! p then Some p else None).
Proof.
  intros Hok. unfold get_task. destruct (task_table s !! p) as [t|] eqn:E.
  - destruct (s_tasks _ _ Hok p t E). apply find_seqZ; [done|rewrite E; lia|].
    intros i _ Hi. destruct (task_table s !! i) as [u|] eqn:Eu; [|done].
    destruct (s_tasks _ _ Hok i u Eu). lia.
  - destruct (List.find _ _) as [i|] eqn:Ef; [|done].
    apply List.find_some in Ef as [_ Hi].
    destruct (task_table s !! i) as [u|] eqn:Eu; [|done].
    destruct (s_tasks _ _ Hok i u Eu). assert (i = p) by lia. congruence.
Qed.

(** ** What the expiry of timers does *)

(** Task [q] was woken by an expiry (or by the signal of an alarm). *)
Definition timed_out (s : sched) (q : Z) : Prop := ∃ t, task_table s !! q = Some t ∧
  state t = TASK_READY ∧ (status t = - ETIME ∨ status t = - EINTR).

(** [X] are the tasks whose timers fire. *)
Record woken (X : Z → Prop) (s s' : sched) : Prop := {
  w_cur : current s' = current s;
  w_jif : jiffies s' = jiffies s;
  w_rest : ∀ q, ¬ X q → task_table s' !! q = task_table s !! q;
  w_none : ∀ q, task_table s !! q = None → task_table s' !! q = None;
  w_task : ∀ q t, task_table s !! q = Some t → ∃ t', task_table s' !! q = Some t' ∧
     (same_role t t' ∧ status t' = status t ∨
      is_blocked (state t) ∧ state t' = TASK_READY ∧ timer t' = None ∧
      (status t' = - ETIME ∨ status t' = - EINTR));
  w_timers : ∀ tm r, timers s' !! tm = Some r → timers s !! tm = Some r;
  w_keep : ∀ tm r, ¬ X (ttask r) → timers s !! tm = Some r → timers s' !! tm = Some r;
  w_live : ∀ tm r, timers s !! tm = Some r → jiffies s < expires r →
     timers s' !! tm = Some r ∨ thandler r = H_none ∧ timed_out s' (ttask r) }.

Lemma timed_out_stays X s s' q : woken X s s' → timed_out s q → timed_out s' q.
Proof.
  intros [] (t & Ht & Est & Es). destruct (w_task0 q t Ht) as (t' & Ht' & Hc).
  exists t'. split; [done|]. destruct Hc as [[Hr Es']|(Hb & _)].
  - by rewrite (r_state _ _ Hr), Es'.
  - rewrite Est in Hb. by destruct Hb as [|[|]].
Qed.

Lemma same_role_trans t1 t2 t3 : same_role t1 t2 → same_role t2 t3 → same_role t1 t3.
Proof. intros [] []. split; congruence. Qed.

Lemma woken_refl X s : woken X s s.
Proof. split; eauto. intros q t Ht. exists t. split; [done|]. left. by repeat split. Qed.

Lemma woken_trans X s1 s2 s3 : woken X s1 s2 → woken X s2 s3 → woken X s1 s3.
Proof.
  intros H1 H2. pose proof (λ q, timed_out_stays X s2 s3 q H2) as Hstay. destruct H1, H2.
  split; eauto; try congruence.
  - intros q Hq. by rewrite w_rest1, w_rest0.
  - intros q t Ht. destruct (w_task0 q t Ht) as (t2 & Ht2 & Hc).
    destruct (w_task1 q t2 Ht2) as (t3 & Ht3 & Hc'). exists t3. split; [done|].
    destruct Hc as [[Hr Es]|(Hb & Er & En & Es)], Hc' as [[Hr' Es']|(Hb' & Er' & En' & Es')].
    + left. split; [by eapply same_role_trans|congruence].
    + right. by rewrite <-(r_state _ _ Hr).
    + right. rewrite Es', (r_state _ _ Hr'), (r_timer _ _ Hr'). done.
    + exfalso. rewrite Er in Hb'. by destruct Hb' as [|[|]].
  - intros tm r Hr Hl. destruct (w_live0 tm r Hr Hl) as [Hr2|[Hh Ho]]; [|right; split; auto].
    apply w_live1; [done|congruence].
Qed.

Lemma put_role_woken (X : Z → Prop) s p t t' : task_table s !! p = Some t →
  same_role t t' → status t' = status t → X p →
  woken X s (s <| task_table $= <[p := t']> |>).
Proof.
  intros Ht Hr Es HX. split; upd_simpl; try done.
  - intros q Hq. rewrite lookup_insert_ne; [done|]. by intros ->.
  - intros q Hq. rewrite lookup_insert_ne; [done|congruence].
  - intros q u Hu. destruct (decide (q = p)) as [->|].
    + exists t'. rewrite lookup_insert_eq. split; [done|]. left. by simplify_eq.
    + exists u. rewrite lookup_insert_ne by done. split; [done|]. left. by repeat split.
  - intros tm r0 Hr0 _. by left.
Qed.

Lemma unblocked_woken (X : Z → Prop) strict s p reason t : sched_ok strict s →
  task_table s !! p = Some t → is_blocked (state t) →
  reason = - ETIME ∨ reason = - EINTR → X p → woken X s (unblocked p reason t s).
Proof.
  intros Hok Ht Hb Hr HX. split; try done.
  - intros q Hq. unfold unblocked; cbn [task_table]. rewrite lookup_insert_ne; [done|].
    by intros ->.
  - intros q Hq. unfold unblocked; cbn [task_table]. rewrite lookup_insert_ne; [done|congruence].
  - intros q u Hu. destruct (decide (q = p)) as [->|].
    + eexists. rewrite (unblocked_table s p reason t) by done. split; [by left|]. right.
      upd_simpl. by simplify_eq.
    + exists u. rewrite (unblocked_table s p reason t) by done. split; [by right|]. left. by repeat split.
  - intros tm r. rewrite (unblocked_timers strict) by done. tauto.
  - intros tm r Hn Htm. rewrite (unblocked_timers strict) by done. split; [done|].
    intros [<- _]. done.
  - intros tm r Htm _. rewrite (unblocked_timers strict) by done.
    destruct (decide (ttask r = p ∧ thandler r = H_none)) as [[<- Hh]|]; [right|by left].
    split; [done|]. eexists. rewrite (unblocked_table s (ttask r) reason t) by done.
    split; [by left|]. upd_simpl. auto.
Qed.

(** The outcome of an operation that keeps the invariants and only wakes tasks
    of [X]. *)
Definition wakes (strict : bool) (X : Z → Prop) (s s' : sched) : Prop :=
  sched_ok strict s' ∧ (dead_ok s → dead_ok s') ∧ woken X s s'.

Lemma wakes_trans strict X s1 s2 s3 :
  wakes strict X s1 s2 → wakes strict X s2 s3 → wakes strict X s1 s3.
Proof. intros (_ & H1 & H2) (H3 & H4 & H5). split; [done|]. split; [auto|by eapply woken_trans]. Qed.

Lemma put_role_wakes strict (X : Z → Prop) s p t t' : sched_ok strict s →
  task_table s !! p = Some t → same_role t t' → status t' = status t → X p →
  wakes strict X s (s <| task_table $= <[p := t']> |>).
Proof.
  intros. split; [by eapply put_role_ok|]. split; [by eapply put_role_dead|].
  by eapply put_role_woken.
Qed.

Lemma sys_kill_ok strict (X : Z → Prop) s p sig : sched_ok strict s → X p →
  ∃ v s', sys_kill p sig s = Ok (v, s') ∧ wakes strict X s s' ∧
    timer_list s' `sublist_of` timer_list s ∧
    ∀ tm r, thandler r ≠ H_none → timers s !! tm = Some r → timers s' !! tm = Some r.
Proof.
  intros Hok HX. unfold sys_kill.
  assert (wakes strict X s s) as Hid.
  { split; [done|]. split; [done|apply woken_refl]. }
  destruct ((sig <? 1) || (MAXSIG <? sig)); [eexists _, s; split; [done|auto]|].
  unfold st_bind at 1, st_get. rewrite (get_task_spec strict) by done.
  destruct (task_table s !! p) as [t|] eqn:Ht; [|eexists _, s; split; [done|auto]].
  unfold st_bind at 1, task_at, st_deref. rewrite Ht.
  destruct (uid t =? KERNEL_USER); [eexists _, s; split; [done|auto]|].
  destruct (pid t =? 1); [eexists _, s; split; [done|auto]|].
  unfold st_bind at 1. erewrite mod_task_run by done.
  set (t1 := t <| signal $= _ |>). set (s1 := s <| task_table $= _ |>).
  assert (wakes strict X s s1) as Hw1 by (eapply put_role_wakes; done).
  assert (task_table s1 !! p = Some t1) as Ht1 by apply lookup_insert_eq.
  destruct (bool_decide (state t = TASK_WAITING) || bool_decide (state t = TASK_SLEEPING)) eqn:Eb;
    cbn [st_when]; [|eexists _, s1; split; [done|]; auto].
  assert (is_blocked (state t1)) as Hb.
  { unfold is_blocked. apply orb_true_iff in Eb as [E|E]; apply bool_decide_eq_true in E; auto. }
  unfold st_bind. rewrite (task_unblock_run strict s1 p (- EINTR) t1);
    [|apply Hw1|done|by destruct Hb as [->|[->| ->]]].
  pose proof (proj1 Hw1) as Hok1.
  eexists _, _; split; [done|]. split; [|split].
  - eapply wakes_trans; [done|]. split; [|split].
    + apply unblocked_ok; [done|done|by destruct Hb as [->|[->| ->]]].
    + by apply (unblocked_dead strict).
    + eapply unblocked_woken; eauto.
  - unfold unblocked; cbn [timer_list]. destruct (timer t1); [apply remove_sublist|done].
  - intros tm r Hh Hr. rewrite (unblocked_timers strict) by done. split; [done|tauto].
Qed.

(** ** Firing one timer *)
Section fire.
Context (strict : bool) (s : sched) (tm : Z) (rest : list Z) (r : timer_t).
Context (Hok : sched_ok strict s) (Hhead : timer_list s = tm :: rest).
Context (Hr : timers s !! tm = Some r) (Hdue : expires r ≤ jiffies s).

Lemma fire_none_run t : thandler r = H_none → task_table s !! ttask r = Some t →
  state t ≠ TASK_RUNNING →
  fire_timer tm s = Ok (tt, unblocked (ttask r) (- ETIME) t s).
Proof using All.
  intros Hh Ht Hst. pose proof (s_tasks _ _ Hok _ t Ht) as Htk.
  assert (timer t = Some tm) as Etm by (apply (ok_timer _ _ _ _ Htk); eauto).
  destruct (node t) as [b|] eqn:En;
    [|exfalso; apply (ok_timed _ _ _ _ Htk); congruence].
  pose proof (proj1 (ok_node _ _ _ _ Htk b) En) as Hin.
  unfold fire_timer. unfold st_bind at 1, st_deref. rewrite Hr.
  unfold st_bind, st_mod, st_get, st_check. upd_simpl.
  rewrite (proj2 (Z.leb_le _ _) Hdue), Hh.
  unfold default_timeout, task_unblock. unfold st_bind at 1. unfold task_at, st_deref at 1.
  upd_simpl. rewrite Ht, En.
  unfold st_bind at 1. erewrite unlink_run by done. rewrite Etm.
  unfold st_bind, st_deref. upd_simpl. rewrite lookup_insert_eq. upd_simpl.
  cbn [negb st_when]. unfold st_ret.
  erewrite mod_task_run by (upd_simpl; by simplify_map_eq).
  unfold st_check. rewrite bool_decide_eq_false_2 by done. cbn [negb].
  erewrite mod_task_run by (upd_simpl; by simplify_map_eq).
  erewrite timer_put_run; [|upd_simpl; by simplify_map_eq|upd_simpl; rewrite Hhead; by left].
  do 2 f_equal. apply sched_eq; unfold unblocked; upd_simpl; rewrite ?En, ?Etm; try done.
  - cbn [task_table]. by rewrite !insert_insert_eq.
  - cbn [timers]. by rewrite delete_insert_eq.
Qed.

Definition fired (q : Z) : Prop := q = ttask r.

Let r' := r <| active := true |>.
Let s1 := s <| timers $= <[tm := r']> |>.

(** The last statement of the loop, after a handler that left the timer alone. *)
Lemma put_fired s2 : thandler r ≠ H_none → wakes strict fired s1 s2 →
  timers s2 !! tm = Some r' → timer_list s2 `sublist_of` tm :: rest →
  ∃ s', timer_put tm s2 = Ok (tt, s') ∧ wakes strict fired s s' ∧
    timer_list s' = Abs.remove tm (timer_list s2).
Proof using All.
  intros Hh (Hok2 & Hd2 & []) Hr2 Hsub.
  rewrite (timer_put_run tm s2 r'); [|done|rewrite (tl_dom _ (s_timers _ _ Hok2)), Hr2; done].
  eexists; split; [done|]. split; [|done].
  split; [by eapply (drop_timer_ok strict s2 tm r')|]. split.
  - intros Hd. apply drop_timer_dead. apply Hd2. destruct Hd as [H1 H2].
    split; unfold s1; upd_simpl; [|done].
    intros x r0 t [[<- <-]|[_ Hx]]%lookup_insert_Some; [by eapply (H1 tm r)|by eapply H1].
  - unfold s1 in *. split; upd_simpl; try done.
    + intros x r0 [Hne Hx%w_timers0]%lookup_delete_Some. revert Hx. upd_simpl.
      by rewrite lookup_insert_ne.
    + intros x r0 Hn Hx. assert (x ≠ tm) by (intros ->; apply Hn; unfold fired; congruence).
      rewrite lookup_delete_ne by done. apply w_keep0; [done|]. upd_simpl.
      by rewrite lookup_insert_ne.
    + intros x r0 Hx Hl. assert (x ≠ tm) by (intros ->; assert (r0 = r) as -> by congruence; lia).
      rewrite lookup_delete_ne by done. apply w_live0; [|done]. upd_simpl. by rewrite lookup_insert_ne.
Qed.

Lemma fire_timer_ok : ∃ s', fire_timer tm s = Ok (tt, s') ∧ wakes strict fired s s' ∧
  timer_list s' `sublist_of` rest ∧
  (thandler r = H_none → ∃ t', task_table s' !! ttask r = Some t' ∧
     state t' = TASK_READY ∧ status t' = - ETIME).
Proof using All.
  destruct (task_table s !! ttask r) as [t|] eqn:Ht;
    [|by destruct (tl_owner _ (s_timers _ _ Hok) tm r Hr)].
  pose proof (s_tasks _ _ Hok _ t Ht) as Htk.
  assert (tm ∉ rest) as Hnd.
  { pose proof (tl_nodup _ (s_timers _ _ Hok)) as Hn. rewrite Hhead in Hn.
    by apply NoDup_cons in Hn as [? _]. }
  assert (∀ l, l `sublist_of` tm :: rest → Abs.remove tm l `sublist_of` rest) as Hsub.
  { intros l Hl. assert (Abs.remove tm (tm :: rest) = rest) as <-.
    { unfold Abs.remove. rewrite filter_cons_False by tauto. apply filter_all.
      by intros x Hx ->. }
    by apply remove_sublist_mono. }
  destruct (decide (thandler r = H_none)) as [Hh|Hh].
  - assert (timer t = Some tm) as Etm by (apply (ok_timer _ _ _ _ Htk); eauto).
    assert (is_blocked (state t)) as Hb.
    { apply (ok_blk _ _ _ _ Htk), (ok_timed _ _ _ _ Htk). congruence. }
    assert (state t ≠ TASK_RUNNING) as Hst by (by destruct Hb as [->|[->| ->]]).
    rewrite (fire_none_run t) by done. eexists; split; [done|].
    split; [split; [by apply unblocked_ok|split]|split].
    + by apply (unblocked_dead strict).
    + eapply unblocked_woken; eauto. done.
    + unfold unblocked; cbn [timer_list]. rewrite Etm, Hhead. by apply Hsub.
    + intros _. eexists. rewrite (unblocked_table s (ttask r) (- ETIME) t) by done.
      split; [by left|]. done.
  - unfold fire_timer. unfold st_bind at 1, st_deref. rewrite Hr.
    unfold st_bind, st_mod, st_get, st_check. upd_simpl.
    rewrite (proj2 (Z.leb_le _ _) Hdue).
    fold r' s1.
    assert (sched_ok strict s1) as Hok1 by (by apply (set_active_ok strict s tm r)).
    assert (timers s1 !! tm = Some r') as Hr1 by apply lookup_insert_eq.
    assert (wakes strict fired s1 s1) as Hid by (split; [done|]; split; [done|apply woken_refl]).
    destruct (thandler r) eqn:Eh; [done|..].
    + unfold task_alarm, st_bind. erewrite mod_task_run by done.
      set (t1 := t <| alarm := None |>). set (s1' := s1 <| task_table $= _ |>).
      assert (wakes strict fired s1 s1') as Hw1 by (by eapply put_role_wakes).
      unfold task_at, st_deref; cbv beta.
      assert (task_table s1' !! ttask r = Some t1) as -> by apply lookup_insert_eq.
      destruct (sys_kill_ok strict fired s1' (pid t1) SIGALRM) as (v & s2 & -> & Hw2 & Hl2 & Hk2);
        [apply Hw1|by apply (ok_pid _ _ _ _ Htk)|].
      cbn [st_ret]. unfold st_ret.
      assert (timer_list s2 `sublist_of` tm :: rest) as Hl by (by rewrite <-Hhead).
      destruct (put_fired s2) as (s' & -> & Hw & El); [congruence|by eapply wakes_trans| |done|].
      { apply Hk2; [|done]. unfold r'. upd_simpl. congruence. }
      exists s'. split; [done|]. split; [done|]. split; [rewrite El; by apply Hsub|done].
    + unfold st_ret.
      destruct (put_fired s1) as (s' & -> & Hw & El); [congruence|done|done| |].
      { unfold s1. upd_simpl. by rewrite Hhead. }
      exists s'. split; [done|]. split; [done|]. split; [|done].
      rewrite El. unfold s1. upd_simpl. rewrite Hhead. by apply Hsub.
Qed.
End fire.

(** ** The loop of [timer_wakeup] *)

Definition due (s : sched) (tm : Z) (r : timer_t) : Prop :=
  timers s !! tm = Some r ∧ expires r ≤ jiffies s.

Definition due_owner (s : sched) (q : Z) : Prop := ∃ tm r, due s tm r ∧ ttask r = q.

Lemma woken_weaken (X Y : Z → Prop) s s' : (∀ q, X q → Y q) → woken X s s' → woken Y s s'.
Proof. intros HXY []. split; eauto. Qed.

Lemma wakes_weaken strict (X Y : Z → Prop) s s' :
  (∀ q, X q → Y q) → wakes strict X s s' → wakes strict Y s s'.
Proof. intros HXY (H1 & H2 & H3). split; [done|]. split; [done|by eapply woken_weaken]. Qed.

Lemma timer_expires_ok strict s : sched_ok strict s →
  timer_expires s = match timer_list s with
                    | [] => Ok (u32 EOF)
                    | tm :: _ => Ok (default 0 (expires <$> timers s !! tm))
                    end.
Proof.
  intros Hok. unfold timer_expires. destruct (timer_list s) as [|tm l] eqn:E; [done|].
  pose proof (tl_dom _ (s_timers _ _ Hok) tm) as Hd. rewrite E in Hd.
  destruct (timers s !! tm) as [r|]; [done|]. exfalso. apply Hd; [by left|done].
Qed.

Lemma head_first strict s tm rest r tm' r' : sched_ok strict s →
  timer_list s = tm :: rest → timers s !! tm = Some r → timers s !! tm' = Some r' →
  0 ≤ expires r < 2 ^ 31 → 0 ≤ expires r' < 2 ^ 31 → expires r ≤ expires r'.
Proof.
  intros Hok Hl Hr Hr' H1 H2. pose proof (s_timers _ _ Hok) as [_ Hd Hs _ _].
  rewrite Hl in Hd, Hs. apply sorted_by_cons in Hs as [Hs _].
  assert (tm' ∈ tm :: rest) as Hin by (apply Hd; congruence).
  apply elem_of_cons in Hin as [->|Hin]; [simplify_eq; lia|].
  specialize (Hs tm' Hin). unfold timer_key in Hs. rewrite Hr, Hr' in Hs. cbn in Hs.
  by rewrite !s32_small in Hs by lia.
Qed.

Lemma wakeup_loop_ok strict (X : Z → Prop) fuel : ∀ s, sched_ok strict s →
  (List.length (timer_list s) < fuel)%nat → jiffies s < u32 EOF →
  (∀ tm r, timers s !! tm = Some r → 0 ≤ expires r < 2 ^ 31) →
  (∀ q, due_owner s q → X q) →
  ∃ s', wakeup_loop fuel s = Ok (tt, s') ∧ wakes strict X s s' ∧
    (∀ tm r, timers s' !! tm = Some r → jiffies s < expires r) ∧
    (∀ q t tm r, task_table s !! q = Some t → timer t = Some tm → due s tm r → timed_out s' q).
Proof.
  induction fuel as [|fuel IH]; intros s Hok Hf Hj Hsm HX; [lia|]. cbn [wakeup_loop].
  unfold st_bind at 1, st_get. unfold st_bind at 1, st_lift.
  rewrite (timer_expires_ok strict) by done.
  assert (wakes strict X s s) as Hid by (split; [done|]; split; [done|apply woken_refl]).
  destruct (timer_list s) as [|tm rest] eqn:Hhead.
  { rewrite (proj2 (Z.leb_gt _ _)) by done. exists s. split; [done|]. split; [done|].
    assert (∀ tm r, timers s !! tm ≠ Some r) as Hno.
    { intros tm r Hr. pose proof (tl_dom _ (s_timers _ _ Hok) tm) as Hd.
      rewrite Hhead, Hr in Hd. by destruct (proj1 (elem_of_nil tm) (proj2 Hd ltac:(done))). }
    split; [intros tm r Hr; by destruct (Hno tm r)|].
    intros q t tm r Ht Etm [Hr _]. by destruct (Hno tm r). }
  destruct (timers s !! tm) as [r|] eqn:Hr.
  2: { pose proof (tl_dom _ (s_timers _ _ Hok) tm) as Hd. rewrite Hhead, Hr in Hd.
       exfalso. apply Hd; [by left|done]. }
  cbn [default from_option fmap option_fmap option_map id].
  destruct (Z.leb_spec (expires r) (jiffies s)) as [Hdue|Hlate].
  - destruct (fire_timer_ok strict s tm rest r Hok Hhead Hr Hdue) as (s1 & Hrun & Hw & Hsub & Hown).
    unfold st_bind. rewrite Hrun. pose proof Hw as (Hok1 & _ & Hwk).
    assert (∀ q, fired r q → X q) as HfX by (intros q ->; apply HX; exists tm, r; done).
    destruct (IH s1) as (s' & Hrun' & Hw' & Hlast & Hdone); [done|..].
    + apply sublist_length in Hsub. cbn in Hf. lia.
    + by rewrite (w_jif _ _ _ Hwk).
    + intros tm' r' Hr'. eapply Hsm. by apply (w_timers _ _ _ Hwk).
    + intros q (tm' & r' & [Hr' Hd'] & Eo). apply HX. exists tm', r'. split; [|done].
      split; [by apply (w_timers _ _ _ Hwk)|by rewrite <-(w_jif _ _ _ Hwk)].
    + exists s'. split; [done|]. split; [eapply wakes_trans; [by eapply wakes_weaken|done]|].
      split; [by rewrite <-(w_jif _ _ _ Hwk)|].
      intros q t tm' r' Ht Etm' [Hr' Hd'].
      destruct (w_task _ _ _ Hwk q t Ht) as (t1 & Ht1 & Hc).
      destruct Hc as [[Hrole Es]|(_ & Est & _ & Es)].
      * apply (Hdone q t1 tm' r'); [done|by rewrite (r_timer _ _ Hrole)|].
        split; [|by rewrite (w_jif _ _ _ Hwk)].
        rewrite <-(r_timer _ _ Hrole) in Etm'.
        apply (ok_timer _ _ _ _ (s_tasks _ _ Hok1 q t1 Ht1)) in Etm' as (r1 & Hr1 & _).
        pose proof (w_timers _ _ _ Hwk _ _ Hr1). congruence.
      * eapply timed_out_stays; [apply Hw'|]. by exists t1.
  - assert (∀ tm' r', timers s !! tm' = Some r' → jiffies s < expires r') as Hall.
    { intros tm' r' Hr'. eapply Z.lt_le_trans; [done|].
      pose proof (Hsm tm r Hr). pose proof (Hsm tm' r' Hr').
      by eapply head_first. }
    exists s. split; [done|]. split; [done|]. split; [done|].
    intros q t tm' r' Ht Etm [Hr' Hd]. specialize (Hall tm' r' Hr'). lia.
Qed.

Lemma timer_wakeup_ok strict s : sched_ok strict s → jiffies s < u32 EOF →
  (∀ tm r, timers s !! tm = Some r → 0 ≤ expires r < 2 ^ 31) →
  ∃ s', timer_wakeup s = Ok (tt, s') ∧ wakes strict (due_owner s) s s' ∧
    (∀ tm r, timers s' !! tm = Some r → jiffies s < expires r) ∧
    (∀ q t tm r, task_table s !! q = Some t → timer t = Some tm → due s tm r → timed_out s' q).
Proof. intros Hok Hj Hs. apply wakeup_loop_ok; [done|lia|done..]. Qed.

(** ** The choice of the next task *)

Definition candidate (st : task_state_t) (s : sched) (q : Z) : Prop :=
  ∃ t, task_table s !! q = Some t ∧ state t = st ∧ q ≠ current s.

Lemma search_turn_spec st s best i : (∀ b, best = Some b → candidate st s b) →
  match search_turn st s best i with
  | Some b => candidate st s b
  | None => best = None ∧ ¬ candidate st s i
  end.
Proof.
  intros Hb. unfold search_turn.
  destruct (task_table s !! i) as [t|] eqn:Et.
  2: { destruct best; [by apply Hb|]. split; [done|]. intros (u & Hu & _). congruence. }
  case_bool_decide as Es; cbn [negb].
  2: { destruct best; [by apply Hb|]. split; [done|]. intros (u & Hu & Eu & _). congruence. }
  destruct (Z.eqb_spec (current s) i) as [Ec|Ec].
  { destruct best; [by apply Hb|]. split; [done|]. intros (u & Hu & _ & Hc). congruence. }
  assert (candidate st s i) by (exists t; auto).
  destruct best as [b|]; [|done].
  destruct (task_table s !! b); [|by apply Hb].
  destruct (_ || _); [done|by apply Hb].
Qed.

Lemma search_fold st s ids : ∀ best, (∀ b, best = Some b → candidate st s b) →
  match foldl (search_turn st s) best ids with
  | Some b => candidate st s b
  | None => best = None ∧ ∀ i, i ∈ ids → ¬ candidate st s i
  end.
Proof.
  induction ids as [|i ids IH]; intros best Hb; cbn [foldl].
  - destruct best; [by apply Hb|]. split; [done|]. by intros i ?%elem_of_nil.
  - pose proof (search_turn_spec st s best i Hb) as Ht.
    specialize (IH (search_turn st s best i)).
    destruct (search_turn st s best i) as [b|] eqn:E.
    + destruct (foldl _ _ _); [|by destruct IH as [? _]; [congruence|]].
      apply IH. intros ? [= <-]. done.
    + destruct Ht as [-> Hi]. destruct (foldl _ _ _); [by apply IH|].
      destruct IH as [_ IH]; [done|]. split; [done|].
      intros j [->|Hj]%elem_of_cons; [done|by apply IH].
Qed.

Lemma task_search_ready strict s : sched_ok strict s →
  ∃ n, task_search TASK_READY s = Some n ∧
    (candidate TASK_READY s n ∨ n = idle_task ∧ ∀ q, ¬ candidate TASK_READY s q).
Proof.
  intros Hok. unfold task_search.
  pose proof (search_fold TASK_READY s (seqZ 0 TASK_NR) None ltac:(done)) as Hs.
  destruct (foldl _ _ _) as [b|]; [by exists b; auto|].
  rewrite bool_decide_eq_true_2 by done. exists idle_task. split; [done|]. right.
  split; [done|]. intros q (t & Ht & Hc). apply Hs with q; [|by exists t].
  apply elem_of_seqZ. pose proof (ok_slot _ _ _ _ (s_tasks _ _ Hok q t Ht)). lia.
Qed.

(** What [schedule] does to the task that leaves. *)
Definition leave (t : task_t) : task_t :=
  let t := if bool_decide (state t = TASK_RUNNING) then t <| state := TASK_READY |> else t in
  if ticks t =? 0 then t <| ticks := priority t |> else t.

Definition switched (n : Z) (s : sched) : sched :=
  let tab := alter leave (current s) (task_table s) in
  s <| task_table := alter (λ t, t <| state := TASK_RUNNING |>) n tab |> <| current := n |>.

Lemma schedule_run strict s n : sched_ok strict s → task_search TASK_READY s = Some n →
  task_table s !! n ≠ None → schedule s = Ok (tt, switched n s).
Proof.
  intros Hok Hn Htn. unfold schedule, st_bind, st_get. rewrite Hn.
  destruct (task_table s !! current s) as [tc|] eqn:Ec; [|by destruct (s_cur _ _ Hok)].
  destruct (task_table s !! n) as [tn|] eqn:En; [|done].
  erewrite mod_task_run by done. erewrite mod_task_run by (upd_simpl; by simplify_map_eq).
  match goal with |- context [modify task_table <[_ := ?x]> (modify _ _ _)] =>
    change x with (leave tc) end.
  erewrite mod_task_run.
  2: { upd_simpl. rewrite insert_insert_eq.
       instantiate (1 := if decide (n = current s) then leave tc else tn).
       destruct (decide (n = current s)) as [->|]; by simplify_map_eq. }
  unfold st_mod. do 2 f_equal. apply sched_eq; unfold switched; upd_simpl; try done.
  apply map_eq. intros q. upd_simpl. rewrite insert_insert_eq.
  destruct (decide (q = n)) as [->|Hq].
  - rewrite lookup_insert_eq, lookup_alter_eq. destruct (decide (n = current s)) as [->|Hne].
    + by rewrite lookup_alter_eq, Ec.
    + by rewrite lookup_alter_ne, En by done.
  - rewrite lookup_insert_ne, lookup_alter_ne by done.
    destruct (decide (q = current s)) as [->|Hq'].
    + by rewrite lookup_insert_eq, lookup_alter_eq, Ec.
    + by rewrite lookup_insert_ne, lookup_alter_ne by done.
Qed.

Lemma leave_keeps t : node (leave t) = node t ∧ timer (leave t) = timer t ∧
  pid (leave t) = pid t ∧ ppid (leave t) = ppid t ∧
  state (leave t) = (if decide (state t = TASK_RUNNING) then TASK_READY else state t).
Proof.
  unfold leave. case_bool_decide; destruct (decide (state t = TASK_RUNNING)); try done;
    destruct (ticks _ =? 0); upd_simpl; done.
Qed.

Section schedule.
Context (strict : bool) (s : sched) (n : Z).
Context (Hok : sched_ok strict s).
Context (Hn : task_search TASK_READY s = Some n).

Lemma search_entry : ∃ t, task_table s !! n = Some t ∧ ¬ is_blocked (state t) ∧
  state t ≠ TASK_DIED.
Proof using All.
  destruct (task_search_ready strict s Hok) as (n' & Hn' & Hc).
  assert (n' = n) as -> by congruence. destruct Hc as [(t & Ht & E & _)|[-> _]].
  - exists t. split; [done|]. rewrite E. split; [by intros [|[|]]|done].
  - destruct (s_idle _ _ Hok) as (t & Ht & E). exists t. split; [done|].
    destruct E as [-> | ->]; split; try done; by intros [|[|]].
Qed.

Let s' := switched n s.

(** The role of a task in the switched state. *)
Lemma switched_task q t' : task_table s' !! q = Some t' → ∃ t, task_table s !! q = Some t ∧
  node t' = node t ∧ timer t' = timer t ∧ pid t' = pid t ∧ ppid t' = ppid t ∧
  state t' = (if decide (q = n) then TASK_RUNNING
              else if decide (state t = TASK_RUNNING) then TASK_READY else state t).
Proof using All.
  unfold s', switched; upd_simpl. intros Hq.
  assert (∃ t, task_table s !! q = Some t ∧ t' =
    (if decide (q = n) then λ t, t <| state := TASK_RUNNING |> else id)
      ((if decide (q = current s) then leave else id) t)) as (t & Ht & ->).
  { destruct (decide (q = n)) as [->|].
    - rewrite lookup_alter_eq in Hq. apply fmap_Some in Hq as (t1 & H1 & ->).
      destruct (decide (n = current s)) as [->|].
      + rewrite lookup_alter_eq in H1. apply fmap_Some in H1 as (t & H & ->). eauto.
      + rewrite lookup_alter_ne in H1 by done. eauto.
    - rewrite lookup_alter_ne in Hq by done. destruct (decide (q = current s)) as [->|].
      + rewrite lookup_alter_eq in Hq. apply fmap_Some in Hq as (t & H & ->). eauto.
      + rewrite lookup_alter_ne in Hq by done. eauto. }
  exists t. split; [done|]. destruct (leave_keeps t) as (E1 & E2 & E3 & E4 & E5).
  pose proof (ok_run _ _ _ _ (s_tasks _ _ Hok q t Ht)) as Hrun.
  destruct (decide (q = n)), (decide (q = current s)); unfold id; upd_simpl; try done.
  repeat split. destruct (decide (state t = TASK_RUNNING)); [tauto|done].
Qed.

Lemma switched_dom q : task_table s !! q ≠ None ↔ task_table s' !! q ≠ None.
Proof.
  unfold s', switched; upd_simpl. by rewrite !lookup_alter_None.
Qed.

Lemma switched_ok : sched_ok true s'.
Proof using All.
  destruct search_entry as (tn & Htn & Hnb & Hnd).
  pose proof switched_dom as Hdom. destruct Hok as [Htk Hcur Hidle Hl Hm Htm Hfam].
  split.
  - intros q t' Hq. destruct (switched_task q t' Hq) as (t & Ht & E1 & E2 & E3 & E4 & E5).
    pose proof (Htk q t Ht) as [].
    assert (is_blocked (state t') ↔ is_blocked (state t)) as Hb.
    { rewrite E5. destruct (decide (q = n)) as [->|].
      - assert (t = tn) as -> by congruence. split; [by intros [|[|]]|done].
      - destruct (decide (state t = TASK_RUNNING)) as [->|]; [|done]. split; by intros [|[|]]. }
    split; rewrite ?E1, ?E2, ?E3, ?Hb; try done.
    + rewrite E5. unfold s', switched; upd_simpl. repeat case_decide; naive_solver.
    + rewrite E5. unfold s', switched; upd_simpl. intros _ ->. by rewrite decide_True.
  - apply Hdom. change (current s') with n. congruence.
  - destruct Hidle as (t & Ht & E). destruct (task_table s' !! idle_task) as [t'|] eqn:Ht'.
    + exists t'. split; [done|]. destruct (switched_task _ t' Ht') as (t0 & Ht0 & _ & _ & _ & _ & ->).
      simplify_eq. repeat case_decide; auto; naive_solver.
    + exfalso. apply (proj1 (Hdom idle_task)); [congruence|done].
  - done.
  - intros b q Hq. apply Hdom, (Hm b q Hq).
  - destruct Htm. split; try done. intros tm r Hr. apply Hdom. eauto.
  - apply (family_mono s); [|by intros q ?%Hdom|done].
    intros q t' Hq. destruct (switched_task q t' Hq) as (t & Ht & _ & _ & _ & -> & _). eauto.
Qed.

Lemma switched_dead : dead_ok s → dead_ok s'.
Proof using All.
  destruct search_entry as (tn & Htn & Hnb & Hnd). intros [H1 H2].
  assert (∀ q t t', task_table s !! q = Some t → state t ≠ TASK_DIED →
    task_table s' !! q = Some t' → state t' ≠ TASK_DIED) as Hlive.
  { intros q t t' Ht Hd Ht'. destruct (switched_task q t' Ht') as (t0 & Ht0 & _ & _ & _ & _ & ->).
    repeat case_decide; congruence. }
  split.
  - intros tm r t' Hr Ht'. destruct (switched_task _ t' Ht') as (t & Ht & _).
    eapply Hlive; [done| |done]. by eapply (H1 tm r).
  - intros q t' u' Ht' Hu'. destruct (switched_task _ t' Ht') as (t & Ht & _ & _ & _ & E & _).
    destruct (switched_task _ u' Hu') as (u & Hu & _).
    eapply Hlive; [done| |done]. eapply (H2 q t); [done|congruence].
Qed.
End schedule.

(** [schedule] from a state in which the current task runs, is blocked or is
    dead. *)
Lemma schedule_ok strict s : sched_ok strict s →
  ∃ n, task_search TASK_READY s = Some n ∧ schedule s = Ok (tt, switched n s) ∧
    sched_ok true (switched n s) ∧ (dead_ok s → dead_ok (switched n s)).
Proof.
  intros Hok. destruct (task_search_ready strict s Hok) as (n & Hn & _).
  exists n. split; [done|]. split; [|split; [by eapply switched_ok|by eapply switched_dead]].
  eapply schedule_run; [done..|]. destruct (search_entry strict s n Hok Hn) as (t & -> & _). done.
Qed.

(** ** Blocking *)

Definition new_timer (h : handler_t) (ms : Z) (s : sched) : timer_t :=
  mk_timer (current s) (timer_expire_jiffies ms s) h false.
Definition new_addr (s : sched) : Z := fresh (dom (timers s)).

(** The state with the timer inserted. *)
Definition with_timer (h : handler_t) (ms : Z) (s : sched) : sched :=
  let s1 := s <| timers $= <[new_addr s := new_timer h ms s]> |> in
  s1 <| timer_list $= Abs.insert_sort (timer_key s1) (new_addr s) |>.

Lemma new_addr_fresh s : timers s !! new_addr s = None.
Proof. apply not_elem_of_dom. unfold new_addr. apply is_fresh. Qed.

Lemma timer_add_run h ms s : timers_ok s →
  timer_add ms h s = Ok (new_addr s, with_timer h ms s).
Proof.
  intros Htm. unfold timer_add, timer_insert, st_bind, st_get, st_mod, st_check.
  upd_simpl. unfold Abs.mem. fold (new_addr s). rewrite bool_decide_eq_false_2; [done|].
  rewrite (tl_dom _ Htm), new_addr_fresh. tauto.
Qed.

Lemma with_timer_ok h ms s : timers_ok s → task_table s !! current s ≠ None →
  timers_ok (with_timer h ms s).
Proof.
  intros [] Hcur. unfold with_timer. split; upd_simpl.
  - rewrite insert_sort_perm. apply NoDup_cons. split; [|done].
    rewrite tl_dom0, new_addr_fresh. tauto.
  - intros tm. rewrite insert_sort_perm, elem_of_cons, tl_dom0.
    destruct (decide (tm = new_addr s)) as [->|]; simplify_map_eq; [|tauto].
    split; [done|by left].
  - apply (insert_sort_sorted (timer_key (s <| timers $= _ |>))).
    eapply sorted_by_ext, tl_sorted0. intros tm Htm. unfold timer_key. upd_simpl.
    rewrite lookup_insert_ne; [done|]. intros <-. apply tl_dom0 in Htm.
    by rewrite new_addr_fresh in Htm.
  - intros tm r [[<- <-]|[_ Hr]]%lookup_insert_Some; [done|eauto].
  - intros tm r [[<- <-]|[_ Hr]]%lookup_insert_Some; [done|eauto].
Qed.

Lemma with_timer_lookup h ms s tm r : timers (with_timer h ms s) !! tm = Some r ↔
  tm = new_addr s ∧ r = new_timer h ms s ∨ timers s !! tm = Some r.
Proof.
  unfold with_timer; upd_simpl. rewrite lookup_insert_Some. split.
  - intros [[<- <-]|[_ ?]]; auto.
  - intros [[-> ->]|Hr]; [by left|]. right. split; [|done]. intros <-.
    by rewrite new_addr_fresh in Hr.
Qed.

Lemma with_timer_device strict h ms s : h ≠ H_none → sched_ok strict s →
  sched_ok strict (with_timer h ms s).
Proof.
  intros Hh [Htk Hcur Hidle Hl Hm Htm Hfam]. split; try done.
  - intros q t Ht. apply (task_ok_ext strict s); [done..| |by apply Htk].
    intros tm r Eo Eh. rewrite with_timer_lookup. split; [|auto]. intros [[-> ->]|?]; done.
  - by apply with_timer_ok.
  - by destruct Hfam.
Qed.

Section block.
Context (s : sched) (b : Z) (st : task_state_t) (ms : Z) (t : task_t).
Context (Hok : sched_ok true s) (Ht : task_table s !! current s = Some t).
Context (Hst : is_blocked st).

(** The current task on the wait list, before the switch. *)
Definition parked : sched :=
  let s1 := s <| lists $= <[b := current s :: wait_list s b]> |> in
  let s2 := if 0 <? ms then with_timer H_none ms s1 else s1 in
  s2 <| task_table $= <[current s := t <| node := Some b |>
          <| timer := if 0 <? ms then Some (new_addr s) else None |> <| state := st |>]> |>.

Lemma running_free : node t = None ∧ timer t = None ∧ state t = TASK_RUNNING.
Proof using Hok Ht.
  pose proof (s_tasks _ _ Hok _ t Ht) as [].
  assert (state t = TASK_RUNNING) as Er by auto.
  assert (node t = None) as En.
  { destruct (node t) eqn:E; [|done]. rewrite Er in ok_blk0.
    assert (is_blocked TASK_RUNNING) as [|[|]] by (by apply ok_blk0); done. }
  destruct (timer t); [by destruct ok_timed0|done].
Qed.

Lemma task_block_run (ob : option Z) : b = default block_list ob →
  task_block (current s) ob st ms s = schedule parked.
Proof using All.
  intros Eb. destruct running_free as (En & Etm & _).
  assert (current s ∉ wait_list s b) as Hnin.
  { rewrite <-(ok_node _ _ _ _ (s_tasks _ _ Hok _ t Ht)). congruence. }
  unfold task_block. unfold st_bind at 1, task_at, st_deref. rewrite Ht, <-Eb.
  unfold st_bind at 1, st_check. rewrite bool_decide_eq_true_2 by done.
  unfold st_bind at 1. rewrite !bool_decide_eq_false_2 by (by destruct Hst as [->|[->| ->]]).
  cbn [negb andb]. unfold st_bind at 1, st_get. unfold st_bind at 1, Abs.mem.
  rewrite bool_decide_eq_false_2 by done. cbn [negb].
  unfold st_bind at 1, st_mod. unfold st_bind at 1. erewrite mod_task_run by done.
  unfold st_bind at 1. unfold parked.
  destruct (0 <? ms).
  - unfold st_bind at 1. rewrite bool_decide_eq_true_2 by done.
    unfold st_bind at 1. rewrite timer_add_run.
    2: { destruct (s_timers _ _ Hok). split; try done. intros tm r Hr. upd_simpl.
         destruct (decide (ttask r = current s)) as [->|]; simplify_map_eq; eauto. }
    erewrite mod_task_run by (unfold with_timer; upd_simpl; by simplify_map_eq).
    unfold st_bind at 1. erewrite mod_task_run by (unfold with_timer; upd_simpl; by simplify_map_eq).
    unfold st_bind, running_task, st_gets. unfold with_timer; upd_simpl.
    rewrite Z.eqb_refl. cbn [st_when]. f_equal. apply sched_eq; upd_simpl; try done.
    by rewrite !insert_insert_eq, <-Eb.
  - unfold st_ret, st_bind. erewrite mod_task_run by (upd_simpl; by simplify_map_eq).
    unfold running_task, st_gets; upd_simpl. rewrite Z.eqb_refl. cbn [st_when].
    f_equal. apply sched_eq; upd_simpl; try done. rewrite !insert_insert_eq, <-Eb. f_equal.
    destruct t; cbn in *. by subst.
Qed.

Lemma parked_wait q c : q ∈ wait_list parked c ↔ q ∈ wait_list s c ∨ q = current s ∧ c = b.
Proof.
  assert (wait_list parked c = if decide (c = b) then current s :: wait_list s b
                               else wait_list s c) as ->.
  { unfold parked, wait_list. destruct (0 <? ms); unfold with_timer; upd_simpl;
      destruct (decide (c = b)) as [->|]; by simplify_map_eq. }
  destruct (decide (c = b)) as [->|]; [rewrite elem_of_cons|]; tauto.
Qed.

Lemma parked_table q u : task_table parked !! q = Some u ↔
  (q = current s ∧ u = t <| node := Some b |>
     <| timer := if 0 <? ms then Some (new_addr s) else None |> <| state := st |>) ∨
  (q ≠ current s ∧ task_table s !! q = Some u).
Proof.
  unfold parked. destruct (0 <? ms); unfold with_timer; upd_simpl;
    rewrite lookup_insert_Some; naive_solver.
Qed.

Lemma parked_dom q : task_table s !! q ≠ None → task_table parked !! q ≠ None.
Proof.
  unfold parked. destruct (0 <? ms); unfold with_timer; upd_simpl; intros Hq;
    destruct (decide (q = current s)) as [->|]; by simplify_map_eq.
Qed.

Lemma parked_timers tm r : timers parked !! tm = Some r ↔
  (0 < ms ∧ tm = new_addr s ∧ r = new_timer H_none ms s) ∨ timers s !! tm = Some r.
Proof.
  unfold parked. destruct (Z.ltb_spec 0 ms); upd_simpl.
  - rewrite with_timer_lookup. unfold new_addr, new_timer, timer_expire_jiffies; upd_simpl.
    naive_solver.
  - naive_solver lia.
Qed.

Lemma parked_timers_ok : timers_ok parked.
Proof using Hok.
  assert (timers_ok (s <| lists $= <[b := current s :: wait_list s b]> |>)) as Htm.
  { by destruct (s_timers _ _ Hok). }
  apply (timers_shrink (if 0 <? ms then with_timer H_none ms
    (s <| lists $= <[b := current s :: wait_list s b]> |>)
    else s <| lists $= <[b := current s :: wait_list s b]> |>)).
  - destruct (0 <? ms); [|done]. apply with_timer_ok; [done|apply Hok].
  - done.
  - unfold parked; upd_simpl. destruct (0 <? ms); [|apply Htm].
    apply with_timer_ok; [done|apply Hok].
  - done.
  - intros p Hp. apply parked_dom. by destruct (0 <? ms).
Qed.

Lemma parked_current : current parked = current s.
Proof. unfold parked; upd_simpl. by destruct (0 <? ms). Qed.

Lemma parked_ok : current s ≠ idle_task → sched_ok false parked.
Proof using All.
  intros Hidl. destruct running_free as (En & Etm & Er).
  pose proof parked_dom as Hdom.
  pose proof parked_timers_ok. destruct Hok as [Htk Hcur Hidle Hl Hm Htm Hfam]. split.
  - intros q u [[-> ->]|[Hne Hq]]%parked_table.
    + destruct (Htk _ t Ht). split; upd_simpl; try done.
      * intros Es. by destruct Hst as [H1|[H1|H1]]; rewrite H1 in Es.
      * intros c. rewrite parked_wait, <-ok_node0, En. naive_solver.
      * intros tm. rewrite Etm in ok_timer0. setoid_rewrite parked_timers.
        destruct (Z.ltb_spec 0 ms) as [Hms|Hms].
        { split.
          - intros [= <-]. exists (new_timer H_none ms s). auto 6.
          - intros (r & [(_ & -> & ->)|Hr] & E1 & E2); [done|].
            assert (None = Some tm) by (apply ok_timer0; eauto). done. }
        { split; [done|]. intros (r & [(? & _)|Hr] & E1 & E2); [lia|].
          apply ok_timer0. eauto. }
    + pose proof (Htk _ u Hq) as []. split; rewrite ?parked_current; try done.
      * intros c. rewrite parked_wait, ok_node0. naive_solver.
      * intros tm. rewrite ok_timer0. setoid_rewrite parked_timers. split.
        { intros (r & Hr & E1 & E2). exists r. auto. }
        { intros (r & [(? & -> & ->)|Hr] & E1 & E2); [|by eauto]. by destruct Hne. }
  - rewrite parked_current. by apply Hdom.
  - destruct Hidle as (u & Hu & E). exists u. rewrite parked_table. split; [right|done].
    split; [|done]. congruence.
  - intros c. assert (wait_list parked c = if decide (c = b) then current s :: wait_list s b
                               else wait_list s c) as ->.
    { unfold parked, wait_list. destruct (0 <? ms); unfold with_timer; upd_simpl;
        destruct (decide (c = b)) as [->|]; by simplify_map_eq. }
    destruct (decide (c = b)) as [->|]; [|done]. apply NoDup_cons. split; [|done].
    rewrite <-(ok_node _ _ _ _ (Htk _ t Ht)). congruence.
  - intros c q [Hq|[-> _]]%parked_wait; apply Hdom; [by eapply Hm|done].
  - done.
  - apply (family_mono s); [|done|done].
    intros q u [[-> ->]|[Hne Hq]]%parked_table; upd_simpl; eauto.
Qed.

Lemma parked_dead : dead_ok s → dead_ok parked.
Proof using All.
  destruct running_free as (En & Etm & Er). intros [H1 H2].
  assert (st ≠ TASK_DIED) as Hd by (by destruct Hst as [->|[->| ->]]). split.
  - intros tm r u Hr [[E ->]|[Hne Hq]]%parked_table; upd_simpl; [done|].
    apply parked_timers in Hr as [(_ & _ & ->)|Hr]; [done|]. by eapply H1.
  - intros q u u' Hq [[E ->]|[Hne Hq']]%parked_table; upd_simpl; [done|].
    apply parked_table in Hq as [[-> ->]|[Hne' Hq]]; upd_simpl; eauto.
Qed.
End block.

Lemma search_leaves strict s n : sched_ok strict s → task_search TASK_READY s = Some n →
  current s ≠ idle_task → n ≠ current s.
Proof.
  intros Hok Hn Hidl. destruct (task_search_ready strict s Hok) as (n' & Hn' & Hc).
  assert (n' = n) as -> by congruence. destruct Hc as [(t & _ & _ & Hc)|[-> _]]; auto.
Qed.

Lemma task_block_ok s ob st ms : sched_inv s → is_blocked st → current s ≠ idle_task →
  ∃ n t, task_table s !! current s = Some t ∧
    task_block (current s) ob st ms s =
      Ok (tt, switched n (parked s (default block_list ob) st ms t)) ∧
    sched_inv (switched n (parked s (default block_list ob) st ms t)) ∧ n ≠ current s.
Proof.
  intros [Hok Hd] Hst Hidl. destruct (task_table s !! current s) as [t|] eqn:Ht;
    [|by destruct (s_cur _ _ Hok)].
  assert (sched_ok false (parked s (default block_list ob) st ms t)) as Hokp by (by apply parked_ok).
  destruct (schedule_ok false _ Hokp) as (n & Hs & Hn & H1 & H2).
  exists n, t. split; [done|]. split; [by rewrite (task_block_run s (default block_list ob) st ms t)|].
  split; [split; [done|by apply H2, parked_dead]|].
  rewrite <-(parked_current s (default block_list ob) st ms t).
  eapply search_leaves; [done|done|by rewrite parked_current].
Qed.
