(* ===== verification/Life.v ===== *)
(** * The life of a task: fork, exit and wait, and the safety of every operation of [Task] *)
From stdpp Require Import functions.
From S2P Require Import Prelude Dlist Task Sched.

(** ** The table of a state that only changes by forks and reaps *)

(** [sched_ok] without its table: what depends on the lists and the timers. *)
Lemma free_slot_spec s c : free_slot s = Some c →
  0 ≤ c < TASK_NR ∧ task_table s !! c = None ∧
  ∀ i, 0 ≤ i < c → task_table s !! i ≠ None.
Proof.
  unfold free_slot. intros Hf.
  assert (∀ n a, List.find (λ i, bool_decide (task_table s !! i = None)) (seqZ a (Z.of_nat n)) = Some c →
    a ≤ c < a + Z.of_nat n ∧ task_table s !! c = None ∧
    ∀ i, a ≤ i < c → task_table s !! i ≠ None) as Hgen.
  { induction n as [|n IH]; intros a; [done|].
    rewrite seqZ_cons by lia. cbn [List.find].
    case_bool_decide as Ha.
    - intros [= <-]. split; [lia|]. split; [done|]. intros; lia.
    - replace (Z.pred (Z.of_nat (S n))) with (Z.of_nat n) by lia.
      intros (H1 & H2 & H3)%IH. split; [lia|]. split; [done|].
      intros i Hi. destruct (decide (i = a)) as [->|]; [done|]. apply H3. lia. }
  apply (Hgen 64%nat 0 Hf).
Qed.

Section fork.
Context (s : sched) (t : task_t) (c : Z).
Context (Hinv : sched_inv s) (Ht : task_table s !! current s = Some t).
Context (Hc : free_slot s = Some c).

(** The task structure of the child. *)
Definition child_of : task_t :=
  t <| pid := c |> <| ppid := pid t |> <| ticks := priority t |> <| state := TASK_READY |>.

Definition forked : sched := s <| task_table $= <[c := child_of]> |>.

Lemma forked_dom q : task_table s !! q ≠ None → task_table forked !! q ≠ None.
Proof using Hc.
  destruct (free_slot_spec s c Hc) as (_ & Hfree & _).
  intros Hq. unfold forked; upd_simpl. by rewrite lookup_insert_ne by congruence.
Qed.

Lemma forked_family : family_ok s → family_ok forked.
Proof using All.
  destruct Hinv as [Hok _]. destruct (free_slot_spec s c Hc) as (Hrange & Hfree & _).
  pose proof (s_tasks _ _ Hok _ t Ht) as Htk. pose proof forked_dom as Hdom.
  intros [Hpar Hinit (rank & Hrank)].
  assert (∀ q u, task_table forked !! q = Some u →
    q = c ∧ u = child_of ∨ q ≠ c ∧ task_table s !! q = Some u) as Hsplit.
  { intros q u. unfold forked; upd_simpl. rewrite lookup_insert_Some. naive_solver. }
  split.
  - intros q u [[-> ->]|[Hne Hq]]%Hsplit; [|destruct (Hpar q u Hq); auto].
    unfold child_of; upd_simpl. rewrite (ok_pid _ _ _ _ Htk). split; [apply Hdom; congruence|].
    intros Hlt. exfalso. destruct (s_idle _ _ Hok) as (u & Hu & _). unfold idle_task in Hu.
    assert (c = 0 ∨ c = 1) as [->| ->] by lia; congruence.
  - by apply Hdom.
  - exists (<[c := S (rank (current s))]> rank). intros q u [[-> ->]|[Hne Hq]]%Hsplit Hq0.
    + unfold child_of; upd_simpl. rewrite (ok_pid _ _ _ _ Htk), fn_lookup_insert.
      rewrite fn_lookup_insert_ne by congruence. lia.
    + destruct (Hpar q u Hq) as [Hp _].
      rewrite !fn_lookup_insert_ne by congruence. by apply Hrank.
Qed.

Lemma forked_inv : sched_inv forked.
Proof using All.
  destruct Hinv as [Hok [Hd1 Hd2]]. destruct (free_slot_spec s c Hc) as (Hrange & Hfree & Hbelow).
  destruct (running_free s t Hok Ht) as (En & Etm & Er).
  pose proof Hok as [Htk Hcur Hidle Hl Hm Htm Hfam].
  assert (c ≠ current s) as Hcc by congruence.
  pose proof forked_dom as Hdom. split; split.
  - intros q u Hq. unfold forked in Hq; upd_simpl.
    apply lookup_insert_Some in Hq as [[<- <-]|[Hne Hq]].
    + unfold child_of. split; unfold forked; upd_simpl; try done.
      * rewrite En. split; [by intros [|[|]]|done].
      * intros b. rewrite En. split; [done|]. intros Hin. by destruct (Hm b c Hin).
      * intros tm. rewrite Etm. split; [done|]. intros (r & Hr & E & _).
        destruct (tl_owner _ Htm tm r Hr). congruence.
    + apply (task_ok_ext true s); [done..|]. by apply Htk.
  - by apply Hdom.
  - destruct Hidle as (u & Hu & E). exists u. split; [|done]. unfold forked; upd_simpl.
    rewrite lookup_insert_ne; [done|congruence].
  - done.
  - intros b q Hq. by eapply Hdom, Hm.
  - destruct Htm. split; try done. intros tm r Hr. apply Hdom. eauto.
  - by apply forked_family.
  - intros tm r u Hr Hu. unfold forked in *; upd_simpl.
    apply lookup_insert_Some in Hu as [[_ <-]|[Hne Hu]]; [done|by eapply Hd1].
  - intros q u u' Hq Hu'. unfold forked in *; upd_simpl.
    apply lookup_insert_Some in Hu' as [[_ <-]|[Hne Hu']]; [done|].
    apply lookup_insert_Some in Hq as [[<- <-]|[Hne' Hq]]; [|eauto].
    unfold child_of in *; upd_simpl. rewrite (ok_pid _ _ _ _ (Htk _ t Ht)) in Hu'. congruence.
Qed.
End fork.

(** ** Loops over the task table *)

(** The table with every task [u] of slot [q] replaced by [g q u]. *)
Definition map_table (g : Z → task_t → task_t) (s : sched) : sched :=
  s <| task_table $= map_imap (λ q u, Some (g q u)) |>.

Lemma map_table_lookup g s q :
  task_table (map_table g s) !! q = g q <$> task_table s !! q.
Proof. unfold map_table; upd_simpl. rewrite map_lookup_imap. by destruct (task_table s !! q). Qed.

Lemma map_table_dom g s q : task_table s !! q ≠ None ↔ task_table (map_table g s) !! q ≠ None.
Proof. rewrite map_table_lookup. by destruct (task_table s !! q). Qed.

Lemma map_table_compose g h s :
  map_table g (map_table h s) = map_table (λ q u, g q (h q u)) s.
Proof.
  apply sched_eq; try done. apply map_eq. intros q. rewrite !map_table_lookup.
  by destruct (task_table s !! q).
Qed.

Lemma map_table_ext g h s : (∀ q u, task_table s !! q = Some u → g q u = h q u) →
  map_table g s = map_table h s.
Proof.
  intros He. apply sched_eq; try done. apply map_eq. intros q. rewrite !map_table_lookup.
  destruct (task_table s !! q) as [u|] eqn:E; [|done]. cbn. by rewrite He.
Qed.

Lemma map_table_id s : map_table (λ _ u, u) s = s.
Proof.
  apply sched_eq; try done. apply map_eq. intros q. rewrite map_table_lookup.
  by destruct (task_table s !! q).
Qed.

Definition at_slot (p : Z) (f : task_t → task_t) (q : Z) (u : task_t) : task_t :=
  if q =? p then f u else u.

Lemma mod_task_map p f s : task_table s !! p ≠ None →
  mod_task p f s = Ok (tt, map_table (at_slot p f) s).
Proof.
  intros Hp. destruct (task_table s !! p) as [t|] eqn:Ht; [|done].
  rewrite (mod_task_run p f s t Ht). do 2 f_equal. apply sched_eq; try done.
  apply map_eq. intros q. rewrite map_table_lookup. upd_simpl. unfold at_slot.
  destruct (Z.eqb_spec q p) as [->|].
  - by rewrite lookup_insert_eq, Ht.
  - rewrite lookup_insert_ne by done. by destruct (task_table s !! q).
Qed.

Lemma table_loop (g : Z → task_t → task_t) body ids : ∀ s, NoDup ids →
  (∀ i s, i ∈ ids → body i s = Ok (tt, map_table (at_slot i (g i)) s)) →
  st_for ids body s =
    Ok (tt, map_table (λ q u, if bool_decide (q ∈ ids) then g q u else u) s).
Proof.
  induction ids as [|i ids IH]; intros s Hnd Hb; cbn [st_for].
  - unfold st_ret. do 2 f_equal. rewrite <-(map_table_id s) at 1.
    by apply map_table_ext.
  - apply NoDup_cons in Hnd as [Hi Hnd]. unfold st_bind. rewrite Hb by (by left).
    rewrite IH; [|done|intros j s' Hj; apply Hb; by right].
    rewrite map_table_compose. do 2 f_equal. apply map_table_ext. intros q u _.
    unfold at_slot. destruct (Z.eqb_spec q i) as [->|Hne].
    + rewrite bool_decide_eq_false_2, bool_decide_eq_true_2 by (done || by left). done.
    + case_bool_decide as Hq; case_bool_decide as Hq'; try done; exfalso.
      * apply Hq'. by right.
      * apply elem_of_cons in Hq' as [|]; done.
Qed.

(** A loop body that writes back one slot, or leaves it. *)
Lemma slot_body i (b : task_t → bool) f s :
  match task_table s !! i with
  | None => st_ret tt
  | Some c => st_when (b c) (put_task i (f c))
  end s = Ok (tt, map_table (at_slot i (λ c, if b c then f c else c)) s).
Proof.
  destruct (task_table s !! i) as [c|] eqn:Hc.
  - assert (∀ v, v = (if b c then f c else c) → put_task i v s =
      Ok (tt, map_table (at_slot i (λ c, if b c then f c else c)) s)) as Hput.
    { intros v ->. rewrite <-mod_task_map by congruence.
      by rewrite (mod_task_run i _ s c Hc). }
    unfold st_when. destruct (b c) eqn:Eb; [by apply Hput; rewrite ?Eb|].
    rewrite <-(Hput c) by (by rewrite ?Eb). unfold st_ret, put_task, st_mod. do 2 f_equal.
    apply sched_eq; upd_simpl; try done. by rewrite insert_id.
  - unfold st_ret. do 2 f_equal. rewrite <-(map_table_id s) at 1. apply map_table_ext.
    intros q u Hu. unfold at_slot. destruct (Z.eqb_spec q i); [congruence|done].
Qed.

(** [g] keeps what the scheduler looks at. *)
Definition keeps_role (g : Z → task_t → task_t) : Prop := ∀ q u,
  state (g q u) = state u ∧ node (g q u) = node u ∧ timer (g q u) = timer u ∧
  pid (g q u) = pid u.

Lemma mapped_ok strict g s : keeps_role g → family_ok (map_table g s) →
  sched_ok strict s → sched_ok strict (map_table g s).
Proof.
  intros Hg Hfam' [Htk Hcur Hidle Hl Hm Htm Hfam]. pose proof (map_table_dom g s) as Hdom.
  split; try done.
  - intros q u Hq. rewrite map_table_lookup in Hq. apply fmap_Some in Hq as (v & Hv & ->).
    apply (task_ok_ext strict s); [done..|]. destruct (Hg q v) as (E1 & E2 & E3 & E4).
    destruct (Htk q v Hv). split; by rewrite ?E1, ?E2, ?E3, ?E4.
  - by apply Hdom.
  - destruct Hidle as (u & Hu & E). exists (g idle_task u). rewrite map_table_lookup, Hu.
    split; [done|]. destruct (Hg idle_task u) as (-> & _). done.
  - intros b q Hq. by eapply Hdom, Hm.
  - destruct Htm. split; try done. intros tm r Hr. apply Hdom. eauto.
Qed.

Lemma mapped_family g s : (∀ q u, ppid (g q u) = ppid u) → family_ok s →
  family_ok (map_table g s).
Proof.
  intros Hg. apply family_mono; [|intros q; apply map_table_dom].
  intros q t'. rewrite map_table_lookup, fmap_Some. intros (t & Ht & ->). by exists t.
Qed.

(** ** Exit *)

(** Dead tasks other than [c] own no timer and have no children. *)
Record dead_but (c : Z) (s : sched) : Prop := {
  db_timer : ∀ tm r t, timers s !! tm = Some r → task_table s !! ttask r = Some t →
     state t = TASK_DIED → ttask r = c;
  db_parent : ∀ p t t', task_table s !! p = Some t → task_table s !! ppid t = Some t' →
     state t' = TASK_DIED → ppid t = c }.

Lemma mapped_dead_but c g s : (∀ q u, state (g q u) = state u ∧ ppid (g q u) = ppid u) →
  dead_but c s → dead_but c (map_table g s).
Proof.
  intros Hg [H1 H2]. split.
  - intros tm r t Hr. rewrite map_table_lookup, fmap_Some. intros (u & Hu & ->).
    destruct (Hg (ttask r) u) as [-> _]. by eapply H1.
  - intros p t t'. rewrite !map_table_lookup, !fmap_Some. intros (u & Hu & ->).
    destruct (Hg p u) as [_ ->]. intros (u' & Hu' & ->). destruct (Hg (ppid u) u') as [-> _].
    by eapply H2.
Qed.

(** The loop of [timer_remove]. *)
Lemma timer_remove_loop p l : ∀ s, sched_ok false s → NoDup l →
  (∀ tm, tm ∈ l → timers s !! tm ≠ None) →
  (∀ tm r, timers s !! tm = Some r → ttask r = p → thandler r ≠ H_none) →
  ∃ s', st_for l (λ tm,
      let* r := st_deref (λ s, timers s !! tm) in
      st_when (ttask r =? p) (timer_put tm)) s = Ok (tt, s') ∧
    sched_ok false s' ∧ task_table s' = task_table s ∧ current s' = current s ∧
    lists s' = lists s ∧ jiffies s' = jiffies s ∧
    ∀ tm r, timers s' !! tm = Some r ↔ timers s !! tm = Some r ∧ ¬ (tm ∈ l ∧ ttask r = p).
Proof.
  induction l as [|tm l IH]; intros s Hok Hnd Hin Hh; cbn [st_for].
  - exists s. do 6 (split; [done|]). intros tm r. split; [|tauto]. intros Hr.
    split; [done|]. by intros [?%elem_of_nil _].
  - apply NoDup_cons in Hnd as [Htm Hnd].
    destruct (timers s !! tm) as [r|] eqn:Hr; [|by destruct (Hin tm (list_elem_of_here _ _))].
    unfold st_bind at 1. unfold st_bind at 1. unfold st_deref at 1. rewrite Hr.
    destruct (Z.eqb_spec (ttask r) p) as [Ep|Ep]; cbn [st_when].
    + rewrite (timer_put_run tm s r) by
        (done || apply (tl_dom _ (s_timers _ _ Hok)); congruence).
      destruct (IH (s <| timer_list $= Abs.remove tm |> <| timers $= delete tm |>))
        as (s' & -> & Hok' & E1 & E2 & E3 & E4 & Hts); [by eapply drop_timer_ok; eauto|done|..].
      * intros x Hx. upd_simpl. rewrite lookup_delete_ne by (by intros ->).
        apply Hin. by right.
      * intros x rx. upd_simpl. intros [_ Hx]%lookup_delete_Some. by eapply Hh.
      * exists s'. do 6 (split; [done|]). intros x rx. rewrite Hts. upd_simpl.
        rewrite lookup_delete_Some, elem_of_cons. destruct (decide (x = tm)) as [->|].
        { split; [tauto|]. intros [Hx Hn]. exfalso. apply Hn. split; [by left|congruence]. }
        { split; [tauto|]. intros [Hx Hn]. split; [done|]. tauto. }
    + unfold st_ret. destruct (IH s) as (s' & -> & Hok' & E1 & E2 & E3 & E4 & Hts); try done.
      { intros x Hx. apply Hin. by right. }
      exists s'. do 6 (split; [done|]). intros x rx. rewrite Hts, elem_of_cons.
      split; [|tauto]. intros [Hx Hn]. split; [done|]. intros [[->|Hxl] Eo]; [congruence|tauto].
Qed.

Definition dying (me code : Z) : Z → task_t → task_t :=
  at_slot me (λ t, t <| state := TASK_DIED |> <| status := code |>).

(** A dying session leader [t] sends [SIGHUP] to its session. *)
Definition hup (t : task_t) (me q : Z) (u : task_t) : task_t :=
  if task_leader t && negb (me =? q) && (sid t =? sid u)
  then u <| signal $= λ m, Z.lor m (SIGMASK SIGHUP) |> else u.

(** The father gets [SIGCHLD]. *)
Definition chld (t : task_t) (q : Z) (u : task_t) : task_t :=
  if negb (ppid t =? 0) && (q =? ppid t)
  then u <| signal $= λ m, Z.lor m (SIGMASK SIGCHLD) |> else u.

(** The grandfather adopts the children of [t]. *)
Definition adopt (t : task_t) (q : Z) (u : task_t) : task_t :=
  if (2 <=? q) && (ppid u =? pid t) then u <| ppid := ppid t |> else u.

Lemma hup_keeps t me q u : let v := hup t me q u in
  state v = state u ∧ node v = node u ∧ timer v = timer u ∧ pid v = pid u ∧
  ppid v = ppid u ∧ waitpid v = waitpid u.
Proof. unfold hup. by destruct (_ && _). Qed.

Lemma chld_keeps t q u : let v := chld t q u in
  state v = state u ∧ node v = node u ∧ timer v = timer u ∧ pid v = pid u ∧
  ppid v = ppid u ∧ waitpid v = waitpid u.
Proof. unfold chld. by destruct (_ && _). Qed.

Lemma adopt_keeps t q u : let v := adopt t q u in
  state v = state u ∧ node v = node u ∧ timer v = timer u ∧ pid v = pid u ∧
  waitpid v = waitpid u.
Proof. unfold adopt. by destruct (_ && _). Qed.

Lemma dying_keeps me code q u : let v := dying me code q u in
  node v = node u ∧ timer v = timer u ∧ pid v = pid u ∧ ppid v = ppid u ∧
  sid v = sid u ∧ (q ≠ me → v = u).
Proof. unfold dying, at_slot. by destruct (Z.eqb_spec q me). Qed.

Section exit.
Context (s : sched) (t : task_t) (code : Z).
Context (Hinv : sched_inv s) (Ht : task_table s !! current s = Some t).
Context (Hme : 2 ≤ current s).
Notation me := (current s).

Lemma father : pid t = me ∧ ppid t ≠ me ∧ ∃ f, task_table s !! ppid t = Some f ∧ state f ≠ TASK_DIED.
Proof using All.
  destruct Hinv as [Hok [_ Hd]]. split; [by apply (ok_pid _ _ _ _ (s_tasks _ _ Hok _ t Ht))|].
  destruct (s_family _ _ Hok) as [Hpar _ (rank & Hrank)]. destruct (Hpar _ t Ht) as [Hp _].
  split.
  - intros E. specialize (Hrank _ t Ht ltac:(lia)). rewrite E in Hrank. lia.
  - destruct (task_table s !! ppid t) as [f|] eqn:Ef; [|done]. exists f. eauto.
Qed.

Let s1 := map_table (dying me code) s.

Lemma dying_task q u : task_table s1 !! q = Some u ↔
  (q = me ∧ u = t <| state := TASK_DIED |> <| status := code |>) ∨
  (q ≠ me ∧ task_table s !! q = Some u).
Proof using Ht.
  unfold s1. rewrite map_table_lookup, fmap_Some. unfold dying, at_slot. split.
  - intros (v & Hv & ->). destruct (Z.eqb_spec q me) as [->|]; [left|by right].
    split; [done|]. congruence.
  - intros [[-> ->]|[Hne Hq]].
    + exists t. by rewrite Z.eqb_refl.
    + exists u. by rewrite (proj2 (Z.eqb_neq q me)).
Qed.

Lemma dying_ok : sched_ok false s1 ∧ dead_but me s1.
Proof using All.
  destruct Hinv as [Hok [Hd1 Hd2]].
  destruct (running_free s t Hok Ht) as (En & Etm & Er).
  pose proof (map_table_dom (dying me code) s) as Hdom.
  assert (family_ok s1) as Hfam'.
  { apply mapped_family; [|apply Hok]. intros q u. apply dying_keeps. }
  destruct Hok as [Htk Hcur Hidle Hl Hm Htm Hfam]. split; [split; try done|split].
  - intros q u Hq. apply dying_task in Hq as [[-> ->]|[Hne Hq]].
    + apply (task_ok_ext false s); [done..|]. destruct (Htk _ t Ht).
      split; upd_simpl; try done. rewrite En. split; [by intros [|[|]]|done].
    + apply (task_ok_ext false s); [done..|]. by destruct (Htk q u Hq).
  - by apply Hdom.
  - destruct Hidle as (u & Hu & E). exists u. rewrite dying_task. split; [right|done].
    split; [unfold idle_task; lia|done].
  - intros b q Hq. by eapply Hdom, Hm.
  - destruct Htm. split; try done. intros tm r Hr. apply Hdom. eauto.
  - intros tm r u Hr Hu Est. apply dying_task in Hu as [[E _]|[_ Hu]]; [done|].
    exfalso. by eapply Hd1.
  - intros q u u' Hq Hu' Est. apply dying_task in Hu' as [[E _]|[Hne Hu']]; [done|].
    exfalso. apply dying_task in Hq as [[-> ->]|[_ Hq]]; upd_simpl; (eapply Hd2; [|exact Hu'|exact Est]; done).
Qed.

(** ** The calls of [task_exit], one by one *)
Let t1 := t <| state := TASK_DIED |> <| status := code |>.
Let s2 := map_table (hup t me) s1.
Let s3 := map_table (chld t) s2.

Lemma kill_session_run : task_kill_session me s1 = Ok (tt, s2).
Proof using All.
  assert (task_table s1 !! me = Some t1) as Hme1 by (apply dying_task; by left).
  unfold task_kill_session. unfold st_bind at 1, task_at, st_deref. rewrite Hme1.
  change (task_leader t1) with (task_leader t).
  destruct (task_leader t) eqn:El; cbn [negb].
  - rewrite (table_loop (hup t me)); [|apply NoDup_seqZ|].
    + do 2 f_equal. apply map_table_ext. intros q u Hq. rewrite bool_decide_eq_true_2; [done|].
      apply elem_of_seqZ. pose proof (ok_slot _ _ _ _ (s_tasks _ _ (proj1 dying_ok) q u Hq)). lia.
    + intros i s' _. unfold st_bind, st_get.
      rewrite (slot_body i (λ c, negb (me =? i) && (sid t =? sid c))
        (λ c, c <| signal $= λ m, Z.lor m (SIGMASK SIGHUP) |>)).
      do 2 f_equal. apply map_table_ext. intros q u _. unfold at_slot, hup. rewrite El.
      by destruct (Z.eqb_spec q i) as [->|].
  - unfold st_ret. do 2 f_equal. rewrite <-(map_table_id s1) at 1. apply map_table_ext.
    intros q u _. unfold hup. by rewrite El.
Qed.

Lemma session_ok : sched_ok false s2 ∧ dead_but me s2.
Proof using All.
  destruct dying_ok as [H1 H2]. split.
  - apply mapped_ok; [|apply mapped_family; [|apply H1]|done]; intros q u; pose proof (hup_keeps t me q u) as K; cbn zeta in K; tauto.
  - apply mapped_dead_but; [|done]. intros q u. pose proof (hup_keeps t me q u) as K; cbn zeta in K; tauto.
Qed.

Lemma father_ok : sched_ok false s3 ∧ dead_but me s3.
Proof using All.
  destruct session_ok as [H1 H2]. split.
  - apply mapped_ok; [|apply mapped_family; [|apply H1]|done]; intros q u; pose proof (chld_keeps t q u) as K; cbn zeta in K; tauto.
  - apply mapped_dead_but; [|done]. intros q u. pose proof (chld_keeps t q u) as K; cbn zeta in K; tauto.
Qed.

Lemma tell_father_run : task_tell_father me s2 = Ok (tt, s3).
Proof using All.
  destruct father as (_ & Hpm & f & Hf & _).
  assert (task_table s2 !! me = Some (hup t me me t1)) as Hme2.
  { unfold s2. rewrite map_table_lookup. by rewrite (proj2 (dying_task me t1)) by (by left). }
  unfold task_tell_father. unfold st_bind at 1, task_at, st_deref. rewrite Hme2.
  replace (ppid (hup t me me t1)) with (ppid t).
  2: { destruct (hup_keeps t me me t1) as (_ & _ & _ & _ & E & _). by rewrite E. }
  destruct (Z.eqb_spec (ppid t) 0) as [E0|E0].
  - unfold st_ret. do 2 f_equal. rewrite <-(map_table_id s2) at 1. apply map_table_ext.
    intros q u _. unfold chld. by rewrite E0.
  - unfold st_bind, st_get. rewrite (get_task_spec false) by apply session_ok.
    assert (task_table s2 !! ppid t ≠ None) as Hp2.
    { unfold s2. apply map_table_dom. rewrite (proj2 (dying_task _ f)); [done|by right]. }
    destruct (task_table s2 !! ppid t) eqn:Ep; [|done].
    rewrite mod_task_map by congruence. do 2 f_equal. apply map_table_ext. intros q u _.
    unfold at_slot, chld. rewrite (proj2 (Z.eqb_neq (ppid t) 0)) by done. done.
Qed.

(** The state after [timer_remove]. *)
Definition untimed (s4 : sched) : Prop :=
  sched_ok false s4 ∧ task_table s4 = task_table s3 ∧ current s4 = me ∧
  lists s4 = lists s ∧ jiffies s4 = jiffies s ∧
  ∀ tm r, timers s4 !! tm = Some r ↔ timers s !! tm = Some r ∧ ttask r ≠ me.

Lemma timer_remove_run : ∃ s4, timer_remove me s3 = Ok (tt, s4) ∧ untimed s4.
Proof using All.
  destruct Hinv as [Hok _]. destruct (running_free s t Hok Ht) as (_ & Etm & _).
  pose proof (s_timers _ _ Hok) as [Hnd Hd _ _ _].
  destruct (timer_remove_loop me (timer_list s3) s3) as (s4 & Hrun & Hok4 & E1 & E2 & E3 & E4 & Hts).
  - apply father_ok.
  - done.
  - intros tm. apply Hd.
  - intros tm r Hr Eo Eh. pose proof (ok_timer _ _ _ _ (s_tasks _ _ Hok _ t Ht) tm) as Hti.
    rewrite Etm in Hti. assert (None = Some tm) by (apply Hti; eauto). done.
  - exists s4. split; [done|]. do 5 (split; [done|]). intros tm r. rewrite Hts.
    change (timers s3) with (timers s). change (timer_list s3) with (timer_list s).
    rewrite Hd. split; [|tauto]. intros [Hr Hn]. split; [done|]. intros Eo. apply Hn. 
    split; [congruence|done].
Qed.

(** What [task_exit] makes of the table, before the parent is woken. *)
Definition exit_view (q : Z) (u : task_t) : task_t :=
  adopt t q (chld t q (hup t me q (dying me code q u))).

Lemma s3_view q : task_table s3 !! q =
  (λ u, chld t q (hup t me q (dying me code q u))) <$> task_table s !! q.
Proof.
  unfold s3, s2, s1. rewrite !map_table_lookup. by destruct (task_table s !! q).
Qed.

Section adopted.
Context (s4 : sched) (Hs4 : untimed s4).
Let s5 := map_table (adopt t) s4.

Lemma s5_view q : task_table s5 !! q = exit_view q <$> task_table s !! q.
Proof using Hs4.
  destruct Hs4 as (_ & E & _). unfold s5. rewrite map_table_lookup, E, s3_view.
  by destruct (task_table s !! q).
Qed.

(** The dead task itself keeps its parent. *)
Lemma self_view : ∃ u, task_table s4 !! me = Some u ∧ pid u = me ∧ ppid u = ppid t ∧
  task_table s5 !! me = Some u ∧ state u = TASK_DIED.
Proof using All.
  destruct father as (Ep & Hpm & _). destruct Hs4 as (_ & E & _).
  set (u := chld t me (hup t me me t1)). exists u.
  pose proof (chld_keeps t me (hup t me me t1)) as K1.
  pose proof (hup_keeps t me me t1) as K2. cbn zeta in K1, K2. fold u in K1.
  assert (task_table s4 !! me = Some u) as Hu.
  { rewrite E, s3_view, Ht. cbn. unfold u. do 3 f_equal. unfold dying, at_slot.
    by rewrite Z.eqb_refl. }
  destruct K1 as (Ks & _ & _ & Kp & Kpp & _), K2 as (Ls & _ & _ & Lp & Lpp & _).
  assert (ppid u = ppid t) as Epp by (by rewrite Kpp, Lpp).
  split; [done|]. split; [by rewrite Kp, Lp|]. split; [done|]. split; [|by rewrite Ks, Ls].
  unfold s5. rewrite map_table_lookup, Hu. cbn. f_equal. unfold adopt.
  rewrite (proj2 (Z.eqb_neq (ppid u) (pid t))) by congruence. by rewrite andb_false_r.
Qed.

Lemma reparent_run : reparent me s4 = Ok (tt, s5).
Proof using All.
  destruct self_view as (u & Hu & Eu & Epp & _). destruct father as (Ep & _).
  unfold reparent. unfold st_bind at 1, task_at, st_deref. rewrite Hu.
  rewrite (table_loop (λ q c, if ppid c =? pid u then c <| ppid := ppid u |> else c));
    [|apply NoDup_seqZ|].
  - do 2 f_equal. apply map_table_ext. intros q c Hq. unfold adopt. rewrite Epp, Eu, Ep.
    pose proof (ok_slot _ _ _ _ (s_tasks _ _ (proj1 Hs4) q c Hq)) as Hslot.
    unfold TASK_NR in *. destruct (Z.leb_spec 2 q); case_bool_decide as Hin;
      rewrite elem_of_seqZ in Hin; try lia; done.
  - intros i s' _. unfold st_bind, st_get.
    rewrite (slot_body i (λ c, ppid c =? pid u) (λ c, c <| ppid := ppid u |>)).
    do 2 f_equal.
Qed.

Lemma adopted_family : family_ok s5.
Proof using All.
  destruct father as (Ep & Hpm & f & Hf & _). destruct Hs4 as (Hok4 & Etab & _).
  destruct (s_family _ _ Hok4) as [H1 H2 (rank & H3)].
  pose proof (map_table_dom (adopt t) s4) as Hdom. fold s5 in Hdom.
  destruct self_view as (um & Hum & _ & Eum & _). destruct (H1 _ _ Hum) as [Hpt _].
  rewrite Eum in Hpt.
  assert (∀ q c, task_table s5 !! q = Some c → ∃ u, task_table s4 !! q = Some u ∧
    (ppid c = ppid u ∧ (2 ≤ q → ppid u ≠ me) ∨ 2 ≤ q ∧ ppid u = me ∧ ppid c = ppid t)) as Hs.
  { intros q c. unfold s5. rewrite map_table_lookup, fmap_Some. intros (u & Hu & ->).
    exists u. split; [done|]. unfold adopt. rewrite Ep.
    destruct (Z.leb_spec 2 q), (Z.eqb_spec (ppid u) me); cbn [andb]; upd_simpl; auto; left; lia. }
  split.
  - intros q c Hq. destruct (Hs q c Hq) as (u & Hu & [[-> _]|(H2q & _ & ->)]).
    + destruct (H1 q u Hu). rewrite <-Hdom. auto.
    + rewrite <-Hdom. split; [done|lia].
  - by apply Hdom.
  - exists rank. intros q c Hq Hq0. destruct (Hs q c Hq) as (u & Hu & [[-> _]|(H2q & E & ->)]).
    + by apply (H3 q u).
    + specialize (H3 q u Hu Hq0) as Hr1. specialize (H3 _ _ Hum ltac:(lia)) as Hr2.
      rewrite E in Hr1. rewrite Eum in Hr2. lia.
Qed.

Lemma adopted_ok : sched_ok false s5 ∧ dead_ok s5.
Proof using All.
  pose proof adopted_family as Hfam. destruct father as (Ep & Hpm & f & Hf & _).
  destruct self_view as (um & Hum & _ & Eum & _). pose proof Hs4 as (Hok4 & Etab & _ & _ & _ & Hts).
  destruct father_ok as [_ [D1 D2]].
  split; [apply mapped_ok; [|done|done]|split].
  - intros q u. pose proof (adopt_keeps t q u) as K. cbn zeta in K. tauto.
  - intros tm r c Hr Hc Est. unfold s5 in Hc. rewrite map_table_lookup, fmap_Some in Hc.
    destruct Hc as (u & Hu & ->). destruct (adopt_keeps t (ttask r) u) as (E & _).
    rewrite E in Est. apply Hts in Hr as [Hr Ho]. apply Ho.
    rewrite Etab in Hu. by eapply (D1 tm r u).
  - intros q c c' Hq Hc Est. unfold s5 in Hq, Hc. rewrite map_table_lookup, fmap_Some in Hq, Hc.
    destruct Hq as (u & Hu & ->), Hc as (u' & Hu' & ->).
    destruct (adopt_keeps t (ppid (adopt t q u)) u') as (E & _). rewrite E in Est.
    rewrite Etab in Hu, Hu', Hum. revert Hu'. unfold adopt. rewrite Ep.
    destruct (Z.leb_spec 2 q) as [H2q|H2q], (Z.eqb_spec (ppid u) me) as [Eu|Eu];
      cbn [andb]; upd_simpl; intros Hu'; try (apply Eu; eapply D2; done).
    + apply Hpm. rewrite <-Eum. eapply (D2 me um u'); [done|by rewrite Eum|done].
    + destruct (f_parents _ (s_family _ _ (proj1 father_ok)) q u Hu) as [_ Hz].
      specialize (Hz ltac:(lia)). lia.
Qed.
End adopted.

(** The parent is waiting for the task. *)
Definition awaited (f : task_t) : bool :=
  bool_decide (state f = TASK_WAITING) && ((waitpid f =? -1) || (waitpid f =? me)).

(** The state before the switch, from the one [task_exit] has built so far. *)
Definition exit_woken (s5 : sched) : sched :=
  match task_table s5 !! ppid t with
  | Some f => if awaited f then unblocked (ppid t) EOK f s5 else s5
  | None => s5
  end.

Lemma exit_woken_ok s5 f : sched_ok false s5 → dead_ok s5 →
  task_table s5 !! ppid t = Some f →
  sched_ok false (exit_woken s5) ∧ dead_ok (exit_woken s5) ∧
  st_when (awaited f) (task_unblock (ppid t) EOK) s5 = Ok (tt, exit_woken s5).
Proof using.
  intros Hok Hd Hf. unfold exit_woken. rewrite Hf. destruct (awaited f) eqn:E; [|done].
  unfold awaited in E. apply andb_true_iff in E as [E _].
  apply bool_decide_eq_true in E.
  assert (state f ≠ TASK_RUNNING) as Hr by congruence.
  split; [by apply unblocked_ok|]. split; [by apply (unblocked_dead false)|].
  by rewrite <-(task_unblock_run false s5 (ppid t) EOK f).
Qed.
End exit.

(** ** Wait *)

(** Task [u] is a child of [me] that [waitpid(p)] waits for. *)
Definition awaits (me p : Z) (u : task_t) : Prop := ppid u = me ∧ (p = pid u ∨ p = -1).

Definition dead_child (s : sched) (me p i : Z) : Prop :=
  ∃ u, task_table s !! i = Some u ∧ awaits me p u ∧ state u = TASK_DIED.

Definition some_child (s : sched) (me p i : Z) : Prop :=
  ∃ u, task_table s !! i = Some u ∧ awaits me p u.

Lemma scan_spec s me p ids : ∀ acc, (∀ i, acc ≠ Scan_dead i) →
  match scan_children me p s ids acc with
  | Scan_dead i => ∃ l1 l2, ids = l1 ++ i :: l2 ∧ dead_child s me p i ∧
      ∀ j, j ∈ l1 → ¬ dead_child s me p j
  | Scan_child => (∀ j, j ∈ ids → ¬ dead_child s me p j) ∧
      (acc = Scan_child ∨ ∃ j, j ∈ ids ∧ some_child s me p j)
  | Scan_none => acc = Scan_none ∧ ∀ j, j ∈ ids → ¬ some_child s me p j
  end.
Proof.
  induction ids as [|i ids IH]; intros acc Hacc; cbn [scan_children].
  - destruct acc as [| |i]; [|auto|by destruct (Hacc i)].
    + split; [done|]. by intros j ?%elem_of_nil.
    + split; [by intros j ?%elem_of_nil|by left].
  - assert ((∀ acc', (∀ i, acc' ≠ Scan_dead i) → (acc' = acc ∨ acc' = Scan_child) →
      ¬ dead_child s me p i → (acc' = Scan_none → ¬ some_child s me p i) →
      (acc' ≠ acc → some_child s me p i) →
      match scan_children me p s ids acc' with
      | Scan_dead i0 => ∃ l1 l2, i :: ids = l1 ++ i0 :: l2 ∧ dead_child s me p i0 ∧
          ∀ j, j ∈ l1 → ¬ dead_child s me p j
      | Scan_child => (∀ j, j ∈ i :: ids → ¬ dead_child s me p j) ∧
          (acc = Scan_child ∨ ∃ j, j ∈ i :: ids ∧ some_child s me p j)
      | Scan_none => acc = Scan_none ∧ ∀ j, j ∈ i :: ids → ¬ some_child s me p j
      end)) as Hnext.
    { intros acc' Hacc' Hor Hnd Hns Hs. specialize (IH acc' Hacc').
      destruct (scan_children me p s ids acc') as [| |i0].
      - destruct IH as [-> IH]. assert (acc = Scan_none) as -> by (by destruct Hor).
        split; [done|]. intros j [->|Hj]%elem_of_cons; auto.
      - destruct IH as [H1 H2]. split; [intros j [->|Hj]%elem_of_cons; auto|].
        destruct H2 as [->|(j & Hj & Hc)]; [|right; exists j; split; [by right|done]].
        destruct acc as [| |k]; [right; exists i; split; [by left|by apply Hs]|by left|].
        by destruct (Hacc k).
      - destruct IH as (l1 & l2 & -> & H1 & H2). exists (i :: l1), l2. split; [done|].
        split; [done|]. intros j [->|Hj]%elem_of_cons; auto. }
    destruct (task_table s !! i) as [u|] eqn:Hu.
    2: { assert (¬ some_child s me p i) as Hns by (intros (v & Hv & _); congruence).
         apply Hnext; try done; [by left|]. intros (v & Hv & ? & _). by apply Hns; exists v. }
    destruct (Z.eqb_spec (ppid u) me) as [Ep|Ep]; cbn [negb].
    2: { assert (¬ some_child s me p i) as Hns by (intros (v & Hv & ? & _); congruence).
         apply Hnext; try done; [by left|]. intros (v & Hv & ? & _). by apply Hns; exists v. }
    destruct (negb (p =? pid u) && negb (p =? -1)) eqn:Em.
    { assert (¬ some_child s me p i) as Hns.
      { intros (v & Hv & _ & Hm). assert (v = u) as -> by congruence. lia. }
      apply Hnext; try done; [by left|]. intros (v & Hv & ? & _). by apply Hns; exists v. }
    assert (awaits me p u) as Haw by (split; [done|lia]).
    case_bool_decide as Est.
    + exists [], ids. split; [done|]. split; [by exists u|]. by intros j ?%elem_of_nil.
    + apply Hnext; try done; [by right|..].
      * intros (v & Hv & _ & E). congruence.
      * intros _. by exists u.
Qed.

(** The table without a dead child. *)
Section reaped.
Context (s : sched) (p c : Z) (Hinv : sched_inv s) (Hc : dead_child s (current s) p c).
Context (Hc2 : 2 ≤ c).
Let s' := s <| task_table $= delete c |>.

Lemma reaped_other q : q ≠ c → task_table s' !! q = task_table s !! q.
Proof. intros Hq. unfold s'; upd_simpl. by rewrite lookup_delete_ne. Qed.

Lemma reaped_inv : sched_inv s'.
Proof using All.
  destruct Hc as (u & Hu & [Epp _] & Est). destruct Hinv as [Hok [D1 D2]].
  pose proof (s_tasks _ _ Hok c u Hu) as Huok.
  pose proof Hok as [Htk Hcur Hidle Hl Hm Htm Hfam].
  assert (c ≠ current s) as Hcc.
  { intros ->. pose proof (ok_cur _ _ _ _ Huok I eq_refl). congruence. }
  assert (c ≠ idle_task) as Hci.
  { intros ->. destruct Hidle as (v & Hv & [E|E]); congruence. }
  assert (∀ q v, task_table s !! q = Some v → ppid v ≠ c) as Hnp.
  { intros q v Hv E. eapply (D2 q v u); [done|congruence|done]. }
  assert (∀ q, q ≠ c → task_table s !! q ≠ None → task_table s' !! q ≠ None) as Hdom.
  { intros q Hq. by rewrite reaped_other. }
  assert (∀ q v, task_table s' !! q = Some v → q ≠ c ∧ task_table s !! q = Some v) as Hsub.
  { intros q v. unfold s'; upd_simpl. rewrite lookup_delete_Some. naive_solver. }
  assert (∀ b, c ∉ wait_list s b) as Hnw.
  { intros b Hin. apply (ok_node _ _ _ _ Huok) in Hin.
    assert (is_blocked (state u)) as Hb by (apply (ok_blk _ _ _ _ Huok); congruence).
    rewrite Est in Hb. by destruct Hb as [|[|]]. }
  split; split; try done.
  - intros q v [Hq Hv]%Hsub. apply (task_ok_ext true s); [done..|]. by apply Htk.
  - by apply Hdom.
  - destruct Hidle as (v & Hv & E). exists v. by rewrite reaped_other.
  - intros b q Hq. apply Hdom; [|by eapply Hm]. intros ->. by destruct (Hnw b).
  - destruct Htm. split; try done. intros tm r Hr. apply Hdom; [|by eauto].
    intros E. rewrite <-E in Hu. by eapply (D1 tm r u).
  - destruct Hfam as [F1 F2 (rank & F3)]. split.
    + intros q v [Hq Hv]%Hsub. destruct (F1 q v Hv). split; [|done].
      apply Hdom; [by eapply Hnp|done].
    + apply Hdom; [lia|done].
    + exists rank. intros q v [Hq Hv]%Hsub. by apply F3.
  - intros tm r v Hr [_ Hv]%Hsub. by eapply D1.
  - intros q v v' [_ Hv]%Hsub [_ Hv']%Hsub. eauto.
Qed.
End reaped.

Section system.
Context {R : Type} `{!Resources R}.

Lemma on_sched_run {A} (m : ST sched A) (s : sys R) a c :
  m (sch s) = Ok (a, c) → on_sched m s = Ok (a, mk_sys c (rsrc s)).
Proof. intros E. unfold on_sched. by rewrite E. Qed.

Lemma on_rsrc_run (f : R → res R) (s : sys R) r' :
  f (rsrc s) = Ok r' → on_rsrc f s = Ok (tt, mk_sys (sch s) r').
Proof. intros E. unfold on_rsrc. by rewrite E. Qed.

Lemma of_rsrc_run {A} (f : R → res (A * R)) (s : sys R) a r' :
  f (rsrc s) = Ok (a, r') → of_rsrc f s = Ok (a, mk_sys (sch s) r').
Proof. intros E. unfold of_rsrc. by rewrite E. Qed.

Lemma task_exit_run s r r' t code : sched_inv s → task_table s !! current s = Some t →
  2 ≤ current s → exit_resources (current s) EOK r = Ok (([], Exit_released), r') →
  ∃ s5 n,
    (∀ q, task_table s5 !! q = exit_view s t code q <$> task_table s !! q) ∧
    (∀ tm rc, timers s5 !! tm = Some rc ↔ timers s !! tm = Some rc ∧ ttask rc ≠ current s) ∧
    task_exit code (mk_sys s r) = Ok (tt, mk_sys (switched n (exit_woken s t s5)) r') ∧
    sched_inv (switched n (exit_woken s t s5)) ∧ n ≠ current s.
Proof.
  intros Hinv Ht Hme Hr. destruct (running_free s t (proj1 Hinv) Ht) as (En & _ & Er).
  destruct (timer_remove_run s t code Hinv Ht Hme) as (s4 & Hrm & Hs4).
  destruct (self_view s t code Hinv Ht Hme s4 Hs4) as (um & _ & Eum & Epp & Hum & _).
  destruct (adopted_ok s t code Hinv Ht Hme s4 Hs4) as [Hok5 Hd5].
  set (s5 := map_table (adopt t) s4) in *.
  assert (∃ f, task_table s5 !! ppid t = Some f) as [f Hf].
  { destruct (father s t 0 Hinv Ht Hme) as (_ & _ & f0 & Hf0 & _).
    rewrite (s5_view s t code s4 Hs4), Hf0. eauto. }
  destruct (exit_woken_ok s t s5 f Hok5 Hd5 Hf) as (Hok6 & Hd6 & Hwake).
  destruct (schedule_ok false _ Hok6) as (n & Hn & Hsw & Hok7 & Hd7).
  exists s5, n. split; [by apply s5_view|]. split; [apply Hs4|].
  split; [|split; [split; [done|by apply Hd7]|]].
  2: { destruct (task_search_ready false _ Hok6) as (n' & Hn' & Hc).
       assert (n' = n) as -> by congruence. destruct Hc as [(v & _ & _ & Hc)|[-> _]].
       - replace (current s) with (current (exit_woken s t s5)); [done|].
         unfold exit_woken. rewrite Hf. transitivity (current s5); [by destruct (awaited s f)|].
         unfold s5. apply Hs4.
       - unfold idle_task. lia. }
  unfold task_exit.
  unfold st_bind at 1. erewrite on_sched_run by done. cbn [sch].
  unfold st_bind at 1. erewrite on_sched_run by (unfold task_at, st_deref; cbn [sch]; by rewrite Ht).
  unfold st_bind at 1, st_check. rewrite En, Er, !bool_decide_eq_true_2 by done. cbn [andb].
  unfold st_bind at 1. erewrite on_sched_run by (apply mod_task_map; cbn [sch]; congruence).
  change (at_slot _ _) with (dying (current s) code).
  unfold st_bind at 1. erewrite on_sched_run by (by apply kill_session_run).
  unfold st_bind at 1. erewrite on_sched_run by (by apply tell_father_run).
  unfold st_bind at 1. erewrite on_sched_run by exact Hrm.
  unfold task_exit_release. unfold st_bind at 1. erewrite of_rsrc_run by exact Hr. cbn [sch rsrc].
  unfold st_bind at 1. cbn [st_for st_ret]. unfold task_exit_end.
  unfold st_bind at 1. erewrite on_sched_run by (by apply (reparent_run s t code)). cbn [sch rsrc].
  cbn [sch]. fold s5.
  unfold st_bind at 1. erewrite on_sched_run
    by (unfold task_at, st_deref; cbn [sch]; by rewrite Hum).
  rewrite Epp, Eum. cbn [sch rsrc].
  unfold st_bind at 1. erewrite on_sched_run
    by (unfold task_at, st_deref; cbn [sch]; by rewrite Hf).
  unfold st_bind at 1. cbn [sch rsrc].
  change (bool_decide (state f = TASK_WAITING) &&
    ((waitpid f =? -1) || (waitpid f =? current s))) with (awaited s f).
  assert (st_when (awaited s f) (on_sched (task_unblock (ppid t) EOK)) (mk_sys s5 r') =
    Ok (tt, mk_sys (exit_woken s t s5) r')) as ->.
  { revert Hwake. destruct (awaited s f); cbn [st_when].
    - intros Hw. erewrite on_sched_run by exact Hw. done.
    - by intros [= <-]. }
  by erewrite on_sched_run by exact Hsw.
Qed.
Lemma task_fork_run s r r' t c : sched_inv s → task_table s !! current s = Some t →
  free_slot s = Some c → fork_resources (current s) c r = Ok r' →
  task_fork (mk_sys s r) = Ok (c, mk_sys (forked s t c) r').
Proof.
  intros Hinv Ht Hc Hr. destruct (running_free s t (proj1 Hinv) Ht) as (En & _ & Er).
  unfold task_fork.
  unfold st_bind at 1. erewrite on_sched_run by done. cbn [sch rsrc].
  unfold st_bind at 1. erewrite on_sched_run
    by (unfold task_at, st_deref; cbn [sch]; by rewrite Ht). cbn [sch rsrc].
  unfold st_bind at 1, st_check. rewrite En, Er, !bool_decide_eq_true_2 by done. cbn [andb].
  unfold st_bind at 1. erewrite on_sched_run
    by (unfold get_free_task, st_bind, st_get, put_task, st_mod, st_ret; cbn [sch]; by rewrite Hc).
  cbn [sch rsrc].
  unfold st_bind at 1. erewrite on_sched_run by done. cbn [sch rsrc].
  unfold st_bind at 1. erewrite on_rsrc_run by exact Hr. cbn [sch rsrc].
  unfold st_ret. do 3 f_equal. apply sched_eq; unfold forked; upd_simpl; try done.
  cbn [task_table]. by rewrite insert_insert_eq.
Qed.

Lemma waitpid_scan s r t p : task_table s !! current s = Some t →
  task_waitpid_turn p (mk_sys s r) =
  match scan_children (pid t) p s (seqZ 2 (TASK_NR - 2)) Scan_none with
  | Scan_dead i =>
      let* child := on_sched (task_at i) in
      do! on_sched (st_mod (λ s, s <| task_table $= delete i |>));
      do! on_rsrc (free_task_page i);
      st_ret (inl (pid child, status child))
  | Scan_child =>
      do! on_sched (mod_task (current s) (λ t, t <| waitpid := p |>));
      do! on_sched (task_block (current s) None TASK_WAITING (-1));
      st_ret (inr true)
  | Scan_none => st_ret (inr false)
  end (mk_sys s r).
Proof.
  intros Ht. unfold task_waitpid_turn.
  unfold st_bind at 1. erewrite on_sched_run by done. cbn [sch rsrc].
  unfold st_bind at 1. erewrite on_sched_run
    by (unfold task_at, st_deref; cbn [sch]; by rewrite Ht). cbn [sch rsrc].
  unfold st_bind at 1. by erewrite on_sched_run by done.
Qed.

Lemma task_waitpid_run s r t p : sched_inv s → task_table s !! current s = Some t →
  current s ≠ idle_task →
  (∃ c u, dead_child s (current s) p c ∧ task_table s !! c = Some u ∧ 2 ≤ c ∧
     (∀ j, 2 ≤ j < c → ¬ dead_child s (current s) p j) ∧
     ∀ r', free_task_page c r = Ok r' →
       task_waitpid_turn p (mk_sys s r) =
         Ok (inl (c, status u), mk_sys (s <| task_table $= delete c |>) r')) ∨
  (∀ c, ¬ dead_child s (current s) p c) ∧
  ((∃ c, some_child s (current s) p c) ∧
   (∃ n s', task_waitpid_turn p (mk_sys s r) =
      Ok (inr true, mk_sys (switched n s') r) ∧ sched_inv (switched n s') ∧
      n ≠ current s ∧ s' = parked (map_table (at_slot (current s) (λ t, t <| waitpid := p |>)) s)
             block_list TASK_WAITING (-1) (t <| waitpid := p |>)) ∨
   (∀ c, ¬ some_child s (current s) p c) ∧
   task_waitpid_turn p (mk_sys s r) = Ok (inr false, mk_sys s r)).
Proof.
  intros Hinv Ht Hidl. pose proof (proj1 Hinv) as Hok.
  assert (pid t = current s) as Ep by (by apply (ok_pid _ _ _ _ (s_tasks _ _ Hok _ t Ht))).
  assert (∀ j, some_child s (current s) p j → j ∈ seqZ 2 (TASK_NR - 2)) as Hrange.
  { intros j (u & Hu & Eu & _). apply elem_of_seqZ.
    pose proof (ok_slot _ _ _ _ (s_tasks _ _ Hok j u Hu)).
    destruct (f_parents _ (s_family _ _ Hok) j u Hu) as [_ Hz].
    unfold idle_task in Hidl. destruct (Z.lt_ge_cases j 2) as [Hj|Hj]; [specialize (Hz Hj)|]; lia. }
  pose proof (scan_spec s (current s) p (seqZ 2 (TASK_NR - 2)) Scan_none ltac:(done)) as Hs.
  rewrite (waitpid_scan s r t p Ht), Ep.
  destruct (scan_children _ _ _ _ _) as [| |c] eqn:E.
  - right. split; [|right].
    + intros c (u & Hu & Haw & _). assert (some_child s (current s) p c) as Hc by (by exists u).
      by eapply Hs; [apply Hrange|].
    + split; [|done]. intros c Hc. by eapply Hs; [apply Hrange|].
  - destruct Hs as [Hnd [|(j & _ & Hj)]]; [done|]. right. split; [|left].
    + intros c (u & Hu & Haw & Est). eapply Hnd; [apply Hrange; by exists u|by exists u].
    + split; [by exists j|].
      set (s1 := map_table (at_slot (current s) (λ t, t <| waitpid := p |>)) s).
      assert (sched_inv s1) as Hinv1.
      { split.
        - apply mapped_ok; [|apply mapped_family|]; try apply Hok; intros q u; unfold at_slot;
            by destruct (q =? current s).
        - destruct Hinv as [_ [D1 D2]]. unfold s1. split.
          + intros tm rc u Hr. rewrite map_table_lookup, fmap_Some. intros (v & Hv & ->).
            unfold at_slot. destruct (_ =? _); upd_simpl; by eapply D1.
          + intros q u u'. rewrite !map_table_lookup, !fmap_Some. intros (v & Hv & ->) (v' & Hv' & ->).
            assert (state (at_slot (current s) (λ t, t <| waitpid := p |>)
              (ppid (at_slot (current s) (λ t, t <| waitpid := p |>) q v)) v') = state v') as ->
              by (unfold at_slot at 1; by destruct (_ =? _)).
            assert (ppid (at_slot (current s) (λ t, t <| waitpid := p |>) q v) = ppid v) as Epp
              by (unfold at_slot; by destruct (_ =? _)).
            rewrite Epp in Hv'. eauto. }
      destruct (task_block_ok s1 None TASK_WAITING (-1)) as (n & t1 & Ht1 & Hrun & Hinv' & Hn); [done| |done|].
      { right. by right. }
      assert (t1 = t <| waitpid := p |>) as ->.
      { unfold s1 in Ht1. rewrite map_table_lookup in Ht1. cbn in Ht1.
        change (current (map_table _ s)) with (current s) in Ht1. rewrite Ht in Ht1.
        injection Ht1 as <-. unfold at_slot. by rewrite Z.eqb_refl. }
      exists n. eexists. split; [|split; [exact Hinv'|done]].
      unfold st_bind at 1. erewrite on_sched_run by (apply mod_task_map; cbn [sch]; congruence).
      unfold st_bind at 1. cbn [sch rsrc]. erewrite on_sched_run by exact Hrun. done.
  - destruct Hs as (l1 & l2 & El & Hd & Hfirst). left.
    pose proof Hd as (u & Hu & Haw & Est).
    assert (c ∈ seqZ 2 (TASK_NR - 2)) as Hin by (rewrite El; (apply elem_of_app; right; left)).
    apply elem_of_seqZ in Hin as Hin'.
    exists c, u. split; [done|]. split; [done|]. split; [lia|]. split.
    + intros j Hj. apply Hfirst.
      assert (seqZ 2 (TASK_NR - 2) !! Z.to_nat (j - 2) = Some j) as Hl.
      { rewrite lookup_seqZ. unfold TASK_NR in *. lia. }
      assert (seqZ 2 (TASK_NR - 2) !! List.length l1 = Some c) as Hl1.
      { rewrite El. by apply list_lookup_middle. }
      apply lookup_seqZ in Hl1 as [Hl1 _].
      rewrite El, lookup_app_l in Hl by lia. by eapply list_elem_of_lookup_2.
    + intros r' Hr. unfold st_bind at 1. erewrite on_sched_run
        by (unfold task_at, st_deref; cbn [sch]; by rewrite Hu). cbn [sch rsrc].
      unfold st_bind at 1. erewrite on_sched_run by done. cbn [sch rsrc].
      unfold st_bind at 1. erewrite on_rsrc_run by exact Hr. cbn [sch rsrc].
      unfold st_ret. rewrite (ok_pid _ _ _ _ (s_tasks _ _ Hok c u Hu)). done.
Qed.
End system.

(** ** Every operation keeps the invariants *)

Inductive event :=
| Yield | Block (ob : option Z) (st : task_state_t) (ms : Z) | Unblock (p reason : Z)
| Kill (p sig : Z) | Alarm (sec : Z) | Tick | Fork | Exit (code : Z) | Wait (p : Z).

Section events.
Context {R : Type} `{!Resources R}.

Definition run_event (e : event) : ST (sys R) unit :=
  match e with
  | Yield => on_sched task_yield
  | Block ob st ms =>
      let* me := on_sched running_task in on_sched (task_block me ob st ms)
  | Unblock p reason => on_sched (task_unblock p reason)
  | Kill p sig => do! on_sched (sys_kill p sig); st_ret tt
  | Alarm sec => on_sched (sys_alarm sec)
  | Tick => on_sched clock_handler
  | Fork => do! task_fork; st_ret tt
  | Exit code => task_exit code
  | Wait p => do! task_waitpid_turn p; st_ret tt
  end.

(** When an operation is safe: the idle task does not block or wait, the idle and
    the init task do not exit, a task that is unblocked is not running; there is a
    free slot for [fork] and the other subsystems grant their resources; the clock
    has not reached 2^31.  Two of the conditions are not ensured by the kernel: the
    alarm of a task that calls [alarm] is a live timer ([task_fork] copies the
    pointer, see [fork_shares_alarm] below), and the release of the resources of an
    exiting task neither waits nor wakes a task ([exit_write_revives] below). *)
Definition enabled (e : event) (x : sys R) : Prop :=
  let s := sch x in
  match e with
  | Yield | Kill _ _ => True
  | Block ob st ms => is_blocked st ∧ current s ≠ idle_task
  | Unblock p _ => ∃ t, task_table s !! p = Some t ∧ state t ≠ TASK_RUNNING
  | Alarm _ => ∀ t tm, task_table s !! current s = Some t → alarm t = Some tm →
      ∃ r, timers s !! tm = Some r ∧ thandler r = H_alarm
  | Tick => u32 (jiffies s + 1) < 2 ^ 31 ∧
      ∀ tm r, timers s !! tm = Some r → 0 ≤ expires r < 2 ^ 31
  | Fork => ∃ c r, free_slot s = Some c ∧ fork_resources (current s) c (rsrc x) = Ok r
  | Exit _ => 2 ≤ current s ∧ ∃ r, exit_resources (current s) EOK (rsrc x) = Ok (([], Exit_released), r)
  | Wait p => current s ≠ idle_task ∧
      ∀ c, dead_child s (current s) p c → ∃ r, free_task_page c (rsrc x) = Ok r
  end.

Lemma set_jiffies_inv s j : sched_inv s → sched_inv (s <| jiffies := j |>).
Proof.
  intros [[Htk Hcur Hidle Hl Hm Htm Hfam] Hd]. split; [split; try done|by destruct Hd].
  - intros q t Ht. by destruct (Htk q t Ht).
  - by destruct Htm.
  - by destruct Hfam.
Qed.

Lemma yield_inv s : sched_inv s → ∃ s', schedule s = Ok (tt, s') ∧ sched_inv s'.
Proof.
  intros [Hok Hd]. destruct (schedule_ok true s Hok) as (n & _ & Hn & H1 & H2).
  exists (switched n s). split; [done|]. split; auto.
Qed.

Lemma alarm_inv s sec : sched_inv s →
  (∀ t tm, task_table s !! current s = Some t → alarm t = Some tm →
    ∃ r, timers s !! tm = Some r ∧ thandler r = H_alarm) →
  ∃ s', sys_alarm sec s = Ok (tt, s') ∧ sched_inv s'.
Proof.
  intros [Hok Hd] Hal. destruct (task_table s !! current s) as [t|] eqn:Ht;
    [|by destruct (s_cur _ _ Hok)].
  unfold sys_alarm. unfold st_bind at 1, running_task, st_gets. unfold st_bind at 1.
  unfold task_at at 1, st_deref at 1. rewrite Ht.
  assert (∃ s1, (match alarm t with Some tm => timer_put tm | None => st_ret tt end) s = Ok (tt, s1) ∧
    sched_ok true s1 ∧ dead_ok s1 ∧ task_table s1 = task_table s ∧ current s1 = current s)
    as (s1 & Hrun & Hok1 & Hd1 & Etab & Ecur).
  { destruct (alarm t) as [tm|] eqn:Ea; [|by exists s].
    destruct (Hal t tm eq_refl Ea) as (r & Hr & Hh). rewrite (timer_put_run tm s r); [|done|].
    - eexists; split; [done|]. split; [eapply drop_timer_ok; [done|exact Hr|congruence]|].
      split; [by apply drop_timer_dead|done].
    - apply (tl_dom _ (s_timers _ _ Hok)). congruence. }
  unfold st_bind at 1. rewrite Hrun. unfold st_bind.
  rewrite timer_add_run by apply Hok1.
  assert (task_table (with_timer H_alarm (sec * 1000) s1) !! current s = Some t) as Ht1
    by (unfold with_timer; upd_simpl; by rewrite Etab).
  assert (sched_ok true (with_timer H_alarm (sec * 1000) s1)) as Hok2 by (by apply with_timer_device).
  erewrite mod_task_run by exact Ht1. eexists; split; [done|].
  assert (dead_ok (with_timer H_alarm (sec * 1000) s1)) as Hd2.
  { destruct Hd1 as [D1 D2]. split; [|done]. intros tm r u Hr Hu.
    rewrite with_timer_lookup in Hr. destruct Hr as [[-> ->]|Hr]; [|by eapply D1].
    unfold new_timer in Hu; cbn [ttask] in Hu.
    change (task_table (with_timer H_alarm (sec * 1000) s1)) with (task_table s1) in Hu.
    rewrite Etab, Ecur, Ht in Hu. injection Hu as <-.
    by rewrite (proj2 (proj2 (running_free s t Hok Ht))). }
  split; [by eapply put_role_ok|by eapply put_role_dead].
Qed.

Lemma tick_inv s : sched_inv s → u32 (jiffies s + 1) < 2 ^ 31 →
  (∀ tm r, timers s !! tm = Some r → 0 ≤ expires r < 2 ^ 31) →
  ∃ s', clock_handler s = Ok (tt, s') ∧ sched_inv s'.
Proof.
  intros Hinv Hj Hx. pose proof (set_jiffies_inv s (u32 (jiffies s + 1)) Hinv) as [Hok1 Hd1].
  set (s1 := s <| jiffies := u32 (jiffies s + 1) |>) in *.
  destruct (timer_wakeup_ok true s1 Hok1) as (s2 & Hrun & (Hok2 & Hd2 & _) & _).
  { eapply Z.lt_trans; [exact Hj|reflexivity]. }
  { done. }
  unfold clock_handler. unfold st_bind at 1, st_mod.
  change (s <| jiffies $= λ j, u32 (j + 1) |>) with s1.
  unfold st_bind at 1. rewrite Hrun. unfold st_bind, running_task, st_gets, st_get.
  destruct (task_table s2 !! current s2) as [t|] eqn:Ht; [|by destruct (s_cur _ _ Hok2)].
  erewrite mod_task_run by exact Ht. unfold task_at, st_deref. upd_simpl.
  rewrite lookup_insert_eq. upd_simpl.
  set (s3 := s2 <| task_table $= _ |>).
  assert (sched_inv s3) as Hinv3.
  { split; [by eapply put_role_ok|eapply put_role_dead; [exact Ht|done|auto]]. }
  destruct (ticks t - 1 =? 0); cbn [st_when]; [by apply yield_inv|by exists s3].
Qed.

(** C16: every operation of the scheduler, the timers and the process calls that is
    performed in a state satisfying the invariants, under the conditions of
    [enabled], fails no assertion and touches no dead object, and establishes the
    invariants again: exactly the current task is RUNNING, exactly the blocked tasks
    are on exactly one wait list, once; task timeouts and the tasks that sleep on
    them match; the timer list is sorted and holds the allocated timers once; dead
    tasks own no timer and no children; the parents form a tree.  The conditions
    include that the alarm pointer of a task that calls [alarm] is live, and that
    the release of the resources of a task that exits does not wait. *)
Theorem task_ops_safe (e : event) (x : sys R) (Hinv : sched_inv (sch x))
    (He : enabled e x) :
  ∃ x', run_event e x = Ok (tt, x') ∧ sched_inv (sch x').
Proof.
  pose proof Hinv as [Hok Hd]. destruct x as [s r]. cbn [sch] in *.
  destruct (task_table s !! current s) as [t|] eqn:Ht; [|by destruct (s_cur _ _ Hok)].
  destruct e; cbn [run_event enabled] in *; cbn [sch rsrc] in *.
  - destruct (yield_inv s Hinv) as (s' & Hrun & Hinv').
    exists (mk_sys s' r). by rewrite (on_sched_run _ (mk_sys s r) tt s').
  - destruct He as [Hst Hidl].
    destruct (task_block_ok s ob st ms Hinv Hst Hidl) as (n & t1 & _ & Hrun & Hinv' & _).
    unfold st_bind. erewrite on_sched_run by done. erewrite on_sched_run by exact Hrun. eauto.
  - destruct He as (u & Hu & Hst). erewrite on_sched_run
      by (by apply (task_unblock_run true s p reason u)).
    eexists; split; [done|]. split; [by apply unblocked_ok|by apply (unblocked_dead true)].
  - destruct (sys_kill_ok true (λ _, True) s p sig Hok I) as (v & s' & Hrun & (H1 & H2 & _) & _).
    unfold st_bind. erewrite on_sched_run by exact Hrun. eexists; split; [done|]. split; auto.
  - destruct (alarm_inv s sec Hinv He) as (s' & Hrun & Hinv').
    erewrite on_sched_run by exact Hrun. eauto.
  - destruct (tick_inv s Hinv) as (s' & Hrun & Hinv'); [apply He..|].
    erewrite on_sched_run by exact Hrun. eauto.
  - destruct He as (c & r' & Hc & Hr). unfold st_bind.
    rewrite (task_fork_run s r r' t c) by done. eexists; split; [done|]. by apply forked_inv.
  - destruct He as (Hme & r' & Hr).
    destruct (task_exit_run s r r' t code Hinv Ht Hme Hr) as (s5 & n & _ & _ & -> & ? & _). eauto.
  - destruct He as [Hidl Hfree].
    destruct (task_waitpid_run s r t p Hinv Ht Hidl)
      as [(c & u & Hdc & _ & Hc2 & _ & Hrun)|[_ [(_ & n & s' & Hrun & ? & _)|[_ Hrun]]]];
      unfold st_bind; [|rewrite Hrun; eauto..].
    destruct (Hfree c Hdc) as [r' Hr]. rewrite (Hrun r' Hr). eexists; split; [done|].
    by apply (reaped_inv s p c).
Qed.
End events.

(** A task across a switch. *)
Lemma switched_view n s q u : task_table s !! q = Some u →
  ∃ u', task_table (switched n s) !! q = Some u' ∧ signal u' = signal u ∧
    ppid u' = ppid u ∧ status u' = status u ∧ node u' = node u ∧
    state u' = (if decide (q = n) then TASK_RUNNING
                else if decide (q = current s ∧ state u = TASK_RUNNING) then TASK_READY
                else state u).
Proof.
  intros Hu.
  assert (∀ v, signal (leave v) = signal v ∧ ppid (leave v) = ppid v ∧
    status (leave v) = status v ∧ node (leave v) = node v) as Hl.
  { intros v. unfold leave. destruct (bool_decide _); upd_simpl; by destruct (ticks v =? 0). }
  destruct (leave_keeps u) as (_ & _ & _ & _ & Est). destruct (Hl u) as (L1 & L2 & L3 & L4).
  unfold switched; upd_simpl.
  destruct (decide (q = n)) as [->|Hn].
  - rewrite lookup_alter_eq. destruct (decide (n = current s)) as [->|].
    + rewrite lookup_alter_eq, Hu. eexists; split; [done|]. upd_simpl. auto.
    + rewrite lookup_alter_ne, Hu by done. eexists; split; [done|]. upd_simpl. auto.
  - rewrite lookup_alter_ne by done. destruct (decide (q = current s)) as [->|Hq].
    + rewrite lookup_alter_eq, Hu. eexists; split; [done|]. do 4 (split; [done|]).
      rewrite Est. destruct (decide (state u = TASK_RUNNING)) as [E|E].
      * by rewrite decide_True.
      * by rewrite decide_False by tauto.
    + rewrite lookup_alter_ne, Hu by done. eexists; split; [done|]. do 4 (split; [done|]).
      by rewrite decide_False by tauto.
Qed.

(** A task across the wakeup of the parent. *)
Lemma exit_woken_view s t s5 q u : task_table s5 !! q = Some u →
  ∃ u', task_table (exit_woken s t s5) !! q = Some u' ∧ signal u' = signal u ∧
    ppid u' = ppid u ∧
    (u' = u ∨ q = ppid t ∧ awaited s u = true) ∧
    (q = ppid t → awaited s u = true → state u' = TASK_READY ∧ status u' = EOK ∧ node u' = None).
Proof.
  intros Hu. unfold exit_woken. destruct (task_table s5 !! ppid t) as [f|] eqn:Hf.
  2: { exists u. split; [done|]. do 2 (split; [done|]). split; [by left|].
       intros ->. congruence. }
  destruct (awaited s f) eqn:Ea.
  2: { exists u. split; [done|]. do 2 (split; [done|]). split; [by left|].
       intros -> ?. congruence. }
  destruct (decide (q = ppid t)) as [->|Hq].
  - assert (u = f) as -> by congruence. eexists. split; [apply (unblocked_table s5 (ppid t) EOK f Hf); by left|].
    upd_simpl. auto 6.
  - exists u. split; [apply (unblocked_table s5 (ppid t) EOK f Hf); by right|]. do 2 (split; [done|]).
    split; [by left|]. intros; done.
Qed.

(** ** What the operations do *)

(** [schedule], called with the current task running, blocked or dead, always
    finds a task: a READY one other than the current task when there is one, the
    idle task otherwise.  That task becomes the current one and RUNNING, the
    task that leaves becomes READY if it was running and gets its time slice
    back when it had used it up, and no other task changes. *)
Theorem schedule_picks (strict : bool) (s : sched) (Hok : sched_ok strict s) :
  ∃ n, schedule s = Ok (tt, switched n s) ∧
    (candidate TASK_READY s n ∨ n = idle_task ∧ ∀ q, ¬ candidate TASK_READY s q) ∧
    current (switched n s) = n ∧
    (∃ t, task_table (switched n s) !! n = Some t ∧ state t = TASK_RUNNING) ∧
    (∀ t, current s ≠ n → task_table s !! current s = Some t →
      ∃ t', task_table (switched n s) !! current s = Some t' ∧
        state t' = (if decide (state t = TASK_RUNNING) then TASK_READY else state t) ∧
        ticks t' = (if ticks t =? 0 then priority t else ticks t)) ∧
    (∀ q, q ≠ n → q ≠ current s → task_table (switched n s) !! q = task_table s !! q).
Proof.
  destruct (task_search_ready strict s Hok) as (n & Hn & Hc). exists n.
  destruct (search_entry strict s n Hok Hn) as (t & Ht & _).
  split; [eapply schedule_run; [done|done|congruence]|]. split; [done|]. split; [done|].
  unfold switched; upd_simpl. split; [|split].
  - rewrite lookup_alter_eq. destruct (decide (n = current s)) as [->|Hne].
    + rewrite lookup_alter_eq, Ht. eexists; split; [done|]. done.
    + rewrite lookup_alter_ne, Ht by done. eexists; split; [done|]. done.
  - intros u Hne Hu. rewrite lookup_alter_ne, lookup_alter_eq, Hu by done. eexists; split; [done|].
    destruct (leave_keeps u) as (_ & _ & _ & _ & E). split; [done|]. unfold leave.
    destruct (bool_decide _); upd_simpl; by destruct (ticks u =? 0).
  - intros q H1 H2. by rewrite !lookup_alter_ne.
Qed.

(** C24: [timer_wakeup] terminates; no expired timer is left, and a timer that has not
    expired is only gone if it is the timeout of a task the signal of an expired
    alarm woke; every task whose timeout has expired is READY (with status [-ETIME],
    or [-EINTR] when the signal of an expired alarm came first); a task that owns no
    expired timer is not touched, nor are its timers. *)
Theorem timer_wakeup_fires (s : sched) (Hinv : sched_inv s) (Hj : jiffies s < u32 EOF)
    (Hx : ∀ tm r, timers s !! tm = Some r → 0 ≤ expires r < 2 ^ 31) :
  ∃ s', timer_wakeup s = Ok (tt, s') ∧ sched_inv s' ∧ current s' = current s ∧
    (∀ tm r, timers s' !! tm = Some r → timers s !! tm = Some r ∧ jiffies s < expires r) ∧
    (∀ tm r, timers s !! tm = Some r → jiffies s < expires r →
      timers s' !! tm = Some r ∨ thandler r = H_none ∧ ∃ t', task_table s' !! ttask r = Some t' ∧
        state t' = TASK_READY ∧ (status t' = - ETIME ∨ status t' = - EINTR)) ∧
    (∀ q t tm r, task_table s !! q = Some t → timer t = Some tm → timers s !! tm = Some r →
      expires r ≤ jiffies s → ∃ t', task_table s' !! q = Some t' ∧ state t' = TASK_READY ∧
        (status t' = - ETIME ∨ status t' = - EINTR)) ∧
    (∀ q, (∀ tm r, timers s !! tm = Some r → ttask r = q → jiffies s < expires r) →
      task_table s' !! q = task_table s !! q ∧
      ∀ tm r, timers s !! tm = Some r → ttask r = q → timers s' !! tm = Some r).
Proof.
  destruct Hinv as [Hok Hd].
  destruct (timer_wakeup_ok true s Hok Hj Hx) as (s' & Hrun & (Hok' & Hd' & Hw) & Hlate & Hfired).
  exists s'. split; [done|]. split; [split; auto|]. split; [apply Hw|]. split; [|split; [|split]].
  - intros tm r Hr. split; [by apply (w_timers _ _ _ Hw)|by eapply Hlate].
  - intros tm r Hr Hl. by apply (w_live _ _ _ Hw).
  - intros q t tm r Ht Etm Hr Hdue. by eapply (Hfired q t tm r).
  - intros q Hq. assert (¬ due_owner s q) as Hn.
    { intros (tm & r & [Hr Hdue] & E). specialize (Hq tm r Hr E). lia. }
    split; [by apply (w_rest _ _ _ Hw)|]. intros tm r Hr E.
    apply (w_keep _ _ _ Hw); [by rewrite E|done].
Qed.

Section calls.
Context {R : Type} `{!Resources R}.

(** [task_fork] gives the child the lowest free slot of the task table and a
    copy of the parent in which only the pid, the parent, the time slice and the
    state differ, leaves every other task alone and returns the child's pid;
    without a free slot it panics. *)
Theorem fork_copies (s : sched) (r r' : R) (t : task_t) (Hinv : sched_inv s)
    (Ht : task_table s !! current s = Some t)
    (Hr : ∀ c, free_slot s = Some c → fork_resources (current s) c r = Ok r') :
  match free_slot s with
  | None => task_fork (mk_sys s r) = Stop Assert
  | Some c => 0 ≤ c < TASK_NR ∧ task_table s !! c = None ∧
      (∀ i, 0 ≤ i < c → task_table s !! i ≠ None) ∧
      ∃ s', task_fork (mk_sys s r) = Ok (c, mk_sys s' r') ∧ sched_inv s' ∧
        task_table s' !! c = Some (t <| pid := c |> <| ppid := current s |>
          <| ticks := priority t |> <| state := TASK_READY |>) ∧
        ∀ q, q ≠ c → task_table s' !! q = task_table s !! q
  end.
Proof.
  destruct (free_slot s) as [c|] eqn:Hc.
  - destruct (free_slot_spec s c Hc) as (H1 & H2 & H3). do 3 (split; [done|]).
    exists (forked s t c). split; [by apply task_fork_run; auto|].
    split; [by apply forked_inv|]. unfold forked; upd_simpl. split.
    + rewrite lookup_insert_eq. unfold child_of.
      by rewrite (ok_pid _ _ _ _ (s_tasks _ _ (proj1 Hinv) _ t Ht)).
    + intros q Hq. by rewrite lookup_insert_ne.
  - destruct (running_free s t (proj1 Hinv) Ht) as (En & _ & Er). unfold task_fork.
    unfold st_bind at 1. erewrite on_sched_run by done. cbn [sch rsrc].
    unfold st_bind at 1. erewrite on_sched_run
      by (unfold task_at, st_deref; cbn [sch]; by rewrite Ht). cbn [sch rsrc].
    unfold st_bind at 1, st_check. rewrite En, Er, !bool_decide_eq_true_2 by done. cbn [andb].
    unfold st_bind at 1, on_sched, get_free_task, st_bind, st_get. cbn [sch]. by rewrite Hc.
Qed.

(** C8: [task_exit] of an ordinary task, when the release of its resources neither
    waits nor wakes a task (no dirty inode to write, no contended lock), never
    returns to it: the task is left DIED with its exit code, without timers and
    without children, which go to its parent; a dying session leader sends SIGHUP to
    its whole session; the parent gets SIGCHLD, and is made ready, off its wait list
    and with status [EOK], if it is WAITING and its last [waitpid] asked for this
    task or for any (whatever it is waiting for now).  A release that waits undoes
    it: see [exit_write_revives] below. *)
Theorem exit_notifies (s : sched) (r r' : R) (t : task_t) (code : Z)
    (Hinv : sched_inv s) (Ht : task_table s !! current s = Some t)
    (Hme : 2 ≤ current s) (Hr : exit_resources (current s) EOK r = Ok (([], Exit_released), r')) :
  ∃ s', task_exit code (mk_sys s r) = Ok (tt, mk_sys s' r') ∧ sched_inv s' ∧
    (∃ u, task_table s' !! current s = Some u ∧ state u = TASK_DIED ∧ status u = code) ∧
    (∀ tm rc, timers s' !! tm = Some rc → ttask rc ≠ current s) ∧
    (∀ q u, task_table s' !! q = Some u → ppid u ≠ current s) ∧
    (∀ q u, task_table s !! q = Some u → ppid u = current s →
      ∃ u', task_table s' !! q = Some u' ∧ ppid u' = ppid t) ∧
    (∀ q u, task_leader t → q ≠ current s → task_table s !! q = Some u → sid u = sid t →
      ∃ u', task_table s' !! q = Some u' ∧ Z.testbit (signal u') (SIGHUP - 1)) ∧
    (∀ f, task_table s !! ppid t = Some f →
      ∃ f', task_table s' !! ppid t = Some f' ∧
        (ppid t ≠ 0 → Z.testbit (signal f') (SIGCHLD - 1)) ∧
        (state f = TASK_WAITING → waitpid f = -1 ∨ waitpid f = current s →
          (state f' = TASK_READY ∨ state f' = TASK_RUNNING) ∧ status f' = EOK ∧ node f' = None)).
Proof.
  destruct (task_exit_run s r r' t code Hinv Ht Hme Hr) as (s5 & n & Htab & Htim & Hrun & Hinv' & Hnme).
  destruct (father s t code Hinv Ht Hme) as (Ep & Hpm & _).
  set (s6 := exit_woken s t s5) in *. set (s' := switched n s6) in *.
  assert (∀ q u, task_table s !! q = Some u →
    task_table s5 !! q = Some (exit_view s t code q u)) as H5 by (intros q u Hu; by rewrite Htab, Hu).
  assert (∀ q u, task_table s !! q = Some u → ∃ u', task_table s' !! q = Some u' ∧
    signal u' = signal (exit_view s t code q u) ∧ ppid u' = ppid (exit_view s t code q u)) as Hall.
  { intros q u Hu. destruct (exit_woken_view s t s5 q _ (H5 q u Hu)) as (u6 & Hu6 & S6 & P6 & _).
    destruct (switched_view n s6 q u6 Hu6) as (u' & Hu' & S' & P' & _). exists u'.
    split; [done|]. split; congruence. }
  assert (∃ u, task_table s' !! current s = Some u ∧ state u = TASK_DIED ∧ status u = code) as Hdead.
  { assert (exit_view s t code (current s) t = adopt t (current s) (chld t (current s)
      (hup t (current s) (current s) (t <| state := TASK_DIED |> <| status := code |>)))) as Ev.
    { unfold exit_view, dying, at_slot. by rewrite Z.eqb_refl. }
    assert (state (exit_view s t code (current s) t) = TASK_DIED ∧
      status (exit_view s t code (current s) t) = code) as [Es Ec].
    { rewrite Ev. unfold adopt, chld, hup. destruct (_ && _), (_ && _), (_ && _); done. }
    destruct (exit_woken_view s t s5 _ _ (H5 _ _ Ht)) as (u6 & Hu6 & _ & _ & [->|[E _]] & _);
      [|by destruct Hpm].
    destruct (switched_view n s6 _ _ Hu6) as (u' & Hu' & _ & _ & St & _ & Sta).
    exists u'. split; [done|]. split; [|congruence]. rewrite Sta, Es.
    rewrite decide_False by done. by rewrite decide_False by naive_solver. }
  assert (∀ q u, q ≠ current s → exit_view s t code q u =
    adopt t q (chld t q (hup t (current s) q u))) as Hview.
  { intros q u Hq. unfold exit_view, dying, at_slot. by rewrite (proj2 (Z.eqb_neq q (current s))). }
  exists s'. split; [done|]. split; [done|]. split; [done|].
  split; [|split; [|split; [|split]]].
  - intros tm rc Hrc E. apply (Htim tm rc); [|done]. revert Hrc. unfold s', s6, exit_woken.
    destruct (task_table s5 !! ppid t) as [f|]; [|done]. destruct (awaited s f); [|done].
    unfold switched, unblocked; upd_simpl. cbn [timers]. destruct (timer f); [|done].
    by intros [_ ?]%lookup_delete_Some.
  - intros q u Hq E. destruct Hdead as (v & Hv & Ed & _).
    destruct Hinv' as [_ [_ D2]]. eapply (D2 q u v); [done|congruence|done].
  - intros q u Hq E. destruct (Hall q u Hq) as (u' & Hu' & _ & P). exists u'. split; [done|].
    destruct (f_parents _ (s_family _ _ (proj1 Hinv)) q u Hq) as [_ Hz].
    rewrite P, Hview by (intros ->; assert (u = t) as -> by congruence; congruence).
    unfold adopt. destruct (chld_keeps t q (hup t (current s) q u)) as (_ & _ & _ & _ & -> & _).
    destruct (hup_keeps t (current s) q u) as (_ & _ & _ & _ & -> & _).
    rewrite E, Ep, Z.eqb_refl, (proj2 (Z.leb_le 2 q)); [done|].
    destruct (Z.lt_ge_cases q 2) as [Hlt|]; [|done]. specialize (Hz Hlt). lia.
  - intros q u Hl Hne Hq Es. destruct (Hall q u Hq) as (u' & Hu' & S & _). exists u'.
    split; [done|]. rewrite S, Hview by done. unfold adopt, chld, hup.
    rewrite (proj2 (Z.eqb_neq (current s) q)) by done. rewrite Es, Z.eqb_refl.
    rewrite (Is_true_true_1 _ Hl).
    cbn [negb andb]. destruct (_ && (q =? _)), (_ && (_ =? pid t)); upd_simpl;
      rewrite ?Z.lor_spec; unfold SIGMASK; rewrite ?Z.shiftl_1_l, ?Z.pow2_bits_true
        by (unfold SIGHUP; lia); rewrite ?orb_true_r; done.
  - intros f Hf. destruct (Hall _ f Hf) as (f' & Hf' & S & _). exists f'. split; [done|].
    rewrite Hview in S by done. split.
    + intros H0. rewrite S. unfold adopt, chld. rewrite Z.eqb_refl, (proj2 (Z.eqb_neq _ 0)) by done.
      cbn [negb andb]. destruct (_ && _); upd_simpl; rewrite Z.lor_spec; unfold SIGMASK;
        rewrite Z.shiftl_1_l, Z.pow2_bits_true by (unfold SIGCHLD; lia); by rewrite orb_true_r.
    + intros Est Hw. destruct (exit_woken_view s t s5 _ _ (H5 _ f Hf)) as (u6 & Hu6 & _ & _ & _ & Hwk).
      destruct Hwk as (K1 & K2 & K3); [done| |].
      { rewrite Hview by done. unfold awaited.
        destruct (adopt_keeps t (ppid t) (chld t (ppid t) (hup t (current s) (ppid t) f)))
          as (-> & _ & _ & _ & ->).
        destruct (chld_keeps t (ppid t) (hup t (current s) (ppid t) f)) as (-> & _ & _ & _ & _ & ->).
        destruct (hup_keeps t (current s) (ppid t) f) as (-> & _ & _ & _ & _ & ->).
        rewrite Est, bool_decide_eq_true_2 by done. cbn [andb]. lia. }
      destruct (switched_view n s6 _ u6 Hu6) as (v & Hv & _ & _ & S1 & S2 & S3).
      assert (v = f') as -> by (unfold s' in Hf'; congruence).
      rewrite S1, S2, S3, K1, K2, K3. repeat case_decide; auto.
Qed.

(** C17: one turn of [task_waitpid] reaps the dead awaited child of the lowest slot
    when there is one, returning its pid and exit code and freeing that slot only;
    otherwise the task blocks in TASK_WAITING with [waitpid] recorded when it has
    an awaited child, and the call fails, changing nothing, when it has none. *)
Theorem waitpid_reaps (s : sched) (r r' : R) (t : task_t) (p : Z) (Hinv : sched_inv s)
    (Ht : task_table s !! current s = Some t) (Hidl : current s ≠ idle_task)
    (Hr : ∀ c, dead_child s (current s) p c → free_task_page c r = Ok r') :
  (∃ c u s', dead_child s (current s) p c ∧ task_table s !! c = Some u ∧
     (∀ j, 2 ≤ j < c → ¬ dead_child s (current s) p j) ∧
     task_waitpid_turn p (mk_sys s r) = Ok (inl (c, status u), mk_sys s' r') ∧
     sched_inv s' ∧ task_table s' !! c = None ∧
     ∀ q, q ≠ c → task_table s' !! q = task_table s !! q) ∨
  (∀ c, ¬ dead_child s (current s) p c) ∧
  ((∃ c, some_child s (current s) p c) ∧
   (∃ s', task_waitpid_turn p (mk_sys s r) = Ok (inr true, mk_sys s' r) ∧ sched_inv s' ∧
      current s' ≠ current s ∧
      ∃ u, task_table s' !! current s = Some u ∧ state u = TASK_WAITING ∧ waitpid u = p) ∨
   (∀ c, ¬ some_child s (current s) p c) ∧
   task_waitpid_turn p (mk_sys s r) = Ok (inr false, mk_sys s r)).
Proof.
  destruct (task_waitpid_run s r t p Hinv Ht Hidl)
    as [(c & u & Hdc & Hu & Hc2 & Hfst & Hrun)|[Hnd [(Hsc & n & s1 & Hrun & Hinv' & Hn & E)|Hno]]].
  - left. exists c, u, (s <| task_table $= delete c |>). do 3 (split; [done|]).
    split; [by auto|]. split; [by apply (reaped_inv s p c)|]. upd_simpl.
    split; [apply lookup_delete_eq|]. intros q Hq. by rewrite lookup_delete_ne.
  - right. split; [done|]. left. split; [done|]. exists (switched n s1).
    split; [done|]. split; [done|].
    assert (task_table s1 !! current s = Some (t <| waitpid := p |> <| node := Some block_list |>
      <| timer := None |> <| state := TASK_WAITING |>)) as Hs1.
    { subst s1. apply lookup_insert_eq. }
    assert (current s1 = current s) as Ec by (subst s1; by rewrite parked_current).
    split; [done|]. unfold switched; upd_simpl. rewrite Ec.
    rewrite lookup_alter_ne, lookup_alter_eq, Hs1 by done. eexists; split; [done|].
    destruct (leave_keeps (t <| waitpid := p |> <| node := Some block_list |>
      <| timer := None |> <| state := TASK_WAITING |>)) as (_ & _ & _ & _ & ->).
    split; [done|]. unfold leave. destruct (bool_decide _); upd_simpl; by destruct (ticks t =? 0).
  - right. split; [done|]. by right.
Qed.
End calls.

(** ** Concrete states *)

#[export] Instance no_resources : Resources unit := {|
  create_resources _ r := Ok r; fork_resources _ _ r := Ok r;
  exit_resources _ _ r := Ok (([], Exit_released), r); free_task_page _ r := Ok r |}.

Definition idle0 : task_t :=
  mk_task None TASK_READY 1 1 0 0 0 0 0 0 0 0 0 0 None None [].
Definition init1 : task_t :=
  mk_task None TASK_RUNNING 5 5 0 1000 1 0 0 0 0 0 0 0 None None [].

(** After the boot: the idle task, and init running. *)
Definition boot : sched := mk_sched (<[1 := init1]> (<[0 := idle0]> ∅)) 1 ∅ ∅ [] 0.

Lemma boot_tasks p t : task_table boot !! p = Some t →
  p = 1 ∧ t = init1 ∨ p = 0 ∧ t = idle0.
Proof.
  unfold boot; cbn [task_table]. rewrite lookup_insert_Some, lookup_insert_Some, lookup_empty.
  naive_solver.
Qed.

Lemma boot_inv : sched_inv boot.
Proof.
  split; split; try done.
  - intros p t [[-> ->]|[-> ->]]%boot_tasks; split; try done; cbn;
      first [ split; [by intros [|[|]]|done]
            | intros b; split; [done|by intros ?%elem_of_nil]
            | intros tm; split; [done|by intros (r & ? & _)] ].
  - exists idle0. split; [done|by right].
  - intros b. apply NoDup_nil_2.
  - by intros b q ?%elem_of_nil.
  - split; try done; [apply NoDup_nil_2|]. intros tm. cbn.
    split; [by intros ?%elem_of_nil|by intros []].
  - split; [|done|exists (λ p, Z.to_nat p)].
    + by intros p t [[-> ->]|[-> ->]]%boot_tasks.
    + intros p t [[-> ->]|[-> ->]]%boot_tasks; [cbn; lia|done].
  - intros p t t' [[-> ->]|[-> ->]]%boot_tasks [[? ->]|[? ->]]%boot_tasks; done.
Qed.

(** Init has forked task 2, which runs. *)
Definition demo : sched := switched 2 (forked boot init1 2).

Lemma demo_inv : sched_inv demo.
Proof.
  assert (sched_inv (forked boot init1 2)) as [Hok Hd]
    by (apply forked_inv; [apply boot_inv|done|vm_compute; done]).
  assert (task_search TASK_READY (forked boot init1 2) = Some 2) as Hn by (vm_compute; done).
  split; [by eapply switched_ok|by eapply switched_dead].
Qed.

Lemma schedule_picks_witness : ∃ n, schedule boot = Ok (tt, switched n boot) ∧
  current (switched n boot) = n.
Proof.
  destruct (schedule_picks true boot (proj1 boot_inv)) as (n & H1 & _ & H2 & _).
  exists n. split; [exact H1|exact H2].
Defined.

Lemma task_ops_safe_witness : ∃ x', run_event (Exit 3) (mk_sys demo tt) = Ok (tt, x') ∧
  sched_inv (sch x').
Proof.
  apply (task_ops_safe (Exit 3) (mk_sys demo tt) demo_inv). split; [vm_compute; discriminate|].
  exists tt. reflexivity.
Defined.

(** Init sleeps 10 ms, and two ticks later its timer is due. *)
Definition asleep : sched :=
  switched 0 (parked boot sleep_list TASK_SLEEPING 10 init1) <| jiffies := 2 |>.

Lemma asleep_inv : sched_inv asleep.
Proof.
  apply set_jiffies_inv.
  assert (is_blocked TASK_SLEEPING) as Hb by (right; by left).
  assert (sched_ok false (parked boot sleep_list TASK_SLEEPING 10 init1)) as Hok
    by (apply parked_ok; [apply boot_inv|done|done|done]).
  split; [eapply switched_ok; [exact Hok|vm_compute; done]|].
  eapply switched_dead; [exact Hok|vm_compute; done|].
  apply parked_dead; [apply boot_inv|done|done|apply boot_inv].
Qed.

Lemma timer_wakeup_fires_witness : ∃ s', timer_wakeup asleep = Ok (tt, s') ∧
  ∃ t', task_table s' !! 1 = Some t' ∧ state t' = TASK_READY.
Proof.
  destruct (timer_wakeup_fires asleep asleep_inv) as (s' & H1 & _ & _ & _ & _ & H2 & _).
  - vm_compute. reflexivity.
  - intros tm r.
    change (timers asleep) with (<[new_addr boot := new_timer H_none 10 boot]> (timers boot)).
    change (timers boot) with (∅ : gmap Z timer_t). rewrite lookup_insert_Some, lookup_empty.
    intros [[_ <-]|[_ ?]]; [vm_compute; split; congruence|discriminate].
  - exists s'. split; [exact H1|]. 
    edestruct (H2 1) as (t' & Ht' & Es & _); [reflexivity|reflexivity|reflexivity|vm_compute; discriminate|].
    exists t'. split; [exact Ht'|exact Es].
Defined.

Lemma fork_copies_witness : ∃ s', task_fork (mk_sys boot tt) = Ok (2, mk_sys s' tt) ∧ sched_inv s'.
Proof.
  pose proof (fork_copies boot tt tt init1 boot_inv eq_refl (λ _ _, eq_refl)) as H.
  change (free_slot boot) with (Some 2) in H.
  destruct H as (_ & _ & _ & s' & H1 & H2 & _). exists s'. split; [exact H1|exact H2].
Defined.

Definition child2 : task_t := default idle0 (task_table demo !! 2).

Lemma exit_notifies_witness : ∃ s', task_exit 3 (mk_sys demo tt) = Ok (tt, mk_sys s' tt) ∧
  ∃ u, task_table s' !! 2 = Some u ∧ state u = TASK_DIED ∧ status u = 3.
Proof.
  destruct (exit_notifies demo tt tt child2 3 demo_inv) as (s' & H1 & _ & H2 & _);
    [vm_compute; reflexivity|vm_compute; discriminate|reflexivity|].
  exists s'. split; [exact H1|exact H2].
Defined.

Lemma waitpid_reaps_witness : task_waitpid_turn (-1) (mk_sys boot tt) =
  Ok (inr false, mk_sys boot tt).
Proof.
  assert (∀ c, ¬ some_child boot 1 (-1) c) as Hno.
  { intros c (u & [[-> ->]|[-> ->]]%boot_tasks & [? _]); done. }
  destruct (waitpid_reaps boot tt tt init1 (-1) boot_inv) as [(c & u & s' & Hd & _)|[_ [(H & _)|H]]].
  - reflexivity.
  - vm_compute. discriminate.
  - intros c (u & Hu & Ha & _). destruct (Hno c). exists u. split; [exact Hu|exact Ha].
  - destruct Hd as (v & Hv & Ha & _). destruct (Hno c). exists v. split; [exact Hv|exact Ha].
  - destruct H as [c Hc]. destruct (Hno c Hc).
  - exact (proj2 H).
Defined.

(** The release of a task that holds a dirty inode, when no other task uses the
    disk: [iput] or [close] reaches [minix_close], which calls [bwrite]; the request
    queue is empty and the controller free, so that the driver waits for the
    interrupt, once per sector by [ide_pio_write] and once by [ide_udma_write].
    The resources are the waits that are left, for writes that succeed. *)
Definition IDE_TIMEOUT : Z := 60000.

Definition disk_release (p st : Z) (waits : nat) : res ((list Z * exit_stop) * nat) :=
  match waits with
  | O => Ok (([], Exit_released), O)
  | S n => Ok (([], Exit_blocks None IDE_TIMEOUT), n)
  end.

Definition disk_resources : Resources nat := {|
  create_resources _ n := Ok n; fork_resources _ _ n := Ok n;
  exit_resources := disk_release; free_task_page _ n := Ok n |}.

(** Task 2 exits with code 3; the disk interrupt wakes it, it is scheduled and ends
    the call. *)
Definition exit_with_write : ST (sys nat) unit :=
  do! task_exit (Resources0 := disk_resources) 3;
  do! on_sched (task_unblock 2 EOK);
  do! on_sched task_yield;
  task_exit_resume (Resources0 := disk_resources).

(** [task_block] overwrites the state DIED and the exit code: while it waits the task
    is BLOCKED, and it ends READY with status [EOK].  Its parent never sees a dead
    child, and when it is scheduled again [task_exit] returns. *)
Lemma exit_write_revives :
  match task_exit (Resources0 := disk_resources) 3 (mk_sys demo 1%nat) with
  | Ok (_, x) => (state <$> task_table (sch x) !! 2) = Some TASK_BLOCKED
  | Stop _ => False
  end ∧
  match exit_with_write (mk_sys demo 1%nat) with
  | Ok (_, x) => (state <$> task_table (sch x) !! 2) = Some TASK_READY ∧
      (status <$> task_table (sch x) !! 2) = Some EOK ∧
      task_search TASK_READY (sch x) = Some 2
  | Stop _ => False
  end.
Proof. vm_compute. repeat split. Qed.

(** [task_fork] copies the [alarm] pointer: when the child sets an alarm of its own,
    [sys_alarm] frees the timer of its parent, whose alarm never rings. *)
Definition inherited_alarm : ST (sys unit) unit :=
  do! on_sched (sys_alarm 10); do! task_fork; do! on_sched task_yield; on_sched (sys_alarm 1).

Lemma fork_shares_alarm :
  match inherited_alarm (mk_sys boot tt) with
  | Ok (_, x) =>
      (alarm <$> task_table (sch x) !! 1) ≠ Some None ∧
      map_to_list (filter (λ p : Z * timer_t, ttask p.2 = 1) (timers (sch x))) = []
  | Stop _ => False
  end.
Proof. vm_compute. split; [discriminate|reflexivity]. Qed.
