(* ===== verification/Signal.v ===== *)
(** * Signals: masks, handlers and delivery ([src/src/kernel/signal.c],
    [src/src/lib/restorer.asm])

    [task_signal] runs on the way back to user mode; it builds a frame on the user
    stack so that the handler runs and returns into [restorer].  The user stack is
    a map of 32-bit words. *)
From S2P Require Import Prelude Task.

Definition MINSIG : Z := 1.
Definition SIG_NOMASK : Z := 1073741824.
Definition SIG_ONESHOT : Z := 2147483648.
Definition SIG_DFL : Z := 0.
Definition SIG_IGN : Z := 1.

#[export] Instance sigaction_expand : Expand sigaction_t := λ a,
  mk_sigaction (handler a) (mask a) (flags a) (restorer a).

Definition has_flag (m k : Z) : bool := negb (Z.land m k =? 0).

(** ** Masks and handlers of the current task *)

Definition sys_sgetmask (t : task_t) : Z := s32 (blocked t).

Definition sys_ssetmask (newmask : Z) (t : task_t) : Z * task_t :=
  if newmask =? EOF then (- EPERM, t)
  else (s32 (blocked t),
        t <| blocked := Z.ldiff (u32 newmask) (SIGMASK SIGKILL) |>).

Definition bad_sig (sig : Z) : bool := (sig <? MINSIG) || (MAXSIG <? sig) || (sig =? SIGKILL).

Definition sys_signal (sig h rst : Z) (t : task_t) : Z * task_t :=
  if bad_sig sig then (EOF, t)
  else (h, t <| actions $= <[Z.to_nat (sig - 1) :=
                 mk_sigaction (u32 h) 0 (Z.lor SIG_ONESHOT SIG_NOMASK) (u32 rst)]> |>).

(** The third component is what is stored in [*oldaction]. *)
Definition sys_sigaction (sig : Z) (action : sigaction_t) (t : task_t)
    : res (Z * option sigaction_t * task_t) :=
  if bad_sig sig then Ok (EOF, None, t)
  else
    let i := Z.to_nat (sig - 1) in
    let! old := deref (actions t !! i) in
    let new := if has_flag (flags action) SIG_NOMASK then action <| mask := 0 |>
               else action <| mask $= λ m, Z.lor m (SIGMASK sig) |> in
    Ok (0, Some old, t <| actions $= <[i := new]> |>).

(** ** Delivery *)

(** The fields of the interrupt frame that delivery saves and changes. *)
Record intr_frame_t := mk_iframe {
  eip : Z; esp : Z; eflags : Z; eax : Z; ecx : Z; edx : Z }.

#[export] Instance iframe_expand : Expand intr_frame_t := λ f,
  mk_iframe (eip f) (esp f) (eflags f) (eax f) (ecx f) (edx f).

Abbreviation stack := (gmap Z Z).

(** The words of [signal_frame_t], from its address up. *)
Definition signal_frame (rst sig blk : Z) (f : intr_frame_t) : list Z :=
  [rst; sig; blk; eax f; ecx f; edx f; eflags f; eip f].

Fixpoint store_words (m : stack) (a : Z) (ws : list Z) : stack :=
  match ws with
  | [] => m
  | w :: ws' => <[a := w]> (store_words m (a + 4) ws')
  end.

(** The loop that looks for the signal; [MAXSIG + 1] when the map is empty. *)
Fixpoint first_signal (fuel : nat) (sig map : Z) : Z :=
  match fuel with
  | O => sig
  | S n => if has_flag map (SIGMASK sig) then sig else first_signal n (sig + 1) map
  end.

(** What the task does next: go on, or [task_exit]. *)
Inductive delivery := Go (t : task_t) (f : intr_frame_t) (m : stack) | Die (code : Z) (t : task_t).

Definition task_signal (t : task_t) (f : intr_frame_t) (m : stack) : res delivery :=
  let map := Z.ldiff (signal t) (blocked t) in
  if map =? 0 then Ok (Go t f m)
  else
    assert! negb (uid t =? 0) in
    let sig := first_signal (Z.to_nat MAXSIG) 1 map in
    let t := if sig <=? MAXSIG then t <| signal $= λ s, Z.ldiff s (SIGMASK sig) |> else t in
    let i := Z.to_nat (sig - 1) in
    let! action := deref (actions t !! i) in
    if handler action =? SIG_IGN then Ok (Go t f m)
    else if (handler action =? SIG_DFL) && (sig =? SIGCHLD) then Ok (Go t f m)
    else if handler action =? SIG_DFL then Ok (Die (SIGMASK sig) t)
    else
      let frame := u32 (esp f - 32) in
      let blk := if has_flag (flags action) SIG_NOMASK then blocked t else u32 EOF in
      let m' := store_words m frame (signal_frame (restorer action) sig blk f) in
      let f' := f <| esp := frame |> <| eip := handler action |> in
      let t' := if has_flag (flags action) SIG_ONESHOT
                then t <| actions $= <[i := action <| handler := SIG_DFL |>]> |> else t in
      Ok (Go (t' <| blocked $= λ b, Z.lor b (mask action) |>) f' m').

(** [restorer.asm], entered by the [ret] of the handler: [esp] is above the return
    address.  The words of the stack it pops, the call of [ssetmask], and the
    registers it returns to the interrupted code. *)
Definition restore (t : task_t) (e : Z) (m : stack) : res (task_t * intr_frame_t) :=
  let e := e + 4 in
  let! newmask := deref (m !! e) in
  let '(_, t') := sys_ssetmask (s32 newmask) t in
  let e := e + 4 in
  let! a := deref (m !! e) in
  let! c := deref (m !! (e + 4)) in
  let! d := deref (m !! (e + 8)) in
  let! fl := deref (m !! (e + 12)) in
  let! ip := deref (m !! (e + 16)) in
  Ok (t', mk_iframe ip (e + 20) fl a c d).

(** ** Properties *)

(** The signals of a task are those [sys_kill] accepts, and all have a handler. *)
Record signals_wf (t : task_t) : Prop := {
  sw_signal : 0 ≤ signal t < 2 ^ 31;
  sw_blocked : 0 ≤ blocked t < 2 ^ 32;
  sw_actions : List.length (actions t) = Z.to_nat MAXSIG;
  sw_masks : Forall (λ a, 0 ≤ mask a < 2 ^ 32) (actions t) }.

Lemma has_flag_shift m k : 0 ≤ k → has_flag m (Z.shiftl 1 k) = Z.testbit m k.
Proof. intros Hk. unfold has_flag. by apply land_1_shift. Qed.

Lemma first_signal_spec map n : ∀ sig, 1 ≤ sig →
  let r := first_signal n sig map in
  sig ≤ r ≤ sig + Z.of_nat n ∧ (∀ j, sig ≤ j < r → Z.testbit map (j - 1) = false) ∧
  (r < sig + Z.of_nat n → Z.testbit map (r - 1) = true).
Proof.
  induction n as [|n IH]; intros sig Hs; cbn [first_signal].
  - split; [lia|]. split; intros; lia.
  - unfold SIGMASK. rewrite has_flag_shift by lia. destruct (Z.testbit map (sig - 1)) eqn:E.
    + split; [lia|]. split; [intros; lia|done].
    + destruct (IH (sig + 1)) as (H1 & H2 & H3); [lia|]. split; [lia|]. split.
      * intros j Hj. destruct (decide (j = sig)) as [->|]; [done|]. apply H2. lia.
      * intros Hr. apply H3. lia.
Qed.

(** The signal that is delivered: pending, not blocked, and the first such. *)
Definition deliverable (t : task_t) (sig : Z) : Prop :=
  1 ≤ sig ≤ MAXSIG ∧ Z.testbit (signal t) (sig - 1) = true ∧
  Z.testbit (blocked t) (sig - 1) = false.

Lemma map_bit t k : 0 ≤ k →
  Z.testbit (Z.ldiff (signal t) (blocked t)) k =
  Z.testbit (signal t) k && negb (Z.testbit (blocked t) k).
Proof. intros. apply Z.ldiff_spec. Qed.

Lemma first_deliverable t : signals_wf t → Z.ldiff (signal t) (blocked t) ≠ 0 →
  let sig := first_signal (Z.to_nat MAXSIG) 1 (Z.ldiff (signal t) (blocked t)) in
  deliverable t sig ∧ ∀ j, j < sig → ¬ deliverable t j.
Proof.
  intros [Hs Hb _ _] Hne.
  destruct (first_signal_spec (Z.ldiff (signal t) (blocked t)) (Z.to_nat MAXSIG) 1) as (H1 & H2 & H3);
    [lia|]. set (sig := first_signal _ _ _) in *. unfold MAXSIG in *.
  assert (sig ≤ 31) as Hle.
  { destruct (Z.le_gt_cases sig 31) as [|Hgt]; [done|]. exfalso. apply Hne.
    apply Z.bits_inj'. intros k Hk. rewrite Z.bits_0.
    destruct (Z.lt_ge_cases k 31) as [Hk'|Hk'].
    - replace k with (k + 1 - 1) by lia. apply H2. lia.
    - rewrite map_bit by done. by rewrite (testbit_high (signal t) 31) by lia. }
  split.
  - specialize (H3 ltac:(lia)). rewrite map_bit in H3 by lia.
    apply andb_true_iff in H3 as [E1 E2%negb_true_iff]. split; [|done]. unfold MAXSIG. lia.
  - intros j Hj ([Hj1 _] & E1 & E2). specialize (H2 j ltac:(lia)).
    rewrite map_bit, E1, E2 in H2 by lia. done.
Qed.

Lemma no_deliverable t : Z.ldiff (signal t) (blocked t) = 0 → ∀ j, ¬ deliverable t j.
Proof.
  intros E j ([Hj _] & E1 & E2). assert (Z.testbit 0 (j - 1) = true) as H
    by (rewrite <-E, map_bit, E1, E2 by lia; done). by rewrite Z.bits_0 in H.
Qed.

Lemma store_words_out ws : ∀ m a x, (∀ k, (k < List.length ws)%nat → x ≠ a + 4 * Z.of_nat k) →
  store_words m a ws !! x = m !! x.
Proof.
  induction ws as [|w ws IH]; intros m a x Hx; cbn [store_words]; [done|].
  rewrite lookup_insert_ne.
  - apply IH. intros k Hk. specialize (Hx (S k)). cbn [List.length] in Hx. lia.
  - specialize (Hx O). cbn [List.length] in Hx. lia.
Qed.

Lemma store_words_in ws : ∀ m a k, (k < List.length ws)%nat →
  store_words m a ws !! (a + 4 * Z.of_nat k) = ws !! k.
Proof.
  induction ws as [|w ws IH]; intros m a k Hk; cbn [store_words List.length] in *; [lia|].
  destruct k as [|k].
  - rewrite Z.add_0_r. by rewrite lookup_insert_eq.
  - rewrite lookup_insert_ne by lia. cbn [lookup list_lookup].
    replace (a + 4 * Z.of_nat (S k)) with (a + 4 + 4 * Z.of_nat k) by lia. apply IH. lia.
Qed.

(** The frame a handler runs on. *)
Definition framed (t : task_t) (f : intr_frame_t) (sig : Z) (a : sigaction_t) : list Z :=
  signal_frame (restorer a) sig
    (if has_flag (flags a) SIG_NOMASK then blocked t else u32 EOF) f.

(** C18: [task_signal] does nothing when no pending signal is unblocked; otherwise it
    takes the lowest-numbered one off the pending set and, following its action,
    ignores it, makes the task exit with its mask, or redirects the user program to
    the handler: on a new frame below its stack pointer that holds the restorer, the
    signal and the saved registers, with the action's mask added to the blocked set
    and a one-shot action reset, all other stack words kept. *)
Theorem signal_delivery (t : task_t) (f : intr_frame_t) (m : stack) (sig : Z) (a : sigaction_t)
    (Hwf : signals_wf t) (Hu : uid t ≠ 0) :
  ((∀ j, ¬ deliverable t j) → task_signal t f m = Ok (Go t f m)) ∧
  (deliverable t sig → (∀ j, j < sig → ¬ deliverable t j) →
   actions t !! Z.to_nat (sig - 1) = Some a →
   let t1 := t <| signal $= λ s, Z.ldiff s (SIGMASK sig) |> in
   let sp := u32 (esp f - 32) in
   if (handler a =? SIG_IGN) || (handler a =? SIG_DFL) && (sig =? SIGCHLD) then
     task_signal t f m = Ok (Go t1 f m)
   else if handler a =? SIG_DFL then task_signal t f m = Ok (Die (SIGMASK sig) t1)
   else ∃ t' m',
     task_signal t f m = Ok (Go t' (f <| esp := sp |> <| eip := handler a |>) m') ∧
     signal t' = signal t1 ∧ blocked t' = Z.lor (blocked t) (mask a) ∧
     (∀ j, j ≠ Z.to_nat (sig - 1) → actions t' !! j = actions t !! j) ∧
     actions t' !! Z.to_nat (sig - 1) =
       Some (if has_flag (flags a) SIG_ONESHOT then a <| handler := SIG_DFL |> else a) ∧
     (∀ k, (k < 8)%nat → m' !! (sp + 4 * Z.of_nat k) = framed t f sig a !! k) ∧
     ∀ x, (∀ k, (k < 8)%nat → x ≠ sp + 4 * Z.of_nat k) → m' !! x = m !! x).
Proof.
  destruct (Z.eq_dec (Z.ldiff (signal t) (blocked t)) 0) as [E|E].
  - split; [by intros _; unfold task_signal; rewrite E|].
    intros Hd. by destruct (no_deliverable t E sig).
  - destruct (first_deliverable t Hwf E) as [Hd Hmin].
    split; [intros Hno; by destruct (Hno _ Hd)|]. intros Hds Hmins Ha. cbn zeta.
    set (r := first_signal _ _ _) in *.
    assert (r = sig) as Er.
    { destruct (Z.lt_trichotomy r sig) as [H|[H|H]]; [|done|].
      - by destruct (Hmins r H). - by destruct (Hmin sig H). }
    unfold task_signal. rewrite (proj2 (Z.eqb_neq (Z.ldiff (signal t) (blocked t)) 0)) by done.
    rewrite (proj2 (Z.eqb_neq (uid t) 0)) by done. cbn [negb check res_bind].
    fold r. rewrite Er. rewrite (proj2 (Z.leb_le sig MAXSIG)) by apply Hds.
    upd_simpl. rewrite Ha. cbn [deref res_bind].
    destruct (handler a =? SIG_IGN); cbn [orb]; [done|].
    destruct (handler a =? SIG_DFL) eqn:Edfl; cbn [andb].
    { destruct (sig =? SIGCHLD); done. }
    eexists _, _; split; [done|]. upd_simpl.
    assert (Z.to_nat (sig - 1) < List.length (actions t))%nat as Hlen
      by (eapply lookup_lt_Some; exact Ha).
    destruct (has_flag (flags a) SIG_ONESHOT); upd_simpl.
    + do 2 (split; [done|]). split; [|split; [|split]].
      * intros j Hj. by rewrite list_lookup_insert_ne.
      * by rewrite list_lookup_insert_eq.
      * intros k Hk. by rewrite store_words_in.
      * intros x Hx. by rewrite store_words_out.
    + do 4 (split; [done|]). split.
      * intros k Hk. by rewrite store_words_in.
      * intros x Hx. by rewrite store_words_out.
Qed.

(** A handler that returns resumes the interrupted program with the registers it
    had, whatever it did, if it left its frame alone; the blocked set it had is put
    back (less SIGKILL) only when the action has SIG_NOMASK.  Otherwise the frame holds [EOF], which
    [sys_ssetmask] rejects: the blocked set stays as it is, so that the signals of the action's mask
    remain blocked. *)
Theorem signal_return (t u : task_t) (f : intr_frame_t) (m : stack) (sig : Z) (a : sigaction_t)
    (Hesp : 32 ≤ esp f < 2 ^ 32) (Hb : 0 ≤ blocked t < 2 ^ 32) (Hn : blocked t ≠ u32 EOF)
    (Hm : ∀ k, (k < 8)%nat → m !! (esp f - 32 + 4 * Z.of_nat k) = framed t f sig a !! k) :
  restore u (u32 (esp f - 32) + 4) m =
    Ok (if has_flag (flags a) SIG_NOMASK
        then u <| blocked := Z.ldiff (blocked t) (SIGMASK SIGKILL) |> else u, f).
Proof.
  rewrite u32_small by lia. unfold restore.
  assert (∀ k, (k < 8)%nat → ∀ x, x = esp f - 32 + 4 * Z.of_nat k →
    m !! x = framed t f sig a !! k) as Hk by (intros k Hk x ->; by apply Hm).
  rewrite (Hk 2%nat), (Hk 3%nat), (Hk 4%nat), (Hk 5%nat), (Hk 6%nat), (Hk 7%nat) by lia.
  unfold framed, signal_frame. cbn [lookup list_lookup deref res_bind].
  replace (esp f - 32 + 4 + 4 + 4 + 20) with (esp f) by lia.
  assert (mk_iframe (eip f) (esp f) (eflags f) (eax f) (ecx f) (edx f) = f) as -> by (by destruct f).
  unfold sys_ssetmask. destruct (has_flag (flags a) SIG_NOMASK).
  - assert (s32 (blocked t) ≠ EOF) as Hne.
    { intros E. apply Hn. rewrite <-E, u32_s32, u32_small by lia. done. }
    rewrite (proj2 (Z.eqb_neq _ EOF)) by done. by rewrite u32_s32, u32_small by lia.
  - rewrite s32_u32. done.
Qed.

(** No call changes the handler of SIGKILL, and [sys_ssetmask] never blocks it;
    a failing call changes nothing.  ([sys_sigaction] does accept a mask that holds
    it.) *)
Theorem sigkill_protected (t : task_t) (n sig h rst : Z) (act : sigaction_t)
    (Hb : Z.testbit (blocked t) (SIGKILL - 1) = false) :
  Z.testbit (blocked (sys_ssetmask n t).2) (SIGKILL - 1) = false ∧
  (let '(v, t') := sys_signal sig h rst t in
   actions t' !! Z.to_nat (SIGKILL - 1) = actions t !! Z.to_nat (SIGKILL - 1) ∧
   blocked t' = blocked t ∧ (bad_sig sig = true → v = EOF ∧ t' = t)) ∧
  match sys_sigaction sig act t with
  | Ok (v, old, t') =>
      actions t' !! Z.to_nat (SIGKILL - 1) = actions t !! Z.to_nat (SIGKILL - 1) ∧
      blocked t' = blocked t ∧ (bad_sig sig = true → v = EOF ∧ t' = t) ∧
      (bad_sig sig = false → old = actions t !! Z.to_nat (sig - 1))
  | Stop _ => actions t !! Z.to_nat (sig - 1) = None
  end.
Proof.
  assert (bad_sig sig = false → Z.to_nat (sig - 1) ≠ Z.to_nat (SIGKILL - 1)) as Hne.
  { unfold bad_sig, MINSIG, MAXSIG, SIGKILL. lia. }
  split; [|split].
  - unfold sys_ssetmask. destruct (n =? EOF); [done|]. cbn [snd]. upd_simpl.
    rewrite Z.ldiff_spec. unfold SIGMASK. rewrite Z.shiftl_1_l, Z.pow2_bits_true
      by (unfold SIGKILL; lia). apply andb_false_r.
  - unfold sys_signal. destruct (bad_sig sig); [done|]. upd_simpl.
    by rewrite list_lookup_insert_ne by auto.
  - unfold sys_sigaction. destruct (bad_sig sig); [done|].
    destruct (actions t !! Z.to_nat (sig - 1)) as [old|] eqn:E; [|done]. cbn [deref res_bind].
    upd_simpl. by rewrite list_lookup_insert_ne by auto.
Qed.

(** ** Concrete runs *)

(** A user task with signals 2 and 15 pending, and a handler for 2. *)
Definition demo_action : sigaction_t := mk_sigaction 4096 2 0 8192.
Definition demo_task : task_t :=
  mk_task None TASK_RUNNING 5 5 0 1000 3 1 0 0 0 0 16386 0 None None
    (<[1%nat := demo_action]> (replicate 31 (mk_sigaction 0 0 0 0))).
Definition demo_iframe : intr_frame_t := mk_iframe 100 1000 2 7 8 9.

Lemma demo_wf : signals_wf demo_task.
Proof.
  split; [done|done|done|]. apply Forall_insert_list; [|done].
  apply Forall_forall. by intros x [-> _]%elem_of_replicate.
Qed.

Lemma signal_delivery_witness : ∃ t' m',
  task_signal demo_task demo_iframe ∅ = Ok (Go t' (mk_iframe 4096 968 2 7 8 9) m') ∧
  blocked t' = 2 ∧ m' !! 972 = Some 2.
Proof.
  assert (∀ j, j < 2 → ¬ deliverable demo_task j) as Hmin.
  { intros j Hj ([H1 _] & E & _). replace j with 1 in E by lia. discriminate E. }
  destruct (signal_delivery demo_task demo_iframe ∅ 2 demo_action demo_wf ltac:(discriminate)) as [_ H].
  destruct (H ltac:(done) Hmin eq_refl) as (t' & m' & H1 & _ & H2 & _ & _ & H3 & _).
  exists t', m'. split; [exact H1|]. split; [exact H2|]. exact (H3 1%nat ltac:(lia)).
Defined.

Lemma signal_return_witness :
  let m := store_words ∅ 968 (framed demo_task demo_iframe 2 demo_action) in
  restore (demo_task <| blocked := 2 |>) 972 m =
    Ok (demo_task <| blocked := 2 |>, demo_iframe).
Proof.
  apply (signal_return demo_task (demo_task <| blocked := 2 |>) demo_iframe _ 2 demo_action).
  - done.
  - done.
  - done.
  - intros k Hk. apply (store_words_in (framed demo_task demo_iframe 2 demo_action) ∅ 968). exact Hk.
Defined.

Lemma sigkill_protected_witness : Z.testbit (blocked (sys_ssetmask 511 demo_task).2) 8 = false.
Proof. exact (proj1 (sigkill_protected demo_task 511 2 0 0 demo_action eq_refl)). Defined.
