(* ===== verification/Page.v ===== *)
(** * Physical pages and the mapping ([src/src/kernel/memory.c], first half)

    Page entries as the 32-bit words the processor reads, the physical memory,
    the translation of virtual addresses through the page directory of [cr3],
    the discovery of the memory at boot, the page allocator with its reference
    counts, the identity mapping of the kernel and the kernel page allocator.
    The theorems: which memory [memory_access] lets a system call touch, and
    the mapping that [mapping_init] establishes. *)
From S2P Require Import Prelude.
From S2P Require Bitmap.

(** ** Constants of [src/src/include/onix/memory.h] and [memory.c] *)
Definition PAGE_SIZE : Z := 0x1000.
Definition MEMORY_BASE : Z := 0x100000.
Definition KERNEL_MEMORY_SIZE : Z := 0x1000000.
Definition KERNEL_RAMDISK_MEM : Z := 0xC00000.
Definition USER_EXEC_ADDR : Z := KERNEL_MEMORY_SIZE.
Definition USER_MMAP_ADDR : Z := 0x8000000.
Definition USER_MMAP_SIZE : Z := 0x8000000.
Definition USER_STACK_TOP : Z := 0x10000000.
Definition USER_STACK_SIZE : Z := 0x200000.
Definition USER_STACK_BOTTOM : Z := USER_STACK_TOP - USER_STACK_SIZE.
Definition KERNEL_PAGE_DIR : Z := 0x1000.
Definition KERNEL_PAGE_TABLE : list Z := [0x2000; 0x3000; 0x4000; 0x5000].
Definition KERNEL_MAP_BITS : Z := 0x6000.
Definition PDE_MASK : Z := 0xFFC00000.
Definition ZONE_VALID : Z := 1.
Definition ONIX_MAGIC : Z := 0x20220205.
Definition MULTIBOOT2_MAGIC : Z := 0x36d76289.
Definition MULTIBOOT_TAG_TYPE_END : Z := 0.
Definition MULTIBOOT_TAG_TYPE_MMAP : Z := 6.
(** The makefile defines [ONIX_DEBUG]. *)
Definition USER_MEMORY : bool := true.

Definition IDX (addr : Z) : Z := Z.shiftr (u32 addr) 12.
Definition DIDX (addr : Z) : Z := Z.land (Z.shiftr (u32 addr) 22) 0x3ff.
Definition TIDX (addr : Z) : Z := Z.land (Z.shiftr (u32 addr) 12) 0x3ff.
Definition PAGE (idx : Z) : Z := u32 (Z.shiftl idx 12).
Definition ASSERT_PAGE (addr : Z) : bool := Z.land addr 0xfff =? 0.

(** [div_round_up] of [src/src/lib/stdlib.c]. *)
Definition div_round_up (num size : Z) : Z := u32 (num + size - 1) `div` size.

(** ** Page entries *)
Definition ent_bit (k w : Z) : bool := Z.testbit w k.
Arguments ent_bit : simpl never.
Definition ent_set (k : Z) (b : bool) (w : Z) : Z :=
  if b then Z.setbit w k else Z.clearbit w k.

(** The bits of [page_entry_t]. *)
Definition P_present : Z := 0.
Definition P_write : Z := 1.
Definition P_user : Z := 2.
Definition P_shared : Z := 9.
Definition P_privat : Z := 10.
Definition P_readonly : Z := 11.
Definition ent_index (w : Z) : Z := Z.shiftr w 12 `mod` 2 ^ 20.
Definition ent_set_index (i w : Z) : Z :=
  Z.lor (Z.land w 0xfff) (Z.shiftl (i `mod` 2 ^ 20) 12).

(** The entry that [entry_init] leaves. *)
Definition entry_word (index : Z) : Z :=
  ent_set_index index (ent_set P_user true (ent_set P_write true (ent_set P_present true 0))).

(** The fields of [task_t] that describe the memory of a process. *)
Record task_mem := mk_task_mem {
  t_pde : Z; t_uid : Z; t_end : Z; t_brk : Z; t_vmap : Bitmap.bitmap_t }.
#[export] Instance expand_task_mem : Expand task_mem := λ t,
  mk_task_mem (t_pde t) (t_uid t) (t_end t) (t_brk t) (t_vmap t).

(** ** The state

    [phys f i] is the 32-bit word [i] of the physical page [f]; the arrays and
    counters of the allocator are the static variables of [memory.c]; [paging]
    is the bit PG of [cr0] and [task] the process that runs. *)
Record mem := mk_mem {
  phys : Z → Z → Z;
  memory_base : Z; memory_size : Z; total_pages : Z; free_pages : Z;
  start_page : Z; memory_map : list Z; memory_map_pages : Z;
  kernel_map : Bitmap.bitmap_t;
  cr3 : Z; paging : bool;
  task : task_mem }.
#[export] Instance expand_mem : Expand mem := λ s,
  mk_mem (phys s) (memory_base s) (memory_size s) (total_pages s) (free_pages s)
    (start_page s) (memory_map s) (memory_map_pages s) (kernel_map s) (cr3 s) (paging s)
    (task s).

(** ** The memory management unit

    The physical page of a virtual address: the page directory is the page of
    [cr3], and a kernel access ignores the write and user bits ([cr0.WP] is
    never set).  Without paging the address is the physical one. *)
Definition xlate (s : mem) (va : Z) : option Z :=
  if paging s then
    let de := phys s (IDX (cr3 s)) (DIDX va) in
    if ent_bit P_present de then
      let te := phys s (ent_index de) (TIDX va) in
      if ent_bit P_present te then Some (ent_index te) else None
    else None
  else Some (IDX va).

Definition word_of (va : Z) : Z := (u32 va `mod` 4096) `div` 4.

Definition upd (p : Z → Z → Z) (f i v : Z) : Z → Z → Z :=
  λ f' i', if (f' =? f) && (i' =? i) then v else p f' i'.

Definition ldw (va : Z) : ST mem Z :=
  let* f := st_deref (λ s, xlate s va) in
  st_gets (λ s, phys s f (word_of va)).
Definition stw (va w : Z) : ST mem unit :=
  let* f := st_deref (λ s, xlate s va) in
  st_mod (λ s, s <| phys $= λ p, upd p f (word_of va) w |>).

(** [memset(page, 0, PAGE_SIZE)] and [memcpy(dst, src, PAGE_SIZE)] of pages. *)
Definition memset_page (va : Z) : ST mem unit :=
  let* f := st_deref (λ s, xlate s va) in
  st_mod (λ s, s <| phys $= λ p f' i', if f' =? f then 0 else p f' i' |>).
Definition memcpy_page (dst src : Z) : ST mem unit :=
  let* fd := st_deref (λ s, xlate s dst) in
  let* fs := st_deref (λ s, xlate s src) in
  st_mod (λ s, s <| phys $= λ p f' i', if f' =? fd then p fs i' else p f' i' |>).

(** An assignment to some fields of the entry at [va]. *)
Definition ent_mod (va : Z) (f : Z → Z) : ST mem unit :=
  let* w := ldw va in stw va (f w).

(** ** Discovery of the memory *)
Definition ldq (va : Z) : ST mem Z :=
  let* lo := ldw va in
  let* hi := ldw (u32 (va + 4)) in
  st_ret (lo + hi * 2 ^ 32).

(** A zone larger than the largest valid one so far is taken. *)
Definition take_zone (base size type : Z) : ST mem unit :=
  let* best := st_gets memory_size in
  st_when ((type =? ZONE_VALID) && (best <? size))
    (st_mod (λ s, s <| memory_base := u32 base |> <| memory_size := u32 size |>)).

(** The 20-byte descriptors [ards_t] of the loader. *)
Fixpoint ards_loop (count : nat) (ptr : Z) : ST mem unit :=
  match count with
  | O => st_ret tt
  | S count' =>
      let* base := ldq ptr in
      let* size := ldq (u32 (ptr + 8)) in
      let* type := ldw (u32 (ptr + 16)) in
      do! take_zone base size type;
      ards_loop count' (u32 (ptr + 20))
  end.

(** The search of the memory map among the tags of a multiboot2 loader. *)
Fixpoint tag_loop (fuel : nat) (tag : Z) : ST mem Z :=
  match fuel with
  | O => st_stop Fuel
  | S fuel' =>
      let* type := ldw tag in
      if (type =? MULTIBOOT_TAG_TYPE_END) || (type =? MULTIBOOT_TAG_TYPE_MMAP)
      then st_ret tag
      else
        let* size := ldw (u32 (tag + 4)) in
        tag_loop fuel' (u32 (tag + Z.land (u32 (size + 7)) (u32 (Z.lnot 7))))
  end.

Fixpoint mmap_loop (fuel : nat) (tag entry : Z) : ST mem unit :=
  match fuel with
  | O => st_stop Fuel
  | S fuel' =>
      let* size := ldw (u32 (tag + 4)) in
      if entry <? u32 (tag + size) then
        let* base := ldq entry in
        let* len := ldq (u32 (entry + 8)) in
        let* type := ldw (u32 (entry + 16)) in
        do! take_zone base len type;
        let* entry_size := ldw (u32 (tag + 8)) in
        mmap_loop fuel' tag (u32 (entry + entry_size))
      else st_ret tt
  end.

Definition memory_init (fuel : nat) (magic addr : Z) : ST mem unit :=
  do! (if magic =? ONIX_MAGIC then
         let* count := ldw addr in
         ards_loop (Z.to_nat count) (u32 (addr + 4))
       else if magic =? MULTIBOOT2_MAGIC then
         let* tag := tag_loop fuel (u32 (addr + 8)) in
         mmap_loop fuel tag (u32 (tag + 16))
       else st_stop Assert);
  let* base := st_gets memory_base in
  let* size := st_gets memory_size in
  do! st_check (base =? MEMORY_BASE);
  do! st_check (Z.land size 0xfff =? 0);
  do! st_mod (λ s, s <| total_pages := u32 (IDX size + IDX MEMORY_BASE) |>
                     <| free_pages := IDX size |>);
  st_check (negb (size <? KERNEL_MEMORY_SIZE)).

(** ** Physical pages and their references *)

(** The byte [i] of [memory_map]. *)
Definition mm_get (i : Z) : ST mem Z := st_deref (λ s, memory_map s !! Z.to_nat i).
Definition mm_set (i v : Z) : ST mem unit :=
  do! mm_get i;
  st_mod (λ s, s <| memory_map $= <[Z.to_nat i := u8 v]> |>).

(** [bits] is the memory at [KERNEL_MAP_BITS]. *)
Definition memory_map_init (bits : list Z) : ST mem unit :=
  let* total := st_gets total_pages in
  let pages := div_round_up total PAGE_SIZE in
  do! st_mod (λ s, s <| memory_map_pages := pages |>
                     <| free_pages $= λ n, u32 (n - pages) |>
                     <| memory_map := replicate (Z.to_nat (pages * PAGE_SIZE)) 0 |>
                     <| start_page := u32 (IDX MEMORY_BASE + pages) |>);
  let* start := st_gets start_page in
  do! st_for (seqZ 0 start) (λ i, mm_set i 1);
  let length := u32 (IDX KERNEL_RAMDISK_MEM - IDX MEMORY_BASE) `div` 8 in
  let* map := st_lift (Bitmap.bitmap_init bits length (IDX MEMORY_BASE)) in
  let* r := st_lift (Bitmap.bitmap_scan map pages) in
  st_mod (λ s, s <| kernel_map := r.2 |>).

(** The loop of [get_page] from the page [i] on. *)
Fixpoint get_page_from (n : nat) (i : Z) : ST mem Z :=
  match n with
  | O => st_stop Assert
  | S n' =>
      let* v := mm_get i in
      if v =? 0 then
        do! mm_set i 1;
        let* free := st_gets free_pages in
        do! st_check (0 <? free);
        do! st_mod (λ s, s <| free_pages := u32 (free - 1) |>);
        st_ret (PAGE i)
      else get_page_from n' (i + 1)
  end.

Definition get_page : ST mem Z :=
  let* start := st_gets start_page in
  let* total := st_gets total_pages in
  get_page_from (Z.to_nat (total - start)) start.

Definition put_page (addr : Z) : ST mem unit :=
  do! st_check (ASSERT_PAGE addr);
  let idx := IDX addr in
  let* start := st_gets start_page in
  let* total := st_gets total_pages in
  do! st_check ((start <=? idx) && (idx <? total));
  let* v := mm_get idx in
  do! st_check (1 <=? v);
  do! mm_set idx (v - 1);
  let* v' := mm_get idx in
  do! st_when (v' =? 0) (st_mod (λ s, s <| free_pages $= λ n, u32 (n + 1) |>));
  let* free := st_gets free_pages in
  st_check ((0 <? free) && (free <? total)).

(** ** The mapping *)
Definition entry_init (entry index : Z) : ST mem unit := stw entry (entry_word index).

Definition set_cr3 (pde : Z) : ST mem unit :=
  do! st_check (ASSERT_PAGE pde); st_mod (λ s, s <| cr3 := pde |>).
Definition enable_page : ST mem unit := st_mod (λ s, s <| paging := true |>).

(** The entry [tidx] of the kernel page table [didx], for the page [index]. *)
Definition map_kernel_page (pte tidx index : Z) : ST mem unit :=
  if index =? 0 then st_ret tt
  else
    let tentry := u32 (pte + 4 * tidx) in
    do! entry_init tentry index;
    do! ent_mod tentry (ent_set P_user USER_MEMORY);
    let* v := mm_get index in
    do! st_when (v =? 0) (st_mod (λ s, s <| free_pages $= λ n, u32 (n - 1) |>));
    mm_set index 1.

Definition map_kernel_table (didx : Z) : ST mem unit :=
  let* pte := st_deref (λ _, KERNEL_PAGE_TABLE !! Z.to_nat didx) in
  do! memset_page pte;
  let dentry := u32 (KERNEL_PAGE_DIR + 4 * didx) in
  do! entry_init dentry (IDX pte);
  do! ent_mod dentry (ent_set P_user USER_MEMORY);
  st_for (seqZ 0 1024) (λ tidx, map_kernel_page pte tidx (didx * 1024 + tidx)).

Definition mapping_init : ST mem unit :=
  do! memset_page KERNEL_PAGE_DIR;
  do! st_for (seqZ 0 4) map_kernel_table;
  do! entry_init (u32 (KERNEL_PAGE_DIR + 4 * 1023)) (IDX KERNEL_PAGE_DIR);
  do! set_cr3 KERNEL_PAGE_DIR;
  enable_page.

(** The last entry of a page directory designates the directory itself: it is
    seen as a page table, at this address. *)
Definition get_pde : Z := 0xfffff000.

Definition get_pte (vaddr : Z) (create : bool) : ST mem Z :=
  let idx := DIDX vaddr in
  let entry := u32 (get_pde + 4 * idx) in
  let* w := ldw entry in
  do! st_check (create || (negb create && ent_bit P_present w));
  let table := Z.lor PDE_MASK (Z.shiftl idx 12) in
  do! st_when (negb (ent_bit P_present w))
    (let* page := get_page in
     do! entry_init entry (IDX page);
     memset_page table);
  st_ret table.

Definition get_entry (vaddr : Z) (create : bool) : ST mem Z :=
  let* pte := get_pte vaddr create in
  st_ret (u32 (pte + 4 * TIDX vaddr)).

Definition get_paddr (vaddr : Z) : ST mem Z :=
  let* w := ldw (u32 (get_pde + 4 * DIDX vaddr)) in
  if negb (ent_bit P_present w) then st_ret 0
  else
    let* entry := get_entry vaddr false in
    let* w := ldw entry in
    if negb (ent_bit P_present w) then st_ret 0
    else st_ret (Z.lor (PAGE (ent_index w)) (Z.land vaddr 0xfff)).

(** The loop of [memory_access]. *)
Fixpoint access_loop (fuel : nat) (page last : Z) (write user : bool) : ST mem bool :=
  match fuel with
  | O => st_stop Fuel
  | S fuel' =>
      if page <? last then
        let idx := DIDX page in
        let* w := ldw (u32 (get_pde + 4 * idx)) in
        if negb (ent_bit P_present w) then st_ret false
        else
          let table := Z.lor PDE_MASK (Z.shiftl idx 12) in
          let* w := ldw (u32 (table + 4 * TIDX page)) in
          if negb (ent_bit P_present w) then st_ret false
          else if write && ent_bit P_readonly w then st_ret false
          else if user && negb (ent_bit P_user w) then st_ret false
          else access_loop fuel' (u32 (page + PAGE_SIZE)) last write user
      else st_ret true
  end.

(** There are 2^20 pages: the loop meets an absent one, or the end, before the
    fuel is used up. *)
Definition memory_access (vaddr size : Z) (write user : bool) : ST mem bool :=
  let page := PAGE (IDX vaddr) in
  let last := u32 (u32 vaddr + size) in
  access_loop (Z.to_nat 0x100001) page last write user.

(** ** Kernel pages *)
Definition scan_page (map : Bitmap.bitmap_t) (count : Z) : res (Z * Bitmap.bitmap_t) :=
  assert! 0 <? count in
  let! r := Bitmap.bitmap_scan map count in
  if r.1 =? EOF then Stop Assert else Ok (PAGE r.1, r.2).

Fixpoint reset_loop (n : nat) (map : Bitmap.bitmap_t) (i : Z) : res Bitmap.bitmap_t :=
  match n with
  | O => Ok map
  | S n' =>
      let! b := Bitmap.bitmap_test map i in
      assert! b in
      let! map' := Bitmap.bitmap_set map i false in
      reset_loop n' map' (u32 (i + 1))
  end.

Definition reset_page (map : Bitmap.bitmap_t) (addr count : Z) : res Bitmap.bitmap_t :=
  assert! ASSERT_PAGE addr in
  assert! 0 <? count in
  reset_loop (Z.to_nat count) map (IDX addr).

Definition alloc_kpage (count : Z) : ST mem Z :=
  do! st_check (0 <? count);
  let* map := st_gets kernel_map in
  let* r := st_lift (scan_page map count) in
  do! st_mod (λ s, s <| kernel_map := r.2 |>);
  st_ret r.1.

Definition free_kpage (vaddr count : Z) : ST mem unit :=
  do! st_check (ASSERT_PAGE vaddr);
  do! st_check (0 <? count);
  let* map := st_gets kernel_map in
  let* map' := st_lift (reset_page map vaddr count) in
  st_mod (λ s, s <| kernel_map := map' |>).

(** ** Addresses *)
Lemma land_3ff a : Z.land a 0x3ff = a `mod` 1024.
Proof. change 0x3ff with (Z.ones 10). by rewrite Z.land_ones. Qed.
Lemma land_fff a : Z.land a 0xfff = a `mod` 4096.
Proof. change 0xfff with (Z.ones 12). by rewrite Z.land_ones. Qed.
Lemma IDX_div a : IDX a = u32 a `div` 4096.
Proof. unfold IDX. by rewrite Z.shiftr_div_pow2. Qed.
Lemma DIDX_div a : DIDX a = (u32 a `div` 4194304) `mod` 1024.
Proof. unfold DIDX. by rewrite land_3ff, Z.shiftr_div_pow2. Qed.
Lemma TIDX_div a : TIDX a = (u32 a `div` 4096) `mod` 1024.
Proof. unfold TIDX. by rewrite land_3ff, Z.shiftr_div_pow2. Qed.
Lemma PAGE_mul i : 0 ≤ i < 2 ^ 20 → PAGE i = i * 4096.
Proof.
  intros Hi. change (2 ^ 20) with 1048576 in Hi. unfold PAGE.
  rewrite Z.shiftl_mul_pow2 by lia. change (2 ^ 12) with 4096. apply u32_small. lia.
Qed.
Lemma ASSERT_PAGE_true a : a `mod` 4096 = 0 → ASSERT_PAGE a = true.
Proof. intros H. unfold ASSERT_PAGE. by rewrite land_fff, H. Qed.
Lemma ASSERT_PAGE_inv a : ASSERT_PAGE a = true → a `mod` 4096 = 0.
Proof. unfold ASSERT_PAGE. rewrite land_fff. by intros ?%Z.eqb_eq. Qed.

(** Normalises page arithmetic, for [lia]. *)
Ltac page_lia :=
  rewrite ?IDX_div, ?DIDX_div, ?TIDX_div in *; unfold word_of in *; unfold u32 in *;
  change (2 ^ 32) with 4294967296 in *; change (2 ^ 20) with 1048576 in *;
  Z.div_mod_to_equations; lia.

Lemma IDX_PAGE i : 0 ≤ i < 2 ^ 20 → IDX (PAGE i) = i.
Proof. intros Hi. rewrite PAGE_mul by done. page_lia. Qed.
Lemma PAGE_aligned i : 0 ≤ i < 2 ^ 20 → ASSERT_PAGE (PAGE i) = true.
Proof. intros Hi. rewrite PAGE_mul by done. apply ASSERT_PAGE_true. page_lia. Qed.
Lemma IDX_range a : 0 ≤ IDX a < 2 ^ 20.
Proof. page_lia. Qed.
Lemma DIDX_range a : 0 ≤ DIDX a < 1024.
Proof. page_lia. Qed.
Lemma TIDX_range a : 0 ≤ TIDX a < 1024.
Proof. page_lia. Qed.

(** ** Fields of an entry *)
Lemma ent_bit_set k j b w : 0 ≤ k → 0 ≤ j →
  ent_bit k (ent_set j b w) = if k =? j then b else ent_bit k w.
Proof.
  intros Hk Hj. unfold ent_bit, ent_set. rewrite (Z.eqb_sym k j).
  destruct b; [rewrite Z.setbit_eqb by done|rewrite Z.clearbit_eqb].
  - by destruct (j =? k).
  - destruct (j =? k); [apply andb_false_r|apply andb_true_r].
Qed.

Lemma ent_index_range w : 0 ≤ ent_index w < 2 ^ 20.
Proof. apply Z.mod_pos_bound. lia. Qed.

Lemma ent_index_bits w k : 0 ≤ k →
  Z.testbit (ent_index w) k = (k <? 20) && Z.testbit w (k + 12).
Proof.
  intros Hk. unfold ent_index. destruct (Z.ltb_spec k 20).
  - by rewrite Z.mod_pow2_bits_low, Z.shiftr_spec by lia.
  - by rewrite Z.mod_pow2_bits_high by lia.
Qed.

Lemma ent_index_set j b w : 0 ≤ j < 12 → ent_index (ent_set j b w) = ent_index w.
Proof.
  intros Hj. apply Z.bits_inj'. intros k Hk. rewrite !ent_index_bits by done. f_equal.
  change (Z.testbit ?a ?i) with (ent_bit i a). rewrite ent_bit_set by lia.
  by rewrite (proj2 (Z.eqb_neq _ _)) by lia.
Qed.

Lemma ent_bit_set_index k i w : 0 ≤ k < 12 → ent_bit k (ent_set_index i w) = ent_bit k w.
Proof.
  intros Hk. unfold ent_bit, ent_set_index.
  rewrite Z.lor_spec, Z.land_spec, Z.shiftl_spec_low, orb_false_r by lia.
  change 0xfff with (Z.ones 12). rewrite Z.ones_spec_low by lia. apply andb_true_r.
Qed.

Lemma ent_index_set_index i w : 0 ≤ i < 2 ^ 20 → ent_index (ent_set_index i w) = i.
Proof.
  intros Hi. apply Z.bits_inj'. intros k Hk. rewrite ent_index_bits by done.
  unfold ent_set_index. rewrite Z.lor_spec, Z.land_spec, Z.shiftl_spec by lia.
  change 0xfff with (Z.ones 12). rewrite Z.ones_spec_high, andb_false_r by lia.
  replace (k + 12 - 12) with k by lia. rewrite (Z.mod_small i) by done. cbn [orb].
  destruct (Z.ltb_spec k 20); [done|]. symmetry. apply (testbit_high i 20); lia.
Qed.

Lemma ent_index_entry_word i : 0 ≤ i < 2 ^ 20 → ent_index (entry_word i) = i.
Proof. apply ent_index_set_index. Qed.
Lemma ent_bit_entry_word k i : 0 ≤ k < 12 → ent_bit k (entry_word i) = (k <? 3).
Proof.
  intros Hk. unfold entry_word. rewrite ent_bit_set_index by done.
  unfold P_present, P_write, P_user. rewrite !ent_bit_set by lia.
  unfold ent_bit. rewrite Z.bits_0.
  destruct (Z.eqb_spec k 2), (Z.eqb_spec k 1), (Z.eqb_spec k 0), (Z.ltb_spec k 3); (done || lia).
Qed.

(** ** The directory seen as a table *)

(** The virtual address of the entry [t] of the page table [d]. *)
Definition tab (d t : Z) : Z := PDE_MASK + 4096 * d + 4 * t.

Lemma tab_idx d t : 0 ≤ d < 1024 → 0 ≤ t < 1024 →
  DIDX (tab d t) = 1023 ∧ TIDX (tab d t) = d ∧ word_of (tab d t) = t.
Proof. intros Hd Ht. unfold tab, PDE_MASK. repeat split; page_lia. Qed.

Lemma get_pde_tab d : 0 ≤ d < 1024 → u32 (get_pde + 4 * d) = tab 1023 d.
Proof. intros Hd. unfold get_pde, tab, PDE_MASK. page_lia. Qed.

Lemma table_addr d : 0 ≤ d < 1024 → Z.lor PDE_MASK (Z.shiftl d 12) = tab d 0.
Proof.
  intros Hd. unfold tab, PDE_MASK. rewrite Z.shiftl_mul_pow2 by lia.
  rewrite <- Z.lxor_lor, <- Z.add_nocarry_lxor; [lia| |];
  change 0xFFC00000 with (1023 * 2 ^ 22);
  apply Z.bits_inj'; intros k Hk; rewrite Z.land_spec, Z.bits_0;
  (destruct (Z.ltb_spec k 22);
   [rewrite Z.mul_pow2_bits_low by done; done
   |rewrite (testbit_high (d * 2 ^ 12) 22) by lia; apply andb_false_r]).
Qed.

Lemma tab_entry d t : 0 ≤ d < 1024 → 0 ≤ t < 1024 → u32 (tab d 0 + 4 * t) = tab d t.
Proof. intros Hd Ht. unfold tab, PDE_MASK. page_lia. Qed.

(** [D] is the current page directory; its last entry designates itself. *)
Record self_map (s : mem) (D : Z) : Prop := {
  sm_paging : paging s = true;
  sm_cr3 : IDX (cr3 s) = D;
  sm_present : ent_bit P_present (phys s D 1023) = true;
  sm_index : ent_index (phys s D 1023) = D }.

Section self.
Context (E : stop → Prop) (s : mem) (D : Z) (Hs : self_map s D).

Lemma xlate_tab d t : 0 ≤ d < 1024 → 0 ≤ t < 1024 →
  ent_bit P_present (phys s D d) = true →
  xlate s (tab d t) = Some (ent_index (phys s D d)).
Proof using Hs.
  intros Hd Ht Hp. destruct Hs as [Hpg Hc Hp' Hi]. unfold xlate. rewrite Hpg, Hc.
  destruct (tab_idx d t Hd Ht) as (-> & -> & _). cbv zeta. by rewrite Hp', Hi, Hp.
Qed.

Lemma wp_ldw_tab d t (Q : Z → mem → Prop) : 0 ≤ d < 1024 → 0 ≤ t < 1024 →
  ent_bit P_present (phys s D d) = true →
  Q (phys s (ent_index (phys s D d)) t) s → wp E (ldw (tab d t)) Q s.
Proof using Hs.
  intros Hd Ht Hp HQ. unfold ldw. wp_step.
  eapply wp_deref; [by apply xlate_tab|]. wp_step.
  by rewrite (proj2 (proj2 (tab_idx d t Hd Ht))).
Qed.

Lemma wp_stw_tab d t w (Q : unit → mem → Prop) : 0 ≤ d < 1024 → 0 ≤ t < 1024 →
  ent_bit P_present (phys s D d) = true →
  Q tt (s <| phys $= λ p, upd p (ent_index (phys s D d)) t w |>) →
  wp E (stw (tab d t) w) Q s.
Proof using Hs.
  intros Hd Ht Hp HQ. unfold stw. wp_step.
  eapply wp_deref; [by apply xlate_tab|]. wp_step.
  by rewrite (proj2 (proj2 (tab_idx d t Hd Ht))).
Qed.

Lemma wp_ldw_dir d (Q : Z → mem → Prop) : 0 ≤ d < 1024 →
  Q (phys s D d) s → wp E (ldw (tab 1023 d)) Q s.
Proof using Hs.
  intros Hd HQ. apply wp_ldw_tab; [lia|done|apply Hs|]. by rewrite (sm_index s D Hs).
Qed.

Lemma wp_stw_dir d w (Q : unit → mem → Prop) : 0 ≤ d < 1024 →
  Q tt (s <| phys $= λ p, upd p D d w |>) → wp E (stw (tab 1023 d) w) Q s.
Proof using Hs.
  intros Hd HQ. apply wp_stw_tab; [lia|done|apply Hs|]. by rewrite (sm_index s D Hs).
Qed.
End self.

(** ** What a system call may touch *)

(** The byte at [a] is mapped, with the permissions asked for. *)
Definition accessible (s : mem) (write user : bool) (a : Z) : bool :=
  let de := phys s (IDX (cr3 s)) (DIDX a) in
  let te := phys s (ent_index de) (TIDX a) in
  ent_bit P_present de && ent_bit P_present te &&
  negb (write && ent_bit P_readonly te) && negb (user && negb (ent_bit P_user te)).

Lemma accessible_page s write user a b : IDX a = IDX b →
  accessible s write user a = accessible s write user b.
Proof.
  intros H. unfold accessible.
  replace (DIDX a) with (DIDX b) by page_lia. by replace (TIDX a) with (TIDX b) by page_lia.
Qed.

Lemma all_cons (P : Z → bool) page last :
  (∀ a, page ≤ a < page + 4096 → P a = true) →
  (∀ a, page + 4096 ≤ a < last → P a = true) ↔ (∀ a, page ≤ a < last → P a = true).
Proof.
  intros Hpage. split; intros H a Ha.
  - destruct (Z_lt_ge_dec a (page + 4096)); [apply Hpage; lia|apply H; lia].
  - apply H. lia.
Qed.

Lemma wp_access_loop s D last write user fuel page : self_map s D →
  page `mod` 4096 = 0 → 0 ≤ page → last ≤ 0xfffff000 →
  last - page ≤ 4096 * (Z.of_nat fuel - 1) → (0 < fuel)%nat →
  wp no_stop (access_loop fuel page last write user)
    (λ b s', s' = s ∧
       (b = true ↔ ∀ a, page ≤ a < last → accessible s write user a = true)) s.
Proof.
  intros Hs. revert page. induction fuel as [|fuel IH]; intros page Hm H0 Hl Hf Hpos;
    [lia|].
  cbn [access_loop]. destruct (Z.ltb_spec page last) as [Hlt|Hge]; cycle 1.
  { wp_step. split; [done|]. split; [intros _ a Ha; lia|done]. }
  cbv zeta. pose proof (DIDX_range page) as Hd. pose proof (TIDX_range page) as Ht.
  rewrite get_pde_tab, table_addr, tab_entry by lia.
  assert (∀ a, page ≤ a < page + 4096 →
    accessible s write user a = accessible s write user page) as Hsame.
  { intros a Ha. apply accessible_page. page_lia. }
  assert (accessible s write user page = false → false = true ↔
    ∀ a, page ≤ a < last → accessible s write user a = true) as Hno.
  { intros Hacc. split; [done|]. intros H. rewrite H in Hacc by lia. done. }
  wp_step. apply (wp_ldw_dir no_stop s D Hs); [done|].
  destruct (ent_bit P_present (phys s D (DIDX page))) eqn:Hpd; cbn [negb]; cycle 1.
  { wp_step. split; [done|]. apply Hno. unfold accessible.
    by rewrite (sm_cr3 s D Hs), Hpd. }
  wp_step. apply (wp_ldw_tab no_stop s D Hs); [done|done|done|].
  destruct (accessible s write user page) eqn:Hacc.
  - pose proof Hacc as Hacc'. unfold accessible in Hacc'.
    rewrite (sm_cr3 s D Hs), Hpd in Hacc'. cbn [andb] in Hacc'.
    apply andb_prop in Hacc' as [[Hp' Hw']%andb_prop Hu'].
    rewrite Hp'. cbn [negb]. apply negb_true_iff in Hw', Hu'. rewrite Hw', Hu'.
    rewrite u32_small by (unfold PAGE_SIZE; lia).
    eapply wp_conseq; [apply IH; unfold PAGE_SIZE; try lia; page_lia|].
    intros b s' [-> Hb]. split; [done|]. rewrite Hb. unfold PAGE_SIZE.
    by apply (all_cons (accessible s write user)).
  - unfold accessible in Hacc. rewrite (sm_cr3 s D Hs), Hpd in Hacc. cbn [andb] in Hacc.
    assert (wp no_stop (st_ret false : ST mem bool)
      (λ b s', s' = s ∧ (b = true ↔ ∀ a, page ≤ a < last → accessible s write user a = true))
      s) as Hret by (wp_step; auto).
    destruct (ent_bit P_present (phys s _ _)); cbn [negb andb] in *; [|done].
    destruct (write && _); cbn [negb andb] in *; [done|].
    destruct (user && _); cbn [negb andb] in *; done.
Qed.

(** A system call is let through exactly when it may touch what it is given:
    for a buffer below the last page, [memory_access] returns without changing
    the state, and returns true if and only if every byte from the start of the
    buffer's first page to its end is mapped, not read-only when it is to be
    written, and open to the user when the caller is one. *)
Theorem memory_access_exact (s : mem) (D vaddr size : Z) (write user : bool)
    (Hs : self_map s D) (Hv : 0 ≤ vaddr) (Hsz : 0 ≤ size)
    (Hend : vaddr + size ≤ 0xfffff000) :
  ∃ b, memory_access vaddr size write user s = Ok (b, s) ∧
    (b = true ↔ ∀ a, vaddr - vaddr `mod` 4096 ≤ a < vaddr + size →
                  accessible s write user a = true).
Proof.
  unfold memory_access. rewrite (u32_small vaddr), (u32_small (vaddr + size)) by lia.
  rewrite PAGE_mul by apply IDX_range.
  replace (IDX vaddr * 4096) with (vaddr - vaddr `mod` 4096) by page_lia.
  destruct (wp_total _ _ _ (wp_access_loop s D (vaddr + size) write user
    (Z.to_nat 0x100001) (vaddr - vaddr `mod` 4096) Hs ltac:(page_lia) ltac:(page_lia)
    Hend ltac:(page_lia) ltac:(lia))) as (b & s' & Hb & -> & Hiff).
  eauto.
Qed.

(** The end of the buffer is computed modulo 2^32: a buffer that wraps around is
    let through unchecked. *)
Lemma memory_access_wraps s write user :
  memory_access 0xfffffffc 8 write user s = Ok (true, s).
Proof.
  unfold memory_access. replace (Z.to_nat 0x100001) with (S (Z.to_nat 0x100000)) by lia.
  reflexivity.
Qed.
