(* ===== verification/Alloc.v ===== *)
(** * The page allocator ([get_page], [put_page] of [src/src/kernel/memory.c])

    The number of free pages is the number of unreferenced pages: what the two
    operations do to the reference counts and to [free_pages]. *)
From S2P Require Import Prelude.
From S2P Require Import Page.

Definition free_count (l : list Z) : Z := zsum (λ v, if v =? 0 then 1 else 0) l.

(** The references of the page [i]. *)
Definition refs_at (s : mem) (i : Z) : option Z := memory_map s !! Z.to_nat i.

Lemma free_count_range l : 0 ≤ free_count l ≤ Z.of_nat (length l).
Proof.
  induction l as [|v l IH]; cbn [free_count zsum length]; [lia|].
  fold (free_count l). destruct (v =? 0); lia.
Qed.
Lemma free_count_zero l : (∀ i, l !! i ≠ Some 0) → free_count l = 0.
Proof.
  intros H. apply zsum_zero. intros v [i Hi]%list_elem_of_lookup.
  destruct (Z.eqb_spec v 0) as [->|]; [by destruct (H i)|done].
Qed.
Lemma free_count_pos l i : l !! i = Some 0 → 1 ≤ free_count l.
Proof.
  intros H. pose proof (zsum_insert (λ v, if v =? 0 then 1 else 0) l i 0 1 H) as E.
  fold (free_count l) (free_count (<[i:=1]> l)) in E. cbn in E.
  pose proof (free_count_range (<[i:=1]> l)). lia.
Qed.
Lemma free_count_lt l i v : l !! i = Some v → v ≠ 0 → free_count l < Z.of_nat (length l).
Proof.
  intros H Hv. pose proof (zsum_insert (λ v, if v =? 0 then 1 else 0) l i v 0 H) as E.
  fold (free_count l) (free_count (<[i:=0]> l)) in E. cbv beta in E. rewrite (proj2 (Z.eqb_neq _ _) Hv) in E.
  cbn in E. pose proof (free_count_range (<[i:=0]> l)). rewrite length_insert in *. lia.
Qed.

Lemma free_count_insert_take l n i v w : l !! i = Some v → (i < n)%nat →
  free_count (take n (<[i := w]> l)) =
    free_count (take n l) - (if v =? 0 then 1 else 0) + (if w =? 0 then 1 else 0).
Proof.
  intros H Hi. rewrite take_insert_lt by done.
  apply (zsum_insert (λ v, if v =? 0 then 1 else 0)). by rewrite lookup_take_lt.
Qed.

(** The allocator's own variables are consistent. *)
Record alloc_ok (s : mem) : Prop := {
  al_total : 0 < total_pages s < 2 ^ 20;
  al_start : 0 < start_page s ≤ total_pages s;
  al_len : total_pages s ≤ Z.of_nat (length (memory_map s));
  al_byte : Forall (λ v, 0 ≤ v < 256) (memory_map s);
  al_low : ∀ i, 0 ≤ i < start_page s → refs_at s i ≠ Some 0;
  al_free : free_pages s = free_count (take (Z.to_nat (total_pages s)) (memory_map s)) }.

(** The page [i] has [v] references. *)
Definition set_refs (i v : Z) (s : mem) : mem := s <| memory_map $= <[Z.to_nat i := v]> |>.

Section alloc.
Context (E : stop → Prop).

Lemma wp_mm_get i v (Q : Z → mem → Prop) s : refs_at s i = Some v → Q v s → wp E (mm_get i) Q s.
Proof. intros H HQ. by eapply wp_deref. Qed.
Lemma wp_mm_set i v w (Q : unit → mem → Prop) s : refs_at s i = Some v → 0 ≤ w < 256 →
  Q tt (set_refs i w s) → wp E (mm_set i w) Q s.
Proof.
  intros H Hw HQ. unfold mm_set. wp_step. eapply wp_mm_get; [done|]. wp_step.
  by rewrite u8_small.
Qed.

Lemma free_range s : alloc_ok s → 0 ≤ free_pages s ≤ total_pages s.
Proof.
  intros [Ht _ Hl _ _ ->].
  pose proof (free_count_range (take (Z.to_nat (total_pages s)) (memory_map s))) as H.
  rewrite length_take in H. lia.
Qed.

Lemma refs_at_some s i : alloc_ok s → 0 ≤ i < total_pages s → ∃ v, refs_at s i = Some v.
Proof.
  intros [] Hi. unfold refs_at. destruct (lookup_lt_is_Some_2 (memory_map s) (Z.to_nat i)); [lia|].
  eauto.
Qed.

Lemma wp_get_page_from s (Q : Z → mem → Prop) : alloc_ok s →
  (free_pages s = 0 → E Assert) →
  (∀ i, start_page s ≤ i < total_pages s → refs_at s i = Some 0 → 1 ≤ free_pages s →
     Q (PAGE i) (set_refs i 1 s <| free_pages := free_pages s - 1 |>)) →
  ∀ n i, start_page s ≤ i → Z.of_nat n = total_pages s - i →
    (∀ j, 0 ≤ j < i → refs_at s j ≠ Some 0) → wp E (get_page_from n i) Q s.
Proof.
  intros Hs HE HQ. pose proof Hs as [Ht Hst Hl Hb Hlow Hf].
  change (2 ^ 20) with 1048576 in Ht.
  induction n as [|n IH]; intros i Hi Hn Hused.
  - apply HE. rewrite Hf. apply free_count_zero. intros j Hj.
    apply lookup_take_Some in Hj as [Hj Hjn].
    apply (Hused (Z.of_nat j)); [lia|]. unfold refs_at. by rewrite Nat2Z.id.
  - cbn [get_page_from]. wp_step.
    destruct (refs_at_some s i Hs) as [v Hv]; [lia|]. eapply wp_mm_get; [done|].
    destruct (Z.eqb_spec v 0) as [->|Hne].
    + assert (1 ≤ free_pages s) as H1.
      { rewrite Hf. apply (free_count_pos _ (Z.to_nat i)). rewrite lookup_take_lt by lia. done. }
      pose proof (free_range s Hs).
      wp_step. eapply wp_mm_set; [done|lia|]. wp_step. wp_step. wp_step.
      apply wp_check_true.
      { apply Z.ltb_lt. change (free_pages (set_refs i 1 s)) with (free_pages s). lia. } wp_step. wp_step. wp_step.
      change (free_pages (set_refs i 1 s)) with (free_pages s).
      rewrite u32_small by lia. apply HQ; (done || lia).
    + apply IH; [lia|lia|]. intros j Hj. destruct (Z.eq_dec j i) as [->|]; [congruence|].
      apply Hused. lia.
Qed.

Lemma wp_get_page s (Q : Z → mem → Prop) : alloc_ok s → (free_pages s = 0 → E Assert) →
  (∀ i, start_page s ≤ i < total_pages s → refs_at s i = Some 0 → 1 ≤ free_pages s →
     Q (PAGE i) (set_refs i 1 s <| free_pages := free_pages s - 1 |>)) →
  wp E get_page Q s.
Proof.
  intros Hs HE HQ. unfold get_page. wp_step. wp_step. wp_step. wp_step.
  apply wp_get_page_from; try done; destruct Hs; [lia|].
  intros j Hj. apply al_low0. lia.
Qed.

Definition dropped (v : Z) : Z := if v =? 1 then 1 else 0.

Lemma wp_put_page s i v (Q : unit → mem → Prop) : alloc_ok s →
  start_page s ≤ i < total_pages s → refs_at s i = Some v → 1 ≤ v →
  (free_pages s = 0 → v ≠ 1 → E Assert) →
  Q tt (set_refs i (v - 1) s <| free_pages := free_pages s + dropped v |>) →
  wp E (put_page (PAGE i)) Q s.
Proof.
  intros Hs Hi Hv Hv1 HE HQ. pose proof Hs as [Ht Hst Hl Hb Hlow Hf].
  assert (0 ≤ v < 256) as Hvb by exact (Forall_lookup_1 _ _ _ _ Hb Hv).
  change (2 ^ 20) with 1048576 in Ht.
  pose proof (free_range s Hs) as Hfr.
  assert (free_pages s < total_pages s) as Hlt.
  { rewrite Hf. destruct (refs_at_some s 0 Hs) as [v0 Hv0]; [lia|].
    assert (v0 ≠ 0) by (intros ->; apply (Hlow 0); [lia|done]).
    eapply Z.lt_le_trans.
    - eapply (free_count_lt _ 0 v0); [|done]. rewrite lookup_take_lt by lia. exact Hv0.
    - rewrite length_take. lia. }
  assert (free_pages s + dropped v < total_pages s) as Hlt'.
  { unfold dropped. destruct (Z.eqb_spec v 1) as [->|]; [|lia].
    pose proof (free_count_insert_take (memory_map s) (Z.to_nat (total_pages s)) (Z.to_nat i)
      1 0 Hv ltac:(lia)) as Hc. rewrite <- Hf in Hc. cbn in Hc.
    enough (free_count (take (Z.to_nat (total_pages s)) (<[Z.to_nat i:=0]> (memory_map s)))
      < total_pages s) by lia.
    destruct (refs_at_some s 0 Hs) as [v0 Hv0]; [lia|].
    assert (v0 ≠ 0) by (intros ->; apply (Hlow 0); [lia|done]).
    eapply Z.lt_le_trans.
    - eapply (free_count_lt _ 0 v0); [|done].
      rewrite lookup_take_lt, list_lookup_insert_ne by lia. exact Hv0.
    - rewrite length_take. lia. }
  unfold put_page. wp_step. apply wp_check_true; [by apply PAGE_aligned; lia|].
  wp_step. wp_step. wp_step. wp_step. wp_step. rewrite IDX_PAGE by lia.
  apply wp_check_true; [rewrite (proj2 (Z.leb_le _ _)), (proj2 (Z.ltb_lt _ _)) by lia; done|].
  wp_step. eapply wp_mm_get; [done|]. wp_step.
  apply wp_check_true; [by apply Z.leb_le|]. wp_step.
  eapply wp_mm_set; [done|lia|]. wp_step.
  eapply (wp_mm_get _ (v - 1)).
  { unfold refs_at, set_refs. upd_simpl. apply list_lookup_insert_eq.
    by apply lookup_lt_Some in Hv. }
  wp_step.
  assert (u32 (free_pages s + dropped v) = free_pages s + dropped v) as Hu.
  { apply u32_small. unfold dropped in *. destruct (v =? 1); lia. }
  assert (∀ s', free_pages s' = free_pages s + dropped v → total_pages s' = total_pages s →
    Q tt s' → wp E (let* free := st_gets free_pages in
      st_check ((0 <? free) && (free <? total_pages s))) Q s') as Hend.
  { intros s' Hf' Ht' HQ'. wp_step. wp_step. rewrite Hf'.
    rewrite (proj2 (Z.ltb_lt (_ + _) _) Hlt'), andb_true_r.
    apply wp_check; [|done]. intros H0%Z.ltb_ge. unfold dropped in H0.
    apply HE; destruct (Z.eqb_spec v 1); lia. }
  unfold dropped in *. destruct (Z.eqb_spec v 1) as [->|Hne].
  - change (1 - 1 =? 0) with true. cbn [st_when]. wp_step. wp_step. apply Hend; upd_simpl.
    + exact Hu.
    + done.
    + change (Q tt (set_refs i (1 - 1) s <| free_pages := u32 (free_pages s + 1) |>)).
      by rewrite Hu.
  - rewrite (proj2 (Z.eqb_neq _ _)) by lia. cbn [st_when]. wp_step. wp_step. apply Hend; upd_simpl.
    + unfold set_refs. upd_simpl. lia.
    + done.
    + rewrite Z.add_0_r in HQ. exact HQ.
Qed.

Lemma alloc_ok_set s i v w f : alloc_ok s → start_page s ≤ i < total_pages s →
  refs_at s i = Some v → 0 ≤ w < 256 →
  f = free_pages s - (if v =? 0 then 1 else 0) + (if w =? 0 then 1 else 0) →
  alloc_ok (set_refs i w s <| free_pages := f |>).
Proof.
  intros [] Hi H0 Hw ->. unfold set_refs. split; upd_simpl; try done.
  - by rewrite length_insert.
  - apply Forall_insert_list; [done|lia].
  - intros j Hj. unfold refs_at. upd_simpl. rewrite list_lookup_insert_ne by lia. by apply al_low0.
  - rewrite al_free0. rewrite (free_count_insert_take _ _ _ v) by (done || lia). lia.
Qed.
End alloc.
