(* ===== verification/Memory.v ===== *)
(** * Virtual memory ([src/src/kernel/memory.c], second half)

    Copy on write, linking and unlinking of pages, copying and freeing of page
    directories, [brk], [mmap], [munmap] and the page fault handler, over the
    physical pages and the translation of Page.v. *)
From S2P Require Import Prelude.
From S2P Require Bitmap.
From S2P Require Import Page.

(** ** Constants of [syscall.h], [fs.h] and [task.h] *)
Definition PROT_WRITE : Z := 2.
Definition MAP_SHARED : Z := 1.
Definition MAP_PRIVATE : Z := 2.
Definition SEEK_SET : Z := 1.
Definition KERNEL_USER : Z := 0.

(** ** Copy on write *)

(** The page to copy is mapped at address 0 for the time of the copy. *)
Definition copy_page (page : Z) : ST mem Z :=
  let* paddr := get_page in
  let vaddr := 0 in
  let* entry := get_pte vaddr false in
  do! entry_init entry (IDX paddr);
  do! memcpy_page vaddr page;
  do! ent_mod entry (ent_set P_present false);
  st_ret paddr.

(** The entry itself, after the recursive call for the table it is in. *)
Definition cow_entry (vaddr entry : Z) : ST mem unit :=
  let* w := ldw entry in
  if ent_bit P_write w then st_ret tt
  else
    let* refs := mm_get (ent_index w) in
    do! st_check (0 <? refs);
    do! (if refs =? 1 then ent_mod entry (ent_set P_write true)
         else
           let* paddr := copy_page (PAGE (IDX vaddr)) in
           let* w := ldw entry in
           let* refs := mm_get (ent_index w) in
           do! mm_set (ent_index w) (refs - 1);
           do! ent_mod entry (ent_set_index (IDX paddr));
           ent_mod entry (ent_set P_write true));
    let* w := ldw entry in
    let* refs := mm_get (ent_index w) in
    st_check (0 <? refs).

Fixpoint copy_on_write (level : nat) (vaddr : Z) : ST mem unit :=
  match level with
  | O => st_ret tt
  | S level' =>
      let* entry := get_entry vaddr false in
      do! copy_on_write level' entry;
      cow_entry vaddr entry
  end.

(** ** Mapping and unmapping a page *)
Definition link_page (vaddr : Z) : ST mem unit :=
  do! st_check (ASSERT_PAGE vaddr);
  let* entry := get_entry vaddr true in
  let* w := ldw entry in
  if ent_bit P_present w then st_ret tt
  else
    do! copy_on_write 2 entry;
    let* paddr := get_page in
    entry_init entry (IDX paddr).

Definition unlink_page (vaddr : Z) : ST mem unit :=
  do! st_check (ASSERT_PAGE vaddr);
  let* w := ldw (u32 (get_pde + 4 * DIDX vaddr)) in
  if negb (ent_bit P_present w) then st_ret tt
  else
    let* entry := get_entry vaddr false in
    let* w := ldw entry in
    if negb (ent_bit P_present w) then st_ret tt
    else
      do! copy_on_write 2 entry;
      do! ent_mod entry (ent_set P_present false);
      let* w := ldw entry in
      put_page (PAGE (ent_index w)).

Definition map_page (vaddr paddr : Z) : ST mem unit :=
  do! st_check (ASSERT_PAGE vaddr);
  do! st_check (ASSERT_PAGE paddr);
  let* entry := get_entry vaddr true in
  let* w := ldw entry in
  if ent_bit P_present w then st_ret tt
  else
    let* paddr := (if paddr =? 0 then get_page else st_ret paddr) in
    entry_init entry (IDX paddr).

Definition map_area (paddr size : Z) : ST mem unit :=
  do! st_check (ASSERT_PAGE paddr);
  let page_count := div_round_up size PAGE_SIZE in
  st_for (seqZ 0 page_count) (λ i,
    let page := u32 (paddr + i * PAGE_SIZE) in map_page page page).

(** A page of a segment that the program may not write ([load_segment]). *)
Definition protect_page (vaddr : Z) : ST mem unit :=
  let* entry := get_entry vaddr false in
  ent_mod entry (λ w, ent_set P_readonly true (ent_set P_write false w)).

(** ** Page directories *)

(** The page directory entries of user memory. *)
Definition user_dirs : list Z := seqZ 4 (Z.shiftr USER_STACK_TOP 22 - 4).

(** One more reference to the page [index]. *)
Definition mm_share (index : Z) : ST mem unit :=
  let* refs := mm_get index in
  do! st_check (0 <? refs);
  do! mm_set index (refs + 1);
  let* refs := mm_get index in
  st_check (refs <? 255).

Definition share_page (entry : Z) : ST mem unit :=
  let* w := ldw entry in
  if negb (ent_bit P_present w) then st_ret tt
  else
    let* refs := mm_get (ent_index w) in
    do! st_check (0 <? refs);
    do! st_when (negb (ent_bit P_shared w)) (ent_mod entry (ent_set P_write false));
    mm_share (ent_index w).

Definition share_table (pde didx : Z) : ST mem unit :=
  let dentry := u32 (pde + 4 * didx) in
  let* w := ldw dentry in
  if negb (ent_bit P_present w) then st_ret tt
  else
    let* refs := mm_get (ent_index w) in
    do! st_check (0 <? refs);
    do! ent_mod dentry (ent_set P_write false);
    do! mm_share (ent_index w);
    let pte := Z.lor PDE_MASK (Z.shiftl didx 12) in
    st_for (seqZ 0 1024) (λ tidx, share_page (u32 (pte + 4 * tidx))).

Definition copy_pde : ST mem Z :=
  let* pde := st_gets (λ s, t_pde (task s)) in
  do! st_for user_dirs (share_table pde);
  let* new := alloc_kpage 1 in
  do! memcpy_page new pde;
  do! entry_init (u32 (new + 4 * 1023)) (IDX new);
  do! set_cr3 pde;
  st_ret new.

Definition free_page_of (entry : Z) : ST mem unit :=
  let* w := ldw entry in
  if negb (ent_bit P_present w) then st_ret tt
  else
    let* refs := mm_get (ent_index w) in
    do! st_check (0 <? refs);
    put_page (PAGE (ent_index w)).

Definition free_table (didx : Z) : ST mem unit :=
  let* w := ldw (u32 (get_pde + 4 * didx)) in
  if negb (ent_bit P_present w) then st_ret tt
  else
    let pte := Z.lor PDE_MASK (Z.shiftl didx 12) in
    do! st_for (seqZ 0 1024) (λ tidx, free_page_of (u32 (pte + 4 * tidx)));
    put_page (PAGE (ent_index w)).

Definition free_pde : ST mem unit :=
  let* t := st_gets task in
  do! st_check (negb (t_uid t =? KERNEL_USER));
  do! st_for user_dirs free_table;
  free_kpage (t_pde t) 1.

(** ** System calls *)

(** [for (page = brk; page < old_brk; page += PAGE_SIZE)]; both are below
    [USER_MMAP_ADDR], so [page] does not wrap. *)
Definition brk_pages (brk old_brk : Z) : list Z :=
  (λ i, brk + i * PAGE_SIZE) <$> seqZ 0 ((old_brk - brk + PAGE_SIZE - 1) `div` PAGE_SIZE).

Definition sys_brk (addr : Z) : ST mem Z :=
  let brk := u32 addr in
  do! st_check (ASSERT_PAGE brk);
  let* t := st_gets task in
  do! st_check (negb (t_uid t =? KERNEL_USER));
  do! st_check ((t_end t <=? brk) && (brk <=? USER_MMAP_ADDR));
  let old_brk := t_brk t in
  let set_brk := st_mod (λ s, s <| task $= λ t, t <| t_brk := brk |> |>) in
  if brk <? old_brk then
    do! st_for (brk_pages brk old_brk) unlink_page;
    do! set_brk; st_ret 0
  else
    let* free := st_gets free_pages in
    if free <? IDX (brk - old_brk) then st_ret (-1)
    else do! set_brk; st_ret 0.

Definition set_vmap (index : Z) (v : bool) : ST mem unit :=
  let* t := st_gets task in
  let* map := st_lift (Bitmap.bitmap_set (t_vmap t) index v) in
  st_mod (λ s, s <| task $= λ t, t <| t_vmap := map |> |>).

(** The flags of a page that [mmap] has linked. *)
Definition mmap_flags (prot flags w : Z) : Z :=
  let w := ent_set P_user true w in
  let w := ent_set P_write false w in
  let w := ent_set P_readonly true w in
  let w := if negb (Z.land prot PROT_WRITE =? 0)
           then ent_set P_write true (ent_set P_readonly false w) else w in
  let w := if negb (Z.land flags MAP_SHARED =? 0) then ent_set P_shared true w else w in
  if negb (Z.land flags MAP_PRIVATE =? 0) then ent_set P_privat true w else w.

Definition mmap_page (prot flags page : Z) : ST mem unit :=
  do! link_page page;
  do! set_vmap (IDX page) true;
  let* entry := get_entry page false in
  ent_mod entry (mmap_flags prot flags).

Section files.
(** [lseek] and [read] of the file system, which fill the memory. *)
Context (lseek : Z → Z → Z → ST mem Z) (read : Z → Z → Z → ST mem Z).

Definition sys_mmap (addr length prot flags fd offset : Z) : ST mem Z :=
  do! st_check (ASSERT_PAGE addr);
  let count := div_round_up length PAGE_SIZE in
  let* vaddr :=
    (if addr =? 0 then
       let* t := st_gets task in
       let* r := st_lift (scan_page (t_vmap t) count) in
       do! st_mod (λ s, s <| task $= λ t, t <| t_vmap := r.2 |> |>);
       st_ret r.1
     else st_ret addr) in
  do! st_check ((USER_MMAP_ADDR <=? vaddr) && (vaddr <? USER_STACK_BOTTOM));
  do! st_for (seqZ 0 count) (λ i, mmap_page prot flags (u32 (vaddr + PAGE_SIZE * i)));
  do! st_when (negb (fd =? EOF))
    (do! (let* r := lseek fd offset SEEK_SET in st_ret tt);
     let* r := read fd vaddr length in st_ret tt);
  st_ret vaddr.
End files.

Definition munmap_page (page : Z) : ST mem unit :=
  do! unlink_page page;
  let* t := st_gets task in
  let* b := st_lift (Bitmap.bitmap_test (t_vmap t) (IDX page)) in
  do! st_check b;
  set_vmap (IDX page) false.

Definition sys_munmap (vaddr length : Z) : ST mem Z :=
  do! st_check ((USER_MMAP_ADDR <=? vaddr) && (vaddr <? USER_STACK_BOTTOM));
  do! st_check (ASSERT_PAGE vaddr);
  let count := div_round_up length PAGE_SIZE in
  do! st_for (seqZ 0 count) (λ i, munmap_page (u32 (vaddr + PAGE_SIZE * i)));
  st_ret 0.

(** ** The page fault handler *)

(** The process resumes, or leaves with [task_exit(status)]. *)
Inductive fault_result := Resume | Exit (status : Z).

Definition E_present (error : Z) : bool := Z.testbit error 0.
Definition E_write (error : Z) : bool := Z.testbit error 1.

(** [vaddr] is the content of [cr2]. *)
Definition page_fault (vector vaddr error : Z) : ST mem fault_result :=
  do! st_check (vector =? 0xe);
  let* t := st_gets task in
  if (vaddr <? USER_EXEC_ADDR) || (USER_STACK_TOP <=? vaddr) then
    do! st_check (negb (t_uid t =? 0));
    st_ret (Exit (-1))
  else if E_present error then
    do! st_check (E_write error);
    let* entry := get_entry vaddr false in
    let* w := ldw entry in
    do! st_check (ent_bit P_present w);
    do! st_check (negb (ent_bit P_shared w));
    do! st_check (negb (ent_bit P_readonly w));
    do! copy_on_write 3 vaddr;
    st_ret Resume
  else if (vaddr <? t_brk t) || (USER_STACK_BOTTOM <=? vaddr) then
    do! link_page (PAGE (IDX vaddr));
    st_ret Resume
  else st_stop Assert.
