(* ===== verification/Refs.v ===== *)
(** * References to physical pages

    The counting argument behind the reference counts of
    [src/src/kernel/memory.c]: the references to a physical page from the page
    directories of the processes and from their page tables, and how a change
    of one entry, of one directory entry or of an unreferenced page changes
    them. *)
From S2P Require Import Prelude.
From S2P Require Import Page.
From S2P Require Import Memory.

Notation present w := (ent_bit P_present w).
Notation index w := (ent_index w).

(** The entries of user memory of the page directories [dirs]. *)
Definition slots (dirs : list Z) : list (Z * Z) :=
  dirs ≫= λ D, pair D <$> user_dirs.

Definition tidxs : list Z := seqZ 0 1024.

(** The entry [w] refers to the page [i]. *)
Definition hits (w i : Z) : Z := if present w && (index w =? i) then 1 else 0.

Definition table_refs (p : Z → Z → Z) (T i : Z) : Z :=
  zsum (λ t, hits (p T t) i) tidxs.

Definition slot_refs (p : Z → Z → Z) (i : Z) (Dd : Z * Z) : Z :=
  let w := p Dd.1 Dd.2 in
  if present w then hits w i + table_refs p (index w) i else 0.

(** The references to [i]: as a page table, and as a page, once for every
    address of every process. *)
Definition refs (p : Z → Z → Z) (dirs : list Z) (i : Z) : Z :=
  zsum (slot_refs p i) (slots dirs).

Lemma elem_of_user_dirs d : d ∈ user_dirs ↔ 4 ≤ d < 64.
Proof.
  unfold user_dirs. change (Z.shiftr USER_STACK_TOP 22) with 64.
  rewrite elem_of_seqZ. lia.
Qed.
Lemma elem_of_tidxs t : t ∈ tidxs ↔ 0 ≤ t < 1024.
Proof. unfold tidxs. rewrite elem_of_seqZ. lia. Qed.
Lemma elem_of_slots dirs D d : (D, d) ∈ slots dirs ↔ D ∈ dirs ∧ 4 ≤ d < 64.
Proof.
  unfold slots. rewrite list_elem_of_bind. setoid_rewrite list_elem_of_fmap.
  split.
  - intros (D' & (d' & [= -> ->] & Hd%elem_of_user_dirs) & HD). done.
  - intros [HD Hd]. exists D. split; [|done]. exists d. split; [done|].
    by apply elem_of_user_dirs.
Qed.
Lemma NoDup_slots dirs : NoDup dirs → NoDup (slots dirs).
Proof.
  intros H. apply NoDup_bind.
  - intros D1 D2 [D d] _ _ [? [[= -> ->] _]]%list_elem_of_fmap
      [? [[= -> ->] _]]%list_elem_of_fmap. done.
  - intros D _. apply NoDup_fmap_2; [by intros ? ? [= ->]|]. apply NoDup_seqZ.
  - done.
Qed.
Lemma NoDup_tidxs : NoDup tidxs.
Proof. apply NoDup_seqZ. Qed.

Lemma hits_range w i : 0 ≤ hits w i ≤ 1.
Proof. unfold hits. destruct (_ && _); lia. Qed.
Lemma hits_true w : present w = true → hits w (index w) = 1.
Proof. intros H. unfold hits. by rewrite H, Z.eqb_refl. Qed.
Lemma hits_ne w i : (present w = true → index w ≠ i) → hits w i = 0.
Proof.
  intros H. unfold hits. destruct (present w); [|done]. cbn [andb].
  by rewrite (proj2 (Z.eqb_neq _ _)) by auto.
Qed.
Lemma hits_pos w i : 1 ≤ hits w i → present w = true ∧ index w = i.
Proof. unfold hits. destruct (present w), (Z.eqb_spec (index w) i); cbn; (done || lia). Qed.
Lemma hits_same w w' i : present w' = present w → index w' = index w → hits w' i = hits w i.
Proof. intros H1 H2. unfold hits. by rewrite H1, H2. Qed.

Lemma table_refs_nonneg p T i : 0 ≤ table_refs p T i.
Proof. apply zsum_nonneg. intros. apply hits_range. Qed.
Lemma slot_refs_nonneg p i Dd : 0 ≤ slot_refs p i Dd.
Proof.
  unfold slot_refs. destruct (present _); [|done].
  pose proof (hits_range (p Dd.1 Dd.2) i). pose proof (table_refs_nonneg p (index (p Dd.1 Dd.2)) i).
  lia.
Qed.
Lemma refs_nonneg p dirs i : 0 ≤ refs p dirs i.
Proof. apply zsum_nonneg. intros. apply slot_refs_nonneg. Qed.

(** ** Who refers to a page *)

(** The directory entry [Dd] refers to the page table [T], the entry [(Dd, t)]
    to the page [f]. *)
Definition to_table (p : Z → Z → Z) (dirs : list Z) (Dd : Z * Z) (T : Z) : Prop :=
  Dd ∈ slots dirs ∧ present (p Dd.1 Dd.2) = true ∧ index (p Dd.1 Dd.2) = T.
Definition to_page (p : Z → Z → Z) (dirs : list Z) (Dd : Z * Z) (t f : Z) : Prop :=
  ∃ T, to_table p dirs Dd T ∧ 0 ≤ t < 1024 ∧ present (p T t) = true ∧ index (p T t) = f.

Section who.
Context (p : Z → Z → Z) (dirs : list Z) (Hnd : NoDup dirs).

Lemma table_refs_page T t : 0 ≤ t < 1024 → present (p T t) = true →
  1 ≤ table_refs p T (index (p T t)).
Proof.
  intros Ht Hp. unfold table_refs.
  destruct (zsum_split (λ t', hits (p T t') (index (p T t))) tidxs t NoDup_tidxs)
    as [H _]; [by apply elem_of_tidxs|intros; apply hits_range|].
  rewrite hits_true in H by done. lia.
Qed.

Lemma slot_refs_table Dd T : to_table p dirs Dd T → 1 ≤ slot_refs p T Dd.
Proof.
  intros (_ & Hp & HT). unfold slot_refs. rewrite Hp, <- HT, hits_true by done.
  pose proof (table_refs_nonneg p (index (p Dd.1 Dd.2)) (index (p Dd.1 Dd.2))). lia.
Qed.
Lemma slot_refs_page Dd t f : to_page p dirs Dd t f → 1 ≤ slot_refs p f Dd.
Proof.
  intros (T & (_ & Hp & HT) & Ht & Hpt & <-). unfold slot_refs. rewrite Hp, HT.
  pose proof (table_refs_page T t Ht Hpt). pose proof (hits_range (p Dd.1 Dd.2) (index (p T t))).
  lia.
Qed.

Lemma refs_split Dd i : Dd ∈ slots dirs →
  slot_refs p i Dd ≤ refs p dirs i ∧
  ∀ Dd', Dd' ∈ slots dirs → Dd' ≠ Dd → slot_refs p i Dd + slot_refs p i Dd' ≤ refs p dirs i.
Proof using Hnd.
  intros Hin. apply zsum_split; [by apply NoDup_slots|done|].
  intros. apply slot_refs_nonneg.
Qed.

Lemma refs_table Dd T : to_table p dirs Dd T → 1 ≤ refs p dirs T.
Proof using Hnd.
  intros H. pose proof (slot_refs_table Dd T H). destruct H as (Hin & _).
  destruct (refs_split Dd T Hin). lia.
Qed.
Lemma refs_page Dd t f : to_page p dirs Dd t f → 1 ≤ refs p dirs f.
Proof using Hnd.
  intros H. pose proof (slot_refs_page Dd t f H). destruct H as (T & (Hin & _) & _).
  destruct (refs_split Dd f Hin). lia.
Qed.

(** A page with no reference is in no directory and in no table. *)
Lemma refs_zero f : refs p dirs f = 0 →
  (∀ Dd, ¬ to_table p dirs Dd f) ∧ (∀ Dd t, ¬ to_page p dirs Dd t f).
Proof using Hnd.
  intros H0. split.
  - intros Dd H. pose proof (refs_table Dd f H). lia.
  - intros Dd t H. pose proof (refs_page Dd t f H). lia.
Qed.

(** A table with one reference belongs to one directory. *)
Lemma refs_one_table Dd T : refs p dirs T = 1 → to_table p dirs Dd T →
  ∀ Dd', to_table p dirs Dd' T → Dd' = Dd.
Proof using Hnd.
  intros H1 Ht Dd' Ht'. destruct (decide (Dd' = Dd)) as [|Hne]; [done|]. exfalso.
  pose proof (slot_refs_table Dd T Ht). pose proof (slot_refs_table Dd' T Ht').
  destruct Ht as (Hin & _), Ht' as (Hin' & _).
  destruct (refs_split Dd T Hin) as [_ Hs]. specialize (Hs Dd' Hin' Hne). lia.
Qed.

(** A page with one reference is mapped once. *)
Lemma refs_one_page Dd t f : refs p dirs f = 1 → to_page p dirs Dd t f →
  ∀ Dd' t', to_page p dirs Dd' t' f → Dd' = Dd ∧ t' = t.
Proof using Hnd.
  intros H1 Ht Dd' t' Ht'.
  pose proof (slot_refs_page Dd t f Ht). pose proof (slot_refs_page Dd' t' f Ht').
  pose proof Ht as (T & (Hin & Hp & HT) & Htr & Hpt & Hf).
  pose proof Ht' as (T' & (Hin' & Hp' & HT') & Htr' & Hpt' & Hf').
  destruct (refs_split Dd f Hin) as [Hle Hne].
  destruct (decide (Dd' = Dd)) as [->|]; [|specialize (Hne Dd' Hin'); exfalso; naive_solver lia].
  split; [done|]. destruct (decide (t' = t)) as [|Hnt]; [done|]. exfalso.
  assert (T' = T) as -> by congruence.
  unfold slot_refs in Hle. rewrite Hp, HT in Hle.
  destruct (zsum_split (λ t', hits (p T t') f) tidxs t NoDup_tidxs) as [_ Hs].
  { by apply elem_of_tidxs. } { intros; apply hits_range. }
  specialize (Hs t' (proj2 (elem_of_tidxs t') Htr') Hnt). cbv beta in Hs.
  fold (table_refs p T f) in Hs.
  rewrite <- Hf in Hs at 1. rewrite hits_true in Hs by done.
  rewrite <- Hf' in Hs at 1. rewrite hits_true in Hs by done.
  pose proof (hits_range (p Dd.1 Dd.2) f). lia.
Qed.
End who.

(** ** How writes change the references *)

(** Same page, in memory as before. *)
Definition same_ref (w w' : Z) : Prop := present w' = present w ∧ index w' = index w.

Lemma same_ref_refl w : same_ref w w.
Proof. done. Qed.
Lemma same_ref_set j b w : 0 < j < 12 → same_ref w (ent_set j b w).
Proof.
  intros Hj. split; [|apply ent_index_set; lia]. unfold P_present.
  rewrite ent_bit_set by lia. by rewrite (proj2 (Z.eqb_neq _ _)) by lia.
Qed.

Lemma table_refs_ext p p' T i :
  (∀ t, 0 ≤ t < 1024 → same_ref (p T t) (p' T t)) → table_refs p' T i = table_refs p T i.
Proof.
  intros H. apply zsum_ext. intros t Ht%elem_of_tidxs.
  destruct (H t Ht). by apply hits_same.
Qed.

Lemma slot_refs_ext p p' i Dd : same_ref (p Dd.1 Dd.2) (p' Dd.1 Dd.2) →
  (present (p Dd.1 Dd.2) = true → ∀ t, 0 ≤ t < 1024 →
     same_ref (p (index (p Dd.1 Dd.2)) t) (p' (index (p Dd.1 Dd.2)) t)) →
  slot_refs p' i Dd = slot_refs p i Dd.
Proof.
  intros [Hp Hi] Ht. unfold slot_refs. rewrite Hp.
  destruct (present (p Dd.1 Dd.2)) eqn:E; [|done].
  rewrite (hits_same (p Dd.1 Dd.2)) by congruence. rewrite Hi. f_equal.
  apply table_refs_ext. auto.
Qed.

Lemma refs_ext p p' dirs i :
  (∀ D d, (D, d) ∈ slots dirs → same_ref (p D d) (p' D d)) →
  (∀ Dd T t, to_table p dirs Dd T → 0 ≤ t < 1024 → same_ref (p T t) (p' T t)) →
  refs p' dirs i = refs p dirs i.
Proof.
  intros Hd Ht. apply zsum_ext. intros [D d] Hin. apply slot_refs_ext; [by apply Hd|].
  intros Hp t Htr. apply (Ht (D, d)); [|done]. done.
Qed.

Lemma upd_eq p f i v : upd p f i v f i = v.
Proof. unfold upd. by rewrite !Z.eqb_refl. Qed.
Lemma upd_ne p f i v f' i' : f' ≠ f ∨ i' ≠ i → upd p f i v f' i' = p f' i'.
Proof.
  unfold upd. destruct (Z.eqb_spec f' f), (Z.eqb_spec i' i); cbn; (done || lia).
Qed.

(** An entry of a table that one directory entry refers to. *)
Lemma refs_table_entry p dirs Dd T t w i : NoDup dirs →
  to_table p dirs Dd T → (∀ Dd', to_table p dirs Dd' T → Dd' = Dd) → T ∉ dirs →
  0 ≤ t < 1024 →
  refs (upd p T t w) dirs i = refs p dirs i - hits (p T t) i + hits w i.
Proof.
  intros Hnd Ht Hu Hd Htr. unfold refs.
  rewrite (zsum_update (slot_refs p i) (slot_refs (upd p T t w) i) (slots dirs) Dd).
  - cut (slot_refs (upd p T t w) i Dd = slot_refs p i Dd - hits (p T t) i + hits w i);
      [lia|].
    destruct Ht as (Hin & Hp & HT). destruct Dd as [D d]. cbn in *.
    assert (D ≠ T) by (apply elem_of_slots in Hin as [? _]; by intros ->).
    unfold slot_refs. cbn. rewrite !upd_ne by auto. rewrite Hp, HT.
    unfold table_refs.
    rewrite (zsum_update (λ t', hits (p T t') i) _ tidxs t NoDup_tidxs
      (proj2 (elem_of_tidxs t) Htr)).
    + rewrite upd_eq. lia.
    + intros t' _ Hne. by rewrite upd_ne by auto.
  - by apply NoDup_slots.
  - apply Ht.
  - intros [D' d'] Hin' Hne.
    assert (D' ≠ T) by (apply elem_of_slots in Hin' as [? _]; by intros ->).
    symmetry. apply slot_refs_ext; cbn.
    + rewrite upd_ne by auto. done.
    + intros Hp' t' _. rewrite upd_ne; [done|]. left. intros E.
      apply Hne, Hu. done.
Qed.

(** A directory entry. *)
Lemma refs_dir_entry p dirs D d w i : NoDup dirs → (D, d) ∈ slots dirs →
  (∀ Dd T, to_table p dirs Dd T → T ≠ D) → (present w = true → index w ≠ D) →
  refs (upd p D d w) dirs i =
    refs p dirs i - slot_refs p i (D, d) +
    (if present w then hits w i + table_refs p (index w) i else 0).
Proof.
  intros Hnd Hin Ht Hw. unfold refs.
  rewrite (zsum_update (slot_refs p i) (slot_refs (upd p D d w) i) (slots dirs) (D, d)).
  - f_equal. unfold slot_refs. cbn. rewrite upd_eq.
    destruct (present w) eqn:E; [|done]. f_equal.
    apply table_refs_ext. intros t _. rewrite upd_ne; [done|]. left. auto.
  - by apply NoDup_slots.
  - done.
  - intros [D' d'] Hin' Hne. symmetry. apply slot_refs_ext; cbn.
    + rewrite upd_ne; [done|].
      destruct (decide (D' = D)) as [->|]; [|auto]. right. by intros ->.
    + intros Hp' t _. rewrite upd_ne; [done|]. left.
      by apply (Ht (D', d')).
Qed.

(** One more page directory. *)
Lemma refs_cons p dirs D i :
  refs p (D :: dirs) i = zsum (slot_refs p i) (pair D <$> user_dirs) + refs p dirs i.
Proof. unfold refs, slots. rewrite bind_cons. apply zsum_app. Qed.

Lemma zsum_fmap {A B} (g : A → B) f l : zsum f (g <$> l) = zsum (λ a, f (g a)) l.
Proof. induction l as [|a l IH]; [done|]. rewrite fmap_cons. cbn. by rewrite IH. Qed.

Lemma refs_perm p dirs dirs' i : dirs ≡ₚ dirs' → refs p dirs i = refs p dirs' i.
Proof.
  induction 1 as [|D l1 l2 _ IH|D1 D2 l|l1 l2 l3 _ IH1 _ IH2].
  - done.
  - by rewrite !refs_cons, IH.
  - rewrite !refs_cons. lia.
  - congruence.
Qed.
