(* ===== verification/Tables.v ===== *)
(** * The page tables of all processes

    When the page tables of the processes are consistent, and that the changes
    which [src/src/kernel/memory.c] makes to one entry keep them so: every
    reference is to a page that the allocator manages, tables and pages are
    distinct, and what can be written is referred to once, unless the entry is
    marked shared. *)
From S2P Require Import Prelude.
From S2P Require Import Page.
From S2P Require Import Memory.
From S2P Require Import Refs.

(** The page directory [D]: its own entry, and the tables of the kernel. *)
Record dir_ok (p : Z → Z → Z) (D : Z) : Prop := {
  do_range : 0 < D < 4096;
  do_kernel : D < 2 ∨ 5 < D;
  do_self : present (p D 1023) = true ∧ ent_bit P_write (p D 1023) = true ∧ index (p D 1023) = D;
  do_tables : ∀ k, 0 ≤ k < 4 → present (p D k) = true ∧ index (p D k) = 2 + k }.

(** The kernel's tables map the first 16M to themselves, address 0 apart. *)
Definition kernel_ok (p : Z → Z → Z) : Prop := ∀ f, 1 ≤ f < 4096 →
  present (p (2 + f `div` 1024) (f `mod` 1024)) = true ∧
  index (p (2 + f `div` 1024) (f `mod` 1024)) = f.

Record tables_ok (p : Z → Z → Z) (dirs : list Z) (total : Z) : Prop := {
  to_nodup : NoDup dirs;
  to_dirs : ∀ D, D ∈ dirs → dir_ok p D;
  to_kernel : kernel_ok p;
  to_tab : ∀ Dd T, to_table p dirs Dd T → 4096 ≤ T < total;
  to_pag : ∀ Dd t f, to_page p dirs Dd t f → 4096 ≤ f < total;
  to_sep : ∀ Dd T Dd' t f, to_table p dirs Dd T → to_page p dirs Dd' t f → f ≠ T;
  to_wtab : ∀ Dd T, to_table p dirs Dd T → ent_bit P_write (p Dd.1 Dd.2) = true →
    refs p dirs T = 1;
  to_wpage : ∀ Dd T t, to_table p dirs Dd T → 0 ≤ t < 1024 → present (p T t) = true →
    ent_bit P_write (p T t) = true → ent_bit P_shared (p T t) = false →
    refs p dirs (index (p T t)) = 1 }.

(** The entry [t] of the table [d] of the directory [D]. *)
Definition pte (p : Z → Z → Z) (D d t : Z) : Z := p (index (p D d)) t.

(** The processes see the same memory, with the same rights but that to write. *)
Record same_view (p p' : Z → Z → Z) (dirs : list Z) : Prop := {
  sv_dir : ∀ D d, (D, d) ∈ slots dirs → present (p' D d) = present (p D d);
  sv_pte : ∀ D d t, (D, d) ∈ slots dirs → present (p D d) = true → 0 ≤ t < 1024 →
    ∀ k, 0 ≤ k < 12 → k ≠ P_write →
      ent_bit k (pte p' D d t) = ent_bit k (pte p D d t);
  sv_data : ∀ D d t, (D, d) ∈ slots dirs → present (p D d) = true → 0 ≤ t < 1024 →
    present (pte p D d t) = true →
    ∀ x, p' (index (pte p' D d t)) x = p (index (pte p D d t)) x }.

Lemma same_view_refl p dirs : same_view p p dirs.
Proof. done. Qed.

Lemma same_view_trans p1 p2 p3 dirs :
  same_view p1 p2 dirs → same_view p2 p3 dirs → same_view p1 p3 dirs.
Proof.
  intros [Ad Ap Ax] [Bd Bp Bx]. split; intros D d; [|intros t..]; intros Hin.
  - rewrite Bd, Ad by done. done.
  - intros Hp Ht k Hk Hne. rewrite Bp, Ap; try done. by rewrite Ad.
  - intros Hp Ht Hpt x. rewrite Bx, Ax; try done; [by rewrite Ad|].
    rewrite Ap; done.
Qed.

(** [p'] is [p] on the directories, the tables and the kernel's tables, the
    entry of address 0 apart. *)
Definition agree (p p' : Z → Z → Z) (dirs : list Z) : Prop :=
  ∀ f x, f ∈ dirs ∨ (∃ Dd, to_table p dirs Dd f) ∨ (2 ≤ f ≤ 5 ∧ ¬ (f = 2 ∧ x = 0)) →
    p' f x = p f x.

Section agree.
Context (p p' : Z → Z → Z) (dirs : list Z) (Ha : agree p p' dirs).

Lemma agree_dir D d : (D, d) ∈ slots dirs → p' D d = p D d.
Proof using Ha. intros [HD _]%elem_of_slots. apply Ha. auto. Qed.

Lemma agree_to_table Dd T : to_table p' dirs Dd T ↔ to_table p dirs Dd T.
Proof using Ha.
  destruct Dd as [D d]. unfold to_table. cbn. split; intros (Hin & H);
    (split; [done|]); revert H; by rewrite agree_dir.
Qed.
Lemma agree_table Dd T t : to_table p dirs Dd T → p' T t = p T t.
Proof using Ha. intros H. apply Ha. eauto. Qed.
Lemma agree_to_page Dd t f : to_page p' dirs Dd t f ↔ to_page p dirs Dd t f.
Proof using Ha.
  unfold to_page. split; intros (T & HT & Ht & Hp & Hf); exists T.
  - apply agree_to_table in HT. revert Hp Hf. by rewrite (agree_table Dd T t HT).
  - split; [by apply agree_to_table|]. by rewrite (agree_table Dd T t HT).
Qed.
Lemma agree_refs i : refs p' dirs i = refs p dirs i.
Proof using Ha.
  apply refs_ext.
  - intros D d Hin. by rewrite agree_dir.
  - intros Dd T t HT _. by rewrite (agree_table Dd T t HT).
Qed.

Lemma agree_dir_ok D : D ∈ dirs → dir_ok p D → dir_ok p' D.
Proof using Ha.
  intros HD [Hr Hk Hs Ht]. assert (∀ d, p' D d = p D d) as He by (intros; apply Ha; auto).
  split; [done|done|by rewrite He|]. intros k. rewrite He. apply Ht.
Qed.
Lemma agree_kernel : kernel_ok p → kernel_ok p'.
Proof using Ha.
  intros Hk f Hf. rewrite Ha; [by apply Hk|]. right; right.
  split; Z.div_mod_to_equations; lia.
Qed.

Lemma tables_ok_agree total : tables_ok p dirs total → tables_ok p' dirs total.
Proof using Ha.
  intros [Hnd Hd Hk Ht Hp Hs Hwt Hwp]. split; try done.
  - intros D HD. apply agree_dir_ok; auto.
  - by apply agree_kernel.
  - intros Dd T HT%agree_to_table. eauto.
  - intros Dd t f Hf%agree_to_page. by apply (Hp Dd t).
  - intros Dd T Dd' t f HT%agree_to_table Hf%agree_to_page. by apply (Hs Dd T Dd' t).
  - intros [D d] T HT%agree_to_table. rewrite agree_refs. cbn.
    rewrite agree_dir by apply HT. intros Hw. by apply (Hwt (D, d)).
  - intros Dd T t HT%agree_to_table. rewrite agree_refs. rewrite (agree_table Dd T t HT).
    by apply (Hwp Dd).
Qed.

Lemma same_view_agree : (∀ Dd t f x, to_page p dirs Dd t f → p' f x = p f x) →
  same_view p p' dirs.
Proof using Ha.
  intros Hpg. split; intros D d; [|intros t..]; intros Hin; unfold pte.
  - by rewrite agree_dir.
  - intros Hp Ht k _ _. rewrite (agree_dir D d) by done.
    by rewrite (agree_table (D, d) (index (p D d))).
  - intros Hp Ht Hpt x. rewrite (agree_dir D d) by done.
    rewrite (agree_table (D, d) (index (p D d))) by done.
    apply (Hpg (D, d) t). by eexists.
Qed.
End agree.

Section consistent.
Context (p : Z → Z → Z) (dirs : list Z) (total : Z) (Hok : tables_ok p dirs total).

Lemma table_not_dir Dd T : to_table p dirs Dd T → T ∉ dirs.
Proof using Hok.
  intros HT Hin. apply (to_tab _ _ _ Hok) in HT. apply (to_dirs _ _ _ Hok) in Hin as [? _ _ _].
  lia.
Qed.
Lemma table_unique Dd T : to_table p dirs Dd T → refs p dirs T = 1 →
  ∀ Dd', to_table p dirs Dd' T → Dd' = Dd.
Proof using Hok. intros HT H1. eapply refs_one_table; [apply Hok|done|done]. Qed.

(** ** A new value for one entry of a table *)
Section entry.
Context (Dd : Z * Z) (T t w : Z).
Context (HT : to_table p dirs Dd T) (H1 : refs p dirs T = 1) (Ht : 0 ≤ t < 1024).

(** The entry keeps its page, or takes one that no entry refers to. *)
Definition entry_ok : Prop := present w = true →
  (same_ref (p T t) w ∧
     (ent_bit P_write w = true → ent_bit P_shared w = false → refs p dirs (index w) = 1)) ∨
  (4096 ≤ index w < total ∧ refs p dirs (index w) = 0).
Context (Hw : entry_ok).

Lemma entry_refs i :
  refs (upd p T t w) dirs i = refs p dirs i - hits (p T t) i + hits w i.
Proof using Hok HT H1 Ht.
  eapply refs_table_entry; [apply Hok|done| |by eapply table_not_dir|done].
  by apply table_unique.
Qed.

Lemma entry_dir D d : D ∈ dirs → upd p T t w D d = p D d.
Proof using Hok HT.
  intros HD. apply upd_ne. left. intros ->. by eapply (table_not_dir Dd T).
Qed.

Lemma entry_to_table Dd' T' : to_table (upd p T t w) dirs Dd' T' ↔ to_table p dirs Dd' T'.
Proof using Hok HT.
  destruct Dd' as [D d]. unfold to_table. cbn. split; intros (Hin & H);
    (split; [done|]); revert H; (rewrite entry_dir; [done|by apply elem_of_slots in Hin as [? _]]).
Qed.

Lemma entry_to_page Dd' t' f : to_page (upd p T t w) dirs Dd' t' f →
  (Dd' = Dd ∧ t' = t ∧ present w = true ∧ index w = f) ∨
  ((Dd', t') ≠ (Dd, t) ∧ to_page p dirs Dd' t' f).
Proof using Hok HT H1 Ht.
  intros (T' & HT'%entry_to_table & Ht' & Hp & Hf).
  destruct (decide (T' = T ∧ t' = t)) as [[-> ->]|Hne].
  - rewrite upd_eq in *. left. split; [|done]. by eapply table_unique.
  - rewrite upd_ne in Hp, Hf by (destruct (decide (T' = T)); [right; naive_solver|auto]).
    right. split; [|by exists T'].
    intros [= -> ->]. apply Hne. split; [|done].
    destruct HT as (_ & _ & <-), HT' as (_ & _ & <-). done.
Qed.

(** What the new value refers to was referred to by the old one, or by none. *)
Lemma entry_page f : present w = true → index w = f →
  (to_page p dirs Dd t f ∧ hits (p T t) f = 1) ∨
  (4096 ≤ f < total ∧ refs p dirs f = 0 ∧ hits (p T t) f = 0).
Proof using Hok HT Ht Hw.
  intros Hp <-. destruct (Hw Hp) as [[[Hsp Hsi] _]|[Hr H0]].
  - left. rewrite Hp in Hsp. split; [|rewrite Hsi; by apply hits_true].
    exists T. done.
  - right. split; [done|]. split; [done|]. apply hits_ne. intros Hpt Hi.
    eapply (proj2 (refs_zero p dirs ltac:(apply Hok) _ H0) Dd t). by exists T.
Qed.

Lemma entry_kernel : kernel_ok p → kernel_ok (upd p T t w).
Proof using Hok HT Ht.
  intros Hk f Hf. apply (to_tab _ _ _ Hok) in HT.
  rewrite upd_ne by (left; Z.div_mod_to_equations; lia). by apply Hk.
Qed.

Lemma entry_hits_table T' Dd' : to_table p dirs Dd' T' →
  hits (p T t) T' = 0 ∧ hits w T' = 0.
Proof using Hok HT Ht Hw.
  intros HT'.
  assert (hits (p T t) T' = 0) as Hold.
  { apply hits_ne. intros Hp Hi. eapply (to_sep _ _ _ Hok Dd' T' Dd t); [done| |done].
    by exists T. }
  split; [done|]. apply hits_ne. intros Hp Hi.
  destruct (entry_page T' Hp Hi) as [[Hpg _]|(_ & H0 & _)].
  - by apply (to_sep _ _ _ Hok Dd' T' Dd t T' HT' Hpg).
  - pose proof (refs_table p dirs ltac:(apply Hok) Dd' T' HT'). lia.
Qed.

Lemma entry_wpage Dd' T' t' : to_table p dirs Dd' T' → 0 ≤ t' < 1024 →
  let w' := upd p T t w T' t' in
  present w' = true → ent_bit P_write w' = true → ent_bit P_shared w' = false →
  refs (upd p T t w) dirs (index w') = 1.
Proof using Hok HT H1 Ht Hw.
  intros HT' Ht' w' Hp' Hwr Hsh. rewrite entry_refs. subst w'.
  destruct (decide (T' = T ∧ t' = t)) as [[-> ->]|Hne].
  - rewrite upd_eq in *. rewrite (hits_true w) by done.
    destruct (Hw Hp') as [[[Hsp Hsi] Hx]|[Hr H0]].
    + rewrite Hx by done. rewrite Hsi, hits_true by congruence. lia.
    + destruct (entry_page _ Hp' eq_refl) as [[Hpg _]|(_ & _ & ->)]; [|lia].
      by destruct (proj2 (refs_zero p dirs ltac:(apply Hok) _ H0) Dd t).
  - rewrite upd_ne in * by (destruct (decide (T' = T)); [right; naive_solver|auto]).
    pose proof (to_wpage _ _ _ Hok Dd' T' t' HT' Ht' Hp' Hwr Hsh) as Hone.
    assert (to_page p dirs Dd' t' (index (p T' t'))) as Hpg by (by exists T').
    assert (¬ to_page p dirs Dd t (index (p T' t'))) as Hno.
    { intros Hpg'. destruct (refs_one_page p dirs ltac:(apply Hok) _ _ _ Hone Hpg Dd t Hpg')
        as [<- <-]. apply Hne. split; [|done].
      destruct HT as (_ & _ & <-), HT' as (_ & _ & <-). done. }
    rewrite (hits_ne (p T t)), (hits_ne w); [lia| |].
    + intros Hp Hi. destruct (entry_page _ Hp Hi) as [[? _]|(_ & H0 & _)]; [done|lia].
    + intros Hp Hi. apply Hno. by exists T.
Qed.

Lemma tables_ok_entry : tables_ok (upd p T t w) dirs total.
Proof using Hok HT H1 Ht Hw.
  split.
  - apply Hok.
  - intros D HD. destruct (to_dirs _ _ _ Hok D HD) as [Hr Hk Hs Hts].
    split; [done|done|by rewrite entry_dir|]. intros k. rewrite entry_dir by done. apply Hts.
  - apply entry_kernel, Hok.
  - intros Dd' T' HT'%entry_to_table. by apply (to_tab _ _ _ Hok Dd').
  - intros Dd' t' f [(-> & -> & Hp & Hi)|[_ Hpg]]%entry_to_page.
    + destruct (entry_page f Hp Hi) as [[Hpg _]|[? _]]; [|done]. by apply (to_pag _ _ _ Hok Dd t).
    + by apply (to_pag _ _ _ Hok Dd' t').
  - intros Dd1 T1 Dd' t' f HT1%entry_to_table [(-> & -> & Hp & Hi)|[_ Hpg]]%entry_to_page.
    + destruct (entry_page f Hp Hi) as [[Hpg _]|(_ & H0 & _)].
      * by apply (to_sep _ _ _ Hok Dd1 T1 Dd t).
      * intros ->. pose proof (refs_table p dirs ltac:(apply Hok) Dd1 T1 HT1). lia.
    + by apply (to_sep _ _ _ Hok Dd1 T1 Dd' t').
  - intros [D d] T' HT'%entry_to_table. cbn.
    rewrite entry_dir by (destruct HT' as [[? _]%elem_of_slots _]; done).
    rewrite entry_refs. destruct (entry_hits_table T' (D, d) HT') as [-> ->].
    intros Hwr. rewrite (to_wtab _ _ _ Hok (D, d) T' HT' Hwr). lia.
  - intros Dd' T' t' HT'%entry_to_table Ht'. by apply (entry_wpage Dd').
Qed.

(** The new value refers to a page with the same content. *)
Lemma same_view_entry :
  (∀ k, 0 ≤ k < 12 → k ≠ P_write → ent_bit k w = ent_bit k (p T t)) →
  (present w = true → ∀ x, p (index w) x = p (index (p T t)) x) →
  same_view p (upd p T t w) dirs.
Proof using Hok HT H1 Ht Hw.
  intros Hbits Hx. split; intros D d; [|intros t'..]; intros Hin;
    pose proof Hin as [HD _]%elem_of_slots; unfold pte.
  - by rewrite entry_dir.
  - intros Hp Ht' k Hk Hne. rewrite (entry_dir D d) by done.
    destruct (decide (index (p D d) = T ∧ t' = t)) as [[-> ->]|Hd].
    + rewrite upd_eq. by apply Hbits.
    + by rewrite upd_ne by (destruct (decide (index (p D d) = T)); [right; naive_solver|auto]).
  - intros Hp Ht' Hpt x. rewrite (entry_dir D d) by done.
    assert (to_page p dirs (D, d) t' (index (p (index (p D d)) t'))) as Hpg by (by eexists).
    pose proof (to_sep _ _ _ Hok Dd T (D, d) t' _ HT Hpg) as Hsep.
    destruct (decide (index (p D d) = T ∧ t' = t)) as [[E1 E2]|Hd].
    + rewrite E1, E2 in *. rewrite upd_eq. rewrite <- (Hbits P_present) in Hpt by done.
      rewrite upd_ne; [auto|]. left.
      destruct (entry_page _ Hpt eq_refl) as [[Hpg' _]|(_ & H0 & _)].
      * by apply (to_sep _ _ _ Hok Dd T Dd t).
      * intros E. rewrite E in H0. lia.
    + rewrite (upd_ne _ _ _ _ (index (p D d)))
        by (destruct (decide (index (p D d) = T)); [right; naive_solver|auto]).
      apply upd_ne. auto.
Qed.
End entry.

(** ** A new value for one entry of a directory *)
Section dir.
Context (D d w : Z) (Hin : (D, d) ∈ slots dirs) (Hp : present w = true).

(** The entry keeps its table, or takes an unreferenced one with the same
    entries, none when there was no table. *)
Definition dir_entry_ok : Prop :=
  (same_ref (p D d) w ∧ (ent_bit P_write w = true → refs p dirs (index w) = 1)) ∨
  (4096 ≤ index w < total ∧ refs p dirs (index w) = 0 ∧
   ∀ t, 0 ≤ t < 1024 → if present (p D d) then p (index w) t = p (index (p D d)) t
                       else present (p (index w) t) = false).
Context (Hw : dir_entry_ok).

Lemma dir_in : D ∈ dirs ∧ 4 ≤ d < 64.
Proof using Hin. by apply elem_of_slots in Hin. Qed.

Lemma dir_not_table Dd T : to_table p dirs Dd T → T ≠ D.
Proof using Hok Hin. intros HT ->. apply (table_not_dir Dd D HT), dir_in. Qed.

Lemma dir_old : present (p D d) = true → to_table p dirs (D, d) (index (p D d)).
Proof using Hin. by intros. Qed.

(** The table of the new value. *)
Lemma dir_range : 4096 ≤ index w < total.
Proof using Hok Hin Hp Hw.
  destruct Hw as [[[Hsp Hsi] _]|[Hr _]]; [|done].
  apply (to_tab _ _ _ Hok (D, d)). rewrite Hsi. apply dir_old. congruence.
Qed.
Lemma dir_ne : index w ≠ D.
Proof using Hok Hin Hp Hw.
  pose proof dir_range. destruct (to_dirs _ _ _ Hok D (proj1 dir_in)). lia.
Qed.

Lemma dir_table_refs i :
  table_refs p (index w) i = if present (p D d) then table_refs p (index (p D d)) i else 0.
Proof using Hp Hw.
  destruct Hw as [[[Hsp Hsi] _]|(Hr & H0 & Hc)].
  - rewrite <- Hsp, Hp. by rewrite Hsi.
  - destruct (present (p D d)).
    + apply zsum_ext. intros t Ht%elem_of_tidxs. by rewrite Hc.
    + apply zsum_zero. intros t Ht%elem_of_tidxs. apply hits_ne. by rewrite Hc.
Qed.

Lemma dir_refs i : refs (upd p D d w) dirs i = refs p dirs i - hits (p D d) i + hits w i.
Proof using Hok Hin Hp Hw.
  rewrite refs_dir_entry; [|apply Hok|done|apply dir_not_table|intros; apply dir_ne].
  rewrite Hp, dir_table_refs. unfold slot_refs. cbn.
  destruct (present (p D d)) eqn:E; [lia|]. rewrite (hits_ne (p D d)) by (by rewrite E). lia.
Qed.

Lemma dir_to_table Dd' T' : to_table (upd p D d w) dirs Dd' T' →
  (Dd' = (D, d) ∧ T' = index w) ∨ (Dd' ≠ (D, d) ∧ to_table p dirs Dd' T').
Proof using.
  destruct Dd' as [D' d']. unfold to_table. cbn. intros (Hin' & H).
  destruct (decide ((D', d') = (D, d))) as [[= -> ->]|Hne].
  - rewrite upd_eq in H. naive_solver.
  - rewrite upd_ne in H by (destruct (decide (D' = D)); [right; naive_solver|auto]). auto.
Qed.

(** A table after the change has the entries of a table before. *)
Lemma dir_content Dd' T' : to_table (upd p D d w) dirs Dd' T' →
  (∀ t, 0 ≤ t < 1024 → present (p T' t) = false) ∨
  (∃ T, to_table p dirs Dd' T ∧ ∀ t, 0 ≤ t < 1024 → upd p D d w T' t = p T t).
Proof using Hok Hin Hp Hw.
  intros [[-> ->]|[_ HT']]%dir_to_table.
  - destruct (present (p D d)) eqn:E.
    + right. exists (index (p D d)). split; [done|]. intros t Ht.
      rewrite upd_ne by (left; apply dir_ne).
      destruct Hw as [[[_ ->] _]|(_ & _ & Hc)]; [done|]. specialize (Hc t Ht).
      by rewrite E in Hc.
    + left. destruct Hw as [[[Hsp _] _]|(_ & _ & Hc)]; [congruence|].
      intros t Ht. specialize (Hc t Ht). by rewrite E in Hc.
  - right. exists T'. split; [done|]. intros t _. apply upd_ne. left.
    by eapply dir_not_table.
Qed.

Lemma dir_to_page Dd' t f : to_page (upd p D d w) dirs Dd' t f → to_page p dirs Dd' t f.
Proof using Hok Hin Hp Hw.
  intros (T' & HT' & Ht & Hpt & Hf).
  assert (T' ≠ D) as Hne.
  { pose proof HT' as [[-> ->]|[_ HT]]%dir_to_table; [apply dir_ne|by eapply dir_not_table]. }
  destruct (dir_content Dd' T' HT') as [Hno|(T & HT & Hc)].
  - rewrite upd_ne in Hpt by auto. by rewrite Hno in Hpt.
  - rewrite Hc in Hpt, Hf by done. by exists T.
Qed.

(** A page is no table, before and after. *)
Lemma dir_page_hits Dd' t f : to_page p dirs Dd' t f → hits (p D d) f = 0 ∧ hits w f = 0.
Proof using Hok Hin Hp Hw.
  intros Hpg.
  assert (hits (p D d) f = 0) as Hold.
  { apply hits_ne. intros E Hi. apply (to_sep _ _ _ Hok (D, d) f Dd' t f); [|done|done].
    rewrite <- Hi. by apply dir_old. }
  split; [done|]. destruct Hw as [[[Hsp Hsi] _]|(_ & H0 & _)].
  - by rewrite (hits_same (p D d)).
  - apply hits_ne. intros _ Hi. rewrite Hi in H0.
    pose proof (refs_page p dirs ltac:(apply Hok) Dd' t f Hpg). lia.
Qed.

Lemma dir_wtab Dd' T' : to_table (upd p D d w) dirs Dd' T' →
  ent_bit P_write (upd p D d w Dd'.1 Dd'.2) = true → refs (upd p D d w) dirs T' = 1.
Proof using Hok Hin Hp Hw.
  intros [[-> ->]|[Hne HT']]%dir_to_table; rewrite dir_refs.
  - cbn. rewrite upd_eq. intros Hwr. rewrite (hits_true w) by done.
    destruct Hw as [[[Hsp Hsi] H1]|(_ & H0 & _)].
    + rewrite H1, Hsi, hits_true by congruence. lia.
    + rewrite H0, hits_ne; [lia|]. intros E Hi.
      pose proof (refs_table p dirs ltac:(apply Hok) (D, d) _ (dir_old E)) as HH.
      rewrite Hi in HH. lia.
  - rewrite upd_ne by (destruct Dd' as [D' d']; cbn; destruct (decide (D' = D));
      [right; naive_solver|auto]).
    intros Hwr. pose proof (to_wtab _ _ _ Hok Dd' T' HT' Hwr) as H1. rewrite H1.
    assert (hits (p D d) T' = 0) as Hh.
    { apply hits_ne. intros E Hi. apply Hne. symmetry.
      apply (table_unique Dd' T' HT' H1 (D, d)). rewrite <- Hi. by apply dir_old. }
    rewrite Hh. destruct Hw as [[[Hsp Hsi] _]|(_ & H0 & _)].
    + rewrite (hits_same (p D d)) by done. lia.
    + rewrite hits_ne; [lia|]. intros _ Hi. rewrite Hi in H0. lia.
Qed.

Lemma tables_ok_dir : tables_ok (upd p D d w) dirs total.
Proof using Hok Hin Hp Hw.
  destruct dir_in as [HD Hd].
  split.
  - apply Hok.
  - intros D' HD'. destruct (to_dirs _ _ _ Hok D' HD') as [Hr Hk Hs Hts].
    split; [done|done|rewrite upd_ne by lia; done|].
    intros k Hk'. rewrite upd_ne by lia. by apply Hts.
  - intros f Hf. destruct (to_dirs _ _ _ Hok D HD) as [_ Hk _ _].
    rewrite upd_ne by (left; Z.div_mod_to_equations; lia). by apply (to_kernel _ _ _ Hok).
  - intros Dd T [[-> ->]|[_ HT]]%dir_to_table; [apply dir_range|by apply (to_tab _ _ _ Hok Dd)].
  - intros Dd t f Hf%dir_to_page. by apply (to_pag _ _ _ Hok Dd t).
  - intros Dd T Dd' t f HT Hf%dir_to_page ->.
    destruct (dir_page_hits _ _ _ Hf) as [_ Hh].
    apply dir_to_table in HT as [[-> ->]|[_ HT]].
    + rewrite hits_true in Hh by done. lia.
    + by apply (to_sep _ _ _ Hok Dd T Dd' t T HT Hf).
  - apply dir_wtab.
  - intros Dd' T' t HT' Ht Hpt Hwr Hsh.
    assert (T' ≠ D) as Hne.
    { pose proof HT' as [[-> ->]|[_ HT]]%dir_to_table; [apply dir_ne|by eapply dir_not_table]. }
    destruct (dir_content Dd' T' HT') as [Hno|(T & HT & Hc)].
    + rewrite upd_ne in Hpt by auto. by rewrite Hno in Hpt.
    + rewrite Hc in * by done. rewrite dir_refs.
      destruct (dir_page_hits Dd' t (index (p T t))) as [-> ->]; [by exists T|].
      rewrite (to_wpage _ _ _ Hok Dd' T t) by done. lia.
Qed.

Lemma same_view_dir : present (p D d) = true → same_view p (upd p D d w) dirs.
Proof using Hok Hin Hp Hw.
  intros Hpd.
  assert (∀ D' d', (D', d') ∈ slots dirs → present (upd p D d w D' d') = present (p D' d'))
    as Hpres.
  { intros D' d' Hin'. destruct (decide (D' = D ∧ d' = d)) as [[-> ->]|Hne].
    - by rewrite upd_eq, Hp, Hpd.
    - by rewrite upd_ne by (destruct (decide (D' = D)); [right; naive_solver|auto]). }
  assert (∀ D' d' t, (D', d') ∈ slots dirs → present (p D' d') = true → 0 ≤ t < 1024 →
    pte (upd p D d w) D' d' t = pte p D' d' t) as Hpte.
  { intros D' d' t Hin' Hp' Ht. unfold pte.
    destruct (decide (D' = D ∧ d' = d)) as [[-> ->]|Hne].
    - rewrite upd_eq, upd_ne by (left; apply dir_ne).
      destruct Hw as [[[_ ->] _]|(_ & _ & Hc)]; [done|]. specialize (Hc t Ht).
      by rewrite Hpd in Hc.
    - rewrite (upd_ne _ _ _ _ D' d') by (destruct (decide (D' = D)); [right; naive_solver|auto]).
      apply upd_ne. left. apply (dir_not_table (D', d')). done. }
  split; [done| |].
  - intros D' d' t Hin' Hp' Ht k _ _. by rewrite Hpte.
  - intros D' d' t Hin' Hp' Ht Hpt x. rewrite Hpte by done. apply upd_ne. left.
    assert (to_page p dirs (D', d') t (index (pte p D' d' t))) as Hpg by (by eexists).
    apply (to_pag _ _ _ Hok) in Hpg. destruct (to_dirs _ _ _ Hok D (proj1 dir_in)). lia.
Qed.
End dir.
End consistent.

(** ** Rights are taken away *)

(** Entries keep their page and lose at most the right to write. *)
Definition weaker (w w' : Z) : Prop :=
  same_ref w w' ∧ (∀ k, 0 ≤ k < 12 → k ≠ P_write → ent_bit k w' = ent_bit k w) ∧
  (ent_bit P_write w' = true → ent_bit P_write w = true).

Lemma weaker_refl w : weaker w w.
Proof. done. Qed.
Lemma weaker_clear w : weaker w (ent_set P_write false w).
Proof.
  split; [apply same_ref_set; unfold P_write; lia|]. unfold P_write. split.
  - intros k Hk Hne. rewrite ent_bit_set by lia. by rewrite (proj2 (Z.eqb_neq _ _)) by done.
  - by rewrite ent_bit_set by lia.
Qed.

(** [p'] is [p], but for user entries of directories and entries of tables that
    became weaker. *)
Definition weakened (p p' : Z → Z → Z) (dirs : list Z) : Prop :=
  (∀ f x, p' f x = p f x ∨
     ((∃ d, x = d ∧ (f, d) ∈ slots dirs) ∨
      (∃ Dd, to_table p dirs Dd f ∧ 0 ≤ x < 1024)) ∧ weaker (p f x) (p' f x)).

Section weakened.
Context (p p' : Z → Z → Z) (dirs : list Z) (total : Z).
Context (Hok : tables_ok p dirs total) (Hw : weakened p p' dirs).

Lemma weakened_any f x : weaker (p f x) (p' f x).
Proof using Hw. destruct (Hw f x) as [->|[_ H]]; [apply weaker_refl|done]. Qed.

Lemma weakened_refs i : refs p' dirs i = refs p dirs i.
Proof using Hw. apply refs_ext; intros; apply weakened_any. Qed.

Lemma weakened_to_table Dd T : to_table p' dirs Dd T ↔ to_table p dirs Dd T.
Proof using Hw.
  unfold to_table. destruct (weakened_any Dd.1 Dd.2) as [[-> ->] _]. done.
Qed.
Lemma weakened_to_page Dd t f : to_page p' dirs Dd t f ↔ to_page p dirs Dd t f.
Proof using Hw.
  unfold to_page. split; intros (T & HT%weakened_to_table & H); exists T; split; try done;
    revert H; destruct (weakened_any T t) as [[-> ->] _]; done.
Qed.

(** Other memory is the same. *)
Lemma weakened_eq f x : f ∉ dirs ∨ ¬ (4 ≤ x < 64) → (∀ Dd, ¬ to_table p dirs Dd f) →
  p' f x = p f x.
Proof using Hw.
  intros Hf Ht. destruct (Hw f x) as [->|[[(d & -> & Hin%elem_of_slots)|[Dd [HT _]]] _]]; [done| |].
  - destruct Hf as [Hf|Hf]; naive_solver.
  - by destruct (Ht Dd).
Qed.

Lemma tables_ok_weakened : tables_ok p' dirs total.
Proof using Hok Hw.
  assert (∀ D, D ∈ dirs → ∀ Dd, ¬ to_table p dirs Dd D) as Hnt.
  { intros D HD Dd HT. by apply (table_not_dir p dirs total Hok Dd D). }
  split.
  - apply Hok.
  - intros D HD. destruct (to_dirs _ _ _ Hok D HD) as [Hr Hk Hs Hts]. split; [done|done| |].
    + rewrite weakened_eq; [done|right; lia|auto].
    + intros k Hk4. rewrite weakened_eq; [by apply Hts|right; lia|auto].
  - intros f Hf. rewrite weakened_eq; [by apply (to_kernel _ _ _ Hok)| |].
    + left. intros HD%(to_dirs _ _ _ Hok). destruct HD as [_ ? _ _].
      Z.div_mod_to_equations; lia.
    + intros Dd HT%(to_tab _ _ _ Hok). Z.div_mod_to_equations; lia.
  - intros Dd T HT%weakened_to_table. by apply (to_tab _ _ _ Hok Dd).
  - intros Dd t f Hf%weakened_to_page. by apply (to_pag _ _ _ Hok Dd t).
  - intros Dd T Dd' t f HT%weakened_to_table Hf%weakened_to_page.
    by apply (to_sep _ _ _ Hok Dd T Dd' t).
  - intros Dd T HT%weakened_to_table. rewrite weakened_refs.
    destruct (weakened_any Dd.1 Dd.2) as (_ & _ & H). intros Hwr.
    by apply (to_wtab _ _ _ Hok Dd), H.
  - intros Dd T t HT%weakened_to_table Ht. rewrite weakened_refs.
    destruct (weakened_any T t) as ([-> ->] & Hb & H). rewrite (Hb P_shared) by done.
    intros Hp Hwr Hsh. by apply (to_wpage _ _ _ Hok Dd T t), Hsh; auto.
Qed.

Lemma same_view_weakened : same_view p p' dirs.
Proof using Hok Hw.
  assert (∀ D d t, (D, d) ∈ slots dirs → weaker (pte p D d t) (pte p' D d t)) as Hpte.
  { intros D d t _. unfold pte. destruct (weakened_any D d) as [[_ ->] _]. apply weakened_any. }
  split.
  - intros D d _. by destruct (weakened_any D d) as [[-> _] _].
  - intros D d t Hin _ _. by destruct (Hpte D d t Hin) as (_ & H & _).
  - intros D d t Hin Hp Ht Hpt x. destruct (Hpte D d t Hin) as ([_ ->] & _).
    assert (to_page p dirs (D, d) t (index (pte p D d t))) as Hpg by (by eexists).
    apply weakened_eq.
    + left. intros HD%(to_dirs _ _ _ Hok). destruct HD as [? _ _ _].
      pose proof (to_pag _ _ _ Hok _ _ _ Hpg). lia.
    + intros Dd HT. by apply (to_sep _ _ _ Hok _ _ _ _ _ HT Hpg).
Qed.
End weakened.

(** ** What a process sees at one page *)
Definition mapped (p : Z → Z → Z) (D d t : Z) : Prop :=
  present (p D d) = true ∧ present (pte p D d t) = true.

(** The page [(D', d', t)] of [p'] is the page [(D, d, t)] of [p]: mapped or not,
    with the same content and the same rights, but that to write. *)
Definition same_page (p : Z → Z → Z) (D : Z) (p' : Z → Z → Z) (D' d t : Z) : Prop :=
  (mapped p' D' d t ↔ mapped p D d t) ∧
  (mapped p D d t →
     (∀ k, 0 ≤ k < 12 → k ≠ P_write → ent_bit k (pte p' D' d t) = ent_bit k (pte p D d t)) ∧
     ∀ x, p' (index (pte p' D' d t)) x = p (index (pte p D d t)) x).

Lemma same_page_trans p1 D1 p2 D2 p3 D3 d t :
  same_page p1 D1 p2 D2 d t → same_page p2 D2 p3 D3 d t → same_page p1 D1 p3 D3 d t.
Proof.
  intros [M1 S1] [M2 S2]. split; [by rewrite M2, M1|]. intros Hm.
  destruct (S1 Hm) as [B1 X1]. destruct (S2 (proj2 M1 Hm)) as [B2 X2].
  split; intros; [by rewrite B2, B1|by rewrite X2, X1].
Qed.

Lemma same_view_page p p' dirs D d t : same_view p p' dirs →
  (D, d) ∈ slots dirs → 0 ≤ t < 1024 → same_page p D p' D d t.
Proof.
  intros [Hd Hp Hx] Hin Ht. unfold same_page, mapped. rewrite (Hd D d Hin). split.
  - split; intros [Hp1 Hp2]; (split; [done|]).
    + by rewrite <- (Hp D d t Hin Hp1 Ht P_present).
    + by rewrite (Hp D d t Hin Hp1 Ht P_present).
  - intros [Hp1 Hp2]. split; [by apply Hp|by apply Hx].
Qed.

(** An entry of an own table changes: no other page does. *)
Lemma entry_others p dirs total Dd T t w D' d' t' : tables_ok p dirs total →
  to_table p dirs Dd T → refs p dirs T = 1 → (D', d') ∈ slots dirs → 0 ≤ t' < 1024 →
  ((D', d'), t') ≠ (Dd, t) → same_page p D' (upd p T t w) D' d' t'.
Proof.
  intros Hok HT H1 Hin Ht' Hne.
  assert (∀ y, upd p T t w D' y = p D' y) as HD.
  { intros y. apply (entry_dir p dirs total Hok Dd T t w HT). by apply elem_of_slots in Hin as [? _]. }
  assert (present (p D' d') = true → pte (upd p T t w) D' d' t' = pte p D' d' t') as Hpte.
  { intros Hp. unfold pte. rewrite HD. apply upd_ne.
    destruct (decide (index (p D' d') = T)) as [E|]; [|auto]. right. intros ->. apply Hne.
    f_equal. by apply (table_unique p dirs total Hok Dd T HT H1). }
  unfold same_page, mapped. rewrite HD. split.
  - split; intros [Hp Hpt]; (split; [done|]); [by rewrite <- Hpte|by rewrite Hpte].
  - intros [Hp Hpt]. rewrite Hpte by done. split; [done|]. intros x. apply upd_ne. left.
    apply (to_sep _ _ _ Hok Dd T (D', d') t'); [done|by eexists].
Qed.
