(* ===== verification/Cow.v ===== *)
(** * Copy on write ([src/src/kernel/memory.c])

    The invariant of the memory manager: the reference count of every page of
    user memory is the number of references from the page tables of all
    processes.  [copy_on_write] keeps it, gives the process that writes a table
    and a page of its own, and changes what no process sees. *)
From S2P Require Import Prelude.
From S2P Require Bitmap.
From S2P Require Import Page.
From S2P Require Import Alloc.
From S2P Require Import Memory.
From S2P Require Import Refs.
From S2P Require Import Tables.

(** [held]: the pages that the running kernel code has taken and not yet
    entered in a table, or taken out of one and not yet put back. *)
Definition count (held : list Z) (i : Z) : Z :=
  zsum (λ j, if j =? i then 1 else 0) held.

(** The page directories of the processes are kernel pages in use, the first
    one apart. *)
Record kmap_ok (map : Bitmap.bitmap_t) (dirs : list Z) : Prop := {
  km_wf : Bitmap.bitmap_wf map;
  km_offset : Bitmap.offset map = 256;
  km_bits : Bitmap.nbits map = 2816;
  km_dirs : ∀ D, D ∈ dirs → D ≠ 1 →
    256 ≤ D < 3072 ∧ Bitmap.bit (Bitmap.bits map) (D - 256) = true }.

Record mem_inv (s : mem) (dirs held : list Z) : Prop := {
  mi_alloc : alloc_ok s;
  mi_paging : paging s = true;
  mi_cr3 : IDX (cr3 s) ∈ dirs;
  mi_total : 4096 < total_pages s;
  mi_start : start_page s ≤ 4096;
  mi_kernel : ∀ i, 0 ≤ i < 4096 → refs_at s i = Some 1;
  mi_refs : ∀ i, 4096 ≤ i < total_pages s →
    refs_at s i = Some (refs (phys s) dirs i + count held i);
  mi_bound : ∀ i v, refs_at s i = Some v → v < 255;
  mi_kmap : kmap_ok (kernel_map s) dirs;
  mi_tables : tables_ok (phys s) dirs (total_pages s) }.

(** What no operation on pages changes. *)
Record same_frame (s s' : mem) : Prop := {
  sf_cr3 : cr3 s' = cr3 s;
  sf_task : task s' = task s;
  sf_kmap : kernel_map s' = kernel_map s;
  sf_total : total_pages s' = total_pages s }.

Lemma same_frame_refl s : same_frame s s.
Proof. done. Qed.
Lemma same_frame_trans s1 s2 s3 : same_frame s1 s2 → same_frame s2 s3 → same_frame s1 s3.
Proof. intros [] []. split; congruence. Qed.

Lemma count_nonneg held i : 0 ≤ count held i.
Proof. apply zsum_nonneg. intros j _. destruct (j =? i); lia. Qed.
Lemma count_cons j held i : count (j :: held) i = (if j =? i then 1 else 0) + count held i.
Proof. done. Qed.

Section inv.
Context (s : mem) (dirs held : list Z) (Hinv : mem_inv s dirs held).

Lemma inv_self : self_map s (IDX (cr3 s)).
Proof using Hinv.
  destruct Hinv. destruct (to_dirs _ _ _ mi_tables0 _ mi_cr4) as [_ _ (Hp & _ & Hi) _].
  by split.
Qed.

Lemma inv_current d : 4 ≤ d < 64 → (IDX (cr3 s), d) ∈ slots dirs.
Proof using Hinv. intros Hd. apply elem_of_slots. split; [apply Hinv|done]. Qed.

Lemma inv_byte i v : refs_at s i = Some v → 0 ≤ v < 256.
Proof using Hinv.
  intros H. by apply (Forall_lookup_1 _ _ _ _ (al_byte _ (mi_alloc _ _ _ Hinv)) H).
Qed.

(** A page that the allocator calls free is in no directory and no table. *)
Lemma inv_free i : start_page s ≤ i < total_pages s → refs_at s i = Some 0 →
  4096 ≤ i < total_pages s ∧ refs (phys s) dirs i = 0 ∧ count held i = 0.
Proof using Hinv.
  intros Hi H0. destruct (Z_lt_ge_dec i 4096).
  - pose proof (al_start _ (mi_alloc _ _ _ Hinv)).
    rewrite (mi_kernel _ _ _ Hinv) in H0 by lia. done.
  - rewrite (mi_refs _ _ _ Hinv) in H0 by lia. injection H0 as H0.
    pose proof (refs_nonneg (phys s) dirs i). pose proof (count_nonneg held i). lia.
Qed.

Lemma inv_table_refs Dd T : to_table (phys s) dirs Dd T →
  refs_at s T = Some (refs (phys s) dirs T + count held T) ∧ 1 ≤ refs (phys s) dirs T.
Proof using Hinv.
  intros HT. split.
  - apply Hinv. by apply (to_tab _ _ _ (mi_tables _ _ _ Hinv) Dd).
  - apply (refs_table _ _ (to_nodup _ _ _ (mi_tables _ _ _ Hinv)) Dd T HT).
Qed.
Lemma inv_page_refs Dd t f : to_page (phys s) dirs Dd t f →
  refs_at s f = Some (refs (phys s) dirs f + count held f) ∧ 1 ≤ refs (phys s) dirs f.
Proof using Hinv.
  intros Hf. split.
  - apply Hinv. by apply (to_pag _ _ _ (mi_tables _ _ _ Hinv) Dd t).
  - apply (refs_page _ _ (to_nodup _ _ _ (mi_tables _ _ _ Hinv)) Dd t f Hf).
Qed.

(** ** The changes of the state *)

(** A page is taken from the allocator. *)
Lemma inv_take i : start_page s ≤ i < total_pages s → refs_at s i = Some 0 →
  mem_inv (set_refs i 1 s <| free_pages := free_pages s - 1 |>) dirs (i :: held).
Proof using Hinv.
  intros Hi H0. destruct (inv_free i Hi H0) as (Hr & Hrz & Hc).
  pose proof Hinv as [Ha Hp Hcr Ht Hst Hk Hre Hbd Hkm Htb].
  split; try done.
  - apply (alloc_ok_set s i 0 1); try done. cbn. lia.
  - intros j Hj. unfold refs_at, set_refs. upd_simpl.
    rewrite list_lookup_insert_ne by lia. by apply Hk.
  - intros j Hj. change (4096 ≤ j < total_pages s) in Hj. unfold refs_at, set_refs. upd_simpl. rewrite count_cons.
    destruct (Z.eqb_spec i j) as [<-|Hne].
    + rewrite list_lookup_insert_eq by (apply lookup_lt_Some in H0; done).
      f_equal. lia.
    + rewrite list_lookup_insert_ne by lia. apply Hre. done.
  - intros j v Hv. unfold refs_at, set_refs in Hv. upd_simpl.
    apply list_lookup_insert_Some in Hv as [(_ & <- & _)|[_ Hv]]; [lia|by apply (Hbd j)].
Qed.

(** A reference that the code holds is given back. *)
Lemma inv_drop i v h : held ≡ₚ i :: h → 4096 ≤ i < total_pages s →
  refs_at s i = Some v →
  1 ≤ v ∧ mem_inv (set_refs i (v - 1) s <| free_pages := free_pages s + dropped v |>) dirs h.
Proof using Hinv.
  intros Hperm Hi Hv. pose proof Hinv as [Ha Hp Hcr Ht Hst Hk Hre Hbd Hkm Htb].
  assert (∀ j, count held j = (if i =? j then 1 else 0) + count h j) as Hcount.
  { intros j. rewrite <- count_cons. unfold count. clear -Hperm.
    induction Hperm; cbn in *; lia. }
  pose proof (Hre i Hi) as Hvi. rewrite Hv in Hvi. injection Hvi as Hvi.
  rewrite Hcount, Z.eqb_refl in Hvi.
  pose proof (refs_nonneg (phys s) dirs i). pose proof (count_nonneg h i).
  pose proof (inv_byte i v Hv). split; [lia|].
  split; try done.
  - apply (alloc_ok_set s i v (v - 1)); try done; [lia|lia|].
    unfold dropped. destruct (Z.eqb_spec v 1), (Z.eqb_spec v 0), (Z.eqb_spec (v - 1) 0); lia.
  - intros j Hj. unfold refs_at, set_refs. upd_simpl.
    rewrite list_lookup_insert_ne by lia. by apply Hk.
  - intros j Hj. change (4096 ≤ j < total_pages s) in Hj. unfold refs_at, set_refs. upd_simpl.
    destruct (Z.eq_dec i j) as [<-|Hne].
    + rewrite list_lookup_insert_eq by (apply lookup_lt_Some in Hv; done). f_equal. lia.
    + rewrite list_lookup_insert_ne by lia. pose proof (Hre j Hj) as Hj'. unfold refs_at in Hj'.
      rewrite Hj', Hcount. by rewrite (proj2 (Z.eqb_neq _ _)) by done.
  - intros j w Hw. unfold refs_at, set_refs in Hw. upd_simpl.
    apply list_lookup_insert_Some in Hw as [(_ & <- & _)|[_ Hw]]; [|by apply (Hbd j)].
    specialize (Hbd i v Hv). lia.
Qed.

(** Memory that no directory and no table occupies is written. *)
Lemma inv_agree p' : agree (phys s) p' dirs → mem_inv (s <| phys := p' |>) dirs held.
Proof using Hinv.
  intros Hag. pose proof Hinv as [Ha Hp Hcr Ht Hst Hk Hre Hbd Hkm Htb]. split; try done.
  - by destruct Ha.
  - intros i Hi. unfold refs_at. upd_simpl. rewrite (agree_refs _ _ _ Hag). by apply Hre.
  - by apply (tables_ok_agree _ _ _ Hag).
Qed.

(** An entry changes: the references move between the tables and [held]. *)
Lemma inv_phys p' h : tables_ok p' dirs (total_pages s) →
  (∀ i, 4096 ≤ i < total_pages s →
     refs p' dirs i + count h i = refs (phys s) dirs i + count held i) →
  mem_inv (s <| phys := p' |>) dirs h.
Proof using Hinv.
  intros Hok Hh. pose proof Hinv as [Ha Hp Hcr Ht Hst Hk Hre Hbd Hkm Htb]. split; try done.
  - by destruct Ha.
  - intros i Hi. unfold refs_at. upd_simpl. rewrite Hh by done. by apply Hre.
Qed.
End inv.

(** ** Reading and writing entries *)
Section entries.
Context (E : stop → Prop) (s : mem) (D : Z) (Hs : self_map s D).

Lemma wp_get_pte va create (Q : Z → mem → Prop) :
  present (phys s D (DIDX va)) = true → Q (tab (DIDX va) 0) s →
  wp E (get_pte va create) Q s.
Proof using Hs.
  intros Hp HQ. pose proof (DIDX_range va). unfold get_pte. cbv zeta.
  rewrite get_pde_tab, table_addr by done. wp_step. apply (wp_ldw_dir E s D Hs); [done|].
  wp_step. apply wp_check_true; [rewrite Hp; by destruct create|].
  wp_step. rewrite Hp. cbn [negb st_when]. wp_step. by wp_step.
Qed.

Lemma wp_get_entry va create (Q : Z → mem → Prop) :
  present (phys s D (DIDX va)) = true → Q (tab (DIDX va) (TIDX va)) s →
  wp E (get_entry va create) Q s.
Proof using Hs.
  intros Hp HQ. unfold get_entry. wp_step. apply wp_get_pte; [done|]. wp_step.
  by rewrite (tab_entry _ _ (DIDX_range va) (TIDX_range va)).
Qed.

Lemma wp_ent_mod_tab d t f (Q : unit → mem → Prop) : 0 ≤ d < 1024 → 0 ≤ t < 1024 →
  present (phys s D d) = true →
  (let T := index (phys s D d) in
   Q tt (s <| phys $= λ p, upd p T t (f (phys s T t)) |>)) →
  wp E (ent_mod (tab d t) f) Q s.
Proof using Hs.
  intros Hd Ht Hp HQ. unfold ent_mod. wp_step.
  apply (wp_ldw_tab E s D Hs); [done|done|done|].
  apply (wp_stw_tab E s D Hs); [done|done|done|exact HQ].
Qed.

Lemma wp_ent_mod_dir d f (Q : unit → mem → Prop) : 0 ≤ d < 1024 →
  Q tt (s <| phys $= λ p, upd p D d (f (phys s D d)) |>) →
  wp E (ent_mod (tab 1023 d) f) Q s.
Proof using Hs.
  intros Hd HQ. apply wp_ent_mod_tab; [done|done|apply Hs|]. cbv zeta.
  by rewrite (sm_index s D Hs).
Qed.
End entries.

Lemma self_map_upd s s' D : self_map s D → paging s' = true → cr3 s' = cr3 s →
  phys s' D 1023 = phys s D 1023 → self_map s' D.
Proof. intros [] H1 H2 H3. split; [done|by rewrite H2|by rewrite H3|by rewrite H3]. Qed.

(** The page [i] is in no directory and no table, and not the kernel's. *)
Lemma inv_free_away s dirs held i p' (Hinv : mem_inv s dirs held) :
  start_page s ≤ i < total_pages s → refs_at s i = Some 0 →
  (∀ f x, f ≠ i → ¬ (f = 2 ∧ x = 0) → p' f x = phys s f x) → agree (phys s) p' dirs.
Proof.
  intros Hi H0 Hp f x Hf. destruct (inv_free s dirs held Hinv i Hi H0) as (Hr & Hz & _).
  pose proof (mi_tables _ _ _ Hinv) as Hok. apply Hp.
  - intros ->. destruct Hf as [HD|[[Dd HT]|[? _]]]; [| |lia].
    + apply (to_dirs _ _ _ Hok) in HD as [? _ _ _]. lia.
    + by apply (proj1 (refs_zero (phys s) dirs (to_nodup _ _ _ Hok) i Hz) Dd).
  - intros [-> ->]. destruct Hf as [HD|[[Dd HT]|[_ Hf]]]; [| |by apply Hf].
    + apply (to_dirs _ _ _ Hok) in HD as [_ ? _ _]. lia.
    + apply (to_tab _ _ _ Hok) in HT. lia.
Qed.

Section copy.
Context (E : stop → Prop) (s : mem) (dirs held : list Z) (Hinv : mem_inv s dirs held).
Context (HE : free_pages s = 0 → E Assert).
Let D := IDX (cr3 s).

Lemma current_ok : dir_ok (phys s) D.
Proof using Hinv. apply (to_dirs _ _ _ (mi_tables _ _ _ Hinv)), Hinv. Qed.

Lemma wp_copy_page page fs (Q : Z → mem → Prop) :
  xlate s page = Some fs → fs ≠ 2 → index (phys s D (DIDX page)) ≠ 2 →
  (∀ i p', start_page s ≤ i < total_pages s → refs_at s i = Some 0 → 1 ≤ free_pages s →
     (∀ x, p' i x = phys s fs x) →
     (∀ f x, f ≠ i → ¬ (f = 2 ∧ x = 0) → p' f x = phys s f x) →
     Q (PAGE i) (set_refs i 1 s <| free_pages := free_pages s - 1 |> <| phys := p' |>)) →
  wp E (copy_page page) Q s.
Proof using Hinv HE.
  intros Hx Hfs Hpath HQ. pose proof (inv_self s dirs held Hinv) as Hself. fold D in Hself.
  destruct current_ok as [Hr Hk (Hsp & _ & Hsi) Htab].
  destruct (Htab 0 ltac:(lia)) as [Hp0 Hi0].
  unfold copy_page. wp_step. apply wp_get_page; [apply Hinv|done|]. intros i Hi H0 H1.
  destruct (inv_free s dirs held Hinv i Hi H0) as ((Hi1 & Hi2) & Hz & _).
  assert (0 ≤ i < 2 ^ 20) as Hi20 by (pose proof (al_total _ (mi_alloc _ _ _ Hinv)); lia).
  set (s1 := set_refs i 1 s <| free_pages := free_pages s - 1 |>).
  assert (self_map s1 D) as Hs1 by (apply (self_map_upd s); [done|apply Hself|done|done]).
  wp_step. apply (wp_get_pte E s1 D Hs1); [done|]. change (DIDX 0) with 0.
  wp_step. unfold entry_init. apply (wp_stw_tab E s1 D Hs1); [lia|lia|exact Hp0|].
  rewrite IDX_PAGE by done. change (phys s1) with (phys s). rewrite Hi0.
  set (s2 := s1 <| phys $= λ p, upd p (2 + 0) 0 (entry_word i) |>).
  assert (phys s2 = upd (phys s) 2 0 (entry_word i)) as Hph2 by done.
  assert (∀ d, phys s2 D d = phys s D d) as HD2.
  { intros d. rewrite Hph2. apply upd_ne. lia. }
  wp_step. unfold memcpy_page. wp_step.
  apply (wp_deref _ _ i).
  { unfold xlate. change (paging s2) with (paging s). change (cr3 s2) with (cr3 s).
    fold D. rewrite (sm_paging _ _ Hself). change (DIDX 0) with 0. change (TIDX 0) with 0.
    cbv zeta. rewrite HD2, Hp0, Hi0, Hph2, upd_eq, ent_index_entry_word by done.
    by unfold P_present; rewrite ent_bit_entry_word by lia. }
  wp_step. apply (wp_deref _ _ fs).
  { rewrite <- Hx. unfold xlate. change (paging s2) with (paging s). change (cr3 s2) with (cr3 s).
    fold D. rewrite (sm_paging _ _ Hself). cbv zeta. rewrite HD2, Hph2.
    by rewrite upd_ne by auto. }
  wp_step.
  set (s3 := s2 <| phys $= _ |>).
  assert (∀ f x, phys s3 f x = if f =? i then phys s2 fs x else phys s2 f x) as Hph3 by done.
  assert (∀ d, phys s3 D d = phys s D d) as HD3.
  { intros d. rewrite Hph3, (proj2 (Z.eqb_neq _ _)) by lia. apply HD2. }
  assert (self_map s3 D) as Hs3.
  { apply (self_map_upd s); [done|apply Hself|done|apply HD3]. }
  wp_step. apply (wp_ent_mod_tab E s3 D Hs3); [lia|lia|by rewrite HD3|]. cbv zeta.
  wp_step. rewrite HD3, Hi0.
  refine (HQ i (upd (phys s3) (2 + 0) 0 _) Hi H0 H1 _ _).
  - intros x. rewrite upd_ne by lia. rewrite Hph3, Z.eqb_refl, Hph2. apply upd_ne. auto.
  - intros f x Hf Hf2. rewrite upd_ne by lia. rewrite Hph3, (proj2 (Z.eqb_neq _ _)) by done.
    rewrite Hph2. apply upd_ne. lia.
Qed.
End copy.

(** ** The copy of a table and of a page *)

Lemma inv_shared s dirs held i v h : mem_inv s dirs held → held ≡ₚ i :: h →
  4096 ≤ i < total_pages s → refs_at s i = Some v → v ≠ 1 →
  mem_inv (set_refs i (v - 1) s) dirs h.
Proof.
  intros Hinv Hh Hi Hv Hne. destruct (inv_drop s dirs held Hinv i v h Hh Hi Hv) as [_ H].
  unfold dropped in H. rewrite (proj2 (Z.eqb_neq _ _) Hne), Z.add_0_r in H. exact H.
Qed.

Lemma tables_ok_same p p' dirs total : (∀ f x, p' f x = p f x) →
  tables_ok p dirs total → tables_ok p' dirs total.
Proof. intros H. apply tables_ok_agree. by intros f x _. Qed.
Lemma refs_same p p' dirs i : (∀ f x, p' f x = p f x) → refs p' dirs i = refs p dirs i.
Proof. intros H. apply agree_refs. by intros f x _. Qed.
Lemma same_view_same p p' dirs : (∀ f x, p' f x = p f x) → same_view p p' dirs.
Proof. intros H. apply same_view_agree; [by intros f x _|by intros]. Qed.

Section copied.
Context (s : mem) (dirs held : list Z) (Hinv : mem_inv s dirs held).
Let p := phys s.
(** [i] is the page taken, [p'] the memory after the copy of [src] to it. *)
Context (i src : Z) (p' : Z → Z → Z).
Context (Hi : start_page s ≤ i < total_pages s) (H0 : refs_at s i = Some 0).
Context (Hold : ∀ f x, f ≠ i → ¬ (f = 2 ∧ x = 0) → p' f x = p f x).

Lemma copied_agree : agree p p' dirs.
Proof using Hinv Hi H0 Hold. by apply (inv_free_away s dirs held i). Qed.

Lemma copied_fresh : 4096 ≤ i < total_pages s ∧ refs p dirs i = 0.
Proof using Hinv Hi H0. by destruct (inv_free s dirs held Hinv i Hi H0) as (? & ? & _). Qed.

Lemma copied_used f : 1 ≤ refs p dirs f → 4096 ≤ f → ∀ x, p' f x = p f x.
Proof using Hinv Hi H0 Hold.
  intros Hf Hr x. apply Hold; [|lia]. intros ->. destruct copied_fresh. lia.
Qed.

Lemma copied_view : same_view p p' dirs.
Proof using Hinv Hi H0 Hold.
  apply same_view_agree; [apply copied_agree|]. intros Dd t f x Hf. apply copied_used.
  - by apply (inv_page_refs s dirs held Hinv Dd t).
  - by apply (to_pag _ _ _ (mi_tables _ _ _ Hinv) Dd t).
Qed.

Let s1 := set_refs i 1 s <| free_pages := free_pages s - 1 |> <| phys := p' |>.

Lemma copied_inv : mem_inv s1 dirs (i :: held).
Proof using Hinv Hi H0 Hold.
  apply inv_agree; [by apply inv_take|]. apply copied_agree.
Qed.

(** The reference to [src] becomes a reference to its copy. *)
Lemma copied_moved p3 v : 4096 ≤ src < total_pages s → 1 ≤ refs p dirs src →
  refs_at s src = Some v → v ≠ 1 →
  tables_ok p3 dirs (total_pages s) →
  (∀ j, refs p3 dirs j =
     refs p' dirs j - (if src =? j then 1 else 0) + (if i =? j then 1 else 0)) →
  mem_inv (set_refs src (v - 1) s1 <| phys := p3 |>) dirs held.
Proof using Hinv Hi H0 Hold.
  intros Hsrc Hused Hv Hne Hok Hrefs.
  assert (src ≠ i) as Hnei by (intros ->; destruct copied_fresh; lia).
  assert (mem_inv (s1 <| phys := p3 |>) dirs (src :: held)) as H3.
  { apply (inv_phys s1 dirs (i :: held)); [apply copied_inv|done|].
    intros j Hj. rewrite Hrefs, !count_cons. change (phys s1) with p'. lia. }
  refine (inv_shared _ dirs _ src v held H3 (reflexivity _) Hsrc _ Hne).
  unfold refs_at, s1, set_refs. upd_simpl. rewrite list_lookup_insert_ne; [exact Hv|].
  destruct copied_fresh. lia.
Qed.
End copied.

(** The directory entry [(D, d)] gets a copy of its table. *)
Lemma copied_table s dirs held i p' D d w p3 v :
  mem_inv s dirs held → start_page s ≤ i < total_pages s → refs_at s i = Some 0 →
  (D, d) ∈ slots dirs → present (phys s D d) = true →
  let T := index (phys s D d) in
  refs_at s T = Some v → v ≠ 1 →
  (∀ x, p' i x = phys s T x) →
  (∀ f x, f ≠ i → ¬ (f = 2 ∧ x = 0) → p' f x = phys s f x) →
  present w = true → index w = i → (∀ f x, p3 f x = upd p' D d w f x) →
  mem_inv (set_refs T (v - 1) (set_refs i 1 s <| free_pages := free_pages s - 1 |>
             <| phys := p' |>) <| phys := p3 |>) dirs held ∧
  same_view (phys s) p3 dirs.
Proof.
  intros Hinv Hi H0 Hin Hp T Hv Hne Hnew Hold Hpw Hiw Hp3.
  pose proof (mi_tables _ _ _ Hinv) as Hok.
  assert (to_table (phys s) dirs (D, d) T) as HT by done.
  destruct (inv_table_refs s dirs held Hinv _ _ HT) as [_ HT1].
  pose proof (to_tab _ _ _ Hok _ _ HT) as HTr.
  pose proof (copied_agree s dirs held Hinv i p' Hi H0 Hold) as Hag.
  destruct (copied_fresh s dirs held Hinv i Hi H0) as [Hir Hiz].
  pose proof (tables_ok_agree _ _ _ Hag _ Hok) as Hok'.
  pose proof (agree_dir _ _ _ Hag D d Hin) as HDd.
  assert (dir_entry_ok p' dirs (total_pages s) D d w) as Hdw.
  { right. rewrite Hiw, (agree_refs _ _ _ Hag). split; [done|]. split; [done|].
    intros t Ht. rewrite HDd, Hp. fold T. rewrite Hnew.
    by rewrite (agree_table _ _ _ Hag (D, d) T). }
  assert (present (p' D d) = true) as Hp' by (by rewrite HDd).
  split.
  - apply (copied_moved s dirs held Hinv i T p' Hi H0 Hold p3 v); try done.
    + eapply tables_ok_same; [exact Hp3|]. by apply tables_ok_dir.
    + intros j. rewrite (refs_same _ _ _ _ Hp3).
      rewrite (dir_refs p' dirs _ Hok' D d w Hin Hpw Hdw), HDd.
      unfold hits. rewrite Hp, Hpw, Hiw. cbn [andb]. done.
  - eapply same_view_trans; [by apply (copied_view s dirs held Hinv i p')|].
    eapply same_view_trans; [by apply (same_view_dir p' dirs _ Hok' D d w)|].
    by apply same_view_same.
Qed.

(** The entry [t] of a table [T] that only [Dd] refers to gets a copy of its page. *)
Lemma copied_page s dirs held i p' Dd T t w p3 v :
  mem_inv s dirs held → start_page s ≤ i < total_pages s → refs_at s i = Some 0 →
  to_table (phys s) dirs Dd T → refs (phys s) dirs T = 1 → 0 ≤ t < 1024 →
  present (phys s T t) = true →
  let P := index (phys s T t) in
  refs_at s P = Some v → v ≠ 1 →
  (∀ x, p' i x = phys s P x) →
  (∀ f x, f ≠ i → ¬ (f = 2 ∧ x = 0) → p' f x = phys s f x) →
  index w = i →
  (∀ k, 0 ≤ k < 12 → k ≠ P_write → ent_bit k w = ent_bit k (phys s T t)) →
  (∀ f x, p3 f x = upd p' T t w f x) →
  mem_inv (set_refs P (v - 1) (set_refs i 1 s <| free_pages := free_pages s - 1 |>
             <| phys := p' |>) <| phys := p3 |>) dirs held ∧
  same_view (phys s) p3 dirs ∧ refs p3 dirs i = 1.
Proof.
  intros Hinv Hi H0 HT H1 Ht Hp P Hv Hne Hnew Hold Hiw Hbits Hp3.
  pose proof (mi_tables _ _ _ Hinv) as Hok.
  assert (to_page (phys s) dirs Dd t P) as HP by (by exists T).
  destruct (inv_page_refs s dirs held Hinv _ _ _ HP) as [_ HP1].
  pose proof (to_pag _ _ _ Hok _ _ _ HP) as HPr.
  pose proof (copied_agree s dirs held Hinv i p' Hi H0 Hold) as Hag.
  destruct (copied_fresh s dirs held Hinv i Hi H0) as [Hir Hiz].
  pose proof (tables_ok_agree _ _ _ Hag _ Hok) as Hok'.
  pose proof (agree_table _ _ _ Hag Dd T t HT) as HTt.
  assert (to_table p' dirs Dd T) as HT' by exact (proj2 (agree_to_table _ _ _ Hag Dd T) HT).
  assert (refs p' dirs T = 1) as H1' by (by rewrite (agree_refs _ _ _ Hag)).
  assert (present w = true) as Hpw by (rewrite <- Hp; by apply Hbits).
  assert (entry_ok p' dirs (total_pages s) T t w) as Hew.
  { intros _. right. by rewrite Hiw, (agree_refs _ _ _ Hag). }
  assert (∀ j, refs p3 dirs j =
     refs p' dirs j - (if P =? j then 1 else 0) + (if i =? j then 1 else 0)) as Hrefs.
  { intros j. rewrite (refs_same _ _ _ _ Hp3).
    rewrite (entry_refs p' dirs _ Hok' Dd T t w HT' H1' Ht), HTt.
    unfold hits. rewrite Hp, Hpw, Hiw. cbn [andb]. done. }
  split; [|split].
  - apply (copied_moved s dirs held Hinv i P p' Hi H0 Hold p3 v); try done.
    eapply tables_ok_same; [exact Hp3|]. by apply (tables_ok_entry p' dirs _ Hok' Dd).
  - eapply same_view_trans; [by apply (copied_view s dirs held Hinv i p')|].
    eapply same_view_trans; [|by apply same_view_same].
    apply (same_view_entry p' dirs _ Hok' Dd T t w HT' H1' Ht Hew).
    + intros k Hk Hkw. rewrite HTt. by apply Hbits.
    + intros _ x. rewrite Hiw, HTt, Hnew. fold P.
      by rewrite (copied_used s dirs held Hinv i p' Hi H0 Hold P) by (done || lia).
  - rewrite Hrefs, (agree_refs _ _ _ Hag), Hiz, Z.eqb_refl.
    rewrite (proj2 (Z.eqb_neq P i)); [lia|]. intros E. fold P in HP1. rewrite E in HP1. lia.
Qed.

(** ** [copy_on_write] *)

(** What one operation keeps: the invariant, and what every process sees; it
    takes at most [k] pages. *)
Record kept (s s' : mem) (dirs held : list Z) (k : Z) : Prop := {
  kp_inv : mem_inv s' dirs held;
  kp_frame : same_frame s s';
  kp_view : same_view (phys s) (phys s') dirs;
  kp_free : free_pages s - k ≤ free_pages s' }.

Lemma kept_refl s dirs held : mem_inv s dirs held → kept s s dirs held 0.
Proof. intros. split; [done|done|apply same_view_refl|lia]. Qed.

Lemma kept_trans s1 s2 s3 dirs h1 h2 k1 k2 :
  kept s1 s2 dirs h1 k1 → kept s2 s3 dirs h2 k2 → kept s1 s3 dirs h2 (k1 + k2).
Proof.
  intros [? F1 V1 ?] [? F2 V2 ?]. split; [done| | |lia].
  - by eapply same_frame_trans.
  - by eapply same_view_trans.
Qed.

(** The running process has the table [d] for itself. *)
Definition owned (s : mem) (d : Z) : Prop :=
  let w := phys s (IDX (cr3 s)) d in present w = true ∧ ent_bit P_write w = true.

(** The word of a copied entry. *)
Lemma copied_word i w : 0 ≤ i < 2 ^ 20 → let w' := ent_set P_write true (ent_set_index i w) in
  index w' = i ∧ ent_bit P_write w' = true ∧
  ∀ k, 0 ≤ k < 12 → k ≠ P_write → ent_bit k w' = ent_bit k w.
Proof.
  intros Hi w'. unfold w', P_write. split; [|split].
  - rewrite ent_index_set by lia. by apply ent_index_set_index.
  - by rewrite ent_bit_set by lia.
  - intros k Hk Hkw. rewrite ent_bit_set by lia.
    rewrite (proj2 (Z.eqb_neq _ _)) by done. by rewrite ent_bit_set_index by lia.
Qed.

(** The running process has the page of the entry [t] of the table [d] for itself,
    unless it is marked shared. *)
Definition own_page (s' : mem) (d t : Z) : Prop :=
  owned s' d ∧ let w := pte (phys s') (IDX (cr3 s')) d t in
  present w = true ∧ ent_bit P_write w = true.

Section cow.
Context (E : stop → Prop) (s : mem) (dirs held : list Z) (Hinv : mem_inv s dirs held).
Let D := IDX (cr3 s).

Lemma wp_cow1 d (Q : unit → mem → Prop) : 0 ≤ d < 1024 →
  Q tt s → wp E (copy_on_write 1 (tab 1023 d)) Q s.
Proof using Hinv.
  intros Hd HQ. pose proof (inv_self s dirs held Hinv) as Hs. fold D in Hs.
  destruct (current_ok s dirs held Hinv) as [_ _ (Hsp & Hsw & _) _]. fold D in Hsp, Hsw.
  cbn [copy_on_write]. destruct (tab_idx 1023 d) as (Hi1 & Hi2 & _); [lia|done|].
  wp_step. apply (wp_get_entry E s D Hs); [by rewrite Hi1|]. rewrite Hi1, Hi2.
  wp_step. wp_step. unfold cow_entry. wp_step. apply (wp_ldw_dir E s D Hs); [lia|].
  rewrite Hsw. by wp_step.
Qed.

Lemma owned_refs d T : owned s d → 4 ≤ d < 64 → index (phys s D d) = T →
  to_table (phys s) dirs (D, d) T ∧ refs (phys s) dirs T = 1.
Proof using Hinv.
  intros [Hp Hw] Hd HT.
  assert (to_table (phys s) dirs (D, d) T) as Ht
    by (split; [by apply (inv_current s dirs held Hinv)|done]).
  split; [done|]. by apply (to_wtab _ _ _ (mi_tables _ _ _ Hinv) (D, d)).
Qed.

(** One reference: the entry is made writable. *)
Lemma kept_write_table d : 4 ≤ d < 64 → present (phys s D d) = true →
  refs_at s (index (phys s D d)) = Some 1 →
  kept s (s <| phys $= λ p, upd p D d (ent_set P_write true (phys s D d)) |>) dirs held 0.
Proof using Hinv.
  intros Hd Hp H1. set (w := phys s D d) in *.
  pose proof (mi_tables _ _ _ Hinv) as Hok.
  pose proof (inv_current s dirs held Hinv d Hd) as Hin. fold D in Hin.
  destruct (inv_table_refs s dirs held Hinv (D, d) (index w)) as [Hr Hr1]; [done|].
  assert (refs (phys s) dirs (index w) = 1) as Hone.
  { rewrite H1 in Hr. injection Hr as Hr. pose proof (count_nonneg held (index w)). lia. }
  destruct (same_ref_set P_write true w ltac:(unfold P_write; lia)) as [Hsp Hsi].
  assert (dir_entry_ok (phys s) dirs (total_pages s) D d (ent_set P_write true w)) as Hw.
  { left. split; [done|]. intros _. by rewrite Hsi. }
  assert (present (ent_set P_write true w) = true) as Hpw by (by rewrite Hsp).
  split; [|done| |upd_simpl; lia].
  - apply (inv_phys s dirs held Hinv _ held).
    + by apply tables_ok_dir.
    + intros i Hi. rewrite (dir_refs _ _ _ Hok D d _ Hin Hpw Hw). fold w.
      rewrite (hits_same w (ent_set P_write true w)) by done. lia.
  - by apply (same_view_dir _ _ _ Hok D d).
Qed.

(** The entry [x] of the table (or directory) [F] that the directory entry [e]
    designates. *)
Section entry.
Context (e x : Z) (He : 0 ≤ e < 1024) (Hx : 0 ≤ x < 1024).
Let F := index (phys s D e).
Let w := phys s F x.
Context (HpF : present (phys s D e) = true) (Hpw : present w = true).
Context (HF1 : F ≠ D ∨ x ≠ e) (HF2 : F ≠ D ∨ x ≠ 1023).
Context (HFa : ∀ p', agree (phys s) p' dirs → ∀ y, p' F y = phys s F y).

Let w_own := ent_set P_write true w.

Lemma self_written p' w' s' : agree (phys s) p' dirs → paging s' = true → cr3 s' = cr3 s →
  (∀ f y, phys s' f y = upd p' F x w' f y) →
  self_map s' D ∧ phys s' D e = phys s D e ∧ phys s' F x = w'.
Proof using Hinv He Hx HF1 HF2.
  intros Hag Hpg Hcr Hph.
  assert (∀ y, p' D y = phys s D y) as HD by (intros; apply Hag; left; apply Hinv).
  pose proof (inv_self s dirs held Hinv) as Hs. fold D in Hs.
  split; [|split].
  - apply (self_map_upd s); [done|done|done|]. rewrite Hph, upd_ne by naive_solver. apply HD.
  - rewrite Hph, upd_ne by naive_solver. apply HD.
  - rewrite Hph. apply upd_eq.
Qed.

(** The entry is re-read at the end. *)
Lemma wp_cow_check s' v (Q : unit → mem → Prop) : self_map s' D →
  present (phys s' D e) = true → index (phys s' D e) = F →
  refs_at s' (index (phys s' F x)) = Some v → 0 < v → Q tt s' →
  wp E (let* w := ldw (tab e x) in
        let* refs := mm_get (ent_index w) in st_check (0 <? refs)) Q s'.
Proof using He Hx.
  intros Hs' Hp' HF' Hv Hv0 HQ. wp_step.
  apply (wp_ldw_tab E s' D Hs'); [done|done|done|]. rewrite HF'.
  wp_step. eapply wp_mm_get; [exact Hv|]. apply wp_check_true; [by apply Z.ltb_lt|done].
Qed.

(** With [v] references to its page: it becomes writable, after a copy to the
    page [i] unless [v] is 1. *)
Lemma wp_cow_entry va v (Q : unit → mem → Prop) :
  refs_at s (index w) = Some v → 1 ≤ v → 1 ≤ refs (phys s) dirs (index w) →
  4096 ≤ index w →
  xlate s (PAGE (IDX va)) = Some (index w) →
  index (phys s D (DIDX (PAGE (IDX va)))) ≠ 2 →
  (free_pages s = 0 → E Assert) →
  (ent_bit P_write w = true → Q tt s) →
  (ent_bit P_write w = false → v = 1 → Q tt (s <| phys $= λ p, upd p F x w_own |>)) →
  (∀ i p' p4, v ≠ 1 → start_page s ≤ i < total_pages s → refs_at s i = Some 0 →
     1 ≤ free_pages s →
     (∀ y, p' i y = phys s (index w) y) →
     (∀ f y, f ≠ i → ¬ (f = 2 ∧ y = 0) → p' f y = phys s f y) →
     (∀ f y, p4 f y = upd p' F x (ent_set P_write true (ent_set_index i w)) f y) →
     Q tt (set_refs (index w) (v - 1)
            (set_refs i 1 s <| free_pages := free_pages s - 1 |> <| phys := p' |>)
            <| phys := p4 |>)) →
  wp E (cow_entry va (tab e x)) Q s.
Proof using Hinv He Hx HpF HF1 HF2 HFa.
  intros Hv Hv1 Hr1 Hw4 Hxl Hpath HE HQ0 HQ1 HQ2.
  pose proof (inv_self s dirs held Hinv) as Hs. fold D in Hs.
  unfold cow_entry. wp_step. apply (wp_ldw_tab E s D Hs); [done|done|done|]. fold F w.
  destruct (ent_bit P_write w) eqn:Hwr; [wp_step; by apply HQ0|].
  wp_step. eapply wp_mm_get; [done|]. wp_step. apply wp_check_true; [apply Z.ltb_lt; lia|].
  wp_step. destruct (Z.eqb_spec v 1) as [->|Hne].
  - apply (wp_ent_mod_tab E s D Hs); [done|done|done|]. cbv zeta. fold F w w_own.
    set (s' := s <| phys $= _ |>).
    destruct (self_written (phys s) w_own s') as (Hs' & HDe & Hw'); [by intros f y _| |done|done|].
    { apply Hs. }
    destruct (same_ref_set P_write true w ltac:(unfold P_write; lia)) as [_ Hsi'].
    apply (wp_cow_check s' 1); [done|by rewrite HDe|by rewrite HDe| |lia|by apply HQ1].
    rewrite Hw'. unfold w_own. rewrite Hsi'. exact Hv.
  - wp_step. apply (wp_copy_page E s dirs held Hinv HE _ (index w)); [done|lia|done|].
    intros i p' Hi H0 H1 Hnew Hold.
    destruct (copied_fresh s dirs held Hinv i Hi H0) as [Hir Hiz].
    assert (0 ≤ i < 2 ^ 20) as Hi20 by (pose proof (al_total _ (mi_alloc _ _ _ Hinv)); lia).
    pose proof (copied_agree s dirs held Hinv i p' Hi H0 Hold) as Hag.
    pose proof (inv_byte s dirs held Hinv _ _ Hv) as Hvb.
    assert (index w ≠ i) as Hwi by (intros Ei; rewrite Ei in Hr1; lia).
    set (s1 := set_refs i 1 s <| free_pages := free_pages s - 1 |> <| phys := p' |>).
    assert (refs_at s1 (index w) = Some v) as HrT'.
    { unfold refs_at, s1, set_refs. upd_simpl. rewrite list_lookup_insert_ne by lia. exact Hv. }
    assert (∀ y, p' D y = phys s D y) as HD by (intros; apply Hag; left; apply Hinv).
    assert (self_map s1 D) as Hs1 by (apply (self_map_upd s); [done|apply Hs|done|apply HD]).
    assert (index (phys s1 D e) = F) as HF' by (change (phys s1) with p'; by rewrite HD).
    assert (present (phys s1 D e) = true) as HpF' by (change (phys s1) with p'; by rewrite HD).
    wp_step. apply (wp_ldw_tab E s1 D Hs1); [done|done|done|].
    rewrite HF'. change (phys s1) with p'. rewrite HFa by done. fold w.
    wp_step. eapply wp_mm_get; [exact HrT'|]. wp_step. eapply wp_mm_set; [exact HrT'|lia|].
    set (s2 := set_refs (index w) (v - 1) s1).
    assert (self_map s2 D) as Hs2 by (apply (self_map_upd s1); [done|apply Hs|done|done]).
    wp_step. apply (wp_ent_mod_tab E s2 D Hs2); [done|done|done|]. cbv zeta.
    change (phys s2 D e) with (phys s1 D e). rewrite HF', IDX_PAGE by done.
    change (phys s2 F x) with (p' F x). rewrite HFa by done. fold w.
    set (s3 := s2 <| phys $= _ |>).
    destruct (self_written p' (ent_set_index i w) s3) as (Hs3 & HDe3 & Hw3);
      [done|apply Hs|done|done|].
    apply (wp_ent_mod_tab E s3 D Hs3); [done|done|by rewrite HDe3|]. cbv zeta.
    rewrite HDe3. fold F. rewrite Hw3.
    set (s4 := s3 <| phys $= _ |>).
    assert (∀ f y, phys s4 f y = upd p' F x (ent_set P_write true (ent_set_index i w)) f y)
      as Hp4.
    { intros f y. unfold s4, s3. upd_simpl. change (phys s2) with p'. unfold upd.
      by destruct (_ && _). }
    destruct (self_written p' _ s4 Hag (sm_paging _ _ Hs) eq_refl Hp4) as (Hs4 & HDe4 & Hw4').
    apply (wp_cow_check s4 1); [done|by rewrite HDe4|by rewrite HDe4| |lia|].
    + rewrite Hw4'. unfold P_write. rewrite ent_index_set, ent_index_set_index by (done || lia).
      unfold refs_at, s4, s3, s2, s1, set_refs. upd_simpl.
      rewrite list_lookup_insert_ne by lia. apply list_lookup_insert_eq.
      by apply lookup_lt_Some in H0.
    + exact (HQ2 i p' (phys s4) Hne Hi H0 H1 Hnew Hold Hp4).
Qed.
End entry.

(** The table [d] is made the running process's own. *)
Lemma wp_cow2 d t (Q : unit → mem → Prop) :
  4 ≤ d < 64 → 0 ≤ t < 1024 → present (phys s D d) = true →
  (free_pages s = 0 → E Assert) →
  (∀ s', kept s s' dirs held 1 → owned s' d →
     (∀ t', 0 ≤ t' < 1024 → pte (phys s') D d t' = pte (phys s) D d t') → Q tt s') →
  wp E (copy_on_write 2 (tab d t)) Q s.
Proof using Hinv.
  intros Hd Ht Hp HE HQ. pose proof (inv_self s dirs held Hinv) as Hs. fold D in Hs.
  destruct (current_ok s dirs held Hinv) as [Hr Hk (Hsp & _ & Hsi) Htab].
  fold D in Hr, Hk, Hsp, Hsi, Htab.
  pose proof (inv_current s dirs held Hinv d Hd) as Hin. fold D in Hin.
  destruct (tab_idx d t) as (Hi1 & Hi2 & _); [lia|done|].
  assert (to_table (phys s) dirs (D, d) (index (phys s D d))) as HT by done.
  pose proof (to_tab _ _ _ (mi_tables _ _ _ Hinv) _ _ HT) as HTr.
  destruct (inv_table_refs s dirs held Hinv _ _ HT) as [HrT HrT1].
  pose proof (count_nonneg held (index (phys s D d))) as Hc0.
  remember (refs (phys s) dirs (index (phys s D d)) + count held (index (phys s D d)))
    as v eqn:Ev.
  change (copy_on_write 2 (tab d t)) with (let* entry := get_entry (tab d t) false in
    do! copy_on_write 1 entry; cow_entry (tab d t) entry).
  wp_step. apply (wp_get_entry E s D Hs); [by rewrite Hi1|]. rewrite Hi1, Hi2.
  wp_step. apply wp_cow1; [lia|].
  assert (PAGE (IDX (tab d t)) = tab d 0) as Hpage.
  { rewrite PAGE_mul by apply IDX_range. unfold tab, PDE_MASK. page_lia. }
  apply (wp_cow_entry 1023 d ltac:(lia) ltac:(lia)) with (v := v);
    rewrite ?Hsi, ?Hpage; [done|lia|lia| |done|lia|lia|lia| | |done| | |].
  - intros p' Hag y. apply Hag. left. apply Hinv.
  - apply (xlate_tab s D Hs); [lia|lia|done].
  - rewrite (proj1 (tab_idx d 0 ltac:(lia) ltac:(lia))), Hsi. lia.
  - intros Hw. apply HQ; [|done|done]. destruct (kept_refl s dirs held Hinv). split; try done. lia.
  - intros _ ->. pose proof (kept_write_table d Hd Hp HrT) as Hkept.
    set (s' := s <| phys $= _ |>) in *.
    assert (phys s' D d = ent_set P_write true (phys s D d)) as Hw'
      by (unfold s'; upd_simpl; apply upd_eq).
    destruct (same_ref_set P_write true (phys s D d) ltac:(unfold P_write; lia)) as [Hsp' Hsi'].
    apply HQ.
    + destruct Hkept. split; try done. lia.
    + unfold owned. change (IDX (cr3 s')) with D. rewrite Hw'. split; [by rewrite Hsp'|].
      by rewrite ent_bit_set.
    + intros t' Ht'. unfold pte. rewrite Hw', Hsi'. unfold s'. upd_simpl. apply upd_ne. lia.
  - intros i p' p4 Hne Hi H0 H1 Hnew Hold Hp4.
    destruct (copied_fresh s dirs held Hinv i Hi H0) as [Hir Hiz].
    assert (0 ≤ i < 2 ^ 20) as Hi20 by (pose proof (al_total _ (mi_alloc _ _ _ Hinv)); lia).
    destruct (copied_word i (phys s D d) Hi20) as (Hiw' & Hww' & Hbits).
    set (w' := ent_set P_write true (ent_set_index i (phys s D d))) in *.
    assert (present w' = true) as Hpw' by (by rewrite Hbits).
    destruct (copied_table s dirs held i p' D d w' p4 v Hinv Hi H0 Hin Hp HrT Hne
      Hnew Hold Hpw' Hiw' Hp4) as [Hinv4 Hview4].
    apply HQ.
    + split; [exact Hinv4|done|exact Hview4|]. unfold set_refs. upd_simpl. lia.
    + unfold owned. upd_simpl. change (IDX (cr3 _)) with D. rewrite Hp4, upd_eq.
      split; [done|]. unfold w', P_write. by rewrite ent_bit_set by lia.
    + intros t' Ht'. unfold pte. upd_simpl. rewrite (Hp4 D d), upd_eq, Hiw', Hp4, upd_ne by lia.
      apply Hnew.
Qed.

(** One reference: the entry of an own table is made writable. *)
Lemma kept_write_page d t T : 4 ≤ d < 64 → 0 ≤ t < 1024 → owned s d →
  index (phys s D d) = T → present (phys s T t) = true →
  refs_at s (index (phys s T t)) = Some 1 →
  kept s (s <| phys $= λ p, upd p T t (ent_set P_write true (phys s T t)) |>) dirs held 0.
Proof using Hinv.
  intros Hd Ht Ho HT Hp H1. set (w := phys s T t) in *.
  destruct (owned_refs d T Ho Hd HT) as [HtT HT1].
  pose proof (mi_tables _ _ _ Hinv) as Hok.
  destruct (inv_page_refs s dirs held Hinv (D, d) t (index w)) as [Hr Hr1]; [by exists T|].
  assert (refs (phys s) dirs (index w) = 1) as Hone.
  { rewrite H1 in Hr. injection Hr as Hr. pose proof (count_nonneg held (index w)). lia. }
  pose proof (same_ref_set P_write true w ltac:(unfold P_write; lia)) as [Hsp Hsi].
  assert (entry_ok (phys s) dirs (total_pages s) T t (ent_set P_write true w)) as Hw.
  { intros _. left. split; [done|]. intros _ _. by rewrite Hsi. }
  split; [|done| |upd_simpl; lia].
  - apply (inv_phys s dirs held Hinv _ held).
    + by apply (tables_ok_entry _ _ _ Hok (D, d)).
    + intros i Hi. rewrite (entry_refs _ _ _ Hok (D, d) T t _ HtT HT1 Ht). fold w.
      rewrite (hits_same w (ent_set P_write true w)) by done. lia.
  - apply (same_view_entry _ _ _ Hok (D, d) T t _ HtT HT1 Ht Hw).
    + intros k Hk Hkw. unfold P_write in *. rewrite ent_bit_set by lia.
      by rewrite (proj2 (Z.eqb_neq _ _)) by done.
    + intros _ x. by rewrite Hsi.
Qed.

(** Several references: the entry of an own table gets a copy. *)
Lemma kept_copied_page d t i p' p4 v : 4 ≤ d < 64 → 0 ≤ t < 1024 → owned s d →
  let w := pte (phys s) D d t in
  present w = true → refs_at s (index w) = Some v → v ≠ 1 →
  start_page s ≤ i < total_pages s → refs_at s i = Some 0 →
  (∀ y, p' i y = phys s (index w) y) →
  (∀ f y, f ≠ i → ¬ (f = 2 ∧ y = 0) → p' f y = phys s f y) →
  (∀ f y, p4 f y =
     upd p' (index (phys s D d)) t (ent_set P_write true (ent_set_index i w)) f y) →
  let s4 := set_refs (index w) (v - 1)
    (set_refs i 1 s <| free_pages := free_pages s - 1 |> <| phys := p' |>) <| phys := p4 |> in
  kept s s4 dirs held 1 ∧ own_page s4 d t.
Proof using Hinv.
  intros Hd Ht Hown w Hpw HrP Hne Hi H0 Hnew Hold Hp4 s4. set (T := index (phys s D d)) in *.
  destruct (owned_refs d T Hown Hd eq_refl) as [HT HT1].
  destruct (copied_fresh s dirs held Hinv i Hi H0) as [Hir Hiz].
  destruct (copied_word i w) as (Hiw' & Hww' & Hbits).
  { pose proof (al_total _ (mi_alloc _ _ _ Hinv)). lia. }
  set (w' := ent_set P_write true (ent_set_index i w)) in *.
  destruct (copied_page s dirs held i p' (D, d) T t w' p4 v Hinv Hi H0 HT HT1 Ht Hpw
    HrP Hne Hnew Hold Hiw' Hbits Hp4) as (Hinv4 & Hview4 & _).
  pose proof (copied_agree s dirs held Hinv i p' Hi H0 Hold) as Hag.
  assert (p4 D d = phys s D d) as HDd.
  { rewrite Hp4, upd_ne; [apply Hag; left; apply Hinv|]. left. intros <-.
    by apply (table_not_dir _ _ _ (mi_tables _ _ _ Hinv) _ _ HT), Hinv. }
  assert (pte p4 D d t = w') as Hpte4 by (unfold pte; rewrite HDd, Hp4; apply upd_eq).
  split.
  - split; [exact Hinv4|done|exact Hview4|]. unfold s4, set_refs. upd_simpl. lia.
  - split.
    + unfold owned, s4. upd_simpl. change (IDX (cr3 _)) with D. by rewrite HDd.
    + unfold s4. upd_simpl. change (IDX (cr3 _)) with D. rewrite Hpte4. split; [|done].
      by rewrite Hbits.
Qed.

(** The page of an own table is made the running process's own. *)
Lemma wp_cow_page va d t (Q : unit → mem → Prop) :
  DIDX va = d → TIDX va = t → 4 ≤ d < 64 → owned s d →
  present (pte (phys s) D d t) = true → (free_pages s = 0 → E Assert) →
  (∀ s', kept s s' dirs held 1 → own_page s' d t → Q tt s') →
  wp E (cow_entry va (tab d t)) Q s.
Proof using Hinv.
  intros <- <-. set (d := DIDX va) in *. set (t := TIDX va) in *. intros Hd Hown Hpt HE HQ.
  pose proof (TIDX_range va) as Ht. fold t in Ht.
  pose proof (inv_self s dirs held Hinv) as Hs. fold D in Hs.
  set (T := index (phys s D d)) in *.
  destruct (owned_refs d T Hown Hd eq_refl) as [HT HT1].
  pose proof (to_tab _ _ _ (mi_tables _ _ _ Hinv) _ _ HT) as HTr.
  set (w := pte (phys s) D d t) in *.
  assert (to_page (phys s) dirs (D, d) t (index w)) as HP by (by exists T).
  destruct (inv_page_refs s dirs held Hinv _ _ _ HP) as [HrP HrP1].
  pose proof (to_pag _ _ _ (mi_tables _ _ _ Hinv) _ _ _ HP) as HPr.
  pose proof (count_nonneg held (index w)) as Hc0.
  remember (refs (phys s) dirs (index w) + count held (index w)) as v eqn:Ev.
  destruct (current_ok s dirs held Hinv) as [Hr Hk _ _]. fold D in Hr, Hk.
  assert (DIDX (PAGE (IDX va)) = d ∧ TIDX (PAGE (IDX va)) = t) as [Hpd Hpt'].
  { rewrite PAGE_mul by apply IDX_range. unfold d, t. split; page_lia. }
  pose proof Hown as [HpD _]. fold D in HpD.
  apply (wp_cow_entry d t ltac:(lia) Ht) with (v := v); try done; try lia; rewrite ?Hpd.
  - intros p' Hag y. apply Hag. eauto.
  - exact (proj1 HPr).
  - unfold xlate. rewrite (sm_paging _ _ Hs), (sm_cr3 _ _ Hs). cbv zeta.
    rewrite Hpd, Hpt', HpD. fold T. change (phys s T t) with w. by rewrite Hpt.
  - fold T. lia.
  - intros Hw. apply HQ; [|done].
    destruct (kept_refl s dirs held Hinv). split; [done|done|done|lia].
  - intros _ ->. fold T. change (phys s T t) with w.
    pose proof (kept_write_page d t T Hd Ht Hown eq_refl Hpt HrP) as Hkept.
    change (phys s T t) with w in Hkept.
    set (s2 := s <| phys $= _ |>) in *.
    assert (phys s2 D d = phys s D d) as HDd by (unfold s2; upd_simpl; apply upd_ne; lia).
    assert (pte (phys s2) D d t = ent_set P_write true w) as Hpte2.
    { unfold pte. rewrite HDd. unfold s2. upd_simpl. apply upd_eq. }
    apply HQ; [destruct Hkept; split; [done|done|done|lia]|].
    split; [unfold owned; change (cr3 s2) with (cr3 s); fold D; by rewrite HDd|].
    change (cr3 s2) with (cr3 s). fold D. rewrite Hpte2. split; [|by rewrite ent_bit_set].
    by rewrite (proj1 (same_ref_set P_write true w ltac:(unfold P_write; lia))).
  - intros i p' p4 Hne Hi H0 H1 Hnew Hold Hp4.
    destruct (kept_copied_page d t i p' p4 v) as [Hkept Hown4]; try done. by apply HQ.
Qed.
End cow.

(** A page of the running process is made its own. *)
Lemma wp_cow3 E s dirs held va (Q : unit → mem → Prop) (Hinv : mem_inv s dirs held) :
  let D := IDX (cr3 s) in let d := DIDX va in let t := TIDX va in
  4 ≤ d < 64 → present (phys s D d) = true → present (pte (phys s) D d t) = true →
  (free_pages s ≤ 1 → E Assert) →
  (∀ s', kept s s' dirs held 2 → own_page s' d t → Q tt s') →
  wp E (copy_on_write 3 va) Q s.
Proof.
  intros D d t Hd Hp Hpt HE HQ. pose proof (TIDX_range va) as Ht. fold t in Ht.
  pose proof (inv_self s dirs held Hinv) as Hs. fold D in Hs.
  change (copy_on_write 3 va) with (let* entry := get_entry va false in
    do! copy_on_write 2 entry; cow_entry va entry).
  wp_step. apply (wp_get_entry E s D Hs); [done|]. fold d t. wp_step.
  pose proof (free_range s (mi_alloc _ _ _ Hinv)) as Hfr.
  apply (wp_cow2 E s dirs held Hinv d t); [done|done|done|intros; apply HE; lia|].
  intros s1 Hk1 Hown Hpte. pose proof Hk1 as [Hinv1 [Hcr _ _ _] Hview Hfree].
  apply (wp_cow_page E s1 dirs held Hinv1 va d t); try done.
  - rewrite Hcr. fold D. rewrite Hpte; done.
  - intros. apply HE. lia.
  - intros s2 Hk2 Hown2. apply HQ; [|done].
    by apply (kept_trans s s1 s2 dirs held held 1 1).
Qed.
