(* ===== verification/Fault.v ===== *)
(** * Linking, unlinking and page faults ([src/src/kernel/memory.c])

    [link_page], [unlink_page] and [page_fault] keep the reference counts exact
    and change the memory of one process at one page only. *)
From S2P Require Import Prelude.
From S2P Require Bitmap.
From S2P Require Import Page.
From S2P Require Import Alloc.
From S2P Require Import Memory.
From S2P Require Import Refs.
From S2P Require Import Tables.
From S2P Require Import Cow.

(** Only the pages of [X] change for some process; [k] pages are taken at most. *)
Record changed (X : Z * Z * Z → Prop) (s s' : mem) (dirs held : list Z) (k : Z) : Prop := {
  ch_inv : mem_inv s' dirs held;
  ch_frame : same_frame s s';
  ch_pages : ∀ D d t, (D, d) ∈ slots dirs → 0 ≤ t < 1024 → ¬ X (D, d, t) →
    same_page (phys s) D (phys s') D d t;
  ch_free : free_pages s - k ≤ free_pages s' }.

Lemma kept_changed X s s' dirs held k : kept s s' dirs held k → changed X s s' dirs held k.
Proof.
  intros []. split; try done. intros. by apply (same_view_page _ _ dirs).
Qed.
Lemma changed_refl X s dirs held k : 0 ≤ k → mem_inv s dirs held → changed X s s dirs held k.
Proof. intros. split; try done. lia. Qed.
Lemma changed_trans X s1 s2 s3 dirs h1 h2 k1 k2 :
  changed X s1 s2 dirs h1 k1 → changed X s2 s3 dirs h2 k2 →
  changed X s1 s3 dirs h2 (k1 + k2).
Proof.
  intros [? F1 V1 ?] [? F2 V2 ?]. split; [done| | |lia].
  - by eapply same_frame_trans.
  - intros D d t Hin Ht HX. eapply same_page_trans; [by apply V1|by apply V2].
Qed.

(** Nothing is changed. *)
Definition nowhere : Z * Z * Z → Prop := λ _, False.

(** ** A new page table *)
Section created.
Context (s : mem) (dirs held : list Z) (Hinv : mem_inv s dirs held).
Context (i D d : Z) (p' : Z → Z → Z).
Context (Hi : start_page s ≤ i < total_pages s) (H0 : refs_at s i = Some 0).
Context (Hin : (D, d) ∈ slots dirs) (Hp : present (phys s D d) = false).
Context (Hp' : ∀ f x, p' f x = if f =? i then 0 else upd (phys s) D d (entry_word i) f x).

Let p0 : Z → Z → Z := λ f x, if f =? i then 0 else phys s f x.

Lemma created_agree : agree (phys s) p0 dirs.
Proof using Hinv Hi H0.
  apply (inv_free_away s dirs held i); [done|done|done|].
  intros f x Hf _. unfold p0. by rewrite (proj2 (Z.eqb_neq _ _)).
Qed.

Lemma created_fresh : 4096 ≤ i < total_pages s ∧ refs (phys s) dirs i = 0 ∧ 0 < D < 4096.
Proof using Hinv Hi H0 Hin.
  destruct (inv_free s dirs held Hinv i Hi H0) as (? & ? & _).
  apply elem_of_slots in Hin as [HD _].
  by destruct (to_dirs _ _ _ (mi_tables _ _ _ Hinv) D HD).
Qed.

Lemma created_word : present (entry_word i) = true ∧ index (entry_word i) = i ∧
  ent_bit P_write (entry_word i) = true.
Proof using Hinv Hi.
  unfold P_present, P_write. rewrite !ent_bit_entry_word by lia.
  rewrite ent_index_entry_word; [done|].
  pose proof (al_total _ (mi_alloc _ _ _ Hinv)). pose proof (al_start _ (mi_alloc _ _ _ Hinv)). lia.
Qed.

Lemma created_same f x : p' f x = upd p0 D d (entry_word i) f x.
Proof using Hinv Hi H0 Hin Hp'.
  destruct created_fresh as (? & _ & ?). rewrite Hp'. unfold p0, upd.
  destruct (Z.eqb_spec f i) as [->|]; [|done]. by rewrite (proj2 (Z.eqb_neq i D)) by lia.
Qed.

Lemma created_page D' d' t : (D', d') ∈ slots dirs → 0 ≤ t < 1024 →
  same_page (phys s) D' p' D' d' t.
Proof using Hinv Hi H0 Hin Hp Hp'.
  destruct created_fresh as (Hir & Hz & HD). destruct created_word as (_ & Hiw & _).
  intros Hin' Ht. destruct (decide ((D', d') = (D, d))) as [[= -> ->]|Hne].
  - unfold same_page, mapped, pte. rewrite Hp. split; [|by intros []].
    split; [|by intros []]. intros [_ Hpt]. exfalso. revert Hpt.
    rewrite (Hp' D d), (proj2 (Z.eqb_neq D i)) by lia.
    rewrite upd_eq, Hiw, Hp', Z.eqb_refl. done.
  - assert (p' D' d' = phys s D' d') as HDd.
    { rewrite created_same, upd_ne by (destruct (decide (D' = D)); [right; naive_solver|auto]).
      by apply (agree_dir _ _ _ created_agree). }
    pose proof (mi_tables _ _ _ Hinv) as Hok.
    assert (∀ f x, 1 ≤ refs (phys s) dirs f → 4096 ≤ f → p' f x = phys s f x) as Hx.
    { intros f x Hf Hf4. rewrite Hp', (proj2 (Z.eqb_neq f i)) by (intros ->; lia).
      apply upd_ne. lia. }
    assert (present (phys s D' d') = true → ∀ x, pte p' D' d' x = pte (phys s) D' d' x) as Hpte.
    { intros Hpd x. unfold pte. rewrite HDd.
      assert (to_table (phys s) dirs (D', d') (index (phys s D' d'))) as HT by done.
      apply Hx; [by apply (inv_table_refs s dirs held Hinv (D', d'))|].
      by apply (to_tab _ _ _ Hok (D', d')). }
    unfold same_page, mapped. rewrite HDd. split.
    + split; intros [Hpd Hpt]; (split; [done|]); [by rewrite <- Hpte|by rewrite Hpte].
    + intros [Hpd Hpt]. rewrite Hpte by done. split; [done|]. intros x.
      assert (to_page (phys s) dirs (D', d') t (index (pte (phys s) D' d' t))) as HP
        by (by eexists).
      apply Hx; [by apply (inv_page_refs s dirs held Hinv (D', d') t)|].
      by apply (to_pag _ _ _ Hok (D', d') t).
Qed.

Lemma created_inv :
  mem_inv (set_refs i 1 s <| free_pages := free_pages s - 1 |> <| phys := p' |>) dirs held.
Proof using Hinv Hi H0 Hin Hp Hp'.
  destruct created_fresh as (Hir & Hz & HD). destruct created_word as (Hpw & Hiw & _).
  pose proof (tables_ok_agree _ _ _ created_agree _ (mi_tables _ _ _ Hinv)) as Hok0.
  assert (p0 D d = phys s D d) as Hp0 by by apply (agree_dir _ _ _ created_agree).
  assert (dir_entry_ok p0 dirs (total_pages s) D d (entry_word i)) as Hw.
  { right. rewrite Hiw, (agree_refs _ _ _ created_agree). split; [done|]. split; [done|].
    intros t _. rewrite Hp0, Hp. unfold p0. by rewrite Z.eqb_refl. }
  apply (inv_phys (set_refs i 1 s <| free_pages := free_pages s - 1 |>) dirs (i :: held)).
  - by apply inv_take.
  - eapply tables_ok_same; [apply created_same|]. by apply tables_ok_dir.
  - intros j Hj. rewrite (refs_same _ _ _ _ created_same).
    rewrite (dir_refs p0 dirs _ Hok0 D d _ Hin Hpw Hw), Hp0, count_cons.
    rewrite (agree_refs _ _ _ created_agree). unfold hits. rewrite Hp, Hpw, Hiw. cbn [andb].
    upd_simpl. change (phys (set_refs i 1 s)) with (phys s). lia.
Qed.
End created.

(** A page just linked: the running process's own, and not shared. *)
Definition new_page (s : mem) (d t : Z) : Prop :=
  own_page s d t ∧ ent_bit P_shared (pte (phys s) (IDX (cr3 s)) d t) = false.

Section link.
Context (E : stop → Prop) (s : mem) (dirs held : list Z) (Hinv : mem_inv s dirs held).
Let D := IDX (cr3 s).

(** The page table of an address, created when there is none. *)
Lemma wp_get_pte_create va (Q : Z → mem → Prop) : let d := DIDX va in
  4 ≤ d < 64 → (free_pages s = 0 → E Assert) →
  (present (phys s D d) = true → Q (tab d 0) s) →
  (present (phys s D d) = false → ∀ s', changed nowhere s s' dirs held 1 → owned s' d →
     (∀ t, pte (phys s') D d t = 0) → Q (tab d 0) s') →
  wp E (get_pte va true) Q s.
Proof using Hinv.
  intros d Hd HE HQ1 HQ2. pose proof (inv_self s dirs held Hinv) as Hs. fold D in Hs.
  destruct (present (phys s D d)) eqn:Hp; [by apply (wp_get_pte E s D Hs); auto|].
  pose proof (inv_current s dirs held Hinv d Hd) as Hin. fold D in Hin.
  unfold get_pte. cbv zeta. fold d. rewrite get_pde_tab, table_addr by lia.
  wp_step. apply (wp_ldw_dir E s D Hs); [lia|]. wp_step. apply wp_check_true; [done|].
  wp_step. rewrite Hp. cbn [negb st_when]. wp_step. apply wp_get_page; [apply Hinv|done|].
  intros i Hi H0 H1.
  destruct (created_fresh s dirs held Hinv i D d Hi H0 Hin) as (Hir & Hz & HD).
  destruct (created_word s dirs held Hinv i Hi) as (Hpw & Hiw & Hww).
  set (s1 := set_refs i 1 s <| free_pages := free_pages s - 1 |>).
  assert (self_map s1 D) as Hs1 by (apply (self_map_upd s); [done|apply Hs|done|done]).
  wp_step. unfold entry_init. apply (wp_stw_dir E s1 D Hs1); [lia|].
  rewrite IDX_PAGE by (pose proof (al_total _ (mi_alloc _ _ _ Hinv)); lia).
  set (s2 := s1 <| phys $= _ |>).
  assert (∀ f x, phys s2 f x = upd (phys s) D d (entry_word i) f x) as Hp2 by done.
  assert (self_map s2 D) as Hs2.
  { apply (self_map_upd s1); [done|apply Hs|done|]. rewrite Hp2. apply upd_ne. lia. }
  assert (phys s2 D d = entry_word i) as Hw2 by (rewrite Hp2; apply upd_eq).
  unfold memset_page. wp_step. apply (wp_deref _ _ i).
  { rewrite <- Hiw, <- Hw2 at 1. apply (xlate_tab s2 D Hs2); [lia|lia|by rewrite Hw2]. }
  wp_step. wp_step. set (s3 := s2 <| phys $= _ |>).
  assert (∀ f x, phys s3 f x = if f =? i then 0 else upd (phys s) D d (entry_word i) f x) as Hp3
    by done.
  assert (phys s3 D d = entry_word i) as Hw3.
  { rewrite Hp3, (proj2 (Z.eqb_neq D i)) by lia. apply upd_eq. }
  apply HQ2; [done| | |].
  - split.
    + exact (created_inv s dirs held Hinv i D d (phys s3) Hi H0 Hin Hp Hp3).
    + done.
    + intros D' d' t Hin' Ht _.
      exact (created_page s dirs held Hinv i D d (phys s3) Hi H0 Hin Hp Hp3 D' d' t Hin' Ht).
    + unfold s3, s2, s1, set_refs. upd_simpl. lia.
  - unfold owned. change (IDX (cr3 s3)) with D. by rewrite Hw3.
  - intros t. unfold pte. by rewrite Hw3, Hiw, Hp3, Z.eqb_refl.
Qed.

(** An own table is left as it is. *)
Lemma wp_cow2_owned d t (Q : unit → mem → Prop) : 4 ≤ d < 64 → 0 ≤ t < 1024 → owned s d →
  Q tt s → wp E (copy_on_write 2 (tab d t)) Q s.
Proof using Hinv.
  intros Hd Ht [Hp Hw] HQ. fold D in Hp, Hw.
  pose proof (inv_self s dirs held Hinv) as Hs. fold D in Hs.
  destruct (tab_idx d t) as (Hi1 & Hi2 & _); [lia|done|].
  destruct (current_ok s dirs held Hinv) as [_ _ (Hsp & _ & _) _]. fold D in Hsp.
  change (copy_on_write 2 (tab d t)) with (let* entry := get_entry (tab d t) false in
    do! copy_on_write 1 entry; cow_entry (tab d t) entry).
  wp_step. apply (wp_get_entry E s D Hs); [by rewrite Hi1|]. rewrite Hi1, Hi2.
  wp_step. apply (wp_cow1 E s dirs held Hinv); [lia|]. unfold cow_entry.
  wp_step. apply (wp_ldw_dir E s D Hs); [lia|]. rewrite Hw. by wp_step.
Qed.

(** An absent entry of an own table takes the free page [i]. *)
Lemma linked_page d t i : 4 ≤ d < 64 → 0 ≤ t < 1024 → owned s d →
  present (pte (phys s) D d t) = false →
  start_page s ≤ i < total_pages s → refs_at s i = Some 0 →
  let s' := set_refs i 1 s <| free_pages := free_pages s - 1 |>
     <| phys $= λ p, upd p (index (phys s D d)) t (entry_word i) |> in
  changed (λ x, x = (D, d, t)) s s' dirs held 1 ∧ new_page s' d t.
Proof using Hinv.
  intros Hd Ht Hown Hpt Hi H0 s'. set (T := index (phys s D d)).
  destruct (owned_refs s dirs held Hinv d T Hown Hd eq_refl) as [HT HT1]. fold D in HT.
  destruct (inv_free s dirs held Hinv i Hi H0) as (Hir & Hz & _).
  destruct (created_word s dirs held Hinv i Hi) as (Hpw & Hiw & Hww).
  pose proof (mi_tables _ _ _ Hinv) as Hok.
  assert (entry_ok (phys s) dirs (total_pages s) T t (entry_word i)) as Hw.
  { intros _. right. by rewrite Hiw. }
  assert (phys s' D d = phys s D d) as HDd.
  { apply (entry_dir _ _ _ Hok (D, d) T t _ HT). apply Hinv. }
  assert (pte (phys s') D d t = entry_word i) as Hpte.
  { unfold pte. rewrite HDd. apply upd_eq. }
  split; [split|split; [split|]].
  - apply (inv_phys (set_refs i 1 s <| free_pages := free_pages s - 1 |>) dirs (i :: held)).
    + by apply inv_take.
    + by apply (tables_ok_entry _ _ _ Hok (D, d)).
    + intros j Hj.
      etransitivity; [apply f_equal2; [exact (entry_refs _ _ _ Hok (D, d) T t _ HT HT1 Ht j)|reflexivity]|].
      change (phys s T t) with (pte (phys s) D d t). rewrite count_cons.
      unfold hits. rewrite Hpt, Hpw, Hiw. cbn [andb].
      change (phys (set_refs i 1 s <| free_pages := free_pages s - 1 |>)) with (phys s). lia.
  - done.
  - intros D' d' t' Hin' Ht' Hne. apply (entry_others _ _ _ (D, d) T t _ D' d' t' Hok HT HT1);
      [done|done|]. intros [= -> -> ->]. by apply Hne.
  - unfold s', set_refs. upd_simpl. lia.
  - unfold owned. change (IDX (cr3 s')) with D. by rewrite HDd.
  - change (IDX (cr3 s')) with D. by rewrite Hpte.
  - change (IDX (cr3 s')) with D. rewrite Hpte. by unfold P_shared; rewrite ent_bit_entry_word.
Qed.

(** An entry of an own table is cleared, and its page loses a reference. *)
Lemma unlinked_page d t : 4 ≤ d < 64 → 0 ≤ t < 1024 → owned s d →
  let P := index (pte (phys s) D d t) in
  present (pte (phys s) D d t) = true →
  let s1 := s <| phys $= λ p, upd p (index (phys s D d)) t
                 (ent_set P_present false (pte (phys s) D d t)) |> in
  mem_inv s1 dirs (P :: held) ∧ 4096 ≤ P < total_pages s ∧
  ¬ mapped (phys s1) D d t ∧ index (phys s1 (index (phys s D d)) t) = P ∧
  (∀ D' d' t', (D', d') ∈ slots dirs → 0 ≤ t' < 1024 → (D', d', t') ≠ (D, d, t) →
     same_page (phys s) D' (phys s1) D' d' t').
Proof using Hinv.
  intros Hd Ht Hown P Hpt s1. set (T := index (phys s D d)). set (w := pte (phys s) D d t) in *.
  destruct (owned_refs s dirs held Hinv d T Hown Hd eq_refl) as [HT HT1]. fold D in HT.
  pose proof (mi_tables _ _ _ Hinv) as Hok.
  assert (to_page (phys s) dirs (D, d) t P) as HP by (by exists T).
  assert (present (ent_set P_present false w) = false) as Hpw
    by (unfold P_present; by rewrite ent_bit_set by lia).
  assert (entry_ok (phys s) dirs (total_pages s) T t (ent_set P_present false w)) as Hw.
  { intros E'. by rewrite Hpw in E'. }
  assert (phys s1 D d = phys s D d) as HDd.
  { apply (entry_dir _ _ _ Hok (D, d) T t _ HT). apply Hinv. }
  assert (phys s1 T t = ent_set P_present false w) as HTt by apply upd_eq.
  split; [|split; [|split; [|split]]].
  - apply (inv_phys s dirs held Hinv).
    + by apply (tables_ok_entry _ _ _ Hok (D, d)).
    + intros j Hj. rewrite count_cons.
      etransitivity; [apply f_equal2; [exact (entry_refs _ _ _ Hok (D, d) T t _ HT HT1 Ht j)|reflexivity]|].
      change (phys s T t) with w. unfold hits. rewrite Hpt, Hpw. cbn [andb]. fold P. lia.
  - by apply (to_pag _ _ _ Hok (D, d) t).
  - unfold mapped, pte. rewrite HDd. fold T. rewrite HTt, Hpw. by intros [_ ?].
  - rewrite HTt. by apply ent_index_set.
  - intros D' d' t' Hin' Ht' Hne. apply (entry_others _ _ _ (D, d) T t _ D' d' t' Hok HT HT1);
      [done|done|]. intros [= -> -> ->]. by apply Hne.
Qed.
End link.

(** ** [link_page], [unlink_page], [page_fault] *)

(** User memory. *)
Definition user_addr (va : Z) : Prop := USER_EXEC_ADDR ≤ va < USER_STACK_TOP.

Lemma user_addr_didx va : user_addr va → 4 ≤ DIDX va < 64.
Proof. unfold user_addr, USER_EXEC_ADDR, KERNEL_MEMORY_SIZE, USER_STACK_TOP. page_lia. Qed.

(** The page of [va] in the running process. *)
Definition here (s : mem) (va : Z) : Z * Z * Z → Prop :=
  λ x, x = (IDX (cr3 s), DIDX va, TIDX va).
Definition mapped_at (s : mem) (va : Z) : Prop :=
  mapped (phys s) (IDX (cr3 s)) (DIDX va) (TIDX va).

Section ops.
Context (E : stop → Prop) (s : mem) (dirs held : list Z) (Hinv : mem_inv s dirs held).
Let D := IDX (cr3 s).

(** The new page of [link_page], once its table is the process's own. *)
Lemma wp_link_owned s' d t k (Q : unit → mem → Prop) X :
  changed X s s' dirs held k → X (D, d, t) → owned s' d → 4 ≤ d < 64 → 0 ≤ t < 1024 →
  present (pte (phys s') D d t) = false → (free_pages s' = 0 → E Assert) →
  (∀ s2, changed X s s2 dirs held (k + 1) → new_page s2 d t → Q tt s2) →
  wp E (let* paddr := get_page in entry_init (tab d t) (IDX paddr)) Q s'.
Proof using.
  intros Hch HX Hown Hd Ht Hpt HE HQ. pose proof Hch as [Hinv' [Hcr _ _ _] _ _].
  pose proof (inv_self s' dirs held Hinv') as Hs'. rewrite Hcr in Hs'. fold D in Hs'.
  wp_step. apply wp_get_page; [apply Hinv'|done|]. intros i Hi H0 H1.
  destruct (inv_free s' dirs held Hinv' i Hi H0) as (Hir & _).
  unfold entry_init.
  pose proof (linked_page s' dirs held Hinv' d t i Hd Ht Hown) as Hl.
  rewrite Hcr in Hl. fold D in Hl. destruct (Hl Hpt Hi H0) as [Hc Ho]. clear Hl.
  set (s1 := set_refs i 1 s' <| free_pages := free_pages s' - 1 |>).
  assert (self_map s1 D) as Hs1 by (apply (self_map_upd s'); [done|apply Hs'|done|done]).
  apply (wp_stw_tab E s1 D Hs1); [lia|done| |].
  { destruct Hown as [Hp _]. by rewrite Hcr in Hp. }
  rewrite IDX_PAGE by (pose proof (al_total _ (mi_alloc _ _ _ Hinv')); lia).
  apply HQ; [|exact Ho].
  eapply changed_trans; [exact Hch|]. destruct Hc as [C1 C2 C3 C4].
  split; [exact C1|exact C2| |exact C4].
  intros D' d' t' Hin' Ht' Hne. apply C3; [done|done|].
  intros [= -> -> ->]. by apply Hne.
Qed.

Lemma wp_link_page va (Q : unit → mem → Prop) :
  user_addr va → va `mod` 4096 = 0 → (free_pages s ≤ 1 → E Assert) →
  (mapped_at s va → Q tt s) →
  (¬ mapped_at s va → ∀ s', changed (here s va) s s' dirs held 2 →
     new_page s' (DIDX va) (TIDX va) → Q tt s') →
  wp E (link_page va) Q s.
Proof using Hinv.
  intros Hva Hal HE HQ1 HQ2. pose proof (user_addr_didx va Hva) as Hd.
  pose proof (TIDX_range va) as Ht. unfold here, mapped_at in *. fold D in HQ1, HQ2.
  set (d := DIDX va) in *. set (t := TIDX va) in *.
  pose proof (inv_self s dirs held Hinv) as Hs. fold D in Hs.
  pose proof (free_range s (mi_alloc _ _ _ Hinv)) as Hfr.
  unfold link_page. wp_step. apply wp_check_true; [by apply ASSERT_PAGE_true|].
  wp_step. unfold get_entry. wp_step.
  apply (wp_get_pte_create E s dirs held Hinv va); fold d; fold D; [done|intros; apply HE; lia| |].
  - intros Hp. wp_step. fold t. rewrite tab_entry by lia. wp_step.
    apply (wp_ldw_tab E s D Hs); [lia|done|done|].
    change (phys s (index (phys s D d)) t) with (pte (phys s) D d t).
    destruct (present (pte (phys s) D d t)) eqn:Hpt; [wp_step; by apply HQ1|].
    wp_step. apply (wp_cow2 E s dirs held Hinv); [done|done|done|intros; apply HE; lia|].
    intros s1 Hk Hown Hpte. fold D in Hpte.
    assert (¬ mapped (phys s) D d t) as Hno by (intros [_ E']; congruence).
    apply (wp_link_owned s1 d t 1 Q (λ x, x = (D, d, t))); try done.
    + by apply kept_changed.
    + by rewrite Hpte.
    + intros Hf. apply HE. destruct Hk. lia.
    + by apply HQ2.
  - intros Hp s1 Hch Hown Hz. pose proof Hch as [Hinv1 [Hcr _ _ _] Hpg Hfree].
    assert (¬ mapped (phys s) D d t) as Hno by (intros [E' _]; congruence).
    pose proof (inv_self s1 dirs held Hinv1) as Hs1. rewrite Hcr in Hs1. fold D in Hs1.
    wp_step. fold t. rewrite tab_entry by lia. wp_step.
    apply (wp_ldw_tab E s1 D Hs1); [lia|done| |].
    { destruct Hown as [Hp1 _]. by rewrite Hcr in Hp1. }
    change (phys s1 (index (phys s1 D d)) t) with (pte (phys s1) D d t). rewrite Hz.
    change (present 0) with false. cbv iota. wp_step.
    apply (wp_cow2_owned E s1 dirs held Hinv1); [done|done|done|].
    apply (wp_link_owned s1 d t 1 Q (λ x, x = (D, d, t))); try done.
    + destruct Hch as [C1 C2 C3 C4]. split; [done|done| |done].
      intros D' d' t' Hin' Ht' _. by apply C3; [..|intros []].
    + by rewrite Hz.
    + intros Hf. apply HE. lia.
    + by apply HQ2.
Qed.

Lemma wp_unlink_page va (Q : unit → mem → Prop) :
  user_addr va → va `mod` 4096 = 0 → (free_pages s ≤ 1 → E Assert) →
  (¬ mapped_at s va → Q tt s) →
  (mapped_at s va → ∀ s', changed (here s va) s s' dirs held 1 → ¬ mapped_at s' va → Q tt s') →
  wp E (unlink_page va) Q s.
Proof using Hinv.
  intros Hva Hal HE HQ1 HQ2. pose proof (user_addr_didx va Hva) as Hd.
  pose proof (TIDX_range va) as Ht. unfold here, mapped_at in *. fold D in HQ1, HQ2.
  set (d := DIDX va) in *. set (t := TIDX va) in *.
  pose proof (inv_self s dirs held Hinv) as Hs. fold D in Hs.
  pose proof (free_range s (mi_alloc _ _ _ Hinv)) as Hfr.
  unfold unlink_page. wp_step. apply wp_check_true; [by apply ASSERT_PAGE_true|].
  fold d. rewrite get_pde_tab by lia. wp_step. apply (wp_ldw_dir E s D Hs); [lia|].
  destruct (present (phys s D d)) eqn:Hp; cbn [negb]; cycle 1.
  { wp_step. apply HQ1. intros [E' _]. congruence. }
  wp_step. apply (wp_get_entry E s D Hs); [done|]. fold d t. wp_step.
  apply (wp_ldw_tab E s D Hs); [lia|done|done|].
  change (phys s (index (phys s D d)) t) with (pte (phys s) D d t).
  destruct (present (pte (phys s) D d t)) eqn:Hpt; cbn [negb]; cycle 1.
  { wp_step. apply HQ1. intros [_ E']. congruence. }
  wp_step. apply (wp_cow2 E s dirs held Hinv); [done|done|done|intros; apply HE; lia|].
  intros s1 Hk Hown Hpte. fold D in Hpte. pose proof Hk as [Hinv1 [Hcr _ _ Htot] _ Hfree].
  pose proof (inv_self s1 dirs held Hinv1) as Hs1. rewrite Hcr in Hs1. fold D in Hs1.
  pose proof Hown as [Hp1 _]. rewrite Hcr in Hp1. fold D in Hp1.
  pose proof (unlinked_page s1 dirs held Hinv1 d t Hd Ht Hown) as Hu.
  rewrite Hcr in Hu. fold D in Hu. cbv zeta in Hu. rewrite Hpte in Hu by done.
  destruct (Hu Hpt) as (Hinv2 & HPr & Hun & Hidx & Hoth). clear Hu.
  set (P := index (pte (phys s) D d t)) in *.
  wp_step. apply (wp_ent_mod_tab E s1 D Hs1); [lia|done|done|]. cbv zeta.
  change (phys s1 (index (phys s1 D d)) t) with (pte (phys s1) D d t). rewrite Hpte by done.
  set (s2 := s1 <| phys $= _ |>) in *.
  pose proof (inv_self s2 dirs _ Hinv2) as Hs2. change (IDX (cr3 s2)) with (IDX (cr3 s1)) in Hs2.
  rewrite Hcr in Hs2. fold D in Hs2.
  assert (phys s2 D d = phys s1 D d) as HDd.
  { apply upd_ne. left. destruct (current_ok s1 dirs held Hinv1) as [Hr _ _ _].
    destruct (owned_refs s1 dirs held Hinv1 d _ Hown Hd eq_refl) as [HT _].
    rewrite Hcr in Hr, HT. fold D in Hr, HT.
    apply (to_tab _ _ _ (mi_tables _ _ _ Hinv1)) in HT. lia. }
  wp_step. apply (wp_ldw_tab E s2 D Hs2); [lia|done|by rewrite HDd|]. rewrite HDd, Hidx.
  assert (refs_at s2 P = Some (refs (phys s2) dirs P + count (P :: held) P)) as Hrefs.
  { by apply (mi_refs _ _ _ Hinv2). }
  destruct (inv_drop s2 dirs (P :: held) Hinv2 P _ held (reflexivity _) HPr Hrefs) as [Hv Hinv3].
  apply (wp_put_page E s2 P _ Q (mi_alloc _ _ _ Hinv2)) with (2 := Hrefs);
    [pose proof (mi_start _ _ _ Hinv2); split; [lia|apply HPr]|done| |].
  - intros Hf _. apply HE. change (free_pages s2) with (free_pages s1) in Hf. lia.
  - apply HQ2; [done| |].
    + split; [exact Hinv3| | |].
      * destruct Hk as [_ [F1 F2 F3 F4] _ _]. by split.
      * intros D' d' t' Hin' Ht' Hne.
        eapply same_page_trans; [by apply (same_view_page _ _ dirs); [apply Hk|..]|].
        apply Hoth; [done|done|]. intros E'. by apply Hne.
      * unfold set_refs, dropped. upd_simpl. change (free_pages s2) with (free_pages s1).
        destruct (_ =? 1); lia.
    + unfold mapped_at. intros Hm. apply Hun. revert Hm. unfold set_refs. upd_simpl.
      change (IDX (cr3 _)) with (IDX (cr3 s1)). rewrite Hcr. fold D d t. done.
Qed.
End ops.
