(* ===== verification/Fork.v ===== *)
(** * Copying a page directory ([copy_pde] of [src/src/kernel/memory.c])

    The child of a fork gets a page directory with the tables of its parent;
    every page they share has one more reference and is read-only to both. *)
From S2P Require Import Prelude.
From S2P Require Bitmap.
From S2P Require Import Page.
From S2P Require Import Alloc.
From S2P Require Import Memory.
From S2P Require Import Refs.
From S2P Require Import Tables.
From S2P Require Import Cow.
From S2P Require Import Fault.

(** ** Taking rights away *)
Lemma weakened_refl p dirs : weakened p p dirs.
Proof. intros f x. by left. Qed.

Lemma weakened_trans p1 p2 p3 dirs :
  weakened p1 p2 dirs → weakened p2 p3 dirs → weakened p1 p3 dirs.
Proof.
  intros H1 H2 f x. pose proof (weakened_any _ _ _ H1 f x) as W1.
  pose proof (weakened_any _ _ _ H2 f x) as W2.
  assert (weaker (p1 f x) (p3 f x)) as W.
  { destruct W1 as ([A1 A2] & A3 & A4), W2 as ([B1 B2] & B3 & B4).
    split; [split; congruence|]. split; [|auto]. intros k Hk Hne. by rewrite B3, A3. }
  destruct (H2 f x) as [E2|[[Hs|(Dd & HT & Hx)] _]].
  - destruct (H1 f x) as [E1|[Hs _]]; [left; congruence|by right].
  - right. split; [by left|done].
  - right. split; [|done]. right. exists Dd. split; [|done].
    by apply (weakened_to_table p1 p2 dirs H1).
Qed.

Lemma weakened_entry p dirs f x w :
  (f, x) ∈ slots dirs ∨ (∃ Dd, to_table p dirs Dd f ∧ 0 ≤ x < 1024) →
  weaker (p f x) w → weakened p (upd p f x w) dirs.
Proof.
  intros Hin Hw f' x'. destruct (decide (f' = f ∧ x' = x)) as [[-> ->]|Hne].
  - right. rewrite upd_eq. split; [|done]. destruct Hin; [left; eauto|by right].
  - left. apply upd_ne. destruct (decide (f' = f)); [right; naive_solver|auto].
Qed.

Lemma inv_weakened s dirs held p' : mem_inv s dirs held → weakened (phys s) p' dirs →
  mem_inv (s <| phys := p' |>) dirs held.
Proof.
  intros Hinv Hw. apply (inv_phys s dirs held Hinv).
  - by apply (tables_ok_weakened (phys s)); [apply Hinv|].
  - intros i Hi. by rewrite (weakened_refs _ _ _ Hw).
Qed.

(** One more reference to a page in use. *)
Lemma inv_hold s dirs held i v : mem_inv s dirs held → 4096 ≤ i < total_pages s →
  refs_at s i = Some v → 1 ≤ v → v + 1 < 255 → mem_inv (set_refs i (v + 1) s) dirs (i :: held).
Proof.
  intros Hinv Hi Hv Hv1 Hlt. pose proof Hinv as [Ha Hp Hcr Ht Hst Hk Hre Hbd Hkm Htb].
  split; try done.
  - pose proof (alloc_ok_set s i v (v + 1) (free_pages s) Ha ltac:(lia) Hv ltac:(lia)) as H.
    rewrite (proj2 (Z.eqb_neq v 0)), (proj2 (Z.eqb_neq (v + 1) 0)) in H by lia.
    by apply H; lia.
  - intros j Hj. unfold refs_at, set_refs. upd_simpl.
    rewrite list_lookup_insert_ne by lia. by apply Hk.
  - intros j Hj. change (4096 ≤ j < total_pages s) in Hj.
    pose proof (Hre j Hj) as Hj'. unfold refs_at, set_refs in *. upd_simpl. rewrite count_cons.
    destruct (Z.eqb_spec i j) as [<-|Hne].
    + rewrite list_lookup_insert_eq by (by apply lookup_lt_Some in Hv).
      rewrite Hv in Hj'. injection Hj' as ->. f_equal. lia.
    + rewrite list_lookup_insert_ne by lia. by rewrite Hj'.
  - intros j w Hw. unfold refs_at, set_refs in Hw. upd_simpl.
    apply list_lookup_insert_Some in Hw as [(_ & <- & _)|[_ Hw]]; [lia|by apply (Hbd j)].
Qed.

(** A kernel page is seen at its physical address. *)
Lemma xlate_kernel s D f x : paging s = true → IDX (cr3 s) = D → dir_ok (phys s) D →
  kernel_ok (phys s) → 0 < f < 4096 → 0 ≤ x < 1024 →
  let va := u32 (f * 4096 + 4 * x) in xlate s va = Some f ∧ word_of va = x.
Proof.
  intros Hpg Hcr [Hr _ _ Htab] Hker Hf Hx va.
  assert (DIDX va = f `div` 1024 ∧ TIDX va = f `mod` 1024 ∧ word_of va = x) as (Hi1 & Hi2 & Hi3).
  { unfold va. repeat split; page_lia. }
  split; [|done]. unfold xlate. rewrite Hpg, Hcr, Hi1, Hi2. cbv zeta.
  destruct (Htab (f `div` 1024)) as [-> ->]; [Z.div_mod_to_equations; lia|].
  destruct (Hker f) as [-> ->]; [lia|done].
Qed.

Section fork.
Context (E : stop → Prop) (s0 : mem) (dirs : list Z) (Hinv0 : mem_inv s0 dirs []).
Let p0 := phys s0.
Let D := IDX (cr3 s0).

(** The references that the directory [D] has to the page [i]. *)
Definition dir_total (i : Z) : Z := zsum (slot_refs p0 i) (pair D <$> user_dirs).

Context (HE : (∃ i, 254 < refs p0 dirs i + dir_total i) → E Assert).

(** So far [todo] is left of the references to share; the pages are shared at
    most once more each. *)
Record forking (todo : Z → Z) (s : mem) : Prop := {
  fk_inv : ∃ held, mem_inv s dirs held ∧ ∀ i, count held i + todo i = dir_total i;
  fk_frame : same_frame s0 s;
  fk_free : free_pages s = free_pages s0;
  fk_weak : weakened p0 (phys s) dirs }.

Lemma forking_refs todo s i v : forking todo s → 4096 ≤ i < total_pages s0 →
  refs_at s i = Some v → v + todo i = refs p0 dirs i + dir_total i.
Proof using.
  intros [(held & Hinv & Hc) [_ _ _ Ht] _ Hw] Hi Hv. rewrite <- Ht in Hi.
  rewrite (mi_refs _ _ _ Hinv i Hi) in Hv. injection Hv as <-.
  rewrite (weakened_refs _ _ _ Hw). specialize (Hc i). fold p0. lia.
Qed.

Lemma forking_weaken todo s p' : forking todo s → weakened (phys s) p' dirs →
  forking todo (s <| phys := p' |>).
Proof using.
  intros [(held & Hinv & Hc) [F1 F2 F3 F4] Hf Hw] Hw'. split; try done.
  - exists held. split; [by apply inv_weakened|done].
  - by apply (weakened_trans _ (phys s)).
Qed.

(** [memory_map[i]++] for a page that [todo] counts. *)
Lemma wp_mm_share todo s i (Q : unit → mem → Prop) : forking todo s →
  4096 ≤ i < total_pages s0 → 1 ≤ todo i → (∀ j, 0 ≤ todo j) →
  1 ≤ refs p0 dirs i →
  (∀ s', forking (λ j, todo j - if i =? j then 1 else 0) s' → phys s' = phys s → Q tt s') →
  wp E (mm_share i) Q s.
Proof using HE.
  intros Hfk Hi Ht1 Htn Hr1 HQ. pose proof Hfk as [(held & Hinv & Hc) [F1 F2 F3 F4] Hf Hw].
  assert (4096 ≤ i < total_pages s) as Hi' by lia.
  pose proof (mi_refs _ _ _ Hinv i Hi') as Hv.
  assert (1 ≤ refs (phys s) dirs i + count held i) as Hv1.
  { rewrite (weakened_refs _ _ _ Hw). pose proof (count_nonneg held i). fold p0. lia. }
  remember (refs (phys s) dirs i + count held i) as v eqn:Ev.
  pose proof (forking_refs todo s i v Hfk Hi Hv) as Hsum.
  pose proof (mi_bound _ _ _ Hinv i v Hv) as Hb.
  unfold mm_share. wp_step. eapply wp_mm_get; [done|]. wp_step.
  apply wp_check_true; [apply Z.ltb_lt; lia|]. wp_step.
  eapply wp_mm_set; [done|lia|]. wp_step. eapply (wp_mm_get _ _ (v + 1)).
  { unfold refs_at, set_refs. upd_simpl. apply list_lookup_insert_eq.
    by apply lookup_lt_Some in Hv. }
  apply wp_check.
  { intros Hlt%Z.ltb_ge. apply HE. exists i. lia. }
  intros Hlt%Z.ltb_lt. apply HQ; [|done]. split; try done.
  exists (i :: held). split; [by apply inv_hold|].
  intros j. rewrite count_cons. specialize (Hc j). lia.
Qed.

Lemma forking_ext todo todo' s : (∀ i, todo' i = todo i) → forking todo s → forking todo' s.
Proof using.
  intros Ht [(held & Hinv & Hc) ? ? ?]. split; try done. exists held. split; [done|].
  intros i. rewrite Ht. apply Hc.
Qed.

(** ** The loops *)

(** Not writable, unless shared. *)
Definition ro (w : Z) : Prop :=
  present w = true → ent_bit P_shared w = false → ent_bit P_write w = false.

Lemma ro_weaker w w' : weaker w w' → ro w → ro w'.
Proof using.
  intros ([Hp _] & Hb & Hw) H Hp' Hsh. rewrite Hp in Hp'. rewrite (Hb P_shared) in Hsh by done.
  specialize (H Hp' Hsh). destruct (ent_bit P_write w'); [|done].
  by rewrite Hw in H.
Qed.

Lemma forking_self todo s : forking todo s → self_map s D.
Proof using.
  intros [(held & Hinv & _) [F1 _ _ _] _ _]. pose proof (inv_self s dirs held Hinv) as Hs.
  rewrite F1 in Hs. exact Hs.
Qed.

(** The entry [t] of the table [d]. *)
Lemma wp_share_page todo s d t (Q : unit → mem → Prop) : 4 ≤ d < 64 → 0 ≤ t < 1024 →
  let T := index (p0 D d) in
  present (p0 D d) = true → forking todo s →
  (∀ j, hits (p0 T t) j ≤ todo j) →
  (∀ s', forking (λ j, todo j - hits (p0 T t) j) s' → weakened (phys s) (phys s') dirs →
     ro (phys s' T t) → Q tt s') →
  wp E (share_page (tab d t)) Q s.
Proof using HE Hinv0.
  intros Hd Ht T Hp Hfk Htodo HQ. pose proof (forking_self todo s Hfk) as Hs.
  pose proof Hfk as [(held & Hinv & Hc) [F1 F2 F3 F4] Hf Hw].
  destruct (weakened_any _ _ _ Hw D d) as ([Hps His] & _).
  assert (to_table p0 dirs (D, d) T) as HT0.
  { split; [by apply (inv_current s0 dirs [] Hinv0)|done]. }
  assert (to_table (phys s) dirs (D, d) T) as HT by by apply (weakened_to_table p0 (phys s) dirs Hw).
  fold T in His. destruct (weakened_any _ _ _ Hw T t) as ([Hpt Hit] & _).
  unfold share_page. wp_step. apply (wp_ldw_tab E s D Hs); [lia|done|by rewrite Hps|].
  rewrite His. set (w := phys s T t) in *.
  assert (∀ i, (hits (p0 T t) i) = hits w i) as Hh by (intros; symmetry; by apply hits_same).
  destruct (present w) eqn:Hpw; cbn [negb]; cycle 1.
  { wp_step. apply HQ; [|apply weakened_refl|intros E'; fold w in E'; congruence].
    eapply forking_ext; [|exact Hfk]. intros j. cbn. rewrite Hh, hits_ne by (by rewrite Hpw). lia. }
  assert (to_page p0 dirs (D, d) t (index w)) as HP.
  { exists T. split; [done|]. split; [done|]. split; [congruence|done]. }
  destruct (inv_page_refs s0 dirs [] Hinv0 _ _ _ HP) as [_ Hr1]. fold p0 in Hr1.
  pose proof (to_pag _ _ _ (mi_tables _ _ _ Hinv0) _ _ _ HP) as HPr.
  assert (4096 ≤ index w < total_pages s) as HPr' by lia.
  pose proof (mi_refs _ _ _ Hinv _ HPr') as Hv.
  wp_step. eapply wp_mm_get; [exact Hv|]. wp_step. apply wp_check_true.
  { apply Z.ltb_lt. rewrite (weakened_refs _ _ _ Hw).
    pose proof (count_nonneg held (index w)). lia. }
  assert (∀ s1, forking todo s1 → weakened (phys s) (phys s1) dirs → ro (phys s1 T t) →
    wp E (mm_share (index w)) Q s1) as Hshare.
  { intros s1 Hfk1 Hw1 Hro1. apply (wp_mm_share todo s1 (index w)); try done.
    - specialize (Htodo (index w)). rewrite Hh, hits_true in Htodo by done. done.
    - intros j. specialize (Htodo j). pose proof (hits_range (p0 T t) j). lia.
    - intros s2 Hfk2 Hp2. apply HQ; [|by rewrite Hp2|by rewrite Hp2].
      eapply forking_ext; [|exact Hfk2]. intros j. cbn. rewrite Hh. unfold hits. by rewrite Hpw. }
  wp_step. destruct (ent_bit P_shared w) eqn:Hsh; cbn [negb st_when].
  - wp_step. apply Hshare; [done|apply weakened_refl|]. intros _ E'. fold w in E'. congruence.
  - apply (wp_ent_mod_tab E s D Hs); [lia|done|by rewrite Hps|]. cbv zeta. rewrite His. fold w.
    assert (weakened (phys s) (upd (phys s) T t (ent_set P_write false w)) dirs) as Hw1.
    { apply weakened_entry; [right; by exists (D, d)|]. apply weaker_clear. }
    apply Hshare; [by apply forking_weaken|exact Hw1|].
    change (ro (upd (phys s) T t (ent_set P_write false w) T t)). rewrite upd_eq.
    intros _ _. by rewrite ent_bit_set.
Qed.

(** The entry [d] of the page directory [D], which the kernel sees at its
    physical address. *)
Context (Hpde : cr3 s0 = D * 4096).

Lemma wp_kernel_entry s todo d : forking todo s → 0 ≤ d < 1024 →
  let va := u32 (D * 4096 + 4 * d) in xlate s va = Some D ∧ word_of va = d.
Proof using Hinv0.
  intros Hfk Hd. pose proof (forking_self todo s Hfk) as Hs.
  pose proof Hfk as [(held & Hinv & _) [F1 _ _ _] _ _].
  pose proof (current_ok s dirs held Hinv) as Hdo. rewrite F1 in Hdo. fold D in Hdo.
  apply (xlate_kernel s D); [apply Hs|apply Hs|done| |apply Hdo|done].
  apply Hinv.
Qed.

Lemma wp_share_table todo s d (Q : unit → mem → Prop) : 4 ≤ d < 64 → forking todo s →
  (∀ j, slot_refs p0 j (D, d) ≤ todo j) →
  (∀ s', forking (λ j, todo j - slot_refs p0 j (D, d)) s' → weakened (phys s) (phys s') dirs →
     (present (p0 D d) = true → ent_bit P_write (phys s' D d) = false ∧
        ∀ t, 0 ≤ t < 1024 → ro (pte (phys s') D d t)) → Q tt s') →
  wp E (share_table (cr3 s0) d) Q s.
Proof using HE Hinv0 Hpde.
  intros Hd Hfk Htodo HQ. pose proof (forking_self todo s Hfk) as Hs.
  pose proof Hfk as [(held & Hinv & Hc) [F1 F2 F3 F4] Hf Hw].
  destruct (weakened_any _ _ _ Hw D d) as ([Hps His] & _).
  unfold share_table. cbv zeta. rewrite Hpde.
  destruct (wp_kernel_entry s todo d Hfk) as [Hx Hx']; [lia|].
  wp_step. unfold ldw at 1. wp_step. apply (wp_deref _ _ D); [done|]. wp_step. rewrite Hx'.
  set (w := phys s D d) in *.
  destruct (present w) eqn:Hpw; cbn [negb]; cycle 1.
  { wp_step. apply HQ; [|apply weakened_refl|intros E'; congruence].
    eapply forking_ext; [|exact Hfk]. intros j. unfold slot_refs. cbn. rewrite <- Hps. lia. }
  assert (present (p0 D d) = true) as Hp0 by congruence.
  set (T := index (p0 D d)) in *.
  assert (to_table p0 dirs (D, d) T) as HT0.
  { split; [by apply (inv_current s0 dirs [] Hinv0)|done]. }
  destruct (inv_table_refs s0 dirs [] Hinv0 _ _ HT0) as [_ Hr1]. fold p0 in Hr1.
  pose proof (to_tab _ _ _ (mi_tables _ _ _ Hinv0) _ _ HT0) as HTr.
  assert (4096 ≤ index w < total_pages s) as HTr' by lia.
  pose proof (mi_refs _ _ _ Hinv _ HTr') as Hv.
  wp_step. eapply wp_mm_get; [exact Hv|]. wp_step. apply wp_check_true.
  { apply Z.ltb_lt. rewrite (weakened_refs _ _ _ Hw). rewrite His.
    pose proof (count_nonneg held T). lia. }
  wp_step. unfold ent_mod. wp_step. unfold ldw. wp_step. apply (wp_deref _ _ D); [done|].
  wp_step. rewrite Hx'. fold w. unfold stw. wp_step. apply (wp_deref _ _ D); [done|].
  wp_step. rewrite Hx'.
  assert (weakened (phys s) (upd (phys s) D d (ent_set P_write false w)) dirs) as Hw1.
  { apply weakened_entry; [left; by apply (inv_current s0 dirs [] Hinv0)|]. apply weaker_clear. }
  set (s1 := s <| phys $= _ |>).
  assert (forking todo s1) as Hfk1 by by apply forking_weaken.
  assert (phys s1 D d = ent_set P_write false w) as Hw1d by apply upd_eq.
  assert (∀ j, slot_refs p0 j (D, d) = (if T =? j then 1 else 0) + table_refs p0 T j) as Hslot.
  { intros j. unfold slot_refs. cbn. rewrite Hp0. unfold hits. by rewrite Hp0. }
  wp_step. rewrite His.
  apply (wp_mm_share todo s1 T); [done|done| | |done|].
  { specialize (Htodo T). rewrite Hslot, Z.eqb_refl in Htodo.
    pose proof (table_refs_nonneg p0 T T). lia. }
  { intros j. specialize (Htodo j). pose proof (slot_refs_nonneg p0 j (D, d)). lia. }
  intros s2 Hfk2 Hp2. rewrite table_addr by lia.
  set (rest := λ j, todo j - slot_refs p0 j (D, d)).
  set (I := λ (l : list Z) (s' : mem),
    forking (λ j, rest j + zsum (λ t, hits (p0 T t) j) l) s' ∧
    weakened (phys s2) (phys s') dirs ∧
    ∀ t, 0 ≤ t < 1024 → t ∉ l → ro (phys s' T t)).
  eapply wp_conseq; [apply (wp_for E (seqZ 0 1024) _ I)|].
  - intros l1 t l s3 Hl (Hfk3 & Hw3 & Hro).
    assert (0 ≤ t < 1024) as Ht.
    { apply elem_of_tidxs. unfold tidxs. rewrite Hl. apply elem_of_app. right. left. }
    rewrite tab_entry by lia.
    apply (wp_share_page _ s3 d t _ Hd Ht Hp0 Hfk3).
    + intros j. cbn. unfold rest. specialize (Htodo j).
      assert (0 ≤ zsum (λ t, hits (p0 T t) j) l) by (apply zsum_nonneg; intros; apply hits_range).
      fold T. lia.
    + intros s4 Hfk4 Hw4 Hro4. fold T in Hfk4, Hro4. split; [|split].
      * eapply forking_ext; [|exact Hfk4]. intros j. cbn. lia.
      * by apply (weakened_trans _ (phys s3)).
      * intros t' Ht' Hn'. destruct (decide (t' = t)) as [->|Hne]; [done|].
        apply (ro_weaker (phys s3 T t')); [by apply (weakened_any _ _ _ Hw4)|].
        apply Hro; [done|]. by apply not_elem_of_cons.
  - split; [|split; [apply weakened_refl|]].
    + eapply forking_ext; [|exact Hfk2]. intros j. cbn. unfold rest. rewrite Hslot.
      change (zsum (λ t, hits (p0 T t) j) (seqZ 0 1024)) with (table_refs p0 T j). lia.
    + intros t Ht Hn. destruct Hn. by apply elem_of_tidxs.
  - intros [] s3 (Hfk3 & Hw3 & Hro). apply HQ.
    + eapply forking_ext; [|exact Hfk3]. intros j. cbn. unfold rest. lia.
    + apply (weakened_trans _ (phys s1)); [exact Hw1|]. by rewrite <- Hp2.
    + intros _. rewrite Hp2 in Hw3.
      destruct (weakened_any _ _ _ Hw3 D d) as ([_ Hi3] & _ & Hww). split.
      * destruct (ent_bit P_write (phys s3 D d)); [|done].
        specialize (Hww eq_refl). rewrite Hw1d, ent_bit_set in Hww by done. done.
      * intros t Ht. unfold pte. rewrite Hi3, Hw1d.
        rewrite (proj2 (proj1 (weaker_clear w))), His. apply Hro; [done|]. apply not_elem_of_nil.
Qed.

(** All tables of the running process are shared, and nothing of it can be
    written but shared pages. *)
Definition shared_out (s : mem) : Prop := ∀ d, 4 ≤ d < 64 → present (p0 D d) = true →
  ent_bit P_write (phys s D d) = false ∧ ∀ t, 0 ≤ t < 1024 → ro (pte (phys s) D d t).

Lemma wp_share_tables (Q : unit → mem → Prop) :
  (∀ s, forking (λ _, 0) s → shared_out s → Q tt s) →
  wp E (st_for user_dirs (share_table (cr3 s0))) Q s0.
Proof using HE Hinv0 Hpde.
  intros HQ.
  set (I := λ (l : list Z) (s' : mem),
    forking (λ j, zsum (λ d, slot_refs p0 j (D, d)) l) s' ∧
    ∀ d, 4 ≤ d < 64 → d ∉ l → present (p0 D d) = true →
      ent_bit P_write (phys s' D d) = false ∧ ∀ t, 0 ≤ t < 1024 → ro (pte (phys s') D d t)).
  eapply wp_conseq; [apply (wp_for E user_dirs _ I)|].
  - intros l1 d l s3 Hl (Hfk3 & Hro).
    assert (4 ≤ d < 64) as Hd by (apply elem_of_user_dirs; rewrite Hl; apply elem_of_app; right; left).
    apply (wp_share_table _ s3 d _ Hd Hfk3).
    + intros j. cbn.
      assert (0 ≤ zsum (λ d, slot_refs p0 j (D, d)) l)
        by (apply zsum_nonneg; intros; apply slot_refs_nonneg). lia.
    + intros s4 Hfk4 Hw4 Hro4. split.
      * eapply forking_ext; [|exact Hfk4]. intros j. cbn. lia.
      * intros d' Hd' Hn' Hp'. destruct (decide (d' = d)) as [->|Hne]; [by apply Hro4|].
        destruct (Hro d' Hd' (proj2 (not_elem_of_cons l d' d) (conj Hne Hn')) Hp') as [Hw Hr].
        destruct (weakened_any _ _ _ Hw4 D d') as ([_ Hi4] & _ & Hww). split.
        -- destruct (ent_bit P_write (phys s4 D d')); [|done]. by rewrite Hww in Hw.
        -- intros t Ht. apply (ro_weaker (pte (phys s3) D d' t)); [|by apply Hr].
           unfold pte. rewrite Hi4. by apply (weakened_any _ _ _ Hw4).
  - split.
    + split; try done; [|apply weakened_refl]. exists []. split; [done|]. intros i.
      unfold dir_total. rewrite zsum_fmap. unfold count. cbn. done.
    + intros d Hd Hn. by destruct Hn; apply elem_of_user_dirs.
  - intros [] s3 (Hfk3 & Hro). apply HQ; [exact Hfk3|].
    intros d Hd. apply Hro; [done|apply not_elem_of_nil].
Qed.
End fork.

(** ** The page of the new directory *)
Lemma wp_alloc_kpage E s dirs (Q : Z → mem → Prop) : kmap_ok (kernel_map s) dirs →
  ((∀ k, 0 ≤ k < 2816 → Bitmap.bit (Bitmap.bits (kernel_map s)) k = true) → E Assert) →
  (∀ k map', 256 ≤ k < 3072 → k ∉ dirs → kmap_ok map' (k :: dirs) →
     Q (PAGE k) (s <| kernel_map := map' |>)) →
  wp E (alloc_kpage 1) Q s.
Proof.
  intros [Hwf Ho Hb Hd] HE HQ. set (map := kernel_map s) in *.
  assert (bitmap_scan_1 : scan_page map 1 = Stop Assert ∧
      (∀ k, 0 ≤ k < 2816 → Bitmap.bit (Bitmap.bits map) k = true) ∨
    ∃ k map', scan_page map 1 = Ok (PAGE (256 + k), map') ∧ 0 ≤ k < 2816 ∧
      Bitmap.bit (Bitmap.bits map) k = false ∧ Bitmap.bitmap_wf map' ∧
      Bitmap.bits_updated map map' (λ j, (k <=? j) && (j <? k + 1)) true).
  { unfold scan_page, Bitmap.bitmap_scan. cbn [check Z.ltb Z.compare res_bind].
    change (Bitmap.length map * 8) with (Bitmap.nbits map). rewrite Hb, u32_small by lia.
    destruct (Bitmap.scan_loop_spec map 1 Hwf ltac:(lia) (Z.to_nat 2816) 0 0
      (Bitmap.scan_inv_start map 1 Hwf ltac:(lia)) ltac:(lia)) as [[-> Hn]|(k & -> & Hk & _)].
    - left. split; [done|]. intros k Hk. destruct (Bitmap.bit _ k) eqn:Ek; [done|].
      destruct (Hn k). split; [lia|]. split; [lia|]. intros j Hj. by replace j with k by lia.
    - right. destruct Hk as (Hk0 & Hk1 & Hkf). rewrite Hb in Hk1. cbn [res_bind].
      rewrite (proj2 (Z.eqb_neq k EOF)) by (unfold EOF, EEOF; lia). rewrite u32_small by lia.
      destruct (Bitmap.mark_loop_ok (Z.to_nat 1) map k Hwf) as (m' & -> & Hwf' & Hu); [lia|lia|].
      exists k, m'. cbn [res_bind fst snd]. rewrite Ho, s32_small by lia.
      rewrite (proj2 (Z.eqb_neq (k + 256) EOF)) by (unfold EOF, EEOF; lia).
      split; [by rewrite Z.add_comm|]. split; [lia|]. split; [apply Hkf; lia|]. done. }
  unfold alloc_kpage. wp_step. apply wp_check_true; [done|]. wp_step. wp_step. fold map. wp_step.
  destruct bitmap_scan_1 as [[Hs Hfull]|(k & map' & Hs & Hk & Hkf & Hwf' & Hl' & Ho' & Hb')].
  { unfold wp, st_lift. rewrite Hs. by apply HE. }
  apply (wp_lift _ _ _ _ _ Hs). wp_step. wp_step. wp_step. cbn [fst snd].
  assert (Bitmap.nbits map' = 2816) as Hn' by (unfold Bitmap.nbits in *; lia).
  apply HQ; [lia| |].
  - intros Hin. destruct (Hd (256 + k) Hin ltac:(lia)) as [_ Hbit].
    replace (256 + k - 256) with k in Hbit by lia. congruence.
  - split; [done|lia|done|]. intros D' [->|HD']%elem_of_cons Hne.
    + split; [lia|]. rewrite Hb' by lia.
      rewrite Hb, (proj2 (Z.leb_le _ _)), !(proj2 (Z.ltb_lt _ _)) by lia. done.
    + destruct (Hd D' HD' Hne) as [Hr Hbit]. split; [done|]. rewrite Hb' by lia.
      by destruct (_ && _).
Qed.

(** ** The directory of the child *)
Section child.
Context (s1 : mem) (dirs held : list Z) (Hinv : mem_inv s1 dirs held).
Let p1 := phys s1.
Let D := IDX (cr3 s1).
Context (Hheld : ∀ i, count held i = zsum (slot_refs p1 i) (pair D <$> user_dirs)).
Context (Hro : ∀ d, 4 ≤ d < 64 → present (p1 D d) = true →
  ent_bit P_write (p1 D d) = false ∧ ∀ t, 0 ≤ t < 1024 → ro (pte p1 D d t)).
Context (k : Z) (Hk : 256 ≤ k < 3072) (Hkd : k ∉ dirs) (p' : Z → Z → Z).
Context (Hp'k : ∀ x, p' k x = if x =? 1023 then entry_word k else p1 D x).
Context (Hp'o : ∀ f x, f ≠ k → p' f x = p1 f x).

Let Hok : tables_ok p1 dirs (total_pages s1) := mi_tables _ _ _ Hinv.

Lemma child_agree : agree p1 p' dirs.
Proof using Hinv Hk Hkd Hp'o.
  intros f x Hf. apply Hp'o. intros ->. destruct Hf as [?|[[Dd HT]|?]]; [done| |lia].
  apply (to_tab _ _ _ Hok) in HT. lia.
Qed.

Lemma child_entry d : d ≠ 1023 → p' k d = p1 D d.
Proof using Hp'k. intros Hd. by rewrite Hp'k, (proj2 (Z.eqb_neq _ _)). Qed.

Lemma child_slots Dd : Dd ∈ slots (k :: dirs) → ∃ D', (D', Dd.2) ∈ slots dirs ∧
  p' Dd.1 Dd.2 = p1 D' Dd.2 ∧ (Dd.1 = k ∧ D' = D ∨ Dd.1 ∈ dirs ∧ D' = Dd.1).
Proof using Hinv Hkd Hp'k Hp'o.
  destruct Dd as [D' d]. intros [[->|HD']%elem_of_cons Hd]%elem_of_slots; cbn [fst snd].
  - exists D. split; [by apply (inv_current s1 dirs held Hinv)|]. split; [apply child_entry; lia|auto].
  - exists D'. split; [by apply elem_of_slots|]. split; [apply Hp'o; by intros ->|auto].
Qed.

(** A table of the child, or of another process, was one before. *)
Lemma child_to_table Dd T : to_table p' (k :: dirs) Dd T → ∃ D', to_table p1 dirs (D', Dd.2) T ∧
  p' Dd.1 Dd.2 = p1 D' Dd.2 ∧ (Dd.1 = k ∧ D' = D ∨ Dd.1 ∈ dirs ∧ D' = Dd.1).
Proof using Hinv Hkd Hp'k Hp'o.
  intros (Hin & Hp & HT). destruct (child_slots Dd Hin) as (D' & Hin' & He & Hc).
  exists D'. rewrite He in Hp, HT. done.
Qed.

Lemma child_table T x Dd : to_table p1 dirs Dd T → p' T x = p1 T x.
Proof using Hinv Hk Hp'o.
  intros HT%(to_tab _ _ _ Hok). apply Hp'o. lia.
Qed.

Lemma child_to_page Dd t f : to_page p' (k :: dirs) Dd t f →
  ∃ D', to_page p1 dirs (D', Dd.2) t f ∧ (Dd.1 = k ∧ D' = D ∨ Dd.1 ∈ dirs ∧ D' = Dd.1).
Proof using Hinv Hk Hkd Hp'k Hp'o.
  intros (T & HT & Ht & Hp & Hf). destruct (child_to_table Dd T HT) as (D' & HT' & _ & Hc).
  rewrite (child_table T t _ HT') in Hp, Hf. exists D'. split; [by exists T|done].
Qed.

(** Every page gains the references of the child's copy of the directory. *)
Lemma child_refs i : refs p' (k :: dirs) i = refs p1 dirs i + count held i.
Proof using Hinv Hheld Hk Hkd Hp'k Hp'o.
  rewrite refs_cons, Hheld, (agree_refs _ _ _ child_agree), Z.add_comm. f_equal.
  rewrite !zsum_fmap. apply zsum_ext. intros d Hd%elem_of_user_dirs.
  assert (p' k d = p1 D d) as He by (apply child_entry; lia).
  unfold slot_refs. cbn. rewrite He. destruct (present (p1 D d)) eqn:Hp; [|done].
  f_equal. apply table_refs_ext. intros t Ht.
  rewrite (child_table _ t (D, d)); [done|].
  split; [by apply (inv_current s1 dirs held Hinv)|done].
Qed.

(** What another process may write is not in the directory of the parent. *)
Lemma child_alone Dd i : Dd ∈ slots dirs → 1 ≤ slot_refs p1 i Dd → refs p1 dirs i = 1 →
  Dd.1 ≠ D → count held i = 0.
Proof using Hinv Hheld.
  intros Hin Hs H1 Hne. rewrite Hheld, zsum_fmap. apply zsum_zero. intros d Hd%elem_of_user_dirs.
  destruct (refs_split p1 dirs (to_nodup _ _ _ Hok) Dd i Hin) as [_ Hsp].
  pose proof (slot_refs_nonneg p1 i (D, d)).
  assert ((D, d) ≠ Dd) as Hd' by (by intros <-).
  specialize (Hsp (D, d) (inv_current s1 dirs held Hinv d Hd) Hd'). lia.
Qed.

Lemma child_tables : tables_ok p' (k :: dirs) (total_pages s1).
Proof using Hinv Hheld Hro Hk Hkd Hp'k Hp'o.
  pose proof child_agree as Hag.
  split.
  - apply NoDup_cons. split; [done|apply Hok].
  - intros D' [->|HD']%elem_of_cons; [|by apply (agree_dir_ok _ _ _ Hag), Hok].
    destruct (to_dirs _ _ _ Hok D ltac:(apply Hinv)) as [_ _ _ Hts].
    split; [lia|lia| |].
    + rewrite Hp'k, Z.eqb_refl. unfold P_present, P_write.
      rewrite !ent_bit_entry_word, ent_index_entry_word by lia. done.
    + intros j Hj. rewrite child_entry by lia. by apply Hts.
  - by apply (agree_kernel _ _ _ Hag), Hok.
  - intros Dd T HT. destruct (child_to_table Dd T HT) as (D' & HT' & _).
    by apply (to_tab _ _ _ Hok (D', Dd.2)).
  - intros Dd t f Hf. destruct (child_to_page Dd t f Hf) as (D' & Hf' & _).
    by apply (to_pag _ _ _ Hok (D', Dd.2) t).
  - intros Dd T Dd' t f HT Hf. destruct (child_to_table Dd T HT) as (D1 & HT' & _).
    destruct (child_to_page Dd' t f Hf) as (D2 & Hf' & _).
    by apply (to_sep _ _ _ Hok (D1, Dd.2) T (D2, Dd'.2) t).
  - intros Dd T HT Hw. destruct (child_to_table Dd T HT) as (D' & HT' & He & Hc).
    rewrite He in Hw. pose proof (to_wtab _ _ _ Hok _ _ HT' Hw) as H1.
    assert (D' ≠ D) as Hne.
    { intros ->. pose proof HT' as (Hin & Hp & _).
      destruct (Hro Dd.2) as [E _]; [by apply elem_of_slots in Hin as [_ ?]|done|].
      cbn in Hw. congruence. }
    rewrite child_refs, H1, (child_alone (D', Dd.2) T); try done; [apply HT'|].
    by apply slot_refs_table with dirs.
  - intros Dd T t HT Ht. destruct (child_to_table Dd T HT) as (D' & HT' & He & Hc).
    rewrite (child_table T t _ HT'). intros Hp Hw Hsh.
    pose proof (to_wpage _ _ _ Hok _ T t HT' Ht Hp Hw Hsh) as H1.
    assert (D' ≠ D) as Hne.
    { intros ->. pose proof HT' as (Hin & Hpd & HTi). cbn in HTi, Hpd.
      destruct (Hro Dd.2) as [_ E]; [by apply elem_of_slots in Hin as [_ ?]|done|].
      specialize (E t Ht). unfold pte in E. rewrite HTi in E. rewrite E in Hw by done. done. }
    rewrite child_refs, H1, (child_alone (D', Dd.2) (index (p1 T t))); try done; [apply HT'|].
    apply slot_refs_page with dirs t. by exists T.
Qed.

Lemma child_inv map' : kmap_ok map' (k :: dirs) →
  mem_inv (s1 <| kernel_map := map' |> <| phys := p' |>) (k :: dirs) [].
Proof using Hinv Hheld Hro Hk Hkd Hp'k Hp'o.
  intros Hkm. pose proof Hinv as [Ha Hp Hcr Ht Hst Hkr Hre Hbd _ _]. split; try done.
  - by destruct Ha.
  - by right.
  - intros i Hi. upd_simpl. rewrite child_refs.
    etransitivity; [by apply Hre|]. change (count [] i) with 0. by rewrite Z.add_0_r.
  - apply child_tables.
Qed.

Lemma child_page_others D' d t : (D', d) ∈ slots dirs → 0 ≤ t < 1024 →
  same_page p1 D' p' D' d t.
Proof using Hinv Hk Hkd Hp'o.
  intros Hin Ht. apply (same_view_page _ _ dirs); [|done|done].
  apply same_view_agree; [apply child_agree|]. intros Dd t' f x Hf%(to_pag _ _ _ Hok).
  apply Hp'o. lia.
Qed.

Lemma child_page d t : 4 ≤ d < 64 → 0 ≤ t < 1024 → same_page p1 D p' k d t.
Proof using Hinv Hk Hkd Hp'k Hp'o.
  intros Hd Ht. assert (p' k d = p1 D d) as He by (apply child_entry; lia).
  assert (present (p1 D d) = true → ∀ x, pte p' k d x = pte p1 D d x) as Hpte.
  { intros Hp x. unfold pte. rewrite He. apply (child_table _ x (D, d)).
    split; [by apply (inv_current s1 dirs held Hinv)|done]. }
  unfold same_page, mapped. rewrite He. split.
  - split; intros [Hp Hpt]; (split; [done|]); [by rewrite <- Hpte|by rewrite Hpte].
  - intros [Hp Hpt]. rewrite Hpte by done. split; [done|]. intros x. apply Hp'o.
    assert (to_page p1 dirs (D, d) t (index (pte p1 D d t))) as Hpg.
    { eexists. split; [|done]. split; [by apply (inv_current s1 dirs held Hinv)|done]. }
    pose proof (to_pag _ _ _ Hok _ _ _ Hpg). lia.
Qed.
End child.

Lemma inv_cr3 s dirs held v : mem_inv s dirs held → IDX v ∈ dirs →
  mem_inv (s <| cr3 := v |>) dirs held.
Proof. intros [Ha Hp Hcr Ht Hst Hkr Hre Hbd Hkm Htb] Hv. split; try done. by destruct Ha. Qed.

(** The process that runs owns the directory of [cr3]. *)
Definition running_ok (s : mem) : Prop :=
  t_pde (task s) = cr3 s ∧ cr3 s = IDX (cr3 s) * 4096.

Lemma wp_copy_pde E s dirs (Q : Z → mem → Prop) : mem_inv s dirs [] → running_ok s →
  ((∃ i, 254 < refs (phys s) dirs i + dir_total s i) → E Assert) →
  ((∀ k, 0 ≤ k < 2816 → Bitmap.bit (Bitmap.bits (kernel_map s)) k = true) → E Assert) →
  (∀ k s', k ∉ dirs → 256 ≤ k < 3072 → mem_inv s' (k :: dirs) [] → cr3 s' = cr3 s →
     task s' = task s → free_pages s' = free_pages s →
     (∀ D d t, (D, d) ∈ slots dirs → 0 ≤ t < 1024 → same_page (phys s) D (phys s') D d t) →
     (∀ d t, 4 ≤ d < 64 → 0 ≤ t < 1024 → same_page (phys s) (IDX (cr3 s)) (phys s') k d t) →
     Q (PAGE k) s') →
  wp E copy_pde Q s.
Proof.
  intros Hinv [Hpde Hcr] HE1 HE2 HQ. set (D := IDX (cr3 s)) in *.
  unfold copy_pde. wp_step. wp_step. rewrite Hpde. wp_step.
  apply (wp_share_tables E s dirs Hinv HE1 Hcr). intros s1 Hfk Hso.
  pose proof Hfk as [(held & Hinv1 & Hc) [F1 F2 F3 F4] Hf Hw].
  assert (IDX (cr3 s1) = D) as HD1 by (unfold D; by rewrite F1).
  assert (∀ i, count held i = zsum (slot_refs (phys s1) i) (pair D <$> user_dirs)) as Hheld.
  { intros i. specialize (Hc i). unfold dir_total in Hc. fold D in Hc.
    rewrite Z.add_0_r in Hc. rewrite Hc. apply zsum_ext. intros Dd _. symmetry.
    apply slot_refs_ext; [|intros _ t _]; apply (weakened_any _ _ _ Hw). }
  assert (∀ d, 4 ≤ d < 64 → present (phys s1 D d) = true →
    ent_bit P_write (phys s1 D d) = false ∧ ∀ t, 0 ≤ t < 1024 → ro (pte (phys s1) D d t)) as Hro.
  { intros d Hd Hp. apply (Hso d Hd).
    destruct (weakened_any _ _ _ Hw D d) as ([E1 _] & _). fold D. congruence. }
  wp_step. apply (wp_alloc_kpage E s1 dirs); [apply Hinv1|by rewrite F3|].
  intros k map' Hk Hkd Hkm. rewrite PAGE_mul by lia.
  pose proof (mi_tables _ _ _ Hinv1) as Hok1.
  pose proof (to_dirs _ _ _ Hok1 (IDX (cr3 s1)) (mi_cr3 _ _ _ Hinv1)) as Hdo.
  rewrite HD1 in Hdo.
  assert (k ≠ D) as HkD by (intros ->; apply Hkd; rewrite <- HD1; apply Hinv1).
  set (s2 := s1 <| kernel_map := map' |>).
  pose proof (mi_paging _ _ _ Hinv1) as Hpg.
  wp_step. unfold memcpy_page. wp_step. apply (wp_deref _ _ k).
  { replace (k * 4096) with (u32 (k * 4096 + 4 * 0)) by page_lia.
    by apply (xlate_kernel s2 D k 0); [..|apply Hok1|lia|lia]. }
  wp_step. apply (wp_deref _ _ D).
  { rewrite Hcr. replace (D * 4096) with (u32 (D * 4096 + 4 * 0)) by (destruct Hdo; page_lia).
    by apply (xlate_kernel s2 D D 0); [..|apply Hok1|apply Hdo|lia]. }
  wp_step. set (s3 := s2 <| phys $= _ |>).
  assert (agree (phys s1) (phys s3) dirs) as Hag3.
  { apply (child_agree s1 dirs held Hinv1 k Hk Hkd). intros f x Hf'. unfold s3. upd_simpl.
    by rewrite (proj2 (Z.eqb_neq _ _)). }
  wp_step. unfold entry_init, stw. wp_step.
  rewrite IDX_div, (u32_small (k * 4096)), Z.div_mul by lia.
  destruct (xlate_kernel s3 D k 1023) as [Hx Hx']; [done|done| | |lia|lia|].
  { apply (agree_dir_ok _ _ _ Hag3); [|done]. rewrite <- HD1. apply Hinv1. }
  { apply (agree_kernel _ _ _ Hag3), Hok1. }
  apply (wp_deref _ _ k); [exact Hx|]. wp_step. rewrite Hx'.
  set (s4 := s3 <| phys $= _ |>).
  assert (∀ x, phys s4 k x = if x =? 1023 then entry_word k else phys s1 D x) as Hp4k.
  { intros x. unfold s4. upd_simpl. unfold upd, s3. upd_simpl. rewrite Z.eqb_refl. done. }
  assert (∀ f x, f ≠ k → phys s4 f x = phys s1 f x) as Hp4o.
  { intros f x Hf'. unfold s4. upd_simpl. unfold upd, s3. upd_simpl.
    by rewrite (proj2 (Z.eqb_neq f k)). }
  wp_step. unfold set_cr3. wp_step. apply wp_check_true.
  { apply ASSERT_PAGE_true. rewrite Hcr. page_lia. }
  wp_step. wp_step. rewrite <- (PAGE_mul k) by lia.
  rewrite <- HD1 in Hheld, Hro, Hp4k.
  apply HQ; [done|done| |done|done|done| |].
  - apply inv_cr3; [|right; unfold D in *; rewrite <- HD1; apply Hinv1].
    exact (child_inv s1 dirs held Hinv1 Hheld Hro k Hk Hkd (phys s4) Hp4k Hp4o map' Hkm).
  - intros D' d t Hin Ht. upd_simpl. eapply same_page_trans.
    + apply (same_view_page _ _ dirs); [|done|done].
      by apply (same_view_weakened _ _ _ _ (mi_tables _ _ _ Hinv)).
    + by apply (child_page_others s1 dirs held Hinv1 k Hk Hkd (phys s4) Hp4o).
  - intros d t Hd Ht. upd_simpl. eapply same_page_trans.
    + apply (same_view_page _ _ dirs); [|by apply (inv_current s dirs [] Hinv)|done].
      by apply (same_view_weakened _ _ _ _ (mi_tables _ _ _ Hinv)).
    + rewrite <- HD1. exact (child_page s1 dirs held Hinv1 k Hk Hkd (phys s4) Hp4k Hp4o d t Hd Ht).
Qed.
