(* ===== verification/Free.v ===== *)
(** * Freeing a page directory ([free_pde] of [src/src/kernel/memory.c])

    The exit of a process gives back every reference that its page directory
    holds; what the other processes map is not touched. *)
From S2P Require Import Prelude.
From S2P Require Bitmap.
From S2P Require Import Page.
From S2P Require Import Alloc.
From S2P Require Import Memory.
From S2P Require Import Refs.
From S2P Require Import Tables.
From S2P Require Import Cow.
From S2P Require Import Fault.
From S2P Require Import Fork.

Lemma to_table_drop p dirs rest D Dd T : dirs ≡ₚ D :: rest →
  to_table p rest Dd T → to_table p dirs Dd T.
Proof.
  intros Hd (Hin & H). split; [|done]. destruct Dd as [D' d].
  apply elem_of_slots in Hin as [HD' Hr]. apply elem_of_slots. split; [|done].
  rewrite Hd. by right.
Qed.
Lemma to_page_drop p dirs rest D Dd t f : dirs ≡ₚ D :: rest →
  to_page p rest Dd t f → to_page p dirs Dd t f.
Proof. intros Hd (T & HT & H). exists T. split; [by eapply to_table_drop|done]. Qed.

(** The tables of the other processes. *)
Lemma tables_ok_drop p dirs rest D total : dirs ≡ₚ D :: rest →
  tables_ok p dirs total → tables_ok p rest total.
Proof.
  intros Hd Hok. pose proof (to_nodup _ _ _ Hok) as Hnd. rewrite Hd in Hnd.
  apply NoDup_cons in Hnd as [_ Hnd].
  assert (∀ i, 1 ≤ refs p rest i → refs p dirs i = 1 → refs p rest i = 1) as Hone.
  { intros i H1 H2. rewrite (refs_perm _ _ _ _ Hd), refs_cons in H2.
    assert (0 ≤ zsum (slot_refs p i) (pair D <$> user_dirs))
      by (apply zsum_nonneg; intros; apply slot_refs_nonneg). lia. }
  split; [done| |apply Hok|..].
  - intros D' HD'. apply (to_dirs _ _ _ Hok). rewrite Hd. by right.
  - intros Dd T HT. apply (to_tab _ _ _ Hok Dd). by eapply to_table_drop.
  - intros Dd t f Hf. apply (to_pag _ _ _ Hok Dd t). by eapply to_page_drop.
  - intros Dd T Dd' t f HT Hf. apply (to_sep _ _ _ Hok Dd T Dd' t);
      [by eapply to_table_drop|by eapply to_page_drop].
  - intros Dd T HT Hw. apply Hone; [by apply (refs_table p rest Hnd Dd)|].
    apply (to_wtab _ _ _ Hok Dd); [by eapply to_table_drop|done].
  - intros Dd T t HT Ht Hp Hw Hsh. apply Hone.
    + apply (refs_page p rest Hnd Dd t). by exists T.
    + apply (to_wpage _ _ _ Hok Dd); [by eapply to_table_drop|done..].
Qed.

Section free.
Context (E : stop → Prop) (s0 : mem) (dirs rest : list Z) (Hinv0 : mem_inv s0 dirs []).
Let p0 := phys s0.
Let D := IDX (cr3 s0).
Context (Hdirs : dirs ≡ₚ D :: rest).
Context (HE : free_pages s0 = 0 → E Assert).

(** [todo]: the references of the directory still to give back. *)
Record freeing (todo : Z → Z) (s : mem) : Prop := {
  fr_alloc : alloc_ok s;
  fr_paging : paging s = true;
  fr_phys : phys s = p0;
  fr_frame : same_frame s0 s;
  fr_start : start_page s ≤ 4096;
  fr_kernel : ∀ i, 0 ≤ i < 4096 → refs_at s i = Some 1;
  fr_refs : ∀ i, 4096 ≤ i < total_pages s0 → refs_at s i = Some (refs p0 rest i + todo i);
  fr_bound : ∀ i v, refs_at s i = Some v → v < 255;
  fr_free : free_pages s0 ≤ free_pages s }.

Lemma freeing_ext todo todo' s : (∀ i, todo' i = todo i) → freeing todo s → freeing todo' s.
Proof using. intros Ht []. split; try done. intros i Hi. rewrite Ht. auto. Qed.

Lemma freeing_self todo s : freeing todo s → self_map s D.
Proof using Hinv0.
  intros [_ Hp Hph [F1 _ _ _] _ _ _ _ _].
  apply (self_map_upd s0); [by apply (inv_self s0 dirs [])|done|done|by rewrite Hph].
Qed.

Lemma wp_put_one todo s i (Q : unit → mem → Prop) : freeing todo s →
  4096 ≤ i < total_pages s0 → 1 ≤ todo i →
  (∀ s', freeing (λ j, todo j - if i =? j then 1 else 0) s' → Q tt s') →
  wp E (put_page (PAGE i)) Q s.
Proof using HE Hinv0.
  intros Hfr Hi Ht HQ. pose proof Hfr as [Ha Hpg Hph [F1 F2 F3 F4] Hst Hk Hre Hbd Hfree].
  pose proof (Hre i Hi) as Hv. pose proof (refs_nonneg p0 rest i) as Hr0.
  remember (refs p0 rest i + todo i) as v eqn:Ev.
  assert (0 ≤ v < 256) as Hvb by (apply (Forall_lookup_1 _ _ _ _ (al_byte _ Ha) Hv)).
  assert (0 ≤ free_pages s0) as H0 by (pose proof (free_range s0 (mi_alloc _ _ _ Hinv0)); lia).
  apply (wp_put_page E s i v); [done|lia|done|lia|intros; apply HE; lia|].
  apply HQ. unfold dropped. split; try done.
  - apply (alloc_ok_set s i v (v - 1)); try done; [lia|lia|].
    destruct (Z.eqb_spec v 1), (Z.eqb_spec v 0), (Z.eqb_spec (v - 1) 0); lia.
  - intros j Hj. unfold refs_at, set_refs. upd_simpl.
    rewrite list_lookup_insert_ne by lia. by apply Hk.
  - intros j Hj. pose proof (Hre j Hj) as Hvj. unfold refs_at, set_refs in *. upd_simpl.
    destruct (Z.eqb_spec i j) as [<-|Hne].
    + rewrite list_lookup_insert_eq by (by apply lookup_lt_Some in Hv). f_equal. lia.
    + rewrite list_lookup_insert_ne by lia. rewrite Hvj. f_equal. lia.
  - intros j w Hw. unfold refs_at, set_refs in Hw. upd_simpl.
    apply list_lookup_insert_Some in Hw as [(_ & <- & _)|[_ Hw]]; [lia|by apply (Hbd j)].
  - unfold set_refs. upd_simpl. destruct (v =? 1); lia.
Qed.

Lemma wp_free_page_of todo s d t (Q : unit → mem → Prop) : 4 ≤ d < 64 → 0 ≤ t < 1024 →
  let T := index (p0 D d) in
  present (p0 D d) = true → freeing todo s → (∀ j, hits (p0 T t) j ≤ todo j) →
  (∀ s', freeing (λ j, todo j - hits (p0 T t) j) s' → Q tt s') →
  wp E (free_page_of (tab d t)) Q s.
Proof using HE Hinv0.
  intros Hd Ht T Hp Hfr Htodo HQ. pose proof (freeing_self todo s Hfr) as Hs.
  pose proof Hfr as [Ha Hpg Hph [F1 F2 F3 F4] Hst Hk Hre Hbd Hfree].
  unfold free_page_of. wp_step.
  apply (wp_ldw_tab E s D Hs); [lia|done|by rewrite Hph|]. rewrite Hph. fold T.
  set (w := p0 T t) in *. destruct (present w) eqn:Hpw; cbn [negb]; cycle 1.
  { wp_step. apply HQ. eapply freeing_ext; [|exact Hfr]. intros j. cbn.
    rewrite hits_ne by (by rewrite Hpw). lia. }
  assert (to_page p0 dirs (D, d) t (index w)) as HP.
  { exists T. split; [|done]. split; [by apply (inv_current s0 dirs [] Hinv0)|done]. }
  pose proof (to_pag _ _ _ (mi_tables _ _ _ Hinv0) _ _ _ HP) as HPr.
  assert (1 ≤ todo (index w)) as Ht1.
  { specialize (Htodo (index w)). by rewrite hits_true in Htodo. }
  pose proof (refs_nonneg p0 rest (index w)).
  wp_step. eapply wp_mm_get; [by apply Hre|]. wp_step. apply wp_check_true; [apply Z.ltb_lt; lia|].
  apply (wp_put_one todo s); [done|done|done|]. intros s' Hs'. apply HQ.
  eapply freeing_ext; [|exact Hs']. intros j. cbn. unfold hits. by rewrite Hpw.
Qed.

Lemma wp_free_table todo s d (Q : unit → mem → Prop) : 4 ≤ d < 64 → freeing todo s →
  (∀ j, slot_refs p0 j (D, d) ≤ todo j) →
  (∀ s', freeing (λ j, todo j - slot_refs p0 j (D, d)) s' → Q tt s') →
  wp E (free_table d) Q s.
Proof using HE Hinv0.
  intros Hd Hfr Htodo HQ. pose proof (freeing_self todo s Hfr) as Hs.
  unfold free_table. rewrite get_pde_tab, table_addr by lia. wp_step.
  apply (wp_ldw_dir E s D Hs); [lia|]. rewrite (fr_phys _ _ Hfr).
  destruct (present (p0 D d)) eqn:Hp; cbn [negb]; cycle 1.
  { wp_step. apply HQ. eapply freeing_ext; [|exact Hfr]. intros j. unfold slot_refs. cbn.
    rewrite Hp. lia. }
  set (T := index (p0 D d)) in *.
  assert (∀ j, slot_refs p0 j (D, d) = (if T =? j then 1 else 0) + table_refs p0 T j) as Hslot.
  { intros j. unfold slot_refs. cbn. rewrite Hp. unfold hits. by rewrite Hp. }
  assert (to_table p0 dirs (D, d) T) as HT
    by (split; [by apply (inv_current s0 dirs [] Hinv0)|done]).
  pose proof (to_tab _ _ _ (mi_tables _ _ _ Hinv0) _ _ HT) as HTr.
  cbv zeta. wp_step.
  set (rem := λ j, todo j - table_refs p0 T j).
  set (I := λ (l : list Z) (s' : mem), freeing (λ j, rem j + zsum (λ t, hits (p0 T t) j) l) s').
  eapply wp_conseq; [apply (wp_for E (seqZ 0 1024) _ I)|].
  - intros l1 t l s3 Hl Hfr3.
    assert (0 ≤ t < 1024) as Ht.
    { apply elem_of_tidxs. unfold tidxs. rewrite Hl. apply elem_of_app. right. left. }
    rewrite tab_entry by lia. apply (wp_free_page_of _ s3 d t _ Hd Ht Hp Hfr3).
    + intros j. cbn. unfold rem. specialize (Htodo j). rewrite Hslot in Htodo.
      assert (0 ≤ zsum (λ t, hits (p0 T t) j) l) by (apply zsum_nonneg; intros; apply hits_range).
      fold T. destruct (T =? j); lia.
    + intros s4 Hfr4. eapply freeing_ext; [|exact Hfr4]. intros j. cbn. fold T. lia.
  - eapply freeing_ext; [|exact Hfr]. intros j. cbn. unfold rem.
    change (zsum (λ t, hits (p0 T t) j) (seqZ 0 1024)) with (table_refs p0 T j). lia.
  - intros [] s3 Hfr3. apply (wp_put_one _ s3 T _ Hfr3); [done| |].
    + cbn. unfold rem. specialize (Htodo T). rewrite Hslot, Z.eqb_refl in Htodo. lia.
    + intros s4 Hfr4. apply HQ. eapply freeing_ext; [|exact Hfr4]. intros j. cbn. unfold rem.
      rewrite Hslot. lia.
Qed.

Lemma wp_free_tables (Q : unit → mem → Prop) : (∀ s, freeing (λ _, 0) s → Q tt s) →
  wp E (st_for user_dirs free_table) Q s0.
Proof using HE Hinv0 Hdirs.
  intros HQ.
  set (I := λ (l : list Z) (s' : mem), freeing (λ j, zsum (λ d, slot_refs p0 j (D, d)) l) s').
  eapply wp_conseq; [apply (wp_for E user_dirs _ I)|].
  - intros l1 d l s3 Hl Hfr3.
    assert (4 ≤ d < 64) as Hd
      by (apply elem_of_user_dirs; rewrite Hl; apply elem_of_app; right; left).
    apply (wp_free_table _ s3 d _ Hd Hfr3).
    + intros j. cbn. assert (0 ≤ zsum (λ d, slot_refs p0 j (D, d)) l)
        by (apply zsum_nonneg; intros; apply slot_refs_nonneg). lia.
    + intros s4 Hfr4. eapply freeing_ext; [|exact Hfr4]. intros j. cbn. lia.
  - pose proof Hinv0 as [Ha Hp Hcr Ht Hst Hkr Hre Hbd Hkm Htb].
    split; try done. intros i Hi. rewrite Hre by done.
    rewrite (refs_perm _ _ _ _ Hdirs), refs_cons, zsum_fmap. f_equal.
    change (count [] i) with 0. fold p0. lia.
  - intros [] s3 Hfr3. by apply HQ.
Qed.

(** The page of the directory goes back to the kernel pages. *)
Context (Hrun : running_ok s0) (HD1 : D ≠ 1).

Lemma wp_free_dir s (Q : unit → mem → Prop) : kmap_ok (kernel_map s) dirs →
  (∀ map', kmap_ok map' rest → Q tt (s <| kernel_map := map' |>)) →
  wp E (free_kpage (cr3 s0) 1) Q s.
Proof using Hinv0 Hdirs Hrun HD1.
  intros [Hwf Ho Hb Hd] HQ. destruct Hrun as [_ Hcr]. fold D in Hcr.
  destruct (Hd D) as [Hr Hbit]; [rewrite Hdirs; by left|done|].
  assert (IDX (cr3 s0) = D) as HD by done.
  unfold free_kpage. wp_step. apply wp_check_true; [apply ASSERT_PAGE_true; page_lia|].
  wp_step. apply wp_check_true; [done|]. wp_step. wp_step. wp_step.
  unfold reset_page. rewrite ASSERT_PAGE_true by page_lia. rewrite HD.
  cbn [check Z.ltb Z.compare res_bind]. change (Z.to_nat 1) with 1%nat. cbn [reset_loop].
  replace D with (Bitmap.offset (kernel_map s) + (D - 256)) by lia.
  rewrite (Bitmap.bitmap_test_ok _ Hwf) by lia. cbn [res_bind]. rewrite Hbit. cbn [check res_bind].
  destruct (Bitmap.bitmap_set_ok _ Hwf (D - 256) false) as (m' & Hm & Hwf' & Hl' & Ho' & Hb');
    [lia|]. rewrite Hm. cbn [res_bind].
  eapply wp_lift; [reflexivity|]. wp_step. apply HQ.
  split; [done|lia|unfold Bitmap.nbits in *; lia|]. intros D' HD' Hne.
  destruct (Hd D') as [Hr' Hbit']; [rewrite Hdirs; by right|done|]. split; [done|].
  rewrite Hb' by lia. rewrite (proj2 (Z.eqb_neq (D' - 256) (D - 256))); [done|].
  pose proof (to_nodup _ _ _ (mi_tables _ _ _ Hinv0)) as Hnd. rewrite Hdirs in Hnd.
  apply NoDup_cons in Hnd as [Hnin _]. intros Eq. apply Hnin. by replace D with D' by lia.
Qed.

Lemma wp_free_pde (Q : unit → mem → Prop) : t_uid (task s0) ≠ KERNEL_USER →
  (∀ s', (∀ v, IDX v ∈ rest → mem_inv (s' <| cr3 := v |>) rest []) →
     phys s' = phys s0 → free_pages s0 ≤ free_pages s' → Q tt s') →
  wp E free_pde Q s0.
Proof using HE Hinv0 Hdirs Hrun HD1.
  intros Hu HQ. unfold free_pde. wp_step. wp_step. wp_step.
  apply wp_check_true; [by rewrite (proj2 (Z.eqb_neq _ _))|]. wp_step.
  apply wp_free_tables. intros s Hfr. rewrite (proj1 Hrun).
  pose proof Hfr as [Ha Hpg Hph [F1 F2 F3 F4] Hst Hk Hre Hbd Hfree].
  apply wp_free_dir; [rewrite F3; apply Hinv0|]. intros map' Hkm.
  apply HQ; [|done|done]. intros v Hv. split; try done.
  - by destruct Ha.
  - upd_simpl. pose proof (mi_total _ _ _ Hinv0). lia.
  - intros i Hi. change (4096 ≤ i < total_pages s) in Hi. rewrite F4 in Hi.
    unfold refs_at. upd_simpl. rewrite Hph. fold p0. by apply Hre.
  - upd_simpl. rewrite Hph, F4. by apply (tables_ok_drop _ dirs _ D), Hinv0.
Qed.
End free.
