(* ===== verification/Boot.v ===== *)
(** * The memory manager at boot ([memory_map_init] and [mapping_init] of
    [src/src/kernel/memory.c])

    After the two calls the kernel runs on the page directory [KERNEL_PAGE_DIR]
    with the first 16M mapped to themselves, and the reference counts are exact:
    the invariant of the memory manager starts to hold. *)
From S2P Require Import Prelude.
From S2P Require Bitmap.
From S2P Require Import Page.
From S2P Require Import Alloc.
From S2P Require Import Memory.
From S2P Require Import Refs.
From S2P Require Import Tables.
From S2P Require Import Cow.

Definition boot (bits : list Z) : ST mem unit :=
  do! memory_map_init bits; mapping_init.

(** What [memory_init] leaves: [N] pages from 1M on, 16M at least. *)
Record found (s : mem) (N : Z) : Prop := {
  fd_paging : paging s = false;
  fd_total : total_pages s = N + 256;
  fd_free : free_pages s = N;
  fd_size : 4096 ≤ N;
  fd_max : N + 256 < 2 ^ 20 }.

Lemma insert_next (i n : nat) (a b : Z) : (i < n)%nat →
  <[i := a]> (replicate i a ++ replicate (n - i) b) = replicate (S i) a ++ replicate (n - S i) b.
Proof.
  intros Hi. rewrite insert_app_r_alt, length_replicate, Nat.sub_diag by (by rewrite length_replicate).
  replace (n - i)%nat with (S (n - S i)) by lia.
  change (<[0%nat := a]> (replicate (S (n - S i)) b)) with (a :: replicate (n - S i) b).
  rewrite replicate_S_end. by rewrite <- app_assoc.
Qed.

Lemma lookup_two (i n : nat) (a b : Z) (j : nat) : (j < n)%nat → (i ≤ n)%nat →
  (replicate i a ++ replicate (n - i) b) !! j = Some (if decide (j < i)%nat then a else b).
Proof.
  intros Hj Hi. destruct (decide (j < i)%nat).
  - rewrite lookup_app_l by (by rewrite length_replicate). by rewrite lookup_replicate_2.
  - rewrite lookup_app_r by (rewrite length_replicate; lia). rewrite lookup_replicate_2; [done|].
    rewrite length_replicate. lia.
Qed.

Section boot.
Context (E : stop → Prop).

(** [for (i = 0; i < start_page; i++) memory_map[i] = 1] *)
Lemma wp_mark_used s (n : nat) start (Q : unit → mem → Prop) :
  memory_map s = replicate n 0 → 0 ≤ start ≤ Z.of_nat n →
  Q tt (s <| memory_map := replicate (Z.to_nat start) 1 ++ replicate (n - Z.to_nat start) 0 |>) →
  wp E (st_for (seqZ 0 start) (λ i, mm_set i 1)) Q s.
Proof.
  intros Hm Hs HQ.
  set (st := λ i : Z,
    s <| memory_map := replicate (Z.to_nat i) 1 ++ replicate (n - Z.to_nat i) 0 |>).
  eapply wp_conseq; [apply (wp_for_seq E start _ (λ i s', s' = st i)); [lia| |]|].
  - intros i s' Hi ->. eapply (wp_mm_set E _ 0); [|lia|].
    + unfold refs_at, st. upd_simpl. rewrite lookup_two by lia.
      by rewrite decide_False by lia.
    + unfold set_refs, st.
      change ((s <| memory_map := replicate (Z.to_nat i) 1 ++ replicate (n - Z.to_nat i) 0 |>)
        <| memory_map $= <[Z.to_nat i := 1]> |>) with
        (s <| memory_map := <[Z.to_nat i := 1]>
           (replicate (Z.to_nat i) 1 ++ replicate (n - Z.to_nat i) 0) |>).
      rewrite insert_next by lia. by replace (Z.to_nat (i + 1)) with (S (Z.to_nat i)) by lia.
  - unfold st. cbn [Z.to_nat replicate app]. rewrite Nat.sub_0_r, <- Hm. by destruct s.
  - intros [] s' ->. exact HQ.
Qed.

Lemma free_count_replicate0 n : free_count (replicate n 0) = Z.of_nat n.
Proof.
  induction n as [|n IH]; [done|]. cbn [replicate free_count zsum]. fold (free_count (replicate n 0)).
  rewrite IH. cbn. lia.
Qed.
Lemma free_count_replicate1 n : free_count (replicate n 1) = 0.
Proof. apply free_count_zero. intros i [? _]%lookup_replicate. done. Qed.
Lemma free_count_app l1 l2 : free_count (l1 ++ l2) = free_count l1 + free_count l2.
Proof. apply zsum_app. Qed.

(** After [memory_map_init]: no page below [start_page] is free, all others are. *)
Record map_ready (s : mem) : Prop := {
  mr_alloc : alloc_ok s;
  mr_paging : paging s = false;
  mr_total : 4096 < total_pages s;
  mr_start : 0 < start_page s ≤ 512;
  mr_mark : Forall (λ v, 0 ≤ v ≤ 1) (memory_map s);
  mr_refs : ∀ i, 0 ≤ i < total_pages s → refs_at s i = Some (if i <? start_page s then 1 else 0);
  mr_kmap : kmap_ok (kernel_map s) [1] }.

(** The bitmap of the kernel pages, [count] of them taken. *)
Lemma kernel_bitmap bits count : List.length bits = 352%nat → 0 < count < 2 ^ 31 →
  ∃ map r, Bitmap.bitmap_init bits 352 256 = Ok map ∧ Bitmap.bitmap_scan map count = Ok r ∧
    kmap_ok r.2 [1].
Proof.
  intros Hl Hc. unfold Bitmap.bitmap_init. rewrite Hl. cbn [Z.leb Z.of_nat Z.compare].
  set (map := Bitmap.bitmap_make _ _ _).
  change (Z.to_nat 352) with 352%nat in *.
  assert (Bitmap.bitmap_wf map) as Hwf.
  { split; unfold map, Bitmap.bitmap_make, Bitmap.nbits;
      cbn [Bitmap.length Bitmap.bits Bitmap.offset].
    - rewrite length_app, length_replicate, length_drop, Hl. done.
    - done.
    - done.
    - rewrite drop_ge by lia. rewrite app_nil_r. apply Forall_replicate. lia. }
  assert (Bitmap.nbits map = 2816) as Hn by done.
  assert (∀ m, Bitmap.bitmap_wf m → Bitmap.length m = 352 → Bitmap.offset m = 256 →
    kmap_ok m [1]) as Hk.
  { intros m Hm Hlm Ho. split; [done|done|unfold Bitmap.nbits; lia|].
    by intros D ->%list_elem_of_singleton. }
  exists map. unfold Bitmap.bitmap_scan. fold (Bitmap.nbits map). rewrite Hn.
  destruct (Bitmap.scan_loop_spec map count Hwf Hc (Z.to_nat (u32 2816)) 0 0
    (Bitmap.scan_inv_start map count Hwf ltac:(lia)) ltac:(done)) as [[-> _]|(k & -> & Hf & _)].
  - exists (EOF, map). split; [done|]. split; [done|]. by apply Hk.
  - destruct Hf as (Hk0 & Hk1 & _). rewrite Hn in Hk1. cbn [res_bind].
    rewrite (proj2 (Z.eqb_neq k EOF)) by (unfold EOF, EEOF; lia).
    change (2 ^ 31) with 2147483648 in Hc. rewrite u32_small by lia.
    destruct (Bitmap.mark_loop_ok (Z.to_nat count) map k Hwf) as (m' & -> & Hwf' & Hl' & Ho' & _);
      [lia|rewrite Hn; lia|].
    eexists. split; [done|]. split; [reflexivity|]. by apply Hk.
Qed.

Lemma wp_memory_map_init s N bits (Q : unit → mem → Prop) : found s N →
  List.length bits = 352%nat → (∀ s', map_ready s' → total_pages s' = N + 256 → Q tt s') →
  wp E (memory_map_init bits) Q s.
Proof.
  intros [Hpg Ht Hf Hn Hmax] Hl HQ. change (2 ^ 20) with 1048576 in Hmax.
  unfold memory_map_init. wp_step. wp_step. rewrite Ht.
  set (pages := div_round_up (N + 256) PAGE_SIZE).
  assert (0 < pages ≤ 256 ∧ N + 256 ≤ pages * 4096) as [Hp1 Hp2].
  { unfold pages, div_round_up, PAGE_SIZE. page_lia. }
  wp_step. wp_step. set (s1 := s <| memory_map_pages := pages |> <| free_pages $= _ |>
    <| memory_map := _ |> <| start_page := _ |>).
  assert (start_page s1 = 256 + pages) as Hs1.
  { unfold s1. upd_simpl. change (IDX MEMORY_BASE) with 256. apply u32_small. lia. }
  assert (total_pages s1 = N + 256) as Ht1 by exact Ht.
  wp_step. wp_step. rewrite Hs1. wp_step.
  apply (wp_mark_used s1 (Z.to_nat (pages * PAGE_SIZE))); [done|unfold PAGE_SIZE; lia|].
  set (mm := replicate (Z.to_nat (256 + pages)) 1 ++ _).
  destruct (kernel_bitmap bits pages Hl) as (map & r & Hmap & Hr & Hkm);
    [change (2 ^ 31) with 2147483648; lia|].
  change (u32 (IDX KERNEL_RAMDISK_MEM - IDX MEMORY_BASE) `div` 8) with 352.
  change (IDX MEMORY_BASE) with 256.
  wp_step. eapply wp_lift; [exact Hmap|]. wp_step. eapply wp_lift; [exact Hr|].
  wp_step. apply HQ; [|exact Ht].
  assert (u32 (free_pages s - pages) = N - pages) as Hfree by (rewrite Hf; apply u32_small; lia).
  assert (Forall (λ v, 0 ≤ v ≤ 1) mm) as Hmark.
  { apply Forall_app. split; apply Forall_replicate; lia. }
  assert (∀ i, 0 ≤ i < N + 256 → mm !! Z.to_nat i = Some (if i <? 256 + pages then 1 else 0))
    as Hmm.
  { intros i Hi. unfold mm, PAGE_SIZE. rewrite lookup_two by lia.
    destruct (Z.ltb_spec i (256 + pages)); [by rewrite decide_True by lia|].
    by rewrite decide_False by lia. }
  split; upd_simpl; try done.
  - split; upd_simpl; rewrite ?Ht1, ?Hs1.
    + change (2 ^ 20) with 1048576. lia.
    + lia.
    + unfold mm. rewrite length_app, !length_replicate. unfold PAGE_SIZE. lia.
    + eapply Forall_impl; [exact Hmark|]. cbn. lia.
    + intros i Hi. unfold refs_at. upd_simpl. rewrite Hmm by lia.
      by rewrite (proj2 (Z.ltb_lt _ _)) by lia.
    + change (free_pages s1) with (u32 (free_pages s - pages)). rewrite Hfree.
      unfold mm. rewrite take_app, length_replicate, take_ge by (rewrite length_replicate; lia).
      rewrite take_replicate, free_count_app, free_count_replicate0, free_count_replicate1.
      unfold PAGE_SIZE. lia.
  - rewrite Ht1. lia.
  - rewrite Hs1. lia.
  - intros i Hi. unfold refs_at. upd_simpl. rewrite Hs1. apply Hmm.
    rewrite Ht1 in Hi. lia.
Qed.

(** ** The identity mapping *)

Lemma wp_stw_phys s va w (Q : unit → mem → Prop) : paging s = false →
  Q tt (s <| phys $= λ p, upd p (IDX va) (word_of va) w |>) → wp E (stw va w) Q s.
Proof.
  intros Hpg HQ. unfold stw. wp_step. apply (wp_deref _ _ (IDX va)); [|by wp_step].
  unfold xlate. by rewrite Hpg.
Qed.
Lemma wp_ent_mod_phys s va f (Q : unit → mem → Prop) : paging s = false →
  Q tt (s <| phys $= λ p, upd p (IDX va) (word_of va) (f (phys s (IDX va) (word_of va))) |>) →
  wp E (ent_mod va f) Q s.
Proof.
  intros Hpg HQ. unfold ent_mod, ldw. wp_step. wp_step. apply (wp_deref _ _ (IDX va)).
  { unfold xlate. by rewrite Hpg. }
  wp_step. by apply wp_stw_phys.
Qed.
Lemma wp_memset_phys s va (Q : unit → mem → Prop) : paging s = false →
  Q tt (s <| phys $= λ p f' i', if f' =? IDX va then 0 else p f' i' |>) →
  wp E (memset_page va) Q s.
Proof.
  intros Hpg HQ. unfold memset_page. wp_step. apply (wp_deref _ _ (IDX va)); [|by wp_step].
  unfold xlate. by rewrite Hpg.
Qed.

(** The entries of the kernel. *)
Definition kernel_word (i : Z) : Z := ent_set P_user USER_MEMORY (entry_word i).

Lemma kernel_word_ok i : 0 ≤ i < 2 ^ 20 →
  present (kernel_word i) = true ∧ index (kernel_word i) = i.
Proof.
  intros Hi. unfold kernel_word, P_present, P_user. rewrite ent_index_set by lia.
  rewrite ent_index_entry_word by done. rewrite ent_bit_set by lia.
  by rewrite ent_bit_entry_word by lia.
Qed.

(** The first [n] pages are mapped by the first tables, [nd] of them entered in
    the directory. *)
Record mapping (total start : Z) (nd n : Z) (s : mem) : Prop := {
  mp_alloc : alloc_ok s;
  mp_paging : paging s = false;
  mp_total : total_pages s = total;
  mp_start : start_page s = start;
  mp_mark : Forall (λ v, 0 ≤ v ≤ 1) (memory_map s);
  mp_refs : ∀ i, 0 ≤ i < total →
    refs_at s i = Some (if (i <? start) || (i <? n) then 1 else 0);
  mp_kmap : kmap_ok (kernel_map s) [1];
  mp_dir : ∀ x, phys s 1 x = if (0 <=? x) && (x <? nd) then kernel_word (2 + x) else 0;
  mp_tab : ∀ i, 1 ≤ i < n → phys s (2 + i `div` 1024) (i `mod` 1024) = kernel_word i }.

Lemma wp_kernel_word s va i (k : ST mem unit) (Q : unit → mem → Prop) : paging s = false →
  (∀ p, (∀ f x, p f x = upd (phys s) (IDX va) (word_of va) (kernel_word i) f x) →
     wp E k Q (s <| phys := p |>)) →
  wp E (do! entry_init va i; do! ent_mod va (ent_set P_user USER_MEMORY); k) Q s.
Proof.
  intros Hpg HQ. unfold entry_init. wp_step. apply wp_stw_phys; [done|].
  set (w := entry_word i). wp_step. apply wp_ent_mod_phys; [done|].
  upd_simpl. rewrite upd_eq.
  apply (HQ (upd (upd (phys s) (IDX va) (word_of va) w) (IDX va) (word_of va)
    (ent_set P_user USER_MEMORY w))).
  intros f x. unfold upd. by destruct ((f =? IDX va) && (x =? word_of va)).
Qed.

(** The page [i] is marked as used. *)
Lemma wp_mark_page total start nd i s : 4096 < total → 0 < i < 4096 → 0 < start ≤ 512 →
  mapping total start nd i s → phys s (2 + i `div` 1024) (i `mod` 1024) = kernel_word i →
  wp E (let* v := mm_get i in
        do! st_when (v =? 0) (st_mod (λ s, s <| free_pages $= λ n, u32 (n - 1) |>));
        mm_set i 1) (λ _, mapping total start nd (i + 1)) s.
Proof.
  intros Htot Hi Hst [Ha Hpg Hto Hs Hmk Hre Hkm Hdir Htab] Hw.
  pose proof (Hre i ltac:(lia)) as Hv. set (v := if (i <? start) || (i <? i) then 1 else 0) in *.
  assert (alloc_ok (set_refs i 1 s <| free_pages := if v =? 0 then u32 (free_pages s - 1)
    else free_pages s |>)) as Hal.
  { destruct (Z.ltb_spec i start) as [Hlt|Hge].
    - (* a page of the kernel or of the array *)
      assert (v = 1) as Hv1 by (unfold v; cbn [orb]; done). rewrite Hv1 in *.
      destruct Ha as [A1 A2 A3 A4 A5 A6]. unfold set_refs. split; upd_simpl; try done.
      + by rewrite length_insert.
      + apply Forall_insert_list; [done|lia].
      + intros j Hj. unfold refs_at. upd_simpl.
        rewrite list_insert_id by exact Hv. by apply A5.
      + by rewrite list_insert_id by exact Hv.
    - assert (v = 0) as Hv0.
      { unfold v. rewrite Z.ltb_irrefl. done. }
      rewrite Hv0 in *. cbn [Z.eqb].
      assert (1 ≤ free_pages s) as H1.
      { rewrite (al_free _ Ha). apply (free_count_pos _ (Z.to_nat i)).
        rewrite lookup_take_lt by lia. exact Hv. }
      pose proof (free_range s Ha). pose proof (al_total _ Ha) as Htt.
      change (2 ^ 20) with 1048576 in Htt. rewrite u32_small by lia.
      apply (alloc_ok_set s i 0 1); try done; [lia|cbn; lia]. }
  wp_step. eapply wp_mm_get; [exact Hv|]. wp_step.
  assert (∀ f, alloc_ok (set_refs i 1 s <| free_pages := f |>) →
    mapping total start nd (i + 1) (set_refs i 1 s <| free_pages := f |>)) as Hend.
  { intros f Hf. unfold set_refs. split; upd_simpl; try done.
    - apply Forall_insert_list; [done|lia].
    - intros j Hj. unfold refs_at. upd_simpl. destruct (Z.eq_dec j i) as [->|Hne].
      + rewrite list_lookup_insert_eq by (by apply lookup_lt_Some in Hv).
        by rewrite (proj2 (Z.ltb_lt i (i + 1))), orb_true_r by lia.
      + rewrite list_lookup_insert_ne by lia. pose proof (Hre j Hj) as Hj'. unfold refs_at in Hj'.
        rewrite Hj'. do 2 f_equal. destruct (Z.ltb_spec j i), (Z.ltb_spec j (i + 1)); (done || lia).
    - intros j Hj. destruct (Z.eq_dec j i) as [->|Hne]; [done|].
      apply Htab. lia. }
  destruct (v =? 0); cbn [st_when].
  - wp_step. eapply (wp_mm_set E i v 1); [exact Hv|lia|]. exact (Hend _ Hal).
  - wp_step. eapply (wp_mm_set E i v 1); [exact Hv|lia|].
    pose proof (Hend _ Hal) as He. unfold set_refs in *. by destruct s.
Qed.

(** One entry of a page table. *)
Lemma wp_map_kernel_page total start didx tidx s : 0 ≤ didx < 4 → 0 ≤ tidx < 1024 →
  4096 < total → 0 < start ≤ 512 →
  mapping total start (didx + 1) (didx * 1024 + tidx) s →
  wp E (map_kernel_page (0x2000 + 0x1000 * didx) tidx (didx * 1024 + tidx))
    (λ _, mapping total start (didx + 1) (didx * 1024 + (tidx + 1))) s.
Proof.
  intros Hd Ht Htot Hst [Ha Hpg Hto Hs Hmk Hre Hkm Hdir Htab].
  set (i := didx * 1024 + tidx) in *. replace (didx * 1024 + (tidx + 1)) with (i + 1) by lia.
  assert (i `div` 1024 = didx ∧ i `mod` 1024 = tidx) as [Hid Him] by (unfold i; split; page_lia).
  unfold map_kernel_page. destruct (Z.eqb_spec i 0) as [Hi0|Hi0].
  { wp_step. split; try done.
    - intros j Hj. rewrite Hre by done. destruct (Z.ltb_spec j start), (Z.ltb_spec j i),
        (Z.ltb_spec j (i + 1)); cbn [orb]; (done || lia).
    - intros j Hj. exfalso. lia. }
  cbv zeta. set (va := u32 (0x2000 + 0x1000 * didx + 4 * tidx)).
  assert (IDX va = 2 + didx ∧ word_of va = tidx) as [Hva Hvw] by (unfold va; split; page_lia).
  apply wp_kernel_word; [done|]. intros p Hp. rewrite Hva, Hvw in Hp.
  apply wp_mark_page; [done|unfold i in *; lia|done| |].
  - split; try done.
    + by destruct Ha.
    + intros x. upd_simpl. rewrite Hp, upd_ne by lia. apply Hdir.
    + intros j Hj. upd_simpl. rewrite Hp, upd_ne; [by apply Htab|].
      destruct (Z.eq_dec (j `div` 1024) didx); [right|left]; Z.div_mod_to_equations; lia.
  - upd_simpl. rewrite Hid, Him, Hp. apply upd_eq.
Qed.

(** One page table, with its entry in the directory. *)
Lemma wp_map_kernel_table total start didx s : 0 ≤ didx < 4 → 4096 < total →
  0 < start ≤ 512 → mapping total start didx (didx * 1024) s →
  wp E (map_kernel_table didx) (λ _, mapping total start (didx + 1) ((didx + 1) * 1024)) s.
Proof.
  intros Hd Htot Hst [Ha Hpg Hto Hs Hmk Hre Hkm Hdir Htab].
  unfold map_kernel_table. wp_step. apply (wp_deref _ _ (0x2000 + 0x1000 * didx)).
  { assert (didx = 0 ∨ didx = 1 ∨ didx = 2 ∨ didx = 3) as [->|[->|[->| ->]]] by lia; done. }
  set (pte := 0x2000 + 0x1000 * didx).
  assert (IDX pte = 2 + didx) as Hpte by (unfold pte; page_lia).
  wp_step. apply wp_memset_phys; [done|]. rewrite Hpte. set (s1 := s <| phys $= _ |>).
  assert (∀ f x, phys s1 f x = if f =? 2 + didx then 0 else phys s f x) as Hp1 by done.
  set (va := u32 (KERNEL_PAGE_DIR + 4 * didx)).
  assert (IDX va = 1 ∧ word_of va = didx) as [Hva Hvw]
    by (unfold va, KERNEL_PAGE_DIR; split; page_lia).
  apply (wp_kernel_word s1); [done|]. intros p Hp. rewrite Hva, Hvw in Hp.
  eapply wp_conseq; [apply (wp_for_seq E 1024 _ (λ t, mapping total start (didx + 1) (didx * 1024 + t)))|].
  - lia.
  - intros t s2 Ht Hm. by apply wp_map_kernel_page.
  - rewrite Z.add_0_r. split; try done.
    + by destruct Ha.
    + intros x. upd_simpl. rewrite Hp. destruct (Z.eq_dec x didx) as [->|Hne].
      * rewrite upd_eq. by rewrite (proj2 (Z.leb_le 0 didx)), (proj2 (Z.ltb_lt _ _)) by lia.
      * rewrite upd_ne, Hp1, (proj2 (Z.eqb_neq 1 _)), Hdir by lia.
        destruct (Z.leb_spec 0 x), (Z.ltb_spec x didx), (Z.ltb_spec x (didx + 1)); (done || lia).
    + intros j Hj. upd_simpl.
      rewrite Hp, upd_ne, Hp1, (proj2 (Z.eqb_neq _ _)) by (Z.div_mod_to_equations; lia).
      by apply Htab.
  - intros [] s2. by replace ((didx + 1) * 1024) with (didx * 1024 + 1024) by lia.
Qed.

(** The kernel runs on its page directory, with nothing mapped for users. *)
Lemma wp_mapping_init s (Q : unit → mem → Prop) : map_ready s →
  (∀ s', mem_inv s' [1] [] → cr3 s' = KERNEL_PAGE_DIR →
     total_pages s' = total_pages s → Q tt s') →
  wp E mapping_init Q s.
Proof.
  intros [Ha Hpg Htot Hst Hmk Hre Hkm] HQ. unfold mapping_init.
  wp_step. apply wp_memset_phys; [done|]. change (IDX KERNEL_PAGE_DIR) with 1.
  set (s1 := s <| phys $= _ |>).
  wp_step. eapply wp_conseq; [apply (wp_for_seq E 4 _
    (λ d, mapping (total_pages s) (start_page s) d (d * 1024)))|].
  - lia.
  - intros d s2 Hd Hm. by apply wp_map_kernel_table.
  - split; try done.
    + by destruct Ha.
    + intros i Hi. rewrite (proj2 (Z.ltb_ge i (0 * 1024))), orb_false_r by lia. by apply Hre.
    + intros x. unfold s1. upd_simpl. rewrite Z.eqb_refl.
      by destruct (Z.leb_spec 0 x), (Z.ltb_spec x 0); (done || lia).
    + intros j Hj. exfalso. lia.
  - clear Ha Hpg Hre Hmk Hkm s1.
    intros [] s2 [Ha Hpg Hto Hs Hmk Hre Hkm Hdir Htab].
    change (4 * 1024) with 4096 in *.
    change (u32 (KERNEL_PAGE_DIR + 4 * 1023)) with 8188.
    wp_step. unfold entry_init. apply wp_stw_phys; [done|].
    change (IDX 8188) with 1. change (word_of 8188) with 1023.
    set (s3 := s2 <| phys $= _ |>).
    wp_step. unfold set_cr3. wp_step. apply wp_check_true; [done|]. wp_step. unfold enable_page.
    wp_step. set (s4 := s3 <| cr3 := _ |> <| paging := _ |>).
    assert (∀ f x, phys s4 f x = upd (phys s2) 1 1023 (entry_word 1) f x) as Hp4 by done.
    assert (∀ x, 0 ≤ x < 1023 → phys s4 1 x = if x <? 4 then kernel_word (2 + x) else 0) as Hd4.
    { intros x Hx. rewrite Hp4, upd_ne, Hdir by lia. by rewrite (proj2 (Z.leb_le 0 x)) by lia. }
    assert (∀ Dd T, ¬ to_table (phys s4) [1] Dd T) as Hnt.
    { intros [D d] T (Hin & Hp & _). apply elem_of_slots in Hin as [->%list_elem_of_singleton Hr].
      cbn [fst snd] in Hp. rewrite Hd4, (proj2 (Z.ltb_ge d 4)) in Hp by lia. done. }
    assert (∀ i, refs (phys s4) [1] i = 0) as Hr0.
    { intros i. apply zsum_zero. intros [D d] Hin. unfold slot_refs. cbn [fst snd].
      destruct (present (phys s4 D d)) eqn:Ep; [|done]. by destruct (Hnt (D, d) (index (phys s4 D d))). }
    apply HQ; [|done|exact Hto]. split; try done.
    + by destruct Ha.
    + by left.
    + change (4096 < total_pages s2). lia.
    + change (start_page s2 ≤ 4096). lia.
    + intros i Hi. change (refs_at s2 i = Some 1). rewrite Hre by lia.
      by rewrite (proj2 (Z.ltb_lt i 4096)), orb_true_r by lia.
    + intros i Hi. change (4096 ≤ i < total_pages s2) in Hi.
      change (refs_at s2 i = Some (refs (phys s4) [1] i + 0)). rewrite Hr0, Hre by lia.
      by rewrite !(proj2 (Z.ltb_ge _ _)) by lia.
    + intros i v Hv. assert (0 ≤ v ≤ 1); [|lia].
      exact (Forall_lookup_1 _ _ _ _ Hmk Hv).
    + split.
      * apply NoDup_singleton.
      * intros D ->%list_elem_of_singleton. split; [lia|lia| |].
        -- rewrite Hp4, upd_eq. done.
        -- intros k Hk. rewrite Hd4, (proj2 (Z.ltb_lt k 4)) by lia. apply kernel_word_ok. lia.
      * intros f Hf. rewrite Hp4, upd_ne by (left; Z.div_mod_to_equations; lia).
        rewrite Htab by lia. apply kernel_word_ok. lia.
      * intros Dd T HT. by destruct (Hnt Dd T).
      * intros Dd t f (T & HT & _). by destruct (Hnt Dd T).
      * intros Dd T Dd' t f HT. by destruct (Hnt Dd T).
      * intros Dd T HT. by destruct (Hnt Dd T).
      * intros Dd T t HT. by destruct (Hnt Dd T).
Qed.

Lemma wp_boot s N bits (Q : unit → mem → Prop) : found s N → List.length bits = 352%nat →
  (∀ s', mem_inv s' [1] [] → cr3 s' = KERNEL_PAGE_DIR → total_pages s' = N + 256 → Q tt s') →
  wp E (boot bits) Q s.
Proof.
  intros Hf Hl HQ. unfold boot. wp_step. apply (wp_memory_map_init s N bits _ Hf Hl).
  intros s1 Hr Ht. apply wp_mapping_init; [done|]. intros s2 Hi Hc Ht2. apply HQ; congruence.
Qed.
End boot.
