(* ===== verification/Mm.v ===== *)
(** * The memory of the processes ([src/src/kernel/memory.c])

    The operations of the memory manager composed: every step keeps the
    reference counts exact, a write fault gives the writer a page of its own
    and changes what nobody else sees, and a fork duplicates the memory. *)
From S2P Require Import Prelude.
From S2P Require Bitmap.
From S2P Require Import Page.
From S2P Require Import Alloc.
From S2P Require Import Memory.
From S2P Require Import Refs.
From S2P Require Import Tables.
From S2P Require Import Cow.
From S2P Require Import Fault.
From S2P Require Import Fork.
From S2P Require Import Free.
From S2P Require Import Boot.

(** ** A store of a process

    The processor lets user code write where the directory entry and the page
    entry are present and writable. *)
Definition user_frame (s : mem) (va : Z) : option Z :=
  let de := phys s (IDX (cr3 s)) (DIDX va) in
  let te := phys s (index de) (TIDX va) in
  if present de && ent_bit P_write de && present te && ent_bit P_write te
  then Some (index te) else None.

Definition user_store (va v : Z) : ST mem unit :=
  let* f := st_deref (λ s, user_frame s va) in
  st_mod (λ s, s <| phys $= λ p, upd p f (word_of va) v |>).

(** The word that the process with the directory [D] reads at [va]. *)
Definition user_load (s : mem) (D va : Z) : option Z :=
  let de := phys s D (DIDX va) in
  let te := phys s (index de) (TIDX va) in
  if present de && present te then Some (phys s (index te) (word_of va)) else None.

Lemma same_page_load p D p' D' va s s' : phys s = p → phys s' = p' →
  same_page p D p' D' (DIDX va) (TIDX va) → user_load s' D' va = user_load s D va.
Proof.
  intros <- <- [Hm Hx]. unfold user_load. unfold mapped in *.
  change (phys ?s (index (phys ?s ?D (DIDX va))) (TIDX va)) with (pte (phys s) D (DIDX va) (TIDX va)).
  destruct (present (phys s D (DIDX va)) && present (pte (phys s) D (DIDX va) (TIDX va))) eqn:E.
  - apply andb_prop in E. destruct (proj2 Hm E) as [-> ->]. cbn [andb]. f_equal. by apply Hx.
  - destruct (present (phys s' D' (DIDX va)) && present (pte (phys s') D' (DIDX va) (TIDX va)))
      eqn:E'; [|done].
    apply andb_prop, Hm in E' as [E1 E2]. by rewrite E1, E2 in E.
Qed.

Lemma user_frame_page s dirs held va f : mem_inv s dirs held → user_addr va →
  user_frame s va = Some f →
  to_page (phys s) dirs (IDX (cr3 s), DIDX va) (TIDX va) f ∧ own_page s (DIDX va) (TIDX va).
Proof.
  intros Hinv Hva Hf. pose proof (user_addr_didx va Hva) as Hd.
  unfold user_frame in Hf. cbv zeta in Hf.
  destruct (present (phys s (IDX (cr3 s)) (DIDX va))) eqn:E1; [|done].
  destruct (ent_bit P_write (phys s (IDX (cr3 s)) (DIDX va))) eqn:E2; [|done].
  destruct (present (phys s _ (TIDX va))) eqn:E3; [|done].
  destruct (ent_bit P_write (phys s _ (TIDX va))) eqn:E4; [|done]. cbn [andb] in Hf.
  injection Hf as <-. split; [|done].
  eexists. split; [split; [by apply (inv_current s dirs held Hinv)|done]|].
  split; [apply TIDX_range|done].
Qed.

(** The kernel reaches the page without the right to write. *)
Lemma xlate_page s dirs held va f : mem_inv s dirs held → user_addr va →
  xlate s va = Some f → to_page (phys s) dirs (IDX (cr3 s), DIDX va) (TIDX va) f.
Proof.
  intros Hinv Hva Hf. pose proof (user_addr_didx va Hva) as Hd.
  unfold xlate in Hf. rewrite (mi_paging _ _ _ Hinv) in Hf. cbv zeta in Hf.
  destruct (ent_bit P_present (phys s (IDX (cr3 s)) (DIDX va))) eqn:E1; [|done].
  destruct (ent_bit P_present (phys s _ (TIDX va))) eqn:E3; [|done]. injection Hf as <-.
  eexists. split; [split; [by apply (inv_current s dirs held Hinv)|done]|].
  split; [apply TIDX_range|done].
Qed.

Section store.
Context (s : mem) (dirs : list Z) (Hinv : mem_inv s dirs []).
Context (Dd : Z * Z) (t f x v : Z) (Hpg : to_page (phys s) dirs Dd t f).
Let s' := s <| phys $= λ p, upd p f x v |>.

Lemma store_agree : agree (phys s) (phys s') dirs.
Proof using Hinv Hpg.
  pose proof (mi_tables _ _ _ Hinv) as Hok. pose proof (to_pag _ _ _ Hok _ _ _ Hpg) as Hr.
  intros g y Hg. apply upd_ne. left. intros ->. destruct Hg as [HD|[[Dd' HT]|?]]; [| |lia].
  - apply (to_dirs _ _ _ Hok) in HD as [? _ _ _]. lia.
  - by apply (to_sep _ _ _ Hok Dd' f Dd t f).
Qed.

Lemma store_inv : mem_inv s' dirs [].
Proof using Hinv Hpg. apply (inv_agree s dirs [] Hinv). apply store_agree. Qed.

End store.


Lemma wp_absent_fault E s dirs va error (Q : fault_result → mem → Prop) :
  mem_inv s dirs [] → user_addr va → E_present error = false →
  va < t_brk (task s) ∨ USER_STACK_BOTTOM ≤ va → (free_pages s ≤ 1 → E Assert) →
  (mapped_at s va → Q Resume s) →
  (¬ mapped_at s va → ∀ s', changed (here s va) s s' dirs [] 2 →
     new_page s' (DIDX va) (TIDX va) → Q Resume s') →
  wp E (page_fault 0xe va error) Q s.
Proof.
  intros Hinv Hva Hep Hr HE HQ1 HQ2.
  assert (DIDX (PAGE (IDX va)) = DIDX va ∧ TIDX (PAGE (IDX va)) = TIDX va) as [Hpd Hpt].
  { rewrite PAGE_mul by apply IDX_range. split; page_lia. }
  unfold page_fault. wp_step. apply wp_check_true; [done|]. wp_step. wp_step.
  rewrite (proj2 (Z.ltb_ge va USER_EXEC_ADDR)), (proj2 (Z.leb_gt USER_STACK_TOP va)) by apply Hva.
  cbn [orb]. rewrite Hep.
  assert ((va <? t_brk (task s)) || (USER_STACK_BOTTOM <=? va) = true) as ->.
  { apply orb_true_iff. rewrite Z.ltb_lt, Z.leb_le. done. }
  wp_step. apply (wp_link_page E s dirs [] Hinv).
  - unfold user_addr, USER_EXEC_ADDR, KERNEL_MEMORY_SIZE, USER_STACK_TOP in *.
    rewrite PAGE_mul by apply IDX_range. page_lia.
  - rewrite PAGE_mul by apply IDX_range. page_lia.
  - done.
  - unfold mapped_at. rewrite Hpd, Hpt. intros Hm. wp_step. by apply HQ1.
  - unfold mapped_at, here. rewrite Hpd, Hpt. intros Hm s' Hch Ho. wp_step. by apply HQ2.
Qed.

(** ** [mmap] of a page *)
Lemma mmap_flags_same prot flags w : same_ref w (mmap_flags prot flags w) ∧
  (ent_bit P_shared (mmap_flags prot flags w) = false → ent_bit P_shared w = false).
Proof.
  unfold mmap_flags, P_user, P_write, P_readonly, P_shared, P_privat.
  assert (∀ j b v, 0 < j < 12 → same_ref w v → same_ref w (ent_set j b v)) as Hset.
  { intros j b v Hj [H1 H2]. destruct (same_ref_set j b v Hj). split; congruence. }
  split.
  - repeat case_match; repeat (apply Hset; [lia|]); done.
  - repeat case_match; rewrite !ent_bit_set by lia; cbn [Z.eqb Pos.eqb]; done.
Qed.

Lemma inv_task s dirs held t : mem_inv s dirs held → mem_inv (s <| task := t |>) dirs held.
Proof. intros [Ha Hp Hcr Ht Hst Hkr Hre Hbd Hkm Htb]. split; try done. by destruct Ha. Qed.

Lemma wp_set_vmap E index v s (Q : unit → mem → Prop) : (∀ e, E e) →
  (∀ m, Q tt (s <| task $= λ t, t <| t_vmap := m |> |>)) → wp E (set_vmap index v) Q s.
Proof.
  intros HE HQ. unfold set_vmap. wp_step. wp_step. wp_step. unfold wp, st_lift.
  destruct (Bitmap.bitmap_set _ index v); [apply HQ|apply HE].
Qed.

(** The page of [va] and the table it is in belong to the process alone. *)
Definition unshared (s : mem) (va : Z) : Prop :=
  owned s (DIDX va) ∧
  refs_at s (index (pte (phys s) (IDX (cr3 s)) (DIDX va) (TIDX va))) = Some 1.

(** The flags of an entry in a table of the process's own. *)
Lemma inv_entry_flags s dirs d t (w : Z) : mem_inv s dirs [] → 4 ≤ d < 64 → 0 ≤ t < 1024 →
  owned s d → let T := index (phys s (IDX (cr3 s)) d) in
  same_ref (phys s T t) w →
  (present w = true → ent_bit P_write w = true → ent_bit P_shared w = false →
     refs (phys s) dirs (index w) = 1) →
  mem_inv (s <| phys $= λ p, upd p T t w |>) dirs [].
Proof.
  intros Hinv Hd Ht Hown T Hsame Hw.
  destruct (owned_refs s dirs [] Hinv d T Hown Hd eq_refl) as [HT HT1].
  pose proof (mi_tables _ _ _ Hinv) as Hok. apply (inv_phys s dirs [] Hinv).
  - apply (tables_ok_entry _ _ _ Hok (IDX (cr3 s), d)); [done..|].
    intros Hp. left. split; [done|]. intros Hpw Hsh. by apply Hw.
  - intros i Hi. f_equal.
    etransitivity; [exact (entry_refs _ _ _ Hok (IDX (cr3 s), d) T t _ HT HT1 Ht i)|].
    rewrite (hits_same _ w i) by apply Hsame. lia.
Qed.

(** [link_page] of a page mapped or not. *)
Lemma wp_link_any va s dirs (Q : unit → mem → Prop) : mem_inv s dirs [] →
  user_addr va → va `mod` 4096 = 0 → (mapped_at s va → Q tt s) →
  (∀ s', mem_inv s' dirs [] → same_frame s s' → new_page s' (DIDX va) (TIDX va) → Q tt s') →
  wp (λ _, True) (link_page va) Q s.
Proof.
  intros Hinv Hva Hal HQ1 HQ2. apply (wp_link_page _ s dirs [] Hinv); try done.
  intros _ s' [Hi Hf _ _] Hn. by apply HQ2.
Qed.

(** [load_segment] takes away the right to write. *)
Lemma wp_protect_page va s dirs (Q : unit → mem → Prop) : mem_inv s dirs [] →
  user_addr va → owned s (DIDX va) →
  (∀ s', mem_inv s' dirs [] → same_frame s s' → Q tt s') →
  wp (λ _, True) (protect_page va) Q s.
Proof.
  intros Hinv Hva Hown HQ. pose proof (user_addr_didx va Hva) as Hd.
  pose proof (TIDX_range va) as Ht. pose proof (inv_self s dirs [] Hinv) as Hs.
  unfold protect_page. wp_step. apply (wp_get_entry _ s _ Hs); [apply Hown|].
  apply (wp_ent_mod_tab _ s _ Hs); [lia|done|apply Hown|]. cbv zeta.
  apply HQ; [|done]. apply (inv_entry_flags s dirs); try done.
  - destruct (same_ref_set P_write false (phys s (index (phys s (IDX (cr3 s)) (DIDX va))) (TIDX va))
      ltac:(unfold P_write; lia)) as [H1 H2].
    destruct (same_ref_set P_readonly true (ent_set P_write false
      (phys s (index (phys s (IDX (cr3 s)) (DIDX va))) (TIDX va)))
      ltac:(unfold P_readonly; lia)) as [H3 H4].
    split; congruence.
  - intros _ Hw. unfold P_write, P_readonly in Hw. by rewrite !ent_bit_set in Hw by lia.
Qed.

(** The pages of other addresses do not change; the references stay exact. *)
Lemma wp_mmap_page prot flags va s dirs (Q : unit → mem → Prop) : mem_inv s dirs [] →
  user_addr va → va `mod` 4096 = 0 → (mapped_at s va → unshared s va) →
  (∀ s', mem_inv s' dirs [] → cr3 s' = cr3 s → t_pde (task s') = t_pde (task s) → Q tt s') →
  wp (λ _, True) (mmap_page prot flags va) Q s.
Proof.
  intros Hinv Hva Hal Hno HQ. pose proof (user_addr_didx va Hva) as Hd.
  pose proof (TIDX_range va) as Ht. unfold mmap_page. wp_step.
  assert (∀ s1, mem_inv s1 dirs [] → cr3 s1 = cr3 s → t_pde (task s1) = t_pde (task s) →
    owned s1 (DIDX va) →
    (ent_bit P_shared (pte (phys s1) (IDX (cr3 s1)) (DIDX va) (TIDX va)) = false →
     present (pte (phys s1) (IDX (cr3 s1)) (DIDX va) (TIDX va)) = true →
     refs (phys s1) dirs (index (pte (phys s1) (IDX (cr3 s1)) (DIDX va) (TIDX va))) = 1) →
    wp (λ _, True) (do! set_vmap (IDX va) true;
      let* entry := get_entry va false in ent_mod entry (mmap_flags prot flags)) Q s1) as Hrest.
  { intros s1 Hinv1 Hcr Htk Hown H1. wp_step. apply wp_set_vmap; [done|]. intros map.
    set (s2 := s1 <| task $= _ |>). assert (mem_inv s2 dirs []) as Hinv2 by by apply inv_task.
    pose proof (inv_self s2 dirs [] Hinv2) as Hs2.
    wp_step. apply (wp_get_entry _ s2 _ Hs2); [apply Hown|].
    apply (wp_ent_mod_tab _ s2 _ Hs2); [lia|done|apply Hown|]. cbv zeta.
    apply HQ; [|done|unfold s2; upd_simpl; by rewrite Htk].
    destruct (mmap_flags_same prot flags
      (pte (phys s1) (IDX (cr3 s1)) (DIDX va) (TIDX va))) as [Hsame Hshd].
    apply (inv_entry_flags s2 dirs); [done..|]. intros Hp _ Hsh.
    enough (refs (phys s1) dirs (index (mmap_flags prot flags
      (pte (phys s1) (IDX (cr3 s1)) (DIDX va) (TIDX va)))) = 1) by done.
    rewrite (proj2 Hsame). apply H1; [by apply Hshd|].
    etransitivity; [symmetry; apply Hsame|exact Hp]. }
  apply (wp_link_any va s dirs); [done..| |].
  - intros Hm. destruct (Hno Hm) as [Hown H1]. apply Hrest; [done..|]. intros _ Hp.
    set (f := index _) in *.
    destruct (inv_page_refs s dirs [] Hinv (IDX (cr3 s), DIDX va) (TIDX va) f) as [Hr _].
    { eexists. split; [exact (proj1 (owned_refs s dirs [] Hinv _ _ Hown Hd eq_refl))|]. done. }
    rewrite H1 in Hr. injection Hr as Hr. change (count [] f) with 0 in Hr. lia.
  - intros s1 Hinv1 [Hcr Htk _ _] [[Hown [Hp Hw]] _].
    apply Hrest; [done..|by rewrite Htk|done|]. intros Hsh _.
    destruct (owned_refs s1 dirs [] Hinv1 _ _ Hown Hd eq_refl) as [HT _].
    by apply (to_wpage _ _ _ (mi_tables _ _ _ Hinv1) _ _ (TIDX va) HT).
Qed.

(** ** The steps of the system

    A state of the memory, and the page directories of the processes. *)
Inductive mm_step : mem * list Z → mem * list Z → Prop :=
(** the processor reports a page fault to the running process *)
| ms_fault s s' dirs va error : page_fault 0xe va error s = Ok (Resume, s') →
    mm_step (s, dirs) (s', dirs)
(** the running process stores a word *)
| ms_store s s' dirs va v : user_addr va → user_store va v s = Ok (tt, s') →
    mm_step (s, dirs) (s', dirs)
(** [munmap] or [brk] give back a page *)
| ms_unlink s s' dirs va : user_addr va → unlink_page va s = Ok (tt, s') →
    mm_step (s, dirs) (s', dirs)
(** the kernel stores a word into a page of the process, for a system call or a
    handler: the processor lets it write read-only pages too *)
| ms_kstore s s' dirs va v : user_addr va → stw va v s = Ok (tt, s') →
    mm_step (s, dirs) (s', dirs)
(** [execve] maps a page of a segment, or takes away the right to write it *)
| ms_link s s' dirs va : user_addr va → link_page va s = Ok (tt, s') →
    mm_step (s, dirs) (s', dirs)
| ms_protect s s' dirs va : user_addr va → owned s (DIDX va) →
    protect_page va s = Ok (tt, s') → mm_step (s, dirs) (s', dirs)
(** [mmap] maps a page, which is not one that a fork has shared *)
| ms_mmap s s' dirs va prot flags : user_addr va → (mapped_at s va → unshared s va) →
    mmap_page prot flags va s = Ok (tt, s') → mm_step (s, dirs) (s', dirs)
(** the running process forks *)
| ms_fork s s' dirs pde : copy_pde s = Ok (pde, s') → mm_step (s, dirs) (s', IDX pde :: dirs)
(** the scheduler runs another process *)
| ms_switch s dirs t : IDX (t_pde t) ∈ dirs → t_pde t = IDX (t_pde t) * 4096 →
    mm_step (s, dirs) (s <| cr3 := t_pde t |> <| task := t |>, dirs)
(** the running process, not the first, exits and the scheduler runs another *)
| ms_exit s s' dirs rest t : free_pde s = Ok (tt, s') → dirs ≡ₚ IDX (cr3 s) :: rest →
    IDX (cr3 s) ≠ 1 → IDX (t_pde t) ∈ rest → t_pde t = IDX (t_pde t) * 4096 →
    mm_step (s, dirs) (s' <| cr3 := t_pde t |> <| task := t |>, rest).

Definition mm_inv (x : mem * list Z) : Prop := mem_inv x.1 x.2 [] ∧ running_ok x.1.

Lemma running_frame s s' : same_frame s s' → running_ok s → running_ok s'.
Proof. intros [F1 F2 _ _] [H1 H2]. split; by rewrite ?F1, ?F2. Qed.

(** The outcome of a step, whatever stops it otherwise. *)
Lemma step_result {A} (m : ST mem A) (Q : A → mem → Prop) s a s' :
  wp (λ _, True) m Q s → m s = Ok (a, s') → Q a s'.
Proof. apply wp_result. Qed.

(** A page table that does not exist stops [get_pte]. *)
Lemma wp_get_entry_any s dirs va (Q : Z → mem → Prop) : mem_inv s dirs [] →
  let D := IDX (cr3 s) in
  (present (phys s D (DIDX va)) = true → Q (tab (DIDX va) (TIDX va)) s) →
  wp (λ _, True) (get_entry va false) Q s.
Proof.
  intros Hinv D HQ. pose proof (inv_self s dirs [] Hinv) as Hs. fold D in Hs.
  destruct (present (phys s D (DIDX va))) eqn:Hp.
  - apply (wp_get_entry _ s D Hs); auto.
  - pose proof (DIDX_range va). unfold get_entry, get_pte. cbv zeta. wp_step. wp_step.
    rewrite get_pde_tab by done. apply (wp_ldw_dir _ s D Hs); [done|].
    wp_step. apply wp_check; [done|]. rewrite Hp. done.
Qed.

Lemma wp_fault_any s dirs va error : mem_inv s dirs [] →
  wp (λ _, True) (page_fault 0xe va error)
    (λ r s', r = Resume → mem_inv s' dirs [] ∧ same_frame s s') s.
Proof.
  intros Hinv. pose proof (inv_self s dirs [] Hinv) as Hs.
  unfold page_fault. wp_step. apply wp_check_true; [done|]. wp_step. wp_step.
  destruct ((va <? USER_EXEC_ADDR) || (USER_STACK_TOP <=? va)) eqn:Eva.
  { wp_step. apply wp_check; [done|]. intros _. by wp_step. }
  apply orb_false_iff in Eva as [E1%Z.ltb_ge E2%Z.leb_gt].
  assert (user_addr va) as Hva by done. pose proof (user_addr_didx va Hva) as Hd.
  destruct (E_present error) eqn:Ep.
  - wp_step. apply wp_check; [done|]. intros _. wp_step.
    apply (wp_get_entry_any s dirs); [done|]. intros Hp. wp_step.
    apply (wp_ldw_tab _ s _ Hs); [apply DIDX_range|apply TIDX_range|done|].
    wp_step. apply wp_check; [done|]. intros Hpt.
    wp_step. apply wp_check; [done|]. intros _. wp_step. apply wp_check; [done|]. intros _.
    wp_step. apply (wp_cow3 _ s dirs [] va _ Hinv); try done.
    intros s' [Hi Hf _ _] _. cbv beta. by wp_step.
  - destruct (_ || _) eqn:Er; [|done].
    assert (user_addr (PAGE (IDX va)) ∧ PAGE (IDX va) `mod` 4096 = 0) as [Hu Hal].
    { unfold user_addr, USER_EXEC_ADDR, KERNEL_MEMORY_SIZE, USER_STACK_TOP in *.
      rewrite PAGE_mul by apply IDX_range. page_lia. }
    wp_step. apply (wp_link_page _ s dirs [] Hinv); try done.
    intros _ s' [Hi Hf _ _] _. cbv beta. by wp_step.
Qed.

Lemma mm_step_inv x y : mm_inv x → mm_step x y → mm_inv y.
Proof.
  intros [Hinv Hrun] Hst. unfold mm_inv.
  destruct Hst as [s s' dirs va error Hop|s s' dirs va v Hva Hop|s s' dirs va Hva Hop
    |s s' dirs va v Hva Hop|s s' dirs va Hva Hop|s s' dirs va Hva Hown Hop
    |s s' dirs va prot flags Hva Hno Hop|s s' dirs pde Hop|s dirs t Ht Ht'
    |s s' dirs rest t Hop Hd H1 Ht Ht']; cbn [fst snd] in *.
  - destruct (step_result _ _ _ _ _ (wp_fault_any s dirs va error Hinv) Hop eq_refl) as [? Hf].
    split; [done|by eapply running_frame].
  - unfold user_store, st_bind, st_deref, st_mod in Hop.
    destruct (user_frame s va) as [f|] eqn:Ef; [|done]. injection Hop as <-. split; [|done].
    destruct (user_frame_page s dirs [] va f Hinv Hva Ef) as [Hpg _].
    by apply (store_inv s dirs Hinv _ _ _ _ _ Hpg).
  - refine (step_result _ (λ _ s', mem_inv s' dirs [] ∧ running_ok s') _ _ _ _ Hop).
    unfold unlink_page at 1. wp_step. apply wp_check; [done|]. intros Hal.
    pose proof (wp_unlink_page (λ _, True) s dirs [] Hinv va (λ _ s', mem_inv s' dirs [] ∧ running_ok s')
      Hva (ASSERT_PAGE_inv _ Hal) ltac:(done)) as H.
    unfold unlink_page, wp, st_bind, st_check in H. rewrite Hal in H.
    unfold wp, st_bind. apply H; [done|]. intros _ s2 [Hi2 Hf2 _ _] _.
    split; [done|by eapply running_frame].
  - unfold stw, st_bind, st_deref, st_mod in Hop.
    destruct (xlate s va) as [f|] eqn:Ef; [|done]. injection Hop as <-. split; [|done].
    pose proof (xlate_page s dirs [] va f Hinv Hva Ef) as Hpg.
    by apply (store_inv s dirs Hinv _ _ _ _ _ Hpg).
  - refine (step_result _ (λ _ s', mem_inv s' dirs [] ∧ running_ok s') _ _ _ _ Hop).
    destruct (decide (va `mod` 4096 = 0)) as [Hal|Hal].
    + apply (wp_link_any va s dirs); [done..|]. intros s2 Hi2 Hf2 _.
      split; [done|by eapply running_frame].
    + unfold link_page. wp_step. apply wp_check; [done|]. by intros ?%ASSERT_PAGE_inv.
  - refine (step_result _ (λ _ s', mem_inv s' dirs [] ∧ running_ok s') _ _ _ _ Hop).
    apply (wp_protect_page va s dirs); [done..|]. intros s2 Hi2 Hf2.
    split; [done|by eapply running_frame].
  - refine (step_result _ (λ _ s', mem_inv s' dirs [] ∧ running_ok s') _ _ _ _ Hop).
    destruct (decide (va `mod` 4096 = 0)) as [Hal|Hal].
    + apply (wp_mmap_page prot flags va s dirs); try done. intros s2 Hi2 Hc2 Ht2.
      split; [done|]. destruct Hrun as [R1 R2]. split; by rewrite ?Ht2, ?Hc2.
    + unfold mmap_page, link_page. wp_step. wp_step. apply wp_check; [done|].
      by intros ?%ASSERT_PAGE_inv.
  - refine (step_result _ (λ pde s', mem_inv s' (IDX pde :: dirs) [] ∧ running_ok s') _ _ _ _ Hop).
    apply (wp_copy_pde _ s dirs _ Hinv Hrun); [done|done|].
    intros k s2 _ Hk Hi2 Hc2 Ht2 _ _ _. rewrite IDX_PAGE by lia. split; [done|].
    destruct Hrun as [R1 R2]. split; by rewrite ?Ht2, ?Hc2.
  - split; [|done]. apply inv_task. by apply inv_cr3.
  - refine (step_result _ (λ _ s', mem_inv (s' <| cr3 := t_pde t |> <| task := t |>) rest [] ∧
      running_ok (s' <| cr3 := t_pde t |> <| task := t |>)) _ _ _ _ Hop).
    destruct (decide (t_uid (task s) = KERNEL_USER)) as [Hu|Hu].
    + unfold free_pde. wp_step. wp_step. wp_step. apply wp_check; [done|].
      rewrite Hu. intros Hne. discriminate Hne.
    + apply (wp_free_pde (λ _, True) s dirs rest Hinv Hd (λ _, I) Hrun H1); [done|].
      intros s2 Hi2 _ _. split; [|done]. apply inv_task. by apply Hi2.
Qed.

(** Two addresses in the same page. *)
Lemma user_slots va dirs D : user_addr va → D ∈ dirs → (D, DIDX va) ∈ slots dirs.
Proof. intros Hva HD. apply elem_of_slots. split; [done|]. by apply user_addr_didx. Qed.


(** Only pages that the allocator manages are referred to. *)
Lemma slot_refs_outside p dirs total i Dd : tables_ok p dirs total → ¬ (4096 ≤ i < total) →
  Dd ∈ slots dirs → slot_refs p i Dd = 0.
Proof.
  intros Hok Hr Hin. unfold slot_refs. destruct (present (p Dd.1 Dd.2)) eqn:Hp; [|done].
  unfold table_refs. rewrite hits_ne, (zsum_zero _ tidxs); [done| |].
  - intros t Ht%elem_of_tidxs. apply hits_ne. intros Hpt Hi. apply Hr.
    apply (to_pag _ _ _ Hok Dd t). exists (index (p Dd.1 Dd.2)). done.
  - intros _ Hi. apply Hr. apply (to_tab _ _ _ Hok Dd). done.
Qed.

(** C1: the reference counts are exact and processes are isolated.  After the
    boot, in every state that these steps lead to - page faults, stores of a
    process and of the kernel, pages that [brk] and [munmap] give back, [mmap],
    the pages that [execve] links and makes read-only, forks, task switches and
    exits - [free_pages] is the number of unreferenced pages, the count of every
    page above 16M is the number of times the tables of all processes refer to
    it, and a page whose entry lets one process write, and that is not marked
    shared, is mapped nowhere else.  Of [mmap] the steps leave out the case of an
    address that is already mapped to a page or through a table which a fork
    has shared: there isolation is lost ([MmDemo.mmap_over_fork_shared]). *)
Theorem memory_consistent (s0 : mem) (N : Z) (bits : list Z) (t : task_mem)
    (Hf : found s0 N) (Hb : List.length bits = 352%nat) (Ht : t_pde t = KERNEL_PAGE_DIR) :
  ∃ s1, boot bits s0 = Ok (tt, s1) ∧
  ∀ s dirs, steps mm_step (s1 <| task := t |>, [1]) (s, dirs) →
    free_pages s = free_count (take (Z.to_nat (total_pages s)) (memory_map s)) ∧
    (∀ i, 4096 ≤ i < total_pages s → refs_at s i = Some (refs (phys s) dirs i)) ∧
    (∀ D d T f Dd' t', to_page (phys s) dirs (D, d) T f →
       ent_bit P_write (pte (phys s) D d T) = true →
       ent_bit P_shared (pte (phys s) D d T) = false →
       to_page (phys s) dirs Dd' t' f → Dd' = (D, d) ∧ t' = T).
Proof.
  destruct (wp_total (boot bits) _ s0 (wp_boot no_stop s0 N bits
    (λ _ s', mem_inv s' [1] [] ∧ cr3 s' = KERNEL_PAGE_DIR) Hf Hb
    ltac:(done))) as ([] & s1 & H1 & Hi & Hc).
  exists s1. split; [done|]. intros s dirs Hst.
  assert (mm_inv (s, dirs)) as [Hinv _].
  { refine (steps_invariant mm_step mm_inv _ _ mm_step_inv _ Hst). split; [by apply inv_task|].
    unfold running_ok. cbn [fst]. upd_simpl. by rewrite Ht, Hc. }
  cbn [fst snd] in Hinv. pose proof (mi_tables _ _ _ Hinv) as Hok.
  split; [apply Hinv|split].
  - intros i Hr. rewrite (mi_refs _ _ _ Hinv) by done. by rewrite Z.add_0_r.
  - intros D d T f Dd' t' Hpg Hw Hsh Hpg'.
    apply (refs_one_page (phys s) dirs (to_nodup _ _ _ Hok) (D, d) T f); [|done|done].
    destruct Hpg as (T' & HT & HTr & Hp & <-). pose proof HT as (_ & _ & HTi). cbn in HTi.
    unfold pte in Hw, Hsh. rewrite HTi in Hw, Hsh. by apply (to_wpage _ _ _ Hok (D, d)).
Qed.


(** C11: a fork duplicates the memory.  When no page of the process has too many
    references and a kernel page is free, [copy_pde] returns the page directory
    of the child; the child reads at every address what its parent reads, the
    memory of every other process is unchanged, no page of user memory is
    copied, and the reference counts are exact again. *)
Theorem fork_duplicates (s : mem) (dirs : list Z) (k0 : Z)
    (Hinv : mem_inv s dirs []) (Hrun : running_ok s)
    (Hrefs : ∀ i v, 4096 ≤ i < total_pages s → refs_at s i = Some v → v + dir_total s i ≤ 254)
    (Hk0 : 0 ≤ k0 < 2816) (Hbit : Bitmap.bit (Bitmap.bits (kernel_map s)) k0 = false) :
  ∃ k s', copy_pde s = Ok (PAGE k, s') ∧ k ∉ dirs ∧ mem_inv s' (k :: dirs) [] ∧
    free_pages s' = free_pages s ∧
    ∀ a, user_addr a → user_load s' k a = user_load s (IDX (cr3 s)) a ∧
      ∀ D, D ∈ dirs → user_load s' D a = user_load s D a.
Proof.
  assert (¬ ∃ i, 254 < refs (phys s) dirs i + dir_total s i) as HE1.
  { intros [i Hi]. destruct (decide (4096 ≤ i < total_pages s)) as [Hr|Hr].
    - pose proof (mi_refs _ _ _ Hinv i Hr) as Hv. specialize (Hrefs i _ Hr Hv).
      change (count [] i) with 0 in Hrefs. lia.
    - assert (∀ Dd, Dd ∈ slots dirs → slot_refs (phys s) i Dd = 0) as Hz.
      { intros Dd Hin. by apply (slot_refs_outside _ dirs (total_pages s)); [apply Hinv|..]. }
      unfold refs, dir_total in Hi. rewrite !zsum_zero in Hi; [lia| |done].
      intros Dd [d [-> Hd%elem_of_user_dirs]]%list_elem_of_fmap. apply Hz.
      by apply (inv_current s dirs [] Hinv). }
  assert (¬ ∀ k, 0 ≤ k < 2816 → Bitmap.bit (Bitmap.bits (kernel_map s)) k = true) as HE2.
  { intros H. by rewrite (H k0 Hk0) in Hbit. }
  destruct (wp_total copy_pde (λ r s', ∃ k, r = PAGE k ∧ k ∉ dirs ∧ mem_inv s' (k :: dirs) [] ∧
      free_pages s' = free_pages s ∧
      (∀ D d t, (D, d) ∈ slots dirs → 0 ≤ t < 1024 → same_page (phys s) D (phys s') D d t) ∧
      (∀ d t, 4 ≤ d < 64 → 0 ≤ t < 1024 → same_page (phys s) (IDX (cr3 s)) (phys s') k d t)) s)
    as (r & s' & Hc & k & -> & Hk & Hi & Hf & Ho & Hch).
  { apply (wp_copy_pde no_stop s dirs _ Hinv Hrun); [done|done|]. eauto 10. }
  exists k, s'. split; [done|]. split; [done|]. split; [done|]. split; [done|].
  intros a Ha. split.
  - eapply same_page_load; [reflexivity|reflexivity|].
    apply Hch; [by apply user_addr_didx|apply TIDX_range].
  - intros D HD. eapply same_page_load; [reflexivity|reflexivity|].
    apply Ho; [by apply user_slots|apply TIDX_range].
Qed.
