(* ===== verification/MmDemo.v ===== *)
(** * The memory manager on a concrete memory

    A memory of 32M in which the processes [ds] share one page: each of their
    page directories refers to one page table, read-only, with one entry,
    read-only.  The theorems of Mm.v applied to it. *)
From S2P Require Import Prelude.
From S2P Require Bitmap.
From S2P Require Import Page.
From S2P Require Import Alloc.
From S2P Require Import Memory.
From S2P Require Import Refs.
From S2P Require Import Tables.
From S2P Require Import Cow.
From S2P Require Import Fault.
From S2P Require Import Fork.
From S2P Require Import Free.
From S2P Require Import Boot.
From S2P Require Import Mm.

Definition ro_word (i : Z) : Z := ent_set P_write false (entry_word i).

(** The directories are the pages 1 and 258, the table 4096, the page 4097. *)
Definition demo_phys (f x : Z) : Z :=
  if (f =? 1) || (f =? 258) then
    if (0 <=? x) && (x <? 4) then kernel_word (2 + x)
    else if x =? 4 then ro_word 4096
    else if x =? 1023 then entry_word f else 0
  else if (2 <=? f) && (f <? 6) then kernel_word ((f - 2) * 1024 + x)
  else if (f =? 4096) && (x =? 0) then ro_word 4097 else 0.

Definition demo_task : task_mem :=
  mk_task_mem KERNEL_PAGE_DIR 1000 0x1000000 0x1002000 (Bitmap.mk_bitmap [] 0 0).

Definition demo_mem (ds : list Z) : mem :=
  let n := Z.of_nat (length ds) in
  mk_mem demo_phys MEMORY_BASE (7936 * 4096) 8192 4094 258
    (replicate 4096 1 ++ [n; n] ++ replicate 4094 0) 2
    (Bitmap.mk_bitmap (7 :: replicate 351 0) 352 256) KERNEL_PAGE_DIR true demo_task.

Section demo.
Context (ds : list Z) (Hnd : NoDup ds) (Hds : ∀ D, D ∈ ds → D = 1 ∨ D = 258) (H1 : 1 ∈ ds).
Let n := Z.of_nat (length ds).

Lemma demo_count : 1 ≤ n ≤ 2.
Proof using Hnd Hds H1.
  assert (ds ⊆+ [1; 258]) as Hsub.
  { apply NoDup_submseteq; [done|]. intros D HD. destruct (Hds D HD) as [->| ->]; set_solver. }
  apply submseteq_length in Hsub. cbn in Hsub.
  assert (length ds ≠ 0%nat) by (destruct ds; [by apply elem_of_nil in H1|done]).
  unfold n. lia.
Qed.

Lemma demo_dir D x : D ∈ ds → demo_phys D x =
  if (0 <=? x) && (x <? 4) then kernel_word (2 + x)
  else if x =? 4 then ro_word 4096 else if x =? 1023 then entry_word D else 0.
Proof using Hds. intros HD. unfold demo_phys. by destruct (Hds D HD) as [->| ->]. Qed.

Lemma ro_word_ok i : 0 ≤ i < 2 ^ 20 → present (ro_word i) = true ∧ index (ro_word i) = i ∧
  ent_bit P_write (ro_word i) = false ∧ ent_bit P_shared (ro_word i) = false ∧
  ent_bit P_readonly (ro_word i) = false.
Proof.
  intros Hi. unfold ro_word, P_present, P_write, P_shared, P_readonly.
  rewrite ent_index_set, ent_index_entry_word by (done || lia).
  by rewrite !ent_bit_set, !ent_bit_entry_word by lia.
Qed.

Lemma demo_slot D d : (D, d) ∈ slots ds → demo_phys D d = if d =? 4 then ro_word 4096 else 0.
Proof using Hds.
  intros [HD Hr]%elem_of_slots. rewrite demo_dir by done.
  rewrite (proj2 (Z.ltb_ge d 4)), andb_false_r by lia.
  destruct (d =? 4); [done|]. by rewrite (proj2 (Z.eqb_neq d 1023)) by lia.
Qed.

Lemma demo_to_table Dd T : to_table demo_phys ds Dd T ↔
  (∃ D, D ∈ ds ∧ Dd = (D, 4)) ∧ T = 4096.
Proof using Hds.
  destruct (ro_word_ok 4096 ltac:(lia)) as (Hp & Hi & _). destruct Dd as [D d]. split.
  - intros (Hin & Hpd & HT). cbn in Hpd, HT. rewrite (demo_slot D d Hin) in Hpd, HT.
    pose proof Hin as [HD _]%elem_of_slots.
    destruct (Z.eqb_spec d 4) as [->|]; [|done]. split; [eauto|congruence].
  - intros [(D' & HD & [= -> ->]) ->].
    assert ((D', 4) ∈ slots ds) as Hin by (apply elem_of_slots; split; [done|lia]).
    split; [done|]. cbn [fst snd]. by rewrite (demo_slot _ _ Hin).
Qed.

Lemma demo_table t : demo_phys 4096 t = if t =? 0 then ro_word 4097 else 0.
Proof. done. Qed.

Lemma demo_to_page Dd t f : to_page demo_phys ds Dd t f →
  (∃ D, D ∈ ds ∧ Dd = (D, 4)) ∧ t = 0 ∧ f = 4097.
Proof using Hds.
  intros (T & [HD ->]%demo_to_table & Ht & Hp & Hf). rewrite demo_table in Hp, Hf.
  destruct (ro_word_ok 4097 ltac:(lia)) as (_ & Hi & _).
  destruct (Z.eqb_spec t 0); [|done]. split; [done|]. split; [done|congruence].
Qed.

Lemma zsum_single {A} (f : A → Z) (l : list A) a : NoDup l → a ∈ l →
  (∀ b, b ∈ l → b ≠ a → f b = 0) → zsum f l = f a.
Proof.
  intros Hl Ha Hz. rewrite (zsum_update (λ _, 0) f l a); [|done|done|by intros; rewrite Hz].
  rewrite (zsum_zero (λ _, 0)) by done. lia.
Qed.

(** Each directory refers to the table and to the page once. *)
Lemma demo_slot_sum D i : D ∈ ds →
  zsum (slot_refs demo_phys i) (pair D <$> user_dirs) =
    (if i =? 4096 then 1 else 0) + (if i =? 4097 then 1 else 0).
Proof using Hds.
  intros HD. rewrite zsum_fmap.
  destruct (ro_word_ok 4096 ltac:(lia)) as (Hp & Hi & _).
  destruct (ro_word_ok 4097 ltac:(lia)) as (Hp' & Hi' & _).
  assert (∀ d, 4 ≤ d < 64 → demo_phys D d = if d =? 4 then ro_word 4096 else 0) as Hd.
  { intros d Hd. apply demo_slot, elem_of_slots. done. }
  rewrite (zsum_single _ _ 4).
  - unfold slot_refs. cbn [fst snd]. rewrite Hd by lia. cbn [Z.eqb Pos.eqb]. rewrite Hp, Hi.
    unfold table_refs. rewrite (zsum_single _ _ 0).
    + rewrite demo_table. cbn [Z.eqb]. unfold hits. rewrite Hp, Hp', Hi, Hi'. cbn [andb].
      by rewrite (Z.eqb_sym i 4096), (Z.eqb_sym i 4097).
    + apply NoDup_tidxs.
    + by apply elem_of_tidxs.
    + intros t _ Hne. rewrite demo_table, (proj2 (Z.eqb_neq t 0)) by done. done.
  - apply NoDup_seqZ.
  - by apply elem_of_user_dirs.
  - intros d Hd'%elem_of_user_dirs Hne. unfold slot_refs. cbn [fst snd].
    rewrite Hd, (proj2 (Z.eqb_neq d 4)) by done. done.
Qed.

Lemma demo_refs i : refs demo_phys ds i =
  n * ((if i =? 4096 then 1 else 0) + (if i =? 4097 then 1 else 0)).
Proof using Hds.
  set (c := (if i =? 4096 then 1 else 0) + (if i =? 4097 then 1 else 0)).
  assert (∀ l, (∀ D, D ∈ l → D ∈ ds) → refs demo_phys l i = Z.of_nat (length l) * c) as H.
  { induction l as [|D l IH]; intros Hl; [done|].
    rewrite refs_cons, IH, demo_slot_sum by (intros; apply Hl; (by left || by right)).
    fold c. cbn [length]. lia. }
  by apply H.
Qed.

Lemma demo_tables : tables_ok demo_phys ds 8192.
Proof using Hnd Hds.
  split; [done|..].
  - intros D HD. split.
    + destruct (Hds D HD) as [->| ->]; lia.
    + destruct (Hds D HD) as [->| ->]; lia.
    + rewrite demo_dir by done. cbn [Z.leb Z.ltb Z.eqb andb Z.compare Pos.compare Pos.compare_cont Pos.eqb].
      unfold P_present, P_write. rewrite !ent_bit_entry_word by lia.
      rewrite ent_index_entry_word; [done|]. destruct (Hds D HD) as [->| ->]; lia.
    + intros k Hk. rewrite demo_dir by done.
      rewrite (proj2 (Z.leb_le 0 k)), (proj2 (Z.ltb_lt k 4)) by lia. apply kernel_word_ok. lia.
  - intros f Hf. unfold demo_phys.
    set (q := f `div` 1024). set (r := f `mod` 1024).
    assert (0 ≤ q < 4 ∧ f = q * 1024 + r) as [Hq He] by (unfold q, r; Z.div_mod_to_equations; lia).
    rewrite (proj2 (Z.eqb_neq (2 + q) 1)), (proj2 (Z.eqb_neq (2 + q) 258)) by lia.
    rewrite (proj2 (Z.leb_le 2 (2 + q))), (proj2 (Z.ltb_lt (2 + q) 6)) by lia. cbn [orb andb].
    replace ((2 + q - 2) * 1024 + r) with f by lia. apply kernel_word_ok. lia.
  - intros Dd T [_ ->]%demo_to_table. lia.
  - intros Dd t f (_ & _ & ->)%demo_to_page. lia.
  - intros Dd T Dd' t f [_ ->]%demo_to_table (_ & _ & ->)%demo_to_page. lia.
  - intros Dd T HT%demo_to_table. destruct HT as [(D & HD & ->) _]. cbn [fst snd].
    rewrite (demo_slot D 4) by (done || by apply elem_of_slots).
    change (4 =? 4) with true. cbv iota.
    destruct (ro_word_ok 4096 ltac:(lia)) as (_ & _ & Hw & _). by rewrite Hw.
  - intros Dd T t [_ ->]%demo_to_table _ _ Hw _. rewrite demo_table in Hw.
    destruct (ro_word_ok 4097 ltac:(lia)) as (_ & _ & Hw' & _).
    destruct (t =? 0); [by rewrite Hw' in Hw|done].
Qed.

Lemma demo_lookup i : 0 ≤ i < 8192 → refs_at (demo_mem ds) i = Some
  (if i <? 4096 then 1 else if i <? 4098 then n else 0).
Proof using.
  intros Hi. unfold refs_at, demo_mem. cbn [memory_map].
  destruct (Z.ltb_spec i 4096).
  { rewrite lookup_app_l by (rewrite length_replicate; lia). apply lookup_replicate_2. lia. }
  rewrite lookup_app_r by (rewrite length_replicate; lia). rewrite length_replicate.
  destruct (Z.ltb_spec i 4098).
  - assert (i = 4096 ∨ i = 4097) as [->| ->] by lia; done.
  - rewrite lookup_app_r by (cbn; lia). apply lookup_replicate_2. cbn. lia.
Qed.

Lemma demo_mem_inv : mem_inv (demo_mem ds) ds [].
Proof using Hnd Hds H1.
  pose proof demo_count as Hn. split.
  - split; unfold demo_mem; cbn [total_pages start_page memory_map free_pages]; try lia.
    + rewrite !length_app, !length_replicate. cbn. lia.
    + repeat apply Forall_app_2; [by apply Forall_replicate| |by apply Forall_replicate].
      fold n. repeat constructor; lia.
    + intros i Hi. rewrite demo_lookup, (proj2 (Z.ltb_lt i 4096)) by lia. done.
    + fold n. rewrite take_ge by (rewrite !length_app, !length_replicate; cbn; lia).
      rewrite !free_count_app, free_count_replicate0, free_count_replicate1. cbn [free_count zsum].
      rewrite (proj2 (Z.eqb_neq n 0)) by lia. done.
  - done.
  - exact H1.
  - done.
  - done.
  - intros i Hi. rewrite demo_lookup, (proj2 (Z.ltb_lt i 4096)) by lia. done.
  - intros i Hi. change (4096 ≤ i < 8192) in Hi. rewrite demo_lookup by lia.
    change (phys (demo_mem ds)) with demo_phys. rewrite demo_refs. change (count [] i) with 0.
    rewrite (proj2 (Z.ltb_ge i 4096)) by lia. f_equal.
    destruct (Z.ltb_spec i 4098), (Z.eqb_spec i 4096), (Z.eqb_spec i 4097); lia.
  - intros i v Hv. pose proof Hv as Hlt%lookup_lt_Some.
    unfold demo_mem in Hlt. cbn [memory_map] in Hlt.
    rewrite !length_app, !length_replicate in Hlt. cbn [length] in Hlt.
    destruct (Z_lt_ge_dec i 0) as [Hneg|Hpos].
    { unfold refs_at in Hv. replace (Z.to_nat i) with (Z.to_nat 0) in Hv by lia.
      injection Hv as <-. lia. }
    rewrite demo_lookup in Hv by lia. injection Hv as <-.
    destruct (i <? 4096), (i <? 4098); lia.
  - split.
    + split; try done. cbn [Bitmap.bits kernel_map demo_mem].
      constructor; [lia|]. by apply Forall_replicate.
    + done.
    + done.
    + intros D HD Hne. destruct (Hds D HD) as [->| ->]; [done|]. split; [lia|done].
  - apply demo_tables.
Qed.
End demo.

Lemma demo_one : NoDup [1] ∧ (∀ D, D ∈ [1] → D = 1 ∨ D = 258) ∧ 1 ∈ [1].
Proof. split; [apply NoDup_singleton|]. split; [set_solver|by left]. Qed.
Lemma demo_mem_inv_one : mem_inv (demo_mem [1]) [1] [].
Proof. destruct demo_one as (? & ? & ?). by apply demo_mem_inv. Qed.

(** The word at 0x1000004 is in the shared page. *)
Definition demo_addr : Z := 0x1000004.

Definition boot_mem : mem :=
  mk_mem (λ _ _, 0) MEMORY_BASE (7936 * 4096) 8192 7936 0 [] 0
    (Bitmap.mk_bitmap [] 0 0) 0 false demo_task.
Lemma boot_mem_found : found boot_mem 7936.
Proof. split; done. Qed.

Lemma memory_consistent_witness :
  ∃ s1, boot (replicate 352 0) boot_mem = Ok (tt, s1) ∧
  ∀ s dirs, steps mm_step (s1 <| task := demo_task |>, [1]) (s, dirs) →
    free_pages s = free_count (take (Z.to_nat (total_pages s)) (memory_map s)) ∧
    (∀ i, 4096 ≤ i < total_pages s → refs_at s i = Some (refs (phys s) dirs i)) ∧
    (∀ D d T f Dd' t', to_page (phys s) dirs (D, d) T f →
       ent_bit P_write (pte (phys s) D d T) = true →
       ent_bit P_shared (pte (phys s) D d T) = false →
       to_page (phys s) dirs Dd' t' f → Dd' = (D, d) ∧ t' = T).
Proof.
  apply (memory_consistent boot_mem 7936 (replicate 352 0) demo_task boot_mem_found);
    reflexivity.
Defined.


Lemma demo_refs_few i v : 4096 ≤ i < total_pages (demo_mem [1]) →
  refs_at (demo_mem [1]) i = Some v → v + dir_total (demo_mem [1]) i ≤ 254.
Proof.
  intros Hi Hv. change (4096 ≤ i < 8192) in Hi. destruct demo_one as (Hn & Hd & H1).
  rewrite demo_lookup in Hv by lia. injection Hv as <-. unfold dir_total.
  change (IDX (cr3 (demo_mem [1]))) with 1. change (phys (demo_mem [1])) with demo_phys.
  rewrite (demo_slot_sum [1]) by done.
  destruct (i <? 4096), (i <? 4098), (i =? 4096), (i =? 4097); cbn; lia.
Qed.

Lemma fork_duplicates_witness :
  ∃ k s', copy_pde (demo_mem [1]) = Ok (PAGE k, s') ∧ k ∉ [1] ∧ mem_inv s' (k :: [1]) [] ∧
    free_pages s' = 4094 ∧
    ∀ a, user_addr a → user_load s' k a = user_load (demo_mem [1]) 1 a ∧
      ∀ D, D ∈ [1] → user_load s' D a = user_load (demo_mem [1]) D a.
Proof.
  apply (fork_duplicates (demo_mem [1]) [1] 3 demo_mem_inv_one).
  - split; reflexivity.
  - exact demo_refs_few.
  - split; [discriminate|reflexivity].
  - reflexivity.
Defined.

(** The process reads a buffer of 8 bytes in the shared page. *)
Lemma memory_access_exact_witness :
  ∃ b, memory_access demo_addr 8 false true (demo_mem [1]) = Ok (b, demo_mem [1]) ∧
    (b = true ↔ ∀ a, demo_addr - demo_addr `mod` 4096 ≤ a < demo_addr + 8 →
                  accessible (demo_mem [1]) false true a = true).
Proof.
  apply (memory_access_exact (demo_mem [1]) 1 demo_addr 8 false true).
  - split; reflexivity.
  - discriminate.
  - discriminate.
  - discriminate.
Defined.

(** ** [mmap] over a page that a fork has shared

    A process maps a page, forks and maps the same address again: the flags of
    the page, which the child reads too, are overwritten, and [link_page] does
    not copy it. *)
Definition no_file (_ _ _ : Z) : ST mem Z := st_ret 0.
Definition map_private : ST mem Z :=
  sys_mmap no_file no_file USER_MMAP_ADDR 4096 PROT_WRITE MAP_PRIVATE EOF 0.
Definition mmap_fork_mmap (again : bool) : ST mem (option Z * option Z) :=
  let* _ := map_private in
  let* child := copy_pde in
  do! st_when again (let* _ := map_private in st_ret tt);
  let* _ := page_fault 0xe USER_MMAP_ADDR 7 in
  do! user_store USER_MMAP_ADDR 5;
  st_gets (λ s, (user_load s (IDX (cr3 s)) USER_MMAP_ADDR, user_load s (IDX child) USER_MMAP_ADDR)).
Definition mmap_demo : mem :=
  demo_mem [1] <| task $= λ t, t <| t_vmap :=
    Bitmap.mk_bitmap (replicate 4096 0) 4096 (IDX USER_MMAP_ADDR) |> |>.

Lemma res_fst {A B} (m : res (A * B)) a :
  match m with Ok x => Some (fst x) | Stop _ => None end = Some a → ∃ b, m = Ok (a, b).
Proof. destruct m as [[a' b]|]; [|done]. intros [= <-]. by exists b. Qed.

(** Without the second [mmap] the child keeps its own copy; with it the child
    reads what the parent has stored. *)
Lemma mmap_over_fork_shared :
  (∃ s, mmap_fork_mmap false mmap_demo = Ok ((Some 5, Some 0), s)) ∧
  ∃ s, mmap_fork_mmap true mmap_demo = Ok ((Some 5, Some 5), s).
Proof. split; apply res_fst; vm_compute; reflexivity. Qed.
