(* ===== verification/Exec.v ===== *)
(** * Loading a program ([src/src/kernel/execve.c], [_start] of [src/src/lib/crt.asm],
    [__libc_start_main] of [src/src/lib/crt1.c])

    The arguments are built in kernel pages: [kbuf] are the four pages of the strings,
    [kargs] the words of the page of the pointers, both with what their last user left.
    The ELF file is read into the memory of Page by [read], the operation of the inode,
    which is a parameter. *)
From S2P Require Import Prelude Bytes Page Memory.
Open Scope Z_scope.

(** ** [copy_argv_envp] *)
Record args_t := mk_args { kbuf : list Z; kargs : list Z; ktop : Z; utop : Z }.
#[export] Instance expand_args : Expand args_t := λ a, mk_args (kbuf a) (kargs a) (ktop a) (utop a).

(** Stores in the pages; [ktop] is an offset in [kbuf]. *)
Definition memcpy_top (bytes : list Z) : ST args_t unit :=
  let* a := st_get in
  if (0 <=? ktop a) && (ktop a + Z.of_nat (length bytes) <=? Z.of_nat (length (kbuf a)))
  then st_mod (λ a, a <| kbuf $= list_inserts (Z.to_nat (ktop a)) bytes |>) else st_stop Fault.
Definition store_arg (i v : Z) : ST args_t unit :=
  let* a := st_get in
  if (0 <=? i) && (i <? Z.of_nat (length (kargs a))) then st_mod (λ a, a <| kargs $= <[Z.to_nat i := v]> |>) else st_stop Fault.

Definition push_bytes (bytes : list Z) : ST args_t unit :=
  do! st_mod (λ a, a <| ktop $= λ k, k - Z.of_nat (length bytes) |>);
  memcpy_top bytes.

(** A string with its terminator, in both stacks. *)
Definition push_string (s : list Z) : ST args_t unit :=
  let len := Z.of_nat (length s) + 1 in
  do! st_mod (λ a, a <| ktop $= λ k, k - len |> <| utop $= λ u, u32 (u - len) |>);
  memcpy_top (s ++ [0]).

(** The strings [l], the first of which is the number [i], from the last to the first. *)
Fixpoint push_strings (base i : Z) (l : list (list Z)) : ST args_t unit :=
  match l with
  | [] => st_ret tt
  | s :: l' =>
      do! push_strings base (i + 1) l';
      do! push_string s;
      let* u := st_gets utop in
      store_arg (base + i) u
  end.

(** [n] words from the number [i]. *)
Definition push_words (i n : Z) : ST args_t unit :=
  do! st_mod (λ a, a <| ktop $= λ k, k - n * 4 |>);
  let* a := st_get in
  if (0 <=? i) && (i + n <=? Z.of_nat (length (kargs a)))
  then memcpy_top (mjoin (le_bytes 4 <$> slice (Z.to_nat i) (Z.to_nat n) (kargs a))) else st_stop Fault.

(** [count_argv] *)
Definition count_argv (argv : list (list Z)) : Z := Z.of_nat (length argv).

(** The value is the new top of the user stack and what is copied there. *)
Definition copy_argv_envp (filename : list Z) (argv envp : list (list Z)) : ST args_t (Z * list Z) :=
  let argc := count_argv argv + 1 in
  let envc := count_argv envp in
  do! st_mod (λ a, a <| ktop := 4 * PAGE_SIZE |> <| utop := USER_STACK_TOP |>);
  do! store_arg argc 0;
  let envpk := argc + 1 in
  do! store_arg (envpk + envc) 0;
  do! push_strings envpk 0 envp;
  do! push_strings 0 1 argv;
  do! push_string filename;
  let* u := st_gets utop in
  do! store_arg 0 u;
  do! push_words envpk (envc + 1);
  do! push_words 0 (argc + 1);
  do! push_bytes (le_bytes 4 argc);
  let* k := st_gets ktop in
  do! st_check (0 <? k);
  let len := 4 * PAGE_SIZE - k in
  let* a := st_get in
  st_ret (USER_STACK_TOP - len, drop (Z.to_nat k) (kbuf a)).

(** ** The start of the program

    The stack from [esp] on is [stack]. *)
Definition peek (esp : Z) (stack : list Z) (a : Z) : res Z :=
  if (esp <=? a) && (a + 4 <=? esp + Z.of_nat (length stack)) then Ok (le (slice (Z.to_nat (a - esp)) 4 stack)) else Stop Fault.

(** [argc], [argv] and [envp] of [main]. *)
Definition libc_start_main (argc argv : Z) : Z * Z * Z := (argc, argv, u32 (argv + 4 * (argc + 1))).
Definition start (esp : Z) (stack : list Z) : res (Z * Z * Z) :=
  let! esi := peek esp stack esp in
  Ok (libc_start_main esi (u32 (esp + 4))).

(** ** ELF files *)
Definition ET_EXEC : Z := 2.
Definition EM_386 : Z := 3.
Definition EV_CURRENT : Z := 1.
Definition PT_LOAD : Z := 1.
Definition PF_X : Z := 1.
Definition PF_W : Z := 2.
Definition PF_R : Z := 4.
Definition sizeof_Ehdr : Z := 52.
Definition sizeof_Phdr : Z := 32.
Definition EOF32 : Z := u32 EOF.
Definition ENOEXEC : Z := 8.

(** The fields that are read, from the words of the header in memory. *)
Record Elf32_Ehdr := mk_ehdr {
  e_magic : Z; e_class : Z; e_type : Z; e_machine : Z; e_version : Z; e_entry : Z; e_phoff : Z; e_phentsize : Z; e_phnum : Z }.
Record Elf32_Phdr := mk_phdr {
  p_type : Z; p_offset : Z; p_vaddr : Z; p_filesz : Z; p_memsz : Z; p_flags : Z; p_align : Z }.

Definition low16 (w : Z) : Z := w `mod` 65536.
Definition high16 (w : Z) : Z := w / 65536.

Definition load_ehdr (a : Z) : ST mem Elf32_Ehdr :=
  let* magic := ldw a in
  let* class := ldw (a + 4) in
  let* type := ldw (a + 16) in
  let* version := ldw (a + 20) in
  let* entry := ldw (a + 24) in
  let* phoff := ldw (a + 28) in
  let* phentsize := ldw (a + 40) in
  let* phnum := ldw (a + 44) in
  st_ret (mk_ehdr magic (class `mod` 2 ^ 24) (low16 type) (high16 type) version entry phoff (high16 phentsize) (low16 phnum)).

Definition load_phdr (a : Z) : ST mem Elf32_Phdr :=
  let* type := ldw a in
  let* offset := ldw (a + 4) in
  let* vaddr := ldw (a + 8) in
  let* filesz := ldw (a + 16) in
  let* memsz := ldw (a + 20) in
  let* flags := ldw (a + 24) in
  let* align := ldw (a + 28) in
  st_ret (mk_phdr type offset vaddr filesz memsz flags align).

(** The first seven bytes are "\177ELF\1\1\1". *)
Definition elf_validate (h : Elf32_Ehdr) : bool :=
  if negb ((e_magic h =? le [127; 69; 76; 70]) && (e_class h =? le [1; 1; 1])) then false
  else if negb (e_type h =? ET_EXEC) then false
  else if negb (e_machine h =? EM_386) then false
  else if negb (e_version h =? EV_CURRENT) then false
  else if negb (e_phentsize h =? sizeof_Phdr) then false
  else true.

Definition set_byte (k v w : Z) : Z := w - (w / 256 ^ k) `mod` 256 * 256 ^ k + v * 256 ^ k.
Definition stb (va v : Z) : ST mem unit := let* w := ldw va in stw va (set_byte (va `mod` 4) v w).

(** [text] and [data] of the task, which is not in Page, are threaded. *)
Section inode.
Context (read : Z → Z → Z → ST mem Z).

Definition load_segment (h : Elf32_Phdr) (td : Z * Z) : ST mem (Z * Z) :=
  do! st_check (p_align h =? 0x1000);
  do! st_check (ASSERT_PAGE (p_vaddr h));
  let vaddr := p_vaddr h in
  let count := div_round_up (if p_memsz h <? p_filesz h then p_filesz h else p_memsz h) PAGE_SIZE in
  do! st_for (seqZ 0 count) (λ i,
    let addr := u32 (vaddr + i * PAGE_SIZE) in
    do! st_check ((USER_EXEC_ADDR <=? addr) && (addr <? USER_MMAP_ADDR));
    link_page addr);
  let* _ := read vaddr (p_filesz h) (p_offset h) in
  do! st_when (p_filesz h <? p_memsz h)
    (st_for (seqZ 0 (p_memsz h - p_filesz h)) (λ i, stb (u32 (vaddr + p_filesz h + i)) 0));
  do! st_when (Z.land (p_flags h) PF_W =? 0)
    (st_for (seqZ 0 count) (λ i, protect_page (u32 (vaddr + i * PAGE_SIZE))));
  do! st_mod (λ s, s <| task $= λ t, t <| t_end := let e := u32 (vaddr + count * PAGE_SIZE) in if t_end t <? e then e else t_end t |> |>);
  st_ret (if p_flags h =? Z.lor PF_R PF_X then (vaddr, td.2)
          else if p_flags h =? Z.lor PF_R PF_W then (td.1, vaddr) else td).

(** [continue] does not move [ptr]; the headers are read from the memory that the
    segments are loaded into. *)
Fixpoint load_loop (fuel : nat) (i ptr : Z) (td : Z * Z) : ST mem (Z * Z) :=
  match fuel with
  | O => st_stop Fuel
  | S fuel' =>
      let* e := load_ehdr USER_EXEC_ADDR in
      if e_phnum e <=? i then st_ret td
      else
        let* h := load_phdr ptr in
        if negb (p_type h =? PT_LOAD) then load_loop fuel' (i + 1) ptr td
        else let* td := load_segment h td in load_loop fuel' (i + 1) (ptr + sizeof_Phdr) td
  end.

(** The entry and the segments; [e_phnum] has 16 bits. *)
Definition load_elf (td : Z * Z) : ST mem (Z * (Z * Z)) :=
  do! link_page USER_EXEC_ADDR;
  let* n := read USER_EXEC_ADDR sizeof_Ehdr 0 in
  do! st_check (n =? sizeof_Ehdr);
  let* h := load_ehdr USER_EXEC_ADDR in
  if negb (elf_validate h) then st_ret (EOF32, td)
  else
    let phdr := USER_EXEC_ADDR + sizeof_Ehdr in
    let* _ := read phdr (u32 (e_phnum h * e_phentsize h)) (e_phoff h) in
    let* td := load_loop (Z.to_nat 65536) 0 phdr td in
    let* h := load_ehdr USER_EXEC_ADDR in
    st_ret (e_entry h, td).

(** ** [sys_execve]

    The inode that [namei] finds, with its kind and whether it may be executed, is an
    argument, as are [iput] and the copy to the user stack, in which pages may fault. *)
Inductive exec_result := Fails (ret : Z) | Enters (eip esp text data : Z).

Definition sys_execve (inode : option (bool * bool)) (iput : ST mem unit) (put_old : ST mem unit) (put_stack : Z → list Z → ST mem unit)
    (pages : args_t) (td : Z * Z) (filename : list Z) (argv envp : list (list Z)) : ST mem exec_result :=
  let rollback ret := do! iput; st_ret (Fails ret) in
  match inode with
  | None => st_ret (Fails (- ENOENT))
  | Some (isfile, permission) =>
      if negb isfile then rollback (- EPERM)
      else if negb permission then rollback (- EPERM)
      else
        let* (top, stack, _) := st_lift (copy_argv_envp filename argv envp pages) in
        do! put_stack top stack;
        do! st_mod (λ s, s <| task $= λ t, t <| t_end := USER_EXEC_ADDR |> |>);
        let* _ := sys_brk USER_EXEC_ADDR in
        let* (entry, td) := load_elf td in
        if entry =? EOF32 then rollback (- ENOEXEC)
        else
          let* t := st_gets task in
          let* _ := sys_brk (t_end t) in
          do! put_old;
          st_ret (Enters entry top td.1 td.2)
  end.
End inode.

(** ** What the program sees

    The string at [p], and the strings of a vector of pointers that ends with NULL. *)
Fixpoint take_string (l : list Z) : option (list Z) :=
  match l with [] => None | c :: l' => if c =? 0 then Some [] else cons c <$> take_string l' end.
Definition string_at (esp : Z) (stack : list Z) (p : Z) : res (list Z) :=
  if esp <=? p then deref (take_string (drop (Z.to_nat (p - esp)) stack)) else Stop Fault.
Fixpoint vector_at (fuel : nat) (esp : Z) (stack : list Z) (a : Z) : res (list (list Z)) :=
  match fuel with
  | O => Stop Fuel
  | S fuel' =>
      let! p := peek esp stack a in
      if p =? 0 then Ok []
      else let! s := string_at esp stack p in let! l := vector_at fuel' esp stack (a + 4) in Ok (s :: l)
  end.

(** ** Properties *)
Definition cstr (s : list Z) : list Z := s ++ [0].
Definition cstrs (l : list (list Z)) : list Z := mjoin (cstr <$> l).
Definition words (l : list Z) : list Z := mjoin (le_bytes 4 <$> l).

(** The pointers to the strings [l], which are followed by [e] bytes. *)
Fixpoint pointers (e : Z) (l : list (list Z)) : list Z :=
  match l with [] => [] | s :: l' => (USER_STACK_TOP - (e + Z.of_nat (length (cstrs l)))) :: pointers e l' end.

Lemma length_words l : length (words l) = (4 * length l)%nat.
Proof. induction l as [|w l IH]; [done|]. change (words (w :: l)) with (le_bytes 4 w ++ words l). rewrite length_app, length_le_bytes, IH. cbn. lia. Qed.
Lemma length_pointers e l : length (pointers e l) = length l.
Proof. induction l; cbn; [done|]. by f_equal. Qed.
Lemma cstrs_cons s l : cstrs (s :: l) = cstr s ++ cstrs l.
Proof. done. Qed.
Lemma words_cons w l : words (w :: l) = le_bytes 4 w ++ words l.
Proof. done. Qed.

(** The bytes of the string stack are [c], and the user's stack is at [u]. *)
Record holds (c : list Z) (u : Z) (a : args_t) : Prop := {
  ho_len : Z.of_nat (length (kbuf a)) = 16384; ho_top : ktop a = 16384 - Z.of_nat (length c); ho_fits : Z.of_nat (length c) ≤ 16384;
  ho_bytes : drop (Z.to_nat (ktop a)) (kbuf a) = c; ho_utop : utop a = u }.

Section args.
Context (E : stop → Prop).

Lemma wp_memcpy_top c x u a (Q : unit → args_t → Prop) : Z.of_nat (length (kbuf a)) = 16384 →
  ktop a = 16384 - Z.of_nat (length (x ++ c)) → Z.of_nat (length (x ++ c)) ≤ 16384 →
  drop (Z.to_nat (ktop a + Z.of_nat (length x))) (kbuf a) = c → utop a = u →
  (∀ a', holds (x ++ c) u a' → kargs a' = kargs a → Q tt a') → wp E (memcpy_top x) Q a.
Proof using.
  intros Hl Ht Hf Hd Hu HQ. rewrite length_app in *. unfold memcpy_top. apply wp_bind, wp_get.
  rewrite (proj2 (Z.leb_le _ _)), (proj2 (Z.leb_le _ _)) by lia. cbn [andb]. apply wp_mod. apply HQ; [|done]. split; upd_simpl.
  - by rewrite length_inserts.
  - by rewrite length_app.
  - by rewrite length_app.
  - rewrite list_inserts_drop by lia. rewrite drop_app_ge by (rewrite length_take; lia).
    rewrite length_take, Nat.min_l, Nat.sub_diag by lia. rewrite drop_0, <-Hd. do 2 f_equal. lia.
  - done.
Qed.

Lemma wp_push_bytes c x u a (Q : unit → args_t → Prop) : holds c u a → Z.of_nat (length x) + Z.of_nat (length c) ≤ 16384 →
  (∀ a', holds (x ++ c) u a' → kargs a' = kargs a → Q tt a') → wp E (push_bytes x) Q a.
Proof using.
  intros [Hl Ht Hf Hd Hu] Hx HQ. unfold push_bytes. apply wp_bind, wp_mod. eapply (wp_memcpy_top c x u); upd_simpl; rewrite ?length_app; try lia; [|done].
  rewrite <-Hd. f_equal. lia.
Qed.

Lemma wp_push_string c s a (Q : unit → args_t → Prop) : holds c (USER_STACK_TOP - Z.of_nat (length c)) a →
  Z.of_nat (length (cstr s ++ c)) ≤ 16384 →
  (∀ a', holds (cstr s ++ c) (USER_STACK_TOP - Z.of_nat (length (cstr s ++ c))) a' → kargs a' = kargs a → Q tt a') →
  wp E (push_string s) Q a.
Proof using.
  intros [Hl Ht Hf Hd Hu] Hx HQ. unfold push_string. apply wp_bind, wp_mod. unfold cstr in *.
  assert (Z.of_nat (length ((s ++ [0]) ++ c)) = Z.of_nat (length s) + 1 + Z.of_nat (length c)) as El by (rewrite !length_app; cbn; lia).
  eapply (wp_memcpy_top c (s ++ [0])); upd_simpl; rewrite ?El; try lia; [|done|].
  - rewrite <-Hd. f_equal. rewrite length_app. cbn. lia.
  - upd_simpl. intros a' Ha' Hk. apply HQ; [|done]. rewrite El. rewrite Hu, u32_small in Ha' by (unfold USER_STACK_TOP; lia).
    by replace (USER_STACK_TOP - (Z.of_nat (length s) + 1 + Z.of_nat (length c))) with (USER_STACK_TOP - Z.of_nat (length c) - (Z.of_nat (length s) + 1)) by lia.
Qed.

(** The strings and the pointers to them. *)
Lemma wp_push_strings c base l : ∀ i a (Q : unit → args_t → Prop), holds c (USER_STACK_TOP - Z.of_nat (length c)) a →
  Z.of_nat (length (cstrs l ++ c)) ≤ 16384 → 0 ≤ base + i → base + i + Z.of_nat (length l) ≤ Z.of_nat (length (kargs a)) →
  (∀ a', holds (cstrs l ++ c) (USER_STACK_TOP - Z.of_nat (length (cstrs l ++ c))) a' →
     kargs a' = list_inserts (Z.to_nat (base + i)) (pointers (Z.of_nat (length c)) l) (kargs a) → Q tt a') →
  wp E (push_strings base i l) Q a.
Proof using.
  induction l as [|s l IH]; intros i a Q Ha Hf Hi Hl HQ; cbn [push_strings].
  - apply wp_ret. by apply HQ.
  - rewrite cstrs_cons, <-app_assoc in *. cbn [length] in Hl. rewrite length_app in Hf.
    apply wp_bind. eapply (IH (i + 1)); [done|lia|lia|lia|]. intros a1 H1 K1. apply wp_bind.
    eapply wp_push_string; [exact H1|rewrite length_app; lia|]. intros a2 H2 K2. apply wp_bind, wp_gets. unfold store_arg.
    assert (length (kargs a2) = length (kargs a)) as El by (rewrite K2, K1; by rewrite length_inserts).
    apply wp_bind, wp_get. rewrite (proj2 (Z.leb_le _ _)), (proj2 (Z.ltb_lt _ _)) by lia. cbn [andb]. apply wp_mod.
    apply HQ; [by destruct H2; split; upd_simpl|]. upd_simpl. rewrite K2, K1. cbn [pointers list_inserts].
    replace (Z.to_nat (base + (i + 1))) with (S (Z.to_nat (base + i))) by lia. f_equal. rewrite (ho_utop _ _ _ H2), cstrs_cons, !length_app. lia.
Qed.

Lemma wp_store_arg c u i v a (Q : unit → args_t → Prop) : holds c u a → 0 ≤ i < Z.of_nat (length (kargs a)) →
  (∀ a', holds c u a' → kargs a' = list_inserts (Z.to_nat i) [v] (kargs a) → Q tt a') → wp E (store_arg i v) Q a.
Proof using.
  intros [] Hi HQ. unfold store_arg. apply wp_bind, wp_get. rewrite (proj2 (Z.leb_le _ _)), (proj2 (Z.ltb_lt _ _)) by lia.
  apply wp_mod, HQ; [by split|done].
Qed.

Lemma wp_push_words c u i ws a (Q : unit → args_t → Prop) : holds c u a → slice (Z.to_nat i) (length ws) (kargs a) = ws → 0 ≤ i →
  i + Z.of_nat (length ws) ≤ Z.of_nat (length (kargs a)) → Z.of_nat (length (words ws ++ c)) ≤ 16384 →
  (∀ a', holds (words ws ++ c) u a' → kargs a' = kargs a → Q tt a') → wp E (push_words i (Z.of_nat (length ws))) Q a.
Proof using.
  intros [Hl Ht Hf Hd Hu] Hs Hi Hn Hx HQ. unfold push_words. apply wp_bind, wp_mod, wp_bind, wp_get. upd_simpl.
  rewrite (proj2 (Z.leb_le _ _)), (proj2 (Z.leb_le _ _)) by lia. cbn [andb]. rewrite Nat2Z.id, Hs. fold (words ws).
  rewrite length_app, length_words in Hx.
  eapply (wp_memcpy_top c (words ws) u); upd_simpl; rewrite ?length_app, ?length_words; try lia; try done.
  rewrite <-Hd. f_equal. lia.
Qed.

(** The stack of a program with these arguments. *)
Definition stack_of (filename : list Z) (argv envp : list (list Z)) : list Z :=
  le_bytes 4 (Z.of_nat (length argv) + 1) ++
  words (pointers (Z.of_nat (length (cstrs envp))) (filename :: argv) ++ [0]) ++ words (pointers 0 envp ++ [0]) ++
  cstrs (filename :: argv) ++ cstrs envp.

(** The page of the pointers: [n] pointers of [argv] after the first, then those of [envp]. *)
Lemma args_page p av ev (K : list Z) : (length av + length ev + 3 ≤ length K)%nat →
  let argc := S (length av) in
  let K' := list_inserts 0 [p] (list_inserts 1 av (list_inserts (S argc) ev
    (list_inserts (S argc + length ev) [0] (list_inserts argc [0] K)))) in
  slice 0 (S argc) K' = (p :: av) ++ [0] ∧ slice (S argc) (S (length ev)) K' = ev ++ [0].
Proof using.
  intros HK argc K'. subst K' argc. split.
  - replace (S (S (length av))) with (1 + (length av + 1))%nat by lia. rewrite !slice_app. cbn [app]. rewrite Nat.add_0_l.
    rewrite (slice_inserts 0 [p]) by (rewrite !length_inserts; cbn; lia). cbn [app]. f_equal.
    rewrite !(slice_inserts_apart _ _ 0) by (cbn; lia). f_equal.
    + by rewrite slice_inserts by (rewrite !length_inserts; lia).
    + rewrite !slice_inserts_apart by (cbn; lia). by rewrite (slice_inserts _ [0]) by (cbn; lia).
  - replace (S (length ev)) with (length ev + 1)%nat by lia. rewrite slice_app, !(slice_inserts_apart _ _ 0) by (cbn; lia).
    rewrite !(slice_inserts_apart _ _ 1) by lia. f_equal.
    + by rewrite slice_inserts by (rewrite !length_inserts; cbn; lia).
    + rewrite slice_inserts_apart by lia. by rewrite (slice_inserts _ [0]) by (rewrite length_inserts; cbn; lia).
Qed.

Lemma wp_copy_argv_envp filename argv envp a (Q : Z * list Z → args_t → Prop) :
  Z.of_nat (length (kbuf a)) = 16384 → Z.of_nat (length (kargs a)) = 1024 →
  Z.of_nat (length argv) + Z.of_nat (length envp) ≤ 1021 → Z.of_nat (length (stack_of filename argv envp)) < 16384 →
  (∀ a', Q (USER_STACK_TOP - Z.of_nat (length (stack_of filename argv envp)), stack_of filename argv envp) a') →
  wp E (copy_argv_envp filename argv envp) Q a.
Proof using.
  intros Hb Hk Hn Hs HQ. set (len := length (stack_of filename argv envp)) in *. pose proof (eq_refl : len = length (stack_of filename argv envp)) as Hlen.
  unfold stack_of in Hlen. rewrite !length_app, !length_words, length_le_bytes, !length_app, cstrs_cons, !length_app, !length_pointers in Hlen. cbn [length] in Hlen.
  assert (∀ n, Z.to_nat (Z.of_nat n + 1) = S n) as Hs1 by lia.
  unfold copy_argv_envp, count_argv. change (4 * PAGE_SIZE) with 16384. apply wp_bind, wp_mod. set (a0 := a <| ktop := _ |> <| utop := _ |>).
  assert (holds [] (USER_STACK_TOP - Z.of_nat (length (@nil Z))) a0) as H0.
  { subst a0. split; upd_simpl; [done|cbn; lia|cbn; lia|by rewrite drop_ge by lia|done]. }
  assert (Z.of_nat (length (kargs a0)) = 1024) as L0 by done. clearbody a0.
  apply wp_bind. eapply wp_store_arg; [exact H0|lia|]. intros a1 H1 K1.
  apply wp_bind. eapply wp_store_arg; [exact H1|rewrite K1, length_inserts; lia|]. intros a2 H2 K2.
  apply wp_bind. eapply wp_push_strings; [exact H2|rewrite app_nil_r; lia|lia|rewrite K2, K1, !length_inserts; lia|]. rewrite app_nil_r. intros a3 H3 K3.
  apply wp_bind. eapply wp_push_strings; [exact H3|rewrite length_app; lia|lia|rewrite K3, K2, K1, !length_inserts; lia|]. intros a4 H4 K4.
  apply wp_bind. eapply wp_push_string; [exact H4|rewrite !length_app; lia|]. intros a5 H5 K5. apply wp_bind, wp_gets, wp_bind.
  eapply wp_store_arg; [exact H5|rewrite K5, K4, K3, K2, K1, !length_inserts; lia|]. rewrite (ho_utop _ _ _ H5). intros a6 H6 K6.
  set (av := pointers (Z.of_nat (length (cstrs envp))) (filename :: argv)). set (ev := pointers 0 envp).
  assert (slice 0 (length (av ++ [0])) (kargs a6) = av ++ [0] ∧ slice (Z.to_nat (Z.of_nat (length argv) + 1 + 1)) (length (ev ++ [0])) (kargs a6) = ev ++ [0]) as [P1 P2].
  { destruct (args_page (USER_STACK_TOP - Z.of_nat (length (cstr filename ++ cstrs argv ++ cstrs envp))) (pointers (Z.of_nat (length (cstrs envp))) argv)
      ev (kargs a0)) as [P1 P2]; [subst ev; rewrite !length_pointers; lia|]. rewrite K6, K5, K4, K3, K2, K1. subst av ev.
    rewrite !length_app, !length_pointers in *. cbn [length pointers] in *.
    replace (Z.to_nat (Z.of_nat (length argv) + 1 + 1 + 0)) with (S (S (length argv))) by lia.
    replace (Z.to_nat (Z.of_nat (length argv) + 1 + 1 + Z.of_nat (length envp))) with (S (S (length argv)) + length envp)%nat by lia.
    replace (Z.to_nat (Z.of_nat (length argv) + 1 + 1)) with (S (S (length argv))) by lia. rewrite Hs1.
    rewrite !Nat.add_1_r. split; [refine (eq_trans P1 _)|exact P2]. do 2 f_equal. rewrite cstrs_cons, length_app. lia. }
  assert (length av = S (length argv) ∧ length ev = length envp) as [Lav Lev] by (subst av ev; by rewrite !length_pointers).
  assert (stack_of filename argv envp = le_bytes 4 (Z.of_nat (length argv) + 1) ++ words (av ++ [0]) ++ words (ev ++ [0]) ++ cstr filename ++ cstrs argv ++ cstrs envp) as Hst
    by (unfold stack_of; by rewrite cstrs_cons, <-!app_assoc).
  clearbody av ev. assert (Z.of_nat (length (kargs a6)) = 1024) as L6 by (rewrite K6, K5, K4, K3, K2, K1, !length_inserts; lia).
  clear K1 K2 K3 K4 K5 H0 H1 H2 H3 H4 H5.
  apply wp_bind. replace (Z.of_nat (length envp) + 1) with (Z.of_nat (length (ev ++ [0]))) by (rewrite length_app; cbn; lia).
  eapply wp_push_words; [exact H6|done|lia|rewrite length_app; cbn; lia|rewrite !length_app, length_words, length_app; cbn; lia|]. intros a7 H7 K7.
  apply wp_bind. replace (Z.of_nat (length argv) + 1 + 1) with (Z.of_nat (length (av ++ [0]))) by (rewrite length_app; cbn; lia).
  eapply wp_push_words; [exact H7|by rewrite K7|lia|rewrite K7, length_app; cbn; lia|rewrite !length_app, !length_words, !length_app; cbn; lia|]. intros a8 H8 K8.
  apply wp_bind. eapply wp_push_bytes; [exact H8|rewrite !length_app, !length_words, length_le_bytes, !length_app; cbn; lia|]. intros a9 [_ Ht Hf Hd _] _.
  rewrite <-Hst in *. fold len in Ht, Hf. apply wp_bind, wp_gets, wp_bind, wp_check_true; [apply Z.ltb_lt; lia|]. apply wp_bind, wp_get, wp_ret.
  rewrite Hd. replace (16384 - ktop a9) with (Z.of_nat len) by lia. apply HQ.
Qed.
End args.

Lemma take_string_app s rest : Forall (λ c, c ≠ 0) s → take_string (s ++ 0 :: rest) = Some s.
Proof. induction 1 as [|c s Hc Hn IH]; cbn; [done|]. rewrite (proj2 (Z.eqb_neq _ _)) by done. by rewrite IH. Qed.

(** Reading the stack back. *)
Section stack.
Context (esp : Z) (stack : list Z).

Lemma peek_word pre w rest : stack = pre ++ le_bytes 4 w ++ rest → 0 ≤ w < 2 ^ 32 → peek esp stack (esp + Z.of_nat (length pre)) = Ok w.
Proof using.
  intros Hs Hw. unfold peek. rewrite (proj2 (Z.leb_le _ _)), (proj2 (Z.leb_le _ _)) by (subst stack; rewrite ?length_app, ?length_le_bytes; lia). cbn [andb].
  replace (Z.to_nat (esp + Z.of_nat (length pre) - esp)) with (length pre) by lia. unfold slice.
  rewrite Hs, drop_app_length, take_app_length' by (by rewrite length_le_bytes). by rewrite le_le_bytes, Z.mod_small.
Qed.

Lemma string_reads pre s rest : stack = pre ++ cstr s ++ rest → Forall (λ c, c ≠ 0) s → string_at esp stack (esp + Z.of_nat (length pre)) = Ok s.
Proof using.
  intros Hs Hn. unfold string_at. rewrite (proj2 (Z.leb_le _ _)) by lia.
  replace (Z.to_nat (esp + Z.of_nat (length pre) - esp)) with (length pre) by lia. rewrite Hs, drop_app_length. unfold cstr. rewrite <-app_assoc.
  change ([0] ++ rest) with (0 :: rest). by rewrite take_string_app.
Qed.

(** The pointers [l] that are followed by the strings read as the strings. *)
Lemma vector_reads l : ∀ fuel pre mid post, (length l < fuel)%nat → esp + Z.of_nat (length stack) = USER_STACK_TOP → 0 < esp →
  stack = pre ++ words (pointers (Z.of_nat (length post)) l ++ [0]) ++ mid ++ cstrs l ++ post → Forall (Forall (λ c, c ≠ 0)) l →
  vector_at fuel esp stack (esp + Z.of_nat (length pre)) = Ok l.
Proof using.
  induction l as [|s l IH]; intros [|fuel] pre mid post Hfuel Htop Hesp Hs Hl; cbn [length] in Hfuel; try lia; cbn [vector_at].
  - by rewrite (peek_word pre 0 (mid ++ post)) by done.
  - apply Forall_cons in Hl as [Hc Hl]. cbn [pointers app] in Hs. rewrite words_cons in Hs.
    set (p := _ - _) in Hs. assert (p = esp + Z.of_nat (length (pre ++ le_bytes 4 p ++ words (pointers (Z.of_nat (length post)) l ++ [0]) ++ mid))) as Hp.
    { apply (f_equal length) in Hs. rewrite !length_app, length_le_bytes in *. lia. }
    rewrite (peek_word pre p (words (pointers (Z.of_nat (length post)) l ++ [0]) ++ mid ++ cstrs (s :: l) ++ post)).
    2: by rewrite Hs, <-!app_assoc. 2: unfold USER_STACK_TOP in *; lia.
    cbn [res_bind]. rewrite (proj2 (Z.eqb_neq _ _)) by lia. rewrite Hp at 1. rewrite (string_reads _ s (cstrs l ++ post)); [|by rewrite Hs, cstrs_cons, <-!app_assoc|done].
    cbn [res_bind]. replace (esp + Z.of_nat (length pre) + 4) with (esp + Z.of_nat (length (pre ++ le_bytes 4 p))) by (rewrite length_app, length_le_bytes; lia).
    rewrite (IH fuel _ (mid ++ cstr s) post); [done|lia|done|done| |done]. by rewrite Hs, cstrs_cons, <-!app_assoc.
Qed.
End stack.

(** What the copy takes of the four pages. *)
Definition args_size (filename : list Z) (argv envp : list (list Z)) : Z :=
  4 + 4 * (Z.of_nat (length argv) + 2) + 4 * (Z.of_nat (length envp) + 1)
  + Z.of_nat (length (cstrs (filename :: argv))) + Z.of_nat (length (cstrs envp)).

(** C36: the arguments of [execve] reach [main]. Whatever the kernel pages held, for strings without
    a NUL inside, at most 1021 of them and less than four pages in all, [copy_argv_envp] succeeds, and
    the stack it builds ends at the top of the user's; the start of the program calls [main] with the
    number of arguments, a vector that reads as the file name and the arguments and one that reads as
    the environment, each in order and closed by NULL. *)
Theorem args_reach_main filename argv envp a :
  Z.of_nat (length (kbuf a)) = 4 * PAGE_SIZE → Z.of_nat (length (kargs a)) = 1024 →
  Forall (Forall (λ c, c ≠ 0)) (filename :: argv) → Forall (Forall (λ c, c ≠ 0)) envp →
  Z.of_nat (length argv) + Z.of_nat (length envp) ≤ 1021 → args_size filename argv envp < 4 * PAGE_SIZE →
  ∃ esp stack a' av ev,
    copy_argv_envp filename argv envp a = Ok (esp, stack, a') ∧
    esp + Z.of_nat (length stack) = USER_STACK_TOP ∧ Z.of_nat (length stack) = args_size filename argv envp ∧
    start esp stack = Ok (Z.of_nat (length argv) + 1, av, ev) ∧
    vector_at 1024 esp stack av = Ok (filename :: argv) ∧ vector_at 1024 esp stack ev = Ok envp.
Proof.
  intros Hb Hk Ha He Hn Hs. change (4 * PAGE_SIZE) with 16384 in *. set (stack := stack_of filename argv envp).
  assert (Z.of_nat (length stack) = args_size filename argv envp) as Hlen.
  { subst stack. unfold stack_of, args_size. rewrite !length_app, !length_words, length_le_bytes, !length_app, !length_pointers. cbn [length]. lia. }
  assert (∃ a', copy_argv_envp filename argv envp a = Ok (USER_STACK_TOP - Z.of_nat (length stack), stack, a')) as [a' Hc].
  { pose proof (wp_copy_argv_envp no_stop filename argv envp a (λ v _, v = (USER_STACK_TOP - Z.of_nat (length stack), stack))) as H.
    unfold wp in H. destruct (copy_argv_envp filename argv envp a) as [[v a']|]; [|exfalso; apply H; [done..|fold stack; lia|done]].
    exists a'. do 2 f_equal. apply H; [done..|fold stack; lia|done]. }
  set (esp := USER_STACK_TOP - Z.of_nat (length stack)) in *.
  assert (0 < esp ≤ 2 ^ 28) as Hesp by (subst esp; unfold USER_STACK_TOP; lia).
  exists esp, stack, a', (esp + 4), (esp + 4 + 4 * (Z.of_nat (length argv) + 2)).
  split; [done|]. split; [lia|]. split; [done|]. split; [|split].
  - unfold start. pose proof (peek_word esp stack [] (Z.of_nat (length argv) + 1) _ eq_refl) as Hp.
    rewrite Z.add_0_r in Hp. rewrite Hp by lia. cbn [res_bind]. unfold libc_start_main. rewrite (u32_small (esp + 4)), u32_small by lia. do 2 f_equal. lia.
  - eapply (vector_reads esp stack (filename :: argv) 1024 (le_bytes 4 (Z.of_nat (length argv) + 1)) (words (pointers 0 envp ++ [0])) (cstrs envp)); [cbn; lia|lia|lia|done|done].
  - replace (esp + 4 + 4 * (Z.of_nat (length argv) + 2)) with (esp + Z.of_nat (length (le_bytes 4 (Z.of_nat (length argv) + 1) ++ words (pointers (Z.of_nat (length (cstrs envp))) (filename :: argv) ++ [0]))))
      by (rewrite length_app, length_words, length_app, length_pointers, length_le_bytes; cbn; lia).
    apply (vector_reads esp stack envp 1024 _ (cstrs (filename :: argv)) []); [lia|lia|lia| |done].
    subst stack. unfold stack_of. by rewrite <-!app_assoc, app_nil_r.
Qed.

(** A program that is called "a" with the arguments "b", "" and the environment "c". *)
Lemma args_reach_main_witness :
  ∃ esp stack a' av ev,
    copy_argv_envp [97] [[98]; []] [[99]] (mk_args (replicate (Z.to_nat 16384) 7) (replicate (Z.to_nat 1024) 7) 0 0) = Ok (esp, stack, a') ∧
    esp + Z.of_nat (length stack) = USER_STACK_TOP ∧ Z.of_nat (length stack) = 35 ∧
    start esp stack = Ok (3, av, ev) ∧
    vector_at 1024 esp stack av = Ok [[97]; [98]; []] ∧ vector_at 1024 esp stack ev = Ok [[99]].
Proof.
  refine (args_reach_main [97] [[98]; []] [[99]] (mk_args (replicate (Z.to_nat 16384) 7) (replicate (Z.to_nat 1024) 7) 0 0) _ _ _ _ _ _);
    cbn [kbuf kargs]; rewrite ?length_replicate, ?Z2Nat.id by lia; [done|done|repeat constructor; done..].
Defined.

(** A header of another type holds the loop: no later segment is loaded. *)
Lemma load_stops_at_other read fuel i ptr td s e h : load_ehdr USER_EXEC_ADDR s = Ok (e, s) → load_phdr ptr s = Ok (h, s) →
  p_type h ≠ PT_LOAD → (0 < fuel)%nat → e_phnum e < i + Z.of_nat fuel → load_loop read fuel i ptr td s = Ok (td, s).
Proof.
  intros He Hh Ht. revert i. induction fuel as [|fuel IH]; intros i Hf Hi; [lia|]. cbn [load_loop]. unfold st_bind at 1. rewrite He.
  destruct (Z.leb_spec (e_phnum e) i); [done|]. unfold st_bind. rewrite Hh, (proj2 (Z.eqb_neq _ _)) by done. apply IH; lia.
Qed.
