(* ===== verification/Chksum.v ===== *)
(** * Checksums ([src/src/net/chksum.c]) and byte orders ([net/types.h])

    The CRC of Ethernet frames and the one's complement sums of IP, ICMP, UDP and
    TCP, over lists of bytes; a [u16 *] reads little-endian words. *)
From S2P Require Import Prelude.

Definition htons (s : Z) : Z :=
  Z.lor (Z.shiftl (Z.land s 255) 8) (Z.shiftr (Z.land s 65280) 8).
Definition htonl (l : Z) : Z :=
  Z.lor (Z.lor (Z.lor (Z.shiftl (Z.land l 255) 24) (Z.shiftl (Z.land l 65280) 8))
    (Z.shiftr (Z.land l 16711680) 8)) (Z.shiftr (Z.land l 4278190080) 24).

(** ** [eth_fcs] *)
Definition CRC_POLY : Z := 3988292384.

(** One turn of the inner loop. *)
Definition crc_bit (crc : Z) : Z :=
  if negb (Z.land crc 1 =? 0) then Z.lxor (Z.shiftr crc 1) CRC_POLY else Z.shiftr crc 1.

Definition crc_byte (crc b : Z) : Z := Nat.iter 8 crc_bit (Z.lxor crc b).

Definition crc_not (c : Z) : Z := Z.lxor c 4294967295.

Definition eth_fcs (data : list Z) : Z :=
  crc_not (fold_left crc_byte data 4294967295).

(** ** [chksum] *)

(** One turn of the summing loop on the next word. *)
Definition chksum_turn (sum w : Z) : Z :=
  let sum := if negb (Z.land sum 2147483648 =? 0)
             then u32 (Z.land sum 65535 + Z.shiftr sum 16) else sum in
  u32 (sum + w).

Fixpoint chksum_words (data : list Z) (sum : Z) : Z :=
  match data with
  | b0 :: b1 :: data' => chksum_words data' (chksum_turn sum (b0 + 256 * b1))
  | [b] => u32 (sum + b)
  | [] => sum
  end.

(** [while (sum >> 16)]. *)
Fixpoint chksum_fold (fuel : nat) (sum : Z) : res Z :=
  match fuel with
  | O => Stop Fuel
  | S f => if Z.shiftr sum 16 =? 0 then Ok (u16 sum)
           else chksum_fold f (u32 (Z.land sum 65535 + Z.shiftr sum 16))
  end.

Definition chksum (data : list Z) (sum : Z) : res Z := chksum_fold 4 (chksum_words data sum).

Definition not16 (s : Z) : Z := Z.lxor s 65535.

Definition ip_chksum (data : list Z) : res Z := let! s := chksum data 0 in Ok (not16 s).

(** [dst] and [src] are the addresses read as little-endian [u32]. *)
Definition inet_chksum (data : list Z) (len dst src proto : Z) : res Z :=
  let sum := Z.land dst 65535 + Z.shiftr dst 16 + (Z.land src 65535 + Z.shiftr src 16) +
             htons proto + htons len in
  let! s := chksum data (u32 sum) in Ok (not16 s).

(** ** One's complement sums *)

(** The sum of the little-endian words of [data]. *)
Fixpoint word_sum (data : list Z) : Z :=
  match data with
  | b0 :: b1 :: data' => b0 + 256 * b1 + word_sum data'
  | [b] => b
  | [] => 0
  end.

Definition byte (b : Z) : Prop := 0 ≤ b < 256.

Lemma pairs_ind {A} (P : list A → Prop) : P [] → (∀ a, P [a]) →
  (∀ a b l, P l → P (a :: b :: l)) → ∀ l, P l.
Proof.
  intros H0 H1 H2. fix IH 1. intros [|a [|b l]]; [done|done|]. apply H2, IH.
Qed.

Lemma word_sum_nonneg data : Forall byte data → 0 ≤ word_sum data.
Proof.
  induction data as [|b|b0 b1 data IH] using pairs_ind; intros Hb; cbn [word_sum]; [lia| |];
    repeat apply Forall_cons in Hb as [? Hb]; unfold byte in *; [lia|].
  specialize (IH Hb). lia.
Qed.

(** [r] is the one's complement sum of words that add up to [s]. *)
Record ones_sum (s r : Z) : Prop := {
  os_range : 0 ≤ r ≤ 65535;
  os_mod : r `mod` 65535 = s `mod` 65535;
  os_zero : r = 0 ↔ s = 0 }.

Lemma fold_split s : 0 ≤ s < 4294967296 →
  Z.land s 65535 + Z.shiftr s 16 = s - 65535 * (s / 65536) ∧ 0 ≤ s / 65536 ≤ 65535.
Proof.
  intros Hs. change 65535 with (Z.ones 16) at 1. rewrite Z.land_ones by lia.
  rewrite Z.shiftr_div_pow2 by lia. change (2 ^ 16) with 65536. Z.div_mod_to_equations. lia.
Qed.

Lemma ones_sum_shift s r k : 0 ≤ s → 0 < s - 65535 * k ∨ k = 0 → 0 ≤ k →
  ones_sum (s - 65535 * k) r → ones_sum s r.
Proof.
  intros Hs Hp Hk [Hr Hm Hz]. split; [done| |].
  - rewrite Hm. replace (s - 65535 * k) with (s + (- k) * 65535) by lia. by rewrite Z.mod_add.
  - rewrite Hz. lia.
Qed.

Lemma chksum_fold_ok fuel s : 0 ≤ s < 4294967296 →
  (3 <= fuel)%nat →
  ∃ r, chksum_fold fuel s = Ok r ∧ ones_sum s r.
Proof.
  assert (∀ f s, 0 ≤ s < 65536 → chksum_fold (S f) s = Ok s) as H0.
  { intros f x Hx. cbn [chksum_fold]. rewrite Z.shiftr_div_pow2 by lia. change (2 ^ 16) with 65536.
    rewrite Z.div_small by lia. cbn. by rewrite u16_small. }
  assert (∀ x, 0 ≤ x < 65536 → ones_sum x x) as Hsame by (intros; split; [lia|done|done]).
  assert (∀ f x, 65536 ≤ x < 4294967296 →
    chksum_fold (S f) x = chksum_fold f (x - 65535 * (x / 65536))) as Hstep.
  { intros f x Hx. cbn [chksum_fold]. rewrite Z.shiftr_div_pow2 by lia. change (2 ^ 16) with 65536.
    rewrite (proj2 (Z.eqb_neq _ 0)) by (Z.div_mod_to_equations; lia).
    destruct (fold_split x) as [E Hq]; [lia|].
    rewrite Z.shiftr_div_pow2 in E by lia. change (2 ^ 16) with 65536 in E. rewrite E.
    rewrite u32_small; [done|]. Z.div_mod_to_equations; lia. }
  intros Hs Hf. destruct fuel as [|[|[|f]]]; [lia..|].
  destruct (Z_lt_le_dec s 65536) as [Hlt|Hge]; [rewrite H0 by lia; eexists; split; [done|]; apply Hsame; lia|].
  rewrite Hstep by lia. set (x := s - 65535 * (s / 65536)).
  assert (0 < x < 131071) as Hx by (unfold x; Z.div_mod_to_equations; lia).
  assert (∀ r, ones_sum x r → ones_sum s r) as Hsx.
  { intros r. apply ones_sum_shift; [lia|unfold x in Hx; lia|]. Z.div_mod_to_equations; lia. }
  destruct (Z_lt_le_dec x 65536) as [Hlt|Hge2]; [rewrite H0 by lia; eexists; split; [done|]; apply Hsx, Hsame; lia|].
  rewrite Hstep by lia. set (y := x - 65535 * (x / 65536)).
  assert (0 < y < 65536) as Hy by (unfold y; Z.div_mod_to_equations; lia).
  rewrite H0 by lia. exists y. split; [done|]. apply Hsx.
  apply (ones_sum_shift _ _ (x / 65536)); [lia|unfold y in Hy; lia|Z.div_mod_to_equations; lia|].
  apply Hsame. lia.
Qed.

(** What the accumulated sum keeps: its residue and whether it is zero. *)
Record acc_ok (s a : Z) : Prop := {
  ac_range : 0 ≤ a < 2147549184;
  ac_mod : a `mod` 65535 = s `mod` 65535;
  ac_zero : a = 0 ↔ s = 0 }.

Lemma chksum_turn_ok s a w : 0 ≤ s → 0 ≤ w ≤ 65535 → acc_ok s a → acc_ok (s + w) (chksum_turn a w).
Proof.
  intros Hs Hw [Hr Hm Hz]. unfold chksum_turn.
  change 2147483648 with (Z.shiftl 1 31). rewrite land_1_shift by lia.
  assert (∃ c, (if Z.testbit a 31 then u32 (Z.land a 65535 + Z.shiftr a 16) else a) = c ∧
    0 ≤ c < 2147483648 ∧ c `mod` 65535 = a `mod` 65535 ∧ (c = 0 ↔ a = 0)) as (c & -> & Hc & Hcm & Hcz).
  { destruct (Z.testbit a 31) eqn:Eb.
    - destruct (fold_split a) as [E Hq]; [lia|]. rewrite E.
      rewrite u32_small by (Z.div_mod_to_equations; lia). eexists; split; [done|].
      split; [Z.div_mod_to_equations; lia|]. split; [|Z.div_mod_to_equations; lia].
      rewrite E. replace (a - 65535 * (a / 65536)) with (a + (- (a / 65536)) * 65535) by lia. by rewrite Z.mod_add.
    - exists a. split; [done|]. split; [|done]. split; [lia|].
      destruct (Z_lt_le_dec a 2147483648) as [|Hge]; [done|].
      assert (Z.testbit a 31 = true); [|congruence].
      rewrite Z.testbit_true by lia. change (2 ^ 31) with 2147483648.
      replace (a / 2147483648) with 1; [done|]. Z.div_mod_to_equations; lia. }
  rewrite u32_small by lia. split; [lia| |lia].
  by rewrite Zplus_mod, Hcm, Hm, <-Zplus_mod.
Qed.

Lemma chksum_words_ok data : ∀ s a, Forall byte data → 0 ≤ s → acc_ok s a →
  0 ≤ chksum_words data a < 4294967296 ∧
  chksum_words data a `mod` 65535 = (s + word_sum data) `mod` 65535 ∧
  (chksum_words data a = 0 ↔ s + word_sum data = 0).
Proof.
  induction data as [|b|b0 b1 data IH] using pairs_ind; intros s a Hb Hs Ha;
    cbn [chksum_words word_sum].
  - destruct Ha. rewrite Z.add_0_r. split; [lia|done].
  - apply Forall_cons in Hb as [Hb0 _]. unfold byte in *. destruct Ha as [Hr Hm Hz].
    rewrite u32_small by lia. split; [lia|].
    split; [by rewrite Zplus_mod, Hm, <-Zplus_mod|lia].
  - apply Forall_cons in Hb as [Hb0 [Hb1 Hb]%Forall_cons]. unfold byte in *.
    rewrite Z.add_assoc. apply IH; [done|lia|]. apply chksum_turn_ok; (done || lia).
Qed.

Lemma chksum_ok data s : Forall byte data → 0 ≤ s < 2147483648 →
  ∃ r, chksum data s = Ok r ∧ ones_sum (s + word_sum data) r.
Proof.
  intros Hb Hs.
  destruct (chksum_words_ok data s s) as (H2 & H3 & H4); [done|lia|split; [lia|done|done]|].
  unfold chksum. destruct (chksum_fold_ok 4 _ H2) as (r & -> & [Hr Hm Hz]); [lia|].
  exists r. split; [done|]. split; [done|congruence|]. by rewrite Hz.
Qed.

(** ** Verifying a stored checksum *)

(** The two bytes of a checksum field. *)
Definition le16 (c : Z) : list Z := [c `mod` 256; c / 256].

Lemma word_sum_app n : ∀ pre post, List.length pre = (2 * n)%nat →
  word_sum (pre ++ post) = word_sum pre + word_sum post.
Proof.
  induction n as [|n IH]; intros pre post Hl.
  - by destruct pre.
  - destruct pre as [|b0 [|b1 pre]]; cbn in Hl; [lia..|]. cbn. rewrite IH by lia. lia.
Qed.

Lemma not16_sub r : 0 ≤ r ≤ 65535 → not16 r = 65535 - r.
Proof.
  intros Hr. unfold not16. assert (Z.lxor r 65535 + r = 65535) as H; [|lia].
  rewrite Z.add_nocarry_lxor.
  - apply Z.bits_inj'. intros k Hk. rewrite !Z.lxor_spec.
    by destruct (Z.testbit r k), (Z.testbit 65535 k).
  - apply Z.bits_inj'. intros k Hk. rewrite Z.land_spec, Z.lxor_spec, Z.bits_0.
    change 65535 with (Z.ones 16). destruct (decide (k < 16)).
    + rewrite Z.ones_spec_low by lia. by destruct (Z.testbit r k).
    + rewrite (testbit_high r 16 k) by (change (2 ^ 16) with 65536; lia).
      by rewrite andb_false_r.
Qed.

(** Storing the complement of the sum of the rest makes the sum 65535. *)
Lemma verify_stored pre post n s r c : List.length pre = (2 * n)%nat →
  0 ≤ s → 0 ≤ word_sum pre → 0 ≤ word_sum post →
  ones_sum (s + word_sum (pre ++ [0; 0] ++ post)) r → c = 65535 - r →
  ∀ r', ones_sum (s + word_sum (pre ++ le16 c ++ post)) r' → not16 r' = 0.
Proof.
  intros Hl Hs Hp1 Hp2 [Hr Hm Hz] -> r' [Hr' Hm' Hz'].
  rewrite not16_sub by done.
  rewrite (word_sum_app n) in Hm', Hz', Hm, Hz by done. cbn [le16 app word_sum] in *.
  set (c := 65535 - r) in *.
  pose proof (Z_div_mod_eq_full c 256) as Hc.
  replace (c `mod` 256 + 256 * (c / 256)) with c in * by lia.
  replace (0 + 256 * 0) with 0 in * by lia.
  set (W := s + (word_sum pre + (0 + word_sum post))) in *.
  replace (s + (word_sum pre + (c + word_sum post))) with (W + c) in * by lia.
  assert (r' `mod` 65535 = 0) as H0.
  { rewrite Hm', Zplus_mod, <-Hm, <-Zplus_mod. replace (r + c) with 65535 by lia. done. }
  destruct (Z.eq_dec r' 0) as [E|]; [|Z.div_mod_to_equations; lia].
  apply Hz' in E. assert (W = 0) as HW by (unfold W, c in *; lia).
  apply Hz in HW. unfold c in *. lia.
Qed.

Lemma not16_range r : 0 ≤ r ≤ 65535 → 0 ≤ not16 r ≤ 65535.
Proof. intros. rewrite not16_sub; lia. Qed.

Lemma htons_bytes s : 0 ≤ s < 65536 → htons s = 256 * (s `mod` 256) + s / 256.
Proof.
  intros Hs. unfold htons. assert (Z.land s 255 = s `mod` 256) as -> by exact (Z.land_ones s 8 ltac:(lia)).
  assert (Z.shiftr (Z.land s 65280) 8 = s / 256) as ->.
  { change 65280 with (Z.shiftl 255 8). rewrite Z.shiftr_land, Z.shiftr_shiftl_l by lia.
    rewrite Z.shiftr_div_pow2 by lia. change (2 ^ 8) with 256. change (Z.shiftl 255 (8 - 8)) with (Z.ones 8).
    rewrite Z.land_ones by lia. apply Z.mod_small. Z.div_mod_to_equations; lia. }
  rewrite <-Z.add_nocarry_lor.
  - rewrite Z.shiftl_mul_pow2 by lia. lia.
  - apply Z.bits_inj'. intros k Hk. rewrite Z.land_spec, Z.bits_0.
    destruct (decide (k < 8)); [by rewrite Z.shiftl_spec_low|].
    rewrite (testbit_high (s / 256) 8 k) by (change (2 ^ 8) with 256; Z.div_mod_to_equations; lia).
    apply andb_false_r.
Qed.

Lemma htons_range s : 0 ≤ s < 65536 → 0 ≤ htons s < 65536.
Proof. intros Hs. rewrite htons_bytes by done. Z.div_mod_to_equations; lia. Qed.

Lemma htons_htons s : 0 ≤ s < 65536 → htons (htons s) = s.
Proof.
  intros Hs. rewrite (htons_bytes (htons s)) by (by apply htons_range). rewrite (htons_bytes s) by done.
  Z.div_mod_to_equations; lia.
Qed.

(** The pseudo header's sum of [inet_chksum] fits its [u32]. *)
Lemma pseudo_range len dst src proto : 0 ≤ len < 65536 → 0 ≤ proto < 65536 →
  0 ≤ dst < 4294967296 → 0 ≤ src < 4294967296 →
  0 ≤ Z.land dst 65535 + Z.shiftr dst 16 + (Z.land src 65535 + Z.shiftr src 16) +
      htons proto + htons len < 2147483648.
Proof.
  intros Hl Hp Hd Hs. pose proof (htons_range len Hl). pose proof (htons_range proto Hp).
  destruct (fold_split dst Hd) as [-> ?]. destruct (fold_split src Hs) as [-> ?].
  Z.div_mod_to_equations; lia.
Qed.

Lemma chksum_stored pre post n s : List.length pre = (2 * n)%nat → Forall byte pre →
  Forall byte post → 0 ≤ s < 2147483648 →
  ∃ r r', chksum (pre ++ [0; 0] ++ post) s = Ok r ∧ 0 ≤ not16 r ≤ 65535 ∧
    chksum (pre ++ le16 (not16 r) ++ post) s = Ok r' ∧ not16 r' = 0.
Proof.
  intros Hl Hpre Hpost Hs.
  assert (∀ c, 0 ≤ c ≤ 65535 → Forall byte (le16 c)) as Hle.
  { intros c Hc. repeat constructor; Z.div_mod_to_equations; lia. }
  assert (Forall byte (pre ++ [0; 0] ++ post)) as H0
    by (repeat (apply Forall_app; split); try done; apply (Hle 0); lia).
  destruct (chksum_ok _ s H0 Hs) as (r & Hr & Hos).
  pose proof (not16_range r (os_range _ _ Hos)) as Hc.
  assert (Forall byte (pre ++ le16 (not16 r) ++ post)) as H1
    by (repeat (apply Forall_app; split); try done; by apply Hle).
  destruct (chksum_ok _ s H1 Hs) as (r' & Hr' & Hos').
  exists r, r'. split; [done|]. split; [done|]. split; [done|].
  exact (verify_stored pre post n s r _ Hl (proj1 Hs) (word_sum_nonneg _ Hpre)
    (word_sum_nonneg _ Hpost) Hos (not16_sub _ (os_range _ _ Hos)) r' Hos').
Qed.

Lemma inet_stored pre post n len dst src proto : List.length pre = (2 * n)%nat →
  Forall byte pre → Forall byte post → 0 ≤ len < 65536 → 0 ≤ dst < 4294967296 →
  0 ≤ src < 4294967296 → 0 ≤ proto < 65536 →
  ∃ c, inet_chksum (pre ++ [0; 0] ++ post) len dst src proto = Ok c ∧
    inet_chksum (pre ++ le16 c ++ post) len dst src proto = Ok 0.
Proof.
  intros Hl Hpre Hpost Hlen Hdst Hsrc Hproto. unfold inet_chksum. cbn zeta.
  pose proof (pseudo_range len dst src proto Hlen Hproto Hdst Hsrc) as Hs.
  rewrite u32_small by lia. set (s := _ + htons len) in *.
  destruct (chksum_stored pre post n s) as (r & r' & H1 & _ & H2 & H3); [done..|].
  exists (not16 r). rewrite H1, H2. cbn [res_bind]. by rewrite H3.
Qed.

(** The checksums never overflow their 32-bit accumulator and their folding loop
    ends.  A header, or a segment with its pseudo header, whose checksum field (at an even
    offset) holds the value computed with that field zero verifies to 0, and IP data
    verifies to 0 exactly when its words add up to a positive multiple of 65535. *)
Theorem checksum_verifies (pre post : list Z) (n : nat) (len dst src proto : Z)
    (Hl : List.length pre = (2 * n)%nat) (Hpre : Forall byte pre) (Hpost : Forall byte post)
    (Hlen : 0 ≤ len < 65536) (Hproto : 0 ≤ proto < 65536)
    (Hdst : 0 ≤ dst < 4294967296) (Hsrc : 0 ≤ src < 4294967296) :
  (∃ c, ip_chksum (pre ++ [0; 0] ++ post) = Ok c ∧ ip_chksum (pre ++ le16 c ++ post) = Ok 0) ∧
  (∃ c, inet_chksum (pre ++ [0; 0] ++ post) len dst src proto = Ok c ∧
     inet_chksum (pre ++ le16 c ++ post) len dst src proto = Ok 0) ∧
  (ip_chksum post = Ok 0 ↔ 0 < word_sum post ∧ word_sum post `mod` 65535 = 0).
Proof.
  split; [|split].
  - destruct (chksum_stored pre post n 0) as (r & r' & H1 & _ & H2 & H3); [done..|lia|].
    unfold ip_chksum. exists (not16 r). rewrite H1, H2. cbn [res_bind]. by rewrite H3.
  - by apply (inet_stored pre post n).
  - unfold ip_chksum. destruct (chksum_ok post 0 Hpost) as (r & -> & [Hr Hm Hz]); [lia|].
    cbn [res_bind]. rewrite not16_sub by done. rewrite Z.add_0_l in *.
    pose proof (word_sum_nonneg post Hpost). split.
    + intros [= E]. assert (r = 65535) as -> by lia. split; [lia|]. by rewrite <-Hm.
    + intros [Hp H0]. rewrite H0 in Hm. do 2 f_equal.
      destruct (Z.eq_dec r 0) as [E|]; [apply Hz in E; lia|]. Z.div_mod_to_equations; lia.
Qed.

(** An IPv4 header of 20 bytes. *)
Lemma checksum_verifies_witness : ∃ c,
  ip_chksum ([69; 0; 0; 60; 0; 0; 0; 0; 64; 6] ++ [0; 0] ++ [10; 0; 0; 2; 10; 0; 0; 1]) = Ok c ∧
  ip_chksum ([69; 0; 0; 60; 0; 0; 0; 0; 64; 6] ++ le16 c ++ [10; 0; 0; 2; 10; 0; 0; 1]) = Ok 0.
Proof.
  apply (checksum_verifies [69; 0; 0; 60; 0; 0; 0; 0; 64; 6] [10; 0; 0; 2; 10; 0; 0; 1] 5 20 1 2 6);
    try (repeat constructor; vm_compute; discriminate); repeat constructor.
Defined.

(** ** The residue of the CRC *)

(** Feeding one zero byte. *)
Definition crc_shift (c : Z) : Z := Nat.iter 8 crc_bit c.

Lemma crc_byte_shift c b : crc_byte c b = crc_shift (Z.lxor c b).
Proof. done. Qed.

Lemma crc_bit_high c d : crc_bit (Z.lxor c (Z.shiftl d 1)) = Z.lxor (crc_bit c) d.
Proof.
  assert (∀ a, negb (Z.land a 1 =? 0) = Z.testbit a 0) as Hb
    by (intros a; exact (land_1_shift a 0 ltac:(lia))).
  unfold crc_bit. rewrite !Hb, Z.shiftr_lxor, Z.shiftr_shiftl_l, Z.sub_diag, Z.shiftl_0_r by lia.
  rewrite Z.lxor_spec.
  rewrite (Z.shiftl_spec_low d) by lia. rewrite xorb_false_r.
  destruct (Z.testbit c 0); [|done]. by rewrite !Z.lxor_assoc, (Z.lxor_comm d).
Qed.

Lemma crc_shift_high c d : crc_shift (Z.lxor c (Z.shiftl d 8)) = Z.lxor (crc_shift c) d.
Proof.
  assert (∀ n c d, Nat.iter n crc_bit (Z.lxor c (Z.shiftl d (Z.of_nat n))) = Z.lxor (Nat.iter n crc_bit c) d)
    as H; [|apply (H 8%nat)].
  clear c d. induction n as [|n IH]; intros c d; [done|].
  rewrite !Nat.iter_succ. rewrite <-crc_bit_high. f_equal.
  replace (Z.shiftl d (Z.of_nat (S n))) with (Z.shiftl (Z.shiftl d 1) (Z.of_nat n)).
  - apply IH.
  - rewrite Z.shiftl_shiftl by lia. f_equal. lia.
Qed.

(** The four bytes of a [u32], little-endian. *)
Definition le32 (w : Z) : list Z :=
  [Z.land w 255; Z.land (Z.shiftr w 8) 255; Z.land (Z.shiftr w 16) 255; Z.shiftr w 24].

Lemma split_byte w : w = Z.lxor (Z.land w 255) (Z.shiftl (Z.shiftr w 8) 8).
Proof.
  apply Z.bits_inj'. intros k Hk. rewrite Z.lxor_spec, Z.land_spec.
  change 255 with (Z.ones 8). destruct (decide (k < 8)).
  - rewrite Z.ones_spec_low, Z.shiftl_spec_low by lia. by rewrite andb_true_r, xorb_false_r.
  - rewrite Z.ones_spec_high, Z.shiftl_spec, Z.shiftr_spec by lia.
    rewrite andb_false_r, xorb_false_l. f_equal. lia.
Qed.

(** Feeding the bytes of [w] is feeding zeros to [c ^ w]. *)
Lemma crc_feed_word c w :
  fold_left crc_byte (le32 w) c = Nat.iter 4 crc_shift (Z.lxor c w).
Proof.
  assert (∀ n c w, Nat.iter (S n) crc_shift (Z.lxor c w) =
    Nat.iter n crc_shift (Z.lxor (crc_byte c (Z.land w 255)) (Z.shiftr w 8))) as H.
  { intros n c' w'. rewrite Nat.iter_succ_r. f_equal. rewrite (split_byte w') at 1.
    rewrite <-Z.lxor_assoc. by rewrite crc_shift_high. }
  do 3 rewrite H. rewrite !Z.shiftr_shiftr by lia. change (8 + 8) with 16. change (16 + 8) with 24.
  cbn [le32 fold_left]. rewrite Nat.iter_succ. cbn [Nat.iter nat_rect]. by rewrite (crc_byte_shift _ (Z.shiftr w 24)).
Qed.

(** A frame followed by its own [eth_fcs], little-endian, has a CRC that does not
    depend on the frame, so that a receiver verifies a frame by one comparison. *)
Theorem eth_fcs_residue (data : list Z) :
  eth_fcs (data ++ le32 (eth_fcs data)) = 558161692.
Proof.
  unfold eth_fcs at 1. rewrite fold_left_app, crc_feed_word. unfold eth_fcs.
  set (c := fold_left crc_byte data 4294967295). unfold crc_not at 2.
  rewrite <-Z.lxor_assoc, Z.lxor_nilpotent, Z.lxor_0_l. vm_compute. done.
Qed.

Example fcs_of_123456789 : eth_fcs [49; 50; 51; 52; 53; 54; 55; 56; 57] = 3421780262.
Proof. reflexivity. Qed.
