(* ===== verification/Addr.v ===== *)
(** * Addresses ([src/src/net/addr.c]; [isdigit] of [src/src/lib/stdlib.c])

    An IP address is the little-endian [u32] the C code reads it as, or its four
    bytes; a MAC address is its six bytes.  A null pointer is [None]. *)
From S2P Require Import Prelude.

Definition isdigit (c : Z) : bool := (48 <=? c) && (c <=? 57).

Definition eth_addr_isany (addr : option (list Z)) : bool :=
  match addr with
  | None => true
  | Some a => forallb (λ b, b =? 0) (take 6 a)
  end.

Fixpoint eth_addr_cmp (addr1 addr2 : list Z) : bool :=
  match addr1, addr2 with
  | a :: addr1', b :: addr2' => if negb (a =? b) then false else eth_addr_cmp addr1' addr2'
  | _, _ => true
  end.

Definition ip_addr_cmp (a1 a2 : Z) : bool := a1 =? a2.
Definition ip_addr_maskcmp (a1 a2 m : Z) : bool := Z.land a1 m =? Z.land a2 m.

Definition not32 (m : Z) : Z := Z.lxor m 4294967295.

Definition ip_addr_isbroadcast (a m : Z) : bool :=
  (Z.land a (not32 m) =? not32 m) || (a =? 4294967295) || (a =? 0).
Definition ip_addr_isany (a : option Z) : bool :=
  match a with None => true | Some a => a =? 0 end.
Definition ip_addr_ismulticast (a : Z) : bool := Z.land a 240 =? 224.

(** ** [inet_aton]

    [s] is the memory from the string on; reading past it faults.  The inner loop
    stops at a point or at the terminator, with the value, the number of digits
    and the memory from there. *)
Fixpoint aton_part (s : list Z) (value : Z) (k : nat) : res (option (Z * nat * list Z)) :=
  match s with
  | [] => Stop Fault
  | c :: s' =>
      if (c =? 46) || (c =? 0) then Ok (Some (value, k, s))
      else if negb (isdigit c) then Ok None
      else aton_part s' (s32 (s32 (value * 10) + (c - 48))) (S k)
  end.

(** The outer loop from the part [i] on; [parts] is the local array, which the
    function does not initialise. *)
Fixpoint aton_loop (n : nat) (i : nat) (s parts : list Z) : res (Z * list Z) :=
  match n with
  | O => Ok (EOK, parts)
  | S n' =>
      match s with
      | [] => Stop Fault
      | c :: _ =>
          if c =? 0 then Ok (EOK, parts)
          else
            let! part := aton_part s 0 0 in
            match part with
            | None => Ok (- EADDR, parts)
            | Some (value, k, s') =>
                if (k =? 0)%nat || (value <? 0) || (255 <? value) then Ok (- EADDR, parts)
                else aton_loop n' (S i) (tail s') (<[i := u8 value]> parts)
            end
      end
  end.

(** The address is stored only when the result is [EOK]. *)
Definition inet_aton (str stack : list Z) (addr : list Z) : res (Z * list Z) :=
  let! (ret, parts) := aton_loop 4 0 str stack in
  Ok (ret, if ret =? EOK then parts else addr).

(** ** Properties *)

(** The number a digit string denotes. *)
Definition number (ds : list Z) : Z := fold_left (λ v c, v * 10 + (c - 48)) ds 0.

Definition digits (ds : list Z) : Prop := ds ≠ [] ∧ Forall (λ c, isdigit c = true) ds.

Lemma digit_bounds c : isdigit c = true → 48 ≤ c ≤ 57.
Proof. unfold isdigit. intros [? ?]%andb_true_iff. lia. Qed.

Lemma number_from ds : ∀ v, 0 ≤ v → Forall (λ c, isdigit c = true) ds →
  v ≤ fold_left (λ v c, v * 10 + (c - 48)) ds v.
Proof.
  induction ds as [|c ds IH]; intros v Hv Hds; cbn [fold_left]; [lia|].
  apply Forall_cons in Hds as [Hc%digit_bounds Hds]. specialize (IH (v * 10 + (c - 48)) ltac:(lia) Hds). lia.
Qed.

Lemma aton_part_ok sep rest ds : ∀ v k, sep = 46 ∨ sep = 0 → Forall (λ c, isdigit c = true) ds →
  0 ≤ v → fold_left (λ v c, v * 10 + (c - 48)) ds v < 2 ^ 31 →
  aton_part (ds ++ sep :: rest) v k =
    Ok (Some (fold_left (λ v c, v * 10 + (c - 48)) ds v, (List.length ds + k)%nat, sep :: rest)).
Proof.
  change (2 ^ 31) with 2147483648.
  induction ds as [|c ds IH]; intros v k Hsep Hds Hv Hlt; cbn [app aton_part fold_left List.length].
  - by destruct Hsep as [->| ->].
  - apply Forall_cons in Hds as [Hc Hds]. pose proof (digit_bounds c Hc).
    rewrite (proj2 (Z.eqb_neq c 46)), (proj2 (Z.eqb_neq c 0)), Hc by lia. cbn [orb negb].
    cbn [fold_left] in Hlt.
    pose proof (number_from ds (v * 10 + (c - 48)) ltac:(lia) Hds).
    rewrite !s32_small by (rewrite ?s32_small; lia). rewrite IH; try done; [|lia].
    do 3 f_equal. f_equal. lia.
Qed.

Lemma aton_loop_part n i ds sep rest parts : digits ds → number ds ≤ 255 → sep = 46 ∨ sep = 0 →
  aton_loop (S n) i (ds ++ sep :: rest) parts = aton_loop n (S i) rest (<[i := number ds]> parts).
Proof.
  intros [Hne Hds] Hle Hsep. pose proof (number_from ds 0 ltac:(lia) Hds) as Hge.
  fold (number ds) in Hge. cbn [aton_loop].
  assert (∃ c ds', ds = c :: ds' ∧ c ≠ 0) as (c & ds' & Hc & Hc0).
  { destruct ds as [|c ds']; [done|]. exists c, ds'. split; [done|].
    apply Forall_cons in Hds as [?%digit_bounds _]. lia. }
  rewrite Hc at 1. cbn [app]. rewrite (proj2 (Z.eqb_neq c 0)) by done.
  rewrite (aton_part_ok sep rest ds 0 0); try done; [|fold (number ds); lia]. cbn [res_bind].
  fold (number ds). rewrite Nat.add_0_r.
  rewrite (proj2 (Nat.eqb_neq _ 0)) by (by destruct ds).
  rewrite (proj2 (Z.ltb_ge (number ds) 0)), (proj2 (Z.ltb_ge 255 (number ds))) by lia. cbn [orb tail].
  by rewrite u8_small by lia.
Qed.

(** A dotted quad of decimal numbers up to 255 is parsed to those four bytes,
    whatever the local array held and whatever follows; a part that is empty, denotes a number
    between 256 and 2^31 - 1 or contains another character makes the call fail with
    [-EADDR] and leaves the address alone; a string with less than four parts is read past
    its terminator. *)
Theorem inet_aton_ok (d1 d2 d3 d4 rest stack addr : list Z) (sep : Z)
    (Hlen : List.length stack = 4%nat) (Hsep : sep = 46 ∨ sep = 0)
    (H1 : digits d1) (H2 : digits d2) (H3 : digits d3) (H4 : digits d4)
    (L1 : number d1 ≤ 255) (L2 : number d2 ≤ 255) (L3 : number d3 ≤ 255)
    (L4 : number d4 < 2 ^ 31) :
  inet_aton (d1 ++ 46 :: d2 ++ 46 :: d3 ++ 46 :: d4 ++ sep :: rest) stack addr =
    (if number d4 <=? 255 then Ok (EOK, [number d1; number d2; number d3; number d4])
     else Ok (- EADDR, addr)) ∧
  (∀ c, c ≠ 0 → isdigit c = false →
     inet_aton (d1 ++ 46 :: d2 ++ 46 :: d3 ++ 46 :: c :: rest) stack addr = Ok (- EADDR, addr)) ∧
  inet_aton (d1 ++ 46 :: d2 ++ 46 :: d3 ++ [0]) stack addr = Stop Fault.
Proof.
  destruct stack as [|s0 [|s1 [|s2 [|s3 [|]]]]]; try done. unfold inet_aton.
  split; [|split].
  - rewrite (aton_loop_part 3 0), (aton_loop_part 2 1), (aton_loop_part 1 2) by auto.
    destruct (Z.leb_spec (number d4) 255) as [Hd|Hd].
    + by rewrite (aton_loop_part 0 3) by auto.
    + destruct H4 as [Hne Hds]. cbn [aton_loop].
      assert (∃ c ds', d4 = c :: ds' ∧ c ≠ 0) as (c & ds' & Hc & Hc0).
      { destruct d4 as [|c ds']; [done|]. exists c, ds'. split; [done|].
        apply Forall_cons in Hds as [?%digit_bounds _]. lia. }
      rewrite Hc at 1. cbn [app]. rewrite (proj2 (Z.eqb_neq c 0)) by done.
      rewrite (aton_part_ok sep rest d4 0 0) by (done || lia). cbn [res_bind].
      fold (number d4). rewrite (proj2 (Z.ltb_lt 255 (number d4))) by lia.
      by rewrite orb_true_r.
  - intros c Hc Hd. rewrite (aton_loop_part 3 0), (aton_loop_part 2 1), (aton_loop_part 1 2) by auto.
    cbn [aton_loop aton_part]. rewrite (proj2 (Z.eqb_neq c 0)) by done. rewrite orb_false_r, Hd.
    by destruct (c =? 46).
  - rewrite (aton_loop_part 3 0), (aton_loop_part 2 1), (aton_loop_part 1 2) by auto. done.
Qed.

(** "127.0.0.1" *)
Lemma inet_aton_ok_witness :
  inet_aton [49; 50; 55; 46; 48; 46; 48; 46; 49; 0] [9; 9; 9; 9] [] = Ok (EOK, [127; 0; 0; 1]).
Proof.
  assert (∀ d, bool_decide (d ≠ []) && forallb isdigit d = true → digits d) as Hd.
  { intros d [H%bool_decide_eq_true H2]%andb_true_iff.
    split; [done|]. apply List.Forall_forall. by apply forallb_forall. }
  apply (inet_aton_ok [49; 50; 55] [48] [48] [49] [] [9; 9; 9; 9] [] 0);
    first [by right|by apply Hd|done].
Defined.
