(* ===== verification/Vsprintf.v ===== *)
(** * Formatted output ([src/src/lib/vsprintf.c], [atoi] of [src/src/lib/stdlib.c])

    A string is the list of its characters before the terminator.  The arguments
    of a call are a list: words, strings, bytes behind a pointer, the place [%n]
    stores to, and doubles, given by their sign and the two [u32] the conversions
    of the processor make of their absolute value, its integral part and the first
    six digits of the rest. *)
From S2P Require Import Prelude.
From S2P Require Addr.
Open Scope Z_scope.

Definition ZEROPAD : Z := 0x01.
Definition SIGN : Z := 0x02.
Definition PLUS : Z := 0x04.
Definition SPACE : Z := 0x08.
Definition LEFT : Z := 0x10.
Definition SPECIAL : Z := 0x20.
Definition SMALL : Z := 0x40.
Definition DOUBLE : Z := 0x80.

Inductive arg :=
  | Word (n : Z) | String (s : list Z) | Bytes (l : list Z) | Place (p : Z)
  | Double (negative : bool) (ival fval : Z).

Definition is_digit (c : Z) : bool := (48 <=? c) && (c <=? 57).

Fixpoint skip_atoi (i : Z) (s : list Z) : Z * list Z :=
  match s with
  | c :: s' => if is_digit c then skip_atoi (s32 (i * 10 + c - 48)) s' else (i, s)
  | [] => (i, s)
  end.

Definition has (flags f : Z) : bool := negb (Z.land flags f =? 0).

(** ** [number] *)

(** [digits[index]] *)
Definition digit (small : bool) (d : Z) : Z := if d <? 10 then 48 + d else (if small then 87 else 55) + d.

(** [while (num != 0)]: the digits, the last one first; 32 turns are enough. *)
Fixpoint digit_loop (fuel : nat) (base num : Z) : res (list Z) :=
  if num =? 0 then Ok []
  else
    match fuel with
    | O => Stop Fuel
    | S fuel' => let! l := digit_loop fuel' base (num / base) in Ok (num `mod` base :: l)
    end.

(** The six digits after the point. *)
Fixpoint mantissa_loop (n : nat) (base fval : Z) : list Z :=
  match n with O => [] | S n' => fval `mod` base :: mantissa_loop n' base (fval / base) end.

(** The characters in [tmp] and whether the number is negative. *)
Definition number_chars (a : arg) (base flags : Z) : res (bool * list Z) :=
  let ch := digit (has flags SMALL) in
  match a with
  | Double neg ival fval =>
      let! l := (if ival =? 0 then Ok [0] else digit_loop 32 base ival) in
      Ok (neg, (ch <$> mantissa_loop 6 base fval) ++ [46] ++ (ch <$> l))
  | Word num =>
      let neg := has flags SIGN && (s32 num <? 0) in
      let num := if neg then u32 (- s32 num) else num in
      let! l := (if num =? 0 then Ok [0] else digit_loop 32 base num) in
      Ok (neg, ch <$> l)
  | _ => Stop Fault
  end.

(** [while (size-- > 0) *str++ = c;]: the characters and [size] after it. *)
Definition pad (size c : Z) : list Z * Z := (replicate (Z.to_nat size) c, Z.min size 0 - 1).

Definition number (a : arg) (base size precision flags : Z) : res (list Z) :=
  let flags := if has flags LEFT then Z.ldiff flags ZEROPAD else flags in
  if (base <? 2) || (36 <? base) then Stop Fault
  else
    let c := if has flags ZEROPAD then 48 else 32 in
    let! (neg, tmp) := number_chars a base flags in
    let sign := if neg then [45] else if has flags PLUS then [43] else if has flags SPACE then [32] else [] in
    let prefix := if has flags SPECIAL then
                    if base =? 16 then [48; digit (has flags SMALL) 33] else if base =? 8 then [48] else []
                  else [] in
    let i := Z.of_nat (length tmp) in
    let size := size - Z.of_nat (length sign) - Z.of_nat (length prefix) in
    let precision := if precision <? i then i else precision in
    let size := size - precision in
    let '(p1, size) := if has flags (ZEROPAD + LEFT) then ([], size) else pad size 32 in
    let '(p2, size) := if has flags LEFT then ([], size) else pad size c in
    let zeros := replicate (Z.to_nat (precision - i)) 48 in
    let '(p3, _) := pad size 32 in
    Ok (p1 ++ sign ++ prefix ++ p2 ++ zeros ++ reverse tmp ++ p3).

(** ** [vsprintf] *)

(** The flags after a percent sign. *)
Fixpoint parse_flags (flags : Z) (fmt : list Z) : Z * list Z :=
  match fmt with
  | 45 :: fmt' => parse_flags (Z.lor flags LEFT) fmt'
  | 43 :: fmt' => parse_flags (Z.lor flags PLUS) fmt'
  | 32 :: fmt' => parse_flags (Z.lor flags SPACE) fmt'
  | 35 :: fmt' => parse_flags (Z.lor flags SPECIAL) fmt'
  | 48 :: fmt' => parse_flags (Z.lor flags ZEROPAD) fmt'
  | _ => (flags, fmt)
  end.

Definition va_word (args : list arg) : res (Z * list arg) :=
  match args with Word n :: args' => Ok (n, args') | _ => Stop Fault end.

Definition parse_width (flags : Z) (fmt : list Z) (args : list arg) : res (Z * Z * list Z * list arg) :=
  match fmt with
  | 42 :: fmt' =>
      let! (n, args) := va_word args in
      let w := s32 n in
      Ok (if w <? 0 then (s32 (- w), Z.lor flags LEFT, fmt', args) else (w, flags, fmt', args))
  | c :: _ => if is_digit c then let '(w, fmt') := skip_atoi 0 fmt in Ok (w, flags, fmt', args) else Ok (-1, flags, fmt, args)
  | [] => Ok (-1, flags, fmt, args)
  end.

Definition parse_precision (fmt : list Z) (args : list arg) : res (Z * list Z * list arg) :=
  match fmt with
  | 46 :: fmt' =>
      let! (p, fmt', args) :=
        match fmt' with
        | 42 :: fmt2 => let! (n, args) := va_word args in Ok (s32 n, fmt2, args)
        | c :: _ => if is_digit c then let '(p, fmt2) := skip_atoi 0 fmt' in Ok (p, fmt2, args) else Ok (-1, fmt', args)
        | [] => Ok (-1, fmt', args)
        end in
      Ok (if p <? 0 then 0 else p, fmt', args)
  | _ => Ok (-1, fmt, args)
  end.

(** The qualifier is read and not used. *)
Definition parse_qualifier (fmt : list Z) : list Z :=
  match fmt with c :: fmt' => if (c =? 104) || (c =? 108) || (c =? 76) then fmt' else fmt | [] => fmt end.

(** The numbers of an address and the separator after each; the last separator is
    overwritten. *)
Fixpoint number_list (l : list Z) (base size precision flags sep : Z) : res (list Z) :=
  match l with
  | [] => Ok []
  | b :: l' =>
      let! t := number (Word b) base size precision flags in
      let! r := number_list l' base size precision flags sep in
      Ok (t ++ [sep] ++ r)
  end.

Definition one_number (base width precision flags : Z) (args : list arg) : res (list Z * list arg) :=
  let! (n, args) := va_word args in
  let! t := number (Word n) base width precision flags in
  Ok (t, args).

(** A conversion: what it appends, the format after it, the arguments left and the
    store of [%n]. *)
Definition convert (fmt : list Z) (width precision flags : Z) (args : list arg) (out : list Z)
    : res (list Z * list Z * list arg * list (Z * Z)) :=
  match fmt with
  | [] => Ok ([37], [], args, [])
  | c :: fmt' =>
      let num r := let! (t, args) := r in Ok (t, fmt', args, []) in
      if c =? 99 then
        let! (n, args) := va_word args in
        let '(p1, w) := if has flags LEFT then ([], width) else (replicate (Z.to_nat (width - 1)) 32, Z.min (width - 1) 0) in
        Ok (p1 ++ [u8 n] ++ replicate (Z.to_nat (w - 1)) 32, fmt', args, [])
      else if c =? 115 then
        match args with
        | String s :: args =>
            let len := Z.of_nat (length s) in
            let len := if precision <? 0 then len else if precision <? len then precision else len in
            let '(p1, w) := if has flags LEFT then ([], width)
                            else (replicate (Z.to_nat (width - len)) 32, Z.min width len - 1) in
            Ok (p1 ++ take (Z.to_nat len) s ++ replicate (Z.to_nat (w - len)) 32, fmt', args, [])
        | _ => Stop Fault
        end
      else if c =? 111 then num (one_number 8 width precision flags args)
      else if c =? 112 then
        num (if width =? -1 then one_number 16 8 precision (Z.lor flags ZEROPAD) args
             else one_number 16 width precision flags args)
      else if c =? 120 then num (one_number 16 width precision (Z.lor flags SMALL) args)
      else if c =? 88 then num (one_number 16 width precision flags args)
      else if (c =? 100) || (c =? 105) then num (one_number 10 width precision (Z.lor flags SIGN) args)
      else if c =? 117 then num (one_number 10 width precision flags args)
      else if c =? 110 then
        match args with
        | Place p :: args => Ok ([], fmt', args, [(p, Z.of_nat (length out))])
        | _ => Stop Fault
        end
      else if c =? 102 then
        match args with
        | (Double _ _ _ as a) :: args =>
            let! t := number a 10 width precision (Z.lor (Z.lor flags SIGN) DOUBLE) in Ok (t, fmt', args, [])
        | _ => Stop Fault
        end
      else if c =? 98 then num (one_number 2 width precision flags args)
      else if c =? 109 then
        match args with
        | Bytes l :: args =>
            let! _ := deref (l !! 5%nat) in
            let! t := number_list (take 6 l) 16 2 precision (Z.lor flags (Z.lor SMALL ZEROPAD)) 58 in
            Ok (removelast t, fmt', args, [])
        | _ => Stop Fault
        end
      else if c =? 114 then
        match args with
        | Bytes l :: args =>
            let! _ := deref (l !! 3%nat) in
            let! t := number_list (take 4 l) 10 width precision (Z.lor flags SMALL) 46 in
            Ok (removelast t, fmt', args, [])
        | _ => Stop Fault
        end
      else Ok (if c =? 37 then [c] else [37; c], fmt', args, [])
  end.

(** The text, the arguments left and the stores; a turn for each character and
    one for the end. *)
Fixpoint format_loop (fuel : nat) (fmt : list Z) (args : list arg) (out : list Z) (stores : list (Z * Z))
    : res (list Z * list arg * list (Z * Z)) :=
  match fuel with
  | O => Stop Fuel
  | S fuel' =>
      match fmt with
      | [] => Ok (out, args, stores)
      | c :: fmt' =>
          if negb (c =? 37) then format_loop fuel' fmt' args (out ++ [c]) stores
          else
            let '(flags, fmt1) := parse_flags 0 fmt' in
            let! (width, flags, fmt2, args) := parse_width flags fmt1 args in
            let! (precision, fmt3, args) := parse_precision fmt2 args in
            let! (t, fmt4, args, st) := convert (parse_qualifier fmt3) width precision flags args out in
            format_loop fuel' fmt4 args (out ++ t) (stores ++ st)
      end
  end.

(** The value is the length of the text, which is in the buffer with a terminator. *)
Definition vsprintf (fmt : list Z) (args : list arg) : res (Z * list Z * list (Z * Z)) :=
  let! (out, _, stores) := format_loop (S (length fmt)) fmt args [] [] in
  let i := Z.of_nat (length out) in
  assert! i <? 1024 in
  Ok (i, out, stores).

Definition sprintf (fmt : list Z) (args : list arg) : res (Z * list Z * list (Z * Z)) := vsprintf fmt args.

(** ** [atoi] *)
Definition atoi (str : list Z) : Z :=
  let '(sign, str) := match str with 45 :: str' => (-1, str') | _ => (1, str) end in
  s32 (fold_left (λ r c, s32 (r * 10 + (c - 48))) str 0 * sign).

(** ** Numbers as text *)

(** The number that digits denote, the last one first. *)
Definition value (base : Z) (l : list Z) : Z := fold_right (λ d v, d + base * v) 0 l.
Definition spaces (n : Z) : list Z := replicate (Z.to_nat n) 32.
Definition zeros (n : Z) : list Z := replicate (Z.to_nat n) 48.

(** The reference: sign, prefix and digits, the first one first, filled up to the
    width [size] on one side, or with zeros after the prefix. *)
Definition layout (sign prefix digits : list Z) (left zero : bool) (size precision : Z) : list Z :=
  let gap := size - Z.of_nat (length sign + length prefix) - Z.max precision (Z.of_nat (length digits)) in
  let number := zeros (precision - Z.of_nat (length digits)) ++ digits in
  if left then sign ++ prefix ++ number ++ spaces gap
  else if zero then sign ++ prefix ++ zeros gap ++ number
  else spaces gap ++ sign ++ prefix ++ number.

Lemma length_layout sign prefix digits left zero size precision :
  Z.of_nat (length (layout sign prefix digits left zero size precision)) =
  Z.max size (Z.of_nat (length sign + length prefix) + Z.max precision (Z.of_nat (length digits))).
Proof.
  unfold layout, spaces, zeros. destruct left; [|destruct zero]; rewrite !length_app, !length_replicate; lia.
Qed.

Record numeral (base m : Z) (ds : list Z) : Prop := {
  nu_value : value base ds = m;
  nu_range : Forall (λ d, 0 ≤ d < base) ds;
  nu_first : ds = [0] ∨ ∃ d, last ds = Some d ∧ d ≠ 0 }.

Lemma digit_loop_ok fuel base : 2 ≤ base → ∀ num, 0 < num < base ^ Z.of_nat fuel →
  ∃ l, digit_loop fuel base num = Ok l ∧ numeral base num l ∧ (length l ≤ fuel)%nat.
Proof.
  intros Hb. induction fuel as [|fuel IH]; intros num Hn; [cbn in Hn; lia|].
  cbn [digit_loop]. rewrite (proj2 (Z.eqb_neq num 0)) by lia.
  rewrite Nat2Z.inj_succ, Z.pow_succ_r in Hn by lia. pose proof (Z.mod_pos_bound num base ltac:(lia)) as Hm.
  pose proof (Z.div_mod num base ltac:(lia)) as Hd.
  destruct (Z.eqb_spec (num / base) 0) as [E|Hne].
  - exists [num `mod` base]. assert (digit_loop fuel base (num / base) = Ok []) as -> by (rewrite E; by destruct fuel).
    split; [done|]. split; [|cbn; lia]. rewrite E, Z.mul_0_r, Z.add_0_l in Hd. split; [cbn; lia|by repeat constructor; lia|].
    right. exists (num `mod` base). split; [done|lia].
  - assert (0 ≤ num / base) by (apply Z.div_pos; lia).
    assert (num / base < base ^ Z.of_nat fuel) by (apply Z.div_lt_upper_bound; lia).
    destruct (IH (num / base)) as (l & El & [Hv Hr Hf] & Hl); [lia|]. exists (num `mod` base :: l).
    rewrite El. split; [done|]. split; [|cbn; lia]. split; [change (num `mod` base + base * value base l = num); rewrite Hv; lia|by constructor|].
    right. destruct Hf as [->|(d & Hd0 & Hd1)]; [cbn in Hv; lia|]. exists d. split; [|done]. by rewrite last_cons, Hd0.
Qed.

Lemma number_digits base m : 2 ≤ base → 0 ≤ m < 2 ^ 32 →
  ∃ l, (if m =? 0 then Ok [0] else digit_loop 32 base m) = Ok l ∧ numeral base m l ∧ (0 < length l ≤ 32)%nat.
Proof.
  intros Hb Hm. destruct (Z.eqb_spec m 0) as [->|].
  - exists [0]. split; [done|]. split; [|cbn; lia]. split; [cbn; lia|repeat constructor; lia|by left].
  - destruct (digit_loop_ok 32 base Hb m) as (l & El & Hl & Hlen).
    { split; [lia|]. apply (Z.lt_le_trans _ (2 ^ 32)); [lia|]. apply Z.pow_le_mono_l. lia. }
    exists l. split; [done|]. split; [done|]. split; [|done]. destruct Hl as [Hv _ _]. destruct l; [cbn in Hv; lia|cbn; lia].
Qed.

(** ** Flags *)
Lemma has_ldiff flags c : Z.land (Z.lnot ZEROPAD) c = c → has (Z.ldiff flags ZEROPAD) c = has flags c.
Proof. intros E. unfold has. by rewrite Z.ldiff_land, <-Z.land_assoc, E. Qed.
Lemma has_either flags a b : has flags (Z.lor a b) = has flags a || has flags b.
Proof.
  unfold has. rewrite Z.land_lor_distr_r.
  destruct (Z.eqb_spec (Z.land flags a) 0) as [->|Ha]; [by rewrite Z.lor_0_l|]. cbn [negb orb].
  apply negb_true_iff, Z.eqb_neq. intros [? _]%Z.lor_eq_0_iff. done.
Qed.

Definition sign_of (neg : bool) (flags : Z) : list Z :=
  if neg then [45] else if has flags PLUS then [43] else if has flags SPACE then [32] else [].
Definition prefix_of (base flags : Z) : list Z :=
  if has flags SPECIAL then
    if base =? 16 then [48; digit (has flags SMALL) 33] else if base =? 8 then [48] else []
  else [].
Definition negative (n flags : Z) : bool := has flags SIGN && (s32 n <? 0).

Lemma pads size precision i (left zero : bool) :
  let gap := size - (if precision <? i then i else precision) in
  (if left || zero then ([], gap) else pad gap 32).1 = (if left || zero then [] else spaces gap) ∧
  let s1 := (if left || zero then ([], gap) else pad gap 32).2 in
  (if left then ([], s1) else pad s1 (if zero then 48 else 32)).1 = (if left then [] else if zero then zeros gap else []) ∧
  (pad (if left then ([], s1) else pad s1 (if zero then 48 else 32)).2 32).1 = (if left then spaces gap else []).
Proof.
  intros gap. unfold pad, spaces, zeros. split; [by destruct (left || zero)|]. destruct left; cbn [orb fst snd]; [done|].
  destruct zero; cbn [fst snd]; (split; [|by rewrite Z2Nat.nonpos by lia]); [done|by rewrite Z2Nat.nonpos by lia].
Qed.

Lemma number_text n base size precision flags : 0 ≤ n < 2 ^ 32 → 2 ≤ base ≤ 36 →
  ∃ ds, numeral base (if negative n flags then - s32 n else n) ds ∧ (0 < length ds ≤ 32)%nat ∧
    number (Word n) base size precision flags =
      Ok (layout (sign_of (negative n flags) flags) (prefix_of base flags) (digit (has flags SMALL) <$> reverse ds)
            (has flags LEFT) (has flags ZEROPAD) size precision).
Proof.
  intros Hn Hb. set (neg := negative n flags). set (m := if neg then - s32 n else n).
  assert (0 ≤ m < 2 ^ 32 ∧ (if neg then u32 (- s32 n) else n) = m) as [Hm Em].
  { unfold m. destruct neg eqn:En; [|done]. unfold neg, negative in En. apply andb_prop in En as [_ En%Z.ltb_lt].
    pose proof (s32_range n). change (2 ^ 32) with 4294967296. split; [lia|]. apply u32_small. lia. }
  destruct (number_digits base m) as (ds & Eds & Hnu & Hlen); [lia|done|]. exists ds. split; [done|]. split; [done|].
  unfold number. set (fl := if has flags LEFT then Z.ldiff flags ZEROPAD else flags).
  assert (∀ c, Z.land (Z.lnot ZEROPAD) c = c → has fl c = has flags c) as Hfl
    by (intros c Hc; unfold fl; destruct (has flags LEFT); [by apply has_ldiff|done]).
  rewrite (proj2 (Z.ltb_ge base 2)), (proj2 (Z.ltb_ge 36 base)) by lia. cbn [orb].
  unfold number_chars. rewrite !(Hfl SIGN), !(Hfl SMALL), !(Hfl LEFT), !(Hfl PLUS), !(Hfl SPACE), !(Hfl SPECIAL) by done.
  fold (negative n flags). fold neg. rewrite Em, Eds. cbn [res_bind].
  fold (sign_of neg flags). fold (prefix_of base flags). rewrite length_fmap.
  change (ZEROPAD + LEFT) with (Z.lor LEFT ZEROPAD). rewrite has_either, (Hfl LEFT) by done.
  set (i := Z.of_nat (length ds)). set (pr := if precision <? i then i else precision).
  set (size' := size - Z.of_nat (length (sign_of neg flags)) - Z.of_nat (length (prefix_of base flags))).
  assert (has fl ZEROPAD = has flags ZEROPAD && negb (has flags LEFT)) as ->.
  { unfold fl. destruct (has flags LEFT); [|by rewrite andb_true_r]. rewrite andb_false_r. unfold has.
    by rewrite Z.ldiff_land, <-Z.land_assoc, Z.land_0_r. }
  set (zero := has flags ZEROPAD && negb (has flags LEFT)).
  pose proof (pads size' precision i (has flags LEFT) zero) as (P1 & P2 & P3). cbn zeta in P1, P2, P3. fold pr in P1, P2, P3.
  destruct (if has flags LEFT || zero then ([], size' - pr) else pad (size' - pr) 32) as [p1 s1]. cbn [fst snd] in *.
  destruct (if has flags LEFT then ([], s1) else pad s1 (if zero then 48 else 32)) as [p2 s2]. cbn [fst snd] in *.
  destruct (pad s2 32) as [p3 s3]. cbn [fst] in P3. subst p1 p2 p3. f_equal.
  unfold layout. rewrite length_fmap, length_reverse. fold i.
  replace (size - Z.of_nat (length (sign_of neg flags) + length (prefix_of base flags)) - Z.max precision i) with (size' - pr).
  2: { unfold size', pr. destruct (Z.ltb_spec precision i); lia. }
  assert (replicate (Z.to_nat (pr - i)) 48 = zeros (precision - i)) as ->.
  { unfold zeros, pr. destruct (Z.ltb_spec precision i); [by rewrite !Z2Nat.nonpos by lia|done]. }
  rewrite fmap_reverse. unfold zero. destruct (has flags LEFT), (has flags ZEROPAD); cbn [andb negb orb app]; rewrite ?app_nil_r, <-?app_assoc; done.
Qed.

(** ** Text read back *)
Definition plain (l : list Z) : Prop := Forall (λ c, c ≠ 37) l.

Lemma format_plain pre fmt fuel args out st : plain pre →
  format_loop (length pre + fuel) (pre ++ fmt) args out st = format_loop fuel fmt args (out ++ pre) st.
Proof.
  intros Hp. revert out. induction Hp as [|c pre Hc Hp IH]; intros out; cbn [length app Nat.add]; [by rewrite app_nil_r|].
  cbn [format_loop]. rewrite (proj2 (Z.eqb_neq c 37)) by done. cbn [negb]. by rewrite IH, <-app_assoc.
Qed.

(** One conversion in a plain text. *)
Lemma vsprintf_one pre c post a t : plain pre → plain post → parse_flags 0 (c :: post) = (0, c :: post) →
  is_digit c = false → c ≠ 42 → c ≠ 46 → parse_qualifier (c :: post) = c :: post →
  convert (c :: post) (-1) (-1) 0 [a] pre = Ok (t, post, [], []) →
  Z.of_nat (length (pre ++ t ++ post)) < 1024 →
  sprintf (pre ++ 37 :: c :: post) [a] = Ok (Z.of_nat (length (pre ++ t ++ post)), pre ++ t ++ post, []).
Proof.
  intros Hpre Hpost Hfl Hd H42 H46 Hq Hc Hlen. unfold sprintf, vsprintf.
  replace (S (length (pre ++ 37 :: c :: post))) with (length pre + S (length post + 2))%nat
    by (rewrite length_app; cbn [length]; lia).
  rewrite format_plain by done. pose proof (format_plain post [] 2 [] (pre ++ t) [] Hpost) as Hp.
  set (fl := (length post + 2)%nat) in *. clearbody fl. cbn [format_loop app]. change (negb (37 =? 37)) with false. cbn iota. rewrite Hfl.
  assert (parse_width 0 (c :: post) [a] = Ok (-1, 0, c :: post, [a])) as ->.
  { unfold parse_width. rewrite Hd. destruct c as [|c|c]; try done. repeat (destruct c as [c|c|]; try done). }
  cbn [res_bind].
  assert (parse_precision (c :: post) [a] = Ok (-1, c :: post, [a])) as ->.
  { unfold parse_precision. destruct c as [|c|c]; try done. repeat (destruct c as [c|c|]; try done). }
  cbn [res_bind]. rewrite Hq, Hc. cbn [res_bind app].
  rewrite app_nil_r in Hp. rewrite Hp. cbn [format_loop res_bind].
  rewrite <-app_assoc, (proj2 (Z.ltb_lt _ _)) by done. done.
Qed.

Lemma digit_small d : 0 ≤ d < 10 → ∀ b, digit b d = 48 + d.
Proof. intros Hd b. unfold digit. by rewrite (proj2 (Z.ltb_lt d 10)) by lia. Qed.

(** The characters of digits, and what the parsers make of them. *)
Lemma number_value ds : Forall (λ d, 0 ≤ d < 10) ds → Addr.number (reverse (Z.add 48 <$> ds)) = value 10 ds.
Proof.
  unfold Addr.number. induction 1 as [|d ds Hd Hds IH]; [done|]. rewrite fmap_cons, reverse_cons, fold_left_app, IH.
  cbn [fold_left]. change (value 10 (d :: ds)) with (d + 10 * value 10 ds). lia.
Qed.

Lemma digits_ok ds : Forall (λ d, 0 ≤ d < 10) ds → (0 < length ds)%nat → Addr.digits (reverse (Z.add 48 <$> ds)).
Proof.
  intros Hds Hl. split.
  - intros E. apply (f_equal length) in E. rewrite length_reverse, length_fmap in E. cbn in E. lia.
  - apply Forall_reverse, Forall_fmap. eapply Forall_impl; [exact Hds|]. cbv beta. intros d Hd.
    unfold compose, Addr.isdigit. apply andb_true_intro. split; apply Z.leb_le; lia.
Qed.

Lemma wrapped_fold l : ∀ a b, s32 a = s32 b →
  s32 (fold_left (λ r c, s32 (r * 10 + (c - 48))) l a) = s32 (fold_left (λ r c, r * 10 + (c - 48)) l b).
Proof.
  induction l as [|c l IH]; intros a b E; [done|]. cbn [fold_left]. apply IH. rewrite <-s32_u32, u32_s32.
  rewrite <-(s32_u32 (b * 10 + (c - 48))). f_equal. apply (f_equal u32) in E. rewrite !u32_s32 in E. unfold u32 in *.
  by rewrite Z.add_mod, Z.mul_mod, E, <-Z.mul_mod, <-Z.add_mod by done.
Qed.

Lemma atoi_text (neg : bool) ds n : Forall (λ d, 0 ≤ d < 10) ds → (0 < length ds)%nat → -2 ^ 31 ≤ n < 2 ^ 31 →
  value 10 ds = (if neg then - n else n) →
  atoi ((if neg then [45] else []) ++ reverse (Z.add 48 <$> ds)) = n.
Proof.
  intros Hds Hl Hn Hv. pose proof (number_value ds Hds) as Hnum. unfold Addr.number in Hnum. rewrite Hv in Hnum.
  change (-2 ^ 31) with (-2147483648) in Hn. change (2 ^ 31) with 2147483648 in Hn.
  assert (∀ sg : Z, s32 (fold_left (λ r c, s32 (r * 10 + (c - 48))) (reverse (Z.add 48 <$> ds)) 0 * sg) =
    s32 ((if neg then - n else n) * sg)) as Hw.
  { intros sg. rewrite <-s32_u32, <-(s32_u32 ((if neg then - n else n) * sg)). f_equal. unfold u32.
    rewrite Z.mul_mod by done. fold (u32 (fold_left (λ r c, s32 (r * 10 + (c - 48))) (reverse (Z.add 48 <$> ds)) 0)).
    rewrite <-u32_s32, (wrapped_fold _ 0 0 eq_refl), u32_s32, Hnum. unfold u32. by rewrite <-Z.mul_mod. }
  unfold atoi. destruct neg; cbn [app].
  - rewrite Hw. rewrite s32_small; lia.
  - destruct (reverse (Z.add 48 <$> ds)) as [|c l] eqn:El.
    + apply (f_equal length) in El. rewrite length_reverse, length_fmap in El. cbn in El. lia.
    + assert (48 ≤ c) as Hc.
      { assert (c ∈ Z.add 48 <$> ds) as Hin by (apply elem_of_reverse; rewrite El; left).
        apply list_elem_of_fmap in Hin as (d & -> & Hd). rewrite Forall_forall in Hds. specialize (Hds d Hd). lia. }
      assert (match c :: l with 45 :: str' => (-1, str') | _ => (1, c :: l) end = (1, c :: l)) as ->.
      { destruct c as [|c|c]; try lia. do 6 (destruct c as [c|c|]; try done). }
      rewrite Hw, Z.mul_1_r. by apply s32_small.
Qed.

Lemma layout_plain sg ds : layout sg [] ds false false (-1) (-1) = sg ++ ds.
Proof.
  unfold layout, spaces, zeros. cbn [length app Nat.add]. rewrite !Z2Nat.nonpos by lia. done.
Qed.

(** A byte in decimal. *)
Lemma byte_text b small : 0 ≤ b < 256 → has small LEFT = false → has small ZEROPAD = false → has small SIGN = false →
  has small PLUS = false → has small SPACE = false → has small SPECIAL = false → ∃ ds,
  number (Word b) 10 (-1) (-1) small = Ok (reverse (Z.add 48 <$> ds)) ∧
  Addr.digits (reverse (Z.add 48 <$> ds)) ∧ Addr.number (reverse (Z.add 48 <$> ds)) = b ∧ (length ds ≤ 32)%nat.
Proof.
  intros Hb HL HZ HS HP HSp HSc. destruct (number_text b 10 (-1) (-1) small) as (ds & [Hv Hr _] & Hl & E); [lia|lia|].
  exists ds. rewrite E. unfold negative, sign_of, prefix_of in *. rewrite HL, HZ, HS, HP, HSp, HSc in *. cbn [andb] in *.
  rewrite layout_plain. cbn [app]. rewrite fmap_reverse. split; [|split; [apply digits_ok; [done|lia]|split; [by rewrite number_value|lia]]].
  do 2 f_equal. apply list_fmap_ext. intros i d Hi. rewrite Forall_forall in Hr.
  apply digit_small, Hr. by eapply list_elem_of_lookup_2.
Qed.

(** The text of an unsigned number in decimal. *)
Lemma unsigned_text n : 0 ≤ n < 2 ^ 32 → ∃ ds, number (Word n) 10 (-1) (-1) 0 = Ok (reverse (Z.add 48 <$> ds)) ∧
  Forall (λ d, 0 ≤ d < 10) ds ∧ value 10 ds = n ∧ (0 < length ds ≤ 32)%nat.
Proof.
  intros Hn. destruct (number_text n 10 (-1) (-1) 0) as (ds & [Hv Hr _] & Hl & E); [lia|lia|].
  exists ds. rewrite E. change (negative n 0) with false in *. change (sign_of false 0) with (@nil Z).
  change (prefix_of 10 0) with (@nil Z). change (has 0 LEFT) with false. change (has 0 ZEROPAD) with false.
  rewrite layout_plain. cbn [app]. split; [|split; [done|split; [done|lia]]]. do 2 f_equal.
  rewrite fmap_reverse. f_equal. apply list_fmap_ext. intros i d Hi. rewrite Forall_forall in Hr.
  apply digit_small, Hr. by eapply list_elem_of_lookup_2.
Qed.

(** C33: what is printed is read back.  [%d] in a plain text gives, between the text,
    characters that [atoi] turns into the number, whatever [int] it is; [%u] gives the
    decimal digits of the unsigned number, which [atoi] turns into the number when
    it is below 2^31; [%r] gives characters that [inet_aton] turns into the four
    bytes of the address. *)
Theorem print_parse (pre post : list Z) (Hpre : plain pre) (Hpost : plain post)
    (Hlen : Z.of_nat (length pre + length post) < 890) :
  (∀ n, -2 ^ 31 ≤ n < 2 ^ 31 → ∃ t,
     sprintf (pre ++ 37 :: 100 :: post) [Word (u32 n)] = Ok (Z.of_nat (length (pre ++ t ++ post)), pre ++ t ++ post, []) ∧
     atoi t = n) ∧
  (∀ n, 0 ≤ n < 2 ^ 32 → ∃ t,
     sprintf (pre ++ 37 :: 117 :: post) [Word n] = Ok (Z.of_nat (length (pre ++ t ++ post)), pre ++ t ++ post, []) ∧
     Addr.digits t ∧ Addr.number t = n ∧ (n < 2 ^ 31 → atoi t = n)) ∧
  (∀ b1 b2 b3 b4, Forall (λ b, 0 ≤ b < 256) [b1; b2; b3; b4] → ∃ t,
     sprintf (pre ++ 37 :: 114 :: post) [Bytes [b1; b2; b3; b4]] =
       Ok (Z.of_nat (length (pre ++ t ++ post)), pre ++ t ++ post, []) ∧
     ∀ stack addr, length stack = 4%nat → Addr.inet_aton (t ++ [0]) stack addr = Ok (EOK, [b1; b2; b3; b4])).
Proof.
  split; [|split].
  - intros n Hn. change (-2 ^ 31) with (-2147483648) in *. change (2 ^ 31) with 2147483648 in *.
    destruct (number_text (u32 n) 10 (-1) (-1) (Z.lor 0 SIGN)) as (ds & [Hv Hr _] & Hl & E); [apply u32_range|lia|].
    assert (negative (u32 n) (Z.lor 0 SIGN) = (n <? 0)) as Hneg by (unfold negative; by rewrite s32_u32, s32_small by lia).
    rewrite Hneg in *. exists (sign_of (n <? 0) (Z.lor 0 SIGN) ++ reverse (Z.add 48 <$> ds)).
    assert ((digit (has (Z.lor 0 SIGN) SMALL) <$> reverse ds) = reverse (Z.add 48 <$> ds)) as Ed.
    { rewrite fmap_reverse. f_equal. apply list_fmap_ext. intros i d Hi. rewrite Forall_forall in Hr.
      apply digit_small, Hr. by eapply list_elem_of_lookup_2. }
    split.
    + apply vsprintf_one; try done.
      * unfold convert, one_number, va_word. cbn -[number]. by rewrite E, layout_plain, Ed.
      * assert (length (sign_of (n <? 0)%Z (Z.lor 0 SIGN)) ≤ 1)%nat by (unfold sign_of; destruct (n <? 0); [cbn; lia|by vm_compute; lia]).
        rewrite !length_app, length_reverse, length_fmap. lia.
    + destruct (Z.ltb_spec n 0); [apply (atoi_text true ds)|apply (atoi_text false ds)]; try done; try lia.
      * by rewrite s32_u32, s32_small in Hv by lia.
      * by rewrite u32_small in Hv by lia.
  - intros n Hn. change (2 ^ 32) with 4294967296 in Hn. destruct (unsigned_text n) as (ds & E & Hds & Hv & Hl); [done|].
    exists (reverse (Z.add 48 <$> ds)). split; [|split; [|split]].
    + apply vsprintf_one; try done.
      * unfold convert, one_number, va_word. cbn -[number]. by rewrite E.
      * rewrite !length_app, length_reverse, length_fmap. lia.
    + apply digits_ok; [done|lia].
    + by rewrite number_value.
    + intros Hn2. change (2 ^ 31) with 2147483648 in Hn2.
      apply (atoi_text false ds n); [done|lia|change (2 ^ 31) with 2147483648; lia|done].
  - intros b1 b2 b3 b4 Hb. apply Forall_cons in Hb as [H1 Hb]. apply Forall_cons in Hb as [H2 Hb].
    apply Forall_cons in Hb as [H3 Hb]. apply Forall_cons in Hb as [H4 _].
    destruct (byte_text b1 (Z.lor 0 SMALL)) as (d1 & E1 & D1 & N1 & L1); [done..|].
    destruct (byte_text b2 (Z.lor 0 SMALL)) as (d2 & E2 & D2 & N2 & L2); [done..|].
    destruct (byte_text b3 (Z.lor 0 SMALL)) as (d3 & E3 & D3 & N3 & L3); [done..|].
    destruct (byte_text b4 (Z.lor 0 SMALL)) as (d4 & E4 & D4 & N4 & L4); [done..|].
    set (t := reverse (Z.add 48 <$> d1) ++ 46 :: reverse (Z.add 48 <$> d2) ++ 46 :: reverse (Z.add 48 <$> d3) ++ 46 ::
      reverse (Z.add 48 <$> d4)).
    exists t. split.
    + apply vsprintf_one; try done.
      * unfold convert. cbn -[number removelast t]. rewrite E1, E2, E3, E4. cbn [res_bind].
        do 4 f_equal. assert (∀ l (x : Z), removelast (l ++ [x]) = l) as Hrl by (intros l x; apply removelast_last).
        rewrite <-(Hrl t 46). f_equal. unfold t. repeat (rewrite <-app_assoc; cbn [app]). done.
      * unfold t. repeat (rewrite length_app || cbn [length]). rewrite !length_reverse, !length_fmap. lia.
    + intros stack addr Hst. unfold t. rewrite <-!app_assoc. cbn [app].
      pose proof (Addr.inet_aton_ok _ _ _ _ [] stack addr 0 Hst (or_intror eq_refl) D1 D2 D3 D4) as Hok.
      rewrite N1, N2, N3, N4 in Hok. destruct Hok as [Hok _]; [lia..|]. rewrite (proj2 (Z.leb_le b4 255)) in Hok by lia.
      rewrite <-Hok. f_equal. by repeat (rewrite <-app_assoc; cbn [app]).
Qed.

(** "eth%d" and a number, then the number read. *)
Lemma print_parse_witness : ∃ t,
  sprintf [101; 116; 104; 37; 100] [Word (u32 (-7))] = Ok (5, [101; 116; 104] ++ t, []) ∧ atoi t = -7.
Proof.
  destruct (print_parse [101; 116; 104] []) as [H _]; [by repeat constructor|by constructor|done|].
  destruct (H (-7)) as (t & Ht & Ha); [lia|]. exists t. rewrite app_nil_r in Ht. split; [|done].
  assert (t = [45; 55]) as ->; [|exact Ht].
  assert (sprintf ([101; 116; 104] ++ 37 :: [100]) [Word (u32 (-7))] = Ok (5, [101; 116; 104; 45; 55], [])) as E by (vm_compute; reflexivity).
  rewrite E in Ht. by injection Ht as _ <-.
Defined.

(** [number] prints the number in the reference layout: the sign or its place,
    the prefix, at least as many digits as the precision asks, filled on the side
    and with the character that the flags ask up to the width, which a longer
    number exceeds; without leading zeros the digits denote the absolute value. *)
Theorem number_layout (n base size precision flags : Z) (Hn : 0 ≤ n < 2 ^ 32) (Hb : 2 ≤ base ≤ 36) :
  ∃ ds, numeral base (if negative n flags then - s32 n else n) (reverse ds) ∧
    let t := layout (sign_of (negative n flags) flags) (prefix_of base flags) (digit (has flags SMALL) <$> ds)
               (has flags LEFT) (has flags ZEROPAD) size precision in
    number (Word n) base size precision flags = Ok t ∧
    Z.of_nat (length t) = Z.max size
      (Z.of_nat (length (sign_of (negative n flags) flags) + length (prefix_of base flags)) + Z.max precision (Z.of_nat (length ds))) ∧
    (length ds ≤ 32)%nat.
Proof.
  destruct (number_text n base size precision flags Hn Hb) as (ds & Hds & Hl & E). exists (reverse ds).
  rewrite reverse_involutive. split; [done|]. cbv zeta. split; [done|]. rewrite length_layout, !length_fmap, !length_reverse.
  split; [done|lia].
Qed.

(** "%#06x" of 255 *)
Lemma number_layout_witness : ∃ ds, numeral 16 255 (reverse ds) ∧
  number (Word 255) 16 6 (-1) (Z.lor SPECIAL (Z.lor ZEROPAD SMALL)) =
    Ok (layout [] [48; 120] (digit true <$> ds) false true 6 (-1)).
Proof.
  destruct (number_layout 255 16 6 (-1) (Z.lor SPECIAL (Z.lor ZEROPAD SMALL))) as (ds & Hnu & Ht & _); [lia|lia|].
  exists ds. split; [exact Hnu|exact Ht].
Defined.
