(* ===== verification/Time.v ===== *)
(** * The calendar ([src/src/kernel/time.c], [bcd_to_bin] of [src/src/lib/stdlib.c])

    [time_t] is a [u32], every other variable an [int]; C divides towards zero.
    [month] is indexed from 1.  The clock chip is the stream of the answers of
    [cmos_read]. *)
From S2P Require Import Prelude.
Open Scope Z_scope.

Record tm := mk_tm {
  tm_sec : Z; tm_min : Z; tm_hour : Z; tm_mday : Z; tm_mon : Z; tm_year : Z; tm_wday : Z; tm_yday : Z; tm_isdst : Z }.
#[export] Instance expand_tm : Expand tm := λ t,
  mk_tm (tm_sec t) (tm_min t) (tm_hour t) (tm_mday t) (tm_mon t) (tm_year t) (tm_wday t) (tm_yday t) (tm_isdst t).

Definition MINUTE : Z := 60.
Definition HOUR : Z := 60 * MINUTE.
Definition DAY : Z := 24 * HOUR.
Definition YEAR : Z := 365 * DAY.

Definition month : list Z := [0; 0; 31; 60; 91; 121; 152; 182; 213; 244; 274; 305; 335].
Definition month_at (i : Z) : res Z := if 0 <=? i then deref (month !! Z.to_nat i) else Stop Fault.

Definition elapsed_leap_years (year : Z) : Z :=
  s32 (Z.quot (year - 1) 4 - Z.quot (year - 1) 100 + Z.quot (year + 299) 400 - Z.quot (1970 - 1900) 4).

Definition is_leap_year (year : Z) : bool :=
  (Z.rem year 4 =? 0) && negb (Z.rem year 100 =? 0) || (Z.rem (year + 1900) 400 =? 0).

(** [for (; mon < 13; mon++)] *)
Fixpoint month_loop (n : nat) (mon offset yday : Z) : res Z :=
  match n with
  | O => Ok mon
  | S n' => let! m := month_at mon in if yday <? m - offset then Ok mon else month_loop n' (mon + 1) offset yday
  end.

(** [tm_isdst] keeps its value. *)
Definition localtime (stamp : Z) (time : tm) : res tm :=
  let remain := stamp / 60 in
  let hours := remain / 60 in
  let days := hours / 24 in
  let years := days / 365 + 70 in
  let offset := if is_leap_year years then 0 else 1 in
  let yday := s32 (u32 (days - elapsed_leap_years years) `mod` (366 - offset)) in
  let! mon := month_loop 12 1 offset yday in
  let! m := month_at (mon - 1) in
  Ok (mk_tm (stamp `mod` 60) (remain `mod` 60) (hours `mod` 24) (yday - m + offset + 1) (mon - 1) years
        ((days + 4) `mod` 7) yday (tm_isdst time)).

(** The year counted from 1970, of a year counted from 1900 or of its last two digits. *)
Definition since_1970 (t : tm) : Z := if 70 <=? tm_year t then s32 (tm_year t - 70) else s32 (tm_year t - 70 + 100).

Definition mktime (t : tm) : res Z :=
  let year := since_1970 t in
  let res := u32 (s32 (YEAR * year)) in
  let res := u32 (res + s32 (DAY * Z.quot (year + 1) 4)) in
  let! m := month_at (tm_mon t) in
  let res := u32 (res + s32 (m * DAY)) in
  let res := if (2 <? tm_mon t) && negb (Z.rem (year + 2) 4 =? 0) then u32 (res - DAY) else res in
  let res := u32 (res + s32 (DAY * (tm_mday t - 1))) in
  let res := u32 (res + s32 (HOUR * tm_hour t)) in
  let res := u32 (res + s32 (MINUTE * tm_min t)) in
  Ok (u32 (res + tm_sec t)).

Definition get_yday (t : tm) : res Z :=
  let! m := month_at (tm_mon t) in
  let res := s32 (m + tm_mday t) in
  let year := since_1970 t in
  Ok (if negb (Z.rem (year + 2) 4 =? 0) && (2 <? tm_mon t) then res - 1 else res).

Definition bcd_to_bin (value : Z) : Z := u8 (Z.land value 0xf + Z.shiftr value 4 * 10).
Definition bin_to_bcd (value : Z) : Z := u8 (value / 10 * 0x10 + value `mod` 10).

(** ** The clock chip *)
Definition CMOS_SECOND : Z := 0x00.
Definition CMOS_MINUTE : Z := 0x02.
Definition CMOS_HOUR : Z := 0x04.
Definition CMOS_WEEKDAY : Z := 0x06.
Definition CMOS_DAY : Z := 0x07.
Definition CMOS_MONTH : Z := 0x08.
Definition CMOS_YEAR : Z := 0x09.
Definition CMOS_CENTURY : Z := 0x32.

Section chip.
(** The answer of the read number [n]. *)
Context (cmos_read : nat → Z → Z).

(** The value of [time], [century] and the number of reads that were made. *)
Fixpoint time_read_bcd (fuel n : nat) (time : tm) : res (tm * Z * nat) :=
  match fuel with
  | O => Stop Fuel
  | S fuel' =>
      let time := mk_tm (cmos_read n CMOS_SECOND) (cmos_read (n + 1)%nat CMOS_MINUTE) (cmos_read (n + 2)%nat CMOS_HOUR)
                    (cmos_read (n + 4)%nat CMOS_DAY) (cmos_read (n + 5)%nat CMOS_MONTH) (cmos_read (n + 6)%nat CMOS_YEAR)
                    (cmos_read (n + 3)%nat CMOS_WEEKDAY) (tm_yday time) (tm_isdst time) in
      let century := cmos_read (n + 7)%nat CMOS_CENTURY in
      if negb (tm_sec time =? cmos_read (n + 8)%nat CMOS_SECOND) then time_read_bcd fuel' (n + 9)%nat time
      else Ok (time, century, (n + 9)%nat)
  end.

Definition time_read (fuel n : nat) (time : tm) : res (tm * Z * nat) :=
  let! (t, century, n) := time_read_bcd fuel n time in
  let t := mk_tm (bcd_to_bin (tm_sec t)) (bcd_to_bin (tm_min t)) (bcd_to_bin (tm_hour t)) (bcd_to_bin (tm_mday t))
             (bcd_to_bin (tm_mon t)) (bcd_to_bin (tm_year t)) (bcd_to_bin (tm_wday t)) (tm_yday t) (tm_isdst t) in
  let! yday := get_yday t in
  Ok (t <| tm_yday := yday |> <| tm_isdst := -1 |>, bcd_to_bin century, n).

(** The value is [startup_time]. *)
Definition time_init (fuel n : nat) (garbage : tm) : res Z :=
  let! (t, _, _) := time_read fuel n garbage in mktime t.
End chip.

(** ** The Gregorian calendar *)
Definition leap (y : Z) : bool := (y `mod` 4 =? 0) && negb (y `mod` 100 =? 0) || (y `mod` 400 =? 0).
Definition month_length (y m : Z) : Z :=
  if m =? 2 then if leap y then 29 else 28 else if (m =? 4) || (m =? 6) || (m =? 9) || (m =? 11) then 30 else 31.

(** Days from the first of January 1970 to the day [d] of the month [m] of the year [y]. *)
Definition leap_days (y : Z) : Z := zsum (λ k, if leap k then 1 else 0) (seqZ 1970 (y - 1970)).
Definition day_of_year (y m d : Z) : Z := zsum (month_length y) (seqZ 1 (m - 1)) + d - 1.
Definition epoch_day (y m d : Z) : Z := 365 * (y - 1970) + leap_days y + day_of_year y m d.

(** A day of the hundred years whose last two digits are unambiguous. *)
Definition date (y m d : Z) : Prop := 1970 ≤ y < 2070 ∧ 1 ≤ m ≤ 12 ∧ 1 ≤ d ≤ month_length y m.

(** What the code does with a year. *)
Definition year_ok (y : Z) : bool :=
  (leap_days y =? (y - 1969) / 4) && Bool.eqb (leap y) ((y - 1968) `mod` 4 =? 0) &&
  (elapsed_leap_years (y - 1900) =? (y - 1969) / 4) && Bool.eqb (is_leap_year (y - 1900)) (leap y).

Lemma years y : 1970 ≤ y ≤ 2070 → leap_days y = (y - 1969) / 4 ∧ leap y = ((y - 1968) `mod` 4 =? 0) ∧
  elapsed_leap_years (y - 1900) = leap_days y ∧ is_leap_year (y - 1900) = leap y.
Proof.
  intros Hy. assert (forallb year_ok (seqZ 1970 101) = true) as H by by vm_compute. rewrite forallb_forall in H.
  specialize (H y). rewrite <-list_elem_of_In, elem_of_seqZ in H. specialize (H ltac:(lia)). unfold year_ok in H.
  rewrite !andb_true_iff, !Z.eqb_eq in H. destruct H as [[[H1 H2] H3] H4]. apply eqb_prop in H2, H4. repeat split; congruence.
Qed.

Lemma months m : 1 ≤ m ≤ 12 → m ∈ [1; 2; 3; 4; 5; 6; 7; 8; 9; 10; 11; 12].
Proof. intros. rewrite !elem_of_cons. lia. Qed.

(** The table is that of a leap year. *)
Lemma table y m d : 1 ≤ m ≤ 12 → ∃ k, month_at m = Ok k ∧ (if negb (leap y) && (2 <? m) then 1 else 0) ≤ k ≤ 335 ∧
  day_of_year y m d = k + d - 1 - (if negb (leap y) && (2 <? m) then 1 else 0).
Proof.
  intros Hm. apply months in Hm. unfold day_of_year, month_length. repeat (apply elem_of_cons in Hm as [->|Hm]); [..|by apply elem_of_nil in Hm].
  all: eexists; (split; [reflexivity|]); destruct (leap y); (split; [done|]);
    repeat match goal with
    | |- context [zsum ?f ?l] => let v := eval vm_compute in (zsum f l) in change (zsum f l) with v
    | |- context [if ?b then 1 else 0] => let v := eval vm_compute in (if b then 1 else 0) in change (if b then 1 else 0) with v
    end; lia.
Qed.

Lemma month_length_range y m : 28 ≤ month_length y m ≤ 31.
Proof. unfold month_length. repeat case_match; lia. Qed.

(** ** [mktime] *)
Lemma mktime_split t : 1 ≤ tm_mday t ≤ 31 → 0 ≤ tm_hour t < 24 → 0 ≤ tm_min t < 60 →
  mktime t = let! b := mktime (mk_tm 0 0 0 1 (tm_mon t) (tm_year t) 0 0 0) in
             Ok (u32 (b + (DAY * (tm_mday t - 1) + HOUR * tm_hour t + MINUTE * tm_min t + tm_sec t))).
Proof.
  intros Hd Hh Hm. unfold mktime, since_1970. cbn [tm_mon tm_year tm_mday tm_hour tm_min tm_sec].
  destruct (month_at (tm_mon t)) as [m|]; [|done]. cbn [res_bind]. f_equal.
  rewrite (s32_small (DAY * (tm_mday t - 1))), (s32_small (HOUR * tm_hour t)), (s32_small (MINUTE * tm_min t))
    by (unfold DAY, HOUR, MINUTE; lia).
  set (x := if _ && _ then _ else _). change (s32 (DAY * (1 - 1))) with 0. change (s32 (HOUR * 0)) with 0. change (s32 (MINUTE * 0)) with 0.
  rewrite !Z.add_0_r, !u32_idemp. repeat (rewrite u32_add_l, <-?Z.add_assoc). done.
Qed.

Lemma mktime_first y m ye : 1970 ≤ y < 2070 → 1 ≤ m ≤ 12 → ye = y - 1900 ∨ ye = y `mod` 100 →
  mktime (mk_tm 0 0 0 1 m ye 0 0 0) = Ok (u32 (86400 * epoch_day y m 1)).
Proof.
  intros Hy Hm Hye. unfold mktime, since_1970. cbn [tm_mon tm_year tm_mday tm_hour tm_min tm_sec].
  assert ((if 70 <=? ye then s32 (ye - 70) else s32 (ye - 70 + 100)) = y - 1970) as ->.
  { destruct (Z.leb_spec 70 ye); rewrite s32_small; destruct Hye as [-> | ->]; Z.div_mod_to_equations; lia. }
  destruct (table y m 1 Hm) as (k & -> & Hk & Hd). cbn [res_bind]. f_equal. assert (0 ≤ k) by (case_match; lia).
  destruct (years y ltac:(lia)) as (Hl & Hleap & _). unfold epoch_day. rewrite Hd, Hl, Hleap.
  rewrite Z.quot_div_nonneg, Z.rem_mod_nonneg by lia. replace (y - 1970 + 2) with (y - 1968) by lia. replace (y - 1970 + 1) with (y - 1969) by lia.
  change (s32 (DAY * (1 - 1))) with 0. change (s32 (HOUR * 0)) with 0. change (s32 (MINUTE * 0)) with 0.
  rewrite !Z.add_0_r, !u32_idemp, u32_s32, (s32_small (DAY * _)), (s32_small (k * DAY))
    by (unfold DAY, HOUR, MINUTE; Z.div_mod_to_equations; lia).
  rewrite (andb_comm (2 <? m)). 
  destruct (negb ((y - 1968) `mod` 4 =? 0) && (2 <? m)); unfold YEAR, DAY, HOUR, MINUTE;
    repeat (rewrite ?u32_sub_l, ?u32_add_l, <-?Z.add_assoc, <-?Z.add_sub_assoc); rewrite ?u32_idemp; f_equal; lia.
Qed.

Lemma epoch_day_range y m d : date y m d → 0 ≤ epoch_day y m d ≤ 36600.
Proof.
  intros (Hy & Hm & Hd). destruct (years y ltac:(lia)) as (Hl & _). destruct (table y m d Hm) as (k & _ & Hk & Hdoy).
  pose proof (month_length_range y m). unfold epoch_day. rewrite Hl.
  case_match; Z.div_mod_to_equations; lia.
Qed.

(** C34: [mktime] is the Gregorian calendar: for every second from 1970 to 2069 it gives the
    number of seconds since the first of January 1970, whether the year is counted from 1900
    or is what the clock chip keeps of it, its last two digits. *)
Theorem mktime_exact y m d t (Hdate : date y m d)
    (Hy : tm_year t = y - 1900 ∨ tm_year t = y `mod` 100) (Hm : tm_mon t = m) (Hd : tm_mday t = d)
    (Hh : 0 ≤ tm_hour t < 24) (Hmin : 0 ≤ tm_min t < 60) (Hs : 0 ≤ tm_sec t < 60) :
  mktime t = Ok (86400 * epoch_day y m d + 3600 * tm_hour t + 60 * tm_min t + tm_sec t).
Proof.
  pose proof (epoch_day_range y m d Hdate) as Hr. destruct Hdate as (Hy1 & Hm1 & Hd1). pose proof (month_length_range y m).
  rewrite mktime_split by lia. rewrite Hm, Hd, (mktime_first y m) by done. cbn [res_bind]. f_equal.
  assert (epoch_day y m d = epoch_day y m 1 + (d - 1)) as E by (unfold epoch_day, day_of_year; lia). rewrite E in *.
  rewrite u32_add_l. unfold DAY, HOUR, MINUTE. rewrite u32_small by lia. lia.
Qed.

(** The 29th of February 2024, 12:34:56, with the year as the chip gives it. *)
Lemma mktime_exact_witness : mktime (mk_tm 56 34 12 29 2 24 0 0 0) = Ok 1709210096.
Proof.
  rewrite (mktime_exact 2024 2 29); [by vm_compute| |by right|done|done|done..].
  by apply (bool_decide_unpack _); vm_compute.
Defined.

(** ** [localtime] *)
Definition is_day (y m d : Z) (t : tm) : bool := (tm_year t =? y - 1900) && (tm_mon t =? m) && (tm_mday t =? d).

Lemma localtime_split D sec t : 0 ≤ sec < 86400 →
  localtime (86400 * D + sec) t = let! r := localtime (86400 * D) t in
    Ok (r <| tm_sec := sec `mod` 60 |> <| tm_min := (sec / 60) `mod` 60 |> <| tm_hour := sec / 3600 |>).
Proof.
  intros Hs. unfold localtime.
  assert ((86400 * D + sec) / 60 / 60 / 24 = D) as -> by (Z.div_mod_to_equations; lia).
  assert (86400 * D / 60 / 60 / 24 = D) as -> by (Z.div_mod_to_equations; lia).
  assert ((86400 * D + sec) `mod` 60 = sec `mod` 60) as -> by (Z.div_mod_to_equations; lia).
  assert (((86400 * D + sec) / 60) `mod` 60 = (sec / 60) `mod` 60) as -> by (Z.div_mod_to_equations; lia).
  assert (((86400 * D + sec) / 60 / 60) `mod` 24 = sec / 3600) as -> by (Z.div_mod_to_equations; lia).
  destruct (month_loop _ _ _ _) as [mon|]; [|done]. cbn [res_bind]. by destruct (month_at (mon - 1)).
Qed.

(** The months of a year of 365 and of 366 days as the loop finds them. *)
Definition found (offset n : Z) : bool :=
  match month_loop 12 1 offset n with
  | Ok mon => match month_at (mon - 1) with
              | Ok k => (1 <=? mon - 1) && (mon - 1 <=? 12) && (k - offset <=? n) &&
                        match month_at mon with Ok k' => n <? k' - offset | Stop _ => mon =? 13 end
              | Stop _ => false
              end
  | Stop _ => false
  end.

Lemma found_all offset n : offset = 0 ∨ offset = 1 → 0 ≤ n < 366 → found offset n = true.
Proof.
  intros Ho Hn. assert (forallb (λ o, forallb (found o) (seqZ 0 366)) [0; 1] = true) as H by by vm_compute.
  cbn [forallb] in H. rewrite !andb_true_iff, !forallb_forall in H. destruct H as (H0 & H1 & _).
  destruct Ho as [-> | ->]; [apply H0|apply H1]; apply list_elem_of_In, elem_of_seqZ; lia.
Qed.

(** The month that the loop finds. *)
Lemma month_loop_spec offset n : offset = 0 ∨ offset = 1 → 0 ≤ n < 366 → ∃ mon k, month_loop 12 1 offset n = Ok (mon + 1) ∧
  month_at mon = Ok k ∧ 1 ≤ mon ≤ 12 ∧ k - offset ≤ n ∧ ∀ k', month_at (mon + 1) = Ok k' → n < k' - offset.
Proof.
  intros Ho Hn. pose proof (found_all offset n Ho Hn) as H. unfold found in H.
  destruct (month_loop 12 1 offset n) as [mon|]; [|done]. destruct (month_at (mon - 1)) as [k|] eqn:Ek; [|done].
  rewrite !andb_true_iff, !Z.leb_le in H. destruct H as [[[H1 H2] H3] H4].
  exists (mon - 1), k. replace (mon - 1 + 1) with mon by lia. split; [done|]. split; [done|]. split; [lia|]. split; [done|].
  intros k' Hk'. rewrite Hk' in H4. by apply Z.ltb_lt.
Qed.

(** The table grows. *)
Lemma table_grows m m' k k' : 1 ≤ m < m' → m' ≤ 12 → month_at m = Ok k → month_at m' = Ok k' →
  ∃ k2, month_at (m + 1) = Ok k2 ∧ k2 ≤ k'.
Proof.
  intros Hm Hm'. assert (forallb (λ m, forallb (λ m', match month_at m, month_at m', month_at (m + 1) with
      | Ok k, Ok k', Ok k2 => negb (m <? m') || (k2 <=? k') | _, _, _ => 12 <=? m end) (seqZ 1 12)) (seqZ 1 12) = true) as H by by vm_compute.
  intros Hk Hk'. rewrite forallb_forall in H. specialize (H m). rewrite <-list_elem_of_In, elem_of_seqZ, forallb_forall in H.
  specialize (H ltac:(lia) m'). rewrite <-list_elem_of_In, elem_of_seqZ in H. specialize (H ltac:(lia)). rewrite Hk, Hk' in H.
  destruct (month_at (m + 1)) as [k2|]; [|apply Z.leb_le in H; lia]. exists k2. split; [done|].
  apply orb_true_iff in H as [H|H]; [apply negb_true_iff, Z.ltb_ge in H; lia|by apply Z.leb_le].
Qed.

(** What [localtime] makes of the day [D], when the year it takes is [y]. *)
Lemma localtime_day y D t n : 0 ≤ D < 2 ^ 24 → D / 365 + 70 = y - 1900 → 1970 ≤ y ≤ 2070 →
  n = u32 (D - leap_days y) `mod` (366 - (if leap y then 0 else 1)) →
  ∃ r k, localtime (86400 * D) t = Ok r ∧ tm_year r = y - 1900 ∧ tm_wday r = (D + 4) `mod` 7 ∧ 1 ≤ tm_mon r ≤ 12 ∧ month_at (tm_mon r) = Ok k ∧
    tm_mday r = n - k + (if leap y then 0 else 1) + 1 ∧ k - (if leap y then 0 else 1) ≤ n ∧
    ∀ k', month_at (tm_mon r + 1) = Ok k' → n < k' - (if leap y then 0 else 1).
Proof.
  intros HD Hyear Hy Hn. destruct (years y Hy) as (_ & _ & He & Hi). unfold localtime.
  assert (86400 * D / 60 / 60 / 24 = D) as -> by (Z.div_mod_to_equations; lia). rewrite Hyear, He, Hi.
  set (offset := if leap y then 0 else 1) in *. assert (offset = 0 ∨ offset = 1) as Ho by (unfold offset; case_match; auto).
  rewrite <-Hn. assert (0 ≤ n < 366) as Hn' by (pose proof (Z.mod_pos_bound (u32 (D - leap_days y)) (366 - offset)); lia).
  rewrite s32_small by lia. destruct (month_loop_spec offset n Ho Hn') as (mon & k & -> & Hk & Hmon & Hle & Hlt). cbn [res_bind].
  replace (mon + 1 - 1) with mon by lia. rewrite Hk. cbn [res_bind]. eexists _, k. split; [done|]. cbn. by rewrite Hk.
Qed.

Lemma day_of_next_month y m : 1 ≤ m → day_of_year y (m + 1) 1 = day_of_year y m 1 + month_length y m.
Proof.
  intros Hm. unfold day_of_year. replace (m + 1 - 1) with ((m - 1) + 1) by lia. rewrite seqZ_app, zsum_app by lia.
  change (seqZ (1 + (m - 1)) 1) with [1 + (m - 1)]. cbn [zsum]. replace (1 + (m - 1)) with m by lia. lia.
Qed.

(** The month of a day of a year of 365 days, from March on. *)
Lemma month_found y m d mon k : leap y = false → 3 ≤ m ≤ 12 → 1 ≤ d ≤ month_length y m → 1 ≤ mon ≤ 12 → month_at mon = Ok k →
  k - 1 ≤ day_of_year y m d → (∀ k', month_at (mon + 1) = Ok k' → day_of_year y m d < k' - 1) → mon = m.
Proof.
  intros Hleap Hm Hd Hmon Hk Hle Hlt. destruct (table y m d ltac:(lia)) as (k0 & Hk0 & _ & Hdoy).
  destruct (table y m 1 ltac:(lia)) as (? & Hk0' & _ & Hfirst). rewrite Hk0 in Hk0'. injection Hk0' as <-. rewrite Hleap in *. cbn [negb andb] in *.
  rewrite (proj2 (Z.ltb_lt 2 m)) in * by lia. destruct (Z.lt_trichotomy mon m) as [Hc|[Hc|Hc]]; [|done|].
  - destruct (table_grows mon m k k0) as (k2 & Hk2 & Hk2'); [lia..|done|done|]. specialize (Hlt k2 Hk2). lia.
  - destruct (table_grows m mon k0 k) as (k2 & Hk2 & Hk2'); [lia..|done|done|].
    destruct (table y (m + 1) 1 ltac:(lia)) as (? & Hk3 & _ & Hnext). rewrite Hk2 in Hk3. injection Hk3 as <-.
    rewrite Hleap, (proj2 (Z.ltb_lt 2 (m + 1))) in Hnext by lia. cbn [negb andb] in Hnext.
    rewrite day_of_next_month in Hnext by lia. lia.
Qed.

(** C35: when [localtime] is right.  For every second from 1970 to 2069 it returns a time with
    the right hour, minute, second and day of the week; the year, the month and the day are
    right exactly in the months from March on of the years that are not leap years, less as
    many days at the end of the year as there were leap days since 1970. *)
Theorem localtime_right_iff y m d sec t (Hdate : date y m d) (Hs : 0 ≤ sec < 86400) :
  ∃ r, localtime (86400 * epoch_day y m d + sec) t = Ok r ∧
    tm_hour r = sec / 3600 ∧ tm_min r = (sec / 60) `mod` 60 ∧ tm_sec r = sec `mod` 60 ∧ tm_wday r = (epoch_day y m d + 4) `mod` 7 ∧
    (tm_year r = y - 1900 ∧ tm_mon r = m ∧ tm_mday r = d ↔ leap y = false ∧ 3 ≤ m ∧ leap_days y + day_of_year y m d < 365).
Proof.
  pose proof (epoch_day_range y m d Hdate) as Hr. destruct Hdate as (Hy & Hm & Hd). pose proof (month_length_range y m) as Hlen.
  destruct (table y m d Hm) as (k0 & Hk0 & Hk0' & Hdoy). destruct (years y ltac:(lia)) as (Hl & Hleap & _).
  assert (epoch_day y m d = 365 * (y - 1970) + leap_days y + day_of_year y m d) as HD by done.
  set (D := epoch_day y m d) in *. set (doy := day_of_year y m d) in *.
  assert (0 ≤ doy) by (rewrite Hdoy; lia). assert (0 ≤ leap_days y) by (rewrite Hl; Z.div_mod_to_equations; lia).
  destruct (localtime_day (D / 365 + 1970) D t _ ltac:(lia) ltac:(lia) ltac:(Z.div_mod_to_equations; lia) eq_refl)
    as (r & k & Hr1 & Hry & Hrw & Hrm & Hk & Hrd & Hle & Hlt).
  rewrite localtime_split, Hr1 by done. cbn [res_bind]. eexists. split; [done|]. do 3 (split; [done|]). split; [done|].
  change (tm_year r = y - 1900 ∧ tm_mon r = m ∧ tm_mday r = d ↔ leap y = false ∧ 3 ≤ m ∧ leap_days y + doy < 365).
  assert (D / 365 + 1970 = y ↔ leap_days y + doy < 365) as Hyear by (Z.div_mod_to_equations; lia).
  split.
  - intros (E1 & E2 & E3). assert (D / 365 + 1970 = y) as Ey by lia. pose proof (proj1 Hyear Ey) as Hlt365. rewrite Ey in *.
    rewrite E2, Hk0 in Hk. injection Hk as <-. replace (D - leap_days y) with (365 * (y - 1970) + doy) in * by lia.
    rewrite u32_small in * by lia. destruct (leap y); cbn [negb andb] in *.
    + exfalso. symmetry in Hleap. apply Z.eqb_eq in Hleap. Z.div_mod_to_equations; lia.
    + split; [done|]. split; [|done]. destruct (Z.ltb_spec 2 m); [lia|]. Z.div_mod_to_equations; lia.
  - intros (Hnl & H3 & Hlt365). rewrite (proj2 Hyear Hlt365) in *. split; [lia|].
    replace (D - leap_days y) with (365 * (y - 1970) + doy) in * by lia. rewrite u32_small in * by lia.
    rewrite Hnl in *. cbn [negb andb] in *. rewrite (proj2 (Z.ltb_lt 2 m)) in Hdoy by lia.
    replace ((365 * (y - 1970) + doy) `mod` (366 - 1)) with doy in * by (Z.div_mod_to_equations; lia).
    assert (tm_mon r = m) as Em by (apply (month_found y m d (tm_mon r) k); by (done || lia)). split; [done|]. rewrite Em, Hk0 in Hk. injection Hk as <-. lia.
Qed.

(** The first day of 1970, a Thursday, is not shown as the first of January. *)
Lemma localtime_right_iff_witness : ∃ r, localtime 0 (mk_tm 0 0 0 0 0 0 0 0 0) = Ok r ∧ tm_mday r ≠ 1 ∧ tm_wday r = 4.
Proof.
  destruct (localtime_right_iff 1970 1 1 0 (mk_tm 0 0 0 0 0 0 0 0 0)) as (r & H1 & _ & _ & _ & H2 & H3); [done|done|].
  exists r. split; [exact H1|]. split; [|exact H2]. intros Hd. vm_compute in H1. injection H1 as <-. done.
Defined.
