(* ===== verification/Port.v ===== *)
(** * Port numbers ([src/src/net/port.c]) *)
From S2P Require Import Prelude Bitmap.

(** [while (bitmap_test(&map->map, port++));]: the value of [port] after the loop.
    65536 turns visit every port. *)
Fixpoint port_loop (fuel : nat) (map : bitmap_t) (port : Z) : res Z :=
  match fuel with
  | O => Stop Fuel
  | S f =>
      let! used := bitmap_test map port in
      let port := u16 (port + 1) in
      if used then port_loop f map port else Ok port
  end.

Definition port_get (map : bitmap_t) (port : Z) : res (Z * bitmap_t) :=
  if port =? 0 then
    let! port := port_loop (Z.to_nat 65536) map 4096 in
    let! map := bitmap_set map port true in
    Ok (port, map)
  else
    let! used := bitmap_test map port in
    if used then Ok (- EOCCUPIED, map)
    else
      let! map := bitmap_set map port true in
      Ok (port, map).

Definition port_put (map : bitmap_t) (port : Z) : res bitmap_t :=
  assert! 0 <? port in
  let! used := bitmap_test map port in
  assert! used in
  bitmap_set map port false.

Definition port_init : res bitmap_t := bitmap_init (replicate (Z.to_nat 8192) 0) 8192 0.

(** A bitmap of the 65536 ports. *)
Record ports_ok (map : bitmap_t) : Prop := {
  po_wf : bitmap_wf map; po_off : offset map = 0; po_len : nbits map = 65536 }.

(** Port [p] is taken. *)
Definition taken (map : bitmap_t) (p : Z) : bool := bit (bits map) p.

Section ports.
Context (map : bitmap_t) (Hok : ports_ok map).

Lemma test_ok p : 0 ≤ p < 65536 → bitmap_test map p = Ok (taken map p).
Proof using Hok.
  destruct Hok as [Hwf Ho Hl]. intros Hp. unfold taken.
  pose proof (bitmap_test_ok map Hwf p ltac:(lia)) as H. by rewrite Ho in H.
Qed.

Lemma set_ok p v : 0 ≤ p < 65536 → ∃ map', bitmap_set map p v = Ok map' ∧ ports_ok map' ∧
  ∀ q, 0 ≤ q < 65536 → taken map' q = if q =? p then v else taken map q.
Proof using Hok.
  destruct Hok as [Hwf Ho Hl]. intros Hp.
  destruct (bitmap_set_ok map Hwf p v) as (map' & Hs & Hwf' & (L & O & B)); [lia|].
  rewrite Ho in Hs. exists map'. split; [done|]. split.
  - split; [done|congruence|]. unfold nbits in *. congruence.
  - intros q Hq. unfold taken. rewrite B by lia. rewrite (proj2 (Z.ltb_lt q _)) by lia.
    by rewrite andb_true_r.
Qed.

(** The loop stops one past the first free port. *)
Lemma port_loop_ok p fuel : 0 ≤ p < 65536 → (Z.to_nat (65536 - p) <= fuel)%nat →
  (∃ q, p ≤ q < 65536 ∧ taken map q = false) →
  ∃ q, p ≤ q < 65536 ∧ taken map q = false ∧ (∀ r, p ≤ r < q → taken map r = true) ∧
    port_loop fuel map p = Ok (u16 (q + 1)).
Proof using Hok.
  revert p. induction fuel as [|fuel IH]; intros p Hp Hf (q & Hq & Hfree); [lia|].
  cbn [port_loop]. rewrite test_ok by lia. cbn [res_bind].
  destruct (taken map p) eqn:Et.
  - assert (p ≠ q) by congruence. rewrite u16_small by lia.
    destruct (IH (p + 1)) as (r & Hr & Hr1 & Hr2 & Hr3); [lia|lia|by exists q; split; [lia|]|].
    exists r. split; [lia|]. split; [done|]. split; [|done].
    intros x Hx. destruct (decide (x = p)) as [->|]; [done|]. apply Hr2. lia.
  - exists p. split; [lia|]. split; [done|]. split; [|done]. intros; lia.
Qed.
End ports.

(** A port that is asked for by number is granted and marked exactly when it is
    free, otherwise the call fails with [-EOCCUPIED] and changes nothing; returning a taken
    port frees exactly that port, and returning a free one (or port 0) fails an
    assertion. *)
Theorem port_numbers (map : bitmap_t) (port : Z) (Hok : ports_ok map) (Hp : 0 < port < 65536) :
  (if taken map port then port_get map port = Ok (- EOCCUPIED, map)
   else ∃ map', port_get map port = Ok (port, map') ∧ ports_ok map' ∧
     ∀ q, 0 ≤ q < 65536 → taken map' q = if q =? port then true else taken map q) ∧
  (if taken map port then ∃ map', port_put map port = Ok map' ∧ ports_ok map' ∧
     ∀ q, 0 ≤ q < 65536 → taken map' q = if q =? port then false else taken map q
   else port_put map port = Stop Assert) ∧
  port_put map 0 = Stop Assert.
Proof.
  unfold port_get, port_put. rewrite (proj2 (Z.eqb_neq port 0)), (proj2 (Z.ltb_lt 0 port)) by lia.
  cbn [check res_bind]. rewrite test_ok by (done || lia). cbn [res_bind].
  destruct (set_ok map Hok port true) as (m1 & H1 & Hm1 & Ht1); [lia|].
  destruct (set_ok map Hok port false) as (m2 & H2 & Hm2 & Ht2); [lia|].
  destruct (taken map port); cbn [check res_bind].
  - split; [done|]. split; [|done]. rewrite H2. by exists m2.
  - split; [|done]. rewrite H1. by exists m1.
Qed.

(** An automatic port is the one after the first free port from 4096 on, and is
    neither tested nor the port found free.  So while port 4096 is free every
    call returns port 4097, to any number of users, and the second of them to close
    fails an assertion. *)
Theorem ephemeral_ports_shared (map : bitmap_t) (Hok : ports_ok map)
    (Hfree : taken map 4096 = false) :
  ∃ m1 m2 m3, port_get map 0 = Ok (4097, m1) ∧ port_get m1 0 = Ok (4097, m2) ∧
    port_put m2 4097 = Ok m3 ∧ port_put m3 4097 = Stop Assert.
Proof.
  assert (∀ m, ports_ok m → taken m 4096 = false → ∃ m', port_get m 0 = Ok (4097, m') ∧
    ports_ok m' ∧ taken m' 4096 = false ∧ taken m' 4097 = true) as Hget.
  { intros m Hm Hf. unfold port_get. cbn [Z.eqb].
    destruct (port_loop_ok m Hm 4096 (Z.to_nat 65536)) as (q & Hq & Hq1 & Hq2 & ->);
      [lia|lia|exists 4096; split; [lia|done]|].
    assert (q = 4096) as ->.
    { destruct (Z.eq_dec q 4096); [done|]. rewrite Hq2 in Hf by lia. done. }
    cbn [res_bind]. change (u16 (4096 + 1)) with 4097.
    destruct (set_ok m Hm 4097 true) as (m' & -> & Hm' & Ht); [lia|]. cbn [res_bind].
    exists m'. split; [done|]. split; [done|]. rewrite !Ht by lia. done. }
  destruct (Hget map Hok Hfree) as (m1 & E1 & Hm1 & Hf1 & _).
  destruct (Hget m1 Hm1 Hf1) as (m2 & E2 & Hm2 & _ & Ht2).
  destruct (set_ok m2 Hm2 4097 false) as (m3 & E3 & Hm3 & Ht3); [lia|].
  exists m1, m2, m3. split; [done|]. split; [done|]. split.
  - unfold port_put. cbn [Z.ltb Z.compare check res_bind]. rewrite test_ok by (done || lia).
    rewrite Ht2. done.
  - unfold port_put. cbn [Z.ltb Z.compare check res_bind]. rewrite test_ok by (done || lia).
    by rewrite Ht3 by lia.
Qed.

(** The bitmap after [port_init]. *)
Definition no_ports : bitmap_t := mk_bitmap (replicate (Z.to_nat 8192) 0) 8192 0.

Lemma no_ports_ok : ports_ok no_ports.
Proof.
  split; [split|done|done]; cbn [bits length offset no_ports].
  - by rewrite length_replicate.
  - done.
  - done.
  - apply Forall_forall. by intros v [-> _]%elem_of_replicate.
Qed.

Lemma no_ports_free p : taken no_ports p = false.
Proof.
  unfold taken, bit, no_ports; cbn [bits].
  destruct (replicate _ _ !! _) eqn:E; [|done]. apply lookup_replicate in E as [-> _].
  apply Z.bits_0.
Qed.

Lemma port_numbers_witness : ∃ map', port_get no_ports 80 = Ok (80, map') ∧ ports_ok map'.
Proof.
  destruct (port_numbers no_ports 80 no_ports_ok ltac:(lia)) as [H _].
  rewrite no_ports_free in H. destruct H as (map' & H1 & H2 & _). exists map'.
  split; [exact H1|exact H2].
Defined.

Lemma ephemeral_ports_shared_witness : ∃ m1 m2, port_get no_ports 0 = Ok (4097, m1) ∧
  port_get m1 0 = Ok (4097, m2).
Proof.
  destruct (ephemeral_ports_shared no_ports no_ports_ok (no_ports_free 4096))
    as (m1 & m2 & _ & H1 & H2 & _). exists m1, m2. split; [exact H1|exact H2].
Defined.
