(* ===== verification/Tcp.v ===== *)
(** * TCP: data, sequence numbers and timers' estimates ([src/src/include/onix/net/tcp.h],
    [pbuf.h]; [tcp_update_rto], [tcp_xmit_timer] of [src/src/net/tcp_timer.c])

    The control blocks, the buffers and the sockets' shared state of TCP, for the
    components [TcpOutput], [TcpInput], [TcpTimer] and [TcpSocket]. *)
From S2P Require Import Prelude Dlist.

(** ** Sequence numbers *)
Definition TCP_SEQ_LT (a b : Z) : bool := s32 (a - b) <? 0.
Definition TCP_SEQ_LEQ (a b : Z) : bool := s32 (a - b) <=? 0.
Definition TCP_SEQ_GT (a b : Z) : bool := 0 <? s32 (a - b).
Definition TCP_SEQ_GEQ (a b : Z) : bool := 0 <=? s32 (a - b).

(** ** Constants *)
Definition TCP_MSS : Z := 1460.
Definition TCP_WINDOW : Z := 8192.
Definition TCP_MAX_WINDOW : Z := 65535.
Definition TCP_DEFAULT_MSS : Z := 536.

Definition TF_ACK_DELAY : Z := 1.
Definition TF_ACK_NOW : Z := 2.
Definition TF_KEEPALIVE : Z := 4.
Definition TF_NODELAY : Z := 8.
Definition TF_QUICKACK : Z := 16.

Definition TCP_FIN : Z := 1.
Definition TCP_SYN : Z := 2.
Definition TCP_RST : Z := 4.
Definition TCP_PSH : Z := 8.
Definition TCP_ACK : Z := 16.

Definition TIMER_SYN : nat := 0.
Definition TIMER_REXMIT : nat := 1.
Definition TIMER_PERSIST : nat := 2.
Definition TIMER_KEEPALIVE : nat := 3.
Definition TIMER_FIN_WAIT2 : nat := 4.
Definition TIMER_TIMEWAIT : nat := 5.
Definition TIMER_NUM : nat := 6.

(** In slow ticks, two per second. *)
Definition TCP_SLOWHZ : Z := 2.
Definition TO_SYN : Z := 75 * TCP_SLOWHZ.
Definition TO_FIN_WAIT2 : Z := 10 * 60 * TCP_SLOWHZ.
Definition TO_TIMEWAIT : Z := 4 * 60 * TCP_SLOWHZ.
Definition TO_PERSMIN : Z := 5 * TCP_SLOWHZ.
Definition TO_PERMAX : Z := 60 * TCP_SLOWHZ.
Definition TO_KEEP_IDLE : Z := 120 * 60 * TCP_SLOWHZ.
Definition TO_KEEP_INTERVAL : Z := 75 * TCP_SLOWHZ.
Definition TO_KEEPCNT : Z := 8.
Definition TO_RTT_DEFAULT : Z := 1 * TCP_SLOWHZ.
Definition TO_MIN : Z := 1 * TCP_SLOWHZ.
Definition TO_REXMIT_MAX : Z := 64 * TCP_SLOWHZ.
Definition MAXRXTCNT : Z := 12.
Definition REXMIT_THREASH : Z := 3.

Inductive tcp_state_t :=
| CLOSED | LISTEN | SYN_SENT | SYN_RCVD | ESTABLISHED | FIN_WAIT1 | FIN_WAIT2
| CLOSE_WAIT | CLOSING | LAST_ACK | TIME_WAIT.

#[export] Instance tcp_state_eq_dec : EqDecision tcp_state_t.
Proof. solve_decision. Defined.

(** The enumeration values, for the comparisons of states. *)
Definition state_num (st : tcp_state_t) : Z :=
  match st with
  | CLOSED => 0 | LISTEN => 1 | SYN_SENT => 2 | SYN_RCVD => 3 | ESTABLISHED => 4
  | FIN_WAIT1 => 5 | FIN_WAIT2 => 6 | CLOSE_WAIT => 7 | CLOSING => 8 | LAST_ACK => 9
  | TIME_WAIT => 10
  end.

(** ** Segments

    [pbuf_t] with the TCP header it carries: [data] are the [size] bytes the
    [data] pointer designates, [tflags] the header's flags, [mss_opt] whether the
    header has the MSS option, [count] the references (a second one while a copy
    is on its way out of the interface). *)
Record pbuf_t := mk_pbuf {
  bufid : Z; seqno : Z; data : list Z; tflags : Z; mss_opt : bool; count : Z;
  total : Z; length : Z }.

#[export] Instance pbuf_expand : Expand pbuf_t := λ b,
  mk_pbuf (bufid b) (seqno b) (data b) (tflags b) (mss_opt b) (count b) (total b) (length b).

Definition size (b : pbuf_t) : Z := Z.of_nat (List.length (data b)).

(** The lists of segments are sorted by [seqno] read as an [int]. *)
Definition seq_key (b : pbuf_t) : Z := s32 (seqno b).

(** A received header, in host byte order. *)
Record tcp_t := mk_tcp {
  sport : Z; dport : Z; h_seqno : Z; h_ackno : Z; h_flags : Z; h_window : Z;
  h_options : list Z }.

#[export] Instance tcp_hdr_expand : Expand tcp_t := λ h,
  mk_tcp (sport h) (dport h) (h_seqno h) (h_ackno h) (h_flags h) (h_window h) (h_options h).

Definition has (fl bit : Z) : bool := negb (Z.land fl bit =? 0).

(** What is handed to [ip_output]; the checksum is computed there by [inet_chksum]. *)
Record packet := mk_packet {
  p_laddr : Z; p_raddr : Z; p_sport : Z; p_dport : Z; p_seqno : Z; p_ackno : Z;
  p_flags : Z; p_window : Z; p_mss : option Z; p_data : list Z }.

(** ** Control blocks *)
Record tcp_pcb_t := mk_pcb {
  laddr : Z; raddr : Z; lport : Z; rport : Z; state : tcp_state_t; flags : Z;
  snd_una : Z; snd_nxt : Z; snd_wnd : Z; snd_mss : Z; snd_nbb : Z; snd_max : Z;
  snd_wl1 : Z; snd_wl2 : Z; snd_mwnd : Z; snd_buf : option pbuf_t;
  rcv_nxt : Z; rcv_wnd : Z; rcv_mss : Z; timers : list Z;
  idle : Z; rto : Z; rtx_cnt : Z; rtt : Z; rtt_seq : Z; srtt : Z; rttvar : Z; rttmin : Z;
  dupacks : Z; snd_cwnd : Z; snd_ssthresh : Z;
  acclist : list Z; backlog : Z; backcnt : Z; listen : option Z;
  unsent : list pbuf_t; unacked : list pbuf_t; recved : list pbuf_t;
  ac_waiter : option Z; tx_waiter : option Z; rx_waiter : option Z }.

#[export] Instance pcb_expand : Expand tcp_pcb_t := λ p,
  mk_pcb (laddr p) (raddr p) (lport p) (rport p) (state p) (flags p)
    (snd_una p) (snd_nxt p) (snd_wnd p) (snd_mss p) (snd_nbb p) (snd_max p)
    (snd_wl1 p) (snd_wl2 p) (snd_mwnd p) (snd_buf p)
    (rcv_nxt p) (rcv_wnd p) (rcv_mss p) (timers p)
    (idle p) (rto p) (rtx_cnt p) (rtt p) (rtt_seq p) (srtt p) (rttvar p) (rttmin p)
    (dupacks p) (snd_cwnd p) (snd_ssthresh p)
    (acclist p) (backlog p) (backcnt p) (listen p)
    (unsent p) (unacked p) (recved p) (ac_waiter p) (tx_waiter p) (rx_waiter p).

Definition set_timer (i : nat) (v : Z) (p : tcp_pcb_t) : tcp_pcb_t :=
  p <| timers $= <[i := v]> |>.
Definition set_flag (bit : Z) (p : tcp_pcb_t) : tcp_pcb_t := p <| flags $= λ f, Z.lor f bit |>.
Definition clear_flag (bit : Z) (p : tcp_pcb_t) : tcp_pcb_t := p <| flags $= λ f, Z.ldiff f bit |>.

(** ** Round-trip estimates ([tcp_timer.c]) *)
Definition tcp_range_value (val lo hi : Z) : Z :=
  if val <? lo then lo else if hi <? val then hi else val.

(** The table [tcp_timer_init] fills. *)
Definition tcp_backoff (i : Z) : Z := if i <? 6 then Z.shiftl 1 i else 64.

Definition tcp_update_rto (p : tcp_pcb_t) (backoff : Z) : Z :=
  let value := u32 (srtt p + Z.shiftl (rttvar p) 2) in
  tcp_range_value (u32 (value * backoff)) (rttmin p) TO_REXMIT_MAX.

Definition tcp_xmit_timer (p : tcp_pcb_t) (r : Z) : tcp_pcb_t :=
  let err := s32 (u32 (r - srtt p)) in
  let srtt1 := s32 (srtt p + Z.shiftr err 3) in
  let srtt2 := if srtt1 <=? 0 then 1 else srtt1 in
  let abs := if err <? 0 then s32 (- err) else err in
  let var1 := s32 (rttvar p + Z.shiftr (s32 (abs - rttvar p)) 2) in
  let var2 := if var1 <=? 0 then 1 else var1 in
  let p := p <| srtt := srtt2 |> <| rttvar := var2 |> <| rtt := 0 |> <| rtx_cnt := 0 |> in
  p <| rto := tcp_update_rto p 1 |>.

(** [tcp_persist], less the probe it sends. *)
Definition persist_value (p : tcp_pcb_t) : Z :=
  Z.shiftr (s32 (Z.shiftr (srtt p) 2 + rttvar p)) 1.

(** ** Properties of the sequence comparisons *)

Lemma seq_diff a b : s32 (u32 a - u32 b) = s32 (a - b).
Proof. unfold s32, u32. by rewrite <-Zminus_mod. Qed.

Lemma seq_gt_iff a b : -2147483648 < a - b < 2147483648 → TCP_SEQ_GT (u32 a) (u32 b) = (b <? a).
Proof.
  intros Hd. unfold TCP_SEQ_GT.
  rewrite seq_diff, s32_small by lia. lia.
Qed.

Lemma seq_lt_iff a b : -2147483648 < a - b < 2147483648 → TCP_SEQ_LT (u32 a) (u32 b) = (a <? b).
Proof.
  intros Hd. unfold TCP_SEQ_LT.
  rewrite seq_diff, s32_small by lia. lia.
Qed.

Lemma seq_leq_iff a b : -2147483648 < a - b < 2147483648 → TCP_SEQ_LEQ (u32 a) (u32 b) = (a <=? b).
Proof.
  intros Hd. unfold TCP_SEQ_LEQ.
  rewrite seq_diff, s32_small by lia. lia.
Qed.

Lemma seq_geq_iff a b : -2147483648 < a - b < 2147483648 → TCP_SEQ_GEQ (u32 a) (u32 b) = (b <=? a).
Proof.
  intros Hd. unfold TCP_SEQ_GEQ.
  rewrite seq_diff, s32_small by lia. lia.
Qed.

(** On positions of a byte stream that are less than 2^31 apart, the four
    comparisons of wrapped sequence numbers are the comparisons of the positions. *)
Theorem seq_compare_ok (a b : Z) (Hd : -2147483648 < a - b < 2147483648) :
  TCP_SEQ_LT (u32 a) (u32 b) = (a <? b) ∧ TCP_SEQ_LEQ (u32 a) (u32 b) = (a <=? b) ∧
  TCP_SEQ_GT (u32 a) (u32 b) = (b <? a) ∧ TCP_SEQ_GEQ (u32 a) (u32 b) = (b <=? a).
Proof.
  by rewrite seq_lt_iff, seq_leq_iff, seq_gt_iff, seq_geq_iff.
Qed.

Lemma seq_compare_ok_witness : TCP_SEQ_LT (u32 4294967295) (u32 4294967297) = true.
Proof. exact (proj1 (seq_compare_ok 4294967295 4294967297 ltac:(lia))). Defined.

(** ** Bounds of the retransmission timeout *)

Lemma range_value_bounds v lo hi : lo ≤ hi → lo ≤ tcp_range_value v lo hi ≤ hi.
Proof. intros H. unfold tcp_range_value. destruct (Z.ltb_spec v lo), (Z.ltb_spec hi v); lia. Qed.

Lemma range_value_id v lo hi : lo ≤ v ≤ hi → tcp_range_value v lo hi = v.
Proof. intros H. unfold tcp_range_value. destruct (Z.ltb_spec v lo), (Z.ltb_spec hi v); lia. Qed.

Lemma tcp_backoff_bounds i : 0 ≤ i → 1 ≤ tcp_backoff i ≤ 64.
Proof.
  intros Hi. unfold tcp_backoff. destruct (Z.ltb_spec i 6) as [H|H]; [|lia].
  assert (i = 0 ∨ i = 1 ∨ i = 2 ∨ i = 3 ∨ i = 4 ∨ i = 5) as [->|[->|[->|[->|[->| ->]]]]] by lia;
    vm_compute; split; discriminate.
Qed.

(** C25: a round-trip sample [r] keeps the estimates of a connection positive and
    bounded by the larger of the sample and the old estimates, so that no
    intermediate result overflows, it ends the backoff, and the
    retransmission timeout stays between [rttmin] and [TO_REXMIT_MAX]. *)
Theorem xmit_timer_bounds (p : tcp_pcb_t) (r B : Z) (Hr : 0 ≤ r ≤ B) (HB : B < 2 ^ 28)
    (Hs : 0 ≤ srtt p ≤ B) (Hv : 0 ≤ rttvar p ≤ B) (HB1 : 1 ≤ B)
    (Hm : 0 ≤ rttmin p ≤ TO_REXMIT_MAX) :
  let p' := tcp_xmit_timer p r in
  1 ≤ srtt p' ≤ B ∧ 1 ≤ rttvar p' ≤ B ∧ rtt p' = 0 ∧ rtx_cnt p' = 0 ∧
  rto p' = tcp_range_value (srtt p' + 4 * rttvar p') (rttmin p) TO_REXMIT_MAX ∧
  rttmin p ≤ rto p' ≤ TO_REXMIT_MAX.
Proof.
  cbn zeta. unfold tcp_xmit_timer. upd_simpl.
  change (2 ^ 28) with 268435456 in HB.
  rewrite s32_u32, (s32_small (r - srtt p)) by lia. set (e := r - srtt p).
  rewrite !Z.shiftr_div_pow2 by lia. change (2 ^ 3) with 8. change (2 ^ 2) with 4.
  assert (0 ≤ srtt p + e / 8 ≤ B) as He by (unfold e; Z.div_mod_to_equations; lia).
  rewrite (s32_small (srtt p + e / 8)) by lia.
  set (a := if e <? 0 then s32 (- e) else e).
  assert (0 ≤ a ≤ B) as Ha.
  { unfold a, e. destruct (Z.ltb_spec (r - srtt p) 0); [rewrite s32_small by lia|]; lia. }
  rewrite (s32_small (a - rttvar p)) by lia.
  assert (0 ≤ rttvar p + (a - rttvar p) / 4 ≤ B) as Hv' by (Z.div_mod_to_equations; lia).
  rewrite (s32_small (rttvar p + _)) by lia.
  set (s' := if srtt p + e / 8 <=? 0 then 1 else _).
  set (v' := if rttvar p + _ <=? 0 then 1 else _).
  assert (1 ≤ s' ≤ B) as Hs'. { unfold s'. destruct (Z.leb_spec (srtt p + e / 8) 0); lia. }
  assert (1 ≤ v' ≤ B) as Hv2.
  { unfold v'. destruct (Z.leb_spec (rttvar p + (a - rttvar p) / 4) 0); lia. }
  unfold tcp_update_rto. upd_simpl. rewrite Z.shiftl_mul_pow2 by lia. change (2 ^ 2) with 4.
  rewrite (Z.mul_1_r (u32 _)), u32_idemp, u32_small by lia.
  do 4 (split; [lia|]). split; [f_equal; lia|]. apply range_value_bounds. lia.
Qed.

(** The initial estimates of [tcp_pcb_get]. *)
Definition fresh_pcb : tcp_pcb_t :=
  mk_pcb 0 0 0 0 CLOSED 0 0 0 TCP_DEFAULT_MSS TCP_DEFAULT_MSS 0 0 0 0 0 None 0 TCP_WINDOW TCP_MSS
    (replicate TIMER_NUM 0) 0 8 0 0 0 0 TO_RTT_DEFAULT TO_MIN 0 TCP_DEFAULT_MSS TCP_MAX_WINDOW
    [] 0 0 None [] [] [] None None None.

Lemma xmit_timer_bounds_witness : let p' := tcp_xmit_timer fresh_pcb 4 in
  2 ≤ rto p' ≤ 128.
Proof.
  apply (xmit_timer_bounds fresh_pcb 4 100); vm_compute; intuition discriminate.
Defined.
