(* ===== verification/TcpWire.v ===== *)
(** * TCP segments as bytes ([tcp_t] of [net/tcp.h], [tcp_write_option] and
    [tcp_parse_option] of [src/src/net/tcp_option.c], the header of [tcp_output_seg])

    What [tcp_output] puts on the wire, and how [tcp_input] reads it back. *)
From S2P Require Import Prelude Chksum Tcp.

(** ** Fields in memory

    A [u16] or [u32] field holds its bytes little-endian; [htons] and [htonl] have
    swapped the value. *)
Definition put16 (v : Z) : list Z := le16 (htons v).
Definition put32 (v : Z) : list Z := le32 (htonl v).
Definition get16 (b0 b1 : Z) : Z := htons (b0 + 256 * b1).
Definition get32 (b0 b1 b2 b3 : Z) : Z := htonl (b0 + 256 * b1 + 65536 * b2 + 16777216 * b3).

(** ** Options *)
Definition OPT_END : Z := 0.
Definition OPT_NOP : Z := 1.
Definition OPT_MSS : Z := 2.

(** The loop of [tcp_parse_option]: [mem] is the memory from [ptr] on and [n] the
    bytes up to [payload]; the result and the new [snd_mss]. *)
Fixpoint tcp_parse_option (fuel : nat) (mem : list Z) (n : Z) (mss : Z) : res (Z * Z) :=
  match fuel with
  | O => Stop Fuel
  | S f =>
      if n <=? 0 then Ok (EOK, mss)
      else
        let! ty := deref (mem !! 0%nat) in
        if ty =? OPT_END then Ok (EOK, mss)
        else if ty =? OPT_NOP then tcp_parse_option f (drop 1 mem) (n - 1) mss
        else
          let! sz := deref (mem !! 1%nat) in
          if (ty =? OPT_MSS) && negb (sz =? 4) then Ok (- EOPTION, mss)
          else
            let! mss :=
              (if ty =? OPT_MSS then
                 let! b0 := deref (mem !! 2%nat) in
                 let! b1 := deref (mem !! 3%nat) in
                 Ok (get16 b0 b1)
               else Ok mss) in
            tcp_parse_option f (drop (Z.to_nat sz) mem) (n - sz) mss
  end.

(** The bytes [tcp_write_option] leaves after the header. *)
Definition option_bytes (mss : option Z) : list Z :=
  match mss with
  | Some m => [OPT_MSS; 4] ++ put16 m ++ [OPT_END; 0; 0; 0]
  | None => []
  end.

(** ** The header *)

(** [rsv] are the reserved bits, which are not initialised. *)
Definition header_bytes (rsv : Z) (ck : list Z) (k : packet) : list Z :=
  put16 (p_sport k) ++ put16 (p_dport k) ++ put32 (p_seqno k) ++ put32 (p_ackno k) ++
  [rsv + 16 * ((20 + Z.of_nat (List.length (option_bytes (p_mss k)))) / 4); p_flags k] ++
  put16 (p_window k) ++ ck ++ [0; 0] ++ option_bytes (p_mss k) ++ p_data k.

(** The segment with its checksum, as [ip_output] gets it. *)
Definition segment_bytes (offload : bool) (rsv : Z) (k : packet) : res (list Z) :=
  let bs := header_bytes rsv [0; 0] k in
  if offload then Ok bs
  else
    let! c := inet_chksum bs (Z.of_nat (List.length bs)) (p_raddr k) (p_laddr k) 6 in
    Ok (header_bytes rsv (le16 c) k).

(** The fields of [tcp_t] and the bytes after it. *)
Definition read_header (bs : list Z) : res (tcp_t * Z) :=
  match bs with
  | s0 :: s1 :: d0 :: d1 :: q0 :: q1 :: q2 :: q3 :: a0 :: a1 :: a2 :: a3 :: l :: fl ::
    w0 :: w1 :: _ :: _ :: _ :: _ :: rest =>
      Ok (mk_tcp (get16 s0 s1) (get16 d0 d1) (get32 q0 q1 q2 q3) (get32 a0 a1 a2 a3) fl
            (get16 w0 w1) rest, Z.shiftr l 4)
  | _ => Stop Fault
  end.

(** ** Properties *)

Lemma htons_invol s : 0 ≤ s < 65536 → htons (htons s) = s.
Proof.
  intros Hs. rewrite (htons_bytes s) by done. rewrite htons_bytes; Z.div_mod_to_equations; lia.
Qed.

(** The bytes of a 32-bit value, most significant first. *)
Lemma htonl_bytes l : 0 ≤ l < 4294967296 →
  htonl l = 16777216 * (l `mod` 256) + 65536 * ((l / 256) `mod` 256) +
            256 * ((l / 65536) `mod` 256) + l / 16777216.
Proof.
  intros Hl. unfold htonl.
  assert (Z.land l 255 = l `mod` 256) as -> by exact (Z.land_ones l 8 ltac:(lia)).
  assert (∀ k, 0 ≤ k → Z.land l (Z.shiftl 255 k) = Z.shiftl ((l / 2 ^ k) `mod` 256) k) as Hmid.
  { intros k Hk. rewrite <-Z.shiftr_div_pow2 by done.
    assert (Z.shiftr l k `mod` 256 = Z.land (Z.shiftr l k) 255) as ->
      by (symmetry; exact (Z.land_ones (Z.shiftr l k) 8 ltac:(lia))).
    apply Z.bits_inj'. intros i Hi. rewrite Z.land_spec. destruct (decide (i < k)).
    - rewrite !Z.shiftl_spec_low by lia. apply andb_false_r.
    - rewrite !Z.shiftl_spec, Z.land_spec, Z.shiftr_spec by lia. f_equal. f_equal. lia. }
  change 65280 with (Z.shiftl 255 8). change 16711680 with (Z.shiftl 255 16).
  change 4278190080 with (Z.shiftl 255 24). rewrite !Hmid by lia.
  change (2 ^ 8) with 256. change (2 ^ 16) with 65536. change (2 ^ 24) with 16777216.
  assert ((l / 16777216) `mod` 256 = l / 16777216) as ->
    by (apply Z.mod_small; Z.div_mod_to_equations; lia).
  set (a := l `mod` 256). set (b := (l / 256) `mod` 256). set (c := (l / 65536) `mod` 256).
  set (d := l / 16777216).
  assert (0 ≤ a < 256 ∧ 0 ≤ b < 256 ∧ 0 ≤ c < 256 ∧ 0 ≤ d < 256) as (Ha & Hb & Hc & Hd)
    by (unfold a, b, c, d; Z.div_mod_to_equations; lia).
  clearbody a b c d. rewrite !Z.shiftr_shiftl_l, !Z.shiftl_shiftl by lia.
  change (8 + 8) with 16. change (16 - 8) with 8. change (24 - 24) with 0. rewrite Z.shiftl_0_r.
  assert (∀ x y n, 0 ≤ n → 0 ≤ y < 2 ^ n → Z.lor (Z.shiftl x n) y = x * 2 ^ n + y) as Hadd.
  { intros x y n Hn Hy. rewrite <-Z.shiftl_mul_pow2 by done. symmetry. apply Z.add_nocarry_lor.
    apply Z.bits_inj'. intros k Hk. rewrite Z.land_spec, Z.bits_0.
    destruct (decide (k < n)); [by rewrite Z.shiftl_spec_low|].
    rewrite (testbit_high y n k) by lia. apply andb_false_r. }
  replace (Z.lor (Z.shiftl a 24) (Z.shiftl b 16)) with (Z.shiftl (Z.lor (Z.shiftl a 8) b) 16)
    by (rewrite Z.shiftl_lor, Z.shiftl_shiftl by lia; done).
  replace (Z.lor (Z.shiftl (Z.lor (Z.shiftl a 8) b) 16) (Z.shiftl c 8))
    with (Z.shiftl (Z.lor (Z.shiftl (Z.lor (Z.shiftl a 8) b) 8) c) 8)
    by (rewrite Z.shiftl_lor, Z.shiftl_shiftl by lia; done).
  rewrite !Hadd by (change (2 ^ 8) with 256; lia). change (2 ^ 8) with 256. lia.
Qed.

Lemma get16_put16 v : 0 ≤ v < 65536 → ∃ b0 b1, put16 v = [b0; b1] ∧ get16 b0 b1 = v ∧ byte b0 ∧ byte b1.
Proof.
  intros Hv. pose proof (htons_range v Hv). eexists _, _. split; [done|]. split.
  - unfold get16. replace (htons v `mod` 256 + 256 * (htons v / 256)) with (htons v)
      by (Z.div_mod_to_equations; lia). by apply htons_invol.
  - split; unfold byte; Z.div_mod_to_equations; lia.
Qed.

Lemma htonl_range l : 0 ≤ l < 4294967296 → 0 ≤ htonl l < 4294967296.
Proof. intros Hl. rewrite htonl_bytes by done. Z.div_mod_to_equations; lia. Qed.

Lemma htonl_invol l : 0 ≤ l < 4294967296 → htonl (htonl l) = l.
Proof.
  intros Hl. rewrite (htonl_bytes (htonl l)) by (by apply htonl_range). rewrite htonl_bytes by done.
  set (a := l `mod` 256). set (b := (l / 256) `mod` 256). set (c := (l / 65536) `mod` 256).
  set (d := l / 16777216).
  assert (0 ≤ a < 256 ∧ 0 ≤ b < 256 ∧ 0 ≤ c < 256 ∧ 0 ≤ d < 256 ∧
    l = a + 256 * b + 65536 * c + 16777216 * d) as (Ha & Hb & Hc & Hd & Hsum).
  { unfold a, b, c, d. Z.div_mod_to_equations; lia. }
  clearbody a b c d. subst l. Z.div_mod_to_equations; lia.
Qed.

Lemma get32_put32 v : 0 ≤ v < 4294967296 → ∃ b0 b1 b2 b3, put32 v = [b0; b1; b2; b3] ∧
  get32 b0 b1 b2 b3 = v ∧ Forall byte [b0; b1; b2; b3].
Proof.
  intros Hv. pose proof (htonl_range v Hv) as Hr. set (w := htonl v) in *.
  assert (∀ x, Z.land x 255 = x `mod` 256) as Hm by (intros x; exact (Z.land_ones x 8 ltac:(lia))).
  unfold put32, le32. fold w. rewrite !Hm, !Z.shiftr_div_pow2 by lia.
  change (2 ^ 8) with 256. change (2 ^ 16) with 65536. change (2 ^ 24) with 16777216.
  eexists _, _, _, _. split; [done|]. split.
  - unfold get32. replace (_ + 16777216 * _) with w; [by apply htonl_invol|].
    Z.div_mod_to_equations; lia.
  - repeat constructor; Z.div_mod_to_equations; lia.
Qed.

(** ** Options *)

(** The options [tcp_parse_option] distinguishes; [Other ty value] stands for every
    kind it skips. *)
Inductive opt := Nop | Mss (m : Z) | Other (ty : Z) (value : list Z).

Definition opt_bytes (o : opt) : list Z :=
  match o with
  | Nop => [OPT_NOP]
  | Mss m => [OPT_MSS; 4] ++ put16 m
  | Other ty v => [ty; 2 + Z.of_nat (List.length v)] ++ v
  end.

Definition opt_ok (o : opt) : Prop :=
  match o with
  | Nop => True
  | Mss m => 0 ≤ m < 65536
  | Other ty v => ty ≠ OPT_END ∧ ty ≠ OPT_NOP ∧ ty ≠ OPT_MSS
  end.

Definition opts_bytes (os : list opt) : list Z := concat (opt_bytes <$> os).

(** The MSS of the last MSS option. *)
Definition last_mss (os : list opt) (mss : Z) : Z :=
  fold_left (λ m o, match o with Mss m' => m' | _ => m end) os mss.

Lemma parse_opt o fuel rest n mss : opt_ok o →
  Z.of_nat (List.length (opt_bytes o)) ≤ n →
  tcp_parse_option (S fuel) (opt_bytes o ++ rest) n mss =
    tcp_parse_option fuel rest (n - Z.of_nat (List.length (opt_bytes o)))
      (match o with Mss m => m | _ => mss end).
Proof.
  intros Ho Hn. destruct o as [|m|ty v]; cbn [opt_ok opt_bytes] in *; cbn [tcp_parse_option].
  - cbn in Hn |- *. rewrite (proj2 (Z.leb_gt n 0)) by lia. by rewrite drop_0.
  - destruct (get16_put16 m Ho) as (b0 & b1 & -> & <- & _ & _). cbn in Hn |- *.
    rewrite (proj2 (Z.leb_gt n 0)) by lia. done.
  - destruct Ho as (H0 & H1 & H2). rewrite length_app in *. cbn [List.length] in *.
    rewrite (proj2 (Z.leb_gt n 0)) by lia. cbn [app lookup list_lookup deref res_bind].
    rewrite (proj2 (Z.eqb_neq _ _) H0), (proj2 (Z.eqb_neq _ _) H1), (proj2 (Z.eqb_neq _ _) H2).
    cbn [andb res_bind]. replace (Z.to_nat (2 + Z.of_nat (List.length v))) with (S (S (List.length v))) by lia.
    cbn [drop]. rewrite drop_app_length. f_equal. lia.
Qed.

Lemma parse_opts os : ∀ fuel rest n mss, Forall opt_ok os →
  Z.of_nat (List.length (opts_bytes os)) ≤ n → (List.length os <= fuel)%nat →
  tcp_parse_option fuel (opts_bytes os ++ rest) n mss =
    tcp_parse_option (fuel - List.length os) rest
      (n - Z.of_nat (List.length (opts_bytes os))) (last_mss os mss).
Proof.
  induction os as [|o os IH]; intros fuel rest n mss Hos Hn Hf.
  - cbn. rewrite Z.sub_0_r, Nat.sub_0_r. done.
  - apply Forall_cons in Hos as [Ho Hos]. cbn [opts_bytes fmap list_fmap concat] in *.
    fold (opts_bytes os) in *. rewrite length_app in *. cbn in Hf.
    destruct fuel as [|fuel]; [lia|]. rewrite <-app_assoc, parse_opt by (done || lia).
    rewrite IH by (done || lia). cbn [List.length last_mss fold_left]. fold (last_mss os).
    rewrite Nat.sub_succ, Nat2Z.inj_add, Z.sub_add_distr. done.
Qed.

(** On an option area of well-formed options, with or without an end marker,
    [tcp_parse_option] ends and leaves the value of the last MSS option, or the old
    [snd_mss]; an MSS option of another size than 4 is rejected; the options of a SYN give
    back the MSS they were written with; an option whose size byte is 0 is
    never left: no number of turns ends the loop. *)
Theorem parse_options (os : list opt) (rest : list Z) (mss : Z) (fuel : nat)
    (Hos : Forall opt_ok os) (Hf : (List.length os < fuel)%nat) :
  let n := Z.of_nat (List.length (opts_bytes os)) in
  tcp_parse_option fuel (opts_bytes os ++ rest) n mss = Ok (EOK, last_mss os mss) ∧
  (∀ k, 0 < k → tcp_parse_option fuel (opts_bytes os ++ OPT_END :: rest) (n + k) mss =
     Ok (EOK, last_mss os mss)) ∧
  (∀ k sz, 0 < k → sz ≠ 4 →
     tcp_parse_option fuel (opts_bytes os ++ OPT_MSS :: sz :: rest) (n + k) mss =
     Ok (- EOPTION, last_mss os mss)) ∧
  (∀ m, 0 ≤ m < 65536 →
     tcp_parse_option 2 (option_bytes (Some m) ++ rest)
       (Z.of_nat (List.length (option_bytes (Some m)))) mss = Ok (EOK, m)) ∧
  (∀ k ty any, 0 < k → opt_ok (Other ty []) →
     tcp_parse_option any (opts_bytes os ++ ty :: 0 :: rest) (n + k) mss = Stop Fuel).
Proof.
  cbn zeta. set (n := Z.of_nat (List.length (opts_bytes os))).
  assert (∃ f, (fuel - List.length os)%nat = S f) as [f Ef] by (exists (fuel - List.length os - 1)%nat; lia).
  split; [|split; [|split; [|split]]].
  - rewrite parse_opts by (done || lia). fold n. rewrite Z.sub_diag, Ef. done.
  - intros k Hk. rewrite parse_opts by (done || lia). fold n. rewrite Ef. cbn [tcp_parse_option].
    rewrite (proj2 (Z.leb_gt _ 0)) by lia. done.
  - intros k sz Hk Hsz. rewrite parse_opts by (done || lia). fold n. rewrite Ef.
    cbn [tcp_parse_option]. rewrite (proj2 (Z.leb_gt _ 0)) by lia. cbn.
    by rewrite (proj2 (Z.eqb_neq sz 4) Hsz).
  - intros m Hm. unfold option_bytes. destruct (get16_put16 m Hm) as (b0 & b1 & -> & <- & _ & _). done.
  - intros k ty any Hk (H0 & H1 & H2).
    assert (∀ j mss', tcp_parse_option j (ty :: 0 :: rest) k mss' = Stop Fuel) as Hloop.
    { induction j as [|j IHj]; intros mss'; [done|]. cbn [tcp_parse_option lookup list_lookup deref res_bind].
      rewrite (proj2 (Z.leb_gt k 0)) by lia.
      rewrite (proj2 (Z.eqb_neq _ _) H0), (proj2 (Z.eqb_neq _ _) H1), (proj2 (Z.eqb_neq _ _) H2).
      cbn. rewrite Z.sub_0_r. apply IHj. }
    destruct (decide (List.length os <= any)%nat) as [Hle|Hgt].
    + rewrite parse_opts by (done || lia). fold n. replace (n + k - n) with k by lia. apply Hloop.
    + revert any mss Hgt Hos. unfold n. clear Hf Ef n. induction os as [|o os IH]; intros any mss Hgt Hos; [cbn in Hgt; lia|].
      destruct any as [|any]; [done|]. apply Forall_cons in Hos as [Ho Hos].
      cbn [opts_bytes fmap list_fmap concat]. fold (opts_bytes os). cbn in Hgt.
      rewrite <-app_assoc, length_app, parse_opt by (done || lia).
      replace (_ + k - _) with (Z.of_nat (List.length (opts_bytes os)) + k) by lia.
      apply IH; [lia|done].
Qed.

Lemma parse_options_witness :
  tcp_parse_option 3 [1; 2; 4; 5; 180; 9] 5 536 = Ok (EOK, 1460) ∧
  tcp_parse_option 1000 [1; 2; 4; 5; 180; 9; 0] 7 536 = Stop Fuel.
Proof.
  destruct (parse_options [Nop; Mss 1460] [9] 536 3) as [H _];
    [repeat constructor; lia|cbn; lia|].
  destruct (parse_options [Nop; Mss 1460] [] 536 3) as (_ & _ & _ & _ & H');
    [repeat constructor; lia|cbn; lia|].
  split; [exact H|]. apply (H' 2 9 1000%nat); [lia|repeat constructor; discriminate].
Defined.

(** ** Segments *)

(** The ranges of the fields of a packet. *)
Record packet_ok (k : packet) : Prop := {
  pk_ports : 0 ≤ p_sport k < 65536 ∧ 0 ≤ p_dport k < 65536;
  pk_seqs : 0 ≤ p_seqno k < 4294967296 ∧ 0 ≤ p_ackno k < 4294967296;
  pk_addrs : 0 ≤ p_laddr k < 4294967296 ∧ 0 ≤ p_raddr k < 4294967296;
  pk_flags : byte (p_flags k);
  pk_window : 0 ≤ p_window k < 65536;
  pk_mss : ∀ m, p_mss k = Some m → 0 ≤ m < 65536;
  pk_data : Forall byte (p_data k) ∧ (List.length (p_data k) <= 1460)%nat }.

Lemma option_bytes_len k : packet_ok k →
  Forall byte (option_bytes (p_mss k)) ∧
  List.length (option_bytes (p_mss k)) = match p_mss k with Some _ => 8%nat | None => 0%nat end.
Proof.
  intros Hk. destruct (p_mss k) as [m|] eqn:Em; [|done]. cbn [option_bytes].
  destruct (get16_put16 m (pk_mss _ Hk m Em)) as (b0 & b1 & -> & _ & H0 & H1).
  split; [|done]. unfold byte in *. repeat constructor; unfold OPT_MSS, OPT_END; lia.
Qed.

(** C27: the bytes of a segment have a checksum that verifies to 0 with the pseudo
    header of either side, and [tcp_input]'s reading of them gives back the ports,
    the sequence and acknowledgement numbers, the flags, the window, the header
    length, and after it exactly the options and the data. *)
Theorem segment_roundtrip (rsv : Z) (k : packet) (Hk : packet_ok k) (Hrsv : 0 ≤ rsv < 16) :
  ∃ bs h, segment_bytes false rsv k = Ok bs ∧
    inet_chksum bs (Z.of_nat (List.length bs)) (p_raddr k) (p_laddr k) 6 = Ok 0 ∧
    read_header bs = Ok (h, (20 + Z.of_nat (List.length (option_bytes (p_mss k)))) / 4) ∧
    sport h = p_sport k ∧ dport h = p_dport k ∧ h_seqno h = p_seqno k ∧ h_ackno h = p_ackno k ∧
    h_flags h = p_flags k ∧ h_window h = p_window k ∧
    h_options h = option_bytes (p_mss k) ++ p_data k.
Proof.
  destruct (option_bytes_len k Hk) as [Hob Hol]. destruct Hk as [[P1 P2] [S1 S2] [A1 A2] Fl W Hm [D1 D2]].
  destruct (get16_put16 _ P1) as (x0 & x1 & Ex & Gx & Bx0 & Bx1).
  destruct (get16_put16 _ P2) as (y0 & y1 & Ey & Gy & By0 & By1).
  destruct (get16_put16 _ W) as (w0 & w1 & Ew & Gw & Bw0 & Bw1).
  destruct (get32_put32 _ S1) as (q0 & q1 & q2 & q3 & Eq & Gq & Bq).
  destruct (get32_put32 _ S2) as (a0 & a1 & a2 & a3 & Ea & Ga & Ba).
  unfold segment_bytes, header_bytes. rewrite Ex, Ey, Ew, Eq, Ea.
  set (ob := option_bytes (p_mss k)) in *. set (l := (20 + Z.of_nat (List.length ob)) / 4).
  assert (5 ≤ l ≤ 7) as Hl.
  { unfold l. rewrite Hol. destruct (p_mss k); vm_compute; split; discriminate. }
  set (pre := [x0; x1] ++ [y0; y1] ++ [q0; q1; q2; q3] ++ [a0; a1; a2; a3] ++
              [rsv + 16 * l; p_flags k] ++ [w0; w1]).
  assert (∀ ck, [x0; x1] ++ [y0; y1] ++ [q0; q1; q2; q3] ++ [a0; a1; a2; a3] ++
    [rsv + 16 * l; p_flags k] ++ [w0; w1] ++ ck ++ [0; 0] ++ ob ++ p_data k =
    pre ++ ck ++ ([0; 0] ++ ob ++ p_data k)) as Happ by done.
  rewrite !Happ. set (post := [0; 0] ++ ob ++ p_data k).
  assert (Forall byte pre) as Hpre.
  { unfold pre. repeat (apply Forall_app; split); try done; repeat constructor;
      try done; unfold byte in *; lia. }
  assert (Forall byte post) as Hpost.
  { unfold post. repeat (apply Forall_app; split); try done. by repeat constructor. }
  set (len := Z.of_nat (List.length (pre ++ [0; 0] ++ post))).
  assert (0 ≤ len < 65536) as Hlen.
  { unfold len, post. rewrite !length_app, Hol. cbn. destruct (p_mss k); lia. }
  destruct (inet_stored pre post 8 len (p_raddr k) (p_laddr k) 6) as (c & -> & Hc); [done..|].
  cbn [res_bind]. rewrite Happ. eexists (pre ++ le16 c ++ post), _. split; [done|].
  assert (List.length (pre ++ le16 c ++ post) = List.length (pre ++ [0; 0] ++ post)) as -> by done.
  fold len. split; [done|]. split.
  - cbn -[Z.add Z.mul get16 get32]. f_equal. f_equal. rewrite Z.shiftr_div_pow2 by lia.
    change (2 ^ 4) with 16. Z.div_mod_to_equations; lia.
  - cbn [sport dport h_seqno h_ackno h_flags h_window h_options]. by repeat split.
Qed.

(** Bytes behind the segment only follow the options. *)
Lemma read_header_app bs slack h l : read_header bs = Ok (h, l) →
  read_header (bs ++ slack) = Ok (h <| h_options $= λ o, o ++ slack |>, l) ∧
  List.length bs = (20 + List.length (h_options h))%nat.
Proof.
  do 20 (destruct bs as [|? bs]; [done|]). intros [= <- <-]. done.
Qed.

Lemma read_header_drop bs h l n : read_header bs = Ok (h, l) → (20 <= n)%nat →
  drop n bs = drop (n - 20) (h_options h).
Proof.
  do 20 (destruct bs as [|? bs]; [done|]). intros [= <- <-] Hn.
  replace n with (20 + (n - 20))%nat at 1 by lia. done.
Qed.

Lemma segment_roundtrip_witness : ∃ bs h,
  segment_bytes false 0 (mk_packet 33558538 16781322 4097 80 1000 0 TCP_SYN 8192 (Some 1460) []) = Ok bs ∧
  read_header bs = Ok (h, 7) ∧ h_seqno h = 1000 ∧ dport h = 80.
Proof.
  destruct (segment_roundtrip 0 (mk_packet 33558538 16781322 4097 80 1000 0 TCP_SYN 8192 (Some 1460) []))
    as (bs & h & H1 & _ & H3 & _ & H4 & H5 & _); [|lia|].
  - split; cbn; try (unfold byte, TCP_SYN; lia); [|split; [constructor|lia]]. intros m [= <-]. lia.
  - exists bs, h. split; [exact H1|]. split; [exact H3|]. split; [exact H5|exact H4].
Defined.
