(* ===== verification/TcpOutput.v ===== *)
(** * TCP output: segmentation, transmission and retransmission
    ([src/src/net/tcp_output.c], [tcp_write_option] of [tcp_option.c])

    [route] is the address of the interface [netif_route] chooses for a
    destination.  A function that sends returns the packets it hands to
    [ip_output], in order. *)
From S2P Require Import Prelude Dlist Tcp.

(** The length of the header [tcp_write_option] leaves: a SYN carries the MSS
    option and the end option. *)
Definition tcp_write_option (fl : Z) : Z := if has fl TCP_SYN then 20 + 4 + 4 else 20.

Section output.
Context (route : Z → Z).

Definition adv_window (p : tcp_pcb_t) : Z := if rcv_wnd p <? rcv_mss p then 0 else rcv_wnd p.

Definition tcp_output_seg (p : tcp_pcb_t) (b : pbuf_t) : res (tcp_pcb_t * pbuf_t * packet) :=
  assert! count b <=? 2 in
  let syn := has (tflags b) TCP_SYN in
  let b := if syn then b else b <| tflags $= λ f, Z.lor f TCP_ACK |> in
  let ack := rcv_nxt p in
  let p := if syn then p else clear_flag (Z.lor TF_ACK_DELAY TF_ACK_NOW) p in
  let p := if laddr p =? 0 then p <| laddr := route (raddr p) |> else p in
  Ok (p, b, mk_packet (laddr p) (raddr p) (lport p) (rport p) (seqno b) ack (tflags b)
              (adv_window p) (if mss_opt b then Some (rcv_mss p) else None) (data b)).

Definition tcp_send_ack (p : tcp_pcb_t) (fl : Z) : res (tcp_pcb_t * list packet) :=
  let b := mk_pbuf 0 (snd_nxt p) [] fl false 1 20 0 in
  let! (p', _, k) := tcp_output_seg p b in Ok (p', [k]).

(** ** [tcp_enqueue] *)

(** One turn of the loop, on the bytes [rest] that are left: the control block,
    the identity of the next buffer, the bytes left and the buffer filled.  A
    buffer that is longer than the MSS would make the turn read past the data. *)
Definition enqueue_turn (fl sz : Z) (p : tcp_pcb_t) (next : Z) (rest : list Z)
    : res (tcp_pcb_t * Z * list Z * pbuf_t) :=
  let '(b, next) :=
    match snd_buf p with
    | Some b => (b, next)
    | None => (mk_pbuf next (snd_nbb p) [] fl (has fl TCP_SYN) 1 (tcp_write_option fl) 0, next + 1)
    end in
  let b := b <| tflags $= λ f, Z.lor f fl |> in
  let seglen := snd_mss p - size b in
  let left := Z.of_nat (List.length rest) in
  let len := if left <? seglen then left else seglen in
  if len <? 0 then Stop Fault
  else
    let b := b <| data $= λ d, d ++ take (Z.to_nat len) rest |> <| total $= λ t, t + len |> in
    let p := p <| snd_nbb $= λ n, u32 (n + len) |> in
    let keep := negb (has (flags p) TF_NODELAY) && (size b <? snd_mss p) && (0 <? sz) in
    let p := if keep then p <| snd_buf := Some b |>
             else p <| unsent $= Abs.insert_sort seq_key b |> <| snd_buf := None |> in
    Ok (p, next, drop (Z.to_nat len) rest, b).

Fixpoint enqueue_loop (fuel : nat) (fl sz : Z) (p : tcp_pcb_t) (next : Z) (rest : list Z)
    : res (tcp_pcb_t * Z * pbuf_t) :=
  match fuel with
  | O => Stop Fuel
  | S f =>
      let! (p, next, rest, b) := enqueue_turn fl sz p next rest in
      match rest with
      | [] => Ok (p, next, b)
      | _ => enqueue_loop f fl sz p next rest
      end
  end.

(** [tcp->psh = true] on the last buffer, wherever it is. *)
Definition push_flag (id : Z) (b : pbuf_t) : pbuf_t :=
  if bufid b =? id then b <| tflags $= λ f, Z.lor f TCP_PSH |> else b.

Definition set_psh (id : Z) (p : tcp_pcb_t) : tcp_pcb_t :=
  p <| snd_buf $= fmap (push_flag id) |> <| unsent $= fmap (push_flag id) |>.

Definition tcp_enqueue (p : tcp_pcb_t) (next : Z) (bytes : list Z) (fl : Z)
    : res (tcp_pcb_t * Z) :=
  let p := if snd_mss p <? TCP_DEFAULT_MSS then p <| snd_mss := TCP_DEFAULT_MSS |> else p in
  let sz := Z.of_nat (List.length bytes) in
  let! (p, next, b) := enqueue_loop (S (List.length bytes)) fl sz p next bytes in
  Ok (if 0 <? size b then set_psh (bufid b) p else p, next).

(** ** [tcp_output] *)

Definition seg_end (b : pbuf_t) : Z := u32 (seqno b + size b).

(** One segment that fits the window. *)
Definition send_seg (p : tcp_pcb_t) (b : pbuf_t) : res (tcp_pcb_t * packet) :=
  let nxt := seg_end b in
  let p := if negb (rtt p =? 0) && TCP_SEQ_LEQ (rtt_seq p) (snd_una p)
           then p <| rtt := 1 |> <| rtt_seq := nxt |> else p in
  let p := p <| snd_nxt := nxt |> in
  let p := if TCP_SEQ_GT nxt (snd_max p) then p <| snd_max := nxt |> else p in
  assert! count b =? 1 in
  let b := b <| count := 2 |> in
  let p := p <| unsent $= List.filter (λ c, negb (bufid c =? bufid b)) |> in
  let! (p, b, k) := tcp_output_seg p b in
  let p := p <| unacked $= Abs.insert_sort seq_key b |> in
  Ok (set_timer TIMER_REXMIT (rto p) p, k).

Fixpoint output_loop (segs : list pbuf_t) (wnd : Z) (p : tcp_pcb_t) (sent : list packet)
    : res (tcp_pcb_t * list packet) :=
  match segs with
  | [] => Ok (p, sent)
  | b :: segs' =>
      if TCP_SEQ_GT (seg_end b) (u32 (snd_una p + wnd)) then Ok (p, sent)
      else let! (p, k) := send_seg p b in output_loop segs' wnd p (sent ++ [k])
  end.

Definition tcp_output (p : tcp_pcb_t) : res (Z * tcp_pcb_t * list packet) :=
  let p := if (snd_max p =? snd_una p) && (rto p <=? idle p)
           then p <| snd_cwnd := snd_mss p |> else p in
  let wnd := Z.min (snd_cwnd p) (snd_wnd p) in
  if wnd <? TCP_DEFAULT_MSS then Ok (- EINVAL, p, [])
  else
    let! (p, sent) := output_loop (unsent p) wnd p [] in
    if has (flags p) TF_ACK_NOW then
      let! (p, ks) := tcp_send_ack p TCP_ACK in Ok (EOK, p, sent ++ ks)
    else Ok (EOK, p, sent).

(** [tcp_rexmit]: the unacknowledged segments that are not on their way out go
    back to the unsent list. *)
Fixpoint requeue (segs : list pbuf_t) (p : tcp_pcb_t) : tcp_pcb_t :=
  match segs with
  | [] => p
  | b :: segs' =>
      requeue segs'
        (if 1 <? count b then p
         else p <| unacked $= List.filter (λ c, negb (bufid c =? bufid b)) |>
                <| unsent $= Abs.insert_sort seq_key b |>)
  end.

Definition tcp_rexmit (p : tcp_pcb_t) : res (tcp_pcb_t * list packet) :=
  let! (_, p, ks) := tcp_output (requeue (unacked p) p) in
  Ok (set_timer TIMER_REXMIT (rto p) p, ks).

(** [pbuf_put] by the interface when a packet is out. *)
Definition sent_out (id : Z) (b : pbuf_t) : pbuf_t :=
  if bufid b =? id then b <| count $= λ c, c - 1 |> else b.

(** ** Resets and probes *)
Definition tcp_reset (seq ack la lp ra rp : Z) : packet :=
  mk_packet la ra lp rp seq ack (Z.lor TCP_ACK TCP_RST) 0 None [].

Definition tcp_response (p : tcp_pcb_t) (seq ack fl : Z) : packet :=
  mk_packet (laddr p) (raddr p) (lport p) (rport p) seq ack fl (adv_window p) None [].
End output.

(** ** The byte stream of a connection *)

(** Segments that follow one another from [a] to [z]. *)
Fixpoint contig (a : Z) (segs : list pbuf_t) (z : Z) : Prop :=
  match segs with
  | [] => a = z
  | b :: segs' => seqno b = a ∧ contig (a + size b) segs' z
  end.

(** The bytes that are queued and not sent. *)
Definition queued (p : tcp_pcb_t) : list pbuf_t := unsent p ++ option_list (snd_buf p).
Definition stream (bs : list pbuf_t) : list Z := concat (data <$> bs).

Lemma size_nonneg b : 0 ≤ size b.
Proof. unfold size. lia. Qed.

Lemma contig_app a xs ys z : contig a (xs ++ ys) z ↔ ∃ m, contig a xs m ∧ contig m ys z.
Proof.
  revert a. induction xs as [|x xs IH]; intros a; cbn [app contig].
  - naive_solver.
  - rewrite IH. naive_solver.
Qed.

Lemma contig_range a segs z : contig a segs z →
  a ≤ z ∧ ∀ b, b ∈ segs → a ≤ seqno b ∧ seqno b + size b ≤ z.
Proof.
  revert a. induction segs as [|c segs IH]; intros a; cbn [contig].
  - intros ->. split; [lia|]. by intros b ?%elem_of_nil.
  - intros [<- [Hz Hb]%IH]. pose proof (size_nonneg c). split; [lia|].
    intros b [->|Hin]%elem_of_cons; [lia|]. specialize (Hb b Hin). lia.
Qed.

Lemma contig_stream a segs z : contig a segs z → Z.of_nat (List.length (stream segs)) = z - a.
Proof.
  revert a. induction segs as [|c segs IH]; intros a; cbn [contig].
  - intros ->. cbn. lia.
  - intros [<- H%IH]. unfold stream in *. cbn. rewrite length_app. unfold size in H. lia.
Qed.

(** Segments with the same places and bytes. *)
Lemma contig_fmap (f : pbuf_t → pbuf_t) a segs z :
  (∀ b, seqno (f b) = seqno b ∧ data (f b) = data b) →
  contig a (f <$> segs) z ↔ contig a segs z.
Proof.
  intros Hf. revert a. induction segs as [|c segs IH]; intros a; [done|]. cbn [fmap list_fmap contig].
  destruct (Hf c) as [E1 E2]. unfold size. by rewrite E1, E2, IH.
Qed.

Lemma stream_fmap (f : pbuf_t → pbuf_t) segs : (∀ b, data (f b) = data b) →
  stream (f <$> segs) = stream segs.
Proof. intros Hf. unfold stream. rewrite <-list_fmap_compose. f_equal. apply list_fmap_ext. intros; apply Hf. Qed.

Lemma push_flag_keeps id b : seqno (push_flag id b) = seqno b ∧ data (push_flag id b) = data b ∧
  count (push_flag id b) = count b ∧ bufid (push_flag id b) = bufid b.
Proof. unfold push_flag. by destruct (bufid b =? id). Qed.

Lemma stream_app xs ys : stream (xs ++ ys) = stream xs ++ stream ys.
Proof. unfold stream. by rewrite fmap_app, concat_app. Qed.

(** What [tcp_enqueue] relies on and keeps: the queue covers the sequence numbers
    from [a] up to [snd_nbb], the partial buffer is shorter than the MSS. *)
Record queue_ok (a : Z) (p : tcp_pcb_t) : Prop := {
  qo_low : 0 ≤ a;
  qo_mss : TCP_DEFAULT_MSS ≤ snd_mss p;
  qo_contig : contig a (queued p) (snd_nbb p);
  qo_partial : ∀ b, snd_buf p = Some b → size b < snd_mss p }.

Section turn.
Context (a fl sz next : Z) (p : tcp_pcb_t) (rest : list Z) (Hq : queue_ok a p).
Context (Hroom : snd_nbb p + Z.of_nat (List.length rest) < 2 ^ 31).

Lemma enqueue_turn_ok : ∃ p' next' b n,
  enqueue_turn fl sz p next rest = Ok (p', next', drop n rest, b) ∧
  queue_ok a p' ∧ snd_nbb p' = snd_nbb p + Z.of_nat n ∧ (n <= List.length rest)%nat ∧
  (rest ≠ [] → (0 < n)%nat) ∧
  stream (queued p') = stream (queued p) ++ take n rest ∧
  snd_mss p' = snd_mss p ∧ flags p' = flags p ∧ unacked p' = unacked p ∧
  size b ≤ snd_mss p ∧
  (∀ c, c ∈ unsent p' → c ∈ unsent p ∨ c = b) ∧
  (snd_buf p' = None ∨ sz ≠ 0 ∧ has (flags p) TF_NODELAY = false).
Proof using All.
  destruct Hq as [Ha Hm Hc Hp]. unfold enqueue_turn.
  set (b0 := match snd_buf p with
             | Some b => b
             | None => mk_pbuf next (snd_nbb p) [] fl (has fl TCP_SYN) 1 (tcp_write_option fl) 0
             end).
  assert (∃ nx, (match snd_buf p with
    | Some b => (b, next)
    | None => (mk_pbuf next (snd_nbb p) [] fl (has fl TCP_SYN) 1 (tcp_write_option fl) 0, next + 1)
    end) = (b0, nx)) as [nx ->] by (unfold b0; destruct (snd_buf p); eauto).
  cbn zeta. set (b1 := b0 <| tflags $= _ |>).
  assert (∃ m, contig a (unsent p) m ∧ seqno b0 = m ∧ m + size b0 = snd_nbb p ∧
    stream (queued p) = stream (unsent p) ++ data b0 ∧ 0 ≤ size b0 < snd_mss p)
    as (m & Hc1 & Hb0 & Hend & Hst & Hsz).
  { unfold queued in *. unfold b0. destruct (snd_buf p) as [b|] eqn:Eb; cbn [option_list] in *.
    - apply contig_app in Hc as (m & Hc1 & Hc2 & Hc3). cbn in Hc3. exists m.
      pose proof (size_nonneg b). specialize (Hp b eq_refl). rewrite stream_app.
      unfold stream at 2; cbn. rewrite app_nil_r. repeat split; try done; lia.
    - rewrite app_nil_r in *. exists (snd_nbb p). unfold TCP_DEFAULT_MSS in *.
      unfold size; cbn. rewrite app_nil_r. repeat split; try done; lia. }
  assert (size b1 = size b0) as Esz by done.
  set (left := Z.of_nat (List.length rest)). rewrite Esz.
  set (len := if left <? snd_mss p - size b0 then left else snd_mss p - size b0).
  assert (0 ≤ len ≤ left ∧ (0 < left → 0 < len) ∧ size b0 + len ≤ snd_mss p) as (Hlen & Hpos & Hle).
  { unfold len. destruct (Z.ltb_spec left (snd_mss p - size b0)); lia. }
  rewrite (proj2 (Z.ltb_ge len 0)) by lia.
  set (b2 := b1 <| data $= _ |> <| total $= _ |>). set (p1 := p <| snd_nbb $= _ |>).
  assert (size b2 = size b0 + len) as Esz2.
  { unfold size, b2, b1; upd_simpl. rewrite length_app, length_take. unfold size in *. lia. }
  destruct (contig_range _ _ _ Hc1) as [Ham _].
  change (2 ^ 31) with 2147483648 in *.
  assert (snd_nbb p1 = snd_nbb p + len) as Enbb.
  { unfold p1; upd_simpl. apply u32_small. pose proof (size_nonneg b0). unfold left in *. lia. }
  assert (Abs.insert_sort seq_key b2 (unsent p) = unsent p ++ [b2]) as Hins.
  { apply insert_sort_last. intros x Hx. destruct (contig_range _ _ _ Hc1) as [_ Hr].
    destruct (Hr x Hx) as [H1 H2]. pose proof (size_nonneg x). unfold seq_key.
    change (seqno b2) with (seqno b0). rewrite !s32_small; unfold left in *; lia. }
  assert (contig a (unsent p ++ [b2]) (snd_nbb p1)) as Hc2.
  { apply contig_app. exists m. split; [done|]. cbn. split; [done|]. rewrite Esz2, Enbb. lia. }
  assert (stream (unsent p ++ [b2]) = stream (queued p) ++ take (Z.to_nat len) rest) as Hst2.
  { rewrite Hst, stream_app. unfold stream at 2; cbn. by rewrite app_nil_r, <-app_assoc. }
  change (flags p1) with (flags p). change (snd_mss p1) with (snd_mss p).
  change (snd_mss (p1 <| _ := _ |>)) with (snd_mss p).
  destruct (negb (has (flags p) TF_NODELAY) && (size b2 <? snd_mss p) && (0 <? sz)) eqn:Ek.
  - apply andb_true_iff in Ek as [[Ek1%negb_true_iff Ek2]%andb_true_iff Ek3].
    eexists _, nx, b2, (Z.to_nat len). split; [done|]. split; [split; try done|].
    + intros b [= <-]. change (size b2 < snd_mss p). lia.
    + unfold queued in *; upd_simpl. cbn [option_list].
      repeat split; try done; unfold left in *; try lia; [|auto|right; split; [lia|done]].
      intros Hr. destruct rest; [done|]. cbn [List.length] in *. lia.
  - eexists _, nx, b2, (Z.to_nat len). split; [done|]. split; [split; try done|].
    + unfold queued; upd_simpl. cbn [option_list]. rewrite app_nil_r.
      change (unsent p1) with (unsent p). by rewrite Hins.
    + unfold queued at 1; upd_simpl. cbn [option_list]. rewrite app_nil_r.
      change (unsent p1) with (unsent p). rewrite Hins.
      repeat split; try done; unfold left in *; try lia; [| |by left].
      * intros Hr. destruct rest; [done|]. cbn [List.length] in *. lia.
      * intros c Hcin. apply elem_of_app in Hcin as [|?%list_elem_of_singleton]; auto.
Qed.
End turn.

Lemma enqueue_loop_ok a fl sz fuel : ∀ p next rest, queue_ok a p →
  snd_nbb p + Z.of_nat (List.length rest) < 2 ^ 31 → (List.length rest < fuel)%nat →
  ∃ p' next' b, enqueue_loop fuel fl sz p next rest = Ok (p', next', b) ∧
    queue_ok a p' ∧ snd_nbb p' = snd_nbb p + Z.of_nat (List.length rest) ∧
    stream (queued p') = stream (queued p) ++ rest ∧
    snd_mss p' = snd_mss p ∧ flags p' = flags p ∧ unacked p' = unacked p ∧
    (∀ c, c ∈ unsent p' → c ∈ unsent p ∨ size c ≤ snd_mss p) ∧
    (snd_buf p' = None ∨ sz ≠ 0 ∧ has (flags p) TF_NODELAY = false).
Proof.
  induction fuel as [|fuel IH]; intros p next rest Hq Hroom Hf; [lia|]. cbn [enqueue_loop].
  destruct (enqueue_turn_ok a fl sz next p rest Hq Hroom)
    as (p1 & next1 & b & n & -> & Hq1 & Hn1 & Hle & Hpos & Hst & Em & Ef & Eu & Hb & Hin & Hlast).
  cbn [res_bind].
  assert (Z.of_nat (List.length (drop n rest)) = Z.of_nat (List.length rest) - Z.of_nat n) as Hld
    by (rewrite length_drop; lia).
  assert (∀ c, c ∈ unsent p1 → c ∈ unsent p ∨ size c ≤ snd_mss p) as Hin1
    by (intros c [?| ->]%Hin; auto).
  destruct (drop n rest) as [|x xs] eqn:Ed.
  - cbn in Hld. exists p1, next1, b. split; [done|]. split; [done|]. split; [lia|].
    split; [|by auto 10].
    rewrite Hst. f_equal. rewrite <-(take_drop n rest) at 2. by rewrite Ed, app_nil_r.
  - assert (rest ≠ []) as Hne by (intros ->; destruct n; done). specialize (Hpos Hne).
    destruct (IH p1 next1 (x :: xs)) as (p2 & next2 & b2 & -> & Hq2 & Hn2 & Hst2 & Em2 & Ef2 & Eu2 & Hin2 & Hlast2);
      [done|lia|lia|].
    exists p2, next2, b2. split; [done|]. split; [done|]. split; [lia|].
    split; [|split; [congruence|split; [congruence|split; [congruence|split]]]].
    + rewrite Hst2, Hst, <-app_assoc. f_equal. by rewrite <-Ed, take_drop.
    + intros c [Hc|Hc]%Hin2; [auto|]. right. by rewrite <-Em.
    + by rewrite <-Ef.
Qed.

Lemma set_psh_ok a id p : queue_ok a p → queue_ok a (set_psh id p) ∧
  stream (queued (set_psh id p)) = stream (queued p) ∧ snd_nbb (set_psh id p) = snd_nbb p.
Proof.
  intros [Ha Hm Hc Hp].
  assert (queued (set_psh id p) = push_flag id <$> queued p) as Eq.
  { unfold queued, set_psh; upd_simpl. rewrite fmap_app. f_equal. by destruct (snd_buf p). }
  split; [split; try done|split; [|done]].
  - rewrite Eq. apply contig_fmap; [|done]. intros b. destruct (push_flag_keeps id b); naive_solver.
  - intros b. unfold set_psh; upd_simpl. rewrite fmap_Some. intros (c & Hc' & ->).
    unfold size. destruct (push_flag_keeps id c) as (_ & -> & _). by apply Hp.
  - rewrite Eq. apply stream_fmap. intros b. apply push_flag_keeps.
Qed.

(** C21: [tcp_enqueue] terminates and appends exactly the caller's bytes to the byte
    stream that is queued to be sent, in segments that are no longer than the MSS
    and follow one another in sequence space without gap or overlap; only
    without TF_NODELAY, and with data, can the last of them stay in the
    partial buffer, which is shorter than the MSS. *)
Theorem enqueue_stream (p : tcp_pcb_t) (next a fl : Z) (bytes : list Z)
    (Hq : queue_ok a p) (Hroom : snd_nbb p + Z.of_nat (List.length bytes) < 2 ^ 31) :
  ∃ p' next', tcp_enqueue p next bytes fl = Ok (p', next') ∧ queue_ok a p' ∧
    stream (queued p') = stream (queued p) ++ bytes ∧
    snd_nbb p' = snd_nbb p + Z.of_nat (List.length bytes) ∧
    (∀ c, c ∈ unsent p' → (∃ d, d ∈ unsent p ∧ seqno c = seqno d ∧ data c = data d) ∨
       size c ≤ snd_mss p') ∧
    (∀ b, snd_buf p' = Some b → size b < snd_mss p' ∧ bytes ≠ [] ∧
       has (flags p) TF_NODELAY = false).
Proof.
  unfold tcp_enqueue. rewrite (proj2 (Z.ltb_ge _ _)) by apply Hq. cbn zeta.
  destruct (enqueue_loop_ok a fl (Z.of_nat (List.length bytes)) (S (List.length bytes)) p next bytes)
    as (p1 & next1 & b & -> & Hq1 & Hn1 & Hst1 & Em & Ef & Eu & Hin & Hlast); [done|done|lia|].
  cbn [res_bind].
  assert (∀ c, snd_buf p1 = Some c → size c < snd_mss p1 ∧ bytes ≠ [] ∧
    has (flags p) TF_NODELAY = false) as Hbuf.
  { intros c Hc. split; [by eapply qo_partial|]. destruct Hlast as [|[Hs Hf]]; [congruence|].
    split; [|done]. by intros ->. }
  destruct (0 <? size b); eexists _, next1; (split; [done|]).
  - destruct (set_psh_ok a (bufid b) p1 Hq1) as (H1 & H2 & H3).
    split; [done|]. split; [congruence|]. split; [congruence|]. unfold set_psh; upd_simpl. split.
    + intros c (d & -> & Hd)%list_elem_of_fmap.
      destruct (push_flag_keeps (bufid b) d) as (E1 & E2 & _).
      destruct (Hin d Hd) as [Hd'|Hd']; [left; by exists d|right]. unfold size. by rewrite E2, Em.
    + intros c (d & Hd & ->)%fmap_Some. destruct (push_flag_keeps (bufid b) d) as (_ & E2 & _).
      unfold size. rewrite E2. by apply Hbuf.
  - split; [done|]. split; [done|]. split; [done|]. split; [|done].
    intros c [Hc|Hc]%Hin; [left; by exists c|right; by rewrite Em].
Qed.

(** ** What [tcp_output] sends *)

(** The segments of [pre] as [tcp_output] puts them on the wire. *)
Definition on_wire (ack win : Z) (b : pbuf_t) (k : packet) : Prop :=
  p_seqno k = seqno b ∧ p_data k = data b ∧ p_ackno k = ack ∧ p_window k = win ∧
  p_flags k = (if has (tflags b) TCP_SYN then tflags b else Z.lor (tflags b) TCP_ACK).

Lemma filter_other (b : pbuf_t) bs : bufid b ∉ (bufid <$> bs) →
  List.filter (λ c, negb (bufid c =? bufid b)) bs = bs.
Proof.
  induction bs as [|c bs IH]; intros Hn; [done|]. cbn in Hn |- *.
  apply not_elem_of_cons in Hn as [Hne Hn].
  rewrite (proj2 (Z.eqb_neq (bufid c) (bufid b))) by congruence. cbn. by rewrite IH.
Qed.

Section send.
Context (route : Z → Z).

(** What sending a segment keeps, besides the lists. *)
Record same_window (p p' : tcp_pcb_t) : Prop := {
  w_una : snd_una p' = snd_una p; w_rcv : rcv_nxt p' = rcv_nxt p;
  w_adv : adv_window p' = adv_window p; w_mss : snd_mss p' = snd_mss p;
  w_state : state p' = state p; w_nbb : snd_nbb p' = snd_nbb p;
  w_buf : snd_buf p' = snd_buf p; w_recved : recved p' = recved p;
  w_rto : rto p' = rto p }.

Lemma send_seg_ok p b rest : unsent p = b :: rest → NoDup (bufid <$> unsent p) → count b = 1 →
  ∃ p' k, send_seg route p b = Ok (p', k) ∧ unsent p' = rest ∧
    on_wire (rcv_nxt p) (adv_window p) b k ∧ same_window p p' ∧
    (∃ c, unacked p' ≡ₚ c :: unacked p ∧ bufid c = bufid b ∧ seqno c = seqno b ∧
      data c = data b ∧ count c = 2) ∧
    snd_nxt p' = seg_end b ∧ timers p' = <[TIMER_REXMIT := rto p]> (timers p).
Proof.
  intros Hu Hnd Hcnt. unfold send_seg. rewrite Hcnt. cbn [Z.eqb Pos.eqb check res_bind].
  set (p1 := if _ && _ then _ else p). set (p2 := p1 <| snd_nxt := _ |>).
  set (p3 := if TCP_SEQ_GT _ _ then _ else p2). set (b1 := b <| count := 2 |>).
  set (p4 := p3 <| unsent $= _ |>).
  assert (same_window p p4 ∧ unsent p4 = rest ∧ unacked p4 = unacked p ∧ snd_nxt p4 = seg_end b ∧
    timers p4 = timers p) as (Hsw & Hu4 & Ha4 & Hn4 & Ht4).
  { assert (unsent p3 = unsent p ∧ unacked p3 = unacked p ∧ snd_nxt p3 = seg_end b ∧
      timers p3 = timers p ∧ same_window p p3) as (E1 & E2 & E3 & E4 & E5).
    { unfold p3, p2, p1. destruct (_ && _), (TCP_SEQ_GT _ _); repeat split. }
    unfold p4; upd_simpl. rewrite E1, Hu. split; [by destruct E5|]. split; [|done].
    cbn [List.filter]. change (bufid b1) with (bufid b). rewrite Z.eqb_refl. cbn [negb].
    apply filter_other. rewrite Hu in Hnd. cbn in Hnd. by apply NoDup_cons in Hnd as [? _]. }
  clearbody p4. clear p1 p2 p3.
  unfold tcp_output_seg. change (count b1) with 2. cbn [Z.leb Z.compare Pos.compare Pos.compare_cont check res_bind].
  change (tflags b1) with (tflags b).
  set (b2 := if has (tflags b) TCP_SYN then b1 else _).
  set (p5 := if has (tflags b) TCP_SYN then p4 else _).
  set (p6 := if laddr p5 =? 0 then _ else p5).
  assert (same_window p4 p6 ∧ unsent p6 = unsent p4 ∧ unacked p6 = unacked p4 ∧ snd_nxt p6 = snd_nxt p4 ∧
    timers p6 = timers p4) as (Hsw6 & Hu6 & Ha6 & Hn6 & Ht6).
  { unfold p6, p5. destruct (has _ _); destruct (laddr _ =? 0); repeat split. }
  assert (rcv_nxt p5 = rcv_nxt p4) as Er5 by (unfold p5; by destruct (has _ _)).
  assert (seqno b2 = seqno b ∧ data b2 = data b ∧ bufid b2 = bufid b ∧ count b2 = 2 ∧
    tflags b2 = (if has (tflags b) TCP_SYN then tflags b else Z.lor (tflags b) TCP_ACK))
    as (B1 & B2 & B3 & B4 & B5) by (unfold b2; by destruct (has _ _)).
  cbn [res_bind]. eexists _, _; split; [done|]. unfold set_timer; upd_simpl.
  split; [congruence|]. split; [|split; [|split; [|split]]].
  - unfold on_wire; cbn. destruct Hsw, Hsw6. rewrite B1, B2, B5.
    repeat split; congruence.
  - destruct Hsw, Hsw6. split; try (upd_simpl; congruence).
  - exists b2. rewrite insert_sort_perm, Ha6, Ha4. done.
  - congruence.
  - rewrite Ht6, Ht4. destruct Hsw, Hsw6. congruence.
Qed.

Definition in_window (p : tcp_pcb_t) (wnd : Z) (b : pbuf_t) : Prop :=
  TCP_SEQ_GT (seg_end b) (u32 (snd_una p + wnd)) = false.

(** A sent segment on the [unacked] list. *)
Definition in_flight (b c : pbuf_t) : Prop :=
  bufid c = bufid b ∧ seqno c = seqno b ∧ data c = data b ∧ count c = 2.

Lemma same_window_refl p : same_window p p.
Proof. done. Qed.

Lemma same_window_trans p1 p2 p3 : same_window p1 p2 → same_window p2 p3 → same_window p1 p3.
Proof. intros [] []. split; congruence. Qed.

(** The timers and [snd_nxt] after the segments [pre] went out. *)
Definition armed (p p' : tcp_pcb_t) (pre : list pbuf_t) : Prop :=
  timers p' = match pre with [] => timers p | _ => <[TIMER_REXMIT := rto p]> (timers p) end ∧
  snd_nxt p' = match last pre with Some b => seg_end b | None => snd_nxt p end.

Lemma armed_cons p p1 p2 b pre : same_window p p1 → snd_nxt p1 = seg_end b →
  timers p1 = <[TIMER_REXMIT := rto p]> (timers p) → armed p1 p2 pre → armed p p2 (b :: pre).
Proof.
  intros Hsw Hn Ht [H1 H2]. split.
  - rewrite H1, Ht, (w_rto _ _ Hsw). destruct pre; [done|]. by rewrite list_insert_insert_eq.
  - rewrite H2, Hn. destruct pre as [|x pre]; [done|]. change (last (b :: x :: pre)) with (last (x :: pre)).
    destruct (last (x :: pre)) eqn:E; [done|]. by apply last_None in E.
Qed.

Lemma output_loop_ok wnd segs : ∀ p sent, unsent p = segs →
  NoDup (bufid <$> segs) → Forall (λ b, count b = 1) segs →
  ∃ p' pre post ks pre', output_loop route segs wnd p sent = Ok (p', sent ++ ks) ∧
    segs = pre ++ post ∧ Forall (in_window p wnd) pre ∧
    (∀ b post', post = b :: post' → ¬ in_window p wnd b) ∧
    unsent p' = post ∧ Forall2 (on_wire (rcv_nxt p) (adv_window p)) pre ks ∧
    unacked p' ≡ₚ pre' ++ unacked p ∧ Forall2 in_flight pre pre' ∧ same_window p p' ∧
    armed p p' pre.
Proof.
  induction segs as [|b segs IH]; intros p sent Hu Hnd Hcnt; cbn [output_loop].
  - exists p, [], [], [], []. rewrite app_nil_r. repeat split; try done; by constructor.
  - destruct (TCP_SEQ_GT (seg_end b) (u32 (snd_una p + wnd))) eqn:Ew.
    + exists p, [], (b :: segs), [], []. rewrite app_nil_r. repeat split; try done; try by constructor.
      intros b' post' [= <- <-]. unfold in_window. by rewrite Ew.
    + apply Forall_cons in Hcnt as [Hb Hcnt].
      destruct (send_seg_ok p b segs) as (p1 & k & -> & Hu1 & Hk & Hsw & (c & Hc & Hfl) & Hn1 & Ht1); [done|by rewrite Hu|done|].
      cbn [res_bind]. apply NoDup_cons in Hnd as [_ Hnd].
      destruct (IH p1 (sent ++ [k]) Hu1 Hnd Hcnt)
        as (p2 & pre & post & ks & pre' & -> & -> & Hpre & Hpost & Hu2 & Hks & Hun & Hfly & Hsw2 & Har).
      assert (∀ x, in_window p1 wnd x ↔ in_window p wnd x) as Hiw
        by (intros x; unfold in_window; by rewrite (w_una _ _ Hsw)).
      exists p2, (b :: pre), post, (k :: ks), (c :: pre'). rewrite <-app_assoc. cbn [app].
      split; [done|]. split; [done|]. split.
      { constructor; [done|]. eapply Forall_impl; [exact Hpre|]. intros x. apply Hiw. }
      split; [intros x post' E; rewrite <-Hiw; by eapply Hpost|]. split; [done|].
      split; [constructor; [done|]; by rewrite <-(w_rcv _ _ Hsw), <-(w_adv _ _ Hsw)|].
      split; [rewrite Hun, Hc; by rewrite Permutation_middle|].
      split; [by constructor|]. split; [by eapply same_window_trans|by eapply armed_cons].
Qed.

(** C26: [tcp_output] sends nothing while the usable window is below the minimum;
    otherwise it sends exactly the longest prefix of the unsent segments that
    ends within [snd_una] plus the smaller of the two windows, in order, each
    once, with the current acknowledgement and advertised window, and keeps every
    sent segment for retransmission.  [snd_nxt] is then the end of the last segment
    sent, and the retransmission timer is set to [rto] exactly when a segment was
    sent; no other timer changes.  At most one pure ACK follows, when one is due. *)
Theorem tcp_output_window (p : tcp_pcb_t) (Hnd : NoDup (bufid <$> unsent p))
    (Hcnt : Forall (λ b, count b = 1) (unsent p)) :
  let cwnd := if (snd_max p =? snd_una p) && (rto p <=? idle p) then snd_mss p else snd_cwnd p in
  let wnd := Z.min cwnd (snd_wnd p) in
  ∃ err p' ks, tcp_output route p = Ok (err, p', ks) ∧ same_window p p' ∧
  (wnd < TCP_DEFAULT_MSS → err = - EINVAL ∧ ks = [] ∧ unsent p' = unsent p ∧ unacked p' = unacked p ∧
    timers p' = timers p) ∧
  (TCP_DEFAULT_MSS ≤ wnd → err = EOK ∧ ∃ pre post sent acks pre',
    unsent p = pre ++ post ∧ unsent p' = post ∧ ks = sent ++ acks ∧
    Forall (in_window p wnd) pre ∧ (∀ b post', post = b :: post' → ¬ in_window p wnd b) ∧
    Forall2 (on_wire (rcv_nxt p) (adv_window p)) pre sent ∧
    unacked p' ≡ₚ pre' ++ unacked p ∧ Forall2 in_flight pre pre' ∧ armed p p' pre ∧
    (acks = [] ∨ ∃ k, acks = [k] ∧ p_data k = [] ∧ p_flags k = TCP_ACK ∧ p_ackno k = rcv_nxt p)).
Proof.
  cbn zeta. unfold tcp_output.
  set (p0 := if (snd_max p =? snd_una p) && (rto p <=? idle p) then p <| snd_cwnd := snd_mss p |> else p).
  assert (snd_cwnd p0 = (if (snd_max p =? snd_una p) && (rto p <=? idle p) then snd_mss p else snd_cwnd p) ∧
    snd_wnd p0 = snd_wnd p ∧ same_window p p0 ∧ unsent p0 = unsent p ∧ unacked p0 = unacked p ∧
    timers p0 = timers p ∧ snd_nxt p0 = snd_nxt p)
    as (Ec & Ew & Hsw0 & Eu & Ea & Et & En) by (unfold p0; by destruct (_ && _)).
  rewrite <-Ec, <-Ew. set (wnd := Z.min _ _).
  assert (∀ x, in_window p0 wnd x ↔ in_window p wnd x) as Hiw
    by (intros x; unfold in_window; by rewrite (w_una _ _ Hsw0)).
  destruct (Z.ltb_spec wnd TCP_DEFAULT_MSS) as [Hw|Hw].
  - exists (- EINVAL), p0, []. split; [done|]. split; [done|]. split; [done|]. lia.
  - destruct (output_loop_ok wnd (unsent p0) p0 [] eq_refl)
      as (p1 & pre & post & ks & pre' & Hrun & Hsp & Hpre & Hpost & Hu1 & Hks & Hun & Hfly & Hsw1 & Har);
      [by rewrite Eu|by rewrite Eu|].
    rewrite Hrun. cbn [res_bind app].
    assert (∀ p' acks, unsent p' = unsent p1 → unacked p' = unacked p1 → same_window p1 p' →
      timers p' = timers p1 → snd_nxt p' = snd_nxt p1 →
      (acks = [] ∨ ∃ k, acks = [k] ∧ p_data k = [] ∧ p_flags k = TCP_ACK ∧ p_ackno k = rcv_nxt p) →
      same_window p p' ∧ (wnd < TCP_DEFAULT_MSS → EOK = - EINVAL ∧ ks ++ acks = [] ∧
        unsent p' = unsent p ∧ unacked p' = unacked p ∧ timers p' = timers p) ∧
      (TCP_DEFAULT_MSS ≤ wnd → EOK = EOK ∧ ∃ pre post sent acks' pre',
        unsent p = pre ++ post ∧ unsent p' = post ∧ ks ++ acks = sent ++ acks' ∧
        Forall (in_window p wnd) pre ∧ (∀ b post', post = b :: post' → ¬ in_window p wnd b) ∧
        Forall2 (on_wire (rcv_nxt p) (adv_window p)) pre sent ∧
        unacked p' ≡ₚ pre' ++ unacked p ∧ Forall2 in_flight pre pre' ∧ armed p p' pre ∧
        (acks' = [] ∨ ∃ k, acks' = [k] ∧ p_data k = [] ∧ p_flags k = TCP_ACK ∧ p_ackno k = rcv_nxt p)))
      as Hend.
    { intros p' acks E1 E2 Hsw2 E3 E4 Hacks.
      split; [eapply same_window_trans; [done|by eapply same_window_trans]|].
      split; [lia|]. intros _. split; [done|]. exists pre, post, ks, acks, pre'.
      split; [congruence|]. split; [congruence|]. split; [done|].
      split; [eapply Forall_impl; [exact Hpre|]; intros x; apply Hiw|].
      split; [intros b post' E; rewrite <-Hiw; by eapply Hpost|].
      split; [by rewrite <-(w_rcv _ _ Hsw0), <-(w_adv _ _ Hsw0)|].
      split; [by rewrite E2, Hun, Ea|]. split; [done|]. split; [|done].
      destruct Har as [A1 A2]. split; [by rewrite E3, A1, Et, (w_rto _ _ Hsw0)|by rewrite E4, A2, En]. }
    destruct (has (flags p1) TF_ACK_NOW).
    + unfold tcp_send_ack, tcp_output_seg. cbn [check res_bind count tflags Z.leb Z.compare Pos.compare Pos.compare_cont].
      change (has TCP_ACK TCP_SYN) with false. cbn iota.
      set (p2 := if laddr _ =? 0 then _ else _).
      eexists EOK, p2, _. split; [done|]. apply Hend.
      * unfold p2. by destruct (_ =? 0).
      * unfold p2. by destruct (_ =? 0).
      * unfold p2. by destruct (_ =? 0).
      * unfold p2. by destruct (_ =? 0).
      * unfold p2. by destruct (_ =? 0).
      * right. eexists. split; [done|]. cbn. split; [done|]. split; [done|].
        by rewrite (w_rcv _ _ Hsw1), (w_rcv _ _ Hsw0).
    + exists EOK, p1, ks. split; [done|].
      pose proof (Hend p1 [] eq_refl eq_refl (same_window_refl p1) eq_refl eq_refl (or_introl eq_refl)) as H.
      by rewrite app_nil_r in H.
Qed.
End send.

(** ** Concrete runs *)

Definition established : tcp_pcb_t :=
  fresh_pcb <| state := ESTABLISHED |> <| raddr := 33685514 |> <| lport := 4097 |> <| rport := 80 |>
    <| snd_una := 1000 |> <| snd_nxt := 1000 |> <| snd_nbb := 1000 |> <| snd_max := 1000 |>
    <| snd_wnd := 8192 |> <| rcv_nxt := 5000 |>.

Lemma established_queue : queue_ok 1000 established.
Proof. by split. Qed.

Lemma enqueue_stream_witness : ∃ p' next', tcp_enqueue established 7 [1; 2; 3] 0 = Ok (p', next') ∧
  stream (queued p') = [1; 2; 3].
Proof.
  destruct (enqueue_stream established 7 1000 0 [1; 2; 3] established_queue ltac:(vm_compute; reflexivity))
    as (p' & next' & H1 & _ & H2 & _). exists p', next'. split; [exact H1|exact H2].
Defined.

Definition one_seg : pbuf_t := mk_pbuf 7 1000 [1; 2; 3] TCP_PSH false 1 23 0.

Lemma tcp_output_window_witness : ∃ p' ks pre post,
  tcp_output (λ _, 16777226) (established <| unsent := [one_seg] |>) = Ok (EOK, p', ks) ∧
  [one_seg] = pre ++ post ∧ unsent p' = post.
Proof.
  destruct (tcp_output_window (λ _, 16777226) (established <| unsent := [one_seg] |>)) as
    (err & p' & ks & H1 & _ & _ & H2).
  - cbn. apply NoDup_singleton.
  - repeat constructor.
  - destruct H2 as (-> & pre & post & sent & acks & pre' & E1 & E2 & _);
      [vm_compute; discriminate|].
    exists p', ks, pre, post. split; [exact H1|]. split; [exact E1|exact E2].
Defined.

(** The segment is sent, with the ACK flag. *)
Example one_seg_sent : ∃ p' k,
  tcp_output (λ _, 16777226) (established <| unsent := [one_seg] |>) = Ok (EOK, p', [k]) ∧
  unsent p' = [] ∧ p_data k = [1; 2; 3] ∧ p_flags k = Z.lor TCP_PSH TCP_ACK.
Proof. eexists _, _. split; [vm_compute; reflexivity|]. vm_compute. done. Qed.
