(* ===== verification/TcpPcb.v ===== *)
(** * TCP control blocks: allocation, release and lookup ([src/src/net/tcp_pcb.c])

    [tcp_sys] is the state the TCP functions share: the control blocks by address,
    the four lists, the port map, what was handed to [ip_output] and the tasks that
    were unblocked, with their reasons, in order. *)
From S2P Require Import Prelude Dlist Bitmap Port Tcp.

Record tcp_sys := mk_tcp_sys {
  pcbs : gmap Z tcp_pcb_t;
  create_list : list Z; active_list : list Z; listen_list : list Z; timewait_list : list Z;
  ports : bitmap_t; wire : list packet; woken : list (Z * Z);
  clock : Z; next_buf : Z }.

#[export] Instance tcp_sys_expand : Expand tcp_sys := λ s,
  mk_tcp_sys (pcbs s) (create_list s) (active_list s) (listen_list s) (timewait_list s)
    (ports s) (wire s) (woken s) (clock s) (next_buf s).

Definition pcb_at (a : Z) : ST tcp_sys tcp_pcb_t := st_deref (λ s, pcbs s !! a).
Definition put_pcb (a : Z) (p : tcp_pcb_t) : ST tcp_sys unit :=
  st_mod (λ s, s <| pcbs $= <[a := p]> |>).
Definition mod_pcb (a : Z) (f : tcp_pcb_t → tcp_pcb_t) : ST tcp_sys unit :=
  let* p := pcb_at a in put_pcb a (f p).

(** [list_remove(&pcb->node)]: the node is in one of the four lists. *)
Definition pcb_unlink (a : Z) : ST tcp_sys unit :=
  let* s := st_get in
  do! st_check (Abs.mem a (create_list s) || Abs.mem a (active_list s) ||
                Abs.mem a (listen_list s) || Abs.mem a (timewait_list s));
  st_mod (λ s, s <| create_list $= Abs.remove a |> <| active_list $= Abs.remove a |>
                 <| listen_list $= Abs.remove a |> <| timewait_list $= Abs.remove a |>).

Definition send_all (ks : list packet) : ST tcp_sys unit :=
  st_mod (λ s, s <| wire $= λ w, w ++ ks |>).

Definition wake_task (w : option Z) (reason : Z) : ST tcp_sys unit :=
  match w with
  | None => st_ret tt
  | Some t => st_mod (λ s, s <| woken $= λ l, l ++ [(t, reason)] |>)
  end.

Definition ONIX_MAGIC : Z := 0x20220205.
Definition tcp_next_isn (s : tcp_sys) : Z := u32 (Z.lxor (clock s) ONIX_MAGIC).

Definition new_pcb (isn : Z) : tcp_pcb_t :=
  let p := mk_pcb 0 0 0 0 CLOSED 0 isn isn TCP_DEFAULT_MSS TCP_DEFAULT_MSS isn 0 0 0 0 None
    0 TCP_WINDOW TCP_MSS (replicate TIMER_NUM 0) 0 0 0 0 isn 0 TO_RTT_DEFAULT TO_MIN
    0 TCP_DEFAULT_MSS TCP_MAX_WINDOW [] 0 0 None [] [] [] None None None in
  p <| rto := tcp_update_rto p 1 |>.

(** [kmalloc] returns an address that is not in use. *)
Definition tcp_pcb_get : ST tcp_sys Z :=
  let* s := st_get in
  let a := fresh (dom (pcbs s)) in
  do! put_pcb a (new_pcb (tcp_next_isn s));
  do! st_mod (λ s, s <| create_list $= cons a |>);
  st_ret a.

(** [tcp_list_put]: every buffer must have one reference. *)
Definition tcp_list_put (bs : list pbuf_t) : ST tcp_sys unit :=
  st_check (forallb (λ b, count b =? 1) bs).

(** [tcp_pcb_purge] and [tcp_pcb_put] call one another on the accept list; the
    fuel bounds the depth of that recursion. *)
Fixpoint tcp_pcb_purge (fuel : nat) (a reason : Z) : ST tcp_sys unit :=
  match fuel with
  | O => st_stop Fuel
  | S f =>
      let* p := pcb_at a in
      do! tcp_list_put (recved p);
      do! tcp_list_put (unsent p);
      do! tcp_list_put (unacked p);
      do! mod_pcb a (λ p, p <| recved := [] |> <| unsent := [] |> <| unacked := [] |>);
      do! st_for (acclist p) (λ n,
        do! mod_pcb a (λ p, p <| acclist $= Abs.remove n |>);
        (* tcp_pcb_put(npcb) *)
        let* np := pcb_at n in
        do! (if negb (lport np =? 0) && bool_decide (listen np = None) then
               let* s := st_get in
               let* m := st_lift (port_put (ports s) (lport np)) in
               st_mod (λ s, s <| ports := m |>)
             else st_ret tt);
        do! tcp_pcb_purge f n (- ETIME);
        do! pcb_unlink n;
        st_mod (λ s, s <| pcbs $= delete n |>));
      do! wake_task (ac_waiter p) reason;
      do! wake_task (rx_waiter p) reason;
      do! wake_task (tx_waiter p) reason;
      mod_pcb a (λ p, p <| ac_waiter := None |> <| rx_waiter := None |> <| tx_waiter := None |>)
  end.

Definition tcp_pcb_put (fuel : nat) (a : Z) : ST tcp_sys unit :=
  let* p := pcb_at a in
  do! (if negb (lport p =? 0) && bool_decide (listen p = None) then
         let* s := st_get in
         let* m := st_lift (port_put (ports s) (lport p)) in
         st_mod (λ s, s <| ports := m |>)
       else st_ret tt);
  do! tcp_pcb_purge fuel a (- ETIME);
  do! pcb_unlink a;
  st_mod (λ s, s <| pcbs $= delete a |>).

Definition timewait_key (s : tcp_sys) (a : Z) : Z :=
  s32 (default 0 (p ← pcbs s !! a; timers p !! TIMER_TIMEWAIT)).

Definition tcp_pcb_timewait (fuel : nat) (a : Z) : ST tcp_sys unit :=
  do! mod_pcb a (λ p, p <| state := TIME_WAIT |>);
  do! tcp_pcb_purge fuel a (- ETIME);
  do! pcb_unlink a;
  do! mod_pcb a (set_timer TIMER_TIMEWAIT TO_TIMEWAIT);
  let* s := st_get in
  st_mod (λ s', s' <| timewait_list $= Abs.insert_sort (timewait_key s) a |>).

(** ** Purging a connection without waiting clients *)

(** What [tcp_pcb_purge] leaves of it, and whom it wakes. *)
Definition purged (p : tcp_pcb_t) : tcp_pcb_t :=
  p <| recved := [] |> <| unsent := [] |> <| unacked := [] |>
    <| ac_waiter := None |> <| rx_waiter := None |> <| tx_waiter := None |>.

Definition waiters (p : tcp_pcb_t) (reason : Z) : list (Z * Z) :=
  (λ t, (t, reason)) <$> option_list (ac_waiter p) ++ option_list (rx_waiter p) ++ option_list (tx_waiter p).

(** No segment of the connection is on its way out of an interface. *)
Definition settled (p : tcp_pcb_t) : bool :=
  forallb (λ b, count b =? 1) (recved p ++ unsent p ++ unacked p).

(** The rest of the system. *)
Record same_rest (s s' : tcp_sys) : Prop := {
  sr_create : create_list s' = create_list s; sr_active : active_list s' = active_list s;
  sr_listen : listen_list s' = listen_list s; sr_timewait : timewait_list s' = timewait_list s;
  sr_ports : ports s' = ports s; sr_wire : wire s' = wire s;
  sr_clock : clock s' = clock s; sr_next : next_buf s' = next_buf s }.

Lemma pcb_at_run a s p : pcbs s !! a = Some p → pcb_at a s = Ok (p, s).
Proof. intros Hp. unfold pcb_at, st_deref. by rewrite Hp. Qed.

Lemma mod_pcb_run a f s p : pcbs s !! a = Some p →
  mod_pcb a f s = Ok (tt, s <| pcbs $= <[a := f p]> |>).
Proof. intros Hp. unfold mod_pcb, pcb_at, st_deref, st_bind. by rewrite Hp. Qed.

Lemma wake_task_run w reason s : ∃ s', wake_task w reason s = Ok (tt, s') ∧ pcbs s' = pcbs s ∧
  woken s' = woken s ++ ((λ t, (t, reason)) <$> option_list w) ∧ same_rest s s'.
Proof.
  destruct w as [t|]; eexists; (split; [reflexivity|]); (split; [reflexivity|]);
    (split; [|split; reflexivity]); cbn [option_list fmap list_fmap].
  - reflexivity.
  - by rewrite app_nil_r.
Qed.

Lemma purge_leaf fuel a reason s p : pcbs s !! a = Some p → acclist p = [] →
  if settled p then
    ∃ s', tcp_pcb_purge (S fuel) a reason s = Ok (tt, s') ∧
      pcbs s' = <[a := purged p]> (pcbs s) ∧ woken s' = woken s ++ waiters p reason ∧ same_rest s s'
  else tcp_pcb_purge (S fuel) a reason s = Stop Assert.
Proof.
  intros Hp Hacc. cbn [tcp_pcb_purge].
  rewrite !(st_bind_ok (pcb_at a) _ s p s) by (unfold pcb_at, st_deref; by rewrite Hp).
  unfold settled. rewrite !forallb_app. unfold tcp_list_put.
  assert (∀ (b : bool) k (s : tcp_sys), st_bind (B := unit) (st_check b) k s = if b then k tt s else Stop Assert)
    as Hcheck by (intros b k x; unfold st_bind, st_check; by destruct b).
  rewrite !Hcheck. destruct (forallb _ (recved p)); [|done]. destruct (forallb _ (unsent p)); [|done].
  destruct (forallb _ (unacked p)); [|done]. cbn [andb].
  rewrite (st_bind_ok _ _ _ _ _ (mod_pcb_run _ _ _ _ Hp)), Hacc. cbn [st_for].
  set (p1 := _ <| unacked := [] |>). set (s1 := s <| pcbs $= _ |>).
  rewrite (st_bind_ok _ _ s1 tt s1 eq_refl).
  destruct (wake_task_run (ac_waiter p) reason s1) as (s2 & E2 & P2 & W2 & []).
  destruct (wake_task_run (rx_waiter p) reason s2) as (s3 & E3 & P3 & W3 & []).
  destruct (wake_task_run (tx_waiter p) reason s3) as (s4 & E4 & P4 & W4 & []).
  rewrite (st_bind_ok _ _ _ _ _ E2), (st_bind_ok _ _ _ _ _ E3), (st_bind_ok _ _ _ _ _ E4).
  assert (pcbs s1 = <[a := p1]> (pcbs s)) as P1 by reflexivity.
  assert (pcbs s4 = <[a := p1]> (pcbs s)) as Hs4 by congruence.
  rewrite (mod_pcb_run _ _ _ p1) by (rewrite Hs4; apply lookup_insert_eq).
  eexists; split; [reflexivity|]. split; [|split].
  - upd_simpl. rewrite Hs4, insert_insert_eq. done.
  - upd_simpl. rewrite W4, W3, W2. unfold waiters. rewrite !fmap_app, <-!app_assoc. done.
  - assert (same_rest s s1) as [] by (split; reflexivity). split; upd_simpl; congruence.
Qed.

Lemma pcb_unlink_run a s s' : pcb_unlink a s = Ok (tt, s') → pcbs s' = pcbs s ∧ woken s' = woken s ∧ wire s' = wire s.
Proof.
  unfold pcb_unlink, st_get, st_check, st_mod, st_bind. destruct (_ || _); [|done].
  by intros [= <-].
Qed.

Lemma timewait_leaf fuel a s s' p : pcbs s !! a = Some p → acclist p = [] →
  tcp_pcb_timewait (S fuel) a s = Ok (tt, s') →
  pcbs s' = <[a := set_timer TIMER_TIMEWAIT TO_TIMEWAIT (purged (p <| state := TIME_WAIT |>))]> (pcbs s).
Proof.
  intros Hp Hacc. unfold tcp_pcb_timewait. rewrite (st_bind_ok _ _ _ _ _ (mod_pcb_run _ _ _ _ Hp)).
  set (p1 := p <| state := TIME_WAIT |>). set (s1 := s <| pcbs $= _ |>).
  pose proof (purge_leaf fuel a (- ETIME) s1 p1) as Hpurge.
  assert (pcbs s1 !! a = Some p1) as Hs1 by (unfold s1; upd_simpl; apply lookup_insert_eq).
  specialize (Hpurge Hs1 Hacc).
  destruct (settled p1); [destruct Hpurge as (s2 & E2 & P2 & _ & _)|by rewrite (st_bind_stop _ _ _ _ Hpurge)].
  rewrite (st_bind_ok _ _ _ _ _ E2). intros ([] & s3 & E3 & H)%st_bind_inv. revert H.
  apply pcb_unlink_run in E3 as (P3 & _ & _).
  rewrite (st_bind_ok _ _ _ _ _ (mod_pcb_run _ _ s3 (purged p1) ltac:(rewrite P3, P2; apply lookup_insert_eq))).
  unfold st_bind, st_get, st_mod. intros [= <-]. upd_simpl. rewrite P3, P2. unfold s1; upd_simpl.
  by rewrite !insert_insert_eq.
Qed.

Lemma put_leaf fuel a s s' p : pcbs s !! a = Some p → acclist p = [] →
  tcp_pcb_put (S fuel) a s = Ok (tt, s') → pcbs s' = delete a (pcbs s) ∧
  woken s' = woken s ++ waiters p (- ETIME).
Proof.
  intros Hp Hacc. unfold tcp_pcb_put.
  rewrite (st_bind_ok (pcb_at a) _ s p s) by (unfold pcb_at, st_deref; by rewrite Hp).
  intros ([] & s1 & E1 & H)%st_bind_inv. revert H.
  assert (pcbs s1 = pcbs s ∧ woken s1 = woken s) as [P1 W1].
  { destruct (negb (lport p =? 0) && bool_decide (listen p = None)).
    - unfold st_bind, st_get, st_lift, st_mod in E1. destruct (port_put (ports s) (lport p)); [|done].
      by injection E1 as <-.
    - by injection E1 as <-. }
  clear E1. assert (pcbs s1 !! a = Some p) as Hp1 by (by rewrite P1).
  pose proof (purge_leaf fuel a (- ETIME) s1 p Hp1 Hacc) as Hpurge.
  destruct (settled p); [destruct Hpurge as (s2 & E2 & P2 & W2 & _)|by rewrite (st_bind_stop _ _ _ _ Hpurge)].
  rewrite (st_bind_ok _ _ _ _ _ E2). intros ([] & s3 & E3 & H)%st_bind_inv. revert H.
  apply pcb_unlink_run in E3 as (P3 & W3 & _). unfold st_mod. intros [= <-]. upd_simpl.
  rewrite P3, P2, P1, W3, W2, W1. by rewrite delete_insert_eq.
Qed.

(** ** [tcp_find_pcb] *)

(** The conditions of the loop body, in order; [rp] is [rports[i]]. *)
Definition pcb_matches (la lp ra rp : Z) (p : tcp_pcb_t) : bool :=
  (lport p =? lp) && ((laddr p =? 0) || (laddr p =? la)) &&
  ((rp =? 0) || (rport p =? rp) && ((raddr p =? 0) || (raddr p =? ra))).

Fixpoint find_in (s : tcp_sys) (la lp ra rp : Z) (l : list Z) : option Z :=
  match l with
  | [] => None
  | a :: l' =>
      match pcbs s !! a with
      | Some p => if pcb_matches la lp ra rp p then Some a else find_in s la lp ra rp l'
      | None => None
      end
  end.

Definition tcp_find_pcb (la lp ra rp : Z) (s : tcp_sys) : option Z :=
  match find_in s la lp ra rp (active_list s) with
  | Some a => Some a
  | None =>
      match find_in s la lp ra rp (timewait_list s) with
      | Some a => Some a
      | None => find_in s la lp ra 0 (listen_list s)
      end
  end.

(** ** Properties of the lookup *)

(** The lists hold live control blocks. *)
Definition lists_live (s : tcp_sys) : Prop :=
  ∀ a, a ∈ active_list s ++ timewait_list s ++ listen_list s → is_Some (pcbs s !! a).

Definition matching (s : tcp_sys) (la lp ra rp : Z) (l : list Z) (a : Z) : Prop :=
  a ∈ l ∧ ∃ p, pcbs s !! a = Some p ∧ pcb_matches la lp ra rp p.

Lemma find_in_spec s la lp ra rp l : (∀ a, a ∈ l → is_Some (pcbs s !! a)) →
  match find_in s la lp ra rp l with
  | Some a => ∃ l1 l2, l = l1 ++ a :: l2 ∧ matching s la lp ra rp l a ∧
      ∀ b, b ∈ l1 → ¬ matching s la lp ra rp l b
  | None => ∀ a, ¬ matching s la lp ra rp l a
  end.
Proof.
  induction l as [|a l IH]; intros Hl; cbn [find_in].
  - intros a [Ha _]. by apply elem_of_nil in Ha.
  - destruct (Hl a) as [p Hp]; [by left|]. rewrite Hp.
    destruct (pcb_matches la lp ra rp p) eqn:Em.
    + exists [], l. split; [done|]. split; [|by intros b ?%elem_of_nil].
      split; [by left|]. exists p. by rewrite Em.
    + assert (∀ b, matching s la lp ra rp (a :: l) b → matching s la lp ra rp l b) as Hb.
      { intros b [[->|Hin]%elem_of_cons (q & Hq & Hm)]; [|split; eauto].
        assert (q = p) as -> by congruence. by rewrite Em in Hm. }
      specialize (IH (λ b Hin, Hl b (list_elem_of_further _ _ _ Hin))).
      destruct (find_in s la lp ra rp l) as [c|].
      * destruct IH as (l1 & l2 & -> & [Hin Hc] & Hf). exists (a :: l1), l2. split; [done|].
        split; [split; [by right|done]|]. intros b [->|Hbin]%elem_of_cons Hm.
        { destruct Hm as [_ (q & Hq & Hm)]. assert (q = p) as -> by congruence. by rewrite Em in Hm. }
        { by apply (Hf b Hbin), Hb. }
      * intros b Hm. by apply (IH b), Hb.
Qed.

(** A segment is given to a connection whose port and address pair it matches
    when there is one, an active one before one in TIME_WAIT, and to a listening
    control block of its port and address only otherwise; within a list the
    first one wins; no control block is found only when none matches. *)
Theorem find_pcb_priority (s : tcp_sys) (la lp ra rp : Z) (Hl : lists_live s) :
  match tcp_find_pcb la lp ra rp s with
  | Some a =>
      (matching s la lp ra rp (active_list s) a) ∨
      (∀ b, ¬ matching s la lp ra rp (active_list s) b) ∧
      (matching s la lp ra rp (timewait_list s) a ∨
       (∀ b, ¬ matching s la lp ra rp (timewait_list s) b) ∧
       matching s la lp ra 0 (listen_list s) a)
  | None =>
      (∀ b, ¬ matching s la lp ra rp (active_list s) b) ∧
      (∀ b, ¬ matching s la lp ra rp (timewait_list s) b) ∧
      ∀ b, ¬ matching s la lp ra 0 (listen_list s) b
  end.
Proof.
  unfold tcp_find_pcb, lists_live in *.
  pose proof (find_in_spec s la lp ra rp (active_list s)) as H1.
  pose proof (find_in_spec s la lp ra rp (timewait_list s)) as H2.
  pose proof (find_in_spec s la lp ra 0 (listen_list s)) as H3.
  specialize (H1 ltac:(set_solver)). specialize (H2 ltac:(set_solver)).
  specialize (H3 ltac:(set_solver)).
  destruct (find_in s la lp ra rp (active_list s)) as [a|]; [left; naive_solver|].
  destruct (find_in s la lp ra rp (timewait_list s)) as [a|]; [right; naive_solver|].
  destruct (find_in s la lp ra 0 (listen_list s)); naive_solver.
Qed.

(** A listener on port 80 and a connection on it. *)
Definition web : tcp_sys :=
  mk_tcp_sys (<[1 := new_pcb 5 <| state := LISTEN |> <| lport := 80 |>]>
    (<[2 := new_pcb 9 <| state := ESTABLISHED |> <| lport := 80 |> <| rport := 4000 |>
        <| laddr := 7 |> <| raddr := 9 |>]> ∅))
    [] [2] [1] [] no_ports [] [] 0 0.

Lemma web_live : lists_live web.
Proof.
  intros a Ha. unfold web in *; cbn in *. apply elem_of_cons in Ha as [->|Ha]; [by eexists|].
  apply list_elem_of_singleton in Ha as ->. by eexists.
Qed.

Lemma find_pcb_priority_witness :
  tcp_find_pcb 7 80 9 4000 web = Some 2 ∧ matching web 7 80 9 4000 (active_list web) 2 ∧
  tcp_find_pcb 7 80 9 4001 web = Some 1.
Proof.
  split; [reflexivity|]. split; [|reflexivity].
  destruct (find_pcb_priority web 7 80 9 4000 web_live) as [H|[H _]]; [exact H|].
  exfalso. apply (H 2). split; [left|]. eexists. split; [reflexivity|]. exact I.
Defined.
