(* ===== verification/TcpInput.v ===== *)
(** * TCP input ([src/src/net/tcp_input.c])

    The functions on one connection are actions on a [conn]: the control block, the
    packets handed to [ip_output] and the tasks unblocked since the action
    began; [on_pcb] runs one on a control block of the system. *)
From S2P Require Import Prelude Dlist Bitmap Port Addr Chksum Tcp TcpWire TcpOutput TcpPcb.

Record conn := mk_conn { cpcb : tcp_pcb_t; cout : list packet; cwake : list (Z * Z) }.

#[export] Instance conn_expand : Expand conn := λ c, mk_conn (cpcb c) (cout c) (cwake c).

Definition upd (f : tcp_pcb_t → tcp_pcb_t) : ST conn unit := st_mod (λ c, c <| cpcb $= f |>).
Definition the_pcb : ST conn tcp_pcb_t := st_gets cpcb.

(** A function that changes the control block and sends packets. *)
Definition emit (m : tcp_pcb_t → res (tcp_pcb_t * list packet)) : ST conn unit :=
  λ c, match m (cpcb c) with
       | Ok (p, ks) => Ok (tt, mk_conn p (cout c ++ ks) (cwake c))
       | Stop e => Stop e
       end.

(** [task_unblock(w, reason)] when there is a waiter. *)
Definition wake (w : option Z) (reason : Z) : ST conn unit :=
  match w with
  | None => st_ret tt
  | Some t => st_mod (λ c, c <| cwake $= λ l, l ++ [(t, reason)] |>)
  end.

Definition on_pcb {A} (a : Z) (m : ST conn A) : ST tcp_sys A := λ s,
  match pcbs s !! a with
  | None => Stop Fault
  | Some p =>
      match m (mk_conn p [] []) with
      | Stop e => Stop e
      | Ok (x, c) => Ok (x, s <| pcbs $= <[a := cpcb c]> |> <| wire $= λ w, w ++ cout c |>
                              <| woken $= λ l, l ++ cwake c |>)
      end
  end.

(** ** Windows and acknowledgements *)
Definition tcp_update_wnd (h : tcp_t) (p : tcp_pcb_t) : tcp_pcb_t :=
  if TCP_SEQ_LT (snd_wl1 p) (h_seqno h) ||
     (h_seqno h =? snd_wl1 p) && TCP_SEQ_LEQ (snd_wl2 p) (h_ackno h) then
    let p := p <| snd_wnd := h_window h |> <| snd_wl1 := h_seqno h |> <| snd_wl2 := h_ackno h |> in
    let p := if snd_mwnd p <? h_window h then p <| snd_mwnd := h_window h |> else p in
    set_timer TIMER_PERSIST (if snd_wnd p =? 0 then TO_PERSMIN else 0) p
  else p.

Section input.
Context (route : Z → Z).

Definition output : ST conn unit :=
  emit (λ p, let! (_, p, ks) := tcp_output route p in Ok (p, ks)).

Definition tcp_handle_duppacks : ST conn unit :=
  let* p := the_pcb in
  if dupacks p <? REXMIT_THREASH then st_ret tt
  else if dupacks p =? REXMIT_THREASH then
    if snd_mss p =? 0 then st_stop Fault (* division by zero *)
    else
      let segs := (if snd_wnd p <? snd_cwnd p then snd_wnd p else snd_cwnd p) / 2 / snd_mss p in
      let segs := if segs <? 2 then 2 else segs in
      do! upd (λ p, p <| snd_ssthresh := u32 (segs * snd_mss p) |>
                      <| snd_cwnd := snd_mss p |> <| rtt := 0 |>);
      do! emit (tcp_rexmit route);
      upd (λ p, p <| snd_cwnd := u32 (snd_ssthresh p + snd_mss p * dupacks p) |>)
  else
    do! upd (λ p, p <| snd_cwnd := u32 (snd_cwnd p + snd_mss p) |>);
    emit (tcp_rexmit route).

(** The segments up to [ackno] leave the list, after an assertion on each. *)
Definition acked (ackno : Z) (b : pbuf_t) : bool := negb (TCP_SEQ_GT (seg_end b) ackno).

Definition release_acked (ackno : Z) (bs : list pbuf_t) : ST conn (list pbuf_t) :=
  do! st_check (forallb (λ b, negb (acked ackno b) || (0 <? count b) && (count b <=? 2)) bs);
  st_ret (List.filter (λ b, negb (acked ackno b)) bs).

(** Congestion window growth on a new acknowledgement. *)
Definition grow_cwnd (p : tcp_pcb_t) : Z :=
  let cwnd := s32 (snd_cwnd p) in
  let unit := snd_mss p in
  let unit := if snd_ssthresh p <? u32 cwnd then Z.quot (s32 (unit * unit)) cwnd else unit in
  let sum := s32 (cwnd + unit) in
  u32 (if sum <? TCP_MAX_WINDOW then sum else TCP_MAX_WINDOW).

(** The window and the estimates on a new acknowledgement. *)
Definition ack_window (h : tcp_t) (p : tcp_pcb_t) : tcp_pcb_t :=
  let p := if (REXMIT_THREASH <? dupacks p) && (snd_ssthresh p <? snd_cwnd p)
           then p <| snd_cwnd := snd_ssthresh p |> else p in
  let p := p <| dupacks := 0 |> in
  let p := p <| snd_cwnd := grow_cwnd p |> in
  let p := if negb (rtt p =? 0) && (h_ackno h =? rtt_seq p)
           then tcp_xmit_timer p (u32 (rtt p - 1)) else p in
  p <| rtt := 1 |> <| snd_una := h_ackno h |> <| rtx_cnt := 0 |>.

(** A partial buffer is sent when everything before it is acknowledged. *)
Definition flush_buf (h : tcp_t) (p : tcp_pcb_t) : tcp_pcb_t :=
  match snd_buf p with
  | Some b => if (0 <? size b) && (h_ackno h =? snd_max p)
              then p <| unsent $= Abs.insert_sort seq_key b |> <| snd_buf := None |> else p
  | None => p
  end.

(** Waking the writer when the queues are empty. *)
Definition wake_writer : ST conn unit :=
  let* p := the_pcb in
  match unacked p, unsent p, tx_waiter p with
  | [], [], Some t =>
      do! wake (Some t) EOK;
      upd (λ p, set_timer TIMER_REXMIT 0 (p <| tx_waiter := None |>))
  | _, _, _ => st_ret tt
  end.

Definition tcp_update_ack (sz : Z) (h : tcp_t) : ST conn unit :=
  let* p := the_pcb in
  if TCP_SEQ_GEQ (snd_una p) (h_ackno h) then
    if sz =? 0 then
      do! upd (λ p, p <| dupacks $= λ d, u32 (d + 1) |>); tcp_handle_duppacks
    else upd (λ p, p <| dupacks := 0 |>)
  else
    do! upd (ack_window h);
    let* p := the_pcb in
    let* un := release_acked (h_ackno h) (unacked p) in
    do! upd (λ p, p <| unacked := un |>);
    let* us := release_acked (h_ackno h) (unsent p) in
    do! upd (λ p, p <| unsent := us |>);
    do! upd (flush_buf h);
    wake_writer.

(** ** Data *)
Definition tcp_update_buf (b : pbuf_t) (h : tcp_t) : ST conn unit :=
  let* p := the_pcb in
  let nxt := u32 (h_seqno h + size b) in
  if TCP_SEQ_LEQ nxt (rcv_nxt p) then upd (set_flag TF_ACK_DELAY)
  else if TCP_SEQ_GT (h_seqno h) (rcv_nxt p) then upd (set_flag TF_ACK_DELAY)
  else
    let b := if TCP_SEQ_LT (h_seqno h) (rcv_nxt p)
             then b <| data $= drop (Z.to_nat (s32 (rcv_nxt p - h_seqno h))) |> else b in
    if size b =? 0 then upd (set_flag TF_ACK_DELAY)
    else
      do! upd (λ p, p <| rcv_nxt := nxt |>);
      do! st_check (count b =? 1);
      let b := b <| count := 2 |> in
      do! upd (λ p, p <| rcv_wnd $= λ w, u16 (w - size b) |>);
      do! upd (set_flag TF_ACK_DELAY);
      do! (if has (flags p) TF_QUICKACK then emit (λ p, tcp_send_ack route p TCP_ACK)
           else st_ret tt);
      if 4 <? state_num (state p) then st_ret tt
      else
        do! upd (λ p, p <| recved $= Abs.insert_sort seq_key b |>);
        do! wake (rx_waiter p) EOK;
        upd (λ p, p <| rx_waiter := None |>).

Definition tcp_receive (b : pbuf_t) (h : tcp_t) : ST conn unit :=
  do! (if has (h_flags h) TCP_ACK then
         do! upd (tcp_update_wnd h); tcp_update_ack (size b) h
       else st_ret tt);
  if 0 <? size b then tcp_update_buf b h else st_ret tt.

(** ** Connection handling *)
Definition tcp_handle_syn_sent (h : tcp_t) : ST conn Z :=
  let* p := the_pcb in
  if negb (h_flags h =? Z.lor TCP_SYN TCP_ACK) then st_ret (- EPROTO)
  else if negb (h_ackno h =? u32 (snd_nxt p + 1)) then st_ret (- EPROTO)
  else
    do! upd (λ p, p <| state := ESTABLISHED |> <| rcv_nxt := u32 (h_seqno h + 1) |>
                    <| snd_nxt := h_ackno h |> <| snd_wnd := h_window h |>
                    <| snd_una := h_ackno h |> <| snd_nbb := h_ackno h |>);
    do! upd (set_flag TF_ACK_DELAY);
    do! (if has (flags p) TF_QUICKACK then emit (λ p, tcp_send_ack route p TCP_ACK)
         else st_ret tt);
    do! wake (ac_waiter p) EOK;
    do! upd (λ p, p <| ac_waiter := None |>);
    st_ret EOK.

Definition tcp_handle_reset (fuel : nat) (a : Z) : ST tcp_sys Z :=
  let* p := pcb_at a in
  if state_num (state p) <=? 2 then st_ret (- ERESET)
  else
    do! tcp_pcb_purge fuel a (- ERESET);
    do! mod_pcb a (λ p, p <| state := CLOSED |>);
    st_ret (- ERESET).

(** [tcp_enqueue] draws buffers from the pool. *)
Definition enqueue (a : Z) (bytes : list Z) (fl : Z) : ST tcp_sys unit :=
  let* p := pcb_at a in
  let* s := st_get in
  let* (p, next) := st_lift (tcp_enqueue p (next_buf s) bytes fl) in
  do! st_mod (λ s, s <| next_buf := next |>);
  put_pcb a p.

Definition tcp_handle_listen (ipaddr src : Z) (a : Z) (h : tcp_t) : ST tcp_sys Z :=
  let* p := pcb_at a in
  if negb (h_flags h =? TCP_SYN) then st_ret (- EPROTO)
  else if backcnt p =? backlog p then st_ret (- EPROTO)
  else
    let* n := tcp_pcb_get in
    do! mod_pcb n (λ np, np <| laddr := ipaddr |> <| raddr := src |> <| lport := lport p |>
      <| rport := sport h |> <| state := SYN_RCVD |> <| snd_wnd := h_window h |>
      <| snd_mss := (if snd_mss p <? TCP_DEFAULT_MSS then TCP_DEFAULT_MSS else snd_mss p) |>
      <| rcv_nxt := u32 (h_seqno h + 1) |> <| listen := Some a |>);
    do! mod_pcb a (λ p, p <| acclist $= cons n |> <| backcnt $= λ c, s32 (c + 1) |>);
    do! pcb_unlink n;
    do! st_mod (λ s, s <| active_list $= cons n |>);
    do! enqueue n [] (Z.lor TCP_SYN TCP_ACK);
    do! on_pcb n output;
    do! mod_pcb a (set_timer TIMER_SYN TO_SYN);
    st_ret EOK.

(** The next sequence number takes the SYN or FIN into account. *)
Definition fin_acked (h : tcp_t) (p : tcp_pcb_t) : bool :=
  has (h_flags h) TCP_ACK && (h_ackno h =? u32 (snd_nxt p + 1)).
Definition take_fin (p : tcp_pcb_t) : tcp_pcb_t :=
  let n := u32 (snd_nxt p + 1) in p <| snd_nxt := n |> <| snd_nbb := n |>.
Definition peer_fin (h : tcp_t) (p : tcp_pcb_t) : tcp_pcb_t :=
  set_flag TF_ACK_NOW p <| rcv_nxt := u32 (h_seqno h + 1) |>.

Definition tcp_process (fuel : nat) (ipaddr src : Z) (a : Z) (b : pbuf_t) (h : tcp_t) : ST tcp_sys Z :=
  let fin := has (h_flags h) TCP_FIN in
  let ack := has (h_flags h) TCP_ACK in
  let* p := pcb_at a in
  do! (if ack && negb (bool_decide (state p = TIME_WAIT)) then on_pcb a (tcp_receive b h)
       else st_ret tt);
  let* p := pcb_at a in
  match state p with
  | LISTEN => tcp_handle_listen ipaddr src a h
  | SYN_SENT => on_pcb a (tcp_handle_syn_sent h)
  | SYN_RCVD =>
      if negb ack || negb (h_ackno h =? u32 (snd_nxt p + 1)) then st_ret EOK
      else
        do! mod_pcb a (λ p, p <| state := ESTABLISHED |> <| snd_nxt := h_ackno h |>
                              <| snd_nbb := h_ackno h |>);
        do! st_check (bool_decide (is_Some (listen p)));
        let* lp := st_deref (λ s, listen p ≫= λ l, pcbs s !! l) in
        do! wake_task (ac_waiter lp) EOK;
        st_ret EOK
  | CLOSE_WAIT | ESTABLISHED =>
      do! (if fin then mod_pcb a (λ p, peer_fin h p <| state := CLOSE_WAIT |>) else st_ret tt);
      st_ret EOK
  | LAST_ACK =>
      do! (if ack then
             do! mod_pcb a (λ p, p <| state := CLOSED |>); tcp_pcb_put fuel a
           else st_ret tt);
      st_ret EOK
  | FIN_WAIT1 =>
      do! (if fin && fin_acked h p then
             do! mod_pcb a take_fin; tcp_pcb_timewait fuel a
           else if fin then mod_pcb a (λ p, p <| state := CLOSING |>)
           else if fin_acked h p then
             mod_pcb a (λ p, set_timer TIMER_FIN_WAIT2 TO_FIN_WAIT2 (take_fin p <| state := FIN_WAIT2 |>))
           else st_ret tt);
      do! (if fin then mod_pcb a (peer_fin h) else st_ret tt);
      st_ret EOK
  | FIN_WAIT2 =>
      do! (if fin then do! mod_pcb a (peer_fin h); tcp_pcb_timewait fuel a else st_ret tt);
      st_ret EOK
  | CLOSING =>
      do! (if fin_acked h p then do! mod_pcb a take_fin; tcp_pcb_timewait fuel a else st_ret tt);
      st_ret EOK
  | TIME_WAIT =>
      do! mod_pcb a (λ p,
        let e := u32 (h_seqno h + size b) in
        let p := if TCP_SEQ_GT e (rcv_nxt p) then p <| rcv_nxt := e |> else p in
        if 0 <? size b then set_flag TF_ACK_NOW p else p);
      st_ret EOK
  | CLOSED => st_ret EOK
  end.

(** ** [tcp_input] *)
Definition tcp_validate (h : tcp_t) (b : pbuf_t) (p : tcp_pcb_t) : Z :=
  if has (h_flags h) TCP_SYN then EOK
  else if TCP_SEQ_GT (seg_end b) (u32 (rcv_nxt p + rcv_wnd p)) then - EPROTO
  else if TCP_SEQ_LT (seg_end b) (rcv_nxt p) then - EPROTO
  else EOK.

(** [payload] is the memory of the buffer from [ip->payload] on, [len] the length
    in the IP header, [id] the identity of the buffer. *)
Record ip_seg := mk_ip_seg { ip_src : Z; ip_dst : Z; ip_len : Z; ip_payload : list Z; ip_buf : Z }.

Record netif_cfg := mk_netif_cfg { n_ipaddr : Z; n_netmask : Z; n_rx_offload : bool }.

(** The segment [b] with the header [h] of [hl] words, from [tcp_find_pcb] on. *)
Definition tcp_dispatch (fuel : nat) (nif : netif_cfg) (src dst hl : Z) (b : pbuf_t) (h : tcp_t)
    : ST tcp_sys Z :=
  let* s := st_get in
  match tcp_find_pcb dst (dport h) src (sport h) s with
  | None => st_ret (- EADDR)
  | Some a =>
      let* p := pcb_at a in
      if tcp_validate h b p <? EOK then st_ret (- EPROTO)
      else
        match state p with
        | CLOSED =>
            do! send_all [tcp_reset (u32 (h_ackno h + 1)) (u32 (h_seqno h + size b))
                            dst (dport h) src (sport h)];
            st_ret EOK
        | _ =>
            if has (h_flags h) TCP_RST then tcp_handle_reset fuel a
            else
              let* (ret, mss) := st_lift (tcp_parse_option (S (Z.to_nat (hl * 4)))
                (take (Z.to_nat (hl * 4) - 20) (h_options h) ++ data b ++ [0]) (hl * 4 - 20) (snd_mss p)) in
              do! mod_pcb a (λ p, p <| snd_mss := mss |>);
              if ret <? EOK then st_ret ret
              else
                do! mod_pcb a (λ p, p <| idle := 0 |>);
                do! mod_pcb a (λ p, if has (flags p) TF_KEEPALIVE
                                    then set_timer TIMER_KEEPALIVE TO_KEEP_IDLE p else p);
                tcp_process fuel (n_ipaddr nif) src a b h
        end
  end.

Definition tcp_input (fuel : nat) (nif : netif_cfg) (ip : ip_seg) : ST tcp_sys Z :=
  let* (h, hl) := st_lift (read_header (ip_payload ip)) in
  if hl * 4 <? 20 then st_ret (- EPROTO)
  else if ip_addr_isbroadcast (ip_dst ip) (n_netmask nif) then st_ret EOK
  else if ip_addr_ismulticast (ip_dst ip) then st_ret EOK
  else
    let tot := u32 (ip_len ip - 20) in
    if Z.of_nat (List.length (ip_payload ip)) <=? tot then st_stop Fault
    else
      let seg := take (Z.to_nat tot) (ip_payload ip) in
      let* ck := (if n_rx_offload nif then st_ret 0
                  else st_lift (inet_chksum seg (u16 tot) (ip_dst ip) (ip_src ip) 6)) in
      if negb (ck =? 0) then st_ret (- ECHKSUM)
      else if tot <? hl * 4 then st_stop Fault (* data[size] = 0 far outside the buffer *)
      else
        let d := drop (Z.to_nat (hl * 4)) seg in
        tcp_dispatch fuel nif (ip_src ip) (ip_dst ip) hl
          (mk_pbuf (ip_buf ip) (h_seqno h) d (h_flags h) false 1 tot 0) h.
End input.

(** ** What the functions on one connection keep *)

(** The identity of a connection and its place in the state machine. *)
Record same_conn (p p' : tcp_pcb_t) : Prop := {
  sc_state : state p' = state p; sc_acclist : acclist p' = acclist p;
  sc_listen : listen p' = listen p; sc_lport : lport p' = lport p;
  sc_rport : rport p' = rport p; sc_raddr : raddr p' = raddr p;
  sc_acw : ac_waiter p' = ac_waiter p }.

Lemma same_conn_refl p : same_conn p p.
Proof. done. Qed.

Lemma same_conn_trans p1 p2 p3 : same_conn p1 p2 → same_conn p2 p3 → same_conn p1 p3.
Proof. intros [] []. split; congruence. Qed.

Definition keeps {A} (m : ST conn A) : Prop :=
  ∀ c x c', m c = Ok (x, c') → same_conn (cpcb c) (cpcb c').

Lemma keeps_bind {A B} (m : ST conn A) (k : A → ST conn B) :
  keeps m → (∀ x, keeps (k x)) → keeps (st_bind m k).
Proof.
  intros Hm Hk c x c'. unfold st_bind. destruct (m c) as [[y c1]|] eqn:E; [|done].
  intros E2. eapply same_conn_trans; [by eapply Hm|by eapply Hk].
Qed.
Lemma keeps_ret {A} (x : A) : keeps (st_ret x).
Proof. intros c y c' [= <- <-]. done. Qed.
Lemma keeps_get : keeps the_pcb.
Proof. intros c y c' [= <- <-]. done. Qed.
Lemma keeps_check b : keeps (st_check b).
Proof. intros c y c'. unfold st_check. destruct b; [|done]. by intros [= <- <-]. Qed.
Lemma keeps_stop {A} e : keeps (A := A) (st_stop e).
Proof. intros c y c'. done. Qed.
Lemma keeps_upd f : (∀ p, same_conn p (f p)) → keeps (upd f).
Proof. intros Hf c y c' [= <- <-]. apply Hf. Qed.
Lemma keeps_wake w r : keeps (wake w r).
Proof. destruct w; [intros c y c' [= <- <-]; done|apply keeps_ret]. Qed.
Lemma keeps_emit m : (∀ p p' ks, m p = Ok (p', ks) → same_conn p p') → keeps (emit m).
Proof.
  intros Hm c y c'. unfold emit. destruct (m (cpcb c)) as [[p ks]|] eqn:E; [|done].
  intros [= <- <-]. by eapply Hm.
Qed.

Create HintDb keeps discriminated.
#[export] Hint Resolve keeps_ret keeps_get keeps_check keeps_stop keeps_wake same_conn_refl : keeps.

(** Splits an action into its steps; the updates are closed by computation. *)
Ltac keeps :=
  repeat match goal with
  | |- keeps (st_bind _ _) => apply keeps_bind; [|intros ?]
  | |- keeps (match ?x with _ => _ end) => destruct x
  | |- keeps (upd _) => apply keeps_upd; intros ?
  | |- keeps _ => solve [eauto with keeps nocore]
  | |- same_conn _ _ => solve [repeat case_match; done]
  end.

Section keeps.
Context (route : Z → Z).

Lemma output_seg_keeps p b p' b' k : tcp_output_seg route p b = Ok (p', b', k) → same_conn p p'.
Proof.
  unfold tcp_output_seg. intros H. inv_ok. by destruct (has (tflags b) TCP_SYN), (laddr _ =? 0).
Qed.

Lemma send_ack_keeps p fl p' ks : tcp_send_ack route p fl = Ok (p', ks) → same_conn p p'.
Proof. unfold tcp_send_ack. intros H. inv_ok. by eapply output_seg_keeps. Qed.

Lemma send_seg_keeps p b p' k : send_seg route p b = Ok (p', k) → same_conn p p'.
Proof.
  unfold send_seg. intros H. inv_ok. 
  match goal with E : tcp_output_seg _ _ _ = _ |- _ => apply output_seg_keeps in E; destruct E end.
  split; unfold set_timer; upd_simpl;
    (etransitivity; [eassumption|]); by destruct (_ && _), (TCP_SEQ_GT _ _).
Qed.

Lemma output_loop_keeps wnd segs : ∀ p sent p' ks,
  output_loop route segs wnd p sent = Ok (p', ks) → same_conn p p'.
Proof.
  induction segs as [|b segs IH]; intros p sent p' ks; cbn [output_loop]; [by intros [= <- <-]|].
  destruct (TCP_SEQ_GT _ _); [by intros [= <- <-]|]. intros H. inv_ok.
  eapply same_conn_trans; [by eapply send_seg_keeps|by eapply IH].
Qed.

Lemma output_keeps p e p' ks : tcp_output route p = Ok (e, p', ks) → same_conn p p'.
Proof.
  unfold tcp_output. set (p0 := if _ && _ then _ else p).
  assert (same_conn p p0) as H0 by (unfold p0; by destruct (_ && _)). cbn zeta.
  destruct (_ <? _); [by intros [= <- <- <-]|]. intros H. inv_ok.
  eapply same_conn_trans; [exact H0|]. destruct (has (flags t) TF_ACK_NOW); inv_ok.
  - eapply same_conn_trans; [by eapply output_loop_keeps|by eapply send_ack_keeps].
  - by eapply output_loop_keeps.
Qed.

Lemma requeue_keeps segs : ∀ p, same_conn p (requeue segs p).
Proof.
  induction segs as [|b segs IH]; intros p; [done|]. cbn [requeue].
  eapply same_conn_trans; [|apply IH]. by destruct (1 <? count b).
Qed.

Lemma rexmit_keeps p p' ks : tcp_rexmit route p = Ok (p', ks) → same_conn p p'.
Proof.
  unfold tcp_rexmit. intros H. inv_ok.
  eapply same_conn_trans; [apply requeue_keeps|]. eapply same_conn_trans; [by eapply output_keeps|done].
Qed.

Lemma keeps_output : keeps (output route).
Proof. apply keeps_emit. intros p p' ks H. inv_ok. by eapply output_keeps. Qed.
Lemma keeps_rexmit : keeps (emit (tcp_rexmit route)).
Proof. apply keeps_emit. apply rexmit_keeps. Qed.
Lemma keeps_send_ack fl : keeps (emit (λ p, tcp_send_ack route p fl)).
Proof. apply keeps_emit. intros p p' ks. apply send_ack_keeps. Qed.
Hint Resolve keeps_output keeps_rexmit keeps_send_ack : keeps.

Lemma keeps_duppacks : keeps (tcp_handle_duppacks route).
Proof. unfold tcp_handle_duppacks. keeps. Qed.
Hint Resolve keeps_duppacks : keeps.

Lemma keeps_update_ack sz h : keeps (tcp_update_ack route sz h).
Proof. unfold tcp_update_ack, release_acked, wake_writer, ack_window, flush_buf. keeps. Qed.

Lemma keeps_update_buf b h : keeps (tcp_update_buf route b h).
Proof. unfold tcp_update_buf. keeps. Qed.

Lemma update_wnd_keeps h p : same_conn p (tcp_update_wnd h p).
Proof. unfold tcp_update_wnd. repeat case_match; done. Qed.
Hint Resolve keeps_update_ack keeps_update_buf update_wnd_keeps : keeps.

Lemma keeps_receive b h : keeps (tcp_receive route b h).
Proof. unfold tcp_receive. keeps. apply update_wnd_keeps. Qed.
End keeps.
#[export] Hint Resolve keeps_output keeps_rexmit keeps_send_ack keeps_receive : keeps.

(** ** The state machine *)

(** The transitions a segment with the flags [fl] can cause. *)
Inductive tcp_edge (fl : Z) : tcp_state_t → tcp_state_t → Prop :=
| edge_opened : fl = Z.lor TCP_SYN TCP_ACK → tcp_edge fl SYN_SENT ESTABLISHED
| edge_accepted : has fl TCP_ACK → tcp_edge fl SYN_RCVD ESTABLISHED
| edge_peer_closed : has fl TCP_FIN → tcp_edge fl ESTABLISHED CLOSE_WAIT
| edge_fin_acked : has fl TCP_ACK → ¬ has fl TCP_FIN → tcp_edge fl FIN_WAIT1 FIN_WAIT2
| edge_both_closing : has fl TCP_FIN → tcp_edge fl FIN_WAIT1 CLOSING
| edge_both_closed : has fl TCP_FIN → has fl TCP_ACK → tcp_edge fl FIN_WAIT1 TIME_WAIT
| edge_closed : has fl TCP_FIN → tcp_edge fl FIN_WAIT2 TIME_WAIT
| edge_closing_acked : has fl TCP_ACK → tcp_edge fl CLOSING TIME_WAIT.

Lemma on_pcb_inv {A} a (m : ST conn A) s x s' : on_pcb a m s = Ok (x, s') →
  ∃ p c, pcbs s !! a = Some p ∧ m (mk_conn p [] []) = Ok (x, c) ∧
    pcbs s' = <[a := cpcb c]> (pcbs s) ∧ wire s' = wire s ++ cout c ∧ woken s' = woken s ++ cwake c.
Proof.
  unfold on_pcb. destruct (pcbs s !! a) as [p|]; [|done].
  destruct (m (mk_conn p [] [])) as [[y c]|] eqn:E; [|done]. intros [= <- <-]. by exists p, c.
Qed.

Lemma mod_pcb_inv a f s x s' : mod_pcb a f s = Ok (x, s') →
  ∃ p, pcbs s !! a = Some p ∧ pcbs s' = <[a := f p]> (pcbs s).
Proof.
  intros H. destruct (pcbs s !! a) as [p|] eqn:Hp.
  - rewrite (mod_pcb_run _ _ _ _ Hp) in H. injection H as _ <-. by exists p.
  - exfalso. revert H. unfold mod_pcb, pcb_at, st_bind, st_deref. by rewrite Hp.
Qed.

Lemma pcb_at_inv a s p s' : pcb_at a s = Ok (p, s') → s' = s ∧ pcbs s !! a = Some p.
Proof. unfold pcb_at, st_deref. destruct (pcbs s !! a); [by intros [= <- <-]|done]. Qed.

(** An action that changes no control block but [a], and not the place of [a] in the
    state machine. *)
Definition local_to {A} (a : Z) (R : tcp_pcb_t → tcp_pcb_t → Prop) (m : ST tcp_sys A) : Prop :=
  ∀ s x s', m s = Ok (x, s') → (∀ n, n ≠ a → pcbs s' !! n = pcbs s !! n) ∧
    ∀ p, pcbs s !! a = Some p → ∃ p', pcbs s' !! a = Some p' ∧ R p p'.

Lemma local_insert {a : Z} {p0 p1 : tcp_pcb_t} {m m' : gmap Z tcp_pcb_t} (R : tcp_pcb_t → tcp_pcb_t → Prop) :
  m !! a = Some p0 → R p0 p1 → m' = <[a := p1]> m →
  (∀ n, n ≠ a → m' !! n = m !! n) ∧ ∀ p, m !! a = Some p → ∃ p', m' !! a = Some p' ∧ R p p'.
Proof.
  intros Hp HR ->. split; [intros n Hn; by rewrite lookup_insert_ne|].
  intros p Hp'. assert (p = p0) as -> by congruence. exists p1. by rewrite lookup_insert_eq.
Qed.

Lemma local_on_pcb {A} a (m : ST conn A) : keeps m → local_to a same_conn (on_pcb a m).
Proof.
  intros Hk s x s' (p & c & Hp & Hm & E & _)%on_pcb_inv.
  eapply local_insert; [exact Hp| |exact E]. exact (Hk _ _ _ Hm).
Qed.

Lemma local_mod a f R : (∀ p, R p (f p)) → local_to a R (mod_pcb a f).
Proof. intros Hf s x s' (p & Hp & E)%mod_pcb_inv. by eapply local_insert. Qed.

Lemma local_bind {A B} a R (m : ST tcp_sys A) (k : A → ST tcp_sys B) :
  (∀ p q r, R p q → R q r → R p r) → local_to a R m → (∀ x, local_to a R (k x)) →
  local_to a R (st_bind m k).
Proof.
  intros HR Hm Hk s x s' (y & s1 & E1 & E2)%st_bind_inv.
  destruct (Hm _ _ _ E1) as [O1 P1]. destruct (Hk _ _ _ _ E2) as [O2 P2]. split.
  - intros n Hn. rewrite O2, O1; done.
  - intros p (q & Hq & R1)%P1. destruct (P2 q Hq) as (r & Hr & R2). eauto.
Qed.

Lemma local_ret {A} a (R : tcp_pcb_t → tcp_pcb_t → Prop) (x : A) :
  (∀ p, R p p) → local_to a R (st_ret x).
Proof. intros HR s y s' [= <- <-]. eauto. Qed.

Section machine.
Context (route : Z → Z).

Lemma listen_local ipaddr src a h s ret s' p : pcbs s !! a = Some p →
  tcp_handle_listen route ipaddr src a h s = Ok (ret, s') →
  (∀ n q, n ≠ a → pcbs s !! n = Some q → pcbs s' !! n = Some q) ∧
  ∃ p', pcbs s' !! a = Some p' ∧ state p' = state p.
Proof.
  intros Hp. unfold tcp_handle_listen. rewrite (st_bind_ok (pcb_at a) _ s p s)
    by (unfold pcb_at, st_deref; by rewrite Hp).
  destruct (negb _); [intros [= <- <-]; eauto|]. destruct (_ =? _); [intros [= <- <-]; eauto|].
  intros (n & s1 & E1 & H)%st_bind_inv.
  assert (n ∉ dom (pcbs s) ∧ ∃ q, pcbs s1 = <[n := q]> (pcbs s)) as [Hn (q & P1)].
  { unfold tcp_pcb_get, st_bind, st_get, put_pcb, st_mod, st_ret in E1. injection E1 as <- <-.
    split; [apply is_fresh|by eexists]. }
  assert (n ≠ a) as Hna by (intros ->; apply Hn; by apply elem_of_dom_2 in Hp).
  apply st_bind_inv in H as ([] & s2 & (q2 & _ & P2)%mod_pcb_inv & H).
  apply st_bind_inv in H as ([] & s3 & (p3 & Hp3 & P3)%mod_pcb_inv & H).
  apply st_bind_inv in H as ([] & s4 & (P4 & _)%pcb_unlink_run & H).
  apply st_bind_inv in H as ([] & s5 & [= <-] & H).
  apply st_bind_inv in H as ([] & s6 & E6 & H).
  assert (∃ q6, pcbs s6 = <[n := q6]> (pcbs s4)) as (q6 & P6).
  { unfold enqueue in E6. apply st_bind_inv in E6 as (q5 & ? & [-> _]%pcb_at_inv & E6).
    apply st_bind_inv in E6 as (? & ? & [= <- <-] & E6).
    apply st_bind_inv in E6 as ([q' nx] & s7 & E7 & E6). unfold st_lift in E7.
    destruct (tcp_enqueue _ _ _ _); [|done]. injection E7 as -> <-.
    unfold st_bind, st_mod, put_pcb, st_mod in E6. injection E6 as <-. by exists q'. }
  apply st_bind_inv in H as ([] & s7 & (? & c & _ & _ & P7 & _)%on_pcb_inv & H).
  apply st_bind_inv in H as ([] & s8 & (p8 & Hp8 & P8)%mod_pcb_inv & [= <- <-]).
  assert (p3 = p) as ->.
  { rewrite P2, P1 in Hp3. rewrite !lookup_insert_ne in Hp3 by done. congruence. }
  rewrite P7, P6, P4, P3 in Hp8. rewrite !lookup_insert_ne in Hp8 by done.
  rewrite lookup_insert_eq in Hp8. injection Hp8 as <-.
  split.
  - intros m r Hm Hr. assert (m ≠ n) by (intros ->; apply Hn; by apply elem_of_dom_2 in Hr).
    rewrite P8, P7, P6, P4, P3, P2, P1. by rewrite !lookup_insert_ne by done.
  - eexists. rewrite P8, lookup_insert_eq. split; [done|]. done.
Qed.

Lemma syn_sent_edge h p ret c : tcp_handle_syn_sent route h (mk_conn p [] []) = Ok (ret, c) →
  state p = SYN_SENT → state (cpcb c) = SYN_SENT ∨ tcp_edge (h_flags h) SYN_SENT (state (cpcb c)).
Proof.
  unfold tcp_handle_syn_sent. intros (? & ? & [= <- <-] & H)%st_bind_inv Hst. revert H. cbn [cpcb].
  destruct (Z.eqb_spec (h_flags h) (Z.lor TCP_SYN TCP_ACK)) as [Hf|]; cbn [negb];
    [|intros [= <- <-]; by left].
  destruct (negb _); [intros [= <- <-]; by left|].
  intros ([] & c1 & [= <-] & H)%st_bind_inv. apply st_bind_inv in H as ([] & c2 & [= <-] & H).
  apply st_bind_inv in H as ([] & c3 & E3 & H). apply st_bind_inv in H as ([] & c4 & E4 & H).
  apply st_bind_inv in H as ([] & c5 & [= <-] & [= <- <-]). right.
  assert (state (cpcb c4) = ESTABLISHED) as Hs4; [|upd_simpl; rewrite Hs4; by constructor].
  apply keeps_wake in E4. destruct E4 as [-> _ _ _ _ _ _].
  destruct (has (flags p) TF_QUICKACK).
  - apply keeps_send_ack in E3. by destruct E3 as [-> _ _ _ _ _ _].
  - by injection E3 as <-.
Qed.

(** C28: a segment moves a connection along an edge of the TCP state machine that its
    flags allow, or leaves it in its state; it removes it only in LAST_ACK, on an
    acknowledgement; the other connections are untouched, except that a listener gets a new one. *)
Theorem process_edges (fuel : nat) (ipaddr src a ret : Z) (b : pbuf_t) (h : tcp_t)
    (s s' : tcp_sys) (p : tcp_pcb_t) (Hp : pcbs s !! a = Some p) (Hacc : acclist p = [] ∨ state p = LISTEN)
    (Hrun : tcp_process route (S fuel) ipaddr src a b h s = Ok (ret, s')) :
  match pcbs s' !! a with
  | Some p' => state p' = state p ∨ tcp_edge (h_flags h) (state p) (state p')
  | None => state p = LAST_ACK ∧ has (h_flags h) TCP_ACK
  end ∧
  ∀ n q, n ≠ a → pcbs s !! n = Some q → pcbs s' !! n = Some q.
Proof.
  unfold tcp_process in Hrun.
  rewrite (st_bind_ok (pcb_at a) _ s p s) in Hrun by (unfold pcb_at, st_deref; by rewrite Hp).
  apply st_bind_inv in Hrun as ([] & s1 & E1 & Hrun).
  assert ((∀ n, n ≠ a → pcbs s1 !! n = pcbs s !! n) ∧
    ∃ p1, pcbs s1 !! a = Some p1 ∧ same_conn p p1) as (Hoth & p1 & Hp1 & Hsame).
  { destruct (_ && _).
    - destruct (local_on_pcb a _ (keeps_receive route b h) _ _ _ E1) as [H1 H2].
      split; [done|by apply H2].
    - injection E1 as <-. split; [done|by exists p]. }
  clear E1. rewrite (st_bind_ok (pcb_at a) _ s1 p1 s1) in Hrun by (unfold pcb_at, st_deref; by rewrite Hp1).
  destruct Hsame as [Hst Hac _ _ _ _ _]. rewrite <-Hst in *. rewrite <-Hac in Hacc.
  assert (∀ m' p', m' = <[a := p']> (pcbs s1) → ∀ n q, n ≠ a → pcbs s !! n = Some q → m' !! n = Some q) as Hins.
  { intros m' p' -> n q Hn Hq. rewrite lookup_insert_ne, Hoth by done. done. }
  assert (∀ m', m' = delete a (pcbs s1) → ∀ n q, n ≠ a → pcbs s !! n = Some q → m' !! n = Some q) as Hdel.
  { intros m' -> n q Hn Hq. rewrite lookup_delete_ne, Hoth by done. done. }
  assert (∀ n q, n ≠ a → pcbs s !! n = Some q → pcbs s1 !! n = Some q) as Hsame1.
  { intros n q Hn Hq. by rewrite Hoth. }
  destruct (state p1) eqn:Es; try (destruct Hacc as [Hacc|?]; [|done]).
  - injection Hrun as <- <-. rewrite Hp1. rewrite Es. auto.
  - destruct (listen_local _ _ _ _ _ _ _ _ Hp1 Hrun) as (H1 & p' & -> & H2).
    split; [left; congruence|]. eauto.
  - apply on_pcb_inv in Hrun as (q & c & Hq & Hc & P & _). assert (q = p1) as -> by congruence.
    rewrite P, lookup_insert_eq. split; [|by eapply Hins].
    eapply syn_sent_edge; [exact Hc|done].
  - destruct (has (h_flags h) TCP_ACK) eqn:Ea; cbn [negb orb] in Hrun;
      [|injection Hrun as <- <-; rewrite Hp1, Es; auto].
    destruct (negb _); [injection Hrun as <- <-; rewrite Hp1, Es; auto|].
    apply st_bind_inv in Hrun as ([] & s2 & (q & Hq & P2)%mod_pcb_inv & Hrun).
    apply st_bind_inv in Hrun as ([] & s3 & E3 & Hrun). unfold st_check in E3.
    destruct (bool_decide _); [|done]. injection E3 as <-.
    apply st_bind_inv in Hrun as (lp & s4 & E4 & Hrun). unfold st_deref in E4.
    destruct (_ ≫= _); [|done]. injection E4 as -> <-.
    apply st_bind_inv in Hrun as ([] & s5 & E5 & [= <- <-]).
    destruct (wake_task_run (ac_waiter lp) EOK s2) as (s6 & E6 & P6 & _). rewrite E6 in E5.
    injection E5 as <-. rewrite P6, P2, lookup_insert_eq. split; [|by eapply Hins].
    right. constructor. by rewrite Ea.
  - destruct (has (h_flags h) TCP_FIN) eqn:Ef; apply st_bind_inv in Hrun as ([] & s2 & E2 & [= <- <-]).
    + apply mod_pcb_inv in E2 as (q & Hq & P2). rewrite P2, lookup_insert_eq. split; [|by eapply Hins].
      right. constructor. by rewrite Ef.
    + injection E2 as <-. rewrite Hp1, Es; auto.
  - apply st_bind_inv in Hrun as ([] & s2 & E2 & Hrun).
    apply st_bind_inv in Hrun as ([] & s3 & E3 & [= <- <-]).
    assert (∀ st, (∃ p2, pcbs s2 = <[a := p2]> (pcbs s1) ∧ state p2 = st) →
      st = FIN_WAIT1 ∨ tcp_edge (h_flags h) FIN_WAIT1 st →
      match pcbs s3 !! a with
      | Some p' => state p' = FIN_WAIT1 ∨ tcp_edge (h_flags h) FIN_WAIT1 (state p')
      | None => FIN_WAIT1 = LAST_ACK ∧ has (h_flags h) TCP_ACK
      end ∧ ∀ n q, n ≠ a → pcbs s !! n = Some q → pcbs s3 !! n = Some q) as Hend.
    { intros st (p2 & P2 & <-) Hedge. destruct (has (h_flags h) TCP_FIN) eqn:Ef.
      - apply mod_pcb_inv in E3 as (q & Hq & P3). rewrite P2, lookup_insert_eq in Hq. injection Hq as <-.
        rewrite P2, insert_insert_eq in P3. rewrite P3, lookup_insert_eq. split; [done|by eapply Hins].
      - injection E3 as <-. rewrite P2, lookup_insert_eq. split; [done|by eapply Hins]. }
    clear E3. destruct (has (h_flags h) TCP_FIN) eqn:Ef, (fin_acked h p1) eqn:Ea; cbn [andb] in E2.
    + apply andb_true_iff in Ea as [Ea _].
      apply st_bind_inv in E2 as ([] & s4 & (q & Hq & P4)%mod_pcb_inv & E2).
      assert (q = p1) as -> by congruence. eapply (Hend TIME_WAIT).
      * apply (timewait_leaf _ _ _ _ (take_fin p1)) in E2; [|by rewrite P4, lookup_insert_eq|done].
        eexists. rewrite E2, P4, insert_insert_eq. done.
      * right. constructor; by rewrite ?Ef, ?Ea.
    + apply mod_pcb_inv in E2 as (q & Hq & P4). eapply (Hend CLOSING); [by eexists|].
      right. constructor. by rewrite Ef.
    + apply andb_true_iff in Ea as [Ea _].
      apply mod_pcb_inv in E2 as (q & Hq & P4). eapply (Hend FIN_WAIT2); [by eexists|].
      right. constructor; [by rewrite Ea|rewrite Ef; by intros []].
    + injection E2 as <-. eapply (Hend FIN_WAIT1); [|by left]. exists p1. by rewrite insert_id.
  - destruct (has (h_flags h) TCP_FIN) eqn:Ef; apply st_bind_inv in Hrun as ([] & s2 & E2 & [= <- <-]).
    + apply st_bind_inv in E2 as ([] & s4 & (q & Hq & P4)%mod_pcb_inv & E2).
      assert (q = p1) as -> by congruence.
      apply (timewait_leaf _ _ _ _ (peer_fin h p1)) in E2; [|by rewrite P4, lookup_insert_eq|done].
      rewrite P4, insert_insert_eq in E2. rewrite E2, lookup_insert_eq. split; [|by eapply Hins].
      right. constructor. by rewrite Ef.
    + injection E2 as <-. rewrite Hp1, Es; auto.
  - destruct (has (h_flags h) TCP_FIN) eqn:Ef; apply st_bind_inv in Hrun as ([] & s2 & E2 & [= <- <-]).
    + apply mod_pcb_inv in E2 as (q & Hq & P2). rewrite P2, lookup_insert_eq. split; [|by eapply Hins].
      by left.
    + injection E2 as <-. rewrite Hp1, Es; auto.
  - apply st_bind_inv in Hrun as ([] & s2 & E2 & [= <- <-]). unfold fin_acked in E2.
    destruct (has (h_flags h) TCP_ACK) eqn:Ea; cbn [andb] in E2;
      [destruct (h_ackno h =? u32 (snd_nxt p1 + 1))|]; [|injection E2 as <-; rewrite Hp1, Es; auto..].
    apply st_bind_inv in E2 as ([] & s4 & (q & Hq & P4)%mod_pcb_inv & E2).
    assert (q = p1) as -> by congruence.
    apply (timewait_leaf _ _ _ _ (take_fin p1)) in E2; [|by rewrite P4, lookup_insert_eq|done].
    rewrite P4, insert_insert_eq in E2. rewrite E2, lookup_insert_eq. split; [|by eapply Hins].
    right. constructor. by rewrite Ea.
  - destruct (has (h_flags h) TCP_ACK) eqn:Ea; apply st_bind_inv in Hrun as ([] & s2 & E2 & [= <- <-]).
    + apply st_bind_inv in E2 as ([] & s4 & (q & Hq & P4)%mod_pcb_inv & E2).
      assert (q = p1) as -> by congruence.
      apply (put_leaf _ _ _ _ (p1 <| state := CLOSED |>)) in E2 as [E2 _];
        [|by rewrite P4, lookup_insert_eq|done].
      rewrite P4, delete_insert_eq in E2. rewrite E2, lookup_delete_eq. split; [done|by eapply Hdel].
    + injection E2 as <-. rewrite Hp1, Es; auto.
  - apply st_bind_inv in Hrun as ([] & s2 & (q & Hq & P2)%mod_pcb_inv & [= <- <-]).
    rewrite P2, lookup_insert_eq. split; [|by eapply Hins]. left.
    assert (q = p1) as -> by congruence. destruct (TCP_SEQ_GT _ _), (0 <? size b); done.
Qed.
End machine.

(** The peer closes an established connection. *)
Definition fin_seg : tcp_t := mk_tcp 4000 80 500 9 (Z.lor TCP_FIN TCP_ACK) 8192 [].
Definition no_data : pbuf_t := mk_pbuf 1 500 [] (Z.lor TCP_FIN TCP_ACK) false 1 20 0.

Lemma process_edges_witness : ∃ s',
  tcp_process (λ _, 7) 1 7 9 2 no_data fin_seg web = Ok (EOK, s') ∧
  match pcbs s' !! 2 with
  | Some p' => state p' = ESTABLISHED ∨ tcp_edge (h_flags fin_seg) ESTABLISHED (state p')
  | None => ESTABLISHED = LAST_ACK ∧ has (h_flags fin_seg) TCP_ACK
  end.
Proof.
  assert (∃ s', tcp_process (λ _, 7) 1 7 9 2 no_data fin_seg web = Ok (EOK, s')) as [s' Hs']
    by (eexists; vm_compute; reflexivity).
  exists s'. split; [exact Hs'|].
  assert (∃ p, pcbs web !! 2 = Some p ∧ state p = ESTABLISHED ∧ acclist p = []) as (p & Hp & Hst & Hacc)
    by (eexists; split; [vm_compute; reflexivity|split; reflexivity]).
  destruct (process_edges (λ _, 7) 0 7 9 2 EOK no_data fin_seg web s' p Hp (or_introl Hacc) Hs') as [H _].
  rewrite Hst in H. exact H.
Defined.

(** ** From one side's [tcp_output_seg] to the other's [tcp_process] *)

Section wire.
Context (route : Z → Z).

(** A segment that [tcp_output_seg] hands to the network is accepted by
    [tcp_input] of its destination: the checksum verifies, and what is dispatched to the control block
    is a header with the fields of the packet and a buffer with exactly its data. *)
Theorem segment_dispatched (fuel : nat) (nif : netif_cfg) (rsv id : Z) (k : packet) (slack : list Z)
    (s : tcp_sys) (Hk : packet_ok k) (Hrsv : 0 ≤ rsv < 16) (Hslack : slack ≠ [])
    (Hb : ip_addr_isbroadcast (p_raddr k) (n_netmask nif) = false)
    (Hmc : ip_addr_ismulticast (p_raddr k) = false) :
  ∃ bs h hl, segment_bytes false rsv k = Ok bs ∧
    hl * 4 = 20 + Z.of_nat (List.length (option_bytes (p_mss k))) ∧
    sport h = p_sport k ∧ dport h = p_dport k ∧ h_seqno h = p_seqno k ∧ h_ackno h = p_ackno k ∧
    h_flags h = p_flags k ∧ h_window h = p_window k ∧
    take (Z.to_nat (hl * 4) - 20) (h_options h) = option_bytes (p_mss k) ∧
    let len := Z.of_nat (List.length bs) in
    tcp_input route fuel nif (mk_ip_seg (p_laddr k) (p_raddr k) (20 + len) (bs ++ slack) id) s =
      tcp_dispatch route fuel nif (p_laddr k) (p_raddr k) hl
        (mk_pbuf id (p_seqno k) (p_data k) (p_flags k) false 1 len 0) h s.
Proof.
  destruct (segment_roundtrip rsv k Hk Hrsv) as (bs & h & Hbs & Hck & Hhd & E1 & E2 & E3 & E4 & E5 & E6 & E7).
  destruct (option_bytes_len k Hk) as [_ Hol].
  set (l := (20 + Z.of_nat (List.length (option_bytes (p_mss k)))) / 4) in *.
  assert (l * 4 = 20 + Z.of_nat (List.length (option_bytes (p_mss k)))) as Hl.
  { unfold l. rewrite Hol. by destruct (p_mss k). }
  destruct (read_header_app bs slack h l Hhd) as [Hhd2 Hlen].
  assert (Z.of_nat (List.length bs) = l * 4 + Z.of_nat (List.length (p_data k))) as Hbl.
  { rewrite Hlen, E7, length_app. lia. }
  assert (Z.of_nat (List.length bs) < 65536) as Hsmall.
  { destruct (pk_data _ Hk) as [_ Hd]. rewrite Hbl, Hl, Hol. destruct (p_mss k); lia. }
  exists bs, (h <| h_options $= λ o, o ++ slack |>), l. split; [done|]. split; [done|].
  do 6 (split; [done|]). split.
  { upd_simpl. rewrite E7, <-app_assoc, Hl. replace (Z.to_nat _ - 20)%nat with
      (List.length (option_bytes (p_mss k))) by lia. by rewrite take_app_length. }
  cbn zeta. unfold tcp_input. cbn [ip_payload ip_dst ip_src ip_len ip_buf].
  rewrite (st_bind_ok _ _ s (h <| h_options $= λ o, o ++ slack |>, l) s) by (unfold st_lift; by rewrite Hhd2).
  rewrite (proj2 (Z.ltb_ge (l * 4) 20)), Hb, Hmc by lia. cbn zeta.
  replace (u32 (20 + Z.of_nat (List.length bs) - 20)) with (Z.of_nat (List.length bs))
    by (rewrite u32_small; lia).
  rewrite length_app. assert (0 < List.length slack)%nat by (destruct slack; [done|cbn; lia]).
  rewrite (proj2 (Z.leb_gt _ _)) by lia. rewrite Nat2Z.id, take_app_length.
  rewrite (st_bind_ok _ _ s 0 s).
  2: { destruct (n_rx_offload nif); [done|]. unfold st_lift. rewrite u16_small by lia. by rewrite Hck. }
  cbn [Z.eqb negb]. rewrite (proj2 (Z.ltb_ge _ _)) by lia.
  assert (drop (Z.to_nat (l * 4)) bs = p_data k) as ->.
  { rewrite (read_header_drop bs h l _ Hhd), E7 by lia.
    replace (Z.to_nat (l * 4) - 20)%nat with (List.length (option_bytes (p_mss k))) by lia.
    apply drop_app_length. }
  set (h' := h <| h_options $= _ |>).
  assert (h_seqno h' = p_seqno k ∧ h_flags h' = p_flags k) as [-> ->] by done. done.
Qed.
End wire.

Lemma segment_dispatched_witness : ∃ bs h,
  segment_bytes false 0 (mk_packet 33558538 16781322 4097 80 1000 0 TCP_SYN 8192 (Some 1460) []) = Ok bs ∧
  dport h = 80 ∧
  tcp_input (λ _, 7) 1 (mk_netif_cfg 16781322 16777215 false)
    (mk_ip_seg 33558538 16781322 (20 + Z.of_nat (List.length bs)) (bs ++ [0]) 5) web =
  tcp_dispatch (λ _, 7) 1 (mk_netif_cfg 16781322 16777215 false) 33558538 16781322 7
    (mk_pbuf 5 1000 [] TCP_SYN false 1 (Z.of_nat (List.length bs)) 0) h web.
Proof.
  destruct (segment_dispatched (λ _, 7) 1 (mk_netif_cfg 16781322 16777215 false) 0 5
    (mk_packet 33558538 16781322 4097 80 1000 0 TCP_SYN 8192 (Some 1460) []) [0] web)
    as (bs & h & hl & H1 & Hl & _ & H2 & _ & _ & _ & _ & _ & H3).
  - split; cbn; try (unfold byte, TCP_SYN; lia); [|split; [constructor|lia]]. intros m [= <-]. lia.
  - lia.
  - discriminate.
  - reflexivity.
  - reflexivity.
  - exists bs, h. split; [exact H1|]. split; [exact H2|].
    assert (hl = 7) as -> by (change (hl * 4 = 28) in Hl; lia).
    exact H3.
Defined.

(** ** Received data *)

Lemma upd_run f c : upd f c = Ok (tt, c <| cpcb $= f |>).
Proof. done. Qed.
Lemma the_pcb_run c : the_pcb c = Ok (cpcb c, c).
Proof. done. Qed.
Lemma wake_run w r c : ∃ c', wake w r c = Ok (tt, c') ∧ cpcb c' = cpcb c ∧ cout c' = cout c ∧
  cwake c' = cwake c ++ ((λ t, (t, r)) <$> option_list w).
Proof.
  destruct w; eexists; (split; [reflexivity|]); (split; [reflexivity|]); (split; [reflexivity|]); cbn.
  - done.
  - by rewrite app_nil_r.
Qed.

Section data.
Context (route : Z → Z).

Lemma send_ack_ok p : ∃ p' k, tcp_send_ack route p TCP_ACK = Ok (p', [k]) ∧ p_ackno k = rcv_nxt p ∧
  p_data k = [] ∧ recved p' = recved p ∧ rcv_nxt p' = rcv_nxt p ∧ rcv_wnd p' = rcv_wnd p ∧
  rx_waiter p' = rx_waiter p ∧ state p' = state p.
Proof.
  unfold tcp_send_ack, tcp_output_seg. cbn [check res_bind count tflags Z.leb Z.compare Pos.compare Pos.compare_cont].
  change (has TCP_ACK TCP_SYN) with false. cbn iota. eexists _, _. split; [reflexivity|].
  cbn [p_ackno p_data]. by destruct (laddr _ =? 0).
Qed.

Lemma has_set_flag bit p : 0 < bit → has (flags (set_flag bit p)) bit = true.
Proof.
  intros Hb. unfold has, set_flag; upd_simpl. apply negb_true_iff, Z.eqb_neq.
  rewrite Z.land_lor_distr_l, Z.land_diag. intros H. apply Z.lor_eq_0_iff in H. lia.
Qed.

(** C9: of a segment whose bytes have the positions from [S] on, the bytes from [R],
    the next expected one, are accepted when [R] is among them: the window
    shrinks by their number, they are queued for the reader, who is woken, and an
    acknowledgement of them is sent or due.  When no queued segment has a larger
    first position, the stream that is read grows by exactly these bytes.  A segment
    that brings no new byte, or leaves a gap, changes nothing but the due
    acknowledgement.  After the local side has closed, the bytes are acknowledged but
    not kept. *)
Theorem receive_data (p : tcp_pcb_t) (b : pbuf_t) (h : tcp_t) (R S : Z)
    (HR : rcv_nxt p = u32 R) (HS : h_seqno h = u32 S) (Hb : seqno b = h_seqno h)
    (Hcnt : count b = 1) (Hsz : 0 < size b)
    (Hd : -2147483648 < S - R < 2147483648) (Hd2 : -2147483648 < S + size b - R < 2147483648) :
  ∃ c, tcp_update_buf route b h (mk_conn p [] []) = Ok (tt, c) ∧
  (has (flags (cpcb c)) TF_ACK_DELAY ∨ ∃ k, cout c = [k] ∧ p_ackno k = u32 (S + size b)) ∧
  if decide (S ≤ R < S + size b) then
    rcv_nxt (cpcb c) = u32 (S + size b) ∧
    rcv_wnd (cpcb c) = u16 (rcv_wnd p - (S + size b - R)) ∧
    if 4 <? state_num (state p) then recved (cpcb c) = recved p ∧ cwake c = []
    else cwake c = ((λ t, (t, EOK)) <$> option_list (rx_waiter p)) ∧ rx_waiter (cpcb c) = None ∧
      ((∀ x, x ∈ recved p → seq_key x ≤ seq_key b) →
       stream (recved (cpcb c)) = stream (recved p) ++ drop (Z.to_nat (R - S)) (data b))
  else rcv_nxt (cpcb c) = rcv_nxt p ∧ rcv_wnd (cpcb c) = rcv_wnd p ∧
    recved (cpcb c) = recved p ∧ cwake c = [] ∧ cout c = [].
Proof.
  unfold tcp_update_buf. rewrite (st_bind_ok _ _ _ _ _ (the_pcb_run _)). cbn [cpcb].
  assert (u32 (h_seqno h + size b) = u32 (S + size b)) as En by (rewrite HS; apply u32_add_l).
  rewrite En, HR, HS, seq_leq_iff, seq_gt_iff, seq_lt_iff by lia.
  assert (∀ c, c = mk_conn (set_flag TF_ACK_DELAY p) [] [] → has (flags (cpcb c)) TF_ACK_DELAY) as Hdelay.
  { intros c ->. cbn [cpcb]. by rewrite has_set_flag. }
  destruct (Z.leb_spec (S + size b) R) as [Hold|Hold];
    [destruct (decide _) as [|_]; [lia|]; eexists; split; [reflexivity|]; split; [left; by apply Hdelay|done]|].
  destruct (Z.ltb_spec R S) as [Hgap|Hgap];
    [destruct (decide _) as [|_]; [lia|]; eexists; split; [reflexivity|]; split; [left; by apply Hdelay|done]|].
  destruct (decide _) as [_|]; [|lia].
  set (b1 := if S <? R then _ else b).
  assert (data b1 = drop (Z.to_nat (R - S)) (data b) ∧ size b1 = S + size b - R ∧ count b1 = 1 ∧
    seq_key b1 = seq_key b) as (Hdata & Hsz1 & Hcnt1 & Hkey).
  { unfold b1. destruct (Z.ltb_spec S R) as [Hlt|Hge].
    - rewrite seq_diff, s32_small by lia. upd_simpl. split; [done|]. split; [|done].
      unfold size in *; upd_simpl. rewrite length_drop. lia.
    - assert (R = S) as -> by lia. rewrite Z.sub_diag, drop_0. repeat split; try done. lia. }
  clearbody b1. rewrite (proj2 (Z.eqb_neq (size b1) 0)) by lia.
  rewrite (st_bind_ok _ _ _ _ _ (upd_run _ _)).
  assert (∀ c : conn, st_check (count b1 =? 1) c = Ok (tt, c)) as Echk
    by (intros c; unfold st_check; by rewrite Hcnt1).
  rewrite (st_bind_ok _ _ _ _ _ (Echk _)).
  do 2 rewrite (st_bind_ok _ _ _ _ _ (upd_run _ _)).
  set (b2 := b1 <| count := 2 |>). set (c2 := _ <| cpcb $= set_flag TF_ACK_DELAY |>).
  assert (∃ c3, (if has (flags p) TF_QUICKACK then emit (λ p, tcp_send_ack route p TCP_ACK) else st_ret tt) c2 = Ok (tt, c3) ∧
    (has (flags (cpcb c3)) TF_ACK_DELAY ∨ ∃ k, cout c3 = [k] ∧ p_ackno k = u32 (S + size b)) ∧ cwake c3 = [] ∧
    recved (cpcb c3) = recved p ∧ rcv_nxt (cpcb c3) = u32 (S + size b) ∧
    rcv_wnd (cpcb c3) = u16 (rcv_wnd p - (S + size b - R)))
    as (c3 & E3 & Hack & Hw & Hr & Hn & Hwn).
  { assert (rcv_wnd (cpcb c2) = u16 (rcv_wnd p - (S + size b - R))) as Hwn2.
    { change (rcv_wnd (cpcb c2)) with (u16 (rcv_wnd p - size b2)).
      change (size b2) with (size b1). by rewrite Hsz1. }
    destruct (has (flags p) TF_QUICKACK).
    - destruct (send_ack_ok (cpcb c2)) as (p' & k & E & H1 & H2 & H3 & H4 & H5 & H6 & H7).
      unfold emit. rewrite E. eexists. split; [reflexivity|]. cbn [cpcb cout cwake].
      split; [right; by exists k|]. split; [done|]. by rewrite H3, H4, H5.
    - exists c2. split; [done|]. split; [left; by apply Is_true_true, has_set_flag|done]. }
  rewrite (st_bind_ok _ _ _ _ _ E3).
  destruct (4 <? state_num (state p)).
  { eexists; split; [reflexivity|]. by rewrite Hr, Hn, Hwn. }
  rewrite (st_bind_ok _ _ _ _ _ (upd_run _ _)). set (c4 := c3 <| cpcb $= _ |>).
  destruct (wake_run (rx_waiter p) EOK c4) as (c5 & E5 & P5 & O5 & W5).
  change (cout c4) with (cout c3) in O5. change (cwake c4) with (cwake c3) in W5. rewrite Hw in W5.
  rewrite (st_bind_ok _ _ _ _ _ E5). eexists. split; [reflexivity|]. upd_simpl. rewrite P5, O5, W5.
  split; [exact Hack|]. split; [exact Hn|]. split; [exact Hwn|]. split; [done|]. split; [done|].
  intros Hmax. unfold c4; upd_simpl. rewrite Hr, insert_sort_last.
  - rewrite stream_app. f_equal. unfold stream; cbn. rewrite app_nil_r. exact Hdata.
  - intros x Hx. change (seq_key b2) with (seq_key b1). rewrite Hkey. by apply Hmax.
Qed.
End data.

Lemma receive_data_witness : ∃ c,
  tcp_update_buf (λ _, 7) (mk_pbuf 1 500 [1; 2; 3; 4] TCP_ACK false 1 24 0)
    (mk_tcp 4000 80 500 9 TCP_ACK 8192 []) (mk_conn (new_pcb 9 <| rcv_nxt := 502 |>) [] []) = Ok (tt, c) ∧
  rcv_nxt (cpcb c) = 504 ∧ stream (recved (cpcb c)) = [3; 4].
Proof.
  destruct (receive_data (λ _, 7) (new_pcb 9 <| rcv_nxt := 502 |>)
    (mk_pbuf 1 500 [1; 2; 3; 4] TCP_ACK false 1 24 0) (mk_tcp 4000 80 500 9 TCP_ACK 8192 []) 502 500)
    as (c & H1 & _ & H2); try reflexivity; try (unfold size; cbn; lia).
  exists c. split; [exact H1|]. unfold size in H2; cbn in H2.
  destruct (decide _) as [_|Hn]; [|exfalso; lia]. destruct H2 as (E & _ & _ & _ & Hs).
  split; [exact E|]. apply Hs. intros x Hx. by apply elem_of_nil in Hx.
Defined.

(** A retransmission that starts before a queued segment and ends after it is sorted
    before it, and the reader gets the bytes of 502 before those of 500. *)
Example overlapping_retransmission_misordered : ∃ c,
  tcp_update_buf (λ _, 7) (mk_pbuf 2 499 [9; 1; 2; 3; 4] TCP_ACK false 1 25 0)
    (mk_tcp 4000 80 499 9 TCP_ACK 8192 [])
    (mk_conn (new_pcb 9 <| rcv_nxt := 502 |>
               <| recved := [mk_pbuf 1 500 [1; 2] TCP_ACK false 1 22 0] |>) [] []) = Ok (tt, c) ∧
  stream (recved (cpcb c)) = [3; 4; 1; 2].
Proof. eexists. split; [vm_compute; reflexivity|]. vm_compute. done. Qed.

(** ** Acknowledgements *)

Section acks.
Context (route : Z → Z).

Lemma release_acked_ok ackno bs (c : conn) : (∀ b, b ∈ bs → 1 ≤ count b ≤ 2) →
  release_acked ackno bs c = Ok (List.filter (λ b, negb (acked ackno b)) bs, c).
Proof.
  intros Hb. unfold release_acked.
  assert (forallb (λ b, negb (acked ackno b) || (0 <? count b) && (count b <=? 2)) bs = true) as E.
  { apply forallb_forall. intros b Hin. apply list_elem_of_In in Hin. specialize (Hb b Hin).
    rewrite (proj2 (Z.ltb_lt 0 (count b))), (proj2 (Z.leb_le (count b) 2)) by lia. apply orb_true_r. }
  unfold st_bind, st_check. by rewrite E.
Qed.

Lemma grow_cwnd_ok p : 0 < snd_mss p ≤ 46340 → 0 ≤ snd_cwnd p ≤ 2 ^ 30 → 0 ≤ snd_ssthresh p →
  grow_cwnd p = Z.min TCP_MAX_WINDOW (snd_cwnd p +
    if snd_cwnd p <=? snd_ssthresh p then snd_mss p else snd_mss p * snd_mss p / snd_cwnd p).
Proof.
  change (2 ^ 30) with 1073741824. intros Hm Hc Hs. unfold grow_cwnd, TCP_MAX_WINDOW.
  rewrite (s32_small (snd_cwnd p)), (u32_small (snd_cwnd p)) by lia.
  assert (0 < snd_mss p * snd_mss p ≤ 2147395600) by nia.
  destruct (Z.leb_spec (snd_cwnd p) (snd_ssthresh p)) as [Hle|Hgt].
  - rewrite (proj2 (Z.ltb_ge (snd_ssthresh p) (snd_cwnd p))) by lia. rewrite s32_small by lia.
    destruct (Z.ltb_spec (snd_cwnd p + snd_mss p) 65535); rewrite u32_small; lia.
  - rewrite (proj2 (Z.ltb_lt (snd_ssthresh p) (snd_cwnd p))) by lia.
    rewrite (s32_small (snd_mss p * snd_mss p)) by lia.
    rewrite Z.quot_div_nonneg by lia.
    pose proof (Z.mul_div_le (snd_mss p * snd_mss p) (snd_cwnd p) ltac:(lia)) as Hmul.
    pose proof (Z.div_pos (snd_mss p * snd_mss p) (snd_cwnd p) ltac:(lia) ltac:(lia)) as Hq.
    set (q := _ / snd_cwnd p) in *.
    assert (snd_cwnd p + q < 2147483648) by nia. rewrite s32_small by lia.
    destruct (Z.ltb_spec (snd_cwnd p + q) 65535); rewrite u32_small; lia.
Qed.

(** The congestion window an acknowledgement starts from. *)
Definition deflated (p : tcp_pcb_t) : Z :=
  if (REXMIT_THREASH <? dupacks p) && (snd_ssthresh p <? snd_cwnd p) then snd_ssthresh p else snd_cwnd p.

(** The partial buffer goes to the unsent segments when everything sent is
    acknowledged. *)
Definition flushed (ackno : Z) (p : tcp_pcb_t) : bool :=
  match snd_buf p with Some b => (0 <? size b) && (ackno =? snd_max p) | None => false end.

Lemma ack_window_ok h p : 0 < snd_mss p ≤ 46340 → 0 ≤ snd_cwnd p ≤ 2 ^ 30 → 0 ≤ snd_ssthresh p ≤ 2 ^ 30 →
  let q := ack_window h p in
  snd_una q = h_ackno h ∧ rtx_cnt q = 0 ∧ dupacks q = 0 ∧
  snd_cwnd q = Z.min TCP_MAX_WINDOW (deflated p +
    if deflated p <=? snd_ssthresh p then snd_mss p else snd_mss p * snd_mss p / deflated p) ∧
  unacked q = unacked p ∧ unsent q = unsent p ∧ snd_buf q = snd_buf p ∧ tx_waiter q = tx_waiter p ∧
  timers q = timers p ∧ snd_max q = snd_max p.
Proof.
  intros Hm Hc Hs. cbn zeta.
  assert (∃ w, deflated p = w ∧ 0 ≤ w ≤ 2 ^ 30 ∧
    ack_window h p = ack_window h (p <| dupacks := 0 |> <| snd_cwnd := w |>)) as (w & -> & Hw & ->).
  { unfold ack_window, deflated. cbv zeta. upd_simpl.
    destruct (_ && (snd_ssthresh p <? snd_cwnd p)) eqn:E; (eexists; split; [done|]);
      (split; [lia|]); by change (REXMIT_THREASH <? 0) with false. }
  set (p' := p <| dupacks := 0 |> <| snd_cwnd := w |>). unfold ack_window.
  change (REXMIT_THREASH <? dupacks p') with false. cbn [andb]. cbv zeta.
  assert (grow_cwnd (p' <| dupacks := 0 |>) = Z.min TCP_MAX_WINDOW (w +
    if w <=? snd_ssthresh p then snd_mss p else snd_mss p * snd_mss p / w)) as Hg
    by (etransitivity; [apply grow_cwnd_ok; [exact Hm|exact Hw|apply Hs]|reflexivity]).
  rewrite Hg. clear Hg. set (g := Z.min _ _). clearbody g. unfold tcp_xmit_timer.
  by destruct (_ && _).
Qed.

Lemma flush_buf_ok h p :
  let q := flush_buf h p in
  snd_una q = snd_una p ∧ rtx_cnt q = rtx_cnt p ∧ dupacks q = dupacks p ∧ snd_cwnd q = snd_cwnd p ∧
  unacked q = unacked p ∧ tx_waiter q = tx_waiter p ∧ timers q = timers p ∧
  if flushed (h_ackno h) p then ∃ b, snd_buf p = Some b ∧ snd_buf q = None ∧
    unsent q = Abs.insert_sort seq_key b (unsent p)
  else snd_buf q = snd_buf p ∧ unsent q = unsent p.
Proof.
  cbn zeta. unfold flush_buf, flushed. destruct (snd_buf p) as [b|] eqn:E; [|done].
  destruct (_ && _); [|done]. upd_simpl. do 7 (split; [done|]). by exists b.
Qed.

Lemma wake_writer_ok c : let p := cpcb c in
  ∃ c', wake_writer c = Ok (tt, c') ∧ cout c' = cout c ∧
  if bool_decide (unacked p = [] ∧ unsent p = [] ∧ tx_waiter p ≠ None) then
    cpcb c' = set_timer TIMER_REXMIT 0 (p <| tx_waiter := None |>) ∧
    cwake c' = cwake c ++ ((λ t, (t, EOK)) <$> option_list (tx_waiter p))
  else c' = c.
Proof.
  cbn zeta. unfold wake_writer. rewrite (st_bind_ok _ _ _ _ _ (the_pcb_run _)).
  destruct (bool_decide_reflect (unacked (cpcb c) = [] ∧ unsent (cpcb c) = [] ∧ tx_waiter (cpcb c) ≠ None))
    as [(-> & -> & Ht)|Hn].
  - destruct (tx_waiter (cpcb c)) as [t|]; [|done].
    destruct (wake_run (Some t) EOK c) as (c1 & E1 & P1 & O1 & W1).
    rewrite (st_bind_ok _ _ _ _ _ E1), upd_run. eexists. split; [reflexivity|]. upd_simpl.
    by rewrite P1, O1, W1.
  - exists c. split; [|done].
    destruct (unacked (cpcb c)), (unsent (cpcb c)), (tx_waiter (cpcb c)); try done. naive_solver.
Qed.

Lemma set_lists_ok c1 q un us : cpcb c1 = q → cout c1 = [] → cwake c1 = [] →
  ∃ c2, c1 <| cpcb $= λ p, p <| unacked := un |> |> <| cpcb $= λ p, p <| unsent := us |> |> = c2 ∧
    cpcb c2 = q <| unacked := un |> <| unsent := us |> ∧ cout c2 = [] ∧ cwake c2 = [].
Proof. intros <- <- <-. by eexists. Qed.

Lemma set_lists_fields q un us : let r := q <| unacked := un |> <| unsent := us |> in
  snd_una r = snd_una q ∧ rtx_cnt r = rtx_cnt q ∧ dupacks r = dupacks q ∧ snd_cwnd r = snd_cwnd q ∧
  unacked r = un ∧ unsent r = us ∧ tx_waiter r = tx_waiter q ∧ timers r = timers q ∧
  snd_max r = snd_max q ∧ snd_buf r = snd_buf q.
Proof. done. Qed.

(** C13: an acknowledgement of new data ends the counting of duplicates and of
    retransmissions and grows the congestion window, never past 65535: by one MSS below the
    threshold and by MSS^2 over the window above it.  It removes exactly the segments it covers
    completely, sends nothing, and wakes the waiting writer exactly when nothing is left to send or to
    acknowledge; only then, and only if there is such a writer, the retransmission timer is stopped. *)
Theorem ack_advances (p : tcp_pcb_t) (h : tcp_t) (sz : Z)
    (Hnew : TCP_SEQ_LT (snd_una p) (h_ackno h))
    (Hcnt : ∀ b, b ∈ unacked p ++ unsent p → 1 ≤ count b ≤ 2)
    (Hm : 0 < snd_mss p ≤ 46340) (Hc : 0 ≤ snd_cwnd p ≤ 2 ^ 30) (Hs : 0 ≤ snd_ssthresh p ≤ 2 ^ 30) :
  ∃ c, tcp_update_ack route sz h (mk_conn p [] []) = Ok (tt, c) ∧ cout c = [] ∧
  let q := cpcb c in
  let left bs := List.filter (λ b, negb (acked (h_ackno h) b)) bs in
  snd_una q = h_ackno h ∧ rtx_cnt q = 0 ∧ dupacks q = 0 ∧
  snd_cwnd q = Z.min TCP_MAX_WINDOW (deflated p +
    if deflated p <=? snd_ssthresh p then snd_mss p else snd_mss p * snd_mss p / deflated p) ∧
  unacked q = left (unacked p) ∧
  (if flushed (h_ackno h) p then ∃ b, snd_buf p = Some b ∧ snd_buf q = None ∧
     unsent q = Abs.insert_sort seq_key b (left (unsent p))
   else snd_buf q = snd_buf p ∧ unsent q = left (unsent p)) ∧
  if bool_decide (unacked q = [] ∧ unsent q = [] ∧ tx_waiter p ≠ None) then
    cwake c = ((λ t, (t, EOK)) <$> option_list (tx_waiter p)) ∧ tx_waiter q = None ∧
    timers q = <[TIMER_REXMIT := 0]> (timers p)
  else cwake c = [] ∧ tx_waiter q = tx_waiter p ∧ timers q = timers p.
Proof.
  unfold tcp_update_ack. rewrite (st_bind_ok _ _ _ _ _ (the_pcb_run _)). cbn [cpcb].
  assert (TCP_SEQ_GEQ (snd_una p) (h_ackno h) = false) as ->.
  { unfold TCP_SEQ_GEQ, TCP_SEQ_LT in *. apply Is_true_true in Hnew. lia. }
  rewrite (st_bind_ok _ _ _ _ _ (upd_run _ _)), (st_bind_ok _ _ _ _ _ (the_pcb_run _)). upd_simpl.
  cbn [cpcb].
  destruct (ack_window_ok h p Hm Hc Hs) as (G1 & G2 & G3 & G4 & G5 & G6 & G7 & G8 & G9 & G10).
  set (c1 := _ <| cpcb $= _ |>). assert (cpcb c1 = ack_window h p ∧ cout c1 = [] ∧ cwake c1 = []) as (C1 & C2 & C3) by done.
  clearbody c1. set (q := ack_window h p) in *. clearbody q. rewrite G5.
  rewrite (st_bind_ok _ _ _ _ _ (release_acked_ok (h_ackno h) (unacked p) c1
    ltac:(intros b Hb; apply Hcnt, elem_of_app; by left))).
  rewrite (st_bind_ok _ _ _ _ _ (upd_run _ _)). rewrite G6.
  rewrite (st_bind_ok _ _ _ _ _ (release_acked_ok (h_ackno h) (unsent p) _
    ltac:(intros b Hb; apply Hcnt, elem_of_app; by right))).
  do 2 rewrite (st_bind_ok _ _ _ _ _ (upd_run _ _)).
  set (un := List.filter _ (unacked p)). set (us := List.filter _ (unsent p)).
  destruct (set_lists_ok c1 q un us C1 C2 C3) as (c2 & E2 & P2 & D1 & D2). rewrite E2. clear E2.
  destruct (set_lists_fields q un us) as (D3 & D4 & D5 & D6 & D7 & D8 & D9 & D10 & D11 & D12).
  rewrite <-P2 in D3, D4, D5, D6, D7, D8, D9, D10, D11, D12. clear P2.
  rewrite G1 in D3. rewrite G2 in D4. rewrite G3 in D5. rewrite G4 in D6. rewrite G7 in D12.
  rewrite G8 in D9. rewrite G9 in D10.
  assert (flushed (h_ackno h) (cpcb c2) = flushed (h_ackno h) p) as D13
    by (unfold flushed; by rewrite D12, D11, G10).
  destruct (flush_buf_ok h (cpcb c2)) as (F1 & F2 & F3 & F4 & F5 & F6 & F7 & F8).
  rewrite D3 in F1. rewrite D4 in F2. rewrite D5 in F3. rewrite D6 in F4. rewrite D7 in F5.
  rewrite D9 in F6. rewrite D10 in F7. rewrite D8, D13, D12 in F8.
  set (c4 := c2 <| cpcb $= flush_buf h |>). set (r := flush_buf h (cpcb c2)) in *.
  assert (cpcb c4 = r ∧ cout c4 = [] ∧ cwake c4 = []) as (R1 & R2 & R3)
    by (unfold c4; upd_simpl; by rewrite D1, D2).
  clearbody c4 r. destruct (wake_writer_ok c4) as (c3 & E & O & W). rewrite R1, R3 in W.
  exists c3. split; [exact E|]. rewrite F6 in W. rewrite O, R2. split; [done|]. clear E O.
  destruct (bool_decide_reflect (unacked r = [] ∧ unsent r = [] ∧ tx_waiter p ≠ None)) as [Hd|Hd].
  - destruct W as [W1 W2]. rewrite W1, W2. unfold set_timer; upd_simpl.
    rewrite bool_decide_true by done. rewrite F7. by repeat (split; [done|]).
  - subst c3. rewrite R1, R3, bool_decide_false by done. by repeat (split; [done|]).
Qed.
End acks.

Lemma ack_advances_witness : ∃ c,
  tcp_update_ack (λ _, 7) 0 (mk_tcp 4000 80 500 1003 TCP_ACK 8192 [])
    (mk_conn (established <| unacked := [one_seg <| count := 2 |>] |>) [] []) = Ok (tt, c) ∧
  snd_una (cpcb c) = 1003 ∧ unacked (cpcb c) = [].
Proof.
  destruct (ack_advances (λ _, 7) (established <| unacked := [one_seg <| count := 2 |>] |>)
    (mk_tcp 4000 80 500 1003 TCP_ACK 8192 []) 0) as (c & H1 & _ & H2 & _ & _ & _ & H3 & _).
  - exact I.
  - intros b Hb. apply list_elem_of_singleton in Hb as ->. vm_compute. intuition discriminate.
  - vm_compute. intuition discriminate.
  - vm_compute. intuition discriminate.
  - vm_compute. intuition discriminate.
  - exists c. split; [exact H1|]. split; [exact H2|exact H3].
Defined.
