(* ===== verification/TcpTimer.v ===== *)
(** * TCP timers ([src/src/net/tcp_timer.c])

    One round of the two timer tasks over the active and the TIME_WAIT connections.
    The slow task reads [node->next] before it works on a connection, so that it goes on from
    there: a control block that was freed meanwhile faults. *)
From S2P Require Import Prelude Dlist Tcp TcpOutput TcpPcb TcpInput.

Section timers.
Context (route : Z → Z).

Definition tcp_persist (a : Z) : ST tcp_sys unit :=
  let* p := pcb_at a in
  do! mod_pcb a (λ p, set_timer TIMER_PERSIST
    (tcp_range_value (u32 (u32 (persist_value p) * tcp_backoff (rtx_cnt p))) TO_PERMAX TO_PERMAX) p);
  do! mod_pcb a (λ p, if rtx_cnt p <? MAXRXTCNT then p <| rtx_cnt $= λ c, c + 1 |> else p);
  send_all [tcp_response p (snd_una p) (rcv_nxt p) TCP_ACK].

Definition tcp_keepalive (a : Z) : ST tcp_sys unit :=
  let* p := pcb_at a in
  do! send_all [tcp_response p (u32 (snd_una p - 1)) (rcv_nxt p) TCP_ACK];
  mod_pcb a (set_timer TIMER_KEEPALIVE TO_KEEP_INTERVAL).

(** [tcp_pcb_purge(pcb, -ETIME); pcb->state = CLOSED]. *)
Definition close_timed_out (fuel : nat) (a : Z) : ST tcp_sys unit :=
  do! tcp_pcb_purge fuel a (- ETIME);
  mod_pcb a (λ p, p <| state := CLOSED |>).

Definition tcp_timeout (fuel : nat) (a : Z) (type : nat) : ST tcp_sys unit :=
  let* p := pcb_at a in
  if (type =? TIMER_SYN)%nat then
    if negb (bool_decide (state p = SYN_SENT)) && negb (bool_decide (state p = SYN_RCVD)) then st_ret tt
    else close_timed_out fuel a
  else if (type =? TIMER_REXMIT)%nat then
    do! mod_pcb a (λ p, p <| rtx_cnt $= λ c, u32 (c + 1) |>);
    let* p := pcb_at a in
    if MAXRXTCNT <? rtx_cnt p then close_timed_out fuel a
    else
      do! mod_pcb a (λ p, p <| rto := tcp_update_rto p (tcp_backoff (rtx_cnt p)) |>);
      on_pcb a (emit (tcp_rexmit route))
  else if (type =? TIMER_PERSIST)%nat then tcp_persist a
  else if (type =? TIMER_KEEPALIVE)%nat then
    if negb (has (flags p) TF_KEEPALIVE) then st_ret tt
    else if state_num (state p) <? 4 then st_ret tt
    else if TO_KEEP_INTERVAL * TO_KEEPCNT <? idle p then close_timed_out fuel a
    else tcp_keepalive a
  else if (type =? TIMER_FIN_WAIT2)%nat || (type =? TIMER_TIMEWAIT)%nat then tcp_pcb_put fuel a
  else st_ret tt.

(** [if (pcb->timers[i] && (--pcb->timers[i]) == 0) tcp_timeout(pcb, i)]. *)
Definition timer_turn (fuel : nat) (a : Z) (i : nat) : ST tcp_sys unit :=
  let* p := pcb_at a in
  let* v := st_deref (λ _, timers p !! i) in
  if v =? 0 then st_ret tt
  else
    do! mod_pcb a (set_timer i (v - 1));
    if v - 1 =? 0 then tcp_timeout fuel a i else st_ret tt.

Definition slow_turn (fuel : nat) (a : Z) : ST tcp_sys unit :=
  do! mod_pcb a (λ p, let p := p <| idle $= λ i, u32 (i + 1) |> in
                      if rtt p =? 0 then p else p <| rtt $= λ r, u32 (r + 1) |>);
  st_for (seq 0 TIMER_NUM) (timer_turn fuel a).

(** The node after [a]. *)
Fixpoint succ_of (a : Z) (l : list Z) : option Z :=
  match l with
  | [] => None
  | b :: l' => if b =? a then hd_error l' else succ_of a l'
  end.

Fixpoint slow_loop (turns fuel : nat) (list : tcp_sys → list Z) (node : option Z) : ST tcp_sys unit :=
  match node with
  | None => st_ret tt
  | Some a =>
      match turns with
      | O => st_stop Fuel
      | S n =>
          let* s := st_get in
          let next := succ_of a (list s) in
          do! slow_turn fuel a;
          slow_loop n fuel list next
      end
  end.

Definition tcp_slowtimo (fuel : nat) : ST tcp_sys unit :=
  let* s := st_get in
  do! slow_loop (List.length (active_list s)) fuel active_list (hd_error (active_list s));
  let* s := st_get in
  slow_loop (List.length (timewait_list s)) fuel timewait_list (hd_error (timewait_list s)).

Definition fast_turn (a : Z) : ST tcp_sys unit :=
  do! mod_pcb a (λ p, if has (flags p) TF_ACK_DELAY then set_flag TF_ACK_NOW p else p);
  let* p := pcb_at a in
  if has (flags p) TF_ACK_NOW then on_pcb a (output route) else st_ret tt.

Definition tcp_fastimo : ST tcp_sys unit :=
  let* s := st_get in
  do! st_for (active_list s) fast_turn;
  st_for (timewait_list s) fast_turn.

(** ** The retransmission timer *)

Lemma backoff_rto_bounds p b : rttmin p ≤ TO_REXMIT_MAX → rttmin p ≤ tcp_update_rto p b ≤ TO_REXMIT_MAX.
Proof. intros H. unfold tcp_update_rto. by apply range_value_bounds. Qed.

Lemma close_timed_out_ok fuel a s p : pcbs s !! a = Some p → acclist p = [] → settled p = true →
  ∃ s', close_timed_out (S fuel) a s = Ok (tt, s') ∧
    pcbs s' = <[a := purged p <| state := CLOSED |>]> (pcbs s) ∧
    woken s' = woken s ++ waiters p (- ETIME) ∧ wire s' = wire s.
Proof.
  intros Hp Hacc Hset. pose proof (purge_leaf fuel a (- ETIME) s p Hp Hacc) as H. rewrite Hset in H.
  destruct H as (s1 & E1 & P1 & W1 & R1). unfold close_timed_out. rewrite (st_bind_ok _ _ _ _ _ E1).
  rewrite (mod_pcb_run _ _ _ (purged p)) by (rewrite P1; apply lookup_insert_eq).
  eexists. split; [reflexivity|]. upd_simpl. set (q := purged p <| state := CLOSED |>). clearbody q.
  rewrite P1. split; [apply insert_insert_eq|]. split; [done|apply R1].
Qed.

(** What a connection with nothing to send looks like after a retransmission timeout. *)
Definition backed_off (p : tcp_pcb_t) : tcp_pcb_t :=
  let p := p <| rtx_cnt $= λ c, u32 (c + 1) |> in
  p <| rto := tcp_update_rto p (tcp_backoff (rtx_cnt p)) |>.

Lemma rexmit_empty p : unsent p = [] → unacked p = [] → has (flags p) TF_ACK_NOW = false →
  ∃ p', tcp_rexmit route p = Ok (p', []) ∧ same_window p p' ∧ unsent p' = [] ∧ unacked p' = [] ∧
    flags p' = flags p ∧ rtx_cnt p' = rtx_cnt p ∧ rttmin p' = rttmin p ∧ acclist p' = acclist p ∧
    timers p' = <[TIMER_REXMIT := rto p]> (timers p) ∧
    ac_waiter p' = ac_waiter p ∧ rx_waiter p' = rx_waiter p ∧ tx_waiter p' = tx_waiter p.
Proof.
  intros Hu Ha Hf. unfold tcp_rexmit. rewrite Ha. cbn [requeue]. unfold tcp_output.
  set (p0 := if _ && _ then _ else p).
  assert (same_window p p0 ∧ unsent p0 = [] ∧ unacked p0 = [] ∧ flags p0 = flags p ∧ rtx_cnt p0 = rtx_cnt p ∧
    rttmin p0 = rttmin p ∧ acclist p0 = acclist p ∧ timers p0 = timers p ∧
    ac_waiter p0 = ac_waiter p ∧ rx_waiter p0 = rx_waiter p ∧ tx_waiter p0 = tx_waiter p) as H.
  { unfold p0. destruct (_ && _); (split; [by split|]); (split; [exact Hu|]); (split; [exact Ha|]); done. }
  clearbody p0. destruct H as (S0 & U0 & A0 & F0 & C0 & M0 & L0 & T0 & W1 & W2 & W3).
  rewrite U0. cbn [output_loop res_bind]. cbn zeta. cbv beta. rewrite F0, Hf.
  destruct (_ <? _); cbn [res_bind]; (eexists; split; [reflexivity|]); unfold set_timer; upd_simpl;
    rewrite T0, (w_rto _ _ S0); (split; [by destruct S0|done]).
Qed.

(** A retransmission timeout of a connection without listening clients whose queues are
    empty, as they are once everything is acknowledged, still counts: the first
    twelve in a row each double the timeout up to its bound and start the timer again, the
    next one closes the connection and fails its waiters with [-ETIME]. *)
Theorem rexmit_gives_up (fuel : nat) (a : Z) (s : tcp_sys) (p : tcp_pcb_t)
    (Hp : pcbs s !! a = Some p) (Hacc : acclist p = [])
    (Hrecv : forallb (λ b, count b =? 1) (recved p) = true)
    (Hu : unsent p = []) (Ha : unacked p = []) (Hf : has (flags p) TF_ACK_NOW = false)
    (Hcnt : 0 ≤ rtx_cnt p ≤ MAXRXTCNT) (Hmin : 0 < rttmin p ≤ TO_REXMIT_MAX) :
  ∃ s' p', tcp_timeout (S fuel) a TIMER_REXMIT s = Ok (tt, s') ∧ wire s' = wire s ∧
    pcbs s' = <[a := p']> (pcbs s) ∧
    if rtx_cnt p <? MAXRXTCNT then
      state p' = state p ∧ rtx_cnt p' = rtx_cnt p + 1 ∧ woken s' = woken s ∧
      unsent p' = [] ∧ unacked p' = [] ∧ flags p' = flags p ∧ rttmin p' = rttmin p ∧
      recved p' = recved p ∧ acclist p' = [] ∧
      (∀ v, timers p !! TIMER_REXMIT = Some v → timers p' !! TIMER_REXMIT = Some (rto p') ∧ 0 < rto p')
    else state p' = CLOSED ∧ woken s' = woken s ++ waiters p (- ETIME).
Proof.
  unfold tcp_timeout. rewrite (st_bind_ok _ _ _ _ _ (pcb_at_run _ _ _ Hp)). cbn [Nat.eqb TIMER_REXMIT TIMER_SYN].
  rewrite (st_bind_ok _ _ _ _ _ (mod_pcb_run _ _ _ _ Hp)).
  set (p1 := p <| rtx_cnt $= _ |>). set (s1 := s <| pcbs $= _ |>).
  assert (pcbs s1 = <[a := p1]> (pcbs s)) as P1 by done.
  assert (pcbs s1 !! a = Some p1) as Hp1 by (rewrite P1; apply lookup_insert_eq).
  rewrite (st_bind_ok _ _ _ _ _ (pcb_at_run _ _ _ Hp1)).
  unfold MAXRXTCNT in *.
  assert (rtx_cnt p1 = rtx_cnt p + 1) as E1 by (unfold p1; upd_simpl; apply u32_small; lia).
  rewrite E1. destruct (Z.ltb_spec (rtx_cnt p) 12) as [Hlt|Hge].
  - rewrite (proj2 (Z.ltb_ge 12 _)) by lia.
    rewrite (st_bind_ok _ _ _ _ _ (mod_pcb_run _ _ _ _ Hp1)).
    set (p2 := p1 <| rto := _ |>). set (s2 := s1 <| pcbs $= _ |>).
    assert (pcbs s2 = <[a := p2]> (pcbs s)) as P2 by (unfold s2; upd_simpl; by rewrite P1, insert_insert_eq).
    destruct (rexmit_empty p2) as (p3 & E3 & S3 & U3 & A3 & F3 & C3 & M3 & L3 & T3 & _); [done..|].
    unfold on_pcb. rewrite P2, lookup_insert_eq. unfold emit. cbn [cpcb]. rewrite E3.
    eexists _, p3. split; [reflexivity|]. upd_simpl. cbn [cout cwake cpcb app]. rewrite !app_nil_r.
    split; [done|]. split; [by rewrite P2, insert_insert_eq|].
    destruct S3 as [_ _ _ _ ST _ _ SR SO].
    split; [by rewrite ST|]. split; [by rewrite C3|]. split; [done|]. split; [done|]. split; [done|].
    split; [by rewrite F3|]. split; [by rewrite M3|]. split; [by rewrite SR|]. split; [by rewrite L3|].
    intros v Hv. rewrite T3, SO. split.
    + rewrite list_lookup_insert_eq; [done|]. change (timers p2) with (timers p). by eapply lookup_lt_Some.
    + assert (rttmin p1 ≤ rto p2 ≤ TO_REXMIT_MAX) as [Hr _]; [|change (rttmin p1) with (rttmin p) in Hr; lia].
      apply (backoff_rto_bounds p1). apply Hmin.
  - rewrite (proj2 (Z.ltb_lt 12 _)) by lia.
    destruct (close_timed_out_ok fuel a s1 p1 Hp1 Hacc) as (s2 & E2 & P2 & W2 & Wi).
    { unfold settled. rewrite !forallb_app. change (recved p1) with (recved p).
      change (unsent p1) with (unsent p). change (unacked p1) with (unacked p). by rewrite Hrecv, Hu, Ha. }
    eexists s2, _. split; [exact E2|]. split; [by rewrite Wi|].
    split; [by rewrite P2, P1, insert_insert_eq|]. split; [done|]. by rewrite W2.
Qed.
End timers.

Definition quiet : tcp_sys :=
  mk_tcp_sys (<[2 := established <| rtx_cnt := 12 |>]> ∅) [] [2] [] [] Port.no_ports [] [] 0 0.

Lemma rexmit_gives_up_witness : ∃ s' p', tcp_timeout (λ _, 7) 1 2 TIMER_REXMIT quiet = Ok (tt, s') ∧
  pcbs s' = <[2 := p']> (pcbs quiet) ∧ state p' = CLOSED.
Proof.
  destruct (rexmit_gives_up (λ _, 7) 0 2 quiet (established <| rtx_cnt := 12 |>))
    as (s' & p' & H1 & _ & H2 & H3 & _); try reflexivity; try (vm_compute; intuition discriminate).
  exists s', p'. split; [exact H1|]. split; [exact H2|exact H3].
Defined.
