(* ===== verification/Iovec.v ===== *)
(** * Scattered buffers ([src/src/net/iovec.c])

    [iov_mem] are the bytes a vector still designates, [iov_done] those before [base]
    that a call has already passed. *)
From S2P Require Import Prelude.

Record iovec_t := mk_iovec { iov_done : list Z; iov_mem : list Z }.

Definition iov_size (v : iovec_t) : Z := Z.of_nat (length (iov_mem v)).

Definition iovec_size (iov : list iovec_t) : Z := fold_left (λ n v, u32 (n + iov_size v)) iov 0.

(** [iovec_write(iov, iovlen, buf, count)], [buf] being the [count] bytes. *)
Fixpoint iovec_write (iov : list iovec_t) (buf : list Z) : list iovec_t * Z :=
  match iov with
  | [] => ([], 0)
  | v :: iov' =>
      match buf with
      | [] => (iov, 0)
      | _ =>
          if iov_size v =? 0 then let '(r, n) := iovec_write iov' buf in (v :: r, n)
          else
            let len := Nat.min (length buf) (length (iov_mem v)) in
            let v' := mk_iovec (iov_done v ++ take len buf) (drop len (iov_mem v)) in
            let '(r, n) := iovec_write iov' (drop len buf) in (v' :: r, Z.of_nat len + n)
      end
  end.

(** [iovec_read]: up to [count] bytes, in order. *)
Fixpoint iovec_read (iov : list iovec_t) (count : nat) : list iovec_t * list Z :=
  match iov with
  | [] => ([], [])
  | v :: iov' =>
      match count with
      | O => (iov, [])
      | _ =>
          if iov_size v =? 0 then let '(r, bs) := iovec_read iov' count in (v :: r, bs)
          else
            let len := Nat.min count (length (iov_mem v)) in
            let v' := mk_iovec (iov_done v ++ take len (iov_mem v)) (drop len (iov_mem v)) in
            let '(r, bs) := iovec_read iov' (count - len) in (v' :: r, take len (iov_mem v) ++ bs)
      end
  end.

(** ** Properties *)

(** What a caller finds in its buffers. *)
Definition passed (iov : list iovec_t) : list Z := concat (iov_done <$> iov).
Definition room (iov : list iovec_t) : nat := length (concat (iov_mem <$> iov)).

(** The buffers are passed from the first on. *)
Fixpoint in_order (iov : list iovec_t) : Prop :=
  match iov with
  | [] => True
  | v :: iov' => if decide (iov_mem v = []) then in_order iov' else passed iov' = []
  end.

Lemma passed_cons v iov : passed (v :: iov) = iov_done v ++ passed iov.
Proof. done. Qed.
Lemma room_cons v iov : room (v :: iov) = (length (iov_mem v) + room iov)%nat.
Proof. unfold room. cbn. apply length_app. Qed.

Lemma passed_nil_in_order iov : passed iov = [] → in_order iov.
Proof.
  induction iov as [|v iov IH]; [done|]. rewrite passed_cons. intros [H1 H2]%app_eq_nil.
  cbn. destruct (decide _); auto.
Qed.

(** A write goes on behind the bytes already passed, and transfers as many bytes as there
    are and as there is room for. *)
Lemma iovec_write_ok iov : ∀ buf, in_order iov →
  let '(iov', n) := iovec_write iov buf in
  n = Z.of_nat (Nat.min (length buf) (room iov)) ∧
  passed iov' = passed iov ++ take (room iov) buf ∧
  room iov' = (room iov - length buf)%nat ∧ in_order iov'.
Proof.
  induction iov as [|v iov IH]; intros buf Hio; cbn [iovec_write].
  { rewrite Nat.min_r by (cbn; lia). cbn. by rewrite take_0. }
  destruct buf as [|b buf0] eqn:Eb.
  { cbn [length Nat.min]. rewrite take_nil, app_nil_r, Nat.sub_0_r. done. }
  rewrite <-Eb. clear Eb b buf0. cbn [in_order] in Hio. unfold iov_size.
  destruct (Z.eqb_spec (Z.of_nat (length (iov_mem v))) 0) as [Hz|Hz].
  - assert (iov_mem v = []) as Hm by (destruct (iov_mem v); [done|cbn in Hz; lia]).
    rewrite decide_True in Hio by done. specialize (IH buf Hio). destruct (iovec_write iov buf) as [r n].
    destruct IH as (-> & Hp & Hr & Ho). rewrite !passed_cons, !room_cons, Hm, Hp, Hr. cbn [length Nat.add].
    rewrite <-app_assoc. split; [done|]. split; [done|]. split; [done|]. cbn. by rewrite decide_True.
  - assert (iov_mem v ≠ []) as Hm by (intros E; rewrite E in Hz; done).
    rewrite decide_False in Hio by done.
    set (len := Nat.min (length buf) (length (iov_mem v))).
    specialize (IH (drop len buf) (passed_nil_in_order _ Hio)).
    destruct (iovec_write iov (drop len buf)) as [r n]. destruct IH as (-> & Hp & Hr & Ho).
    rewrite !passed_cons, !room_cons, Hp, Hr, Hio. cbn [iov_done iov_mem]. rewrite !length_drop.
    split; [unfold len; lia|]. split; [|split; [unfold len; lia|]].
    + rewrite app_nil_l, app_nil_r, <-!app_assoc. f_equal.
      rewrite <-(take_drop len (take (length (iov_mem v) + room iov) buf)).
      rewrite take_take, skipn_firstn_comm. f_equal; [f_equal; unfold len; lia|].
      unfold len. destruct (decide (length buf <= length (iov_mem v))%nat).
      * rewrite Nat.min_l by lia. by rewrite drop_ge, !take_nil by lia.
      * rewrite Nat.min_r by lia. f_equal. lia.
    + cbn [in_order iov_mem]. destruct (decide _) as [Hd|Hd]; [done|].
      rewrite Hp, Hio. cbn. unfold len in *.
      assert (length buf < length (iov_mem v))%nat.
      { destruct (decide (length (iov_mem v) <= length buf)%nat); [|lia]. exfalso. apply Hd.
        apply length_zero_iff_nil. rewrite length_drop. lia. }
      by rewrite Nat.min_l, drop_ge, take_nil by lia.
Qed.

Lemma iovec_read_ok iov : ∀ count,
  let '(iov', bs) := iovec_read iov count in
  bs = take count (concat (iov_mem <$> iov)) ∧ room iov' = (room iov - count)%nat.
Proof.
  induction iov as [|v iov IH]; intros count; cbn [iovec_read].
  { cbn. by rewrite take_nil. }
  destruct count as [|c] eqn:Ec.
  { cbn. by rewrite take_0, Nat.sub_0_r. }
  rewrite <-Ec. unfold iov_size.
  destruct (Z.eqb_spec (Z.of_nat (length (iov_mem v))) 0) as [Hz|Hz].
  - assert (iov_mem v = []) as Hm by (destruct (iov_mem v); [done|cbn in Hz; lia]).
    specialize (IH count). destruct (iovec_read iov count) as [r bs]. destruct IH as [-> Hr].
    rewrite !room_cons, Hr. cbn. by rewrite Hm.
  - set (len := Nat.min count (length (iov_mem v))).
    specialize (IH (count - len)%nat). destruct (iovec_read iov (count - len)) as [r bs].
    destruct IH as [-> Hr]. rewrite !room_cons, Hr. cbn [fmap list_fmap concat iov_mem].
    rewrite length_drop. split; [|unfold len; lia].
    rewrite take_app. unfold len. f_equal; [|f_equal; lia].
    destruct (decide (count <= length (iov_mem v))%nat).
    + by rewrite Nat.min_l by lia.
    + rewrite Nat.min_r by lia. by rewrite !take_ge by lia.
Qed.

(** The size is the room when a [u32] holds it. *)
Lemma iovec_size_room iov : Z.of_nat (room iov) < 2 ^ 32 → iovec_size iov = Z.of_nat (room iov).
Proof.
  unfold iovec_size. assert (∀ n, 0 ≤ n → n + Z.of_nat (room iov) < 2 ^ 32 →
    fold_left (λ n v, u32 (n + iov_size v)) iov n = n + Z.of_nat (room iov)) as H; [|intros; by rewrite H].
  induction iov as [|v iov IH]; intros n Hn Hr; cbn [fold_left]; [cbn; lia|]. rewrite room_cons in *. unfold iov_size.
  rewrite u32_small by lia. rewrite IH by lia. lia.
Qed.
