(* ===== verification/TcpSocket.v ===== *)
(** * The TCP socket operations ([src/src/net/tcp.c])

    Each takes the control block of the socket.  An operation that blocks is split at the
    call of [task_block]: the first part returns [Blocked] with the waiter set, the second is given
    the reason [task_block] returned. *)
From S2P Require Import Prelude Dlist Bitmap Port Addr Tcp TcpWire TcpOutput TcpPcb TcpInput Iovec.

(** The kind of the interfaces a socket can see: the addresses of this machine. *)
Section sockets.
Context (route : Z → Z) (own : Z → bool).

Definition try_output (a : Z) : ST tcp_sys unit := on_pcb a (output route).

Definition tcp_socket : ST tcp_sys Z := tcp_pcb_get.

Definition tcp_close (fuel : nat) (tcp : option Z) : ST tcp_sys Z :=
  match tcp with
  | None => st_ret EOK
  | Some a =>
      let* p := pcb_at a in
      match state p with
      | CLOSED | SYN_SENT | LISTEN => do! tcp_pcb_put fuel a; st_ret EOK
      | SYN_RCVD | ESTABLISHED =>
          do! enqueue a [] TCP_FIN;
          do! mod_pcb a (λ p, p <| state := FIN_WAIT1 |>);
          do! try_output a;
          st_ret EOK
      | CLOSE_WAIT =>
          do! enqueue a [] TCP_FIN;
          do! mod_pcb a (λ p, p <| state := LAST_ACK |>);
          do! try_output a;
          st_ret EOK
      | _ => st_ret EOK
      end
  end.

Definition tcp_listen (a backlog' : Z) : ST tcp_sys Z :=
  let* p := pcb_at a in
  match state p with
  | LISTEN => st_ret EOK
  | CLOSED =>
      do! mod_pcb a (λ p, p <| state := LISTEN |> <| backcnt := 0 |> <| backlog := backlog' |>);
      do! pcb_unlink a;
      do! st_mod (λ s, s <| listen_list $= cons a |>);
      st_ret EOK
  | _ => st_ret (- EPROTO)
  end.

(** The first established client leaves the list. *)
Definition tcp_find_npcb (a : Z) : ST tcp_sys (option Z) :=
  let* p := pcb_at a in
  let* s := st_get in
  let ready n := match pcbs s !! n with Some q => bool_decide (state q = ESTABLISHED) | None => false end in
  do! st_check (forallb (λ n, bool_decide (is_Some (pcbs s !! n))) (acclist p));
  match List.find ready (acclist p) with
  | Some n => do! mod_pcb a (λ p, p <| acclist $= Abs.remove n |>); st_ret (Some n)
  | None => st_ret None
  end.

(** [tcp_accept] up to [task_block]; [task] is the running task.  The address that is
    reported is [(pcb->raddr, pcb->rport)]. *)
Definition tcp_accept (task a : Z) : ST tcp_sys (outcome (Z * option (Z * Z * Z))) :=
  let* p := pcb_at a in
  if backlog p <=? 0 then st_ret (Returned (- EINVAL, None))
  else if negb (bool_decide (state p = LISTEN)) then st_ret (Returned (- EINVAL, None))
  else
    let* n := tcp_find_npcb a in
    match n with
    | Some n => st_ret (Returned (EOK, Some (n, raddr p, rport p)))
    | None => do! mod_pcb a (λ p, p <| ac_waiter := Some task |>); st_ret Blocked
    end.

Definition tcp_accept_woken (ret a : Z) : ST tcp_sys (Z * option (Z * Z * Z)) :=
  do! mod_pcb a (λ p, p <| ac_waiter := None |>);
  if ret <? 0 then st_ret (ret, None)
  else
    let* n := tcp_find_npcb a in
    let* p := pcb_at a in
    match n with
    | Some n => st_ret (EOK, Some (n, raddr p, rport p))
    | None => st_stop Assert
    end.

Definition tcp_bind (a addr port : Z) : ST tcp_sys Z :=
  if negb (ip_addr_isany (Some addr)) && negb (own addr) then st_ret (- EADDR)
  else
    let* s := st_get in
    let* (ret, m) := st_lift (port_get (ports s) port) in
    do! st_mod (λ s, s <| ports := m |>);
    if ret <? 0 then st_ret ret
    else
      let* s := st_get in
      match tcp_find_pcb addr (u16 ret) 0 0 s with
      | Some _ => st_ret (- EOCCUPIED)
      | None => do! mod_pcb a (λ p, p <| laddr := addr |> <| lport := u16 ret |>); st_ret EOK
      end.

Definition tcp_connect (task a addr port : Z) : ST tcp_sys (outcome Z) :=
  let* p := pcb_at a in
  if negb (bool_decide (state p = CLOSED)) then st_ret (Returned (- EINVAL))
  else if ip_addr_isany (Some addr) || (port =? 0) then st_ret (Returned (- EADDR))
  else
    do! mod_pcb a (λ p, p <| raddr := addr |> <| rport := port |>);
    do! (if lport p =? 0 then
           let* s := st_get in
           let* (ret, m) := st_lift (port_get (ports s) 0) in
           do! st_mod (λ s, s <| ports := m |>);
           mod_pcb a (λ p, p <| lport := u16 ret |>)
         else st_ret tt);
    do! mod_pcb a (λ p, p <| state := SYN_SENT |>);
    do! pcb_unlink a;
    do! st_mod (λ s, s <| active_list $= cons a |>);
    do! enqueue a [] TCP_SYN;
    do! try_output a;
    do! mod_pcb a (set_timer TIMER_SYN TO_SYN);
    do! mod_pcb a (λ p, p <| ac_waiter := Some task |>);
    st_ret Blocked.

Definition tcp_connect_woken (ret a : Z) : ST tcp_sys Z :=
  do! mod_pcb a (λ p, p <| ac_waiter := None |>); st_ret ret.

(** The address and port, in network order, that a name is filled with. *)
Definition tcp_getpeername (a : Z) : ST tcp_sys (Z * Z) :=
  let* p := pcb_at a in st_ret (raddr p, Chksum.htons (rport p)).
Definition tcp_getsockname (a : Z) : ST tcp_sys (Z * Z) :=
  let* p := pcb_at a in st_ret (laddr p, Chksum.htons (lport p)).

Definition SO_KEEPALIVE : Z := 2.
Definition SO_TCP_NODELAY : Z := 8200.
Definition SO_TCP_QUICKACK : Z := 8208.

Definition tcp_setsockopt (a optname val : Z) : ST tcp_sys Z :=
  let put flag := mod_pcb a (if val =? 0 then clear_flag flag else set_flag flag) in
  if optname =? SO_KEEPALIVE then
    do! mod_pcb a (set_timer TIMER_KEEPALIVE (if val =? 0 then 0 else TO_KEEP_IDLE));
    do! put TF_KEEPALIVE; st_ret EOK
  else if optname =? SO_TCP_NODELAY then do! put TF_NODELAY; st_ret EOK
  else if optname =? SO_TCP_QUICKACK then do! put TF_QUICKACK; st_ret EOK
  else st_ret (- EINVAL).

(** ** [tcp_recvmsg] *)

(** The loop over the received segments: the vectors, the bytes lft, the segments that
    stay and the window. *)
Fixpoint recv_loop (segs : list pbuf_t) (iov : list iovec_t) (lft wnd : Z)
    : res (list iovec_t * Z * list pbuf_t * Z) :=
  match segs with
  | [] => Ok (iov, lft, [], wnd)
  | b :: segs' =>
      let b := if total b =? 0 then b else b <| length := size b |> <| total := 0 |> in
      let len := if lft <? size b then lft else size b in
      let '(iov, ret) := iovec_write iov (take (Z.to_nat len) (data b)) in
      assert! ret =? len in
      let lft := lft - ret in
      if len <? size b then
        Ok (iov, lft, (b <| data $= drop (Z.to_nat lft) |>) :: segs', wnd)
      else
        assert! count b =? 1 in
        let wnd := u16 (wnd + length b) in
        assert! wnd <=? TCP_WINDOW in
        recv_loop segs' iov lft wnd
  end.

(** After the wait, if there was one. *)
Definition recv_copy (a : Z) (iov : list iovec_t) : ST tcp_sys (Z * list iovec_t) :=
  let* p := pcb_at a in
  let sz := iovec_size iov in
  do! st_check (0 <? sz);
  let* (iov, lft, rest, wnd) := st_lift (recv_loop (recved p) iov sz (rcv_wnd p)) in
  do! mod_pcb a (λ p, p <| recved := rest |> <| rcv_wnd := wnd |>);
  st_ret (sz - lft, iov).

Definition tcp_recvmsg (task a : Z) (iov : list iovec_t)
    : ST tcp_sys (outcome (Z * list iovec_t)) :=
  let* p := pcb_at a in
  if negb (bool_decide (state p = ESTABLISHED)) then st_ret (Returned (- EINVAL, iov))
  else
    match recved p with
    | [] => do! mod_pcb a (λ p, p <| rx_waiter := Some task |>); st_ret Blocked
    | _ => let* r := recv_copy a iov in st_ret (Returned r)
    end.

Definition tcp_recvmsg_woken (ret a : Z) (iov : list iovec_t) : ST tcp_sys (Z * list iovec_t) :=
  do! mod_pcb a (λ p, p <| rx_waiter := None |>);
  if ret <? EOK then st_ret (ret, iov) else recv_copy a iov.

(** ** [tcp_sendmsg] *)
Fixpoint send_loop (a : Z) (fl : Z) (iov : list iovec_t) (lft : Z) : ST tcp_sys Z :=
  match iov with
  | [] => st_ret lft
  | v :: iov' =>
      if lft <=? 0 then st_ret lft
      else if iov_size v =? 0 then send_loop a fl iov' lft
      else
        let len := if lft <? iov_size v then lft else iov_size v in
        do! enqueue a (take (Z.to_nat len) (iov_mem v)) fl;
        send_loop a fl iov' (lft - len)
  end.

Definition tcp_sendmsg (task a : Z) (iov : list iovec_t) (fl : Z) : ST tcp_sys (outcome Z) :=
  let* p := pcb_at a in
  if negb (bool_decide (state p = ESTABLISHED)) then st_ret (Returned (- EINVAL))
  else
    let sz := iovec_size iov in
    if snd_wnd p <? sz then st_ret (Returned (- EMSGSIZE))
    else
      let* lft := send_loop a fl iov sz in
      do! try_output a;
      let* p := pcb_at a in
      match unacked p, unsent p with
      | [], [] => st_ret (Returned (sz - lft))
      | _, _ => do! mod_pcb a (λ p, p <| tx_waiter := Some task |>); st_ret Blocked
      end.

Definition tcp_sendmsg_woken (ret a sent : Z) : ST tcp_sys Z :=
  do! mod_pcb a (λ p, p <| tx_waiter := None |>);
  st_ret (if ret <? 0 then ret else sent).
End sockets.

(** ** What a reader gets *)

(** A queued segment with its share of the window. *)
Record queued_seg (b : pbuf_t) : Prop := {
  qs_count : count b = 1; qs_size : 0 < size b;
  qs_length : total b = 0 → size b = length b }.

Definition sizes (bs : list pbuf_t) : Z := Z.of_nat (List.length (stream bs)).

Lemma sizes_cons b bs : sizes (b :: bs) = size b + sizes bs.
Proof. unfold sizes, stream, size. cbn. rewrite length_app. lia. Qed.

Lemma recv_loop_ok segs : ∀ iov lft wnd, Forall queued_seg segs → in_order iov →
  lft = Z.of_nat (room iov) → 0 ≤ wnd → wnd + sizes segs ≤ TCP_WINDOW →
  ∃ iov' k rest, recv_loop segs iov lft wnd =
    Ok (iov', lft - Z.min lft (sizes segs), rest, wnd + sizes (take k segs)) ∧
  passed iov' = passed iov ++ take (Z.to_nat lft) (stream segs) ∧
  stream rest = stream (drop k segs) ∧ (k <= List.length segs)%nat ∧
  sizes (take k segs) ≤ lft ∧ (∀ b post, drop k segs = b :: post → lft < sizes (take k segs) + size b).
Proof.
  induction segs as [|b segs IH]; intros iov lft wnd Hq Hio Hl Hw Hsum; cbn [recv_loop].
  - exists iov, 0%nat, []. unfold sizes; cbn. rewrite Z.min_r, Z.sub_0_r, Z.add_0_r, take_nil, app_nil_r by lia.
    split; [done|]. split; [done|]. split; [done|]. split; [lia|]. split; [lia|done].
  - apply Forall_cons in Hq as [[Hcnt Hsz Hlen] Hq]. rewrite sizes_cons in *.
    set (b1 := if total b =? 0 then b else _).
    assert (data b1 = data b ∧ size b1 = size b ∧ count b1 = 1 ∧ length b1 = size b) as (D1 & D2 & D3 & D4).
    { unfold b1. destruct (Z.eqb_spec (total b) 0) as [E|E]; [|done].
      do 3 (split; [done|]). by rewrite Hlen. }
    clearbody b1. rewrite D1, D2.
    assert (stream (b :: segs) = data b ++ stream segs) as Hst by done.
    assert (0 ≤ sizes segs) as Hnn by (unfold sizes; lia).
    set (len := if lft <? size b then lft else size b).
    pose proof (iovec_write_ok iov (take (Z.to_nat len) (data b)) Hio) as Hwr.
    destruct (iovec_write iov _) as [iov1 n]. destruct Hwr as (Hn & Hp & Hr & Ho).
    assert (Z.of_nat (List.length (take (Z.to_nat len) (data b))) = len ∧ 0 ≤ len ≤ lft ∧ len ≤ size b) as (Hlt & Hll & Hls).
    { rewrite length_take. unfold len, size in *. destruct (Z.ltb_spec lft (Z.of_nat (List.length (data b)))); lia. }
    assert (n = len) as -> by lia. rewrite Z.eqb_refl. cbn [check res_bind].
    assert (take (room iov) (take (Z.to_nat len) (data b)) = take (Z.to_nat len) (data b)) as Htk
      by (rewrite take_take; f_equal; lia).
    rewrite Htk in Hp. destruct (Z.ltb_spec len (size b)) as [Hpart|Hfull].
    + assert (len = lft) as -> by (unfold len in *; destruct (Z.ltb_spec lft (size b)); lia).
      rewrite Z.sub_diag. change (Z.to_nat 0) with 0%nat.
      eexists iov1, 0%nat, _. split; [|split; [|split; [|split; [|split]]]].
      * cbn [take]. change (sizes []) with 0. rewrite Z.min_l, Z.sub_diag, Z.add_0_r by lia. done.
      * rewrite Hp, Hst. f_equal. rewrite take_app_le; [done|unfold size in *; lia].
      * change (drop 0 (data b1) ++ stream segs = data b ++ stream segs). by rewrite drop_0, D1.
      * lia.
      * change (sizes (take 0 (b :: segs))) with 0. lia.
      * cbn [drop take]. change (sizes []) with 0. intros ? ? [= <- <-]. lia.
    + assert (len = size b) as -> by lia. rewrite D3. cbn [Z.eqb Pos.eqb check res_bind]. rewrite D4.
      unfold TCP_WINDOW in *. rewrite u16_small, (proj2 (Z.leb_le _ _)) by lia. cbn [check res_bind].
      destruct (IH iov1 (lft - size b) (wnd + size b) Hq Ho) as (iov' & k & rest & E & Hp' & Hst' & Hk & Hle & Hmax);
        [lia|lia|lia|].
      exists iov', (S k), rest. rewrite E. cbn [take drop]. rewrite sizes_cons.
      replace (lft - size b - Z.min (lft - size b) (sizes segs))
        with (lft - Z.min lft (size b + sizes segs)) by lia.
      rewrite <-Z.add_assoc. split; [done|]. split; [|split; [done|split; [cbn; lia|split; [lia|]]]].
      * rewrite Hp', Hp, Hst, <-app_assoc. f_equal. rewrite take_app.
        unfold size in *. rewrite (take_ge (data b) (Z.to_nat lft)), (take_ge (data b)) by lia.
        do 2 f_equal. lia.
      * intros c post Hc. specialize (Hmax c post Hc). lia.
Qed.

Section reader.

(** A read of an established connection with data neither blocks nor fails, and copies the
    first bytes of the received stream, as many as there are or as the buffers hold, into the
    buffers from the first on.  It removes the segments it has read completely and gives
    their bytes back to the window; the segment it has read in part stays whole, so that the next
    read begins with bytes that were already returned. *)
Theorem recvmsg_prefix (task a : Z) (iov : list iovec_t) (s : tcp_sys) (p : tcp_pcb_t)
    (Hp : pcbs s !! a = Some p) (Hst : state p = ESTABLISHED) (Hne : recved p ≠ [])
    (Hq : Forall queued_seg (recved p)) (Hio : in_order iov)
    (Hroom : iovec_size iov = Z.of_nat (room iov)) (Hpos : (0 < room iov)%nat)
    (Hw : 0 ≤ rcv_wnd p) (Hsum : rcv_wnd p + sizes (recved p) ≤ TCP_WINDOW) :
  ∃ s' iov' p' k, let n := Z.min (Z.of_nat (room iov)) (sizes (recved p)) in
  tcp_recvmsg task a iov s = Ok (Returned (n, iov'), s') ∧
  passed iov' = passed iov ++ take (Z.to_nat n) (stream (recved p)) ∧
  pcbs s' = <[a := p']> (pcbs s) ∧
  stream (recved p') = stream (drop k (recved p)) ∧
  rcv_wnd p' = rcv_wnd p + sizes (take k (recved p)) ∧
  sizes (take k (recved p)) ≤ n ∧
  (∀ b post, drop k (recved p) = b :: post → n < sizes (take k (recved p)) + size b).
Proof.
  cbn zeta. unfold tcp_recvmsg. rewrite (st_bind_ok _ _ _ _ _ (pcb_at_run _ _ _ Hp)), Hst.
  rewrite bool_decide_true by done. cbn [negb].
  assert (∀ A (x y : A), (match recved p with [] => x | _ => y end) = y) as -> by (intros; by destruct (recved p)).
  destruct (recv_loop_ok (recved p) iov (Z.of_nat (room iov)) (rcv_wnd p)) as
    (iov' & k & rest & E & Hpass & Hrest & Hk & Hle & Hmax); [done..|].
  set (n := Z.min (Z.of_nat (room iov)) (sizes (recved p))) in *.
  assert (recv_copy a iov s = Ok ((n, iov'),
    s <| pcbs $= <[a := p <| recved := rest |> <| rcv_wnd := rcv_wnd p + sizes (take k (recved p)) |>]> |>)) as Ec.
  { unfold recv_copy. rewrite (st_bind_ok _ _ _ _ _ (pcb_at_run _ _ _ Hp)). cbn zeta. rewrite Hroom.
    rewrite (st_bind_ok _ _ s tt s) by (unfold st_check; by rewrite (proj2 (Z.ltb_lt 0 _)) by lia).
    rewrite (st_bind_ok _ _ s _ s) by (unfold st_lift; rewrite E; reflexivity). cbn beta iota.
    rewrite (st_bind_ok _ _ _ _ _ (mod_pcb_run _ _ _ _ Hp)). unfold st_ret. do 3 f_equal. lia. }
  rewrite (st_bind_ok _ _ _ _ _ Ec). eexists _, iov', _, k. split; [reflexivity|].
  assert (sizes (take k (recved p)) ≤ sizes (recved p)) as Hsz.
  { rewrite <-(take_drop k (recved p)) at 2. unfold sizes. rewrite stream_app, length_app. lia. }
  split; [|split; [reflexivity|split; [exact Hrest|split; [reflexivity|split; [lia|]]]]].
  - rewrite Hpass. f_equal. unfold n, sizes.
    destruct (decide (room iov <= List.length (stream (recved p)))%nat).
    + f_equal. lia.
    + rewrite !take_ge by lia. done.
  - intros b post Hb. specialize (Hmax b post Hb). lia.
Qed.
End reader.

(** Four bytes received, read two at a time: both reads return the first two. *)
Definition readable : tcp_pcb_t :=
  established <| recved := [mk_pbuf 1 5000 [1; 2; 3; 4] TCP_ACK false 1 24 0] |> <| rcv_wnd := 8188 |>.
Definition reading : tcp_sys :=
  mk_tcp_sys (<[2 := readable]> ∅) [] [2] [] [] Port.no_ports [] [] 0 0.
Definition two_bytes : list iovec_t := [mk_iovec [] [0; 0]].

Example partial_read_repeats : ∃ s1 s2,
  tcp_recvmsg 1 2 two_bytes reading = Ok (Returned (2, [mk_iovec [1; 2] []]), s1) ∧
  tcp_recvmsg 1 2 two_bytes s1 = Ok (Returned (2, [mk_iovec [1; 2] []]), s2).
Proof. eexists _, _. split; vm_compute; reflexivity. Qed.

Lemma recvmsg_prefix_witness : ∃ s' iov',
  tcp_recvmsg 1 2 two_bytes reading = Ok (Returned (2, iov'), s') ∧ passed iov' = [1; 2].
Proof.
  destruct (recvmsg_prefix 1 2 two_bytes reading readable) as (s' & iov' & p' & k & H1 & H2 & _);
    try reflexivity; try (vm_compute; intuition discriminate).
  - constructor; [|constructor]. split; [reflexivity|reflexivity|discriminate].
  - cbn. lia.
  - exists s', iov'. split; [exact H1|exact H2].
Defined.
