(* ===== verification/Net.v ===== *)
(** * Packet buffers, frames and interfaces ([src/src/net/pbuf.c], [netif.c],
    [loopif.c] and the headers of [src/src/include/onix/net/])

    The state of the network stack below TCP, and its two lowest layers.  A frame is
    the bytes of a buffer; fields are read and written in place, as the code does.
    A buffer, an interface, an ARP entry and a control block are known by their
    addresses.  The locks of an interface are left out: no operation blocks while
    it holds one.  [nic_output] of a driver is a parameter. *)
From S2P Require Import Prelude Bytes Dlist.
From S2P Require Addr Chksum Bitmap Port Vsprintf.
Open Scope Z_scope.

(** ** Constants *)
Definition NETIF_LOOPBACK : Z := 0x00000001.
Definition NETIF_IP_TX_CHECKSUM_OFFLOAD : Z := 0x00010000.
Definition NETIF_IP_RX_CHECKSUM_OFFLOAD : Z := 0x00020000.
Definition NETIF_UDP_RX_CHECKSUM_OFFLOAD : Z := 0x00040000.
Definition NETIF_UDP_TX_CHECKSUM_OFFLOAD : Z := 0x00080000.
Definition NETIF_TCP_RX_CHECKSUM_OFFLOAD : Z := 0x00100000.
Definition NETIF_TCP_TX_CHECKSUM_OFFLOAD : Z := 0x00200000.
Definition NETIF_RX_PBUF_SIZE : Z := 8.

Definition ETH_MTU : Z := 1518.
Definition IP_MTU : Z := 1500.
Definition ETH_TYPE_IP : Z := 0x0800.
Definition ETH_TYPE_ARP : Z := 0x0806.
Definition ETH_TYPE_IPV6 : Z := 0x86DD.
Definition ETH_BROADCAST : list Z := replicate 6 0xff.
Definition ETH_ANY : list Z := replicate 6 0.

(** Where the fields are in a frame: [eth_t], and after it [arp_t] or [ip_t], and
    after that [icmp_t] or [udp_t]. *)
Definition e_dst : Z := 0.
Definition e_src : Z := 6.
Definition e_type : Z := 12.
Definition sizeof_eth : Z := 14.

Definition a_hwtype : Z := sizeof_eth + 0.
Definition a_proto : Z := sizeof_eth + 2.
Definition a_hwlen : Z := sizeof_eth + 4.
Definition a_protolen : Z := sizeof_eth + 5.
Definition a_opcode : Z := sizeof_eth + 6.
Definition a_hwsrc : Z := sizeof_eth + 8.
Definition a_ipsrc : Z := sizeof_eth + 14.
Definition a_hwdst : Z := sizeof_eth + 18.
Definition a_ipdst : Z := sizeof_eth + 24.
Definition sizeof_arp : Z := 28.

(** The first byte of [ip_t] holds the length of the header and the version, the
    byte at [i_frag] five bits of the offset and the flags. *)
Definition i_header : Z := sizeof_eth + 0.
Definition i_tos : Z := sizeof_eth + 1.
Definition i_length : Z := sizeof_eth + 2.
Definition i_id : Z := sizeof_eth + 4.
Definition i_frag : Z := sizeof_eth + 6.
Definition i_offset1 : Z := sizeof_eth + 7.
Definition i_ttl : Z := sizeof_eth + 8.
Definition i_proto : Z := sizeof_eth + 9.
Definition i_chksum : Z := sizeof_eth + 10.
Definition i_src : Z := sizeof_eth + 12.
Definition i_dst : Z := sizeof_eth + 16.
Definition sizeof_ip : Z := 20.

Definition c_type : Z := sizeof_eth + sizeof_ip + 0.
Definition c_code : Z := sizeof_eth + sizeof_ip + 1.
Definition c_chksum : Z := sizeof_eth + sizeof_ip + 2.
Definition c_id : Z := sizeof_eth + sizeof_ip + 4.
Definition c_seq : Z := sizeof_eth + sizeof_ip + 6.
Definition sizeof_icmp_echo : Z := 8.

Definition u_sport : Z := sizeof_eth + sizeof_ip + 0.
Definition u_dport : Z := sizeof_eth + sizeof_ip + 2.
Definition u_length : Z := sizeof_eth + sizeof_ip + 4.
Definition u_chksum : Z := sizeof_eth + sizeof_ip + 6.
Definition sizeof_udp : Z := 8.

(** ** Data *)

(** [pmem]: the bytes from [payload] to the end of the half page. *)
Record pbuf_t := mk_pbuf { plen : Z; pcount : Z; pmem : list Z }.
#[export] Instance expand_pbuf : Expand pbuf_t := λ p, mk_pbuf (plen p) (pcount p) (pmem p).

(** The functions stored in [nic_output]: [send_packet] of loopif.c or a driver's. *)
Inductive nic := LOOPIF | DRIVER.
#[export] Instance nic_eq_dec : EqDecision nic.
Proof. solve_decision. Defined.

Record netif_t := mk_netif {
  name : list Z; rx_pbuf_list : list Z; rx_pbuf_size : Z; tx_pbuf_list : list Z; tx_pbuf_size : Z;
  hwaddr : list Z; ipaddr : Z; netmask : Z; gateway : Z; broadcast : Z; nic_output : nic; index : Z; flags : Z }.
#[export] Instance expand_netif : Expand netif_t := λ n,
  mk_netif (name n) (rx_pbuf_list n) (rx_pbuf_size n) (tx_pbuf_list n) (tx_pbuf_size n) (hwaddr n) (ipaddr n)
    (netmask n) (gateway n) (broadcast n) (nic_output n) (index n) (flags n).

Record arp_entry_t := mk_arp_entry {
  ahwaddr : list Z; aipaddr : Z; expires : Z; used : Z; query : Z; retry : Z; pbuf_list : list Z; anetif : Z }.
#[export] Instance expand_arp_entry : Expand arp_entry_t := λ e,
  mk_arp_entry (ahwaddr e) (aipaddr e) (expires e) (used e) (query e) (retry e) (pbuf_list e) (anetif e).

(** Control blocks; a MAC address is its bytes, an IP address the [u32] in memory. *)
Record raw_pcb_t := mk_raw { raw_laddr : Z; raw_raddr : Z; raw_protocol : Z; raw_rx : list Z; raw_waiter : option Z }.
#[export] Instance expand_raw : Expand raw_pcb_t := λ p,
  mk_raw (raw_laddr p) (raw_raddr p) (raw_protocol p) (raw_rx p) (raw_waiter p).
Record pkt_pcb_t := mk_pkt {
  pkt_laddr : list Z; pkt_raddr : list Z; pkt_netif : option Z; pkt_protocol : Z; pkt_rx : list Z; pkt_waiter : option Z }.
#[export] Instance expand_pkt : Expand pkt_pcb_t := λ p,
  mk_pkt (pkt_laddr p) (pkt_raddr p) (pkt_netif p) (pkt_protocol p) (pkt_rx p) (pkt_waiter p).
Record udp_pcb_t := mk_udp {
  laddr : Z; raddr : Z; lport : Z; rport : Z; uflags : Z; udp_rx : list Z; udp_waiter : option Z }.
#[export] Instance expand_udp : Expand udp_pcb_t := λ p,
  mk_udp (laddr p) (raddr p) (lport p) (rport p) (uflags p) (udp_rx p) (udp_waiter p).

(** The state.  A list of [list.h] is the addresses of its elements from the head
    on.  [wakes] are the calls of [task_unblock] on tasks that wait in a socket;
    [kpages] and [blocks] count the pages and blocks that were allocated. *)
Record net := mk_net {
  pbufs : gmap Z pbuf_t; free_pbuf_list : list Z; pbuf_count : Z; free_count : Z;
  netif_list : list Z; netifs : gmap Z netif_t; neti_waiting : bool; neto_waiting : bool;
  arp_entry_list : list Z; arps : gmap Z arp_entry_t;
  raw_pcb_list : list Z; raws : gmap Z raw_pcb_t; pkt_pcb_list : list Z; pkts : gmap Z pkt_pcb_t;
  udp_pcb_list : list Z; udps : gmap Z udp_pcb_t; udp_map : Bitmap.bitmap_t;
  now : Z; wakes : list (Z * Z); kpages : nat; blocks : nat }.
#[export] Instance expand_net : Expand net := λ s,
  mk_net (pbufs s) (free_pbuf_list s) (pbuf_count s) (free_count s) (netif_list s) (netifs s) (neti_waiting s)
    (neto_waiting s) (arp_entry_list s) (arps s) (raw_pcb_list s) (raws s) (pkt_pcb_list s) (pkts s)
    (udp_pcb_list s) (udps s) (udp_map s) (now s) (wakes s) (kpages s) (blocks s).

(** ** Lists and tables *)
Definition list_push (n : Z) (xs : list Z) : res (list Z) := if Abs.mem n xs then Stop Assert else Ok (n :: xs).
Definition list_popback (xs : list Z) : res (Z * list Z) :=
  match last xs with Some x => Ok (x, removelast xs) | None => Stop Assert end.
Definition list_remove (n : Z) (xs : list Z) : res (list Z) :=
  if Abs.mem n xs then Ok (Abs.remove n xs) else Stop Assert.

Definition the_pbuf (a : Z) : ST net pbuf_t := st_deref (λ s, pbufs s !! a).
Definition mod_pbuf (a : Z) (f : pbuf_t → pbuf_t) : ST net unit := st_mod (λ s, s <| pbufs $= alter f a |>).
Definition the_netif (a : Z) : ST net netif_t := st_deref (λ s, netifs s !! a).
Definition mod_netif (a : Z) (f : netif_t → netif_t) : ST net unit := st_mod (λ s, s <| netifs $= alter f a |>).
Definition the_arp (a : Z) : ST net arp_entry_t := st_deref (λ s, arps s !! a).
Definition mod_arp (a : Z) (f : arp_entry_t → arp_entry_t) : ST net unit := st_mod (λ s, s <| arps $= alter f a |>).
Definition the_raw (a : Z) : ST net raw_pcb_t := st_deref (λ s, raws s !! a).
Definition mod_raw (a : Z) (f : raw_pcb_t → raw_pcb_t) : ST net unit := st_mod (λ s, s <| raws $= alter f a |>).
Definition the_pkt (a : Z) : ST net pkt_pcb_t := st_deref (λ s, pkts s !! a).
Definition mod_pkt (a : Z) (f : pkt_pcb_t → pkt_pcb_t) : ST net unit := st_mod (λ s, s <| pkts $= alter f a |>).
Definition the_udp (a : Z) : ST net udp_pcb_t := st_deref (λ s, udps s !! a).
Definition mod_udp (a : Z) (f : udp_pcb_t → udp_pcb_t) : ST net unit := st_mod (λ s, s <| udps $= alter f a |>).

(** ** Fields of a frame *)
Definition get_bytes (a off n : Z) : ST net (list Z) :=
  let* p := the_pbuf a in
  if (0 <=? off) && (0 <=? n) && (off + n <=? Z.of_nat (length (pmem p)))
  then st_ret (slice (Z.to_nat off) (Z.to_nat n) (pmem p)) else st_stop Fault.
Definition put_bytes (a off : Z) (l : list Z) : ST net unit :=
  let* p := the_pbuf a in
  if (0 <=? off) && (off + Z.of_nat (length l) <=? Z.of_nat (length (pmem p)))
  then mod_pbuf a (λ p, p <| pmem $= list_inserts (Z.to_nat off) l |>) else st_stop Fault.
(** A field of [n] bytes. *)
Definition get (n : nat) (a off : Z) : ST net Z := let* l := get_bytes a off (Z.of_nat n) in st_ret (le l).
Definition put (n : nat) (a off v : Z) : ST net unit := put_bytes a off (le_bytes n v).

(** ** [pbuf.c]

    [kpage n]: the address and the bytes of the page that the call number [n] of
    [alloc_kpage(1)] returns; the bytes are what its last user left. *)
Section net.
Context (kpage : nat → Z * list Z).

Definition page_pbuf (bytes : list Z) (off : nat) : pbuf_t :=
  mk_pbuf (le (slice (off + 8) 4 bytes)) (le (slice (off + 12) 4 bytes)) (slice (off + 40) 2008 bytes).

Definition add_pbuf (a : Z) (p : pbuf_t) : ST net unit :=
  let* l := st_gets free_pbuf_list in
  let* l := st_lift (list_push a l) in
  st_mod (λ s, s <| pbufs $= <[a := p]> |> <| free_pbuf_list := l |>).

Definition pbuf_get : ST net Z :=
  let* l := st_gets free_pbuf_list in
  do! (match l with
       | [] =>
           let* n := st_gets kpages in
           let '(page, bytes) := kpage n in
           do! st_mod (λ s, s <| kpages $= S |>);
           do! add_pbuf page (page_pbuf bytes 0);
           do! add_pbuf (page + 2048) (page_pbuf bytes 2048);
           st_mod (λ s, s <| pbuf_count $= λ n, u32 (n + 2) |> <| free_count $= λ n, u32 (n + 2) |>)
       | _ => st_ret tt
       end);
  let* l := st_gets free_pbuf_list in
  let* (a, l) := st_lift (list_popback l) in
  do! st_mod (λ s, s <| free_pbuf_list := l |>);
  do! st_check (Z.land a 0x7ff =? 0);
  do! mod_pbuf a (λ p, p <| pcount := 1 |>);
  do! st_mod (λ s, s <| free_count $= λ n, u32 (n - 1) |>);
  st_ret a.

Definition pbuf_put (a : Z) : ST net unit :=
  do! st_check (Z.land a 0x7ff =? 0);
  let* p := the_pbuf a in
  do! st_check ((0 <? pcount p) && (pcount p <=? 2));
  do! mod_pbuf a (λ p, p <| pcount $= λ c, u32 (c - 1) |>);
  let* p := the_pbuf a in
  if 0 <? pcount p then st_ret tt
  else
    let* l := st_gets free_pbuf_list in
    let* l := st_lift (list_push a l) in
    st_mod (λ s, s <| free_pbuf_list := l |> <| free_count $= λ n, u32 (n + 1) |>).

Definition pbuf_init : ST net unit := st_mod (λ s, s <| free_pbuf_list := [] |>).

Definition count_up (a : Z) : ST net unit := mod_pbuf a (λ p, p <| pcount $= λ c, u32 (c + 1) |>).

(** ** [netif.c] *)

(** The first interface of the list that satisfies [p]. *)
Fixpoint find_netif (p : netif_t → bool) (l : list Z) (m : gmap Z netif_t) : res (option Z) :=
  match l with
  | [] => Ok None
  | a :: l' => let! n := deref (m !! a) in if p n then Ok (Some a) else find_netif p l' m
  end.

Definition search_netif (p : netif_t → bool) : ST net (option Z) :=
  let* s := st_get in st_lift (find_netif p (netif_list s) (netifs s)).

Definition netif_found (nm : list Z) : ST net (option Z) := search_netif (λ n, bool_decide (name n = nm)).
Definition netif_get (i : Z) : ST net (option Z) := search_netif (λ n, index n =? i).

Definition netif_route (addr : Z) : ST net (option Z) :=
  let* r := search_netif (λ n, Addr.ip_addr_maskcmp addr (ipaddr n) (netmask n) && negb (Addr.ip_addr_isany (Some (ipaddr n)))) in
  match r with Some a => st_ret (Some a) | None => netif_get 1 end.

Definition ip_addr_isown (addr : Z) : ST net bool :=
  let* r := search_netif (λ n, Addr.ip_addr_cmp (ipaddr n) addr) in
  st_ret (match r with Some _ => true | None => false end).

(** [netif] is the block that [kmalloc] returns. *)
Definition netif_create (netif : Z) : ST net Z :=
  let* l := st_gets netif_list in
  let index := Z.of_nat (length l) in
  let* (_, nm, _) := st_lift (Vsprintf.sprintf [101; 116; 104; 37; 100] [Vsprintf.Word index]) in
  let* l := st_lift (list_push netif l) in
  do! st_mod (λ s, s <| netif_list := l |>
        <| netifs $= <[netif := mk_netif nm [] 0 [] 0 ETH_ANY 0 0 0 0 DRIVER index 0]> |>);
  st_ret netif.

Definition netif_setup (netif : Z) (hw : list Z) : ST net Z :=
  let* n := netif_create netif in
  do! mod_netif n (λ n, n <| hwaddr := hw |>);
  st_ret n.

Definition netif_remove (netif : Z) : ST net unit :=
  let* l := st_gets netif_list in
  let* l := st_lift (list_remove netif l) in
  st_mod (λ s, s <| netif_list := l |> <| netifs $= delete netif |>).

(** [while (rx_pbuf_size >= NETIF_RX_PBUF_SIZE)]: the oldest buffers are dropped. *)
Fixpoint drop_oldest (fuel : nat) (netif : Z) : ST net unit :=
  let* n := the_netif netif in
  if negb (NETIF_RX_PBUF_SIZE <=? rx_pbuf_size n) then st_ret tt
  else
    match fuel with
    | O => st_stop Fuel
    | S fuel' =>
        let* (b, l) := st_lift (list_popback (rx_pbuf_list n)) in
        do! mod_netif netif (λ n, n <| rx_pbuf_list := l |> <| rx_pbuf_size $= λ k, k - 1 |>);
        do! pbuf_put b;
        drop_oldest fuel' netif
    end.

Definition netif_input (netif pbuf : Z) : ST net unit :=
  let* n := the_netif netif in
  do! drop_oldest (Z.to_nat (rx_pbuf_size n)) netif;
  let* n := the_netif netif in
  let* l := st_lift (list_push pbuf (rx_pbuf_list n)) in
  do! mod_netif netif (λ n, n <| rx_pbuf_list := l |> <| rx_pbuf_size $= λ k, k + 1 |>);
  let* n := the_netif netif in
  do! st_check (rx_pbuf_size n <=? NETIF_RX_PBUF_SIZE);
  st_mod (λ s, s <| neti_waiting := false |>).

Definition netif_output (netif pbuf : Z) : ST net unit :=
  let* n := the_netif netif in
  let* l := st_lift (list_push pbuf (tx_pbuf_list n)) in
  do! mod_netif netif (λ n, n <| tx_pbuf_list := l |> <| tx_pbuf_size $= λ k, k + 1 |>);
  st_mod (λ s, s <| neto_waiting := false |>).

(** [netif_ioctl]: [access] is the answer of [memory_access] for the request,
    [req] the six bytes of its union; the result has the bytes it holds after.
    [dhcp_start] and [dhcp_stop] of dhcp.c are parameters. *)
Definition SIOCGIFNAME : Z := 0.
Definition SIOCGIFINDEX : Z := 1.
Definition SIOCGIFADDR : Z := 2.
Definition SIOCSIFADDR : Z := 3.
Definition SIOCDIFADDR : Z := 4.
Definition SIOCGIFBRDADDR : Z := 5.
Definition SIOCSIFBRDADDR : Z := 6.
Definition SIOCGIFNETMASK : Z := 7.
Definition SIOCSIFNETMASK : Z := 8.
Definition SIOCGIFGATEWAY : Z := 9.
Definition SIOCSIFGATEWAY : Z := 10.
Definition SIOCGIFHWADDR : Z := 11.
Definition SIOCSIFHWADDR : Z := 12.
Definition SIOCSIFDHCPSTART : Z := 13.
Definition SIOCSIFDHCPSTOP : Z := 14.

Definition netif_ioctl (dhcp_start dhcp_stop : Z → ST net unit) (access : bool) (netif cmd : Z) (req : list Z)
    : ST net (Z * list Z) :=
  if negb access then st_ret (- EINVAL, req)
  else
    let* n := the_netif netif in
    let put_ip a := st_ret (EOK, le_bytes 4 a ++ drop 4 req) in
    let addr := le (take 4 req) in
    let set f := do! mod_netif netif f; st_ret (EOK, req) in
    if cmd =? SIOCGIFADDR then put_ip (ipaddr n)
    else if cmd =? SIOCGIFNETMASK then put_ip (netmask n)
    else if cmd =? SIOCGIFGATEWAY then put_ip (gateway n)
    else if cmd =? SIOCGIFBRDADDR then put_ip (broadcast n)
    else if cmd =? SIOCGIFHWADDR then st_ret (EOK, hwaddr n)
    else if negb (Z.land (flags n) NETIF_LOOPBACK =? 0) then st_ret (- EINVAL, req)
    else if cmd =? SIOCSIFADDR then set (λ n, n <| ipaddr := addr |>)
    else if cmd =? SIOCDIFADDR then set (λ n, n <| ipaddr := 0 |>)
    else if cmd =? SIOCSIFNETMASK then set (λ n, n <| netmask := addr |>)
    else if cmd =? SIOCSIFGATEWAY then set (λ n, n <| gateway := addr |>)
    else if cmd =? SIOCSIFBRDADDR then set (λ n, n <| broadcast := addr |>)
    else if cmd =? SIOCSIFHWADDR then set (λ n, n <| hwaddr := take 6 req |>)
    else if cmd =? SIOCSIFDHCPSTART then do! dhcp_start netif; st_ret (EOK, req)
    else if cmd =? SIOCSIFDHCPSTOP then do! dhcp_stop netif; st_ret (EOK, req)
    else st_ret (- EINVAL, req).

(** ** [loopif.c] *)
Definition send_packet (netif pbuf : Z) : ST net unit :=
  let* addr := get 4 pbuf i_dst in
  let* src := get 4 pbuf i_src in
  do! put 4 pbuf i_dst src;
  do! put 4 pbuf i_src addr;
  netif_input netif pbuf.

(** The addresses 127.0.0.1 and 255.0.0.0. *)
Definition loopif_init (netif : Z) : ST net Z :=
  let* n := netif_create netif in
  do! mod_netif n (λ n, n <| nic_output := LOOPIF |> <| name := [108; 111; 111; 112; 98; 97; 99; 107] |>
        <| ipaddr := le [127; 0; 0; 1] |> <| netmask := le [255; 0; 0; 0] |>
        <| flags := Z.lor NETIF_LOOPBACK (Z.lor NETIF_IP_RX_CHECKSUM_OFFLOAD (Z.lor NETIF_IP_TX_CHECKSUM_OFFLOAD
              (Z.lor NETIF_UDP_RX_CHECKSUM_OFFLOAD (Z.lor NETIF_UDP_TX_CHECKSUM_OFFLOAD
              (Z.lor NETIF_TCP_RX_CHECKSUM_OFFLOAD NETIF_TCP_TX_CHECKSUM_OFFLOAD))))) |>);
  st_ret n.
End net.
