(* ===== verification/Frame.v ===== *)
(** * Reasoning about frames

    The fields of a frame after a sequence of stores, and the rules for the
    operations of Net on the buffer that is being worked on. *)
From S2P Require Import Prelude Bytes Dlist Net.
From S2P Require Addr Chksum.
Open Scope Z_scope.

(** The bytes of a buffer. *)
Definition MEM : Z := 2008.

Definition bytes_at (off n : Z) (m : list Z) : list Z := slice (Z.to_nat off) (Z.to_nat n) m.
Definition fld (n : nat) (off : Z) (m : list Z) : Z := le (bytes_at off (Z.of_nat n) m).
Definition upd (off : Z) (l m : list Z) : list Z := list_inserts (Z.to_nat off) l m.

Lemma length_upd off l m : length (upd off l m) = length m.
Proof. apply length_inserts. Qed.
Lemma length_bytes_at off n m : 0 ≤ off → 0 ≤ n → off + n ≤ Z.of_nat (length m) → Z.of_nat (length (bytes_at off n m)) = n.
Proof. intros. unfold bytes_at. rewrite length_slice by lia. lia. Qed.

Lemma bytes_upd_same off l m n : 0 ≤ off → off + Z.of_nat (length l) ≤ Z.of_nat (length m) → n = Z.of_nat (length l) →
  bytes_at off n (upd off l m) = l.
Proof. intros H0 Hl ->. unfold bytes_at, upd. rewrite Nat2Z.id. apply slice_inserts. lia. Qed.
Lemma bytes_upd_other off n off' l m : 0 ≤ off → 0 ≤ off' → 0 ≤ n → off + n ≤ off' ∨ off' + Z.of_nat (length l) ≤ off →
  bytes_at off n (upd off' l m) = bytes_at off n m.
Proof. intros. unfold bytes_at, upd. apply slice_inserts_apart. lia. Qed.
Lemma fld_upd_same n off v m : 0 ≤ off → off + Z.of_nat n ≤ Z.of_nat (length m) →
  fld n off (upd off (le_bytes n v) m) = v `mod` 256 ^ Z.of_nat n.
Proof. intros H0 Hl. unfold fld. rewrite bytes_upd_same; [apply le_le_bytes|done|by rewrite length_le_bytes|by rewrite length_le_bytes]. Qed.
Lemma fld_upd_other n off off' l m : 0 ≤ off → 0 ≤ off' → off + Z.of_nat n ≤ off' ∨ off' + Z.of_nat (length l) ≤ off →
  fld n off (upd off' l m) = fld n off m.
Proof. intros. unfold fld. rewrite bytes_upd_other; [done|done|done|lia|done]. Qed.

Lemma alter_id_insert {A} (f : A → A) k x (m : gmap Z A) : m !! k = Some x → alter f k m = <[k := f x]> m.
Proof.
  intros H. apply map_eq. intros i. destruct (decide (i = k)) as [->|Hne].
  - by rewrite lookup_alter_eq, lookup_insert_eq, H.
  - by rewrite lookup_alter_ne, lookup_insert_ne.
Qed.

(** The offsets as numbers. *)
Ltac offsets :=
  cbv [e_dst e_src e_type sizeof_eth a_hwtype a_proto a_hwlen a_protolen a_opcode a_hwsrc a_ipsrc a_hwdst a_ipdst sizeof_arp
    i_header i_tos i_length i_id i_frag i_offset1 i_ttl i_proto i_chksum i_src i_dst sizeof_ip c_type c_code c_chksum c_id
    c_seq sizeof_icmp_echo u_sport u_dport u_length u_chksum sizeof_udp MEM] in *.
Ltac in_frame := rewrite ?length_upd, ?length_le_bytes; offsets; rewrite ?length_upd; lia.
(** Read a field through the stores that were made. *)
Ltac fields :=
  repeat first
    [ rewrite fld_upd_same by in_frame
    | rewrite fld_upd_other by in_frame
    | rewrite bytes_upd_same by in_frame
    | rewrite bytes_upd_other by in_frame ].

Lemma bytes_app off a b m : 0 ≤ off → 0 ≤ a → 0 ≤ b → bytes_at off (a + b) m = bytes_at off a m ++ bytes_at (off + a) b m.
Proof.
  intros. unfold bytes_at, slice. rewrite !Z2Nat.inj_add by lia.
  rewrite <-(take_drop (Z.to_nat a) (take (Z.to_nat a + Z.to_nat b) (drop (Z.to_nat off) m))).
  rewrite take_take, Nat.min_l by lia. f_equal. rewrite skipn_firstn_comm, drop_drop. f_equal. lia.
Qed.
Lemma bytes_byte off n m : Forall Chksum.byte m → Forall Chksum.byte (bytes_at off n m).
Proof. intros H. by apply Forall_take, Forall_drop. Qed.
Lemma upd_byte off l m : Forall Chksum.byte l → Forall Chksum.byte m → Forall Chksum.byte (upd off l m).
Proof.
  intros Hl Hm. apply Forall_lookup. intros i x Hx. unfold upd in Hx. rewrite Forall_lookup in Hl, Hm.
  apply list_lookup_inserts_Some in Hx as [[_ Hx]|(_ & _ & Hx)]; eauto.
Qed.

(** ** Checksums of parts of a frame, stored in the part itself *)
Section sums.
Context (o n k : Z) (m : list Z).
Context (Hm : Forall Chksum.byte m) (Ho : 0 ≤ o) (Hk : o ≤ k) (Heven : Z.even (k - o) = true).
Context (Hn : k + 2 ≤ o + n) (Hlen : o + n ≤ Z.of_nat (length m)) (Hzero : bytes_at k 2 m = [0; 0]).

Lemma split_at_sum m' : length m' = length m → bytes_at o n m' = bytes_at o (k - o) m' ++ bytes_at k 2 m' ++ bytes_at (k + 2) (o + n - k - 2) m'.
Proof using Ho Hk Hn.
  intros _. replace n with ((k - o) + (2 + (o + n - k - 2))) at 1 by lia. rewrite bytes_app by lia.
  replace (o + (k - o)) with k by lia. by rewrite bytes_app by lia.
Qed.

Lemma sum_stored s : 0 ≤ s < 2147483648 → ∃ r r', Chksum.chksum (bytes_at o n m) s = Ok r ∧ 0 ≤ Chksum.not16 r < 65536 ∧
  Chksum.chksum (bytes_at o n (upd k (le_bytes 2 (Chksum.not16 r)) m)) s = Ok r' ∧ Chksum.not16 r' = 0.
Proof using Hm Ho Hk Heven Hn Hlen Hzero.
  intros Hs. apply Z.even_spec in Heven as [q Hq].
  assert (length (bytes_at o (k - o) m) = (2 * Z.to_nat q)%nat) as Hl.
  { apply Nat2Z.inj. rewrite length_bytes_at by lia. lia. }
  destruct (Chksum.chksum_stored (bytes_at o (k - o) m) (bytes_at (k + 2) (o + n - k - 2) m) (Z.to_nat q) s)
    as (r & r' & H1 & H2 & H3 & H4); [done|by apply bytes_byte|by apply bytes_byte|done|].
  exists r, r'. rewrite !split_at_sum by (by rewrite ?length_upd). rewrite Hzero. split; [done|]. split; [lia|]. split; [|done].
  rewrite <-H3. rewrite (bytes_upd_other o), (bytes_upd_other (k + 2)) by (rewrite ?length_le_bytes; lia).
  rewrite bytes_upd_same by (rewrite ?length_le_bytes; lia). do 2 f_equal. unfold Chksum.le16. cbn [le_bytes]. f_equal.
  unfold u8. change (2 ^ 8) with 256. rewrite (Z.mod_small (_ / 256)) by (Z.div_mod_to_equations; lia). done.
Qed.

Lemma ip_sum : ∃ c, Chksum.ip_chksum (bytes_at o n m) = Ok c ∧ 0 ≤ c < 65536 ∧
  Chksum.ip_chksum (bytes_at o n (upd k (le_bytes 2 c) m)) = Ok 0.
Proof using Hm Ho Hk Heven Hn Hlen Hzero.
  destruct (sum_stored 0) as (r & r' & H1 & H2 & H3 & H4); [lia|]. exists (Chksum.not16 r). unfold Chksum.ip_chksum.
  rewrite H1, H3. cbn [res_bind]. by rewrite H4.
Qed.

Lemma inet_sum len dst src proto : 0 ≤ len < 65536 → 0 ≤ dst < 2 ^ 32 → 0 ≤ src < 2 ^ 32 → 0 ≤ proto < 65536 →
  ∃ c, Chksum.inet_chksum (bytes_at o n m) len dst src proto = Ok c ∧ 0 ≤ c < 65536 ∧
    Chksum.inet_chksum (bytes_at o n (upd k (le_bytes 2 c) m)) len dst src proto = Ok 0.
Proof using Hm Ho Hk Heven Hn Hlen Hzero.
  intros Hl Hd Hs Hp. pose proof (Chksum.pseudo_range len dst src proto Hl Hp Hd Hs) as Hr. unfold Chksum.inet_chksum. cbn zeta.
  rewrite u32_small by lia. set (s := _ + Chksum.htons len) in *.
  destruct (sum_stored s Hr) as (r & r' & H1 & H2 & H3 & H4). exists (Chksum.not16 r). rewrite H1, H3. cbn [res_bind]. by rewrite H4.
Qed.
End sums.

(** ** Equal states and equal interfaces *)
Lemma net_ext (x y : net) :
  pbufs x = pbufs y → free_pbuf_list x = free_pbuf_list y → pbuf_count x = pbuf_count y → free_count x = free_count y →
  netif_list x = netif_list y → netifs x = netifs y → neti_waiting x = neti_waiting y → neto_waiting x = neto_waiting y →
  arp_entry_list x = arp_entry_list y → arps x = arps y → raw_pcb_list x = raw_pcb_list y → raws x = raws y →
  pkt_pcb_list x = pkt_pcb_list y → pkts x = pkts y → udp_pcb_list x = udp_pcb_list y → udps x = udps y →
  udp_map x = udp_map y → now x = now y → wakes x = wakes y → kpages x = kpages y → blocks x = blocks y → x = y.
Proof. destruct x, y. cbn. by intros; subst. Qed.
Lemma netif_ext (x y : netif_t) :
  name x = name y → rx_pbuf_list x = rx_pbuf_list y → rx_pbuf_size x = rx_pbuf_size y → tx_pbuf_list x = tx_pbuf_list y →
  tx_pbuf_size x = tx_pbuf_size y → hwaddr x = hwaddr y → ipaddr x = ipaddr y → netmask x = netmask y →
  gateway x = gateway y → broadcast x = broadcast y → nic_output x = nic_output y → index x = index y → flags x = flags y → x = y.
Proof. destruct x, y. cbn. by intros; subst. Qed.
Ltac net_eq := apply net_ext; upd_simpl; try reflexivity.
Ltac netif_eq := apply netif_ext; upd_simpl; try reflexivity.

(** ** The buffer in use *)
Definition pb (a : Z) (p : pbuf_t) (s : net) : net := s <| pbufs $= <[a := p]> |>.

Lemma pb_id a p s : pbufs s !! a = Some p → pb a p s = s.
Proof. intros H. destruct s. unfold pb. cbn in *. unfold modify. cbn. by rewrite insert_id. Qed.
Lemma pb_pb a p p' s : pb a p' (pb a p s) = pb a p' s.
Proof. destruct s. unfold pb, modify. cbn. by rewrite insert_insert_eq. Qed.
Lemma pb_lookup a p s : pbufs (pb a p s) !! a = Some p.
Proof. unfold pb, modify. cbn. by rewrite lookup_insert_eq. Qed.
Lemma pb_lookup_other a b p s : a ≠ b → pbufs (pb a p s) !! b = pbufs s !! b.
Proof. intros H. unfold pb, modify. cbn. by rewrite lookup_insert_ne. Qed.

Section rules.
Context (E : stop → Prop).

Lemma wp_the_pbuf a p s (Q : pbuf_t → net → Prop) : Q p (pb a p s) → wp E (the_pbuf a) Q (pb a p s).
Proof using. intros HQ. eapply wp_deref; [apply pb_lookup|done]. Qed.
(** To work on a buffer. *)
Lemma wp_pb {A} (m : ST net A) a p s (Q : A → net → Prop) : pbufs s !! a = Some p → wp E m Q (pb a p s) → wp E m Q s.
Proof using. intros H. by rewrite pb_id. Qed.
Lemma wp_mod_pbuf a p f s (Q : unit → net → Prop) : Q tt (pb a (f p) s) → wp E (mod_pbuf a f) Q (pb a p s).
Proof using.
  intros HQ. apply wp_mod. assert (pb a p s <| pbufs $= alter f a |> = pb a (f p) s) as ->; [|done].
  destruct s. unfold pb, modify. cbn. by rewrite alter_insert_eq.
Qed.
Lemma wp_get_bytes a off n l c m s (Q : list Z → net → Prop) : 0 ≤ off → 0 ≤ n → off + n ≤ Z.of_nat (length m) →
  Q (bytes_at off n m) (pb a (mk_pbuf l c m) s) → wp E (get_bytes a off n) Q (pb a (mk_pbuf l c m) s).
Proof using.
  intros H0 H1 H2 HQ. unfold get_bytes. apply wp_bind, wp_the_pbuf. cbn [pmem].
  rewrite (proj2 (Z.leb_le 0 off)), (proj2 (Z.leb_le 0 n)), (proj2 (Z.leb_le _ _)) by done. by apply wp_ret.
Qed.
Lemma wp_put_bytes a off bs l c m s (Q : unit → net → Prop) : 0 ≤ off → off + Z.of_nat (length bs) ≤ Z.of_nat (length m) →
  Q tt (pb a (mk_pbuf l c (upd off bs m)) s) → wp E (put_bytes a off bs) Q (pb a (mk_pbuf l c m) s).
Proof using.
  intros H0 H1 HQ. unfold put_bytes. apply wp_bind, wp_the_pbuf. cbn [pmem].
  rewrite (proj2 (Z.leb_le 0 off)), (proj2 (Z.leb_le _ _)) by done. by apply wp_mod_pbuf.
Qed.
Lemma wp_get_field n a off l c m s (Q : Z → net → Prop) : 0 ≤ off → off + Z.of_nat n ≤ Z.of_nat (length m) →
  Q (fld n off m) (pb a (mk_pbuf l c m) s) → wp E (get n a off) Q (pb a (mk_pbuf l c m) s).
Proof using. intros H0 H1 HQ. unfold get. apply wp_bind, wp_get_bytes; [done|lia|done|]. by apply wp_ret. Qed.
Lemma wp_put_field n a off v l c m s (Q : unit → net → Prop) : 0 ≤ off → off + Z.of_nat n ≤ Z.of_nat (length m) →
  Q tt (pb a (mk_pbuf l c (upd off (le_bytes n v) m)) s) → wp E (put n a off v) Q (pb a (mk_pbuf l c m) s).
Proof using. intros H0 H1 HQ. unfold put. apply wp_put_bytes; [done|by rewrite length_le_bytes|done]. Qed.
Lemma wp_the_netif a n s (Q : netif_t → net → Prop) : netifs s !! a = Some n → Q n s → wp E (the_netif a) Q s.
Proof using. intros H HQ. by eapply wp_deref. Qed.

(** The buffer goes to the interface's queue. *)
Lemma wp_netif_output netif b n s (Q : unit → net → Prop) : netifs s !! netif = Some n → b ∉ tx_pbuf_list n →
  Q tt (s <| netifs $= <[netif := n <| tx_pbuf_list $= cons b |> <| tx_pbuf_size $= λ k, k + 1 |>]> |> <| neto_waiting := false |>) →
  wp E (netif_output netif b) Q s.
Proof using.
  intros Hn Hb HQ. unfold netif_output. apply wp_bind. eapply wp_the_netif; [done|]. apply wp_bind.
  eapply wp_lift; [unfold list_push, Abs.mem; by rewrite bool_decide_eq_false_2|]. apply wp_bind, wp_mod, wp_mod.
  assert (∀ f, s <| netifs $= alter f netif |> = s <| netifs $= <[netif := f n]> |>) as E0; [|by rewrite E0].
  intros f. change (s <| netifs := alter f netif (netifs s) |> = s <| netifs := <[netif := f n]> (netifs s) |>).
  by rewrite (alter_id_insert f netif n).
Qed.
End rules.

Section outside.
Context (E : stop → Prop).

(** The rules for what a frame in use leaves alone. *)
Lemma wp_the_arp a e s (Q : arp_entry_t → net → Prop) : arps s !! a = Some e → Q e s → wp E (the_arp a) Q s.
Proof using. intros He HQ. by eapply wp_deref. Qed.
Lemma wp_mod_arp a e f s (Q : unit → net → Prop) : arps s !! a = Some e →
  Q tt (s <| arps $= <[a := f e]> |>) → wp E (mod_arp a f) Q s.
Proof using.
  intros He HQ. apply wp_mod.
  change (s <| arps $= alter f a |>) with (s <| arps := alter f a (arps s) |>). by rewrite (alter_id_insert f a e).
Qed.

(** The pool has a buffer. *)
Lemma wp_pbuf_get kpage b p s (Q : Z → net → Prop) : last (free_pbuf_list s) = Some b → Z.land b 0x7ff = 0 →
  pbufs s !! b = Some p →
  Q b (pb b (p <| pcount := 1 |>)
         (s <| free_pbuf_list := removelast (free_pbuf_list s) |> <| free_count := u32 (free_count s - 1) |>)) →
  wp E (pbuf_get kpage) Q s.
Proof using.
  intros Hl Ha Hp HQ. unfold pbuf_get. apply wp_bind, wp_gets, wp_bind.
  destruct (free_pbuf_list s) as [|x l] eqn:Ef; [done|]. apply wp_ret, wp_bind, wp_gets, wp_bind.
  rewrite Ef. eapply wp_lift; [unfold list_popback; by rewrite Hl|]. apply wp_bind, wp_mod, wp_bind, wp_check_true; [by rewrite Ha|].
  apply wp_bind, wp_mod. apply wp_bind, wp_mod, wp_ret.
  replace (pb b (p <| pcount := 1 |>) _) with
    (s <| free_pbuf_list := removelast (x :: l) |> <| pbufs $= alter (λ p, p <| pcount := 1 |>) b |> <| free_count $= λ n, u32 (n - 1) |>) in HQ;
    [done|].
  unfold pb, modify. cbn. by rewrite (alter_id_insert _ b p).
Qed.

(** A reference is given up: the buffer stays in use, or goes back to the pool. *)
Lemma wp_pbuf_put_live a l m s (Q : unit → net → Prop) : Z.land a 0x7ff = 0 → Q tt (pb a (mk_pbuf l 1 m) s) →
  wp E (pbuf_put a) Q (pb a (mk_pbuf l 2 m) s).
Proof using.
  intros Ha HQ. unfold pbuf_put. apply wp_bind, wp_check_true; [by rewrite Ha|]. apply wp_bind, wp_the_pbuf, wp_bind, wp_check_true; [done|].
  apply wp_bind, wp_mod_pbuf, wp_bind, wp_the_pbuf. by apply wp_ret.
Qed.
Lemma wp_pbuf_put_last a l m s (Q : unit → net → Prop) : Z.land a 0x7ff = 0 → a ∉ free_pbuf_list s →
  Q tt (pb a (mk_pbuf l 0 m) (s <| free_pbuf_list := a :: free_pbuf_list s |> <| free_count $= λ n, u32 (n + 1) |>)) →
  wp E (pbuf_put a) Q (pb a (mk_pbuf l 1 m) s).
Proof using.
  intros Ha Hf HQ. unfold pbuf_put. apply wp_bind, wp_check_true; [by rewrite Ha|]. apply wp_bind, wp_the_pbuf, wp_bind, wp_check_true; [done|].
  apply wp_bind, wp_mod_pbuf, wp_bind, wp_the_pbuf. apply wp_bind, wp_gets, wp_bind.
  eapply wp_lift; [unfold list_push, Abs.mem; by rewrite bool_decide_eq_false_2|]. apply wp_mod. exact HQ.
Qed.
End outside.

(** ** Frames that went over the wire: the first [n] bytes are the same *)
Definition same (n : Z) (m m' : list Z) : Prop := take (Z.to_nat n) m = take (Z.to_nat n) m'.

Lemma bytes_same n m m' off k : same n m m' → 0 ≤ off → 0 ≤ k → off + k ≤ n → bytes_at off k m' = bytes_at off k m.
Proof.
  intros H H0 H1 H2. unfold bytes_at. apply slice_ext. intros i Hi.
  rewrite <-(lookup_take_lt m (Z.to_nat n)), <-(lookup_take_lt m' (Z.to_nat n)) by lia. by rewrite H.
Qed.
Lemma fld_same n m m' k off : same n m m' → 0 ≤ off → off + Z.of_nat k ≤ n → fld k off m' = fld k off m.
Proof. intros H H0 H1. unfold fld. by rewrite (bytes_same n m m') by (done || lia). Qed.

(** One operation on the buffer in use. *)
Ltac frame_step :=
  lazymatch goal with
  | |- wp _ (st_bind _ _) _ _ => apply wp_bind
  | |- wp _ (get_bytes _ _ _) _ _ => apply wp_get_bytes; [in_frame|in_frame|in_frame|]
  | |- wp _ (put_bytes _ _ _) _ _ => apply wp_put_bytes; [in_frame|in_frame|]
  | |- wp _ (get _ _ _) _ _ => apply wp_get_field; [in_frame|in_frame|]
  | |- wp _ (put _ _ _ _) _ _ => apply wp_put_field; [in_frame|in_frame|]
  | |- wp _ (the_pbuf _) _ _ => apply wp_the_pbuf
  | |- wp _ (st_ret _) _ _ => apply wp_ret
  | |- wp _ (st_gets _) _ _ => apply wp_gets
  end.
Ltac frame_steps := repeat frame_step.
