(* ===== verification/Arp.v ===== *)
(** * Ethernet frames out and address resolution ([eth_output] of
    [src/src/net/eth.c], [src/src/net/arp.c])

    [kmalloc n]: the block that the call number [n] of [kmalloc] returns, and the
    word that its last user left where [query] is, which [arp_entry_get] does not
    set. *)
From S2P Require Import Prelude Bytes Dlist Net Frame.
From S2P Require Addr Chksum.
Open Scope Z_scope.

Definition ARP_OP_REQUEST : Z := 1.
Definition ARP_OP_REPLY : Z := 2.
Definition ARP_HARDWARE_ETH : Z := 1.
Definition ARP_HARDWARE_ETH_LEN : Z := 6.
Definition ARP_PROTOCOL_IP : Z := 0x0800.
Definition ARP_PROTOCOL_IP_LEN : Z := 4.
Definition ARP_ENTRY_TIMEOUT : Z := 600.
Definition ARP_RETRY : Z := 5.
Definition ARP_DELAY : Z := 2.

Definition eth_output (netif pbuf : Z) (dst : list Z) (type len : Z) : ST net Z :=
  do! put 2 pbuf e_type (Chksum.htons type);
  do! put_bytes pbuf e_dst dst;
  let* n := the_netif netif in
  do! put_bytes pbuf e_src (hwaddr n);
  do! mod_pbuf pbuf (λ p, p <| plen := u32 (sizeof_eth + len) |>);
  do! netif_output netif pbuf;
  st_ret EOK.

Section arp.
Context (kpage : nat → Z * list Z) (kmalloc : nat → Z * Z).

(** The entries are sorted by [expires], which [list_insert_sort] reads as an
    [int]. *)
Definition sort_key (m : gmap Z arp_entry_t) (a : Z) : Z :=
  match m !! a with Some e => s32 (expires e) | None => 0 end.
Definition insert_entry (a : Z) : ST net unit :=
  st_mod (λ s, s <| arp_entry_list $= Abs.insert_sort (sort_key (arps s)) a |>).

Definition arp_entry_get (netif addr : Z) : ST net Z :=
  let* n := st_gets blocks in
  let '(a, garbage) := kmalloc n in
  do! st_mod (λ s, s <| blocks $= S |>
        <| arps $= <[a := mk_arp_entry ETH_BROADCAST addr 0 1 garbage 0 [] netif]> |>);
  do! insert_entry a;
  st_ret a.

(** The buffers of an entry are released, the oldest first. *)
Fixpoint put_all (fuel : nat) (limit : Z) (l : list Z) : ST net unit :=
  match l with
  | [] => st_ret tt
  | _ =>
      match fuel with
      | O => st_stop Fuel
      | S fuel' =>
          let* (b, l) := st_lift (list_popback l) in
          let* p := the_pbuf b in
          do! st_check (pcount p <=? limit);
          do! pbuf_put b;
          put_all fuel' limit l
      end
  end.

Definition arp_entry_put (a : Z) : ST net unit :=
  let* e := the_arp a in
  do! put_all (length (pbuf_list e)) 2 (pbuf_list e);
  let* l := st_gets arp_entry_list in
  let* l := st_lift (list_remove a l) in
  st_mod (λ s, s <| arp_entry_list := l |> <| arps $= delete a |>).

Fixpoint find_entry (q netif : Z) (l : list Z) (m : gmap Z arp_entry_t) : res (option Z) :=
  match l with
  | [] => Ok None
  | a :: l' =>
      let! e := deref (m !! a) in
      if Addr.ip_addr_cmp (aipaddr e) q && (netif =? anetif e) then Ok (Some a) else find_entry q netif l' m
  end.

Definition arp_lookup (netif addr : Z) : ST net (option Z) :=
  let* n := the_netif netif in
  let q := if negb (Addr.ip_addr_maskcmp (ipaddr n) addr (netmask n)) then gateway n else addr in
  if Addr.ip_addr_isany (Some q) then st_ret None
  else
    let* s := st_get in
    let* r := st_lift (find_entry q netif (arp_entry_list s) (arps s)) in
    match r with
    | Some a => st_ret (Some a)
    | None => let* a := arp_entry_get netif q in st_ret (Some a)
    end.

Definition arp_query (a : Z) : ST net Z :=
  let* e := the_arp a in
  let* t := st_gets now in
  if t <? u32 (query e + ARP_DELAY) then st_ret (- ETIME)
  else
    do! mod_arp a (λ e, e <| query := t |> <| retry $= λ r, u32 (r + 1) |>);
    let* e := the_arp a in
    do! st_when (2 <? retry e) (mod_arp a (λ e, e <| ahwaddr := ETH_BROADCAST |>));
    let* b := pbuf_get kpage in
    let* e := the_arp a in
    let* n := the_netif (anetif e) in
    do! put 2 b a_opcode (Chksum.htons ARP_OP_REQUEST);
    do! put 2 b a_hwtype (Chksum.htons ARP_HARDWARE_ETH);
    do! put 1 b a_hwlen ARP_HARDWARE_ETH_LEN;
    do! put 2 b a_proto (Chksum.htons ARP_PROTOCOL_IP);
    do! put 1 b a_protolen ARP_PROTOCOL_IP_LEN;
    do! put_bytes b a_hwdst (ahwaddr e);
    do! put 4 b a_ipdst (aipaddr e);
    do! put 4 b a_ipsrc (ipaddr n);
    do! put_bytes b a_hwsrc (hwaddr n);
    let* _ := eth_output (anetif e) b (ahwaddr e) ETH_TYPE_ARP sizeof_arp in
    st_ret EOK.

(** The buffers that wait in [l] go out, the oldest first. *)
Fixpoint send_all (fuel : nat) (netif entry : Z) : ST net unit :=
  let* e := the_arp entry in
  match pbuf_list e with
  | [] => st_ret tt
  | _ =>
      match fuel with
      | O => st_stop Fuel
      | S fuel' =>
          let* (b, l) := st_lift (list_popback (pbuf_list e)) in
          do! mod_arp entry (λ e, e <| pbuf_list := l |>);
          do! put_bytes b e_dst (ahwaddr e);
          do! netif_output netif b;
          send_all fuel' netif entry
      end
  end.

Definition arp_refresh (netif pbuf : Z) : ST net Z :=
  let* src := get 4 pbuf a_ipsrc in
  let* n := the_netif netif in
  if negb (Addr.ip_addr_maskcmp src (ipaddr n) (netmask n)) then st_ret (- EADDR)
  else
    let* r := arp_lookup netif src in
    match r with
    | None => st_ret (- EADDR)
    | Some a =>
        let* hw := get_bytes pbuf a_hwsrc 6 in
        let* t := st_gets now in
        do! mod_arp a (λ e, e <| ahwaddr := hw |> <| expires := u32 (t + ARP_ENTRY_TIMEOUT) |> <| retry := 0 |> <| used := 0 |>);
        let* l := st_gets arp_entry_list in
        let* l := st_lift (list_remove a l) in
        do! st_mod (λ s, s <| arp_entry_list := l |>);
        do! insert_entry a;
        let* e := the_arp a in
        do! send_all (length (pbuf_list e)) netif a;
        st_ret EOK
    end.

Definition arp_reply (netif pbuf : Z) : ST net Z :=
  do! put 2 pbuf a_opcode (Chksum.htons ARP_OP_REPLY);
  let* hw := get_bytes pbuf a_hwsrc 6 in
  do! put_bytes pbuf a_hwdst hw;
  let* ip := get 4 pbuf a_ipsrc in
  do! put 4 pbuf a_ipdst ip;
  let* n := the_netif netif in
  do! put_bytes pbuf a_hwsrc (hwaddr n);
  do! put 4 pbuf a_ipsrc (ipaddr n);
  do! count_up pbuf;
  let* dst := get_bytes pbuf a_hwdst 6 in
  eth_output netif pbuf dst ETH_TYPE_ARP sizeof_arp.

Definition arp_input (netif pbuf : Z) : ST net Z :=
  let* hwtype := get 2 pbuf a_hwtype in
  if negb (Chksum.htons hwtype =? ARP_HARDWARE_ETH) then st_ret (- EPROTO)
  else
    let* proto := get 2 pbuf a_proto in
    if negb (Chksum.htons proto =? ARP_PROTOCOL_IP) then st_ret (- EPROTO)
    else
      let* n := the_netif netif in
      let* ipdst := get 4 pbuf a_ipdst in
      if negb (Addr.ip_addr_cmp (ipaddr n) ipdst) then st_ret (- EPROTO)
      else
        let* op := get 2 pbuf a_opcode in
        let type := Chksum.htons op in
        if type =? ARP_OP_REQUEST then arp_reply netif pbuf
        else if type =? ARP_OP_REPLY then arp_refresh netif pbuf
        else st_ret (- EPROTO).

Definition arp_eth_output (netif pbuf addr type len : Z) : ST net Z :=
  do! put 2 pbuf e_type (Chksum.htons type);
  let* n := the_netif netif in
  do! put_bytes pbuf e_src (hwaddr n);
  do! mod_pbuf pbuf (λ p, p <| plen := u32 (sizeof_eth + len) |>);
  if negb (Z.land (flags n) NETIF_LOOPBACK =? 0) then
    do! put_bytes pbuf e_dst ETH_ANY;
    do! netif_output netif pbuf;
    st_ret EOK
  else
    let* own := ip_addr_isown addr in
    if own then
      do! put_bytes pbuf e_dst (hwaddr n);
      do! netif_input netif pbuf;
      st_ret EOK
    else
      let* r := arp_lookup netif addr in
      match r with
      | None => st_ret (- EADDR)
      | Some a =>
          let* e := the_arp a in
          let* t := st_gets now in
          if t <? expires e then
            do! mod_arp a (λ e, e <| used $= λ u, u32 (u + 1) |>);
            do! put_bytes pbuf e_dst (ahwaddr e);
            do! netif_output netif pbuf;
            st_ret EOK
          else
            let* l := st_lift (list_push pbuf (pbuf_list e)) in
            do! mod_arp a (λ e, e <| pbuf_list := l |>);
            let* _ := arp_query a in
            st_ret EOK
      end.

(** A turn of [arp_thread] after its sleep: from the last entry to the first. *)
Definition arp_thread_entry (a : Z) : ST net unit :=
  let* e := the_arp a in
  let* t := st_gets now in
  if t <? expires e then st_ret tt
  else if ARP_RETRY <? retry e then arp_entry_put a
  else if used e =? 0 then arp_entry_put a
  else let* _ := arp_query a in st_ret tt.

Definition arp_thread : ST net unit :=
  let* l := st_gets arp_entry_list in
  st_for (reverse l) arp_thread_entry.

Definition arp_init : ST net unit := st_mod (λ s, s <| arp_entry_list := [] |>).
End arp.

(** ** Properties *)

(** An ARP frame. *)
Record arp_frame (op : Z) (dst src hwdst : list Z) (ipdst : Z) (hwsrc : list Z) (ipsrc : Z) (m : list Z) : Prop := {
  af_dst : bytes_at e_dst 6 m = dst; af_src : bytes_at e_src 6 m = src;
  af_type : fld 2 e_type m = Chksum.htons ETH_TYPE_ARP;
  af_hwtype : fld 2 a_hwtype m = Chksum.htons ARP_HARDWARE_ETH;
  af_proto : fld 2 a_proto m = Chksum.htons ARP_PROTOCOL_IP;
  af_hwlen : fld 1 a_hwlen m = ARP_HARDWARE_ETH_LEN; af_protolen : fld 1 a_protolen m = ARP_PROTOCOL_IP_LEN;
  af_op : fld 2 a_opcode m = Chksum.htons op;
  af_hwdst : bytes_at a_hwdst 6 m = hwdst; af_ipdst : fld 4 a_ipdst m = ipdst;
  af_hwsrc : bytes_at a_hwsrc 6 m = hwsrc; af_ipsrc : fld 4 a_ipsrc m = ipsrc }.

Lemma arp_frame_same op dst src hwdst ipdst hwsrc ipsrc m m' : same 42 m m' →
  arp_frame op dst src hwdst ipdst hwsrc ipsrc m → arp_frame op dst src hwdst ipdst hwsrc ipsrc m'.
Proof.
  intros Hs []. split; (rewrite (fld_same 42 m m') || rewrite (bytes_same 42 m m')); by (done || offsets; lia).
Qed.

(** An entry after a query. *)
Definition queried (t : Z) (e : arp_entry_t) : arp_entry_t :=
  let e := e <| query := t |> <| retry := u32 (retry e + 1) |> in
  if 2 <? retry e then e <| ahwaddr := ETH_BROADCAST |> else e.

Section queries.
Context (E : stop → Prop) (kpage : nat → Z * list Z).

Lemma wp_eth_output netif n b l c m dst type len s (Q : Z → net → Prop) :
  netifs s !! netif = Some n → b ∉ tx_pbuf_list n → length dst = 6%nat → length (hwaddr n) = 6%nat → Z.of_nat (length m) = MEM →
  Q EOK (pb b (mk_pbuf (u32 (sizeof_eth + len)) c (upd e_src (hwaddr n) (upd e_dst dst (upd e_type (le_bytes 2 (Chksum.htons type)) m))))
    s <| netifs $= <[netif := n <| tx_pbuf_list $= cons b |> <| tx_pbuf_size $= λ k, k + 1 |>]> |> <| neto_waiting := false |>) →
  wp E (eth_output netif b dst type len) Q (pb b (mk_pbuf l c m) s).
Proof using.
  intros Hn Hb Hd Hh Hm HQ. unfold eth_output. do 4 frame_step.
  frame_step. eapply wp_the_netif; [done|]. do 2 frame_step. frame_step. apply wp_mod_pbuf. frame_step.
  eapply wp_netif_output; [done|done|]. by frame_step.
Qed.

(** An entry that was not asked for in the last two seconds: a request goes out. *)
Lemma wp_arp_query a e n b p s (Q : Z → net → Prop) :
  arps s !! a = Some e → netifs s !! anetif e = Some n → u32 (query e + ARP_DELAY) ≤ now s →
  last (free_pbuf_list s) = Some b → Z.land b 0x7ff = 0 → pbufs s !! b = Some p → Z.of_nat (length (pmem p)) = MEM →
  b ∉ tx_pbuf_list n → length (ahwaddr e) = 6%nat → length (hwaddr n) = 6%nat →
  0 ≤ aipaddr e < 2 ^ 32 → 0 ≤ ipaddr n < 2 ^ 32 →
  (∀ m s', Z.of_nat (length m) = MEM →
     arp_frame ARP_OP_REQUEST (ahwaddr (queried (now s) e)) (hwaddr n) (ahwaddr (queried (now s) e)) (aipaddr e) (hwaddr n) (ipaddr n) m →
     s' = pb b (mk_pbuf 42 1 m) (s <| arps := <[a := queried (now s) e]> (arps s) |>
            <| free_pbuf_list := removelast (free_pbuf_list s) |> <| free_count := u32 (free_count s - 1) |>)
          <| netifs $= <[anetif e := n <| tx_pbuf_list $= cons b |> <| tx_pbuf_size $= λ k, k + 1 |>]> |> <| neto_waiting := false |> →
     Q EOK s') →
  wp E (arp_query kpage a) Q s.
Proof using.
  intros He Hn Ht Hl Ha Hp Hm Hb Hhe Hhn Hie Hin HQ. unfold arp_query. apply wp_bind. eapply wp_the_arp; [done|].
  apply wp_bind, wp_gets. rewrite (proj2 (Z.ltb_ge _ _)) by done. apply wp_bind. eapply wp_mod_arp; [done|].
  set (s1 := s <| arps $= _ |>). set (e1 := e <| query := _ |> <| retry $= _ |>) in s1.
  assert (arps s1 !! a = Some e1) as He1 by (cbn; apply lookup_insert_eq).
  apply wp_bind. eapply wp_the_arp; [done|]. apply wp_bind.
  set (e2 := queried (now s) e).
  set (s2 := s <| arps := <[a := e2]> (arps s) |>).
  assert (wp E (st_when (2 <? retry e1) (mod_arp a (λ e, e <| ahwaddr := ETH_BROADCAST |>))) (λ _ s', s' = s2) s1) as Hw.
  { unfold st_when. subst e2 s2. unfold queried. change (retry (e <| query := now s |> <| retry := u32 (retry e + 1) |>)) with (retry e1).
    destruct (2 <? retry e1).
    - eapply wp_mod_arp; [done|]. unfold s1, modify. cbn. f_equal. apply insert_insert_eq.
    - by apply wp_ret. }
  eapply wp_conseq; [exact Hw|]. intros [] s' ->. clear Hw.
  apply wp_bind. eapply wp_pbuf_get; [exact Hl|done|exact Hp|]. destruct p as [pl pc m0]. cbn [pmem] in Hm.
  assert (anetif e2 = anetif e ∧ aipaddr e2 = aipaddr e ∧ length (ahwaddr e2) = 6%nat) as (Ea & Ei & Eh).
  { unfold e2, queried. case_match; by split_and!. }
  set (s3 := s2 <| free_pbuf_list := _ |> <| free_count := _ |>). change (mk_pbuf pl pc m0 <| pcount := 1 |>) with (mk_pbuf pl 1 m0).
  apply wp_bind. eapply wp_the_arp; [cbn; apply lookup_insert_eq|]. rewrite Ea, Ei.
  apply wp_bind. eapply wp_the_netif; [done|]. do 9 (frame_step; frame_step).
  apply wp_bind. eapply wp_eth_output; [done|done|done|done|in_frame|]. apply wp_ret. cbn [sizeof_eth sizeof_arp].
  eapply HQ; [|split|reflexivity]; rewrite ?length_upd; try done; fields;
    rewrite ?Z.mod_small by done; reflexivity.
Qed.

(** The owner of the address that is asked for turns the request into the answer. *)
Lemma wp_arp_answer kmalloc netif b n dst src hwdst hwsrc ipsrc l c m s (Q : Z → net → Prop) :
  netifs s !! netif = Some n → b ∉ tx_pbuf_list n → length (hwaddr n) = 6%nat → Z.of_nat (length m) = MEM →
  0 ≤ ipaddr n < 2 ^ 32 → 0 ≤ ipsrc < 2 ^ 32 →
  arp_frame ARP_OP_REQUEST dst src hwdst (ipaddr n) hwsrc ipsrc m →
  (∀ m' s', Z.of_nat (length m') = MEM → arp_frame ARP_OP_REPLY hwsrc (hwaddr n) hwsrc ipsrc (hwaddr n) (ipaddr n) m' →
     s' = pb b (mk_pbuf 42 (u32 (c + 1)) m') s
          <| netifs $= <[netif := n <| tx_pbuf_list $= cons b |> <| tx_pbuf_size $= λ k, k + 1 |>]> |> <| neto_waiting := false |> →
     Q EOK s') →
  wp E (arp_input kmalloc netif b) Q (pb b (mk_pbuf l c m) s).
Proof using.
  intros Hn Hb Hh Hm Hin His Hf HQ. destruct Hf as [_ _ Fty Fhw Fpr Fhl Fpl Fop _ Fid Fhs Fis]. unfold arp_input.
  assert (length hwsrc = 6%nat) as Hs6.
  { rewrite <-Fhs. apply Nat2Z.inj. rewrite length_bytes_at by in_frame. done. }
  do 2 frame_step. rewrite Fhw, Chksum.htons_htons by done. rewrite Z.eqb_refl. cbn [negb].
  do 2 frame_step. rewrite Fpr, Chksum.htons_htons by done. rewrite Z.eqb_refl. cbn [negb]. frame_step. eapply wp_the_netif; [done|].
  do 2 frame_step. unfold Addr.ip_addr_cmp. rewrite Fid, Z.eqb_refl. cbn [negb]. do 2 frame_step. rewrite Fop, Chksum.htons_htons by done. rewrite Z.eqb_refl.
  unfold arp_reply. do 4 frame_step. fields. rewrite Fhs. do 4 frame_step. fields. rewrite Fis.
  do 3 frame_step. eapply wp_the_netif; [done|]. do 4 frame_step.
  frame_step. apply wp_mod_pbuf. change (mk_pbuf l c ?x <| pcount $= ?f |>) with (mk_pbuf l (f c) x). cbv beta.
  do 2 frame_step. fields. eapply wp_eth_output; [done|done|done|done|in_frame|].
  eapply HQ; [|split|reflexivity]; rewrite ?length_upd; try done; fields; rewrite ?Z.mod_small by done; done.
Qed.

(** The buffers of [ws] get the address [hw]. *)
Definition addressed (ws : list Z) (hw : list Z) (m m' : gmap Z pbuf_t) : Prop :=
  ∀ b, m' !! b = if bool_decide (b ∈ ws) then (λ p, p <| pmem := upd e_dst hw (pmem p) |>) <$> m !! b else m !! b.

Lemma addressed_snoc ws w p hw m m' : w ∉ ws → m !! w = Some p →
  addressed ws hw (<[w := p <| pmem := upd e_dst hw (pmem p) |>]> m) m' → addressed (ws ++ [w]) hw m m'.
Proof using.
  intros Hw Hp H b. rewrite (H b). destruct (decide (b = w)) as [->|Hne].
  - rewrite bool_decide_false by done. rewrite bool_decide_true by set_solver. by rewrite lookup_insert_eq, Hp.
  - rewrite lookup_insert_ne by done. destruct (decide (b ∈ ws)).
    + by rewrite !bool_decide_true by set_solver.
    + by rewrite !bool_decide_false by set_solver.
Qed.

Definition transmit (l : list Z) (n : netif_t) : netif_t :=
  n <| tx_pbuf_list $= app l |> <| tx_pbuf_size $= λ k, k + Z.of_nat (length l) |>.

(** The waiting buffers go out, the oldest first. *)
Lemma wp_send_all netif a ws hw : length hw = 6%nat → ∀ e n s (Q : unit → net → Prop),
  arps s !! a = Some e → pbuf_list e = ws → ahwaddr e = hw → netifs s !! netif = Some n →
  NoDup (ws ++ tx_pbuf_list n) → (∀ w, w ∈ ws → ∃ p, pbufs s !! w = Some p ∧ Z.of_nat (length (pmem p)) = MEM) →
  (∀ m r, addressed ws hw (pbufs s) m →
     Q tt (s <| arps $= <[a := e <| pbuf_list := [] |>]> |> <| netifs $= <[netif := transmit ws n]> |> <| pbufs := m |>
             <| neto_waiting := r |>)) →
  wp E (send_all (length ws) netif a) Q s.
Proof using.
  intros Hhw. induction ws as [|w ws IH] using rev_ind; intros e n s Q He Hws Hh Hn Hnd Hp HQ.
  - cbn [length send_all]. apply wp_bind. eapply wp_the_arp; [done|]. rewrite Hws. apply wp_ret.
    specialize (HQ (pbufs s) (neto_waiting s)).
    replace (s <| arps $= _ |> <| netifs $= _ |> <| pbufs := _ |> <| neto_waiting := _ |>) with s in HQ; [apply HQ; intros b; done|].
    destruct s, e, n. unfold transmit, modify. cbn in *. subst. by rewrite Z.add_0_r, !insert_id.
  - rewrite length_app, Nat.add_comm. cbn [length Nat.add send_all]. apply wp_bind. eapply wp_the_arp; [done|]. rewrite Hws.
    assert (∀ {B} (x y : B), match ws ++ [w] with [] => x | _ => y end = y) as -> by (intros; by destruct ws).
    apply wp_bind. eapply wp_lift; [unfold list_popback; by rewrite last_snoc, removelast_last|].
    apply wp_bind. eapply wp_mod_arp; [done|]. rewrite Hh.
    destruct (Hp w) as ([pl pc m] & Hw & Hm); [set_solver|]. cbn [pmem] in Hm.
    rewrite <-app_assoc in Hnd. apply NoDup_app in Hnd as (Hn1 & Hn2 & Hn3). apply NoDup_cons in Hn3 as [Hn3 Hn4].
    set (s1 := s <| arps $= _ |>). assert (s1 = pb w (mk_pbuf pl pc m) s1) as -> by (by rewrite pb_id).
    apply wp_bind, wp_put_bytes; [done|in_frame|]. apply wp_bind.
    eapply wp_netif_output; [done|done|].
    eapply IH; [cbn; apply lookup_insert_eq|done|done|cbn; apply lookup_insert_eq| | |].
    + cbn [tx_pbuf_list]. change (tx_pbuf_list (_ <| tx_pbuf_list $= cons w |> <| tx_pbuf_size $= ?f |>)) with (w :: tx_pbuf_list n).
      apply NoDup_app. split; [done|]. split; [|by apply NoDup_cons]. set_solver.
    + intros b Hb. destruct (Hp b) as (q & Hq & Hlq); [set_solver|]. exists q. split; [|done].
      change (pbufs (pb w (mk_pbuf pl pc (upd e_dst hw m)) s1) !! b = Some q).
      rewrite pb_lookup_other; [done|set_solver].
    + intros m' r Hm'. specialize (HQ m' r). apply (addressed_snoc ws w (mk_pbuf pl pc m)) in Hm'; [|set_solver|done].
      specialize (HQ Hm').
      match goal with |- Q tt ?x => match type of HQ with Q tt ?y => enough (y = x) as <-; [exact HQ|] end end.
      subst s1. unfold transmit, pb. net_eq; rewrite !insert_insert_eq; f_equal. netif_eq; rewrite ?length_app, <-?app_assoc; [done|cbn; lia].
Qed.

Lemma find_entry_in q netif l m a : find_entry q netif l m = Ok (Some a) →
  a ∈ l ∧ ∃ e, m !! a = Some e ∧ aipaddr e = q ∧ anetif e = netif.
Proof using.
  induction l as [|x l IH]; cbn [find_entry]; [done|]. destruct (m !! x) as [e|] eqn:Ex; [|done]. cbn [deref res_bind].
  unfold Addr.ip_addr_cmp. destruct (Z.eqb_spec (aipaddr e) q), (Z.eqb_spec netif (anetif e)); cbn [andb].
  - intros [= ->]. split; [left|eauto].
  - intros H. destruct (IH H). split; [by right|done].
  - intros H. destruct (IH H). split; [by right|done].
  - intros H. destruct (IH H). split; [by right|done].
Qed.

Lemma wp_arp_lookup kmalloc netif n addr a s (Q : option Z → net → Prop) : netifs s !! netif = Some n →
  Addr.ip_addr_maskcmp (ipaddr n) addr (netmask n) = true → addr ≠ 0 →
  find_entry addr netif (arp_entry_list s) (arps s) = Ok (Some a) → Q (Some a) s → wp E (arp_lookup kmalloc netif addr) Q s.
Proof using.
  intros Hn Hm H0 Hf HQ. unfold arp_lookup. apply wp_bind. eapply wp_the_netif; [done|]. rewrite Hm. cbn [negb Addr.ip_addr_isany].
  rewrite (proj2 (Z.eqb_neq _ _)) by done. apply wp_bind, wp_get, wp_bind. eapply wp_lift; [exact Hf|]. by apply wp_ret.
Qed.

Lemma remove_perm a (l : list Z) : NoDup l → a ∈ l → a :: Abs.remove a l ≡ₚ l.
Proof using.
  unfold Abs.remove. induction 1 as [|x l Hx Hl IH]; intros Ha; [by apply elem_of_nil in Ha|].
  apply elem_of_cons in Ha as [->|Ha].
  - rewrite filter_cons_False by (intros H; by apply H). rewrite filter_all; [done|]. intros y Hy ->. done.
  - rewrite filter_cons_True by (intros ->; done). etrans; [apply perm_swap|]. f_equiv. by apply IH.
Qed.

(** An entry after an answer. *)
Definition learned (hw : list Z) (t : Z) (e : arp_entry_t) : arp_entry_t :=
  e <| ahwaddr := hw |> <| expires := u32 (t + ARP_ENTRY_TIMEOUT) |> <| retry := 0 |> <| used := 0 |>.

Lemma wp_arp_learn kmalloc netif b n dst src hwdst hw ip a e l c m s (Q : Z → net → Prop) :
  netifs s !! netif = Some n → Z.of_nat (length m) = MEM → arp_frame ARP_OP_REPLY dst src hwdst (ipaddr n) hw ip m →
  Addr.ip_addr_maskcmp ip (ipaddr n) (netmask n) = true → ip ≠ 0 →
  find_entry ip netif (arp_entry_list s) (arps s) = Ok (Some a) → arps s !! a = Some e →
  NoDup (arp_entry_list s) → NoDup (pbuf_list e ++ tx_pbuf_list n) → b ∉ pbuf_list e →
  (∀ w, w ∈ pbuf_list e → ∃ p, pbufs s !! w = Some p ∧ Z.of_nat (length (pmem p)) = MEM) →
  (∀ s', arps s' = <[a := learned hw (now s) e <| pbuf_list := [] |>]> (arps s) → arp_entry_list s' ≡ₚ arp_entry_list s →
     netifs s' = <[netif := transmit (pbuf_list e) n]> (netifs s) →
     addressed (pbuf_list e) hw (<[b := mk_pbuf l c m]> (pbufs s)) (pbufs s') → Q EOK s') →
  wp E (arp_input kmalloc netif b) Q (pb b (mk_pbuf l c m) s).
Proof using.
  intros Hn Hm Hf Hmask H0 Hfind He Hel Hnd Hb Hw HQ. destruct Hf as [_ _ Fty Fhw Fpr Fhl Fpl Fop _ Fid Fhs Fis]. unfold arp_input.
  assert (length hw = 6%nat) as Hs6.
  { rewrite <-Fhs. apply Nat2Z.inj. rewrite length_bytes_at by in_frame. done. }
  do 2 frame_step. rewrite Fhw, Chksum.htons_htons by done. rewrite Z.eqb_refl. cbn [negb].
  do 2 frame_step. rewrite Fpr, Chksum.htons_htons by done. rewrite Z.eqb_refl. cbn [negb]. frame_step. eapply wp_the_netif; [done|].
  do 2 frame_step. unfold Addr.ip_addr_cmp. rewrite Fid, Z.eqb_refl. cbn [negb]. do 2 frame_step.
  rewrite Fop, Chksum.htons_htons by done. cbn [Z.eqb ARP_OP_REPLY ARP_OP_REQUEST Pos.eqb].
  unfold arp_refresh. do 2 frame_step. rewrite Fis. frame_step. eapply wp_the_netif; [done|]. rewrite Hmask. cbn [negb].
  frame_step. eapply wp_arp_lookup; [done| |done|exact Hfind|].
  { unfold Addr.ip_addr_maskcmp in *. by rewrite Z.eqb_sym. }
  do 2 frame_step. rewrite Fhs. do 2 frame_step. frame_step. eapply wp_mod_arp; [done|].
  destruct (find_entry_in _ _ _ _ _ Hfind) as [Hin _].
  frame_step. apply wp_gets. frame_step. eapply wp_lift; [unfold list_remove, Abs.mem; by rewrite bool_decide_eq_true_2|].
  frame_step. apply wp_mod. frame_step. apply wp_mod. frame_step. eapply wp_the_arp; [cbn; apply lookup_insert_eq|].
  frame_step. change (pbuf_list _) with (pbuf_list e) at 1.
  eapply (wp_send_all netif a (pbuf_list e) hw); [done|cbn; apply lookup_insert_eq|done|done|exact Hn|done| |].
  { intros w Hin'. destruct (Hw w Hin') as (p & Hp & Hl). exists p. split; [|done].
    upd_simpl. rewrite pb_lookup_other; [done|set_solver]. }
  intros m' r Ha. apply wp_ret. apply HQ; [| |done|exact Ha].
  - upd_simpl. by rewrite insert_insert_eq.
  - upd_simpl. rewrite insert_sort_perm. by apply remove_perm.
Qed.
End queries.

(** ** The exchange *)

(** [a] is an entry that can be asked for, and [b] the buffer that is next in the pool. *)
Record may_query (s : net) (a : Z) (e : arp_entry_t) (n : netif_t) (b : Z) (p : pbuf_t) : Prop := {
  mq_entry : arps s !! a = Some e; mq_netif : netifs s !! anetif e = Some n; mq_time : u32 (query e + ARP_DELAY) ≤ now s;
  mq_pool : last (free_pbuf_list s) = Some b; mq_aligned : Z.land b 0x7ff = 0; mq_buffer : pbufs s !! b = Some p;
  mq_memory : Z.of_nat (length (pmem p)) = MEM; mq_free : b ∉ tx_pbuf_list n;
  mq_dst : length (ahwaddr e) = 6%nat; mq_src : length (hwaddr n) = 6%nat;
  mq_ipdst : 0 ≤ aipaddr e < 2 ^ 32; mq_ipsrc : 0 ≤ ipaddr n < 2 ^ 32 }.

(** The interface [netif] of [s] is given the buffer [b] with the bytes [m]. *)
Record receives (s : net) (netif : Z) (n : netif_t) (b : Z) (p : pbuf_t) : Prop := {
  rc_netif : netifs s !! netif = Some n; rc_buffer : pbufs s !! b = Some p; rc_memory : Z.of_nat (length (pmem p)) = MEM;
  rc_free : b ∉ tx_pbuf_list n; rc_src : length (hwaddr n) = 6%nat }.

(** [a] is the entry of the address [ip] on [netif], with buffers that wait. *)
Record waiting (s : net) (netif : Z) (n : netif_t) (ip a : Z) (e : arp_entry_t) (b : Z) : Prop := {
  wt_subnet : Addr.ip_addr_maskcmp ip (ipaddr n) (netmask n) = true; wt_some : ip ≠ 0;
  wt_found : find_entry ip netif (arp_entry_list s) (arps s) = Ok (Some a); wt_entry : arps s !! a = Some e;
  wt_list : NoDup (arp_entry_list s); wt_queues : NoDup (pbuf_list e ++ tx_pbuf_list n); wt_other : b ∉ pbuf_list e;
  wt_buffers : ∀ w, w ∈ pbuf_list e → ∃ p, pbufs s !! w = Some p ∧ Z.of_nat (length (pmem p)) = MEM }.

(** C14: address resolution works.  A query of an entry that was not asked for in the last
    two seconds sends a request for its address; an interface with that address that
    receives the bytes of the request sends them back as an answer to the asker; and when
    the asker receives the bytes of the answer, the entry has the hardware address of the
    owner for the next 600 seconds, and the packets that waited for it, in whatever number,
    go out to that address in the order in which they came. *)
Theorem arp_exchange (kpage : nat → Z * list Z) (kmalloc : nat → Z * Z) s a e n b p (Hq : may_query s a e n b p) :
  ∃ m s', arp_query kpage a s = Ok (EOK, s') ∧ arps s' !! a = Some (queried (now s) e) ∧
    netifs s' !! anetif e = Some (transmit [b] n) ∧ pbufs s' !! b = Some (mk_pbuf 42 1 m) ∧ Z.of_nat (length m) = MEM ∧
  ∀ t nt b2 q netif2, receives t netif2 nt b2 q → same 42 m (pmem q) → ipaddr nt = aipaddr e →
  ∃ m2 t', arp_input kmalloc netif2 b2 t = Ok (EOK, t') ∧
    netifs t' !! netif2 = Some (transmit [b2] nt) ∧ pbufs t' !! b2 = Some (mk_pbuf 42 (u32 (pcount q + 1)) m2) ∧
    Z.of_nat (length m2) = MEM ∧ bytes_at e_dst 6 m2 = hwaddr n ∧
  ∀ u nu b3 r a3 e3, receives u (anetif e) nu b3 r → same 42 m2 (pmem r) → ipaddr nu = ipaddr n →
    waiting u (anetif e) nu (aipaddr e) a3 e3 b3 →
  ∃ u', arp_input kmalloc (anetif e) b3 u = Ok (EOK, u') ∧
    arps u' !! a3 = Some (learned (hwaddr nt) (now u) e3 <| pbuf_list := [] |>) ∧
    netifs u' !! anetif e = Some (transmit (pbuf_list e3) nu) ∧
    ∀ w, w ∈ pbuf_list e3 → ∃ p, pbufs u !! w = Some p ∧
      pbufs u' !! w = Some (p <| pmem := upd e_dst (hwaddr nt) (pmem p) |>).
Proof.
  destruct Hq as [He Hn Ht Hl Hal Hb Hm Hf Hhd Hhs Hid His].
  destruct (wp_total (arp_query kpage a) (λ r s', r = EOK ∧ ∃ m,
      Z.of_nat (length m) = MEM ∧ arps s' !! a = Some (queried (now s) e) ∧
      netifs s' !! anetif e = Some (transmit [b] n) ∧ pbufs s' !! b = Some (mk_pbuf 42 1 m) ∧
      arp_frame ARP_OP_REQUEST (ahwaddr (queried (now s) e)) (hwaddr n) (ahwaddr (queried (now s) e)) (aipaddr e) (hwaddr n) (ipaddr n) m) s)
    as (r & s' & Hr & -> & m & Hm1 & Ha1 & Hn1 & Hb1 & Hf1).
  { eapply wp_arp_query; try done. intros m s' Hm1 Hf1 ->. split; [done|]. exists m. split; [done|]. upd_simpl.
    split; [cbn; apply lookup_insert_eq|]. split; [apply lookup_insert_eq|]. split; [apply pb_lookup|done]. }
  exists m, s'. do 5 (split; [done|]). intros t nt b2 q netif2 [Rn Rb Rm Rf Rs] Hsame Hip. apply (arp_frame_same _ _ _ _ _ _ _ _ _ Hsame) in Hf1.
  rewrite <-Hip in Hf1.
  destruct (wp_total (arp_input kmalloc netif2 b2) (λ r t', r = EOK ∧ ∃ m2, Z.of_nat (length m2) = MEM ∧
      netifs t' !! netif2 = Some (transmit [b2] nt) ∧ pbufs t' !! b2 = Some (mk_pbuf 42 (u32 (pcount q + 1)) m2) ∧
      arp_frame ARP_OP_REPLY (hwaddr n) (hwaddr nt) (hwaddr n) (ipaddr n) (hwaddr nt) (ipaddr nt) m2) t)
    as (r & t' & Hr2 & -> & m2 & Hm2 & Hn2 & Hb2 & Hf2).
  { apply (wp_pb _ _ b2 q); [done|]. destruct q as [ql qc qm].
    eapply wp_arp_answer; try done; [by rewrite Hip|].
    intros m' t' Hm' Hf' ->. split; [done|]. exists m'. split; [done|]. upd_simpl. split; [apply lookup_insert_eq|]. split; [apply pb_lookup|done]. }
  exists m2, t'. do 4 (split; [done|]). split; [apply Hf2|].
  intros u nu b3 r a3 e3 [Un Ub Um Uf Us] Hsame2 Hip2 [Wm W0 Wf We Wl Wq Wo Wb].
  apply (arp_frame_same _ _ _ _ _ _ _ _ _ Hsame2) in Hf2. rewrite <-Hip2, Hip in Hf2.
  destruct (wp_total (arp_input kmalloc (anetif e) b3) (λ r u', r = EOK ∧
      arps u' !! a3 = Some (learned (hwaddr nt) (now u) e3 <| pbuf_list := [] |>) ∧
      netifs u' !! anetif e = Some (transmit (pbuf_list e3) nu) ∧ addressed (pbuf_list e3) (hwaddr nt) (pbufs u) (pbufs u')) u)
    as (r' & u' & Hr3 & -> & Ha3 & Hn3 & Hb3).
  { apply (wp_pb _ _ b3 r); [done|]. destruct r as [rl rc rm].
    eapply wp_arp_learn; try done. intros u' -> _ -> Had. split; [done|]. split; [apply lookup_insert_eq|].
    split; [apply lookup_insert_eq|]. by rewrite insert_id in Had. }
  exists u'. do 3 (split; [done|]). intros w Hw. destruct (Wb w Hw) as (pw & Hpw & _). exists pw. split; [done|].
  by rewrite (Hb3 w), bool_decide_true, Hpw.
Qed.

(** Two hosts on 10.0.0.0/8 and two packets that wait. *)
Definition demo_netif (hw : list Z) (ip : Z) : netif_t := mk_netif [] [] 0 [] 0 hw (le [10; 0; 0; ip]) (le [255; 0; 0; 0]) 0 0 DRIVER 0 0.
Definition demo_mac (k : Z) : list Z := [2; 0; 0; 0; 0; k].
Definition demo_entry (l : list Z) : arp_entry_t := mk_arp_entry ETH_BROADCAST (le [10; 0; 0; 2]) 0 1 0 0 l 16.
Definition demo_net (pool : list Z) (m : gmap Z pbuf_t) (n : netif_t) (e : arp_entry_t) : net :=
  mk_net m pool 0 0 [16] {[16 := n]} false false [32] {[32 := e]} [] ∅ [] ∅ [] ∅ (Bitmap.mk_bitmap [] 0 0) 100 [] 0 0.
Definition demo_pbuf (m : list Z) : pbuf_t := mk_pbuf 0 1 m.
Definition demo_zeros : list Z := replicate 2008 0.

Lemma arp_exchange_witness : ∃ m s' m2 t' u',
  arp_query (λ _, (0, [])) 32 (demo_net [2048] {[2048 := demo_pbuf demo_zeros]} (demo_netif (demo_mac 1) 1) (demo_entry [])) = Ok (EOK, s') ∧
  pbufs s' !! 2048 = Some (mk_pbuf 42 1 m) ∧
  arp_input (λ _, (0, 0)) 16 4096 (demo_net [] {[4096 := demo_pbuf m]} (demo_netif (demo_mac 2) 2) (demo_entry [])) = Ok (EOK, t') ∧
  pbufs t' !! 4096 = Some (mk_pbuf 42 2 m2) ∧
  arp_input (λ _, (0, 0)) 16 2048 (demo_net [] {[2048 := demo_pbuf m2; 6144 := demo_pbuf demo_zeros; 8192 := demo_pbuf demo_zeros]}
    (demo_netif (demo_mac 1) 1) (demo_entry [6144; 8192])) = Ok (EOK, u') ∧
  netifs u' !! 16 = Some (transmit [6144; 8192] (demo_netif (demo_mac 1) 1)) ∧
  arps u' !! 32 = Some (mk_arp_entry (demo_mac 2) (le [10; 0; 0; 2]) 700 0 0 0 [] 16).
Proof.
  destruct (arp_exchange (λ _, (0, [])) (λ _, (0, 0))
    (demo_net [2048] {[2048 := demo_pbuf demo_zeros]} (demo_netif (demo_mac 1) 1) (demo_entry []))
    32 (demo_entry []) (demo_netif (demo_mac 1) 1) 2048 (demo_pbuf demo_zeros)) as (m & s' & H1 & _ & _ & H2 & Hm & H3).
  { split; try done. cbn. set_solver. }
  destruct (H3 (demo_net [] {[4096 := demo_pbuf m]} (demo_netif (demo_mac 2) 2) (demo_entry []))
    (demo_netif (demo_mac 2) 2) 4096 (demo_pbuf m) 16) as (m2 & t' & H4 & _ & H5 & Hm2 & _ & H6); [|done|done|].
  { split; try done. cbn. set_solver. }
  destruct (H6 (demo_net [] {[2048 := demo_pbuf m2; 6144 := demo_pbuf demo_zeros; 8192 := demo_pbuf demo_zeros]}
    (demo_netif (demo_mac 1) 1) (demo_entry [6144; 8192])) (demo_netif (demo_mac 1) 1) 2048 (demo_pbuf m2) 32 (demo_entry [6144; 8192]))
    as (u' & H7 & H8 & H9 & _); [| |done| |].
  { split; try done. cbn. set_solver. }
  { done. }
  { split; try done; [| |cbn; set_solver|].
    - apply (bool_decide_unpack _). by vm_compute.
    - apply (bool_decide_unpack _). by vm_compute.
    - intros w Hw. cbn in Hw. assert (w = 6144 ∨ w = 8192) as [-> | ->] by set_solver; by eexists. }
  exists m, s', m2, t', u'. do 6 (split; [done|]). exact H8.
Defined.
