(* ===== verification/Ip.v ===== *)
(** * IP output and ICMP ([ip_output] of [src/src/net/ip.c], [src/src/net/icmp.c])

    A checksum is computed over bytes of the buffer and stored as it is. *)
From S2P Require Import Prelude Bytes Dlist Net Frame Arp.
From S2P Require Addr Chksum.
Open Scope Z_scope.

Definition IP_TTL : Z := 64.
Definition IP_VERSION_4 : Z := 4.
Definition IP_FLAG_NOFRAG : Z := 0x2.
Definition IP_FLAG_NOLAST : Z := 0x4.
Definition IP_PROTOCOL_ICMP : Z := 1.
Definition IP_PROTOCOL_TCP : Z := 6.
Definition IP_PROTOCOL_UDP : Z := 17.
Definition ICMP_ER : Z := 0.
Definition ICMP_ECHO : Z := 8.

Section ip.
Context (kpage : nat → Z * list Z) (kmalloc : nat → Z * Z).

Definition ip_output (netif pbuf dst proto len : Z) : ST net Z :=
  do! put 1 pbuf i_header 0x45;
  do! put 1 pbuf i_frag 0;
  do! put 1 pbuf i_offset1 0;
  do! put 1 pbuf i_tos 0;
  do! put 2 pbuf i_id 0;
  do! put 1 pbuf i_ttl IP_TTL;
  do! put 1 pbuf i_proto proto;
  let length := u16 (sizeof_ip + len) in
  do! put 2 pbuf i_length (Chksum.htons length);
  do! put 4 pbuf i_dst dst;
  let* n := the_netif netif in
  do! put 4 pbuf i_src (ipaddr n);
  do! put 2 pbuf i_chksum 0;
  do! (if Z.land (flags n) NETIF_IP_TX_CHECKSUM_OFFLOAD =? 0 then
         let* l := get_bytes pbuf sizeof_eth sizeof_ip in
         let* c := st_lift (Chksum.ip_chksum l) in
         put 2 pbuf i_chksum c
       else st_ret tt);
  let* d := get 4 pbuf i_dst in
  arp_eth_output kpage kmalloc netif pbuf d ETH_TYPE_IP length.

(** ** [icmp.c] *)
Definition icmp_echo_reply (netif pbuf : Z) : ST net Z :=
  let* dst := get 4 pbuf i_dst in
  let* n := the_netif netif in
  if Addr.ip_addr_isbroadcast dst (netmask n) || Addr.ip_addr_ismulticast dst then st_ret (- EPROTO)
  else if negb (Addr.ip_addr_cmp dst (ipaddr n)) then st_ret (- EPROTO)
  else
    do! put 1 pbuf c_type ICMP_ER;
    do! put 2 pbuf c_chksum 0;
    let* total := get 2 pbuf i_length in
    let len := u16 (total - sizeof_ip) in
    let* l := get_bytes pbuf (sizeof_eth + sizeof_ip) len in
    let* c := st_lift (Chksum.ip_chksum l) in
    do! put 2 pbuf c_chksum c;
    do! count_up pbuf;
    let* src := get 4 pbuf i_src in
    ip_output netif pbuf src IP_PROTOCOL_ICMP len.

Definition icmp_input (netif pbuf : Z) : ST net Z :=
  let* type := get 1 pbuf c_type in
  if type =? ICMP_ECHO then icmp_echo_reply netif pbuf else st_ret EOK.

(** "Onix icmp echo 1234567890 asdfghjkl;'" with its terminator *)
Definition message : list Z :=
  [79; 110; 105; 120; 32; 105; 99; 109; 112; 32; 101; 99; 104; 111; 32; 49; 50; 51; 52; 53; 54; 55; 56; 57; 48; 32;
   97; 115; 100; 102; 103; 104; 106; 107; 108; 59; 39; 0].

Definition icmp_echo (netif pbuf dst : Z) : ST net Z :=
  do! put 1 pbuf c_code 0;
  do! put 1 pbuf c_type ICMP_ECHO;
  do! put 2 pbuf c_id 1;
  do! put 2 pbuf c_seq 1;
  do! put_bytes pbuf (sizeof_eth + sizeof_ip + sizeof_icmp_echo) message;
  let len := sizeof_icmp_echo + Z.of_nat (length message) in
  do! put 2 pbuf c_chksum 0;
  let* l := get_bytes pbuf (sizeof_eth + sizeof_ip) len in
  let* c := st_lift (Chksum.ip_chksum l) in
  do! put 2 pbuf c_chksum c;
  ip_output netif pbuf dst IP_PROTOCOL_ICMP len.
End ip.

(** ** Properties *)

(** An IP packet in a frame, with a checksum that verifies. *)
Record ip_frame (hwdst hwsrc : list Z) (src dst proto len : Z) (m : list Z) : Prop := {
  if_hwdst : bytes_at e_dst 6 m = hwdst; if_hwsrc : bytes_at e_src 6 m = hwsrc;
  if_type : fld 2 e_type m = Chksum.htons ETH_TYPE_IP;
  if_header : fld 1 i_header m = 0x45; if_frag : fld 1 i_frag m = 0; if_ttl : fld 1 i_ttl m = IP_TTL;
  if_proto : fld 1 i_proto m = proto; if_length : fld 2 i_length m = Chksum.htons (sizeof_ip + len);
  if_src : fld 4 i_src m = src; if_dst : fld 4 i_dst m = dst;
  if_sum : Chksum.ip_chksum (bytes_at sizeof_eth sizeof_ip m) = Ok 0 }.

Lemma ip_frame_same k hwdst hwsrc src dst proto len m m' : same k m m' → 34 ≤ k →
  ip_frame hwdst hwsrc src dst proto len m → ip_frame hwdst hwsrc src dst proto len m'.
Proof.
  intros Hs Hk []. split; (rewrite (fld_same k m m') || rewrite (bytes_same k m m')); by (done || offsets; lia).
Qed.

(** The memory of a buffer. *)
Definition whole (m : list Z) : Prop := Z.of_nat (length m) = MEM ∧ Forall Chksum.byte m.

(** Packets for [addr] leave on the interface [netif] for the hardware address [hw],
    which is known, and the interface computes no checksum. *)
Record routed (s : net) (netif : Z) (n : netif_t) (addr : Z) (hw : list Z) (a : Z) (e : arp_entry_t) (q : Z) : Prop := {
  ro_netif : netifs s !! netif = Some n; ro_loop : Z.land (flags n) NETIF_LOOPBACK = 0;
  ro_sum : Z.land (flags n) NETIF_IP_TX_CHECKSUM_OFFLOAD = 0;
  ro_own : find_netif (λ n, Addr.ip_addr_cmp (ipaddr n) addr) (netif_list s) (netifs s) = Ok None;
  ro_hop : q = if Addr.ip_addr_maskcmp (ipaddr n) addr (netmask n) then addr else gateway n;
  ro_some : q ≠ 0; ro_found : find_entry q netif (arp_entry_list s) (arps s) = Ok (Some a); ro_entry : arps s !! a = Some e;
  ro_fresh : now s < expires e; ro_hw : ahwaddr e = hw; ro_len : length hw = 6%nat; ro_src : length (hwaddr n) = 6%nat;
  ro_hwb : Forall Chksum.byte hw; ro_srcb : Forall Chksum.byte (hwaddr n);
  ro_ip : 0 ≤ ipaddr n < 2 ^ 32; ro_dst : 0 ≤ addr < 2 ^ 32 }.

Section sending.
Context (E : stop → Prop) (kpage : nat → Z * list Z) (kmalloc : nat → Z * Z).
Context (s : net) (netif : Z) (n : netif_t) (addr : Z) (hw : list Z) (a : Z) (e : arp_entry_t) (q : Z).
Context (R : routed s netif n addr hw a e q) (b : Z) (Hb : b ∉ tx_pbuf_list n).

(** The state when [b] is in the queue of the interface. *)
Definition sent : net :=
  s <| arps $= <[a := e <| used $= λ u, u32 (u + 1) |>]> |> <| netifs $= <[netif := transmit [b] n]> |> <| neto_waiting := false |>.

Lemma wp_arp_eth_output l c m type len (Q : Z → net → Prop) : Z.of_nat (length m) = MEM →
  Q EOK (pb b (mk_pbuf (u32 (sizeof_eth + len)) c (upd e_dst hw (upd e_src (hwaddr n) (upd e_type (le_bytes 2 (Chksum.htons type)) m)))) sent) →
  wp E (arp_eth_output kpage kmalloc netif b addr type len) Q (pb b (mk_pbuf l c m) s).
Proof using R Hb.
  destruct R as [Hn Hl _ Ho Hq H0 Hf He Ht Hh Hlen Hs _ _ _ _]. intros Hm HQ. unfold arp_eth_output.
  do 2 frame_step. frame_step. eapply wp_the_netif; [done|]. do 2 frame_step. frame_step. apply wp_mod_pbuf. rewrite Hl. cbn [negb Z.eqb].
  apply wp_bind. unfold ip_addr_isown, search_netif. apply wp_bind, wp_bind, wp_get. eapply wp_lift; [exact Ho|]. apply wp_ret.
  apply wp_bind. unfold arp_lookup. apply wp_bind. eapply wp_the_netif; [done|].
  replace (if negb (Addr.ip_addr_maskcmp (ipaddr n) addr (netmask n)) then gateway n else addr) with q by (rewrite Hq; by case_match).
  cbn [Addr.ip_addr_isany]. rewrite (proj2 (Z.eqb_neq _ _)) by done. apply wp_bind, wp_get, wp_bind. eapply wp_lift; [exact Hf|]. apply wp_ret.
  apply wp_bind. eapply wp_the_arp; [done|]. apply wp_bind, wp_gets. rewrite (proj2 (Z.ltb_lt _ _)) by done.
  apply wp_bind. eapply wp_mod_arp; [done|]. rewrite Hh.
  set (s1 := _ <| arps $= _ |>).
  assert (s1 = pb b (mk_pbuf (u32 (sizeof_eth + len)) c (upd e_src (hwaddr n) (upd e_type (le_bytes 2 (Chksum.htons type)) m)))
    (s <| arps $= <[a := e <| used $= λ u, u32 (u + 1) |>]> |>)) as -> by done.
  do 2 frame_step. frame_step. eapply wp_netif_output; [done|done|]. apply wp_ret. exact HQ.
Qed.

(** [ip_output] writes the header and leaves the bytes behind it alone. *)
Lemma wp_ip_output l c m proto len (Q : Z → net → Prop) : Z.of_nat (length m) = MEM → Forall Chksum.byte m →
  0 ≤ proto < 256 → 0 ≤ len < 65516 →
  (∀ m', whole m' → ip_frame hw (hwaddr n) (ipaddr n) addr proto len m' →
     (∀ off k, 34 ≤ off → 0 ≤ k → bytes_at off k m' = bytes_at off k m) →
     Q EOK (pb b (mk_pbuf (34 + len) c m') sent)) →
  wp E (ip_output kpage kmalloc netif b addr proto len) Q (pb b (mk_pbuf l c m) s).
Proof using R Hb.
  intros Hm Hbm Hp Hlen HQ. unfold ip_output. do 18 frame_step. frame_step. eapply wp_the_netif; [apply R|].
  do 4 frame_step.
  match goal with |- wp _ _ _ (pb b (mk_pbuf l c ?x) s) => set (m1 := x) end.
  assert (Z.of_nat (length m1) = MEM) as Hm1 by (unfold m1; by rewrite !length_upd).
  assert (Forall Chksum.byte m1) as Hb1 by (unfold m1; repeat (apply upd_byte; [apply le_bytes_range|]); done).
  destruct (ip_sum sizeof_eth sizeof_ip i_chksum m1) as (k & Hk1 & Hk2 & Hk3); [done|done|done|done|done|by rewrite Hm1|unfold m1; fields; done|].
  apply wp_bind. rewrite (ro_sum _ _ _ _ _ _ _ _ R). cbn [Z.eqb]. do 2 frame_step. frame_step. eapply wp_lift; [exact Hk1|].
  frame_step. do 2 frame_step.
  replace (fld 4 i_dst _) with addr.
  2: { fields. unfold m1. fields. symmetry. apply Z.mod_small. apply R. }
  eapply wp_arp_eth_output; [by rewrite length_upd|].
  rewrite u16_small by (offsets; lia). rewrite u32_small by (offsets; lia).
  replace (sizeof_eth + (sizeof_ip + len)) with (34 + len) by (offsets; lia). apply HQ.
  - split; [by rewrite !length_upd|]. destruct R. repeat (apply upd_byte; [first [done|apply le_bytes_range]|]). done.
  - destruct R. split; try by (unfold m1; fields; rewrite ?Z.mod_small by lia; done).
    unfold m1. fields. rewrite u16_small by (offsets; lia). apply Z.mod_small, Chksum.htons_range. offsets. lia.
  - destruct R. intros off j Ho Hj. unfold m1. fields. done.
Qed.
End sending.

(** ** ICMP *)

(** An ICMP message of [len] bytes that verifies. *)
Record icmp_message (type len : Z) (m : list Z) : Prop := {
  im_type : fld 1 c_type m = type; im_sum : Chksum.ip_chksum (bytes_at 34 len m) = Ok 0 }.

Lemma icmp_message_same k type len m m' : (∀ off k, 34 ≤ off → 0 ≤ k → bytes_at off k m' = bytes_at off k m) ∨ same k m m' →
  34 + len ≤ k → 1 ≤ len → icmp_message type len m → icmp_message type len m'.
Proof.
  intros H Hk Hl [Ht Hs]. assert (bytes_at 34 len m' = bytes_at 34 len m) as E1.
  { destruct H as [H|H]; [by apply H; lia|]. by rewrite (bytes_same k m m') by (done || lia). }
  assert (fld 1 c_type m' = fld 1 c_type m) as E2.
  { destruct H as [H|H]; [unfold fld; rewrite H; by (done || offsets; lia)|]. by rewrite (fld_same k m m') by (done || offsets; lia). }
  split; congruence.
Qed.

(** What [ip_input] has changed in a packet it passes on. *)
Record accepted (len : Z) (m m2 : list Z) : Prop := {
  ac_size : Z.of_nat (length m2) = MEM; ac_length : fld 2 i_length m2 = sizeof_ip + len;
  ac_src : fld 4 i_src m2 = fld 4 i_src m; ac_dst : fld 4 i_dst m2 = fld 4 i_dst m;
  ac_rest : ∀ off k, 34 ≤ off → 0 ≤ k → bytes_at off k m2 = bytes_at off k m; ac_bytes : Forall Chksum.byte m2 }.

Section replying.
Context (E : stop → Prop) (kpage : nat → Z * list Z) (kmalloc : nat → Z * Z).
Context (s : net) (netif : Z) (n : netif_t) (addr : Z) (hw : list Z) (a : Z) (e : arp_entry_t) (q : Z).
Context (R : routed s netif n addr hw a e q) (b : Z) (Hb : b ∉ tx_pbuf_list n).

(** [icmp_echo] sends a request. *)
Lemma wp_icmp_echo l c m (Q : Z → net → Prop) : Z.of_nat (length m) = MEM → Forall Chksum.byte m →
  (∀ m', whole m' → ip_frame hw (hwaddr n) (ipaddr n) addr IP_PROTOCOL_ICMP 46 m' → icmp_message ICMP_ECHO 46 m' →
     bytes_at 42 38 m' = message →
     Q EOK (pb b (mk_pbuf 80 c m') (sent s netif n a e b))) →
  wp E (icmp_echo kpage kmalloc netif b addr) Q (pb b (mk_pbuf l c m) s).
Proof using R Hb.
  intros Hm Hbm HQ. unfold icmp_echo. do 8 frame_step. frame_step.
  assert (length message = 38%nat) as Hmsg by done.
  apply wp_put_bytes; [done|in_frame|]. do 2 frame_step.
  match goal with |- wp _ _ _ (pb b (mk_pbuf l c ?x) s) => set (m1 := x) end.
  assert (Z.of_nat (length m1) = MEM) as Hm1 by (unfold m1; by rewrite !length_upd).
  assert (Forall Chksum.byte m1) as Hb1.
  { unfold m1. repeat (apply upd_byte; [first [apply le_bytes_range | by apply (bool_decide_unpack _); vm_compute]|]). done. }
  destruct (ip_sum 34 46 c_chksum m1) as (k & Hk1 & Hk2 & Hk3); [done|done|done|done|done|by rewrite Hm1|unfold m1; fields; done|].
  do 2 frame_step. frame_step. eapply wp_lift; [exact Hk1|]. do 2 frame_step.
  eapply wp_ip_output; [exact R|done|by rewrite length_upd|by apply upd_byte; [apply le_bytes_range|]|done|done|].
  intros m' Hm' Hf Hr. apply HQ; [done|exact Hf| |].
  - apply (icmp_message_same 100 ICMP_ECHO 46 _ m' (or_introl Hr)); [lia|lia|]. split; [|exact Hk3].
    unfold m1. fields. done.
  - rewrite Hr by lia. unfold m1. fields. done.
Qed.

(** The answer to a request of any length that the buffer holds. *)
Lemma wp_icmp_echo_reply m0 len l c m (Q : Z → net → Prop) : accepted len m0 m →
  8 ≤ len → 34 + len ≤ MEM → fld 1 c_type m0 = ICMP_ECHO → fld 4 i_src m0 = addr → fld 4 i_dst m0 = ipaddr n →
  Addr.ip_addr_isbroadcast (ipaddr n) (netmask n) = false → Addr.ip_addr_ismulticast (ipaddr n) = false →
  (∀ m', whole m' → ip_frame hw (hwaddr n) (ipaddr n) addr IP_PROTOCOL_ICMP len m' → icmp_message ICMP_ER len m' →
     bytes_at 38 (len - 4) m' = bytes_at 38 (len - 4) m0 → bytes_at c_code 1 m' = bytes_at c_code 1 m0 →
     Q EOK (pb b (mk_pbuf (34 + len) (u32 (c + 1)) m') (sent s netif n a e b))) →
  wp E (icmp_input kpage kmalloc netif b) Q (pb b (mk_pbuf l c m) s).
Proof using R Hb.
  intros [Hm Hlen Hsrc Hdst Hrest Hbm] H8 Hl Ht Hs Hd Hbc Hmc HQ. unfold MEM in Hl. unfold icmp_input. do 2 frame_step.
  assert (fld 1 c_type m = ICMP_ECHO) as -> by (unfold fld; rewrite Hrest by done; done). cbn [Z.eqb ICMP_ECHO Pos.eqb].
  unfold icmp_echo_reply. do 2 frame_step. rewrite Hdst, Hd. frame_step. eapply wp_the_netif; [apply R|]. rewrite Hbc, Hmc.
  unfold Addr.ip_addr_cmp. rewrite Z.eqb_refl. cbn [orb negb]. do 4 frame_step.
  match goal with |- wp _ _ _ (pb b (mk_pbuf l c ?x) s) => set (m1 := x) end.
  assert (Z.of_nat (length m1) = MEM) as Hm1 by (unfold m1; by rewrite !length_upd).
  assert (Forall Chksum.byte m1) as Hb1.
  { unfold m1. repeat (apply upd_byte; [apply le_bytes_range|]). done. }
  do 2 frame_step. replace (fld 2 i_length m1) with (sizeof_ip + len) by (unfold m1; fields; done).
  replace (u16 (sizeof_ip + len - sizeof_ip)) with len by (rewrite u16_small; offsets; lia).
  destruct (ip_sum 34 len c_chksum m1) as (k & Hk1 & Hk2 & Hk3); [done|done|done|done|offsets; lia|rewrite Hm1; offsets; lia|unfold m1; fields; done|].
  frame_step. apply wp_get_bytes; [done|lia|rewrite Hm1; offsets; lia|]. frame_step. eapply wp_lift; [exact Hk1|]. do 2 frame_step.
  frame_step. apply wp_mod_pbuf. change (mk_pbuf l c ?x <| pcount $= ?f |>) with (mk_pbuf l (f c) x). cbv beta.
  do 2 frame_step. replace (fld 4 i_src _) with addr by (unfold m1; fields; congruence).
  eapply wp_ip_output; [exact R|done|by rewrite length_upd|by apply upd_byte; [apply le_bytes_range|]|done|lia|].
  intros m' Hm' Hf Hr. apply HQ; [done|exact Hf| | |].
  - apply (icmp_message_same 2008 ICMP_ER len _ m' (or_introl Hr)); [lia|lia|]. split; [|exact Hk3].
    unfold m1. fields. done.
  - rewrite Hr by lia. unfold m1. fields. apply Hrest; lia.
  - rewrite Hr by (offsets; lia). unfold m1. fields. apply Hrest; offsets; lia.
Qed.
End replying.
