(* ===== verification/Udp.v ===== *)
(** * UDP sockets ([src/src/net/udp.c])

    An operation that blocks is split at [task_block], as those of TCP are: the
    first part answers [Blocked], the second is given the reason [task_block]
    returned.  A name of [msghdr_t] is an address and a port in network order. *)
From S2P Require Import Prelude Bytes Dlist Net Frame Arp Ip Iovec.
From S2P Require Addr Chksum Port.
Open Scope Z_scope.

Definition UDP_FLAG_NOCHKSUM : Z := 0x01.
Definition UDP_FLAG_BROADCAST : Z := 0x02.
Definition UDP_FLAG_CONNECTED : Z := 0x04.

Section udp.
Context (kpage : nat → Z * list Z) (kmalloc : nat → Z * Z).

Definition udp_socket : ST net Z :=
  let* n := st_gets blocks in
  let '(a, _) := kmalloc n in
  let* l := st_gets udp_pcb_list in
  let* l := st_lift (list_push a l) in
  do! st_mod (λ s, s <| blocks $= S |> <| udp_pcb_list := l |> <| udps $= <[a := mk_udp 0 0 0 0 0 [] None]> |>);
  st_ret a.

Definition port_take (port : Z) : ST net Z :=
  let* m := st_gets udp_map in
  let* (r, m) := st_lift (Port.port_get m port) in
  do! st_mod (λ s, s <| udp_map := m |>);
  st_ret r.

(** [assert(pbuf->count == 1)] *)
Fixpoint put_received (fuel : nat) (l : list Z) : ST net unit :=
  match l with
  | [] => st_ret tt
  | _ =>
      match fuel with
      | O => st_stop Fuel
      | S fuel' =>
          let* (b, l) := st_lift (list_popback l) in
          let* p := the_pbuf b in
          do! st_check (pcount p =? 1);
          do! pbuf_put b;
          put_received fuel' l
      end
  end.

Definition udp_close (a : Z) : ST net Z :=
  let* p := the_udp a in
  do! put_received (length (udp_rx p)) (udp_rx p);
  let* l := st_gets udp_pcb_list in
  let* l := st_lift (list_remove a l) in
  do! st_mod (λ s, s <| udp_pcb_list := l |>);
  do! (if negb (lport p =? 0) then
         let* m := st_gets udp_map in
         let* m := st_lift (Port.port_put m (lport p)) in
         st_mod (λ s, s <| udp_map := m |>)
       else st_ret tt);
  do! st_mod (λ s, s <| udps $= delete a |>);
  st_ret EOK.

Definition udp_bind (a addr port : Z) : ST net Z :=
  let* bad := (if Addr.ip_addr_isany (Some addr) then st_ret false else let* own := ip_addr_isown addr in st_ret (negb own)) in
  if (bad : bool) then st_ret (- EADDR)
  else
    do! mod_udp a (λ p, p <| laddr := addr |>);
    let* ret := port_take (Chksum.htons port) in
    if ret <? 0 then st_ret ret
    else do! mod_udp a (λ p, p <| lport := u16 ret |>); st_ret EOK.

Definition udp_connect (a addr port : Z) : ST net Z :=
  do! mod_udp a (λ p, p <| raddr := addr |> <| rport := Chksum.htons port |> <| uflags $= λ f, Z.lor f UDP_FLAG_CONNECTED |>);
  let* p := the_udp a in
  do! (if lport p =? 0 then let* r := port_take 0 in mod_udp a (λ p, p <| lport := u16 r |>) else st_ret tt);
  st_ret EOK.

(** The address and the port that the name is filled with. *)
Definition udp_getpeername (a : Z) : ST net (Z * Z) :=
  let* p := the_udp a in st_ret (raddr p, Chksum.htons (rport p)).
Definition udp_getsockname (a : Z) : ST net (Z * Z) :=
  let* p := the_udp a in st_ret (laddr p, Chksum.htons (lport p)).

Definition udp_matches (src sport dst dport : Z) (p : udp_pcb_t) : bool :=
  if negb (rport p =? sport) then false
  else if negb (lport p =? dport) then false
  else if negb (Addr.ip_addr_isany (Some (raddr p))) && negb (Addr.ip_addr_cmp (raddr p) src) then false
  else if negb (Addr.ip_addr_isany (Some (laddr p))) && negb (Addr.ip_addr_cmp (laddr p) dst) then false
  else true.

Fixpoint find_udp_pcb (src sport dst dport : Z) (l : list Z) (m : gmap Z udp_pcb_t) : res (option Z) :=
  match l with
  | [] => Ok None
  | a :: l' =>
      let! p := deref (m !! a) in
      if udp_matches src sport dst dport p then Ok (Some a) else find_udp_pcb src sport dst dport l' m
  end.

(** [udp_recvmsg] up to [task_block] and after it.  The result has the vectors and
    the sender. *)
Definition udp_take (a : Z) (iov : list iovec_t) : ST net (Z * list iovec_t * option (Z * Z)) :=
  let* p := the_udp a in
  let* (b, l) := st_lift (list_popback (udp_rx p)) in
  do! mod_udp a (λ p, p <| udp_rx := l |>);
  let* len := get 2 b u_length in
  let* bytes := get_bytes b (sizeof_eth + sizeof_ip + sizeof_udp) (u16 (Chksum.htons len - sizeof_udp)) in
  let '(iov, ret) := iovec_write iov bytes in
  let* sport := get 2 b u_sport in
  let* src := get 4 b i_src in
  do! pbuf_put b;
  st_ret (ret, iov, Some (src, sport)).

Definition udp_recvmsg (task a : Z) (iov : list iovec_t) : ST net (outcome (Z * list iovec_t * option (Z * Z))) :=
  let* p := the_udp a in
  match udp_rx p with
  | [] => do! mod_udp a (λ p, p <| udp_waiter := Some task |>); st_ret Blocked
  | _ => let* r := udp_take a iov in st_ret (Returned r)
  end.

Definition udp_recvmsg_woken (ret a : Z) (iov : list iovec_t) : ST net (Z * list iovec_t * option (Z * Z)) :=
  do! mod_udp a (λ p, p <| udp_waiter := None |>);
  if negb (ret =? EOK) then st_ret (ret, iov, None) else udp_take a iov.

(** The datagram goes to the address of the control block; [dst] is only checked. *)
Definition udp_output (netif a pbuf : Z) (dst : option Z) (dport len : Z) : ST net Z :=
  let* p := the_udp a in
  let dst := default (raddr p) dst in
  if Addr.ip_addr_isany (Some dst) then st_ret (- EADDR)
  else
    let dport := if dport =? 0 then rport p else dport in
    if dport =? 0 then st_ret (- ENOTCONN)
    else
      let* n := the_netif netif in
      if Addr.ip_addr_isbroadcast dst (netmask n) && (Z.land (uflags p) UDP_FLAG_BROADCAST =? 0) then st_ret (- EACCES)
      else
        do! put 2 pbuf u_sport (Chksum.htons (lport p));
        do! put 2 pbuf u_dport (Chksum.htons dport);
        let src := if Addr.ip_addr_isany (Some (laddr p)) then ipaddr n else laddr p in
        let length := u16 (len + sizeof_udp) in
        do! put 2 pbuf u_length (Chksum.htons length);
        do! put 2 pbuf u_chksum 0;
        do! (if Z.land (flags n) NETIF_UDP_TX_CHECKSUM_OFFLOAD =? 0 then
               let* l := get_bytes pbuf (sizeof_eth + sizeof_ip) length in
               let* c := st_lift (Chksum.inet_chksum l length src (raddr p) IP_PROTOCOL_UDP) in
               put 2 pbuf u_chksum c
             else st_ret tt);
        ip_output kpage kmalloc netif pbuf (raddr p) IP_PROTOCOL_UDP length.

Definition udp_sendmsg (a : Z) (iov : list iovec_t) (nm : option (Z * Z)) : ST net (Z * list iovec_t) :=
  let size := iovec_size iov in
  if IP_MTU - sizeof_ip - sizeof_udp <? size then st_ret (- EMSGSIZE, iov)
  else
    let* p := the_udp a in
    let* ret := (if lport p =? 0 then udp_bind a 0 0 else st_ret EOK) in
    if ret <? EOK then st_ret (ret, iov)
    else
      let* b := pbuf_get kpage in
      let '(iov, bytes) := iovec_read iov (Z.to_nat size) in
      do! put_bytes b (sizeof_eth + sizeof_ip + sizeof_udp) bytes;
      let len := Z.of_nat (length bytes) in
      let* p := the_udp a in
      let* ret :=
        match nm with
        | Some (addr, port) =>
            let* r := netif_route addr in
            let* n := st_deref (λ _, r) in
            udp_output n a b (Some addr) (Chksum.htons port) (u16 len)
        | None =>
            let* r := netif_route (raddr p) in
            let* n := st_deref (λ _, r) in
            udp_output n a b None 0 (u16 len)
        end in
      if ret <? EOK then st_ret (ret, iov) else st_ret (size, iov).

Definition udp_input (netif pbuf : Z) : ST net Z :=
  let* sport := get 2 pbuf u_sport in
  do! put 2 pbuf u_sport (Chksum.htons sport);
  let* dport := get 2 pbuf u_dport in
  do! put 2 pbuf u_dport (Chksum.htons dport);
  let* src := get 4 pbuf i_src in
  let* sport := get 2 pbuf u_sport in
  let* dst := get 4 pbuf i_dst in
  let* dport := get 2 pbuf u_dport in
  let* s := st_get in
  let* r := st_lift (find_udp_pcb src sport dst dport (udp_pcb_list s) (udps s)) in
  match r with
  | None => st_ret (- EADDR)
  | Some a =>
      do! count_up pbuf;
      let* p := the_udp a in
      let* l := st_lift (list_push pbuf (udp_rx p)) in
      do! mod_udp a (λ p, p <| udp_rx := l |>);
      match udp_waiter p with
      | Some t =>
          do! st_mod (λ s, s <| wakes $= λ w, w ++ [(t, EOK)] |>);
          do! mod_udp a (λ p, p <| udp_waiter := None |>);
          st_ret EOK
      | None => st_ret EOK
      end
  end.

Definition udp_init : ST net unit :=
  let* m := st_lift Port.port_init in
  st_mod (λ s, s <| udp_pcb_list := [] |> <| udp_map := m |>).
End udp.

(** ** Properties *)

(** A datagram with the payload [data]; the checksum is over the addresses too. *)
Record udp_message (sport dport src dst : Z) (data m : list Z) : Prop := {
  um_sport : fld 2 u_sport m = Chksum.htons sport; um_dport : fld 2 u_dport m = Chksum.htons dport;
  um_length : fld 2 u_length m = Chksum.htons (sizeof_udp + Z.of_nat (length data));
  um_data : bytes_at 42 (Z.of_nat (length data)) m = data;
  um_sum : Chksum.inet_chksum (bytes_at 34 (sizeof_udp + Z.of_nat (length data)) m)
             (sizeof_udp + Z.of_nat (length data)) src dst IP_PROTOCOL_UDP = Ok 0 }.

Lemma udp_message_rest k sport dport src dst data m m' :
  (∀ off j, 34 ≤ off → 0 ≤ j → off + j ≤ k → bytes_at off j m' = bytes_at off j m) → 42 + Z.of_nat (length data) ≤ k →
  udp_message sport dport src dst data m → udp_message sport dport src dst data m'.
Proof.
  intros H Hk []. split; unfold fld in *; rewrite H; by (done || offsets; lia).
Qed.

(** A connected control block: [netif] is the interface for its peer. *)
Definition route_of (s : net) (addr : Z) : res (option Z) :=
  let! r := find_netif (λ n, Addr.ip_addr_maskcmp addr (ipaddr n) (netmask n) && negb (Addr.ip_addr_isany (Some (ipaddr n))))
              (netif_list s) (netifs s) in
  match r with Some a => Ok (Some a) | None => find_netif (λ n, index n =? 1) (netif_list s) (netifs s) end.

Lemma wp_netif_route E s addr r (Q : option Z → net → Prop) : route_of s addr = Ok r → Q r s → wp E (netif_route addr) Q s.
Proof.
  unfold route_of, netif_route, search_netif. intros H HQ. apply wp_bind, wp_bind, wp_get.
  destruct (find_netif _ _ _) as [x|] eqn:Ef in H; [|done]. cbn [res_bind] in H. eapply wp_lift; [exact Ef|].
  destruct x; [injection H as [= <-]; by apply wp_ret|]. unfold netif_get, search_netif. apply wp_bind, wp_get. by eapply wp_lift.
Qed.

Record connected (s : net) (a : Z) (p : udp_pcb_t) (netif : Z) (n : netif_t) : Prop := {
  co_pcb : udps s !! a = Some p; co_lport : 0 < lport p < 65536; co_rport : 0 < rport p < 65536; co_some : raddr p ≠ 0;
  co_laddr : laddr p = 0 ∨ laddr p = ipaddr n; co_route : route_of s (raddr p) = Ok (Some netif);
  co_notall : Addr.ip_addr_isbroadcast (raddr p) (netmask n) = false; co_sum : Z.land (flags n) NETIF_UDP_TX_CHECKSUM_OFFLOAD = 0 }.

Section output.
Context (E : stop → Prop) (kpage : nat → Z * list Z) (kmalloc : nat → Z * Z).
Context (s : net) (netif : Z) (n : netif_t) (a : Z) (p : udp_pcb_t) (hw : list Z) (x : Z) (e : arp_entry_t) (q : Z).
Context (R : routed s netif n (raddr p) hw x e q) (C : connected s a p netif n) (b : Z) (Hb : b ∉ tx_pbuf_list n).

Lemma wp_udp_output l c m data (Q : Z → net → Prop) : whole m → Z.of_nat (length data) ≤ 1472 →
  bytes_at 42 (Z.of_nat (length data)) m = data →
  (∀ m', whole m' → ip_frame hw (hwaddr n) (ipaddr n) (raddr p) IP_PROTOCOL_UDP (sizeof_udp + Z.of_nat (length data)) m' →
     udp_message (lport p) (rport p) (ipaddr n) (raddr p) data m' →
     Q EOK (pb b (mk_pbuf (42 + Z.of_nat (length data)) c m') (sent s netif n x e b))) →
  wp E (udp_output kpage kmalloc netif a b None 0 (Z.of_nat (length data))) Q (pb b (mk_pbuf l c m) s).
Proof using R C Hb.
  destruct C as [Hp Hlp Hrp H0 Hla _ Hbc Hsum]. intros [Hm Hbm] Hlen Hdata HQ. set (len := Z.of_nat (length data)) in *.
  unfold udp_output. apply wp_bind. eapply wp_deref; [exact Hp|]. cbn [default Addr.ip_addr_isany].
  rewrite (proj2 (Z.eqb_neq _ _)) by done. cbn [Z.eqb]. rewrite (proj2 (Z.eqb_neq (rport p) 0)) by lia.
  apply wp_bind. eapply wp_the_netif; [apply R|]. rewrite Hbc. cbn [andb].
  replace (if laddr p =? 0 then ipaddr n else laddr p) with (ipaddr n) by (destruct Hla as [-> | ->]; [done|by case_match]).
  do 8 frame_step. rewrite (u16_small (len + sizeof_udp)) by (offsets; lia). rewrite (Z.add_comm len).
  match goal with |- wp _ _ _ (pb b (mk_pbuf l c ?y) s) => set (m1 := y) end.
  assert (Z.of_nat (length m1) = MEM) as Hm1 by (unfold m1; by rewrite !length_upd).
  assert (Forall Chksum.byte m1) as Hb1.
  { unfold m1. repeat (apply upd_byte; [apply le_bytes_range|]). done. }
  rewrite Hsum. cbn [Z.eqb]. frame_step. frame_step. frame_step.
  destruct (inet_sum 34 (sizeof_udp + len) u_chksum m1 Hb1) with (len := sizeof_udp + len) (dst := ipaddr n) (src := raddr p) (proto := IP_PROTOCOL_UDP)
    as (k & Hk1 & Hk2 & Hk3); [done|done|done|offsets; lia|rewrite Hm1; offsets; lia|unfold m1; fields; done|offsets; lia|apply R|apply R|done|].
  frame_step. eapply wp_lift; [exact Hk1|]. frame_step.
  eapply wp_ip_output; [exact R|done|by rewrite length_upd|by apply upd_byte; [apply le_bytes_range|]|done|offsets; lia|].
  intros m' Hm' Hf Hr. replace (34 + (sizeof_udp + len)) with (42 + len) by (offsets; lia). apply HQ; [done|exact Hf|].
  apply (udp_message_rest 2008 _ _ _ _ _ (upd u_chksum (le_bytes 2 k) m1)); [intros; by apply Hr|fold len; lia|]. fold len. split; fold len; try exact Hk3.
  - unfold m1. fields. apply Z.mod_small, Chksum.htons_range. lia.
  - unfold m1. fields. apply Z.mod_small, Chksum.htons_range. lia.
  - unfold m1. fields. apply Z.mod_small, Chksum.htons_range. offsets. lia.
  - unfold m1. fields. done.
Qed.
End output.

(** The state when the pool has given the buffer [b]. *)
Definition drawn (s : net) : net :=
  s <| free_pbuf_list := removelast (free_pbuf_list s) |> <| free_count := u32 (free_count s - 1) |>.

Lemma wp_udp_sendmsg E kpage kmalloc s netif n a p hw x e q b pb0 iov (Q : Z * list iovec_t → net → Prop) :
  routed s netif n (raddr p) hw x e q → connected s a p netif n → b ∉ tx_pbuf_list n →
  last (free_pbuf_list s) = Some b → Z.land b 0x7ff = 0 → pbufs s !! b = Some pb0 → whole (pmem pb0) →
  Z.of_nat (room iov) ≤ 1472 → Forall Chksum.byte (concat (iov_mem <$> iov)) →
  (∀ m iov', whole m → ip_frame hw (hwaddr n) (ipaddr n) (raddr p) IP_PROTOCOL_UDP (sizeof_udp + Z.of_nat (room iov)) m →
     udp_message (lport p) (rport p) (ipaddr n) (raddr p) (concat (iov_mem <$> iov)) m →
     Q (Z.of_nat (room iov), iov') (pb b (mk_pbuf (42 + Z.of_nat (room iov)) 1 m) (sent (drawn s) netif n x e b))) →
  wp E (udp_sendmsg kpage kmalloc a iov None) Q s.
Proof.
  intros R C Hb Hl Hal Hp0 [Hm Hby] Hr Hd HQ. unfold udp_sendmsg. rewrite iovec_size_room by lia.
  rewrite (proj2 (Z.ltb_ge _ _)) by (unfold IP_MTU; offsets; lia).
  pose proof C as [Hp Hlp Hrp H0 Hla Hrt Hbc Hsum]. apply wp_bind. eapply wp_deref; [exact Hp|].
  rewrite (proj2 (Z.eqb_neq (lport p) 0)) by lia. apply wp_bind, wp_ret. cbn [Z.ltb Z.compare EOK].
  apply wp_bind. eapply wp_pbuf_get; [done|done|done|]. destruct pb0 as [l0 c0 m0]. cbn [pmem] in *.
  change (mk_pbuf l0 c0 m0 <| pcount := 1 |>) with (mk_pbuf l0 1 m0).
  pose proof (iovec_read_ok iov (Z.to_nat (Z.of_nat (room iov)))) as Hread. destruct (iovec_read iov _) as [iov' bytes].
  destruct Hread as [-> _]. rewrite take_ge by (unfold room; lia).
  set (data := concat (iov_mem <$> iov)) in *. assert (room iov = length data) as Hroom by done. rewrite Hroom in *.
  apply wp_bind. apply wp_put_bytes; [done|offsets; lia|]. apply wp_bind. eapply wp_deref; [exact Hp|].
  apply wp_bind, wp_bind. eapply wp_netif_route; [exact Hrt|]. apply wp_bind. eapply wp_deref; [done|].
  rewrite u16_small by lia.
  assert (routed (drawn s) netif n (raddr p) hw x e q) as R' by (destruct R; by split).
  assert (connected (drawn s) a p netif n) as C' by (by split).
  eapply (wp_udp_output E kpage kmalloc (drawn s) netif n a p hw x e q R' C' b Hb _ _ _ data).
  - split; [by rewrite length_upd|by apply upd_byte].
  - done.
  - apply bytes_upd_same; [done|offsets; lia|done].
  - intros m' Hm' Hf Hu. cbn [Z.ltb Z.compare EOK]. apply wp_ret. by apply HQ.
Qed.

(** ** Input *)
Section receive.
Context (E : stop → Prop) (s : net) (b : Z).

(** A datagram for a control block goes to the head of its queue, and the task that
    waits for one is woken. *)
Lemma wp_udp_input netif a p m0 len l c m sport dport src dst (Q : Z → net → Prop) :
  accepted len m0 m → fld 2 u_sport m0 = Chksum.htons sport → fld 2 u_dport m0 = Chksum.htons dport →
  fld 4 i_src m0 = src → fld 4 i_dst m0 = dst → 0 ≤ sport < 65536 → 0 ≤ dport < 65536 →
  find_udp_pcb src sport dst dport (udp_pcb_list s) (udps s) = Ok (Some a) → udps s !! a = Some p → b ∉ udp_rx p →
  (∀ m', whole m' → fld 2 u_sport m' = sport → fld 4 i_src m' = src → fld 2 u_length m' = fld 2 u_length m0 →
     (∀ off k, 42 ≤ off → 0 ≤ k → bytes_at off k m' = bytes_at off k m0) →
     Q EOK (pb b (mk_pbuf l (u32 (c + 1)) m') (s <| udps := <[a := p <| udp_rx $= cons b |> <| udp_waiter := None |>]> (udps s) |>
              <| wakes $= λ w, w ++ match udp_waiter p with Some t => [(t, EOK)] | None => [] end |>))) →
  wp E (udp_input netif b) Q (pb b (mk_pbuf l c m) s).
Proof using.
  intros [Hm Hlen Hsrc Hdst Hrest Hby] Fs Fd Is Id Hs Hd Hfind Hp Hb HQ. unfold udp_input. do 4 frame_step.
  assert (∀ k off, 34 ≤ off → fld k off m = fld k off m0) as Hf by (intros; unfold fld; by rewrite Hrest by lia).
  rewrite (Hf 2%nat u_sport), Fs, Chksum.htons_htons by done. do 4 frame_step.
  replace (fld 2 u_dport _) with (Chksum.htons dport) by (fields; by rewrite Hf). rewrite Chksum.htons_htons by done.
  match goal with |- wp _ _ _ (pb b (mk_pbuf l c ?y) s) => set (m1 := y) end.
  assert (Z.of_nat (length m1) = MEM) as Hm1 by (unfold m1; by rewrite !length_upd).
  assert (fld 2 u_sport m1 = sport) as Fs1 by (unfold m1; fields; by apply Z.mod_small).
  assert (fld 2 u_dport m1 = dport) as Fd1 by (unfold m1; fields; by apply Z.mod_small).
  assert (fld 4 i_src m1 = src) as Is1 by (unfold m1; fields; congruence).
  assert (fld 4 i_dst m1 = dst) as Id1 by (unfold m1; fields; congruence).
  assert (fld 2 u_length m1 = fld 2 u_length m0) as Fl1 by (unfold m1; fields; by rewrite Hf).
  do 8 frame_step. rewrite Fs1, Fd1, Is1, Id1. apply wp_bind, wp_get, wp_bind. eapply wp_lift; [exact Hfind|].
  apply wp_bind. apply wp_mod_pbuf. change (mk_pbuf l c ?y <| pcount $= ?f |>) with (mk_pbuf l (f c) y). cbv beta.
  apply wp_bind. eapply wp_deref; [exact Hp|]. apply wp_bind. eapply wp_lift; [unfold list_push, Abs.mem; by rewrite bool_decide_eq_false_2|].
  assert (whole m1) as Hw. { split; [done|]. unfold m1. repeat (apply upd_byte; [apply le_bytes_range|]). done. }
  assert (∀ off k, 42 ≤ off → 0 ≤ k → bytes_at off k m1 = bytes_at off k m0) as Hr.
  { intros. unfold m1. fields. apply Hrest; lia. }
  specialize (HQ m1 Hw Fs1 Is1 Fl1 Hr).
  apply wp_bind, wp_mod. destruct (udp_waiter p) as [t|] eqn:Et.
  - apply wp_bind, wp_mod, wp_bind, wp_mod, wp_ret.
    match goal with |- Q _ ?u => match type of HQ with Q _ ?v => enough (v = u) as <-; [exact HQ|] end end.
    unfold pb. net_eq. symmetry. rewrite (alter_id_insert _ a p (udps s)) by done. by rewrite alter_insert_eq.
  - apply wp_ret.
    match goal with |- Q _ ?u => match type of HQ with Q _ ?v => enough (v = u) as <-; [exact HQ|] end end.
    unfold pb. net_eq; [|by rewrite app_nil_r]. symmetry. rewrite (alter_id_insert _ a p) by done. f_equal. destruct p; cbn in *; by subst.
Qed.

(** The oldest datagram of the queue is given to the caller and its buffer released. *)
Lemma wp_udp_recvmsg task a p rest l m data sport src iov (Q : outcome (Z * list iovec_t * option (Z * Z)) → net → Prop) :
  udps s !! a = Some p → udp_rx p = rest ++ [b] → whole m → fld 2 u_length m = Chksum.htons (sizeof_udp + Z.of_nat (length data)) →
  bytes_at 42 (Z.of_nat (length data)) m = data → Z.of_nat (length data) ≤ 1472 → fld 2 u_sport m = sport → fld 4 i_src m = src →
  Z.land b 0x7ff = 0 → b ∉ free_pbuf_list s → in_order iov →
  (∀ iov', passed iov' = passed iov ++ take (room iov) data →
     Q (Returned (Z.of_nat (Nat.min (length data) (room iov)), iov', Some (src, sport)))
       (pb b (mk_pbuf l 0 m) (s <| udps := <[a := p <| udp_rx := rest |>]> (udps s) |>
          <| free_pbuf_list := b :: free_pbuf_list s |> <| free_count $= λ n, u32 (n + 1) |>))) →
  wp E (udp_recvmsg task a iov) Q (pb b (mk_pbuf l 1 m) s).
Proof using.
  intros Hp Hrx [Hm Hby] Hl Hd Hlen Hsp Hsrc Hal Hfree Hio HQ. unfold udp_recvmsg. apply wp_bind. eapply wp_deref; [exact Hp|].
  rewrite Hrx. assert (∀ {B} (x y : B), match rest ++ [b] with [] => x | _ => y end = y) as -> by (intros; by destruct rest).
  apply wp_bind. unfold udp_take. apply wp_bind. eapply wp_deref; [exact Hp|]. rewrite Hrx. apply wp_bind.
  eapply wp_lift; [unfold list_popback; by rewrite last_snoc, removelast_last|].
  apply wp_bind, wp_mod.
  match goal with |- wp _ _ _ ?y => replace y with (pb b (mk_pbuf l 1 m) (s <| udps := <[a := p <| udp_rx := rest |>]> (udps s) |>)) end.
  2: { unfold pb. net_eq. by rewrite (alter_id_insert _ a p). }
  do 2 frame_step. rewrite Hl, Chksum.htons_htons by (offsets; lia).
  replace (u16 (sizeof_udp + Z.of_nat (length data) - sizeof_udp)) with (Z.of_nat (length data)) by (rewrite u16_small; offsets; lia).
  frame_step. apply wp_get_bytes; [done|lia|rewrite Hm; offsets; lia|].
  change (sizeof_eth + sizeof_ip + sizeof_udp) with 42. rewrite Hd. pose proof (iovec_write_ok iov data Hio) as Hw.
  destruct (iovec_write iov data) as [iov' ret]. destruct Hw as (-> & Hpass & _).
  do 4 frame_step. rewrite Hsp, Hsrc. apply wp_bind, wp_pbuf_put_last; [done|done|]. apply wp_ret, wp_ret. by apply HQ.
Qed.
End receive.

(** A control block that is not connected gets nothing from a sender that has a port. *)
Lemma unconnected_receives_nothing src sport dst dport l m a p : sport ≠ 0 →
  find_udp_pcb src sport dst dport l m = Ok (Some a) → m !! a = Some p → rport p ≠ 0.
Proof.
  intros Hs. induction l as [|x l IH]; cbn [find_udp_pcb]; [done|]. destruct (m !! x) as [px|] eqn:Ex; [|done]. cbn [deref res_bind].
  unfold udp_matches. destruct (Z.eqb_spec (rport px) sport) as [Hr|Hr]; cbn [negb]; [|by auto].
  repeat case_match; auto; intros [= ->] ?; by simplify_eq; congruence.
Qed.
