(* ===== verification/Raw.v ===== *)
(** * Raw and packet sockets ([src/src/net/raw.c], [src/src/net/pkt.c])

    Operations that block are split as those of UDP are. *)
From S2P Require Import Prelude Bytes Dlist Net Arp Ip Iovec Udp.
From S2P Require Addr Chksum.
Open Scope Z_scope.

Definition PROTO_IP : Z := 0.
Definition PROTO_ICMP : Z := 1.
Definition PROTO_TCP : Z := 6.
Definition PROTO_UDP : Z := 17.
Definition SO_NETIF : Z := 0x10000.

Section raw.
Context (kpage : nat → Z * list Z) (kmalloc : nat → Z * Z).

(** ** [raw.c] *)
Definition raw_socket (protocol : Z) : ST net Z :=
  let* n := st_gets blocks in
  let '(a, _) := kmalloc n in
  let* l := st_gets raw_pcb_list in
  let* l := st_lift (list_push a l) in
  do! st_mod (λ s, s <| blocks $= S |> <| raw_pcb_list := l |> <| raws $= <[a := mk_raw 0 0 (u16 protocol) [] None]> |>);
  st_ret a.

Definition raw_close (a : Z) : ST net Z :=
  let* p := the_raw a in
  do! put_received (length (raw_rx p)) (raw_rx p);
  let* l := st_gets raw_pcb_list in
  let* l := st_lift (list_remove a l) in
  do! st_mod (λ s, s <| raw_pcb_list := l |> <| raws $= delete a |>);
  st_ret EOK.

Definition raw_bind (a addr : Z) : ST net Z := do! mod_raw a (λ p, p <| raw_laddr := addr |>); st_ret EOK.
Definition raw_connect (a addr : Z) : ST net Z := do! mod_raw a (λ p, p <| raw_raddr := addr |>); st_ret EOK.
Definition raw_getpeername (a : Z) : ST net (Z * Z) := let* p := the_raw a in st_ret (raw_raddr p, 0).
Definition raw_getsockname (a : Z) : ST net (Z * Z) := let* p := the_raw a in st_ret (raw_laddr p, 0).

Definition raw_take (a : Z) (iov : list iovec_t) : ST net (Z * list iovec_t * option (Z * Z)) :=
  let* p := the_raw a in
  let* (b, l) := st_lift (list_popback (raw_rx p)) in
  do! mod_raw a (λ p, p <| raw_rx := l |>);
  let* q := the_pbuf b in
  let* bytes := get_bytes b sizeof_eth (u32 (plen q - sizeof_eth)) in
  let '(iov, ret) := iovec_write iov bytes in
  let* src := get 4 b i_src in
  do! pbuf_put b;
  st_ret (ret, iov, Some (src, 0)).

Definition raw_recvmsg (task a : Z) (iov : list iovec_t) : ST net (outcome (Z * list iovec_t * option (Z * Z))) :=
  let* p := the_raw a in
  match raw_rx p with
  | [] => do! mod_raw a (λ p, p <| raw_waiter := Some task |>); st_ret Blocked
  | _ => let* r := raw_take a iov in st_ret (Returned r)
  end.

Definition raw_recvmsg_woken (ret a : Z) (iov : list iovec_t) : ST net (Z * list iovec_t * option (Z * Z)) :=
  do! mod_raw a (λ p, p <| raw_waiter := None |>);
  if negb (ret =? EOK) then st_ret (ret, iov, None) else raw_take a iov.

(** The packet is the user's, its header included, which [ip_output] fills. *)
Definition raw_sendmsg (a : Z) (iov : list iovec_t) (nm : option Z) : ST net (Z * list iovec_t) :=
  let size := iovec_size iov in
  if IP_MTU <? size then st_ret (- EMSGSIZE, iov)
  else
    do! (match nm with Some addr => let* _ := raw_connect a addr in st_ret tt | None => st_ret tt end);
    let* b := pbuf_get kpage in
    let '(iov, bytes) := iovec_read iov (Z.to_nat size) in
    do! put_bytes b sizeof_eth bytes;
    let* dst := get 4 b i_dst in
    let* r := netif_route dst in
    let* n := st_deref (λ _, r) in
    let* dst := get 4 b i_dst in
    let* proto := get 1 b i_proto in
    let* ret := ip_output kpage kmalloc n b dst proto (u16 (size - sizeof_ip)) in
    if ret <? EOK then st_ret (ret, iov) else st_ret (size, iov).

Definition raw_recv (a pbuf : Z) : ST net bool :=
  let* p := the_raw a in
  let* src := get 4 pbuf i_src in
  let* dst := get 4 pbuf i_dst in
  let* proto := get 1 pbuf i_proto in
  if negb (Addr.ip_addr_isany (Some (raw_raddr p))) && negb (Addr.ip_addr_cmp (raw_raddr p) src) then st_ret false
  else if negb (Addr.ip_addr_isany (Some (raw_laddr p))) && negb (Addr.ip_addr_cmp (raw_laddr p) dst) then st_ret false
  else if negb (raw_protocol p =? PROTO_IP) && negb (raw_protocol p =? proto) then st_ret false
  else
    do! count_up pbuf;
    let* l := st_lift (list_push pbuf (raw_rx p)) in
    do! mod_raw a (λ p, p <| raw_rx := l |>);
    match raw_waiter p with
    | Some t =>
        do! st_mod (λ s, s <| wakes $= λ w, w ++ [(t, EOK)] |>);
        do! mod_raw a (λ p, p <| raw_waiter := None |>);
        st_ret true
    | None => st_ret true
    end.

Fixpoint raw_loop (l : list Z) (pbuf : Z) : ST net bool :=
  match l with
  | [] => st_ret false
  | a :: l' => let* eaten := raw_recv a pbuf in if (eaten : bool) then st_ret true else raw_loop l' pbuf
  end.

Definition raw_input (netif pbuf : Z) : ST net bool := let* l := st_gets raw_pcb_list in raw_loop l pbuf.

Definition raw_init : ST net unit := st_mod (λ s, s <| raw_pcb_list := [] |>).

(** ** [pkt.c] *)
Definition pkt_socket (protocol : Z) : ST net Z :=
  let* n := st_gets blocks in
  let '(a, _) := kmalloc n in
  let* l := st_gets pkt_pcb_list in
  let* l := st_lift (list_push a l) in
  do! st_mod (λ s, s <| blocks $= S |> <| pkt_pcb_list := l |>
        <| pkts $= <[a := mk_pkt ETH_ANY ETH_ANY None protocol [] None]> |>);
  st_ret a.

Definition pkt_close (a : Z) : ST net Z :=
  let* p := the_pkt a in
  do! put_received (length (pkt_rx p)) (pkt_rx p);
  let* l := st_gets pkt_pcb_list in
  let* l := st_lift (list_remove a l) in
  do! st_mod (λ s, s <| pkt_pcb_list := l |> <| pkts $= delete a |>);
  st_ret EOK.

Definition pkt_bind (a : Z) (addr : list Z) : ST net Z := do! mod_pkt a (λ p, p <| pkt_laddr := addr |>); st_ret EOK.
Definition pkt_connect (a : Z) (addr : list Z) : ST net Z := do! mod_pkt a (λ p, p <| pkt_raddr := addr |>); st_ret EOK.
Definition pkt_getpeername (a : Z) : ST net (list Z) := let* p := the_pkt a in st_ret (pkt_raddr p).
Definition pkt_getsockname (a : Z) : ST net (list Z) := let* p := the_pkt a in st_ret (pkt_laddr p).

Definition pkt_setsockopt (a optname optval optlen : Z) : ST net Z :=
  if optname =? SO_NETIF then
    if negb (optlen =? 4) then st_ret (- EINVAL)
    else
      let* r := netif_get optval in
      match r with
      | None => st_ret (- EINVAL)
      | Some n => do! mod_pkt a (λ p, p <| pkt_netif := Some n |>); st_ret EOK
      end
  else st_ret (- ENOSYS).

Definition pkt_take (a : Z) (iov : list iovec_t) : ST net (Z * list iovec_t) :=
  let* p := the_pkt a in
  let* (b, l) := st_lift (list_popback (pkt_rx p)) in
  do! mod_pkt a (λ p, p <| pkt_rx := l |>);
  let* q := the_pbuf b in
  let* bytes := get_bytes b 0 (plen q) in
  let '(iov, ret) := iovec_write iov bytes in
  do! pbuf_put b;
  st_ret (ret, iov).

Definition pkt_recvmsg (task a : Z) (iov : list iovec_t) : ST net (outcome (Z * list iovec_t)) :=
  let* p := the_pkt a in
  match pkt_rx p with
  | [] => do! mod_pkt a (λ p, p <| pkt_waiter := Some task |>); st_ret Blocked
  | _ => let* r := pkt_take a iov in st_ret (Returned r)
  end.

Definition pkt_recvmsg_woken (ret a : Z) (iov : list iovec_t) : ST net (Z * list iovec_t) :=
  do! mod_pkt a (λ p, p <| pkt_waiter := None |>);
  if negb (ret =? EOK) then st_ret (ret, iov) else pkt_take a iov.

Definition pkt_sendmsg (a : Z) (iov : list iovec_t) (nm : option (list Z)) : ST net (Z * list iovec_t) :=
  let* p := the_pkt a in
  match pkt_netif p with
  | None => st_ret (- EINVAL, iov)
  | Some netif =>
      let size := iovec_size iov in
      if ETH_MTU <? size then st_ret (- EMSGSIZE, iov)
      else
        do! (match nm with Some addr => let* _ := pkt_connect a addr in st_ret tt | None => st_ret tt end);
        let* b := pbuf_get kpage in
        let '(iov, bytes) := iovec_read iov (Z.to_nat size) in
        do! put_bytes b 0 bytes;
        do! mod_pbuf b (λ p, p <| plen := size |>);
        do! netif_output netif b;
        st_ret (size, iov)
  end.

(** The frame's type is already in host order. *)
Definition pkt_recv (a pbuf : Z) : ST net bool :=
  let* p := the_pkt a in
  let* src := get_bytes pbuf e_src 6 in
  let* dst := get_bytes pbuf e_dst 6 in
  let* type := get 2 pbuf e_type in
  let* proto := get 1 pbuf i_proto in
  let ip k := negb (type =? ETH_TYPE_IP) || negb (proto =? k) in
  if negb (Addr.eth_addr_isany (Some (pkt_raddr p))) && negb (Addr.eth_addr_cmp (pkt_raddr p) src) then st_ret false
  else if negb (Addr.eth_addr_isany (Some (pkt_laddr p))) && negb (Addr.eth_addr_cmp (pkt_laddr p) dst) then st_ret false
  else if (pkt_protocol p =? PROTO_IP) && negb (type =? ETH_TYPE_IP) then st_ret false
  else if (pkt_protocol p =? PROTO_ICMP) && ip IP_PROTOCOL_ICMP then st_ret false
  else if (pkt_protocol p =? PROTO_UDP) && ip IP_PROTOCOL_UDP then st_ret false
  else if (pkt_protocol p =? PROTO_TCP) && ip IP_PROTOCOL_TCP then st_ret false
  else
    do! count_up pbuf;
    let* l := st_lift (list_push pbuf (pkt_rx p)) in
    do! mod_pkt a (λ p, p <| pkt_rx := l |>);
    match pkt_waiter p with
    | Some t =>
        do! st_mod (λ s, s <| wakes $= λ w, w ++ [(t, EOK)] |>);
        do! mod_pkt a (λ p, p <| pkt_waiter := None |>);
        st_ret true
    | None => st_ret true
    end.

Fixpoint pkt_loop (l : list Z) (netif pbuf : Z) : ST net bool :=
  match l with
  | [] => st_ret false
  | a :: l' =>
      let* p := the_pkt a in
      if negb (bool_decide (pkt_netif p = Some netif)) then pkt_loop l' netif pbuf
      else let* eaten := pkt_recv a pbuf in if (eaten : bool) then st_ret true else pkt_loop l' netif pbuf
  end.

Definition pkt_input (netif pbuf : Z) : ST net bool := let* l := st_gets pkt_pcb_list in pkt_loop l netif pbuf.

Definition pkt_init : ST net unit := st_mod (λ s, s <| pkt_pcb_list := [] |>).
End raw.
