(* ===== verification/Eth.v ===== *)
(** * Input of frames ([eth_input] of [src/src/net/eth.c], [ip_input] of [ip.c],
    the tasks of [netif.c])

    [tcp_input] of TCP, which TcpInput models on the bytes of a packet, and the
    driver's [nic_output] are parameters. *)
From S2P Require Import Prelude Bytes Dlist Net Frame Arp Ip Iovec Udp Raw.
From S2P Require Addr Chksum.
Open Scope Z_scope.

Section eth.
Context (kpage : nat → Z * list Z) (kmalloc : nat → Z * Z).
Context (tcp_input : Z → Z → ST net Z) (driver_output : Z → Z → ST net unit).

Definition ip_input (netif pbuf : Z) : ST net Z :=
  let* h := get 1 pbuf i_header in
  if negb (Z.shiftr h 4 =? IP_VERSION_4) then st_ret (- EPROTO)
  else
    let* ttl := get 1 pbuf i_ttl in
    if ttl =? 0 then st_ret (- ETIME)
    else if negb (Z.land h 0xf =? sizeof_ip / 4) then st_ret (- EOPTION)
    else
      let* f := get 1 pbuf i_frag in
      if negb (Z.land (Z.shiftr f 5) IP_FLAG_NOLAST =? 0) then st_ret (- EFRAG)
      else
        let* dst := get 4 pbuf i_dst in
        let* n := the_netif netif in
        if negb (Addr.ip_addr_cmp dst (ipaddr n)) then st_ret (- EADDR)
        else
          let* len := get 2 pbuf i_length in
          do! put 2 pbuf i_length (Chksum.htons len);
          let* id := get 2 pbuf i_id in
          do! put 2 pbuf i_id (Chksum.htons id);
          let* eaten := raw_input netif pbuf in
          if (eaten : bool) then st_ret 0
          else
            let* proto := get 1 pbuf i_proto in
            if proto =? IP_PROTOCOL_TCP then tcp_input netif pbuf
            else if proto =? IP_PROTOCOL_UDP then udp_input netif pbuf
            else if proto =? IP_PROTOCOL_ICMP then icmp_input kpage kmalloc netif pbuf
            else st_ret (- EPROTO).

Definition eth_input (netif pbuf : Z) : ST net Z :=
  let* type := get 2 pbuf e_type in
  do! put 2 pbuf e_type (Chksum.htons type);
  let* eaten := pkt_input netif pbuf in
  if (eaten : bool) then st_ret EOK
  else
    let* type := get 2 pbuf e_type in
    if type =? ETH_TYPE_IP then ip_input netif pbuf
    else if type =? ETH_TYPE_IPV6 then st_ret EOK
    else if type =? ETH_TYPE_ARP then arp_input kmalloc netif pbuf
    else st_ret (- EPROTO).

(** The body of the loops of the tasks over the interfaces: 1 when a buffer was
    handled. *)
Definition neti_netif (netif : Z) : ST net Z :=
  let* n := the_netif netif in
  match rx_pbuf_list n with
  | [] => st_ret 0
  | _ =>
      let* (b, l) := st_lift (list_popback (rx_pbuf_list n)) in
      do! mod_netif netif (λ n, n <| rx_pbuf_list := l |> <| rx_pbuf_size $= λ k, k - 1 |>);
      let* _ := eth_input netif b in
      do! pbuf_put b;
      st_ret 1
  end.

Definition neto_netif (netif : Z) : ST net Z :=
  let* n := the_netif netif in
  match tx_pbuf_list n with
  | [] => st_ret 0
  | _ =>
      let* (b, l) := st_lift (list_popback (tx_pbuf_list n)) in
      do! mod_netif netif (λ n, n <| tx_pbuf_list := l |> <| tx_pbuf_size $= λ k, k - 1 |>);
      do! (match nic_output n with LOOPIF => send_packet netif b | DRIVER => driver_output netif b end);
      st_ret 1
  end.

Fixpoint pass (body : Z → ST net Z) (l : list Z) (count : Z) : ST net Z :=
  match l with
  | [] => st_ret count
  | a :: l' => let* k := body a in pass body l' (count + k)
  end.

(** A turn of [neti_thread] and of [neto_thread]; the task waits when there was
    nothing to do. *)
Definition neti_thread : ST net unit :=
  let* l := st_gets netif_list in
  let* count := pass neti_netif l 0 in
  st_when (count =? 0) (st_mod (λ s, s <| neti_waiting := true |>)).
Definition neto_thread : ST net unit :=
  let* l := st_gets netif_list in
  let* count := pass neto_netif l 0 in
  st_when (count =? 0) (st_mod (λ s, s <| neto_waiting := true |>)).

Definition netif_init : ST net unit := st_mod (λ s, s <| netif_list := [] |>).
End eth.

(** ** Properties *)
Section input.
Context (E : stop → Prop) (kpage : nat → Z * list Z) (kmalloc : nat → Z * Z).
Context (tcp_input : Z → Z → ST net Z).

(** An IP packet for the interface goes to its protocol when no raw or packet socket
    is open. *)
Lemma wp_eth_ip s netif n b l c m hwdst hwsrc src proto len (Q : Z → net → Prop) :
  netifs s !! netif = Some n → raw_pcb_list s = [] → pkt_pcb_list s = [] → Z.of_nat (length m) = MEM → Forall Chksum.byte m →
  ip_frame hwdst hwsrc src (ipaddr n) proto len m → 0 ≤ len < 65516 →
  (∀ m2, accepted len m m2 →
     wp E (if proto =? IP_PROTOCOL_TCP then tcp_input netif b
           else if proto =? IP_PROTOCOL_UDP then udp_input netif b
           else if proto =? IP_PROTOCOL_ICMP then icmp_input kpage kmalloc netif b
           else st_ret (- EPROTO)) Q (pb b (mk_pbuf l c m2) s)) →
  wp E (eth_input kpage kmalloc tcp_input netif b) Q (pb b (mk_pbuf l c m) s).
Proof using.
  intros Hn Hr Hp Hm Hbm [_ _ Ft Fh Ff Fl Fp Flen Fs Fd _] Hlen HQ. unfold eth_input. do 4 frame_step.
  frame_step. unfold pkt_input. frame_step. apply wp_gets. change (pkt_pcb_list (pb ?x ?y s)) with (pkt_pcb_list s).
  rewrite Hp. cbn [pkt_loop]. apply wp_ret. do 2 frame_step. rewrite fld_upd_same by in_frame. rewrite Ft, Chksum.htons_htons by done.
  change (ETH_TYPE_IP `mod` 256 ^ Z.of_nat 2 =? ETH_TYPE_IP) with true. cbv iota.
  set (m1 := upd e_type _ m). assert (Z.of_nat (length m1) = MEM) as Hm1 by (unfold m1; by rewrite length_upd).
  unfold ip_input. do 2 frame_step. replace (fld 1 i_header m1) with 0x45 by (unfold m1; fields; done).
  change (negb (Z.shiftr 0x45 4 =? IP_VERSION_4)) with false. cbv iota. do 2 frame_step.
  replace (fld 1 i_ttl m1) with IP_TTL by (unfold m1; fields; done). change (IP_TTL =? 0) with false. cbv iota.
  change (negb (Z.land 0x45 0xf =? sizeof_ip / 4)) with false. cbv iota. do 2 frame_step.
  replace (fld 1 i_frag m1) with 0 by (unfold m1; fields; done). change (negb (Z.land (Z.shiftr 0 5) IP_FLAG_NOLAST =? 0)) with false. cbv iota.
  do 2 frame_step. frame_step. eapply wp_the_netif; [done|]. replace (fld 4 i_dst m1) with (ipaddr n) by (unfold m1; fields; done).
  unfold Addr.ip_addr_cmp. rewrite Z.eqb_refl. cbn [negb]. do 4 frame_step. do 4 frame_step.
  replace (fld 2 i_length m1) with (Chksum.htons (sizeof_ip + len)) by (unfold m1; fields; done).
  rewrite Chksum.htons_htons by (offsets; lia).
  match goal with |- wp _ _ _ (pb b (mk_pbuf l c ?x) s) => set (m2 := x) end.
  frame_step. unfold raw_input. frame_step. apply wp_gets. change (raw_pcb_list (pb ?x ?y s)) with (raw_pcb_list s).
  rewrite Hr. cbn [raw_loop]. apply wp_ret.
  assert (fld 1 i_proto m2 = proto) as Hpr by (unfold m2, m1; fields; done).
  assert (accepted len m m2) as Hac.
  { unfold m2, m1. split; rewrite ?length_upd; try (fields; done).
    - fields. apply Z.mod_small. offsets. lia.
    - intros. fields. done.
    - repeat (apply upd_byte; [apply le_bytes_range|]). done. }
  pose proof (ac_size _ _ _ Hac) as Hm2. clearbody m2. do 2 frame_step. rewrite Hpr. by apply HQ.
Qed.
End input.

(** The interface [netif] of [s] is given the bytes of [b]; no raw or packet socket is open. *)
Record host (s : net) (netif : Z) (n : netif_t) (b : Z) (p : pbuf_t) : Prop := {
  ho_receives : receives s netif n b p; ho_bytes : Forall Chksum.byte (pmem p);
  ho_raw : raw_pcb_list s = []; ho_pkt : pkt_pcb_list s = [] }.

Section ping.
Context (kpage : nat → Z * list Z) (kmalloc : nat → Z * Z) (tcp_input : Z → Z → ST net Z).

(** The request leaves. *)
Lemma ping_sent s netif n addr hw a e q b p : routed s netif n addr hw a e q → receives s netif n b p → Forall Chksum.byte (pmem p) →
  ∃ m, whole m ∧ icmp_echo kpage kmalloc netif b addr s = Ok (EOK, pb b (mk_pbuf 80 (pcount p) m) (sent s netif n a e b)) ∧
    ip_frame hw (hwaddr n) (ipaddr n) addr IP_PROTOCOL_ICMP 46 m ∧ icmp_message ICMP_ECHO 46 m ∧ bytes_at 42 38 m = message.
Proof using.
  intros HR [Hn Hb Hm Hf Hs] Hby.
  destruct (wp_total (icmp_echo kpage kmalloc netif b addr) (λ r s', r = EOK ∧ ∃ m, whole m ∧
    s' = pb b (mk_pbuf 80 (pcount p) m) (sent s netif n a e b) ∧ ip_frame hw (hwaddr n) (ipaddr n) addr IP_PROTOCOL_ICMP 46 m ∧
    icmp_message ICMP_ECHO 46 m ∧ bytes_at 42 38 m = message) s) as (r & s' & Hr & -> & m & H1 & -> & H2).
  { apply (wp_pb _ _ b p); [done|]. destruct p as [pl pc m0]. eapply wp_icmp_echo; [exact HR|done|done|done|]. eauto 10. }
  by exists m.
Qed.

(** The request comes back as an answer. *)
Lemma ping_answer s netif n b p addr hw a e q hwdst hwsrc len : host s netif n b p → routed s netif n addr hw a e q →
  ip_frame hwdst hwsrc addr (ipaddr n) IP_PROTOCOL_ICMP len (pmem p) → fld 1 c_type (pmem p) = ICMP_ECHO →
  8 ≤ len → 34 + len ≤ MEM → Addr.ip_addr_isbroadcast (ipaddr n) (netmask n) = false → Addr.ip_addr_ismulticast (ipaddr n) = false →
  ∃ m, whole m ∧
    eth_input kpage kmalloc tcp_input netif b s = Ok (EOK, pb b (mk_pbuf (34 + len) (u32 (pcount p + 1)) m) (sent s netif n a e b)) ∧
    ip_frame hw (hwaddr n) (ipaddr n) addr IP_PROTOCOL_ICMP len m ∧ icmp_message ICMP_ER len m ∧
    bytes_at 38 (len - 4) m = bytes_at 38 (len - 4) (pmem p).
Proof using.
  intros [[Hn Hb Hm Hf Hs] Hby Hr Hp] HR Hfr Ht H8 Hl Hbc Hmc.
  destruct (wp_total (eth_input kpage kmalloc tcp_input netif b) (λ r s', r = EOK ∧ ∃ m, whole m ∧
    s' = pb b (mk_pbuf (34 + len) (u32 (pcount p + 1)) m) (sent s netif n a e b) ∧
    ip_frame hw (hwaddr n) (ipaddr n) addr IP_PROTOCOL_ICMP len m ∧
    icmp_message ICMP_ER len m ∧ bytes_at 38 (len - 4) m = bytes_at 38 (len - 4) (pmem p)) s) as (r & s' & He & -> & m & H1 & -> & H2).
  { apply (wp_pb _ _ b p); [done|]. destruct p as [pl pc m0]. cbn [pmem pcount] in *.
    eapply wp_eth_ip; [done..|exact Hfr|unfold MEM in Hl; lia|]. intros m2 Hac.
    change (IP_PROTOCOL_ICMP =? IP_PROTOCOL_TCP) with false. change (IP_PROTOCOL_ICMP =? IP_PROTOCOL_UDP) with false.
    change (IP_PROTOCOL_ICMP =? IP_PROTOCOL_ICMP) with true. cbv iota.
    eapply wp_icmp_echo_reply; [exact HR|done|exact Hac|done|done|done|apply Hfr|apply Hfr|done|done|]. eauto 10. }
  by exists m.
Qed.

(** The answer is taken and changes nothing but its own buffer. *)
Lemma ping_done s netif n b p src hwdst hwsrc len : host s netif n b p → 
  ip_frame hwdst hwsrc src (ipaddr n) IP_PROTOCOL_ICMP len (pmem p) → fld 1 c_type (pmem p) = ICMP_ER → 8 ≤ len → 34 + len ≤ MEM →
  ∃ m, eth_input kpage kmalloc tcp_input netif b s = Ok (EOK, pb b (mk_pbuf (plen p) (pcount p) m) s).
Proof using.
  intros [[Hn Hb Hm Hf Hs] Hby Hr Hp] Hfr Ht H8 Hl.
  destruct (wp_total (eth_input kpage kmalloc tcp_input netif b) (λ r s', r = EOK ∧ ∃ m, s' = pb b (mk_pbuf (plen p) (pcount p) m) s) s)
    as (r & s' & He & -> & m & ->); [|by exists m].
  apply (wp_pb _ _ b p); [done|]. destruct p as [pl pc m0]. cbn [pmem pcount] in *.
  eapply wp_eth_ip; [done..|exact Hfr|unfold MEM in Hl; lia|]. intros m2 [Hm2 _ _ _ Hrest _].
  change (IP_PROTOCOL_ICMP =? IP_PROTOCOL_TCP) with false. change (IP_PROTOCOL_ICMP =? IP_PROTOCOL_UDP) with false.
  change (IP_PROTOCOL_ICMP =? IP_PROTOCOL_ICMP) with true. cbv iota. unfold icmp_input. do 2 frame_step.
  assert (fld 1 c_type m2 = ICMP_ER) as -> by (unfold fld; rewrite Hrest by done; done). change (ICMP_ER =? ICMP_ECHO) with false. cbv iota.
  apply wp_ret. eauto.
Qed.
End ping.

(** C15: a host that is pinged answers.  [icmp_echo] makes a request whose checksums verify;
    the host whose address it has, when it receives the bytes of the request, sends to the
    sender an answer whose checksums verify and which has the identifier, the number and the
    text of the request; and the sender takes the answer and changes nothing. *)
Theorem ping_answered (kpage : nat → Z * list Z) (kmalloc : nat → Z * Z) (tcp_input : Z → Z → ST net Z)
    s netif n addr hw a e q b p (HR : routed s netif n addr hw a e q) (Hb : receives s netif n b p) (Hp : Forall Chksum.byte (pmem p)) :
  ∃ m s', icmp_echo kpage kmalloc netif b addr s = Ok (EOK, s') ∧
    netifs s' !! netif = Some (transmit [b] n) ∧ pbufs s' !! b = Some (mk_pbuf 80 (pcount p) m) ∧ whole m ∧
    ip_frame hw (hwaddr n) (ipaddr n) addr IP_PROTOCOL_ICMP 46 m ∧ icmp_message ICMP_ECHO 46 m ∧ bytes_at 42 38 m = message ∧
  ∀ t netif2 n2 b2 p2 hw2 a2 e2 q2, host t netif2 n2 b2 p2 → same 80 m (pmem p2) → ipaddr n2 = addr →
    routed t netif2 n2 (ipaddr n) hw2 a2 e2 q2 →
    Addr.ip_addr_isbroadcast addr (netmask n2) = false → Addr.ip_addr_ismulticast addr = false →
  ∃ m2 t', eth_input kpage kmalloc tcp_input netif2 b2 t = Ok (EOK, t') ∧
    netifs t' !! netif2 = Some (transmit [b2] n2) ∧ pbufs t' !! b2 = Some (mk_pbuf 80 (u32 (pcount p2 + 1)) m2) ∧
    whole m2 ∧
    ip_frame hw2 (hwaddr n2) addr (ipaddr n) IP_PROTOCOL_ICMP 46 m2 ∧ icmp_message ICMP_ER 46 m2 ∧
    bytes_at 38 42 m2 = bytes_at 38 42 m ∧
  ∀ u n3 b3 p3, host u netif n3 b3 p3 → same 80 m2 (pmem p3) → ipaddr n3 = ipaddr n →
  ∃ m3, eth_input kpage kmalloc tcp_input netif b3 u = Ok (EOK, pb b3 (mk_pbuf (plen p3) (pcount p3) m3) u).
Proof.
  destruct (ping_sent kpage kmalloc s netif n addr hw a e q b p HR Hb Hp) as (m & Hm & H1 & Hf1 & Hi1 & Ht1).
  exists m, (pb b (mk_pbuf 80 (pcount p) m) (sent s netif n a e b)). split; [done|]. split; [apply lookup_insert_eq|].
  split; [apply pb_lookup|]. do 4 (split; [done|]). intros t netif2 n2 b2 p2 hw2 a2 e2 q2 Hh Hsame Hip HR2 Hbc Hmc. rewrite <-Hip in *.
  apply (ip_frame_same 80 _ _ _ _ _ _ _ _ Hsame) in Hf1; [|lia].
  pose proof (icmp_message_same 80 ICMP_ECHO 46 m (pmem p2) (or_intror Hsame) ltac:(done) ltac:(done) Hi1) as Hi2.
  destruct (ping_answer kpage kmalloc tcp_input t netif2 n2 b2 p2 (ipaddr n) hw2 a2 e2 q2 _ _ 46 Hh HR2 Hf1) as (m2 & Hm2 & H2 & Hf2 & Hi3 & Ht2);
    [apply Hi2|done|done|done|done|].
  exists m2, (pb b2 (mk_pbuf 80 (u32 (pcount p2 + 1)) m2) (sent t netif2 n2 a2 e2 b2)). split; [done|]. split; [apply lookup_insert_eq|].
  split; [apply pb_lookup|]. do 3 (split; [done|]). split.
  { change (46 - 4) with 42 in Ht2. rewrite Ht2. by apply (bytes_same 80). }
  intros u n3 b3 p3 Hh3 Hsame3 Hip3. apply (ip_frame_same 80 _ _ _ _ _ _ _ _ Hsame3) in Hf2; [|lia]. rewrite <-Hip3 in Hf2.
  apply (icmp_message_same 80 _ _ _ _ (or_intror Hsame3)) in Hi3; [|lia|lia].
  eapply (ping_done kpage kmalloc tcp_input); [done|exact Hf2|apply Hi3|done|done].
Qed.

Definition demo_known (k : Z) : arp_entry_t := mk_arp_entry (demo_mac k) (le [10; 0; 0; k]) 700 0 0 0 [] 16.
Definition demo_host (k : Z) (b : Z) (m : list Z) : net :=
  demo_net [] {[b := demo_pbuf m]} (demo_netif (demo_mac k) k) (demo_known (3 - k)).

Lemma demo_routed k s : k = 1 ∨ k = 2 → netifs s = {[16 := demo_netif (demo_mac k) k]} → netif_list s = [16] →
  arp_entry_list s = [32] → arps s = {[32 := demo_known (3 - k)]} → now s = 100 →
  routed s 16 (demo_netif (demo_mac k) k) (le [10; 0; 0; 3 - k]) (demo_mac (3 - k)) 32 (demo_known (3 - k)) (le [10; 0; 0; 3 - k]).
Proof.
  intros [-> | ->] Hn Hl Ha He Ht; split; rewrite ?Hn, ?Hl, ?Ha, ?He, ?Ht;
    first [done | by vm_compute | by apply (bool_decide_unpack _); vm_compute].
Qed.

Lemma ping_answered_witness : ∃ m s' m2 t',
  icmp_echo (λ _, (0, [])) (λ _, (0, 0)) 16 2048 (le [10; 0; 0; 2]) (demo_host 1 2048 demo_zeros) = Ok (EOK, s') ∧
  pbufs s' !! 2048 = Some (mk_pbuf 80 1 m) ∧ bytes_at 42 38 m = message ∧
  eth_input (λ _, (0, [])) (λ _, (0, 0)) (λ _ _, st_ret 0) 16 4096 (demo_host 2 4096 m) = Ok (EOK, t') ∧
  pbufs t' !! 4096 = Some (mk_pbuf 80 2 m2) ∧ bytes_at 38 42 m2 = bytes_at 38 42 m ∧
  ∃ m3, eth_input (λ _, (0, [])) (λ _, (0, 0)) (λ _ _, st_ret 0) 16 2048 (demo_host 1 2048 m2) =
    Ok (EOK, pb 2048 (mk_pbuf 0 1 m3) (demo_host 1 2048 m2)).
Proof.
  assert (∀ k b m, whole m → host (demo_host k b m) 16 (demo_netif (demo_mac k) k) b (demo_pbuf m)) as Hhost.
  { intros k b m [Hm Hb]. split; [|done|done|done]. split; [done|by apply lookup_singleton_eq|done|cbn; set_solver|done]. }
  assert (whole demo_zeros) as Hz by (split; [done|by apply Forall_replicate]).
  destruct (ping_answered (λ _, (0, [])) (λ _, (0, 0)) (λ _ _, st_ret 0) _ _ _ _ _ _ _ _ 2048 (demo_pbuf demo_zeros)
    (demo_routed 1 (demo_host 1 2048 demo_zeros) (or_introl eq_refl) eq_refl eq_refl eq_refl eq_refl eq_refl) (ho_receives _ _ _ _ _ (Hhost 1 2048 _ Hz)) (proj2 Hz))
    as (m & s' & H1 & _ & H2 & Hm & _ & _ & H3 & H4).
  destruct (H4 _ _ _ _ _ _ _ _ _ (Hhost 2 4096 m Hm) eq_refl eq_refl (demo_routed 2 (demo_host 2 4096 m) (or_intror eq_refl) eq_refl eq_refl eq_refl eq_refl eq_refl))
    as (m2 & t' & H5 & _ & H6 & Hm2 & _ & _ & H7 & H8); [done|done|].
  destruct (H8 _ _ _ _ (Hhost 1 2048 m2 Hm2) eq_refl eq_refl) as (m3 & H9).
  exists m, s', m2, t'. do 6 (split; [done|]). by exists m3.
Defined.

(** ** Datagrams from socket to socket *)

(** [b] is the oldest buffer that came in on [netif], [a] the control block that is
    connected to the sender, with an empty queue. *)
Record inbox (s : net) (netif : Z) (n : netif_t) (rest : list Z) (b : Z) (p : pbuf_t) (a : Z) (pcb : udp_pcb_t)
    (src sport dport : Z) : Prop := {
  ib_host : host s netif n b p; ib_queue : rx_pbuf_list n = rest ++ [b]; ib_count : pcount p = 1;
  ib_aligned : Z.land b 0x7ff = 0; ib_free : b ∉ free_pbuf_list s;
  ib_found : find_udp_pcb src sport (ipaddr n) dport (udp_pcb_list s) (udps s) = Ok (Some a);
  ib_pcb : udps s !! a = Some pcb; ib_empty : udp_rx pcb = [] }.

Section datagram.
Context (kpage : nat → Z * list Z) (kmalloc : nat → Z * Z) (tcp_input : Z → Z → ST net Z).

(** The interface's task passes the datagram to the control block. *)
Lemma wp_neti_datagram E s netif n rest b p a pcb src sport dport data hwdst hwsrc (Q : Z → net → Prop) :
  inbox s netif n rest b p a pcb src sport dport →
  ip_frame hwdst hwsrc src (ipaddr n) IP_PROTOCOL_UDP (sizeof_udp + Z.of_nat (length data)) (pmem p) →
  udp_message sport dport src (ipaddr n) data (pmem p) → Z.of_nat (length data) ≤ 1472 →
  0 ≤ sport < 65536 → 0 ≤ dport < 65536 →
  (∀ m s', whole m → fld 2 u_sport m = sport → fld 4 i_src m = src →
     fld 2 u_length m = Chksum.htons (sizeof_udp + Z.of_nat (length data)) → bytes_at 42 (Z.of_nat (length data)) m = data →
     udps s' = <[a := pcb <| udp_rx := [b] |> <| udp_waiter := None |>]> (udps s) → free_pbuf_list s' = free_pbuf_list s →
     wakes s' = wakes s ++ match udp_waiter pcb with Some t => [(t, EOK)] | None => [] end →
     Q 1 (pb b (mk_pbuf (plen p) 1 m) s')) →
  wp E (neti_netif kpage kmalloc tcp_input netif) Q s.
Proof using.
  intros [[[Hn Hp Hm _ _] Hby Hr Hk] Hq Hc Hal Hfree Hfind Hpcb Hrx] Hf [Us Ud Ul Udata _] Hlen Hs Hd HQ.
  destruct p as [l c m0]. cbn [pmem pcount plen] in *. subst c. unfold neti_netif. apply wp_bind. eapply wp_the_netif; [done|]. rewrite Hq.
  assert (∀ {B} (x y : B), match rest ++ [b] with [] => x | _ => y end = y) as -> by (intros; by destruct rest).
  apply wp_bind. eapply wp_lift; [unfold list_popback; by rewrite last_snoc, removelast_last|]. apply wp_bind, wp_mod.
  set (s1 := s <| netifs $= _ |>). apply (wp_pb _ _ b (mk_pbuf l 1 m0)); [done|].
  assert (netifs s1 !! netif = Some (n <| rx_pbuf_list := rest |> <| rx_pbuf_size $= λ k, k - 1 |>)) as Hn1.
  { unfold s1. upd_simpl. by rewrite lookup_alter_eq, Hn. }
  apply wp_bind. eapply (wp_eth_ip E kpage kmalloc tcp_input s1); [exact Hn1|done|done|done|done|exact Hf|offsets; lia|].
  intros m2 Hac. change (IP_PROTOCOL_UDP =? IP_PROTOCOL_TCP) with false. change (IP_PROTOCOL_UDP =? IP_PROTOCOL_UDP) with true. cbv iota.
  eapply (wp_udp_input E s1 b netif a pcb); [exact Hac|done|done|apply Hf|apply Hf|done|done|exact Hfind|done|by rewrite Hrx; apply not_elem_of_nil|].
  intros m' Hw Hs' Hi Hl' Hrest. apply wp_bind. change (u32 (1 + 1)) with 2. apply wp_pbuf_put_live; [done|]. apply wp_ret.
  apply HQ; [done|done|done|congruence| |upd_simpl; do 2 f_equal; unfold modify; cbn; by rewrite Hrx|done|done]. rewrite Hrest by lia. done.
Qed.
End datagram.

(** C4: a datagram arrives as it was sent.  [udp_sendmsg] on a connected socket with at most
    1472 bytes in its buffers returns their number and queues a frame for the peer whose IP
    and UDP checksums verify; when an interface with that address receives the bytes of the
    frame, its task wakes the reader of the socket that is connected back, and
    [udp_recvmsg] then fills the reader's buffers with the bytes, as many as fit, reports
    the sender and gives the buffer back to the pool. *)
Theorem datagram_delivered (kpage : nat → Z * list Z) (kmalloc : nat → Z * Z) (tcp_input : Z → Z → ST net Z)
    s netif n a p hw x e q b p0 iov (HR : routed s netif n (raddr p) hw x e q) (HC : connected s a p netif n)
    (Hb : receives s netif n b p0) (Hw : whole (pmem p0)) (Hpool : last (free_pbuf_list s) = Some b) (Hal : Z.land b 0x7ff = 0)
    (Hroom : Z.of_nat (room iov) ≤ 1472) (Hbytes : Forall Chksum.byte (concat (iov_mem <$> iov))) :
  ∃ m iov' s', udp_sendmsg kpage kmalloc a iov None s = Ok (Z.of_nat (room iov), iov', s') ∧
    netifs s' !! netif = Some (transmit [b] n) ∧ pbufs s' !! b = Some (mk_pbuf (42 + Z.of_nat (room iov)) 1 m) ∧ whole m ∧
    ip_frame hw (hwaddr n) (ipaddr n) (raddr p) IP_PROTOCOL_UDP (sizeof_udp + Z.of_nat (room iov)) m ∧
    udp_message (lport p) (rport p) (ipaddr n) (raddr p) (concat (iov_mem <$> iov)) m ∧
  ∀ t netif2 n2 rest b2 p2 a2 pcb, inbox t netif2 n2 rest b2 p2 a2 pcb (ipaddr n) (lport p) (rport p) → ipaddr n2 = raddr p →
    same (42 + Z.of_nat (room iov)) m (pmem p2) →
  ∃ t', neti_netif kpage kmalloc tcp_input netif2 t = Ok (1, t') ∧
    wakes t' = wakes t ++ match udp_waiter pcb with Some task => [(task, EOK)] | None => [] end ∧
  ∀ task iov2, in_order iov2 →
  ∃ iov3 t2, udp_recvmsg task a2 iov2 t' =
      Ok (Returned (Z.of_nat (Nat.min (room iov) (room iov2)), iov3, Some (ipaddr n, lport p)), t2) ∧
    passed iov3 = passed iov2 ++ take (room iov2) (concat (iov_mem <$> iov)) ∧ b2 ∈ free_pbuf_list t2.
Proof.
  destruct Hb as [Hn Hp0 Hm Hb Hs]. set (data := concat (iov_mem <$> iov)) in *.
  assert (room iov = length data) as Hr by done. pose proof HC as [Hp Hlp Hrp _ _ _ _ _].
  destruct (wp_total (udp_sendmsg kpage kmalloc a iov None) (λ r s', ∃ m iov', r = (Z.of_nat (room iov), iov') ∧
    s' = pb b (mk_pbuf (42 + Z.of_nat (room iov)) 1 m) (sent (drawn s) netif n x e b) ∧ whole m ∧
    ip_frame hw (hwaddr n) (ipaddr n) (raddr p) IP_PROTOCOL_UDP (sizeof_udp + Z.of_nat (room iov)) m ∧
    udp_message (lport p) (rport p) (ipaddr n) (raddr p) data m) s) as (r & s' & H1 & m & iov' & -> & -> & Hm1 & Hf1 & Hu1).
  { eapply wp_udp_sendmsg; [exact HR|exact HC|done|done|done|done|done|done|done|]. eauto 10. }
  exists m, iov', (pb b (mk_pbuf (42 + Z.of_nat (room iov)) 1 m) (sent (drawn s) netif n x e b)). split; [done|].
  split; [apply lookup_insert_eq|]. split; [apply pb_lookup|]. do 3 (split; [done|]).
  intros t netif2 n2 rest b2 p2 a2 pcb Hin Hip Hsame. rewrite Hr in *. rewrite <-Hip in *.
  apply (ip_frame_same _ _ _ _ _ _ _ _ _ Hsame) in Hf1; [|lia].
  apply (udp_message_rest (42 + Z.of_nat (length data)) _ _ _ _ _ m (pmem p2)) in Hu1; [|intros; by apply (bytes_same _ _ _ _ _ Hsame); lia|lia].
  pose proof Hin as [_ _ _ Hal2 Hfree2 _ Hpcb _].
  destruct (wp_total (neti_netif kpage kmalloc tcp_input netif2) (λ r t', r = 1 ∧ ∃ m2 t1, t' = pb b2 (mk_pbuf (plen p2) 1 m2) t1 ∧
    whole m2 ∧ fld 2 u_sport m2 = lport p ∧ fld 4 i_src m2 = ipaddr n ∧
    fld 2 u_length m2 = Chksum.htons (sizeof_udp + Z.of_nat (length data)) ∧ bytes_at 42 (Z.of_nat (length data)) m2 = data ∧
    udps t1 = <[a2 := pcb <| udp_rx := [b2] |> <| udp_waiter := None |>]> (udps t) ∧ free_pbuf_list t1 = free_pbuf_list t ∧
    wakes t1 = wakes t ++ match udp_waiter pcb with Some t => [(t, EOK)] | None => [] end) t)
    as (r & t' & H2 & -> & m2 & t1 & -> & Hm2 & F1 & F2 & F3 & F4 & F5 & F6 & F7).
  { eapply wp_neti_datagram; [exact Hin|exact Hf1|exact Hu1|done|lia|lia|]. eauto 15. }
  exists (pb b2 (mk_pbuf (plen p2) 1 m2) t1). split; [done|]. split; [exact F7|]. intros task iov2 Hio.
  destruct (wp_total (udp_recvmsg task a2 iov2) (λ r t2, ∃ iov3,
    r = Returned (Z.of_nat (Nat.min (length data) (room iov2)), iov3, Some (ipaddr n, lport p)) ∧
    passed iov3 = passed iov2 ++ take (room iov2) data ∧ b2 ∈ free_pbuf_list t2) (pb b2 (mk_pbuf (plen p2) 1 m2) t1))
    as (r & t2 & H3 & iov3 & -> & H4 & H5).
  { eapply (wp_udp_recvmsg no_stop t1 b2 task a2 _ []); [rewrite F5; apply lookup_insert_eq|done|done|done|done|done|done|done|done|by rewrite F6|done|].
    intros iov3 Hpass. exists iov3. split; [done|]. split; [done|]. left. }
  by exists iov3, t2.
Qed.

(** A socket of each host: port 7 of 10.0.0.1 and port 9 of 10.0.0.2. *)
Definition demo_pcb (lport rport to : Z) (waiter : option Z) : udp_pcb_t := mk_udp 0 (le [10; 0; 0; to]) lport rport 0 [] waiter.
Definition demo_sender : net :=
  demo_host 1 2048 demo_zeros <| free_pbuf_list := [2048] |> <| udp_pcb_list := [64] |> <| udps := {[64 := demo_pcb 7 9 2 None]} |>.
Definition demo_reader (m : list Z) : net :=
  demo_net [] {[4096 := demo_pbuf m]} (demo_netif (demo_mac 2) 2 <| rx_pbuf_list := [4096] |>) (demo_known 1)
    <| udp_pcb_list := [96] |> <| udps := {[96 := demo_pcb 9 7 1 (Some 5)]} |>.

Lemma datagram_delivered_witness : ∃ m iov' s' t' iov3 t2,
  udp_sendmsg (λ _, (0, [])) (λ _, (0, 0)) 64 [mk_iovec [] [104; 105]] None demo_sender = Ok (2, iov', s') ∧
  pbufs s' !! 2048 = Some (mk_pbuf 44 1 m) ∧
  neti_netif (λ _, (0, [])) (λ _, (0, 0)) (λ _ _, st_ret 0) 16 (demo_reader m) = Ok (1, t') ∧ wakes t' = [(5, EOK)] ∧
  udp_recvmsg 5 96 [mk_iovec [] (replicate 8 0)] t' = Ok (Returned (2, iov3, Some (le [10; 0; 0; 1], 7)), t2) ∧
  passed iov3 = [104; 105].
Proof.
  assert (whole demo_zeros) as Hz by (split; [done|by apply Forall_replicate]).
  destruct (datagram_delivered (λ _, (0, [])) (λ _, (0, 0)) (λ _ _, st_ret 0) demo_sender 16 (demo_netif (demo_mac 1) 1) 64
    (demo_pcb 7 9 2 None) (demo_mac 2) 32 (demo_known 2) (le [10; 0; 0; 2]) 2048 (demo_pbuf demo_zeros) [mk_iovec [] [104; 105]])
    as (m & iov' & s' & H1 & _ & H2 & Hm & _ & _ & H3).
  - exact (demo_routed 1 demo_sender (or_introl eq_refl) eq_refl eq_refl eq_refl eq_refl eq_refl).
  - split; try done. by left.
  - split; try done. cbn. set_solver.
  - done.
  - done.
  - done.
  - done.
  - by apply (bool_decide_unpack _).
  - destruct (H3 (demo_reader m) 16 (demo_netif (demo_mac 2) 2 <| rx_pbuf_list := [4096] |>) [] 4096 (demo_pbuf m) 96 (demo_pcb 9 7 1 (Some 5)))
      as (t' & H4 & H5 & H6); [|done|done|].
    { destruct Hm as [Hm Hb]. split; [|reflexivity|reflexivity|reflexivity|by apply not_elem_of_nil|reflexivity|reflexivity|reflexivity].
      split; [|exact Hb|reflexivity|reflexivity].
      split; [reflexivity|reflexivity|exact Hm|by apply not_elem_of_nil|reflexivity]. }
    destruct (H6 5 [mk_iovec [] (replicate 8 0)] eq_refl) as (iov3 & t2 & H7 & H8 & _).
    exists m, iov', s', t', iov3, t2. split; [exact H1|]. split; [exact H2|]. split; [exact H4|]. split; [exact H5|]. split; [exact H7|exact H8].
Defined.

(** The length that a packet claims is believed: an echo request of 42 bytes that claims
    3000 makes [icmp_echo_reply] read behind its buffer. *)
Example length_is_believed :
  let m := upd i_length [11; 184] (upd i_proto [1] (upd i_dst [10; 0; 0; 2] (upd i_ttl [64] (upd i_header [69] (upd c_type [8]
             (upd e_type [8; 0] demo_zeros)))))) in
  eth_input (λ _, (0, [])) (λ _, (0, 0)) (λ _ _, st_ret 0) 16 4096 (demo_host 2 4096 m) = Stop Fault.
Proof. by vm_compute. Qed.
