(* ===== verification/Resolv.v ===== *)
(** * The resolver ([src/src/net/resolv.c])

    [buf] is a page of a packet buffer; a pointer into it is the memory from there on,
    as in Addr.  [data_addr] is the address of [dns->payload], which decides where the
    comparisons of pointers wrap.  The sockets are parameters: the descriptor that [socket]
    returns, what [connect] does, and the answer of the call number [n] of [recv], with the
    bytes it stores. *)
From S2P Require Import Prelude Bytes Chksum Addr.
Open Scope Z_scope.

Definition PACKET_SIZE : Z := 512.
Definition DNS_TYPE_A : Z := 1.
Definition DNS_CLASS_IN : Z := 1.
Definition sizeof_dns : nat := 12.

(** ** Messages *)

(** [*attr = htons(v)] *)
Definition be16 (v : Z) : list Z := le_bytes 2 (htons (u16 v)).

(** From [ptr0] to the point or the end, and what follows the point. *)
Fixpoint next_label (name : list Z) : list Z * option (list Z) :=
  match name with
  | [] => ([], None)
  | c :: name' => if c =? 46 then ([], Some name') else let '(l, r) := next_label name' in (c :: l, r)
  end.

Fixpoint fill_name (fuel : nat) (buf : nat) (name : list Z) : ST (list Z) nat :=
  match fuel with
  | O => st_stop Fuel
  | S fuel' =>
      let '(label, next) := next_label name in
      let size := u8 (Z.of_nat (length label)) in
      do! store buf [size];
      do! store (buf + 1) (take (Z.to_nat size) label);
      let buf := (buf + 1 + Z.to_nat size)%nat in
      match next with
      | None => do! store buf [0]; st_ret (buf + 1)%nat
      | Some name => fill_name fuel' buf name
      end
  end.

(** [name] is the string before its terminator. *)
Definition fill_payload (data : nat) (name : list Z) (type cls : Z) : ST (list Z) Z :=
  let* attr := fill_name (S (length name)) data name in
  do! store attr (be16 type);
  do! store (attr + 2) (be16 cls);
  st_ret (Z.of_nat (attr + 4 - data)).

(** [ntohs(*(u16 *)ptr)] and [ntohl(*(u32 *)ptr)] *)
Definition get16 (ptr : list Z) : res Z := match ptr with a :: b :: _ => Ok (htons (le [a; b])) | _ => Stop Fault end.
Definition get32 (ptr : list Z) : res Z := match ptr with a :: b :: c :: d :: _ => Ok (htonl (le [a; b; c; d])) | _ => Stop Fault end.

Fixpoint skip_loop (fuel : nat) (ptr : list Z) : res (list Z) :=
  match fuel, ptr with
  | O, _ => Stop Fuel
  | S _, [] => Stop Fault
  | S fuel', size :: ptr' =>
      if size =? 0 then Ok ptr'
      else if Z.land size 0xC0 =? 0xC0 then let! _ := get16 ptr in Ok (drop 2 ptr)
      else skip_loop fuel' (drop (Z.to_nat size) ptr')
  end.
Definition skip_name (ptr : list Z) : res (list Z) := skip_loop (S (length ptr)) ptr.

Section resolve.
Context (data_addr : Z).

(** [count-- && ptr < end]; [n] is the memory from [data] on. *)
Definition more (n : nat) (ptr : list Z) (limit : Z) : bool := data_addr + Z.of_nat (n - length ptr) <? limit.

Fixpoint skip_questions (count n : nat) (limit : Z) (ptr : list Z) : res (list Z) :=
  match count with
  | O => Ok ptr
  | S count' =>
      if more n ptr limit then
        let! ptr := skip_name ptr in
        let! _ := get16 ptr in
        let! _ := get16 (drop 2 ptr) in
        skip_questions count' n limit (drop 4 ptr)
      else Ok ptr
  end.

(** The result and the address, when it is stored. *)
Fixpoint scan_answers (count n : nat) (limit : Z) (ptr : list Z) : res (Z * option (list Z)) :=
  match count with
  | O => Ok (- EINVAL, None)
  | S count' =>
      if more n ptr limit then
        let! ptr := skip_name ptr in
        let! type := get16 ptr in
        let! cls := get16 (drop 2 ptr) in
        let! _ := get32 (drop 4 ptr) in
        let! rdlength := get16 (drop 8 ptr) in
        let ptr := drop 10 ptr in
        if (type =? DNS_TYPE_A) && (cls =? DNS_CLASS_IN) && (rdlength =? 4)
        then if (4 <=? length ptr)%nat then Ok (EOK, Some (take 4 ptr)) else Stop Fault
        else scan_answers count' n limit (drop (Z.to_nat rdlength) ptr)
      else Ok (- EINVAL, None)
  end.

(** [data] is the memory from [dns->payload] on; the counts are in host order. *)
Definition resolve (qdcount ancount : Z) (data : list Z) (len : Z) : res (Z * option (list Z)) :=
  let len := u32 (len - Z.of_nat sizeof_dns) in
  let limit := u32 (data_addr + len) in
  let! ptr := skip_questions (Z.to_nat qdcount) (length data) limit data in
  scan_answers (Z.to_nat ancount) (length data) limit ptr.

(** ** [sys_resolv] *)
Context (recv : nat → Z * list Z).

(** [id] is compared with what the buffer holds, also after an error of [recv]. *)
Fixpoint recv_loop (fuel n : nat) (id : Z) : ST (list Z) Z :=
  match fuel with
  | O => st_stop Fuel
  | S fuel' =>
      let '(ret, bytes) := recv n in
      do! store 0 bytes;
      let* m := st_get in
      if id =? le (take 2 m) then st_ret ret else recv_loop fuel' (S n) id
  end.

(** The value, the address when it is stored, and the packet that was sent. *)
Definition sys_resolv (fuel : nat) (fd time : Z) (name : list Z) : ST (list Z) (Z * option (list Z) * list Z) :=
  if fd <? 0 then st_ret (fd, None, [])
  else
    let id := Z.land time 0xFFFF in
    do! store 0 (replicate sizeof_dns 0);
    do! store 0 (le_bytes 2 id);
    do! store 2 [1];
    do! store 4 (be16 1);
    let* size := fill_payload sizeof_dns name DNS_TYPE_A DNS_CLASS_IN in
    let* sent := st_gets (take (sizeof_dns + Z.to_nat size)) in
    let* ret := recv_loop fuel 0 id in
    let* m := st_get in
    let* qdcount := st_lift (get16 (drop 4 m)) in
    let* ancount := st_lift (get16 (drop 6 m)) in
    let* (ret, result) := st_lift (resolve qdcount ancount (drop sizeof_dns m) ret) in
    st_ret (ret, result, sent).
End resolve.

(** ** [resolv_init] *)

(** ["nameserver="] *)
Definition KEYWORD : list Z := [110; 97; 109; 101; 115; 101; 114; 118; 101; 114; 61].
(** ["114.114.114.114"] with its terminator *)
Definition DEFAULT : list Z := [49; 49; 52; 46; 49; 49; 52; 46; 49; 49; 52; 46; 49; 49; 52; 0].

(** [memcmp(ptr, pattern, length) == 0] *)
Fixpoint starts (pattern ptr : list Z) : res bool :=
  match pattern with
  | [] => Ok true
  | p :: pattern' =>
      match ptr with [] => Stop Fault | c :: ptr' => if c =? p then starts pattern' ptr' else Ok false end
  end.

(** The line from [ptr] on, with a terminator in place of the newline, and [next + 1]; no
    [next] when a terminator comes first. *)
Fixpoint cut_line (ptr : list Z) : res (list Z * option (list Z)) :=
  match ptr with
  | [] => Stop Fault
  | c :: ptr' =>
      if c =? 10 then Ok (0 :: ptr', Some ptr')
      else if c =? 0 then Ok (ptr, None)
      else let! (l, next) := cut_line ptr' in Ok (c :: l, next)
  end.

Fixpoint conf_loop (fuel : nat) (stack nameserver ptr : list Z) : res (list Z) :=
  match fuel with
  | O => Stop Fuel
  | S fuel' =>
      let! (line, next) := cut_line ptr in
      let! hit := starts KEYWORD line in
      let! (ret, nameserver) := if hit : bool then inet_aton (drop 11 line) stack nameserver else Ok (- EINVAL, nameserver) in
      if ret =? EOK then Ok nameserver
      else match next with None => Ok nameserver | Some ptr => conf_loop fuel' stack nameserver ptr end
  end.

(** [file] is the result of [open] and [read] with the bytes that were read; [nameserver] is
    the static variable. *)
Definition resolv_init (buf stack nameserver : list Z) (file : option (Z * list Z)) : res (list Z) :=
  let! (_, nameserver) := inet_aton DEFAULT stack nameserver in
  match file with
  | None => Ok nameserver
  | Some (len, bytes) =>
      if len <? EOK then Ok nameserver
      else let m := list_inserts 0 bytes buf in conf_loop (S (length m)) stack nameserver m
  end.

(** ** Messages as they are specified (RFC 1035)

    A name is labels and an end, or a pointer to where it goes on. *)
Record dname := mk_dname { labels : list (list Z); onward : option Z }.
Record question := mk_question { q_name : dname; q_type : Z; q_class : Z }.
Record record := mk_record { r_name : dname; r_type : Z; r_class : Z; r_ttl : list Z; r_data : list Z }.

Definition label_bytes (l : list Z) : list Z := Z.of_nat (length l) :: l.
Definition labels_bytes (ls : list (list Z)) : list Z := mjoin (label_bytes <$> ls).
Definition onward_bytes (o : option Z) : list Z := match o with None => [0] | Some p => [192 + p / 256; p `mod` 256] end.
Definition name_bytes (n : dname) : list Z := labels_bytes (labels n) ++ onward_bytes (onward n).
Definition question_bytes (q : question) : list Z := name_bytes (q_name q) ++ be16 (q_type q) ++ be16 (q_class q).
Definition record_bytes (r : record) : list Z :=
  name_bytes (r_name r) ++ be16 (r_type r) ++ be16 (r_class r) ++ r_ttl r ++ be16 (Z.of_nat (length (r_data r))) ++ r_data r.

Definition label_ok (l : list Z) : Prop := (1 ≤ length l ≤ 63)%nat.
Definition name_ok (n : dname) : Prop := Forall label_ok (labels n) ∧ match onward n with None => True | Some p => 0 ≤ p < 2 ^ 14 end.
Definition word (v : Z) : Prop := 0 ≤ v < 65536.
Definition question_ok (q : question) : Prop := name_ok (q_name q) ∧ word (q_type q) ∧ word (q_class q).
Definition record_ok (r : record) : Prop :=
  name_ok (r_name r) ∧ word (r_type r) ∧ word (r_class r) ∧ length (r_ttl r) = 4%nat ∧ word (Z.of_nat (length (r_data r))).

(** A message: the identification, the flags and the counts, the questions, the answers and
    the other sections. *)
Definition message (id : Z) (flags : list Z) (qs : list question) (rs : list record) (counts others : list Z) : list Z :=
  le_bytes 2 id ++ flags ++ be16 (Z.of_nat (length qs)) ++ be16 (Z.of_nat (length rs)) ++ counts ++
  mjoin (question_bytes <$> qs) ++ mjoin (record_bytes <$> rs) ++ others.

(** The first address of the answers. *)
Definition is_address (r : record) : bool := (r_type r =? DNS_TYPE_A) && (r_class r =? DNS_CLASS_IN) && (Z.of_nat (length (r_data r)) =? 4).
Definition outcome_of (rs : list record) : Z * option (list Z) :=
  match filter is_address rs with r :: _ => (EOK, Some (r_data r)) | [] => (- EINVAL, None) end.

(** A name as text. *)
Fixpoint dotted (ls : list (list Z)) : list Z :=
  match ls with [] => [] | [l] => l | l :: ls' => l ++ 46 :: dotted ls' end.

(** ** Reading *)
Lemma length_be16 v : length (be16 v) = 2%nat.
Proof. apply length_le_bytes. Qed.

Lemma get16_be16 v r : word v → get16 (be16 v ++ r) = Ok v.
Proof.
  intros Hv. unfold be16. rewrite u16_small by done. pose proof (htons_range v Hv). pose proof (le_le_bytes 2 (htons v)) as H2.
  destruct (le_bytes 2 (htons v)) as [|a [|b [|]]] eqn:E; try (apply (f_equal length) in E; by rewrite length_le_bytes in E).
  cbn [app get16]. rewrite H2, Z.mod_small by lia. by rewrite htons_htons.
Qed.

Lemma get32_four l r : length l = 4%nat → ∃ v, get32 (l ++ r) = Ok v.
Proof. intros. destruct l as [|a [|b [|c [|d [|]]]]]; try done. by eexists. Qed.

Lemma not_pointer c : 0 ≤ c < 64 → Z.land c 0xC0 =? 0xC0 = false.
Proof.
  intros Hc. assert (forallb (λ c, negb (Z.land c 0xC0 =? 0xC0)) (seqZ 0 64) = true) as H by by vm_compute.
  rewrite forallb_forall in H. specialize (H c). rewrite <-list_elem_of_In, elem_of_seqZ, negb_true_iff in H. apply H. lia.
Qed.
Lemma a_pointer c : 192 ≤ c < 256 → Z.land c 0xC0 =? 0xC0 = true.
Proof.
  intros Hc. assert (forallb (λ c, Z.land c 0xC0 =? 0xC0) (seqZ 192 64) = true) as H by by vm_compute.
  rewrite forallb_forall in H. apply H. rewrite <-list_elem_of_In, elem_of_seqZ. lia.
Qed.

Lemma skip_loop_name n r : name_ok n → ∀ fuel, (length (labels n) < fuel)%nat → skip_loop fuel (name_bytes n ++ r) = Ok r.
Proof.
  unfold name_bytes. destruct n as [ls o]. intros [Hls Ho]. cbn [labels onward] in *. induction Hls as [|l ls Hl Hls IH]; intros [|fuel] Hf; cbn [length] in Hf; try lia.
  - destruct o as [p|]; [|done]. cbn [labels_bytes app onward_bytes fmap list_fmap mjoin list_join skip_loop].
    assert (0 ≤ p / 256 < 64) by (Z.div_mod_to_equations; lia). rewrite (proj2 (Z.eqb_neq _ 0)), a_pointer by lia. done.
  - change (labels_bytes (l :: ls)) with (label_bytes l ++ labels_bytes ls). unfold label_bytes. cbn [app skip_loop].
    unfold label_ok in Hl. rewrite (proj2 (Z.eqb_neq _ 0)), not_pointer by lia. rewrite Nat2Z.id, <-!app_assoc, drop_app_length, app_assoc. apply IH. lia.
Qed.

Lemma length_labels_bytes ls : (length ls ≤ length (labels_bytes ls))%nat.
Proof. induction ls as [|l ls IH]; [done|]. change (labels_bytes (l :: ls)) with (label_bytes l ++ labels_bytes ls). rewrite length_app. cbn. lia. Qed.

Lemma skip_name_name n r : name_ok n → skip_name (name_bytes n ++ r) = Ok r.
Proof.
  intros Hn. unfold skip_name. apply skip_loop_name; [done|]. pose proof (length_labels_bytes (labels n)). unfold name_bytes. rewrite !length_app. lia.
Qed.

(** ** Answers *)
Section answers.
Context (data_addr : Z) (g : list Z) (n len : nat).
Hypothesis n_is : n = (len + length g)%nat.
Hypothesis fits : 0 ≤ data_addr ∧ data_addr + Z.of_nat n < 2 ^ 32.

(** Before the end [more] holds as long as something of the message is left. *)
Lemma more_left s : (length s ≤ len)%nat → more data_addr n (s ++ g) (u32 (data_addr + Z.of_nat len)) = (0 <? Z.of_nat (length s)).
Proof using n_is fits.
  intros Hs. unfold more. rewrite u32_small, length_app by lia. subst n.
  destruct (Z.ltb_spec 0 (Z.of_nat (length s))); [apply Z.ltb_lt|apply Z.ltb_ge]; lia.
Qed.

Lemma skip_questions_ok qs : ∀ s, Forall question_ok qs → (length (mjoin (question_bytes <$> qs) ++ s) ≤ len)%nat →
  skip_questions data_addr (length qs) n (u32 (data_addr + Z.of_nat len)) (mjoin (question_bytes <$> qs) ++ s ++ g) = Ok (s ++ g).
Proof using n_is fits.
  induction qs as [|q qs IH]; intros s Hqs Hs; [done|]. apply Forall_cons in Hqs as [(Hn & Ht & Hc) Hqs].
  change (mjoin (question_bytes <$> q :: qs)) with (question_bytes q ++ mjoin (question_bytes <$> qs)) in *.
  cbn [length skip_questions]. rewrite app_assoc, more_left by done. rewrite <-!app_assoc in *. set (t := mjoin _ ++ s ++ g). 
  unfold question_bytes in *. rewrite !length_app, !length_be16 in Hs. rewrite (proj2 (Z.ltb_lt _ _)) by (rewrite !length_app, !length_be16; lia).
  rewrite <-!app_assoc, skip_name_name by done. cbn [res_bind]. rewrite get16_be16 by done. cbn [res_bind].
  rewrite drop_app_length' by (by rewrite length_be16). rewrite get16_be16 by done. cbn [res_bind].
  rewrite app_assoc, drop_app_length' by (by rewrite length_app, !length_be16). apply IH; [done|]. rewrite length_app. lia.
Qed.

Lemma scan_answers_ok rs : ∀ s, Forall record_ok rs → (length (mjoin (record_bytes <$> rs) ++ s) ≤ len)%nat →
  scan_answers data_addr (length rs) n (u32 (data_addr + Z.of_nat len)) (mjoin (record_bytes <$> rs) ++ s ++ g) = Ok (outcome_of rs).
Proof using n_is fits.
  induction rs as [|r rs IH]; intros s Hrs Hs; [done|]. apply Forall_cons in Hrs as [(Hn & Ht & Hc & Htl & Hd) Hrs].
  change (mjoin (record_bytes <$> r :: rs)) with (record_bytes r ++ mjoin (record_bytes <$> rs)) in *.
  cbn [length scan_answers]. rewrite app_assoc, more_left by done. rewrite <-!app_assoc in *. set (t := mjoin _ ++ s ++ g).
  unfold record_bytes in *. rewrite !length_app, !length_be16 in Hs. rewrite (proj2 (Z.ltb_lt _ _)) by (rewrite !length_app, !length_be16; lia).
  rewrite <-!app_assoc, skip_name_name by done. cbn [res_bind]. rewrite get16_be16 by done. cbn [res_bind].
  rewrite drop_app_length' by (by rewrite length_be16). rewrite get16_be16 by done. cbn [res_bind].
  rewrite (app_assoc (be16 _) (be16 _)), drop_app_length' by (by rewrite length_app, !length_be16).
  destruct (get32_four (r_ttl r) (be16 (Z.of_nat (length (r_data r))) ++ r_data r ++ t) Htl) as [v ->]. cbn [res_bind].
  rewrite (app_assoc (_ ++ _) (r_ttl r)), drop_app_length' by (by rewrite !length_app, !length_be16, Htl).
  rewrite get16_be16 by done. cbn [res_bind]. rewrite (app_assoc (_ ++ _) (be16 _)), drop_app_length' by (by rewrite !length_app, !length_be16, Htl).
  fold (is_address r). unfold outcome_of. rewrite filter_cons. destruct (is_address r) eqn:E; [rewrite decide_True by done|rewrite decide_False by (by intros ?)].
  - unfold is_address in E. rewrite !andb_true_iff, !Z.eqb_eq in E. destruct E as [_ E]. rewrite length_app, (proj2 (Nat.leb_le _ _)) by lia.
    by rewrite take_app_length' by lia.
  - rewrite Nat2Z.id, drop_app_length. apply IH; [done|]. rewrite length_app. lia.
Qed.
End answers.

Lemma resolve_message data_addr qs rs others g len : Forall question_ok qs → Forall record_ok rs →
  len = length (mjoin (question_bytes <$> qs) ++ mjoin (record_bytes <$> rs) ++ others) →
  0 ≤ data_addr → data_addr + Z.of_nat (len + length g) < 2 ^ 32 →
  resolve data_addr (Z.of_nat (length qs)) (Z.of_nat (length rs)) (mjoin (question_bytes <$> qs) ++ mjoin (record_bytes <$> rs) ++ others ++ g)
    (12 + Z.of_nat len) = Ok (outcome_of rs).
Proof.
  intros Hq Hr Hlen Ha Hf. unfold resolve. change (Z.of_nat sizeof_dns) with 12. replace (12 + Z.of_nat len - 12) with (Z.of_nat len) by lia.
  rewrite (u32_small (Z.of_nat _)), !Nat2Z.id by lia.
  assert (length (mjoin (question_bytes <$> qs) ++ mjoin (record_bytes <$> rs) ++ others ++ g) = len + length g)%nat as ->
    by (rewrite Hlen, !length_app; lia).
  assert (length (mjoin (record_bytes <$> rs) ++ others) ≤ len)%nat by (rewrite Hlen, !length_app; lia).
  rewrite (app_assoc (mjoin (record_bytes <$> rs))), (skip_questions_ok data_addr g _ len) by (done || lia).
  cbn [res_bind]. rewrite <-app_assoc. by apply (scan_answers_ok data_addr g _ len).
Qed.

(** ** Writing *)
Definition plain (l : list Z) : Prop := label_ok l ∧ Forall (λ c, c ≠ 46) l.

Lemma next_label_dot l r : Forall (λ c, c ≠ 46) l → next_label (l ++ 46 :: r) = (l, Some r).
Proof. induction 1 as [|c l Hc Hl IH]; cbn; [done|]. by rewrite (proj2 (Z.eqb_neq _ _)), IH. Qed.
Lemma next_label_end l : Forall (λ c, c ≠ 46) l → next_label l = (l, None).
Proof. induction 1 as [|c l Hc Hl IH]; cbn; [done|]. by rewrite (proj2 (Z.eqb_neq _ _)), IH. Qed.

Lemma wp_fill_name E ls : ∀ fuel buf m (Q : nat → list Z → Prop), ls ≠ [] → Forall plain ls → (length (dotted ls) < fuel)%nat →
  (buf + length (labels_bytes ls) + 1 ≤ length m)%nat →
  Q (buf + length (labels_bytes ls) + 1)%nat (list_inserts buf (labels_bytes ls ++ [0]) m) → wp E (fill_name fuel buf (dotted ls)) Q m.
Proof.
  induction ls as [|l ls IH]; intros [|fuel] buf m Q Hne Hp Hf Hm HQ; try done; [lia|]. apply Forall_cons in Hp as [[Hl Hd] Hp].
  change (labels_bytes (l :: ls)) with (label_bytes l ++ labels_bytes ls) in *. unfold label_ok in Hl.
  assert (∃ next, next_label (dotted (l :: ls)) = (l, next) ∧
    next = (if ls is [] then None else Some (dotted ls))) as (next & Hnext & Hnext').
  { destruct ls as [|l' ls]; cbn [dotted]; [rewrite next_label_end by done|rewrite next_label_dot by done]; by eexists. }
  cbn [fill_name]. rewrite Hnext, u8_small, Nat2Z.id, take_ge by lia. unfold label_bytes in *. rewrite !length_app in *. cbn [length] in *.
  apply wp_bind, wp_store; [cbn; lia|]. apply wp_bind, wp_store; [rewrite length_inserts; lia|].
  rewrite (inserts_next buf [_]). cbn [app]. subst next. destruct ls as [|l' ls].
  - change (labels_bytes []) with (@nil Z) in *. cbn [length] in *.
    apply wp_bind, wp_store; [rewrite length_inserts; cbn; lia|]. apply wp_ret.
    replace (buf + 1 + length l)%nat with (buf + length (Z.of_nat (length l) :: l))%nat by (cbn; lia). rewrite inserts_next.
    rewrite app_nil_r in HQ. replace (buf + length (Z.of_nat (length l) :: l) + 1)%nat with (buf + (S (length l) + 0) + 1)%nat by (cbn; lia). done.
  - apply (IH fuel _ _ Q); [done|done| |rewrite length_inserts; lia|].
    + cbn [dotted] in *. rewrite length_app in Hf. cbn in Hf. lia.
    + replace (buf + 1 + length l)%nat with (buf + length (Z.of_nat (length l) :: l))%nat by (cbn; lia). rewrite inserts_next, app_assoc.
      replace (buf + length (Z.of_nat (length l) :: l) + _ + 1)%nat with (buf + (S (length l) + length (labels_bytes (l' :: ls))) + 1)%nat by (cbn; lia). done.
Qed.

Lemma length_dotted ls : ls ≠ [] → length (labels_bytes ls) = S (length (dotted ls)).
Proof.
  induction ls as [|l ls IH]; intros H; [done|]. change (labels_bytes (l :: ls)) with (label_bytes l ++ labels_bytes ls). unfold label_bytes.
  rewrite length_app. destruct ls as [|l' ls]; [cbn; lia|]. change (dotted (l :: l' :: ls)) with (l ++ 46 :: dotted (l' :: ls)).
  rewrite length_app, IH by done. cbn [length]. lia.
Qed.

(** The question of a query for [ls]. *)
Definition asked (ls : list (list Z)) (type cls : Z) : question := mk_question (mk_dname ls None) type cls.

Lemma wp_fill_payload E ls type cls data m (Q : Z → list Z → Prop) : ls ≠ [] → Forall plain ls → (data + length (dotted ls) + 6 ≤ length m)%nat →
  Q (Z.of_nat (length (dotted ls) + 6)) (list_inserts data (question_bytes (asked ls type cls)) m) → wp E (fill_payload data (dotted ls) type cls) Q m.
Proof.
  intros Hne Hp Hm HQ. pose proof (length_dotted ls Hne) as Hl. unfold fill_payload. apply wp_bind, wp_fill_name; [done|done|lia|lia|].
  assert (data + length (labels_bytes ls) + 1 = data + length (labels_bytes ls ++ [0%Z]))%nat as Ea by (rewrite length_app; cbn; lia). rewrite Ea.
  apply wp_bind, wp_store; [rewrite length_inserts, length_be16, length_app; cbn; lia|].
  apply wp_bind, wp_store; [rewrite length_inserts, length_inserts, length_be16, length_app; cbn; lia|]. apply wp_ret.
  rewrite inserts_next. replace (data + length (labels_bytes ls ++ [0%Z]) + 2)%nat with (data + length ((labels_bytes ls ++ [0%Z]) ++ be16 type))%nat
    by (rewrite !length_app, length_be16; lia). rewrite inserts_next, <-!app_assoc.
  replace (data + length (labels_bytes ls ++ [0%Z]) + 4 - data)%nat with (length (dotted ls) + 6)%nat by (rewrite length_app; cbn; lia).
  unfold question_bytes, name_bytes in HQ. cbn [q_name q_type q_class asked labels onward onward_bytes] in HQ. by rewrite <-!app_assoc in HQ.
Qed.

(** The query that is sent. *)
Definition query (id : Z) (ls : list (list Z)) : list Z :=
  message id [1; 0] [asked ls DNS_TYPE_A DNS_CLASS_IN] [] (replicate 4 0) [].

Lemma header_stores id m : (12 ≤ length m)%nat →
  list_inserts 4 (be16 1) (list_inserts 2 [1] (list_inserts 0 (le_bytes 2 id) (list_inserts 0 (replicate 12 0) m))) =
  (le_bytes 2 id ++ [1; 0] ++ be16 1 ++ be16 0 ++ replicate 4 0) ++ drop 12 m.
Proof. intros H. do 12 (destruct m as [|? m]; cbn [length] in H; [lia|]). done. Qed.

Lemma length_query id ls : ls ≠ [] → length (query id ls) = (12 + (length (dotted ls) + 6))%nat.
Proof.
  intros Hne. unfold query, message. cbn [fmap list_fmap mjoin list_join]. unfold question_bytes, name_bytes, asked. cbn [q_name labels onward onward_bytes].
  rewrite !length_app, !length_be16, length_le_bytes, length_dotted by done. cbn. lia.
Qed.

Lemma query_stored id ls m : ls ≠ [] → (length (query id ls) ≤ length m)%nat →
  list_inserts 12 (question_bytes (asked ls DNS_TYPE_A DNS_CLASS_IN))
    (list_inserts 4 (be16 1) (list_inserts 2 [1] (list_inserts 0 (le_bytes 2 id) (list_inserts 0 (replicate 12 0) m)))) =
  query id ls ++ drop (length (query id ls)) m.
Proof.
  intros Hne Hm. pose proof (length_query id ls Hne) as Hl. rewrite header_stores by lia. set (h := le_bytes 2 id ++ _).
  assert (query id ls = h ++ question_bytes (asked ls DNS_TYPE_A DNS_CLASS_IN)) as Hq.
  { unfold query, message, h. cbn [fmap list_fmap mjoin list_join length]. by rewrite <-!app_assoc, !app_nil_r. }
  assert (length h = 12%nat) as Hh by (unfold h; rewrite !length_app, !length_be16, length_le_bytes; done).
  rewrite <-Hh at 1. rewrite <-(Nat.add_0_r (length h)), list_inserts_app_r, Hq, <-app_assoc. f_equal.
  rewrite head_of, drop_drop, length_app, Hh; [done|]. rewrite Hq, length_app, Hh in Hm. rewrite length_drop. lia.
Qed.

Lemma message_parts id flags qs rs counts others g : length flags = 2%nat → length counts = 4%nat →
  let body := mjoin (question_bytes <$> qs) ++ mjoin (record_bytes <$> rs) ++ others in
  let m := message id flags qs rs counts others in
  length m = (12 + length body)%nat ∧ (∃ r, drop 4 (m ++ g) = be16 (Z.of_nat (length qs)) ++ r) ∧
  (∃ r, drop 6 (m ++ g) = be16 (Z.of_nat (length rs)) ++ r) ∧
  drop 12 (m ++ g) = mjoin (question_bytes <$> qs) ++ mjoin (record_bytes <$> rs) ++ others ++ g.
Proof.
  intros Hf Hc body m. unfold m, message. fold body.
  split; [rewrite !length_app, !length_be16, length_le_bytes, Hf, Hc; lia|].
  rewrite <-!app_assoc. split; [|split].
  - rewrite (app_assoc (le_bytes 2 id)), drop_app_length' by (rewrite length_app, length_le_bytes; lia). by eexists.
  - rewrite (app_assoc (le_bytes 2 id)), (app_assoc (_ ++ flags)), drop_app_length'
      by (rewrite !length_app, length_le_bytes, length_be16; lia). by eexists.
  - rewrite (app_assoc (le_bytes 2 id)). do 3 rewrite (app_assoc (_ ++ _)). rewrite drop_app_length'
      by (rewrite !length_app, length_le_bytes, !length_be16; lia). unfold body. by rewrite <-!app_assoc.
Qed.

(** The socket gives [k] packets that hold an identification, another one than the query's,
    and then the reply.  A shorter packet would leave the identification of the query in the
    buffer, which the packets overwrite, and end the loop. *)
Definition arrives (recv : nat → Z * list Z) (id : Z) (n k : nat) (reply : list Z) : Prop :=
  (∀ i, (n ≤ i < n + k)%nat → (2 ≤ length (recv i).2 ≤ 512)%nat ∧ le (take 2 (recv i).2) ≠ id) ∧
  recv (n + k)%nat = (Z.of_nat (length reply), reply) ∧ (length reply ≤ 512)%nat ∧ take 2 reply = le_bytes 2 id ∧ word id.

Lemma wp_recv_loop E recv id reply k : ∀ n fuel m (Q : Z → list Z → Prop), arrives recv id n k reply → (k < fuel)%nat → (512 ≤ length m)%nat →
  (∀ m', length m' = length m → Q (Z.of_nat (length reply)) (reply ++ drop (length reply) m')) → wp E (recv_loop recv fuel n id) Q m.
Proof.
  induction k as [|k IH]; intros n [|fuel] m Q (Hf & Hr & Hl & Hid & Hw) Hk Hm HQ; try lia; cbn [recv_loop].
  - rewrite Nat.add_0_r in Hr. rewrite Hr. apply wp_bind, wp_store; [lia|]. apply wp_bind, wp_get.
    rewrite head_of by lia. assert (2 ≤ length reply)%nat by (apply (f_equal length) in Hid; rewrite length_take, length_le_bytes in Hid; lia).
    rewrite take_app_le, Hid, le_le_bytes, Z.mod_small, Z.eqb_refl by (exact Hw || lia). apply wp_ret. by apply HQ.
  - destruct (Hf n ltac:(lia)) as [Hlen Hne]. destruct (recv n) as [r pkt]. cbn [snd] in *.
    apply wp_bind, wp_store; [lia|]. apply wp_bind, wp_get. rewrite head_of, take_app_le by lia. rewrite (proj2 (Z.eqb_neq _ _)) by done.
    apply IH; [|lia|rewrite length_app, length_drop; lia|].
    + split; [intros i Hi; apply Hf; lia|]. by replace (S n + k)%nat with (n + S k)%nat by lia.
    + intros m' Hm'. apply HQ. rewrite Hm', length_app, length_drop. lia.
Qed.

(** C37: resolving a name. For a name of labels without points, of at most 253 characters, and a
    server that answers, after any number of packets of at least two bytes with another
    identification, with a message of questions, answers and whatever follows, each name of
    which may end in a pointer, [sys_resolv] sends the query for the name and returns the first answer that is an
    address, or [-EINVAL] when there is none. *)
Theorem resolv_answers data_addr recv fuel fd time ls m k qs rs flags counts others
    (Hfd : 0 ≤ fd) (Hm : length m = 2048%nat) (Haddr : 0 ≤ data_addr < 2 ^ 32 - 2048)
    (Hne : ls ≠ []) (Hls : Forall plain ls) (Hlen : (length (dotted ls) ≤ 253)%nat)
    (Hqs : Forall question_ok qs) (Hrs : Forall record_ok rs) (Hflags : length flags = 2%nat) (Hcounts : length counts = 4%nat)
    (Hk : (k < fuel)%nat)
    (Hrecv : arrives recv (Z.land time 0xFFFF) 0 k (message (Z.land time 0xFFFF) flags qs rs counts others)) :
  ∃ m', sys_resolv data_addr recv fuel fd time (dotted ls) m =
    Ok ((outcome_of rs).1, (outcome_of rs).2, query (Z.land time 0xFFFF) ls, m').
Proof.
  set (id := Z.land time 0xFFFF) in *. set (reply := message id flags qs rs counts others) in *.
  assert (wp no_stop (sys_resolv data_addr recv fuel fd time (dotted ls))
    (λ v _, v = ((outcome_of rs).1, (outcome_of rs).2, query id ls)) m) as H.
  2: { unfold wp in H. destruct (sys_resolv data_addr recv fuel fd time (dotted ls) m) as [[v m']|]; [|done]. exists m'. by rewrite H. }
  pose proof (length_query id ls Hne) as Hq. unfold sys_resolv. rewrite (proj2 (Z.ltb_ge _ _)) by lia. fold id.
  change sizeof_dns with 12%nat.
  do 4 (apply wp_bind, wp_store; [rewrite ?length_inserts, ?length_be16, ?length_le_bytes, ?length_replicate; cbn [length]; lia|]).
  apply wp_bind, wp_fill_payload; [done|done|rewrite !length_inserts; lia|]. rewrite query_stored by (done || lia).
  apply wp_bind, wp_gets, wp_bind. rewrite Nat2Z.id, take_app_length' by lia.
  eapply wp_recv_loop; [exact Hrecv|done|rewrite length_app, length_drop; lia|]. intros m' Hm'. rewrite length_app, length_drop in Hm'.
  destruct Hrecv as (_ & _ & Hr & _ & Hid). set (g := drop (length reply) m').
  destruct (message_parts id flags qs rs counts others g Hflags Hcounts) as (Hml & [r4 H4] & [r6 H6] & H12). fold reply in Hml, H4, H6, H12.
  rewrite !length_app in Hml.
  assert (length qs ≤ length (mjoin (question_bytes <$> qs)))%nat by (apply counted; intros; unfold question_bytes; rewrite !length_app, length_be16; lia).
  assert (length rs ≤ length (mjoin (record_bytes <$> rs)))%nat by (apply counted; intros; unfold record_bytes; rewrite !length_app, length_be16; lia).
  assert (word (Z.of_nat (length qs)) ∧ word (Z.of_nat (length rs))) as [Wq Wr] by (unfold word; lia).
  apply wp_bind, wp_get, wp_bind. eapply wp_lift; [rewrite H4; by apply get16_be16|].
  apply wp_bind. eapply wp_lift; [rewrite H6; by apply get16_be16|].
  apply wp_bind, (wp_lift _ _ (outcome_of rs)); [|by destruct (outcome_of rs)]. rewrite H12, Hml, Nat2Z.inj_add.
  apply (resolve_message data_addr qs rs others g); [done|done|by rewrite !length_app|lia|]. unfold g. rewrite length_drop. lia.
Qed.

(** "a.bc" with one stray packet, an alias and then the address of the name it points to. *)
Definition demo_reply : list Z :=
  message 7 [129; 128] [asked [[97]; [98; 99]] 1 1]
    [mk_record (mk_dname [] (Some 12)) 5 1 [0; 0; 0; 9] [1; 120; 0]; mk_record (mk_dname [[120]] None) 1 1 [0; 0; 0; 9] [10; 0; 0; 1]] [0; 0; 0; 0] [].
Lemma resolv_answers_witness : ∃ m',
  sys_resolv 0xF0C (λ n, if decide (n = 0)%nat then (2, [9; 9]) else (Z.of_nat (length demo_reply), demo_reply)) 5 3 7 [97; 46; 98; 99] (replicate 2048 1) =
  Ok (0, Some [10; 0; 0; 1], [7; 0; 1; 0; 0; 1; 0; 0; 0; 0; 0; 0; 1; 97; 2; 98; 99; 0; 0; 1; 0; 1], m').
Proof.
  apply (resolv_answers 0xF0C (λ n, if decide (n = 0)%nat then (2, [9; 9]) else (Z.of_nat (length demo_reply), demo_reply)) 5 3 7 [[97]; [98; 99]] (replicate 2048 1) 1
    [asked [[97]; [98; 99]] 1 1] [mk_record (mk_dname [] (Some 12)) 5 1 [0; 0; 0; 9] [1; 120; 0]; mk_record (mk_dname [[120]] None) 1 1 [0; 0; 0; 9] [10; 0; 0; 1]]
    [129; 128] [0; 0; 0; 0] []); try (cbn; lia); try done.
  - repeat constructor; done.
  - repeat constructor; cbn; lia.
  - repeat constructor; cbn; lia.
  - split; [|split; [|split; [|split]]]; try done; try (cbn; lia). intros i Hi. assert (i = 0)%nat as -> by lia. split; [split; by apply Nat.leb_le|done].
Defined.
