(* ===== verification/Dhcp.v ===== *)
(** * The DHCP client ([src/src/net/dhcp.c])

    The system calls on sockets are parameters.  A packet is built in the buffer that
    [pbuf_get] returns, whose bytes are what its last user left, and is released at the end
    of the call.  Addresses and offsets of frames are those of Net. *)
From S2P Require Import Prelude Bytes Chksum Net Frame.
From S2P Require Task TcpWire.
Open Scope Z_scope.

Definition OPT_PAD : Z := 0.
Definition OPT_SUBNET_MASK : Z := 1.
Definition OPT_ROUTER : Z := 3.
Definition OPT_DOMAIN_NAME_SERVER : Z := 6.
Definition OPT_DOMAIN_NAME : Z := 15.
Definition OPT_BROADCAST_ADDRESS : Z := 28.
Definition OPT_DHCP_REQUESTED_ADDRESS : Z := 50.
Definition OPT_DHCP_LEASE_TIME : Z := 51.
Definition OPT_DHCP_MESSAGE_TYPE : Z := 53.
Definition OPT_DHCP_SERVER_IDENTIFIER : Z := 54.
Definition OPT_DHCP_PARAMETER_REQUEST_LIST : Z := 55.
Definition OPT_DHCP_RENEWAL_TIME : Z := 58.
Definition OPT_DHCP_REBINDING_TIME : Z := 59.
Definition OPT_END : Z := 255.
Definition DHCP_BOOTREQUEST : Z := 1.
Definition DHCP_BOOTREPLY : Z := 2.
Definition DHCP_DISCOVER : Z := 1.
Definition DHCP_OFFER : Z := 2.
Definition DHCP_REQUEST : Z := 3.
Definition DHCP_ACK : Z := 5.
Definition DHCP_RELEASE : Z := 7.
Definition DHCP_MAGIC : Z := 0x63825363.
Definition DHCP_SERVER_PORT : Z := 67.
Definition DHCP_CLIENT_PORT : Z := 68.
Definition ARP_HARDWARE_ETH : Z := 1.
Definition ARP_HARDWARE_ETH_LEN : Z := 6.
Definition IP_TTL : Z := 64.
Definition IP_PROTOCOL_UDP : Z := 17.
Definition IP_ANY : Z := 0.
Definition IP_BROADCAST : Z := 0xFFFFFFFF.

(** Offsets in [dhcp_t]. *)
Definition d_op : Z := 0.
Definition d_htype : Z := 1.
Definition d_hlen : Z := 2.
Definition d_xid : Z := 4.
Definition d_ciaddr : Z := 12.
Definition d_yiaddr : Z := 16.
Definition d_chaddr : Z := 28.
Definition d_magic : Z := 236.
Definition sizeof_dhcp : Z := 240.

Record dhcp_pcb_t := mk_pcb { netif : Z; server : Z; expires : Z; lease_time : Z; renewal_time : Z; rebinding_time : Z }.
#[export] Instance expand_pcb : Expand dhcp_pcb_t := λ p,
  mk_pcb (netif p) (server p) (expires p) (lease_time p) (renewal_time p) (rebinding_time p).

(** [dhcp_list] with the blocks it holds, the interfaces, and the tasks with their clock. *)
Record client := mk_client { dhcp_list : list Z; pcbs : gmap Z dhcp_pcb_t; interfaces : gmap Z netif_t; clock : Task.sched }.
#[export] Instance expand_client : Expand client := λ s, mk_client (dhcp_list s) (pcbs s) (interfaces s) (clock s).

Definition the_pcb (a : Z) : ST client dhcp_pcb_t := st_deref (λ s, pcbs s !! a).
Definition the_interface (a : Z) : ST client netif_t := st_deref (λ s, interfaces s !! a).

(** ** Messages *)
Definition mput (off : Z) (l : list Z) : ST (list Z) unit := store (Z.to_nat off) l.
Definition mset (n : nat) (off v : Z) : ST (list Z) unit := mput off (le_bytes n v).

(** The options are stored one after the other; the value is their size. *)
Definition dhcp_discover_option (options : Z) : ST (list Z) Z :=
  do! mput options [OPT_DHCP_MESSAGE_TYPE; 1; DHCP_DISCOVER];
  do! mput (options + 3) [OPT_DHCP_PARAMETER_REQUEST_LIST; 3; OPT_ROUTER; OPT_SUBNET_MASK; OPT_DOMAIN_NAME_SERVER];
  do! mput (options + 8) [OPT_END];
  st_ret 9.
Definition dhcp_release_option (server options : Z) : ST (list Z) Z :=
  do! mput options [OPT_DHCP_MESSAGE_TYPE; 1; DHCP_RELEASE];
  do! mput (options + 3) ([OPT_DHCP_SERVER_IDENTIFIER; 4] ++ le_bytes 4 server);
  do! mput (options + 9) [OPT_END];
  st_ret 10.
Definition dhcp_request_option (ipaddr server options : Z) : ST (list Z) Z :=
  do! mput options [OPT_DHCP_MESSAGE_TYPE; 1; DHCP_REQUEST];
  do! mput (options + 3) ([OPT_DHCP_REQUESTED_ADDRESS; 4] ++ le_bytes 4 ipaddr);
  do! mput (options + 9) ([OPT_DHCP_SERVER_IDENTIFIER; 4] ++ le_bytes 4 server);
  do! mput (options + 15) [OPT_END];
  st_ret 16.

(** What [dhcp_request] and [dhcp_release] store before the options, and the length. *)
Definition client_message (n : netif_t) (xid : Z) (opts : Z → ST (list Z) Z) : ST (list Z) Z :=
  do! mput 0 (replicate (Z.to_nat sizeof_dhcp) 0);
  do! mput d_op [DHCP_BOOTREQUEST];
  do! mput d_hlen [ARP_HARDWARE_ETH_LEN];
  do! mput d_htype [ARP_HARDWARE_ETH];
  do! mset 4 d_xid xid;
  do! mset 4 d_ciaddr (ipaddr n);
  do! mput d_chaddr (hwaddr n);
  do! mset 4 d_magic (htonl DHCP_MAGIC);
  let* size := opts sizeof_dhcp in
  st_ret (u16 (sizeof_dhcp + size)).

(** The frame of [dhcp_discover], and its length. *)
Definition udp_at : Z := sizeof_eth + sizeof_ip.
Definition dhcp_at : Z := udp_at + sizeof_udp.
Definition discover_frame (n : netif_t) (xid : Z) : ST (list Z) Z :=
  do! mput dhcp_at (replicate (Z.to_nat sizeof_dhcp) 0);
  do! mput (dhcp_at + d_op) [DHCP_BOOTREQUEST];
  do! mset 4 (dhcp_at + d_xid) xid;
  do! mput (dhcp_at + d_hlen) [ARP_HARDWARE_ETH_LEN];
  do! mput (dhcp_at + d_htype) [ARP_HARDWARE_ETH];
  do! mset 4 (dhcp_at + d_magic) (htonl DHCP_MAGIC);
  do! mput (dhcp_at + d_chaddr) (hwaddr n);
  let* size := dhcp_discover_option (dhcp_at + sizeof_dhcp) in
  let len := u16 (sizeof_dhcp + size) in
  do! mset 2 u_sport (htons DHCP_CLIENT_PORT);
  do! mset 2 u_dport (htons DHCP_SERVER_PORT);
  let len := u16 (len + sizeof_udp) in
  do! mset 2 u_length (htons len);
  do! mset 2 u_chksum 0;
  let* m := st_get in
  let* c := st_lift (inet_chksum (bytes_at udp_at len m) len IP_ANY IP_BROADCAST IP_PROTOCOL_UDP) in
  do! mset 2 u_chksum c;
  do! mput i_header [5 + 16 * 4];
  do! mput i_tos [0];
  let len := u16 (len + sizeof_ip) in
  do! mset 2 i_length (htons len);
  do! mset 2 i_id 0;
  do! mput i_frag [0];
  do! mput i_offset1 [0];
  do! mput i_ttl [IP_TTL];
  do! mput i_proto [IP_PROTOCOL_UDP];
  do! mset 4 i_dst IP_BROADCAST;
  do! mset 4 i_src IP_ANY;
  do! mset 2 i_chksum 0;
  let* m := st_get in
  let* c := st_lift (ip_chksum (bytes_at sizeof_eth sizeof_ip m)) in
  do! mset 2 i_chksum c;
  do! mput e_src (hwaddr n);
  do! mput e_dst (replicate 6 0xFF);
  do! mset 2 e_type (htons ETH_TYPE_IP);
  st_ret (u16 (len + sizeof_eth)).

(** ** [dhcp_parse_option]

    [value] is the memory after the size; the value of a turn is [None] for [goto rollback].
    The options that are only printed are skipped; the read of the byte after a domain name
    remains. *)
Definition address (value : list Z) : res Z := if (4 <=? length value)%nat then Ok (le (take 4 value)) else Stop Fault.
Definition parse_one (type size : Z) (value : list Z) (pcb : dhcp_pcb_t) (n : netif_t) (clock : Task.sched) : res (option (dhcp_pcb_t * netif_t)) :=
  if type =? OPT_SUBNET_MASK then
    if negb (size =? 4) then Ok None else let! a := address value in Ok (Some (pcb, n <| netmask := a |>))
  else if type =? OPT_ROUTER then
    if negb (size =? 4) then Ok None else let! a := address value in Ok (Some (pcb, n <| gateway := a |>))
  else if type =? OPT_DOMAIN_NAME then let! _ := deref (value !! Z.to_nat size) in Ok (Some (pcb, n))
  else if type =? OPT_BROADCAST_ADDRESS then let! a := address value in Ok (Some (pcb, n <| broadcast := a |>))
  else if type =? OPT_DHCP_LEASE_TIME then
    if negb (size =? 4) then Ok None
    else
      let! l := address value in
      let l := htonl l in
      Ok (Some (pcb <| lease_time := l |> <| expires := s32 (Task.timer_expire_jiffies (u32 (l * 500)) clock) |>, n))
  else if type =? OPT_DHCP_MESSAGE_TYPE then
    if negb (size =? 1) then Ok None
    else let! v := deref (head value) in if negb (v =? DHCP_OFFER) && negb (v =? DHCP_ACK) then Ok None else Ok (Some (pcb, n))
  else if type =? OPT_DHCP_SERVER_IDENTIFIER then
    if negb (size =? 4) then Ok None else let! a := address value in Ok (Some (pcb <| server := a |>, n))
  else if type =? OPT_DHCP_RENEWAL_TIME then let! t := address value in Ok (Some (pcb <| renewal_time := htonl t |>, n))
  else if type =? OPT_DHCP_REBINDING_TIME then let! t := address value in Ok (Some (pcb <| rebinding_time := htonl t |>, n))
  else Ok (Some (pcb, n)).

(** [true] at [success]. *)
Fixpoint parse_loop (fuel : nat) (ptr : list Z) (pcb : dhcp_pcb_t) (n : netif_t) (clock : Task.sched) : res (dhcp_pcb_t * netif_t * bool) :=
  match fuel with
  | O => Stop Fuel
  | S fuel' =>
      match ptr with
      | [] => Stop Fault
      | type :: ptr' =>
          if type =? OPT_END then Ok (pcb, n, true)
          else
            match ptr' with
            | [] => Stop Fault
            | size :: value =>
                let! r := parse_one type size value pcb n clock in
                match r with
                | None => Ok (pcb, n, false)
                | Some (pcb, n) => parse_loop fuel' (drop (Z.to_nat size) value) pcb n clock
                end
            end
      end
  end.

(** [m] is the memory from [dhcp] on. *)
Definition dhcp_parse_option (m : list Z) (pcb : dhcp_pcb_t) (n : netif_t) (clock : Task.sched) : res (dhcp_pcb_t * netif_t) :=
  let! (pcb, n, success) := parse_loop (S (length m)) (drop (Z.to_nat sizeof_dhcp) m) pcb n clock in
  let yiaddr := bytes_at d_yiaddr 4 m in
  if success && negb (le yiaddr =? 0)
  then Ok (pcb, n <| ipaddr := le yiaddr |> <| broadcast := le (<[3%nat := 255]> yiaddr) |>)
  else Ok (pcb, n).

(** ** The calls on sockets *)

(** What leaves the host: a frame through the interface with this index, or a datagram from
    and to addresses and ports in network order. *)
Inductive sent := Raw (index : Z) (bytes : list Z) | Datagram (laddr lport raddr rport : Z) (bytes : list Z).

Section client.
(** The results of [socket], the two [setsockopt] (the time to wait, and the interface of
    [dhcp_discover]), [bind], [connect], [send] and the two of [ioctl], and the answer of the call number [n] of [recv]; what [time] gives and the bytes of the
    buffer. *)
Context (fd opt_ret netif_ret bind_ret connect_ret send_ret : Z) (ioctl_ret : Z * Z) (recv : nat → Z * list Z) (time : Z) (garbage : list Z).

(** [at]: where [dhcp] is in the buffer. *)
Fixpoint recv_loop (fuel n : nat) (at_ : Z) : ST (list Z) bool :=
  match fuel with
  | O => st_stop Fuel
  | S fuel' =>
      let '(ret, bytes) := recv n in
      do! store 0 bytes;
      if ret <? 0 then st_ret false
      else
        let* m := st_get in
        if fld 4 (at_ + d_xid) m =? time then st_ret true else recv_loop fuel' (S n) at_
  end.

(** The end of [dhcp_discover] and [dhcp_request], from the first [recv] on. *)
Definition await (fuel : nat) (at_ : Z) (m : list Z) (a : Z) : ST client unit :=
  let* (got, m) := st_lift (recv_loop fuel 0 at_ m) in
  if negb got then st_ret tt
  else
    let m := drop (Z.to_nat at_) m in
    if negb (fld 4 d_magic m =? htonl DHCP_MAGIC) then st_ret tt
    else if negb (fld 1 d_op m =? DHCP_BOOTREPLY) then st_ret tt
    else
      let* pcb := the_pcb a in
      let* n := the_interface (netif pcb) in
      let* c := st_gets clock in
      let* (pcb', n') := st_lift (dhcp_parse_option m pcb n c) in
      st_mod (λ s, s <| pcbs $= <[a := pcb']> |> <| interfaces $= <[netif pcb := n']> |>).

(** The value is what was sent. *)
Definition dhcp_discover (fuel : nat) (a : Z) : ST client (option sent) :=
  if (fd <? EOK) || (opt_ret <? EOK) || (ioctl_ret.1 <? 0) || (netif_ret <? 0) then st_ret None
  else
    let* pcb := the_pcb a in
    let* n := the_interface (netif pcb) in
    let* (len, m) := st_lift (discover_frame n time garbage) in
    let out := Some (Raw ioctl_ret.2 (bytes_at 0 len m)) in
    if send_ret <? 0 then st_ret out
    else do! await fuel dhcp_at m a; st_ret out.

(** The socket of [dhcp_request] and [dhcp_release]: bound to the address of the interface,
    connected to the server. *)
Definition client_send (opts : dhcp_pcb_t → netif_t → Z → ST (list Z) Z) (a : Z) : ST client (option sent * list Z) :=
  if (fd <? EOK) || (opt_ret <? EOK) || (bind_ret <? EOK) || (connect_ret <? EOK) then st_ret (None, garbage)
  else
    let* pcb := the_pcb a in
    let* n := the_interface (netif pcb) in
    let* (len, m) := st_lift (client_message n time (opts pcb n) garbage) in
    st_ret (Some (Datagram (ipaddr n) (htons DHCP_CLIENT_PORT) (server pcb) (htons DHCP_SERVER_PORT) (bytes_at 0 len m)), m).

Definition dhcp_request (fuel : nat) (a : Z) : ST client (option sent) :=
  let* (out, m) := client_send (λ pcb n, dhcp_request_option (ipaddr n) (server pcb)) a in
  match out with
  | None => st_ret None
  | Some _ => if send_ret <? EOK then st_ret out else do! await fuel 0 m a; st_ret out
  end.

Definition dhcp_release (a : Z) : ST client (option sent) :=
  let* pcb := the_pcb a in
  let* n := the_interface (netif pcb) in
  if server pcb =? 0 then st_ret None
  else if ipaddr n =? 0 then st_ret None
  else let* (out, _) := client_send (λ pcb _, dhcp_release_option (server pcb)) a in st_ret out.

Definition dhcp_query (fuel : nat) (a : Z) : ST client (option sent) :=
  let* pcb := the_pcb a in
  let* n := the_interface (netif pcb) in
  if ipaddr n =? 0 then dhcp_discover fuel a else dhcp_request fuel a.

(** ** The list of clients *)
Fixpoint find_in (netif_ : Z) (l : list Z) : ST client (option Z) :=
  match l with
  | [] => st_ret None
  | a :: l' => let* pcb := the_pcb a in if netif pcb =? netif_ then st_ret (Some a) else find_in netif_ l'
  end.
Definition find_pcb (netif_ : Z) : ST client (option Z) := let* l := st_gets dhcp_list in find_in netif_ l.

(** [new] is what [kmalloc] returns; the task is woken. *)
Definition dhcp_start (new netif_ : Z) (unblock : Task.sched → res Task.sched) : ST client unit :=
  let* p := find_pcb netif_ in
  match p with
  | Some _ => st_ret tt
  | None =>
      let* l := st_gets dhcp_list in
      let* l := st_lift (list_push new l) in
      do! st_mod (λ s, s <| pcbs $= <[new := mk_pcb netif_ 0 0 0 0 0]> |> <| dhcp_list := l |>);
      let* c := st_gets clock in
      let* c := st_lift (unblock c) in
      st_mod (λ s, s <| clock := c |>)
  end.

Definition dhcp_stop (netif_ : Z) : ST client (option sent) :=
  let* p := find_pcb netif_ in
  match p with
  | None => st_ret None
  | Some a =>
      let* out := dhcp_release a in
      do! st_mod (λ s, s <| interfaces $= alter (λ n, n <| ipaddr := 0 |> <| netmask := 0 |> <| gateway := 0 |> <| broadcast := 0 |>) netif_ |>);
      let* l := st_gets dhcp_list in
      let* l := st_lift (list_remove a l) in
      do! st_mod (λ s, s <| dhcp_list := l |> <| pcbs $= delete a |>);
      st_ret out
  end.

(** A turn of [dhcp_timer], up to the call that blocks it. *)
Fixpoint query_all (fuel : nat) (l : list Z) : ST client (list (option sent)) :=
  match l with
  | [] => st_ret []
  | a :: l' =>
      let* pcb := the_pcb a in
      let* c := st_gets clock in
      if negb (Task.timer_is_expires (u32 (expires pcb)) c) then query_all fuel l'
      else let* out := dhcp_query fuel a in let* outs := query_all fuel l' in st_ret (out :: outs)
  end.
Definition dhcp_timer (fuel : nat) : ST client (list (option sent)) := let* l := st_gets dhcp_list in query_all fuel l.

Definition dhcp_init : ST client unit := st_mod (λ s, s <| dhcp_list := [] |>).
End client.

(** ** What a server says

    An option is its type and its value; those that are used have the size that they are
    read with, and the message is an offer or an acknowledgement. *)
Definition option_bytes (o : Z * list Z) : list Z := o.1 :: Z.of_nat (length o.2) :: o.2.
Definition four (t : Z) : bool :=
  (t =? OPT_SUBNET_MASK) || (t =? OPT_ROUTER) || (t =? OPT_BROADCAST_ADDRESS) || (t =? OPT_DHCP_LEASE_TIME) ||
  (t =? OPT_DHCP_SERVER_IDENTIFIER) || (t =? OPT_DHCP_RENEWAL_TIME) || (t =? OPT_DHCP_REBINDING_TIME).
Definition option_ok (o : Z * list Z) : Prop :=
  o.1 ≠ OPT_PAD ∧ o.1 ≠ OPT_END ∧ (four o.1 = true → length o.2 = 4%nat) ∧
  (o.1 = OPT_DHCP_MESSAGE_TYPE → o.2 = [DHCP_OFFER] ∨ o.2 = [DHCP_ACK]) ∧ Forall byte o.2.

Definition take_option (clock : Task.sched) (c : dhcp_pcb_t * netif_t) (o : Z * list Z) : dhcp_pcb_t * netif_t :=
  let a := le o.2 in
  if o.1 =? OPT_SUBNET_MASK then (c.1, c.2 <| netmask := a |>)
  else if o.1 =? OPT_ROUTER then (c.1, c.2 <| gateway := a |>)
  else if o.1 =? OPT_BROADCAST_ADDRESS then (c.1, c.2 <| broadcast := a |>)
  else if o.1 =? OPT_DHCP_LEASE_TIME
  then (c.1 <| lease_time := htonl a |> <| expires := s32 (Task.timer_expire_jiffies (u32 (htonl a * 500)) clock) |>, c.2)
  else if o.1 =? OPT_DHCP_SERVER_IDENTIFIER then (c.1 <| server := a |>, c.2)
  else if o.1 =? OPT_DHCP_RENEWAL_TIME then (c.1 <| renewal_time := htonl a |>, c.2)
  else if o.1 =? OPT_DHCP_REBINDING_TIME then (c.1 <| rebinding_time := htonl a |>, c.2)
  else c.

(** What the parser makes of the options and the address [yi]. *)
Definition parsed (clock : Task.sched) (opts : list (Z * list Z)) (yi : list Z) (c : dhcp_pcb_t * netif_t) : dhcp_pcb_t * netif_t :=
  let c := fold_left (take_option clock) opts c in
  if le yi =? 0 then c else (c.1, c.2 <| ipaddr := le yi |> <| broadcast := le (<[3%nat := 255]> yi) |>).

Lemma address_four v r : length v = 4%nat → address (v ++ r) = Ok (le v).
Proof. intros Hv. unfold address. rewrite length_app, (proj2 (Nat.leb_le _ _)) by lia. by rewrite take_app_length'. Qed.

Lemma parse_one_ok o r c clock : option_ok o → r ≠ [] →
  parse_one o.1 (Z.of_nat (length o.2)) (o.2 ++ r) c.1 c.2 clock = Ok (Some (take_option clock c o)).
Proof.
  destruct o as [t v], c as [p n]. intros (Hpad & Hend & Hfour & Hmsg & _) Hr. cbn [fst snd] in *. unfold parse_one, take_option, four in *. cbn [fst snd].
  repeat match goal with |- context [if ?b =? ?t then _ else _] => destruct (Z.eqb_spec b t); [subst; cbn in Hfour|] end; try done.
  all: try (rewrite ?Hfour, address_four by auto; done).
  - rewrite Nat2Z.id, lookup_app_r, Nat.sub_diag by lia. by destruct r.
  - by destruct (Hmsg eq_refl) as [-> | ->].
Qed.

Lemma parse_loop_ok opts junk clock : Forall option_ok opts → ∀ fuel c, (length opts < fuel)%nat →
  parse_loop fuel (mjoin (option_bytes <$> opts) ++ OPT_END :: junk) c.1 c.2 clock = Ok (fold_left (take_option clock) opts c, true).
Proof.
  induction 1 as [|o opts Ho Hos IH]; intros [|fuel] c Hf; cbn [length] in Hf; try lia; [by destruct c|].
  change (mjoin (option_bytes <$> o :: opts)) with (option_bytes o ++ mjoin (option_bytes <$> opts)). unfold option_bytes at 1.
  rewrite <-app_assoc. cbn [app parse_loop]. rewrite (proj2 (Z.eqb_neq _ _)) by apply Ho.
  rewrite parse_one_ok; [|done|by destruct (mjoin _)]. cbn [res_bind fold_left]. destruct (take_option clock c o) as [p n] eqn:E.
  rewrite Nat2Z.id, drop_app_length. apply (IH fuel (p, n)). lia.
Qed.

Lemma parse_learns hdr opts junk clock c : Z.of_nat (length hdr) = sizeof_dhcp → Forall option_ok opts →
  dhcp_parse_option (hdr ++ mjoin (option_bytes <$> opts) ++ OPT_END :: junk) c.1 c.2 clock = Ok (parsed clock opts (bytes_at d_yiaddr 4 hdr) c).
Proof.
  intros Hh Ho. unfold dhcp_parse_option. rewrite drop_app_length' by lia. rewrite parse_loop_ok; [|done|].
  - cbn [res_bind]. unfold parsed. destruct (fold_left _ opts c) as [p n]. cbn [fst snd andb].
    assert (bytes_at d_yiaddr 4 (hdr ++ mjoin (option_bytes <$> opts) ++ OPT_END :: junk) = bytes_at d_yiaddr 4 hdr) as ->.
    { unfold bytes_at, slice. unfold sizeof_dhcp in Hh. unfold d_yiaddr. rewrite drop_app_le, take_app_le by (rewrite ?length_drop; lia). done. }
    by destruct (le (bytes_at d_yiaddr 4 hdr) =? 0).
  - pose proof (counted option_bytes opts ltac:(intros; cbn; lia)). rewrite !length_app. lia.
Qed.

(** *** What the answer means

    The value of an option is that of its last occurrence; addresses are kept as they are in
    memory, numbers are big-endian. *)
Definition option_value (t : Z) (opts : list (Z * list Z)) : option (list Z) :=
  snd <$> last (filter (λ o, o.1 = t) opts).
Definition be (l : list Z) : Z := le (reverse l).

(** The client and its interface after the answer: the mask, the gateway, the server and the
    times of the options; the address; half of the lease, which is in seconds, in ticks of the
    clock from [now] on; the broadcast address of the options, or the host number 255 of the
    address. *)
Definition learned (now : Z) (opts : list (Z * list Z)) (yi : list Z) (c : dhcp_pcb_t * netif_t) : dhcp_pcb_t * netif_t :=
  let addr t old := match option_value t opts with Some v => le v | None => old end in
  let num t old := match option_value t opts with Some v => be v | None => old end in
  let '(p, n) := c in
  (mk_pcb (netif p) (addr OPT_DHCP_SERVER_IDENTIFIER (server p))
     (match option_value OPT_DHCP_LEASE_TIME opts with Some v => now + be v * 1000 / 2 / Task.jiffy | None => expires p end)
     (num OPT_DHCP_LEASE_TIME (lease_time p)) (num OPT_DHCP_RENEWAL_TIME (renewal_time p))
     (num OPT_DHCP_REBINDING_TIME (rebinding_time p)),
   n <| netmask := addr OPT_SUBNET_MASK (netmask n) |> <| gateway := addr OPT_ROUTER (gateway n) |>
     <| ipaddr := if le yi =? 0 then ipaddr n else le yi |>
     <| broadcast := match option_value OPT_BROADCAST_ADDRESS opts with
                     | Some v => le v
                     | None => if le yi =? 0 then broadcast n else le (take 3 yi ++ [255])
                     end |>).

(** Where the parser is right: half the lease in milliseconds is below 2^32 and ends before
    the clock is negative as an [int], and a broadcast address is that of host 255. *)
Record usual (now : Z) (opts : list (Z * list Z)) (yi : list Z) : Prop := {
  us_now : 0 ≤ now;
  us_lease : ∀ v, option_value OPT_DHCP_LEASE_TIME opts = Some v → be v * 500 < 2 ^ 32 ∧ now + be v * 50 < 2 ^ 31;
  us_broadcast : ∀ v, option_value OPT_BROADCAST_ADDRESS opts = Some v → le yi ≠ 0 → v = take 3 yi ++ [255] }.

Lemma option_value_snoc t opts o :
  option_value t (opts ++ [o]) = if o.1 =? t then Some o.2 else option_value t opts.
Proof.
  unfold option_value. rewrite filter_app. destruct (Z.eqb_spec o.1 t) as [E|E].
  - rewrite filter_cons_True, filter_nil by done. by rewrite last_snoc.
  - by rewrite filter_cons_False, filter_nil, app_nil_r.
Qed.

Lemma option_value_ok t opts v : Forall option_ok opts → four t = true → option_value t opts = Some v →
  length v = 4%nat ∧ Forall byte v.
Proof.
  intros Ho Ht. unfold option_value. rewrite fmap_Some. intros (o & Hl & ->).
  apply last_Some_elem_of, list_elem_of_filter in Hl as [<- Hin]. rewrite Forall_forall in Ho.
  destruct (Ho o Hin) as (_ & _ & H4 & _ & Hb). auto.
Qed.

Lemma htonl_be v : length v = 4%nat → Forall byte v → htonl (le v) = be v.
Proof.
  intros Hl Hv. destruct v as [|a [|b [|c [|d [|]]]]]; try done. unfold byte in Hv. rewrite !Forall_cons in Hv.
  destruct Hv as (Ha & Hb & Hc & Hd & _). change (be [a; b; c; d]) with (d + 256 * (c + 256 * (b + 256 * (a + 256 * 0)))).
  change (le [a; b; c; d]) with (a + 256 * (b + 256 * (c + 256 * (d + 256 * 0)))).
  rewrite TcpWire.htonl_bytes by lia. Z.div_mod_to_equations; lia.
Qed.

(** The loop of the parser over the options, in terms of their values. *)
Definition gathered (clock : Task.sched) (opts : list (Z * list Z)) (c : dhcp_pcb_t * netif_t) : dhcp_pcb_t * netif_t :=
  let addr t old := match option_value t opts with Some v => le v | None => old end in
  let num t old := match option_value t opts with Some v => htonl (le v) | None => old end in
  let '(p, n) := c in
  (mk_pcb (netif p) (addr OPT_DHCP_SERVER_IDENTIFIER (server p))
     (match option_value OPT_DHCP_LEASE_TIME opts with
      | Some v => s32 (Task.timer_expire_jiffies (u32 (htonl (le v) * 500)) clock) | None => expires p end)
     (num OPT_DHCP_LEASE_TIME (lease_time p)) (num OPT_DHCP_RENEWAL_TIME (renewal_time p))
     (num OPT_DHCP_REBINDING_TIME (rebinding_time p)),
   n <| netmask := addr OPT_SUBNET_MASK (netmask n) |> <| gateway := addr OPT_ROUTER (gateway n) |>
     <| broadcast := addr OPT_BROADCAST_ADDRESS (broadcast n) |>).

Lemma fold_gathers clock opts c : fold_left (take_option clock) opts c = gathered clock opts c.
Proof.
  induction opts as [|o opts IH] using rev_ind; [by destruct c as [[] []]|].
  rewrite fold_left_app. cbn [fold_left]. rewrite IH. destruct c as [p n], o as [t v].
  unfold gathered. rewrite !option_value_snoc. unfold take_option. cbn [fst snd].
  repeat match goal with |- context [if ?b =? ?t then _ else _] => destruct (Z.eqb_spec b t); [subst; done|] end; done.
Qed.

Lemma parsed_learned clock opts yi c : Forall option_ok opts → length yi = 4%nat → usual (Task.jiffies clock) opts yi →
  parsed clock opts yi c = learned (Task.jiffies clock) opts yi c.
Proof.
  intros Ho Hyi [Hnow Hlease Hbc]. unfold parsed. rewrite fold_gathers. destruct c as [p n]. unfold gathered, learned.
  assert (∀ t, four t = true → (htonl ∘ le) <$> option_value t opts = be <$> option_value t opts) as Hbe.
  { intros t Ht. destruct (option_value t opts) as [v|] eqn:E; [|done]. destruct (option_value_ok t opts v Ho Ht E).
    cbn. f_equal. by apply htonl_be. }
  assert (∀ t old, four t = true → match option_value t opts with Some v => htonl (le v) | None => old end =
    match option_value t opts with Some v => be v | None => old end) as Hnum.
  { intros t old Ht. specialize (Hbe t Ht). destruct (option_value t opts); cbn in Hbe; congruence. }
  rewrite !Hnum by done.
  assert (match option_value OPT_DHCP_LEASE_TIME opts with
    | Some v => s32 (Task.timer_expire_jiffies (u32 (htonl (le v) * 500)) clock) | None => expires p end =
    match option_value OPT_DHCP_LEASE_TIME opts with
    | Some v => Task.jiffies clock + be v * 1000 / 2 / Task.jiffy | None => expires p end) as ->.
  { destruct (option_value OPT_DHCP_LEASE_TIME opts) as [v|] eqn:E; [|done].
    destruct (option_value_ok OPT_DHCP_LEASE_TIME opts v Ho eq_refl E) as [Hl Hb]. rewrite htonl_be by done.
    destruct (Hlease v eq_refl) as [H1 H2]. change (2 ^ 32) with 4294967296 in H1. change (2 ^ 31) with 2147483648 in H2.
    assert (0 ≤ be v) by (apply le_range, Forall_reverse, Hb).
    unfold Task.timer_expire_jiffies, Task.jiffy. rewrite (u32_small (be v * 500)), (u32_small (be v * 500)) by lia.
    replace (be v * 500 / 10) with (be v * 50) by (Z.div_mod_to_equations; lia).
    replace (be v * 1000 / 2 / 10) with (be v * 50) by (Z.div_mod_to_equations; lia).
    rewrite u32_small by lia. apply s32_small; lia. }
  assert (<[3%nat := 255]> yi = take 3 yi ++ [255]) as Ey by (destruct yi as [|? [|? [|? [|? [|]]]]]; done).
  rewrite Ey in *. destruct (Z.eqb_spec (le yi) 0) as [E0|E0].
  - by destruct (option_value OPT_BROADCAST_ADDRESS opts).
  - destruct (option_value OPT_BROADCAST_ADDRESS opts) as [v|] eqn:E; [|done]. by rewrite (Hbc v eq_refl E0).
Qed.

(** ** What the client sends *)
Section sends.
Context (E : stop → Prop).

Lemma wp_mput off l m (Q : unit → list Z → Prop) : 0 ≤ off → off + Z.of_nat (length l) ≤ Z.of_nat (length m) → Q tt (upd off l m) → wp E (mput off l) Q m.
Proof using. intros. apply wp_store; [lia|done]. Qed.
Lemma wp_mset n off v m (Q : unit → list Z → Prop) : 0 ≤ off → off + Z.of_nat n ≤ Z.of_nat (length m) → Q tt (upd off (le_bytes n v) m) → wp E (mset n off v) Q m.
Proof using. intros. apply wp_mput; [done|by rewrite length_le_bytes|done]. Qed.
End sends.

Ltac client_offsets :=
  cbv [d_op d_htype d_hlen d_xid d_ciaddr d_yiaddr d_chaddr d_magic sizeof_dhcp dhcp_at udp_at] in *; offsets.
Ltac in_message := rewrite ?length_upd, ?length_le_bytes, ?length_app, ?length_replicate, ?length_le_bytes; cbn [length]; client_offsets; rewrite ?length_upd; lia.
Ltac message_step :=
  lazymatch goal with
  | |- wp _ (st_bind _ _) _ _ => apply wp_bind
  | |- wp _ (mput _ _) _ _ => apply wp_mput; [in_message|in_message|]
  | |- wp _ (mset _ _ _) _ _ => apply wp_mset; [in_message|in_message|]
  | |- wp _ (st_ret _) _ _ => apply wp_ret
  | |- wp _ st_get _ _ => apply wp_get
  end.

Lemma fld_upd_list n off l m : n = length l → 0 ≤ off → off + Z.of_nat (length l) ≤ Z.of_nat (length m) → fld n off (upd off l m) = le l.
Proof. intros -> H0 Hl. unfold fld. by rewrite bytes_upd_same. Qed.
Lemma fld_upd_zeros n k off off' m : 0 ≤ off' → off' ≤ off → off + Z.of_nat n ≤ off' + Z.of_nat k → off' + Z.of_nat k ≤ Z.of_nat (length m) →
  fld n off (upd off' (replicate k 0) m) = 0.
Proof.
  intros H0 H1 H2 H3. trans (le (replicate n 0)); [|apply le_zeros]. unfold fld. f_equal. apply list_eq. intros i. unfold bytes_at, upd. destruct (decide (i < n)%nat).
  - rewrite lookup_slice by lia. rewrite list_lookup_inserts by (rewrite ?length_replicate; lia). trans (Some 0); [|symmetry]; apply lookup_replicate_2; lia.
  - rewrite !lookup_ge_None_2; [done|rewrite length_replicate; lia|unfold slice; rewrite length_take; lia].
Qed.
Lemma upd_next off off' a b m : 0 ≤ off → off' = off + Z.of_nat (length a) → upd off' b (upd off a m) = upd off (a ++ b) m.
Proof. intros H0 ->. unfold upd. rewrite Z2Nat.inj_add, Nat2Z.id by lia. apply inserts_next. Qed.

Ltac message_fields :=
  repeat first
    [ rewrite fld_upd_same by in_message
    | rewrite fld_upd_other by in_message
    | rewrite fld_upd_list by (in_message || done)
    | rewrite fld_upd_zeros by in_message
    | rewrite bytes_upd_same by in_message
    | rewrite bytes_upd_other by in_message ].

(** The part that every message has, at [b] of the buffer; [rest] is its options. *)
Record from_client (n : netif_t) (xid ciaddr : Z) (rest : list Z) (b : Z) (m : list Z) : Prop := {
  fc_op : fld 1 (b + d_op) m = DHCP_BOOTREQUEST; fc_htype : fld 1 (b + d_htype) m = 1; fc_hlen : fld 1 (b + d_hlen) m = 6;
  fc_xid : fld 4 (b + d_xid) m = xid; fc_ciaddr : fld 4 (b + d_ciaddr) m = ciaddr; fc_chaddr : bytes_at (b + d_chaddr) 6 m = hwaddr n;
  fc_magic : fld 4 (b + d_magic) m = htonl DHCP_MAGIC; fc_rest : bytes_at (b + sizeof_dhcp) (Z.of_nat (length rest)) m = rest }.

Definition request_options (ip server : Z) : list Z :=
  (([OPT_DHCP_MESSAGE_TYPE; 1; DHCP_REQUEST] ++ ([OPT_DHCP_REQUESTED_ADDRESS; 4] ++ le_bytes 4 ip)) ++
   ([OPT_DHCP_SERVER_IDENTIFIER; 4] ++ le_bytes 4 server)) ++ [OPT_END].
Definition discover_options : list Z :=
  ([OPT_DHCP_MESSAGE_TYPE; 1; DHCP_DISCOVER] ++ [OPT_DHCP_PARAMETER_REQUEST_LIST; 3; OPT_ROUTER; OPT_SUBNET_MASK; OPT_DOMAIN_NAME_SERVER]) ++ [OPT_END].

Lemma request_message n xid server garbage : Z.of_nat (length garbage) = 2008 → length (hwaddr n) = 6%nat → 0 ≤ xid < 2 ^ 32 → 0 ≤ ipaddr n < 2 ^ 32 →
  wp no_stop (client_message n xid (dhcp_request_option (ipaddr n) server)) (λ len m,
    len = 256 ∧ length m = length garbage ∧ from_client n xid (ipaddr n) (request_options (ipaddr n) server) 0 m) garbage.
Proof.
  intros Hg Hh Hx Hi. unfold client_message, dhcp_request_option. repeat message_step. split; [done|]. split; [by rewrite !length_upd|].
  do 3 rewrite (upd_next sizeof_dhcp) by in_message. fold (request_options (ipaddr n) server). set (o := request_options _ _).
  assert (length o = 16%nat) as Ho by done. clearbody o.
  split; rewrite ?Z.add_0_l, ?Ho; message_fields; try done; rewrite Z.mod_small; done || lia.
Qed.

(** A broadcast from the client's port to the server's, whose checksums verify. *)
Record broadcast_frame (n : netif_t) (len : Z) (m : list Z) : Prop := {
  bf_dst : bytes_at e_dst 6 m = replicate 6 0xFF; bf_src : bytes_at e_src 6 m = hwaddr n; bf_type : fld 2 e_type m = htons ETH_TYPE_IP;
  bf_version : fld 1 i_header m = 0x45; bf_length : fld 2 i_length m = htons (sizeof_ip + len); bf_proto : fld 1 i_proto m = IP_PROTOCOL_UDP;
  bf_from : fld 4 i_src m = IP_ANY; bf_to : fld 4 i_dst m = IP_BROADCAST;
  bf_sum : ip_chksum (bytes_at sizeof_eth sizeof_ip m) = Ok 0;
  bf_sport : fld 2 u_sport m = htons DHCP_CLIENT_PORT; bf_dport : fld 2 u_dport m = htons DHCP_SERVER_PORT; bf_ulen : fld 2 u_length m = htons len;
  bf_usum : inet_chksum (bytes_at udp_at len m) len IP_ANY IP_BROADCAST IP_PROTOCOL_UDP = Ok 0 }.

Lemma byte_list l : forallb (λ b, (0 <=? b) && (b <? 256)) l = true → Forall byte l.
Proof. rewrite forallb_forall, Forall_forall. intros H x Hx. specialize (H x). rewrite <-list_elem_of_In in H. specialize (H Hx). unfold byte. lia. Qed.

Ltac all_bytes := repeat first [apply upd_byte | apply le_bytes_range | (apply byte_list; reflexivity) | apply Forall_replicate; done | assumption].

Lemma discover_message n xid garbage : Z.of_nat (length garbage) = 2008 → Forall byte garbage → length (hwaddr n) = 6%nat → Forall byte (hwaddr n) → 0 ≤ xid < 2 ^ 32 →
  wp no_stop (discover_frame n xid) (λ len m,
    len = 291 ∧ length m = length garbage ∧ broadcast_frame n 257 m ∧ from_client n xid 0 discover_options dhcp_at m) garbage.
Proof.
  intros Hg Hb Hh Hhb Hx. unfold discover_frame, dhcp_discover_option. repeat message_step. cbv zeta.
  change (u16 (u16 (sizeof_dhcp + 9) + sizeof_udp)) with 257. change (u16 (257 + sizeof_ip)) with 277.
  do 2 rewrite (upd_next (dhcp_at + sizeof_dhcp)) by in_message. fold discover_options.
  pose proof (eq_refl : length discover_options = 9%nat) as Ho. pose proof (byte_list discover_options eq_refl) as Bo.
  set (o := discover_options) in *. clearbody o.
  set (m1 := upd u_chksum _ _).
  assert (length m1 = length garbage) as L1 by (subst m1; by rewrite !length_upd).
  assert (Forall byte m1) as B1 by (subst m1; all_bytes).
  assert (bytes_at u_chksum 2 m1 = [0; 0]) as Z1 by (subst m1; by message_fields).
  assert (from_client n xid 0 o dhcp_at m1) as F1.
  { subst m1. split; rewrite ?Ho; message_fields; try done. rewrite Z.mod_small; done || lia. }
  assert (fld 2 u_sport m1 = htons DHCP_CLIENT_PORT ∧ fld 2 u_dport m1 = htons DHCP_SERVER_PORT ∧ fld 2 u_length m1 = htons 257) as (P1 & P2 & P3)
    by (subst m1; by message_fields). clearbody m1.
  assert (0 ≤ udp_at ∧ udp_at ≤ u_chksum ∧ Z.even (u_chksum - udp_at) = true ∧ u_chksum + 2 ≤ udp_at + 257 ∧ udp_at + 257 ≤ Z.of_nat (length m1))
    as (A1 & A2 & A3 & A4 & A5) by (rewrite L1, Hg; by client_offsets).
  destruct (inet_sum udp_at 257 u_chksum m1 B1 A1 A2 A3 A4 A5 Z1 257 IP_ANY IP_BROADCAST IP_PROTOCOL_UDP) as (c & Hc & Hcr & Hsum); [done..|].
  apply (wp_lift _ _ c); [exact Hc|].
  apply wp_bind, wp_mset; [done|rewrite L1, Hg; done|]. set (mu := upd u_chksum (le_bytes 2 c) m1) in *.
  assert (length mu = length garbage) as Lu by (subst mu; by rewrite length_upd).
  assert (from_client n xid 0 o dhcp_at mu) as Fu.
  { destruct F1. subst mu. split; rewrite ?Ho in *; message_fields; try assumption. }
  assert (fld 2 u_sport mu = htons DHCP_CLIENT_PORT ∧ fld 2 u_dport mu = htons DHCP_SERVER_PORT ∧ fld 2 u_length mu = htons 257) as (U1 & U2 & U3)
    by (subst mu; by message_fields).
  assert (Forall byte mu) as Bu by (subst mu; all_bytes). clearbody mu. clear m1 L1 B1 Z1 F1 P1 P2 P3 A1 A2 A3 A4 A5 Hc.
  repeat message_step. set (m2 := upd i_chksum _ _).
  assert (length m2 = length mu) as L2 by (subst m2; by rewrite !length_upd).
  assert (Forall byte m2) as B2 by (subst m2; all_bytes).
  assert (bytes_at i_chksum 2 m2 = [0; 0]) as Z2 by (subst m2; by message_fields).
  assert (sizeof_eth + sizeof_ip ≤ Z.of_nat (length m2)) as A by (rewrite L2, Lu, Hg; done).
  destruct (ip_sum sizeof_eth sizeof_ip i_chksum m2 B2 ltac:(done) ltac:(done) ltac:(done) ltac:(done) A Z2) as (k & Hk & Hkr & Hksum).
  apply (wp_lift _ _ k); [exact Hk|]. clear Hk. repeat message_step. rewrite Lu in L2. split; [done|].
  split; [by rewrite !length_upd|]. split; [|destruct Fu; subst m2; split; rewrite ?Ho in *; message_fields; assumption].
  subst m2. split; message_fields; first [assumption | reflexivity].
Qed.

(** ** The answer *)
Lemma bytes_at_front off n (a b : list Z) : 0 ≤ off → 0 ≤ n → off + n ≤ Z.of_nat (length a) → bytes_at off n (a ++ b) = bytes_at off n a.
Proof. intros. unfold bytes_at, slice. by rewrite drop_app_le, take_app_le by (rewrite ?length_drop; lia). Qed.
Lemma fld_app n off (a b : list Z) : 0 ≤ off → off + Z.of_nat n ≤ Z.of_nat (length a) → fld n off (a ++ b) = fld n off a.
Proof. intros. unfold fld. by rewrite bytes_at_front by lia. Qed.
Lemma fld_drop n k off (m : list Z) : 0 ≤ k → 0 ≤ off → fld n (k + off) m = fld n off (drop (Z.to_nat k) m).
Proof. intros. unfold fld, bytes_at, slice. rewrite drop_drop. by replace (Z.to_nat k + Z.to_nat off)%nat with (Z.to_nat (k + off)) by lia. Qed.

(** A message of a server: its 240 bytes, its options and whatever is left of the buffer. *)
Record from_server (time : Z) (hdr : list Z) (opts : list (Z * list Z)) : Prop := {
  fs_len : Z.of_nat (length hdr) = sizeof_dhcp; fs_op : fld 1 d_op hdr = DHCP_BOOTREPLY; fs_xid : fld 4 d_xid hdr = time;
  fs_magic : fld 4 d_magic hdr = htonl DHCP_MAGIC; fs_options : Forall option_ok opts }.
Definition server_bytes (hdr : list Z) (opts : list (Z * list Z)) (junk : list Z) : list Z := hdr ++ mjoin (option_bytes <$> opts) ++ OPT_END :: junk.

(** [k] packets with another identification, and then the message, [at_] bytes into what [recv] stores. *)
Definition answered (recv : nat → Z * list Z) (time at_ : Z) (k : nat) (reply : list Z) : Prop :=
  (∀ i, (i < k)%nat → 0 ≤ (recv i).1 ∧ at_ + 8 ≤ Z.of_nat (length (recv i).2) ≤ 2008 ∧ fld 4 (at_ + d_xid) (recv i).2 ≠ time) ∧
  recv k = (Z.of_nat (length reply), reply) ∧ Z.of_nat (length reply) ≤ 2008.

Lemma wp_recv_answer recv time at_ reply k : 0 ≤ at_ → fld 4 (at_ + d_xid) reply = time → at_ + 8 ≤ Z.of_nat (length reply) →
  answered recv time at_ k reply → ∀ j n fuel m (Q : bool → list Z → Prop), (n + j)%nat = k → (j < fuel)%nat → Z.of_nat (length m) = 2008 →
  (∀ g, Z.of_nat (length (reply ++ g)) = 2008 → Q true (reply ++ g)) → wp no_stop (recv_loop recv time fuel n at_) Q m.
Proof.
  intros Hat Hx Hlen (Hf & Hr & Hl). induction j as [|j IH]; intros n [|fuel] m Q Hn Hj Hm HQ; try lia; cbn [recv_loop].
  - rewrite Nat.add_0_r in Hn. subst n. rewrite Hr. apply wp_bind, wp_store; [lia|]. rewrite (proj2 (Z.ltb_ge _ _)) by lia. apply wp_bind, wp_get.
    rewrite head_of, fld_app, Hx, Z.eqb_refl by (unfold d_xid; lia). apply wp_ret, HQ. rewrite length_app, length_drop. lia.
  - destruct (Hf n ltac:(lia)) as (H0 & H1 & H2). destruct (recv n) as [r pkt]. cbn [fst snd] in *.
    apply wp_bind, wp_store; [lia|]. rewrite (proj2 (Z.ltb_ge _ _)) by done. apply wp_bind, wp_get.
    rewrite head_of, fld_app, (proj2 (Z.eqb_neq _ _)) by (unfold d_xid; (done || lia)).
    apply IH; [lia|lia|rewrite length_app, length_drop; lia|done].
Qed.

(** What the client knows in the end. *)
Definition knows (a : Z) (nf : Z) (c : dhcp_pcb_t * netif_t) (s : client) : client :=
  s <| pcbs $= <[a := c.1]> |> <| interfaces $= <[nf := c.2]> |>.

Lemma wp_await recv time at_ k pre hdr opts junk fuel m a p n s (Q : unit → client → Prop) : from_server time hdr opts →
  answered recv time at_ k (pre ++ server_bytes hdr opts junk) → Z.of_nat (length pre) = at_ → (k < fuel)%nat → Z.of_nat (length m) = 2008 →
  pcbs s !! a = Some p → interfaces s !! netif p = Some n →
  Q tt (knows a (netif p) (parsed (clock s) opts (bytes_at d_yiaddr 4 hdr) (p, n)) s) → wp no_stop (await recv time fuel at_ m a) Q s.
Proof.
  intros [Hl Hop Hx Hmg Ho] Ha Hpre Hk Hm Hp Hn HQ. set (r := pre ++ server_bytes hdr opts junk) in *. unfold sizeof_dhcp in Hl.
  assert (drop (Z.to_nat at_) r = server_bytes hdr opts junk) as Hd by (unfold r; by rewrite drop_app_length' by lia).
  assert (Z.of_nat (length r) = at_ + Z.of_nat (length (server_bytes hdr opts junk))) as Hr by (unfold r; rewrite length_app; lia).
  assert (240 ≤ Z.of_nat (length (server_bytes hdr opts junk))) as Hs by (unfold server_bytes; rewrite length_app; lia).
  assert (wp no_stop (recv_loop recv time fuel 0 at_) (λ b m', b = true ∧ ∃ g, m' = r ++ g) m) as Hw.
  { eapply (wp_recv_answer recv time at_ r k); [lia| |lia|done|reflexivity|done|done|].
    - rewrite fld_drop, Hd by (unfold d_xid; lia). unfold server_bytes. rewrite fld_app by (unfold d_xid; lia). done.
    - intros g _. split; [done|by exists g]. }
  unfold wp in Hw. unfold await. apply wp_bind. destruct (recv_loop recv time fuel 0 at_ m) as [[b m']|] eqn:E; [|done]. destruct Hw as [-> [g ->]].
  apply (wp_lift _ _ (true, r ++ g)); [done|]. cbn [negb]. rewrite drop_app_le, Hd by lia. unfold server_bytes.
  rewrite <-!app_assoc. cbn [app]. rewrite !fld_app by (unfold d_magic, d_op; lia). rewrite Hmg, Hop, !Z.eqb_refl. cbn [negb].
  apply wp_bind. eapply wp_deref; [exact Hp|]. apply wp_bind. eapply wp_deref; [exact Hn|]. apply wp_bind, wp_gets, wp_bind.
  set (l := parsed _ _ _ _) in HQ. apply (wp_lift _ _ l); [|destruct l; by apply wp_mod].
  pose proof (parse_learns hdr opts (junk ++ g) (clock s) (p, n) ltac:(done) Ho) as Hpl. cbn [fst snd] in Hpl. subst l. rewrite <-Hpl. done.
Qed.

(** What is sent is the start of the buffer. *)
Lemma same_start len m : 0 ≤ len ≤ Z.of_nat (length m) → same len m (bytes_at 0 len m).
Proof. intros. unfold same, bytes_at, slice. rewrite drop_0. by rewrite take_take, Nat.min_id. Qed.
Lemma from_client_same n xid ip o b len m m' : same len m m' → 0 ≤ b → b + sizeof_dhcp + Z.of_nat (length o) ≤ len →
  from_client n xid ip o b m → from_client n xid ip o b m'.
Proof.
  intros Hs Hb Hl []. client_offsets. split; client_offsets; rewrite ?(fld_same len m m'), ?(bytes_same len m m') by (exact Hs || lia); assumption.
Qed.
Lemma broadcast_frame_same n len l m m' : same l m m' → 0 ≤ len → udp_at + len ≤ l → udp_at + 8 ≤ l → broadcast_frame n len m → broadcast_frame n len m'.
Proof.
  intros Hs Hlen Hl Hl8 []. client_offsets. split; client_offsets; rewrite ?(fld_same l m m'), ?(bytes_same l m m') by (exact Hs || lia); assumption.
Qed.

Section lease.
Context (fd opt_ret netif_ret bind_ret connect_ret send_ret : Z) (ioctl_ret : Z * Z) (recv : nat → Z * list Z) (time : Z) (garbage : list Z).
Context (Hrets : 0 ≤ fd ∧ 0 ≤ opt_ret ∧ 0 ≤ netif_ret ∧ 0 ≤ bind_ret ∧ 0 ≤ connect_ret ∧ 0 ≤ send_ret ∧ 0 ≤ ioctl_ret.1).
Context (Hg : Z.of_nat (length garbage) = 2008) (Hb : Forall byte garbage) (Htime : 0 ≤ time < 2 ^ 32).
Context (s : client) (a : Z) (p : dhcp_pcb_t) (n : netif_t) (hdr : list Z) (opts : list (Z * list Z)) (pre junk : list Z) (k fuel : nat).
Context (Hp : pcbs s !! a = Some p) (Hn : interfaces s !! netif p = Some n).
Context (Hhw : length (hwaddr n) = 6%nat) (Hhb : Forall byte (hwaddr n)) (Hip : 0 ≤ ipaddr n < 2 ^ 32).
Context (Hserver : from_server time hdr opts) (Hk : (k < fuel)%nat).

Lemma discover_leases : Z.of_nat (length pre) = dhcp_at → answered recv time dhcp_at k (pre ++ server_bytes hdr opts junk) →
  ∃ f, dhcp_discover fd opt_ret netif_ret send_ret ioctl_ret recv time garbage fuel a s =
      Ok (Some (Raw ioctl_ret.2 f), knows a (netif p) (parsed (clock s) opts (bytes_at d_yiaddr 4 hdr) (p, n)) s) ∧
    length f = 291%nat ∧ broadcast_frame n 257 f ∧ from_client n time 0 discover_options dhcp_at f.
Proof using Hrets Hg Hb Htime Hp Hn Hhw Hhb Hserver Hk.
  intros Hpre Ha. pose proof (discover_message n time garbage Hg Hb Hhw Hhb Htime) as Hw. unfold wp in Hw.
  destruct (discover_frame n time garbage) as [[len m]|] eqn:E; [|done]. destruct Hw as (-> & Hm & Hbf & Hfc).
  exists (bytes_at 0 291 m). assert (same 291 m (bytes_at 0 291 m)) as Hs by (apply same_start; lia).
  split; [|split; [|split]].
  - assert (wp no_stop (dhcp_discover fd opt_ret netif_ret send_ret ioctl_ret recv time garbage fuel a) (λ o s', o = Some (Raw ioctl_ret.2 (bytes_at 0 291 m)) ∧
      s' = knows a (netif p) (parsed (clock s) opts (bytes_at d_yiaddr 4 hdr) (p, n)) s) s) as Hd.
    + unfold dhcp_discover, EOK. rewrite !(proj2 (Z.ltb_ge _ 0)) by lia. cbn [orb].
      apply wp_bind. eapply wp_deref; [exact Hp|]. apply wp_bind. eapply wp_deref; [exact Hn|]. apply wp_bind.
      apply (wp_lift _ _ (291, m)); [exact E|]. apply wp_bind.
      eapply wp_await; [exact Hserver|exact Ha|done|exact Hk|lia|exact Hp|exact Hn|]. by apply wp_ret.
    + unfold wp in Hd. destruct (dhcp_discover _ _ _ _ _ _ _ _ _ _ _) as [[o s']|]; [|done]. by destruct Hd as [-> ->].
  - apply Nat2Z.inj. rewrite length_bytes_at by lia. done.
  - eapply broadcast_frame_same; [exact Hs|done|done|done|done].
  - eapply from_client_same; [exact Hs|done|done|done].
Qed.

Lemma request_leases : pre = [] → answered recv time 0 k (server_bytes hdr opts junk) →
  ∃ f, dhcp_request fd opt_ret bind_ret connect_ret send_ret recv time garbage fuel a s =
      Ok (Some (Datagram (ipaddr n) (htons DHCP_CLIENT_PORT) (server p) (htons DHCP_SERVER_PORT) f),
          knows a (netif p) (parsed (clock s) opts (bytes_at d_yiaddr 4 hdr) (p, n)) s) ∧
    length f = 256%nat ∧ from_client n time (ipaddr n) (request_options (ipaddr n) (server p)) 0 f.
Proof using Hrets Hg Htime Hp Hn Hhw Hip Hserver Hk.
  intros _ Ha. pose proof (request_message n time (server p) garbage Hg Hhw Htime Hip) as Hw. unfold wp in Hw.
  destruct (client_message n time (dhcp_request_option (ipaddr n) (server p)) garbage) as [[len m]|] eqn:E; [|done]. destruct Hw as (-> & Hm & Hfc).
  exists (bytes_at 0 256 m). split; [|split].
  - set (out := Some (Datagram _ _ _ _ (bytes_at 0 256 m))).
    assert (wp no_stop (dhcp_request fd opt_ret bind_ret connect_ret send_ret recv time garbage fuel a) (λ o s', o = out ∧
      s' = knows a (netif p) (parsed (clock s) opts (bytes_at d_yiaddr 4 hdr) (p, n)) s) s) as Hd.
    + unfold dhcp_request. apply wp_bind. unfold client_send, EOK. rewrite !(proj2 (Z.ltb_ge _ 0)) by lia. cbn [orb].
      apply wp_bind. eapply wp_deref; [exact Hp|]. apply wp_bind. eapply wp_deref; [exact Hn|]. apply wp_bind.
      apply (wp_lift _ _ (256, m)); [exact E|]. apply wp_ret. apply wp_bind.
      eapply (wp_await recv time 0 k []); [exact Hserver|exact Ha|done|exact Hk|lia|exact Hp|exact Hn|]. by apply wp_ret.
    + unfold wp in Hd. destruct (dhcp_request _ _ _ _ _ _ _ _ _ _ _) as [[o s']|]; [|done]. by destruct Hd as [-> ->].
  - apply Nat2Z.inj. rewrite length_bytes_at by lia. done.
  - eapply from_client_same; [apply same_start; lia|done|done|done].
Qed.
End lease.

(** C38: a lease is taken. When the calls on sockets succeed and a server answers with an
    offer or an acknowledgement, [dhcp_query] leaves in the client and its interface what the
    options and the address of the answer mean ([learned]), provided that half the lease in
    milliseconds is below 2^32 and that a broadcast option, if there is one, is host 255 of
    the address ([usual]; the code wraps the time and overrides the option); the options have
    no padding, which the parser takes for an option with a size.  Any number of other packets
    may come before, long enough to hold the identification and with another one.
    Without an address [dhcp_query] has sent a broadcast frame whose IP and UDP checksums
    verify, with the discovery of the interface's hardware address; with one, the request for
    that address from its client port to the server. *)
Theorem lease_taken fd opt_ret netif_ret bind_ret connect_ret send_ret ioctl_ret recv time garbage s a p n hdr opts pre junk k fuel
    (Hrets : 0 ≤ fd ∧ 0 ≤ opt_ret ∧ 0 ≤ netif_ret ∧ 0 ≤ bind_ret ∧ 0 ≤ connect_ret ∧ 0 ≤ send_ret ∧ 0 ≤ ioctl_ret.1)
    (Hg : Z.of_nat (length garbage) = 2008) (Hb : Forall byte garbage) (Htime : 0 ≤ time < 2 ^ 32)
    (Hp : pcbs s !! a = Some p) (Hn : interfaces s !! netif p = Some n)
    (Hhw : length (hwaddr n) = 6%nat) (Hhb : Forall byte (hwaddr n)) (Hip : 0 ≤ ipaddr n < 2 ^ 32)
    (Hserver : from_server time hdr opts)
    (Hus : usual (Task.jiffies (clock s)) opts (bytes_at d_yiaddr 4 hdr)) (Hk : (k < fuel)%nat)
    (Hpre : Z.of_nat (length pre) = if ipaddr n =? 0 then dhcp_at else 0)
    (Ha : answered recv time (Z.of_nat (length pre)) k (pre ++ server_bytes hdr opts junk)) :
  ∃ out, dhcp_query fd opt_ret netif_ret bind_ret connect_ret send_ret ioctl_ret recv time garbage fuel a s =
      Ok (Some out, knows a (netif p) (learned (Task.jiffies (clock s)) opts (bytes_at d_yiaddr 4 hdr) (p, n)) s) ∧
    if ipaddr n =? 0 then
      ∃ f, out = Raw ioctl_ret.2 f ∧ length f = 291%nat ∧ broadcast_frame n 257 f ∧ from_client n time 0 discover_options dhcp_at f
    else
      ∃ f, out = Datagram (ipaddr n) (htons DHCP_CLIENT_PORT) (server p) (htons DHCP_SERVER_PORT) f ∧ length f = 256%nat ∧
        from_client n time (ipaddr n) (request_options (ipaddr n) (server p)) 0 f.
Proof.
  rewrite <-(parsed_learned (clock s) opts (bytes_at d_yiaddr 4 hdr)); [|apply Hserver| |done].
  2: { apply Nat2Z.inj. by rewrite length_bytes_at by (rewrite ?(fs_len _ _ _ Hserver); done). }
  assert (∀ (f : dhcp_pcb_t → ST client (option sent)), st_bind (the_pcb a) f s = f p s) as Bp by (intros f; unfold st_bind, the_pcb, st_deref; by rewrite Hp).
  assert (∀ (f : netif_t → ST client (option sent)), st_bind (the_interface (netif p)) f s = f n s) as Bn
    by (intros f; unfold st_bind, the_interface, st_deref; by rewrite Hn).
  unfold dhcp_query. rewrite Bp, Bn. destruct (ipaddr n =? 0); rewrite Hpre in Ha.
  - destruct (discover_leases fd opt_ret netif_ret bind_ret connect_ret send_ret ioctl_ret recv time garbage Hrets Hg Hb Htime s a p n hdr opts pre junk k fuel Hp Hn Hhw Hhb
      Hserver Hk Hpre Ha) as (f & -> & Hf). exists (Raw ioctl_ret.2 f). split; [done|]. by exists f.
  - assert (pre = []) as -> by (destruct pre; [done|cbn in Hpre; lia]).
    destruct (request_leases fd opt_ret netif_ret bind_ret connect_ret send_ret ioctl_ret recv time garbage Hrets Hg Htime s a p n hdr opts [] junk k fuel Hp Hn Hhw Hip
      Hserver Hk eq_refl Ha) as (f & -> & Hf). eexists. split; [done|]. by exists f.
Qed.

(** An interface without an address, and an offer of 10.0.0.7 after one stray frame. *)
Definition demo_hdr : list Z := [2; 1; 6; 0; 9; 0; 0; 0] ++ replicate 8 0 ++ [10; 0; 0; 7] ++ replicate 216 0 ++ [99; 130; 83; 99].
Definition demo_options : list (Z * list Z) :=
  [(53, [2]); (54, [10; 0; 0; 1]); (51, [0; 0; 14; 16]); (1, [255; 255; 255; 0]); (15, [120]); (3, [10; 0; 0; 1])].
Lemma demo_options_ok : Forall option_ok demo_options.
Proof.
  assert (∀ t v, t ≠ OPT_PAD → t ≠ OPT_END → (four t = true → length v = 4%nat) →
    (t = OPT_DHCP_MESSAGE_TYPE → v = [DHCP_OFFER] ∨ v = [DHCP_ACK]) →
    forallb (λ b, (0 <=? b) && (b <? 256)) v = true → option_ok (t, v)) as Hok.
  { intros t v H1 H2 H3 H4 Hv. do 4 (split; [done|]). by apply byte_list. }
  repeat (apply List.Forall_cons; [apply Hok; (done || (intros _; by left))|]). apply List.Forall_nil.
Qed.
Definition demo_netif : netif_t := mk_netif [101] [] 0 [] 0 [2; 0; 0; 0; 0; 1] 0 0 0 0 DRIVER 1 0.
Definition demo_reply : list Z := replicate 42 0 ++ server_bytes demo_hdr demo_options [5].
Definition demo_client : client := mk_client [4096] {[4096 := mk_pcb 100 0 0 0 0 0]} {[100 := demo_netif]} (Task.mk_sched ∅ 1 ∅ ∅ [] 7).

Lemma demo_usual : usual (Task.jiffies (clock demo_client)) demo_options (bytes_at d_yiaddr 4 demo_hdr).
Proof.
  assert (option_value OPT_DHCP_LEASE_TIME demo_options = Some [0; 0; 14; 16]) as El by reflexivity.
  assert (option_value OPT_BROADCAST_ADDRESS demo_options = None) as Eb by reflexivity.
  split; [done| |].
  - intros v. rewrite El. intros [= <-]. done.
  - intros v. rewrite Eb. done.
Qed.

Lemma lease_taken_witness : ∃ f s',
  dhcp_query 3 0 0 0 0 0 (0, 1) (λ i, if decide (i = 0)%nat then (50, replicate 50 0) else (Z.of_nat (length demo_reply), demo_reply)) 9
    (replicate (Z.to_nat 2008) 0) 5 4096 demo_client = Ok (Some (Raw 1 f), s') ∧
  ip_chksum (bytes_at sizeof_eth sizeof_ip f) = Ok 0 ∧
  pcbs s' !! 4096 = Some (mk_pcb 100 (le [10; 0; 0; 1]) 180007 3600 0 0) ∧
  ipaddr <$> interfaces s' !! 100 = Some (le [10; 0; 0; 7]) ∧ gateway <$> interfaces s' !! 100 = Some (le [10; 0; 0; 1]).
Proof.
  destruct (lease_taken 3 0 0 0 0 0 (0, 1) (λ i, if decide (i = 0)%nat then (50, replicate 50 0) else (Z.of_nat (length demo_reply), demo_reply)) 9
    (replicate (Z.to_nat 2008) 0) demo_client 4096 (mk_pcb 100 0 0 0 0 0) demo_netif demo_hdr demo_options (replicate 42 0) [5] 1 5)
    as (out & Hq & f & -> & _ & Hbf & _).
  - done.
  - by rewrite length_replicate.
  - by apply Forall_replicate.
  - done.
  - done.
  - done.
  - done.
  - by apply byte_list.
  - done.
  - split; [done..|]. by apply demo_options_ok.
  - exact demo_usual.
  - lia.
  - done.
  - split; [|split; [done|by vm_compute]]. intros i Hi. assert (i = 0)%nat as -> by lia. done.
  - eexists f, _. split; [exact Hq|]. split; [exact (bf_sum _ _ _ Hbf)|]. split; [|split]; vm_compute; reflexivity.
Defined.
