(* ===== verification/Str.v ===== *)
(** * Strings and memory blocks ([src/src/lib/string.c])

    The functions run on a memory of signed bytes ([char] of i386) by address,
    and fault outside it; the loops have no other end than the bytes they find.
    The theorems state what they compute on strings as lists ([cstr]). *)
From S2P Require Import Prelude.

(** Allocated bytes; an address outside the map faults. *)
Abbreviation memory := (gmap Z Z).
Definition EOS : Z := 0.

Definition load (p : Z) : ST memory Z := st_deref (λ m, m !! p).
Definition store (p v : Z) : ST memory unit :=
  let* _ := load p in st_mod <[p := s8 v]>.

(** The loops that end at a byte of the string take one unit of fuel for each
    allocated byte, see [cstr_size]. *)
Definition with_fuel {A} (f : nat → ST memory A) : ST memory A :=
  let* m := st_get in f (S (size m)).

(** ** Copies *)
Fixpoint strcpy_loop (fuel : nat) (ptr src : Z) : ST memory unit :=
  match fuel with
  | O => st_stop Fuel
  | S f =>
      let* c := load src in
      do! store ptr c;
      let* c := load src in
      if c =? EOS then st_ret tt else strcpy_loop f (ptr + 1) (src + 1)
  end.

Definition strcpy (dest src : Z) : ST memory Z :=
  do! with_fuel (λ f, strcpy_loop f dest src); st_ret dest.

(** [false]: all [count] bytes were copied without meeting the terminator. *)
Fixpoint strncpy_loop (count : nat) (ptr src : Z) : ST memory bool :=
  match count with
  | O => st_ret false
  | S n =>
      let* c := load src in
      do! store ptr c;
      let* c := load src in
      if c =? EOS then st_ret true else strncpy_loop n (ptr + 1) (src + 1)
  end.

Definition strncpy (dest src count : Z) : ST memory Z :=
  let* ended := strncpy_loop (Z.to_nat count) dest src in
  do! (if ended : bool then st_ret tt else store (u32 (dest + u32 (count - 1))) EOS);
  st_ret dest.

(** The address of the terminator. *)
Fixpoint end_loop (fuel : nat) (ptr : Z) : ST memory Z :=
  match fuel with
  | O => st_stop Fuel
  | S f =>
      let* c := load ptr in
      if c =? EOS then st_ret ptr else end_loop f (ptr + 1)
  end.

Definition strcat (dest src : Z) : ST memory Z :=
  let* ptr := with_fuel (λ f, end_loop f dest) in
  do! with_fuel (λ f, strcpy_loop f ptr src);
  st_ret dest.

Fixpoint memset_loop (count : nat) (ptr ch : Z) : ST memory unit :=
  match count with
  | O => st_ret tt
  | S n => do! store ptr ch; memset_loop n (ptr + 1) ch
  end.
Definition memset (dest ch count : Z) : ST memory Z :=
  do! memset_loop (Z.to_nat count) dest ch; st_ret dest.

Fixpoint memcpy_loop (count : nat) (ptr src : Z) : ST memory unit :=
  match count with
  | O => st_ret tt
  | S n => let* c := load src in do! store ptr c; memcpy_loop n (ptr + 1) (src + 1)
  end.
Definition memcpy (dest src count : Z) : ST memory Z :=
  do! memcpy_loop (Z.to_nat count) dest src; st_ret dest.

(** ** Queries *)
Definition strlen (str : Z) : ST memory Z :=
  let* ptr := with_fuel (λ f, end_loop f str) in st_ret (u32 (ptr - str)).

Fixpoint strnlen_loop (maxlen : nat) (ptr : Z) : ST memory Z :=
  let* c := load ptr in
  if c =? EOS then st_ret ptr
  else match maxlen with O => st_ret ptr | S n => strnlen_loop n (ptr + 1) end.
Definition strnlen (str maxlen : Z) : ST memory Z :=
  let* ptr := strnlen_loop (Z.to_nat maxlen) str in st_ret (u32 (ptr - str)).

(** [a < b ? -1 : a > b] *)
Definition char_compare (a b : Z) : Z := if a <? b then -1 else if b <? a then 1 else 0.

Fixpoint strcmp_loop (fuel : nat) (lhs rhs : Z) : ST memory Z :=
  match fuel with
  | O => st_stop Fuel
  | S f =>
      let* a := load lhs in
      let* b := load rhs in
      if (a =? b) && negb (a =? EOS) && negb (b =? EOS) then strcmp_loop f (lhs + 1) (rhs + 1)
      else st_ret (char_compare a b)
  end.
Definition strcmp (lhs rhs : Z) : ST memory Z := with_fuel (λ f, strcmp_loop f lhs rhs).

Definition NULL : Z := 0.

(** The search loops of [strchr] and [strsep], and of [strrchr] and [strrsep];
    [hit] is the test of a character. *)
Fixpoint first_loop (fuel : nat) (hit : Z → bool) (ptr : Z) : ST memory Z :=
  match fuel with
  | O => st_stop Fuel
  | S f =>
      let* c := load ptr in
      if hit c then st_ret ptr
      else if c =? EOS then st_ret NULL else first_loop f hit (ptr + 1)
  end.

Fixpoint last_loop (fuel : nat) (hit : Z → bool) (last ptr : Z) : ST memory Z :=
  match fuel with
  | O => st_stop Fuel
  | S f =>
      let* c := load ptr in
      let last := if hit c then ptr else last in
      if c =? EOS then st_ret last else last_loop f hit last (ptr + 1)
  end.

Definition IS_SEPARATOR (c : Z) : bool := (c =? 47) || (c =? 92).

Definition strchr (str ch : Z) : ST memory Z := with_fuel (λ f, first_loop f (Z.eqb ch) str).
Definition strrchr (str ch : Z) : ST memory Z :=
  with_fuel (λ f, last_loop f (Z.eqb ch) NULL str).
Definition strsep (str : Z) : ST memory Z := with_fuel (λ f, first_loop f IS_SEPARATOR str).
Definition strrsep (str : Z) : ST memory Z :=
  with_fuel (λ f, last_loop f IS_SEPARATOR NULL str).

Fixpoint memcmp_loop (count : nat) (lhs rhs : Z) : ST memory Z :=
  match count with
  | O => st_ret 0
  | S n =>
      let* a := load lhs in
      let* b := load rhs in
      if a =? b then memcmp_loop n (lhs + 1) (rhs + 1) else st_ret (char_compare a b)
  end.
Definition memcmp (lhs rhs count : Z) : ST memory Z := memcmp_loop (Z.to_nat count) lhs rhs.

(** Without a hit the function returns no value: [eax] is what the caller sees. *)
Fixpoint memchr_loop (eax : Z) (count : nat) (ptr ch : Z) : ST memory Z :=
  match count with
  | O => st_ret eax
  | S n =>
      let* c := load ptr in
      if c =? ch then st_ret ptr else memchr_loop eax n (ptr + 1) ch
  end.
Definition memchr (eax str ch count : Z) : ST memory Z :=
  memchr_loop eax (Z.to_nat count) str ch.

(** ** Strings as lists *)
Fixpoint bytes_at (m : memory) (p : Z) (l : list Z) : Prop :=
  match l with [] => True | c :: l' => m !! p = Some c ∧ bytes_at m (p + 1) l' end.

Definition is_char (c : Z) : Prop := c ≠ EOS ∧ -128 ≤ c < 128.

(** The string [s] at address [p]. *)
Definition cstr (m : memory) (p : Z) (s : list Z) : Prop :=
  Forall is_char s ∧ bytes_at m p (s ++ [EOS]).

Fixpoint write (m : memory) (p : Z) (l : list Z) : memory :=
  match l with [] => m | c :: l' => write (<[p := c]> m) (p + 1) l' end.

(** The bytes [p, p+n) are allocated. *)
Definition room (m : memory) (p : Z) (n : nat) : Prop :=
  ∀ q, p ≤ q < p + Z.of_nat n → is_Some (m !! q).

Definition apart (p q : Z) (n k : nat) : Prop :=
  p + Z.of_nat n ≤ q ∨ q + Z.of_nat k ≤ p.

Lemma bytes_at_app m p l1 l2 :
  bytes_at m p (l1 ++ l2) ↔ bytes_at m p l1 ∧ bytes_at m (p + Z.of_nat (length l1)) l2.
Proof.
  revert p. induction l1 as [|c l1 IH]; intros p; cbn [bytes_at app length].
  - rewrite Z.add_0_r. tauto.
  - rewrite IH. replace (p + 1 + Z.of_nat (length l1)) with (p + Z.of_nat (S (length l1))) by lia. tauto.
Qed.

Lemma bytes_at_frame m m' p l :
  (∀ q, p ≤ q < p + Z.of_nat (length l) → m' !! q = m !! q) → bytes_at m p l → bytes_at m' p l.
Proof.
  revert p. induction l as [|c l IH]; intros p Hq; [done|]. cbn [bytes_at length] in *. intros [Hc Hl].
  split; [rewrite Hq; [done|lia]|]. apply IH; [|done]. intros q Hr. apply Hq. lia.
Qed.

Lemma bytes_at_room m p l : bytes_at m p l → room m p (length l).
Proof.
  revert p. induction l as [|c l IH]; intros p Hl q Hq; cbn [length] in *; [lia|]. destruct Hl as [Hc Hl].
  destruct (decide (q = p)) as [->|]; [by exists c|]. apply (IH (p + 1)); [done|lia].
Qed.

Lemma write_other m p l q : q < p ∨ p + Z.of_nat (length l) ≤ q → write m p l !! q = m !! q.
Proof.
  revert m p. induction l as [|c l IH]; intros m p Hq; cbn [write length] in *; [done|].
  rewrite IH by lia. rewrite lookup_insert_ne by lia. done.
Qed.

Lemma write_bytes m p l : bytes_at (write m p l) p l.
Proof.
  revert m p. induction l as [|c l IH]; intros m p; [done|]. cbn [write bytes_at].
  split; [|apply IH]. rewrite write_other by lia. apply lookup_insert_eq.
Qed.

Lemma write_app m p l1 l2 :
  write m p (l1 ++ l2) = write (write m p l1) (p + Z.of_nat (length l1)) l2.
Proof.
  revert m p. induction l1 as [|c l1 IH]; intros m p; cbn [write app length]; [by rewrite Z.add_0_r|].
  rewrite IH. f_equal. lia.
Qed.

Lemma room_write m p n q l : room m p n → room (write m q l) p n.
Proof.
  revert m q. induction l as [|c l IH]; intros m q Hr; [done|]. cbn [write]. apply IH.
  intros x Hx. rewrite lookup_insert_is_Some'. right. by apply Hr.
Qed.

Lemma cstr_cons m p c s : cstr m p (c :: s) ↔
  is_char c ∧ m !! p = Some c ∧ cstr m (p + 1) s.
Proof. unfold cstr. rewrite Forall_cons. cbn [bytes_at app]. tauto. Qed.
Lemma cstr_nil m p : cstr m p [] ↔ m !! p = Some EOS.
Proof. unfold cstr. cbn. pose proof (Forall_nil_2 is_char). tauto. Qed.

(** Each byte of a string is allocated, the terminator too: the fuel is enough. *)
Lemma room_size m p n : room m p n → (n ≤ size m)%nat.
Proof.
  intros Hr. rewrite <-size_dom.
  assert (size (list_to_set (seqZ p (Z.of_nat n)) : gset Z) = n) as <-.
  { rewrite size_list_to_set by apply NoDup_seqZ. rewrite length_seqZ. lia. }
  apply subseteq_size. intros q Hq%elem_of_list_to_set%elem_of_seqZ. apply elem_of_dom, Hr. lia.
Qed.

Lemma cstr_size m p s : cstr m p s → (length s < size m)%nat.
Proof.
  intros [_ Hb]. apply bytes_at_room, room_size in Hb. rewrite length_app in Hb. cbn in Hb. lia.
Qed.

Lemma cstr_frame m m' p s :
  (∀ q, p ≤ q < p + Z.of_nat (S (length s)) → m' !! q = m !! q) → cstr m p s → cstr m' p s.
Proof.
  intros Hq [Hs Hb]. split; [done|]. apply (bytes_at_frame m); [|done].
  intros q Hr. apply Hq. rewrite length_app in Hr. cbn in Hr. lia.
Qed.

Lemma s8_char c : is_char c → s8 c = c.
Proof. intros [_ Hc]. int_lia. Qed.

Lemma store_ok m p v : is_Some (m !! p) → store p v m = Ok (tt, <[p := s8 v]> m).
Proof. intros [x Hx]. unfold store, load, st_bind, st_deref. by rewrite Hx. Qed.
Lemma load_ok m p v : m !! p = Some v → load p m = Ok (v, m).
Proof. intros Hx. unfold load, st_deref. by rewrite Hx. Qed.
Lemma eos_char c : is_char c → (c =? EOS) = false.
Proof. intros [Hc _]. by apply Z.eqb_neq. Qed.

(** ** Queries *)
Fixpoint first_index (hit : Z → bool) (l : list Z) : option nat :=
  match l with
  | [] => None
  | c :: l' => if hit c then Some O else S <$> first_index hit l'
  end.
Fixpoint last_index (hit : Z → bool) (l : list Z) : option nat :=
  match l with
  | [] => None
  | c :: l' =>
      match last_index hit l' with
      | Some i => Some (S i)
      | None => if hit c then Some O else None
      end
  end.
Definition at_index (p : Z) (o : option nat) : Z :=
  match o with Some i => p + Z.of_nat i | None => NULL end.

(** Lexicographic order of signed characters; the terminator is the least. *)
Fixpoint compare (s t : list Z) : Z :=
  match s, t with
  | [], [] => 0
  | [], c :: _ => char_compare EOS c
  | c :: _, [] => char_compare c EOS
  | c :: s', d :: t' => if c =? d then compare s' t' else char_compare c d
  end.

Section queries.
Context (m : memory).

Lemma end_loop_ok s : ∀ f p, cstr m p s → (length s < f)%nat →
  end_loop f p m = Ok (p + Z.of_nat (length s), m).
Proof using.
  induction s as [|c s IH]; intros f p Hs Hf; (destruct f as [|f]; [lia|]); cbn [end_loop length] in *;
    unfold st_bind.
  - apply cstr_nil in Hs. rewrite (load_ok m p EOS) by done. cbn. by rewrite Z.add_0_r.
  - apply cstr_cons in Hs as (Hc & Hp & Hs). rewrite (load_ok m p c), eos_char by done.
    rewrite IH by (done || lia). by replace (p + 1 + Z.of_nat (length s)) with (p + Z.of_nat (S (length s))) by lia.
Qed.

Lemma strnlen_loop_ok s : ∀ k p, cstr m p s →
  strnlen_loop k p m = Ok (p + Z.of_nat (length s `min` k), m).
Proof using.
  induction s as [|c s IH]; intros k p Hs.
  - apply cstr_nil in Hs. destruct k; cbn [strnlen_loop]; unfold st_bind;
      rewrite (load_ok m p EOS) by done; cbn; by rewrite Z.add_0_r.
  - apply cstr_cons in Hs as (Hc & Hp & Hs). destruct k as [|k]; cbn [strnlen_loop]; unfold st_bind;
      rewrite (load_ok m p c), eos_char by done.
    + cbn. by rewrite Z.add_0_r.
    + rewrite IH by done. f_equal. f_equal. cbn. lia.
Qed.

Lemma first_loop_ok hit s : ∀ f p, cstr m p s → (length s < f)%nat →
  first_loop f hit p m = Ok (at_index p (first_index hit (s ++ [EOS])), m).
Proof using.
  induction s as [|c s IH]; intros f p Hs Hf; (destruct f as [|f]; [lia|]);
    cbn [first_loop length first_index app] in *; unfold st_bind.
  - apply cstr_nil in Hs. rewrite (load_ok m p EOS) by done.
    destruct (hit EOS); cbn; by rewrite ?Z.add_0_r.
  - apply cstr_cons in Hs as (Hc & Hp & Hs). rewrite (load_ok m p c) by done.
    destruct (hit c); [cbn; by rewrite Z.add_0_r|]. rewrite eos_char by done.
    rewrite IH by (done || lia). destruct (first_index hit (s ++ [EOS])); cbn; [|done].
    f_equal. f_equal. lia.
Qed.

Lemma last_loop_ok hit s : ∀ f last p, cstr m p s → (length s < f)%nat →
  last_loop f hit last p m = Ok (match last_index hit (s ++ [EOS]) with
    | Some i => p + Z.of_nat i | None => last end, m).
Proof using.
  induction s as [|c s IH]; intros f last p Hs Hf; (destruct f as [|f]; [lia|]);
    cbn [last_loop length last_index app] in *; unfold st_bind.
  - apply cstr_nil in Hs. rewrite (load_ok m p EOS) by done. cbn [Z.eqb].
    destruct (hit EOS); cbn; by rewrite ?Z.add_0_r.
  - apply cstr_cons in Hs as (Hc & Hp & Hs). rewrite (load_ok m p c), eos_char by done.
    rewrite IH by (done || lia). destruct (last_index hit (s ++ [EOS])) as [i|].
    + f_equal. f_equal. lia.
    + destruct (hit c); [|done]. cbn. by rewrite Z.add_0_r.
Qed.

Lemma strcmp_loop_ok s : ∀ t f p q, cstr m p s → cstr m q t → (length s < f)%nat →
  strcmp_loop f p q m = Ok (compare s t, m).
Proof using.
  induction s as [|c s IH]; intros t f p q Hs Ht Hf; (destruct f as [|f]; [lia|]);
    cbn [strcmp_loop length] in *; unfold st_bind.
  - apply cstr_nil in Hs. rewrite (load_ok m p EOS) by done. destruct t as [|d t].
    + apply cstr_nil in Ht. by rewrite (load_ok m q EOS).
    + apply cstr_cons in Ht as (Hd & Hq & Ht). rewrite (load_ok m q d) by done.
      cbn [negb]. by rewrite Z.eqb_refl, andb_false_r.
  - apply cstr_cons in Hs as (Hc & Hp & Hs). rewrite (load_ok m p c), eos_char by done. destruct t as [|d t].
    + apply cstr_nil in Ht. rewrite (load_ok m q EOS) by done. rewrite (eos_char c) by done. done.
    + apply cstr_cons in Ht as (Hd & Hq & Ht). rewrite (load_ok m q d), eos_char by done.
      cbn [negb compare]. rewrite !andb_true_r. destruct (c =? d); [|done]. apply IH; (done || lia).
Qed.

Lemma memcmp_loop_ok a : ∀ b p q, length a = length b → bytes_at m p a → bytes_at m q b →
  ∃ r, memcmp_loop (length a) p q m = Ok (r, m) ∧ (r = 0 ↔ a = b).
Proof using.
  induction a as [|c a IH]; intros [|d b] p q Hl Ha Hb; try done; [by exists 0|].
  destruct Ha as [Hp Ha], Hb as [Hq Hb]. cbn [memcmp_loop length] in *. unfold st_bind.
  rewrite (load_ok m p c), (load_ok m q d) by done. destruct (Z.eqb_spec c d) as [->|Hne].
  - destruct (IH b (p + 1) (q + 1)) as (r & -> & Hr); [lia|done|done|]. exists r. split; [done|].
    rewrite Hr. split; [by intros ->|]. by intros [= ->].
  - exists (char_compare c d). split; [done|]. unfold char_compare.
    split; [|by intros [= -> _]]. repeat case_match; try done. lia.
Qed.

Lemma memchr_loop_ok eax ch l : ∀ p, bytes_at m p l →
  memchr_loop eax (length l) p ch m = Ok (match first_index (λ c, c =? ch) l with
    | Some i => p + Z.of_nat i | None => eax end, m).
Proof using.
  induction l as [|c l IH]; intros p Hl; [done|]. destruct Hl as [Hp Hl].
  cbn [memchr_loop length first_index]. unfold st_bind. rewrite (load_ok m p c) by done.
  destruct (c =? ch); [cbn; by rewrite Z.add_0_r|]. rewrite IH by done.
  destruct (first_index _ l); cbn; [|done]. f_equal. f_equal. lia.
Qed.
End queries.

Lemma char_compare_0 a b : char_compare a b = 0 ↔ a = b.
Proof. unfold char_compare. destruct (Z.ltb_spec a b), (Z.ltb_spec b a); lia. Qed.

Lemma compare_0 s : ∀ t, Forall is_char s → Forall is_char t → compare s t = 0 ↔ s = t.
Proof.
  induction s as [|c s IH]; intros [|d t] Hs Ht; cbn [compare]; [done| | |].
  - apply Forall_cons in Ht as [[Hd _] _]. rewrite char_compare_0. split; [by intros <-|done].
  - apply Forall_cons in Hs as [[Hc _] _]. rewrite char_compare_0. by split; [intros ->|].
  - apply Forall_cons in Hs as [_ Hs], Ht as [_ Ht]. destruct (Z.eqb_spec c d) as [->|Hne].
    + rewrite IH by done. split; [by intros ->|by intros [= ->]].
    + rewrite char_compare_0. split; [done|]. by intros [= -> _].
Qed.

(** ** Copies *)
Lemma apart_succ p q n k : apart p q (S n) (S k) → apart (p + 1) (q + 1) n k.
Proof. unfold apart. lia. Qed.

Lemma room_succ m p n v : room m p (S n) → room (<[p := v]> m) (p + 1) n.
Proof. intros Hr q Hq. rewrite lookup_insert_is_Some'. right. apply Hr. lia. Qed.

(** The first byte of a copy leaves the rest of the source alone. *)
Lemma bytes_at_copied m p q v n l : apart p q (S n) (S (length l)) →
  bytes_at m (q + 1) l → bytes_at (<[p := v]> m) (q + 1) l.
Proof.
  intros Ha. apply bytes_at_frame. intros x Hx. apply lookup_insert_ne. unfold apart in Ha. lia.
Qed.

Lemma cstr_copied m p q c s n : apart p q (S n) (S (S (length s))) →
  cstr m (q + 1) s → cstr (<[p := c]> m) (q + 1) s.
Proof.
  intros Ha [Hs Hb]. split; [done|]. apply (bytes_at_copied _ _ _ _ n); [|done].
  rewrite length_app. cbn. unfold apart in *. lia.
Qed.

Lemma strcpy_loop_ok s : ∀ f m p q, cstr m q s → room m p (S (length s)) →
  apart p q (S (length s)) (S (length s)) → (length s < f)%nat →
  strcpy_loop f p q m = Ok (tt, write m p (s ++ [EOS])).
Proof.
  induction s as [|c s IH]; intros f m p q Hs Hr Ha Hf; (destruct f as [|f]; [lia|]);
    cbn [strcpy_loop length write app] in *; unfold st_bind.
  - apply cstr_nil in Hs. rewrite (load_ok m q EOS) by done.
    rewrite store_ok by (apply Hr; lia). unfold apart in Ha.
    by rewrite (load_ok _ q EOS) by (rewrite lookup_insert_ne by lia; done).
  - apply cstr_cons in Hs as (Hc & Hq & Hs). rewrite (load_ok m q c) by done.
    rewrite store_ok, s8_char by (done || (apply Hr; lia)).
    rewrite (load_ok _ q c) by (rewrite lookup_insert_ne by (unfold apart in Ha; lia); done).
    rewrite eos_char by done. apply IH; [|by apply room_succ|by apply apart_succ|lia].
    by apply (cstr_copied _ _ _ _ _ (S (length s))).
Qed.

(** A string shorter than [count] is copied with its terminator; of a longer one
    the first [count] characters are. *)
Lemma strncpy_loop_ok s : ∀ k m p q, cstr m q s → room m p k → apart p q k (S (length s)) →
  strncpy_loop k p q m =
    Ok (bool_decide (length s < k)%nat,
        write m p (if bool_decide (length s < k)%nat then s ++ [EOS] else take k s)).
Proof.
  induction s as [|c s IH]; intros k m p q Hs Hr Ha; (destruct k as [|k];
    [cbn [strncpy_loop]; by rewrite bool_decide_eq_false_2 by lia|]);
    cbn [strncpy_loop length] in *; unfold st_bind.
  - apply cstr_nil in Hs. rewrite (load_ok m q EOS) by done.
    rewrite store_ok by (apply Hr; lia). unfold apart in Ha.
    rewrite (load_ok _ q EOS) by (rewrite lookup_insert_ne by lia; done).
    by rewrite bool_decide_eq_true_2 by lia.
  - apply cstr_cons in Hs as (Hc & Hq & Hs). rewrite (load_ok m q c) by done.
    rewrite store_ok, s8_char by (done || (apply Hr; lia)).
    rewrite (load_ok _ q c) by (rewrite lookup_insert_ne by (unfold apart in Ha; lia); done).
    rewrite eos_char by done. rewrite IH; [|by apply (cstr_copied _ _ _ _ _ k)|by apply room_succ|by apply apart_succ].
    repeat case_bool_decide; (lia || done).
Qed.

Lemma memset_loop_ok k : ∀ m p ch, room m p k →
  memset_loop k p ch m = Ok (tt, write m p (replicate k (s8 ch))).
Proof.
  induction k as [|k IH]; intros m p ch Hr; [done|]. cbn [memset_loop replicate write]. unfold st_bind.
  rewrite store_ok by (apply Hr; lia). apply IH. by apply room_succ.
Qed.

(** The copy runs forwards: the source may overlap the end of the destination. *)
Lemma memcpy_loop_ok l : ∀ m p q, bytes_at m q l → Forall (λ c, -128 ≤ c < 128) l →
  room m p (length l) → p ≤ q ∨ q + Z.of_nat (length l) ≤ p →
  memcpy_loop (length l) p q m = Ok (tt, write m p l).
Proof.
  induction l as [|c l IH]; intros m p q Hl Hc Hr Ha; [done|]. destruct Hl as [Hq Hl].
  apply Forall_cons in Hc as [Hc Hcs]. cbn [memcpy_loop length write] in *. unfold st_bind.
  rewrite (load_ok m q c) by done. rewrite store_ok by (apply Hr; lia).
  replace (s8 c) with c by (symmetry; int_lia).
  apply IH; [|done|by apply room_succ|lia].
  revert Hl. apply bytes_at_frame. intros x Hx. apply lookup_insert_ne. lia.
Qed.

(** ** The functions *)
Section functions.
Context (m : memory).

Lemma strlen_ok p s : cstr m p s → strlen p m = Ok (u32 (Z.of_nat (length s)), m).
Proof using.
  intros Hs. unfold strlen, with_fuel, st_bind. cbn [st_get].
  rewrite (end_loop_ok m s) by (done || (pose proof (cstr_size _ _ _ Hs); lia)).
  unfold st_ret. by replace (p + Z.of_nat (length s) - p) with (Z.of_nat (length s)) by lia.
Qed.

Lemma strncpy_ok p q s k : cstr m q s → (0 < k)%nat → room m p k → apart p q k (S (length s)) →
  0 ≤ p → p + Z.of_nat k < 2 ^ 32 →
  strncpy p q (Z.of_nat k) m = Ok (p, write m p (take (k - 1) s ++ [EOS])).
Proof using.
  intros Hs Hk Hr Ha Hp Hpk. change (2 ^ 32) with 4294967296 in Hpk. unfold strncpy, st_bind. rewrite Nat2Z.id.
  rewrite (strncpy_loop_ok s) by done. case_bool_decide.
  - cbn [st_ret]. unfold st_ret. by rewrite take_ge by lia.
  - rewrite (u32_small (Z.of_nat k - 1)), u32_small by lia.
    rewrite store_ok by (apply (room_write m p k); [done|lia]). unfold st_ret. f_equal. f_equal.
    assert (∃ c, take k s = take (k - 1) s ++ [c]) as [c ->].
    { destruct (lookup_lt_is_Some_2 s (k - 1)) as [c Hc]; [lia|]. exists c.
      replace k with (S (k - 1)) at 1 by lia. by apply take_S_r. }
    rewrite !write_app. cbn [write]. rewrite length_take, Nat.min_l by lia.
    replace (p + (Z.of_nat k - 1)) with (p + Z.of_nat (k - 1)) by lia. by rewrite insert_insert_eq.
Qed.

Lemma strcat_ok p q s t : cstr m p s → cstr m q t →
  room m p (S (length s + length t)) → apart p q (S (length s + length t)) (S (length t)) →
  strcat p q m = Ok (p, write m (p + Z.of_nat (length s)) (t ++ [EOS])).
Proof using.
  intros Hs Ht Hr Ha. unfold strcat, with_fuel, st_bind. cbn [st_get].
  rewrite (end_loop_ok m s) by (done || (pose proof (cstr_size _ _ _ Hs); lia)). unfold st_get.
  rewrite (strcpy_loop_ok t); [done|done| | |pose proof (cstr_size _ _ _ Ht); lia].
  - intros x Hx. apply Hr. lia.
  - unfold apart in *. lia.
Qed.
End functions.

(** C19: the string functions compute, on well-formed strings at addresses in
    memory, the list operations they stand for and end: [strlen] and [strnlen]
    the length, [strchr], [strsep] the first and [strrchr], [strrsep] the last
    place of a character (also the terminator's), [strcmp] the lexicographic
    order of signed characters, 0 exactly for equal strings; [strcpy], [strncpy]
    and [strcat] write the copied string at the destination and nothing else,
    [strncpy] at most [count] bytes, always with a terminator. *)
Theorem string_functions (m : memory) (p q : Z) (s t : list Z) (ch : Z)
    (Hs : cstr m p s) (Ht : cstr m q t) :
  strlen p m = Ok (u32 (Z.of_nat (length s)), m) ∧
  (∀ k, strnlen p (Z.of_nat k) m = Ok (u32 (Z.of_nat (length s `min` k)), m)) ∧
  strchr p ch m = Ok (at_index p (first_index (Z.eqb ch) (s ++ [EOS])), m) ∧
  strrchr p ch m = Ok (at_index p (last_index (Z.eqb ch) (s ++ [EOS])), m) ∧
  strsep p m = Ok (at_index p (first_index IS_SEPARATOR (s ++ [EOS])), m) ∧
  strrsep p m = Ok (at_index p (last_index IS_SEPARATOR (s ++ [EOS])), m) ∧
  (∃ r, strcmp p q m = Ok (r, m) ∧ r = compare s t ∧ (r = 0 ↔ s = t)) ∧
  (∀ d, room m d (S (length s)) → apart d p (S (length s)) (S (length s)) →
     strcpy d p m = Ok (d, write m d (s ++ [EOS]))) ∧
  (∀ d k, (0 < k)%nat → room m d k → apart d p k (S (length s)) → 0 ≤ d →
     d + Z.of_nat k < 2 ^ 32 →
     strncpy d p (Z.of_nat k) m = Ok (d, write m d (take (k - 1) s ++ [EOS]))) ∧
  (room m p (S (length s + length t)) → apart p q (S (length s + length t)) (S (length t)) →
     strcat p q m = Ok (p, write m (p + Z.of_nat (length s)) (t ++ [EOS]))).
Proof.
  pose proof (cstr_size _ _ _ Hs) as Hf.
  split; [by apply strlen_ok|]. split.
  { intros k. unfold strnlen, st_bind. rewrite Nat2Z.id, (strnlen_loop_ok m s) by done. unfold st_ret.
    by replace (p + Z.of_nat (length s `min` k) - p) with (Z.of_nat (length s `min` k)) by lia. }
  split; [by apply first_loop_ok; [|lia]|]. split; [by apply last_loop_ok; [|lia]|].
  split; [by apply first_loop_ok; [|lia]|]. split; [by apply last_loop_ok; [|lia]|].
  split.
  { exists (compare s t). split; [by apply strcmp_loop_ok; [| |lia]|]. split; [done|].
    apply compare_0; [apply Hs|apply Ht]. }
  split.
  { intros d Hr Ha. unfold strcpy, with_fuel, st_bind. cbn [st_get]. unfold st_get.
    by rewrite (strcpy_loop_ok s) by (done || lia). }
  split; [by intros; apply strncpy_ok|]. by apply strcat_ok.
Qed.

(** "ab/" at 8 and "a" at 16; twelve bytes free at 32. *)
Definition demo_memory : memory :=
  write (write (write ∅ 8 [97; 98; 47; 0]) 16 [97; 0]) 32 (replicate 12 0).

Lemma string_functions_witness :
  strlen 8 demo_memory = Ok (u32 3, demo_memory) ∧
  strsep 8 demo_memory = Ok (10, demo_memory) ∧
  ∃ r, strcmp 8 16 demo_memory = Ok (r, demo_memory) ∧ r ≠ 0.
Proof.
  assert (cstr demo_memory 8 [97; 98; 47]) as Hs.
  { split; [repeat constructor; done|]. vm_compute. tauto. }
  assert (cstr demo_memory 16 [97]) as Ht.
  { split; [repeat constructor; done|]. vm_compute. tauto. }
  destruct (string_functions demo_memory 8 16 _ _ 47 Hs Ht) as (H1 & _ & _ & _ & H5 & _ & (r & H7 & H8 & _) & _).
  split; [exact H1|]. split; [exact H5|]. exists r. split; [exact H7|]. rewrite H8. discriminate.
Defined.
