(* ===== verification/Arena.v ===== *)
(** * The kernel heap ([src/src/kernel/arena.c], [src/src/include/onix/arena.h])

    [kmalloc] serves a request of at most 1024 bytes from the free list of one
    of seven descriptors, whose blocks are cut out of single kernel pages, and a
    larger one with whole pages; [kfree] finds the header of a block at the
    start of its page.  The kernel pages are used through the interface
    [KPages], which [memory.c]'s [alloc_kpage] and [free_kpage] implement
    ([mem_KPages]). *)
From S2P Require Import Prelude Page.
From S2P Require Dlist Bitmap.
Import Dlist(NULL).
Module Abs := Dlist.Abs.

(** ** The interface of the kernel pages *)

(** [marked k j]: page [j] is in use; [kp_lo, kp_hi) is the area of the kernel
    pages. *)
Class KPages (K : Type) := {
  kp_alloc : Z → ST K Z;
  kp_free : Z → Z → ST K unit;
  marked : K → Z → bool;
  kp_lo : Z;
  kp_hi : Z;
  kp_ok : K → Prop }.

Definition in_run (i n j : Z) : bool := (i <=? j) && (j <? i + n).

Class KPagesLaws (K : Type) `{KPages K} := {
  kp_area : 0 < kp_lo ∧ kp_hi < 2 ^ 19;
  kp_alloc_law k n : kp_ok k → 0 < n < 2 ^ 20 →
    wp (λ e, e = Assert ∧
          ∀ i, kp_lo ≤ i → i + n ≤ kp_hi → ∃ j, in_run i n j = true ∧ marked k j = true)
      (kp_alloc n)
      (λ a k', ∃ i, a = i * 4096 ∧ kp_lo ≤ i ∧ i + n ≤ kp_hi ∧ kp_ok k' ∧
        (∀ j, in_run i n j = true → marked k j = false) ∧
        ∀ j, kp_lo ≤ j < kp_hi → marked k' j = in_run i n j || marked k j) k;
  kp_free_law k i n : kp_ok k → 0 < n → kp_lo ≤ i → i + n ≤ kp_hi →
    (∀ j, in_run i n j = true → marked k j = true) →
    wp no_stop (kp_free (i * 4096) n)
      (λ _ k', kp_ok k' ∧
        ∀ j, kp_lo ≤ j < kp_hi → marked k' j = negb (in_run i n j) && marked k j) k }.

(** ** Data *)
Definition DESC_COUNT : Z := 7.
Definition BUF_COUNT : Z := 4.
Definition ONIX_MAGIC : Z := 0x20220205.

(** [free_list] is the sequence of the blocks' addresses; the pointer code of
    the list operations implements [Dlist.Abs] ([Dlist.list_ops_refine]). *)
Record arena_descriptor_t := mk_desc {
  total_block : Z; block_size : Z; page_count : Z; free_list : list Z }.
#[export] Instance expand_desc : Expand arena_descriptor_t :=
  λ d, mk_desc (total_block d) (block_size d) (page_count d) (free_list d).

(** The header at the start of a page; [desc] is the index of the descriptor the
    pointer designates, [None] for [NULL]. *)
Record arena_t := mk_arena { desc : option nat; count : Z; large : Z; magic : Z }.
#[export] Instance expand_arena : Expand arena_t :=
  λ a, mk_arena (desc a) (count a) (large a) (magic a).
Definition arena_size : Z := 16.

(** [headers]: the first 16 bytes of the pages, by page address, read as a
    header; a freed page keeps its bytes.  [kpages]: the state behind the page
    allocator. *)
Record heap {K : Type} := mk_heap {
  descriptors : list arena_descriptor_t;
  headers : gmap Z arena_t;
  kpages : K }.
Arguments heap : clear implicits.
#[export] Instance expand_heap K : Expand (heap K) :=
  λ s, mk_heap K (descriptors s) (headers s) (kpages s).

(** ** Operations *)
Section ops.
Context {K : Type} `{!KPages K}.

Definition on_pages {A} (m : ST K A) : ST (heap K) A := λ s,
  match m (kpages s) with
  | Ok (a, k) => Ok (a, s <| kpages := k |>)
  | Stop e => Stop e
  end.

Definition arena_init_desc (i : nat) : arena_descriptor_t :=
  let block_size := u32 (Z.shiftl 16 (Z.of_nat i)) in
  mk_desc ((PAGE_SIZE - arena_size) `div` block_size) block_size 0 [].

Definition arena_init : ST (heap K) unit :=
  st_mod (λ s, s <| descriptors := arena_init_desc <$> seq 0 (Z.to_nat DESC_COUNT) |>).

Definition get_desc (i : nat) : ST (heap K) arena_descriptor_t :=
  st_deref (λ s, descriptors s !! i).
Definition mod_desc (i : nat) (f : arena_descriptor_t → arena_descriptor_t) : ST (heap K) unit :=
  st_mod (λ s, s <| descriptors $= alter f i |>).
Definition get_header (p : Z) : ST (heap K) arena_t := st_deref (λ s, headers s !! p).
Definition mod_header (p : Z) (f : arena_t → arena_t) : ST (heap K) unit :=
  st_mod (λ s, s <| headers $= alter f p |>).

(** [arena->desc]: through a NULL pointer the access faults (page 0 is not
    mapped). *)
Definition arena_desc (p : Z) : ST (heap K) nat :=
  let* a := get_header p in st_deref (λ _, desc a).

Definition get_arena_block (arena idx : Z) : ST (heap K) Z :=
  let* i := arena_desc arena in
  let* d := get_desc i in
  do! st_check (idx <? total_block d);
  st_ret (u32 (u32 (arena + arena_size) + u32 (idx * block_size d))).

Definition get_block_arena (block : Z) : Z := Z.land (u32 block) 0xfffff000.

(** [memset(arena, 0, count * PAGE_SIZE)], as the headers see it. *)
Definition clear_pages (arena count : Z) : ST (heap K) unit :=
  st_for (seqZ 0 count) (λ j,
    st_mod (λ s, s <| headers $= <[u32 (arena + j * PAGE_SIZE) := mk_arena None 0 0 0]> |>)).

Definition list_push (i : nat) (block : Z) : ST (heap K) unit :=
  let* d := get_desc i in
  do! st_check (negb (Abs.mem block (free_list d)));
  mod_desc i (λ d, d <| free_list $= cons block |>).

Definition list_search (i : nat) (block : Z) : ST (heap K) bool :=
  let* d := get_desc i in st_ret (Abs.mem block (free_list d)).

Definition list_pop (i : nat) : ST (heap K) Z :=
  let* d := get_desc i in
  match free_list d with
  | [] => st_stop Assert
  | b :: bs => do! mod_desc i (λ d, d <| free_list := bs |>); st_ret b
  end.

(** The loop over the descriptors leaves the last one when none is large enough. *)
Fixpoint find_desc (ds : list arena_descriptor_t) (size : Z) (i : nat) : nat :=
  match ds with
  | [] => (i - 1)%nat
  | d :: ds' => if size <=? block_size d then i else find_desc ds' size (S i)
  end.

Definition kmalloc_large (size : Z) : ST (heap K) Z :=
  let asize := u32 (size + arena_size) in
  let n := div_round_up asize PAGE_SIZE in
  let* arena := on_pages (kp_alloc n) in
  do! clear_pages arena n;
  do! mod_header arena (λ _, mk_arena None n 1 ONIX_MAGIC);
  st_ret (u32 (arena + arena_size)).

(** A new page for the free list of descriptor [i]. *)
Definition kmalloc_grow (i : nat) : ST (heap K) unit :=
  let* arena := on_pages (kp_alloc 1) in
  do! clear_pages arena 1;
  do! mod_desc i (λ d, d <| page_count $= λ n, s32 (n + 1) |>);
  let* d := get_desc i in
  do! mod_header arena (λ _, mk_arena (Some i) (total_block d) 0 ONIX_MAGIC);
  st_for (seqZ 0 (total_block d)) (λ j,
    let* block := get_arena_block arena j in
    let* i := arena_desc arena in
    let* b := list_search i block in
    do! st_check (negb b);
    do! list_push i block;
    let* b := list_search i block in
    st_check b).

Definition kmalloc (size : Z) : ST (heap K) Z :=
  if 1024 <? size then kmalloc_large size
  else
    let* ds := st_gets descriptors in
    let i := find_desc ds size 0 in
    let* d := get_desc i in
    do! match free_list d with [] => kmalloc_grow i | _ => st_ret tt end;
    let* block := list_pop i in
    let arena := get_block_arena block in
    let* a := get_header arena in
    do! st_check ((magic a =? ONIX_MAGIC) && (large a =? 0));
    do! mod_header arena (λ a, a <| count $= λ c, u32 (c - 1) |>);
    st_ret block.

(** A page whose blocks are all free goes back. *)
Definition kfree_release (arena : Z) (i : nat) : ST (heap K) unit :=
  let* d := get_desc i in
  do! st_for (seqZ 0 (total_block d)) (λ j,
    let* block := get_arena_block arena j in
    let* i := arena_desc arena in
    let* b := list_search i block in
    do! st_check b;
    do! mod_desc i (λ d, d <| free_list $= Abs.remove block |>);
    let* b := list_search i block in
    st_check (negb b));
  do! mod_desc i (λ d, d <| page_count $= λ n, s32 (n - 1) |>);
  let* d := get_desc i in
  do! st_check (BUF_COUNT <=? page_count d);
  on_pages (kp_free arena 1).

Definition kfree (ptr : Z) : ST (heap K) unit :=
  do! st_check (negb (ptr =? NULL));
  let arena := get_block_arena ptr in
  let* a := get_header arena in
  do! st_check ((large a =? 1) || (large a =? 0));
  do! st_check (magic a =? ONIX_MAGIC);
  if negb (large a =? 0) then on_pages (kp_free arena (count a))
  else
    let* i := arena_desc arena in
    do! list_push i ptr;
    do! mod_header arena (λ a, a <| count $= λ c, u32 (c + 1) |>);
    let* a := get_header arena in
    let* d := get_desc i in
    if (count a =? total_block d) && (BUF_COUNT <? page_count d)
    then kfree_release arena i else st_ret tt.
End ops.

(** ** The invariant of the heap *)

(** A run of kernel pages: one page of blocks of a descriptor, the pages of a
    large allocation, or pages another part of the kernel has taken. *)
Inductive run := Small (n : nat) | Big (m : Z) | Other (m : Z).
#[export] Instance run_eq_dec : EqDecision run.
Proof. solve_decision. Defined.

Definition run_len (r : run) : Z := match r with Small _ => 1 | Big m | Other m => m end.

Definition block_addr (i bs j : Z) : Z := i * 4096 + 16 + j * bs.

(** The free blocks of page [i]. *)
Definition free_in (d : arena_descriptor_t) (i : Z) : list Z :=
  filter (λ b, b `div` 4096 = i) (free_list d).

(** The other parts keep their pages. *)
Definition keep_others (runs runs' : gmap Z run) : Prop :=
  ∀ i m, runs !! i = Some (Other m) → runs' !! i = Some (Other m).

Lemma keep_others_insert runs i r : runs !! i = None → keep_others runs (<[i := r]> runs).
Proof. intros Hi j m Hj. rewrite lookup_insert_ne; [done|]. intros <-. congruence. Qed.

Lemma keep_others_delete runs i r : runs !! i = Some r → (∀ m, r ≠ Other m) →
  keep_others runs (delete i runs).
Proof. intros Hi Hr j m Hj. rewrite lookup_delete_ne; [done|]. intros <-. congruence. Qed.

Definition small_pages (runs : gmap Z run) (n : nat) : Z :=
  Z.of_nat (size (filter (λ p, p.2 = Small n) runs)).

Definition is_block (runs : gmap Z run) (n : nat) (d : arena_descriptor_t) (b : Z) : Prop :=
  ∃ i j, runs !! i = Some (Small n) ∧ 0 ≤ j < total_block d ∧ b = block_addr i (block_size d) j.

Record desc_ok (runs : gmap Z run) (n : nat) (d : arena_descriptor_t) : Prop := {
  do_size : block_size d = 16 * 2 ^ Z.of_nat n;
  do_total : total_block d = 4080 `div` block_size d;
  do_count : page_count d = small_pages runs n;
  do_nodup : NoDup (free_list d);
  do_blocks : ∀ b, b ∈ free_list d → is_block runs n d b }.

(** A block handed out, and its size. *)
Definition allocated {K} (s : heap K) (runs : gmap Z run) (b c : Z) : Prop :=
  (∃ n d, descriptors s !! n = Some d ∧ is_block runs n d b ∧ b ∉ free_list d ∧ c = block_size d) ∨
  (∃ i m, runs !! i = Some (Big m) ∧ b = i * 4096 + 16 ∧ c = m * 4096 - 16).

(** The runs are disjoint, in the area of the kernel pages and marked. *)
Record pages_inv {K} `{!KPages K} (k : K) (runs : gmap Z run) : Prop := {
  pi_ok : kp_ok k;
  pi_run : ∀ i r, runs !! i = Some r →
    0 < run_len r ∧ kp_lo ≤ i ∧ i + run_len r ≤ kp_hi ∧
    ∀ j, in_run i (run_len r) j = true → marked k j = true;
  pi_disj : ∀ i r i' r' j, runs !! i = Some r → runs !! i' = Some r' →
    in_run i (run_len r) j = true → in_run i' (run_len r') j = true → i = i' }.

Record heap_wf {K} `{!KPages K} (s : heap K) (runs : gmap Z run) : Prop := {
  hi_len : length (descriptors s) = 7%nat;
  hi_pages : pages_inv (kpages s) runs;
  hi_small : ∀ i n, runs !! i = Some (Small n) → ∃ d, descriptors s !! n = Some d ∧
    headers s !! (i * 4096) =
      Some (mk_arena (Some n) (Z.of_nat (length (free_in d i))) 0 ONIX_MAGIC);
  hi_big : ∀ i m, runs !! i = Some (Big m) →
    headers s !! (i * 4096) = Some (mk_arena None m 1 ONIX_MAGIC);
  hi_desc : ∀ n d, descriptors s !! n = Some d → desc_ok runs n d }.

(** [live]: the blocks handed out with their sizes. *)
Record heap_inv {K} `{!KPages K} (s : heap K) (runs : gmap Z run) (live : gmap Z Z) : Prop := {
  hi_wf : heap_wf s runs;
  hi_live : ∀ b c, live !! b = Some c ↔ allocated s runs b c }.

(** ** Addresses of blocks *)
Lemma land_page x : 0 ≤ x < 2 ^ 32 → Z.land x 0xfffff000 = x `div` 4096 * 4096.
Proof.
  intros Hx. replace (x `div` 4096 * 4096) with (Z.shiftl (Z.shiftr x 12) 12)
    by (rewrite Z.shiftl_mul_pow2, Z.shiftr_div_pow2 by lia; done).
  apply Z.bits_inj'. intros k Hk. change 0xfffff000 with (Z.shiftl (Z.ones 20) 12).
  rewrite Z.land_spec, !Z.shiftl_spec by done.
  destruct (decide (k < 12)) as [Hlt|Hge].
  { rewrite !(Z.testbit_neg_r _ (k - 12)) by lia. apply andb_false_r. }
  rewrite Z.shiftr_spec, Z.ones_spec by lia. replace (k - 12 + 12) with k by lia.
  case_bool_decide; [apply andb_true_r|]. rewrite (testbit_high x 32 k); [done|lia|done].
Qed.

Lemma get_block_arena_ok b : 0 ≤ b < 2 ^ 32 → get_block_arena b = b `div` 4096 * 4096.
Proof. intros Hb. unfold get_block_arena. rewrite u32_small by done. by apply land_page. Qed.

Lemma in_run_spec i n j : in_run i n j = true ↔ i ≤ j < i + n.
Proof. unfold in_run. rewrite andb_true_iff, Z.leb_le, Z.ltb_lt. done. Qed.
Lemma in_run_one i j : in_run i 1 j = true ↔ j = i.
Proof. rewrite in_run_spec. lia. Qed.

Lemma shape_bounds (n : nat) d : (n < 7)%nat → block_size d = 16 * 2 ^ Z.of_nat n →
  total_block d = 4080 `div` block_size d →
  16 ≤ block_size d ≤ 1024 ∧ 1 ≤ total_block d ≤ 255 ∧ total_block d * block_size d ≤ 4080.
Proof.
  intros Hn -> ->. do 7 (destruct n as [|n]; [vm_compute; intuition discriminate|]). lia.
Qed.

Section blocks.
Context (bs total : Z) (Hb : 16 ≤ bs) (Ht : total * bs ≤ 4080).

Lemma block_addr_bounds i j : 0 ≤ j < total →
  i * 4096 + 16 ≤ block_addr i bs j ∧ block_addr i bs j + bs ≤ i * 4096 + 4096.
Proof using Hb Ht.
  intros Hj. unfold block_addr. assert (0 ≤ j * bs) by (apply Z.mul_nonneg_nonneg; lia).
  assert ((j + 1) * bs ≤ total * bs) by (apply Z.mul_le_mono_nonneg_r; lia). lia.
Qed.

Lemma block_addr_page i j : 0 ≤ j < total → block_addr i bs j `div` 4096 = i.
Proof using Hb Ht.
  intros Hj. pose proof (block_addr_bounds i j Hj). Z.div_mod_to_equations; lia.
Qed.

Lemma block_addr_inj i j i' j' : 0 ≤ j < total → 0 ≤ j' < total →
  block_addr i bs j = block_addr i' bs j' → i = i' ∧ j = j'.
Proof using Hb Ht.
  intros Hj Hj' E. assert (i = i') as <-.
  { rewrite <-(block_addr_page i j Hj), <-(block_addr_page i' j' Hj'). by rewrite E. }
  split; [done|]. unfold block_addr in E. apply (Z.mul_cancel_r _ _ bs); lia.
Qed.
End blocks.

(** The first [k] blocks of page [i]. *)
Definition blocks (i bs k : Z) : list Z := block_addr i bs <$> seqZ 0 k.

Lemma elem_blocks i bs k b : b ∈ blocks i bs k ↔ ∃ j, 0 ≤ j < k ∧ b = block_addr i bs j.
Proof.
  unfold blocks. rewrite list_elem_of_fmap. setoid_rewrite elem_of_seqZ. naive_solver lia.
Qed.

Lemma blocks_page bs total i b : 16 ≤ bs → total * bs ≤ 4080 → b ∈ blocks i bs total →
  b `div` 4096 = i.
Proof. intros Hb Ht (j & Hj & ->)%elem_blocks. by apply (block_addr_page bs total). Qed.

Lemma blocks_succ i bs k : 0 ≤ k → blocks i bs (k + 1) = blocks i bs k ++ [block_addr i bs k].
Proof.
  intros Hk. unfold blocks. rewrite (seqZ_app 0 k 1) by lia. rewrite fmap_app.
  by rewrite Z.add_0_l.
Qed.

Lemma blocks_length i bs k : 0 ≤ k → Z.of_nat (length (blocks i bs k)) = k.
Proof. intros Hk. unfold blocks. rewrite length_fmap, length_seqZ. lia. Qed.

Lemma blocks_nodup i bs total : 16 ≤ bs → total * bs ≤ 4080 → NoDup (blocks i bs total).
Proof.
  intros Hb Ht. unfold blocks. apply NoDup_fmap_2_strong; [|apply NoDup_seqZ].
  intros j j' Hj%elem_of_seqZ Hj'%elem_of_seqZ E.
  by apply (block_addr_inj bs total Hb Ht i j i j'); [lia|lia|].
Qed.

(** ** The pages of the heap *)
Section pages.
Context {K : Type} `{!KPages K} `{!KPagesLaws K}.
Context (k : K) (runs : gmap Z run) (Hk : pages_inv k runs).

Lemma run_bounds i r : runs !! i = Some r → 0 < i ∧ i + run_len r < 2 ^ 19.
Proof using All.
  intros Hr. destruct (pi_run _ _ Hk i r Hr) as (? & ? & ? & _).
  pose proof (kp_area (K := K)). lia.
Qed.

Lemma run_start i r : runs !! i = Some r → in_run i (run_len r) i = true.
Proof using Hk. intros Hr. apply in_run_spec. destruct (pi_run _ _ Hk i r Hr). lia. Qed.

Lemma pages_fresh i n : 0 < n → (∀ j, in_run i n j = true → marked k j = false) → runs !! i = None.
Proof using Hk.
  intros Hn Hf. apply eq_None_not_Some. intros [r Hr].
  pose proof (run_start i r Hr) as Hi. destruct (pi_run _ _ Hk i r Hr) as (_ & _ & _ & Hm).
  specialize (Hm i Hi). rewrite Hf in Hm; [discriminate|]. apply in_run_spec. lia.
Qed.

Lemma pages_add k' i r : kp_ok k' → 0 < run_len r → kp_lo ≤ i → i + run_len r ≤ kp_hi →
  (∀ j, in_run i (run_len r) j = true → marked k j = false) →
  (∀ j, kp_lo ≤ j < kp_hi → marked k' j = in_run i (run_len r) j || marked k j) →
  pages_inv k' (<[i := r]> runs).
Proof using Hk.
  intros Hok Hn Hlo Hhi Hf Hm'.
  assert (∀ i' r' j, runs !! i' = Some r' → in_run i (run_len r) j = true →
    in_run i' (run_len r') j = true → False) as Hdis.
  { intros i' r' j Hr' Hj Hj'. destruct (pi_run _ _ Hk i' r' Hr') as (_ & _ & _ & Hm).
    specialize (Hm j Hj'). rewrite (Hf j Hj) in Hm. discriminate. }
  split; [done| |].
  - intros i' r' [[<- <-]|[Hne Hr']]%lookup_insert_Some.
    + split; [done|]. split; [done|]. split; [done|]. intros j Hj.
      rewrite Hm', Hj; [done|]. apply in_run_spec in Hj. lia.
    + destruct (pi_run _ _ Hk i' r' Hr') as (H1 & H2 & H3 & H4).
      split; [done|]. split; [done|]. split; [done|]. intros j Hj.
      rewrite Hm', (H4 j Hj); [apply orb_true_r|]. apply in_run_spec in Hj. lia.
  - intros i1 r1 i2 r2 j [[<- <-]|[Hne1 Hr1]]%lookup_insert_Some
      [[<- <-]|[Hne2 Hr2]]%lookup_insert_Some Hj1 Hj2; [done| | |].
    + by destruct (Hdis i2 r2 j).
    + by destruct (Hdis i1 r1 j).
    + by apply (pi_disj _ _ Hk i1 r1 i2 r2 j).
Qed.

Lemma pages_del k' i r : runs !! i = Some r → kp_ok k' →
  (∀ j, kp_lo ≤ j < kp_hi → marked k' j = negb (in_run i (run_len r) j) && marked k j) →
  pages_inv k' (delete i runs).
Proof using Hk.
  intros Hr Hok Hm'. split; [done| |].
  - intros i' r' [Hne Hr']%lookup_delete_Some.
    destruct (pi_run _ _ Hk i' r' Hr') as (H1 & H2 & H3 & H4).
    split; [done|]. split; [done|]. split; [done|]. intros j Hj.
    rewrite Hm', (H4 j Hj) by (apply in_run_spec in Hj; lia).
    destruct (in_run i (run_len r) j) eqn:E; [|done].
    by destruct Hne; apply (pi_disj _ _ Hk i r i' r' j).
  - intros i1 r1 i2 r2 j [_ H1]%lookup_delete_Some [_ H2]%lookup_delete_Some.
    by apply (pi_disj _ _ Hk i1 r1 i2 r2 j).
Qed.

(** The pages of the runs are pages of the area: there are less than 2^19. *)
Lemma small_pages_bound n : 0 ≤ small_pages runs n < 2 ^ 19.
Proof using All.
  unfold small_pages. split; [lia|].
  assert (size (filter (λ p, p.2 = Small n) runs) ≤ Z.to_nat (2 ^ 19 - 1))%nat; [|lia].
  rewrite <-size_dom. etransitivity; [apply (subseteq_size _ (list_to_set (seqZ 1 (2 ^ 19 - 1))))|].
  - intros i Hi. apply elem_of_dom in Hi as [r Hr].
    apply map_lookup_filter_Some in Hr as [Hr _]. apply elem_of_list_to_set, elem_of_seqZ.
    destruct (run_bounds i r Hr). destruct (pi_run _ _ Hk i r Hr) as (? & _). lia.
  - rewrite size_list_to_set by apply NoDup_seqZ. by rewrite length_seqZ.
Qed.
End pages.

Lemma small_pages_insert runs i r n : runs !! i = None →
  small_pages (<[i := r]> runs) n = small_pages runs n + if decide (r = Small n) then 1 else 0.
Proof.
  intros Hi. unfold small_pages. rewrite map_filter_insert. cbn [snd].
  case_decide.
  - rewrite map_size_insert_None; [lia|]. by apply map_lookup_filter_None; left.
  - rewrite delete_id by done. lia.
Qed.

Lemma small_pages_delete runs i r n : runs !! i = Some r →
  small_pages (delete i runs) n = small_pages runs n - if decide (r = Small n) then 1 else 0.
Proof.
  intros Hi. rewrite <-(insert_delete_id runs i r Hi) at 2.
  rewrite small_pages_insert by apply lookup_delete_eq. lia.
Qed.

(** ** Blocks and their descriptors *)
Section heap.
Context {K : Type} `{!KPages K} `{!KPagesLaws K}.
Context (s : heap K) (runs : gmap Z run) (Hinv : heap_wf s runs).

Lemma desc_shape n d : descriptors s !! n = Some d →
  (n < 7)%nat ∧ 16 ≤ block_size d ≤ 1024 ∧ 1 ≤ total_block d ≤ 255 ∧
  total_block d * block_size d ≤ 4080.
Proof using Hinv.
  intros Hd. assert (n < 7)%nat as Hn.
  { apply lookup_lt_Some in Hd. by rewrite (hi_len _ _ Hinv) in Hd. }
  split; [done|]. destruct (hi_desc _ _ Hinv n d Hd). by apply (shape_bounds n).
Qed.

Lemma block_facts n d b : descriptors s !! n = Some d → is_block runs n d b →
  ∃ i, runs !! i = Some (Small n) ∧ b `div` 4096 = i ∧ 0 < i < 2 ^ 19 ∧
    i * 4096 + 16 ≤ b ∧ b + block_size d ≤ i * 4096 + 4096.
Proof using All.
  intros Hd (i & j & Hr & Hj & ->). destruct (desc_shape n d Hd) as (_ & Hs & Ht & Hm).
  exists i. split; [done|].
  split; [by apply (block_addr_page _ (total_block d)); [lia| |]|].
  destruct (run_bounds _ _ (hi_pages _ _ Hinv) _ _ Hr) as [? Hlt]. cbn in Hlt.
  split; [lia|]. by apply (block_addr_bounds _ (total_block d)); [lia| |].
Qed.

(** A block has one owner. *)
Lemma block_owner n d b : descriptors s !! n = Some d → is_block runs n d b →
  (∀ n' d', descriptors s !! n' = Some d' → is_block runs n' d' b → n' = n) ∧
  ∀ i m, runs !! i = Some (Big m) → b ≠ i * 4096 + 16.
Proof using All.
  intros Hd Hb. destruct (block_facts n d b Hd Hb) as (i & Hr & Hi & _ & Hlo & Hhi). split.
  - intros n' d' Hd' Hb'. destruct (block_facts n' d' b Hd' Hb') as (i' & Hr' & Hi' & _).
    congruence.
  - intros i' m Hr' E.
    assert (i' = i) as -> by (rewrite <-Hi, E; Z.div_mod_to_equations; lia). congruence.
Qed.

Lemma free_not_allocated n d b c : descriptors s !! n = Some d → b ∈ free_list d →
  ¬ allocated s runs b c.
Proof using All.
  intros Hd Hb. pose proof (do_blocks _ _ _ (hi_desc _ _ Hinv n d Hd) b Hb) as Hbl.
  destruct (block_owner n d b Hd Hbl) as [Ho1 Ho2].
  intros [(n' & d' & Hd2 & Hb2 & Hf & _)|(i & m & Hr & E & _)].
  - assert (n' = n) as -> by (by eapply Ho1). congruence.
  - by apply (Ho2 i m).
Qed.

(** The block [b] of descriptor [n] enters or leaves the free list. *)
Section relist.
Context (s' : heap K) (n : nat) (d d' : arena_descriptor_t) (b : Z).
Context (Hd : descriptors s !! n = Some d) (Hb : is_block runs n d b).
Context (Hds : descriptors s' = <[n := d']> (descriptors s)).
Context (Ht : total_block d' = total_block d) (Hs : block_size d' = block_size d).
Context (Hfl : ∀ b', b' ≠ b → b' ∈ free_list d' ↔ b' ∈ free_list d).

Lemma relist_blocks b' : is_block runs n d' b' ↔ is_block runs n d b'.
Proof using Ht Hs. unfold is_block. by rewrite Ht, Hs. Qed.

Lemma relist_lookup : descriptors s' !! n = Some d'.
Proof using Hd Hds. rewrite Hds, list_lookup_insert_eq; [done|]. by eapply lookup_lt_Some. Qed.

Lemma relist_old n' e : descriptors s' !! n' = Some e → ∃ e0, descriptors s !! n' = Some e0 ∧
  (∀ b', is_block runs n' e b' ↔ is_block runs n' e0 b') ∧ block_size e = block_size e0 ∧
  ∀ b', b' ≠ b → b' ∈ free_list e ↔ b' ∈ free_list e0.
Proof using Hd Hds Ht Hs Hfl.
  intros He. rewrite Hds in He.
  apply list_lookup_insert_Some in He as [(<- & <- & _)|[_ He]]; [|by exists e].
  exists d. split; [done|]. split; [apply relist_blocks|done].
Qed.

Lemma relist_at c : allocated s' runs b c ↔ b ∉ free_list d' ∧ c = block_size d.
Proof using All.
  destruct (block_owner n d b Hd Hb) as [Ho1 Ho2]. pose proof relist_lookup as Hd'. split.
  - intros [(n' & e & He & Hbe & Hf & ->)|(i' & m & Hr' & E & _)]; [|by destruct (Ho2 i' m Hr')].
    destruct (relist_old n' e He) as (e0 & He0 & Hb0 & _). assert (n' = n) as ->.
    { apply (Ho1 n' e0); [done|]. by apply Hb0. }
    assert (e = d') as -> by congruence. done.
  - intros [Hf ->]. left. exists n, d'. split; [done|]. split; [by apply relist_blocks|].
    split; [done|by symmetry].
Qed.

Lemma relist_others b' c : b' ≠ b → allocated s' runs b' c ↔ allocated s runs b' c.
Proof using All.
  intros Hne. unfold allocated. apply or_iff_compat_r. split.
  - intros (n' & e & He & Hbe & Hf & ->). destruct (relist_old n' e He) as (e0 & He0 & Hb0 & Hs0 & Hf0).
    exists n', e0. split; [done|]. split; [by apply Hb0|]. split; [|done]. by rewrite <-Hf0.
  - intros (n' & e & He & Hbe & Hf & ->). destruct (decide (n' = n)) as [->|Hn'].
    + assert (e = d) as -> by congruence. exists n, d'. split; [apply relist_lookup|].
      split; [by apply relist_blocks|]. split; [|by symmetry]. by rewrite Hfl.
    + exists n', e. split; [|done]. by rewrite Hds, list_lookup_insert_ne.
Qed.

Lemma heap_relist :
  page_count d' = page_count d → NoDup (free_list d') →
  (∀ i', i' ≠ b `div` 4096 → free_in d' i' = free_in d i') →
  headers s' = <[b `div` 4096 * 4096 :=
    mk_arena (Some n) (Z.of_nat (length (free_in d' (b `div` 4096)))) 0 ONIX_MAGIC]> (headers s) →
  kpages s' = kpages s → heap_wf s' runs.
Proof using All.
  intros Hpc Hnd Hfi Hh Hk.
  destruct (block_facts n d b Hd Hb) as (i & Hr & Hi & _). rewrite Hi in *. split.
  - by rewrite Hds, length_insert, (hi_len _ _ Hinv).
  - rewrite Hk. apply Hinv.
  - intros i' n' Hr'. destruct (hi_small _ _ Hinv i' n' Hr') as (e & He & Hhe).
    rewrite Hh. destruct (decide (i' = i)) as [->|Hne].
    + assert (n' = n) as -> by congruence. exists d'. split; [apply relist_lookup|].
      by rewrite lookup_insert_eq.
    + rewrite lookup_insert_ne by lia. destruct (decide (n' = n)) as [->|Hn].
      * exists d'. split; [apply relist_lookup|]. rewrite Hfi by done. congruence.
      * exists e. split; [|done]. by rewrite Hds, list_lookup_insert_ne.
  - intros i' m Hr'. rewrite Hh, lookup_insert_ne; [by apply (hi_big _ _ Hinv)|].
    intros E. assert (i' = i) as -> by lia. congruence.
  - intros n' e He. rewrite Hds in He. apply list_lookup_insert_Some in He as [(<- & <- & _)|[_ He]].
    + destruct (hi_desc _ _ Hinv n d Hd) as [H1 H2 H3 H4 H5].
      split; [congruence|congruence|congruence|done|]. intros b' Hb'. apply relist_blocks.
      destruct (decide (b' = b)) as [->|Hne]; [done|]. apply H5. by apply Hfl.
    + by apply (hi_desc _ _ Hinv).
Qed.

Lemma live_relist (live live' : gmap Z Z) : (∀ b c, live !! b = Some c ↔ allocated s runs b c) →
  (∀ b', b' ≠ b → live' !! b' = live !! b') →
  live' !! b = (if bool_decide (b ∈ free_list d') then None else Some (block_size d)) →
  ∀ b' c, live' !! b' = Some c ↔ allocated s' runs b' c.
Proof using All.
  intros Hl Hlo Hlb b' c. destruct (decide (b' = b)) as [->|Hne].
  - rewrite Hlb, relist_at. case_bool_decide; naive_solver.
  - by rewrite Hlo, Hl, relist_others.
Qed.
End relist.

(** Page [i] becomes a page of descriptor [n], all its blocks free. *)
Section newpage.
Context (s' : heap K) (n : nat) (d d' : arena_descriptor_t) (i : Z).
Context (Hi : runs !! i = None).
Context (Hd : descriptors s !! n = Some d).
Context (Hds : descriptors s' = <[n := d']> (descriptors s)).
Context (Ht : total_block d' = total_block d) (Hs : block_size d' = block_size d).
Context (Hfl : free_list d' ≡ₚ blocks i (block_size d) (total_block d) ++ free_list d).

Lemma block_not_here n' e b : descriptors s !! n' = Some e → is_block runs n' e b →
  b `div` 4096 ≠ i.
Proof using All.
  intros He Hb <-. destruct (block_facts n' e b He Hb) as (i & Hr & E & _). congruence.
Qed.

Lemma blocks_here b : b ∈ blocks i (block_size d) (total_block d) → b `div` 4096 = i.
Proof using All.
  destruct (desc_shape n d Hd) as (_ & Hsz & Htb & Hm).
  intros (j & Hj & ->)%elem_blocks. apply (block_addr_page _ (total_block d)); lia.
Qed.

Lemma newpage_lookup : descriptors s' !! n = Some d'.
Proof using Hd Hds. rewrite Hds, list_lookup_insert_eq; [done|]. by eapply lookup_lt_Some. Qed.

Lemma newpage_blocks n' e b : is_block (<[i := Small n]> runs) n' e b ↔
  is_block runs n' e b ∨ n' = n ∧ b ∈ blocks i (block_size e) (total_block e).
Proof using Hi.
  unfold is_block. rewrite elem_blocks. split.
  - intros (i' & j & [[<- [= <-]]|[Hne Hr]]%lookup_insert_Some & Hj & ->).
    + right. split; [done|]. by exists j.
    + left. by exists i', j.
  - intros [(i' & j & Hr & Hj & ->)|[-> (j & Hj & ->)]].
    + exists i', j. rewrite lookup_insert_ne; [done|]. intros <-. congruence.
    + exists i, j. by rewrite lookup_insert_eq.
Qed.

Lemma newpage_allocated b c :
  allocated s' (<[i := Small n]> runs) b c ↔ allocated s runs b c.
Proof using All.
  pose proof newpage_lookup as Hd'. unfold allocated. split.
  - intros [(n' & e & He & Hbe & Hf & ->)|(i' & m & Hr & -> & ->)].
    + left. apply newpage_blocks in Hbe. rewrite Hds in He.
      apply list_lookup_insert_Some in He as [(<- & <- & _)|[Hne He]].
      * rewrite Hfl, Hs, Ht, elem_of_app in *. destruct Hbe as [Hbe|[_ Hbe]]; [|tauto].
        exists n, d. split; [done|]. split; [|tauto].
        unfold is_block in *. by rewrite Ht, Hs in Hbe.
      * exists n', e. split; [done|]. split; [|done]. destruct Hbe as [|[-> _]]; done.
    + right. apply lookup_insert_Some in Hr as [[_ ?]|[_ Hr]]; [done|]. by exists i', m.
  - intros [(n' & e & He & Hbe & Hf & ->)|(i' & m & Hr & -> & ->)].
    + left. destruct (decide (n' = n)) as [->|Hne].
      * assert (e = d) as -> by congruence. exists n, d'. split; [done|].
        split; [apply newpage_blocks; left; unfold is_block in *; by rewrite Ht, Hs|].
        split; [|done]. rewrite Hfl, elem_of_app. intros [Hin%blocks_here|]; [|done].
        by apply (block_not_here n d b) in Hin.
      * exists n', e. split; [by rewrite Hds, list_lookup_insert_ne|].
        split; [apply newpage_blocks; by left|done].
    + right. exists i', m. rewrite lookup_insert_ne; [done|]. intros <-. congruence.
Qed.

Lemma newpage_free_in i' : length (free_in d' i') =
  if decide (i' = i) then Z.to_nat (total_block d) else length (free_in d i').
Proof using All.
  destruct (desc_shape n d Hd) as (_ & _ & Htb & _). unfold free_in. rewrite Hfl, filter_app, length_app.
  assert (∀ b, b ∈ free_list d → b `div` 4096 ≠ i) as Hnh.
  { intros b Hb. apply (block_not_here n d); [done|]. by apply (do_blocks _ _ _ (hi_desc _ _ Hinv n d Hd)). }
  destruct (decide (i' = i)) as [->|Hne].
  - rewrite filter_all by apply blocks_here. rewrite filter_none by done. cbn.
    pose proof (blocks_length i (block_size d) (total_block d)). lia.
  - rewrite filter_none; [done|]. by intros b ->%blocks_here.
Qed.

Lemma newpage_wf : page_count d' = page_count d + 1 → NoDup (free_list d') →
  headers s' = <[i * 4096 := mk_arena (Some n) (total_block d) 0 ONIX_MAGIC]> (headers s) →
  pages_inv (kpages s') (<[i := Small n]> runs) → heap_wf s' (<[i := Small n]> runs).
Proof using All.
  intros Hpc Hnd Hh Hp. pose proof newpage_lookup as Hd'.
  destruct (desc_shape n d Hd) as (_ & _ & Htb & _). split; [|done| | |].
  - by rewrite Hds, length_insert, (hi_len _ _ Hinv).
  - intros i' n' Hr'. rewrite Hh. apply lookup_insert_Some in Hr' as [[<- [= <-]]|[Hne Hr']].
    + exists d'. split; [done|]. rewrite lookup_insert_eq, newpage_free_in, decide_True by done.
      by rewrite Z2Nat.id by lia.
    + rewrite lookup_insert_ne by lia. destruct (hi_small _ _ Hinv i' n' Hr') as (e & He & Hhe).
      destruct (decide (n' = n)) as [->|Hn].
      * exists d'. split; [done|]. rewrite newpage_free_in, decide_False by done. congruence.
      * exists e. split; [|done]. by rewrite Hds, list_lookup_insert_ne.
  - intros i' m [[_ ?]|[Hne Hr']]%lookup_insert_Some; [done|].
    rewrite Hh, lookup_insert_ne by lia. by apply (hi_big _ _ Hinv).
  - intros n' e He. rewrite Hds in He. apply list_lookup_insert_Some in He as [(<- & <- & _)|[Hn He]].
    + destruct (hi_desc _ _ Hinv n d Hd) as [H1 H2 H3 H4 H5]. split; [congruence|congruence| |done|].
      * rewrite small_pages_insert, decide_True by done. lia.
      * intros b. rewrite Hfl, elem_of_app. intros [Hb|Hb]; apply newpage_blocks.
        -- right. by rewrite Hs, Ht.
        -- left. apply H5 in Hb. unfold is_block in *. by rewrite Ht, Hs.
    + destruct (hi_desc _ _ Hinv n' e He) as [H1 H2 H3 H4 H5]. split; [done|done| |done|].
      * rewrite small_pages_insert, decide_False by congruence. lia.
      * intros b Hb. apply newpage_blocks. auto.
Qed.
End newpage.

Lemma free_in_submseteq n d i : descriptors s !! n = Some d →
  free_in d i ⊆+ blocks i (block_size d) (total_block d).
Proof using All.
  intros Hd. destruct (desc_shape n d Hd) as (_ & Hsz & Htb & Hm).
  destruct (hi_desc _ _ Hinv n d Hd) as [_ _ _ Hnd Hbl].
  apply NoDup_submseteq; [by apply NoDup_filter|].
  intros b [<- Hb]%list_elem_of_filter. destruct (Hbl b Hb) as (i' & j & Hr & Hj & ->).
  apply elem_blocks. exists j. split; [done|].
  by rewrite (block_addr_page _ (total_block d)) by lia.
Qed.

Lemma free_in_le n d i : descriptors s !! n = Some d →
  Z.of_nat (length (free_in d i)) ≤ total_block d.
Proof using All.
  intros Hd. pose proof (submseteq_length _ _ (free_in_submseteq n d i Hd)) as Hl.
  destruct (desc_shape n d Hd) as (_ & _ & Htb & _).
  pose proof (blocks_length i (block_size d) (total_block d)). lia.
Qed.

(** The page [i] of descriptor [n], all of whose blocks are free, goes. *)
Section delpage.
Context (s' : heap K) (n : nat) (d d' : arena_descriptor_t) (i : Z).
Context (Hi : runs !! i = Some (Small n)).
Context (Hd : descriptors s !! n = Some d).
Context (Hds : descriptors s' = <[n := d']> (descriptors s)).
Context (Ht : total_block d' = total_block d) (Hs : block_size d' = block_size d).
Context (Hfull : Z.of_nat (length (free_in d i)) = total_block d).
Context (Hfl : free_list d' = filter (λ b, b `div` 4096 ≠ i) (free_list d)).

Lemma free_in_blocks : free_in d i ≡ₚ blocks i (block_size d) (total_block d).
Proof using Hinv Hi Hd Hfull KPagesLaws0.
  destruct (desc_shape n d Hd) as (_ & _ & Htb & _).
  apply submseteq_length_Permutation; [by apply (free_in_submseteq n)|].
  pose proof (blocks_length i (block_size d) (total_block d)). lia.
Qed.

Lemma free_list_split : free_list d ≡ₚ blocks i (block_size d) (total_block d) ++ free_list d'.
Proof using All.
  rewrite <-free_in_blocks, Hfl. unfold free_in. clear. induction (free_list d) as [|b l IH]; [done|].
  rewrite !filter_cons. destruct (decide (b `div` 4096 = i)).
  - rewrite decide_False by auto. cbn. by constructor.
  - rewrite decide_True by done. by rewrite <-Permutation_middle, <-IH.
Qed.

Lemma delpage_free_in i' : i' ≠ i → free_in d' i' = free_in d i'.
Proof using Hfl.
  intros Hne. unfold free_in. rewrite Hfl, list_filter_filter. apply list_filter_iff.
  intros b. split; [by intros [? ?]|]. intros <-. done.
Qed.

Lemma delpage_wf : page_count d' = page_count d - 1 → headers s' = headers s →
  pages_inv (kpages s') (delete i runs) → heap_wf s' (delete i runs).
Proof using All.
  intros Hpc Hh Hp. assert (descriptors s' !! n = Some d') as Hd'.
  { rewrite Hds, list_lookup_insert_eq; [done|]. by eapply lookup_lt_Some. }
  split; [|done| | |].
  - by rewrite Hds, length_insert, (hi_len _ _ Hinv).
  - intros i' n' [Hne Hr']%lookup_delete_Some. rewrite Hh.
    destruct (hi_small _ _ Hinv i' n' Hr') as (e & He & Hhe). destruct (decide (n' = n)) as [->|Hn].
    + exists d'. split; [done|]. rewrite delpage_free_in by done. congruence.
    + exists e. split; [|done]. by rewrite Hds, list_lookup_insert_ne.
  - intros i' m [_ Hr']%lookup_delete_Some. rewrite Hh. by apply (hi_big _ _ Hinv).
  - intros n' e He. rewrite Hds in He. apply list_lookup_insert_Some in He as [(<- & <- & _)|[Hn He]].
    + destruct (hi_desc _ _ Hinv n d Hd) as [H1 H2 H3 H4 H5]. split; [congruence|congruence| | |].
      * rewrite (small_pages_delete _ _ _ _ Hi), decide_True by done. lia.
      * rewrite Hfl. by apply NoDup_filter.
      * intros b. rewrite Hfl. intros [Hbi Hb]%list_elem_of_filter.
        destruct (H5 b Hb) as (i' & j & Hr & Hj & E). destruct (desc_shape n d Hd) as (_ & Hsz & _ & Hm).
        exists i', j. rewrite Ht, Hs. split; [|done]. rewrite lookup_delete_ne; [done|].
        intros <-. apply Hbi. rewrite E. by apply (block_addr_page _ (total_block d)); lia.
    + destruct (hi_desc _ _ Hinv n' e He) as [H1 H2 H3 H4 H5]. split; [done|done| |done|].
      * rewrite (small_pages_delete _ _ _ _ Hi), decide_False by congruence. lia.
      * intros b Hb. destruct (H5 b Hb) as (i' & j & Hr & Hj & ->). exists i', j.
        rewrite lookup_delete_ne; [done|]. intros <-. congruence.
Qed.
End delpage.

(** The pages [i], [i+m) become a large allocation. *)
Section bigpages.
Context (s' : heap K) (i m : Z) (Hi : runs !! i = None).
Context (Hds : descriptors s' = descriptors s).

Lemma big_blocks n d b : is_block (<[i := Big m]> runs) n d b ↔ is_block runs n d b.
Proof using Hi.
  unfold is_block. split; intros (i' & j & Hr & Hj & ->); exists i', j.
  - by apply lookup_insert_Some in Hr as [[_ ?]|[_ Hr]].
  - rewrite lookup_insert_ne; [done|]. intros <-. congruence.
Qed.

Lemma big_allocated b c : allocated s' (<[i := Big m]> runs) b c ↔
  (b = i * 4096 + 16 ∧ c = m * 4096 - 16) ∨ allocated s runs b c.
Proof using Hi Hds.
  unfold allocated. rewrite Hds. setoid_rewrite big_blocks. split.
  - intros [H|(i' & m' & Hr & -> & ->)]; [by right; left|].
    apply lookup_insert_Some in Hr as [[<- [= <-]]|[_ Hr]]; [by left|].
    right. right. by exists i', m'.
  - intros [[-> ->]|[H|(i' & m' & Hr & -> & ->)]]; [|by left|].
    + right. exists i, m. by rewrite lookup_insert_eq.
    + right. exists i', m'. rewrite lookup_insert_ne; [done|]. intros <-. congruence.
Qed.

Lemma big_fresh c : ¬ allocated s runs (i * 4096 + 16) c.
Proof using All.
  intros [(n & d & Hd & Hb & _)|(i' & m' & Hr & E & _)].
  - destruct (block_facts n d _ Hd Hb) as (i' & Hr & E & _).
    assert (i' = i) as -> by (rewrite <-E; Z.div_mod_to_equations; lia). congruence.
  - assert (i' = i) as -> by lia. congruence.
Qed.

Lemma big_wf : pages_inv (kpages s') (<[i := Big m]> runs) →
  (∀ j r, runs !! j = Some r → headers s' !! (j * 4096) = headers s !! (j * 4096)) →
  headers s' !! (i * 4096) = Some (mk_arena None m 1 ONIX_MAGIC) →
  heap_wf s' (<[i := Big m]> runs).
Proof using All.
  intros Hp Hh Hhi. split; [|done| | |].
  - rewrite Hds. apply Hinv.
  - intros i' n [[_ ?]|[Hne Hr]]%lookup_insert_Some; [done|].
    rewrite (Hh i' _ Hr), Hds. by apply (hi_small _ _ Hinv).
  - intros i' m' [[<- [= <-]]|[Hne Hr]]%lookup_insert_Some; [done|].
    rewrite (Hh i' _ Hr). by apply (hi_big _ _ Hinv).
  - intros n d Hd. rewrite Hds in Hd. destruct (hi_desc _ _ Hinv n d Hd) as [H1 H2 H3 H4 H5].
    split; [done|done| |done|].
    + rewrite small_pages_insert, decide_False by done. lia.
    + intros b Hb. apply big_blocks. auto.
Qed.
End bigpages.

Lemma big_del_wf s' i m : runs !! i = Some (Big m) →
  descriptors s' = descriptors s → headers s' = headers s →
  pages_inv (kpages s') (delete i runs) → heap_wf s' (delete i runs).
Proof using All.
  intros Hi Hds Hh Hp. split; [|done| | |].
  - rewrite Hds. apply Hinv.
  - intros i' n [_ Hr]%lookup_delete_Some. rewrite Hh, Hds. by apply (hi_small _ _ Hinv).
  - intros i' m' [_ Hr]%lookup_delete_Some. rewrite Hh. by apply (hi_big _ _ Hinv).
  - intros n d Hd. rewrite Hds in Hd. destruct (hi_desc _ _ Hinv n d Hd) as [H1 H2 H3 H4 H5].
    split; [done|done| |done|].
    + rewrite (small_pages_delete _ _ _ _ Hi), decide_False by done. lia.
    + intros b Hb. destruct (H5 b Hb) as (i' & j & Hr & Hj & ->). exists i', j.
      rewrite lookup_delete_ne; [done|]. intros <-. congruence.
Qed.
End heap.

(** ** The operations keep the invariant *)
Section wp.
Context {K : Type} `{!KPages K} `{!KPagesLaws K} (E : stop → Prop).

Lemma wp_on_pages {A} (m : ST K A) (Q : A → heap K → Prop) s :
  wp E m (λ a k, Q a (s <| kpages := k |>)) (kpages s) → wp E (on_pages m) Q s.
Proof. unfold wp, on_pages. by destruct (m (kpages s)) as [[a k]|]. Qed.

Lemma wp_mod_desc n d f (Q : unit → heap K → Prop) s : descriptors s !! n = Some d →
  Q tt (s <| descriptors := <[n := f d]> (descriptors s) |>) → wp E (mod_desc n f) Q s.
Proof.
  intros Hd HQ. unfold mod_desc. wp_step. unfold modify. cbn. by rewrite (alter_list_insert f _ _ d).
Qed.

Lemma wp_mod_header p a f (Q : unit → heap K → Prop) s : headers s !! p = Some a →
  Q tt (s <| headers := <[p := f a]> (headers s) |>) → wp E (mod_header p f) Q s.
Proof.
  intros Ha HQ. unfold mod_header. wp_step. unfold modify. cbn. by rewrite (alter_map_insert f _ _ a).
Qed.

Lemma wp_arena_desc p a n (Q : nat → heap K → Prop) s : headers s !! p = Some a →
  desc a = Some n → Q n s → wp E (arena_desc p) Q s.
Proof.
  intros Ha Hn HQ. unfold arena_desc, get_header. wp_step. eapply wp_deref; [done|].
  by eapply wp_deref.
Qed.

Lemma wp_list_push n d b (Q : unit → heap K → Prop) s : descriptors s !! n = Some d →
  b ∉ free_list d →
  Q tt (s <| descriptors := <[n := d <| free_list := b :: free_list d |>]> (descriptors s) |>) →
  wp E (list_push n b) Q s.
Proof.
  intros Hd Hb HQ. unfold list_push, get_desc. wp_step. eapply wp_deref; [done|]. wp_step.
  apply wp_check_true. { unfold Abs.mem. by rewrite bool_decide_eq_false_2. }
  by eapply wp_mod_desc.
Qed.

Lemma wp_list_search n d b (Q : bool → heap K → Prop) s : descriptors s !! n = Some d →
  Q (bool_decide (b ∈ free_list d)) s → wp E (list_search n b) Q s.
Proof. intros Hd HQ. unfold list_search, get_desc. wp_step. eapply wp_deref; [done|]. done. Qed.

Section page.
Context (i : Z) (n : nat) (d : arena_descriptor_t) (a : arena_t).
Context (Hi : 0 < i < 2 ^ 19) (Hn : desc a = Some n).
Context (Hsz : 16 ≤ block_size d) (Htb : total_block d ≤ 255) (Hm : total_block d * block_size d ≤ 4080).

Lemma wp_get_arena_block j e (Q : Z → heap K → Prop) s : 0 ≤ j < total_block d →
  headers s !! (i * 4096) = Some a → descriptors s !! n = Some e →
  total_block e = total_block d → block_size e = block_size d →
  Q (block_addr i (block_size d) j) s → wp E (get_arena_block (i * 4096) j) Q s.
Proof using Hi Hn Hsz Hm.
  intros Hj Ha He Ht Hs HQ. unfold get_arena_block, get_desc. wp_step. eapply wp_arena_desc; [done..|].
  wp_step. eapply wp_deref; [done|]. wp_step.
  apply wp_check_true; [apply Z.ltb_lt; lia|]. wp_step.
  destruct (block_addr_bounds (block_size d) (total_block d) Hsz Hm i j Hj) as [Hlo Hhi].
  unfold block_addr, arena_size in *. change (2 ^ 19) with 524288 in Hi. rewrite Hs.
  assert (0 ≤ j * block_size d) by (apply Z.mul_nonneg_nonneg; lia).
  rewrite !u32_small by (repeat rewrite u32_small by lia; lia). done.
Qed.

(** The loop that fills the free list of a new page. *)
Lemma wp_fill (Q : unit → heap K → Prop) s :
  headers s !! (i * 4096) = Some a → descriptors s !! n = Some d → 0 ≤ total_block d →
  free_list d = [] →
  Q tt (s <| descriptors := <[n := d <| free_list := reverse (blocks i (block_size d) (total_block d)) |>]>
          (descriptors s) |>) →
  wp E (st_for (seqZ 0 (total_block d)) (λ j,
    let* block := get_arena_block (i * 4096) j in
    let* i := arena_desc (i * 4096) in
    let* b := list_search i block in
    do! st_check (negb b);
    do! list_push i block;
    let* b := list_search i block in
    st_check b)) Q s.
Proof using All.
  intros Ha Hd Ht0 Hf HQ. set (st k := s <| descriptors :=
    <[n := d <| free_list := reverse (blocks i (block_size d) k) |>]> (descriptors s) |>).
  assert (n < length (descriptors s))%nat as Hlt by by eapply lookup_lt_Some.
  eapply (wp_conseq _ _ (λ _ t, t = st (total_block d))); [|by intros [] t ->].
  apply (wp_for_seq E (total_block d) _ (λ k t, t = st k)); [done| |].
  - intros k t Hk ->.
    assert (descriptors (st k) !! n = Some (d <| free_list := reverse (blocks i (block_size d) k) |>)) as Hdk
      by by apply list_lookup_insert_eq.
    assert (block_addr i (block_size d) k ∉ reverse (blocks i (block_size d) k)) as Hnin.
    { rewrite elem_of_reverse, elem_blocks. intros (j & Hj & Ej).
      apply (block_addr_inj _ (total_block d) Hsz Hm) in Ej; lia. }
    wp_step. eapply wp_get_arena_block; [done|done|done|done|done|].
    wp_step. eapply wp_arena_desc; [done..|]. wp_step. eapply wp_list_search; [done|].
    wp_step. apply wp_check_true. { by rewrite bool_decide_eq_false_2. }
    wp_step. eapply wp_list_push; [done|done|]. wp_step.
    eapply wp_list_search; [apply list_lookup_insert_eq; unfold st, modify; cbn; by rewrite length_insert|].
    apply wp_check_true; [apply bool_decide_eq_true_2; left|].
    unfold st. rewrite blocks_succ, reverse_app by lia. unfold modify. cbn.
    by rewrite list_insert_insert_eq.
  - unfold st. rewrite (list_insert_id _ n); [by destruct s|]. rewrite Hd. by destruct d; cbn in *; subst.
Qed.

(** The loop that takes the blocks of a page out of the free list. *)
Lemma wp_drain (Q : unit → heap K → Prop) s :
  headers s !! (i * 4096) = Some a → descriptors s !! n = Some d → 0 ≤ total_block d →
  NoDup (free_list d) → (∀ b, b ∈ blocks i (block_size d) (total_block d) → b ∈ free_list d) →
  (∀ b, b ∈ free_list d → b `div` 4096 = i → b ∈ blocks i (block_size d) (total_block d)) →
  Q tt (s <| descriptors := <[n := d <| free_list := filter (λ b, b `div` 4096 ≠ i) (free_list d) |>]>
          (descriptors s) |>) →
  wp E (st_for (seqZ 0 (total_block d)) (λ j,
    let* block := get_arena_block (i * 4096) j in
    let* i := arena_desc (i * 4096) in
    let* b := list_search i block in
    do! st_check b;
    do! mod_desc i (λ d, d <| free_list $= Abs.remove block |>);
    let* b := list_search i block in
    st_check (negb b))) Q s.
Proof using All.
  intros Ha Hd Ht0 Hnd Hin Hout HQ.
  set (rest k := filter (λ b, b ∉ blocks i (block_size d) k) (free_list d)).
  set (st k := s <| descriptors := <[n := d <| free_list := rest k |>]> (descriptors s) |>).
  assert (n < length (descriptors s))%nat as Hlt by by eapply lookup_lt_Some.
  eapply (wp_conseq _ _ (λ _ t, t = st (total_block d))).
  2:{ intros [] t ->. unfold st, rest. rewrite (filter_ext_elem _ (λ b, b `div` 4096 ≠ i)); [done|].
      intros b Hb. split; intros Hx Hy; apply Hx; [by apply Hout|]. by apply (blocks_page (block_size d) (total_block d)). }
  apply (wp_for_seq E (total_block d) _ (λ k t, t = st k)); [done| |].
  - intros k t Hk ->. set (b := block_addr i (block_size d) k).
    assert (descriptors (st k) !! n = Some (d <| free_list := rest k |>)) as Hdk
      by by apply list_lookup_insert_eq.
    assert (b ∈ rest k) as Hbr.
    { apply list_elem_of_filter. split.
      - intros (j & Hj & Ej)%elem_blocks.
        apply (block_addr_inj _ (total_block d) Hsz Hm) in Ej; lia.
      - apply Hin, elem_blocks. by exists k. }
    wp_step. eapply wp_get_arena_block; [done|done|done|done|done|].
    wp_step. eapply wp_arena_desc; [done..|]. wp_step. eapply wp_list_search; [done|].
    wp_step. apply wp_check_true. { by apply bool_decide_eq_true_2. }
    wp_step. eapply wp_mod_desc; [done|]. wp_step.
    eapply wp_list_search; [apply list_lookup_insert_eq; unfold st, modify; cbn; by rewrite length_insert|].
    assert (Abs.remove b (rest k) = rest (k + 1)) as Er.
    { unfold Abs.remove, rest. rewrite list_filter_filter. apply list_filter_iff. intros x.
      rewrite blocks_succ, elem_of_app, list_elem_of_singleton by lia. tauto. }
    apply wp_check_true.
    { apply negb_true_iff, bool_decide_eq_false_2. unfold modify. cbn -[Abs.remove]. fold b. rewrite Er.
      intros [Hx _]%list_elem_of_filter. apply Hx, elem_blocks. exists k. split; [lia|done]. }
    unfold st, modify. cbn -[Abs.remove]. fold b. by rewrite Er, list_insert_insert_eq.
  - unfold st, rest. rewrite (list_insert_id _ n); [by destruct s|]. rewrite Hd.
    rewrite filter_all by (intros b _ (j & Hj & _)%elem_blocks; lia). by destruct d.
Qed.
End page.

(** Clearing the pages of a new run: the headers in the run become zero. *)
Lemma wp_clear i m (Q : unit → heap K → Prop) s : 0 < i → 0 ≤ m → i + m < 2 ^ 19 →
  (∀ h, (∀ j, in_run i m j = true → h !! (j * 4096) = Some (mk_arena None 0 0 0)) →
     (∀ p, (∀ j, in_run i m j = true → p ≠ j * 4096) → h !! p = headers s !! p) →
     Q tt (s <| headers := h |>)) →
  wp E (clear_pages (i * 4096) m) Q s.
Proof.
  intros Hi Hm Him HQ. change (2 ^ 19) with 524288 in Him. unfold clear_pages.
  eapply (wp_conseq _ _ (λ _ t, ∃ h, t = s <| headers := h |> ∧
    (∀ j, in_run i m j = true → h !! (j * 4096) = Some (mk_arena None 0 0 0)) ∧
    ∀ p, (∀ j, in_run i m j = true → p ≠ j * 4096) → h !! p = headers s !! p)).
  2:{ intros [] t (h & -> & H1 & H2). by apply HQ. }
  apply (wp_for_seq E m _ (λ k t, ∃ h, t = s <| headers := h |> ∧
    (∀ j, in_run i k j = true → h !! (j * 4096) = Some (mk_arena None 0 0 0)) ∧
    ∀ p, (∀ j, in_run i k j = true → p ≠ j * 4096) → h !! p = headers s !! p)); [done| |].
  - intros k t Hk (h & -> & H1 & H2). wp_step.
    assert (u32 (i * 4096 + k * PAGE_SIZE) = (i + k) * 4096) as ->.
    { unfold PAGE_SIZE. rewrite u32_small; lia. }
    eexists. split; [reflexivity|]. split.
    + intros j Hj%in_run_spec. destruct (decide (j = i + k)) as [->|Hne]; [by rewrite lookup_insert_eq|].
      rewrite lookup_insert_ne by lia. apply H1, in_run_spec. lia.
    + intros p Hp. rewrite lookup_insert_ne by (intros <-; apply (Hp (i + k)); [apply in_run_spec; lia|done]).
      apply H2. intros j Hj%in_run_spec. apply Hp, in_run_spec. lia.
  - exists (headers s). split; [by destruct s|]. split; [|done].
    intros j Hj%in_run_spec. lia.
Qed.
End wp.

(** The request fails only when the area has no free run of [n] pages. *)
Definition out_of_pages {K} `{!KPages K} (k : K) (n : Z) : stop → Prop := λ e,
  e = Assert ∧ ∀ i, kp_lo ≤ i → i + n ≤ kp_hi → ∃ j, in_run i n j = true ∧ marked k j = true.

Lemma find_desc_spec size ds : ∀ k, (∃ d, d ∈ ds ∧ size ≤ block_size d) →
  ∃ j d, find_desc ds size k = (k + j)%nat ∧ ds !! j = Some d ∧ size ≤ block_size d.
Proof.
  induction ds as [|d ds IH]; intros k (e & He & Hs); [by apply not_elem_of_nil in He|].
  cbn. destruct (Z.leb_spec size (block_size d)).
  - exists 0%nat, d. split; [lia|done].
  - apply elem_of_cons in He as [->|He]; [lia|].
    destruct (IH (S k)) as (j & d' & -> & Hj & Hd'); [by exists e|].
    exists (S j), d'. split; [lia|done].
Qed.

Section main.
Context {K : Type} `{!KPages K} `{!KPagesLaws K}.
Context (s : heap K) (runs : gmap Z run) (Hinv : heap_wf s runs).

Lemma wp_kmalloc_grow n d (Q : unit → heap K → Prop) :
  descriptors s !! n = Some d → free_list d = [] →
  (∀ s' i d', heap_wf s' (<[i := Small n]> runs) → runs !! i = None →
     (∀ b c, allocated s' (<[i := Small n]> runs) b c ↔ allocated s runs b c) →
     descriptors s' !! n = Some d' → free_list d' ≠ [] → block_size d' = block_size d → Q tt s') →
  wp (out_of_pages (kpages s) 1) (kmalloc_grow n) Q s.
Proof using All.
  intros Hd Hf HQ. destruct (desc_shape s runs Hinv n d Hd) as (Hn & Hsz & Htb & Hm).
  pose proof (hi_pages _ _ Hinv) as Hp. pose proof (kp_area (K := K)) as [Hlo0 Hhi0].
  unfold kmalloc_grow, get_desc. wp_step. apply wp_on_pages.
  eapply wp_conseq; [apply kp_alloc_law; [apply Hp|done]|].
  intros p k (i & -> & Hlo & Hhi & Hok & Hfree & Hmk). wp_step.
  apply wp_clear; [lia|lia|change (2 ^ 19) with 524288 in *; lia|]. intros h Hh1 Hh2. wp_step.
  eapply wp_mod_desc; [done|]. wp_step. eapply wp_deref; [by apply list_lookup_insert_eq; eapply lookup_lt_Some|].
  wp_step. eapply wp_mod_header; [by apply Hh1, in_run_one|].
  set (d1 := d <| page_count $= λ n, s32 (n + 1) |>).
  eapply (wp_fill _ i n d1 (mk_arena (Some n) (total_block d) 0 ONIX_MAGIC)); [change (2 ^ 19) with 524288 in *; lia|done|apply Hsz|apply Htb|apply Hm| | | | |].
  { apply lookup_insert_eq. }
  { apply list_lookup_insert_eq. by eapply lookup_lt_Some. }
  { change (total_block d1) with (total_block d). lia. }
  { done. }
  set (d2 := d1 <| free_list := _ |>).
  assert (runs !! i = None) as Hi by (apply (pages_fresh _ _ Hp i 1); [lia|done]).
  assert (free_list d2 ≡ₚ blocks i (block_size d) (total_block d) ++ free_list d) as Hfl.
  { rewrite Hf, app_nil_r. apply reverse_Permutation. }
  match goal with |- Q tt ?x => set (s' := x) end.
  assert (descriptors s' = <[n := d2]> (descriptors s)) as Hds by apply list_insert_insert_eq.
  apply (HQ s' i d2).
  - apply (newpage_wf s runs Hinv s' n d d2 i Hi Hd Hds eq_refl eq_refl Hfl).
    + change (page_count d2) with (s32 (page_count d + 1)).
      destruct (hi_desc _ _ Hinv n d Hd) as [_ _ Hc _ _].
      pose proof (small_pages_bound _ _ Hp n) as Hb. change (2 ^ 19) with 524288 in Hb.
      rewrite s32_small; lia.
    + rewrite Hfl, Hf, app_nil_r. apply blocks_nodup; lia.
    + change (headers s') with (<[i * 4096 := mk_arena (Some n) (total_block d) 0 ONIX_MAGIC]> h).
      apply map_eq. intros q. destruct (decide (q = i * 4096)) as [->|Hne].
      * by rewrite !lookup_insert_eq.
      * rewrite !lookup_insert_ne by done. apply Hh2. by intros j ->%in_run_one.
    + by apply (pages_add (kpages s)).
  - done.
  - by apply (newpage_allocated s runs Hinv s' n d d2 i).
  - rewrite Hds. apply list_lookup_insert_eq. by eapply lookup_lt_Some.
  - intros E. rewrite E in Hfl. apply Permutation_nil_l in Hfl.
    apply (f_equal length) in Hfl. rewrite length_app in Hfl.
    pose proof (blocks_length i (block_size d) (total_block d)). cbn in Hfl. lia.
  - done.
Qed.

Context (live : gmap Z Z) (Hlive : ∀ b c, live !! b = Some c ↔ allocated s runs b c).

(** Taking the first free block of a descriptor. *)
Lemma wp_take E n d b bs (Q : Z → heap K → Prop) :
  descriptors s !! n = Some d → free_list d = b :: bs → live !! b = None →
  (∀ s', heap_inv s' runs (<[b := block_size d]> live) → Q b s') →
  wp E (let* block := list_pop n in
        let arena := get_block_arena block in
        let* a := get_header arena in
        do! st_check ((magic a =? ONIX_MAGIC) && (large a =? 0));
        do! mod_header arena (λ a, a <| count $= λ c, u32 (c - 1) |>);
        st_ret block) Q s.
Proof using All.
  intros Hd Hfl Hnone HQ. destruct (hi_desc _ _ Hinv n d Hd) as [_ _ _ Hnd Hbl].
  assert (is_block runs n d b) as Hb by (apply Hbl; rewrite Hfl; left).
  destruct (block_facts s runs Hinv n d b Hd Hb) as (i & Hr & Hi & Hi0 & Hlo & Hhi).
  destruct (desc_shape s runs Hinv n d Hd) as (_ & Hsz & Htb & Hm). change (2 ^ 19) with 524288 in Hi0.
  destruct (hi_small _ _ Hinv i n Hr) as (d0 & Hd0 & Hh). assert (d0 = d) as -> by congruence.
  unfold list_pop, get_desc, get_header. wp_step. wp_step. eapply wp_deref; [done|]. rewrite Hfl.
  wp_step. eapply wp_mod_desc; [done|]. wp_step. wp_step.
  rewrite get_block_arena_ok, Hi by lia. eapply wp_deref; [done|]. wp_step.
  apply wp_check_true; [done|]. wp_step. eapply wp_mod_header; [done|]. wp_step.
  set (d' := d <| free_list := bs |>). match goal with |- Q b ?x => set (s' := x) end.
  rewrite Hfl in Hnd. apply NoDup_cons in Hnd as [Hbn Hnd].
  assert (descriptors s' = <[n := d']> (descriptors s)) as Hds by done.
  assert (∀ b', b' ≠ b → b' ∈ free_list d' ↔ b' ∈ free_list d) as Hin.
  { intros b' Hne. rewrite Hfl, elem_of_cons. change (free_list d') with bs. tauto. }
  apply HQ. split.
  - apply (heap_relist s runs Hinv s' n d d' b); try done.
    + intros i' Hi'. unfold free_in. rewrite Hfl, filter_cons_False by congruence. done.
    + rewrite Hi. unfold s'. unfold modify. cbn -[free_in Z.sub]. f_equal. f_equal.
      unfold free_in. rewrite Hfl, filter_cons_True by done. cbn [length].
      assert (Z.of_nat (length (free_in d i)) ≤ total_block d) as Hc
        by by apply (free_in_le s runs Hinv n).
      unfold free_in in Hc. rewrite Hfl, filter_cons_True in Hc by done. cbn [length] in Hc.
      change (free_list d') with bs. rewrite u32_small; lia.
  - apply (live_relist s runs Hinv s' n d d' b Hd Hb Hds eq_refl eq_refl Hin live _ Hlive).
    + intros b' Hne. by apply lookup_insert_ne.
    + rewrite lookup_insert_eq, bool_decide_eq_false_2; done.
Qed.

Lemma wp_kmalloc_large size E (Q : Z → heap K → Prop) : 1024 < size ≤ 2 ^ 32 - 2 ^ 13 →
  (∀ e, out_of_pages (kpages s) (div_round_up (size + 16) 4096) e → E e) →
  (∀ s' runs' b c, size ≤ c → live !! b = None → keep_others runs runs' →
     heap_inv s' runs' (<[b := c]> live) → Q b s') →
  wp E (kmalloc_large size) Q s.
Proof using All.
  intros Hsize HE HQ. pose proof (hi_pages _ _ Hinv) as Hp. pose proof (kp_area (K := K)) as [Hlo0 Hhi0].
  change (2 ^ 32 - 2 ^ 13) with 4294959104 in Hsize. change (2 ^ 19) with 524288 in Hhi0.
  unfold kmalloc_large, arena_size. rewrite (u32_small (size + 16)) by lia.
  change PAGE_SIZE with 4096. set (m := div_round_up (size + 16) 4096) in *.
  assert (size + 16 ≤ m * 4096 ∧ 0 < m < 2 ^ 20) as [Hm Hm0].
  { unfold m, div_round_up. change (2 ^ 20) with 1048576. rewrite u32_small by lia.
    Z.div_mod_to_equations; lia. }
  wp_step. apply wp_on_pages.
  eapply wp_conseq; [eapply wp_weaken; [exact HE|apply kp_alloc_law; [apply Hp|done]]|].
  intros p k (i & -> & Hlo & Hhi & Hok & Hfree & Hmk). wp_step.
  apply wp_clear; [lia|lia|change (2 ^ 19) with 524288; lia|]. intros h Hh1 Hh2. wp_step.
  eapply wp_mod_header; [by apply Hh1, in_run_spec; lia|]. wp_step.
  rewrite u32_small by lia.
  assert (runs !! i = None) as Hi by (apply (pages_fresh _ _ Hp i m); [lia|done]).
  match goal with |- Q _ ?x => set (s' := x) end.
  assert (live !! (i * 4096 + 16) = None) as Hnone.
  { apply eq_None_not_Some. intros [c Hc%Hlive]. by apply (big_fresh s runs Hinv s' i m Hi eq_refl c). }
  apply (HQ s' (<[i := Big m]> runs) _ (m * 4096 - 16)); [lia|done|by apply keep_others_insert|]. split.
  - apply (big_wf s runs Hinv s' i m Hi eq_refl).
    + apply (pages_add (kpages s) runs Hp k i (Big m)); [done|cbn; lia|done|cbn; lia|done|done].
    + intros j r Hj. change (headers s') with (<[i * 4096 := mk_arena None m 1 ONIX_MAGIC]> h).
      rewrite lookup_insert_ne.
      * apply Hh2. intros j' Hj' Ej. assert (j' = j) as -> by lia.
        destruct (pi_run _ _ Hp j r Hj) as (Hl & _ & _ & Hmj).
        specialize (Hfree j Hj'). rewrite Hmj in Hfree; [done|]. apply in_run_spec. lia.
      * intros Ej. assert (j = i) as -> by lia. congruence.
    + apply lookup_insert_eq.
  - intros b c. rewrite (big_allocated s runs s' i m Hi eq_refl), <-Hlive.
    rewrite lookup_insert_Some. destruct (decide (b = i * 4096 + 16)) as [->|]; naive_solver.
Qed.

(** ** Freeing *)

(** Putting the block back in the free list. *)
Definition put_back (n : nat) (d : arena_descriptor_t) (b : Z) : heap K :=
  s <| descriptors := <[n := d <| free_list := b :: free_list d |>]> (descriptors s) |>
    <| headers := <[b `div` 4096 * 4096 :=
         mk_arena (Some n) (Z.of_nat (length (free_in d (b `div` 4096))) + 1) 0 ONIX_MAGIC]> (headers s) |>.

Lemma put_back_inv n d b : descriptors s !! n = Some d → is_block runs n d b →
  b ∉ free_list d → heap_inv (put_back n d b) runs (delete b live).
Proof using All.
  intros Hd Hb Hf. destruct (hi_desc _ _ Hinv n d Hd) as [_ _ _ Hnd _].
  set (d' := d <| free_list := b :: free_list d |>).
  assert (∀ b', b' ≠ b → b' ∈ free_list d' ↔ b' ∈ free_list d) as Hin.
  { intros b' Hne. change (free_list d') with (b :: free_list d). rewrite elem_of_cons. tauto. }
  split.
  - apply (heap_relist s runs Hinv (put_back n d b) n d d' b); try done.
    + by apply NoDup_cons.
    + intros i' Hi'. unfold free_in. change (free_list d') with (b :: free_list d).
      by rewrite filter_cons_False by congruence.
    + unfold put_back, modify. cbn -[free_in Z.of_nat]. f_equal. f_equal.
      unfold free_in. change (free_list d') with (b :: free_list d).
      rewrite filter_cons_True by done. cbn [length]. lia.
  - apply (live_relist s runs Hinv (put_back n d b) n d d' b Hd Hb eq_refl eq_refl eq_refl Hin live _ Hlive).
    + intros b' Hne. by apply lookup_delete_ne.
    + rewrite lookup_delete_eq, bool_decide_eq_true_2; [done|]. left.
Qed.

(** The release of a page all of whose blocks are free. *)
Lemma wp_kfree_release n d i (Q : unit → heap K → Prop) :
  descriptors s !! n = Some d → runs !! i = Some (Small n) →
  Z.of_nat (length (free_in d i)) = total_block d → BUF_COUNT < page_count d →
  (∀ s' runs', keep_others runs runs' → heap_inv s' runs' live → Q tt s') →
  wp no_stop (kfree_release (i * 4096) n) Q s.
Proof using All.
  intros Hd Hr Hfull Hpc HQ. destruct (desc_shape s runs Hinv n d Hd) as (Hn & Hsz & Htb & Hm).
  destruct (hi_desc _ _ Hinv n d Hd) as [_ _ Hcnt Hnd Hbl]. pose proof (hi_pages _ _ Hinv) as Hp.
  destruct (run_bounds _ _ Hp i _ Hr) as [Hi0 Hi1]. cbn in Hi1.
  destruct (pi_run _ _ Hp i _ Hr) as (_ & Hlo & Hhi & Hmk). cbn [run_len] in Hhi, Hmk.
  destruct (hi_small _ _ Hinv i n Hr) as (d0 & Hd0 & Hh). assert (d0 = d) as -> by congruence.
  pose proof (free_in_blocks s runs Hinv n d i Hr Hd Hfull) as Hperm.
  set (d1 := d <| free_list := filter (λ b, b `div` 4096 ≠ i) (free_list d) |>).
  set (d2 := d1 <| page_count $= λ n, s32 (n - 1) |>).
  assert (page_count d2 = page_count d - 1) as Hpc2.
  { change (page_count d2) with (s32 (page_count d - 1)). pose proof (small_pages_bound _ _ Hp n) as Hb.
    change (2 ^ 19) with 524288 in Hb. unfold BUF_COUNT in Hpc. apply s32_small. lia. }
  unfold kfree_release, get_desc. wp_step. eapply wp_deref; [done|]. wp_step.
  eapply (wp_drain no_stop i n d (mk_arena (Some n) (Z.of_nat (length (free_in d i))) 0 ONIX_MAGIC)); [lia|done|apply Hsz|apply Htb|done|exact Hh|done|lia|done| | |].
  { intros b Hb. rewrite <-Hperm in Hb. by apply list_elem_of_filter in Hb as [_ ?]. }
  { intros b Hb Hbi. rewrite <-Hperm. by apply list_elem_of_filter. }
  fold d1. wp_step. eapply (wp_mod_desc _ n d1); [by eapply insert_lookup|]. wp_step.
  eapply wp_deref; [by eapply insert_lookup, insert_lookup|]. wp_step. fold d2.
  apply wp_check_true; [rewrite Hpc2; apply Z.leb_le; unfold BUF_COUNT in *; lia|].
  apply wp_on_pages. eapply wp_conseq; [by apply kp_free_law; [apply Hp|lia| | |]|].
  intros [] k' [Hok Hmk']. match goal with |- Q _ ?x => set (s' := x) end.
  assert (descriptors s' = <[n := d2]> (descriptors s)) as Hds by apply list_insert_insert_eq.
  assert (heap_wf s' (delete i runs)) as Hwf'.
  { apply (delpage_wf s runs Hinv s' n d d2 i Hr Hd Hds eq_refl eq_refl Hfull eq_refl Hpc2 eq_refl).
    by apply (pages_del (kpages s) runs Hp k' i (Small n)). }
  apply (HQ s' (delete i runs)); [by apply (keep_others_delete _ _ _ Hr)|]. split; [done|]. intros b c. rewrite Hlive.
  rewrite <-(insert_delete_id runs i _ Hr) at 1.
  apply (newpage_allocated s' (delete i runs) Hwf' s n d2 d i).
  - apply lookup_delete_eq.
  - rewrite Hds. by eapply insert_lookup.
  - rewrite Hds, list_insert_insert_eq. by rewrite list_insert_id.
  - done.
  - done.
  - apply (free_list_split s runs Hinv s' n d d2 i Hr Hd Hds eq_refl eq_refl Hfull eq_refl).
Qed.
End main.

(** ** The two operations *)
Definition kmalloc_pages (size : Z) : Z :=
  if 1024 <? size then div_round_up (size + 16) 4096 else 1.

Section calls.
Context {K : Type} `{!KPages K} `{!KPagesLaws K}.
Context (s : heap K) (runs : gmap Z run) (live : gmap Z Z) (Hinv : heap_inv s runs live).

Lemma find_desc_ok size : size ≤ 1024 → ∃ n d,
  find_desc (descriptors s) size 0 = n ∧ descriptors s !! n = Some d ∧ size ≤ block_size d.
Proof using Hinv.
  intros Hs. pose proof (hi_wf _ _ _ Hinv) as Hwf. destruct (lookup_lt_is_Some_2 (descriptors s) 6) as [d Hd].
  { rewrite (hi_len _ _ Hwf). lia. }
  destruct (find_desc_spec size (descriptors s) 0) as (j & e & E & He & Hse).
  { exists d. split; [by apply list_elem_of_lookup_2 in Hd|].
    rewrite (do_size _ _ _ (hi_desc _ _ Hwf 6%nat d Hd)). cbn. lia. }
  exists j, e. by rewrite E.
Qed.

Lemma wp_kmalloc size (Q : Z → heap K → Prop) : 0 ≤ size ≤ 2 ^ 32 - 2 ^ 13 →
  (∀ s' runs' b c, size ≤ c → live !! b = None → keep_others runs runs' →
     heap_inv s' runs' (<[b := c]> live) → Q b s') →
  wp (out_of_pages (kpages s) (kmalloc_pages size)) (kmalloc size) Q s.
Proof using All.
  intros Hsize HQ. pose proof (hi_wf _ _ _ Hinv) as Hwf. unfold kmalloc, kmalloc_pages.
  destruct (Z.ltb_spec 1024 size) as [Hbig|Hsmall].
  { eapply (wp_kmalloc_large s runs Hwf live (hi_live _ _ _ Hinv)); [lia|done|done]. }
  destruct (find_desc_ok size Hsmall) as (n & d & Hn & Hd & Hs).
  wp_step. wp_step. rewrite Hn. unfold get_desc. wp_step. eapply wp_deref; [done|]. wp_step.
  destruct (free_list d) as [|b bs] eqn:Hfl.
  - apply (wp_kmalloc_grow s runs Hwf n d _ Hd Hfl). intros s' i d' Hwf' Hi Hal Hd' Hne Hbs.
    destruct (free_list d') as [|b bs] eqn:Hfl'; [done|].
    assert (heap_inv s' (<[i := Small n]> runs) live) as Hinv'.
    { split; [done|]. intros b' c. by rewrite (hi_live _ _ _ Hinv), Hal. }
    assert (live !! b = None) as Hnone.
    { apply eq_None_not_Some. intros [c Hc%(hi_live _ _ _ Hinv')]. revert Hc.
      apply (free_not_allocated s' _ Hwf' n d'); [done|]. rewrite Hfl'. left. }
    apply (wp_take s' _ Hwf' live (hi_live _ _ _ Hinv') _ n d' b bs); [done..|].
    intros s2 Hs2. by apply (HQ s2 (<[i := Small n]> runs) b (block_size d')); [lia| |by apply keep_others_insert|].
  - wp_step. assert (live !! b = None) as Hnone.
    { apply eq_None_not_Some. intros [c Hc%(hi_live _ _ _ Hinv)]. revert Hc.
      apply (free_not_allocated s runs Hwf n d); [done|]. rewrite Hfl. left. }
    apply (wp_take s runs Hwf live (hi_live _ _ _ Hinv) _ n d b bs); [done..|].
    intros s2 Hs2. by apply (HQ s2 runs b (block_size d)); [lia|done|intros ??|].
Qed.

Lemma wp_kfree b c (Q : unit → heap K → Prop) : live !! b = Some c →
  (∀ s' runs', keep_others runs runs' → heap_inv s' runs' (delete b live) → Q tt s') → wp no_stop (kfree b) Q s.
Proof using All.
  intros Hb HQ. pose proof (hi_wf _ _ _ Hinv) as Hwf. pose proof (hi_pages _ _ Hwf) as Hp.
  apply (hi_live _ _ _ Hinv) in Hb as [(n & d & Hd & Hb & Hf & ->)|(i & m & Hr & -> & ->)].
  - destruct (block_facts s runs Hwf n d b Hd Hb) as (i & Hr & Hi & Hi0 & Hlo & Hhi).
    destruct (desc_shape s runs Hwf n d Hd) as (_ & Hsz & Htb & Hm). change (2 ^ 19) with 524288 in Hi0.
    destruct (hi_small _ _ Hwf i n Hr) as (d0 & Hd0 & Hh). assert (d0 = d) as -> by congruence.
    unfold kfree, get_header, get_desc. wp_step. apply wp_check_true; [by apply negb_true_iff, Z.eqb_neq; unfold NULL; lia|].
    wp_step. rewrite get_block_arena_ok, Hi by lia. eapply wp_deref; [done|].
    wp_step. apply wp_check_true; [done|]. wp_step. apply wp_check_true; [done|]. cbn [negb large Z.eqb].
    wp_step. eapply wp_arena_desc; [done..|]. wp_step. eapply wp_list_push; [done|done|].
    wp_step. eapply wp_mod_header; [done|].
    assert (Z.of_nat (length (free_in d i)) ≤ total_block d) as Hc by by apply (free_in_le s runs Hwf n).
    match goal with |- wp _ _ _ ?x => assert (x = put_back s n d b) as -> end.
    { unfold put_back, modify. cbn -[free_in Z.of_nat]. rewrite Hi. rewrite u32_small by lia. done. }
    pose proof (put_back_inv s runs Hwf live (hi_live _ _ _ Hinv) n d b Hd Hb Hf) as Hinv'.
    wp_step. eapply wp_deref; [unfold put_back, modify; cbn -[free_in]; by rewrite Hi, lookup_insert_eq|].
    wp_step. eapply wp_deref; [by eapply insert_lookup|].
    set (d' := d <| free_list := b :: free_list d |>).
    destruct (_ && _) eqn:Hcond; [|apply wp_ret; by apply (HQ _ runs); [intros ??|]].
    apply andb_true_iff in Hcond as [Hc1%Z.eqb_eq Hc2%Z.ltb_lt]. cbn [count] in Hc1.
    apply (wp_kfree_release (put_back s n d b) runs (hi_wf _ _ _ Hinv') (delete b live) (hi_live _ _ _ Hinv') n d' i).
    + by eapply insert_lookup.
    + done.
    + unfold free_in. change (free_list d') with (b :: free_list d). rewrite filter_cons_True by done.
      cbn [length]. change (total_block d') with (total_block d) in *. unfold free_in in Hc1. lia.
    + done.
    + done.
  - destruct (run_bounds _ _ Hp i _ Hr) as [Hi0 Hi1].
    destruct (pi_run _ _ Hp i _ Hr) as (Hm & Hlo & Hhi & Hmk). cbn [run_len] in *.
    change (2 ^ 19) with 524288 in Hi1. pose proof (hi_big _ _ Hwf i m Hr) as Hh.
    unfold kfree, get_header. wp_step. apply wp_check_true; [by apply negb_true_iff, Z.eqb_neq; unfold NULL; lia|].
    wp_step. rewrite get_block_arena_ok by lia.
    replace ((i * 4096 + 16) `div` 4096) with i by (Z.div_mod_to_equations; lia).
    eapply wp_deref; [done|].
    wp_step. apply wp_check_true; [done|]. wp_step. apply wp_check_true; [done|]. cbn [negb large Z.eqb count].
    apply wp_on_pages. eapply wp_conseq; [by apply kp_free_law; [apply Hp|lia| | |]|].
    intros [] k' [Hok Hmk']. set (s' := s <| kpages := k' |>).
    assert (heap_wf s' (delete i runs)) as Hwf'.
    { apply (big_del_wf s runs Hwf s' i m Hr eq_refl eq_refl).
      by apply (pages_del (kpages s) runs Hp k' i (Big m)). }
    apply (HQ s' (delete i runs)); [by apply (keep_others_delete _ _ _ Hr)|]. split; [done|]. intros b c.
    rewrite lookup_delete_Some, (hi_live _ _ _ Hinv), <-(insert_delete_id runs i _ Hr) at 1.
    pose proof (lookup_delete_eq runs i) as Hdi.
    rewrite (big_allocated s' (delete i runs) s i m Hdi eq_refl). split; [intros [? [[-> _]|?]]; done|].
    intros Hal. split; [|by right]. intros <-. revert Hal. by apply (big_fresh s' (delete i runs) Hwf' s i m).
Qed.

(** A block lies in the pages of its run, behind the header. *)
Lemma live_range b c : live !! b = Some c → ∃ i r, runs !! i = Some r ∧
  i * 4096 + 16 ≤ b ∧ 0 < c ∧ b + c ≤ (i + run_len r) * 4096 ∧
  match r with
  | Big _ => b = i * 4096 + 16
  | Other _ => False
  | Small n => ∃ j, b = block_addr i c j ∧ ∃ d, descriptors s !! n = Some d ∧ c = block_size d
  end.
Proof using All.
  intros Hb. pose proof (hi_wf _ _ _ Hinv) as Hwf.
  apply (hi_live _ _ _ Hinv) in Hb as [(n & d & Hd & Hb & Hf & ->)|(i & m & Hr & -> & ->)].
  - destruct (block_facts s runs Hwf n d b Hd Hb) as (i & Hr & Hi & _ & Hlo & Hhi).
    destruct (desc_shape s runs Hwf n d Hd) as (_ & Hsz & _ & Hm).
    exists i, (Small n). cbn. split; [done|]. split; [done|]. split; [lia|]. split; [lia|].
    destruct Hb as (i' & j & Hr' & Hj & E). exists j. split; [|by exists d].
    rewrite E, (block_addr_page _ (total_block d)) in Hi by lia. congruence.
  - destruct (pi_run _ _ (hi_pages _ _ Hwf) i _ Hr) as (Hm & _). cbn in Hm.
    exists i, (Big m). cbn. split; [done|]. lia.
Qed.

(** Two runs do not overlap. *)
Lemma runs_apart i r i' r' : runs !! i = Some r → runs !! i' = Some r' → i ≠ i' →
  i + run_len r ≤ i' ∨ i' + run_len r' ≤ i.
Proof using Hinv.
  intros Hr Hr' Hne. pose proof (hi_pages _ _ (hi_wf _ _ _ Hinv)) as Hp.
  destruct (pi_run _ _ Hp i r Hr) as (Hl & _), (pi_run _ _ Hp i' r' Hr') as (Hl' & _).
  destruct (decide (i + run_len r ≤ i' ∨ i' + run_len r' ≤ i)) as [|Hn]; [done|].
  destruct Hne. apply (pi_disj _ _ Hp i r i' r' (Z.max i i') Hr Hr'); apply in_run_spec; lia.
Qed.

Lemma live_bounds b c : live !! b = Some c → 0 < b ∧ 0 < c ∧ b + c ≤ 2 ^ 31.
Proof using All.
  intros (i & r & Hr & H1 & H2 & H3 & _)%live_range.
  destruct (run_bounds _ _ (hi_pages _ _ (hi_wf _ _ _ Hinv)) i r Hr). lia.
Qed.

Lemma live_disjoint b c b' c' : live !! b = Some c → live !! b' = Some c' → b ≠ b' →
  b + c ≤ b' ∨ b' + c' ≤ b.
Proof using All.
  intros (i & r & Hr & H1 & H2 & H3 & H4)%live_range (i' & r' & Hr' & H1' & H2' & H3' & H4')%live_range Hne.
  destruct (decide (i = i')) as [<-|Hi]; [|destruct (runs_apart i r i' r' Hr Hr' Hi); nia].
  assert (r' = r) as -> by congruence. destruct r as [n|m|m]; [|congruence|done].
  destruct H4 as (j & -> & d & Hd & ->), H4' as (j' & -> & d' & Hd' & ->).
  assert (d' = d) as -> by congruence. unfold block_addr in *.
  destruct (Z.lt_trichotomy j j') as [Hlt|[->|Hlt]]; [left|done|right]; nia.
Qed.

(** The pages others own lie apart from the blocks. *)
Lemma live_other b c i n : live !! b = Some c → runs !! i = Some (Other n) →
  b + c ≤ i * 4096 ∨ (i + n) * 4096 ≤ b.
Proof using All.
  intros (i' & r' & Hr' & H1 & H2 & H3 & H4)%live_range Hi.
  destruct (decide (i' = i)) as [->|Hne]; [|destruct (runs_apart i' r' i (Other n) Hr' Hi Hne); cbn [run_len] in *; nia].
  assert (r' = Other n) as -> by congruence. done.
Qed.
End calls.

(** ** The kernel pages of [memory.c] implement the interface *)
#[export] Instance mem_KPages : KPages mem := {
  kp_alloc := alloc_kpage;
  kp_free := free_kpage;
  marked s j := Bitmap.bit (Bitmap.bits (kernel_map s)) (j - 256);
  kp_lo := 256;
  kp_hi := 3072;
  kp_ok s := Bitmap.bitmap_wf (kernel_map s) ∧ Bitmap.offset (kernel_map s) = 256 ∧
             Bitmap.nbits (kernel_map s) = 2816 }.

Section kernel_map.
Context (map : Bitmap.bitmap_t) (Hwf : Bitmap.bitmap_wf map).
Context (Ho : Bitmap.offset map = 256) (Hb : Bitmap.nbits map = 2816).

Lemma scan_page_spec n : 0 < n < 2 ^ 20 →
  (scan_page map n = Stop Assert ∧ ∀ s, ¬ Bitmap.free_run map n s) ∨
  ∃ k map', scan_page map n = Ok ((256 + k) * 4096, map') ∧ Bitmap.free_run map n k ∧
    Bitmap.bitmap_wf map' ∧ Bitmap.bits_updated map map' (λ j, (k <=? j) && (j <? k + n)) true.
Proof using All.
  change (2 ^ 20) with 1048576. intros Hn. unfold scan_page, Bitmap.bitmap_scan.
  rewrite (proj2 (Z.ltb_lt 0 n)) by lia. cbn [check res_bind].
  change (Bitmap.length map * 8) with (Bitmap.nbits map). rewrite Hb, u32_small by lia.
  destruct (Bitmap.scan_loop_spec map n Hwf ltac:(lia) (Z.to_nat 2816) 0 0
    (Bitmap.scan_inv_start map n Hwf ltac:(lia)) ltac:(lia)) as [[-> Hnone]|(k & -> & Hk & _)].
  - by left.
  - right. pose proof Hk as (Hk0 & Hk1 & _). cbn [res_bind].
    rewrite (proj2 (Z.eqb_neq k EOF)) by (unfold EOF, EEOF; lia). rewrite u32_small by lia.
    destruct (Bitmap.mark_loop_ok (Z.to_nat n) map k Hwf) as (m' & -> & Hwf' & Hu); [lia|lia|].
    exists k, m'. cbn [res_bind fst snd]. rewrite Ho, s32_small by lia.
    rewrite (proj2 (Z.eqb_neq (k + 256) EOF)) by (unfold EOF, EEOF; lia).
    rewrite PAGE_mul by lia. rewrite Z2Nat.id in Hu by lia.
    split; [by rewrite Z.add_comm|]. done.
Qed.

Lemma reset_loop_spec n : ∀ map k, Bitmap.bitmap_wf map → Bitmap.offset map = 256 →
  Bitmap.nbits map = 2816 → 0 ≤ k → k + Z.of_nat n ≤ 2816 →
  (∀ j, in_run k (Z.of_nat n) j = true → Bitmap.bit (Bitmap.bits map) j = true) →
  ∃ map', reset_loop n map (256 + k) = Ok map' ∧ Bitmap.bitmap_wf map' ∧
    Bitmap.bits_updated map map' (in_run k (Z.of_nat n)) false.
Proof using.
  clear. induction n as [|n IH]; intros map k Hwf Ho Hb Hk Hkn Hbits.
  - exists map. split; [done|]. split; [done|]. split; [done|]. split; [done|]. intros j _.
    destruct (in_run k (Z.of_nat 0) j) eqn:E; [|done]. apply in_run_spec in E. lia.
  - cbn [reset_loop]. rewrite <-Ho, (Bitmap.bitmap_test_ok _ Hwf) by lia. cbn [res_bind].
    rewrite Hbits by (apply in_run_spec; lia). cbn [check res_bind].
    destruct (Bitmap.bitmap_set_ok map Hwf k false) as (m1 & -> & Hwf1 & Hl1 & Ho1 & Hb1); [lia|].
    cbn [res_bind]. rewrite Ho, u32_small by lia.
    assert (Bitmap.nbits m1 = Bitmap.nbits map) as Hn1 by (unfold Bitmap.nbits; lia).
    destruct (IH m1 (k + 1)) as (m2 & Hr & Hwf2 & Hl2 & Ho2 & Hb2); [done|lia|lia|lia|lia| |].
    { intros j Hj%in_run_spec. rewrite Hb1 by lia. rewrite (proj2 (Z.eqb_neq j k)) by lia.
      apply Hbits, in_run_spec. lia. }
    rewrite Z.add_assoc in Hr. rewrite Hr. exists m2. split; [done|]. split; [done|].
    split; [lia|]. split; [lia|]. intros j Hj. rewrite Hb2, Hb1, Hn1 by done.
    unfold in_run. destruct (Z.eqb_spec j k), (Z.leb_spec (k + 1) j), (Z.leb_spec k j),
      (Z.ltb_spec j (k + 1 + Z.of_nat n)), (Z.ltb_spec j (k + Z.of_nat (S n))),
      (Z.ltb_spec j (Bitmap.nbits map)); cbn; (done || lia).
Qed.
End kernel_map.

Lemma mem_alloc_law (s : mem) n : kp_ok s → 0 < n < 2 ^ 20 →
  wp (λ e, e = Assert ∧
        ∀ i, kp_lo ≤ i → i + n ≤ kp_hi → ∃ j, in_run i n j = true ∧ marked s j = true)
    (kp_alloc n)
    (λ a k', ∃ i, a = i * 4096 ∧ kp_lo ≤ i ∧ i + n ≤ kp_hi ∧ kp_ok k' ∧
      (∀ j, in_run i n j = true → marked s j = false) ∧
      ∀ j, kp_lo ≤ j < kp_hi → marked k' j = in_run i n j || marked s j) s.
Proof.
  intros (Hwf & Ho & Hb) Hn. cbn. unfold alloc_kpage. wp_step.
  apply wp_check_true; [apply Z.ltb_lt; lia|]. wp_step. wp_step. wp_step.
  destruct (scan_page_spec (kernel_map s) Hwf Ho Hb n Hn) as [[Hs Hnone]|(k & m & Hs & Hk & Hwf' & Hl & Ho' & Hu)].
  - unfold wp, st_lift. rewrite Hs. split; [done|]. intros i Hi Hin.
    destruct (decide (Exists (λ j, Bitmap.bit (Bitmap.bits (kernel_map s)) (j - 256) = true) (seqZ i n)))
      as [(j & Hj%elem_of_seqZ & Hm)%Exists_exists|Hno].
    + exists j. split; [apply in_run_spec; lia|done].
    + exfalso. apply (Hnone (i - 256)). split; [lia|]. split; [lia|]. intros j Hj.
      apply not_true_iff_false. intros Hm. apply Hno, Exists_exists. exists (j + 256).
      split; [apply elem_of_seqZ; lia|]. by replace (j + 256 - 256) with j by lia.
  - eapply wp_lift; [exact Hs|]. wp_step. wp_step. wp_step. cbn [fst snd].
    destruct Hk as (Hk0 & Hk1 & Hkf). exists (256 + k). split; [done|]. split; [lia|]. split; [lia|].
    assert (Bitmap.nbits m = 2816) as Hm by (unfold Bitmap.nbits in *; lia).
    upd_simpl. split; [split; [done|]; split; [lia|done]|]. split.
    + intros j Hj%in_run_spec. apply Hkf. lia.
    + intros j Hj. rewrite Hu, Hb by lia. unfold in_run.
      destruct (Z.leb_spec k (j - 256)), (Z.leb_spec (256 + k) j), (Z.ltb_spec (j - 256) (k + n)),
        (Z.ltb_spec j (256 + k + n)), (Z.ltb_spec (j - 256) 2816); cbn; (done || lia).
Qed.

Lemma mem_free_law (s : mem) i n : kp_ok s → 0 < n → kp_lo ≤ i → i + n ≤ kp_hi →
  (∀ j, in_run i n j = true → marked s j = true) →
  wp no_stop (kp_free (i * 4096) n)
    (λ _ k', kp_ok k' ∧
      ∀ j, kp_lo ≤ j < kp_hi → marked k' j = negb (in_run i n j) && marked s j) s.
Proof.
  intros (Hwf & Ho & Hb) Hn Hi Hin Hm. cbn [kp_lo kp_hi mem_KPages] in *. cbn [kp_free mem_KPages].
  unfold free_kpage. wp_step. apply wp_check_true; [apply ASSERT_PAGE_true; by apply Z_mod_mult|]. wp_step.
  apply wp_check_true; [by apply Z.ltb_lt|]. wp_step. wp_step. wp_step.
  assert (IDX (i * 4096) = 256 + (i - 256)) as HI.
  { rewrite IDX_div, u32_small, Z.div_mul by lia. lia. }
  destruct (reset_loop_spec (Z.to_nat n) (kernel_map s) (i - 256) Hwf Ho Hb) as (m & Hr & Hwf' & Hl & Ho' & Hu);
    [lia|lia| |].
  { rewrite Z2Nat.id by lia. intros j Hj%in_run_spec. specialize (Hm (j + 256)). cbn in Hm.
    replace (j + 256 - 256) with j in Hm by lia. apply Hm, in_run_spec. lia. }
  unfold reset_page. rewrite ASSERT_PAGE_true by (by apply Z_mod_mult). rewrite (proj2 (Z.ltb_lt 0 n)) by done.
  cbn [check res_bind]. rewrite HI. eapply wp_lift; [exact Hr|]. wp_step.
  assert (Bitmap.nbits m = 2816) as Hn' by (unfold Bitmap.nbits in *; lia).
  unfold kp_ok, marked. cbn. upd_simpl.
  split; [split; [done|]; split; [lia|done]|]. intros j Hj. rewrite Hu, Hb, Z2Nat.id by lia.
  unfold in_run. destruct (Z.leb_spec (i - 256) (j - 256)), (Z.leb_spec i j), (Z.ltb_spec (j - 256) (i - 256 + n)),
    (Z.ltb_spec j (i + n)), (Z.ltb_spec (j - 256) 2816); cbn; (done || lia).
Qed.

#[export] Instance mem_KPagesLaws : KPagesLaws mem.
Proof. split; [done|exact mem_alloc_law|exact mem_free_law]. Qed.

(** ** The heap in use *)
Section others.
Context {K : Type} `{!KPages K} `{!KPagesLaws K}.
Context (s : heap K) (runs : gmap Z run) (live : gmap Z Z) (Hinv : heap_inv s runs live).

(** Runs of other parts of the kernel do not matter to the heap. *)
Lemma others_inv k runs' : pages_inv k runs' →
  (∀ i n, runs' !! i = Some (Small n) ↔ runs !! i = Some (Small n)) →
  (∀ i m, runs' !! i = Some (Big m) ↔ runs !! i = Some (Big m)) →
  (∀ n, small_pages runs' n = small_pages runs n) →
  heap_inv (s <| kpages := k |>) runs' live.
Proof using Hinv.
  intros Hp HS HB Hn. destruct Hinv as [[H1 _ H3 H4 H5] H6].
  assert (∀ n d b, is_block runs' n d b ↔ is_block runs n d b) as Hib.
  { intros n d b. unfold is_block. by setoid_rewrite HS. }
  split; [split; [done|done| | |]|].
  - intros i n Hr. by apply H3, HS.
  - intros i m Hr. by apply H4, HB.
  - intros n d Hd. destruct (H5 n d Hd) as [E1 E2 E3 E4 E5].
    split; [done|done|by rewrite Hn|done|]. intros b Hb. by apply Hib, E5.
  - intros b c. rewrite H6. unfold allocated. unfold modify. cbn -[is_block].
    setoid_rewrite Hib. by setoid_rewrite HB.
Qed.

Lemma other_add k i m : runs !! i = None → pages_inv k (<[i := Other m]> runs) →
  heap_inv (s <| kpages := k |>) (<[i := Other m]> runs) live.
Proof using Hinv.
  intros Hi Hp. apply others_inv; [done| | |].
  1-2: intros j x; rewrite lookup_insert_Some; split; [by intros [[_ ?]|[_ ?]]|];
    intros Hj; right; split; [by intros <-; rewrite Hi in Hj|done].
  intros n. rewrite small_pages_insert, decide_False by done. lia.
Qed.

Lemma other_del k i m : runs !! i = Some (Other m) → pages_inv k (delete i runs) →
  heap_inv (s <| kpages := k |>) (delete i runs) live.
Proof using Hinv.
  intros Hi Hp. apply others_inv; [done| | |].
  1-2: intros j x; rewrite lookup_delete_Some; split; [by intros [_ ?]|];
    intros Hj; split; [intros <-; congruence|done].
  intros n. rewrite (small_pages_delete _ _ _ _ Hi), decide_False by done. lia.
Qed.
End others.

Section system.
Context {K : Type} `{!KPages K} `{!KPagesLaws K}.

(** [blocks_out]: the blocks the kernel holds with the sizes it asked for;
    [pages_out]: the kernel pages other code holds. *)
Record system := mk_system { sys_heap : heap K; blocks_out : gmap Z Z; pages_out : gmap Z Z }.

(** The kernel frees only what it holds. *)
Inductive heap_step : system → system → Prop :=
| step_kmalloc s bs ps size b s' : 0 ≤ size ≤ 2 ^ 32 - 2 ^ 13 →
    kmalloc size s = Ok (b, s') →
    heap_step (mk_system s bs ps) (mk_system s' (<[b := size]> bs) ps)
| step_kfree s bs ps b s' : is_Some (bs !! b) → kfree b s = Ok (tt, s') →
    heap_step (mk_system s bs ps) (mk_system s' (delete b bs) ps)
| step_alloc_kpage s bs ps n a s' : 0 < n < 2 ^ 20 → on_pages (kp_alloc n) s = Ok (a, s') →
    heap_step (mk_system s bs ps) (mk_system s' bs (<[a := n]> ps))
| step_free_kpage s bs ps a n s' : ps !! a = Some n → on_pages (kp_free a n) s = Ok (tt, s') →
    heap_step (mk_system s bs ps) (mk_system s' bs (delete a ps)).

(** The heap after [arena_init], nothing allocated yet. *)
Definition boot_heap (k : K) : system :=
  match arena_init (mk_heap K [] ∅ k) with
  | Ok (_, s) => mk_system s ∅ ∅
  | Stop _ => mk_system (mk_heap K [] ∅ k) ∅ ∅
  end.

Definition sys_inv (st : system) : Prop := ∃ runs live, heap_inv (sys_heap st) runs live ∧
  (∀ b size, blocks_out st !! b = Some size → ∃ c, live !! b = Some c ∧ size ≤ c) ∧
  ∀ a n, pages_out st !! a = Some n → ∃ i, a = i * 4096 ∧ runs !! i = Some (Other n).

Lemma empty_desc_ok i : block_size (arena_init_desc i) = 16 * 2 ^ Z.of_nat i →
  desc_ok ∅ i (arena_init_desc i).
Proof using.
  intros Hs. split; [done|done|done|apply NoDup_nil_2|].
  intros b Hb. by apply not_elem_of_nil in Hb.
Qed.

Lemma boot_heap_inv k : kp_ok k → sys_inv (boot_heap k).
Proof using.
  intros Hk. exists ∅, ∅. split; [|split; cbn; intros ? ? H; by rewrite lookup_empty in H].
  assert (pages_inv k ∅) as Hp by (split; [done|by intros|by intros]).
  assert (∀ n d, descriptors (sys_heap (boot_heap k)) !! n = Some d → desc_ok ∅ n d ∧ free_list d = []) as Hd.
  { intros n d Hd. unfold boot_heap in Hd. cbn in Hd.
    do 7 (destruct n as [|n]; [cbn in Hd; injection Hd as <-; split; [by apply empty_desc_ok|done]|]).
    done. }
  split; [split; [done|exact Hp|by intros|by intros|intros n d [H _]%Hd; exact H]|].
  intros b c. rewrite lookup_empty. split; [done|].
  intros [(n & d & Hn & (i & j & Hr & _) & _)|(i & m & Hr & _)]; by rewrite lookup_empty in Hr.
Qed.

Lemma sys_kmalloc s bs ps size : 0 ≤ size ≤ 2 ^ 32 - 2 ^ 13 → sys_inv (mk_system s bs ps) →
  wp (out_of_pages (kpages s) (kmalloc_pages size)) (kmalloc size)
    (λ b s', sys_inv (mk_system s' (<[b := size]> bs) ps)) s.
Proof using All.
  intros Hsz (runs & live & Hinv & Hb & Hps). cbn [sys_heap blocks_out pages_out] in *.
  apply (wp_kmalloc s runs live Hinv); [done|]. intros s' runs' b c Hc Hnone Hko Hinv'.
  exists runs', (<[b := c]> live). split; [done|]. split; cbn [blocks_out pages_out].
  - intros b' sz [[<- <-]|[Hne Hb']]%lookup_insert_Some; [exists c; by rewrite lookup_insert_eq|].
    rewrite lookup_insert_ne by done. by apply Hb.
  - intros a n (i & -> & Hi)%Hps. exists i. split; [done|]. by apply Hko.
Qed.

Lemma sys_kfree s bs ps b : is_Some (bs !! b) → sys_inv (mk_system s bs ps) →
  wp no_stop (kfree b) (λ _ s', sys_inv (mk_system s' (delete b bs) ps)) s.
Proof using All.
  intros [sz Hsz] (runs & live & Hinv & Hb & Hps). cbn [sys_heap blocks_out pages_out] in *.
  destruct (Hb b sz Hsz) as (c & Hc & _). apply (wp_kfree s runs live Hinv b c); [done|].
  intros s' runs' Hko Hinv'.
  exists runs', (delete b live). split; [done|]. split; cbn [blocks_out pages_out].
  - intros b' sz' [Hne Hb']%lookup_delete_Some. rewrite lookup_delete_ne by done. by apply Hb.
  - intros a n (i & -> & Hi)%Hps. exists i. split; [done|]. by apply Hko.
Qed.

Lemma sys_alloc_kpage s bs ps n : 0 < n < 2 ^ 20 → sys_inv (mk_system s bs ps) →
  wp (out_of_pages (kpages s) n) (on_pages (kp_alloc n))
    (λ a s', sys_inv (mk_system s' bs (<[a := n]> ps))) s.
Proof using All.
  intros Hn (runs & live & Hinv & Hb & Hps). cbn [sys_heap blocks_out pages_out] in *.
  pose proof (hi_pages _ _ (hi_wf _ _ _ Hinv)) as Hp. apply wp_on_pages.
  eapply wp_conseq; [apply kp_alloc_law; [apply Hp|done]|].
  intros a k (i & -> & Hlo & Hhi & Hok & Hfree & Hmk).
  assert (runs !! i = None) as Hi by (apply (pages_fresh _ _ Hp i n); [lia|done]).
  exists (<[i := Other n]> runs), live. split; [|split; [done|]]; cbn [sys_heap pages_out].
  - apply other_add; [done|done|].
    by apply (pages_add (kpages s) runs Hp k i (Other n)); [|cbn; lia| | | |].
  - intros a m [[<- <-]|[Hne Ha]]%lookup_insert_Some; [exists i; by rewrite lookup_insert_eq|].
    destruct (Hps a m Ha) as (j & -> & Hj). exists j. split; [done|].
    rewrite lookup_insert_ne; [done|]. intros <-. congruence.
Qed.

Lemma sys_free_kpage s bs ps a n : ps !! a = Some n → sys_inv (mk_system s bs ps) →
  wp no_stop (on_pages (kp_free a n)) (λ _ s', sys_inv (mk_system s' bs (delete a ps))) s.
Proof using All.
  intros Ha (runs & live & Hinv & Hb & Hps). cbn [sys_heap blocks_out pages_out] in *.
  pose proof (hi_pages _ _ (hi_wf _ _ _ Hinv)) as Hp. apply wp_on_pages.
  destruct (Hps a n Ha) as (i & -> & Hi). destruct (pi_run _ _ Hp i _ Hi) as (Hn & Hlo & Hhi & Hmk).
  cbn [run_len] in *. eapply wp_conseq; [by apply kp_free_law; [apply Hp| | | |]|].
  intros [] k' [Hok Hmk']. exists (delete i runs), live.
  split; [|split; [done|]]; cbn [sys_heap pages_out].
  - apply (other_del s runs live Hinv k' i n Hi). by apply (pages_del (kpages s) runs Hp k' i (Other n)).
  - intros a m [Hne Hm]%lookup_delete_Some. destruct (Hps a m Hm) as (j & -> & Hj).
    exists j. split; [done|]. rewrite lookup_delete_ne; [done|]. intros <-. by destruct Hne.
Qed.

Lemma sys_inv_step st st' : sys_inv st → heap_step st st' → sys_inv st'.
Proof using All.
  intros Hinv Hst. destruct Hst as [s bs ps size b s' Hsz Hr|s bs ps b s' Hsz Hr|
    s bs ps n a s' Hn Hr|s bs ps a n s' Ha Hr].
  - exact (wp_result _ _ _ _ _ _ (sys_kmalloc s bs ps size Hsz Hinv) Hr).
  - exact (wp_result _ _ _ _ _ _ (sys_kfree s bs ps b Hsz Hinv) Hr).
  - exact (wp_result _ _ _ _ _ _ (sys_alloc_kpage s bs ps n Hn Hinv) Hr).
  - exact (wp_result _ _ _ _ _ _ (sys_free_kpage s bs ps a n Ha Hinv) Hr).
Qed.

(** C6: in every state the kernel reaches from [arena_init] by [kmalloc], [kfree]
    of blocks it holds, and allocating and freeing kernel pages elsewhere, the
    blocks it holds have the sizes asked for and overlap neither each other nor the
    pages that others hold, which do not overlap each other; [kfree] of such a block
    returns; and [kmalloc] returns a block (a new one, by the first part
    in the next state) unless no run of the kernel pages it needs is free. *)
Theorem kernel_heap_sound (k : K) (st : system) (Hk : kp_ok k)
    (Hreach : steps heap_step (boot_heap k) st) :
  (∀ b n, blocks_out st !! b = Some n → 0 < b ∧ b + n ≤ 2 ^ 31 ∧
     wp no_stop (kfree b) (λ _ _, True) (sys_heap st)) ∧
  (∀ b n b' n', blocks_out st !! b = Some n → blocks_out st !! b' = Some n' → b ≠ b' →
     b + n ≤ b' ∨ b' + n' ≤ b) ∧
  (∀ b n a k, blocks_out st !! b = Some n → pages_out st !! a = Some k →
    b + n ≤ a ∨ a + k * 4096 ≤ b) ∧
  (∀ a k a' k', pages_out st !! a = Some k → pages_out st !! a' = Some k' → a ≠ a' →
    a + k * 4096 ≤ a' ∨ a' + k' * 4096 ≤ a) ∧
  ∀ size, 0 ≤ size ≤ 2 ^ 32 - 2 ^ 13 →
    wp (out_of_pages (kpages (sys_heap st)) (kmalloc_pages size)) (kmalloc size)
      (λ b _, blocks_out st !! b = None) (sys_heap st).
Proof using All.
  assert (sys_inv st) as Hinv.
  { eapply (steps_invariant _ sys_inv); [exact sys_inv_step|by apply boot_heap_inv|exact Hreach]. }
  destruct st as [s bs ps]. pose proof Hinv as (runs & live & Hh & Hb & Hp).
  cbn [sys_heap blocks_out pages_out] in *. split; [|split; [|split; [|split]]].
  - intros b n Hbn. destruct (Hb b n Hbn) as (c & Hc & Hn).
    destruct (live_bounds s runs live Hh b c Hc) as (H1 & H2 & H3). split; [done|]. split; [lia|].
    eapply wp_conseq; [by apply (sys_kfree s bs ps b)|done].
  - intros b n b' n' Hbn Hbn' Hne. destruct (Hb b n Hbn) as (c & Hc & Hn), (Hb b' n' Hbn') as (c' & Hc' & Hn').
    destruct (live_disjoint s runs live Hh b c b' c' Hc Hc' Hne); lia.
  - intros b n a m Hbn Ha. destruct (Hb b n Hbn) as (c & Hc & Hn), (Hp a m Ha) as (i & -> & Hi).
    destruct (live_other s runs live Hh b c i m Hc Hi); lia.
  - intros a m a' m' Ha Ha' Hne. destruct (Hp a m Ha) as (i & -> & Hi), (Hp a' m' Ha') as (i' & -> & Hi').
    assert (i ≠ i') as Hii by (by intros ->).
    destruct (runs_apart s runs live Hh i _ i' _ Hi Hi' Hii); cbn [run_len] in *; lia.
  - intros size Hsz. apply (wp_kmalloc s runs live Hh); [done|]. intros s' runs' b c _ Hnone _ _.
    apply eq_None_not_Some. intros [n Hbn]. destruct (Hb b n Hbn) as (? & ? & _). congruence.
Qed.
End system.

(** A kernel whose pages are all free, and its heap after one call of [kmalloc]. *)
Definition demo_pages : mem :=
  mk_mem (λ _ _, 0) 0 0 0 0 0 [] 0 (Bitmap.mk_bitmap (replicate 352 0) 352 256) 0 true
    (mk_task_mem 0 0 0 0 (Bitmap.mk_bitmap [] 0 0)).

Definition demo_kmalloc : option (Z * heap mem) :=
  match kmalloc 600 (sys_heap (boot_heap demo_pages)) with Ok r => Some r | Stop _ => None end.
Definition demo_system : system :=
  match demo_kmalloc with
  | Some (b, s) => mk_system s (<[b := 600]> ∅) ∅
  | None => boot_heap demo_pages
  end.

Lemma demo_pages_ok : kp_ok demo_pages.
Proof.
  split; [|done]. split; [done|done|done|].
  change (Forall (λ v, 0 ≤ v < 256) (replicate 352 0)). by apply Forall_replicate.
Qed.

Lemma demo_reach : steps heap_step (boot_heap demo_pages) demo_system.
Proof.
  assert (∃ b s, demo_kmalloc = Some (b, s)) as (b & s & E).
  { destruct demo_kmalloc as [[b s]|] eqn:E; [by exists b, s|]. by vm_compute in E. }
  unfold demo_system. rewrite E. apply steps_once. apply (step_kmalloc _ ∅ ∅ 600); [lia|].
  unfold demo_kmalloc in E. by destruct (kmalloc _ _) as [r|]; [injection E as ->|].
Qed.

Lemma kernel_heap_sound_witness :
  blocks_out demo_system = <[1050640 := 600]> ∅ ∧
  (∀ b n, blocks_out demo_system !! b = Some n → 0 < b ∧ b + n ≤ 2 ^ 31 ∧
     wp no_stop (kfree b) (λ _ _, True) (sys_heap demo_system)) ∧
  (∀ b n b' n', blocks_out demo_system !! b = Some n → blocks_out demo_system !! b' = Some n' →
     b ≠ b' → b + n ≤ b' ∨ b' + n' ≤ b) ∧
  (∀ b n a k, blocks_out demo_system !! b = Some n → pages_out demo_system !! a = Some k →
     b + n ≤ a ∨ a + k * 4096 ≤ b) ∧
  (∀ a k a' k', pages_out demo_system !! a = Some k → pages_out demo_system !! a' = Some k' →
     a ≠ a' → a + k * 4096 ≤ a' ∨ a' + k' * 4096 ≤ a) ∧
  ∀ size, 0 ≤ size ≤ 2 ^ 32 - 2 ^ 13 →
    wp (out_of_pages (kpages (sys_heap demo_system)) (kmalloc_pages size)) (kmalloc size)
      (λ b _, blocks_out demo_system !! b = None) (sys_heap demo_system).
Proof.
  split; [by vm_compute|]. exact (kernel_heap_sound demo_pages demo_system demo_pages_ok demo_reach).
Defined.
