(* ===== verification/Device.v ===== *)
(** * Devices and block requests ([src/src/kernel/device.c],
    [src/src/include/onix/device.h])

    The table of devices, whose drivers are the functions stored in it, and the
    queue of requests of a block device: a request is inserted in the order of
    its sector, waits while another one is served, and hands the device on to its
    neighbour in the direction of the scan.  [device_request] is split where it
    blocks, at [task_block] and in the driver. *)
From S2P Require Import Prelude.
From S2P Require Dlist.
Module Abs := Dlist.Abs.

Definition DEVICE_NR : Z := 64.
Definition NAMELEN : Z := 16.

Definition DEV_NULL : Z := 0.
Definition DEV_CHAR : Z := 1.
Definition DEV_BLOCK : Z := 2.
Definition DEV_NET : Z := 3.

Definition DEV_CMD_SECTOR_START : Z := 1.
Definition DEV_CMD_SECTOR_COUNT : Z := 2.
Definition DEV_CMD_SECTOR_SIZE : Z := 3.

Definition REQ_READ : Z := 0.
Definition REQ_WRITE : Z := 1.

Inductive direct_t := DIRECT_UP | DIRECT_DOWN.

(** [rtask] is the pid of the blocked process. *)
Record request_t := mk_request {
  rdev : Z; rtype : Z; ridx : Z; rcount : Z; rflags : Z; rbuf : Z; rtask : option Z }.

Section device.
(** The state of the hardware and the memory its drivers work on. *)
Context {W : Type}.

(** The driver functions take [ptr] and the arguments of the call; the list holds
    the addresses of the requests in the order of their nodes. *)
Record device_t := mk_device {
  name : list Z; type : Z; subtype : Z; dev : Z; parent : Z; ptr : Z;
  request_list : list Z; direct : direct_t;
  ioctl : option (Z → Z → Z → Z → ST W Z);
  read : option (Z → Z → Z → Z → Z → ST W Z);
  write : option (Z → Z → Z → Z → Z → ST W Z) }.

Record devs := mk_devs { devices : list device_t; requests : gmap Z request_t; hw : W }.

#[local] Instance expand_device : Expand device_t := λ d,
  mk_device (name d) (type d) (subtype d) (dev d) (parent d) (ptr d) (request_list d)
    (direct d) (ioctl d) (read d) (write d).
#[local] Instance expand_devs : Expand devs := λ s, mk_devs (devices s) (requests s) (hw s).

Definition on_hw {A} (m : ST W A) : ST devs A := λ s,
  match m (hw s) with
  | Ok (a, w) => Ok (a, s <| hw := w |>)
  | Stop e => Stop e
  end.

(** ** The table *)
Definition null_device (i : nat) : device_t :=
  mk_device [110; 117; 108; 108] DEV_NULL DEV_NULL (Z.of_nat i) 0 0 [] DIRECT_UP None None None.

(** [ptr] keeps what the static table holds, 0 at the start. *)
Definition device_init : ST devs unit :=
  st_mod (λ s, s <| devices := null_device <$> seq 0 (Z.to_nat DEVICE_NR) |>).

Definition mod_device (i : nat) (f : device_t → device_t) : ST devs unit :=
  st_mod (λ s, s <| devices $= alter f i |>).

(** The first free entry from 1; entry 0 is never used. *)
Fixpoint find_null (ds : list device_t) (i : nat) : option nat :=
  match ds with
  | [] => None
  | d :: ds' => if type d =? DEV_NULL then Some i else find_null ds' (S i)
  end.

Definition get_null_device : ST devs nat :=
  let* ds := st_gets devices in
  match find_null (drop 1 ds) 1 with Some i => st_ret i | None => st_stop Assert end.

(** [strncpy(device->name, name, NAMELEN)] *)
Definition device_install (ty sub p : Z) (nm : list Z) (par : Z)
    (io : option (Z → Z → Z → Z → ST W Z)) (rd wr : option (Z → Z → Z → Z → Z → ST W Z)) : ST devs Z :=
  let* i := get_null_device in
  do! mod_device i (λ d, mk_device (take (Z.to_nat (NAMELEN - 1)) nm) ty sub (dev d) par p
                           (request_list d) (direct d) io rd wr);
  let* d := st_deref (λ s, devices s !! i) in
  st_ret (dev d).

Fixpoint find_loop (ds : list device_t) (sub idx nr : Z) (i : nat) : option nat :=
  match ds with
  | [] => None
  | d :: ds' =>
      if negb (subtype d =? sub) then find_loop ds' sub idx nr (S i)
      else if nr =? idx then Some i
      else find_loop ds' sub idx (u32 (nr + 1)) (S i)
  end.
Definition device_find (sub idx : Z) : ST devs (option nat) :=
  st_gets (λ s, find_loop (devices s) sub idx 0 0).

(** [dev] is signed: the assertion lets a negative number through. *)
Definition device_get (n : Z) : ST devs nat :=
  do! st_check (n <? DEVICE_NR);
  if n <? 0 then st_stop Fault
  else
    let* d := st_deref (λ s, devices s !! Z.to_nat n) in
    do! st_check (negb (type d =? DEV_NULL));
    st_ret (Z.to_nat n).

Definition the_device (i : nat) : ST devs device_t := st_deref (λ s, devices s !! i).

Definition device_ioctl (n cmd args flags : Z) : ST devs Z :=
  let* i := device_get n in
  let* d := the_device i in
  match ioctl d with Some f => on_hw (f (ptr d) cmd args flags) | None => st_ret (- ENOSYS) end.
Definition device_read (n buf count idx flags : Z) : ST devs Z :=
  let* i := device_get n in
  let* d := the_device i in
  match read d with Some f => on_hw (f (ptr d) buf count idx flags) | None => st_ret (- ENOSYS) end.
Definition device_write (n buf count idx flags : Z) : ST devs Z :=
  let* i := device_get n in
  let* d := the_device i in
  match write d with Some f => on_hw (f (ptr d) buf count idx flags) | None => st_ret (- ENOSYS) end.

(** ** Requests *)
Definition the_request (a : Z) : ST devs request_t := st_deref (λ s, requests s !! a).

Definition do_request (a : Z) : ST devs Z :=
  let* r := the_request a in
  if rtype r =? REQ_READ then device_read (rdev r) (rbuf r) (rcount r) (ridx r) (rflags r)
  else if rtype r =? REQ_WRITE then device_write (rdev r) (rbuf r) (rcount r) (ridx r) (rflags r)
  else st_stop Assert.

(** The neighbours of a node, [None] at a sentinel. *)
Fixpoint node_next (xs : list Z) (a : Z) : option Z :=
  match xs with
  | [] => None
  | x :: xs' => if x =? a then head xs' else node_next xs' a
  end.
Definition node_prev (xs : list Z) (a : Z) : option Z := node_next (reverse xs) a.

Definition request_nextreq (i : nat) (a : Z) : ST devs (option Z) :=
  let* d := the_device i in
  let next := node_next (request_list d) a in
  let prev := node_prev (request_list d) a in
  let dir :=
    match direct d with
    | DIRECT_UP => if bool_decide (next = None) then DIRECT_DOWN else DIRECT_UP
    | DIRECT_DOWN => if bool_decide (prev = None) then DIRECT_UP else DIRECT_DOWN
    end in
  do! mod_device i (λ d, d <| direct := dir |>);
  st_ret (match dir with DIRECT_UP => next | DIRECT_DOWN => prev end).

(** The sort key of [list_insert_sort] is an [int]. *)
Definition request_key (rs : gmap Z request_t) (a : Z) : Z :=
  match rs !! a with Some r => s32 (ridx r) | None => 0 end.

(** [device_request] up to [task_block]; [a] is the block that [kmalloc] returned
    and [me] the running process.  It returns the device with the queue and
    whether the process blocks; [device->type = DEV_BLOCK] in the first assertion
    is an assignment. *)
Definition request_start (n buf count idx flags ty a me : Z) : ST devs (nat * bool) :=
  let* i := device_get n in
  do! mod_device i (λ d, d <| type := DEV_BLOCK |>);
  let* d := the_device i in
  let* start := device_ioctl (dev d) DEV_CMD_SECTOR_START 0 0 in
  let offset := u32 (idx + start) in
  let* j := if negb (parent d =? 0) then device_get (parent d) else st_ret i in
  let* d := the_device j in
  let empty := bool_decide (request_list d = []) in
  let req := mk_request (dev d) ty offset (u8 count) flags buf (if empty then None else Some me) in
  do! st_mod (λ s, s <| requests $= <[a := req]> |>);
  let* s := st_get in
  do! mod_device j (λ d, d <| request_list $= Abs.insert_sort (request_key (requests s)) a |>);
  st_ret (j, negb empty).

(** The rest, after the driver; it returns the request served next with the
    process it unblocks. *)
Definition request_finish (i : nat) (a : Z) : ST devs (option (Z * Z)) :=
  let* next := request_nextreq i a in
  let* d := the_device i in
  do! st_check (Abs.mem a (request_list d));
  do! mod_device i (λ d, d <| request_list $= Abs.remove a |>);
  do! st_mod (λ s, s <| requests $= delete a |>);
  match next with
  | None => st_ret None
  | Some b => let* r := the_request b in let* p := st_deref (λ _, rtask r) in st_ret (Some (b, p))
  end.
End device.
Arguments device_t : clear implicits.
Arguments devs : clear implicits.
#[export] Instance expand_device' W : Expand (device_t W) := expand_device.
#[export] Instance expand_devs' W : Expand (devs W) := expand_devs.

(** ** What the operations change *)
Section effects.
Context {W : Type}.
Implicit Types s : devs W.

Definition queue s (j : nat) : option (list Z) := request_list <$> devices s !! j.

Lemma queue_mod s (i j : nat) (f : device_t W → device_t W) : (∀ d, request_list (f d) = request_list d) →
  queue (s <| devices := alter f i (devices s) |>) j = queue s j.
Proof.
  intros Hf. unfold queue, modify. cbn. destruct (decide (i = j)) as [->|Hne].
  - rewrite list_lookup_alter_eq. destruct (devices s !! j); cbn; [by rewrite Hf|done].
  - by rewrite list_lookup_alter_ne.
Qed.

Lemma device_get_inv n s i s' : device_get n s = Ok (i, s') → s' = s ∧ is_Some (devices s !! i).
Proof.
  unfold device_get, st_bind, st_check, st_deref, st_ret. repeat case_match; intros; inv_ok; done.
Qed.

Lemma on_hw_inv {A} (m : ST W A) s a s' : on_hw m s = Ok (a, s') →
  devices s' = devices s ∧ requests s' = requests s.
Proof. unfold on_hw. destruct (m (hw s)) as [[]|]; intros; inv_ok; done. Qed.

(** The table and the requests, without the hardware. *)
Definition same_queues s s' : Prop := devices s' = devices s ∧ requests s' = requests s.

Lemma with_device_inv {A} n (k : device_t W → ST (devs W) A) s a s' :
  (∀ d s1, k d s1 = Ok (a, s') → same_queues s1 s') →
  (let* i := device_get n in let* d := the_device i in k d) s = Ok (a, s') → same_queues s s'.
Proof.
  intros Hk. unfold st_bind. destruct (device_get n s) as [[i s1]|] eqn:E; [|done].
  apply device_get_inv in E as [-> [d Hd]]. unfold the_device, st_deref. rewrite Hd. apply Hk.
Qed.

(** The drivers leave the table and the requests alone. *)
Ltac driver_call :=
  apply with_device_inv; intros d s1; case_match;
  [apply on_hw_inv|unfold st_ret; intros; inv_ok; done].

Lemma device_ioctl_inv n cmd args flags s r s' :
  device_ioctl n cmd args flags s = Ok (r, s') → same_queues s s'.
Proof. driver_call. Qed.
Lemma device_read_inv n buf count idx flags s r s' :
  device_read n buf count idx flags s = Ok (r, s') → same_queues s s'.
Proof. driver_call. Qed.
Lemma device_write_inv n buf count idx flags s r s' :
  device_write n buf count idx flags s = Ok (r, s') → same_queues s s'.
Proof. driver_call. Qed.

Lemma do_request_inv a s r s' : do_request a s = Ok (r, s') → same_queues s s'.
Proof.
  unfold do_request, st_bind, the_request, st_deref. destruct (requests s !! a); [|done].
  repeat case_match; [apply device_read_inv|apply device_write_inv|done].
Qed.

(** [request_start] inserts the request in the queue of the device or of its
    parent. *)
Lemma request_start_inv n buf count idx flags ty a me s j b s' :
  request_start n buf count idx flags ty a me s = Ok ((j, b), s') →
  ∃ xs r, queue s j = Some xs ∧ requests s' = <[a := r]> (requests s) ∧
    rtask r = (if bool_decide (xs = []) then None else Some me) ∧
    b = negb (bool_decide (xs = [])) ∧
    ∀ i, queue s' i = if bool_decide (i = j) then
      Some (Abs.insert_sort (request_key (requests s')) a xs) else queue s i.
Proof.
  unfold request_start. intros H. inv_ok.
  apply device_get_inv in E as [-> _]. unfold mod_device, st_mod, the_device, st_deref, st_get, st_ret in *.
  injection E0 as <- <-. destruct (devices _ !! n0) in E1; [|done]. injection E1 as -> <-.
  apply device_ioctl_inv in E2 as [Hd2 Hr2].
  assert (d4 = d3) as ->. { destruct (negb _); [by apply device_get_inv in E3 as [-> _]|by injection E3]. }
  clear E3. destruct (devices d3 !! n1) as [e|] eqn:He; [|done]. injection E4 as -> <-.
  injection E5 as <- <-. injection E6 as <- <-. injection E7 as <- <-. injection H as <- <- <-.
  assert (∀ i, queue d3 i = queue s i) as Hq.
  { intros i. unfold queue at 1. rewrite Hd2. by apply queue_mod. }
  exists (request_list d5), (mk_request (dev d5) ty (u32 (idx + z)) (u8 count) flags buf
    (if bool_decide (request_list d5 = []) then None else Some me)).
  unfold modify. cbn. rewrite Hr2. split; [rewrite <-Hq; unfold queue; by rewrite He|].
  split; [done|]. split; [done|]. split; [done|]. intros i. rewrite <-Hq. unfold queue. cbn.
  destruct (decide (i = n1)) as [->|Hi].
  - by rewrite (bool_decide_eq_true_2 (n1 = n1)), list_lookup_alter_eq, He by done.
  - by rewrite (bool_decide_eq_false_2 (i = n1)), list_lookup_alter_ne by done.
Qed.

(** The neighbours in a queue. *)
Lemma node_next_app l a r : a ∉ l → node_next (l ++ a :: r) a = head r.
Proof.
  induction l as [|x l IH]; cbn; [by rewrite Z.eqb_refl|]. intros [Hx Hl]%not_elem_of_cons.
  rewrite (proj2 (Z.eqb_neq x a)) by auto. by apply IH.
Qed.

Lemma node_prev_app l a r : a ∉ r → node_prev (l ++ a :: r) a = last l.
Proof.
  intros Hr. unfold node_prev. rewrite reverse_app, reverse_cons, <-app_assoc. cbn.
  rewrite node_next_app by (by rewrite elem_of_reverse). by rewrite head_reverse.
Qed.

Lemma remove_mid l a r : NoDup (l ++ a :: r) → Abs.remove a (l ++ a :: r) = l ++ r.
Proof.
  intros (Hl & Hr & _)%Dlist.NoDup_mid. unfold Abs.remove.
  rewrite filter_app, filter_cons_False by auto.
  f_equal; apply filter_all; by intros x Hx ->.
Qed.

(** The direction after serving a request between [l] and [r], and the next one. *)
Definition turn (dir : direct_t) (l r : list Z) : direct_t :=
  match dir with
  | DIRECT_UP => if bool_decide (r = []) then DIRECT_DOWN else DIRECT_UP
  | DIRECT_DOWN => if bool_decide (l = []) then DIRECT_UP else DIRECT_DOWN
  end.
Definition neighbour (dir : direct_t) (l r : list Z) : option Z :=
  match dir with DIRECT_UP => head r | DIRECT_DOWN => last l end.

Lemma request_finish_eq s j d l a r : devices s !! j = Some d → request_list d = l ++ a :: r →
  NoDup (l ++ a :: r) →
  let dir := turn (direct d) l r in
  let s' := s <| devices $= alter (λ d, d <| direct := dir |> <| request_list := l ++ r |>) j |>
              <| requests $= delete a |> in
  request_finish j a s =
    match neighbour dir l r with
    | None => Ok (None, s')
    | Some b =>
        match requests s' !! b with
        | None => Stop Fault
        | Some q => match rtask q with Some p => Ok (Some (b, p), s') | None => Stop Fault end
        end
    end.
Proof.
  intros Hd Hq Hnd dir s'. pose proof (proj1 (Dlist.NoDup_mid l r a) Hnd) as (Hl & Hr & _).
  unfold request_finish, request_nextreq, the_device, st_deref, st_bind. rewrite Hd, Hq.
  rewrite node_next_app, node_prev_app by done. unfold mod_device, st_mod, st_ret.
  set (dir' := match direct d with DIRECT_UP => _ | DIRECT_DOWN => _ end).
  assert (dir' = dir) as ->.
  { unfold dir', dir, turn. destruct (direct d).
    - destruct r; [by rewrite !bool_decide_eq_true_2|by rewrite !bool_decide_eq_false_2].
    - destruct l as [|x l _] using rev_ind; [by rewrite !bool_decide_eq_true_2|].
      rewrite last_snoc, !bool_decide_eq_false_2; [done| |done]. by destruct l. }
  set (s1 := s <| devices $= _ |>). set (d1 := d <| direct := dir |>).
  assert (devices s1 !! j = Some d1) as Hd1.
  { unfold s1, modify. cbn. by rewrite list_lookup_alter_eq, Hd. }
  rewrite Hd1. change (request_list d1) with (request_list d). rewrite Hq.
  unfold st_check, Abs.mem. rewrite bool_decide_eq_true_2 by set_solver.
  assert (s1 <| devices $= alter (λ d, d <| request_list $= Abs.remove a |>) j |> <| requests $= delete a |>
    = s') as ->.
  { unfold s', s1, modify. cbn -[Abs.remove]. f_equal. apply list_eq. intros i.
    destruct (decide (j = i)) as [->|Hne].
    - rewrite !list_lookup_alter_eq, Hd. cbn -[Abs.remove]. by rewrite Hq, remove_mid.
    - by rewrite !list_lookup_alter_ne. }
  unfold neighbour, the_request, st_deref. destruct dir;
    [destruct (head r) as [b|]|destruct (last l) as [b|]]; try done;
    destruct (requests s' !! b) as [q|]; try done; by destruct (rtask q).
Qed.

Lemma request_finish_inv s j a xs : queue s j = Some xs → NoDup xs → a ∈ xs →
  (∀ b, b ∈ xs → b ≠ a → ∃ q p, requests s !! b = Some q ∧ rtask q = Some p) →
  ∃ w s', request_finish j a s = Ok (w, s') ∧ requests s' = delete a (requests s) ∧
    (∀ i, queue s' i = if bool_decide (i = j) then Some (Abs.remove a xs) else queue s i) ∧
    match w with
    | None => xs = [a]
    | Some (b, p) => b ∈ xs ∧ b ≠ a ∧ ∃ q, requests s !! b = Some q ∧ rtask q = Some p
    end.
Proof.
  intros Hq Hnd Ha Hb. unfold queue in Hq. destruct (devices s !! j) as [d|] eqn:Hd; [|done].
  injection Hq as Hx. destruct (list_elem_of_split _ _ Ha) as (l & r & ->).
  pose proof (request_finish_eq s j d l a r Hd Hx Hnd) as E. cbv zeta in E.
  set (dir := turn (direct d) l r) in *. set (s' := s <| devices $= _ |> <| requests $= _ |>) in *.
  assert (∀ i, queue s' i = if bool_decide (i = j) then Some (Abs.remove a (l ++ a :: r)) else queue s i) as Hq'.
  { intros i. unfold queue, s', modify. cbn -[Abs.remove]. destruct (decide (i = j)) as [->|Hne].
    - by rewrite bool_decide_eq_true_2, list_lookup_alter_eq, Hd, remove_mid.
    - by rewrite bool_decide_eq_false_2, list_lookup_alter_ne. }
  destruct (neighbour dir l r) as [b|] eqn:En.
  - assert (b ∈ l ++ r) as Hbin.
    { unfold neighbour in En. apply elem_of_app. destruct dir.
      - right. destruct r; [done|]. injection En as <-. left.
      - left. by apply last_Some_elem_of in En. }
    apply Dlist.NoDup_mid in Hnd as (Hl & Hr & _).
    assert (b ≠ a) as Hne by (intros ->; apply elem_of_app in Hbin as [|]; done).
    assert (b ∈ l ++ a :: r) as Hbin' by (rewrite elem_of_app, elem_of_cons; apply elem_of_app in Hbin; tauto).
    destruct (Hb b Hbin' Hne) as (q & p & Hq & Hp).
    change (requests s') with (delete a (requests s)) in E. rewrite lookup_delete_ne, Hq, Hp in E by done.
    exists (Some (b, p)), s'. split; [exact E|]. split; [done|]. split; [done|]. split; [done|]. split; [done|].
    by exists q.
  - exists None, s'. split; [exact E|]. split; [done|]. split; [done|].
    unfold neighbour, dir, turn in En. destruct (direct d); case_bool_decide as Hc; subst; cbn in *.
    + by apply last_None in En as ->.
    + by destruct r.
    + by destruct r.
    + by apply last_None in En.
Qed.
End effects.

(** ** Processes at the devices *)
Inductive phase := Waiting | Serving | Served (ret : Z).

(** A process in [device_request]: its request, the device of the queue and how
    far it is; [Waiting] in [task_block], [Serving] up to the driver's return. *)
Record proc := mk_proc { preq : Z; pdev : nat; pph : phase }.

Section system.
Context {W : Type}.
Implicit Types s : devs W.

Record system := mk_system { table : devs W; procs : gmap Z proc }.

Definition wake (w : option (Z * Z)) (ps : gmap Z proc) : gmap Z proc :=
  match w with
  | Some (_, p) => alter (λ x, mk_proc (preq x) (pdev x) Serving) p ps
  | None => ps
  end.

Inductive dev_step : system → system → Prop :=
| step_request s ps me a n buf count idx flags ty j b s' :
    ps !! me = None → requests s !! a = None →
    request_start n buf count idx flags ty a me s = Ok ((j, b), s') →
    dev_step (mk_system s ps)
      (mk_system s' (<[me := mk_proc a j (if b : bool then Waiting else Serving)]> ps))
| step_serve s ps me a j r s' : ps !! me = Some (mk_proc a j Serving) →
    do_request a s = Ok (r, s') →
    dev_step (mk_system s ps) (mk_system s' (<[me := mk_proc a j (Served r)]> ps))
| step_finish s ps me a j r w s' : ps !! me = Some (mk_proc a j (Served r)) →
    request_finish j a s = Ok (w, s') →
    dev_step (mk_system s ps) (mk_system s' (wake w (delete me ps))).

(** No request is queued and no process is in [device_request]. *)
Definition idle (st : system) : Prop :=
  procs st = ∅ ∧ ∀ j xs, queue (table st) j = Some xs → xs = [].

Record q_inv (st : system) : Prop := {
  qi_list : ∀ j xs, queue (table st) j = Some xs → NoDup xs ∧
    Dlist.sorted_by (request_key (requests (table st))) xs ∧
    ∀ a, a ∈ xs → ∃ p ph, procs st !! p = Some (mk_proc a j ph);
  qi_proc : ∀ p a j ph, procs st !! p = Some (mk_proc a j ph) →
    (∃ xs, queue (table st) j = Some xs ∧ a ∈ xs) ∧
    ∃ r, requests (table st) !! a = Some r ∧ (ph = Waiting → rtask r = Some p);
  qi_inj : ∀ p p' a j j' ph ph', procs st !! p = Some (mk_proc a j ph) →
    procs st !! p' = Some (mk_proc a j' ph') → p = p';
  qi_busy : ∀ j xs, queue (table st) j = Some xs → xs ≠ [] →
    ∃ p a ph, procs st !! p = Some (mk_proc a j ph) ∧ ph ≠ Waiting;
  qi_one : ∀ p p' a a' j ph ph', procs st !! p = Some (mk_proc a j ph) →
    procs st !! p' = Some (mk_proc a' j ph') → ph ≠ Waiting → ph' ≠ Waiting → p = p' }.

Lemma idle_inv st : idle st → q_inv st.
Proof.
  intros [Hp Hq]. split; rewrite ?Hp; try (intros *; by rewrite lookup_empty).
  - intros j xs ->%Hq. split; [apply NoDup_nil_2|]. split; [by intros i k x y _|].
    by intros a ?%elem_of_nil.
  - by intros j xs ->%Hq.
Qed.

Lemma serve_inv s s' ps me a j r : q_inv (mk_system s ps) → same_queues s s' →
  ps !! me = Some (mk_proc a j Serving) → q_inv (mk_system s' (<[me := mk_proc a j (Served r)]> ps)).
Proof.
  intros Hinv [Hd Hr] Hme.
  assert (∀ j, queue s' j = queue s j) as Hq by (intros i; unfold queue; by rewrite Hd).
  (* the processes differ in the phase of [me] only *)
  assert (∀ p b i ph, <[me := mk_proc a j (Served r)]> ps !! p = Some (mk_proc b i ph) →
    ∃ ph', ps !! p = Some (mk_proc b i ph') ∧ (ph' = Waiting ↔ ph = Waiting)) as Hback.
  { intros p b i ph [[<- [= <- <- <-]]|[Hne Hp]]%lookup_insert_Some; [by exists Serving|by exists ph]. }
  assert (∀ p b i ph, ps !! p = Some (mk_proc b i ph) →
    ∃ ph', <[me := mk_proc a j (Served r)]> ps !! p = Some (mk_proc b i ph') ∧ (ph' = Waiting ↔ ph = Waiting)) as Hfwd.
  { intros p b i ph Hp. destruct (decide (p = me)) as [->|Hne].
    - rewrite Hme in Hp. injection Hp as <- <- <-. exists (Served r). by rewrite lookup_insert_eq.
    - exists ph. by rewrite lookup_insert_ne. }
  split; cbn [table procs].
  - intros i xs. rewrite Hq, Hr. intros Hi. destruct (qi_list _ Hinv i xs Hi) as (H1 & H2 & H3).
    split; [done|]. split; [done|]. intros b (p & ph & Hp)%H3. apply Hfwd in Hp as (ph' & ? & _). eauto.
  - intros p b i ph Hp. rewrite Hq, Hr. apply Hback in Hp as (ph' & Hp & Hw).
    destruct (qi_proc _ Hinv p b i ph' Hp) as (H1 & q & H2 & H3). split; [done|]. exists q. split; [done|]. tauto.
  - intros p p' b i i' ph ph' (x & Hx & _)%Hback (y & Hy & _)%Hback. by eapply (qi_inj _ Hinv).
  - intros i xs. rewrite Hq. intros Hi Hne. destruct (qi_busy _ Hinv i xs Hi Hne) as (p & b & ph & Hp & Hw).
    apply Hfwd in Hp as (ph' & Hp & Hw'). exists p, b, ph'. tauto.
  - intros p p' b b' i ph ph' (x & Hx & Hw)%Hback (y & Hy & Hw')%Hback. intros H1 H2.
    eapply (qi_one _ Hinv); [exact Hx|exact Hy|tauto|tauto].
Qed.

Lemma sorted_ext {A} (key key' : A → Z) xs : (∀ x, x ∈ xs → key x = key' x) →
  Dlist.sorted_by key xs → Dlist.sorted_by key' xs.
Proof.
  intros Hk Hs i j x y Hij Hx Hy. rewrite <-!Hk by (by eapply list_elem_of_lookup_2). by apply (Hs i j).
Qed.

Lemma sorted_remove (key : Z → Z) a xs : Dlist.sorted_by key xs → Dlist.sorted_by key (Abs.remove a xs).
Proof.
  unfold Abs.remove. induction xs as [|x xs IH]; [done|]. intros [Hx Hs]%Dlist.sorted_by_cons.
  rewrite filter_cons. case_decide; [|by apply IH]. apply Dlist.sorted_by_cons. split; [|by apply IH].
  intros y [_ Hy]%list_elem_of_filter. by apply Hx.
Qed.

(** A request that is not allocated is in no queue. *)
Lemma fresh_request s ps a : q_inv (mk_system s ps) → requests s !! a = None →
  (∀ j xs, queue s j = Some xs → a ∉ xs) ∧ ∀ p j ph, ps !! p ≠ Some (mk_proc a j ph).
Proof.
  intros Hinv Ha. assert (∀ p j ph, ps !! p ≠ Some (mk_proc a j ph)) as Hp.
  { intros p j ph Hp. destruct (qi_proc _ Hinv p a j ph Hp) as (_ & r & Hr & _). cbn in Hr. congruence. }
  split; [|done]. intros j xs Hj Hin. destruct (qi_list _ Hinv j xs Hj) as (_ & _ & H3).
  destruct (H3 a Hin) as (p & ph & Hpp). by apply Hp in Hpp.
Qed.

Lemma request_inv s ps me a n buf count idx flags ty j b s' : q_inv (mk_system s ps) →
  ps !! me = None → requests s !! a = None →
  request_start n buf count idx flags ty a me s = Ok ((j, b), s') →
  q_inv (mk_system s' (<[me := mk_proc a j (if b then Waiting else Serving)]> ps)).
Proof.
  intros Hinv Hme Ha Hrun. destruct (fresh_request s ps a Hinv Ha) as [Hfq Hfp].
  apply request_start_inv in Hrun as (xs & r & Hj & Hr & Htask & -> & Hq).
  set (ph0 := if negb (bool_decide (xs = [])) then Waiting else Serving).
  destruct (qi_list _ Hinv j xs Hj) as (Hnd & Hsort & Hin). cbn [table procs] in *.
  pose proof (Hfq j xs Hj) as Hax.
  assert (∀ ys, a ∉ ys → Dlist.sorted_by (request_key (requests s)) ys →
    Dlist.sorted_by (request_key (requests s')) ys) as Hsk.
  { intros ys Hy. apply sorted_ext. intros x Hx. unfold request_key. rewrite Hr, lookup_insert_ne; [done|].
    intros <-. done. }
  split; cbn [table procs].
  - intros i ys. rewrite Hq. destruct (decide (i = j)) as [->|Hi];
      [rewrite bool_decide_eq_true_2 by done; intros [= <-]|rewrite bool_decide_eq_false_2 by done; intros Hys].
    + split; [|split].
      * rewrite Dlist.insert_sort_perm. by apply NoDup_cons.
      * by apply Dlist.insert_sort_sorted, Hsk.
      * intros x. rewrite Dlist.insert_sort_perm. intros [->|Hx]%elem_of_cons.
        -- exists me, ph0. by rewrite lookup_insert_eq.
        -- destruct (Hin x Hx) as (p & ph & Hp). exists p, ph. rewrite lookup_insert_ne; [done|].
           intros <-. congruence.
    + destruct (qi_list _ Hinv i ys Hys) as (H1 & H2 & H3). split; [done|].
      split; [apply Hsk; [by apply (Hfq i)|done]|]. intros x (p & ph & Hp)%H3. exists p, ph.
      rewrite lookup_insert_ne; [done|]. intros <-. cbn in Hp. congruence.
  - intros p c i ph [[<- [= <- <- <-]]|[Hne Hp]]%lookup_insert_Some.
    + split; [eexists; split; [by rewrite Hq, bool_decide_eq_true_2|rewrite Dlist.insert_sort_perm; left]|].
      exists r. rewrite Hr, lookup_insert_eq. split; [done|]. rewrite Htask. unfold ph0.
      case_bool_decide; [done|]. by intros _.
    + destruct (qi_proc _ Hinv p c i ph Hp) as ((ys & Hys & Hc) & q & Hcq & Hw). cbn [table] in *. split.
      * destruct (decide (i = j)) as [->|Hi]; [|exists ys; by rewrite Hq, bool_decide_eq_false_2].
        eexists. rewrite Hq, bool_decide_eq_true_2 by done. split; [done|].
        rewrite Dlist.insert_sort_perm. right. congruence.
      * exists q. rewrite Hr, lookup_insert_ne; [done|]. intros <-. by apply Hfp in Hp.
  - intros p p' c i i' ph ph' [[<- [= <- <- <-]]|[Hne Hp]]%lookup_insert_Some
      [[<- [= <- <-]]|[Hne' Hp']]%lookup_insert_Some; [done| | |].
    + by apply Hfp in Hp'.
    + by apply Hfp in Hp.
    + by eapply (qi_inj _ Hinv).
  - intros i ys. rewrite Hq. destruct (decide (i = j)) as [->|Hi];
      [rewrite bool_decide_eq_true_2 by done; intros _ _|rewrite bool_decide_eq_false_2 by done; intros Hys Hne].
    + destruct (decide (xs = [])) as [He|He].
      * exists me, a, ph0. rewrite lookup_insert_eq. split; [done|]. unfold ph0.
        by rewrite bool_decide_eq_true_2.
      * destruct (qi_busy _ Hinv j xs Hj He) as (p & c & ph & Hp & Hw). exists p, c, ph.
        split; [|done]. rewrite lookup_insert_ne; [done|]. intros <-. cbn in Hp. congruence.
    + destruct (qi_busy _ Hinv i ys Hys Hne) as (p & c & ph & Hp & Hw). exists p, c, ph.
      split; [|done]. rewrite lookup_insert_ne; [done|]. intros <-. cbn in Hp. congruence.
  - assert (∀ p c ph, ps !! p = Some (mk_proc c j ph) → ph0 = Waiting) as Hbusy.
    { intros p c ph Hp. destruct (qi_proc _ Hinv p c j ph Hp) as ((ys & Hys & Hc) & _). cbn in Hys.
      unfold ph0. rewrite bool_decide_eq_false_2; [done|]. intros ->. rewrite Hj in Hys.
      injection Hys as <-. by apply elem_of_nil in Hc. }
    intros p p' c c' i ph ph' [[<- Hp]|[Hne Hp]]%lookup_insert_Some
      [[<- Hp']|[Hne' Hp']]%lookup_insert_Some Hw Hw'; [done| | |].
    + injection Hp as <- <- <-. by apply Hbusy in Hp'.
    + injection Hp' as <- <- <-. by apply Hbusy in Hp.
    + by eapply (qi_one _ Hinv).
Qed.

(** [request_finish] of a request that was served returns; the next request is of
    a waiting process, which it names. *)
Lemma finish_ok s ps me a j ph : q_inv (mk_system s ps) → ps !! me = Some (mk_proc a j ph) →
  ph ≠ Waiting → ∃ xs w s', queue s j = Some xs ∧ request_finish j a s = Ok (w, s') ∧
    requests s' = delete a (requests s) ∧
    (∀ i, queue s' i = if bool_decide (i = j) then Some (Abs.remove a xs) else queue s i) ∧
    match w with
    | None => xs = [a]
    | Some (b, p) => b ≠ a ∧ ps !! p = Some (mk_proc b j Waiting)
    end.
Proof.
  intros Hinv Hme Hw. destruct (qi_proc _ Hinv me a j ph Hme) as ((xs & Hj & Ha) & _). cbn in Hj.
  destruct (qi_list _ Hinv j xs Hj) as (Hnd & _ & Hin).
  assert (∀ b, b ∈ xs → b ≠ a → ∃ q p, requests s !! b = Some q ∧ rtask q = Some p ∧
    ps !! p = Some (mk_proc b j Waiting)) as Hnext.
  { intros b Hb Hne. destruct (Hin b Hb) as (p & ph' & Hp). cbn in Hp.
    destruct (qi_proc _ Hinv p b j ph' Hp) as (_ & q & Hq & Ht). exists q, p.
    assert (ph' = Waiting) as ->.
    { destruct ph'; [done|exfalso|exfalso]; apply Hne;
        assert (p = me) as -> by (by eapply (qi_one _ Hinv)); cbn in Hme; congruence. }
    split; [done|]. split; [by apply Ht|done]. }
  destruct (request_finish_inv s j a xs Hj Hnd Ha) as (w & s' & Hrun & Hr & Hq & Hw').
  { intros b Hb Hne. destruct (Hnext b Hb Hne) as (q & p & ? & ? & _). by exists q, p. }
  exists xs, w, s'. split; [done|]. split; [done|]. split; [done|]. split; [done|].
  destruct w as [[b p]|]; [|done]. destruct Hw' as (Hb & Hne & q & Hqb & Hqp).
  destruct (Hnext b Hb Hne) as (q' & p' & Hq' & Hp' & Hps). split; [done|]. congruence.
Qed.

Lemma wake_lookup w ps p x : wake w ps !! p = Some x ↔
  ∃ y, ps !! p = Some y ∧ x = match w with
    | Some (_, p') => if bool_decide (p = p') then mk_proc (preq y) (pdev y) Serving else y
    | None => y
    end.
Proof.
  destruct w as [[b p']|]; cbn [wake]; [|naive_solver].
  case_bool_decide as Hp; [subst; rewrite lookup_alter_eq|rewrite lookup_alter_ne by done; naive_solver].
  rewrite fmap_Some. done.
Qed.

(** The other processes stay where they are; a woken one was waiting. *)
Lemma finish_procs s ps me a j xs w : q_inv (mk_system s ps) → queue s j = Some xs →
  match w with
  | None => xs = [a]
  | Some (b, p) => b ≠ a ∧ ps !! p = Some (mk_proc b j Waiting)
  end →
  (∀ p c i ph, wake w (delete me ps) !! p = Some (mk_proc c i ph) → p ≠ me ∧
     ∃ ph', ps !! p = Some (mk_proc c i ph') ∧
       (ph = ph' ∨ ph = Serving ∧ i = j ∧ ∃ b, w = Some (b, p))) ∧
  (∀ p c i ph, ps !! p = Some (mk_proc c i ph) → p ≠ me →
     ∃ ph', wake w (delete me ps) !! p = Some (mk_proc c i ph') ∧ (ph' = Waiting → ph = Waiting)).
Proof.
  intros Hinv Hj Hw. split.
  - intros p c i ph ([pc pi pp] & Hy & E)%wake_lookup. apply lookup_delete_Some in Hy as [Hne Hy].
    split; [done|]. destruct w as [[b p']|]; [|injection E as -> -> ->; by exists pp; auto].
    destruct Hw as [Hb Hp']. case_bool_decide as Hpp; [subst p'|injection E as -> -> ->; by exists pp; auto].
    assert (mk_proc pc pi pp = mk_proc b j Waiting) as [= -> -> ->] by congruence.
    injection E as -> -> ->. exists Waiting. split; [done|]. right. split; [done|]. split; [done|]. by exists b.
  - intros p c i ph Hp Hne. setoid_rewrite wake_lookup. destruct w as [[b p']|].
    + destruct (decide (p = p')) as [->|Hpp].
      * exists Serving. split; [|done]. exists (mk_proc c i ph). rewrite lookup_delete_ne by done.
        by rewrite bool_decide_eq_true_2.
      * exists ph. split; [|done]. exists (mk_proc c i ph). rewrite lookup_delete_ne by done.
        by rewrite bool_decide_eq_false_2.
    + exists ph. split; [|done]. exists (mk_proc c i ph). by rewrite lookup_delete_ne.
Qed.

Lemma finish_inv s ps me a j r w s' : q_inv (mk_system s ps) →
  ps !! me = Some (mk_proc a j (Served r)) → request_finish j a s = Ok (w, s') →
  q_inv (mk_system s' (wake w (delete me ps))).
Proof.
  intros Hinv Hme Hrun.
  destruct (finish_ok s ps me a j (Served r) Hinv Hme) as (xs & w' & s'' & Hj & Hrun' & Hr & Hq & Hw); [done|].
  rewrite Hrun in Hrun'. injection Hrun' as <- <-.
  destruct (finish_procs s ps me a j xs w Hinv Hj Hw) as [Hback Hfwd].
  destruct (qi_list _ Hinv j xs Hj) as (Hnd & Hsort & Hin). cbn [table procs] in *.
  assert (∀ p c i ph, ps !! p = Some (mk_proc c i ph) → p ≠ me → c ≠ a) as Hca.
  { intros p c i ph Hp Hne ->. by destruct Hne; eapply (qi_inj _ Hinv). }
  assert (∀ ys, a ∉ ys → Dlist.sorted_by (request_key (requests s)) ys →
    Dlist.sorted_by (request_key (requests s')) ys) as Hsk.
  { intros ys Hy. apply sorted_ext. intros x Hx. unfold request_key. rewrite Hr, lookup_delete_ne; [done|].
    intros <-. done. }
  assert (∀ p c i ph, ps !! p = Some (mk_proc c i ph) → p ≠ me → ∃ ys, queue s' i = Some ys ∧ c ∈ ys) as Hmem.
  { intros p c i ph Hp Hne. destruct (qi_proc _ Hinv p c i ph Hp) as ((ys & Hys & Hc) & _). cbn in Hys.
    rewrite Hq. case_bool_decide as Hi; [subst i|by exists ys]. rewrite Hj in Hys. injection Hys as <-.
    eexists. split; [done|]. apply list_elem_of_filter. split; [by eapply Hca|done]. }
  assert (a ∉ Abs.remove a xs) as Har by (by intros [? _]%list_elem_of_filter).
  split; cbn [table procs].
  - intros i ys. rewrite Hq. case_bool_decide as Hi; [subst i; intros [= <-]|intros Hys].
    + split; [by apply NoDup_filter|]. split; [by apply Hsk, sorted_remove|].
      intros x [Hxa Hx]%list_elem_of_filter. destruct (Hin x Hx) as (p & ph & Hp).
      destruct (Hfwd p x j ph Hp) as (ph' & Hp' & _); [intros ->; congruence|]. by exists p, ph'.
    + destruct (qi_list _ Hinv i ys Hys) as (H1 & H2 & H3). cbn in *.
      assert (∀ x p ph, x ∈ ys → ps !! p = Some (mk_proc x i ph) → p ≠ me) as Hnm
        by (intros x p ph _ Hp ->; congruence).
      split; [done|]. split.
      * apply Hsk; [|done]. intros Ha. destruct (H3 a Ha) as (p & ph & Hp).
        apply (Hnm a p ph Ha Hp). by eapply (qi_inj _ Hinv).
      * intros x Hx. destruct (H3 x Hx) as (p & ph & Hp).
        destruct (Hfwd p x i ph Hp (Hnm x p ph Hx Hp)) as (ph' & Hp' & _). by exists p, ph'.
  - intros p c i ph (Hne & ph' & Hp & Hph)%Hback. split; [by apply (Hmem p c i ph')|].
    destruct (qi_proc _ Hinv p c i ph' Hp) as (_ & q & Hcq & Ht). exists q. cbn in *.
    rewrite Hr, lookup_delete_ne by (intros ->; by eapply Hca). split; [done|].
    destruct Hph as [->|[-> _]]; done.
  - intros p p' c i i' ph ph' (_ & x & Hx & _)%Hback (_ & y & Hy & _)%Hback. by eapply (qi_inj _ Hinv).
  - intros i ys. rewrite Hq. case_bool_decide as Hi; [subst i; intros [= <-] Hne|intros Hys Hne].
    + destruct w as [[b p]|].
      * destruct Hw as [Hb Hp]. exists p, b, Serving. split; [|done]. apply wake_lookup.
        exists (mk_proc b j Waiting). rewrite lookup_delete_ne by (intros <-; congruence).
        by rewrite bool_decide_eq_true_2.
      * subst xs. destruct Hne. unfold Abs.remove. by rewrite filter_cons_False by auto.
    + destruct (qi_busy _ Hinv i ys Hys Hne) as (p & c & ph & Hp & Hnw). cbn in Hp.
      destruct (Hfwd p c i ph Hp) as (ph' & Hp' & Hw'); [intros ->; congruence|].
      exists p, c, ph'. split; [done|]. intros Hx. by apply Hnw, Hw'.
  - (* only the woken process is busy at [j]: the others were waiting *)
    assert (∀ p c i ph, wake w (delete me ps) !! p = Some (mk_proc c i ph) → ph ≠ Waiting →
      i = j ∧ (∃ b, w = Some (b, p)) ∨ i ≠ j ∧ ∃ ph', ps !! p = Some (mk_proc c i ph') ∧ ph' ≠ Waiting) as Hb.
    { intros p c i ph (Hne & ph' & Hp & [->|(-> & -> & Hwp)])%Hback Hnw; [|by left].
      destruct (decide (i = j)) as [->|Hi]; [|by right; split; [|exists ph']].
      destruct Hne. by eapply (qi_one _ Hinv). }
    intros p p' c c' i ph ph' Hp Hp' Hw1 Hw2.
    destruct (Hb p c i ph Hp Hw1) as [[-> [b E]]|[Hi (x & Hx & Hx')]],
      (Hb p' c' _ ph' Hp' Hw2) as [[? [b' E']]|[Hi' (y & Hy & Hy')]]; try done; [congruence|].
    by eapply (qi_one _ Hinv).
Qed.

Lemma q_inv_step st st' : q_inv st → dev_step st st' → q_inv st'.
Proof.
  intros Hinv Hst. destruct Hst as [s ps me a n buf count idx flags ty j b s' Hme Ha Hrun|
    s ps me a j r s' Hme Hrun|s ps me a j r w s' Hme Hrun].
  - by eapply request_inv.
  - eapply serve_inv; [done| |done]. by eapply do_request_inv.
  - by eapply finish_inv.
Qed.

(** ** The scan *)

(** The requests served from [a] on when no new one arrives. *)
Fixpoint sweep (n : nat) (j : nat) (a : Z) : ST (devs W) (list Z) :=
  match n with
  | O => st_stop Fuel
  | S n =>
      let* w := request_finish j a in
      match w with
      | None => st_ret [a]
      | Some (b, _) => let* bs := sweep n j b in st_ret (a :: bs)
      end
  end.

Definition scan_order (dir : direct_t) (l : list Z) (a : Z) (r : list Z) : list Z :=
  match dir with
  | DIRECT_UP => a :: r ++ reverse l
  | DIRECT_DOWN => a :: reverse l ++ r
  end.

Lemma scan_order_next dir l a r :
  match neighbour (turn dir l r) l r with
  | None => l = [] ∧ r = [] ∧ scan_order dir l a r = [a]
  | Some b => ∃ l' r', l ++ r = l' ++ b :: r' ∧
      scan_order dir l a r = a :: scan_order (turn dir l r) l' b r'
  end.
Proof.
  unfold neighbour, turn. destruct dir.
  - destruct r as [|b r].
    + rewrite bool_decide_eq_true_2 by done. destruct l as [|b l _] using rev_ind; [done|].
      rewrite last_snoc. exists l, []. cbn. by rewrite app_nil_r, reverse_snoc, app_nil_r.
    + rewrite bool_decide_eq_false_2 by done. cbn. by exists l, r.
  - destruct l as [|b l _] using rev_ind.
    + rewrite bool_decide_eq_true_2 by done. destruct r as [|b r]; [done|]. cbn. exists [], r.
      by rewrite app_nil_r.
    + rewrite bool_decide_eq_false_2 by (by destruct l). rewrite last_snoc. exists l, r.
      rewrite <-app_assoc. cbn. by rewrite reverse_snoc.
Qed.

Lemma sweep_ok n : ∀ s j d l a r, devices s !! j = Some d → request_list d = l ++ a :: r →
  NoDup (l ++ a :: r) → (length (l ++ r) < n)%nat →
  (∀ b, b ∈ l ++ r → ∃ q p, requests s !! b = Some q ∧ rtask q = Some p) →
  ∃ s', sweep n j a s = Ok (scan_order (direct d) l a r, s') ∧ queue s' j = Some [].
Proof.
  induction n as [|n IH]; intros s j d l a r Hd Hx Hnd Hn Hreq; [lia|]. cbn [sweep]. unfold st_bind.
  pose proof (request_finish_eq s j d l a r Hd Hx Hnd) as E. cbv zeta in E.
  pose proof (scan_order_next (direct d) l a r) as Ho. set (dir := turn (direct d) l r) in *.
  set (s1 := s <| devices $= _ |> <| requests $= _ |>) in *.
  assert (devices s1 !! j = Some (d <| direct := dir |> <| request_list := l ++ r |>)) as Hd1.
  { unfold s1, modify. cbn. by rewrite list_lookup_alter_eq, Hd. }
  destruct (neighbour dir l r) as [b|].
  - destruct Ho as (l' & r' & Hlr & ->). pose proof (proj1 (Dlist.NoDup_mid l r a) Hnd) as (Hl & Hr & Hnd').
    assert (b ∈ l ++ r) as Hb by (rewrite Hlr; set_solver).
    assert (∀ c, c ∈ l ++ r → requests s1 !! c = requests s !! c) as Hsame.
    { intros c Hc. apply lookup_delete_ne. intros <-. apply elem_of_app in Hc as [|]; done. }
    destruct (Hreq b Hb) as (q & p & Hq & Hp). rewrite Hsame, Hq, Hp in E by done. rewrite E.
    destruct (IH s1 j _ l' b r' Hd1) as (s' & Hs & Hs'); [exact Hlr|by rewrite <-Hlr| | |].
    + rewrite Hlr in Hn. rewrite !length_app in *. cbn in Hn. lia.
    + intros c Hc. assert (c ∈ l ++ r) as Hc' by (rewrite Hlr; set_solver). rewrite Hsame by done. by apply Hreq.
    + rewrite Hs. by exists s'.
  - destruct Ho as (-> & -> & ->). rewrite E. exists s1. split; [done|]. unfold queue. by rewrite Hd1.
Qed.

Context (st0 st : system) (Hidle : idle st0) (Hreach : steps dev_step st0 st).

Lemma reach_inv : q_inv st.
Proof using Hidle Hreach.
  eapply (steps_invariant _ q_inv); [exact q_inv_step|by apply idle_inv|exact Hreach].
Qed.

(** C10: in every state that processes reach with block requests, one process at
    most is past [task_block] at a device; a process waits only while there is
    one; the assertions of [request_finish] hold when that one comes back from
    the driver, and the process it wakes is a waiting one of the same device
    (none exactly when it was alone). *)
Theorem requests_exclusive :
  (∀ p p' a a' j ph ph', procs st !! p = Some (mk_proc a j ph) →
     procs st !! p' = Some (mk_proc a' j ph') → ph ≠ Waiting → ph' ≠ Waiting → p = p') ∧
  (∀ p a j, procs st !! p = Some (mk_proc a j Waiting) →
     ∃ p' a' ph', procs st !! p' = Some (mk_proc a' j ph') ∧ ph' ≠ Waiting) ∧
  ∀ p a j r, procs st !! p = Some (mk_proc a j (Served r)) →
    ∃ w s', request_finish j a (table st) = Ok (w, s') ∧
      match w with
      | None => queue (table st) j = Some [a]
      | Some (b, p') => procs st !! p' = Some (mk_proc b j Waiting)
      end.
Proof using All.
  pose proof reach_inv as Hinv. split; [apply Hinv|]. split.
  - intros p a j Hp. destruct (qi_proc _ Hinv p a j Waiting Hp) as ((xs & Hj & Ha) & _).
    apply (qi_busy _ Hinv j xs Hj). intros ->. by apply elem_of_nil in Ha.
  - intros p a j r Hp. destruct st as [s ps].
    destruct (finish_ok s ps p a j (Served r) Hinv Hp) as (xs & w & s' & Hj & Hrun & _ & _ & Hw); [done|].
    exists w, s'. split; [done|]. cbn. destruct w as [[b p']|]; [by destruct Hw|by rewrite Hj, Hw].
Qed.

(** C7: the queue is an elevator: in every reachable state the requests of a
    device are in the order of their sectors (as signed 32-bit numbers), and when
    no new ones arrive the one being served, [a], is followed by all the others,
    in the present direction up to the end of the queue and then back. *)
Theorem requests_all_served (p a : Z) (j : nat) (ph : phase)
    (Hp : procs st !! p = Some (mk_proc a j ph)) (Hph : ph ≠ Waiting) :
  ∃ d l r s', devices (table st) !! j = Some d ∧ request_list d = l ++ a :: r ∧
    Dlist.sorted_by (request_key (requests (table st))) (l ++ a :: r) ∧
    sweep (S (length (l ++ r))) j a (table st) = Ok (scan_order (direct d) l a r, s') ∧
    queue s' j = Some [].
Proof using Hidle Hreach.
  pose proof reach_inv as Hinv. destruct (qi_proc _ Hinv p a j ph Hp) as ((xs & Hj & Ha) & _).
  destruct (qi_list _ Hinv j xs Hj) as (Hnd & Hsort & Hin). unfold queue in Hj.
  destruct (devices (table st) !! j) as [d|] eqn:Hd; [|done]. injection Hj as Hx.
  destruct (list_elem_of_split _ _ Ha) as (l & r & ->).
  destruct (sweep_ok (S (length (l ++ r))) (table st) j d l a r Hd Hx Hnd) as (s' & Hs & Hs'); [lia| |].
  - intros b Hb. destruct (Hin b) as (p' & ph' & Hp'); [set_solver|].
    destruct (qi_proc _ Hinv p' b j ph' Hp') as (_ & q & Hq & Ht). exists q, p'. split; [done|]. apply Ht.
    destruct ph'; [done|exfalso|exfalso]; apply Dlist.NoDup_mid in Hnd as (Hl & Hr & _);
      assert (p' = p) as -> by (by eapply (qi_one _ Hinv)); rewrite Hp in Hp'; injection Hp' as <- _;
      apply elem_of_app in Hb as [|]; done.
  - by exists d, l, r, s'.
Qed.
End system.
Arguments system : clear implicits.

(** ** A disk with three requests *)
Definition demo_disk : device_t unit :=
  mk_device [104; 100; 97] DEV_BLOCK 6 1 0 0 [] DIRECT_UP
    (Some (λ _ _ _ _, st_ret 0)) (Some (λ _ _ _ _ _, st_ret 0)) None.
Definition demo_idle : system unit := mk_system (mk_devs [null_device 0; demo_disk] ∅ tt) ∅.

(** Process [me] asks for sector [idx] with the request at [a]. *)
Definition demo_request (me a idx : Z) (st : system unit) : system unit :=
  match request_start 1 0 2 idx 0 REQ_READ a me (table st) with
  | Ok ((j, b), s') =>
      mk_system s' (<[me := mk_proc a j (if b : bool then Waiting else Serving)]> (procs st))
  | Stop _ => st
  end.

Lemma demo_request_step me a idx st : procs st !! me = None → requests (table st) !! a = None →
  is_Some (match request_start 1 0 2 idx 0 REQ_READ a me (table st) with Ok x => Some x | Stop _ => None end) →
  dev_step st (demo_request me a idx st).
Proof.
  intros Hp Ha [x Hx]. unfold demo_request. destruct st as [s ps]. cbn in *.
  destruct (request_start _ _ _ _ _ _ _ _ _) as [[[j b] s']|] eqn:E; [|done].
  by eapply step_request.
Qed.

Definition demo_busy : system unit :=
  demo_request 7 24 20 (demo_request 6 16 30 (demo_request 5 8 25 demo_idle)).

Lemma demo_idle_ok : idle demo_idle.
Proof. split; [done|]. by intros [|[|j]] xs; [intros [= <-]|intros [= <-]|]. Qed.

Lemma demo_busy_reach : steps dev_step demo_idle demo_busy.
Proof.
  eapply steps_cons; [|eapply steps_cons; [|apply steps_once]]; apply demo_request_step;
    vm_compute; (done || eauto).
Qed.

Lemma requests_exclusive_witness :
  (∀ p p' a a' j ph ph', procs demo_busy !! p = Some (mk_proc a j ph) →
     procs demo_busy !! p' = Some (mk_proc a' j ph') → ph ≠ Waiting → ph' ≠ Waiting → p = p') ∧
  procs demo_busy !! 6 = Some (mk_proc 16 1 Waiting).
Proof.
  split; [|by vm_compute]. exact (proj1 (requests_exclusive demo_idle demo_busy demo_idle_ok demo_busy_reach)).
Defined.

(** 25 is being served: 30 follows, then 20. *)
Lemma requests_all_served_witness : ∃ d l r s',
  devices (table demo_busy) !! 1%nat = Some d ∧ request_list d = l ++ 8 :: r ∧
  sweep (S (length (l ++ r))) 1 8 (table demo_busy) = Ok (scan_order (direct d) l 8 r, s') ∧
  queue s' 1 = Some [].
Proof.
  destruct (requests_all_served demo_idle demo_busy demo_idle_ok demo_busy_reach 5 8 1 Serving)
    as (d & l & r & s' & H1 & H2 & _ & H3 & H4); [by vm_compute|done|]. by exists d, l, r, s'.
Defined.

Example sweep_demo : ∃ s', sweep 3 1 8 (table demo_busy) = Ok ([8; 16; 24], s').
Proof. eexists. vm_compute. reflexivity. Qed.
