(* ===== verification/Buffer.v ===== *)
(** * The buffer cache ([src/src/kernel/buffer.c], [src/src/include/onix/buffer.h])

    Blocks of the block devices are cached in buffers of 1024, 2048 or 4096
    bytes, found through a hash table, reused in the order of their release and
    written back when they are released.  The device requests are used through
    the interface [BlockDev]; the functions are split where they block, and
    [bread] and [brelse] put the parts together for a call that does not. *)
From S2P Require Import Prelude.
From S2P Require Dlist.
Module Abs := Dlist.Abs.

Definition BUFFER_DESC_NR : Z := 3.
Definition HASH_COUNT : Z := 31.
Definition MAX_BUF_COUNT : Z := 4096.
Definition PAGE_SIZE : Z := 4096.

(** ** The interface of the block devices

    [bd_sector_size dev] is what [device_ioctl] returns for [DEV_CMD_SECTOR_SIZE];
    [bd_read dev n idx] is [device_request] with [REQ_READ], with the bytes it
    leaves in the buffer, and [bd_write] with [REQ_WRITE]; [bd_sectors h dev idx n]
    are the bytes of [n] sectors. *)
Class BlockDev (H : Type) := {
  bd_sector_size : Z → Z;
  bd_read : Z → Z → Z → ST H (Z * list Z);
  bd_write : Z → Z → Z → list Z → ST H Z;
  bd_sectors : H → Z → Z → Z → list Z }.

Definition sectors_apart (idx n idx' n' : Z) : Prop := idx + n ≤ idx' ∨ idx' + n' ≤ idx.

(** [E]: the ways a driver may stop the kernel. *)
Class BlockDevLaws (H : Type) `{BlockDev H} (E : stop → Prop) := {
  bd_read_law h dev n idx : 0 ≤ n → 0 ≤ idx →
    wp E (bd_read dev n idx) (λ r h', bd_sectors h' = bd_sectors h ∧
      length r.2 = Z.to_nat (n * bd_sector_size dev) ∧
      (0 ≤ r.1 → r.2 = bd_sectors h dev idx n)) h;
  bd_write_law h dev n idx l : 0 ≤ n → 0 ≤ idx →
    length l = Z.to_nat (n * bd_sector_size dev) →
    wp E (bd_write dev n idx l) (λ r h',
      (∀ dev' idx' n', dev' ≠ dev ∨ sectors_apart idx n idx' n' →
         bd_sectors h' dev' idx' n' = bd_sectors h dev' idx' n') ∧
      (0 ≤ r → bd_sectors h' dev idx n = l)) h }.

(** ** Data *)

(** [data]: the bytes of the area of the pointer, a piece of a kernel page of its
    own; [holder]: the process that holds [lock]; [stale]: whether the word at
    [hnode.next] of a new buffer is not 0, since [kmalloc] does not clear it and
    [buffer_alloc] does not set it. *)
Record buffer_t := mk_buffer {
  data : list Z; bdesc : nat; dev : Z; block : Z; count : Z; stale : bool;
  holder : option Z; dirty : bool; valid : bool }.
#[export] Instance expand_buffer : Expand buffer_t := λ b,
  mk_buffer (data b) (bdesc b) (dev b) (block b) (count b) (stale b) (holder b) (dirty b) (valid b).

(** The lists hold the addresses of the buffers (of their [rnode] or [hnode]), and
    of the waiting processes. *)
Record bdesc_t := mk_bdesc {
  bcount : Z; size : Z; free_list : list Z; idle_list : list Z; wait_list : list Z;
  hash_table : list (list Z) }.
#[export] Instance expand_bdesc : Expand bdesc_t := λ d,
  mk_bdesc (bcount d) (size d) (free_list d) (idle_list d) (wait_list d) (hash_table d).

Record cache {H : Type} := mk_cache {
  bdescs : list bdesc_t; buffers : gmap Z buffer_t; hw : H }.
Arguments cache : clear implicits.
#[export] Instance expand_cache H : Expand (cache H) := λ s,
  mk_cache H (bdescs s) (buffers s) (hw s).

Section ops.
Context {H : Type} `{!BlockDev H}.

Definition on_hw {A} (m : ST H A) : ST (cache H) A := λ s,
  match m (hw s) with
  | Ok (a, h) => Ok (a, s <| hw := h |>)
  | Stop e => Stop e
  end.

Definition the_desc (i : nat) : ST (cache H) bdesc_t := st_deref (λ s, bdescs s !! i).
Definition mod_desc (i : nat) (f : bdesc_t → bdesc_t) : ST (cache H) unit :=
  st_mod (λ s, s <| bdescs $= alter f i |>).
Definition the_buffer (a : Z) : ST (cache H) buffer_t := st_deref (λ s, buffers s !! a).
Definition mod_buffer (a : Z) (f : buffer_t → buffer_t) : ST (cache H) unit :=
  st_mod (λ s, s <| buffers $= alter f a |>).

Definition buffer_init : ST (cache H) unit :=
  st_mod (λ s, s <| bdescs := (λ i, mk_bdesc 0 (u32 (Z.shiftl 1024 i)) [] [] []
    (replicate (Z.to_nat HASH_COUNT) [])) <$> seqZ 0 BUFFER_DESC_NR |>).

Definition hash (dev block : Z) : Z := Z.lxor (u32 dev) block `mod` HASH_COUNT.

Fixpoint desc_loop (ds : list bdesc_t) (sz : Z) (i : nat) : option nat :=
  match ds with
  | [] => None
  | d :: ds' => if size d =? sz then Some i else desc_loop ds' sz (S i)
  end.
Definition desc_get (sz : Z) : ST (cache H) nat :=
  let* ds := st_gets bdescs in
  match desc_loop ds sz 0 with Some i => st_ret i | None => st_stop Assert end.

(** ** The hash table *)
Fixpoint hash_find (bs : gmap Z buffer_t) (l : list Z) (dv blk : Z) : res (option Z) :=
  match l with
  | [] => Ok None
  | a :: l' =>
      let! b := deref (bs !! a) in
      if (dev b =? dv) && (block b =? blk) then Ok (Some a) else hash_find bs l' dv blk
  end.

Definition get_from_hash_table (i : nat) (dv blk : Z) : ST (cache H) (option Z) :=
  let* d := the_desc i in
  let* l := st_deref (λ _, hash_table d !! Z.to_nat (hash dv blk)) in
  let* bs := st_gets buffers in
  let* r := st_lift (hash_find bs l dv blk) in
  match r with
  | None => st_ret None
  | Some a =>
      do! st_when (Abs.mem a (idle_list d)) (mod_desc i (λ d, d <| idle_list $= Abs.remove a |>));
      st_ret (Some a)
  end.

Definition hash_locate (i : nat) (a : Z) : ST (cache H) unit :=
  let* b := the_buffer a in
  let k := Z.to_nat (hash (dev b) (block b)) in
  let* d := the_desc i in
  let* l := st_deref (λ _, hash_table d !! k) in
  do! st_check (negb (Abs.mem a l));
  mod_desc i (λ d, d <| hash_table $= <[k := a :: l]> |>).

(** [list_remove] through the node's own pointers: from whatever bucket it is in;
    stale pointers lead anywhere. *)
Definition hash_remove (i : nat) (a : Z) : ST (cache H) unit :=
  let* b := the_buffer a in
  let* d := the_desc i in
  if existsb (Abs.mem a) (hash_table d) then
    mod_desc i (λ d, d <| hash_table $= fmap (Abs.remove a) |>)
  else if stale b then st_stop Fault else st_ret tt.

(** ** Buffers *)

(** The [j]-th block that [kmalloc] returns, with its [stale] word, and the bytes
    of the [j]-th piece of the new page. *)
Definition news := Z → Z * (bool * list Z).

Definition new_buffer (i : nat) (st : bool) (bytes : list Z) : buffer_t :=
  mk_buffer bytes i EOF 0 0 st None false false.

Definition add_buffer (i : nat) (n : Z * (bool * list Z)) : ST (cache H) unit :=
  do! st_mod (λ s, s <| buffers $= <[n.1 := new_buffer i n.2.1 n.2.2]> |>);
  let* d := the_desc i in
  do! st_check (negb (Abs.mem n.1 (free_list d)));
  mod_desc i (λ d, d <| free_list $= cons n.1 |> <| bcount $= λ c, u32 (c + 1) |>).

Definition buffer_alloc (i : nat) (nw : news) : ST (cache H) unit :=
  let* d := the_desc i in
  st_for (seqZ 0 (PAGE_SIZE `div` size d)) (λ j, add_buffer i (nw j)).

Definition take_buffer (i : nat) (a : Z) : ST (cache H) Z :=
  do! hash_remove i a;
  do! mod_buffer a (λ b, b <| valid := false |>);
  st_ret a.

(** [list_popback] *)
Definition pop_free (i : nat) : ST (cache H) Z :=
  let* d := the_desc i in
  let* a := st_deref (λ _, last (free_list d)) in
  do! mod_desc i (λ d, d <| free_list $= @removelast Z |>);
  st_ret a.
Definition pop_idle (i : nat) : ST (cache H) Z :=
  let* d := the_desc i in
  do! st_check (negb (bool_decide (idle_list d = [])));
  let* a := st_deref (λ _, last (idle_list d)) in
  do! mod_desc i (λ d, d <| idle_list $= @removelast Z |>);
  st_ret a.

(** A turn of the loop that waits for an idle buffer: [None] when process [me]
    blocks in [wait_list]. *)
Definition get_idle_turn (i : nat) (me : Z) : ST (cache H) (option Z) :=
  let* d := the_desc i in
  if bool_decide (idle_list d = []) then
    do! mod_desc i (λ d, d <| wait_list $= cons me |>);
    st_ret None
  else
    let* a := pop_idle i in
    let* a := take_buffer i a in
    st_ret (Some a).

Definition get_free_buffer (i : nat) (me : Z) (nw : news) : ST (cache H) (option Z) :=
  let* d := the_desc i in
  do! st_when ((bcount d <? MAX_BUF_COUNT) && bool_decide (free_list d = [])) (buffer_alloc i nw);
  let* d := the_desc i in
  if negb (bool_decide (free_list d = [])) then
    let* a := pop_free i in
    let* a := take_buffer i a in
    st_ret (Some a)
  else get_idle_turn i me.

(** The end of [getblk], with the buffer of [get_free_buffer]. *)
Definition assign_buffer (i : nat) (a dv blk : Z) : ST (cache H) unit :=
  let* b := the_buffer a in
  do! st_check (count b =? 0);
  do! st_check (negb (dirty b));
  do! mod_buffer a (λ b, b <| count := 1 |> <| dev := dv |> <| block := blk |>);
  hash_locate i a.

Definition getblk (i : nat) (dv blk me : Z) (nw : news) : ST (cache H) (option Z) :=
  let* r := get_from_hash_table i dv blk in
  match r with
  | Some a => do! mod_buffer a (λ b, b <| count $= λ c, s32 (c + 1) |>); st_ret (Some a)
  | None =>
      let* r := get_free_buffer i me nw in
      match r with
      | None => st_ret None
      | Some a => do! assign_buffer i a dv blk; st_ret (Some a)
      end
  end.

(** ** Reading *)

(** [bread] up to [lock_acquire]: the buffer is valid already, its lock is needed,
    or the process blocks in [get_free_buffer]. *)
Inductive started := Valid (a : Z) | Lock (a : Z) | Wait.

Definition after_getblk (a : Z) : ST (cache H) started :=
  let* b := the_buffer a in
  st_ret (if valid b then Valid a else Lock a).

Definition bread_start (dv blk sz me : Z) (nw : news) : ST (cache H) started :=
  let* i := desc_get sz in
  let* r := getblk i dv blk me nw in
  match r with Some a => after_getblk a | None => st_ret Wait end.

(** A process woken from [wait_list] goes on in the loop of [get_free_buffer]. *)
Definition bread_resume (i : nat) (dv blk me : Z) : ST (cache H) started :=
  let* r := get_idle_turn i me in
  match r with
  | Some a => do! assign_buffer i a dv blk; after_getblk a
  | None => st_ret Wait
  end.

(** [None]: the lock is held and the process blocks. *)
Definition lock_acquire (a me : Z) : ST (cache H) (option unit) :=
  let* b := the_buffer a in
  match holder b with
  | None => do! mod_buffer a (λ b, b <| holder := Some me |>); st_ret (Some tt)
  | Some _ => st_ret None
  end.
Definition lock_release (a me : Z) : ST (cache H) unit :=
  let* b := the_buffer a in
  do! st_check (bool_decide (holder b = Some me));
  mod_buffer a (λ b, b <| holder := None |>).

Definition bdirty (a : Z) (d : bool) : ST (cache H) unit :=
  mod_buffer a (λ b, b <| dirty := d |>).

(** ** Writing and releasing *)
Definition bwrite (a : Z) : ST (cache H) Z :=
  let* b := the_buffer a in
  if negb (dirty b) then st_ret EOK
  else
    let* d := the_desc (bdesc b) in
    let sector_size := u32 (bd_sector_size (dev b)) in
    if sector_size =? 0 then st_stop Fault
    else
      let block_sector := size d `div` sector_size in
      let* ret := on_hw (bd_write (dev b) (u8 block_sector) (u32 (block b * block_sector)) (data b)) in
      if ret <? 0 then st_ret ret
      else
        do! bdirty a false;
        do! mod_buffer a (λ b, b <| valid := true |>);
        st_ret ret.

(** The rest of [brelse], with the result of [bwrite]; the second result is the
    process it unblocks. *)
Definition brelse_end (a ret : Z) : ST (cache H) (Z * option Z) :=
  do! mod_buffer a (λ b, b <| count $= λ c, s32 (c - 1) |>);
  let* b := the_buffer a in
  do! st_check (0 <=? count b);
  if negb (count b =? 0) then st_ret (ret, None)
  else
    let* d := the_desc (bdesc b) in
    do! st_check (negb (Abs.mem a (free_list d)) && negb (Abs.mem a (idle_list d)));
    do! mod_desc (bdesc b) (λ d, d <| idle_list $= cons a |>);
    match last (wait_list d) with
    | None => st_ret (EOK, None)
    | Some p =>
        do! mod_desc (bdesc b) (λ d, d <| wait_list $= @removelast Z |>);
        st_ret (EOK, Some p)
    end.

Definition brelse (a : Z) : ST (cache H) (Z * option Z) :=
  let* ret := bwrite a in brelse_end a ret.

(** [bread] from [lock_acquire] on, for the process [me] that has the lock; [None]
    is the null pointer of the rollback. *)
Definition rollback (a me : Z) : ST (cache H) (option Z) :=
  do! lock_release a me;
  let* _ := brelse a in
  st_ret None.

Definition bread_fill (a me : Z) : ST (cache H) (option Z) :=
  let* b := the_buffer a in
  if valid b then do! lock_release a me; st_ret (Some a)
  else
    let* d := the_desc (bdesc b) in
    let sector_size := u32 (bd_sector_size (dev b)) in
    if size d <? sector_size then rollback a me
    else if sector_size =? 0 then st_stop Fault
    else
      let bs := size d `div` sector_size in
      let* r := on_hw (bd_read (dev b) (u8 bs) (u32 (block b * bs))) in
      do! mod_buffer a (λ b, b <| data := r.2 |>);
      if r.1 <? EOK then rollback a me
      else
        do! bdirty a false;
        do! mod_buffer a (λ b, b <| valid := true |>);
        do! lock_release a me;
        st_ret (Some a).

(** A call of [bread] that does not meet another process. *)
Inductive outcome := Got (a : Z) | Null | Blocked.

Definition bread (dv blk sz me : Z) (nw : news) : ST (cache H) outcome :=
  let* r := bread_start dv blk sz me nw in
  match r with
  | Valid a => st_ret (Got a)
  | Wait => st_ret Blocked
  | Lock a =>
      let* l := lock_acquire a me in
      match l with
      | None => st_ret Blocked
      | Some _ =>
          let* r := bread_fill a me in
          st_ret (match r with Some a => Got a | None => Null end)
      end
  end.
End ops.

(** ** The hash table is a finite map

    [m] maps the device and block numbers to the buffers of descriptor [i]. *)
Record table_ok (bs : gmap Z buffer_t) (i : nat) (t : list (list Z)) (m : gmap (Z * Z) Z) : Prop := {
  to_len : length t = Z.to_nat HASH_COUNT;
  to_bucket : ∀ k l a, t !! k = Some l → a ∈ l ↔
    ∃ b, bs !! a = Some b ∧ m !! (dev b, block b) = Some a ∧ Z.to_nat (hash (dev b) (block b)) = k;
  to_key : ∀ key a, m !! key = Some a →
    ∃ b, bs !! a = Some b ∧ key = (dev b, block b) ∧ bdesc b = i }.

Lemma hash_range dv blk : 0 ≤ hash dv blk < HASH_COUNT.
Proof. apply Z.mod_pos_bound. done. Qed.

Section table.
Context (bs : gmap Z buffer_t) (i : nat) (t : list (list Z)) (m : gmap (Z * Z) Z) (Ht : table_ok bs i t m).

Lemma bucket_exists dv blk : ∃ l, t !! Z.to_nat (hash dv blk) = Some l.
Proof using Ht.
  apply lookup_lt_is_Some_2. rewrite (to_len _ _ _ _ Ht). pose proof (hash_range dv blk). lia.
Qed.

Lemma hash_find_spec l dv blk :
  (∀ a, a ∈ l → ∃ b, bs !! a = Some b ∧ m !! (dev b, block b) = Some a) →
  ∃ r, hash_find bs l dv blk = Ok r ∧
    match r with
    | Some a => m !! (dv, blk) = Some a
    | None => ∀ a b, a ∈ l → bs !! a = Some b → (dev b, block b) ≠ (dv, blk)
    end.
Proof using.
  clear Ht. induction l as [|a l IH]; intros Hl; cbn [hash_find].
  - exists None. split; [done|]. by intros a b ?%elem_of_nil.
  - destruct (Hl a) as (b & Hb & Hm); [left|]. rewrite Hb. cbn [deref res_bind].
    destruct (Z.eqb_spec (dev b) dv) as [Hd|Hd], (Z.eqb_spec (block b) blk) as [Hk|Hk]; cbn [andb].
    1: { exists (Some a). split; [done|]. by rewrite <-Hd, <-Hk. }
    all: destruct IH as (r & -> & Hr); [intros c Hc; apply Hl; by right|]; exists r; split; [done|];
      destruct r; [done|]; intros c e [->|Hc]%elem_of_cons He; [congruence|by eapply Hr].
Qed.

Lemma hash_find_ok l dv blk : t !! Z.to_nat (hash dv blk) = Some l →
  hash_find bs l dv blk = Ok (m !! (dv, blk)).
Proof using Ht.
  intros Hl. destruct (hash_find_spec l dv blk) as (r & -> & Hr).
  { intros a (b & Hb & Hm & _)%(to_bucket _ _ _ _ Ht _ _ _ Hl). by exists b. }
  f_equal. destruct r as [a|]; [done|]. destruct (m !! (dv, blk)) as [a|] eqn:Hm; [|done].
  destruct (to_key _ _ _ _ Ht _ _ Hm) as (b & Hb & [= -> ->] & _).
  destruct (Hr a b); [|done|done]. apply (to_bucket _ _ _ _ Ht _ _ _ Hl). by exists b.
Qed.

Lemma hashed_iff a : existsb (Abs.mem a) t = true ↔ ∃ key, m !! key = Some a.
Proof using Ht.
  rewrite existsb_exists. split.
  - intros (l & [k Hl]%list_elem_of_In%list_elem_of_lookup & Ha). apply bool_decide_eq_true_1 in Ha.
    apply (to_bucket _ _ _ _ Ht _ _ _ Hl) in Ha as (b & _ & Hm & _). by eexists.
  - intros [key Hm]. destruct (to_key _ _ _ _ Ht _ _ Hm) as (b & Hb & -> & _).
    destruct (bucket_exists (dev b) (block b)) as [l Hl]. exists l.
    split; [apply list_elem_of_In; by eapply list_elem_of_lookup_2|]. apply bool_decide_eq_true_2.
    apply (to_bucket _ _ _ _ Ht _ _ _ Hl). by exists b.
Qed.

Lemma table_insert a b l : bs !! a = Some b → bdesc b = i → m !! (dev b, block b) = None →
  (∀ key, m !! key ≠ Some a) → t !! Z.to_nat (hash (dev b) (block b)) = Some l →
  a ∉ l ∧ table_ok bs i (<[Z.to_nat (hash (dev b) (block b)) := a :: l]> t) (<[(dev b, block b) := a]> m).
Proof using Ht.
  intros Hb Hi Hnone Hrange Hl. split.
  { intros (b' & _ & Hm & _)%(to_bucket _ _ _ _ Ht _ _ _ Hl). by apply Hrange in Hm. }
  split.
  - rewrite length_insert. apply Ht.
  - intros k l' c Hk. apply list_lookup_insert_Some in Hk as [(<- & <- & _)|[Hne Hk]].
    + rewrite elem_of_cons, (to_bucket _ _ _ _ Ht _ _ _ Hl). split.
      * intros [->|(e & He & Hm & Hh)]; [exists b; by rewrite lookup_insert_eq|].
        exists e. rewrite lookup_insert_ne; [done|]. intros E. rewrite E in Hnone. congruence.
      * intros (e & He & Hm & Hh). apply lookup_insert_Some in Hm as [[E ->]|[_ Hm]]; [by left|right; by exists e].
    + rewrite (to_bucket _ _ _ _ Ht _ _ _ Hk). split; intros (e & He & Hm & Hh); exists e; (split; [done|]); (split; [|done]).
      * rewrite lookup_insert_ne; [done|]. intros E. rewrite E in Hnone. congruence.
      * apply lookup_insert_Some in Hm as [[E _]|[_ Hm]]; [|done]. injection E as E1 E2. by rewrite E1, E2 in Hne.
  - intros key c [[<- <-]|[Hne Hm]]%lookup_insert_Some; [by exists b|]. by apply (to_key _ _ _ _ Ht).
Qed.

Lemma table_remove a b : bs !! a = Some b → m !! (dev b, block b) = Some a →
  table_ok bs i (Abs.remove a <$> t) (delete (dev b, block b) m).
Proof using Ht.
  intros Hb Hm. split.
  - rewrite length_fmap. apply Ht.
  - intros k l' c (l & -> & Hl)%list_lookup_fmap_Some. unfold Abs.remove.
    rewrite list_elem_of_filter, (to_bucket _ _ _ _ Ht _ _ _ Hl). split.
    + intros [Hne (e & He & Hme & Hh)]. exists e. split; [done|]. split; [|done].
      rewrite lookup_delete_ne; [done|]. intros E. rewrite <-E in Hme. congruence.
    + intros (e & He & [Hne Hme]%lookup_delete_Some & Hh). split; [|by exists e]. intros ->. congruence.
  - intros key c [_ Hk]%lookup_delete_Some. by apply (to_key _ _ _ _ Ht).
Qed.

Lemma table_frame bs' : (∀ key a b, m !! key = Some a → bs !! a = Some b →
    ∃ b', bs' !! a = Some b' ∧ dev b' = dev b ∧ block b' = block b ∧ bdesc b' = bdesc b) →
  table_ok bs' i t m.
Proof using Ht.
  intros Hf. assert (∀ key a, m !! key = Some a → ∃ b', bs' !! a = Some b' ∧ key = (dev b', block b') ∧ bdesc b' = i) as Hkey.
  { intros key a Hm. destruct (to_key _ _ _ _ Ht _ _ Hm) as (b & Hb & -> & <-).
    destruct (Hf _ _ _ Hm Hb) as (b' & Hb' & <- & <- & <-). by exists b'. }
  split; [apply Ht| |done]. intros k l a Hl. rewrite (to_bucket _ _ _ _ Ht _ _ _ Hl). split.
  - intros (b & Hb & Hm & Hh). destruct (Hf _ _ _ Hm Hb) as (b' & Hb' & <- & <- & _) in Hm, Hh |- *.
    by exists b'.
  - intros (b' & Hb' & Hm & Hh). destruct (to_key _ _ _ _ Ht _ _ Hm) as (b & Hb & E & _).
    injection E as E1 E2. exists b. rewrite <-E1, <-E2. done.
Qed.
End table.

(** ** The invariant

    Every device is used with one block size, [bsize]. *)
Section inv.
Context {H : Type} `{!BlockDev H} (bsize : Z → Z).

(** The sectors of a block. *)
Definition sectors (dv : Z) : Z := bsize dv `div` bd_sector_size dv.

(** The block sizes the cache has, sectors that divide them and block numbers
    whose sector numbers fit 32 bits. *)
Record usable (dv blk : Z) : Prop := {
  us_size : bsize dv = 1024 ∨ bsize dv = 2048 ∨ bsize dv = 4096;
  us_sector : 0 < bd_sector_size dv ≤ bsize dv;
  us_div : sectors dv * bd_sector_size dv = bsize dv;
  us_small : sectors dv < 256;
  us_block : 0 ≤ blk ∧ (blk + 1) * sectors dv ≤ 2 ^ 32 }.

Definition disk (h : H) (dv blk : Z) : list Z := bd_sectors h dv (blk * sectors dv) (sectors dv).

Record buf_ok (h : H) (d : bdesc_t) (a : Z) (b : buffer_t) : Prop := {
  bo_usable : usable (dev b) (block b);
  bo_size : bsize (dev b) = size d;
  bo_count : 0 ≤ count b < 2 ^ 31;
  bo_idle : count b = 0 → a ∈ idle_list d ∧ dirty b = false;
  bo_holder : holder b = None;
  bo_len : length (data b) = Z.to_nat (size d);
  bo_dirty : dirty b = true → valid b = true;
  bo_clean : valid b = true → dirty b = false → data b = disk h (dev b) (block b) }.

Record fresh_ok (i : nat) (d : bdesc_t) (b : buffer_t) : Prop := {
  fo_desc : bdesc b = i;
  fo_count : count b = 0;
  fo_dirty : dirty b = false;
  fo_stale : stale b = false;
  fo_holder : holder b = None;
  fo_len : length (data b) = Z.to_nat (size d) }.

Record desc_inv (bs : gmap Z buffer_t) (h : H) (i : nat) (d : bdesc_t) (m : gmap (Z * Z) Z) : Prop := {
  di_size : size d = 1024 * 2 ^ Z.of_nat i;
  di_table : table_ok bs i (hash_table d) m;
  di_nodup_free : NoDup (free_list d);
  di_nodup_idle : NoDup (idle_list d);
  di_free : ∀ a, a ∈ free_list d → ∃ b, bs !! a = Some b ∧ fresh_ok i d b ∧ ∀ key, m !! key ≠ Some a;
  di_idle : ∀ a, a ∈ idle_list d → ∃ b, bs !! a = Some b ∧ m !! (dev b, block b) = Some a ∧ count b = 0;
  di_buf : ∀ key a b, m !! key = Some a → bs !! a = Some b → buf_ok h d a b }.

(** [ms i]: the map of descriptor [i]. *)
Record cache_inv (s : cache H) (ms : nat → gmap (Z * Z) Z) : Prop := {
  ci_len : length (bdescs s) = 3%nat;
  ci_desc : ∀ i d, bdescs s !! i = Some d → desc_inv (buffers s) (hw s) i d (ms i) }.

(** What a reader of the block sees: the valid buffer of the block or the disk. *)
Definition seen (bs : gmap Z buffer_t) (h : H) (o : option Z) (dv blk : Z) : list Z :=
  match o with
  | Some a =>
      match bs !! a with
      | Some b => if valid b then data b else disk h dv blk
      | None => disk h dv blk
      end
  | None => disk h dv blk
  end.

Definition content (s : cache H) (dv blk : Z) : list Z :=
  match desc_loop (bdescs s) (bsize dv) 0 with
  | Some i =>
      match bdescs s !! i with
      | Some d =>
          match hash_table d !! Z.to_nat (hash dv blk) with
          | Some l =>
              match hash_find (buffers s) l dv blk with
              | Ok o => seen (buffers s) (hw s) o dv blk
              | Stop _ => []
              end
          | None => []
          end
      | None => []
      end
  | None => []
  end.

(** ** Descriptors *)
Lemma desc_loop_ok s ms sz : cache_inv s ms → sz = 1024 ∨ sz = 2048 ∨ sz = 4096 →
  ∃ i d, desc_loop (bdescs s) sz 0 = Some i ∧ bdescs s !! i = Some d ∧ size d = sz.
Proof using.
  intros [Hl Hd] Hsz. destruct (bdescs s) as [|d0 [|d1 [|d2 [|]]]] eqn:E; try done.
  pose proof (di_size _ _ _ _ _ (Hd 0%nat d0 eq_refl)) as H0. pose proof (di_size _ _ _ _ _ (Hd 1%nat d1 eq_refl)) as H1.
  pose proof (di_size _ _ _ _ _ (Hd 2%nat d2 eq_refl)) as H2. cbn in H0, H1, H2. cbn. rewrite H0, H1, H2.
  destruct Hsz as [->|[->| ->]]; cbn; [exists 0%nat, d0|exists 1%nat, d1|exists 2%nat, d2]; done.
Qed.

Lemma desc_index s ms i j d e : cache_inv s ms → bdescs s !! i = Some d → bdescs s !! j = Some e →
  size d = size e → i = j.
Proof using.
  intros [Hl Hd] Hi Hj E. rewrite (di_size _ _ _ _ _ (Hd i d Hi)), (di_size _ _ _ _ _ (Hd j e Hj)) in E.
  apply Nat2Z.inj. apply (Z.pow_inj_r 2); lia.
Qed.

Lemma content_eq s ms i d dv blk : cache_inv s ms → usable dv blk → bdescs s !! i = Some d →
  size d = bsize dv → content s dv blk = seen (buffers s) (hw s) (ms i !! (dv, blk)) dv blk.
Proof using.
  intros Hs Hu Hi Hsz. destruct (desc_loop_ok s ms (bsize dv) Hs (us_size _ _ Hu)) as (j & e & Hj & He & Hse).
  assert (j = i) as -> by (eapply desc_index; [exact Hs|done|done|congruence]).
  assert (e = d) as -> by congruence. unfold content. rewrite Hj, Hi.
  pose proof (di_table _ _ _ _ _ (ci_desc _ _ Hs i d Hi)) as Ht.
  destruct (bucket_exists _ _ _ _ Ht dv blk) as [l Hl]. rewrite Hl.
  by rewrite (hash_find_ok _ _ _ _ Ht l dv blk Hl).
Qed.

(** A descriptor none of whose buffers, and no block of whose clean buffers,
    changes. *)
Lemma desc_inv_frame bs bs' h h' i d m : desc_inv bs h i d m →
  (∀ a b, bs !! a = Some b → bdesc b = i → bs' !! a = Some b) →
  (∀ key a b, m !! key = Some a → bs !! a = Some b → disk h' (dev b) (block b) = disk h (dev b) (block b)) →
  desc_inv bs' h' i d m.
Proof using.
  intros [H1 H2 H3 H4 H5 H6 H7] Hbs Hh.
  assert (∀ key a b, m !! key = Some a → bs !! a = Some b → bs' !! a = Some b) as Hm.
  { intros key a b Hk Hb. destruct (to_key _ _ _ _ H2 _ _ Hk) as (b' & Hb' & _ & Hi).
    rewrite Hb in Hb'. injection Hb' as <-. by apply Hbs. }
  split; [done| |done|done| | |].
  - apply (table_frame bs); [done|]. intros key a b Hk Hb. exists b. split; [by eapply Hm|done].
  - intros a Ha. destruct (H5 a Ha) as (b & Hb & Hf & Hr). exists b. split; [|done]. apply Hbs; [done|apply Hf].
  - intros a Ha. destruct (H6 a Ha) as (b & Hb & Hk & Hc). exists b. split; [by eapply Hm|done].
  - intros key a b Hk Hb'. destruct (to_key _ _ _ _ H2 _ _ Hk) as (b0 & Hb0 & _ & Hi).
    assert (b0 = b) as -> by (rewrite (Hm _ _ _ Hk Hb0) in Hb'; congruence).
    destruct (H7 key a b Hk Hb0) as [E1 E2 E3 E4 E5 E6 E7 E8].
    split; try done. intros Hv Hc. rewrite (Hh _ _ _ Hk Hb0). by apply E8.
Qed.

(** The buffer [a] changes, but not its block. *)
Lemma desc_inv_update bs h h' i d d' m a b b' : desc_inv bs h i d m →
  bs !! a = Some b → m !! (dev b, block b) = Some a →
  dev b' = dev b → block b' = block b → bdesc b' = bdesc b →
  size d' = size d → hash_table d' = hash_table d → free_list d' = free_list d →
  NoDup (idle_list d') → (∀ c, c ≠ a → c ∈ idle_list d' ↔ c ∈ idle_list d) →
  (a ∈ idle_list d' → count b' = 0) → buf_ok h' d' a b' →
  (∀ key c e, key ≠ (dev b, block b) → m !! key = Some c → bs !! c = Some e →
     disk h' (dev e) (block e) = disk h (dev e) (block e)) →
  desc_inv (<[a := b']> bs) h' i d' m.
Proof using.
  intros [H1 H2 H3 H4 H5 H6 H7] Hb Hm Edev Eblk Edesc Esz Etab Efree Hnd Hidle Hai Hok Hh.
  assert (∀ key, m !! key = Some a → key = (dev b, block b)) as Huniq.
  { intros key Hk. destruct (to_key _ _ _ _ H2 _ _ Hk) as (e & He & -> & _). congruence. }
  split; [by rewrite Esz| |by rewrite Efree|done| | |].
  - rewrite Etab. apply (table_frame bs); [done|]. intros key c e Hk He.
    destruct (decide (c = a)) as [->|Hne].
    + exists b'. rewrite lookup_insert_eq. assert (e = b) as -> by congruence. done.
    + exists e. by rewrite lookup_insert_ne.
  - rewrite Efree. intros c Hc. destruct (H5 c Hc) as (e & He & [F1 F2 F3 F4 F5 F6] & Hr). exists e.
    rewrite lookup_insert_ne; [|intros <-; by apply Hr in Hm]. split; [done|]. split; [|done].
    split; try done. by rewrite Esz.
  - intros c Hc. destruct (decide (c = a)) as [->|Hne].
    + exists b'. rewrite lookup_insert_eq, Edev, Eblk. auto.
    + apply Hidle in Hc; [|done]. destruct (H6 c Hc) as (e & He & Hk & Hcnt). exists e.
      by rewrite lookup_insert_ne.
  - intros key c e Hk [[<- <-]|[Hne He]]%lookup_insert_Some; [done|].
    destruct (H7 key c e Hk He) as [E1 E2 E3 E4 E5 E6 E7 E8]. split; try done.
    + by rewrite Esz.
    + intros Hc. destruct (E4 Hc) as [Hin Hd]. split; [|done]. by apply Hidle.
    + by rewrite Esz.
    + intros Hv Hc. rewrite (Hh key c e); [by apply E8| |done|done].
      intros ->. congruence.
Qed.

(** The descriptor [i] and the buffer [a] change, and perhaps the disk at the
    block of [a]. *)
Section update.
Context (s : cache H) (ms : nat → gmap (Z * Z) Z) (Hs : cache_inv s ms).
Context (i : nat) (d d' : bdesc_t) (a : Z) (b b' : buffer_t) (h' : H).
Context (Hd : bdescs s !! i = Some d) (Hb : buffers s !! a = Some b).
Context (Hm : ms i !! (dev b, block b) = Some a).
Context (Edev : dev b' = dev b) (Eblk : block b' = block b) (Edesc : bdesc b' = bdesc b).
Context (Esz : size d' = size d) (Etab : hash_table d' = hash_table d).
Context (Efree : free_list d' = free_list d) (Hnd : NoDup (idle_list d')).
Context (Hidle : ∀ c, c ≠ a → c ∈ idle_list d' ↔ c ∈ idle_list d).
Context (Hai : a ∈ idle_list d' → count b' = 0) (Hok : buf_ok h' d' a b').
Context (Hh : ∀ dv blk, usable dv blk → (dv, blk) ≠ (dev b, block b) → disk h' dv blk = disk (hw s) dv blk).
Let s' : cache H := mk_cache H (<[i := d']> (bdescs s)) (<[a := b']> (buffers s)) h'.

Lemma buf_of key c j e : bdescs s !! j = Some e → ms j !! key = Some c →
  ∃ f, buffers s !! c = Some f ∧ key = (dev f, block f) ∧ bdesc f = j ∧ buf_ok (hw s) e c f.
Proof using Hs.
  intros Hj Hk. destruct (ci_desc _ _ Hs j e Hj) as [_ H2 _ _ _ _ H7].
  destruct (to_key _ _ _ _ H2 _ _ Hk) as (f & Hf & -> & Hi). exists f.
  split; [done|]. split; [done|]. split; [done|]. by eapply H7.
Qed.

Lemma cache_update_inv : cache_inv s' ms.
Proof using All.
  split; [cbn; rewrite length_insert; apply Hs|]. intros j e He. cbn in He.
  apply list_lookup_insert_Some in He as [(<- & <- & _)|[Hne He]].
  - apply (desc_inv_update (buffers s) (hw s) h' i d d' (ms i) a b b'); try done.
    + by apply (ci_desc _ _ Hs).
    + intros key c e Hne Hk He. destruct (buf_of key c i d Hd Hk) as (f & Hf & -> & _ & Hfo).
      assert (f = e) as -> by congruence. apply Hh; [apply Hfo|done].
  - apply (desc_inv_frame (buffers s) _ (hw s)); [by apply (ci_desc _ _ Hs)| |].
    + intros c f Hf Hcj. cbn. rewrite lookup_insert_ne; [done|]. intros <-.
      destruct (buf_of _ a i d Hd Hm) as (b0 & Hb0 & _ & Hbi & _). congruence.
    + intros key c f Hk Hf. destruct (buf_of key c j e He Hk) as (f' & Hf' & _ & _ & Hfo).
      assert (f' = f) as -> by congruence. apply Hh; [apply Hfo|]. intros [= E1 E2].
      destruct (buf_of _ a i d Hd Hm) as (b0 & Hb0 & _ & _ & Hbo).
      assert (b0 = b) as -> by congruence. apply Hne.
      apply (desc_index s ms i j d e Hs Hd He). rewrite <-(bo_size _ _ _ _ Hbo), <-(bo_size _ _ _ _ Hfo). congruence.
Qed.

Lemma cache_update_content dv blk : usable dv blk → content s' dv blk =
  if decide ((dv, blk) = (dev b, block b)) then (if valid b' then data b' else disk h' dv blk)
  else content s dv blk.
Proof using All.
  intros Hu. pose proof cache_update_inv as Hs'.
  destruct (desc_loop_ok s ms (bsize dv) Hs (us_size _ _ Hu)) as (j & e & _ & He & Hse).
  destruct (buf_of _ a i d Hd Hm) as (b0 & Hb0 & _ & Hbi & Hbo). assert (b0 = b) as -> by congruence.
  assert (∃ e', bdescs s' !! j = Some e' ∧ size e' = bsize dv) as (e' & He' & Hse').
  { cbn. destruct (decide (j = i)) as [->|Hne].
    - exists d'. rewrite list_lookup_insert_eq by (by eapply lookup_lt_Some). split; [done|]. congruence.
    - exists e. by rewrite list_lookup_insert_ne. }
  rewrite (content_eq s' ms j e'), (content_eq s ms j e) by done. cbn [buffers hw s'].
  case_decide as E.
  - injection E as -> ->. assert (j = i) as ->.
    { apply (desc_index s ms j i e d Hs He Hd). rewrite Hse. apply Hbo. }
    rewrite Hm. cbn. by rewrite lookup_insert_eq.
  - unfold seen. destruct (ms j !! (dv, blk)) as [c|] eqn:Hk; [|by apply Hh].
    destruct (buf_of _ c j e He Hk) as (f & Hf & E' & _ & _). injection E' as E1 E2.
    rewrite lookup_insert_ne; [|intros <-; congruence]. rewrite Hf. destruct (valid f); [done|]. by apply Hh.
Qed.
End update.

(** The buffer [a], new or idle, is used for the block [(dv, blk)], which has
    none. *)
Section reuse.
Context (s : cache H) (ms : nat → gmap (Z * Z) Z) (Hs : cache_inv s ms).
Context (i : nat) (d d' : bdesc_t) (a : Z) (b : buffer_t) (dv blk : Z) (l : list Z).
Context (t0 : list (list Z)) (m0 : gmap (Z * Z) Z).
Context (Hd : bdescs s !! i = Some d) (Hb : buffers s !! a = Some b).
Context (Hfresh : fresh_ok i d b ∨ bdesc b = i ∧ ms i !! (dev b, block b) = Some a ∧ count b = 0).
Context (Hrange : ∀ key, ms i !! key = Some a → key = (dev b, block b)).
Context (Hu : usable dv blk) (Hsz : size d = bsize dv) (Hnone : ms i !! (dv, blk) = None).
Context (Ht0 : table_ok (buffers s) i t0 m0).
Context (Hm0 : ∀ key c, m0 !! key = Some c ↔ ms i !! key = Some c ∧ c ≠ a).
Context (Hl : t0 !! Z.to_nat (hash dv blk) = Some l).
Let b' := mk_buffer (data b) (bdesc b) dv blk 1 (stale b) (holder b) (dirty b) false.
Context (Esz : size d' = size d) (Etab : hash_table d' = <[Z.to_nat (hash dv blk) := a :: l]> t0).
Context (Hndf : NoDup (free_list d')) (Hndi : NoDup (idle_list d')).
Context (Hfree : ∀ c, c ∈ free_list d' ↔ c ∈ free_list d ∧ c ≠ a).
Context (Hidle : ∀ c, c ∈ idle_list d' ↔ c ∈ idle_list d ∧ c ≠ a).
Let s' : cache H := mk_cache H (<[i := d']> (bdescs s)) (<[a := b']> (buffers s)) (hw s).
Let m' := <[(dv, blk) := a]> m0.
Let ms' : nat → gmap (Z * Z) Z := λ j, if bool_decide (j = i) then m' else ms j.

Lemma reuse_ready : bdesc b = i ∧ count b = 0 ∧ dirty b = false ∧ holder b = None ∧
  length (data b) = Z.to_nat (size d) ∧ (valid b = true → ms i !! (dev b, block b) = Some a →
    data b = disk (hw s) (dev b) (block b)).
Proof using Hs Hd Hb Hfresh.
  destruct (ci_desc _ _ Hs i d Hd) as [_ _ _ _ _ _ H7].
  assert (ms i !! (dev b, block b) = Some a → buf_ok (hw s) d a b) as Hok by (intros Hm; by eapply H7).
  destruct Hfresh as [[F1 F2 F3 F4 F5 F6]|(F1 & F2 & F3)].
  - split; [done|]. split; [done|]. split; [done|]. split; [done|]. split; [done|]. intros Hv Hm.
    by apply Hok.
  - destruct (Hok F2) as [E1 E2 E3 E4 E5 E6 E7 E8]. destruct (E4 F3) as [_ Hdirty].
    split; [done|]. split; [done|]. split; [done|]. split; [done|]. split; [done|]. auto.
Qed.

Lemma reuse_table : table_ok (<[a := b']> (buffers s)) i (hash_table d') m'.
Proof using All.
  destruct reuse_ready as (Hi & _). rewrite Etab.
  assert (table_ok (<[a := b']> (buffers s)) i t0 m0) as Ht1.
  { apply (table_frame (buffers s)); [done|]. intros key c e Hk He. exists e.
    rewrite lookup_insert_ne; [done|]. intros <-. by apply Hm0 in Hk as [_ ?]. }
  apply (table_insert _ _ _ _ Ht1 a b' l).
  - apply lookup_insert_eq.
  - done.
  - cbn. destruct (m0 !! (dv, blk)) as [c|] eqn:E; [|done]. apply Hm0 in E as [E _]. congruence.
  - intros key Hk. by apply Hm0 in Hk as [_ ?].
  - done.
Qed.

Lemma reuse_desc : desc_inv (<[a := b']> (buffers s)) (hw s) i d' m'.
Proof using All.
  destruct reuse_ready as (Hi & Hc & Hdirty & Hh & Hlen & _).
  destruct (ci_desc _ _ Hs i d Hd) as [H1 H2 H3 H4 H5 H6 H7].
  split; [by rewrite Esz|apply reuse_table|done|done| | |].
  - intros c [Hcf Hne]%Hfree. destruct (H5 c Hcf) as (e & He & [F1 F2 F3 F4 F5 F6] & Hr). exists e.
    rewrite lookup_insert_ne by done. split; [done|]. split; [split; try done; by rewrite Esz|].
    intros key Hk. apply lookup_insert_Some in Hk as [[_ ?]|[_ Hk]]; [done|]. apply Hm0 in Hk as [Hk _]. by apply Hr in Hk.
  - intros c [Hci Hne]%Hidle. destruct (H6 c Hci) as (e & He & Hk & Hce). exists e.
    rewrite lookup_insert_ne by done. split; [done|]. split; [|done]. unfold m'.
    rewrite lookup_insert_ne; [by apply Hm0|]. intros E. rewrite <-E in Hk. congruence.
  - intros key c e Hk [[<- <-]|[Hne He]]%lookup_insert_Some.
    + split; cbn; [done|congruence|lia|done|done|by rewrite Esz|congruence|done].
    + apply lookup_insert_Some in Hk as [[_ ?]|[_ Hk]]; [done|]. apply Hm0 in Hk as [Hk _].
      destruct (H7 key c e Hk He) as [E1 E2 E3 E4 E5 E6 E7 E8]. split; try done.
      * by rewrite Esz.
      * intros Hz. destruct (E4 Hz) as [Hin Hd0]. split; [|done]. by apply Hidle.
      * by rewrite Esz.
Qed.

Lemma reuse_inv : cache_inv s' ms'.
Proof using All.
  destruct reuse_ready as (Hi & _). split; [cbn; rewrite length_insert; apply Hs|].
  intros j e He. cbn in He. unfold ms'. apply list_lookup_insert_Some in He as [(<- & <- & _)|[Hne He]].
  - rewrite bool_decide_eq_true_2 by done. apply reuse_desc.
  - rewrite bool_decide_eq_false_2 by auto.
    apply (desc_inv_frame (buffers s) _ (hw s)); [by apply (ci_desc _ _ Hs)| |done].
    intros c f Hf Hcj. cbn. rewrite lookup_insert_ne; [done|]. intros <-. congruence.
Qed.

Lemma reuse_content dv' blk' : usable dv' blk' → content s' dv' blk' = content s dv' blk'.
Proof using All.
  intros Hu'. pose proof reuse_inv as Hs'. destruct reuse_ready as (Hi & _ & _ & _ & _ & Hclean).
  destruct (desc_loop_ok s ms (bsize dv') Hs (us_size _ _ Hu')) as (j & e & _ & He & Hse).
  assert (∃ e', bdescs s' !! j = Some e' ∧ size e' = bsize dv') as (e' & He' & Hse').
  { cbn. destruct (decide (j = i)) as [->|Hne].
    - exists d'. rewrite list_lookup_insert_eq by (by eapply lookup_lt_Some). split; [done|]. congruence.
    - exists e. by rewrite list_lookup_insert_ne. }
  rewrite (content_eq s' ms' j e'), (content_eq s ms j e) by done. cbn [buffers hw s']. unfold ms'.
  (* a buffer other than [a] is seen as before *)
  assert (∀ c, c ≠ a → seen (<[a := b']> (buffers s)) (hw s) (Some c) dv' blk' =
    seen (buffers s) (hw s) (Some c) dv' blk') as Hother by (intros c Hc; cbn; by rewrite lookup_insert_ne).
  case_bool_decide as Hj.
  - subst j. unfold m'. destruct (decide ((dv, blk) = (dv', blk'))) as [[= <- <-]|Hne].
    + rewrite lookup_insert_eq, Hnone. cbn. by rewrite lookup_insert_eq.
    + rewrite lookup_insert_ne by done. destruct (m0 !! (dv', blk')) as [c|] eqn:Ec.
      * apply Hm0 in Ec as [Ec Hca]. rewrite Ec. by apply Hother.
      * destruct (ms i !! (dv', blk')) as [c|] eqn:Ec'; [|done].
        assert (c = a) as -> by (destruct (decide (c = a)); [done|]; assert (m0 !! (dv', blk') = Some c) by (by apply Hm0); congruence).
        pose proof (Hrange _ Ec') as E. injection E as -> ->. cbn. rewrite Hb. destruct (valid b); [|done].
        symmetry. by apply Hclean.
  - destruct (ms j !! (dv', blk')) as [c|] eqn:Ec; [|done]. apply Hother. intros ->.
    destruct (buf_of s ms Hs _ a j e He Ec) as (f & Hf & _ & Hfj & _). congruence.
Qed.
End reuse.

(** ** The functions keep the invariant and the contents *)
Definition same_content (s s' : cache H) : Prop :=
  ∀ dv blk, usable dv blk → content s' dv blk = content s dv blk.

(** [a] is the buffer of the block, and in use. *)
Definition in_use (s : cache H) (ms : nat → gmap (Z * Z) Z) (a dv blk : Z) : Prop :=
  ∃ i d b, bdescs s !! i = Some d ∧ ms i !! (dv, blk) = Some a ∧ buffers s !! a = Some b ∧
    dev b = dv ∧ block b = blk ∧ 0 < count b.

Lemma cache_eq (s : cache H) ds bs : s <| bdescs := ds |> <| buffers := bs |> = mk_cache H ds bs (hw s).
Proof using. done. Qed.

Context (E : stop → Prop).

Lemma wp_mod_bdesc i d f (Q : unit → cache H → Prop) s : bdescs s !! i = Some d →
  Q tt (s <| bdescs := <[i := f d]> (bdescs s) |>) → wp E (mod_desc i f) Q s.
Proof using.
  intros Hd HQ. unfold mod_desc. wp_step. unfold modify. cbn. by rewrite (alter_list_insert f _ _ d).
Qed.
Lemma wp_mod_buffer a b f (Q : unit → cache H → Prop) s : buffers s !! a = Some b →
  Q tt (s <| buffers := <[a := f b]> (buffers s) |>) → wp E (mod_buffer a f) Q s.
Proof using.
  intros Hb HQ. unfold mod_buffer. wp_step. unfold modify. cbn. by rewrite (alter_map_insert f _ _ b).
Qed.
Lemma wp_the_desc i d (Q : bdesc_t → cache H → Prop) s : bdescs s !! i = Some d → Q d s → wp E (the_desc i) Q s.
Proof using. intros Hd HQ. by eapply wp_deref. Qed.
Lemma wp_the_buffer a b (Q : buffer_t → cache H → Prop) s : buffers s !! a = Some b → Q b s → wp E (the_buffer a) Q s.
Proof using. intros Hb HQ. by eapply wp_deref. Qed.

Lemma wp_on_hw {A} (m : ST H A) (Q : A → cache H → Prop) s :
  wp E m (λ a h, Q a (s <| hw := h |>)) (hw s) → wp E (on_hw m) Q s.
Proof using. unfold wp, on_hw. by destruct (m (hw s)) as [[a h]|]. Qed.

(** From the popped buffer to the buffer of the block. *)
Lemma wp_take_assign s ms i d a b dv blk fl il (Q : unit → cache H → Prop) : cache_inv s ms →
  bdescs s !! i = Some d → buffers s !! a = Some b →
  fresh_ok i d b ∧ (∀ key, ms i !! key ≠ Some a) ∨ bdesc b = i ∧ ms i !! (dev b, block b) = Some a ∧ count b = 0 →
  usable dv blk → size d = bsize dv → ms i !! (dv, blk) = None →
  NoDup fl → NoDup il → (∀ c, c ∈ fl ↔ c ∈ free_list d ∧ c ≠ a) → (∀ c, c ∈ il ↔ c ∈ idle_list d ∧ c ≠ a) →
  (∀ s' ms', cache_inv s' ms' → same_content s s' → in_use s' ms' a dv blk → Q tt s') →
  wp E (take_buffer i a) (λ a', wp E (assign_buffer i a' dv blk) (λ u t, a' = a ∧ Q u t))
    (s <| bdescs := <[i := d <| free_list := fl |> <| idle_list := il |>]> (bdescs s) |>).
Proof using.
  intros Hs Hd Hb Hwhich Hu Hsz Hnone Hndf Hndi Hfl Hil HQ.
  pose proof (di_table _ _ _ _ _ (ci_desc _ _ Hs i d Hd)) as Ht.
  assert (∃ t0 m0, table_ok (buffers s) i t0 m0 ∧ (∀ key c, m0 !! key = Some c ↔ ms i !! key = Some c ∧ c ≠ a) ∧
    (if existsb (Abs.mem a) (hash_table d) then t0 = Abs.remove a <$> hash_table d
     else t0 = hash_table d ∧ stale b = false)) as (t0 & m0 & Ht0 & Hm0 & Hex).
  { destruct Hwhich as [[Hf Hno]|(_ & Hk & _)].
    - exists (hash_table d), (ms i). split; [done|]. split.
      + intros key c. split; [|tauto]. intros Hk. split; [done|]. intros ->. by apply Hno in Hk.
      + destruct (existsb _ _) eqn:Ex; [|split; [done|apply Hf]].
        apply (hashed_iff _ _ _ _ Ht) in Ex as [key Hk]. by apply Hno in Hk.
    - exists (Abs.remove a <$> hash_table d), (delete (dev b, block b) (ms i)).
      split; [by apply table_remove|]. split.
      + intros key c. rewrite lookup_delete_Some. split.
        * intros [Hne Hc]. split; [done|]. intros ->. apply Hne.
          destruct (to_key _ _ _ _ Ht _ _ Hc) as (e & He & -> & _). congruence.
        * intros [Hc Hne]. split; [|done]. intros <-. congruence.
      + rewrite (proj2 (hashed_iff _ _ _ _ Ht a)); [done|by eexists]. }
  assert (fresh_ok i d b ∨ bdesc b = i ∧ ms i !! (dev b, block b) = Some a ∧ count b = 0) as Hready by tauto.
  assert (∀ key, ms i !! key = Some a → key = (dev b, block b)) as Hrange.
  { intros key Hk. destruct (to_key _ _ _ _ Ht _ _ Hk) as (e & He & -> & _). congruence. }
  destruct (bucket_exists _ _ _ _ Ht0 dv blk) as [l Hl].
  set (d1 := d <| free_list := fl |> <| idle_list := il |>).
  set (d2 := d1 <| hash_table := t0 |>).
  set (d3 := d2 <| hash_table := <[Z.to_nat (hash dv blk) := a :: l]> t0 |>).
  set (b1 := b <| valid := false |>). set (b2 := b1 <| count := 1 |> <| dev := dv |> <| block := blk |>).
  assert (fresh_ok i d b ∨ bdesc b = i ∧ ms i !! (dev b, block b) = Some a ∧ count b = 0 →
    count b1 = 0 ∧ dirty b1 = false) as Hready'.
  { intros _. by destruct (reuse_ready s ms Hs i d a b Hd Hb Hready) as (_ & ? & ? & _). }
  assert (wp E (hash_remove i a) (λ _ t, t = s <| bdescs := <[i := d2]> (bdescs s) |>)
    (s <| bdescs := <[i := d1]> (bdescs s) |>)) as Hremove.
  { unfold hash_remove. wp_step. apply (wp_the_buffer a b); [done|]. wp_step.
    apply (wp_the_desc i d1); [by eapply insert_lookup|]. change (hash_table d1) with (hash_table d).
    destruct (existsb _ _).
    - subst t0. apply (wp_mod_bdesc i d1); [by eapply insert_lookup|]. unfold modify. cbn -[Abs.remove].
      by rewrite list_insert_insert_eq.
    - destruct Hex as [-> ->]. apply wp_ret. reflexivity. }
  unfold take_buffer. wp_step. eapply wp_conseq; [exact Hremove|]. intros [] t ->. wp_step.
  apply (wp_mod_buffer a b); [done|]. wp_step. unfold assign_buffer. wp_step.
  apply (wp_the_buffer a b1); [apply lookup_insert_eq|]. destruct (Hready' Hready) as [Hc Hdi].
  wp_step. apply wp_check_true; [by apply Z.eqb_eq|]. wp_step. apply wp_check_true; [by rewrite Hdi|].
  wp_step. apply (wp_mod_buffer a b1); [apply lookup_insert_eq|]. unfold hash_locate. wp_step.
  apply (wp_the_buffer a b2); [apply lookup_insert_eq|]. wp_step.
  apply (wp_the_desc i d2); [by eapply insert_lookup|]. wp_step. change (hash_table d2) with t0.
  eapply wp_deref; [exact Hl|]. wp_step.
  assert (a ∉ l) as Hal.
  { intros (e & _ & Hk & _)%(to_bucket _ _ _ _ Ht0 _ _ _ Hl). by apply Hm0 in Hk as [_ ?]. }
  apply wp_check_true; [by apply negb_true_iff, bool_decide_eq_false_2|].
  apply (wp_mod_bdesc i d2); [by eapply insert_lookup|].
  match goal with |- _ ∧ Q tt ?x => split; [done|]; assert (x = mk_cache H (<[i := d3]> (bdescs s)) (<[a := b2]> (buffers s)) (hw s)) as -> end.
  { unfold modify. cbn. by rewrite list_insert_insert_eq, !insert_insert_eq. }
  eapply HQ.
  - by apply (reuse_inv s ms Hs i d d3 a b dv blk l t0 m0).
  - intros dv' blk'. by apply (reuse_content s ms Hs i d d3 a b dv blk l t0 m0).
  - exists i, d3, b2. rewrite bool_decide_eq_true_2 by done. cbn.
    split; [by eapply insert_lookup|]. by rewrite !lookup_insert_eq.
Qed.

Lemma frame_content s s' ms : cache_inv s ms → cache_inv s' ms → hw s' = hw s →
  (∀ i d, bdescs s !! i = Some d → ∃ d', bdescs s' !! i = Some d' ∧ size d' = size d) →
  (∀ i d key a, bdescs s !! i = Some d → ms i !! key = Some a → buffers s' !! a = buffers s !! a) →
  same_content s s'.
Proof using.
  intros Hs Hs' Hh Hds Hbs dv blk Hu.
  destruct (desc_loop_ok s ms (bsize dv) Hs (us_size _ _ Hu)) as (j & e & _ & He & Hse).
  destruct (Hds j e He) as (e' & He' & Hse').
  rewrite (content_eq s' ms j e'), (content_eq s ms j e) by (done || congruence).
  rewrite Hh. unfold seen. destruct (ms j !! (dv, blk)) as [a|] eqn:Hk; [|done]. by rewrite (Hbs j e _ a He Hk).
Qed.

(** The blocks [kmalloc] returns are new, their words at [hnode.next] are 0 and
    the page has a piece for each. *)
Record news_ok (bs : gmap Z buffer_t) (sz from : Z) (nw : news) : Prop := {
  no_new : ∀ j, from ≤ j < PAGE_SIZE `div` sz → bs !! (nw j).1 = None;
  no_inj : ∀ j k, from ≤ j < PAGE_SIZE `div` sz → from ≤ k < PAGE_SIZE `div` sz →
    (nw j).1 = (nw k).1 → j = k;
  no_stale : ∀ j, from ≤ j < PAGE_SIZE `div` sz → (nw j).2.1 = false;
  no_len : ∀ j, from ≤ j < PAGE_SIZE `div` sz → length (nw j).2.2 = Z.to_nat sz }.

Section add.
Context (s : cache H) (ms : nat → gmap (Z * Z) Z) (Hs : cache_inv s ms).
Context (i : nat) (d : bdesc_t) (a : Z) (bytes : list Z) (Hd : bdescs s !! i = Some d).
Context (Ha : buffers s !! a = None) (Hlen : length bytes = Z.to_nat (size d)).
Let d' := d <| free_list := a :: free_list d |> <| bcount := u32 (bcount d + 1) |>.
Let s' : cache H :=
  mk_cache H (<[i := d']> (bdescs s)) (<[a := new_buffer i false bytes]> (buffers s)) (hw s).

Lemma add_unmapped j e key : bdescs s !! j = Some e → ms j !! key ≠ Some a.
Proof using Hs Ha.
  intros He Hk. destruct (buf_of s ms Hs key a j e He Hk) as (f & Hf & _). congruence.
Qed.

Lemma add_inv : cache_inv s' ms.
Proof using All.
  split; [cbn; rewrite length_insert; apply Hs|]. intros j e He. cbn in He.
  assert (∀ f, bdescs s !! j = Some f → desc_inv (<[a := new_buffer i false bytes]> (buffers s)) (hw s) j f (ms j)) as Hframe.
  { intros f Hf. apply (desc_inv_frame (buffers s) _ (hw s)); [by apply (ci_desc _ _ Hs)| |done].
    intros c g Hc _. rewrite lookup_insert_ne; [done|]. intros <-. congruence. }
  apply list_lookup_insert_Some in He as [(<- & <- & _)|[Hne He]]; [|by apply Hframe].
  destruct (Hframe d Hd) as [H1 H2 H3 H4 H5 H6 H7]. split; try done.
  - apply NoDup_cons. split; [|done]. intros Hin.
    destruct (di_free _ _ _ _ _ (ci_desc _ _ Hs i d Hd) a Hin) as (b & Hb & _). congruence.
  - intros c [->|Hc]%elem_of_cons.
    + eexists. split; [apply lookup_insert_eq|]. split; [by split|]. intros key. by apply (add_unmapped i d).
    + destruct (H5 c Hc) as (b & Hb & [] & Hno). exists b. split; [done|]. by split.
  - intros key c b Hk Hb. by destruct (H7 key c b Hk Hb).
Qed.

Lemma add_content : same_content s s'.
Proof using All.
  apply (frame_content s s' ms Hs add_inv); [done| |].
  - intros j e He. cbn. destruct (decide (j = i)) as [->|Hne].
    + exists d'. split; [by eapply insert_lookup|]. assert (e = d) as -> by congruence. done.
    + exists e. by rewrite list_lookup_insert_ne.
  - intros j e key c He Hk. cbn. rewrite lookup_insert_ne; [done|]. intros <-. by apply (add_unmapped j e key) in Hk.
Qed.

Lemma wp_add_buffer n (Q : unit → cache H → Prop) : n = (a, (false, bytes)) → Q tt s' →
  wp E (add_buffer i n) Q s.
Proof using All.
  intros -> HQ. unfold add_buffer. cbn [fst snd]. wp_step. wp_step. wp_step.
  apply (wp_the_desc i d); [done|]. wp_step. apply wp_check_true.
  { apply negb_true_iff, bool_decide_eq_false_2. intros Hin.
    destruct (di_free _ _ _ _ _ (ci_desc _ _ Hs i d Hd) a Hin) as (b & Hb & _). congruence. }
  by apply (wp_mod_bdesc i d).
Qed.
End add.

Lemma wp_buffer_alloc s ms i d nw (Q : unit → cache H → Prop) : cache_inv s ms → bdescs s !! i = Some d →
  news_ok (buffers s) (size d) 0 nw → 0 < PAGE_SIZE `div` size d →
  (∀ s' d', cache_inv s' ms → same_content s s' → bdescs s' !! i = Some d' → size d' = size d →
     idle_list d' = idle_list d → free_list d' ≠ [] → Q tt s') →
  wp E (buffer_alloc i nw) Q s.
Proof using.
  intros Hs Hd Hn Hpos HQ. unfold buffer_alloc. wp_step. apply (wp_the_desc i d); [done|].
  eapply wp_conseq; [apply (wp_for_seq E (PAGE_SIZE `div` size d) _ (λ k t, cache_inv t ms ∧ same_content s t ∧
    news_ok (buffers t) (size d) k nw ∧ ∃ d', bdescs t !! i = Some d' ∧ size d' = size d ∧
      idle_list d' = idle_list d ∧ (0 < k → free_list d' ≠ [])))|].
  - lia.
  - intros k t Hk (Ht & Hc & [N1 N2 N3 N4] & d' & Hd' & Esz & Eidle & _).
    destruct (nw k) as [a [st bytes]] eqn:Ek.
    pose proof (N1 k ltac:(lia)) as Ha. pose proof (N3 k ltac:(lia)) as Hst.
    pose proof (N4 k ltac:(lia)) as Hlen. rewrite Ek in Ha, Hst, Hlen. cbn in Ha, Hst, Hlen. subst st.
    assert (length bytes = Z.to_nat (size d')) as Hlen' by congruence.
    apply (wp_add_buffer t ms Ht i d' a bytes Hd' Ha Hlen'); [done|]. split; [by apply add_inv|]. split.
    { intros dv blk Hu. rewrite (add_content t ms Ht i d' a bytes Hd' Ha Hlen') by done. by apply Hc. }
    split.
    + split.
      * intros j Hj. cbn. rewrite lookup_insert_ne; [apply N1; lia|]. intros Ea.
        assert (j = k) by (apply N2; [lia|lia|]; by rewrite Ek). lia.
      * intros j j' Hj Hj'. apply N2; lia.
      * intros j Hj. apply N3. lia.
      * intros j Hj. apply N4. lia.
    + eexists. split; [by eapply insert_lookup|]. done.
  - split; [done|]. split; [by intros ???|]. split; [done|]. exists d. split; [done|]. split; [done|]. split; [done|]. lia.
  - intros [] t (Ht & Hc & _ & d' & Hd' & Esz & Eidle & Hne). by apply (HQ t d'); auto.
Qed.

(** The waiting processes do not matter. *)
Lemma wait_inv s ms i d w : cache_inv s ms → bdescs s !! i = Some d →
  let s' := s <| bdescs := <[i := d <| wait_list := w |>]> (bdescs s) |> in
  cache_inv s' ms ∧ same_content s s'.
Proof using.
  intros Hs Hd s'. assert (bdescs s' = <[i := d <| wait_list := w |>]> (bdescs s)) as Eds by done.
  assert (cache_inv s' ms) as Hs'.
  { split; [rewrite Eds, length_insert; apply Hs|]. intros j e He. rewrite Eds in He.
    apply list_lookup_insert_Some in He as [(<- & <- & _)|[_ He]]; [|by apply (ci_desc _ _ Hs)].
    destruct (ci_desc _ _ Hs i d Hd) as [H1 H2 H3 H4 H5 H6 H7]. split; try done.
    - intros c Hc. destruct (H5 c Hc) as (b & Hb & [] & Hno). exists b. split; [done|]. by split.
    - intros key c b Hk Hb. by destruct (H7 key c b Hk Hb). }
  split; [done|]. apply (frame_content s s' ms Hs Hs'); [done| |done].
  intros j e He. rewrite Eds. destruct (decide (j = i)) as [->|Hne].
  - eexists. split; [by eapply insert_lookup|]. assert (e = d) as -> by congruence. done.
  - exists e. by rewrite list_lookup_insert_ne.
Qed.

(** Popping the oldest buffer of a list. *)
Lemma idle_not_free s ms i d a : cache_inv s ms → bdescs s !! i = Some d →
  a ∈ free_list d → a ∈ idle_list d → False.
Proof using.
  intros Hs Hd Hf Hi. destruct (ci_desc _ _ Hs i d Hd) as [_ _ _ _ H5 H6 _].
  destruct (H5 a Hf) as (b & _ & _ & Hno), (H6 a Hi) as (b' & _ & Hk & _). by apply Hno in Hk.
Qed.

Lemma wp_pop_free s i d a (Q : Z → cache H → Prop) : bdescs s !! i = Some d → last (free_list d) = Some a →
  Q a (s <| bdescs := <[i := d <| free_list := removelast (free_list d) |> <| idle_list := idle_list d |>]> (bdescs s) |>) →
  wp E (pop_free i) Q s.
Proof using.
  intros Hd Ha HQ. unfold pop_free. wp_step. apply (wp_the_desc i d); [done|]. wp_step.
  eapply wp_deref; [exact Ha|]. wp_step. apply (wp_mod_bdesc i d); [done|]. wp_step. by destruct d.
Qed.

Lemma wp_pop_idle s i d a (Q : Z → cache H → Prop) : bdescs s !! i = Some d → last (idle_list d) = Some a →
  Q a (s <| bdescs := <[i := d <| free_list := free_list d |> <| idle_list := removelast (idle_list d) |>]> (bdescs s) |>) →
  wp E (pop_idle i) Q s.
Proof using.
  intros Hd Ha HQ. unfold pop_idle. wp_step. apply (wp_the_desc i d); [done|]. wp_step.
  apply wp_check_true; [apply negb_true_iff, bool_decide_eq_false_2; by intros E0; rewrite E0 in Ha|]. wp_step.
  eapply wp_deref; [exact Ha|]. wp_step. apply (wp_mod_bdesc i d); [done|]. wp_step. by destruct d.
Qed.

(** Taking a buffer for a block that has none; [None]: all buffers are in use. *)
Lemma wp_get_and_assign s ms i d dv blk me nw (Q : option Z → cache H → Prop) : cache_inv s ms →
  bdescs s !! i = Some d → usable dv blk → size d = bsize dv → ms i !! (dv, blk) = None →
  news_ok (buffers s) (size d) 0 nw →
  (∀ s' ms' a, cache_inv s' ms' → same_content s s' → in_use s' ms' a dv blk → Q (Some a) s') →
  (∀ s', MAX_BUF_COUNT ≤ bcount d → idle_list d = [] → cache_inv s' ms → same_content s s' → Q None s') →
  wp E (let* r := get_free_buffer i me nw in
        match r with
        | None => st_ret None
        | Some a => do! assign_buffer i a dv blk; st_ret (Some a)
        end) Q s.
Proof using.
  intros Hs Hd Hu Hsz Hnone Hnews HQ HQn.
  assert (∀ t d1 a fl il, cache_inv t ms → same_content s t → bdescs t !! i = Some d1 → size d1 = size d →
    a ∈ free_list d1 ∨ a ∈ idle_list d1 →
    NoDup fl → NoDup il → (∀ c, c ∈ fl ↔ c ∈ free_list d1 ∧ c ≠ a) → (∀ c, c ∈ il ↔ c ∈ idle_list d1 ∧ c ≠ a) →
    wp E (take_buffer i a) (λ a', wp E (do! assign_buffer i a' dv blk; st_ret (Some a')) Q)
      (t <| bdescs := <[i := d1 <| free_list := fl |> <| idle_list := il |>]> (bdescs t) |>)) as Htake.
  { intros t d1 a fl il Ht Hc Hd1 Esz Hin Hnf Hni Hfl Hil.
    assert (∃ b, buffers t !! a = Some b ∧ (fresh_ok i d1 b ∧ (∀ key, ms i !! key ≠ Some a) ∨
       bdesc b = i ∧ ms i !! (dev b, block b) = Some a ∧ count b = 0)) as (b & Hb & Hw).
    { destruct (ci_desc _ _ Ht i d1 Hd1) as [_ H2 _ _ H5 H6 _]. destruct Hin as [Hin|Hin].
      - destruct (H5 a Hin) as (b & Hb & Hf & Hno). exists b. auto.
      - destruct (H6 a Hin) as (b & Hb & Hk & Hc0). exists b. split; [done|]. right. split; [|done].
        destruct (to_key _ _ _ _ H2 _ _ Hk) as (b' & Hb' & _ & <-). congruence. }
    eapply wp_conseq; [apply (wp_take_assign t ms i d1 a b dv blk fl il (λ _ t', Q (Some a) t')); try done; [congruence|]|].
    - intros t' ms' Ht' Hc' Huse. apply (HQ t' ms'); [done| |done]. intros v k Hvk. by rewrite Hc', Hc.
    - intros a' t' Ha'. wp_step. eapply wp_conseq; [exact Ha'|]. intros [] t'' [-> HQ']. exact HQ'. }
  unfold get_free_buffer. wp_step. wp_step. apply (wp_the_desc i d); [done|]. wp_step.
  assert (wp E (st_when ((bcount d <? MAX_BUF_COUNT) && bool_decide (free_list d = [])) (buffer_alloc i nw))
    (λ _ t, ∃ d1, cache_inv t ms ∧ same_content s t ∧ bdescs t !! i = Some d1 ∧ size d1 = size d ∧
      idle_list d1 = idle_list d ∧ (free_list d1 = [] → MAX_BUF_COUNT ≤ bcount d)) s) as Halloc.
  { destruct (_ && _) eqn:Ec; cbn [st_when].
    - apply (wp_buffer_alloc s ms i d); [done|done|done| |].
      + rewrite Hsz. destruct (us_size _ _ Hu) as [-> |[-> | ->]]; done.
      + intros t d1 Ht Hc Hd1 E1 E2 E3. exists d1. repeat (split; [done|]). intros E4. by destruct E3.
    - apply wp_ret. exists d. repeat (split; [done|]). intros E0. apply andb_false_iff in Ec as [Ec%Z.ltb_ge|Ec]; [done|].
      by apply bool_decide_eq_false_1 in Ec. }
  eapply wp_conseq; [exact Halloc|]. intros [] t (d1 & Ht & Hc & Hd1 & Esz & Eidle & Hmax). wp_step.
  apply (wp_the_desc i d1); [done|]. destruct (ci_desc _ _ Ht i d1 Hd1) as [_ _ Hnf Hni _ _ _].
  clear Halloc. destruct (decide (free_list d1 = [])) as [Hfe|Hfe];
    [rewrite bool_decide_eq_true_2 by done|rewrite bool_decide_eq_false_2 by done]; cbn [negb].
  - unfold get_idle_turn. wp_step. apply (wp_the_desc i d1); [done|].
    destruct (decide (idle_list d1 = [])) as [Hie|Hie];
      [rewrite bool_decide_eq_true_2 by done|rewrite bool_decide_eq_false_2 by done].
    + wp_step. apply (wp_mod_bdesc i d1); [done|]. wp_step. wp_step.
      destruct (wait_inv t ms i d1 (me :: wait_list d1) Ht Hd1) as [Ht' Hc'].
      apply HQn; [by apply Hmax|congruence|done|]. intros v k Hvk. by rewrite Hc', Hc.
    + destruct (last (idle_list d1)) as [a|] eqn:Ha; [|by apply last_None in Ha]. wp_step.
      apply (wp_pop_idle _ i d1 a); [done|done|]. wp_step.
      destruct (removelast_spec _ _ Hni Ha) as [Hnr Hspec].
      eapply wp_conseq; [apply (Htake t d1 a (free_list d1) (removelast (idle_list d1))); try done|].
      * right. by apply last_Some_elem_of.
      * intros c. split; [|tauto]. rewrite Hfe. by intros ?%elem_of_nil.
      * intros a' t' HQ'. wp_step. exact HQ'.
  - destruct (last (free_list d1)) as [a|] eqn:Ha; [|by apply last_None in Ha]. wp_step.
    apply (wp_pop_free _ i d1 a); [done|done|]. wp_step.
    destruct (removelast_spec _ _ Hnf Ha) as [Hnr Hspec]. apply last_Some_elem_of in Ha.
    eapply wp_conseq; [apply (Htake t d1 a (removelast (free_list d1)) (idle_list d1)); try done|].
    * by left.
    * intros c. split; [|tauto]. intros Hci. split; [done|]. intros ->. by apply (idle_not_free t ms i d1 a).
    * intros a' t' HQ'. wp_step. exact HQ'.
Qed.

(** What is seen of a cached block. *)
Lemma cached_content s ms i d a b : cache_inv s ms → bdescs s !! i = Some d → buffers s !! a = Some b →
  ms i !! (dev b, block b) = Some a →
  content s (dev b) (block b) = if valid b then data b else disk (hw s) (dev b) (block b).
Proof using.
  intros Hs Hd Hb Hk. destruct (buf_of s ms Hs _ a i d Hd Hk) as (b' & Hb' & _ & _ & Hbo).
  assert (b' = b) as -> by congruence.
  rewrite (content_eq s ms i d) by (done || apply Hbo || (symmetry; apply Hbo)). rewrite Hk. cbn. by rewrite Hb.
Qed.

(** A change of the buffer [a] that its readers do not see. *)
Lemma unseen_content s ms i d d' a b b' h' : cache_inv s ms → bdescs s !! i = Some d →
  buffers s !! a = Some b → ms i !! (dev b, block b) = Some a →
  (∀ dv blk, usable dv blk → content (mk_cache H (<[i := d']> (bdescs s)) (<[a := b']> (buffers s)) h') dv blk =
     if decide ((dv, blk) = (dev b, block b)) then (if valid b' then data b' else disk h' dv blk)
     else content s dv blk) →
  (if valid b' then data b' else disk h' (dev b) (block b)) =
    (if valid b then data b else disk (hw s) (dev b) (block b)) →
  same_content s (mk_cache H (<[i := d']> (bdescs s)) (<[a := b']> (buffers s)) h').
Proof using.
  intros Hs Hd Hb Hk Hc Heq dv blk Hu. rewrite Hc by done. case_decide as Ek; [|done].
  injection Ek as -> ->. rewrite Heq. symmetry. by eapply cached_content.
Qed.

(** [getblk]: the buffer of the block, in use once more. *)
Lemma wp_getblk s ms i d dv blk me nw (Q : option Z → cache H → Prop) : cache_inv s ms →
  bdescs s !! i = Some d → usable dv blk → size d = bsize dv → news_ok (buffers s) (size d) 0 nw →
  (∀ a b, buffers s !! a = Some b → count b < 2 ^ 31 - 1) →
  (∀ s' ms' a, cache_inv s' ms' → same_content s s' → in_use s' ms' a dv blk → Q (Some a) s') →
  (∀ s', MAX_BUF_COUNT ≤ bcount d → idle_list d = [] → cache_inv s' ms → same_content s s' → Q None s') →
  wp E (getblk i dv blk me nw) Q s.
Proof using.
  intros Hs Hd Hu Hsz Hnews Hcount HQ HQn. pose proof (di_table _ _ _ _ _ (ci_desc _ _ Hs i d Hd)) as Ht.
  destruct (bucket_exists _ _ _ _ Ht dv blk) as [l Hl].
  unfold getblk, get_from_hash_table. wp_step. wp_step. apply (wp_the_desc i d); [done|]. wp_step.
  eapply wp_deref; [exact Hl|]. wp_step. wp_step. wp_step.
  eapply wp_lift; [by apply (hash_find_ok _ _ _ _ Ht)|]. destruct (ms i !! (dv, blk)) as [a|] eqn:Hk.
  - destruct (buf_of s ms Hs _ a i d Hd Hk) as (b & Hb & Ekey & Hbi & Hbo). injection Ekey as -> ->.
    destruct (ci_desc _ _ Hs i d Hd) as [_ _ _ Hni _ H6 _].
    set (d' := if Abs.mem a (idle_list d) then d <| idle_list $= Abs.remove a |> else d).
    set (b' := b <| count $= λ c, s32 (c + 1) |>).
    assert (count b' = count b + 1) as Hcb.
    { change (count b') with (s32 (count b + 1)). pose proof (bo_count _ _ _ _ Hbo). pose proof (Hcount a b Hb).
      apply s32_small. lia. }
    assert (a ∉ idle_list d') as Had'.
    { unfold d'. destruct (Abs.mem a (idle_list d)) eqn:Em; [|by apply bool_decide_eq_false_1 in Em].
      intros [? _]%list_elem_of_filter. done. }
    assert (wp E (st_when (Abs.mem a (idle_list d)) (mod_desc i (λ d, d <| idle_list $= Abs.remove a |>)))
      (λ _ t, t = s <| bdescs := <[i := d']> (bdescs s) |>) s) as Hidle.
    { unfold d'. destruct (Abs.mem a (idle_list d)); cbn [st_when].
      - by apply (wp_mod_bdesc i d).
      - apply wp_ret. unfold modify. cbn. rewrite list_insert_id by done. by destruct s. }
    wp_step. eapply wp_conseq; [exact Hidle|]. intros [] t ->. wp_step. wp_step.
    apply (wp_mod_buffer a b); [done|]. wp_step.
    match goal with |- Q (Some a) ?x =>
      assert (x = mk_cache H (<[i := d']> (bdescs s)) (<[a := b']> (buffers s)) (hw s)) as -> by done end.
    assert (size d' = size d ∧ hash_table d' = hash_table d ∧ free_list d' = free_list d ∧ NoDup (idle_list d') ∧
      ∀ c, c ≠ a → c ∈ idle_list d' ↔ c ∈ idle_list d) as (Esz & Etab & Efree & Hnd & Hid).
    { unfold d'. destruct (Abs.mem a (idle_list d)); [|done]. split; [done|]. split; [done|]. split; [done|].
      split; [by apply NoDup_filter|]. intros c Hne. change (c ∈ Abs.remove a (idle_list d) ↔ c ∈ idle_list d). unfold Abs.remove. rewrite list_elem_of_filter. tauto. }
    assert (buf_ok (hw s) d' a b') as Hok'.
    { destruct Hbo as [E1 E2 E3 E4 E5 E6 E7 E8]. pose proof (Hcount a b Hb).
      split; try done; [by rewrite Esz|rewrite Hcb; lia|rewrite Hcb; lia|by rewrite Esz]. }
    eapply (HQ _ ms).
    + by eapply cache_update_inv.
    + eapply unseen_content; [done..| |done]. intros dv' blk' Hu'. by eapply cache_update_content.
    + exists i, d', b'. split; [by eapply insert_lookup|]. split; [done|]. split; [apply lookup_insert_eq|].
      split; [done|]. split; [done|]. rewrite Hcb. pose proof (bo_count _ _ _ _ Hbo). lia.
  - wp_step. by eapply wp_get_and_assign.
Qed.

(** ** Writing back, releasing and filling *)
Context `{!BlockDevLaws H E}.

Lemma usable_sectors dv blk : usable dv blk →
  u32 (bd_sector_size dv) = bd_sector_size dv ∧ bsize dv `div` u32 (bd_sector_size dv) = sectors dv ∧
  u8 (sectors dv) = sectors dv ∧ u32 (blk * sectors dv) = blk * sectors dv ∧ 0 < sectors dv ∧
  0 ≤ blk * sectors dv.
Proof using.
  intros [U1 U2 U3 U4 [U5 U6]]. change (2 ^ 32) with 4294967296 in U6.
  assert (u32 (bd_sector_size dv) = bd_sector_size dv) as E1 by (apply u32_small; lia).
  rewrite E1. split; [done|]. split; [done|].
  assert (0 < sectors dv) as Hp. { unfold sectors. apply Z.div_str_pos. lia. }
  assert (0 ≤ blk * sectors dv) by (apply Z.mul_nonneg_nonneg; lia).
  split; [apply u8_small; lia|]. split; [apply u32_small; lia|done].
Qed.

Lemma blocks_apart dv blk blk' : usable dv blk → usable dv blk' → blk ≠ blk' →
  sectors_apart (blk * sectors dv) (sectors dv) (blk' * sectors dv) (sectors dv).
Proof using.
  intros Hu _ Hne. destruct (usable_sectors dv blk Hu) as (_ & _ & _ & _ & Hp & _).
  unfold sectors_apart. nia.
Qed.

Section cached.
Context (s : cache H) (ms : nat → gmap (Z * Z) Z) (Hs : cache_inv s ms).
Context (i : nat) (d : bdesc_t) (a : Z) (b : buffer_t).
Context (Hd : bdescs s !! i = Some d) (Hb : buffers s !! a = Some b).
Context (Hk : ms i !! (dev b, block b) = Some a).

Lemma cached_facts : bdesc b = i ∧ buf_ok (hw s) d a b ∧ usable (dev b) (block b) ∧ bsize (dev b) = size d.
Proof using Hs Hd Hb Hk.
  destruct (buf_of s ms Hs _ a i d Hd Hk) as (b' & Hb' & _ & Hbi & Hbo).
  assert (b' = b) as -> by congruence. split; [done|]. split; [done|]. split; apply Hbo.
Qed.

(** A change of the buffer alone, with what the disk has at its block. *)
Lemma wp_set_buffer b' h' : dev b' = dev b → block b' = block b → bdesc b' = bdesc b →
  count b' = count b → buf_ok h' d a b' →
  (∀ dv blk, usable dv blk → (dv, blk) ≠ (dev b, block b) → disk h' dv blk = disk (hw s) dv blk) →
  (if valid b' then data b' else disk h' (dev b) (block b)) =
    (if valid b then data b else disk (hw s) (dev b) (block b)) →
  let s' := mk_cache H (bdescs s) (<[a := b']> (buffers s)) h' in
  cache_inv s' ms ∧ same_content s s'.
Proof using Hs Hd Hb Hk.
  intros E1 E2 E3 E4 Hok Hh Heq s'.
  assert (s' = mk_cache H (<[i := d]> (bdescs s)) (<[a := b']> (buffers s)) h') as ->
    by (unfold s'; by rewrite list_insert_id).
  destruct (ci_desc _ _ Hs i d Hd) as [_ _ _ Hni _ H6 _].
  assert (a ∈ idle_list d → count b' = 0) as Hai.
  { intros Ha. destruct (H6 a Ha) as (e & He & _ & Hc). congruence. }
  split; [by eapply cache_update_inv|].
  eapply unseen_content; [done..| |done]. intros dv blk Hu. by eapply cache_update_content.
Qed.

(** [bwrite] writes a dirty buffer; it stays dirty when the device fails. *)
Lemma wp_bwrite (Q : Z → cache H → Prop) :
  (∀ ret h' b', cache_inv (mk_cache H (bdescs s) (<[a := b']> (buffers s)) h') ms →
     same_content s (mk_cache H (bdescs s) (<[a := b']> (buffers s)) h') →
     dev b' = dev b → block b' = block b → bdesc b' = bdesc b → count b' = count b →
     (0 ≤ ret → dirty b' = false) → (ret < 0 → dirty b = true) →
     Q ret (mk_cache H (bdescs s) (<[a := b']> (buffers s)) h')) →
  wp E (bwrite a) Q s.
Proof using All.
  intros HQ. destruct cached_facts as (Hbi & Hbo & Hu & Hsz).
  destruct (usable_sectors _ _ Hu) as (S1 & S2 & S3 & S4 & S5 & S6).
  pose proof Hbo as [O1 O2 O3 O4 O5 O6 O7 O8].
  unfold bwrite. wp_step. apply (wp_the_buffer a b); [done|]. destruct (dirty b) eqn:Edirty; cbn [negb].
  - wp_step. rewrite Hbi. apply (wp_the_desc i d); [done|]. rewrite <-Hsz, S2, S1.
    rewrite (proj2 (Z.eqb_neq _ 0)) by (destruct Hu as [_ ? _ _ _]; lia). rewrite S3, S4. wp_step.
    apply wp_on_hw. eapply wp_conseq; [apply bd_write_law; [lia|done|]|].
    { rewrite (us_div _ _ Hu), O6, Hsz. done. }
    intros ret h' [Hother Hwritten].
    assert (∀ dv blk, usable dv blk → (dv, blk) ≠ (dev b, block b) → disk h' dv blk = disk (hw s) dv blk) as Hh.
    { intros dv blk Hu' Hne. apply Hother. destruct (decide (dv = dev b)) as [->|]; [right|by left].
      apply blocks_apart; [done|done|congruence]. }
    pose proof (O7 eq_refl) as Hv.
    destruct (Z.ltb_spec ret 0) as [Hneg|Hpos].
    + apply wp_ret. assert (buf_ok h' d a b) as Hok' by (split; try done; by rewrite Edirty).
      destruct (wp_set_buffer b h' eq_refl eq_refl eq_refl eq_refl Hok' Hh) as [Hi Hc]; [by rewrite Hv|].
      assert (s <| hw := h' |> = mk_cache H (bdescs s) (<[a := b]> (buffers s)) h') as ->
        by (rewrite insert_id by done; done).
      by apply (HQ ret h' b); [..|lia|].
    + unfold bdirty. set (b' := b <| dirty := false |> <| valid := true |>).
      assert (buf_ok h' d a b') as Hok'.
      { split; try done; [intros Hc; by destruct (O4 Hc)|]. intros _ _. symmetry. by apply Hwritten. }
      destruct (wp_set_buffer b' h' eq_refl eq_refl eq_refl eq_refl Hok' Hh) as [Hi Hc]; [by rewrite Hv|].
      wp_step. apply (wp_mod_buffer a b); [done|]. wp_step.
      eapply wp_mod_buffer; [apply lookup_insert_eq|]. apply wp_ret.
      match goal with |- Q ret ?x => assert (x = mk_cache H (bdescs s) (<[a := b']> (buffers s)) h') as -> end.
      { unfold modify. cbn. by rewrite insert_insert_eq. }
      by apply (HQ ret h' b'); [..|lia].
  - apply wp_ret.
    destruct (wp_set_buffer b (hw s) eq_refl eq_refl eq_refl eq_refl Hbo) as [Hi Hc]; [done|done|].
    assert (s = mk_cache H (bdescs s) (<[a := b]> (buffers s)) (hw s)) as E0
      by (rewrite insert_id by done; by destruct s).
    rewrite E0. by apply (HQ EOK (hw s) b); [..|intros ?; done].
Qed.

(** The end of [brelse]: the buffer is idle when nobody uses it any more. *)
Lemma wp_brelse_end ret (Q : Z * option Z → cache H → Prop) : 0 < count b →
  (count b = 1 → dirty b = false) →
  (∀ r s', cache_inv s' ms → same_content s s' → hw s' = hw s → Q r s') →
  wp E (brelse_end a ret) Q s.
Proof using All.
  intros Hpos Hclean HQ. destruct cached_facts as (Hbi & Hbo & Hu & Hsz).
  pose proof Hbo as [O1 O2 O3 O4 O5 O6 O7 O8]. set (b' := b <| count $= λ c, s32 (c - 1) |>).
  assert (count b' = count b - 1) as Hc by (apply s32_small; lia).
  destruct (ci_desc _ _ Hs i d Hd) as [_ _ _ Hni _ H6 _].
  assert (a ∉ idle_list d) as Hai.
  { intros Ha. destruct (H6 a Ha) as (e & He & _ & He0). assert (e = b) as -> by congruence. lia. }
  unfold brelse_end. wp_step. apply (wp_mod_buffer a b); [done|]. wp_step. fold b'.
  apply (wp_the_buffer a b'); [apply lookup_insert_eq|]. wp_step.
  apply wp_check_true; [apply Z.leb_le; lia|]. destruct (Z.eqb_spec (count b') 0) as [Ez|Enz]; cbn [negb].
  - change (bdesc b') with (bdesc b). rewrite Hbi. set (d' := d <| idle_list $= cons a |>).
    assert (buf_ok (hw s) d' a b') as Hok'.
    { split; try done; [lia|]. intros _. split; [left|]. apply Hclean. lia. }
    set (s' := mk_cache H (<[i := d']> (bdescs s)) (<[a := b']> (buffers s)) (hw s)).
    assert (NoDup (idle_list d')) as Hnd by (by apply NoDup_cons).
    assert (∀ c, c ≠ a → c ∈ idle_list d' ↔ c ∈ idle_list d) as Hid.
    { intros c Hne. change (idle_list d') with (a :: idle_list d). rewrite elem_of_cons. tauto. }
    assert (cache_inv s' ms) as Hs' by (by eapply cache_update_inv).
    assert (same_content s s') as Hcs'.
    { eapply unseen_content; [done..| |done]. intros dv blk Hu'. by eapply cache_update_content. }
    wp_step. apply (wp_the_desc i d); [done|]. wp_step. apply wp_check_true.
    { unfold Abs.mem. rewrite !bool_decide_eq_false_2; [done|done|].
      intros Hf. destruct (ci_desc _ _ Hs i d Hd) as [_ _ _ _ H5 _ _].
      destruct (H5 a Hf) as (? & _ & _ & Hno). by apply Hno in Hk. }
    wp_step. apply (wp_mod_bdesc i d); [done|].
    match goal with |- wp _ _ _ ?x => assert (x = s') as -> by done end.
    destruct (last (wait_list d)) as [p|]; [|by apply wp_ret, HQ].
    assert (bdescs s' !! i = Some d') as Hd' by (by eapply insert_lookup).
    wp_step. apply (wp_mod_bdesc i d'); [done|]. apply wp_ret.
    destruct (wait_inv s' ms i d' (removelast (wait_list d)) Hs' Hd') as [Hs2 Hc2].
    apply HQ; [exact Hs2| |done]. intros v k Hvk. by rewrite Hc2, Hcs'.
  - apply wp_ret. assert (buf_ok (hw s) d a b') as Hok' by (split; try done; lia).
    assert (s <| buffers := <[a := b']> (buffers s) |> =
      mk_cache H (<[i := d]> (bdescs s)) (<[a := b']> (buffers s)) (hw s)) as ->
      by (unfold modify; cbn; by rewrite list_insert_id).
    apply HQ; [by eapply cache_update_inv| |done].
    eapply unseen_content; [done..| |done]. intros dv blk Hu'. by eapply cache_update_content.
Qed.

(** [brelse] of a clean buffer, as in the rollback of [bread]. *)
Lemma wp_brelse_clean (Q : Z * option Z → cache H → Prop) : 0 < count b → dirty b = false →
  (∀ r s', cache_inv s' ms → same_content s s' → hw s' = hw s → Q r s') →
  wp E (brelse a) Q s.
Proof using All.
  intros Hpos Hclean HQ. unfold brelse, bwrite. wp_step. wp_step.
  apply (wp_the_buffer a b); [done|]. rewrite Hclean. cbn [negb]. apply wp_ret.
  apply wp_brelse_end; auto.
Qed.

End cached.

(** The lock and the reading of a buffer that is not valid. *)
Lemma wp_fill_buffer s ms i d a b me (Q : outcome → cache H → Prop) : cache_inv s ms →
  bdescs s !! i = Some d → buffers s !! a = Some b → ms i !! (dev b, block b) = Some a →
  0 < count b → valid b = false →
  (∀ s' b', cache_inv s' ms → same_content s s' → buffers s' !! a = Some b' → valid b' = true →
     0 < count b' → data b' = content s (dev b) (block b) → Q (Got a) s') →
  (∀ s', cache_inv s' ms → same_content s s' → Q Null s') →
  wp E (let* l := lock_acquire a me in
    match l with
    | None => st_ret Blocked
    | Some _ => let* r := bread_fill a me in st_ret (match r with Some a => Got a | None => Null end)
    end) Q s.
Proof using All.
  intros Hs Hd Hb Hk Hpos Hinv HQ HQn. destruct (cached_facts s ms Hs i d a b Hd Hb Hk) as (Hbi & Hbo & Hu & Hsz).
  destruct (usable_sectors _ _ Hu) as (S1 & S2 & S3 & S4 & S5 & S6).
  pose proof Hbo as [O1 O2 O3 O4 O5 O6 O7 O8].
  assert (dirty b = false) as Hdirty by (destruct (dirty b); [|done]; by rewrite O7 in Hinv).
  assert (content s (dev b) (block b) = disk (hw s) (dev b) (block b)) as Hseen
    by (rewrite (cached_content s ms i d a b) by done; by rewrite Hinv).
  unfold lock_acquire. wp_step. wp_step. apply (wp_the_buffer a b); [done|]. rewrite O5. wp_step.
  apply (wp_mod_buffer a b); [done|]. wp_step. unfold bread_fill. wp_step. wp_step.
  eapply wp_the_buffer; [apply lookup_insert_eq|].
  change (valid (b <| holder := Some me |>)) with (valid b). rewrite Hinv. wp_step.
  change (bdesc (b <| holder := Some me |>)) with (bdesc b). rewrite Hbi.
  apply (wp_the_desc i d); [done|].
  change (dev (b <| holder := Some me |>)) with (dev b).
  change (block (b <| holder := Some me |>)) with (block b). rewrite <-Hsz, S2, S1.
  rewrite (proj2 (Z.ltb_ge _ _)), (proj2 (Z.eqb_neq _ 0)) by (destruct Hu as [_ ? _ _ _]; lia).
  rewrite S3, S4. wp_step. apply wp_on_hw.
  eapply wp_conseq; [apply bd_read_law; [lia|done]|]. intros [ret bytes] h' (Hsec & Hlen & Hread).
  cbn [fst snd] in Hlen, Hread |- *. rewrite (us_div _ _ Hu), Hsz in Hlen.
  assert (∀ dv blk, disk h' dv blk = disk (hw s) dv blk) as Hh by (intros; unfold disk; by rewrite Hsec).
  wp_step. eapply wp_mod_buffer; [apply lookup_insert_eq|]. change EOK with 0.
  destruct (Z.ltb_spec ret 0) as [Hneg|Hok].
  - unfold rollback, lock_release. wp_step. wp_step. eapply wp_the_buffer; [apply lookup_insert_eq|].
    wp_step. apply wp_check_true; [by apply bool_decide_eq_true_2|].
    eapply wp_mod_buffer; [apply lookup_insert_eq|].
    set (b1 := b <| data := bytes |>).
    match goal with |- wp _ _ _ ?x =>
      assert (x = mk_cache H (bdescs s) (<[a := b1]> (buffers s)) h') as -> end.
    { unfold modify. cbn. rewrite !insert_insert_eq. unfold b1. destruct b; cbn in O5 |- *. by subst. }
    assert (buf_ok h' d a b1) as Hok1.
    { split; try done; change (valid b1) with (valid b); congruence. }
    destruct (wp_set_buffer s ms Hs i d a b Hd Hb Hk b1 h' eq_refl eq_refl eq_refl eq_refl Hok1) as [Hi1 Hc1].
    { intros dv blk _ _. apply Hh. }
    { change (valid b1) with (valid b). by rewrite Hinv. }
    wp_step. eapply (wp_brelse_clean _ ms Hi1 i d a b1); [done|apply lookup_insert_eq|done|done|done|].
    intros r s2 Hi2 Hc2 _. wp_step. wp_step. apply HQn; [done|]. intros v k Hvk. by rewrite Hc2, Hc1.
  - unfold bdirty, lock_release. wp_step. eapply wp_mod_buffer; [apply lookup_insert_eq|].
    wp_step. eapply wp_mod_buffer; [apply lookup_insert_eq|].
    wp_step. wp_step. eapply wp_the_buffer; [apply lookup_insert_eq|].
    wp_step. apply wp_check_true; [by apply bool_decide_eq_true_2|].
    eapply wp_mod_buffer; [apply lookup_insert_eq|]. wp_step. apply wp_ret.
    set (b1 := b <| data := bytes |> <| valid := true |>).
    match goal with |- Q _ ?x =>
      assert (x = mk_cache H (bdescs s) (<[a := b1]> (buffers s)) h') as -> end.
    { unfold modify. cbn. rewrite !insert_insert_eq. unfold b1. destruct b; cbn in O5, Hdirty |- *. by subst. }
    assert (data b1 = disk (hw s) (dev b) (block b)) as Hdata by by apply Hread.
    assert (buf_ok h' d a b1) as Hok1.
    { split; try done. intros _ _. by rewrite Hh. }
    destruct (wp_set_buffer s ms Hs i d a b Hd Hb Hk b1 h' eq_refl eq_refl eq_refl eq_refl Hok1) as [Hi1 Hc1].
    { intros dv blk _ _. apply Hh. }
    { change (valid b1) with true. by rewrite Hinv. }
    apply (HQ _ b1); [done|done|apply lookup_insert_eq|done|done|]. by rewrite Hseen.
Qed.

(** [bread]: the buffer it returns is in use, valid and holds what the block
    contains. *)
Lemma wp_bread s ms dv blk me nw (Q : outcome → cache H → Prop) : cache_inv s ms → usable dv blk →
  news_ok (buffers s) (bsize dv) 0 nw → (∀ a b, buffers s !! a = Some b → count b < 2 ^ 31 - 1) →
  (∀ s' ms' a b, cache_inv s' ms' → same_content s s' → buffers s' !! a = Some b → valid b = true →
     0 < count b → data b = content s dv blk → Q (Got a) s') →
  (∀ s' ms' r, cache_inv s' ms' → same_content s s' → r = Null ∨ r = Blocked → Q r s') →
  wp E (bread dv blk (bsize dv) me nw) Q s.
Proof using All.
  intros Hs Hu Hnews Hcount HQ HQn.
  destruct (desc_loop_ok s ms (bsize dv) Hs (us_size _ _ Hu)) as (i & d & Hloop & Hd & Hsz).
  unfold bread, bread_start, desc_get. wp_step. wp_step. wp_step. wp_step. rewrite Hloop. wp_step.
  wp_step. apply (wp_getblk s ms i d); [done|done|done|done|by rewrite Hsz|done| |].
  - intros s' ms' a Hs' Hc (j & e & b & He & Hk & Hb & Edv & Eblk & Hpos). unfold after_getblk.
    subst dv blk. wp_step. apply (wp_the_buffer a b); [done|]. wp_step.
    assert (content s' (dev b) (block b) = content s (dev b) (block b)) as Hcc by by apply Hc.
    destruct (valid b) eqn:Hv.
    + wp_step. apply (HQ s' ms' a b); try done. rewrite <-Hcc, (cached_content s' ms' j e a b) by done. by rewrite Hv.
    + eapply wp_fill_buffer; [done..| |].
      * intros s2 b2 Hs2 Hc2 Hb2 Hv2 Hpos2 Hd2. apply (HQ s2 ms' a b2); try done; [|congruence].
        intros v k Hvk. by rewrite Hc2, Hc.
      * intros s2 Hs2 Hc2. apply (HQn s2 ms'); [done| |by left]. intros v k Hvk. by rewrite Hc2, Hc.
  - intros s' _ _ Hs' Hc. wp_step. wp_step. apply (HQn s' ms); auto.
Qed.

(** ** Clients of the cache

    A client reads a block, changes the bytes of a buffer it uses and marks it
    dirty, writes it and releases it. *)
Definition modify_buffer (a : Z) (l : list Z) : ST (cache H) unit :=
  do! mod_buffer a (λ b, b <| data := l |>);
  bdirty a true.

Definition used (s : cache H) (a dv blk : Z) : Prop :=
  ∃ i d l b, bdescs s !! i = Some d ∧ l ∈ hash_table d ∧ a ∈ l ∧ buffers s !! a = Some b ∧
    dev b = dv ∧ block b = blk ∧ 0 < count b ∧ valid b = true.

Definition counts_small (s : cache H) : Prop := ∀ a b, buffers s !! a = Some b → count b < 2 ^ 31 - 1.

(** [contents]: what the clients have stored in each block. *)
Record system := mk_system { sys_cache : cache H; contents : Z → Z → list Z }.

Definition store_block (c : Z → Z → list Z) (dv blk : Z) (l : list Z) : Z → Z → list Z :=
  λ dv' blk', if decide ((dv', blk') = (dv, blk)) then l else c dv' blk'.

(** The device does not fail when the last user releases a modified buffer. *)
Inductive cache_step : system → system → Prop :=
| step_bread s c dv blk me nw r s' : usable dv blk → news_ok (buffers s) (bsize dv) 0 nw → counts_small s →
    bread dv blk (bsize dv) me nw s = Ok (r, s') → cache_step (mk_system s c) (mk_system s' c)
| step_modify s c a dv blk l s' : used s a dv blk → length l = Z.to_nat (bsize dv) →
    modify_buffer a l s = Ok (tt, s') → cache_step (mk_system s c) (mk_system s' (store_block c dv blk l))
| step_bwrite s c a dv blk ret s' : used s a dv blk → bwrite a s = Ok (ret, s') →
    cache_step (mk_system s c) (mk_system s' c)
| step_brelse s c a dv blk ret s1 r s' : used s a dv blk → bwrite a s = Ok (ret, s1) →
    0 ≤ ret ∨ (∀ b, buffers s !! a = Some b → 1 < count b) →
    brelse_end a ret s1 = Ok (r, s') → cache_step (mk_system s c) (mk_system s' c).

Definition sys_inv (st : system) : Prop := ∃ ms, cache_inv (sys_cache st) ms ∧
  ∀ dv blk, usable dv blk → content (sys_cache st) dv blk = contents st dv blk.

Lemma used_mapped s ms a dv blk : cache_inv s ms → used s a dv blk →
  ∃ i d b, bdescs s !! i = Some d ∧ buffers s !! a = Some b ∧ ms i !! (dev b, block b) = Some a ∧
    dev b = dv ∧ block b = blk ∧ 0 < count b ∧ valid b = true.
Proof using.
  intros Hs (i & d & l & b & Hd & [k Hl]%list_elem_of_lookup & Ha & Hb & Edv & Eblk & Hc & Hv).
  exists i, d, b. split; [done|]. split; [done|]. split; [|done].
  apply (to_bucket _ _ _ _ (di_table _ _ _ _ _ (ci_desc _ _ Hs i d Hd)) _ _ _ Hl) in Ha as (b' & Hb' & Hm & _).
  congruence.
Qed.

Lemma init_inv h s : buffer_init (mk_cache H [] ∅ h) = Ok (tt, s) → sys_inv (mk_system s (disk h)).
Proof using.
  intros [= <-]. assert (cache_inv (mk_cache H [mk_bdesc 0 1024 [] [] [] (replicate 31 []);
    mk_bdesc 0 2048 [] [] [] (replicate 31 []); mk_bdesc 0 4096 [] [] [] (replicate 31 [])] ∅ h) (λ _, ∅)) as Hs.
  { split; [done|]. intros i d Hd. assert (size d = 1024 * 2 ^ Z.of_nat i ∧ free_list d = [] ∧ idle_list d = [] ∧
      hash_table d = replicate 31 []) as (E1 & E2 & E3 & E4)
      by (destruct i as [|[|[|]]]; cbn in Hd; [injection Hd as <-..|done]; done).
    split; rewrite ?E2, ?E3, ?E4; [done| |by constructor|by constructor|by intros a ?%elem_of_nil..|done].
    split; [by rewrite length_replicate| |done]. intros k l a [-> _]%lookup_replicate. split.
    - by intros ?%elem_of_nil.
    - by intros (b & _ & ? & _). }
  exists (λ _, ∅). split; [exact Hs|]. intros dv blk Hu. cbn [sys_cache contents].
  destruct (desc_loop_ok _ _ (bsize dv) Hs (us_size _ _ Hu)) as (i & d & _ & Hd & Hsz).
  exact (content_eq _ _ i d dv blk Hs Hu Hd Hsz).
Qed.

Lemma wp_modify s ms i d a b l (Q : unit → cache H → Prop) : cache_inv s ms → bdescs s !! i = Some d →
  buffers s !! a = Some b → ms i !! (dev b, block b) = Some a → 0 < count b → valid b = true →
  length l = Z.to_nat (bsize (dev b)) →
  (∀ s', cache_inv s' ms → (∀ dv blk, usable dv blk →
     content s' dv blk = store_block (content s) (dev b) (block b) l dv blk) → Q tt s') →
  wp E (modify_buffer a l) Q s.
Proof using.
  intros Hs Hd Hb Hk Hc Hv Hl HQ. destruct (cached_facts s ms Hs i d a b Hd Hb Hk) as (Hbi & Hbo & Hu & Hsz).
  unfold modify_buffer, bdirty. wp_step. apply (wp_mod_buffer a b); [done|].
  eapply wp_mod_buffer; [apply lookup_insert_eq|]. set (b' := b <| data := l |> <| dirty := true |>).
  match goal with |- Q tt ?x =>
    assert (x = mk_cache H (<[i := d]> (bdescs s)) (<[a := b']> (buffers s)) (hw s)) as -> end.
  { unfold modify. cbn. by rewrite insert_insert_eq, list_insert_id. }
  assert (buf_ok (hw s) d a b') as Hok.
  { destruct Hbo. split; try done; [change (count b') with (count b); lia|]. change (data b') with l. congruence. }
  destruct (ci_desc _ _ Hs i d Hd) as [_ _ _ Hni _ H6 _].
  assert (a ∈ idle_list d → count b' = 0) as Hai.
  { intros Ha. destruct (H6 a Ha) as (e & He & _ & Hce). assert (e = b) as -> by congruence. done. }
  apply HQ; [by eapply cache_update_inv|]. intros dv blk Hu'.
  rewrite (cache_update_content s ms Hs i d d a b b' (hw s)) by done.
  unfold store_block. case_decide; [|done]. change (valid b') with (valid b). by rewrite Hv.
Qed.

(** [bwrite], then the end of [brelse]. *)
Lemma wp_write_release s ms a dv blk (Q : Z → cache H → Prop) : cache_inv s ms → used s a dv blk →
  (∀ ret s', cache_inv s' ms → same_content s s' →
     (0 ≤ ret ∨ (∀ b, buffers s !! a = Some b → 1 < count b) →
      wp E (brelse_end a ret) (λ _ s2, cache_inv s2 ms ∧ same_content s s2) s') → Q ret s') →
  wp E (bwrite a) Q s.
Proof using All.
  intros Hs Hused HQ. destruct (used_mapped s ms a dv blk Hs Hused) as (i & d & b & Hd & Hb & Hk & _ & _ & Hpos & _).
  eapply wp_bwrite; [done..|]. intros ret h' b' Hs' Hc' E1 E2 E3 E4 Hclean _.
  apply HQ; [done|done|]. intros Hret.
  eapply (wp_brelse_end _ ms Hs' i d a b'); [done|apply lookup_insert_eq|by rewrite E1, E2|lia| |].
  - intros Hone. destruct Hret as [Hret|Hret]; [by apply Hclean|]. pose proof (Hret b Hb). lia.
  - intros r s2 Hs2 Hc2 _. split; [done|]. intros v k Hvk. by rewrite Hc2, Hc'.
Qed.

Lemma cache_step_inv st st' : sys_inv st → cache_step st st' → sys_inv st'.
Proof using All.
  intros (ms & Hs & Hcont) Hstep. destruct Hstep as [s c dv blk me nw r s' Hu Hn Hcs Hrun|
    s c a dv blk l s' Hused Hl Hrun|s c a dv blk ret s' Hused Hrun|s c a dv blk ret s1 r s' Hused Hrun Hret Hend];
    cbn [sys_cache contents] in *.
  - assert (∃ ms', cache_inv s' ms' ∧ same_content s s') as (ms' & Hs' & Hc').
    { apply (wp_result E (bread dv blk (bsize dv) me nw) (λ _ t, ∃ ms', cache_inv t ms' ∧ same_content s t) s r s'); [|exact Hrun].
      apply (wp_bread s ms dv blk me nw); eauto. }
    exists ms'. split; [done|]. intros v k Hvk. cbn. rewrite Hc' by done. by apply Hcont.
  - destruct (used_mapped s ms a dv blk Hs Hused) as (i & d & b & Hd & Hb & Hk & <- & <- & Hpos & Hv).
    assert (cache_inv s' ms ∧ ∀ dv' blk', usable dv' blk' →
      content s' dv' blk' = store_block (content s) (dev b) (block b) l dv' blk') as [Hs' Hc'].
    { apply (wp_result E (modify_buffer a l) (λ _ t, cache_inv t ms ∧ ∀ dv' blk', usable dv' blk' →
        content t dv' blk' = store_block (content s) (dev b) (block b) l dv' blk') s tt s'); [|exact Hrun].
      apply (wp_modify s ms i d a b l); auto. }
    exists ms. split; [done|]. intros v k Hvk. cbn. rewrite Hc' by done. unfold store_block.
    case_decide; [done|]. by apply Hcont.
  - assert (cache_inv s' ms ∧ same_content s s') as [Hs' Hc'].
    { apply (wp_result E (bwrite a) (λ _ t, cache_inv t ms ∧ same_content s t) s ret s'); [|exact Hrun].
      eapply wp_write_release; [done|done|auto]. }
    exists ms. split; [done|]. intros v k Hvk. cbn. rewrite Hc' by done. by apply Hcont.
  - assert (cache_inv s' ms ∧ same_content s s') as [Hs' Hc'].
    { assert (wp E (brelse_end a ret) (λ _ s2, cache_inv s2 ms ∧ same_content s s2) s1) as Hw.
      { apply (wp_result E (bwrite a) (λ r t, 0 ≤ r ∨ (∀ b, buffers s !! a = Some b → 1 < count b) →
          wp E (brelse_end a r) (λ _ s2, cache_inv s2 ms ∧ same_content s s2) t) s ret s1); [|done|done].
        eapply wp_write_release; [done|done|auto]. }
      exact (wp_result E _ _ _ _ _ Hw Hend). }
    exists ms. split; [done|]. intros v k Hvk. cbn. rewrite Hc' by done. by apply Hcont.
Qed.

(** C5: the cache is transparent.  From [buffer_init] on, whatever clients read,
    change, write and release: [bread] never fails an assertion, and the buffer it
    returns is in use and holds what was last stored in the block; so does every
    buffer in use; [bwrite] and [brelse] of a buffer in use fail no assertion; and
    when no buffer is in use any more the disk has all that was stored. *)
Theorem cache_transparent (h : H) (s : cache H) (st : system)
    (Hinit : buffer_init (mk_cache H [] ∅ h) = Ok (tt, s))
    (Hreach : steps cache_step (mk_system s (disk h)) st) :
  (∀ dv blk me nw, usable dv blk → news_ok (buffers (sys_cache st)) (bsize dv) 0 nw →
     counts_small (sys_cache st) →
     wp E (bread dv blk (bsize dv) me nw) (λ r s', ∀ a, r = Got a →
       ∃ b, buffers s' !! a = Some b ∧ valid b = true ∧ 0 < count b ∧ data b = contents st dv blk)
       (sys_cache st)) ∧
  (∀ a dv blk, used (sys_cache st) a dv blk →
     data <$> buffers (sys_cache st) !! a = Some (contents st dv blk) ∧
     wp E (bwrite a) (λ ret s1, 0 ≤ ret → wp E (brelse_end a ret) (λ _ _, True) s1) (sys_cache st)) ∧
  ((∀ a b, buffers (sys_cache st) !! a = Some b → count b = 0) →
     ∀ dv blk, usable dv blk → disk (hw (sys_cache st)) dv blk = contents st dv blk).
Proof using All.
  assert (sys_inv st) as (ms & Hs & Hc).
  { eapply (steps_invariant _ sys_inv); [exact cache_step_inv|by apply (init_inv h)|exact Hreach]. }
  split; [|split].
  - intros dv blk me nw Hu Hn Hcs. apply (wp_bread _ ms); try done.
    + intros s' ms' a b _ _ Hb Hv Hpos Hdata a' [= <-]. exists b. by rewrite Hdata, Hc.
    + intros s' _ r _ _ [-> | ->]; done.
  - intros a dv blk Hused. split.
    + destruct (used_mapped _ ms a dv blk Hs Hused) as (i & d & b & Hd & Hb & Hk & <- & <- & _ & Hv).
      rewrite Hb. cbn. f_equal. rewrite <-Hc by apply (cached_facts _ ms Hs i d a b Hd Hb Hk).
      rewrite (cached_content _ ms i d a b) by done. by rewrite Hv.
    + apply (wp_write_release _ ms a dv blk); [done|done|]. intros ret s' _ _ Hend Hret.
      eapply wp_conseq; [by apply Hend; left|done].
  - intros Hidle dv blk Hu. destruct (desc_loop_ok _ ms (bsize dv) Hs (us_size _ _ Hu)) as (i & d & _ & Hd & Hsz).
    rewrite <-Hc, (content_eq _ ms i d) by done. destruct (ms i !! (dv, blk)) as [a|] eqn:Hk; [|done].
    destruct (buf_of _ ms Hs _ a i d Hd Hk) as (b & Hb & [= -> ->] & _ & Hbo). cbn. rewrite Hb.
    destruct (valid b) eqn:Hv; [|done]. symmetry. apply (bo_clean _ _ _ _ Hbo); [done|].
    by apply (bo_idle _ _ _ _ Hbo), (Hidle a).
Qed.
End inv.

(** ** A disk in memory *)
Definition mem_disk := Z → Z → Z.
Definition mem_sectors (h : mem_disk) (dv idx n : Z) : list Z := h dv <$> seqZ (idx * 512) (n * 512).
#[export] Instance mem_BlockDev : BlockDev mem_disk := {
  bd_sector_size := λ _, 512;
  bd_read := λ dv n idx h, Ok ((0, mem_sectors h dv idx n), h);
  bd_write := λ dv n idx l h, Ok (0, λ dv' k,
    if (dv' =? dv) && (idx * 512 <=? k) && (k <? (idx + n) * 512)
    then nth (Z.to_nat (k - idx * 512)) l 0 else h dv' k);
  bd_sectors := mem_sectors }.

#[export] Instance mem_BlockDevLaws : BlockDevLaws mem_disk no_stop.
Proof.
  split.
  - intros h dv n idx Hn Hidx. cbn. split; [done|]. split; [|done].
    unfold mem_sectors. by rewrite length_fmap, length_seqZ.
  - intros h dv n idx l Hn Hidx Hl. cbn in Hl |- *. split.
    + intros dv' idx' n' Hap. unfold mem_sectors. apply list_fmap_ext. intros j k [-> Hj]%lookup_seqZ.
      destruct (Z.eqb_spec dv' dv), (Z.leb_spec (idx * 512) (idx' * 512 + Z.of_nat j)),
        (Z.ltb_spec (idx' * 512 + Z.of_nat j) ((idx + n) * 512)); try done.
      unfold sectors_apart in Hap. destruct Hap as [?|Hap]; [done|lia].
    + intros _. unfold mem_sectors. apply list_eq. intros j.
      destruct (decide (j < length l)%nat) as [Hj|Hj].
      * rewrite list_lookup_fmap, (proj2 (lookup_seqZ _ _ _ (idx * 512 + Z.of_nat j))) by lia. cbn.
        rewrite Z.eqb_refl, (proj2 (Z.leb_le _ _)), (proj2 (Z.ltb_lt _ _)) by lia. cbn.
        replace (Z.to_nat (idx * 512 + Z.of_nat j - idx * 512)) with j by lia.
        destruct (lookup_lt_is_Some_2 l j Hj) as [x Hx]. by rewrite (nth_lookup_Some _ _ _ _ Hx), Hx.
      * rewrite !lookup_ge_None_2; [done|lia|rewrite length_fmap, length_seqZ; lia].
Qed.

Definition demo_news : news := λ j, (0x20000 + j, (false, replicate 1024 0)).
Definition demo_init : cache mem_disk :=
  match buffer_init (mk_cache mem_disk [] ∅ (λ _ _, 0)) with
  | Ok (_, s) => s
  | Stop _ => mk_cache mem_disk [] ∅ (λ _ _, 0)
  end.
Definition demo_read : cache mem_disk :=
  match bread 3 5 1024 0x1000 demo_news demo_init with Ok (_, s) => s | Stop _ => demo_init end.
Definition demo_size : Z → Z := λ _, 1024.

Lemma demo_usable : usable demo_size 3 5.
Proof. split; [by left|done|done|done|done]. Qed.

Definition demo_system : system := mk_system demo_read (disk demo_size (λ _ _, 0)).

Lemma demo_step : steps (cache_step demo_size) (mk_system demo_init (disk demo_size (λ _ _, 0))) demo_system.
Proof.
  apply steps_once, (step_bread demo_size _ _ 3 5 0x1000 demo_news (Got 0x20000)); [exact demo_usable| | |].
  - split; [done| |done|done]. intros j k _ _. cbn. lia.
  - done.
  - vm_compute. reflexivity.
Qed.

Lemma demo_used : used (sys_cache demo_system) 0x20000 3 5.
Proof.
  eexists 0%nat, _, [0x20000], _. split; [vm_compute; reflexivity|]. split.
  - apply list_elem_of_lookup. exists 6%nat. vm_compute. reflexivity.
  - split; [by left|]. split; [vm_compute; reflexivity|]. by vm_compute.
Qed.

Lemma cache_transparent_witness :
  data <$> buffers (sys_cache demo_system) !! 0x20000 = Some (contents demo_system 3 5).
Proof.
  exact (proj1 (proj1 (proj2 (cache_transparent demo_size no_stop (λ _ _, 0) demo_init
    demo_system eq_refl demo_step)) 0x20000 3 5 demo_used)).
Defined.
