(* ===== verification/Fs.v ===== *)
(** * Files, inodes and super blocks in memory ([src/src/fs/inode.c], [super.c],
    [file.c], [namei.c] and [src/src/include/onix/fs.h])

    The tables of inodes, super blocks and open files, and the contents of the
    blocks.  The blocks are those of the buffer cache, which Buffer.v proves to
    show what was last stored; [held] counts the uses of each buffer
    ([buf->count]).  A write to a buffer is always marked with [buf->dirty], which
    the model leaves out, as it does [bwrite]: they decide only when the disk
    follows.  A pointer to an inode, a super block or a file is its index in the
    table; a string is the list of its characters before the terminator, and a
    pointer into it the list from there on. *)
From stdpp Require Import gmultiset.
From S2P Require Import Prelude.
From S2P Require Export Bytes.
From S2P Require Str.
Open Scope Z_scope.

(** ** Constants *)
Definition INODE_NR : nat := 64.
Definition SUPER_NR : nat := 16.
Definition FILE_NR : nat := 128.
Definition TASK_FILE_NR : Z := 16.
Definition KERNEL_USER : Z := 0.

Definition FS_TYPE_NONE : Z := 0.
Definition FS_TYPE_PIPE : Z := 1.
Definition FS_TYPE_SOCKET : Z := 2.
Definition FS_TYPE_MINIX : Z := 3.
Definition FS_TYPE_ISO9660 : Z := 4.
Definition FS_TYPE_NUM : Z := 5.

Definition O_RDONLY : Z := 0.
Definition O_WRONLY : Z := 1.
Definition O_RDWR : Z := 2.
Definition O_ACCMODE : Z := 3.
Definition O_CREAT : Z := 0x40.
Definition O_TRUNC : Z := 0x200.
Definition O_APPEND : Z := 0x400.

Definition SEEK_SET : Z := 1.
Definition SEEK_CUR : Z := 2.
Definition SEEK_END : Z := 3.

(** [stat.h] *)
Definition IFMT : Z := 0xf000.
Definition IFREG : Z := 0x8000.
Definition IFBLK : Z := 0x6000.
Definition IFDIR : Z := 0x4000.
Definition IFCHR : Z := 0x2000.
Definition IFSOCK : Z := 0xc000.
Definition ISVTX : Z := 0x200.
Definition P_EXEC : Z := 1.
Definition P_WRITE : Z := 2.
Definition P_READ : Z := 4.
Definition ISFILE (m : Z) : bool := Z.land m IFMT =? IFREG.
Definition ISDIR (m : Z) : bool := Z.land m IFMT =? IFDIR.
Definition ISCHR (m : Z) : bool := Z.land m IFMT =? IFCHR.
Definition ISBLK (m : Z) : bool := Z.land m IFMT =? IFBLK.
Definition ISSOCK (m : Z) : bool := Z.land m IFMT =? IFSOCK.

(** Error codes only the file systems use. *)
Definition ENOTBLK : Z := 15.
Definition EBUSY : Z := 16.
Definition EXDEV : Z := 18.
Definition ENOTTY : Z := 25.
Definition EFSUNK : Z := 63.

(** ** Data *)

(** A block of a device: its buffer. *)
Abbreviation key := (Z * Z)%type.

(** [desc] points into a buffer: the block and the offset. *)
Record inode_t := mk_inode {
  desc : option (key * Z); buf : option key; dev : Z; rdev : Z; nr : Z; count : Z;
  atime : Z; mtime : Z; ctime : Z; mount : Z; mode : Z; size : Z; type : Z; uid : Z; gid : Z;
  super : option nat; op : option Z; rxwaiter : option Z; txwaiter : option Z }.
#[export] Instance expand_inode : Expand inode_t := λ i,
  mk_inode (desc i) (buf i) (dev i) (rdev i) (nr i) (count i) (atime i) (mtime i) (ctime i)
    (mount i) (mode i) (size i) (type i) (uid i) (gid i) (super i) (op i) (rxwaiter i) (txwaiter i).

(** [sdesc] and [sbuf] are [desc] and [buf]: the descriptor is at the start of the
    buffer. *)
Record super_t := mk_super {
  sbuf : option key; sdev : Z; scount : Z; stype : Z; sector_size : Z; block_size : Z;
  inode_list : list nat; iroot : option nat; imount : option nat }.
#[export] Instance expand_super : Expand super_t := λ s,
  mk_super (sbuf s) (sdev s) (scount s) (stype s) (sector_size s) (block_size s)
    (inode_list s) (iroot s) (imount s).

Record file_t := mk_file { finode : option nat; fcount : Z; foffset : Z; fflags : Z }.
#[export] Instance expand_file : Expand file_t := λ f,
  mk_file (finode f) (fcount f) (foffset f) (fflags f).

(** What the file system uses of the running task. *)
Record task_t := mk_task {
  tuid : Z; tgid : Z; umask : Z; files : list (option nat); tpwd : nat; troot : nat; pwd : list Z }.
#[export] Instance expand_task : Expand task_t := λ t,
  mk_task (tuid t) (tgid t) (umask t) (files t) (tpwd t) (troot t) (pwd t).

(** [now] is [time()]. *)
Record fs := mk_fs {
  blocks : gmap key (list Z); held : gmultiset key;
  inode_table : list inode_t; super_table : list super_t; file_table : list file_t;
  task : task_t; now : Z }.
#[export] Instance expand_fs : Expand fs := λ s,
  mk_fs (blocks s) (held s) (inode_table s) (super_table s) (file_table s) (task s) (now s).

(** ** Buffers *)
Definition BLOCK_SIZE : Z := 1024.

(** [bread] faults where the block cannot be read: it returns a null pointer,
    which the callers do not expect, or expect by an assertion. *)
Definition bread (k : key) : ST fs unit :=
  let* _ := st_deref (λ s, blocks s !! k) in
  st_mod (λ s, s <| held $= λ h, {[+ k +]} ⊎ h |>).

(** [brelse] of a null pointer does nothing. *)
Definition brelse (k : key) : ST fs unit :=
  let* h := st_gets held in
  do! st_check (bool_decide (k ∈ h));
  st_mod (λ s, s <| held $= λ h, h ∖ {[+ k +]} |>).
Definition brelse_opt (k : option key) : ST fs unit :=
  match k with Some k => brelse k | None => st_ret tt end.

(** Loads and stores of [n] bytes, little-endian, in the buffer of a block. *)
Definition ld (n : nat) (k : key) (off : Z) : ST fs Z :=
  let* b := st_deref (λ s, blocks s !! k) in
  if (0 <=? off) && (off + Z.of_nat n <=? Z.of_nat (length b))
  then st_ret (le (slice (Z.to_nat off) n b)) else st_stop Fault.
Definition store_bytes (k : key) (off : Z) (l : list Z) : ST fs unit :=
  let* b := st_deref (λ s, blocks s !! k) in
  if (0 <=? off) && (off + Z.of_nat (length l) <=? Z.of_nat (length b))
  then st_mod (λ s, s <| blocks $= <[k := list_inserts (Z.to_nat off) l b]> |>) else st_stop Fault.
Definition st (n : nat) (k : key) (off v : Z) : ST fs unit := store_bytes k off (le_bytes n v).

(** ** Tables *)
Definition the_inode (i : nat) : ST fs inode_t := st_deref (λ s, inode_table s !! i).
Definition mod_inode (i : nat) (f : inode_t → inode_t) : ST fs unit :=
  st_mod (λ s, s <| inode_table $= alter f i |>).
Definition the_super (i : nat) : ST fs super_t := st_deref (λ s, super_table s !! i).
Definition mod_super (i : nat) (f : super_t → super_t) : ST fs unit :=
  st_mod (λ s, s <| super_table $= alter f i |>).
Definition the_file (i : nat) : ST fs file_t := st_deref (λ s, file_table s !! i).
Definition mod_file (i : nat) (f : file_t → file_t) : ST fs unit :=
  st_mod (λ s, s <| file_table $= alter f i |>).
Definition deref_opt {A} (o : option A) : ST fs A := st_deref (λ _, o).

(** The first index from [i] on whose entry satisfies [p]. *)
Fixpoint find_from {A} (p : A → bool) (l : list A) (i : nat) : option nat :=
  match l with
  | [] => None
  | x :: l' => if p x then Some i else find_from p l' (S i)
  end.

(** ** [inode.c] *)
Definition none {A} (o : option A) : bool := match o with None => true | Some _ => false end.

Definition no_references (i : inode_t) : bool :=
  none (buf i) && none (desc i) && none (super i) && none (op i) && none (rxwaiter i) && none (txwaiter i).

Definition get_free_inode : ST fs nat :=
  let* l := st_gets inode_table in
  match find_from (λ i, type i =? FS_TYPE_NONE) l 0 with
  | Some n =>
      let* i := the_inode n in
      do! st_check (no_references i);
      st_ret n
  | None => st_stop Assert
  end.

Definition put_free_inode (n : nat) : ST fs unit :=
  do! st_check (negb (bool_decide (n = 0%nat)));
  let* i := the_inode n in
  do! st_check (count i =? 0);
  do! mod_inode n (λ i, i <| type := FS_TYPE_NONE |>);
  st_check (no_references i).

Definition get_root_inode : nat := 0.

Definition empty_inode : inode_t :=
  mk_inode None None EOF 0 0 0 0 0 0 0 0 0 FS_TYPE_NONE 0 0 None None None None.
Definition inode_init : ST fs unit :=
  st_mod (λ s, s <| inode_table := replicate INODE_NR empty_inode |>).

(** ** [super.c]: the table *)
Definition get_free_super : ST fs nat :=
  let* l := st_gets super_table in
  match find_from (λ p, stype p =? FS_TYPE_NONE) l 0 with
  | Some n =>
      let* p := the_super n in
      do! st_check (scount p =? 0);
      st_ret n
  | None => st_stop Assert
  end.

Definition get_super (dv : Z) : ST fs (option nat) :=
  let* l := st_gets super_table in
  st_ret (find_from (λ p, negb (stype p =? FS_TYPE_NONE) && (sdev p =? dv)) l 0).

(** [assert(super)] after [get_super]. *)
Definition get_super_assert (dv : Z) : ST fs nat :=
  let* p := get_super dv in
  match p with Some n => st_ret n | None => st_stop Assert end.

(** The inode of a list with number [n]. *)
Fixpoint find_nr (tab : list inode_t) (l : list nat) (n : Z) : res (option nat) :=
  match l with
  | [] => Ok None
  | a :: l' =>
      let! i := deref (tab !! a) in
      if nr i =? n then Ok (Some a) else find_nr tab l' n
  end.

Definition find_inode (dv n : Z) : ST fs (option nat) :=
  let* p := get_super_assert dv in
  let* sp := the_super p in
  let* tab := st_gets inode_table in
  st_lift (find_nr tab (inode_list sp) n).

(** [stat_t] and [dentry_t] *)
Record stat_t := mk_stat {
  st_dev : Z; st_nr : Z; st_mode : Z; st_nlinks : Z; st_uid : Z; st_gid : Z; st_rdev : Z;
  st_size : Z; st_atime : Z; st_mtime : Z; st_ctime : Z }.
Record dentry_t := mk_dentry { e_nr : Z; e_length : Z; e_namelen : Z; e_name : list Z }.

(** ** The operations of a file system

    [fs_op_t].  Inodes are passed by index; what a function returns through a
    pointer is a second result. *)
Record fs_op_t := mk_op {
  op_mkfs : Z → Z → ST fs Z;
  op_super : Z → nat → ST fs Z;
  op_open : nat → list Z → Z → Z → ST fs (Z * option nat);
  op_close : nat → ST fs unit;
  op_ioctl : nat → Z → Z → ST fs Z;
  op_read : nat → Z → Z → ST fs (Z * list Z);
  op_write : nat → list Z → Z → ST fs Z;
  op_truncate : nat → ST fs Z;
  op_stat : nat → ST fs (Z * option stat_t);
  op_permission : nat → Z → ST fs bool;
  op_namei : nat → list Z → ST fs (Z * option (list Z * nat));
  op_mkdir : nat → list Z → Z → ST fs Z;
  op_rmdir : nat → list Z → ST fs Z;
  op_link : nat → list Z → nat → list Z → ST fs Z;
  op_unlink : nat → list Z → ST fs Z;
  op_mknod : nat → list Z → Z → Z → ST fs Z;
  op_readdir : nat → Z → Z → ST fs (Z * option dentry_t) }.

(** ** The part of the layer that closes inodes

    [close_op n] is [inode->op->close(inode)]. *)
Section close.
Context (close_op : nat → ST fs unit).

Definition iput (n : option nat) : ST fs unit :=
  match n with None => st_ret tt | Some n => close_op n end.

Definition fit_inode (n : nat) : ST fs nat :=
  let* i := the_inode n in
  if mount i =? 0 then st_ret n
  else
    let* p := get_super_assert (mount i) in
    do! iput (Some n);
    let* sp := the_super p in
    let* r := deref_opt (iroot sp) in
    do! mod_inode r (λ i, i <| count $= λ c, u32 (c + 1) |>);
    st_ret r.

Definition put_super (p : option nat) : ST fs unit :=
  match p with
  | None => st_ret tt
  | Some p =>
      let* sp := the_super p in
      do! st_check (0 <? scount sp);
      do! mod_super p (λ sp, sp <| scount $= λ c, u32 (c - 1) |>);
      let* sp := the_super p in
      if negb (scount sp =? 0) then st_ret tt
      else
        do! mod_super p (λ sp, sp <| stype := FS_TYPE_NONE |>);
        do! iput (imount sp);
        do! iput (iroot sp);
        brelse_opt (sbuf sp)
  end.

(** ** [file.c]

    The entries 0 to 2 of the file table are not used. *)
Definition get_file : ST fs nat :=
  let* l := st_gets file_table in
  match find_from (λ f, fcount f =? 0) (drop 3 l) 3 with
  | Some n => do! mod_file n (λ f, f <| fcount $= λ c, u32 (c + 1) |>); st_ret n
  | None => st_stop Assert
  end.

Definition put_file (n : nat) : ST fs unit :=
  let* f := the_file n in
  do! st_check (0 <? fcount f);
  do! mod_file n (λ f, f <| fcount $= λ c, u32 (c - 1) |>);
  let* f := the_file n in
  if fcount f =? 0 then iput (finode f) else st_ret tt.

Definition file_init : ST fs unit :=
  st_mod (λ s, s <| file_table $= λ l, take 3 l ++ replicate (FILE_NR - 3) (mk_file None 0 0 0) |>).

(** [fd_t] is signed: a negative [fd] is outside the array. *)
Definition fd_check (fd : Z) : ST fs (Z * option nat) :=
  let* t := st_gets task in
  if TASK_FILE_NR <=? fd then st_ret (- EINVAL, None)
  else if fd <? 0 then st_stop Fault
  else
    let* f := st_deref (λ _, files t !! Z.to_nat fd) in
    match f with
    | None => st_ret (- EINVAL, None)
    | Some n => st_ret (EOK, Some n)
    end.

Definition mod_task (f : task_t → task_t) : ST fs unit := st_mod (λ s, s <| task $= f |>).
Definition set_fd (fd : Z) (o : option nat) : ST fs unit :=
  mod_task (λ t, t <| files $= <[Z.to_nat fd := o]> |>).

Definition fd_get : ST fs (Z * option nat) :=
  let* t := st_gets task in
  match find_from none (drop 3 (files t)) 3 with
  | None => st_ret (- EMFILE, None)
  | Some fd =>
      let* f := get_file in
      do! set_fd (Z.of_nat fd) (Some f);
      st_ret (Z.of_nat fd, Some f)
  end.

Definition fd_put (fd : Z) : ST fs Z :=
  let* (ret, f) := fd_check fd in
  match f with
  | None => st_ret ret
  | Some n =>
      let* f := the_file n in
      do! st_check (negb (none (finode f)));
      do! set_fd fd None;
      do! put_file n;
      st_ret EOK
  end.
End close.

(** ** Names ([match_name] of [namei.c])

    [rhs] is the memory from the entry's name on. *)
Definition char_at (l : list Z) : Z := hd 0 l.

(** The loop: the rest of the name, the character of the entry it ends at and the
    rest of [count]. *)
Fixpoint match_loop (lhs rhs : list Z) (cnt : Z) : res (list Z * Z * Z) :=
  match rhs with
  | [] => Stop Fault
  | r :: rhs' =>
      if (char_at lhs =? r) && negb (char_at lhs =? 0) && negb (r =? 0) then
        if cnt =? 0 then Ok (lhs, r, cnt - 1) else match_loop (tl lhs) rhs' (cnt - 1)
      else Ok (lhs, r, cnt)
  end.

(** [None]: false; otherwise [*next]. *)
Definition match_name (name rhs : list Z) (cnt : Z) : res (option (list Z)) :=
  let! (lhs, r, cnt) := match_loop name rhs cnt in
  if negb (r =? 0) && negb (cnt =? 0) then Ok None
  else if negb (char_at lhs =? 0) && negb (Str.IS_SEPARATOR (char_at lhs)) then Ok None
  else Ok (Some (if Str.IS_SEPARATOR (char_at lhs) then tl lhs else lhs)).

(** ** Lemmas on buffers *)
Lemma held_release (h : gmultiset key) k : ({[+ k +]} ⊎ h) ∖ {[+ k +]} = h.
Proof. multiset_solver. Qed.

Lemma release_eq (X : gmultiset key) k t : X = {[+ k +]} ⊎ t → X ∖ {[+ k +]} = t.
Proof. intros ->. apply held_release. Qed.
Lemma released s k bs : s <| held $= λ h, {[+ k +]} ⊎ h |> <| blocks := bs |> <| held $= λ h, h ∖ {[+ k +]} |> =
  s <| blocks := bs |>.
Proof.
  transitivity (mk_fs bs (({[+ k +]} ⊎ held s) ∖ {[+ k +]}) (inode_table s) (super_table s) (file_table s)
    (task s) (now s)); [done|]. by rewrite held_release.
Qed.
Lemma same_blocks s : s <| blocks := blocks s |> = s.
Proof. by destruct s. Qed.

(** The value [ld] finds. *)
Definition val (n : nat) (bs : gmap key (list Z)) (k : key) (off : Z) : Z :=
  match bs !! k with Some b => le (slice (Z.to_nat off) n b) | None => 0 end.

Definition in_block (n : nat) (bs : gmap key (list Z)) (k : key) (off : Z) : Prop :=
  ∃ b, bs !! k = Some b ∧ 0 ≤ off ∧ off + Z.of_nat n ≤ Z.of_nat (length b).

(** The blocks after [store_bytes]. *)
Definition put (bs : gmap key (list Z)) (k : key) (off : Z) (l : list Z) : gmap key (list Z) :=
  alter (list_inserts (Z.to_nat off) l) k bs.

Section buffers.
Context (E : stop → Prop).

Lemma wp_bread_block k (Q : unit → fs → Prop) s : is_Some (blocks s !! k) →
  Q tt (s <| held $= λ h, {[+ k +]} ⊎ h |>) → wp E (bread k) Q s.
Proof using. intros [b Hb] HQ. unfold bread. apply wp_bind. by eapply wp_deref. Qed.

Lemma wp_brelse k (Q : unit → fs → Prop) s : k ∈ held s →
  Q tt (s <| held $= λ h, h ∖ {[+ k +]} |>) → wp E (brelse k) Q s.
Proof using.
  intros Hk HQ. unfold brelse. apply wp_bind, wp_gets, wp_bind, wp_check_true; [|by apply wp_mod].
  by apply bool_decide_eq_true_2.
Qed.

Lemma wp_ld n k off (Q : Z → fs → Prop) s : in_block n (blocks s) k off →
  Q (val n (blocks s) k off) s → wp E (ld n k off) Q s.
Proof using.
  intros (b & Hb & H0 & Hl) HQ. unfold ld. apply wp_bind. eapply wp_deref; [exact Hb|].
  rewrite (proj2 (Z.leb_le _ _)), (proj2 (Z.leb_le _ _)) by done. cbn [andb]. apply wp_ret.
  unfold val in HQ. by rewrite Hb in HQ.
Qed.

Lemma wp_store_bytes k off l (Q : unit → fs → Prop) s : in_block (length l) (blocks s) k off →
  Q tt (s <| blocks := put (blocks s) k off l |>) → wp E (store_bytes k off l) Q s.
Proof using.
  intros (b & Hb & H0 & Hl) HQ. unfold store_bytes. apply wp_bind. eapply wp_deref; [exact Hb|].
  rewrite (proj2 (Z.leb_le _ _)), (proj2 (Z.leb_le _ _)) by done. cbn [andb]. apply wp_mod.
  unfold put in HQ. assert (alter (list_inserts (Z.to_nat off) l) k (blocks s) =
    <[k := list_inserts (Z.to_nat off) l b]> (blocks s)) as E0; [|rewrite E0 in HQ; exact HQ].
  apply map_eq. intros j. destruct (decide (j = k)) as [->|Hne].
  - by rewrite lookup_alter_eq, lookup_insert_eq, Hb.
  - by rewrite lookup_alter_ne, lookup_insert_ne.
Qed.

Lemma wp_st n k off v (Q : unit → fs → Prop) s : in_block n (blocks s) k off →
  Q tt (s <| blocks := put (blocks s) k off (le_bytes n v) |>) → wp E (st n k off v) Q s.
Proof using. intros Hb HQ. unfold st. apply wp_store_bytes; [by rewrite length_le_bytes|done]. Qed.
End buffers.

Lemma in_block_put n bs k off k' off' l : in_block n (put bs k' off' l) k off ↔ in_block n bs k off.
Proof.
  unfold in_block, put. destruct (decide (k = k')) as [->|Hne].
  - rewrite lookup_alter_eq. split.
    + intros (b & Hb & H). apply fmap_Some in Hb as (c & Hc & ->). exists c. by rewrite length_inserts in H.
    + intros (b & -> & H). cbn. eexists. split; [done|]. by rewrite length_inserts.
  - by rewrite lookup_alter_ne.
Qed.

Lemma val_put_other n bs k off k' off' l :
  k ≠ k' ∨ 0 ≤ off ∧ 0 ≤ off' ∧ (off + Z.of_nat n ≤ off' ∨ off' + Z.of_nat (length l) ≤ off) →
  val n (put bs k' off' l) k off = val n bs k off.
Proof.
  intros H. unfold val, put. destruct (decide (k = k')) as [->|Hne]; [|by rewrite lookup_alter_ne].
  rewrite lookup_alter_eq. destruct (bs !! k') as [b|]; [|done]. cbn.
  destruct H as [?|(H1 & H2 & H3)]; [done|]. rewrite slice_inserts_apart; [done|lia].
Qed.

Lemma val_put_same n bs k off v : in_block n bs k off →
  val n (put bs k off (le_bytes n v)) k off = v `mod` 256 ^ Z.of_nat n.
Proof.
  intros (b & Hb & H0 & Hl). unfold val, put. rewrite lookup_alter_eq, Hb. cbn.
  rewrite <-(length_le_bytes n v) at 1. rewrite slice_inserts, le_le_bytes; [done|].
  rewrite length_le_bytes. lia.
Qed.

Lemma put_lookup_other bs k k' off l : k ≠ k' → put bs k' off l !! k = bs !! k.
Proof. intros Hne. unfold put. by rewrite lookup_alter_ne. Qed.

Lemma put_is_some bs k k' off l : is_Some (put bs k' off l !! k) ↔ is_Some (bs !! k).
Proof.
  unfold put. destruct (decide (k = k')) as [->|Hne]; [|by rewrite lookup_alter_ne].
  rewrite lookup_alter_eq. apply fmap_is_Some.
Qed.

(** ** Lemmas on searches *)
Lemma find_from_spec {A} (P : A → bool) l : ∀ i,
  match find_from P l i with
  | Some j => ∃ x, (i <= j)%nat ∧ l !! (j - i)%nat = Some x ∧ P x = true ∧
      ∀ m y, (i <= m < j)%nat → l !! (m - i)%nat = Some y → P y = false
  | None => ∀ m y, l !! m = Some y → P y = false
  end.
Proof.
  induction l as [|x l IH]; intros i; [done|]. cbn [find_from]. destruct (P x) eqn:Ep.
  - exists x. rewrite Nat.sub_diag. split; [done|]. split; [done|]. split; [done|]. lia.
  - specialize (IH (S i)). destruct (find_from P l (S i)) as [j|].
    + destruct IH as (y & Hj & Hy & Hp & Hmin). exists y. split; [lia|].
      replace (j - i)%nat with (S (j - S i)) by lia. split; [done|]. split; [done|].
      intros m z Hm Hz. destruct (decide (m = i)) as [->|]; [rewrite Nat.sub_diag in Hz; by simplify_eq/=|].
      replace (m - i)%nat with (S (m - S i)) in Hz by lia. by apply (Hmin m); [lia|].
    + intros [|m] y Hy; [by simplify_eq/=|]. by apply (IH m).
Qed.

Lemma find_from_Some {A} (P : A → bool) l i : find_from P l 0 = Some i ↔
  ∃ x, l !! i = Some x ∧ P x = true ∧ ∀ m y, (m < i)%nat → l !! m = Some y → P y = false.
Proof.
  pose proof (find_from_spec P l 0) as H. split.
  - intros E. rewrite E in H. destruct H as (x & _ & Hx & Hp & Hmin). rewrite Nat.sub_0_r in Hx. exists x.
    split; [done|]. split; [done|]. intros m y Hm Hy. apply (Hmin m); [lia|]. by rewrite Nat.sub_0_r.
  - intros (x & Hx & Hp & Hmin). destruct (find_from P l 0) as [j|].
    + destruct H as (y & _ & Hy & Hpy & Hminj). rewrite Nat.sub_0_r in Hy. f_equal.
      destruct (lt_eq_lt_dec i j) as [[Hlt| ->]|Hlt]; [|done|].
      * specialize (Hminj i x ltac:(lia)). rewrite Nat.sub_0_r in Hminj. by rewrite Hminj in Hp.
      * by rewrite (Hmin j y Hlt Hy) in Hpy.
    + by rewrite (H i x Hx) in Hp.
Qed.

Lemma find_from_None {A} (P : A → bool) l : find_from P l 0 = None ↔ ∀ m y, l !! m = Some y → P y = false.
Proof.
  pose proof (find_from_spec P l 0) as H. split; [intros E; by rewrite E in H|].
  intros Hall. destruct (find_from P l 0) as [j|]; [|done]. destruct H as (x & _ & Hx & Hp & _).
  by rewrite (Hall _ _ Hx) in Hp.
Qed.
