(* ===== verification/Minix.v ===== *)
(** * The minix file system ([src/src/fs/minix/minix.c], [minix.h])

    The zone and inode bitmaps, the map from the blocks of a file to zones,
    reading, writing and truncating files, directories, and the operations of
    the file system, over the buffers and tables of Fs.v.  Devices as files are
    read and written through parameters. *)
From stdpp Require Import gmultiset.
From S2P Require Import Prelude Fs.
From S2P Require Bitmap Str.
Open Scope Z_scope.

(** ** [minix.h] *)
Definition SECTOR_SIZE : Z := 512.
Definition BLOCK_SECS : Z := BLOCK_SIZE `div` SECTOR_SIZE.
Definition MINIX1_MAGIC : Z := 0x137F.
Definition MINIX1_NAME_LEN : Z := 14.
Definition BLOCK_BITS : Z := BLOCK_SIZE * 8.
Definition sizeof_inode : Z := 32.
Definition sizeof_dentry : Z := 16.
Definition BLOCK_INODES : Z := BLOCK_SIZE `div` sizeof_inode.
Definition BLOCK_DENTRIES : Z := BLOCK_SIZE `div` sizeof_dentry.
Definition BLOCK_INDEXES : Z := BLOCK_SIZE `div` 2.
Definition DIRECT_BLOCK : Z := 7.
Definition INDIRECT1_BLOCK : Z := BLOCK_INDEXES.
Definition INDIRECT2_BLOCK : Z := INDIRECT1_BLOCK * INDIRECT1_BLOCK.
Definition TOTAL_BLOCK : Z := DIRECT_BLOCK + INDIRECT1_BLOCK + INDIRECT2_BLOCK.

(** The string of [ACC_MODE] has signed characters. *)
Definition ACC_MODE (x : Z) : Z :=
  let m := Z.land x O_ACCMODE in
  if m =? 0 then 4 else if m =? 1 then 2 else if m =? 2 then 6 else -1.

(** Offsets of the fields of [minix_super_t], [minix_inode_t] and
    [minix_dentry_t]. *)
Definition s_inodes : Z := 0.
Definition s_zones : Z := 2.
Definition s_imap_blocks : Z := 4.
Definition s_zmap_blocks : Z := 6.
Definition s_firstdatazone : Z := 8.
Definition s_log_zone_size : Z := 10.
Definition s_max_size : Z := 12.
Definition s_magic : Z := 16.
Definition i_mode : Z := 0.
Definition i_uid : Z := 2.
Definition i_size : Z := 4.
Definition i_mtime : Z := 8.
Definition i_gid : Z := 12.
Definition i_nlinks : Z := 13.
Definition i_zone (index : Z) : Z := 14 + 2 * index.
Definition d_nr : Z := 0.
Definition d_name : Z := 2.

(** [desc->field] of a super block. *)
Definition super_field (p : nat) (off : Z) : ST fs Z :=
  let* sp := the_super p in
  let* k := deref_opt (sbuf sp) in
  ld 2 k off.

(** ** Allocation *)

(** [bitmap_scan(&map, 1)] on the bytes of a buffer. *)
Definition scan_block (k : key) (len off : Z) : ST fs Z :=
  let* b := st_deref (λ s, blocks s !! k) in
  let* (bit, map) := st_lift (Bitmap.bitmap_scan (Bitmap.bitmap_make b len off) 1) in
  do! st_mod (λ s, s <| blocks $= <[k := Bitmap.bits map]> |>);
  st_ret bit.

(** [assert(bitmap_test)] and [bitmap_set] to 0. *)
Definition clear_block (k : key) (len off idx : Z) : ST fs unit :=
  let* b := st_deref (λ s, blocks s !! k) in
  let map := Bitmap.bitmap_make b len off in
  let* t := st_lift (Bitmap.bitmap_test map idx) in
  do! st_check t;
  let* map := st_lift (Bitmap.bitmap_set map idx false) in
  st_mod (λ s, s <| blocks $= <[k := Bitmap.bits map]> |>).

(** The blocks of a bitmap from [bidx] on, [js] of them; the result has the bit
    and the buffer that [brelse] gets. *)
Fixpoint alloc_loop (dv bidx len off0 limit : Z) (js : list Z) (last : option key) : ST fs (Z * option key) :=
  match js with
  | [] => st_ret (EOF, last)
  | i :: js' =>
      let k := (dv, bidx + i) in
      do! bread k;
      let* bit := scan_block k len (i * BLOCK_BITS + off0) in
      if bit =? EOF then alloc_loop dv bidx len off0 limit js' (Some k)
      else
        do! st_check (u32 bit <? limit);
        st_ret (bit, Some k)
  end.

Fixpoint free_loop (dv bidx len off0 idx : Z) (js : list Z) : ST fs unit :=
  match js with
  | [] => st_stop Fault
  | i :: js' =>
      if BLOCK_BITS * (i + 1) <? idx then free_loop dv bidx len off0 idx js'
      else
        let k := (dv, bidx + i) in
        do! bread k;
        do! clear_block k len (BLOCK_BITS * i + off0) idx;
        brelse k
  end.

Definition minix_balloc (p : nat) : ST fs Z :=
  let* imap := super_field p s_imap_blocks in
  let* zmap := super_field p s_zmap_blocks in
  let* fdz := super_field p s_firstdatazone in
  let* zones := super_field p s_zones in
  let* sp := the_super p in
  let* (bit, last) := alloc_loop (sdev sp) (2 + imap) BLOCK_SIZE (fdz - 1) zones (seqZ 0 zmap) None in
  do! brelse_opt last;
  st_ret (u32 bit).

Definition minix_bfree (p : nat) (idx : Z) : ST fs unit :=
  let* zones := super_field p s_zones in
  do! st_check (idx <? zones);
  let* imap := super_field p s_imap_blocks in
  let* zmap := super_field p s_zmap_blocks in
  let* fdz := super_field p s_firstdatazone in
  let* sp := the_super p in
  free_loop (sdev sp) (2 + imap) BLOCK_SIZE (fdz - 1) idx (seqZ 0 zmap).

(** The inode bitmaps are given [BLOCK_BITS] bytes. *)
Definition minix_ialloc (p : nat) : ST fs Z :=
  let* imap := super_field p s_imap_blocks in
  let* inodes := super_field p s_inodes in
  let* sp := the_super p in
  let* (bit, last) := alloc_loop (sdev sp) 2 BLOCK_BITS 0 inodes (seqZ 0 imap) None in
  do! brelse_opt last;
  st_ret (u32 bit).

Definition minix_ifree (p : nat) (idx : Z) : ST fs unit :=
  let* inodes := super_field p s_inodes in
  do! st_check (idx <? inodes);
  let* imap := super_field p s_imap_blocks in
  let* sp := the_super p in
  free_loop (sdev sp) 2 BLOCK_BITS 0 idx (seqZ 0 imap).

(** ** From blocks of a file to zones *)

(** The index in the inode's array, the level, the divider and the rest of the
    block number. *)
Definition bmap_start (block : Z) : Z * nat * Z * Z :=
  if block <? DIRECT_BLOCK then (block, 0%nat, 1, block)
  else
    let block := block - DIRECT_BLOCK in
    if block <? INDIRECT1_BLOCK then (DIRECT_BLOCK, 1%nat, 1, block)
    else (DIRECT_BLOCK + 1, 2%nat, BLOCK_INDEXES, block - INDIRECT1_BLOCK).

(** The loop of [reckon]: [b] is the buffer to release, [k] and [off] the array. *)
Fixpoint reckon (level : nat) (p : nat) (dv : Z) (create : bool) (b k : key) (off index block divider : Z)
    : ST fs Z :=
  let* z := ld 2 k (off + 2 * index) in
  do! (if (z =? 0) && create then
         let* z := minix_balloc p in
         st 2 k (off + 2 * index) z
       else st_ret tt);
  do! brelse b;
  let* z := ld 2 k (off + 2 * index) in
  match level with
  | O => st_ret z
  | S level' =>
      if z =? 0 then st_ret z
      else
        do! bread (dv, z);
        reckon level' p dv create (dv, z) (dv, z) 0 (u16 (block `div` divider)) (block `mod` divider)
          (divider `div` BLOCK_INDEXES)
  end.

Definition hold (k : key) : ST fs unit := st_mod (λ s, s <| held $= λ h, {[+ k +]} ⊎ h |>).

(** [inode->desc]. *)
Definition the_desc (i : inode_t) : ST fs (key * Z) := deref_opt (desc i).

Definition minix_bmap (n : nat) (block : Z) (create : bool) : ST fs Z :=
  do! st_check (block <? TOTAL_BLOCK);
  let* i := the_inode n in
  let* (k, off) := the_desc i in
  let* b := deref_opt (buf i) in
  do! hold b;
  let '(index, level, divider, rest) := bmap_start block in
  let* p := deref_opt (super i) in
  reckon level p (dev i) create b k (off + i_zone 0) index rest divider.

(** ** Inodes *)
Definition minix_close (n : nat) : ST fs unit :=
  let* i := the_inode n in
  do! st_check (type i =? FS_TYPE_MINIX);
  do! mod_inode n (λ i, i <| count $= λ c, u32 (c - 1) |>);
  let* i := the_inode n in
  if negb (count i =? 0) then st_ret tt
  else
    do! brelse_opt (buf i);
    let* p := deref_opt (super i) in
    let* sp := the_super p in
    do! st_check (bool_decide (n ∈ inode_list sp));
    do! mod_super p (λ sp, sp <| inode_list $= filter (λ m, m ≠ n) |>);
    do! mod_inode n (λ i, i <| buf := None |> <| desc := None |> <| super := None |> <| op := None |>);
    put_free_inode n.

Definition inode_block (p : nat) (n : Z) : ST fs Z :=
  let* imap := super_field p s_imap_blocks in
  let* zmap := super_field p s_zmap_blocks in
  st_ret (u32 (2 + imap + zmap + u32 (n - 1) `div` BLOCK_INODES)).

(** The operations below use those of other file systems, when they meet one that
    is mounted, and devices. *)
Section ops.
Context (close_other : nat → ST fs unit) (truncate_other : nat → ST fs Z).
Context (device_get : Z → ST fs unit) (device_read : Z → Z → Z → ST fs (Z * list Z)).
Context (device_write : Z → list Z → Z → Z → ST fs Z) (device_ioctl : Z → Z → Z → ST fs Z).

(** [inode->op->close(inode)] *)
Definition close_op (n : nat) : ST fs unit :=
  let* i := the_inode n in
  let* o := deref_opt (op i) in
  if o =? FS_TYPE_MINIX then minix_close n else close_other n.

Definition iget (dv n : Z) : ST fs nat :=
  let* r := find_inode dv n in
  let* t := st_gets now in
  match r with
  | Some m =>
      do! mod_inode m (λ i, i <| count $= λ c, u32 (c + 1) |> <| atime := t |>);
      fit_inode close_op m
  | None =>
      let* p := get_super_assert dv in
      let* inodes := super_field p s_inodes in
      do! st_check (n <=? inodes);
      let* m := get_free_inode in
      do! mod_inode m (λ i, i <| dev := dv |> <| nr := n |> <| count $= λ c, u32 (c + 1) |>);
      let* sp := the_super p in
      do! st_check (negb (bool_decide (m ∈ inode_list sp)));
      do! mod_super p (λ sp, sp <| inode_list $= cons m |>);
      let* blk := inode_block p n in
      let k := (dv, blk) in
      do! bread k;
      let off := sizeof_inode * (u32 (n - 1) `mod` BLOCK_INODES) in
      do! mod_inode m (λ i, i <| buf := Some k |> <| desc := Some (k, off) |>);
      let* z := ld 2 k (off + i_zone 0) in
      let* mt := ld 4 k (off + i_mtime) in
      let* md := ld 2 k (off + i_mode) in
      let* sz := ld 4 k (off + i_size) in
      let* u := ld 2 k (off + i_uid) in
      let* g := ld 1 k (off + i_gid) in
      do! mod_inode m (λ i, i <| rdev := z |> <| atime := t |> <| mtime := mt |> <| ctime := mt |>
            <| mode := md |> <| size := sz |> <| super := Some p |> <| uid := u |> <| gid := g |>
            <| type := FS_TYPE_MINIX |> <| op := Some FS_TYPE_MINIX |>);
      fit_inode close_op m
  end.

Definition new_inode (dv n : Z) : ST fs nat :=
  let* t := st_gets task in
  let* m := iget dv n in
  let* i := the_inode m in
  let* (k, off) := the_desc i in
  let* now := st_gets now in
  do! store_bytes k off (replicate (Z.to_nat sizeof_inode) 0);
  let md := Z.land 0x1ff (Z.lnot (umask t)) in
  do! st 2 k (off + i_mode) md;
  do! st 2 k (off + i_uid) (tuid t);
  do! st 1 k (off + i_gid) (tgid t);
  do! st 4 k (off + i_size) 0;
  do! st 4 k (off + i_mtime) now;
  do! st 1 k (off + i_nlinks) 1;
  do! mod_inode m (λ i, i <| mode := md |> <| uid := u16 (tuid t) |> <| gid := u8 (tgid t) |> <| size := 0 |>
        <| mtime := now |> <| atime := now |> <| ctime := now |>);
  st_ret m.

(** ** Files *)

(** A turn of the loop of [minix_read]: the number of bytes left, those read so
    far and the offset. *)
Fixpoint read_loop (fuel : nat) (n : nat) (lft offset : Z) (acc : list Z) : ST fs (Z * list Z) :=
  match fuel with
  | O => st_stop Fuel
  | S fuel' =>
      if lft =? 0 then st_ret (offset, acc)
      else
        let* z := minix_bmap n (u32 (Z.quot offset BLOCK_SIZE)) false in
        do! st_check (negb (z =? 0));
        let* i := the_inode n in
        let k := (dev i, z) in
        do! bread k;
        let start := u32 (Z.rem offset BLOCK_SIZE) in
        let chars := Z.min (BLOCK_SIZE - start) lft in
        let* b := st_deref (λ s, blocks s !! k) in
        do! brelse k;
        read_loop fuel' n (lft - chars) (s32 (offset + chars)) (acc ++ slice (Z.to_nat start) (Z.to_nat chars) b)
  end.

(** The result is the return value and the bytes put into [data]. *)
Definition minix_read (n : nat) (len offset : Z) : ST fs (Z * list Z) :=
  let* i := the_inode n in
  let* (k, off) := the_desc i in
  let* md := ld 2 k (off + i_mode) in
  if ISCHR md then
    let* z := ld 2 k (off + i_zone 0) in
    do! st_check (negb (z =? 0));
    device_read z len 0
  else if ISBLK md then
    let* z := ld 2 k (off + i_zone 0) in
    do! st_check (negb (z =? 0));
    do! device_get z;
    do! st_check (Z.rem len BLOCK_SIZE =? 0);
    let* r := device_read z (Z.quot len BLOCK_SIZE) (Z.quot offset BLOCK_SIZE) in
    do! st_check (r.1 =? EOK);
    st_ret (len, r.2)
  else
    do! st_check (ISFILE md || ISDIR md);
    let* sz := ld 4 k (off + i_size) in
    if sz <=? u32 offset then st_ret (EOF, [])
    else
      let lft := Z.min (u32 len) (u32 (sz - offset)) in
      let* r := read_loop (S (Z.to_nat lft)) n lft offset [] in
      let* t := st_gets now in
      do! mod_inode n (λ i, i <| atime := t |>);
      st_ret (s32 (r.1 - offset), r.2).

Fixpoint write_loop (fuel : nat) (n : nat) (k : key) (off : Z) (data : list Z) (lft offset : Z) : ST fs Z :=
  match fuel with
  | O => st_stop Fuel
  | S fuel' =>
      if lft =? 0 then st_ret offset
      else
        let* z := minix_bmap n (u32 (Z.quot offset BLOCK_SIZE)) true in
        do! st_check (negb (z =? 0));
        let* i := the_inode n in
        let kz := (dev i, z) in
        do! bread kz;
        let start := u32 (Z.rem offset BLOCK_SIZE) in
        let chars := Z.min (BLOCK_SIZE - start) lft in
        let offset := s32 (offset + chars) in
        let* sz := ld 4 k (off + i_size) in
        do! st_when (sz <? u32 offset)
              (do! st 4 k (off + i_size) offset;
               mod_inode n (λ i, i <| size := u32 offset |>));
        do! store_bytes kz start (take (Z.to_nat chars) data);
        do! brelse kz;
        write_loop fuel' n k off (drop (Z.to_nat chars) data) (lft - chars) offset
  end.

(** [data]: the [len] bytes of the buffer. *)
Definition minix_write (n : nat) (data : list Z) (offset : Z) : ST fs Z :=
  let len := Z.of_nat (length data) in
  let* i := the_inode n in
  let* (k, off) := the_desc i in
  let* md := ld 2 k (off + i_mode) in
  if ISCHR md then
    let* z := ld 2 k (off + i_zone 0) in
    do! st_check (negb (z =? 0));
    do! device_get z;
    device_write z data len 0
  else if ISBLK md then
    let* z := ld 2 k (off + i_zone 0) in
    do! st_check (negb (z =? 0));
    do! device_get z;
    do! st_check (Z.rem len BLOCK_SIZE =? 0);
    let* r := device_write z data (Z.quot len BLOCK_SIZE) (Z.quot offset BLOCK_SIZE) in
    do! st_check (r =? EOK);
    st_ret len
  else
    do! st_check (ISFILE md);
    let* last := write_loop (S (length data)) n k off data (u32 len) offset in
    let* t := st_gets now in
    do! st 4 k (off + i_mtime) t;
    do! mod_inode n (λ i, i <| atime := t |>);
    st_ret (s32 (last - offset)).

(** [inode_bfree(inode, array, index, level)] *)
Fixpoint inode_bfree (level : nat) (p : nat) (dv : Z) (k : key) (off index : Z) : ST fs unit :=
  let* z := ld 2 k (off + 2 * index) in
  if z =? 0 then st_ret tt
  else
    match level with
    | O => minix_bfree p z
    | S level' =>
        do! bread (dv, z);
        do! st_for (seqZ 0 BLOCK_INDEXES) (λ i, inode_bfree level' p dv (dv, z) 0 i);
        do! brelse (dv, z);
        let* z := ld 2 k (off + 2 * index) in
        minix_bfree p z
    end.

Definition minix_truncate (n : nat) : ST fs Z :=
  let* i := the_inode n in
  let* (k, off) := the_desc i in
  let* md := ld 2 k (off + i_mode) in
  if negb (ISFILE md) && negb (ISDIR md) then st_ret (- EPERM)
  else
    let* p := deref_opt (super i) in
    let a := off + i_zone 0 in
    do! st_for (seqZ 0 DIRECT_BLOCK) (λ j,
      do! inode_bfree 0 p (dev i) k a j;
      st 2 k (a + 2 * j) 0);
    do! inode_bfree 1 p (dev i) k a DIRECT_BLOCK;
    do! st 2 k (a + 2 * DIRECT_BLOCK) 0;
    do! inode_bfree 2 p (dev i) k a (DIRECT_BLOCK + 1);
    do! st 2 k (a + 2 * (DIRECT_BLOCK + 1)) 0;
    do! st 4 k (off + i_size) 0;
    do! mod_inode n (λ i, i <| size := 0 |>);
    let* t := st_gets now in
    do! st 4 k (off + i_mtime) t;
    st_ret EOK.

Definition minix_stat (n : nat) : ST fs (Z * option stat_t) :=
  let* i := the_inode n in
  let* (k, off) := the_desc i in
  let* md := ld 2 k (off + i_mode) in
  let* nl := ld 1 k (off + i_nlinks) in
  let* u := ld 2 k (off + i_uid) in
  let* g := ld 1 k (off + i_gid) in
  let* z := ld 2 k (off + i_zone 0) in
  let* sz := ld 4 k (off + i_size) in
  let* mt := ld 4 k (off + i_mtime) in
  st_ret (EOK, Some (mk_stat (dev i) (nr i) md nl u g z sz (atime i) mt (ctime i))).

Definition minix_permission (n : nat) (mask : Z) : ST fs bool :=
  let* i := the_inode n in
  let* (k, off) := the_desc i in
  let* md := ld 2 k (off + i_mode) in
  let* nl := ld 1 k (off + i_nlinks) in
  if nl =? 0 then st_ret false
  else
    let* t := st_gets task in
    if tuid t =? KERNEL_USER then st_ret true
    else
      let* u := ld 2 k (off + i_uid) in
      let* g := ld 1 k (off + i_gid) in
      let md := if tuid t =? u then Z.shiftr md 6 else if tgid t =? g then Z.shiftr md 3 else md in
      st_ret (Z.land (Z.land md mask) 7 =? mask).

(** ** Directories *)

(** The start of a turn of the loops over directory entries: the buffer and the
    offset of entry [i], with the next block when the present one is used up. *)
Definition next_entry (n : nat) (create : bool) (i : Z) (cur : option (key * Z)) : ST fs (key * Z) :=
  match cur with
  | Some (k, off) =>
      if off <? BLOCK_SIZE then st_ret (k, off)
      else
        do! brelse k;
        let* z := minix_bmap n (i `div` BLOCK_DENTRIES) create in
        do! st_check (negb (z =? 0));
        let* ino := the_inode n in
        do! bread (dev ino, z);
        st_ret ((dev ino, z), 0)
  | None =>
      let* z := minix_bmap n (i `div` BLOCK_DENTRIES) create in
      do! st_check (negb (z =? 0));
      let* ino := the_inode n in
      do! bread (dev ino, z);
      st_ret ((dev ino, z), 0)
  end.

(** [match_name] on the entry at [off]. *)
Definition match_entry (name : list Z) (k : key) (off : Z) : ST fs (option (list Z)) :=
  let* b := st_deref (λ s, blocks s !! k) in
  st_lift (match_name name (drop (Z.to_nat (off + d_name)) b) MINIX1_NAME_LEN).

(** The result: the entry (buffer and offset) and [*next]. *)
Fixpoint find_entry_loop (left : nat) (n : nat) (name : list Z) (i : Z) (cur : option (key * Z))
    : ST fs (option (key * Z * list Z)) :=
  match left with
  | O =>
      do! brelse_opt (fst <$> cur);
      st_ret None
  | S left' =>
      let* (k, off) := next_entry n false i cur in
      let* m := match_entry name k off in
      let* e := ld 2 k (off + d_nr) in
      match m with
      | Some next =>
          if negb (e =? 0) then st_ret (Some (k, off, next))
          else find_entry_loop left' n name (i + 1) (Some (k, off + sizeof_dentry))
      | None => find_entry_loop left' n name (i + 1) (Some (k, off + sizeof_dentry))
      end
  end.

Definition find_entry (n : nat) (name : list Z) : ST fs (option (key * Z * list Z)) :=
  let* i := the_inode n in
  let* (k, off) := the_desc i in
  let* md := ld 2 k (off + i_mode) in
  do! st_check (ISDIR md);
  let* sz := ld 4 k (off + i_size) in
  find_entry_loop (Z.to_nat (sz `div` sizeof_dentry)) n name 0 None.

(** What [strncpy] with [MINIX1_NAME_LEN] stores. *)
Definition name_bytes (name : list Z) : list Z :=
  if (length name <? Z.to_nat MINIX1_NAME_LEN)%nat then name ++ [0]
  else take (Z.to_nat (MINIX1_NAME_LEN - 1)) name ++ [0].

(** The loop ends at the first entry past the end of the directory at the latest. *)
Fixpoint add_entry_loop (fuel : nat) (n : nat) (kd : key) (offd : Z) (name : list Z) (i : Z)
    (cur : option (key * Z)) : ST fs (key * Z) :=
  match fuel with
  | O => st_stop Fuel
  | S fuel' =>
      let* (k, off) := next_entry n true i cur in
      let* sz := ld 4 kd (offd + i_size) in
      do! st_when (sz <=? i * sizeof_dentry)
            (do! st 2 k (off + d_nr) 0;
             do! st 4 kd (offd + i_size) ((i + 1) * sizeof_dentry);
             mod_inode n (λ ino, ino <| size := (i + 1) * sizeof_dentry |>));
      let* e := ld 2 k (off + d_nr) in
      if negb (e =? 0) then add_entry_loop fuel' n kd offd name (i + 1) (Some (k, off + sizeof_dentry))
      else
        do! store_bytes k (off + d_name) (name_bytes name);
        let* t := st_gets now in
        do! st 4 kd (offd + i_mtime) t;
        do! mod_inode n (λ ino, ino <| mtime := t |>);
        st_ret (k, off)
  end.

Definition add_entry (n : nat) (name : list Z) : ST fs (key * Z) :=
  let* r := find_entry n name in
  match r with
  | Some (k, off, _) => st_ret (k, off)
  | None =>
      do! st_check (negb (existsb Str.IS_SEPARATOR (take (Z.to_nat MINIX1_NAME_LEN) name)));
      let* i := the_inode n in
      let* (k, off) := the_desc i in
      let* sz := ld 4 k (off + i_size) in
      add_entry_loop (S (S (Z.to_nat (sz `div` sizeof_dentry)))) n k off name 0 None
  end.

(** The result is the return value and, for 0, the inode. *)
Definition minix_open (dir : nat) (name : list Z) (flags mode0 : Z) : ST fs (Z * option nat) :=
  let flags := if negb (Z.land flags O_TRUNC =? 0) && (Z.land flags O_ACCMODE =? O_RDONLY)
               then Z.lor flags O_RDWR else flags in
  (* from the label makeup on *)
  let makeup b n :=
    let* ok := minix_permission n (ACC_MODE (Z.land flags O_ACCMODE)) in
    let* i := the_inode n in
    if negb ok || (ISDIR (mode i) && negb (Z.land flags O_ACCMODE =? O_RDONLY)) then
      do! brelse b;
      do! iput close_op (Some n);
      st_ret (EOF, None)
    else
      let* t := st_gets now in
      do! mod_inode n (λ i, i <| atime := t |>);
      do! (if negb (Z.land flags O_TRUNC =? 0) then
             let* o := deref_opt (op i) in
             let* _ := (if o =? FS_TYPE_MINIX then minix_truncate n else truncate_other n) in
             st_ret tt
           else st_ret tt);
      do! brelse b;
      st_ret (EOK, Some n) in
  let* d := the_inode dir in
  let* r := find_entry dir name in
  match r with
  | Some (b, off, _) =>
      let* e := ld 2 b (off + d_nr) in
      let* n := iget (dev d) e in
      makeup b n
  | None =>
      if Z.land flags O_CREAT =? 0 then st_ret (- EEXIST, None)
      else
        let* ok := minix_permission dir P_WRITE in
        if negb ok then st_ret (- EPERM, None)
        else
          let* (b, off) := add_entry dir name in
          let* p := deref_opt (super d) in
          let* e := minix_ialloc p in
          do! st 2 b (off + d_nr) e;
          let* e := ld 2 b (off + d_nr) in
          let* n := new_inode (dev d) e in
          let* t := st_gets task in
          let md := Z.lor (Z.land mode0 (Z.land 0x1ff (Z.lnot (umask t)))) IFREG in
          let* i := the_inode n in
          let* (k, o) := the_desc i in
          do! st 2 k (o + i_mode) md;
          do! mod_inode n (λ i, i <| mode := u16 md |>);
          makeup b n
  end.

Definition minix_namei (dir : nat) (name : list Z) : ST fs (Z * option (list Z * nat)) :=
  let* d := the_inode dir in
  let* r := find_entry dir name in
  match r with
  | None => st_ret (- ENOENT, None)
  | Some (b, off, next) =>
      let* e := ld 2 b (off + d_nr) in
      let* n := iget (dev d) e in
      do! brelse b;
      st_ret (EOK, Some (next, n))
  end.

Definition minix_mkdir (dir : nat) (name : list Z) (mode0 : Z) : ST fs Z :=
  let* d := the_inode dir in
  let* (kd, offd) := the_desc d in
  let* md := ld 2 kd (offd + i_mode) in
  do! st_check (ISDIR md);
  let* ok := minix_permission dir P_WRITE in
  if negb ok then st_ret (- EPERM)
  else
    let* r := find_entry dir name in
    match r with
    | Some (b, _, _) => do! brelse b; st_ret (- EEXIST)
    | None =>
        let* (b, off) := add_entry dir name in
        let* p := deref_opt (super d) in
        let* e := minix_ialloc p in
        do! st 2 b (off + d_nr) e;
        let* t := st_gets task in
        let* e := ld 2 b (off + d_nr) in
        let* n := new_inode (dev d) e in
        let* i := the_inode n in
        let* (k, o) := the_desc i in
        let m := Z.lor (Z.land (Z.land mode0 0x1ff) (Z.lnot (umask t))) IFDIR in
        do! st 2 k (o + i_mode) m;
        do! st 4 k (o + i_size) (sizeof_dentry * 2);
        do! st 1 k (o + i_nlinks) 2;
        do! mod_inode n (λ i, i <| mode := u16 m |> <| size := sizeof_dentry * 2 |>);
        let* nl := ld 1 kd (offd + i_nlinks) in
        do! st 1 kd (offd + i_nlinks) (nl + 1);
        let* z := minix_bmap n 0 true in
        do! st_check (negb (z =? 0));
        let* i := the_inode n in
        let kz := (dev i, z) in
        do! bread kz;
        do! store_bytes kz d_name [46; 0];
        do! st 2 kz d_nr (nr i);
        do! store_bytes kz (sizeof_dentry + d_name) [46; 46; 0];
        let* d := the_inode dir in
        do! st 2 kz (sizeof_dentry + d_nr) (nr d);
        do! iput close_op (Some n);
        do! brelse b;
        do! brelse kz;
        st_ret EOK
    end.

(** The number of entries in use. *)
Fixpoint count_loop (left : nat) (n : nat) (i cnt : Z) (cur : option (key * Z)) : ST fs Z :=
  match left with
  | O => do! brelse_opt (fst <$> cur); st_ret cnt
  | S left' =>
      let* (k, off) := next_entry n false i cur in
      let* e := ld 2 k (off + d_nr) in
      count_loop left' n (i + 1) (if e =? 0 then cnt else cnt + 1) (Some (k, off + sizeof_dentry))
  end.

Definition is_empty (n : nat) : ST fs bool :=
  let* i := the_inode n in
  let* (k, off) := the_desc i in
  let* md := ld 2 k (off + i_mode) in
  do! st_check (ISDIR md);
  let* sz := ld 4 k (off + i_size) in
  let* z := ld 2 k (off + i_zone 0) in
  let entries := sz `div` sizeof_dentry in
  if (entries <? 2) || (z =? 0) then st_ret false
  else
    let* cnt := count_loop (Z.to_nat entries) n 0 0 None in
    st_ret (if cnt <? 2 then false else cnt =? 2).

Definition minix_rmdir (dir : nat) (name : list Z) : ST fs Z :=
  let* d := the_inode dir in
  let* (kd, offd) := the_desc d in
  let* dmd := ld 2 kd (offd + i_mode) in
  do! st_check (ISDIR dmd);
  let* ok := minix_permission dir P_WRITE in
  if negb ok then st_ret (- EPERM)
  else
    let* r := find_entry dir name in
    match r with
    | None => st_ret (- ENOENT)
    | Some (b, off, _) =>
        let* e := ld 2 b (off + d_nr) in
        let* n := iget (dev d) e in
        let rollback ret := do! iput close_op (Some n); do! brelse b; st_ret ret in
        if bool_decide (n = dir) then rollback (- EPERM)
        else
          let* i := the_inode n in
          let* (k, o) := the_desc i in
          let* md := ld 2 k (o + i_mode) in
          if negb (ISDIR md) then rollback (- ENOTDIR)
          else
            let* t := st_gets task in
            let* dmd := ld 2 kd (offd + i_mode) in
            let* u := ld 2 k (o + i_uid) in
            if negb (Z.land dmd ISVTX =? 0) && negb (tuid t =? u) then rollback (- EPERM)
            else
              let* d := the_inode dir in
              if negb (dev d =? dev i) || (1 <? count i) then rollback (- EPERM)
              else
                let* empty := is_empty n in
                if negb empty then rollback (- ENOTEMPTY)
                else
                  let* nl := ld 1 k (o + i_nlinks) in
                  do! st_check (nl =? 2);
                  let* r := minix_truncate n in
                  do! st_check (r =? EOK);
                  let* p := deref_opt (super i) in
                  let* i := the_inode n in
                  do! minix_ifree p (nr i);
                  do! st 1 k (o + i_nlinks) 0;
                  do! mod_inode n (λ i, i <| nr := 0 |>);
                  let* dnl := ld 1 kd (offd + i_nlinks) in
                  do! st 1 kd (offd + i_nlinks) (dnl - 1);
                  let* now := st_gets now in
                  do! st 4 kd (offd + i_mtime) now;
                  do! mod_inode dir (λ d, d <| ctime := now |> <| atime := now |>);
                  let* dnl := ld 1 kd (offd + i_nlinks) in
                  do! st_check (0 <? dnl);
                  do! st 2 b (off + d_nr) 0;
                  rollback 0
    end.

Definition minix_link (odir : nat) (oldname : list Z) (ndir : nat) (newname : list Z) : ST fs Z :=
  let* (ret, r) := minix_namei odir oldname in
  match r with
  | None => st_ret ret
  | Some (_, n) =>
      let rollback b ret := do! brelse_opt b; do! iput close_op (Some n); st_ret ret in
      let* i := the_inode n in
      let* (k, o) := the_desc i in
      let* md := ld 2 k (o + i_mode) in
      if ISDIR md then rollback None (- EPERM)
      else
        let* nd := the_inode ndir in
        let* (kn, offn) := the_desc nd in
        let* nmd := ld 2 kn (offn + i_mode) in
        if negb (ISDIR nmd) then rollback None (- EPERM)
        else if negb (dev nd =? dev i) then rollback None (- EXDEV)
        else
          let* ok := minix_permission ndir P_WRITE in
          if negb ok then rollback None (- EACCES)
          else
            let* r := find_entry ndir newname in
            match r with
            | Some (b, _, _) => rollback (Some b) (- EEXIST)
            | None =>
                let* (b, off) := add_entry ndir newname in
                let* i := the_inode n in
                do! st 2 b (off + d_nr) (nr i);
                let* nl := ld 1 k (o + i_nlinks) in
                do! st 1 k (o + i_nlinks) (nl + 1);
                let* t := st_gets now in
                do! mod_inode n (λ i, i <| ctime := t |>);
                rollback (Some b) EOK
            end
  end.

Definition minix_unlink (dir : nat) (name : list Z) : ST fs Z :=
  let* ok := minix_permission dir P_WRITE in
  if negb ok then st_ret (- EPERM)
  else
    let* r := find_entry dir name in
    match r with
    | None => st_ret (- ENOENT)
    | Some (b, off, _) =>
        let* d := the_inode dir in
        let* e := ld 2 b (off + d_nr) in
        let* n := iget (dev d) e in
        let rollback ret := do! brelse b; do! iput close_op (Some n); st_ret ret in
        let* i := the_inode n in
        let* (k, o) := the_desc i in
        let* md := ld 2 k (o + i_mode) in
        if ISDIR md then rollback (- EPERM)
        else
          let* t := st_gets task in
          let* u := ld 2 k (o + i_uid) in
          if negb (Z.land md ISVTX =? 0) && negb (tuid t =? u) then rollback (- EPERM)
          else
            do! st 2 b (off + d_nr) 0;
            let* nl := ld 1 k (o + i_nlinks) in
            do! st 1 k (o + i_nlinks) (nl - 1);
            let* nl := ld 1 k (o + i_nlinks) in
            do! (if nl =? 0 then
                   let* _ := minix_truncate n in
                   let* p := deref_opt (super i) in
                   let* i := the_inode n in
                   minix_ifree p (nr i)
                 else st_ret tt);
            rollback 0
    end.

Definition minix_mknod (dir : nat) (name : list Z) (mode0 dv : Z) : ST fs Z :=
  let* ok := minix_permission dir P_WRITE in
  if negb ok then st_ret (- EPERM)
  else
    let* r := find_entry dir name in
    match r with
    | Some (b, _, _) => do! brelse b; st_ret (- EEXIST)
    | None =>
        let* (b, off) := add_entry dir name in
        let* d := the_inode dir in
        let* p := deref_opt (super d) in
        let* e := minix_ialloc p in
        do! st 2 b (off + d_nr) e;
        let* e := ld 2 b (off + d_nr) in
        let* n := new_inode (dev d) e in
        let* i := the_inode n in
        let* (k, o) := the_desc i in
        do! st 2 k (o + i_mode) mode0;
        do! st_when (ISBLK mode0 || ISCHR mode0 || ISSOCK mode0) (st 2 k (o + i_zone 0) dv);
        do! brelse b;
        do! iput close_op (Some n);
        st_ret 0
    end.

Definition minix_ioctl (n : nat) (cmd args : Z) : ST fs Z :=
  let* i := the_inode n in
  if negb (ISCHR (mode i)) && negb (ISBLK (mode i)) && negb (ISSOCK (mode i)) then st_ret (- EINVAL)
  else if 64 <=? rdev i then st_ret (- ENOTTY)
  else device_ioctl (rdev i) cmd args.

Definition minix_readdir (n : nat) (cnt offset : Z) : ST fs (Z * option dentry_t) :=
  let* r := minix_read n sizeof_dentry offset in
  if r.1 <? 0 then st_ret (r.1, None)
  else
    let name := slice 2 (Z.to_nat MINIX1_NAME_LEN) r.2 in
    let len := default (Z.to_nat MINIX1_NAME_LEN) (find_from (Z.eqb 0) name 0) in
    st_ret (r.1, Some (mk_dentry (le (slice 0 2 r.2)) sizeof_dentry (Z.of_nat len) (take len name ++ [0]))).

(** ** Super blocks *)
Definition minix_super (dv : Z) (p : nat) : ST fs Z :=
  let k := (dv, 1) in
  let* b := st_gets (λ s, blocks s !! k) in
  if none b then st_ret (- EFSUNK)
  else
    do! bread k;
    let* magic := ld 2 k s_magic in
    if negb (magic =? MINIX1_MAGIC) then do! brelse k; st_ret (- EFSUNK)
    else
      do! mod_super p (λ sp, sp <| sbuf := Some k |> <| sdev := dv |> <| stype := FS_TYPE_MINIX |>
            <| block_size := BLOCK_SIZE |> <| sector_size := SECTOR_SIZE |>);
      let* r := iget dv 1 in
      do! mod_super p (λ sp, sp <| iroot := Some r |>);
      st_ret EOK.

Definition div_round_up (num size : Z) : Z := u32 (num + size - 1) `div` size.

Definition DEV_CMD_SECTOR_COUNT : Z := 2.

Definition minix_mkfs (dv icount0 : Z) : ST fs Z :=
  let* sectors := device_ioctl dv DEV_CMD_SECTOR_COUNT 0 in
  let total_block := Z.quot sectors BLOCK_SECS in
  do! st_check (negb (total_block =? 0));
  do! st_check (icount0 <? total_block);
  let icount := if icount0 =? 0 then Z.quot total_block 3 else icount0 in
  let* p := get_free_super in
  do! mod_super p (λ sp, sp <| stype := FS_TYPE_MINIX |> <| sdev := dv |> <| scount $= λ c, u32 (c + 1) |>);
  let k := (dv, 1) in
  do! bread k;
  do! mod_super p (λ sp, sp <| sbuf := Some k |>);
  let inode_blocks := div_round_up (icount * sizeof_inode) BLOCK_SIZE in
  let imap := u16 (div_round_up icount BLOCK_BITS) in
  let zcount := total_block - imap - inode_blocks - 2 in
  let zmap := u16 (div_round_up zcount BLOCK_BITS) in
  do! st 2 k s_inodes icount;
  do! st 2 k s_zones total_block;
  do! st 2 k s_imap_blocks imap;
  do! st 2 k s_zmap_blocks zmap;
  do! st 2 k s_firstdatazone (2 + imap + zmap + inode_blocks);
  do! st 2 k s_log_zone_size 0;
  do! st 4 k s_max_size (BLOCK_SIZE * TOTAL_BLOCK);
  do! st 2 k s_magic MINIX1_MAGIC;
  do! st_for (seqZ 2 (imap + zmap)) (λ idx,
    do! bread (dv, idx);
    do! store_bytes (dv, idx) 0 (replicate (Z.to_nat BLOCK_SIZE) 0);
    brelse (dv, idx));
  let* _ := minix_balloc p in
  let* _ := minix_ialloc p in
  let* _ := minix_ialloc p in
  let* t := st_gets task in
  let* r := new_inode dv 1 in
  do! mod_super p (λ sp, sp <| iroot := Some r |>);
  let* i := the_inode r in
  let* (ki, o) := the_desc i in
  do! st 2 ki (o + i_mode) (Z.lor (Z.land 0x1ff (Z.lnot (umask t))) IFDIR);
  do! st 4 ki (o + i_size) (sizeof_dentry * 2);
  do! st 1 ki (o + i_nlinks) 2;
  let* z := minix_bmap r 0 true in
  let kz := (dv, z) in
  do! bread kz;
  do! store_bytes kz 0 (replicate (Z.to_nat BLOCK_SIZE) 0);
  do! store_bytes kz d_name [46; 0];
  do! st 2 kz d_nr (nr i);
  do! store_bytes kz (sizeof_dentry + d_name) [46; 46; 0];
  do! st 2 kz (sizeof_dentry + d_nr) (nr i);
  do! brelse kz;
  do! put_super close_op (Some p);
  st_ret 0.

Definition minix_op : fs_op_t :=
  mk_op minix_mkfs minix_super minix_open minix_close minix_ioctl minix_read minix_write minix_truncate
    minix_stat minix_permission minix_namei minix_mkdir minix_rmdir minix_link minix_unlink minix_mknod
    minix_readdir.
End ops.
