(* ===== verification/Iso9660.v ===== *)
(** * The file system of compact discs ([src/src/fs/iso9660/iso9660.c])

    Over the tables and the buffers of Fs; the blocks of such a device have 2048 bytes.
    [desc] points to a directory record in a buffer.  A read-only operation table for Vfs. *)
From stdpp Require Import gmultiset.
From S2P Require Import Prelude Bytes Fs.
From S2P Require Time.
Open Scope Z_scope.

Definition BLOCK_SIZE : Z := 2048.
Definition ISO_VD_PRIMARY : Z := 1.
Definition ISO_FLAG_SUBDIR : Z := 2.
Definition MAX_DENTRY_SIZE : Z := 256.
Definition IXOTH : Z := 1.
Definition IROTH : Z := 4.
Definition EROFS : Z := 30.
Definition MAXNAMELEN : Z := 64.

(** Offsets in [iso_dentry_t] and [iso_desc_t]. *)
Definition r_length : Z := 0.
Definition r_lba : Z := 2.
Definition r_size : Z := 10.
Definition r_date : Z := 18.
Definition r_flags : Z := 25.
Definition r_namelen : Z := 32.
Definition r_name : Z := 33.
Definition v_type : Z := 0.
Definition v_id : Z := 1.
Definition v_logical_block_size : Z := 128.
Definition v_root : Z := 156.

(** The [n] bytes at [off] of a buffer, and what is in it from there on. *)
Definition block_bytes (n : nat) (k : key) (off : Z) : ST fs (list Z) :=
  let* b := st_deref (λ s, blocks s !! k) in
  if (0 <=? off) && (off + Z.of_nat n <=? Z.of_nat (length b)) then st_ret (slice (Z.to_nat off) n b) else st_stop Fault.
Definition block_from (k : key) (off : Z) : ST fs (list Z) :=
  let* b := st_deref (λ s, blocks s !! k) in
  if 0 <=? off then st_ret (drop (Z.to_nat off) b) else st_stop Fault.

(** [data]: the seven bytes of a date; the fields of [t] that are not set are not read. *)
Definition iso_make_datetime (data : list Z) : res Z :=
  match data with
  | [year; month; day; hour; min; sec; zone] =>
      Time.mktime (Time.mk_tm sec (min + (s8 zone - 48) * 15) hour day month year 0 0 0)
  | _ => Stop Fault
  end.

(** ** Names *)
Definition toupper (ch : Z) : Z := if (97 <=? ch) && (ch <=? 122) then ch - 0x20 else ch.

Definition char_of (name : list Z) (i : Z) : res Z := if 0 <=? i then deref (name !! Z.to_nat i) else Stop Fault.
Definition iso_namelen (name : list Z) (len : Z) : res Z :=
  let! len := if 1 <? len then let! c := char_of name (len - 2) in Ok (if c =? 59 then len - 2 else len) else Ok len in
  if 0 <? len then let! c := char_of name (len - 1) in Ok (if c =? 46 then len - 1 else len) else Ok len.

Fixpoint upper_match (len1 : nat) (name1 name2 : list Z) : res bool :=
  match len1 with
  | O => Ok true
  | S len1' =>
      match name2 with
      | [] => Stop Fault
      | c :: name2' => if toupper (char_at name1) =? c then upper_match len1' (tl name1) name2' else Ok false
      end
  end.

(** [memcmp(s, name2, 1) == 0], for [len2 == 1] *)
Definition special (len2 c : Z) (name2 : list Z) : res bool :=
  if len2 =? 1 then let! d := deref (head name2) in Ok (d =? c) else Ok false.
Definition matches (name1 rhs : list Z) (count : Z) : res bool := let! r := match_name name1 rhs count in Ok (negb (none r)).

Definition iso_match_name (name1 : list Z) (len1 : Z) (name2 : list Z) (len2 : Z) : res bool :=
  let! dot := special len2 0 name2 in
  let! dot := if dot : bool then matches name1 [46; 0] 2 else Ok false in
  if dot : bool then Ok true
  else
    let! up := special len2 1 name2 in
    let! up := if up : bool then matches name1 [46; 46; 0] 3 else Ok false in
    if up : bool then Ok true
    else
      let! len2 := iso_namelen name2 len2 in
      if negb (len1 =? len2) then Ok false else upper_match (Z.to_nat len1) name1 name2.

(** The length of the first component of a path, and [next]. *)
Fixpoint namelen (name : list Z) : Z * list Z :=
  match name with
  | [] => (0, [])
  | c :: name' =>
      if c =? 0 then (0, name)
      else if Str.IS_SEPARATOR c then (0, name')
      else let '(n, next) := namelen name' in (n + 1, next)
  end.

(** ** Directories

    [buf] and [ptr]: the buffer and the offset in it.  A block that cannot be read fails the
    assertion. *)
Definition bread_assert (k : key) : ST fs unit :=
  let* b := st_gets (λ s, blocks s !! k) in
  do! st_check (negb (none b));
  bread k.

Fixpoint find_loop (fuel : nat) (dv : Z) (name : list Z) (len1 lba lft : Z) (cur : option key) (ptr : Z) : ST fs (option (key * Z)) :=
  match fuel with
  | O => st_stop Fuel
  | S fuel' =>
      if lft <=? 0 then do! brelse_opt cur; st_ret None
      else
        let* (k, ptr, lba) :=
          match cur with
          | Some k =>
              if BLOCK_SIZE <=? ptr
              then do! brelse k; do! bread_assert (dv, lba); st_ret ((dv, lba), 0, lba + 1)
              else st_ret (k, ptr, lba)
          | None => do! bread_assert (dv, lba); st_ret ((dv, lba), 0, lba + 1)
          end in
        let* len := ld 1 k (ptr + r_length) in
        if len =? 0 then find_loop fuel' dv name len1 lba (lft - BLOCK_SIZE) (Some k) BLOCK_SIZE
        else
          let* len2 := ld 1 k (ptr + r_namelen) in
          let* name2 := block_from k (ptr + r_name) in
          let* hit := st_lift (iso_match_name name len1 name2 len2) in
          if hit : bool then st_ret (Some (k, ptr)) else find_loop fuel' dv name len1 lba lft (Some k) (ptr + len)
  end.

(** A turn ends a block or passes a byte of one, and a block that was passed is not read again. *)
Definition find_fuel (s : fs) : nat := S (2049 * S (base.size (blocks s))).

(** The entry, with its buffer held, and the rest of the path. *)
Definition iso_find_entry (dir : nat) (name : list Z) : ST fs (option (key * Z) * list Z) :=
  let* i := the_inode dir in
  let* (k, off) := deref_opt (desc i) in
  let '(len1, next) := namelen name in
  let* lba := ld 4 k (off + r_lba) in
  let* lft := ld 4 k (off + r_size) in
  let* fuel := st_gets find_fuel in
  let* r := find_loop fuel (dev i) name len1 lba (s32 lft) None 0 in
  st_ret (r, next).

(** ** Inodes *)
Definition iso_make_mode (flags : Z) : Z :=
  let m := Z.lor IXOTH IROTH in
  let mode := Z.lor (Z.lor m (Z.shiftl m 3)) (Z.shiftl m 6) in
  let mode := if negb (Z.land flags ISO_FLAG_SUBDIR =? 0) then Z.lor mode IFDIR else mode in
  if flags =? 0 then Z.lor mode IFREG else mode.

(** The record is at [off] of the block [k]. *)
Definition iso_make_inode (p : nat) (k : key) (off : Z) : ST fs nat :=
  let* n := get_free_inode in
  let* sp := the_super p in
  let* lba := ld 4 k (off + r_lba) in
  let* date := block_bytes 7 k (off + r_date) in
  let* ct := st_lift (iso_make_datetime date) in
  let* flags := ld 1 k (off + r_flags) in
  let* sz := ld 4 k (off + r_size) in
  let* t := st_gets task in
  let* tm := st_gets now in
  do! mod_inode n (λ i, i <| count $= λ c, u32 (c + 1) |> <| dev := sdev sp |> <| nr := lba |> <| super := Some p |> <| op := Some FS_TYPE_ISO9660 |>
        <| mtime := ct |> <| ctime := ct |> <| atime := tm |> <| mode := u16 (iso_make_mode flags) |> <| uid := tuid t |> <| gid := tgid t |>
        <| size := sz |> <| type := FS_TYPE_ISO9660 |>);
  do! st_check (negb (bool_decide (n ∈ inode_list sp)));
  do! mod_super p (λ sp, sp <| inode_list $= cons n |>);
  st_ret n.

Definition iso_super (dv : Z) (p : nat) : ST fs Z :=
  let k := (dv, 0x10) in
  let* b := st_gets (λ s, blocks s !! k) in
  if none b then st_ret (- EFSUNK)
  else
    do! bread k;
    let* type := ld 1 k v_type in
    if negb (type =? ISO_VD_PRIMARY) then do! brelse k; st_ret (- EFSUNK)
    else
      let* id := block_bytes 5 k v_id in
      do! st_check (bool_decide (id = [67; 68; 48; 48; 49]));
      do! mod_super p (λ sp, sp <| sbuf := Some k |> <| sector_size := BLOCK_SIZE |> <| block_size := BLOCK_SIZE |>
            <| stype := FS_TYPE_ISO9660 |> <| sdev := dv |>);
      let* n := iso_make_inode p k v_root in
      do! st_mod (λ s, s <| held $= λ h, {[+ k +]} ⊎ h |>);
      do! mod_inode n (λ i, i <| buf := Some k |> <| desc := Some (k, v_root) |>);
      do! mod_super p (λ sp, sp <| iroot := Some n |>);
      let* bs := ld 2 k v_logical_block_size in
      do! st_check (bs =? BLOCK_SIZE);
      st_ret EOK.

Definition iso_permission (n : nat) (mask : Z) : ST fs bool := st_ret (Z.land (Z.land 5 mask) 7 =? mask).

Section ops.
Context (close_op : nat → ST fs unit).

Definition iso_namei (dir : nat) (name : list Z) : ST fs (Z * option (list Z * nat)) :=
  let* (r, next) := iso_find_entry dir name in
  match r with
  | None => st_ret (- ENOENT, None)
  | Some (k, off) =>
      let* lba := ld 4 k (off + r_lba) in
      let* i := find_inode k.1 lba in
      match i with
      | Some n =>
          let* t := st_gets now in
          do! mod_inode n (λ i, i <| count $= λ c, u32 (c + 1) |> <| atime := t |>);
          let* n := fit_inode close_op n in
          st_ret (EOK, Some (next, n))
      | None =>
          let* d := the_inode dir in
          let* p := deref_opt (super d) in
          let* n := iso_make_inode p k off in
          do! mod_inode n (λ i, i <| desc := Some (k, off) |> <| buf := Some k |>);
          let* n := fit_inode close_op n in
          st_ret (EOK, Some (next, n))
      end
  end.

Definition iso_open (dir : nat) (name : list Z) (flags mode0 : Z) : ST fs (Z * option nat) :=
  if negb (flags =? O_RDONLY) then st_ret (- EROFS, None)
  else
    let* r := iso_namei dir name in
    match r with
    | (ret, Some (_, n)) =>
        let* t := st_gets now in
        do! mod_inode n (λ i, i <| atime := t |>);
        st_ret (EOK, Some n)
    | (ret, None) => st_ret (ret, None)
    end.

Definition iso_close (n : nat) : ST fs unit :=
  do! mod_inode n (λ i, i <| count $= λ c, u32 (c - 1) |>);
  let* i := the_inode n in
  if negb (count i =? 0) then st_ret tt
  else
    do! brelse_opt (buf i);
    let* p := deref_opt (super i) in
    let* sp := the_super p in
    do! st_check (bool_decide (n ∈ inode_list sp));
    do! mod_super p (λ sp, sp <| inode_list $= filter (λ m, m ≠ n) |>);
    do! mod_inode n (λ i, i <| buf := None |> <| desc := None |> <| super := None |> <| op := None |>);
    put_free_inode n.

(** ** Files *)
Fixpoint iso_read_loop (fuel : nat) (dv lba bsize lft offset : Z) (acc : list Z) : ST fs (Z * list Z) :=
  match fuel with
  | O => st_stop Fuel
  | S fuel' =>
      if lft =? 0 then st_ret (offset, acc)
      else
        let nr := u32 offset / bsize in
        let k := (dv, u32 (lba + nr)) in
        do! bread k;
        let start := u32 offset `mod` bsize in
        let chars := Z.min (bsize - start) lft in
        let* data := block_bytes (Z.to_nat chars) k start in
        do! brelse k;
        iso_read_loop fuel' dv lba bsize (lft - chars) (s32 (offset + chars)) (acc ++ data)
  end.

(** The result and the bytes put into [data]. *)
Definition iso_read (n : nat) (len offset : Z) : ST fs (Z * list Z) :=
  let* i := the_inode n in
  do! st_check (type i =? FS_TYPE_ISO9660);
  let* (k, off) := deref_opt (desc i) in
  let* sz := ld 4 k (off + r_size) in
  if sz <=? u32 offset then st_ret (EOF, [])
  else
    let lft := Z.min (u32 len) (u32 (sz - offset)) in
    let* lba := ld 4 k (off + r_lba) in
    let* p := deref_opt (super i) in
    let* sp := the_super p in
    let* (end_, data) := iso_read_loop (S (Z.to_nat lft)) (dev i) lba (block_size sp) lft offset [] in
    let* t := st_gets now in
    do! mod_inode n (λ i, i <| atime := t |>);
    st_ret (s32 (end_ - offset), data).

(** [garbage] is the block of [kmalloc].  A record of length 0 leaves the name of the entry. *)
Definition iso_readdir (garbage : list Z) (n : nat) (cnt offset : Z) : ST fs (Z * option dentry_t) :=
  let* i := the_inode n in
  let* (k, off) := deref_opt (desc i) in
  let* sz := ld 4 k (off + r_size) in
  if sz <=? u32 offset then st_ret (EOF, None)
  else
    let* (ret, data) := iso_read n MAX_DENTRY_SIZE offset in
    if ret <? 0 then st_ret (ret, None)
    else
      let buf := list_inserts 0 data garbage in
      let len := le (slice 0 1 buf) in
      if len =? 0 then st_ret (s32 ((Z.quot offset BLOCK_SIZE + 1) * BLOCK_SIZE - offset), Some (mk_dentry 0 0 0 []))
      else
        let nlen := le (slice (Z.to_nat r_namelen) 1 buf) in
        do! st_check (nlen <? MAXNAMELEN);
        let name := drop (Z.to_nat r_name) buf in
        let* nl := st_lift (iso_namelen name nlen) in
        let nr := le (slice (Z.to_nat r_lba) 4 buf) in
        let* dot := st_lift (special nl 0 name) in
        let* up := st_lift (special nl 1 name) in
        let entry :=
          if dot : bool then mk_dentry nr len nl [46; 0]
          else if up : bool then mk_dentry nr len 2 [46; 46; 0]
          else mk_dentry nr len nl (take (Z.to_nat nl) name ++ [0]) in
        st_ret (len, Some entry).

Definition iso_stat (n : nat) : ST fs (Z * option stat_t) :=
  let* i := the_inode n in
  let* (k, off) := deref_opt (desc i) in
  let* sz := ld 4 k (off + r_size) in
  let* t := st_gets task in
  st_ret (EOK, Some (mk_stat (dev i) (nr i) (mode i) 1 (tuid t) (tgid t) 0 sz (atime i) (mtime i) (ctime i))).

(** [fs_default_nosys] *)
Definition nosys : ST fs Z := st_ret (- ENOSYS).

Definition iso_op (garbage : list Z) : fs_op_t :=
  mk_op (λ _ _, nosys) iso_super iso_open iso_close (λ _ _ _, nosys) iso_read (λ _ _ _, nosys) (λ _, nosys) iso_stat iso_permission
    iso_namei (λ _ _ _, nosys) (λ _ _, nosys) (λ _ _ _ _, nosys) (λ _ _, nosys) (λ _ _ _ _, nosys) (iso_readdir garbage).
End ops.

(** ** Names as they are meant

    A version after a semicolon and a final point do not count. *)
Definition no_version (nm : list Z) : list Z :=
  if (1 <? length nm)%nat && bool_decide (nm !! (length nm - 2)%nat = Some 59) then take (length nm - 2) nm else nm.
Definition no_dot (nm : list Z) : list Z :=
  if bool_decide (last nm = Some 46) then take (length nm - 1) nm else nm.
Definition plain_name (nm : list Z) : list Z := no_dot (no_version nm).
Definition named (comp nm : list Z) : bool :=
  bool_decide (nm = [0] ∧ comp = [46]) || bool_decide (nm = [1] ∧ comp = [46; 46]) || bool_decide (toupper <$> comp = plain_name nm).

(** A path: its first component and the rest. *)
Definition component (comp rest : list Z) : Prop :=
  Forall (λ c, c ≠ 0 ∧ Str.IS_SEPARATOR c = false) comp ∧ (rest = [] ∨ ∃ c r, rest = c :: r ∧ Str.IS_SEPARATOR c = true).

Lemma namelen_ok comp rest : component comp rest → namelen (comp ++ rest) = (Z.of_nat (length comp), tl rest).
Proof.
  intros [Hc Hr]. induction Hc as [|c comp [Hc Hs] _ IH].
  - destruct Hr as [->|(c & r & -> & Hs)]; [done|]. cbn [app namelen length tl]. rewrite Hs. destruct (Z.eqb_spec c 0) as [->|]; done.
  - cbn [app namelen length]. rewrite (proj2 (Z.eqb_neq _ _)), Hs, IH by done. f_equal. lia.
Qed.

Lemma char_of_app nm t i : 0 ≤ i < Z.of_nat (length nm) → ∃ c, nm !! Z.to_nat i = Some c ∧ char_of (nm ++ t) i = Ok c.
Proof.
  intros Hi. destruct (lookup_lt_is_Some_2 nm (Z.to_nat i) ltac:(lia)) as [c Hc]. exists c. split; [done|].
  unfold char_of. rewrite (proj2 (Z.leb_le _ _)) by lia. by rewrite lookup_app_l, Hc by lia.
Qed.

Lemma prefix_name nm : ∃ t, nm = plain_name nm ++ t.
Proof.
  unfold plain_name. assert (∃ t, nm = no_version nm ++ t) as [t Ht].
  { unfold no_version. destruct (_ && _); [eexists; by rewrite take_drop|by exists []; rewrite app_nil_r]. }
  assert (∃ t, no_version nm = no_dot (no_version nm) ++ t) as [u Hu].
  { unfold no_dot. case_bool_decide; [eexists; by rewrite take_drop|by exists []; rewrite app_nil_r]. }
  exists (u ++ t). by rewrite app_assoc, <-Hu.
Qed.

Lemma iso_namelen_ok nm t : iso_namelen (nm ++ t) (Z.of_nat (length nm)) = Ok (Z.of_nat (length (plain_name nm))).
Proof.
  assert ((if 1 <? Z.of_nat (length nm) then let! c := char_of (nm ++ t) (Z.of_nat (length nm) - 2) in
    Ok (if c =? 59 then Z.of_nat (length nm) - 2 else Z.of_nat (length nm)) else Ok (Z.of_nat (length nm))) = Ok (Z.of_nat (length (no_version nm)))) as H1.
  { unfold no_version. destruct (Z.ltb_spec 1 (Z.of_nat (length nm))) as [Hl|Hl].
    - destruct (char_of_app nm t (Z.of_nat (length nm) - 2) ltac:(lia)) as (c & Hc & ->). cbn [res_bind]. rewrite (proj2 (Nat.ltb_lt _ _)) by lia.
      replace (Z.to_nat (Z.of_nat (length nm) - 2)) with (length nm - 2)%nat in Hc by lia. rewrite Hc. cbn [andb].
      destruct (Z.eqb_spec c 59) as [->|Hne]; [rewrite bool_decide_true by done; f_equal; rewrite length_take; lia|].
      rewrite bool_decide_false by (by intros [= ?]). done.
    - rewrite (proj2 (Nat.ltb_ge _ _)) by lia. done. }
  unfold iso_namelen. rewrite H1. cbn [res_bind]. clear H1. unfold plain_name.
  assert (∃ u, nm ++ t = no_version nm ++ u) as [u ->].
  { unfold no_version. destruct (_ && _); [|by exists t]. exists (drop (length nm - 2) nm ++ t). by rewrite app_assoc, take_drop. }
  set (v := no_version nm). unfold no_dot. destruct (Z.ltb_spec 0 (Z.of_nat (length v))) as [Hl|Hl].
  - destruct (char_of_app v u (Z.of_nat (length v) - 1) ltac:(lia)) as (c & Hc & ->). cbn [res_bind].
    replace (Z.to_nat (Z.of_nat (length v) - 1)) with (pred (length v)) in Hc by lia. rewrite last_lookup, Hc.
    destruct (Z.eqb_spec c 46) as [->|Hne]; [rewrite bool_decide_true by done; f_equal; rewrite length_take; lia|].
    rewrite bool_decide_false by (by intros [= ?]). done.
  - destruct v; [done|cbn in Hl; lia].
Qed.

Lemma upper_match_ok comp : ∀ rest m, (length comp ≤ length m)%nat →
  upper_match (length comp) (comp ++ rest) m = Ok (bool_decide (toupper <$> comp = take (length comp) m)).
Proof.
  induction comp as [|c comp IH]; intros rest m Hm; cbn [length upper_match]; [by rewrite bool_decide_true|].
  destruct m as [|d m]; cbn in Hm; [lia|]. cbn [app char_at hd tl fmap list_fmap firstn].
  destruct (Z.eqb_spec (toupper c) d) as [<-|Hne].
  - rewrite IH by lia. f_equal. apply bool_decide_ext. split; [by intros ->|by intros [= ?]].
  - rewrite bool_decide_false; [done|]. by intros [= ? ?].
Qed.

(** The ends of a component. *)
Lemma rest_char rest : rest = [] ∨ (∃ c r, rest = c :: r ∧ Str.IS_SEPARATOR c = true) →
  char_at rest ≠ 46 ∧ (char_at rest = 0 ∨ Str.IS_SEPARATOR (char_at rest) = true).
Proof.
  intros [->|(c & r & -> & Hc)]; cbn; [by split; [|left]|]. split; [|by right]. intros ->. done.
Qed.

(** [match_name] with "." or ".." *)
Lemma match_loop_dots k : ∀ comp rest cnt, component comp rest → Z.of_nat k < cnt →
  ∃ lhs r c, match_loop (comp ++ rest) (replicate k 46 ++ [0]) cnt = Ok (lhs, r, c) ∧ 0 < c ∧
    (r = 0 ∧ comp = replicate k 46 ∧ lhs = rest ∨ r = 0 ∧ (∃ d l, lhs = d :: l ∧ d ≠ 0 ∧ Str.IS_SEPARATOR d = false) ∧ comp ≠ replicate k 46 ∨
     r ≠ 0 ∧ comp ≠ replicate k 46).
Proof.
  induction k as [|k IH]; intros comp rest cnt [Hc Hr] Hcnt; cbn [replicate app match_loop].
  - rewrite andb_false_r. eexists _, _, _. split; [done|]. split; [lia|]. destruct comp as [|d comp]; [by left|right; left].
    apply Forall_cons in Hc as [[H0 Hs] _]. split; [done|]. split; [by exists d, (comp ++ rest)|done].
  - destruct comp as [|d comp].
    + destruct (rest_char rest Hr) as [Hne _]. rewrite (proj2 (Z.eqb_neq _ 46)) by done. cbn [andb]. eexists _, _, _. split; [done|]. split; [lia|]. by right; right.
    + apply Forall_cons in Hc as [[H0 Hs] Hc]. cbn [app char_at hd tl]. destruct (Z.eqb_spec d 46) as [->|Hne]; cbn [andb].
      * rewrite (proj2 (Z.eqb_neq cnt 0)) by lia. destruct (IH comp rest (cnt - 1) (conj Hc Hr) ltac:(lia)) as (l & r & c & -> & H1 & H2).
        exists l, r, c. split; [done|]. split; [done|]. destruct H2 as [(-> & -> & ->)|[(-> & H2 & H3)|[H2 H3]]]; [by left|right; left|right; right].
        -- split; [done|]. split; [done|]. by intros [= ?].
        -- split; [done|]. by intros [= ?].
      * eexists _, _, _. split; [done|]. split; [lia|]. right; right. split; [done|]. by intros [= ?].
Qed.

Lemma matches_dots k comp rest cnt : component comp rest → Z.of_nat k < cnt →
  matches (comp ++ rest) (replicate k 46 ++ [0]) cnt = Ok (bool_decide (comp = replicate k 46)).
Proof.
  intros Hc Hcnt. unfold matches, match_name. destruct (match_loop_dots k comp rest cnt Hc Hcnt) as (l & r & c & -> & H1 & H2). cbn [res_bind].
  destruct H2 as [(-> & -> & ->)|[(-> & (d & u & -> & H0 & Hs) & H3)|[H2 H3]]].
  - cbn [negb andb Z.eqb]. rewrite bool_decide_true by done. destruct (rest_char rest (proj2 Hc)) as [_ [->|Hsep]]; [done|].
    rewrite Hsep. by destruct (char_at rest =? 0).
  - cbn [negb andb Z.eqb char_at hd]. rewrite (proj2 (Z.eqb_neq d 0)), Hs, bool_decide_false by done. done.
  - rewrite (proj2 (Z.eqb_neq r 0)), (proj2 (Z.eqb_neq c 0)), bool_decide_false by (done || lia). done.
Qed.

Lemma special_ok nm t x : special (Z.of_nat (length nm)) x (nm ++ t) = Ok (bool_decide (nm = [x])).
Proof.
  unfold special. destruct (Z.eqb_spec (Z.of_nat (length nm)) 1) as [Hl|Hl].
  - destruct nm as [|y [|]]; cbn in Hl; try lia. cbn. f_equal. destruct (Z.eqb_spec y x) as [->|]; symmetry; [by apply bool_decide_true|].
    apply bool_decide_false. by intros [= ?].
  - rewrite bool_decide_false; [done|]. by intros ->.
Qed.

Lemma iso_match_ok comp rest nm t : component comp rest →
  iso_match_name (comp ++ rest) (Z.of_nat (length comp)) (nm ++ t) (Z.of_nat (length nm)) = Ok (named comp nm).
Proof.
  intros Hc. unfold iso_match_name, named. rewrite !special_ok. cbn [res_bind].
  pose proof (matches_dots 1 comp rest 2 Hc eq_refl) as M1. pose proof (matches_dots 2 comp rest 3 Hc eq_refl) as M2. cbn [replicate app] in M1, M2.
  rewrite M1, M2, iso_namelen_ok.
  assert ((let! dot := if bool_decide (nm = [0]) then Ok (bool_decide (comp = [46])) else Ok false in
           if dot : bool then Ok true else
           let! up := if bool_decide (nm = [1]) then Ok (bool_decide (comp = [46; 46])) else Ok false in
           if up : bool then Ok true else Ok (bool_decide (toupper <$> comp = plain_name nm))) =
          Ok (bool_decide (nm = [0] ∧ comp = [46]) || bool_decide (nm = [1] ∧ comp = [46; 46]) || bool_decide (toupper <$> comp = plain_name nm))) as <-.
  { repeat case_bool_decide; cbn; (done || naive_solver). }
  assert ((if negb (Z.of_nat (length comp) =? Z.of_nat (length (plain_name nm))) then Ok false
           else upper_match (Z.to_nat (Z.of_nat (length comp))) (comp ++ rest) (nm ++ t)) = Ok (bool_decide (toupper <$> comp = plain_name nm))) as E;
    [|cbn [res_bind]; by rewrite E].
  destruct (prefix_name nm) as [u Hu]. destruct (Z.eqb_spec (Z.of_nat (length comp)) (Z.of_nat (length (plain_name nm)))) as [He|He]; cbn [negb].
  - rewrite Nat2Z.id. rewrite Hu at 1. rewrite <-app_assoc, upper_match_ok by (rewrite length_app; lia). by rewrite take_app_length' by lia.
  - rewrite bool_decide_false; [done|]. intros Ht. apply (f_equal length) in Ht. rewrite length_fmap in Ht. lia.
Qed.

(** ** Directories as they are meant

    A record is its bytes, the first of which is their number; a block holds records up to a
    zero byte or to its end, and a directory is consecutive blocks. *)
Definition rec_name (r : list Z) : list Z := take (Z.to_nat (default 0 (r !! 32%nat))) (drop 33 r).
Definition rec_ok (r : list Z) : Prop :=
  r !! 0%nat = Some (Z.of_nat (length r)) ∧ ∃ nl, r !! 32%nat = Some nl ∧ 0 ≤ nl ∧ 33 + nl ≤ Z.of_nat (length r).

Fixpoint first_in (comp : list Z) (g : list (list Z)) (ptr : Z) : option Z :=
  match g with [] => None | r :: g' => if named comp (rec_name r) then Some ptr else first_in comp g' (ptr + Z.of_nat (length r)) end.
Fixpoint dir_search (comp : list Z) (dv lba : Z) (gs : list (list (list Z))) : option (key * Z) :=
  match gs with
  | [] => None
  | g :: gs' => match first_in comp g 0 with Some p => Some ((dv, lba), p) | None => dir_search comp dv (lba + 1) gs' end
  end.

Definition rest_ok (pad : list Z) : Prop := pad = [] ∨ head pad = Some 0.
Definition filled (g : list (list Z)) : Prop := Z.of_nat (length (mjoin g)) = BLOCK_SIZE.
Fixpoint dir_at (bs : gmap key (list Z)) (dv lba : Z) (gs : list (list (list Z))) : Prop :=
  match gs with
  | [] => True
  | g :: gs' => Forall rec_ok g ∧ (∃ pad, bs !! (dv, lba) = Some (mjoin g ++ pad) ∧ Z.of_nat (length (mjoin g ++ pad)) = BLOCK_SIZE ∧ rest_ok pad) ∧
      dir_at bs dv (lba + 1) gs'
  end.

Lemma ld_byte s k b off v : blocks s !! k = Some b → 0 ≤ off → b !! Z.to_nat off = Some v → ld 1 k off s = Ok (v, s).
Proof.
  intros Hb H0 Hv. pose proof (lookup_lt_Some _ _ _ Hv). unfold ld, st_bind, st_deref. rewrite Hb. cbn [deref].
  rewrite (proj2 (Z.leb_le _ _)), (proj2 (Z.leb_le _ _)) by lia. cbn [andb]. unfold st_ret. do 2 f_equal.
  unfold slice. rewrite (drop_S _ v (Z.to_nat off)) by done. change (v + 256 * 0 = v). lia.
Qed.

Section search.
Context (dv : Z) (comp rest : list Z) (Hc : component comp rest).

(** The records that are left of a block; [left] is only reduced at a zero byte. *)
Lemma block_search todo : ∀ pre pad f lba lft k s, blocks s !! k = Some (mjoin pre ++ mjoin todo ++ pad) →
  Z.of_nat (length (mjoin pre ++ mjoin todo ++ pad)) = BLOCK_SIZE → Forall rec_ok todo → rest_ok pad → 0 < lft →
  find_loop (S (length todo) + f) dv (comp ++ rest) (Z.of_nat (length comp)) lba lft (Some k) (Z.of_nat (length (mjoin pre))) s =
  match first_in comp todo (Z.of_nat (length (mjoin pre))) with
  | Some p => Ok (Some (k, p), s)
  | None =>
      match pad with
      | [] => find_loop (S f) dv (comp ++ rest) (Z.of_nat (length comp)) lba lft (Some k) BLOCK_SIZE s
      | _ => find_loop f dv (comp ++ rest) (Z.of_nat (length comp)) lba (lft - BLOCK_SIZE) (Some k) BLOCK_SIZE s
      end
  end.
Proof using Hc.
  induction todo as [|r todo IH]; intros pre pad f lba lft k s Hb Hl Hok Hpad Hlft.
  - change (S (length []) + f)%nat with (S f). cbn [first_in]. destruct pad as [|x pad].
    + change (mjoin []) with (@nil Z) in Hl. cbn [app] in Hl. rewrite app_nil_r in Hl. by rewrite Hl.
    + destruct Hpad as [|Hx]; [done|]. injection Hx as ->.
      cbn [find_loop]. rewrite (proj2 (Z.leb_gt _ 0)) by lia. unfold st_bind at 1.
      rewrite (proj2 (Z.leb_gt BLOCK_SIZE _)) by (rewrite !length_app in Hl; cbn [length] in Hl; unfold BLOCK_SIZE in *; lia).
      cbn [st_ret]. unfold st_bind at 1. rewrite (ld_byte s k _ _ 0 Hb); [done|unfold r_length; lia|].
      unfold r_length. rewrite Z.add_0_r, Nat2Z.id. cbn [mjoin list_join app]. by rewrite lookup_app_r, Nat.sub_diag by lia.
  - apply Forall_cons in Hok as [(H0 & nl & Hnl & Hn0 & Hn1) Hok].
    set (fin := match pad with [] => _ | _ => _ end).
    change (S (length (r :: todo)) + f)%nat with (S (S (length todo) + f)); set (F := (S (length todo) + f)%nat) in *.
    cbn [find_loop]. rewrite (proj2 (Z.leb_gt _ 0)) by lia. unfold st_bind at 1.
    rewrite (proj2 (Z.leb_gt BLOCK_SIZE _)) by (change (mjoin (r :: todo)) with (r ++ mjoin todo) in Hl; rewrite !length_app in Hl; lia).
    cbn [st_ret].
    change (mjoin (r :: todo)) with (r ++ mjoin todo) in *. rewrite <-app_assoc in *.
    assert (∀ i v, r !! i = Some v → (mjoin pre ++ r ++ mjoin todo ++ pad) !! Z.to_nat (Z.of_nat (length (mjoin pre)) + Z.of_nat i) = Some v) as Hr.
    { intros i v Hv. pose proof (lookup_lt_Some _ _ _ Hv). rewrite <-Nat2Z.inj_add, Nat2Z.id, lookup_app_r by lia.
      replace (length (mjoin pre) + i - length (mjoin pre))%nat with i by lia. by rewrite lookup_app_l by lia. }
    unfold st_bind at 1. erewrite ld_byte; [|exact Hb|unfold r_length; lia|exact (Hr 0%nat _ H0)]. rewrite (proj2 (Z.eqb_neq _ 0)) by lia.
    unfold st_bind at 1. erewrite ld_byte; [|exact Hb|unfold r_namelen; lia|exact (Hr 32%nat _ Hnl)].
    unfold st_bind at 1. assert (block_from k (Z.of_nat (length (mjoin pre)) + r_name) s = Ok (drop 33 r ++ mjoin todo ++ pad, s)) as ->.
    { unfold block_from, st_bind, st_deref. rewrite Hb. cbn [deref]. rewrite (proj2 (Z.leb_le _ _)) by (unfold r_name; lia). unfold st_ret. do 2 f_equal.
      rewrite drop_app_ge by (unfold r_name; lia). replace (Z.to_nat (Z.of_nat (length (mjoin pre)) + r_name) - length (mjoin pre))%nat with 33%nat by (unfold r_name; lia).
      by rewrite drop_app_le by lia. }
    unfold st_bind at 1. assert (drop 33 r = rec_name r ++ drop (Z.to_nat nl) (drop 33 r)) as Hd by (unfold rec_name; rewrite Hnl; cbn; by rewrite take_drop).
    rewrite Hd, <-app_assoc. assert (nl = Z.of_nat (length (rec_name r))) as -> by (unfold rec_name; rewrite Hnl, length_take, length_drop; cbn; lia).
    unfold st_lift. rewrite iso_match_ok by done. cbn [first_in]. destruct (named comp (rec_name r)); [done|].
    specialize (IH (pre ++ [r]) pad f lba lft k s). assert (mjoin (pre ++ [r]) = mjoin pre ++ r) as Ej by (rewrite list.join_app; cbn; by rewrite app_nil_r).
    rewrite Ej, <-app_assoc, (length_app (mjoin pre) r), Nat2Z.inj_add in IH. by apply IH.
Qed.
End search.

(** The records of a directory, and the turns of the loop over them. *)
Definition turns (gs : list (list (list Z))) : nat := sum_list_with (λ g, S (length g)) gs.

Section directory.
Context (dv : Z) (s : fs) (h : gmultiset key).

Definition with_held (H : gmultiset key) : fs := s <| held := H |>.

Lemma brelse_with k : brelse k (with_held ({[+ k +]} ⊎ h)) = Ok (tt, with_held h).
Proof using.
  unfold brelse, st_bind, st_gets, st_check.
  rewrite bool_decide_eq_true_2 by (change (held (with_held ({[+ k +]} ⊎ h))) with ({[+ k +]} ⊎ h); multiset_solver).
  transitivity (Ok (tt, with_held (({[+ k +]} ⊎ h) ∖ {[+ k +]}))); [reflexivity|]. by rewrite held_release.
Qed.

Lemma enter k b cur ptr lba : blocks s !! k = Some b → k = (dv, lba) → cur = None ∧ ptr = 0 ∨ (∃ k', cur = Some k' ∧ ptr = BLOCK_SIZE) →
  (match cur with
   | Some k => if BLOCK_SIZE <=? ptr then do! brelse k; do! bread_assert (dv, lba); st_ret ((dv, lba), 0, lba + 1) else st_ret (k, ptr, lba)
   | None => do! bread_assert (dv, lba); st_ret ((dv, lba), 0, lba + 1)
   end) (with_held (match cur with Some k' => {[+ k' +]} ⊎ h | None => h end)) = Ok (k, 0, lba + 1, with_held ({[+ k +]} ⊎ h)).
Proof using.
  intros Hb -> Hcur. assert (∀ H, bread_assert (dv, lba) (with_held H) = Ok (tt, with_held ({[+ (dv, lba) +]} ⊎ H))) as Hbr.
  { intros H. unfold bread_assert, bread, st_bind, st_gets, st_check, st_deref. change (blocks (with_held H)) with (blocks s). rewrite Hb. cbn [none negb].
    change (blocks (with_held H)) with (blocks s). by rewrite Hb. }
  destruct Hcur as [[-> ->]|(k' & -> & ->)]; unfold st_bind; [by rewrite Hbr|].
  rewrite Z.leb_refl, brelse_with. by rewrite Hbr.
Qed.

Context (comp rest : list Z) (Hc : component comp rest).
Lemma search_directory gs : ∀ cur ptr lba lft fuel, dir_at (blocks s) dv lba gs → (turns gs < fuel)%nat →
  cur = None ∧ ptr = 0 ∨ (∃ k', cur = Some k' ∧ ptr = BLOCK_SIZE) → BLOCK_SIZE * Z.of_nat (length gs) ≤ lft →
  let r := find_loop fuel dv (comp ++ rest) (Z.of_nat (length comp)) lba lft cur ptr
    (with_held (match cur with Some k' => {[+ k' +]} ⊎ h | None => h end)) in
  match dir_search comp dv lba gs with
  | Some (k, p) => r = Ok (Some (k, p), with_held ({[+ k +]} ⊎ h))
  | None => lft = BLOCK_SIZE * Z.of_nat (length gs) → Forall (λ g, ¬ filled g) gs → r = Ok (None, with_held h)
  end.
Proof using Hc.
  induction gs as [|g gs IH]; intros cur ptr lba lft fuel Hd Hf Hcur Hlft; cbv zeta.
  - destruct fuel as [|fuel]; [lia|]. cbn [find_loop dir_search length]. intros -> _.
    change (BLOCK_SIZE * Z.of_nat 0 <=? 0) with true. cbn iota.
    destruct Hcur as [[-> ->]|(k' & -> & ->)]; [done|]. unfold brelse_opt, st_bind. by rewrite brelse_with.
  - destruct Hd as (Hg & (pad & Hb & Hl & Hpad) & Hd). change (turns (g :: gs)) with (S (length g) + turns gs)%nat in Hf.
    cbn [length] in Hlft. assert (0 < lft) as Hpos by (unfold BLOCK_SIZE in *; lia).
    destruct fuel as [|fuel]; [lia|]. set (r := find_loop _ _ _ _ _ _ _ _ _).
    pose proof (block_search dv comp rest Hc g [] pad (fuel - length g) (lba + 1) lft (dv, lba) (with_held ({[+ (dv, lba) +]} ⊎ h)) Hb Hl Hg Hpad Hpos) as Hs.
    replace (S (length g) + (fuel - length g))%nat with (S fuel) in Hs by lia. change (Z.of_nat (length (mjoin []))) with 0 in Hs. cbn [dir_search length].
    match type of Hs with ?x = _ => assert (r = x) as Er end.
    { subst r. cbn [find_loop]. rewrite (proj2 (Z.leb_gt _ 0)) by lia. unfold st_bind at 1.
      by rewrite (enter (dv, lba) _ cur ptr lba Hb eq_refl Hcur). }
    rewrite <-Er in Hs. clear Er.
    clearbody r. destruct (first_in comp g 0) as [q|]; [done|]. destruct pad as [|x pad]; rewrite Hs.
    + specialize (IH (Some (dv, lba)) BLOCK_SIZE (lba + 1) lft (S (fuel - length g)) Hd ltac:(lia) ltac:(right; by exists (dv, lba)) ltac:(unfold BLOCK_SIZE in *; lia)).
      cbv zeta in IH. destruct (dir_search comp dv (lba + 1) gs) as [[k p]|]; [exact IH|].
      intros _ [Hfl _]%Forall_cons. destruct Hfl. unfold filled. by rewrite app_nil_r in Hl.
    + specialize (IH (Some (dv, lba)) BLOCK_SIZE (lba + 1) (lft - BLOCK_SIZE) (fuel - length g)%nat Hd ltac:(lia) ltac:(right; by exists (dv, lba)) ltac:(unfold BLOCK_SIZE in *; lia)).
      cbv zeta in IH. destruct (dir_search comp dv (lba + 1) gs) as [[k p]|]; [exact IH|].
      intros Hleft [_ Hfl]%Forall_cons. apply IH; [unfold BLOCK_SIZE in *; lia|done].
Qed.
End directory.

Lemma dir_blocks bs dv gs : ∀ lba, dir_at bs dv lba gs → (length gs ≤ base.size bs)%nat.
Proof.
  intros lba Hd. set (ks := (λ j, (dv, j)) <$> seqZ lba (Z.of_nat (length gs))).
  assert (NoDup ks) as Hn by (apply NoDup_fmap; [by intros ?? [= ?]|apply NoDup_seqZ]).
  assert (length ks = length gs) as <- by (unfold ks; rewrite length_fmap, length_seqZ; lia).
  rewrite <-(size_list_to_set (C := gset key) ks) by done. rewrite <-(size_dom (D := gset key)). apply subseteq_size.
  intros k Hk. rewrite elem_of_list_to_set in Hk. apply list_elem_of_fmap in Hk as (j & -> & Hj). apply elem_of_seqZ in Hj. apply elem_of_dom.
  clear ks Hn. revert lba Hd Hj. induction gs as [|g gs IH]; intros lba Hd Hj; [cbn in Hj; lia|]. destruct Hd as (_ & (pad & Hb & _ & _) & Hd).
  cbn [length] in Hj. destruct (decide (j = lba)) as [->|]; [by eexists|]. apply (IH (lba + 1)); [done|lia].
Qed.

Lemma dir_turns bs dv gs : ∀ lba, dir_at bs dv lba gs → (turns gs ≤ 2049 * length gs)%nat.
Proof.
  induction gs as [|g gs IH]; intros lba Hd; [done|]. destruct Hd as (Hg & (pad & _ & Hl & _) & Hd). specialize (IH _ Hd).
  change (turns (g :: gs)) with (S (length g) + turns gs)%nat. cbn [length]. rewrite length_app in Hl. cbn [length] in Hl.
  assert (length g ≤ length (mjoin g))%nat; [|unfold BLOCK_SIZE in Hl; lia].
  clear -Hg. induction Hg as [|r g [Hr _] Hg IH]; [done|]. change (mjoin (r :: g)) with (r ++ mjoin g). rewrite length_app. cbn [length].
  apply lookup_lt_Some in Hr. lia.
Qed.

Lemma ld_field s n k b off : blocks s !! k = Some b → 0 ≤ off → off + Z.of_nat n ≤ Z.of_nat (length b) → ld n k off s = Ok (val n (blocks s) k off, s).
Proof.
  intros Hb H0 Hl. unfold ld, val, st_bind, st_deref. rewrite Hb. cbn [deref]. by rewrite (proj2 (Z.leb_le _ _)), (proj2 (Z.leb_le _ _)) by lia.
Qed.

(** C39: a name is looked up in a directory. In a directory of consecutive blocks, each with
    records up to a zero byte or to its end, the search for the first component of a path ends
    with the first record that the component names - in capitals, without the version and the
    final point, "." and ".." for the two special names - and holds its buffer and no other.
    When there is no such record and each block has a zero byte, it ends with none; a block
    that is filled exactly is not counted, and the search for a missing name goes on behind
    the directory. The rest of the path starts after the separator. *)
Theorem entry_found (s : fs) dir i k b off gs comp rest
    (Hi : inode_table s !! dir = Some i) (Hdesc : desc i = Some (k, off)) (Hb : blocks s !! k = Some b)
    (Hoff : 0 ≤ off ∧ off + 33 ≤ Z.of_nat (length b)) (Hsize : val 4 (blocks s) k (off + r_size) = BLOCK_SIZE * Z.of_nat (length gs))
    (Hfits : BLOCK_SIZE * Z.of_nat (length gs) < 2 ^ 31)
    (Hdir : dir_at (blocks s) (dev i) (val 4 (blocks s) k (off + r_lba)) gs) (Hc : component comp rest) :
  match dir_search comp (dev i) (val 4 (blocks s) k (off + r_lba)) gs with
  | Some (k', p) => iso_find_entry dir (comp ++ rest) s = Ok (Some (k', p), tl rest, s <| held := {[+ k' +]} ⊎ held s |>)
  | None => Forall (λ g, ¬ filled g) gs → iso_find_entry dir (comp ++ rest) s = Ok (None, tl rest, s)
  end.
Proof.
  assert (with_held s (held s) = s) as Es by (by destruct s).
  set (lba := val 4 (blocks s) k (off + r_lba)) in *.
  assert (iso_find_entry dir (comp ++ rest) s =
    (let* r := find_loop (find_fuel s) (dev i) (comp ++ rest) (Z.of_nat (length comp)) lba (BLOCK_SIZE * Z.of_nat (length gs)) None 0 in
     st_ret (r, tl rest)) (with_held s (held s))) as ->.
  { rewrite Es. unfold iso_find_entry, st_bind at 1. unfold the_inode, st_deref. rewrite Hi. cbn [deref].
    unfold st_bind at 1. unfold deref_opt, st_deref. rewrite Hdesc. cbn [deref]. rewrite (namelen_ok comp rest Hc).
    unfold st_bind at 1. rewrite (ld_field s 4 k b) by (done || unfold r_lba; lia).
    unfold st_bind at 1. rewrite (ld_field s 4 k b) by (done || unfold r_size; lia).
    unfold st_bind at 1. unfold st_gets. rewrite Hsize, s32_small by (unfold BLOCK_SIZE in *; lia). done. }
  pose proof (dir_turns _ _ _ _ Hdir). pose proof (dir_blocks _ _ _ _ Hdir).
  pose proof (search_directory (dev i) s (held s) comp rest Hc gs None 0 lba (BLOCK_SIZE * Z.of_nat (length gs)) (find_fuel s) Hdir
    ltac:(unfold find_fuel; lia) ltac:(by left) ltac:(lia)) as Hs. cbv zeta in Hs. unfold st_bind.
  destruct (dir_search comp (dev i) lba gs) as [[k' p]|].
  - by rewrite Hs.
  - intros Hfl. rewrite (Hs eq_refl Hfl). by rewrite Es.
Qed.

(** ** Files *)

(** The byte [i] of the file that starts at the block [lba]. *)
Definition file_byte (bs : gmap key (list Z)) (dv lba i : Z) : option Z :=
  b ← bs !! (dv, lba + i / BLOCK_SIZE); b !! Z.to_nat (i `mod` BLOCK_SIZE).

Section reading.
Context (dv lba sz : Z) (s : fs) (h : gmultiset key).
Hypothesis sz_range : 0 ≤ sz < 2 ^ 31.
Hypothesis lba_range : 0 ≤ lba ∧ lba + sz / BLOCK_SIZE < 2 ^ 32.
Hypothesis file_blocks : ∀ j, 0 ≤ j → j * BLOCK_SIZE < sz → ∃ b, blocks s !! (dv, lba + j) = Some b ∧ Z.of_nat (length b) = BLOCK_SIZE.

Lemma wp_iso_read_loop fuel : ∀ lft offset acc (Q : Z * list Z → fs → Prop), 0 ≤ offset → 0 ≤ lft → offset + lft ≤ sz → (Z.to_nat lft < fuel)%nat →
  (∀ data, Z.of_nat (length data) = lft → (∀ i, (i < length data)%nat → data !! i = file_byte (blocks s) dv lba (offset + Z.of_nat i)) →
     Q (offset + lft, acc ++ data) (with_held s h)) →
  wp no_stop (iso_read_loop fuel dv lba BLOCK_SIZE lft offset acc) Q (with_held s h).
Proof using sz_range lba_range file_blocks.
  induction fuel as [|fuel IH]; intros lft offset acc Q H0 Hl Hsz Hf HQ; [lia|]. cbn [iso_read_loop]. unfold BLOCK_SIZE in *.
  destruct (Z.eqb_spec lft 0) as [->|Hne].
  - apply wp_ret. specialize (HQ [] eq_refl). rewrite Z.add_0_r, app_nil_r in HQ. apply HQ. intros i Hi. by apply Nat.nlt_0_r in Hi.
  - rewrite (u32_small offset) by lia. destruct (file_blocks (offset / 2048)) as (b & Hb & Hbl); [Z.div_mod_to_equations; lia..|].
    rewrite (u32_small (lba + offset / 2048)) by (Z.div_mod_to_equations; lia).
    apply wp_bind, wp_bread_block; [by eexists|]. apply wp_bind.
    set (c := Z.min (2048 - offset `mod` 2048) lft). assert (0 < c ≤ lft ∧ 0 ≤ offset `mod` 2048 ∧ offset `mod` 2048 + c ≤ 2048) as Hcr by (subst c; Z.div_mod_to_equations; lia).
    unfold block_bytes. apply wp_bind. eapply wp_deref; [exact Hb|].
    rewrite (proj2 (Z.leb_le _ _)), (proj2 (Z.leb_le _ _)) by (Z.div_mod_to_equations; lia). cbn [andb]. apply wp_ret.
    apply wp_bind. eapply wp_ok; [exact (brelse_with s h (dv, lba + offset / 2048))|]. rewrite s32_small by lia.
    apply IH; [lia|lia|lia|lia|]. intros data Hdl Hd. rewrite <-app_assoc.
    assert (length (slice (Z.to_nat (offset `mod` 2048)) (Z.to_nat c) b) = Z.to_nat c) as Hsl by (apply length_slice; lia).
    replace (offset + c + (lft - c)) with (offset + lft) by lia. apply HQ; [rewrite length_app; lia|]. intros i Hi. rewrite length_app, Hsl in Hi.
    destruct (decide (i < Z.to_nat c)%nat).
    + rewrite lookup_app_l, lookup_slice by lia. unfold file_byte, BLOCK_SIZE.
      assert ((offset + Z.of_nat i) / 2048 = offset / 2048 ∧ (offset + Z.of_nat i) `mod` 2048 = offset `mod` 2048 + Z.of_nat i) as [-> ->] by (Z.div_mod_to_equations; lia).
      rewrite Hb. cbn. f_equal. lia.
    + rewrite lookup_app_r, Hsl, Hd by lia. f_equal. lia.
Qed.
End reading.

(** C40: a file is its blocks. [iso_read] gives, at any offset inside the file, the bytes of the
    consecutive blocks that start at the one its record names, as many as were asked for or
    as there are up to the end; from the end on it gives [EOF]. Nothing changes but the time
    of the access. *)
Theorem read_exact (s : fs) n i p sp k b off len offset
    (Hi : inode_table s !! n = Some i) (Htype : type i = FS_TYPE_ISO9660) (Hdesc : desc i = Some (k, off)) (Hb : blocks s !! k = Some b)
    (Hoff : 0 ≤ off ∧ off + 33 ≤ Z.of_nat (length b)) (Hsuper : super i = Some p) (Hp : super_table s !! p = Some sp) (Hbs : block_size sp = BLOCK_SIZE)
    (Hlen : 0 ≤ len < 2 ^ 31) (Hoffset : 0 ≤ offset < 2 ^ 31)
    (Hsz : 0 ≤ val 4 (blocks s) k (off + r_size) < 2 ^ 31)
    (Hlba : 0 ≤ val 4 (blocks s) k (off + r_lba) ∧ val 4 (blocks s) k (off + r_lba) + val 4 (blocks s) k (off + r_size) / BLOCK_SIZE < 2 ^ 32)
    (Hfile : ∀ j, 0 ≤ j → j * BLOCK_SIZE < val 4 (blocks s) k (off + r_size) →
       ∃ b, blocks s !! (dev i, val 4 (blocks s) k (off + r_lba) + j) = Some b ∧ Z.of_nat (length b) = BLOCK_SIZE) :
  let sz := val 4 (blocks s) k (off + r_size) in
  if sz <=? offset then iso_read n len offset s = Ok (EOF, [], s)
  else
    ∃ data, iso_read n len offset s = Ok (Z.of_nat (length data), data, s <| inode_table $= alter (λ i, i <| atime := now s |>) n |>) ∧
      Z.of_nat (length data) = Z.min len (sz - offset) ∧
      ∀ j, (j < length data)%nat → data !! j = file_byte (blocks s) (dev i) (val 4 (blocks s) k (off + r_lba)) (offset + Z.of_nat j).
Proof.
  intros sz. assert (iso_read n len offset s = (if sz <=? offset then st_ret (EOF, []) else
    let lft := Z.min len (sz - offset) in
    let* (end_, data) := iso_read_loop (S (Z.to_nat lft)) (dev i) (val 4 (blocks s) k (off + r_lba)) BLOCK_SIZE lft offset [] in
    let* t := st_gets now in do! mod_inode n (λ i, i <| atime := t |>); st_ret (s32 (end_ - offset), data)) s) as E.
  { unfold iso_read, st_bind at 1. unfold the_inode, st_deref. rewrite Hi. cbn [deref]. unfold st_bind at 1. unfold st_check. rewrite Htype, Z.eqb_refl.
    unfold st_bind at 1. unfold deref_opt, st_deref. rewrite Hdesc. cbn [deref]. unfold st_bind at 1. rewrite (ld_field s 4 k b) by (done || unfold r_size; lia).
    fold sz. rewrite (u32_small offset) by lia. destruct (Z.leb_spec sz offset); [done|]. rewrite !u32_small by lia.
    unfold st_bind at 1. rewrite (ld_field s 4 k b) by (done || unfold r_lba; lia). unfold st_bind at 1. rewrite Hsuper. cbn [deref].
    unfold st_bind at 1. unfold the_super, st_deref. rewrite Hp. cbn [deref]. by rewrite Hbs. }
  rewrite E. clear E. destruct (Z.leb_spec sz offset) as [Hge|Hlt]; [done|]. cbv zeta. set (lft := Z.min len (sz - offset)).
  assert (wp no_stop (iso_read_loop (S (Z.to_nat lft)) (dev i) (val 4 (blocks s) k (off + r_lba)) BLOCK_SIZE lft offset [])
    (λ r s', s' = s ∧ r.1 = offset + lft ∧ Z.of_nat (length r.2) = lft ∧
      ∀ j, (j < length r.2)%nat → r.2 !! j = file_byte (blocks s) (dev i) (val 4 (blocks s) k (off + r_lba)) (offset + Z.of_nat j)) (with_held s (held s))) as Hw.
  { eapply (wp_iso_read_loop (dev i) _ sz s (held s)); [exact Hsz|exact Hlba|exact Hfile|lia|lia|lia|lia|].
    intros data Hdl Hd. cbn [fst snd app]. split; [by destruct s|by split]. }
  assert (with_held s (held s) = s) as Es by (by destruct s). rewrite Es in Hw. unfold wp in Hw. unfold st_bind at 1. destruct (iso_read_loop _ _ _ _ _ _ _ s) as [[[e data] s']|]; [|done]. cbn [fst snd] in Hw.
  destruct Hw as (-> & -> & Hdl & Hd). exists data. split; [|by split]. unfold st_bind, st_gets, mod_inode, st_mod, st_ret.
  replace (offset + lft - offset) with (Z.of_nat (length data)) by lia. rewrite s32_small by lia. done.
Qed.

(** ** A small disc

    The volume names a directory at block 20, with "A.TXT;1" of three bytes at block 21. *)
Definition demo_rec (lba sz flags : Z) (nm : list Z) : list Z :=
  [33 + Z.of_nat (length nm); 0] ++ le_bytes 4 lba ++ replicate 4 0 ++ le_bytes 4 sz ++ replicate 4 0 ++ [124; 2; 29; 12; 0; 0; 48] ++
  [flags; 0; 0; 0; 0; 0; 0; Z.of_nat (length nm)] ++ nm.
Definition demo_dir : list (list Z) := [demo_rec 20 2048 2 [0]; demo_rec 20 2048 2 [1]; demo_rec 21 3 0 [65; 46; 84; 88; 84; 59; 49]].
Definition demo_pad : list Z := replicate (Z.to_nat (2047 - Z.of_nat (length (mjoin demo_dir)))) 0.
Definition demo_inode (d : key * Z) : inode_t := mk_inode (Some d) (Some d.1) 5 0 0 1 0 0 0 0 0 0 FS_TYPE_ISO9660 0 0 (Some 0%nat) (Some FS_TYPE_ISO9660) None None.
Definition demo_disc : fs :=
  mk_fs (<[(5, 16) := replicate 156 0 ++ demo_rec 20 2048 2 [0]]> (<[(5, 20) := mjoin demo_dir ++ 0 :: demo_pad]>
      (<[(5, 21) := [104; 105; 10] ++ replicate (Z.to_nat 2045) 0]> ∅)))
    ∅ [demo_inode ((5, 16), 156); demo_inode ((5, 20), 68)]
    [mk_super (Some (5, 16)) 5 1 FS_TYPE_ISO9660 2048 2048 [0%nat; 1%nat] (Some 0%nat) None] [] (mk_task 0 0 0 [] 0 0 []) 9.

(** "a.txt/x" *)
Lemma entry_found_witness : ∃ s', iso_find_entry 0 [97; 46; 116; 120; 116; 47; 120] demo_disc = Ok (Some ((5, 20), 68), [120], s').
Proof.
  assert (dir_at (blocks demo_disc) 5 20 [demo_dir]) as Hdir.
  { split; [|split; [by exists (0 :: demo_pad); split; [vm_compute|split; [vm_compute|right]]|done]]. repeat (apply Forall_cons; split; [split; [reflexivity|eexists; split; [reflexivity|done]]|]). by constructor. }
  assert (component [97; 46; 116; 120; 116] [47; 120]) as Hc.
  { split; [repeat constructor; done|]. right. by exists 47, [120]. }
  pose proof (entry_found demo_disc 0 (demo_inode ((5, 16), 156)) (5, 16) (replicate 156 0 ++ demo_rec 20 2048 2 [0]) 156 [demo_dir]
    [97; 46; 116; 120; 116] [47; 120] eq_refl eq_refl eq_refl ltac:(split; vm_compute; discriminate) eq_refl eq_refl Hdir Hc) as H.
  eexists. exact H.
Defined.

Lemma read_exact_witness : iso_read 1 10 1 demo_disc = Ok (2, [105; 10], demo_disc <| inode_table $= alter (λ i, i <| atime := 9 |>) 1%nat |>).
Proof.
  assert (∀ j, 0 ≤ j → j * BLOCK_SIZE < 3 → ∃ b, blocks demo_disc !! (5, 21 + j) = Some b ∧ Z.of_nat (length b) = BLOCK_SIZE) as Hf.
  { intros j Hj Hlt. assert (j = 0) as -> by (unfold BLOCK_SIZE in Hlt; lia). eexists. split; [reflexivity|by vm_compute]. }
  destruct (read_exact demo_disc 1 (demo_inode ((5, 20), 68)) 0 (mk_super (Some (5, 16)) 5 1 FS_TYPE_ISO9660 2048 2048 [0%nat; 1%nat] (Some 0%nat) None)
    (5, 20) (mjoin demo_dir ++ 0 :: demo_pad) 68 10 1 eq_refl eq_refl eq_refl eq_refl ltac:(split; vm_compute; discriminate) eq_refl eq_refl eq_refl
    ltac:(done) ltac:(done) ltac:(done) ltac:(done) Hf) as (data & Hr & Hl & Hd). rewrite Hr.
  change (Z.of_nat (length data) = 2) in Hl. destruct data as [|x [|y [|]]]; cbn in Hl; try lia.
  pose proof (Hd 0%nat ltac:(cbn; lia)) as H0. pose proof (Hd 1%nat ltac:(cbn; lia)) as H1. vm_compute in H0, H1. by injection H0 as ->; injection H1 as ->.
Defined.
