(* ===== verification/Vfs.v ===== *)
(** * Paths and the system calls on files ([src/src/fs/namei.c], [src/src/fs/fsyscall.c],
    [read_super] of [super.c])

    The layer above the file systems, whose operations are a parameter: [ops t] is
    [fs_ops[t]].  A user buffer is its address, for [memory_access], and its bytes. *)
From stdpp Require Import gmultiset.
From S2P Require Import Prelude Fs.
From S2P Require Str.
Open Scope Z_scope.

(** ** The working directory as text

    [abspath] changes the string [pwd]; the pointer [cur] is at its end. *)

(** The length of the prefix up to and including the last separator. *)
Fixpoint sep_prefix (l : list Z) : option nat :=
  match l with
  | [] => None
  | c :: l' =>
      match sep_prefix l' with
      | Some n => Some (S n)
      | None => if Str.IS_SEPARATOR c then Some 1%nat else None
      end
  end.

(** [cur = strrsep(pwd) + 1; *cur = 0;] *)
Definition cut_last (p : list Z) : res (list Z) :=
  let! n := deref (sep_prefix p) in Ok (take n p).

(** The removal of the last component. *)
Definition pop_component (p : list Z) : res (list Z) :=
  if Nat.eqb (length p) 1 then Ok p else cut_last (removelast p).

Definition starts_with (q p : list Z) : bool := bool_decide (take (length q) p = q).

(** The index of the first separator. *)
Fixpoint first_sep (l : list Z) : option nat :=
  match l with
  | [] => None
  | c :: l' => if Str.IS_SEPARATOR c then Some 0%nat else S <$> first_sep l'
  end.

Fixpoint abspath_loop (fuel : nat) (p path : list Z) : res (list Z * list Z) :=
  match fuel with
  | O => Stop Fuel
  | S fuel' =>
      match path with
      | [] => Ok (p, path)
      | _ =>
          match first_sep path with
          | None => Ok (p, path)
          | Some i =>
              let len := S i in
              let path := <[i := 47]> path in
              let! p := (if starts_with [46; 47] path then Ok p
                         else if starts_with [46; 46; 47] path then pop_component p
                         else Ok (p ++ take len path)) in
              abspath_loop fuel' p (drop len path)
          end
      end
  end.

Definition abspath (p path : list Z) : res (list Z) :=
  let! p' := (if Str.IS_SEPARATOR (char_at path) then Ok (take 1 p) else cut_last p) in
  let path := if Str.IS_SEPARATOR (char_at path) then tl path else path in
  let! (p, path) := abspath_loop (S (length path)) p' path in
  match path with
  | [] => Ok p
  | _ =>
      if bool_decide (path = [46]) then Ok p
      else if negb (bool_decide (path = [46; 46])) then Ok (p ++ path ++ [47])
      else pop_component p
  end.

Section vfs.
Context (ops : Z → fs_op_t).

Definition op_of (n : nat) : ST fs fs_op_t :=
  let* i := the_inode n in
  let* o := deref_opt (op i) in
  st_ret (ops o).

Definition close_op (n : nat) : ST fs unit := let* o := op_of n in op_close o n.
Abbreviation iput := (iput close_op).

(** ** [namei.c] *)
Definition count_up (n : nat) : ST fs unit := mod_inode n (λ i, i <| count $= λ c, u32 (c + 1) |>).

(** The step from the root of a mounted file system to the directory it is
    mounted on. *)
Definition leave_mount (dir : nat) (name : list Z) : ST fs nat :=
  let* m := st_lift (match_name name [46; 46; 0] 3) in
  if none m then st_ret dir
  else
    let* i := the_inode dir in
    let* p := deref_opt (super i) in
    let* sp := the_super p in
    if bool_decide (iroot sp = Some dir) then
      let* up := deref_opt (imount sp) in
      do! count_up up;
      do! iput (Some dir);
      st_ret up
    else st_ret dir.

Fixpoint named_loop (fuel : nat) (dir : nat) (name right : list Z) : ST fs (option (nat * list Z)) :=
  match fuel with
  | O => st_stop Fuel
  | S fuel' =>
      let* dir := leave_mount dir name in
      let* o := op_of dir in
      let* (ret, r) := op_namei o dir name in
      match r with
      | None => do! iput (Some dir); st_ret None
      | Some (next, n) =>
          do! iput (Some dir);
          let* i := the_inode n in
          let* o := op_of n in
          let* ok := (if ISDIR (mode i) then op_permission o n P_EXEC else st_ret false) in
          if negb ok then do! iput (Some n); st_ret None
          else if bool_decide (right = next) then st_ret (Some (n, next))
          else named_loop fuel' n next right
      end
  end.

(** The result is the directory and [*next]. *)
Definition named (pathname : list Z) : ST fs (option (nat * list Z)) :=
  let* t := st_gets task in
  let abs := Str.IS_SEPARATOR (char_at pathname) in
  match pathname with
  | [] => st_ret None
  | _ =>
      let dir := if abs then troot t else tpwd t in
      let name := if abs then tl pathname else pathname in
      let* i := the_inode dir in
      do! st_check (0 <? dev i);
      do! count_up dir;
      match sep_prefix name with
      | None => st_ret (Some (dir, name))
      | Some n => named_loop (S (length name)) dir name (drop n name)
      end
  end.

Definition namei (pathname : list Z) : ST fs (option nat) :=
  let* r := named pathname in
  match r with
  | None => st_ret None
  | Some (dir, []) => st_ret (Some dir)
  | Some (dir, name) =>
      let* dir := leave_mount dir name in
      let* o := op_of dir in
      let* (_, r) := op_namei o dir name in
      do! iput (Some dir);
      st_ret (snd <$> r)
  end.

(** ** [super.c] *)
Fixpoint try_types (dv : Z) (p : nat) (l : list Z) : ST fs bool :=
  match l with
  | [] => st_ret false
  | t :: l' =>
      let* ret := op_super (ops t) dv p in
      if ret =? EOK then st_ret true else try_types dv p l'
  end.

Definition read_super (dv : Z) : ST fs (option nat) :=
  let* r := get_super dv in
  match r with
  | Some p => do! mod_super p (λ sp, sp <| scount $= λ c, u32 (c + 1) |>); st_ret (Some p)
  | None =>
      let* p := get_free_super in
      do! mod_super p (λ sp, sp <| scount $= λ c, u32 (c + 1) |>);
      let* ok := try_types dv p (seqZ 1 (FS_TYPE_NUM - 1)) in
      if (ok : bool) then st_ret (Some p)
      else do! put_super close_op (Some p); st_ret None
  end.

(** [part] and [cd] are the devices that [device_find] finds; [count] is not
    reset. *)
Definition mount_root (part cd : option Z) : ST fs unit :=
  match (match part with Some d => Some d | None => cd end) with
  | None => st_stop Assert
  | Some dv =>
      let* r := read_super dv in
      match r with
      | None => st_stop Assert
      | Some p =>
          let* sp := the_super p in
          do! mod_super p (λ sp, sp <| imount := iroot sp |>);
          let* r := deref_opt (iroot sp) in
          do! count_up r;
          mod_inode r (λ i, i <| mount := dv |>)
      end
  end.

Definition super_init (part cd : option Z) : ST fs unit :=
  do! st_mod (λ s, s <| super_table $= fmap (λ sp, mk_super None EOF (scount sp) FS_TYPE_NONE 0 0 [] None None) |>);
  mount_root part cd.

(** ** Open files *)
Definition sys_open (filename : list Z) (flags mode0 : Z) : ST fs Z :=
  let* r := named filename in
  match r with
  | None => st_ret (- ENOENT)
  | Some (dir, next) =>
      (* from the label makeup on *)
      let makeup n :=
        let* (fd, f) := fd_get in
        match f with
        | None => st_ret fd
        | Some f =>
            do! mod_file f (λ f, f <| finode := Some n |> <| fflags := flags |> <| fcount := 1 |> <| foffset := 0 |>);
            do! (if negb (Z.land flags O_APPEND =? 0) then
                   let* i := the_inode n in mod_file f (λ f, f <| foffset := s32 (size i) |>)
                 else st_ret tt);
            do! iput (Some dir);
            st_ret fd
        end in
      match next with
      | [] => do! count_up dir; makeup dir
      | _ =>
          let* o := op_of dir in
          let* (ret, n) := op_open o dir next flags mode0 in
          if ret <? 0 then do! iput (Some dir); st_ret ret
          else let* n := deref_opt n in makeup n
      end
  end.

Definition sys_creat (filename : list Z) (mode0 : Z) : ST fs Z :=
  sys_open filename (Z.lor O_CREAT O_TRUNC) mode0.

Definition sys_close (fd : Z) : ST fs unit := let* _ := fd_put close_op fd in st_ret tt.

(** [memory_access(buf, count, write, user)] *)
Context (memory_access : Z → Z → bool → bool → bool).

Definition user_access (buf cnt : Z) (write : bool) : ST fs bool :=
  let* t := st_gets task in
  st_ret (memory_access buf cnt write (negb (tuid t =? KERNEL_USER))).

(** [op_read] with the result's bytes, and the new offset. *)
Definition advance (f : nat) (len : Z) : ST fs unit :=
  st_when (0 <? len) (mod_file f (λ f, f <| foffset $= λ o, s32 (o + len) |>)).

Definition sys_read (fd buf cnt : Z) : ST fs (Z * list Z) :=
  if cnt <? 0 then st_ret (- EINVAL, [])
  else
    let* ok := user_access buf cnt false in
    if negb ok then st_ret (- EINVAL, [])
    else
      let* (ret, f) := fd_check fd in
      match f with
      | None => st_ret (ret, [])
      | Some f =>
          let* e := the_file f in
          if Z.land (fflags e) O_ACCMODE =? O_WRONLY then st_ret (EOF, [])
          else
            let* n := deref_opt (finode e) in
            let* o := op_of n in
            let* (len, bytes) := op_read o n cnt (foffset e) in
            do! advance f len;
            st_ret (len, bytes)
      end.

Definition sys_write (fd buf : Z) (data : list Z) (cnt : Z) : ST fs Z :=
  if cnt <? 0 then st_ret (- EINVAL)
  else
    let* ok := user_access buf cnt true in
    if negb ok then st_ret (- EINVAL)
    else
      let* (ret, f) := fd_check fd in
      match f with
      | None => st_ret ret
      | Some f =>
          let* e := the_file f in
          if Z.land (fflags e) O_ACCMODE =? O_RDONLY then st_ret (- EPERM)
          else
            match finode e with
            | None => st_stop Assert
            | Some n =>
                let* o := op_of n in
                let* len := op_write o n (take (Z.to_nat cnt) data) (foffset e) in
                do! advance f len;
                st_ret len
            end
      end.

Definition sys_lseek (fd offset whence : Z) : ST fs Z :=
  let* (ret, f) := fd_check fd in
  match f with
  | None => st_ret ret
  | Some f =>
      let* e := the_file f in
      do! st_check (negb (none (finode e)));
      let* o := (if whence =? SEEK_SET then do! st_check (0 <=? offset); st_ret offset
                 else if whence =? SEEK_CUR then
                   let o := s32 (foffset e + offset) in do! st_check (0 <=? o); st_ret o
                 else if whence =? SEEK_END then
                   (* size_t + off_t is unsigned: the assertion always holds *)
                   let* n := deref_opt (finode e) in
                   let* i := the_inode n in
                   st_ret (s32 (size i + offset))
                 else st_stop Assert) in
      do! mod_file f (λ f, f <| foffset := o |>);
      st_ret o
  end.

Definition dupfd (fd arg : Z) : ST fs Z :=
  let* (ret, f) := fd_check fd in
  match f with
  | None => st_ret ret
  | Some f =>
      if arg <? 0 then st_stop Fault
      else
        let* t := st_gets task in
        match find_from none (drop (Z.to_nat arg) (files t)) (Z.to_nat arg) with
        | None => st_ret (- EINVAL)
        | Some a =>
            do! set_fd (Z.of_nat a) (Some f);
            do! mod_file f (λ f, f <| fcount $= λ c, u32 (c + 1) |>);
            st_ret (Z.of_nat a)
        end
  end.

Definition sys_dup (oldfd : Z) : ST fs Z := dupfd oldfd 0.

Definition sys_dup2 (oldfd newfd : Z) : ST fs Z :=
  do! sys_close newfd;
  dupfd oldfd newfd.

Definition sys_readdir (fd buf cnt : Z) : ST fs (Z * option dentry_t) :=
  let* ok := user_access buf 76 false in
  if negb ok then st_ret (- EINVAL, None)
  else
    let* (ret, f) := fd_check fd in
    match f with
    | None => st_ret (ret, None)
    | Some f =>
        let* e := the_file f in
        if Z.land (fflags e) O_ACCMODE =? O_WRONLY then st_ret (EOF, None)
        else
          let* n := deref_opt (finode e) in
          let* o := op_of n in
          let* (len, d) := op_readdir o n cnt (foffset e) in
          do! advance f len;
          st_ret (len, d)
    end.

Definition sys_stat (filename : list Z) : ST fs (Z * option stat_t) :=
  let* r := namei filename in
  match r with
  | None => st_ret (- ENOENT, None)
  | Some n =>
      let* o := op_of n in
      let* r := op_stat o n in
      do! iput (Some n);
      st_ret r
  end.

Definition sys_fstat (fd : Z) : ST fs (Z * option stat_t) :=
  let* (ret, f) := fd_check fd in
  match f with
  | None => st_ret (ret, None)
  | Some f =>
      let* e := the_file f in
      match finode e with
      | None => st_stop Assert
      | Some n => let* o := op_of n in op_stat o n
      end
  end.

Definition sys_ioctl (fd cmd args : Z) : ST fs Z :=
  if TASK_FILE_NR <=? fd then st_ret (- EBADF)
  else if fd <? 0 then st_stop Fault
  else
    let* t := st_gets task in
    let* f := st_deref (λ _, files t !! Z.to_nat fd) in
    match f with
    | None => st_ret (- EBADF)
    | Some f =>
        let* e := the_file f in
        match finode e with
        | None => st_stop Assert
        | Some n => let* o := op_of n in op_ioctl o n cmd args
        end
    end.

(** ** Directories *)

(** The bytes put into the buffer ([strncpy]). *)
Definition sys_getcwd (sz : Z) : ST fs (list Z) :=
  let* t := st_gets task in
  st_ret (if Z.of_nat (length (pwd t)) <? sz then pwd t ++ [0] else take (Z.to_nat (sz - 1)) (pwd t) ++ [0]).

Definition sys_chdir (pathname : list Z) : ST fs Z :=
  let* r := namei pathname in
  match r with
  | None => st_ret (- ENOENT)
  | Some n =>
      let* i := the_inode n in
      do! st_check (0 <? dev i);
      let* t := st_gets task in
      if bool_decide (n = tpwd t) then do! iput (Some n); st_ret EOK
      else if negb (ISDIR (mode i)) then do! iput (Some n); st_ret (- EPERM)
      else
        let* p := st_lift (abspath (pwd t) pathname) in
        do! mod_task (λ t, t <| pwd := p |>);
        do! iput (Some (tpwd t));
        do! mod_task (λ t, t <| tpwd := n |>);
        st_ret EOK
  end.

Definition sys_chroot (pathname : list Z) : ST fs Z :=
  let* r := namei pathname in
  match r with
  | None => st_ret (- ENOENT)
  | Some n =>
      let* i := the_inode n in
      let* t := st_gets task in
      if negb (ISDIR (mode i)) || bool_decide (n = troot t) then do! iput (Some n); st_ret (- EPERM)
      else
        do! iput (Some (troot t));
        do! mod_task (λ t, t <| troot := n |>);
        st_ret EOK
  end.

(** [sys_mkdir], [sys_rmdir], [sys_unlink] and [sys_mknod] differ in the
    operation they call. *)
Definition in_directory (pathname : list Z) (f : fs_op_t → nat → list Z → ST fs Z) : ST fs Z :=
  let* r := named pathname in
  match r with
  | None => st_ret (- ENOENT)
  | Some (dir, []) => do! iput (Some dir); st_ret (- ENOENT)
  | Some (dir, next) =>
      let* o := op_of dir in
      let* ok := op_permission o dir P_WRITE in
      if negb ok then do! iput (Some dir); st_ret (- EPERM)
      else
        let* ret := f o dir next in
        do! iput (Some dir);
        st_ret ret
  end.

Definition sys_mkdir (pathname : list Z) (mode0 : Z) : ST fs Z :=
  in_directory pathname (λ o dir next, op_mkdir o dir next mode0).
Definition sys_rmdir (pathname : list Z) : ST fs Z :=
  in_directory pathname (λ o dir next, op_rmdir o dir next).
Definition sys_unlink (filename : list Z) : ST fs Z :=
  in_directory filename (λ o dir next, op_unlink o dir next).
Definition sys_mknod (filename : list Z) (mode0 dv : Z) : ST fs Z :=
  in_directory filename (λ o dir next, op_mknod o dir next mode0 dv).

(** When the old path does not exist, [goto rollback] passes the initialisation of
    [ndir], which [iput] then uses. *)
Definition sys_link (oldname newname : list Z) : ST fs Z :=
  let* r := named oldname in
  match r with
  | None => st_stop Fault
  | Some (odir, oname) =>
      let* r := named newname in
      match r with
      | None => do! iput (Some odir); st_ret (- ENOENT)
      | Some (ndir, nname) =>
          let* o := op_of ndir in
          let* ret := op_link o odir oname ndir nname in
          do! iput (Some odir);
          do! iput (Some ndir);
          st_ret ret
      end
  end.

(** ** Mounting *)
Definition sys_mount (devname dirname : list Z) : ST fs Z :=
  let rollback sp dv dr ret :=
    do! put_super close_op sp; do! iput dv; do! iput dr; st_ret ret in
  let* dv := namei devname in
  match dv with
  | None => rollback None None None (- ENOENT)
  | Some d =>
      let* di := the_inode d in
      if negb (ISBLK (mode di)) then rollback None dv None (- EPERM)
      else if rdev di =? 0 then rollback None dv None (- ENOSYS)
      else
        let* dr := namei dirname in
        match dr with
        | None => rollback None dv None (- ENOENT)
        | Some r =>
            let* ri := the_inode r in
            if negb (ISDIR (mode ri)) then rollback None dv dr (- EPERM)
            else if negb (count ri =? 1) || negb (mount ri =? 0) then rollback None dv dr (- EBUSY)
            else
              let* di := the_inode d in
              let* sp := read_super (rdev di) in
              match sp with
              | None => rollback None dv dr (- EFSUNK)
              | Some p =>
                  let* s := the_super p in
                  if negb (none (imount s)) then rollback sp dv dr (- EBUSY)
                  else
                    do! mod_super p (λ s, s <| imount := Some r |>);
                    do! mod_inode r (λ i, i <| mount := rdev di |>);
                    do! iput dv;
                    st_ret EOK
              end
        end
  end.

Definition sys_umount (target : list Z) : ST fs Z :=
  let rollback n sp ret := do! iput n; do! put_super close_op sp; st_ret ret in
  let* n := namei target in
  match n with
  | None => rollback None None (- ENOENT)
  | Some m =>
      let* i := the_inode m in
      let* q := deref_opt (super i) in
      let* isp := the_super q in
      if negb (ISBLK (mode i)) && negb (bool_decide (iroot isp = n)) then rollback n None (- ENOTBLK)
      else if bool_decide (m = get_root_inode) then rollback n None (- EBUSY)
      else
        let dv := if ISBLK (mode i) then rdev i else dev i in
        let* sp := read_super dv in
        match sp with
        | None => st_stop Assert
        | Some p =>
            let* s := the_super p in
            match imount s with
            | None => rollback n sp (- ENOENT)
            | Some up =>
                let* r := deref_opt (iroot s) in
                let* ri := the_inode r in
                let* isp := the_super q in
                if 2 <? count ri then rollback n sp (- EBUSY)
                else if (count ri =? 2) && negb (bool_decide (iroot isp = n)) then rollback n sp (- EBUSY)
                else if (1 <? length (inode_list s))%nat then rollback n sp (- EBUSY)
                else
                  do! iput (iroot s);
                  do! mod_super p (λ s, s <| iroot := None |>);
                  do! mod_inode up (λ i, i <| mount := 0 |>);
                  do! iput (Some up);
                  do! mod_super p (λ s, s <| imount := None |> <| scount $= λ c, u32 (c - 1) |>);
                  let* s := the_super p in
                  do! st_check (scount s =? 1);
                  rollback n sp EOK
            end
        end
  end.

Definition sys_mkfs (devname : list Z) (args : Z) : ST fs Z :=
  let* r := namei devname in
  match r with
  | None => st_ret (- ENOENT)
  | Some n =>
      let* i := the_inode n in
      if negb (ISBLK (mode i)) then do! iput (Some n); st_ret (- ENOTDIR)
      else
        do! st_check (negb (rdev i =? 0));
        let* o := op_of n in
        let* ret := op_mkfs o (rdev i) args in
        do! iput (Some n);
        st_ret ret
  end.
End vfs.
