(* ===== verification/AbsPath.v ===== *)
(** * The path of the working directory ([abspath] of [src/src/fs/fsyscall.c])

    [abspath] edits the string of the working directory in place.  It computes the
    normal form of a list of components: a full stop adds nothing, two remove the
    last component, anything else, the empty component too, is added. *)
From S2P Require Import Prelude Fs.
From S2P Require Str Vfs.
Open Scope Z_scope.

Definition sep : Z := 47.
Definition no_sep (c : list Z) : Prop := Forall (λ x, Str.IS_SEPARATOR x = false) c.

(** The text of a list of components. *)
Definition render (cs : list (list Z)) : list Z := sep :: concat (map (λ c, c ++ [sep]) cs).

(** The components of a path; a separator at its end adds none. *)
Fixpoint pieces (l : list Z) : list (list Z) :=
  match l with
  | [] => []
  | x :: l' =>
      if Str.IS_SEPARATOR x then [] :: pieces l'
      else match pieces l' with [] => [[x]] | c :: cs => (x :: c) :: cs end
  end.

Definition dot : list Z := [46].
Definition dots : list Z := [46; 46].

(** One component, after the components [cs]. *)
Definition enter (cs : list (list Z)) (c : list Z) : list (list Z) :=
  if decide (c = dot) then cs else if decide (c = dots) then removelast cs else cs ++ [c].

Definition resolve (cs : list (list Z)) (path : list Z) : list (list Z) :=
  if Str.IS_SEPARATOR (char_at path) then fold_left enter (pieces (tl path)) []
  else fold_left enter (pieces path) cs.

Lemma pieces_first c x rest : no_sep c → Str.IS_SEPARATOR x = true → pieces (c ++ x :: rest) = c :: pieces rest.
Proof.
  intros Hc Hx. induction Hc as [|y c Hy Hc IH]; cbn [app pieces]; [by rewrite Hx|]. by rewrite Hy, IH.
Qed.

Lemma pieces_last c : no_sep c → c ≠ [] → pieces c = [c].
Proof.
  induction 1 as [|y c Hy Hc IH]; [done|]. intros _. cbn [pieces]. rewrite Hy.
  destruct c as [|z c]; [done|]. by rewrite IH.
Qed.

Lemma render_snoc cs c : render (cs ++ [c]) = render cs ++ c ++ [sep].
Proof. unfold render. rewrite map_app, concat_app. cbn. by rewrite app_nil_r. Qed.

(** ** The string functions *)
Lemma sep_prefix_none c : no_sep c → Vfs.sep_prefix c = None.
Proof. induction 1 as [|x c Hx Hc IH]; [done|]. cbn. by rewrite IH, Hx. Qed.

Lemma sep_prefix_app a x c : no_sep c → Str.IS_SEPARATOR x = true → Vfs.sep_prefix (a ++ x :: c) = Some (S (length a)).
Proof.
  intros Hc Hx. induction a as [|y a IH]; cbn [app Vfs.sep_prefix length]; [by rewrite sep_prefix_none, Hx|]. by rewrite IH.
Qed.

Lemma cut_last_app a x c : no_sep c → Str.IS_SEPARATOR x = true → Vfs.cut_last (a ++ x :: c) = Ok (a ++ [x]).
Proof.
  intros Hc Hx. unfold Vfs.cut_last. rewrite sep_prefix_app by done. cbn [deref res_bind]. f_equal.
  rewrite (cons_middle x a c), app_assoc. apply take_app_length'. rewrite length_app. cbn. lia.
Qed.

Lemma render_last cs : ∃ a, render cs = a ++ [sep].
Proof.
  destruct cs as [|c cs] using rev_ind; [by exists []|]. rewrite render_snoc. exists (render cs ++ c). by rewrite app_assoc.
Qed.

Lemma cut_last_render cs c : no_sep c → Vfs.cut_last (render cs ++ c) = Ok (render cs).
Proof. intros Hc. destruct (render_last cs) as [a ->]. rewrite <-app_assoc. by apply cut_last_app. Qed.

Lemma pop_render cs : Forall no_sep cs → Vfs.pop_component (render cs) = Ok (render (removelast cs)).
Proof.
  intros Hcs. destruct cs as [|c cs] using rev_ind; [done|]. clear IHcs.
  apply Forall_app in Hcs as [_ Hc]. apply Forall_cons in Hc as [Hc _].
  unfold Vfs.pop_component. rewrite render_snoc, removelast_last, app_assoc, removelast_last.
  destruct (Nat.eqb_spec (length ((render cs ++ c) ++ [sep])) 1) as [E|_]; [|by apply cut_last_render].
  rewrite !length_app in E. unfold render in E. cbn in E. lia.
Qed.

Lemma first_sep_app c x rest : no_sep c → Str.IS_SEPARATOR x = true → Vfs.first_sep (c ++ x :: rest) = Some (length c).
Proof. intros Hc Hx. induction Hc as [|y c Hy Hc IH]; cbn [app Vfs.first_sep length]; [by rewrite Hx|]. by rewrite Hy, IH. Qed.

Lemma first_sep_split l : (no_sep l ∧ Vfs.first_sep l = None) ∨
  ∃ c x rest, l = c ++ x :: rest ∧ no_sep c ∧ Str.IS_SEPARATOR x = true.
Proof.
  induction l as [|y l IH]; [left; split; [constructor|done]|]. destruct (Str.IS_SEPARATOR y) eqn:Ey; [right; exists [], y, l; split; [done|]; split; [constructor|done]|].
  destruct IH as [[Hl Hf]|(c & x & rest & -> & Hc & Hx)]; [left|right].
  - split; [by constructor|]. cbn. by rewrite Ey, Hf.
  - exists (y :: c), x, rest. split; [done|]. split; [by constructor|done].
Qed.

Lemma starts_with_app q c rest : no_sep q → no_sep c →
  Vfs.starts_with (q ++ [sep]) (c ++ sep :: rest) = bool_decide (c = q).
Proof.
  intros Hq Hc. unfold Vfs.starts_with. apply bool_decide_ext. split; [|intros ->; rewrite (cons_middle sep q rest), app_assoc; apply take_app_length].
  revert c Hc. induction Hq as [|x q Hx Hq IH]; intros c Hc; (destruct c as [|y c]; [|apply Forall_cons in Hc as [Hy Hc]]); cbn [app length take].
  - done.
  - intros [= ->]. done.
  - intros [= <-]. done.
  - intros E. injection E as -> E. f_equal. by apply IH.
Qed.

(** ** The loop *)
Lemma abspath_loop_spec fuel : ∀ cs path, Forall no_sep cs → (length path < fuel)%nat →
  ∃ cs' rest, Vfs.abspath_loop fuel (render cs) path = Ok (render cs', rest) ∧ Forall no_sep cs' ∧ no_sep rest ∧
    fold_left enter (pieces path) cs = fold_left enter (pieces rest) cs'.
Proof.
  induction fuel as [|fuel IH]; intros cs path Hcs Hlen; [lia|]. cbn [Vfs.abspath_loop].
  destruct path as [|a path]; [exists cs, []; split; [done|]; split; [done|]; split; [constructor|done]|].
  destruct (first_sep_split (a :: path)) as [[Hn ->]|(c & x & rest & E & Hc & Hx)].
  { by exists cs, (a :: path). }
  rewrite E, first_sep_app by done. rewrite insert_app_r_alt, Nat.sub_diag by done. cbn [insert list_insert].
  assert (Vfs.starts_with [46; 47] (c ++ 47 :: rest) = bool_decide (c = dot)) as -> by (apply (starts_with_app dot); [by repeat constructor|done]).
  assert (Vfs.starts_with [46; 46; 47] (c ++ 47 :: rest) = bool_decide (c = dots)) as -> by (apply (starts_with_app dots); [by repeat constructor|done]).
  assert (take (S (length c)) (c ++ 47 :: rest) = c ++ [sep]) as ->.
  { rewrite (cons_middle 47 c rest), app_assoc. apply take_app_length'. rewrite length_app. cbn. lia. }
  assert (drop (S (length c)) (c ++ 47 :: rest) = rest) as ->.
  { rewrite (cons_middle 47 c rest), app_assoc. apply drop_app_length'. rewrite length_app. cbn. lia. }
  assert (∃ cs1, (if bool_decide (c = dot) then Ok (render cs) else if bool_decide (c = dots) then Vfs.pop_component (render cs)
    else Ok (render cs ++ c ++ [sep])) = Ok (render cs1) ∧ cs1 = enter cs c ∧ Forall no_sep cs1) as (cs1 & -> & -> & Hcs1).
  { unfold enter. destruct (decide (c = dot)) as [->|H1]; [rewrite bool_decide_true by done; by eexists|rewrite bool_decide_false by done].
    destruct (decide (c = dots)) as [->|H2]; [rewrite bool_decide_true by done|rewrite bool_decide_false by done].
    - rewrite pop_render by done. eexists. split; [done|]. split; [done|].
      destruct cs as [|c cs] using rev_ind; [done|]. rewrite removelast_last. by apply Forall_app in Hcs as [? _].
    - rewrite <-render_snoc. eexists. split; [done|]. split; [done|]. apply Forall_app. split; [done|]. constructor; [done|constructor]. }
  cbn [res_bind]. rewrite pieces_first by done. cbn [fold_left]. apply IH; [done|].
  rewrite E, length_app in Hlen. cbn in Hlen. lia.
Qed.

(** C30: whatever the path, [abspath] turns the text of the components [cs] into the
    text of their normal form with the path: it never fails, and the result again
    begins and ends with a separator. *)
Theorem abspath_normalises (cs : list (list Z)) (path : list Z) (Hcs : Forall no_sep cs) :
  Vfs.abspath (render cs) path = Ok (render (resolve cs path)) ∧ Forall no_sep (resolve cs path).
Proof.
  assert (∀ cs0 path0, Forall no_sep cs0 → Forall no_sep (fold_left enter (pieces path0) cs0) ∧
    (let! (p, rest) := Vfs.abspath_loop (S (length path0)) (render cs0) path0 in
     match rest with
     | [] => Ok p
     | _ => if bool_decide (rest = [46]) then Ok p
            else if negb (bool_decide (rest = [46; 46])) then Ok (p ++ rest ++ [47]) else Vfs.pop_component p
     end) = Ok (render (fold_left enter (pieces path0) cs0))) as Hmain.
  { intros cs0 path0 Hcs0. destruct (abspath_loop_spec (S (length path0)) cs0 path0 Hcs0) as (cs' & rest & -> & Hcs' & Hr & ->); [lia|].
    cbn [res_bind]. destruct rest as [|a rest]; [done|]. rewrite pieces_last by done. cbn [fold_left]. unfold enter.
    fold dot dots. destruct (decide (a :: rest = dot)); [rewrite bool_decide_true by done; done|rewrite bool_decide_false by done].
    destruct (decide (a :: rest = dots)); [rewrite bool_decide_true by done|rewrite bool_decide_false by done]; cbn [negb].
    - split; [|by apply pop_render]. destruct cs' as [|c cs'] using rev_ind; [done|]. rewrite removelast_last. by apply Forall_app in Hcs' as [? _].
    - rewrite render_snoc. split; [|done]. apply Forall_app. split; [done|]. constructor; [done|constructor]. }
  unfold Vfs.abspath, resolve. destruct (Str.IS_SEPARATOR (char_at path)).
  - cbn [render concat map take res_bind]. destruct (Hmain [] (tl path) ltac:(constructor)) as [H1 H2]. split; [exact H2|exact H1].
  - assert (Vfs.cut_last (render cs) = Ok (render cs)) as ->.
    { rewrite <-(app_nil_r (render cs)) at 1. apply cut_last_render. constructor. }
    cbn [res_bind].
    destruct (Hmain cs path Hcs) as [H1 H2]. split; [exact H2|exact H1].
Qed.

(** From [/usr/] by [../bin/./x]. *)
Lemma abspath_normalises_witness :
  Vfs.abspath [47; 117; 115; 114; 47] [46; 46; 47; 98; 105; 110; 47; 46; 47; 120] = Ok [47; 98; 105; 110; 47; 120; 47].
Proof.
  destruct (abspath_normalises [[117; 115; 114]] [46; 46; 47; 98; 105; 110; 47; 46; 47; 120]) as [H _]; [by repeat constructor|].
  exact H.
Defined.
