(* ===== verification/MinixZone.v ===== *)
(** * The bitmaps of the minix file system ([minix_balloc], [minix_bfree],
    [minix_ialloc], [minix_ifree] of [src/src/fs/minix/minix.c])

    A bitmap of the file system is spread over consecutive blocks; [mbit] is one
    of its bits.  The theorems: which zone is allocated, what that changes, and
    that freeing undoes it. *)
From stdpp Require Import gmultiset.
From S2P Require Import Prelude Fs Minix.
From S2P Require Bitmap.
Open Scope Z_scope.

(** ** Scanning with a length past the end of the buffer *)
Lemma scan_loop_longer bits len len2 off cnt left left2 nb c r :
  len ≤ len2 → (left ≤ left2)%nat → r ≠ EOF →
  Bitmap.scan_loop (Bitmap.mk_bitmap bits len off) cnt left nb c = Ok r →
  Bitmap.scan_loop (Bitmap.mk_bitmap bits len2 off) cnt left2 nb c = Ok r.
Proof.
  intros Hlen. revert left2 nb c. induction left as [|left IH]; intros left2 nb c Hl Hr Hrun; cbn in Hrun.
  { by injection Hrun as <-. }
  destruct left2 as [|left2]; [lia|]. cbn. unfold Bitmap.bitmap_test in *. cbn in *.
  destruct (off <=? u32 (off + nb)); [|done]. cbn in *.
  destruct (Z.ltb_spec (u32 (u32 (off + nb) - off) `div` 8) len) as [Hlt|]; [|done].
  rewrite (proj2 (Z.ltb_lt _ _)) by lia. cbn in *.
  destruct (Bitmap.load_byte bits _) as [v|]; [|done]. cbn in *.
  match goal with |- context [?x =? cnt] => destruct (x =? cnt) end; [done|]. apply IH; [lia|done|done].
Qed.

(** Marking does not read the length. *)
Lemma mark_loop_longer bits len len2 off n nb m :
  Bitmap.mark_loop (Bitmap.mk_bitmap bits len off) n nb = Ok m →
  Bitmap.mark_loop (Bitmap.mk_bitmap bits len2 off) n nb =
    Ok (Bitmap.mk_bitmap (Bitmap.bits m) len2 (Bitmap.offset m)).
Proof.
  revert bits nb. induction n as [|n IH]; intros bits nb Hrun; cbn [Bitmap.mark_loop] in *.
  { by injection Hrun as <-. }
  unfold Bitmap.bitmap_set in *. cbn [Bitmap.offset Bitmap.bits Bitmap.length] in *.
  destruct (off <=? _); [|done]. cbn [check res_bind] in *.
  destruct (Bitmap.load_byte bits _) as [v|]; [|done]. cbn [res_bind] in *.
  destruct (Bitmap.store_byte bits _ _) as [b'|]; [|done]. cbn [res_bind] in *. by apply IH.
Qed.

Lemma bitmap_scan_longer bits len len2 off r m : 0 ≤ len ≤ len2 → len2 < 2 ^ 28 → r ≠ EOF →
  Bitmap.bitmap_scan (Bitmap.mk_bitmap bits len off) 1 = Ok (r, m) →
  Bitmap.bitmap_scan (Bitmap.mk_bitmap bits len2 off) 1 =
    Ok (r, Bitmap.mk_bitmap (Bitmap.bits m) len2 (Bitmap.offset m)).
Proof.
  intros Hlen H28 Hr. unfold Bitmap.bitmap_scan. cbn [Bitmap.length Bitmap.offset].
  assert (Z.to_nat (u32 (len * 8)) <= Z.to_nat (u32 (len2 * 8)))%nat as Hfuel.
  { rewrite !u32_small by lia. lia. }
  revert Hfuel. generalize (Z.to_nat (u32 (len * 8))), (Z.to_nat (u32 (len2 * 8))). intros n1 n2 Hfuel Hrun.
  destruct (Bitmap.scan_loop _ 1 n1 0 0) as [st|] eqn:Es; [|done]. cbn [res_bind] in Hrun.
  destruct (Z.eqb_spec st EOF) as [->|Hst]; [by injection Hrun as <- _|].
  rewrite (scan_loop_longer bits len len2 off 1 _ _ 0 0 st (proj2 Hlen) Hfuel Hst Es). cbn [res_bind].
  rewrite (proj2 (Z.eqb_neq _ _)) by done.
  destruct (Bitmap.mark_loop _ _ _) as [m'|] eqn:Em; [|done]. cbn [res_bind] in Hrun.
  rewrite (mark_loop_longer _ _ _ _ _ _ m' Em). cbn [res_bind]. by injection Hrun as <- <-.
Qed.

(** One clear bit is searched for and set. *)
Lemma scan_one b len off : Z.of_nat (length b) = BLOCK_SIZE → Forall (λ v, 0 ≤ v < 256) b →
  BLOCK_SIZE ≤ len ≤ BLOCK_BITS → 0 ≤ off → off < 2 ^ 30 →
  (∃ j, 0 ≤ j < BLOCK_BITS ∧ Bitmap.bit b j = false) ∨ len = BLOCK_SIZE →
  (∃ j m, Bitmap.bitmap_scan (Bitmap.bitmap_make b len off) 1 = Ok (off + j, m) ∧ 0 ≤ j < BLOCK_BITS ∧
     Bitmap.bit b j = false ∧ (∀ j', 0 ≤ j' < j → Bitmap.bit b j' = true) ∧
     length (Bitmap.bits m) = length b ∧ Forall (λ v, 0 ≤ v < 256) (Bitmap.bits m) ∧
     ∀ j', 0 ≤ j' < BLOCK_BITS → Bitmap.bit (Bitmap.bits m) j' = if j' =? j then true else Bitmap.bit b j') ∨
  (Bitmap.bitmap_scan (Bitmap.bitmap_make b len off) 1 = Ok (EOF, Bitmap.bitmap_make b len off) ∧
   len = BLOCK_SIZE ∧ ∀ j, 0 ≤ j < BLOCK_BITS → Bitmap.bit b j = true).
Proof.
  unfold BLOCK_BITS, BLOCK_SIZE. intros Hb Hf Hlen Ho1 Ho2 Hcond.
  set (map := Bitmap.mk_bitmap b 1024 off).
  assert (Bitmap.bitmap_wf map) as Hwf by (split; cbn; [lia|lia|unfold Bitmap.nbits; cbn; lia|done]).
  destruct (Bitmap.bitmap_scan_spec map 1 Hwf ltac:(lia)) as [[Hrun Hnone]|(j & m & Hrun & Hj & Hmin & Hwf' & Hu)].
  - right. assert (∀ j, 0 ≤ j < 1024 * 8 → Bitmap.bit b j = true) as Hall.
    { intros j Hj. destruct (Bitmap.bit b j) eqn:Eb; [done|]. exfalso. apply (Hnone j).
      split; [lia|]. split; [unfold Bitmap.nbits; cbn; lia|]. intros k Hk. replace k with j by lia. done. }
    destruct Hcond as [(j & Hj & Ej)| ->]; [rewrite Hall in Ej by lia; done|]. done.
  - left. destruct Hj as (Hj0 & Hj1 & Hj2). unfold Bitmap.nbits in Hj1. cbn in Hj1.
    destruct Hwf' as [W1 W2 W3 W4]. destruct Hu as (U1 & U2 & U3). cbn in U1.
    assert (off + j ≠ EOF) as Hne by (unfold EOF, EEOF; lia).
    pose proof (bitmap_scan_longer b 1024 len off (off + j) m ltac:(lia) ltac:(lia) Hne Hrun) as Hrun2.
    eexists j, _. unfold Bitmap.bitmap_make. split; [exact Hrun2|]. cbn [Bitmap.bits]. split; [lia|].
    split; [apply Hj2; lia|]. split; [|split; [lia|split; [done|]]].
    + intros j' Hj'. destruct (Bitmap.bit b j') eqn:Eb; [done|]. exfalso. apply (Hmin j' Hj').
      split; [lia|]. split; [unfold Bitmap.nbits; cbn; lia|]. intros k Hk. replace k with j' by lia. done.
    + intros j' Hj'. rewrite U3 by lia. unfold Bitmap.nbits. cbn [Bitmap.length map].
      destruct (Z.eqb_spec j' j) as [->|Hjj].
      * rewrite (proj2 (Z.leb_le _ _)), !(proj2 (Z.ltb_lt _ _)) by lia. done.
      * destruct (Z.leb_spec j j'), (Z.ltb_spec j' (j + 1)); try lia; done.
Qed.

(** ** Bitmaps over several blocks *)
Definition mbit (bs : gmap key (list Z)) (dv base k : Z) : bool :=
  match bs !! (dv, base + k `div` BLOCK_BITS) with
  | Some b => Bitmap.bit b (k `mod` BLOCK_BITS)
  | None => false
  end.

Definition blk_ok (bs : gmap key (list Z)) (k : key) : Prop :=
  ∃ b, bs !! k = Some b ∧ Z.of_nat (length b) = BLOCK_SIZE ∧ Forall (λ v, 0 ≤ v < 256) b.

(** [bs'] is [bs] with bit [k] changed to [v]. *)
Definition bit_changed (bs bs' : gmap key (list Z)) (dv base k : Z) (v : bool) : Prop :=
  ∃ b b', bs !! (dv, base + k `div` BLOCK_BITS) = Some b ∧
    bs' = <[(dv, base + k `div` BLOCK_BITS) := b']> bs ∧
    length b' = length b ∧ Forall (λ v, 0 ≤ v < 256) b' ∧
    ∀ j, 0 ≤ j < BLOCK_BITS → Bitmap.bit b' j = if j =? k `mod` BLOCK_BITS then v else Bitmap.bit b j.

Lemma bits_split k k' : 0 ≤ k → 0 ≤ k' → k `div` BLOCK_BITS = k' `div` BLOCK_BITS →
  k `mod` BLOCK_BITS = k' `mod` BLOCK_BITS → k = k'.
Proof.
  intros Hk Hk' Hd Hm. rewrite (Z.div_mod k BLOCK_BITS), (Z.div_mod k' BLOCK_BITS) by done. lia.
Qed.

Lemma mod_bits k : 0 ≤ k `mod` BLOCK_BITS < BLOCK_BITS.
Proof. apply Z.mod_pos_bound. done. Qed.

Section changed.
Context (bs bs' : gmap key (list Z)) (dv base k : Z) (v : bool).
Context (Hk : 0 ≤ k) (Hc : bit_changed bs bs' dv base k v).

Lemma changed_mbit k' : 0 ≤ k' → mbit bs' dv base k' = if k' =? k then v else mbit bs dv base k'.
Proof using All.
  destruct Hc as (b & b' & Hb & -> & Hl & _ & Hbits). intros Hk'. unfold mbit.
  destruct (decide (k' `div` BLOCK_BITS = k `div` BLOCK_BITS)) as [Ed|Ed].
  - rewrite Ed, lookup_insert_eq, Hb, Hbits by apply mod_bits.
    destruct (Z.eqb_spec k' k) as [->|Hne]; [by rewrite Z.eqb_refl|].
    destruct (Z.eqb_spec (k' `mod` BLOCK_BITS) (k `mod` BLOCK_BITS)); [|done].
    destruct Hne. by apply bits_split.
  - rewrite lookup_insert_ne by (intros [=]; lia).
    destruct (Z.eqb_spec k' k) as [->|]; [done|done].
Qed.

Lemma changed_lookup key : key ≠ (dv, base + k `div` BLOCK_BITS) → bs' !! key = bs !! key.
Proof using Hc. destruct Hc as (b & b' & _ & -> & _). intros. by rewrite lookup_insert_ne. Qed.

Lemma changed_blk_ok key : blk_ok bs key → blk_ok bs' key.
Proof using Hc.
  destruct Hc as (b & b' & Hb & -> & Hl & Hf & _). intros (c & Hcl & Hlen & Hbytes).
  destruct (decide (key = (dv, base + k `div` BLOCK_BITS))) as [->|Hne].
  - exists b'. rewrite lookup_insert_eq. assert (c = b) as -> by congruence. split; [done|]. split; [lia|done].
  - exists c. by rewrite lookup_insert_ne.
Qed.

(** A bitmap in other blocks. *)
Lemma changed_mbit_other base' k' : base' + k' `div` BLOCK_BITS ≠ base + k `div` BLOCK_BITS →
  mbit bs' dv base' k' = mbit bs dv base' k'.
Proof using Hc. intros Hne. unfold mbit. rewrite changed_lookup; [done|]. intros [=]. lia. Qed.
End changed.

(** Buffers of the blocks [base + i0] to [base + i0 + n - 1], each used once. *)
Definition uses (dv base i0 n : Z) : gmultiset key :=
  list_to_set_disj ((λ i, (dv, base + i)) <$> seqZ i0 n).

Lemma uses_cons dv base i0 n : 0 < n →
  uses dv base i0 n = {[+ (dv, base + i0) +]} ⊎ uses dv base (i0 + 1) (n - 1).
Proof.
  intros Hn. unfold uses. rewrite seqZ_cons by lia. cbn [fmap list_fmap list_to_set_disj].
  by replace (Z.pred n) with (n - 1) by lia.
Qed.

Lemma uses_snoc dv base i0 n : 0 ≤ n →
  uses dv base i0 (n + 1) = {[+ (dv, base + i0 + n) +]} ⊎ uses dv base i0 n.
Proof.
  intros Hn. unfold uses. rewrite seqZ_app, (seqZ_cons (i0 + n) 1) by lia.
  rewrite fmap_app, list_to_set_disj_app. change (Z.pred 1) with 0.
  cbn [fmap list_fmap list_to_set_disj seqZ Z.to_nat seq]. replace (base + (i0 + n)) with (base + i0 + n) by lia.
  multiset_solver.
Qed.

Lemma uses_nil dv base i0 : uses dv base i0 0 = ∅.
Proof. done. Qed.

Section alloc.
Context (E : stop → Prop) (dv base len off0 limit N : Z).
Context (Hlen : BLOCK_SIZE ≤ len ≤ BLOCK_BITS) (Hoff : 0 ≤ off0) (Hfit : N * BLOCK_BITS + off0 < 2 ^ 30).

(** [scan_block] on block [i] of the bitmap. *)
Lemma wp_scan_block s i (Q : Z → fs → Prop) : 0 ≤ i < N → blk_ok (blocks s) (dv, base + i) →
  len = BLOCK_SIZE ∨ (∃ k, i * BLOCK_BITS ≤ k < (i + 1) * BLOCK_BITS ∧ mbit (blocks s) dv base k = false) →
  (∀ k bs', i * BLOCK_BITS ≤ k < (i + 1) * BLOCK_BITS → mbit (blocks s) dv base k = false →
     (∀ k', i * BLOCK_BITS ≤ k' < k → mbit (blocks s) dv base k' = true) →
     bit_changed (blocks s) bs' dv base k true → Q (off0 + k) (s <| blocks := bs' |>)) →
  (len = BLOCK_SIZE → (∀ k, i * BLOCK_BITS ≤ k < (i + 1) * BLOCK_BITS → mbit (blocks s) dv base k = true) → Q EOF s) →
  wp E (scan_block (dv, base + i) len (i * BLOCK_BITS + off0)) Q s.
Proof using Hlen Hoff Hfit.
  intros Hi (b & Hb & Hbl & Hbf) Hcond HQ HQn.
  assert (∀ j, 0 ≤ j < BLOCK_BITS → mbit (blocks s) dv base (i * BLOCK_BITS + j) = Bitmap.bit b j) as Hm.
  { intros j Hj. unfold mbit. unfold BLOCK_BITS, BLOCK_SIZE in *.
    replace ((i * (1024 * 8) + j) `div` (1024 * 8)) with i by (Z.div_mod_to_equations; lia).
    replace ((i * (1024 * 8) + j) `mod` (1024 * 8)) with j by (Z.div_mod_to_equations; lia). by rewrite Hb. }
  assert (∀ k, i * BLOCK_BITS ≤ k < (i + 1) * BLOCK_BITS → k `div` BLOCK_BITS = i ∧
    k `mod` BLOCK_BITS = k - i * BLOCK_BITS) as Hdm.
  { unfold BLOCK_BITS, BLOCK_SIZE. intros k Hk. Z.div_mod_to_equations; lia. }
  unfold scan_block. apply wp_bind. eapply wp_deref; [exact Hb|]. apply wp_bind.
  destruct (scan_one b len (i * BLOCK_BITS + off0) Hbl Hbf Hlen) as [(j & m & Hrun & Hj & Hbit & Hmin & Hlm & Hfm & Hset)|(Hrun & Hl & Hall)].
  - unfold BLOCK_BITS, BLOCK_SIZE in *. lia.
  - unfold BLOCK_BITS, BLOCK_SIZE in *. lia.
  - destruct Hcond as [->|(k & Hk & Hkb)]; [by right|left]. exists (k - i * BLOCK_BITS).
    split; [lia|]. rewrite <-Hm by lia. by replace (i * BLOCK_BITS + (k - i * BLOCK_BITS)) with k by lia.
  - eapply wp_lift; [exact Hrun|]. apply wp_bind, wp_mod, wp_ret.
    replace (i * BLOCK_BITS + off0 + j) with (off0 + (i * BLOCK_BITS + j)) by lia.
    destruct (Hdm (i * BLOCK_BITS + j) ltac:(lia)) as [Ed Em].
    change (s <| blocks $= <[(dv, base + i) := Bitmap.bits m]> |>) with
      (s <| blocks := <[(dv, base + i) := Bitmap.bits m]> (blocks s) |>).
    apply HQ; [lia|by rewrite Hm| |].
    + intros k' Hk'. replace k' with (i * BLOCK_BITS + (k' - i * BLOCK_BITS)) by lia. rewrite Hm by lia. apply Hmin. lia.
    + exists b, (Bitmap.bits m). rewrite Ed, Em. split; [done|]. split; [done|]. split; [done|]. split; [done|].
      intros j' Hj'. rewrite Hset by done. by replace (i * BLOCK_BITS + j - i * BLOCK_BITS) with j by lia.
  - eapply wp_lift; [exact Hrun|]. apply wp_bind, wp_mod, wp_ret. cbn [Bitmap.bits Bitmap.bitmap_make].
    match goal with |- Q EOF ?x => assert (x = s) as -> end.
    { unfold modify. cbn. rewrite insert_id by done. by destruct s. }
    apply HQn; [done|]. intros k Hk. replace k with (i * BLOCK_BITS + (k - i * BLOCK_BITS)) by lia.
    rewrite Hm by lia. apply Hall. lia.
Qed.

Lemma wp_alloc_loop n s i last (Q : Z * option key → fs → Prop) : 0 ≤ i → i + Z.of_nat n = N →
  (∀ j, i ≤ j < N → blk_ok (blocks s) (dv, base + j)) →
  len = BLOCK_SIZE ∨ (∃ k, i * BLOCK_BITS ≤ k < (i + 1) * BLOCK_BITS ∧ mbit (blocks s) dv base k = false) ∧ 0 < Z.of_nat n →
  (∀ k, i * BLOCK_BITS ≤ k < N * BLOCK_BITS → mbit (blocks s) dv base k = false → off0 + k < limit) →
  (∀ k bs', i * BLOCK_BITS ≤ k < N * BLOCK_BITS → mbit (blocks s) dv base k = false →
     (∀ k', i * BLOCK_BITS ≤ k' < k → mbit (blocks s) dv base k' = true) →
     bit_changed (blocks s) bs' dv base k true →
     Q (off0 + k, Some (dv, base + k `div` BLOCK_BITS))
       (s <| held := uses dv base i (k `div` BLOCK_BITS - i + 1) ⊎ held s |> <| blocks := bs' |>)) →
  (len = BLOCK_SIZE → (∀ k, i * BLOCK_BITS ≤ k < N * BLOCK_BITS → mbit (blocks s) dv base k = true) →
     Q (EOF, if decide (n = 0%nat) then last else Some (dv, base + (N - 1)))
       (s <| held := uses dv base i (N - i) ⊎ held s |>)) →
  wp E (alloc_loop dv base len off0 limit (seqZ i (Z.of_nat n)) last) Q s.
Proof using Hlen Hoff Hfit.
  revert s i last Q. induction n as [|n IH]; intros s i last Q Hi Hn Hblk Hcond Hlim HQ HQn.
  - cbn. apply wp_ret. assert (N - i = 0) as E0 by lia. rewrite E0 in HQn. rewrite decide_True in HQn by done.
    assert (s = s <| held := uses dv base i 0 ⊎ held s |>) as ->.
    { unfold modify. cbn. rewrite gmultiset_disj_union_left_id. by destruct s. }
    apply HQn.
    + by destruct Hcond as [|[_ ?]].
    + intros k Hk. assert (N = i) by lia. lia.
  - rewrite seqZ_cons by lia. cbn [alloc_loop]. destruct (Hblk i ltac:(lia)) as (b & Hb & Hbl & Hbf).
    apply wp_bind, wp_bread_block; [by eexists|]. apply wp_bind. apply wp_scan_block; [lia|by eexists| | |].
    + destruct Hcond as [->|[(k & Hk & Hkb) _]]; [by left|right]. by exists k.
    + change (blocks (s <| held $= λ h, {[+ (dv, base + i) +]} ⊎ h |>)) with (blocks s).
      intros k bs' Hk Hkb Hmin Hch.
      assert (off0 + k ≠ EOF) as Hne by (unfold EOF, EEOF, BLOCK_BITS, BLOCK_SIZE in *; lia).
      rewrite (proj2 (Z.eqb_neq _ _)) by done.
      assert (k < N * BLOCK_BITS) as HkN by (unfold BLOCK_BITS, BLOCK_SIZE in *; lia).
      assert (off0 + k < limit) by (apply Hlim; [lia|done]).
      apply wp_bind, wp_check_true.
      { apply Z.ltb_lt. rewrite u32_small; unfold BLOCK_BITS, BLOCK_SIZE in *; lia. }
      apply wp_ret. assert (k `div` BLOCK_BITS = i) as Ed by (unfold BLOCK_BITS, BLOCK_SIZE in *; Z.div_mod_to_equations; lia).
      pose proof (HQ k bs' ltac:(lia) Hkb Hmin Hch) as HQ'. rewrite Ed in HQ'.
      replace (i - i + 1) with (0 + 1) in HQ' by lia. rewrite uses_snoc in HQ' by done.
      replace (base + i + 0) with (base + i) in HQ' by lia.
      rewrite uses_nil in HQ'.
      replace ({[+ (dv, base + i) +]} ⊎ ∅ ⊎ held s) with ({[+ (dv, base + i) +]} ⊎ held s) in HQ' by multiset_solver.
      exact HQ'.
    + intros Hl Hall. change (blocks (s <| held $= λ h, {[+ (dv, base + i) +]} ⊎ h |>)) with (blocks s) in Hall.
      rewrite Z.eqb_refl. replace (Z.succ i) with (i + 1) by lia.
      replace (Z.pred (Z.of_nat (S n))) with (Z.of_nat n) by lia.
      assert (∀ m, 0 ≤ m → uses dv base i (m + 1) = {[+ (dv, base + i) +]} ⊎ uses dv base (i + 1) m) as Hu.
      { intros m Hm. rewrite uses_cons by lia. by replace (m + 1 - 1) with m by lia. }
      assert (∀ m, uses dv base (i + 1) m ⊎ ({[+ (dv, base + i) +]} ⊎ held s) =
        ({[+ (dv, base + i) +]} ⊎ uses dv base (i + 1) m) ⊎ held s) as Hassoc by (intros; multiset_solver).
      apply IH; [lia|lia|intros; apply Hblk; lia|by left|..].
      * intros k Hk Hkb. apply Hlim; [unfold BLOCK_BITS, BLOCK_SIZE in *; lia|done].
      * intros k bs' Hk Hkb Hmin Hch.
        change (held (s <| held $= λ h, {[+ (dv, base + i) +]} ⊎ h |>)) with ({[+ (dv, base + i) +]} ⊎ held s).
        rewrite Hassoc, <-Hu by (unfold BLOCK_BITS, BLOCK_SIZE in *; Z.div_mod_to_equations; lia).
        replace (k `div` BLOCK_BITS - (i + 1) + 1 + 1) with (k `div` BLOCK_BITS - i + 1) by lia.
        apply (HQ k bs'); [unfold BLOCK_BITS, BLOCK_SIZE in *; lia|done| |done].
        intros k' Hk'. destruct (Z.lt_ge_cases k' ((i + 1) * BLOCK_BITS)); [apply Hall; lia|apply Hmin; lia].
      * intros _ Hall2.
        change (held (s <| held $= λ h, {[+ (dv, base + i) +]} ⊎ h |>)) with ({[+ (dv, base + i) +]} ⊎ held s).
        rewrite Hassoc, <-Hu by lia. replace (N - (i + 1) + 1) with (N - i) by lia.
        assert ((if decide (n = 0%nat) then Some (dv, base + i) else Some (dv, base + (N - 1))) = Some (dv, base + (N - 1))) as ->.
        { destruct (decide (n = 0%nat)); [|done]. by replace (N - 1) with i by lia. }
        rewrite decide_False in HQn by done. apply HQn; [done|].
        intros k Hk. destruct (Z.lt_ge_cases k ((i + 1) * BLOCK_BITS)); [apply Hall; lia|apply Hall2; lia].
Qed.
End alloc.

Section free.
Context (E : stop → Prop) (dv base len off0 N : Z).
Context (Hlen : BLOCK_SIZE ≤ len ≤ BLOCK_BITS) (Hoff : 0 ≤ off0) (Hfit : N * BLOCK_BITS + off0 < 2 ^ 30).

Lemma wp_clear_block s i k (Q : unit → fs → Prop) : 0 ≤ i < N → blk_ok (blocks s) (dv, base + i) →
  i * BLOCK_BITS ≤ k < (i + 1) * BLOCK_BITS → mbit (blocks s) dv base k = true →
  (∀ bs', bit_changed (blocks s) bs' dv base k false → Q tt (s <| blocks := bs' |>)) →
  wp E (clear_block (dv, base + i) len (BLOCK_BITS * i + off0) (off0 + k)) Q s.
Proof using Hlen Hoff Hfit.
  intros Hi (b & Hb & Hbl & Hbf) Hk Hbit HQ.
  assert (k `div` BLOCK_BITS = i ∧ k `mod` BLOCK_BITS = k - i * BLOCK_BITS) as [Ed Em].
  { unfold BLOCK_BITS, BLOCK_SIZE in *. Z.div_mod_to_equations; lia. }
  unfold mbit in Hbit. rewrite Ed, Hb, Em in Hbit. set (j := k - i * BLOCK_BITS) in *.
  set (off := BLOCK_BITS * i + off0). replace (off0 + k) with (off + j) by (unfold off, j; lia).
  set (map := Bitmap.mk_bitmap b BLOCK_SIZE off).
  assert (Bitmap.bitmap_wf map) as Hwf.
  { unfold off, BLOCK_BITS, BLOCK_SIZE in *. split; cbn; [lia|lia|unfold Bitmap.nbits; cbn; lia|done]. }
  assert (0 ≤ j < Bitmap.nbits map) as Hj by (unfold j, Bitmap.nbits, BLOCK_BITS in *; cbn; lia).
  pose proof (Bitmap.bitmap_test_ok map Hwf j Hj) as Ht. cbn [Bitmap.bits Bitmap.offset map] in Ht.
  destruct (Bitmap.bitmap_set_ok map Hwf j false Hj) as (m & Hset & [W1 W2 W3 W4] & U1 & U2 & U3).
  assert (Bitmap.bitmap_test (Bitmap.bitmap_make b len off) (off + j) = Ok (Bitmap.bit b j)) as Ht2.
  { unfold Bitmap.bitmap_test in Ht |- *. cbn [Bitmap.length Bitmap.offset Bitmap.bits map Bitmap.bitmap_make] in Ht |- *.
    destruct (off <=? off + j); [|done]. cbn [check res_bind] in Ht |- *.
    destruct (Z.ltb_spec (u32 (off + j - off) `div` 8) BLOCK_SIZE); [|done].
    rewrite (proj2 (Z.ltb_lt _ _)) by lia. exact Ht. }
  assert (Bitmap.bitmap_set (Bitmap.bitmap_make b len off) (off + j) false =
    Ok (Bitmap.mk_bitmap (Bitmap.bits m) len off)) as Hset2.
  { unfold Bitmap.bitmap_set in Hset |- *. cbn [Bitmap.length Bitmap.offset Bitmap.bits map Bitmap.bitmap_make] in Hset |- *.
    destruct (off <=? off + j); [|done]. cbn [check res_bind] in Hset |- *.
    destruct (Bitmap.load_byte b _) as [v|]; [|done]. cbn [res_bind] in Hset |- *.
    destruct (Bitmap.store_byte b _ _) as [b'|]; [|done]. cbn [res_bind] in Hset |- *. by injection Hset as <-. }
  unfold clear_block. apply wp_bind. eapply wp_deref; [exact Hb|]. apply wp_bind. eapply wp_lift; [exact Ht2|].
  apply wp_bind, wp_check_true; [done|]. apply wp_bind. eapply wp_lift; [exact Hset2|]. apply wp_mod.
  change (s <| blocks $= _ |>) with (s <| blocks := <[(dv, base + i) := Bitmap.bits m]> (blocks s) |>).
  apply HQ. exists b, (Bitmap.bits m). rewrite Ed, Em. split; [done|]. split; [done|].
  cbn [Bitmap.length map] in U1, W1. split; [unfold map in *; cbn in *; lia|]. split; [done|].
  intros j' Hj'. rewrite U3 by lia. cbn [Bitmap.bits map]. fold j.
  destruct (Z.eqb_spec j' j) as [->|]; [|done]. rewrite (proj2 (Z.ltb_lt _ _)) by lia. done.
Qed.

(** The block that is searched: the one of the bit, when the number itself, and
    not only the bit's position, is at most the bits up to there. *)
Lemma wp_free_loop n s i k (Q : unit → fs → Prop) : 0 ≤ i → i + Z.of_nat n = N →
  (∀ j, i ≤ j < N → blk_ok (blocks s) (dv, base + j)) →
  i * BLOCK_BITS ≤ k < N * BLOCK_BITS → mbit (blocks s) dv base k = true →
  off0 + k ≤ BLOCK_BITS * (k `div` BLOCK_BITS + 1) →
  k `div` BLOCK_BITS = i ∨ BLOCK_BITS * (k `div` BLOCK_BITS) < off0 + k →
  (∀ bs', bit_changed (blocks s) bs' dv base k false → Q tt (s <| blocks := bs' |>)) →
  wp E (free_loop dv base len off0 (off0 + k) (seqZ i (Z.of_nat n))) Q s.
Proof using Hlen Hoff Hfit.
  revert i. induction n as [|n IH]; intros i Hi Hn Hblk Hk Hbit Hle Hgt HQ.
  - unfold BLOCK_BITS, BLOCK_SIZE in *. lia.
  - rewrite seqZ_cons by lia. cbn [free_loop].
    destruct (decide (k < (i + 1) * BLOCK_BITS)) as [Hki|Hki].
    + assert (k `div` BLOCK_BITS = i) as Ed by (unfold BLOCK_BITS, BLOCK_SIZE in *; Z.div_mod_to_equations; lia).
      rewrite Ed in Hle. rewrite (proj2 (Z.ltb_ge _ _)) by lia.
      destruct (Hblk i ltac:(lia)) as (b & Hb & Hbl & Hbf).
      apply wp_bind, wp_bread_block; [by eexists|]. apply wp_bind.
      apply wp_clear_block; [lia|by exists b|lia|exact Hbit|].
      change (blocks (s <| held $= λ h, {[+ (dv, base + i) +]} ⊎ h |>)) with (blocks s).
      intros bs' Hch. apply wp_brelse.
      * change (held _) with ({[+ (dv, base + i) +]} ⊎ held s). multiset_solver.
      * rewrite released. by apply HQ.
    + assert (i + 1 ≤ k `div` BLOCK_BITS) as Hd by (unfold BLOCK_BITS, BLOCK_SIZE in *; Z.div_mod_to_equations; lia).
      assert (BLOCK_BITS * (i + 1) < off0 + k) as Hlt by (unfold BLOCK_BITS, BLOCK_SIZE in *; nia).
      rewrite (proj2 (Z.ltb_lt _ _)) by done.
      replace (Z.succ i) with (i + 1) by lia. replace (Z.pred (Z.of_nat (S n))) with (Z.of_nat n) by lia.
      apply IH; try done; [lia|lia|intros; apply Hblk; lia|lia|right; lia].
Qed.
End free.

(** ** A file system on a device *)
Record layout := mk_layout {
  l_dev : Z; l_inodes : Z; l_zones : Z; l_imap : Z; l_zmap : Z; l_fdz : Z }.
Definition l_key (L : layout) : key := (l_dev L, 1).
(** The first blocks of the zone bitmap and of the table of inodes. *)
Definition l_zbase (L : layout) : Z := 2 + l_imap L.
Definition l_itable (L : layout) : Z := 2 + l_imap L + l_zmap L.

(** Bitmaps, table of inodes and zones, one after the other.  The bits of the zone
    bitmap are those of the zones from [l_fdz - 1] on. *)
Record layout_ok (L : layout) : Prop := {
  ly_inodes : 0 < l_inodes L < 2 ^ 16;
  ly_imap : 0 < l_imap L;
  ly_zmap : 0 < l_zmap L;
  ly_table : l_itable L + (l_inodes L - 1) `div` BLOCK_INODES < l_fdz L;
  ly_zones : l_fdz L ≤ l_zones L < 2 ^ 16 }.

(** The super block [p] and the blocks of the device are as [L] says. *)
Record laid_out (s : fs) (p : nat) (L : layout) : Prop := {
  lo_ok : layout_ok L;
  lo_super : ∃ sp, super_table s !! p = Some sp ∧ sbuf sp = Some (l_key L) ∧ sdev sp = l_dev L;
  lo_blocks : ∀ i, 0 ≤ i < l_zones L → blk_ok (blocks s) (l_dev L, i);
  lo_inodes : val 2 (blocks s) (l_key L) s_inodes = l_inodes L;
  lo_zones : val 2 (blocks s) (l_key L) s_zones = l_zones L;
  lo_imap : val 2 (blocks s) (l_key L) s_imap_blocks = l_imap L;
  lo_zmap : val 2 (blocks s) (l_key L) s_zmap_blocks = l_zmap L;
  lo_fdz : val 2 (blocks s) (l_key L) s_firstdatazone = l_fdz L }.

Definition zone_used (L : layout) (bs : gmap key (list Z)) (z : Z) : bool :=
  mbit bs (l_dev L) (l_zbase L) (z - (l_fdz L - 1)).
Definition inode_used (L : layout) (bs : gmap key (list Z)) (n : Z) : bool := mbit bs (l_dev L) 2 n.

(** The zones the bitmap has bits for; those past the end are marked. *)
Definition in_zmap (L : layout) (z : Z) : Prop := l_fdz L - 1 ≤ z < l_fdz L - 1 + l_zmap L * BLOCK_BITS.
Definition tail_marked (L : layout) (bs : gmap key (list Z)) : Prop :=
  ∀ z, in_zmap L z → zone_used L bs z = false → l_fdz L ≤ z < l_zones L.

Lemma blk_in_block n bs k off : blk_ok bs k → 0 ≤ off → off + Z.of_nat n ≤ BLOCK_SIZE → in_block n bs k off.
Proof. intros (b & Hb & Hl & _) H0 Hn. exists b. split; [done|]. lia. Qed.

Section layout.
Context (E : stop → Prop) (p : nat) (L : layout).

Lemma laid_out_frame s s' : laid_out s p L → super_table s' = super_table s →
  (∀ i, 0 ≤ i < l_zones L → blk_ok (blocks s') (l_dev L, i)) →
  blocks s' !! l_key L = blocks s !! l_key L → laid_out s' p L.
Proof using.
  intros [H1 H2 H3 H4 H5 H6 H7 H8] Et Hb Hk.
  assert (∀ off, val 2 (blocks s') (l_key L) off = val 2 (blocks s) (l_key L) off) as Hv
    by (intros off; unfold val; by rewrite Hk).
  split; try done; [by rewrite Et|by rewrite Hv..].
Qed.

Context (s : fs) (Hl : laid_out s p L).

Lemma layout_facts : 0 < l_inodes L < 65536 ∧ 0 < l_imap L ∧ 0 < l_zmap L ∧
  l_itable L + (l_inodes L - 1) `div` BLOCK_INODES < l_fdz L ∧ l_fdz L ≤ l_zones L < 65536.
Proof using Hl. destruct (lo_ok _ _ _ Hl) as [H1 H2 H3 H4 H5]. auto. Qed.

Lemma zmap_fits : l_zmap L * BLOCK_BITS + (l_fdz L - 1) < 2 ^ 30 ∧ 0 ≤ l_fdz L - 1 ∧
  0 ≤ (l_inodes L - 1) `div` BLOCK_INODES.
Proof using Hl.
  destruct layout_facts as (H1 & H2 & H3 & H4 & H5). unfold l_itable, BLOCK_BITS, BLOCK_SIZE in *.
  assert (0 ≤ (l_inodes L - 1) `div` BLOCK_INODES) by (apply Z.div_pos; [lia|done]). lia.
Qed.

Lemma wp_super_field off (Q : Z → fs → Prop) : 0 ≤ off ≤ 1000 →
  Q (val 2 (blocks s) (l_key L) off) s → wp E (super_field p off) Q s.
Proof using Hl.
  intros Ho HQ. destruct (lo_super _ _ _ Hl) as (sp & Hsp & Hk & _). unfold super_field.
  apply wp_bind. eapply wp_deref; [exact Hsp|]. apply wp_bind. eapply wp_deref; [exact Hk|].
  apply wp_ld; [|done]. apply blk_in_block; [|lia|unfold BLOCK_SIZE; lia].
  apply (lo_blocks _ _ _ Hl). pose proof layout_facts. pose proof zmap_fits. unfold l_itable in *. lia.
Qed.

(** [minix_balloc]: the lowest zone that is not marked; the buffers of the blocks of
    the bitmap that were searched in vain are not released. *)
Lemma wp_balloc (Q : Z → fs → Prop) : tail_marked L (blocks s) →
  (∀ z bs', l_fdz L ≤ z < l_zones L → in_zmap L z → zone_used L (blocks s) z = false →
     (∀ z', in_zmap L z' → z' < z → zone_used L (blocks s) z' = true) →
     bit_changed (blocks s) bs' (l_dev L) (l_zbase L) (z - (l_fdz L - 1)) true →
     Q z (s <| held := uses (l_dev L) (l_zbase L) 0 ((z - (l_fdz L - 1)) `div` BLOCK_BITS) ⊎ held s |>
            <| blocks := bs' |>)) →
  ((∀ z, in_zmap L z → zone_used L (blocks s) z = true) →
     Q (u32 EOF) (s <| held := uses (l_dev L) (l_zbase L) 0 (l_zmap L - 1) ⊎ held s |>)) →
  wp E (minix_balloc p) Q s.
Proof using Hl.
  intros Htail HQ HQn. pose proof layout_facts as (F1 & F2 & F3 & F4 & F5). pose proof zmap_fits as (G1 & G2 & G3).
  destruct (lo_super _ _ _ Hl) as (sp & Hsp & Hk & Hdv).
  unfold minix_balloc. do 4 (apply wp_bind, wp_super_field; [unfold s_zones, s_imap_blocks, s_zmap_blocks, s_firstdatazone; lia|]).
  rewrite (lo_imap _ _ _ Hl), (lo_zmap _ _ _ Hl), (lo_fdz _ _ _ Hl), (lo_zones _ _ _ Hl).
  apply wp_bind. eapply wp_deref; [exact Hsp|]. rewrite Hdv. apply wp_bind.
  replace (seqZ 0 (l_zmap L)) with (seqZ 0 (Z.of_nat (Z.to_nat (l_zmap L)))) by (f_equal; lia).
  apply (wp_alloc_loop E (l_dev L) (l_zbase L) BLOCK_SIZE (l_fdz L - 1) (l_zones L) (l_zmap L)); try done; try lia.
  - intros j Hj. apply (lo_blocks _ _ _ Hl). unfold l_zbase, l_itable in *. lia.
  - intros k Hkr Hkb. destruct (Htail (l_fdz L - 1 + k)) as [_ ?]; [unfold in_zmap; lia| |lia].
    unfold zone_used. by replace (l_fdz L - 1 + k - (l_fdz L - 1)) with k by lia.
  - intros k bs' Hkr Hkb Hmin Hch. apply wp_bind. cbn [brelse_opt].
    assert (zone_used L (blocks s) (l_fdz L - 1 + k) = false) as Hfree
      by (unfold zone_used; by replace (l_fdz L - 1 + k - (l_fdz L - 1)) with k by lia).
    assert (0 ≤ k `div` BLOCK_BITS) by (apply Z.div_pos; [lia|done]).
    assert (uses (l_dev L) (l_zbase L) 0 (k `div` BLOCK_BITS - 0 + 1) = {[+ (l_dev L, l_zbase L + k `div` BLOCK_BITS) +]}
      ⊎ uses (l_dev L) (l_zbase L) 0 (k `div` BLOCK_BITS)) as Hu.
    { replace (k `div` BLOCK_BITS - 0 + 1) with (k `div` BLOCK_BITS + 1) by lia. rewrite uses_snoc by lia.
      by replace (l_zbase L + 0 + k `div` BLOCK_BITS) with (l_zbase L + k `div` BLOCK_BITS) by lia. }
    rewrite Hu. apply wp_brelse; [change (held (_ <| blocks := bs' |>)) with
      ({[+ (l_dev L, l_zbase L + k `div` BLOCK_BITS) +]} ⊎ uses (l_dev L) (l_zbase L) 0 (k `div` BLOCK_BITS) ⊎ held s); multiset_solver|].
    apply wp_ret. destruct (Htail (l_fdz L - 1 + k) ltac:(unfold in_zmap; lia) Hfree) as [Hz1 Hz2].
    pose proof (HQ (l_fdz L - 1 + k) bs' ltac:(lia) ltac:(unfold in_zmap; lia) Hfree) as HQ'.
    replace (l_fdz L - 1 + k - (l_fdz L - 1)) with k in HQ' by lia. rewrite u32_small by lia.
    match goal with |- Q _ (?x <| held $= ?g |>) => assert (x <| held $= g |> =
      s <| held := uses (l_dev L) (l_zbase L) 0 (k `div` BLOCK_BITS) ⊎ held s |> <| blocks := bs' |>) as -> end.
    { transitivity (mk_fs bs' ((({[+ (l_dev L, l_zbase L + k `div` BLOCK_BITS) +]} ⊎ uses (l_dev L) (l_zbase L) 0 (k `div` BLOCK_BITS))
        ⊎ held s) ∖ {[+ (l_dev L, l_zbase L + k `div` BLOCK_BITS) +]}) (inode_table s) (super_table s) (file_table s) (task s) (now s)); [done|].
      rewrite (release_eq _ _ (uses (l_dev L) (l_zbase L) 0 (k `div` BLOCK_BITS) ⊎ held s)); [done|multiset_solver]. }
    apply HQ'; [|exact Hch]. intros z' [Hz' _] Hlt. apply Hmin. lia.
  - intros _ Hall. rewrite decide_False by lia. cbn [brelse_opt]. apply wp_bind.
    assert (uses (l_dev L) (l_zbase L) 0 (l_zmap L - 0) = {[+ (l_dev L, l_zbase L + (l_zmap L - 1)) +]}
      ⊎ uses (l_dev L) (l_zbase L) 0 (l_zmap L - 1)) as Hu.
    { replace (l_zmap L - 0) with (l_zmap L - 1 + 1) by lia. rewrite uses_snoc by lia.
      by replace (l_zbase L + 0 + (l_zmap L - 1)) with (l_zbase L + (l_zmap L - 1)) by lia. }
    rewrite Hu. apply wp_brelse; [change (held (s <| held := ?h |>)) with h; multiset_solver|].
    apply wp_ret. match goal with |- Q _ ?x => assert (x =
      s <| held := uses (l_dev L) (l_zbase L) 0 (l_zmap L - 1) ⊎ held s |>) as -> end.
    { transitivity (mk_fs (blocks s) ((({[+ (l_dev L, l_zbase L + (l_zmap L - 1)) +]} ⊎ uses (l_dev L) (l_zbase L) 0 (l_zmap L - 1))
        ⊎ held s) ∖ {[+ (l_dev L, l_zbase L + (l_zmap L - 1)) +]}) (inode_table s) (super_table s) (file_table s) (task s) (now s)); [done|].
      rewrite (release_eq _ _ (uses (l_dev L) (l_zbase L) 0 (l_zmap L - 1) ⊎ held s)); [done|multiset_solver]. }
    apply HQn. intros z Hz. apply Hall. unfold in_zmap in Hz. lia.
Qed.

(** [minix_bfree] finds the block of a zone's bit as long as the number of the zone
    does not exceed the number of bits up to the end of that block. *)
Definition freeable (z : Z) : Prop :=
  z ≤ BLOCK_BITS * ((z - (l_fdz L - 1)) `div` BLOCK_BITS + 1).

Lemma wp_bfree z (Q : unit → fs → Prop) : l_fdz L ≤ z < l_zones L → in_zmap L z →
  zone_used L (blocks s) z = true → freeable z →
  (∀ bs', bit_changed (blocks s) bs' (l_dev L) (l_zbase L) (z - (l_fdz L - 1)) false → Q tt (s <| blocks := bs' |>)) →
  wp E (minix_bfree p z) Q s.
Proof using Hl.
  intros Hz [Hz1 Hz2] Hused Hfree HQ. pose proof layout_facts as (F1 & F2 & F3 & F4 & F5). pose proof zmap_fits as (G1 & G2 & G3).
  destruct (lo_super _ _ _ Hl) as (sp & Hsp & Hk & Hdv). unfold minix_bfree.
  apply wp_bind, wp_super_field; [unfold s_zones; lia|]. rewrite (lo_zones _ _ _ Hl).
  apply wp_bind, wp_check_true; [apply Z.ltb_lt; lia|].
  do 3 (apply wp_bind, wp_super_field; [unfold s_imap_blocks, s_zmap_blocks, s_firstdatazone; lia|]).
  rewrite (lo_imap _ _ _ Hl), (lo_zmap _ _ _ Hl), (lo_fdz _ _ _ Hl).
  apply wp_bind. eapply wp_deref; [exact Hsp|]. rewrite Hdv.
  replace (seqZ 0 (l_zmap L)) with (seqZ 0 (Z.of_nat (Z.to_nat (l_zmap L)))) by (f_equal; lia).
  set (k := z - (l_fdz L - 1)) in *. replace z with (l_fdz L - 1 + k) by (unfold k; lia).
  assert (0 ≤ k `div` BLOCK_BITS) by (apply Z.div_pos; [lia|done]).
  apply (wp_free_loop E (l_dev L) (l_zbase L) BLOCK_SIZE (l_fdz L - 1) (l_zmap L)); try done; try lia.
  - intros j Hj. apply (lo_blocks _ _ _ Hl). unfold l_zbase, l_itable in *. lia.
  - unfold freeable in Hfree. fold k in Hfree. lia.
  - right. unfold k, BLOCK_BITS, BLOCK_SIZE, l_itable in *. Z.div_mod_to_equations; lia.
Qed.

(** The inode bitmap: the first of its blocks, since the length that the code gives
    lets a search run out of the buffer. *)
Lemma wp_ialloc n (Q : Z → fs → Prop) : 0 ≤ n < BLOCK_BITS → inode_used L (blocks s) n = false →
  (∀ m, 0 ≤ m < l_imap L * BLOCK_BITS → inode_used L (blocks s) m = false → m < l_inodes L) →
  (∀ m bs', 0 ≤ m ≤ n → inode_used L (blocks s) m = false →
     (∀ m', 0 ≤ m' < m → inode_used L (blocks s) m' = true) →
     bit_changed (blocks s) bs' (l_dev L) 2 m true → Q m (s <| blocks := bs' |>)) →
  wp E (minix_ialloc p) Q s.
Proof using Hl.
  intros Hn Hfree Htail HQ. pose proof layout_facts as (F1 & F2 & F3 & F4 & F5). pose proof zmap_fits as (G1 & G2 & G3).
  destruct (lo_super _ _ _ Hl) as (sp & Hsp & Hk & Hdv). unfold minix_ialloc.
  do 2 (apply wp_bind, wp_super_field; [unfold s_imap_blocks, s_inodes; lia|]).
  rewrite (lo_imap _ _ _ Hl), (lo_inodes _ _ _ Hl).
  apply wp_bind. eapply wp_deref; [exact Hsp|]. rewrite Hdv. apply wp_bind.
  replace (seqZ 0 (l_imap L)) with (seqZ 0 (Z.of_nat (Z.to_nat (l_imap L)))) by (f_equal; lia).
  apply (wp_alloc_loop E (l_dev L) 2 BLOCK_BITS 0 (l_inodes L) (l_imap L)); try done; try lia.
  - unfold BLOCK_BITS, BLOCK_SIZE, l_itable in *. lia.
  - intros j Hj. apply (lo_blocks _ _ _ Hl). unfold l_itable in *. lia.
  - right. split; [exists n; split; [lia|done]|lia].
  - intros k bs' Hkr Hkb Hmin Hch. rewrite Z.add_0_l in *.
    assert (k ≤ n) as Hkn.
    { destruct (Z.le_gt_cases k n); [done|]. unfold inode_used in Hfree. rewrite (Hmin n) in Hfree by lia. done. }
    assert (k `div` BLOCK_BITS = 0) as Ed by (apply Z.div_small; lia). rewrite Ed.
    rewrite uses_snoc, uses_nil by done.
    replace ({[+ (l_dev L, 2 + 0 + 0) +]} ⊎ ∅ ⊎ held s) with ({[+ (l_dev L, 2 + 0) +]} ⊎ held s) by multiset_solver.
    apply wp_bind. cbn [brelse_opt]. apply wp_brelse.
    { change (held (_ <| blocks := bs' |>)) with ({[+ (l_dev L, 2 + 0) +]} ⊎ held s). multiset_solver. }
    apply wp_ret. pose proof (released s (l_dev L, 2 + 0) bs') as Er.
    change (s <| held := {[+ (l_dev L, 2 + 0) +]} ⊎ held s |>) with (s <| held $= λ h, {[+ (l_dev L, 2 + 0) +]} ⊎ h |>).
    rewrite Er, u32_small by (unfold BLOCK_BITS, BLOCK_SIZE in *; lia). apply HQ; [lia|done|done|done].
Qed.

Lemma wp_ifree n (Q : unit → fs → Prop) : 0 ≤ n < l_inodes L → n < BLOCK_BITS → inode_used L (blocks s) n = true →
  (∀ bs', bit_changed (blocks s) bs' (l_dev L) 2 n false → Q tt (s <| blocks := bs' |>)) →
  wp E (minix_ifree p n) Q s.
Proof using Hl.
  intros Hn Hb Hused HQ. pose proof layout_facts as (F1 & F2 & F3 & F4 & F5). pose proof zmap_fits as (G1 & G2 & G3).
  destruct (lo_super _ _ _ Hl) as (sp & Hsp & Hk & Hdv). unfold minix_ifree.
  apply wp_bind, wp_super_field; [unfold s_inodes; lia|]. rewrite (lo_inodes _ _ _ Hl).
  apply wp_bind, wp_check_true; [apply Z.ltb_lt; lia|].
  apply wp_bind, wp_super_field; [unfold s_imap_blocks; lia|]. rewrite (lo_imap _ _ _ Hl).
  apply wp_bind. eapply wp_deref; [exact Hsp|]. rewrite Hdv.
  replace (seqZ 0 (l_imap L)) with (seqZ 0 (Z.of_nat (Z.to_nat (l_imap L)))) by (f_equal; lia).
  assert (n `div` BLOCK_BITS = 0) as Ed by (apply Z.div_small; lia).
  apply (wp_free_loop E (l_dev L) 2 BLOCK_BITS 0 (l_imap L) ltac:(done) ltac:(lia)
    ltac:(unfold BLOCK_BITS, BLOCK_SIZE, l_itable in *; lia) _ s 0 n Q); try done; try lia.
  - intros j Hj. apply (lo_blocks _ _ _ Hl). unfold l_itable in *. lia.
  - unfold BLOCK_BITS, BLOCK_SIZE in *. lia.
Qed.
End layout.

(** ** Freeing undoes allocating *)
Lemma changed_laid_out s p L bs' base k v : laid_out s p L → bit_changed (blocks s) bs' (l_dev L) base k v →
  base + k `div` BLOCK_BITS ≠ 1 → laid_out (s <| blocks := bs' |>) p L.
Proof.
  intros Hl Hch Hne. apply (laid_out_frame p L s); [done|done| |].
  - intros i Hi. eapply changed_blk_ok; [exact Hch|]. by apply (lo_blocks _ _ _ Hl).
  - apply (changed_lookup _ _ _ _ _ _ Hch). intros [=]. lia.
Qed.

Lemma laid_out_held s p L h : laid_out s p L → laid_out (s <| held := h |>) p L.
Proof. intros Hl. by apply (laid_out_frame p L s); [..|intros; apply (lo_blocks _ _ _ Hl)|]. Qed.

(** [minix_balloc] takes the lowest zone whose bit is clear, marks it and
    changes nothing else but its bit, or answers [EOF] when all are marked (and
    keeps the buffers of the bitmap's other blocks, which it never releases);
    [minix_bfree] then restores the map exactly. *)
Theorem balloc_bfree (s : fs) (p : nat) (L : layout) (Hl : laid_out s p L) (Htail : tail_marked L (blocks s)) :
  wp no_stop (minix_balloc p) (λ z s',
    (z = u32 EOF ∧ (∀ z', in_zmap L z' → zone_used L (blocks s) z' = true) ∧ blocks s' = blocks s ∧
     held s' = uses (l_dev L) (l_zbase L) 0 (l_zmap L - 1) ⊎ held s) ∨
    l_fdz L ≤ z < l_zones L ∧ zone_used L (blocks s) z = false ∧
    (∀ z', in_zmap L z' → z' < z → zone_used L (blocks s) z' = true) ∧
    (∀ z', in_zmap L z' → zone_used L (blocks s') z' = if z' =? z then true else zone_used L (blocks s) z') ∧
    (∀ k, k ≠ (l_dev L, l_zbase L + (z - (l_fdz L - 1)) `div` BLOCK_BITS) → blocks s' !! k = blocks s !! k) ∧
    held s' = uses (l_dev L) (l_zbase L) 0 ((z - (l_fdz L - 1)) `div` BLOCK_BITS) ⊎ held s ∧
    (freeable L z → wp no_stop (minix_bfree p z) (λ _ s2, held s2 = held s' ∧
       (∀ z', in_zmap L z' → zone_used L (blocks s2) z' = zone_used L (blocks s) z') ∧
       ∀ k, k ≠ (l_dev L, l_zbase L + (z - (l_fdz L - 1)) `div` BLOCK_BITS) → blocks s2 !! k = blocks s !! k) s')) s.
Proof.
  assert (∀ z, in_zmap L z → 0 ≤ z - (l_fdz L - 1)) as Hpos by (unfold in_zmap; lia).
  apply (wp_balloc no_stop p L s Hl); [done| |by left].
  intros z bs' Hz Hin Hfree Hmin Hch. right. set (k := z - (l_fdz L - 1)) in *.
  assert (∀ z', in_zmap L z' → zone_used L bs' z' = if z' =? z then true else zone_used L (blocks s) z') as Hall.
  { intros z' Hz'. unfold zone_used. rewrite (changed_mbit _ _ _ _ k true (Hpos z Hin) Hch) by auto.
    destruct (Z.eqb_spec z' z) as [->|Hne]; [unfold k; by rewrite Z.eqb_refl|].
    destruct (Z.eqb_spec (z' - (l_fdz L - 1)) k); [unfold k in *; lia|done]. }
  split; [done|]. split; [done|]. split; [done|]. split; [done|].
  split; [intros kk Hkk; by apply (changed_lookup _ _ _ _ _ _ Hch)|]. split; [done|]. intros Hfr.
  pose proof (layout_facts p L s Hl) as (F1 & F2 & F3 & F4 & F5).
  assert (0 ≤ k `div` BLOCK_BITS) by (apply Z.div_pos; [by apply Hpos|done]).
  pose proof (laid_out_held s p L (uses (l_dev L) (l_zbase L) 0 (k `div` BLOCK_BITS) ⊎ held s) Hl) as Hl2.
  pose proof (changed_laid_out _ p L bs' (l_zbase L) k true Hl2 Hch ltac:(unfold l_zbase; lia)) as Hl3.
  apply (wp_bfree no_stop p L (s <| held := uses (l_dev L) (l_zbase L) 0 (k `div` BLOCK_BITS) ⊎ held s |> <| blocks := bs' |>) Hl3 z);
    [done|done|cbn; rewrite Hall, Z.eqb_refl by done; done|done|].
  intros bs2 Hch2. fold k in Hch2. split; [done|]. cbn [blocks]. split.
  - intros z' Hz'. unfold zone_used. change (blocks (_ <| blocks := bs2 |>)) with bs2.
    rewrite (changed_mbit _ _ _ _ k false (Hpos z Hin) Hch2) by auto.
    pose proof (Hall z' Hz') as Ha. unfold zone_used in Ha. change (blocks (_ <| blocks := bs' |>)) with bs'. rewrite Ha.
    destruct (Z.eqb_spec z' z) as [->|Hne].
    + fold k. by rewrite Z.eqb_refl.
    + destruct (Z.eqb_spec (z' - (l_fdz L - 1)) k); [unfold k in *; lia|done].
  - intros kk Hkk. change (blocks (_ <| blocks := bs2 |>)) with bs2.
    rewrite (changed_lookup _ _ _ _ _ _ Hch2) by done. by apply (changed_lookup _ _ _ _ _ _ Hch).
Qed.
