(* ===== verification/MinixMap.v ===== *)
(** * The zones of a file ([minix_bmap] of [src/src/fs/minix/minix.c])

    The inode's array and the index blocks form a tree of zone numbers.  A slot of
    the tree is named by the list of indices that lead to it, the last one first;
    [zone_at] is the zone in a slot.  [minix_bmap] reads the slot of a block and,
    when asked to, fills in the slots that are missing. *)
From stdpp Require Import gmultiset.
From S2P Require Import Prelude Fs Minix MinixZone.
Open Scope Z_scope.

(** ** The tree *)
Section tree.
Context (L : layout) (ib off : Z).

(** The block of the inode. *)
Definition ikey : key := (l_dev L, ib).

Fixpoint zone_at (bs : gmap key (list Z)) (slot : list Z) : Z :=
  match slot with
  | [] => 0
  | i :: up =>
      match up with
      | [] => val 2 bs ikey (off + i_zone i)
      | _ => let z := zone_at bs up in if z =? 0 then 0 else val 2 bs (l_dev L, z) (2 * i)
      end
  end.

(** Where the zone number of the slot [i :: up] is stored. *)
Definition array_of (bs : gmap key (list Z)) (up : list Z) : key * Z :=
  match up with [] => (ikey, off + i_zone 0) | _ => ((l_dev L, zone_at bs up), 0) end.

Definition index_ok (i : Z) : Prop := 0 ≤ i < BLOCK_INDEXES.
Definition valid_slot (slot : list Z) : Prop :=
  match slot with
  | [i] => 0 ≤ i < 9
  | [j; i] => 7 ≤ i < 9 ∧ index_ok j
  | [l; j; i] => i = 8 ∧ index_ok j ∧ index_ok l
  | _ => False
  end.

(** Zones of the tree are marked data zones, and none is in two slots. *)
Record tree_ok (bs : gmap key (list Z)) : Prop := {
  tr_zone : ∀ q, valid_slot q → zone_at bs q ≠ 0 →
    l_fdz L ≤ zone_at bs q < l_zones L ∧ zone_used L bs (zone_at bs q) = true;
  tr_inj : ∀ q q', valid_slot q → valid_slot q' → zone_at bs q = zone_at bs q' → zone_at bs q ≠ 0 → q = q' }.

(** A zone that is not in use holds zeros. *)
Definition free_clear (bs : gmap key (list Z)) : Prop :=
  ∀ z, l_fdz L ≤ z < l_zones L → zone_used L bs z = false →
    ∀ i, index_ok i → val 2 bs (l_dev L, z) (2 * i) = 0.

Lemma valid_up i up : valid_slot (i :: up) → up ≠ [] → valid_slot up.
Proof using.
  destruct up as [|j [|l [|]]]; cbn; try done; unfold index_ok; [lia|]. intros (-> & ? & ?) _. lia.
Qed.

Lemma valid_index i up : valid_slot (i :: up) → (up = [] ∧ 0 ≤ i < 9) ∨ (up ≠ [] ∧ index_ok i).
Proof using.
  destruct up as [|j [|l [|]]]; cbn; try done; intros H; [by left|right; split; [done|tauto]..].
Qed.

Lemma zone_at_cons bs i up : up ≠ [] →
  zone_at bs (i :: up) = if zone_at bs up =? 0 then 0 else val 2 bs (l_dev L, zone_at bs up) (2 * i).
Proof using. by destruct up. Qed.

(** Only slots whose arrays are unchanged are looked at. *)
Lemma zone_at_ext bs bs' q : valid_slot q →
  (∀ i, 0 ≤ i < 9 → val 2 bs' ikey (off + i_zone i) = val 2 bs ikey (off + i_zone i)) →
  (∀ up i, valid_slot (i :: up) → up ≠ [] → zone_at bs up ≠ 0 →
     val 2 bs' (l_dev L, zone_at bs up) (2 * i) = val 2 bs (l_dev L, zone_at bs up) (2 * i)) →
  zone_at bs' q = zone_at bs q.
Proof using.
  intros Hq Hroot Hidx. induction q as [|i up IH]; [done|]. destruct (decide (up = [])) as [->|Hup].
  - apply Hroot. by destruct (valid_index i [] Hq) as [[_ ?]|[? _]].
  - rewrite !zone_at_cons by done. rewrite IH by (by eapply valid_up).
    destruct (Z.eqb_spec (zone_at bs up) 0) as [|Hz]; [done|]. by apply Hidx.
Qed.

Lemma layout_pos : layout_ok L → 2 < l_itable L < l_fdz L ∧ l_zones L < 65536.
Proof using.
  intros [? ? ? Ht [_ Hz]]. change (2 ^ 16) with 65536 in Hz.
  assert (0 ≤ (l_inodes L - 1) `div` BLOCK_INODES) by (apply Z.div_pos; [lia|done]). unfold l_itable in *. lia.
Qed.

(** A free zone [z] is put into the empty slot [i :: up]. *)
Section fill.
Context (bs bs1 : gmap key (list Z)) (i : Z) (up : list Z) (z : Z).
Context (Hlo : layout_ok L) (Hib : l_itable L ≤ ib < l_fdz L) (Hoff : 0 ≤ off ≤ 992).
Context (Hok : tree_ok bs) (Hclear : free_clear bs).
Context (Hblk : ∀ j, 0 ≤ j < l_zones L → blk_ok bs (l_dev L, j)).
Context (Hvalid : valid_slot (i :: up)) (Hempty : zone_at bs (i :: up) = 0).
Context (Hup : up = [] ∨ zone_at bs up ≠ 0).
Context (Hz : l_fdz L ≤ z < l_zones L) (Hin : in_zmap L z) (Hfree : zone_used L bs z = false).
Context (Hch : bit_changed bs bs1 (l_dev L) (l_zbase L) (z - (l_fdz L - 1)) true).
Context (Hmap : (z - (l_fdz L - 1)) `div` BLOCK_BITS < l_zmap L).
Let bs2 := put bs1 (array_of bs up).1 ((array_of bs up).2 + 2 * i) (le_bytes 2 z).

Lemma bit_block j : l_itable L ≤ j → bs1 !! (l_dev L, j) = bs !! (l_dev L, j).
Proof using All.
  intros Hj. apply (changed_lookup _ _ _ _ _ _ Hch). unfold l_itable, l_zbase in *. intros [=]. lia.
Qed.

Lemma zone_block q : valid_slot q → zone_at bs q ≠ 0 → l_fdz L ≤ zone_at bs q < l_zones L ∧ zone_at bs q ≠ z ∧
  l_itable L ≤ zone_at bs q ∧ zone_at bs q ≠ ib.
Proof using All.
  intros Hq Hne. destruct (tr_zone _ Hok q Hq Hne) as [Hr Hu]. split; [done|]. split; [congruence|]. lia.
Qed.

(** The array of the slot: the inode's or a block of the tree. *)
Lemma array_cases : (up = [] ∧ 0 ≤ i < 9 ∧ array_of bs up = (ikey, off + i_zone 0)) ∨
  (up ≠ [] ∧ index_ok i ∧ array_of bs up = ((l_dev L, zone_at bs up), 0) ∧ valid_slot up ∧ zone_at bs up ≠ 0).
Proof using All.
  destruct (valid_index i up Hvalid) as [[Eu Hi]|[Hu Hi]]; [left|right].
  - split; [done|]. split; [done|]. by rewrite Eu.
  - split; [done|]. split; [done|]. split; [by destruct up|]. split; [by eapply valid_up|]. by destruct Hup.
Qed.

Lemma array_block : ∃ j, (array_of bs up).1 = (l_dev L, j) ∧ l_itable L ≤ j < l_zones L ∧ j ≠ z.
Proof using All.
  destruct array_cases as [(_ & _ & ->)|(_ & _ & -> & Hv & Hne)]; cbn [fst].
  - exists ib. split; [done|]. destruct Hlo as [_ _ _ _ ?]. lia.
  - exists (zone_at bs up). split; [done|]. destruct (zone_block up Hv Hne) as (? & ? & ? & _).
    split; [lia|done].
Qed.

Lemma fill_other key o : (key, o) ≠ ((array_of bs up).1, (array_of bs up).2 + 2 * i) →
  (∃ j, key = (l_dev L, j) ∧ l_itable L ≤ j) → 0 ≤ o →
  (key = (array_of bs up).1 → ∃ m, o = (array_of bs up).2 + 2 * m) →
  val 2 bs2 key o = val 2 bs key o.
Proof using All.
  intros Hne (j & -> & Hj) Ho Hal. unfold bs2. rewrite val_put_other.
  - unfold val. by rewrite bit_block.
  - destruct (decide ((l_dev L, j) = (array_of bs up).1)) as [E|]; [right|by left].
    destruct (Hal E) as [m ->]. rewrite length_le_bytes.
    assert (0 ≤ (array_of bs up).2 + 2 * i).
    { destruct array_cases as [(_ & Hi & ->)|(_ & Hi & -> & _)]; cbn [snd];
        unfold i_zone, index_ok in *; lia. }
    assert (m ≠ i) by (intros ->; by rewrite E in Hne). lia.
Qed.

(** The slot's own place. *)
Lemma fill_same : val 2 bs2 (array_of bs up).1 ((array_of bs up).2 + 2 * i) = z.
Proof using All.
  unfold bs2. rewrite val_put_same.
  - change (256 ^ Z.of_nat 2) with 65536. pose proof (layout_pos Hlo). apply Z.mod_small. lia.
  - destruct array_block as (j & -> & Hj & _). apply blk_in_block.
    + eapply changed_blk_ok; [exact Hch|]. apply Hblk. pose proof (layout_pos Hlo). lia.
    + destruct array_cases as [(_ & Hi & ->)|(_ & Hi & -> & _)]; cbn [snd]; unfold i_zone, index_ok in *; lia.
    + destruct array_cases as [(_ & Hi & ->)|(_ & Hi & -> & _)]; cbn [snd];
        unfold i_zone, index_ok, BLOCK_SIZE in *; change BLOCK_INDEXES with 512 in *; lia.
Qed.

Lemma fill_zone_at q : valid_slot q → zone_at bs2 q = if decide (q = i :: up) then z else zone_at bs q.
Proof using All.
  pose proof (layout_pos Hlo) as Hpos.
  pose proof fill_same as Hsame. pose proof array_cases as Harr.
  induction q as [|j q IH]; intros Hq; [done|].
  destruct (decide (q = [])) as [->|Hqn].
  - clear IH. cbn [zone_at]. destruct (valid_index j [] Hq) as [[_ Hj]|[? _]]; [|done].
    destruct (decide ([j] = i :: up)) as [Eq|Eq].
    + injection Eq as -> Eu. destruct Harr as [(_ & _ & Ea)|(? & _)]; [|congruence].
      rewrite Ea in Hsame. cbn [fst snd] in Hsame.
      by replace (off + i_zone 0 + 2 * i) with (off + i_zone i) in Hsame by (unfold i_zone; lia).
    + apply fill_other; [|exists ib; split; [done|apply Hib]|unfold i_zone; lia|].
      * destruct Harr as [(Eu & _ & ->)|(_ & _ & -> & Hv & Hne)]; cbn [fst snd]; intros E.
        -- apply (f_equal snd) in E. cbn [snd] in E. unfold i_zone in E. assert (i = j) by lia. congruence.
        -- apply (f_equal fst) in E. cbn [fst] in E. apply (f_equal snd) in E. cbn [snd ikey] in E.
           by destruct (zone_block up Hv Hne) as (_ & _ & _ & ?).
      * destruct Harr as [(Eu & _ & ->)|(_ & _ & -> & Hv & Hne)]; cbn [fst snd]; intros E.
        -- exists j. unfold i_zone. lia.
        -- apply (f_equal snd) in E. cbn [snd ikey] in E. by destruct (zone_block up Hv Hne) as (_ & _ & _ & ?).
  - pose proof (valid_up j q Hq Hqn) as Hqv. specialize (IH Hqv).
    destruct (valid_index j q Hq) as [[? _]|[_ Hj]]; [done|].
    rewrite !zone_at_cons by done. rewrite IH. clear IH. destruct (decide (q = i :: up)) as [->|Hne].
    + rewrite decide_False by (intros E; apply (f_equal length) in E; cbn in E; lia).
      rewrite Hempty. cbn [Z.eqb]. rewrite (proj2 (Z.eqb_neq _ _)) by lia.
      assert ((l_dev L, z) ≠ (array_of bs up).1) as Hnz.
      { destruct array_block as (j' & -> & _ & Hj'). congruence. }
      rewrite fill_other; [by apply Hclear|congruence| |unfold index_ok in Hj; lia|done].
      exists z. split; [done|lia].
    + destruct (Z.eqb_spec (zone_at bs q) 0) as [Ez|Ez].
      * rewrite decide_False; [done|]. intros [= -> ->]. destruct Harr as [(? & _)|(_ & _ & _ & _ & ?)]; done.
      * destruct (zone_block q Hqv Ez) as (Hr & Hnz & Hit & Hnib).
        destruct (decide (j :: q = i :: up)) as [Eq|Eq].
        -- injection Eq as -> ->. destruct Harr as [(? & _)|(_ & _ & Ea & _)]; [done|].
           rewrite Ea in Hsame. exact Hsame.
        -- apply fill_other; [|exists (zone_at bs q); split; [done|exact Hit]|unfold index_ok in Hj; lia|].
           ++ destruct Harr as [(Eu & _ & ->)|(Hun & _ & -> & Hv & Hne')]; cbn [fst snd]; intros E.
              ** apply (f_equal fst) in E. apply (f_equal snd) in E. cbn [fst snd ikey] in E. done.
              ** pose proof (f_equal (λ x, snd (fst x)) E) as E1. pose proof (f_equal snd E) as E2. cbn [fst snd] in E1, E2.
                 assert (j = i) as -> by lia. by rewrite (tr_inj _ Hok q up Hqv Hv E1 Ez) in Eq.
           ++ destruct Harr as [(Eu & _ & ->)|(Hun & _ & -> & Hv & Hne')]; cbn [fst snd]; intros E.
              ** apply (f_equal snd) in E. cbn [snd ikey] in E. done.
              ** exists j. lia.
Qed.

(** The rest of the blocks, the bitmap and the tree after it. *)
Lemma fill_used z' : in_zmap L z' → zone_used L bs2 z' = if z' =? z then true else zone_used L bs z'.
Proof using All.
  intros Hz'. assert (zone_used L bs2 z' = zone_used L bs1 z') as ->.
  { unfold zone_used, mbit, bs2. rewrite put_lookup_other; [done|]. intros E.
    destruct array_block as (j & Ej & Hj & _).
    rewrite Ej in E. injection E as E. unfold in_zmap, l_zbase, l_itable in *.
    assert ((z' - (l_fdz L - 1)) `div` BLOCK_BITS < l_zmap L) by (apply Z.div_lt_upper_bound; [done|lia]). lia. }
  unfold zone_used. assert (0 ≤ z - (l_fdz L - 1)) as Hk by lia.
  rewrite (changed_mbit _ _ _ _ _ true Hk Hch) by (unfold in_zmap in Hz'; lia).
  destruct (Z.eqb_spec z' z) as [->|Hne]; [by rewrite Z.eqb_refl|].
  destruct (Z.eqb_spec (z' - (l_fdz L - 1)) (z - (l_fdz L - 1))); [lia|done].
Qed.

Lemma zmap_in z' : l_fdz L ≤ z' < l_zones L → l_zones L ≤ l_fdz L - 1 + l_zmap L * BLOCK_BITS → in_zmap L z'.
Proof using. unfold in_zmap. lia. Qed.

Lemma fill_tree (Hcover : l_zones L ≤ l_fdz L - 1 + l_zmap L * BLOCK_BITS) : tree_ok bs2.
Proof using All.
  pose proof (layout_pos Hlo). split.
  - intros q Hq. rewrite fill_zone_at by done. destruct (decide _).
    + intros _. split; [done|]. by rewrite fill_used, Z.eqb_refl.
    + intros Hne. destruct (tr_zone _ Hok q Hq Hne) as [Hr Hu]. split; [done|].
      rewrite fill_used by (by apply zmap_in). rewrite Hu. by destruct (_ =? _).
  - intros q q' Hq Hq'. rewrite !fill_zone_at by done. destruct (decide (q = _)), (decide (q' = _)); [congruence|..].
    + intros E _. subst z. destruct (decide (zone_at bs q' = 0)) as [E0|E0]; [lia|].
      destruct (tr_zone _ Hok q' Hq' E0). congruence.
    + intros E Hne. destruct (tr_zone _ Hok q Hq Hne). congruence.
    + by apply (tr_inj _ Hok).
Qed.

(** The blocks of the zone bitmap. *)
Lemma fill_lookup key : key ≠ (array_of bs up).1 → (∀ j, 0 ≤ j < l_zmap L → key ≠ (l_dev L, l_zbase L + j)) →
  bs2 !! key = bs !! key.
Proof using All.
  intros Hne Hk. unfold bs2. rewrite put_lookup_other by done.
  apply (changed_lookup _ _ _ _ _ _ Hch). apply Hk. split; [apply Z.div_pos; [lia|done]|exact Hmap].
Qed.

Lemma fill_clear (Hcover : l_zones L ≤ l_fdz L - 1 + l_zmap L * BLOCK_BITS) : free_clear bs2.
Proof using All.
  intros z' Hz' Hu j Hj. rewrite fill_used in Hu by (by apply zmap_in).
  destruct (Z.eqb_spec z' z) as [|Hne]; [done|].
  assert ((l_dev L, z') ≠ (array_of bs up).1) as Hnk.
  { destruct array_cases as [(_ & _ & ->)|(_ & _ & -> & Hv & Hnz)]; cbn [fst]; intros E;
      apply (f_equal snd) in E; cbn [snd ikey] in E; [lia|].
    destruct (tr_zone _ Hok up Hv Hnz). congruence. }
  unfold val. rewrite fill_lookup; [by apply Hclear|done|]. intros j' Hj' [= E].
  pose proof (layout_pos Hlo). unfold l_zbase, l_itable in *. lia.
Qed.

Lemma fill_blk_ok key : blk_ok bs key → blk_ok bs2 key.
Proof using All.
  intros Hb. apply (changed_blk_ok _ _ _ _ _ _ Hch) in Hb as (b & Hb & Hl & Hf). unfold blk_ok, bs2, put.
  destruct (decide (key = (array_of bs up).1)) as [->|Hne].
  - rewrite lookup_alter_eq, Hb. cbn [fmap option_fmap option_map]. eexists. split; [done|].
    rewrite length_inserts. split; [done|]. apply Forall_lookup. intros m x Hm. apply list_lookup_inserts_Some in Hm as [[_ Hm]|Hm].
    + exact (proj1 (Forall_lookup _ _) Hf m x Hm).
    + exact (proj1 (Forall_lookup _ _) (le_bytes_range 2 z) _ x (proj2 (proj2 Hm))).
  - exists b. by rewrite lookup_alter_ne.
Qed.
End fill.
End tree.
