(* ===== verification/MinixBmap.v ===== *)
(** * [minix_bmap] ([src/src/fs/minix/minix.c])

    The search of a block's slot in the tree of MinixMap, filling in the slots
    that are missing on the way. *)
From stdpp Require Import gmultiset.
From S2P Require Import Prelude Fs Minix MinixZone MinixMap.
Open Scope Z_scope.

(** ** The slot of a block *)
Definition slot_of (block : Z) : list Z :=
  if block <? DIRECT_BLOCK then [block]
  else if block - DIRECT_BLOCK <? INDIRECT1_BLOCK then [block - DIRECT_BLOCK; DIRECT_BLOCK]
  else let r := block - DIRECT_BLOCK - INDIRECT1_BLOCK in [r `mod` BLOCK_INDEXES; r `div` BLOCK_INDEXES; DIRECT_BLOCK + 1].

(** The slot that the loop of [reckon] ends at. *)
Fixpoint path (level : nat) (index block divider : Z) (up : list Z) : list Z :=
  match level with
  | O => index :: up
  | S level' =>
      path level' (u16 (block `div` divider)) (block `mod` divider) (divider `div` BLOCK_INDEXES) (index :: up)
  end.

Ltac unfold_blocks :=
  unfold TOTAL_BLOCK, INDIRECT2_BLOCK, INDIRECT1_BLOCK, DIRECT_BLOCK, index_ok in *;
  change BLOCK_INDEXES with 512 in *.

Lemma path_start block : 0 ≤ block < TOTAL_BLOCK →
  let '(index, level, divider, rest) := bmap_start block in path level index rest divider [] = slot_of block.
Proof.
  intros Hb. unfold bmap_start, slot_of. unfold_blocks.
  destruct (Z.ltb_spec block 7); [done|]. destruct (Z.ltb_spec (block - 7) 512); cbn [path].
  - by rewrite Z.div_1_r, u16_small by lia.
  - change (512 `div` 512) with 1. rewrite Z.div_1_r, !u16_small by (Z.div_mod_to_equations; lia). done.
Qed.

Lemma slot_of_valid block : 0 ≤ block < TOTAL_BLOCK → valid_slot (slot_of block).
Proof.
  intros Hb. unfold slot_of. unfold_blocks. destruct (Z.ltb_spec block 7); [cbn; lia|].
  destruct (Z.ltb_spec (block - 7) 512); cbn; unfold_blocks; [lia|].
  split; [done|]. Z.div_mod_to_equations; lia.
Qed.

Lemma slot_of_inj b b' : 0 ≤ b < TOTAL_BLOCK → 0 ≤ b' < TOTAL_BLOCK → slot_of b = slot_of b' → b = b'.
Proof.
  intros Hb Hb'. unfold slot_of. unfold_blocks.
  destruct (Z.ltb_spec b 7), (Z.ltb_spec b' 7), (Z.ltb_spec (b - 7) 512), (Z.ltb_spec (b' - 7) 512); try lia; try done.
  - by intros [= ->].
  - intros [= ?]. lia.
  - intros [= E1 E2]. Z.div_mod_to_equations; lia.
Qed.

(** A block's slot leads to data, not to indices. *)
Lemma slot_of_leaf b q i : 0 ≤ b < TOTAL_BLOCK → valid_slot (i :: q) → q ≠ [] → slot_of b ≠ q.
Proof.
  intros Hb Hv Hq <-. unfold slot_of in Hv. unfold_blocks. revert Hv.
  destruct (Z.ltb_spec b 7); [cbn; lia|]. destruct (Z.ltb_spec (b - 7) 512); cbn; [lia|done].
Qed.

Lemma path_suffix level index block divider up : (index :: up) `suffix_of` path level index block divider up.
Proof.
  revert index block divider up. induction level as [|n IH]; intros; [done|]. cbn [path].
  etrans; [|apply IH]. by apply suffix_cons_r.
Qed.

Lemma valid_suffix slot q : valid_slot slot → q `suffix_of` slot → q ≠ [] → valid_slot q.
Proof.
  intros Hv [l ->] Hq. induction l as [|i l IH]; [done|]. apply IH. eapply valid_up; [exact Hv|].
  by destruct l, q.
Qed.

(** ** Free zones *)
Definition free_zones (L : layout) (bs : gmap key (list Z)) : nat :=
  length (filter (λ z, zone_used L bs z = false) (seqZ (l_fdz L) (l_zones L - l_fdz L))).

Lemma filter_one_less {A} (P P' : A → Prop) `{∀ x, Decision (P x), ∀ x, Decision (P' x)} (l : list A) (z : A) :
  NoDup l → z ∈ l → P z → ¬ P' z → (∀ x, x ∈ l → x ≠ z → P' x ↔ P x) →
  length (filter P l) = S (length (filter P' l)).
Proof.
  intros Hnd Hz Hp Hp' Hiff. apply list_elem_of_split in Hz as (l1 & l2 & ->).
  apply NoDup_app in Hnd as (_ & Hd & Hnd2). apply NoDup_cons in Hnd2 as [Hz2 _].
  assert (∀ l' : list A, (∀ x, x ∈ l' → x ∈ l1 ++ z :: l2 ∧ x ≠ z) → filter P' l' = filter P l') as Heq.
  { intros l' Hl. apply filter_ext_elem. intros x Hx. apply Hl in Hx as [Hx Hne]. by apply Hiff. }
  rewrite !filter_app, !filter_cons, decide_True, decide_False by done.
  rewrite (Heq l1), (Heq l2); [rewrite !length_app; cbn; lia|..].
  - intros x Hx. split; [apply elem_of_app; right; by right|]. by intros ->.
  - intros x Hx. split; [apply elem_of_app; by left|]. intros ->. apply (Hd z Hx). by left.
Qed.

Lemma free_zones_fill L bs bs' z : l_fdz L ≤ z < l_zones L → zone_used L bs z = false →
  (∀ z', l_fdz L ≤ z' < l_zones L → zone_used L bs' z' = if z' =? z then true else zone_used L bs z') →
  free_zones L bs = S (free_zones L bs').
Proof.
  intros Hz Hf Hu. unfold free_zones. apply (filter_one_less _ _ _ z).
  - apply NoDup_seqZ.
  - apply elem_of_seqZ. lia.
  - done.
  - by rewrite Hu, Z.eqb_refl by done.
  - intros x Hx Hne. apply elem_of_seqZ in Hx. rewrite Hu by lia. by rewrite (proj2 (Z.eqb_neq _ _)).
Qed.

Lemma free_zones_some L bs : (0 < free_zones L bs)%nat → ∃ z, l_fdz L ≤ z < l_zones L ∧ zone_used L bs z = false.
Proof.
  unfold free_zones. destruct (filter _ _) as [|z l] eqn:E; cbn; [lia|]. intros _. exists z.
  assert (z ∈ filter (λ z, zone_used L bs z = false) (seqZ (l_fdz L) (l_zones L - l_fdz L))) as Hz by (rewrite E; left).
  apply list_elem_of_filter in Hz as [? Hz]. apply elem_of_seqZ in Hz. split; [lia|done].
Qed.

(** ** What a call changes *)
Section bmap.
Context (L : layout) (ib off : Z) (p : nat).
Context (Hcover : l_zones L ≤ l_fdz L - 1 + l_zmap L * BLOCK_BITS).
Abbreviation zone_at := (zone_at L ib off).
Abbreviation array_of := (array_of L ib off).
Abbreviation ikey := (ikey L ib).

Record good (s : fs) : Prop := {
  gd_laid : laid_out s p L;
  gd_inode : l_itable L ≤ ib < l_fdz L;
  gd_off : 0 ≤ off ≤ 992;
  gd_tree : tree_ok L ib off (blocks s);
  gd_clear : free_clear L (blocks s);
  gd_tail : tail_marked L (blocks s) }.

Definition zmap_key (k : key) : Prop := ∃ j, 0 ≤ j < l_zmap L ∧ k = (l_dev L, l_zbase L + j).

(** The blocks of indices on the way to a slot. *)
Definition index_key (bs : gmap key (list Z)) (slot : list Z) (k : key) : Prop :=
  ∃ i up, up ≠ [] ∧ (i :: up) `suffix_of` slot ∧ zone_at bs up ≠ 0 ∧ k = (l_dev L, zone_at bs up).

(** The slots on the way to [slot] may be filled; [n] zones at most are taken. *)
Record grows (slot : list Z) (n : nat) (bs bs' : gmap key (list Z)) : Prop := {
  gr_keep : ∀ q, valid_slot q → zone_at bs q ≠ 0 → zone_at bs' q = zone_at bs q;
  gr_other : ∀ q, valid_slot q → zone_at bs q = 0 → ¬ q `suffix_of` slot → zone_at bs' q = 0;
  gr_new : ∀ q, valid_slot q → zone_at bs' q = zone_at bs q ∨
    zone_at bs q = 0 ∧ in_zmap L (zone_at bs' q) ∧ zone_used L bs (zone_at bs' q) = false;
  gr_used : ∀ z, in_zmap L z → zone_used L bs z = true → zone_used L bs' z = true;
  gr_free : (free_zones L bs ≤ free_zones L bs' + n)%nat;
  gr_inode : ∀ m o, 0 ≤ o → o + Z.of_nat m ≤ off + i_zone 0 ∨ off + i_zone 9 ≤ o → val m bs' ikey o = val m bs ikey o;
  gr_same : ∀ k, k ≠ ikey → ¬ zmap_key k → ¬ index_key bs' slot k → bs' !! k = bs !! k }.

Lemma grows_refl slot n bs : grows slot n bs bs.
Proof using. split; auto. lia. Qed.

Lemma grows_mono slot n m bs bs' : (n ≤ m)%nat → grows slot n bs bs' → grows slot m bs bs'.
Proof using. intros Hn [? ? ? ? ? ? ?]. split; try done. lia. Qed.

Lemma grows_trans slot n m bs bs1 bs2 : valid_slot slot →
  grows slot n bs bs1 → grows slot m bs1 bs2 → grows slot (n + m) bs bs2.
Proof using.
  intros Hv [K O N U F I S] [K' O' N' U' F' I' S']. split.
  - intros q Hq Hne. rewrite K' by (try done; by rewrite K). by apply K.
  - intros q Hq H0 Hs. apply O'; [done| |done]. by apply O.
  - intros q Hq. destruct (N' q Hq) as [->|(H0 & Hin & Hu)]; [by apply N|]. right. split.
    + destruct (N q Hq) as [E|(? & _)]; [by rewrite E in H0|done].
    + split; [done|]. destruct (zone_used L bs _) eqn:Eu; [|done]. apply U in Eu; [congruence|done].
  - auto.
  - lia.
  - intros k o Ho Hr. rewrite I' by done. by apply I.
  - intros k Hk Hz Hi. rewrite S' by done. apply S; [done|done|]. intros (i & up & Hup & Hs & Hne & ->).
    apply Hi. exists i, up. split; [done|]. split; [done|]. rewrite K'; [done| |done].
    apply (valid_suffix slot); [done| |done]. etrans; [|done]. by apply suffix_cons_r.
Qed.

(** The slot of an array holds the zone. *)
Lemma array_val bs i up : up = [] ∨ zone_at bs up ≠ 0 →
  val 2 bs (array_of bs up).1 ((array_of bs up).2 + 2 * i) = zone_at bs (i :: up).
Proof using.
  intros H. destruct (decide (up = [])) as [->|Hup].
  - cbn. f_equal. unfold i_zone. lia.
  - rewrite zone_at_cons by done. destruct H as [|H]; [done|]. rewrite (proj2 (Z.eqb_neq _ _)) by done. by destruct up.
Qed.

Section step.
Context (s : fs) (i : Z) (up : list Z) (Hg : good s) (Hv : valid_slot (i :: up)).
Context (Hup : up = [] ∨ zone_at (blocks s) up ≠ 0).

Lemma good_block j : 0 ≤ j < l_zones L → blk_ok (blocks s) (l_dev L, j).
Proof using Hg. apply (lo_blocks _ _ _ (gd_laid _ Hg)). Qed.

Lemma good_array : ∃ j, (array_of (blocks s) up).1 = (l_dev L, j) ∧ l_itable L ≤ j < l_zones L ∧
  0 ≤ (array_of (blocks s) up).2 + 2 * i ∧ (array_of (blocks s) up).2 + 2 * i + 2 ≤ BLOCK_SIZE.
Proof using Hg Hv Hup.
  pose proof (layout_pos L (lo_ok _ _ _ (gd_laid _ Hg))) as Hpos.
  pose proof (gd_inode _ Hg) as Hib. pose proof (gd_off _ Hg) as Ho. change BLOCK_SIZE with 1024.
  destruct (lo_ok _ _ _ (gd_laid _ Hg)) as [_ _ _ _ Hzn].
  destruct (valid_index i up Hv) as [[-> Hi]|[Hne Hi]].
  - exists ib. cbn. unfold i_zone. split; [done|]. lia.
  - destruct Hup as [|Hz]; [done|]. pose proof (valid_up i up Hv Hne) as Hvu.
    destruct (tr_zone _ _ _ _ (gd_tree _ Hg) up Hvu Hz) as [Hr _]. exists (zone_at (blocks s) up).
    unfold index_ok in Hi. change BLOCK_INDEXES with 512 in Hi.
    destruct up; [done|]. cbn [array_of fst snd]. split; [done|]. lia.
Qed.

Lemma wp_ld_slot E (Q : Z → fs → Prop) : Q (zone_at (blocks s) (i :: up)) s →
  wp E (ld 2 (array_of (blocks s) up).1 ((array_of (blocks s) up).2 + 2 * i)) Q s.
Proof using Hg Hv Hup.
  intros HQ. destruct good_array as (j & Ej & Hj & H0 & H1).
  pose proof (layout_pos L (lo_ok _ _ _ (gd_laid _ Hg))) as Hpos. apply wp_ld.
  - rewrite Ej. apply blk_in_block; [apply good_block; lia|done|exact H1].
  - by rewrite array_val.
Qed.
End step.

(** Filling one slot. *)
Section fill.
Context (s : fs) (i : Z) (up : list Z) (z : Z) (bs1 : gmap key (list Z)).
Context (Hg : good s) (Hv : valid_slot (i :: up)) (Hup : up = [] ∨ zone_at (blocks s) up ≠ 0).
Context (Hempty : zone_at (blocks s) (i :: up) = 0).
Context (Hz : l_fdz L ≤ z < l_zones L) (Hin : in_zmap L z) (Hfree : zone_used L (blocks s) z = false).
Context (Hch : bit_changed (blocks s) bs1 (l_dev L) (l_zbase L) (z - (l_fdz L - 1)) true).
Let a := array_of (blocks s) up.
Let bs2 := put bs1 a.1 (a.2 + 2 * i) (le_bytes 2 z).

Lemma zmap_index : (z - (l_fdz L - 1)) `div` BLOCK_BITS < l_zmap L.
Proof using Hin. apply Z.div_lt_upper_bound; [done|]. unfold in_zmap in Hin. lia. Qed.

Let Hlo := lo_ok _ _ _ (gd_laid _ Hg).

Lemma filled_zone q : valid_slot q → zone_at bs2 q = if decide (q = i :: up) then z else zone_at (blocks s) q.
Proof using All. intros Hq. exact (fill_zone_at L ib off (blocks s) bs1 i up z Hlo (gd_inode _ Hg) (gd_off _ Hg) (gd_tree _ Hg) (gd_clear _ Hg)
    (good_block s Hg) Hv Hempty Hup Hz Hin Hfree Hch zmap_index q Hq). Qed.

Lemma filled_used z' : in_zmap L z' → zone_used L bs2 z' = if z' =? z then true else zone_used L (blocks s) z'.
Proof using All. intros Hz'. exact (fill_used L ib off (blocks s) bs1 i up z Hlo (gd_inode _ Hg) (gd_off _ Hg) (gd_tree _ Hg) (gd_clear _ Hg)
    (good_block s Hg) Hv Hempty Hup Hz Hin Hfree Hch zmap_index z' Hz'). Qed.

Lemma filled_lookup k : k ≠ a.1 → ¬ zmap_key k → bs2 !! k = blocks s !! k.
Proof using All.
  intros Hk Hm. apply (fill_lookup L ib off (blocks s) bs1 i up z Hlo (gd_inode _ Hg) (gd_off _ Hg) (gd_tree _ Hg) (gd_clear _ Hg)
    (good_block s Hg) Hv Hempty Hup Hz Hin Hfree Hch zmap_index k Hk).
  intros j Hj ->. apply Hm. by exists j.
Qed.

Lemma filled_good : good (s <| blocks := bs2 |>).
Proof using All.
  pose proof (layout_pos L Hlo) as Hpos.
  destruct (good_array s i up Hg Hv Hup) as (j & Ej & Hj & _).
  pose proof (fill_blk_ok L ib off (blocks s) bs1 i up z Hlo (gd_inode _ Hg) (gd_off _ Hg) (gd_tree _ Hg) (gd_clear _ Hg)
    (good_block s Hg) Hv Hempty Hup Hz Hin Hfree Hch zmap_index) as Hb.
  split; [|apply (gd_inode _ Hg)|apply (gd_off _ Hg)|..].
  - apply (laid_out_frame p L s); [apply (gd_laid _ Hg)|done| |].
    + intros m Hm. apply Hb. by apply good_block.
    + apply filled_lookup; [fold a in Ej; rewrite Ej; intros [= E]; lia|].
      intros (m & Hm & [= E]). unfold l_zbase in E. pose proof (ly_imap _ Hlo). lia.
  - exact (fill_tree L ib off (blocks s) bs1 i up z Hlo (gd_inode _ Hg) (gd_off _ Hg) (gd_tree _ Hg) (gd_clear _ Hg)
    (good_block s Hg) Hv Hempty Hup Hz Hin Hfree Hch zmap_index Hcover).
  - exact (fill_clear L ib off (blocks s) bs1 i up z Hlo (gd_inode _ Hg) (gd_off _ Hg) (gd_tree _ Hg) (gd_clear _ Hg)
    (good_block s Hg) Hv Hempty Hup Hz Hin Hfree Hch zmap_index Hcover).
  - intros z' Hz' Hu. change (blocks (s <| blocks := bs2 |>)) with bs2 in Hu.
    rewrite filled_used in Hu by done. destruct (z' =? z); [done|]. by apply (gd_tail _ Hg).
Qed.

Lemma filled_inode m o : 0 ≤ o → o + Z.of_nat m ≤ off + i_zone 0 ∨ off + i_zone 9 ≤ o →
  val m bs2 ikey o = val m (blocks s) ikey o.
Proof using All.
  intros Ho Hr. pose proof (gd_off _ Hg) as Hoff. transitivity (val m bs1 ikey o).
  - unfold bs2, a. apply val_put_other. rewrite length_le_bytes.
    destruct (valid_index i up Hv) as [[-> Hi]|[Hne _]].
    + right. cbn [array_of fst snd]. unfold i_zone in *. lia.
    + left. destruct Hup as [|Hzu]; [done|].
      destruct (tr_zone _ _ _ _ (gd_tree _ Hg) up (valid_up i up Hv Hne) Hzu) as [Hzr _].
      pose proof (gd_inode _ Hg). destruct up as [|u l]; [done|]. intros E. apply (f_equal snd) in E.
      cbn [MinixMap.array_of MinixMap.ikey fst snd] in E. lia.
  - unfold val. change ikey with (l_dev L, ib). rewrite (bit_block L ib off (blocks s) bs1 i up z Hlo (gd_inode _ Hg) (gd_off _ Hg) (gd_tree _ Hg) (gd_clear _ Hg)
      (good_block s Hg) Hv Hempty Hup Hz Hin Hfree Hch zmap_index ib (proj1 (gd_inode _ Hg))). done.
Qed.

Lemma filled_grows slot : valid_slot slot → (i :: up) `suffix_of` slot → grows slot 1 (blocks s) bs2.
Proof using All.
  intros Hs Hsuf. pose proof (layout_pos L Hlo) as Hpos. split.
  - intros q Hq Hne. rewrite filled_zone by done. destruct (decide (q = i :: up)) as [->|]; [|done]. by rewrite Hempty in Hne.
  - intros q Hq H0 Hn. rewrite filled_zone by done. destruct (decide (q = i :: up)) as [->|]; [done|done].
  - intros q Hq. rewrite filled_zone by done. destruct (decide (q = i :: up)) as [->|]; [by right|by left].
  - intros z' Hz' Hu. rewrite filled_used by done. rewrite Hu. by destruct (_ =? _).
  - rewrite (free_zones_fill L (blocks s) bs2 z Hz Hfree); [lia|].
    intros z' Hz'. apply filled_used. unfold in_zmap. lia.
  - apply filled_inode.
  - intros k Hk Hm Hi. apply filled_lookup; [|done]. destruct (valid_index i up Hv) as [[E _]|[Hne _]].
    + unfold a. by rewrite E.
    + destruct Hup as [|Hzu]; [done|]. intros ->. apply Hi. exists i, up. split; [done|]. split; [done|].
      rewrite filled_zone by (by eapply valid_up).
      rewrite decide_False by (intros E; apply (f_equal length) in E; cbn in E; lia).
      split; [done|]. unfold a. by destruct up.
Qed.

Lemma filled_slot : zone_at bs2 (i :: up) = z.
Proof using All. by rewrite filled_zone, decide_True by done. Qed.
End fill.

(** ** The search *)

(** What is never released: buffers of the zone bitmap. *)
Definition leaked (h : gmultiset key) : Prop := ∀ k, k ∈ h → zmap_key k.

Lemma leaked_empty : leaked ∅.
Proof using. intros k Hk. by apply gmultiset_not_elem_of_empty in Hk. Qed.

Lemma leaked_union h h' : leaked h → leaked h' → leaked (h ⊎ h').
Proof using. intros H H' k Hk. apply gmultiset_elem_of_disj_union in Hk as [?|?]; auto. Qed.

Lemma leaked_uses n : 0 ≤ n ≤ l_zmap L → leaked (uses (l_dev L) (l_zbase L) 0 n).
Proof using.
  intros Hn k Hk. unfold uses in Hk. apply elem_of_list_to_set_disj, list_elem_of_fmap in Hk as (j & -> & Hj).
  apply elem_of_seqZ in Hj. exists j. split; [lia|done].
Qed.

(** A state with other buffers in use and other contents. *)
Definition upd (s : fs) (h : gmultiset key) (bs : gmap key (list Z)) : fs := s <| held := h |> <| blocks := bs |>.

Lemma good_upd s h h' bs : good (upd s h bs) → good (upd s h' bs).
Proof using.
  intros [Hl Hi Ho Ht Hc Htm]. split; try done.
  apply (laid_out_frame p L (upd s h bs)); [done|done|intros; by apply (lo_blocks _ _ _ Hl)|done].
Qed.

Lemma upd_same s : upd s (held s) (blocks s) = s.
Proof using. by destruct s. Qed.

Lemma zone_at_zero bs q slot : q `suffix_of` slot → q ≠ [] → zone_at bs q = 0 → zone_at bs slot = 0.
Proof using.
  intros [l ->] Hq H0. induction l as [|i l IH]; [done|]. cbn [app].
  rewrite zone_at_cons by (by destruct l, q). by rewrite IH.
Qed.

Section search.
Context (E : stop → Prop).

(** The allocation in a turn of the loop. *)
Lemma wp_fill_slot s i up slot create (Q : unit → fs → Prop) : good s → valid_slot slot → (i :: up) `suffix_of` slot →
  up = [] ∨ zone_at (blocks s) up ≠ 0 →
  (create = true → zone_at (blocks s) (i :: up) = 0 → (0 < free_zones L (blocks s))%nat) →
  (∀ bs' h, leaked h → grows slot 1 (blocks s) bs' → good (upd s (h ⊎ held s) bs') →
     (create = true → zone_at bs' (i :: up) ≠ 0) →
     (create = false ∨ zone_at (blocks s) (i :: up) ≠ 0 → bs' = blocks s ∧ h = ∅) →
     Q tt (upd s (h ⊎ held s) bs')) →
  wp E (if (zone_at (blocks s) (i :: up) =? 0) && create then
          let* z := minix_balloc p in st 2 (array_of (blocks s) up).1 ((array_of (blocks s) up).2 + 2 * i) z
        else st_ret tt) Q s.
Proof using Hcover.
  intros Hg Hs Hsuf Hup Hfree HQ. pose proof (valid_suffix slot _ Hs Hsuf ltac:(done)) as Hv.
  pose proof (layout_pos L (lo_ok _ _ _ (gd_laid _ Hg))) as Hpos.
  assert (upd s (∅ ⊎ held s) (blocks s) = s) as Hsame.
  { unfold upd. rewrite gmultiset_disj_union_left_id. apply upd_same. }
  destruct (Z.eqb_spec (zone_at (blocks s) (i :: up)) 0) as [Hz|Hz]; [destruct create|]; cbn [andb].
  2,3: apply wp_ret; rewrite <-Hsame; apply HQ; [apply leaked_empty|apply grows_refl|by rewrite Hsame|done|done].
  destruct (free_zones_some L (blocks s) (Hfree eq_refl Hz)) as (z0 & Hz0 & Hf0).
  apply wp_bind. apply (wp_balloc E p L s (gd_laid _ Hg)); [apply (gd_tail _ Hg)| |].
  - intros z bs1 Hzr Hin Hf _ Hch. destruct (good_array s i up Hg Hv Hup) as (j & Ej & Hj & H0 & H1).
    set (h := uses (l_dev L) (l_zbase L) 0 ((z - (l_fdz L - 1)) `div` BLOCK_BITS)).
    pose proof (zmap_index z Hin) as Hzi. assert (0 ≤ (z - (l_fdz L - 1)) `div` BLOCK_BITS) by (apply Z.div_pos; [lia|done]).
    apply wp_st.
    + change (blocks (_ <| blocks := bs1 |>)) with bs1. rewrite Ej.
      apply blk_in_block; [|done|exact H1]. apply (changed_blk_ok _ _ _ _ _ _ Hch). apply good_block; [done|lia].
    + pose proof (filled_good s i up z bs1 Hg Hv Hup Hz Hzr Hin Hf Hch) as Hg2.
      apply (HQ _ h); [apply leaked_uses; lia| |by apply (good_upd s (held s))| |by intros [|]].
      * by apply filled_grows.
      * intros _. rewrite filled_slot by done. lia.
  - intros Hall. rewrite Hall in Hf0; [done|]. unfold in_zmap. lia.
Qed.

(** A turn of the loop, up to the test of the zone found. *)
Lemma wp_turn s h i up slot create (K : Z → ST fs Z) (Q : Z → fs → Prop) :
  good s → valid_slot slot → (i :: up) `suffix_of` slot →
  up = [] ∨ zone_at (blocks s) up ≠ 0 →
  (create = true → zone_at (blocks s) (i :: up) = 0 → (0 < free_zones L (blocks s))%nat) →
  held s = {[+ (array_of (blocks s) up).1 +]} ⊎ h →
  (∀ bs' h', leaked h' → grows slot 1 (blocks s) bs' → good (upd s (h' ⊎ h) bs') →
     (create = true → zone_at bs' (i :: up) ≠ 0) →
     (create = false ∨ zone_at (blocks s) (i :: up) ≠ 0 → bs' = blocks s ∧ h' = ∅) →
     wp E (K (zone_at bs' (i :: up))) Q (upd s (h' ⊎ h) bs')) →
  wp E (let* z := ld 2 (array_of (blocks s) up).1 ((array_of (blocks s) up).2 + 2 * i) in
        do! (if (z =? 0) && create then
               let* z := minix_balloc p in st 2 (array_of (blocks s) up).1 ((array_of (blocks s) up).2 + 2 * i) z
             else st_ret tt);
        do! brelse (array_of (blocks s) up).1;
        let* z := ld 2 (array_of (blocks s) up).1 ((array_of (blocks s) up).2 + 2 * i) in K z) Q s.
Proof using Hcover.
  intros Hg Hs Hsuf Hup Hfree Hheld HQ. pose proof (valid_suffix slot _ Hs Hsuf ltac:(done)) as Hv.
  apply wp_bind, wp_ld_slot; [done|done|done|]. apply wp_bind, (wp_fill_slot s i up slot); try done.
  intros bs1 h1 Hl1 Hgr1 Hg1 Hc1 Hn1.
  assert (up = [] ∨ zone_at bs1 up ≠ 0 ∧ zone_at bs1 up = zone_at (blocks s) up) as Hup1.
  { destruct (decide (up = [])) as [|Hne]; [by left|right]. destruct Hup as [|Hup]; [done|].
    rewrite (gr_keep _ _ _ _ Hgr1); [done|by eapply valid_up|done]. }
  assert (array_of bs1 up = array_of (blocks s) up) as Earr.
  { destruct Hup1 as [->|[_ E1]]; [done|]. destruct up as [|u l]; [done|].
    unfold MinixMap.array_of. by rewrite E1. }
  assert (up = [] ∨ zone_at bs1 up ≠ 0) as Hup2 by tauto.
  apply wp_bind, wp_brelse; [change (held (upd s ?x bs1)) with x; rewrite Hheld; multiset_solver|].
  assert (upd s (h1 ⊎ held s) bs1 <| held $= λ x, x ∖ {[+ (array_of (blocks s) up).1 +]} |> = upd s (h1 ⊎ h) bs1) as ->.
  { unfold upd, modify. cbn. f_equal. rewrite (release_eq _ _ (h1 ⊎ h)); [done|]. rewrite Hheld. multiset_solver. }
  pose proof (good_upd s _ (h1 ⊎ h) bs1 Hg1) as Hg2. rewrite <-Earr. apply wp_bind.
  apply (wp_ld_slot (upd s (h1 ⊎ h) bs1) i up Hg2 Hv Hup2). by apply HQ.
Qed.

(** The loop of [reckon] from the array [up] on. *)
Lemma wp_reckon level : ∀ s h index block divider up create (Q : Z → fs → Prop),
  let slot := path level index block divider up in
  valid_slot slot → good s → up = [] ∨ zone_at (blocks s) up ≠ 0 →
  held s = {[+ (array_of (blocks s) up).1 +]} ⊎ h →
  (create = true → zone_at (blocks s) slot = 0 → (level < free_zones L (blocks s))%nat) →
  (∀ bs' h', leaked h' → grows slot (S level) (blocks s) bs' → good (upd s (h' ⊎ h) bs') →
     (create = true → zone_at bs' slot ≠ 0) →
     (create = false ∨ zone_at (blocks s) slot ≠ 0 → bs' = blocks s ∧ h' = ∅) →
     Q (zone_at bs' slot) (upd s (h' ⊎ h) bs')) →
  wp E (reckon level p (l_dev L) create (array_of (blocks s) up).1 (array_of (blocks s) up).1
          (array_of (blocks s) up).2 index block divider) Q s.
Proof using Hcover.
  induction level as [|level IH]; intros s h index block divider up create Q slot Hs Hg Hup Hheld Hfree HQ; cbn [reckon];
    pose proof (path_suffix _ index block divider up : (index :: up) `suffix_of` slot) as Hsuf.
  - by apply (wp_turn s h index up slot).
  - assert (∀ bs, zone_at bs slot ≠ 0 → zone_at bs (index :: up) ≠ 0) as Hanc.
    { intros bs Hne E0. apply Hne. by apply (zone_at_zero bs (index :: up)). }
    apply (wp_turn s h index up slot); try done.
    { intros Hc E0. assert (S level < free_zones L (blocks s))%nat; [|lia]. apply (Hfree Hc). by apply (zone_at_zero _ (index :: up)). }
    intros bs1 h1 Hl1 Hgr1 Hg1 Hc1 Hn1. set (up1 := index :: up) in *.
    destruct (Z.eqb_spec (zone_at bs1 up1) 0) as [Hz|Hz].
    + apply wp_ret. pose proof (zone_at_zero bs1 up1 slot Hsuf ltac:(done) Hz) as E0. rewrite Hz, <-E0.
      destruct create; [by destruct (Hc1 eq_refl)|]. apply HQ; [done| |done|done|].
      * apply (grows_mono slot 1); [lia|done].
      * intros _. apply Hn1. by left.
    + pose proof (valid_suffix slot _ Hs Hsuf ltac:(done)) as Hv. fold up1 in Hv.
      destruct (tr_zone _ _ _ _ (gd_tree _ Hg1) up1 Hv Hz) as [Hzr _]. change (blocks (upd s ?x bs1)) with bs1 in Hzr.
      pose proof (layout_pos L (lo_ok _ _ _ (gd_laid _ Hg))) as Hpos.
      destruct (good_block _ Hg1 (zone_at bs1 up1) ltac:(lia)) as (b & Hb & _).
      apply wp_bind, wp_bread_block; [by eexists|].
      set (s1 := upd s ({[+ (l_dev L, zone_at bs1 up1) +]} ⊎ (h1 ⊎ h)) bs1).
      change (upd s (h1 ⊎ h) bs1 <| held $= λ x, {[+ (l_dev L, zone_at bs1 up1) +]} ⊎ x |>) with s1.
      change ((l_dev L, zone_at bs1 up1)) with (array_of (blocks s1) up1).1 at 1 2.
      change 0 with (array_of (blocks s1) up1).2 at 1.
      apply (IH s1 (h1 ⊎ h)); [done|by apply (good_upd s (h1 ⊎ h))|by right|done| |].
      * change (blocks s1) with bs1. intros Hc E1. change (zone_at bs1 slot = 0) in E1. pose proof (gr_free _ _ _ _ Hgr1).
        assert (zone_at (blocks s) slot = 0) as E0; [|specialize (Hfree Hc E0); lia].
        destruct (decide (zone_at (blocks s) slot = 0)) as [|Hne]; [done|]. by rewrite (gr_keep _ _ _ _ Hgr1 slot Hs Hne) in E1.
      * intros bs2 h2 Hl2 Hgr2 Hg2 Hc2 Hn2. change (blocks s1) with bs1 in *.
        assert (h2 ⊎ (h1 ⊎ h) = (h2 ⊎ h1) ⊎ h) as Eh by multiset_solver.
        change (upd s1 (h2 ⊎ (h1 ⊎ h)) bs2) with (upd s (h2 ⊎ (h1 ⊎ h)) bs2) in *. rewrite Eh in *.
        apply HQ; [by apply leaked_union|by apply (grows_trans slot 1 (S level) _ bs1)|done|done|].
        intros Hc. destruct Hn1 as [-> ->]; [destruct Hc as [Hc|Hc]; [by left|right; by apply Hanc]|].
        destruct (Hn2 Hc) as [-> ->]. split; [done|multiset_solver].
Qed.

(** The inode [n] of the table is the one of the file. *)
Definition inode_at (s : fs) (n : nat) : Prop :=
  ∃ i, inode_table s !! n = Some i ∧ dev i = l_dev L ∧ desc i = Some (ikey, off) ∧ buf i = Some ikey ∧ super i = Some p.

Lemma wp_bmap s n block create (Q : Z → fs → Prop) :
  good s → inode_at s n → 0 ≤ block < TOTAL_BLOCK →
  (create = true → zone_at (blocks s) (slot_of block) = 0 → (2 < free_zones L (blocks s))%nat) →
  (∀ bs' h', leaked h' → grows (slot_of block) 3 (blocks s) bs' → good (upd s (h' ⊎ held s) bs') →
     (create = true → zone_at bs' (slot_of block) ≠ 0) →
     (create = false ∨ zone_at (blocks s) (slot_of block) ≠ 0 → bs' = blocks s ∧ h' = ∅) →
     Q (zone_at bs' (slot_of block)) (upd s (h' ⊎ held s) bs')) →
  wp E (minix_bmap n block create) Q s.
Proof using Hcover.
  intros Hg (i & Hi & Hdev & Hd & Hb & Hp) Hbl Hfree HQ. unfold minix_bmap.
  apply wp_bind, wp_check_true; [apply Z.ltb_lt; lia|]. apply wp_bind. eapply wp_deref; [exact Hi|].
  apply wp_bind. eapply wp_deref; [exact Hd|]. apply wp_bind. eapply wp_deref; [exact Hb|].
  pose proof (path_start block Hbl) as Hpath. pose proof (slot_of_valid block Hbl) as Hv.
  assert (∀ level index divider rest, bmap_start block = (index, level, divider, rest) → (level ≤ 2)%nat) as Hlevel.
  { unfold bmap_start. intros level index divider rest. repeat case_match; intros [= <- <- <- <-]; lia. }
  destruct (bmap_start block) as [[[index level] divider] rest]. specialize (Hlevel _ _ _ _ eq_refl).
  apply wp_bind, wp_mod, wp_bind. eapply wp_deref; [exact Hp|]. rewrite Hdev.
  set (s1 := upd s ({[+ ikey +]} ⊎ held s) (blocks s)).
  assert (s <| held $= λ h, {[+ ikey +]} ⊎ h |> = s1) as Es1 by (by destruct s).
  change (wp E (reckon level p (l_dev L) create (array_of (blocks s1) []).1 (array_of (blocks s1) []).1
    (array_of (blocks s1) []).2 index rest divider) Q (s <| held $= λ h, {[+ ikey +]} ⊎ h |>)). rewrite Es1.
  apply (wp_reckon level s1 (held s)); rewrite ?Hpath; [done| |by left|done| |].
  - apply (good_upd s (held s)). by rewrite upd_same.
  - intros Hc Hz. change (blocks s1) with (blocks s) in *. specialize (Hfree Hc Hz). lia.
  - intros bs' h' Hl Hgr Hg' Hc Hn. change (upd s1 (h' ⊎ held s) bs') with (upd s (h' ⊎ held s) bs') in *.
    change (blocks s1) with (blocks s) in *. apply HQ; [done| |done|done|done]. apply (grows_mono _ (S level)); [lia|done].
Qed.
End search.
End bmap.
