(* ===== verification/MinixFile.v ===== *)
(** * Reading and writing files ([minix_read], [minix_write] of [src/src/fs/minix/minix.c])

    A file is the sequence of bytes that its tree of zones holds; a write changes
    the bytes of its range and nothing else, a read returns them. *)
From stdpp Require Import gmultiset.
From S2P Require Import Prelude Fs Minix MinixZone MinixMap MinixBmap.
Open Scope Z_scope.

Section file.
Context (L : layout) (ib off : Z) (p : nat).
Context (Hcover : l_zones L ≤ l_fdz L - 1 + l_zmap L * BLOCK_BITS).
Abbreviation zone_at := (zone_at L ib off).
Abbreviation ikey := (ikey L ib).
Abbreviation good := (good L ib off p).
Abbreviation inode_at := (inode_at L ib off p).
Abbreviation leaked := (leaked L).

(** Byte [o] of the file. *)
Definition byte_at (bs : gmap key (list Z)) (o : Z) : option Z :=
  let z := zone_at bs (slot_of (o `div` BLOCK_SIZE)) in
  if z =? 0 then None
  else b ← bs !! (l_dev L, z); b !! Z.to_nat (o `mod` BLOCK_SIZE).

Definition file_size (bs : gmap key (list Z)) : Z := val 4 bs ikey (off + i_size).
Definition in_file (o : Z) : Prop := 0 ≤ o < TOTAL_BLOCK * BLOCK_SIZE.

Lemma block_of o : in_file o → 0 ≤ o `div` BLOCK_SIZE < TOTAL_BLOCK.
Proof using.
  unfold in_file. intros Ho. split; [apply Z.div_pos; [lia|done]|]. apply Z.div_lt_upper_bound; [done|]. lia.
Qed.

Lemma data_zmap z : l_fdz L ≤ z < l_zones L → in_zmap L z.
Proof using Hcover. unfold in_zmap. lia. Qed.

(** The inode is in its block. *)
Lemma inode_in_block s m o : good s → 0 ≤ o → o + Z.of_nat m ≤ off + sizeof_inode → in_block m (blocks s) ikey o.
Proof using.
  intros [Hla Hi Ho _ _ _] H0 Hm. pose proof (layout_pos L (lo_ok _ _ _ Hla)) as Hpos.
  pose proof (ly_zones _ (lo_ok _ _ _ Hla)). unfold sizeof_inode in Hm.
  apply blk_in_block; [|done|change BLOCK_SIZE with 1024; lia]. apply (lo_blocks _ _ _ Hla). lia.
Qed.

(** A store behind the bitmaps keeps the layout. *)
Lemma laid_put s h j o l : laid_out s p L → l_itable L ≤ j < l_zones L → Forall (λ v, 0 ≤ v < 256) l →
  laid_out (upd s h (put (blocks s) (l_dev L, j) o l)) p L.
Proof using.
  intros Hla Hj Hl. pose proof (layout_pos L (lo_ok _ _ _ Hla)) as Hpos.
  apply (laid_out_frame p L s); [done|done| |apply put_lookup_other; intros [= E]; lia].
  intros m Hm. change (blocks (upd s h ?x)) with x. unfold put. destruct (decide (m = j)) as [->|Hne].
  - destruct (lo_blocks _ _ _ Hla j Hm) as (b & Hb & Hlen & Hf). unfold blk_ok. rewrite lookup_alter_eq, Hb. cbn [fmap option_fmap option_map].
    eexists. split; [done|]. rewrite length_inserts. split; [done|]. apply Forall_lookup. intros x v Hx.
    apply list_lookup_inserts_Some in Hx as [[_ Hx]|(_ & _ & Hx)].
    + exact (proj1 (Forall_lookup _ _) Hf _ _ Hx).
    + exact (proj1 (Forall_lookup _ _) Hl _ _ Hx).
  - unfold blk_ok. rewrite lookup_alter_ne by (intros [= ?]; done). by apply (lo_blocks _ _ _ Hla).
Qed.

(** ** A store outside the tree *)
Section store.
Context (s : fs) (h : gmultiset key) (j o : Z) (l : list Z).
Context (Hg : good s) (Hj : l_itable L ≤ j < l_zones L) (Ho : 0 ≤ o) (Hl : Forall (λ v, 0 ≤ v < 256) l).
Context (Hroot : j = ib → o + Z.of_nat (length l) ≤ off + i_zone 0 ∨ off + i_zone 9 ≤ o).
Context (Hidx : ∀ i up, valid_slot (i :: up) → up ≠ [] → zone_at (blocks s) up ≠ 0 → zone_at (blocks s) up ≠ j).
Context (Hused : j = ib ∨ l_fdz L ≤ j ∧ zone_used L (blocks s) j = true).
Let bs' := put (blocks s) (l_dev L, j) o l.

Lemma store_zone q : valid_slot q → zone_at bs' q = zone_at (blocks s) q.
Proof using All.
  pose proof (gd_off _ _ _ _ _ Hg) as Hoff. intros Hq. apply zone_at_ext; [done| |].
  - intros i Hi. unfold bs'. apply val_put_other. destruct (decide (j = ib)) as [E|Hne].
    + right. specialize (Hroot E). unfold i_zone in *. lia.
    + left. intros E. apply (f_equal snd) in E. cbn in E. lia.
  - intros up i Hv Hup Hz. unfold bs'. apply val_put_other. left. intros [= E]. by apply (Hidx i up).
Qed.

Lemma store_lookup k : k ≠ (l_dev L, j) → bs' !! k = blocks s !! k.
Proof using. intros Hk. by apply put_lookup_other. Qed.

Lemma store_used z : in_zmap L z → zone_used L bs' z = zone_used L (blocks s) z.
Proof using Hj.
  intros [Hz1 Hz2]. unfold zone_used, mbit. rewrite store_lookup; [done|]. intros [= E].
  assert ((z - (l_fdz L - 1)) `div` BLOCK_BITS < l_zmap L) by (apply Z.div_lt_upper_bound; [done|lia]).
  unfold l_zbase, l_itable in *. lia.
Qed.

Lemma store_good : good (upd s h bs').
Proof using All.
  destruct Hg as [Hla Hi Ho' Ht Hc Htm]. pose proof (layout_pos L (lo_ok _ _ _ Hla)) as Hpos.
  split; [|done|done|split|..]; change (blocks (upd s h bs')) with bs'.
  - by apply laid_put.
  - intros q Hq. rewrite store_zone by done. intros Hne. destruct (tr_zone _ _ _ _ Ht q Hq Hne) as [Hr Hu].
    split; [done|]. rewrite store_used; [done|by apply data_zmap].
  - intros q q' Hq Hq'. rewrite !store_zone by done. by apply (tr_inj _ _ _ _ Ht).
  - intros z Hz. rewrite store_used by (by apply data_zmap). intros Hu i Hiv. unfold val.
    rewrite store_lookup; [by apply Hc|]. intros [= E]. destruct Hused as [E'|[_ Hu']]; [lia|congruence].
  - intros z Hz. rewrite store_used by done. by apply Htm.
Qed.
Lemma store_free : free_zones L bs' = free_zones L (blocks s).
Proof using All.
  unfold free_zones. f_equal. apply filter_ext_elem. intros z Hz. apply elem_of_seqZ in Hz.
  rewrite store_used; [done|]. apply data_zmap. lia.
Qed.
End store.

(** A store in the inode, outside the array of zones: what stays. *)
Record same_tree (bs bs' : gmap key (list Z)) : Prop := {
  sm_zone : ∀ q, valid_slot q → zone_at bs' q = zone_at bs q;
  sm_used : ∀ z, in_zmap L z → zone_used L bs' z = zone_used L bs z;
  sm_free : free_zones L bs' = free_zones L bs }.

Lemma inode_store s h o l : good s → 0 ≤ o → Forall (λ v, 0 ≤ v < 256) l → o + Z.of_nat (length l) ≤ off + i_zone 0 →
  good (upd s h (put (blocks s) ikey o l)) ∧ same_tree (blocks s) (put (blocks s) ikey o l).
Proof using Hcover.
  intros Hg Ho Hl Hr. pose proof (layout_pos L (lo_ok _ _ _ (gd_laid _ _ _ _ _ Hg))) as Hpos.
  pose proof (gd_inode _ _ _ _ _ Hg) as Hi. pose proof (ly_zones _ (lo_ok _ _ _ (gd_laid _ _ _ _ _ Hg))) as Hzs.
  assert (∀ i up, valid_slot (i :: up) → up ≠ [] → zone_at (blocks s) up ≠ 0 → zone_at (blocks s) up ≠ ib) as Hidx.
  { intros i up Hv Hup Hz. destruct (tr_zone _ _ _ _ (gd_tree _ _ _ _ _ Hg) up (valid_up i up Hv Hup) Hz). lia. }
  assert (l_itable L ≤ ib < l_zones L) as Hj by lia.
  split; [|split].
  - exact (store_good s h ib o l Hg Hj Ho Hl (λ _, or_introl Hr) Hidx (or_introl eq_refl)).
  - exact (store_zone s h ib o l Hg Hj Ho Hl (λ _, or_introl Hr) Hidx (or_introl eq_refl)).
  - exact (store_used s ib o l Hj).
  - exact (store_free s h ib o l Hg Hj Ho Hl (λ _, or_introl Hr) Hidx (or_introl eq_refl)).
Qed.

(** A store in a data zone of the file. *)
Lemma data_store s h b o l : good s → 0 ≤ b < TOTAL_BLOCK → zone_at (blocks s) (slot_of b) ≠ 0 → 0 ≤ o →
  Forall (λ v, 0 ≤ v < 256) l →
  let bs' := put (blocks s) (l_dev L, zone_at (blocks s) (slot_of b)) o l in
  good (upd s h bs') ∧ same_tree (blocks s) bs'.
Proof using Hcover.
  intros Hg Hb Hz Ho Hl. pose proof (layout_pos L (lo_ok _ _ _ (gd_laid _ _ _ _ _ Hg))) as Hpos.
  pose proof (gd_tree _ _ _ _ _ Hg) as Ht. pose proof (slot_of_valid b Hb) as Hv.
  destruct (tr_zone _ _ _ _ Ht _ Hv Hz) as [Hr Hu]. pose proof (gd_inode _ _ _ _ _ Hg) as Hi.
  assert (∀ i up, valid_slot (i :: up) → up ≠ [] → zone_at (blocks s) up ≠ 0 →
    zone_at (blocks s) up ≠ zone_at (blocks s) (slot_of b)) as Hidx.
  { intros i up Hvu Hup Hzu E. apply (slot_of_leaf b up i Hb Hvu Hup). symmetry.
    by apply (tr_inj _ _ _ _ Ht up (slot_of b) (valid_up i up Hvu Hup) Hv). }
  set (j := zone_at (blocks s) (slot_of b)) in *.
  assert (l_itable L ≤ j < l_zones L) as Hj by lia. assert (j ≠ ib) as Hne by lia.
  assert (j = ib ∨ l_fdz L ≤ j ∧ zone_used L (blocks s) j = true) as Hused by (right; split; [lia|done]).
  split; [|split].
  - exact (store_good s h j o l Hg Hj Ho Hl (λ E, False_ind _ (Hne E)) Hidx Hused).
  - exact (store_zone s h j o l Hg Hj Ho Hl (λ E, False_ind _ (Hne E)) Hidx Hused).
  - exact (store_used s j o l Hj).
  - exact (store_free s h j o l Hg Hj Ho Hl (λ E, False_ind _ (Hne E)) Hidx Hused).
Qed.

(** ** The bytes *)
Lemma byte_at_same bs bs' o : zone_at bs' (slot_of (o `div` BLOCK_SIZE)) = zone_at bs (slot_of (o `div` BLOCK_SIZE)) →
  bs' !! (l_dev L, zone_at bs (slot_of (o `div` BLOCK_SIZE))) = bs !! (l_dev L, zone_at bs (slot_of (o `div` BLOCK_SIZE))) →
  byte_at bs' o = byte_at bs o.
Proof using. intros Hz Hb. unfold byte_at. by rewrite Hz, Hb. Qed.

Lemma byte_at_zone bs o v : byte_at bs o = Some v → zone_at bs (slot_of (o `div` BLOCK_SIZE)) ≠ 0.
Proof using. unfold byte_at. by destruct (Z.eqb_spec (zone_at bs (slot_of (o `div` BLOCK_SIZE))) 0). Qed.

(** A zone of the file is no other block of the file system. *)
Lemma zone_facts s q : good s → valid_slot q → zone_at (blocks s) q ≠ 0 →
  (l_dev L, zone_at (blocks s) q) ≠ ikey ∧ ¬ zmap_key L (l_dev L, zone_at (blocks s) q) ∧
  0 ≤ zone_at (blocks s) q < l_zones L.
Proof using.
  intros Hg Hq Hz. pose proof (layout_pos L (lo_ok _ _ _ (gd_laid _ _ _ _ _ Hg))) as Hpos.
  destruct (tr_zone _ _ _ _ (gd_tree _ _ _ _ _ Hg) q Hq Hz) as [Hr _]. pose proof (gd_inode _ _ _ _ _ Hg) as Hi.
  split; [intros E; apply (f_equal snd) in E; cbn in E; lia|]. split; [|lia].
  intros (j & Hj & [= E]). unfold l_zbase, l_itable in *. lia.
Qed.

Lemma grows_data s h bs' b n k : good s → good (upd s h bs') → 0 ≤ b < TOTAL_BLOCK → grows L ib off (slot_of b) n (blocks s) bs' →
  0 ≤ k < TOTAL_BLOCK → zone_at (blocks s) (slot_of k) ≠ 0 →
  bs' !! (l_dev L, zone_at (blocks s) (slot_of k)) = blocks s !! (l_dev L, zone_at (blocks s) (slot_of k)).
Proof using.
  intros Hg Hg' Hb Hgr Hk Hz. pose proof (slot_of_valid k Hk) as Hv.
  destruct (zone_facts s _ Hg Hv Hz) as (H1 & H2 & _). apply (gr_same _ _ _ _ _ _ _ Hgr); [done|done|].
  intros (i & up & Hup & Hsuf & Hzu & [= E]).
  pose proof (valid_suffix _ _ (slot_of_valid b Hb) Hsuf ltac:(done)) as Hvu.
  apply (slot_of_leaf k up i Hk Hvu Hup). apply (tr_inj _ _ _ _ (gd_tree _ _ _ _ _ Hg')); [done|by eapply valid_up| |].
  - change (blocks (upd s h bs')) with bs'. by rewrite (gr_keep _ _ _ _ _ _ _ Hgr).
  - change (blocks (upd s h bs')) with bs'. by rewrite (gr_keep _ _ _ _ _ _ _ Hgr).
Qed.

Lemma byte_at_grows s h bs' b n o v : good s → good (upd s h bs') → 0 ≤ b < TOTAL_BLOCK →
  grows L ib off (slot_of b) n (blocks s) bs' → in_file o → byte_at (blocks s) o = Some v → byte_at bs' o = Some v.
Proof using.
  intros Hg Hg' Hb Hgr Ho Hv. pose proof (byte_at_zone _ _ _ Hv) as Hz. pose proof (block_of o Ho) as Hbo.
  rewrite <-Hv. apply byte_at_same.
  - apply (gr_keep _ _ _ _ _ _ _ Hgr); [by apply slot_of_valid|done].
  - by apply (grows_data s h bs' b n).
Qed.

(** What a store in a data zone does to the bytes. *)
Lemma byte_at_store s b o l x : good s → 0 ≤ b < TOTAL_BLOCK → zone_at (blocks s) (slot_of b) ≠ 0 → 0 ≤ o →
  o + Z.of_nat (length l) ≤ BLOCK_SIZE → Forall (λ v, 0 ≤ v < 256) l → in_file x →
  byte_at (put (blocks s) (l_dev L, zone_at (blocks s) (slot_of b)) o l) x =
    if (x `div` BLOCK_SIZE =? b) && (o <=? x `mod` BLOCK_SIZE) && (x `mod` BLOCK_SIZE <? o + Z.of_nat (length l))
    then l !! Z.to_nat (x `mod` BLOCK_SIZE - o) else byte_at (blocks s) x.
Proof using Hcover.
  intros Hg Hb Hz Ho Hfit Hl Hx. pose proof (slot_of_valid b Hb) as Hv. pose proof (block_of x Hx) as Hbx.
  destruct (data_store s ∅ b o l Hg Hb Hz Ho Hl) as [_ Hsame].
  assert (0 ≤ x `mod` BLOCK_SIZE < BLOCK_SIZE) as Hm by (by apply Z.mod_pos_bound).
  unfold byte_at. rewrite (sm_zone _ _ Hsame) by (by apply slot_of_valid).
  destruct (Z.eqb_spec (x `div` BLOCK_SIZE) b) as [->|Hne]; cbn [andb].
  - rewrite (proj2 (Z.eqb_neq _ _)) by done. unfold put. rewrite lookup_alter_eq.
    destruct (zone_facts s _ Hg Hv Hz) as (_ & _ & Hr).
    destruct (lo_blocks _ _ _ (gd_laid _ _ _ _ _ Hg) _ Hr) as (c & Hc & Hlen & _). rewrite Hc. cbn [fmap option_fmap option_map mbind option_bind].
    destruct (Z.leb_spec o (x `mod` BLOCK_SIZE)); cbn [andb]; [|by rewrite list_lookup_inserts_lt by lia].
    destruct (Z.ltb_spec (x `mod` BLOCK_SIZE) (o + Z.of_nat (length l))); [|by rewrite list_lookup_inserts_ge by lia].
    rewrite list_lookup_inserts by lia. f_equal. lia.
  - destruct (Z.eqb_spec (zone_at (blocks s) (slot_of (x `div` BLOCK_SIZE))) 0) as [|Hzx]; [done|].
    rewrite put_lookup_other; [done|]. intros [= E]. apply Hne, slot_of_inj; [done|done|].
    apply (tr_inj _ _ _ _ (gd_tree _ _ _ _ _ Hg)); [by apply slot_of_valid|done|done|done].
Qed.

(** ** What an operation on the file may change *)

(** The fields of the inode but the size, the time of change and the zones. *)
Definition other_field (m : nat) (o : Z) : Prop :=
  0 ≤ o ∧ (o + Z.of_nat m ≤ off + i_size ∨ off + i_gid ≤ o ∧ o + Z.of_nat m ≤ off + i_zone 0 ∨ off + i_zone 9 ≤ o).

(** The inode's size, time and zones, its zones and the zone bitmap; new zones
    come from the free ones. *)
Record changed (n : nat) (s s' : fs) : Prop := {
  ch_good : good s';
  ch_inode : inode_at s' n;
  ch_fields : ∀ m o, other_field m o → val m (blocks s') ikey o = val m (blocks s) ikey o;
  ch_keep : ∀ q, valid_slot q → zone_at (blocks s) q ≠ 0 → zone_at (blocks s') q = zone_at (blocks s) q;
  ch_new : ∀ q, valid_slot q → zone_at (blocks s') q = zone_at (blocks s) q ∨
    zone_at (blocks s) q = 0 ∧ in_zmap L (zone_at (blocks s') q) ∧ zone_used L (blocks s) (zone_at (blocks s') q) = false;
  ch_used : ∀ z, in_zmap L z → zone_used L (blocks s) z = true → zone_used L (blocks s') z = true;
  ch_same : ∀ k, k ≠ ikey → ¬ zmap_key L k → (∀ q, valid_slot q → zone_at (blocks s') q ≠ 0 → k ≠ (l_dev L, zone_at (blocks s') q)) →
    blocks s' !! k = blocks s !! k;
  ch_tables : super_table s' = super_table s ∧ file_table s' = file_table s ∧ task s' = task s ∧ now s' = now s ∧
    ∀ m, m ≠ n → inode_table s' !! m = inode_table s !! m }.

Lemma file_changed_refl n s : good s → inode_at s n → changed n s s.
Proof using. intros Hg Hi. split; try done; auto. Qed.

Lemma file_changed_trans n s s1 s2 : changed n s s1 → changed n s1 s2 → changed n s s2.
Proof using.
  intros [G I F K N U S T] [G' I' F' K' N' U' S' T']. split; try done.
  - intros m o Hr. rewrite F' by done. by apply F.
  - intros q Hq Hne. rewrite K' by (try done; by rewrite K). by apply K.
  - intros q Hq. destruct (N' q Hq) as [->|(H0 & Hin & Hu)]; [by apply N|]. right. split.
    + destruct (N q Hq) as [E|(? & _)]; [by rewrite E in H0|done].
    + split; [done|]. destruct (zone_used L (blocks s) _) eqn:Eu; [|done]. apply U in Eu; [congruence|done].
  - auto.
  - intros k Hk Hz Hq. rewrite S' by done. apply S; [done|done|]. intros q Hv Hne. rewrite <-(K' q Hv Hne). apply Hq; [done|by rewrite K'].
  - destruct T as (E1 & E2 & E3 & E4 & T), T' as (-> & -> & -> & -> & T'). repeat (split; [done|]).
    intros m Hm. by rewrite T', T.
Qed.

Lemma inode_frame s s' n : inode_at s n → inode_table s' = inode_table s → inode_at s' n.
Proof using. intros (i & H) E. exists i. by rewrite E. Qed.

Lemma changed_held n s s' h : changed n s s' → changed n s (s' <| held := h |>).
Proof using.
  intros [G I F K N U S T]. split; try done. destruct G as [Hla ? ? ? ? ?]. split; try done. by apply laid_out_held.
Qed.

Lemma changed_grows n s h bs' slot m : good (upd s h bs') → inode_at s n → valid_slot slot →
  grows L ib off slot m (blocks s) bs' → changed n s (upd s h bs').
Proof using.
  intros Hg Hi Hv Hgr. split; try done; change (blocks (upd s h bs')) with bs'.
  - intros m' o [Ho Hf]. apply (gr_inode _ _ _ _ _ _ _ Hgr); unfold i_size, i_gid, i_zone in *; lia.
  - apply (gr_keep _ _ _ _ _ _ _ Hgr).
  - apply (gr_new _ _ _ _ _ _ _ Hgr).
  - apply (gr_used _ _ _ _ _ _ _ Hgr).
  - intros k Hk Hz Hq. apply (gr_same _ _ _ _ _ _ _ Hgr); [done|done|]. intros (i & up & Hup & Hsuf & Hzu & ->).
    apply (Hq up); [|done|done]. eapply valid_up; [|done]. by apply (valid_suffix slot).
Qed.

Lemma same_tree_new bs bs' q : same_tree bs bs' → valid_slot q →
  zone_at bs' q = zone_at bs q ∨ zone_at bs q = 0 ∧ in_zmap L (zone_at bs' q) ∧ zone_used L bs (zone_at bs' q) = false.
Proof using. intros Hs Hq. left. by apply (sm_zone _ _ Hs). Qed.

Lemma changed_data n s h b o l : good s → inode_at s n → 0 ≤ b < TOTAL_BLOCK → zone_at (blocks s) (slot_of b) ≠ 0 → 0 ≤ o →
  Forall (λ v, 0 ≤ v < 256) l →
  changed n s (upd s h (put (blocks s) (l_dev L, zone_at (blocks s) (slot_of b)) o l)).
Proof using Hcover.
  intros Hg Hi Hb Hz Ho Hl. destruct (data_store s h b o l Hg Hb Hz Ho Hl) as [Hg' Hsm].
  pose proof (slot_of_valid b Hb) as Hv. destruct (zone_facts s _ Hg Hv Hz) as (Hk1 & _ & _).
  split; try done; change (blocks (upd s h ?x)) with x.
  - intros m x _. unfold val. by rewrite put_lookup_other.
  - intros q Hq _. by apply (sm_zone _ _ Hsm).
  - intros q. by apply same_tree_new.
  - intros z Hzz Hu. by rewrite (sm_used _ _ Hsm).
  - intros k _ _ Hk. rewrite put_lookup_other; [done|]. rewrite <-(sm_zone _ _ Hsm) by done. apply Hk; [done|].
    by rewrite (sm_zone _ _ Hsm).
Qed.

(** The size or the time of the inode, and a field of its entry in the table. *)
Lemma changed_inode n s o l (f : inode_t → inode_t) : good s → inode_at s n →
  off + i_size ≤ o → o + Z.of_nat (length l) ≤ off + i_gid → Forall (λ v, 0 ≤ v < 256) l →
  (∀ i, dev (f i) = dev i ∧ desc (f i) = desc i ∧ buf (f i) = buf i ∧ super (f i) = super i) →
  let bs' := put (blocks s) ikey o l in
  changed n s (s <| blocks := bs' |> <| inode_table $= alter f n |>) ∧ same_tree (blocks s) bs' ∧
  ∀ k, k ≠ ikey → bs' !! k = blocks s !! k.
Proof using Hcover.
  intros Hg Hi Ho Hl Hb Hf bs'. pose proof (gd_off _ _ _ _ _ Hg) as Hoff. unfold i_size, i_gid in *.
  destruct (inode_store s (held s) o l Hg) as [Hg2 Hsm]; [lia|done|unfold i_zone; lia|]. fold bs' in Hg2, Hsm.
  assert (∀ k, k ≠ ikey → bs' !! k = blocks s !! k) as Hlk by (intros k Hk; by apply put_lookup_other).
  split; [|done]. split; change (blocks (s <| blocks := bs' |> <| inode_table $= ?t |>)) with bs'.
  - destruct Hg2 as [Hla ? ? ? ? ?]. split; try done.
    by apply (laid_out_frame p L (upd s (held s) bs')); [..|intros; apply (lo_blocks _ _ _ Hla)|].
  - destruct Hi as (i & Hti & Hr). exists (f i). destruct (Hf i) as (-> & -> & -> & ->). split; [|done].
    change (inode_table (s <| blocks := bs' |> <| inode_table $= alter f n |>)) with (alter f n (inode_table s)).
    by rewrite list_lookup_alter_eq, Hti.
  - intros m x Hx. apply val_put_other. right. unfold other_field, i_size, i_gid, i_zone in *. lia.
  - intros q Hq _. by apply (sm_zone _ _ Hsm).
  - intros q. by apply same_tree_new.
  - intros z Hzz Hu. by rewrite (sm_used _ _ Hsm).
  - intros k Hk _ _. by apply Hlk.
  - repeat (split; [done|]). intros m Hm.
    change (inode_table (s <| blocks := bs' |> <| inode_table $= alter f n |>)) with (alter f n (inode_table s)).
    by rewrite list_lookup_alter_ne.
Qed.

(** ** Writing *)

(** [s'] is [s] with the bytes [data] written at [offset]. *)
Record written (n : nat) (offset : Z) (data : list Z) (s s' : fs) : Prop := {
  wr_changed : changed n s s';
  wr_data : ∀ i v, data !! i = Some v → byte_at (blocks s') (offset + Z.of_nat i) = Some v;
  wr_rest : ∀ o v, in_file o → o < offset ∨ offset + Z.of_nat (length data) ≤ o →
    byte_at (blocks s) o = Some v → byte_at (blocks s') o = Some v;
  wr_size : file_size (blocks s') =
    if (0 <? length data)%nat then Z.max (file_size (blocks s)) (offset + Z.of_nat (length data)) else file_size (blocks s);
  wr_held : ∃ h, leaked h ∧ held s' = h ⊎ held s }.

Lemma written_nil n offset s : good s → inode_at s n → written n offset [] s s.
Proof using.
  intros Hg Hi. split; [by apply file_changed_refl|done|done|done|].
  exists ∅. split; [apply leaked_empty|by rewrite gmultiset_disj_union_left_id].
Qed.

Lemma written_app n offset d1 d2 s s1 s2 : 0 ≤ offset → offset + Z.of_nat (length (d1 ++ d2)) ≤ TOTAL_BLOCK * BLOCK_SIZE →
  (0 < length d1)%nat → written n offset d1 s s1 → written n (offset + Z.of_nat (length d1)) d2 s1 s2 →
  written n offset (d1 ++ d2) s s2.
Proof using.
  clear Hcover. intros Ho Hmax Hd1 [C D R Z H] [C' D' R' Z' H']. rewrite length_app in Hmax. split.
  - by apply (file_changed_trans _ _ s1).
  - intros i v Hi. apply lookup_app_Some in Hi as [Hi|[Hge Hi]].
    + pose proof (lookup_lt_Some _ _ _ Hi). apply R'; [unfold in_file; lia|lia|by apply D].
    + apply D' in Hi. rewrite <-Hi. f_equal. lia.
  - intros o v Hin Hr Hb. rewrite length_app in Hr. apply R'; [done|lia|]. apply R; [done|lia|done].
  - rewrite Z', Z, length_app. destruct (Nat.ltb_spec 0 (length d1)), (Nat.ltb_spec 0 (length d2)), (Nat.ltb_spec 0 (length d1 + length d2)); lia.
  - destruct H as (h & Hl & E), H' as (h' & Hl' & E'). exists (h' ⊎ h). split; [by apply leaked_union|].
    rewrite E', E. multiset_solver.
Qed.

Section loop.
Context (E : stop → Prop).

(** One turn: the block is found or made, the size set and the bytes stored. *)
Lemma turn_written s h1 bs1 s2 h3 n b o d :
  good s → inode_at s n → in_file (b * BLOCK_SIZE + o) → 0 ≤ o → (0 < length d)%nat → o + Z.of_nat (length d) ≤ BLOCK_SIZE →
  b * BLOCK_SIZE + o + Z.of_nat (length d) ≤ TOTAL_BLOCK * BLOCK_SIZE → Forall (λ v, 0 ≤ v < 256) d →
  grows L ib off (slot_of b) 3 (blocks s) bs1 → good (upd s h1 bs1) → zone_at bs1 (slot_of b) ≠ 0 →
  changed n (upd s h1 bs1) s2 → same_tree bs1 (blocks s2) → (∀ k, k ≠ ikey → blocks s2 !! k = bs1 !! k) →
  file_size (blocks s2) = Z.max (file_size bs1) (b * BLOCK_SIZE + o + Z.of_nat (length d)) → leaked h3 →
  let s3 := upd s2 (h3 ⊎ held s) (put (blocks s2) (l_dev L, zone_at bs1 (slot_of b)) o d) in
  written n (b * BLOCK_SIZE + o) d s s3 ∧ (free_zones L (blocks s) ≤ free_zones L (blocks s3) + 3)%nat.
Proof using Hcover.
  intros Hg Hi Hin Ho Hd Hfit Hmax Hf Hgr Hg1 Hz Hch Hsm Hlk Hsz Hleak s3.
  assert ((b * BLOCK_SIZE + o) `div` BLOCK_SIZE = b) as Eb.
  { change BLOCK_SIZE with 1024 in *. Z.div_mod_to_equations. lia. }
  assert (0 ≤ b < TOTAL_BLOCK) as Hb by (rewrite <-Eb; by apply block_of).
  pose proof (slot_of_valid b Hb) as Hv. pose proof (ch_good _ _ _ Hch) as Hg2.
  assert (zone_at (blocks s2) (slot_of b) = zone_at bs1 (slot_of b)) as Ez by (by apply (sm_zone _ _ Hsm)).
  assert (zone_at (blocks s2) (slot_of b) ≠ 0) as Hz2 by (by rewrite Ez).
  pose proof (changed_data n s2 (h3 ⊎ held s) b o d Hg2 (ch_inode _ _ _ Hch) Hb Hz2 Ho Hf) as Hch3.
  destruct (data_store s2 (h3 ⊎ held s) b o d Hg2 Hb Hz2 Ho Hf) as [_ Hsm3].
  assert (∀ x, in_file x → byte_at (blocks s3) x = if (x `div` BLOCK_SIZE =? b) && (o <=? x `mod` BLOCK_SIZE) &&
    (x `mod` BLOCK_SIZE <? o + Z.of_nat (length d)) then d !! Z.to_nat (x `mod` BLOCK_SIZE - o) else byte_at (blocks s2) x) as Hbyte.
  { intros x Hx. unfold s3. rewrite <-Ez. by apply byte_at_store. }
  destruct (zone_facts s2 _ Hg2 Hv Hz2) as (Hk1 & _ & _). rewrite Ez in *. fold s3 in Hch3.
  change (put (blocks s2) (l_dev L, zone_at bs1 (slot_of b)) o d) with (blocks s3) in Hsm3. split.
  2: { rewrite (sm_free _ _ Hsm3), (sm_free _ _ Hsm). apply (gr_free _ _ _ _ _ _ _ Hgr). }
  split.
  - apply (file_changed_trans _ _ (upd s h1 bs1)); [|by apply (file_changed_trans _ _ s2)]. by apply (changed_grows _ _ _ _ (slot_of b) 3).
  - intros i v Hv'. pose proof (lookup_lt_Some _ _ _ Hv') as Hlt.
    assert ((b * BLOCK_SIZE + o + Z.of_nat i) `div` BLOCK_SIZE = b ∧
      (b * BLOCK_SIZE + o + Z.of_nat i) `mod` BLOCK_SIZE = o + Z.of_nat i) as [E1 E2].
    { change BLOCK_SIZE with 1024 in *. Z.div_mod_to_equations. lia. }
    rewrite Hbyte, E1, E2, Z.eqb_refl, (proj2 (Z.leb_le _ _)), (proj2 (Z.ltb_lt _ _)) by (unfold in_file in *; lia). cbn [andb].
    rewrite <-Hv'. f_equal. lia.
  - intros x v Hx Hr Hbx. pose proof (byte_at_grows s h1 bs1 b 3 x v Hg Hg1 Hb Hgr Hx Hbx) as Hb1.
    assert (byte_at (blocks s2) x = Some v) as Hb2.
    { rewrite <-Hb1. apply byte_at_same; [apply (sm_zone _ _ Hsm), slot_of_valid; by apply block_of|].
      apply Hlk. apply (zone_facts (upd s h1 bs1)); [done|apply slot_of_valid; by apply block_of|by eapply byte_at_zone]. }
    rewrite Hbyte by done. destruct (Z.eqb_spec (x `div` BLOCK_SIZE) b) as [Ex|]; [|done].
    pose proof (Z.div_mod x BLOCK_SIZE ltac:(done)) as Edm. rewrite Ex in Edm.
    destruct (Z.leb_spec o (x `mod` BLOCK_SIZE)), (Z.ltb_spec (x `mod` BLOCK_SIZE) (o + Z.of_nat (length d))); cbn [andb]; try done. lia.
  - assert (file_size (blocks s3) = file_size (blocks s2)) as ->.
    { unfold file_size, val, s3. change (blocks (upd s2 ?h ?x)) with x. by rewrite put_lookup_other. }
    rewrite Hsz, (proj2 (Nat.ltb_lt _ _)) by done. f_equal. pose proof (gd_off _ _ _ _ _ Hg).
    unfold file_size. apply (gr_inode _ _ _ _ _ _ _ Hgr); unfold i_size, i_zone; lia.
  - by exists h3.
Qed.

(** The size of the file, in the block of the inode and in the table. *)
Lemma wp_put_size s n size (Q : unit → fs → Prop) : good s → inode_at s n → 0 ≤ size < 2 ^ 31 →
  (∀ s', changed n s s' → same_tree (blocks s) (blocks s') → (∀ k, k ≠ ikey → blocks s' !! k = blocks s !! k) →
     file_size (blocks s') = size → held s' = held s → Q tt s') →
  wp E (do! st 4 ikey (off + i_size) size; mod_inode n (λ i, i <| Fs.size := size |>)) Q s.
Proof using Hcover.
  intros Hg Hi Hs HQ. pose proof (gd_off _ _ _ _ _ Hg) as Hoff.
  assert (in_block 4 (blocks s) ikey (off + i_size)) as Hin
    by (apply inode_in_block; [done|unfold i_size; lia|unfold i_size, sizeof_inode; lia]).
  apply wp_bind, wp_st; [exact Hin|]. apply wp_mod.
  destruct (changed_inode n s (off + i_size) (le_bytes 4 size) (λ i, i <| Fs.size := size |>) Hg Hi) as (Hch & Hsm & Hlk);
    [lia|rewrite length_le_bytes; unfold i_size, i_gid; lia|apply le_bytes_range|done|].
  apply HQ; [done|done|done| |done].
  unfold file_size. change (blocks (s <| blocks := ?x |> <| inode_table $= ?t |>)) with x. rewrite val_put_same by done.
  apply Z.mod_small. change (256 ^ Z.of_nat 4) with (2 ^ 32). lia.
Qed.

Lemma wp_set_size s n size (Q : unit → fs → Prop) : good s → inode_at s n → 0 ≤ size < 2 ^ 31 →
  (∀ s', changed n s s' → same_tree (blocks s) (blocks s') → (∀ k, k ≠ ikey → blocks s' !! k = blocks s !! k) →
     file_size (blocks s') = Z.max (file_size (blocks s)) size → held s' = held s → Q tt s') →
  wp E (st_when (file_size (blocks s) <? u32 size)
     (do! st 4 ikey (off + i_size) size; mod_inode n (λ i, i <| Fs.size := u32 size |>))) Q s.
Proof using Hcover.
  intros Hg Hi Hs HQ. rewrite u32_small by lia.
  destruct (Z.ltb_spec (file_size (blocks s)) size) as [Hlt|Hge]; unfold st_when.
  - apply wp_put_size; [done|done|done|]. intros s' Hch Hsm Hlk Hsz. apply HQ; [done|done|done|lia].
  - apply wp_ret, HQ; [by apply file_changed_refl|by split|done|lia|done].
Qed.

(** The number of blocks that [len] bytes from [offset] on touch. *)
Definition blocks_of (offset len : Z) : Z :=
  if len =? 0 then 0 else (offset + len - 1) `div` BLOCK_SIZE - offset `div` BLOCK_SIZE + 1.

Lemma blocks_of_step offset len : 0 ≤ offset → 0 < len →
  let c := Z.min (BLOCK_SIZE - offset `mod` BLOCK_SIZE) len in
  0 < c ∧ blocks_of offset len = 1 + blocks_of (offset + c) (len - c).
Proof using.
  intros Ho Hl c. unfold blocks_of. change BLOCK_SIZE with 1024 in *. unfold c in *. clear c.
  destruct (Z.eqb_spec len 0), (Z.eqb_spec (len - Z.min (1024 - offset `mod` 1024) len) 0); Z.div_mod_to_equations; lia.
Qed.

Lemma wp_write_turn fuel s n data offset (Q : Z → fs → Prop) :
  let len := Z.of_nat (length data) in
  let c := Z.min (BLOCK_SIZE - offset `mod` BLOCK_SIZE) len in
  good s → inode_at s n → 0 < len → 0 ≤ offset → offset + len ≤ TOTAL_BLOCK * BLOCK_SIZE →
  Forall (λ v, 0 ≤ v < 256) data → (2 < free_zones L (blocks s))%nat →
  (∀ s', written n offset (take (Z.to_nat c) data) s s' → (free_zones L (blocks s) ≤ free_zones L (blocks s') + 3)%nat →
     wp E (write_loop fuel n ikey off (drop (Z.to_nat c) data) (len - c) (offset + c)) Q s') →
  wp E (write_loop (S fuel) n ikey off data len offset) Q s.
Proof using Hcover.
  intros len c Hg Hi Hlen Ho Hmax Hf Hfree HQ. cbn [write_loop]. rewrite (proj2 (Z.eqb_neq _ _)) by lia.
  assert (in_file offset) as Hof by (unfold in_file; lia).
  pose proof (block_of offset Hof) as Hb. set (b := offset `div` BLOCK_SIZE) in *. set (o := offset `mod` BLOCK_SIZE) in *.
  assert (0 ≤ o < BLOCK_SIZE) as Hor by (by apply Z.mod_pos_bound).
  assert (offset = b * BLOCK_SIZE + o) as Eo by (pose proof (Z.div_mod offset BLOCK_SIZE ltac:(done)); unfold b, o; lia).
  assert (TOTAL_BLOCK * BLOCK_SIZE = 268966912 ∧ BLOCK_SIZE = 1024) as [Emax Ebs] by done. 
  assert (u32 (Z.quot offset BLOCK_SIZE) = b) as ->.
  { rewrite Z.quot_div_nonneg by done. fold b. apply u32_small. change TOTAL_BLOCK with 262663 in Hb. lia. }
  assert (u32 (Z.rem offset BLOCK_SIZE) = o) as -> by (rewrite Z.rem_mod_nonneg by done; apply u32_small; fold o; lia).
  change (Z.min (BLOCK_SIZE - o) len) with c. assert (0 < c ≤ len ∧ o + c ≤ BLOCK_SIZE) as Hc.
  { unfold c. change BLOCK_SIZE with 1024. lia. }
  rewrite (s32_small (offset + c)) by lia. clearbody c.
  apply wp_bind, (wp_bmap L ib off p Hcover E s n b true); [done|done|done|done|].
  intros bs1 h1 Hleak Hgr Hg1 Hz _. specialize (Hz eq_refl). pose proof (slot_of_valid b Hb) as Hv.
  destruct (zone_facts (upd s (h1 ⊎ held s) bs1) _ Hg1 Hv Hz) as (Hk1 & Hk2 & Hzr).
  change (blocks (upd s ?h bs1)) with bs1 in *.
  apply wp_bind, wp_check_true; [by apply negb_true_iff, Z.eqb_neq|].
  pose proof Hi as (i & Hti & Hdev & _). apply wp_bind. eapply wp_deref; [exact Hti|]. rewrite Hdev.
  set (kz := (l_dev L, zone_at bs1 (slot_of b))) in *.
  destruct (lo_blocks _ _ _ (gd_laid _ _ _ _ _ Hg1) _ Hzr) as (blk & Hblk & Hblen & _). change (blocks (upd s ?h bs1)) with bs1 in Hblk.
  apply wp_bind, wp_bread_block; [by eexists|].
  set (s2 := upd s ({[+ kz +]} ⊎ (h1 ⊎ held s)) bs1).
  change (upd s (h1 ⊎ held s) bs1 <| held $= λ x, {[+ kz +]} ⊎ x |>) with s2.
  assert (good s2) as Hg2 by (by apply (good_upd L ib off p s (h1 ⊎ held s))).
  apply wp_bind, wp_ld.
  { pose proof (gd_off _ _ _ _ _ Hg). apply inode_in_block; [done|unfold i_size; lia|unfold i_size, sizeof_inode; lia]. }
  fold (file_size (blocks s2)). apply wp_bind, (wp_set_size s2 n (offset + c)); [done|by apply (inode_frame s)|lia|].
  intros s3 Hch Hsm Hlk Hsz Hh3. change (blocks s2) with bs1 in *.
  assert (length (take (Z.to_nat c) data) = Z.to_nat c) as Hlt by (rewrite length_take; lia).
  apply wp_bind, wp_store_bytes.
  { exists blk. rewrite Hlk by done. split; [done|]. rewrite Hlt. lia. }
  apply wp_bind, wp_brelse.
  { change (held (s3 <| blocks := ?x |>)) with (held s3). rewrite Hh3. change (held s2) with ({[+ kz +]} ⊎ (h1 ⊎ held s)). multiset_solver. }
  assert (changed n (upd s (h1 ⊎ held s) bs1) s3) as Hch2.
  { apply (file_changed_trans _ _ s2); [|done]. apply (changed_held _ _ (upd s (h1 ⊎ held s) bs1)), file_changed_refl; [done|].
    by apply (inode_frame s). }
  destruct (turn_written s (h1 ⊎ held s) bs1 s3 h1 n b o (take (Z.to_nat c) data)) as [Hw Hfr];
    rewrite ?Hlt, ?Z2Nat.id, <-?Eo by lia; try done; try lia; [by apply Forall_take|].
  rewrite <-Eo in Hw. fold kz in Hw, Hfr.
  match goal with |- wp E _ Q ?x => assert (x = upd s3 (h1 ⊎ held s) (put (blocks s3) kz o (take (Z.to_nat c) data))) as -> end.
  { unfold upd, modify. cbn. f_equal. apply release_eq. rewrite Hh3. done. }
  by apply HQ.
Qed.

Lemma wp_write_loop fuel n : ∀ s data offset (Q : Z → fs → Prop),
  let len := Z.of_nat (length data) in
  good s → inode_at s n → 0 ≤ offset → offset + len ≤ TOTAL_BLOCK * BLOCK_SIZE → (length data < fuel)%nat →
  Forall (λ v, 0 ≤ v < 256) data → 3 * blocks_of offset len ≤ Z.of_nat (free_zones L (blocks s)) →
  (∀ s', written n offset data s s' → Q (offset + len) s') →
  wp E (write_loop fuel n ikey off data len offset) Q s.
Proof using Hcover.
  induction fuel as [|fuel IH]; intros s data offset Q len Hg Hi Ho Hmax Hfu Hf Hfree HQ; [lia|].
  destruct (decide (len = 0)) as [E0|Hlen].
  - cbn [write_loop]. rewrite E0. cbn [Z.eqb]. apply wp_ret. rewrite E0, Z.add_0_r in HQ. apply HQ.
    destruct data; [|unfold len in E0; cbn in E0; lia]. by apply written_nil.
  - destruct (blocks_of_step offset len Ho ltac:(lia)) as [Hc Hn]. cbn zeta in Hn.
    set (c := Z.min (BLOCK_SIZE - offset `mod` BLOCK_SIZE) len) in *.
    assert (0 ≤ blocks_of (offset + c) (len - c)) as Hnn.
    { unfold blocks_of. change BLOCK_SIZE with 1024. destruct (Z.eqb_spec (len - c) 0); [lia|].
      assert (c ≤ len) by (unfold c; lia). Z.div_mod_to_equations; lia. }
    apply wp_write_turn; try done; [lia|lia|]. fold len c. intros s' Hw Hfr. pose proof (ch_good _ _ _ (wr_changed _ _ _ _ _ Hw)) as Hg'.
    assert (c ≤ len) as Hcl by (unfold c; lia).
    assert (length (take (Z.to_nat c) data) = Z.to_nat c) as Hlt by (rewrite length_take; lia).
    assert (Z.of_nat (length (drop (Z.to_nat c) data)) = len - c) as Hld by (rewrite length_drop; lia).
    rewrite <-Hld. apply IH; rewrite ?Hld; [done|apply (ch_inode _ _ _ (wr_changed _ _ _ _ _ Hw))|lia|lia| |by apply Forall_drop|lia|].
    + rewrite length_drop. lia.
    + intros s2 Hw2. replace (offset + c + (len - c)) with (offset + len) by lia. apply HQ.
      rewrite <-(take_drop (Z.to_nat c) data). apply (written_app _ _ _ _ _ s'); [done|rewrite take_drop; lia|lia|done|].
      rewrite Hlt, Z2Nat.id by lia. exact Hw2.
Qed.

(** The times at the end of [minix_write]. *)
Definition touched (s : fs) (n : nat) : fs :=
  s <| blocks := put (blocks s) ikey (off + i_mtime) (le_bytes 4 (now s)) |>
    <| inode_table $= alter (λ i, i <| atime := now s |>) n |>.

Lemma touched_changed s n : good s → inode_at s n →
  changed n s (touched s n) ∧ same_tree (blocks s) (blocks (touched s n)) ∧
  (∀ k, k ≠ ikey → blocks (touched s n) !! k = blocks s !! k) ∧
  file_size (blocks (touched s n)) = file_size (blocks s) ∧ val 4 (blocks (touched s n)) ikey (off + i_mtime) = u32 (now s).
Proof using Hcover.
  intros Hg Hi. pose proof (gd_off _ _ _ _ _ Hg) as Hoff.
  destruct (changed_inode n s (off + i_mtime) (le_bytes 4 (now s)) (λ i, i <| atime := now s |>) Hg Hi) as (Hch & Hsm & Hlk);
    [unfold i_size, i_mtime; lia|rewrite length_le_bytes; unfold i_mtime, i_gid; lia|apply le_bytes_range|done|].
  split; [done|]. split; [done|]. split; [done|]. change (blocks (touched s n)) with (put (blocks s) ikey (off + i_mtime) (le_bytes 4 (now s))).
  split; [unfold file_size; apply val_put_other; right; rewrite length_le_bytes; unfold i_size, i_mtime; lia|].
  rewrite val_put_same; [done|]. apply inode_in_block; [done|unfold i_mtime; lia|unfold i_mtime, sizeof_inode; lia].
Qed.

Lemma touched_written s s1 n offset data : 0 ≤ offset → offset + Z.of_nat (length data) ≤ TOTAL_BLOCK * BLOCK_SIZE →
  written n offset data s s1 →
  written n offset data s (touched s1 n) ∧ val 4 (blocks (touched s1 n)) ikey (off + i_mtime) = u32 (now s).
Proof using Hcover.
  intros Ho Hmax [C D R Z H]. pose proof (ch_good _ _ _ C) as G.
  destruct (touched_changed s1 n G (ch_inode _ _ _ C)) as (Hch & Hsm & Hlk & Hsz & Ht).
  assert (∀ x v, in_file x → byte_at (blocks s1) x = Some v → byte_at (blocks (touched s1 n)) x = Some v) as Hbyte.
  { intros x v Hx Hv. rewrite <-Hv. pose proof (block_of x Hx) as Hb. apply byte_at_same.
    - apply (sm_zone _ _ Hsm). by apply slot_of_valid.
    - apply Hlk. apply (zone_facts s1); [done|by apply slot_of_valid|by eapply byte_at_zone]. }
  split; [|destruct (ch_tables _ _ _ C) as (_ & _ & _ & En & _); by rewrite Ht, En]. split.
  - by apply (file_changed_trans _ _ s1).
  - intros i v Hi. pose proof (lookup_lt_Some _ _ _ Hi). apply Hbyte; [unfold in_file; lia|]. by apply D.
  - intros o v Hin Hr Hv. apply Hbyte; [done|]. by apply R.
  - by rewrite Hsz.
  - exact H.
Qed.

(** ** Reading *)
Lemma wp_read_loop fuel n : ∀ s lft offset acc (Q : Z * list Z → fs → Prop),
  good s → inode_at s n → 0 ≤ offset → 0 ≤ lft → offset + lft ≤ TOTAL_BLOCK * BLOCK_SIZE → (Z.to_nat lft < fuel)%nat →
  (∀ x, offset ≤ x < offset + lft → is_Some (byte_at (blocks s) x)) →
  (∀ l, Z.of_nat (length l) = lft → (∀ i, (i < length l)%nat → l !! i = byte_at (blocks s) (offset + Z.of_nat i)) →
     Q (offset + lft, acc ++ l) s) →
  wp E (read_loop fuel n lft offset acc) Q s.
Proof using Hcover.
  induction fuel as [|fuel IH]; intros s lft offset acc Q Hg Hi Ho Hl Hmax Hfu Hby HQ; [lia|]. cbn [read_loop].
  destruct (Z.eqb_spec lft 0) as [->|Hne].
  { apply wp_ret. pose proof (HQ [] eq_refl ltac:(cbn; lia)) as HQ0. by rewrite app_nil_r, Z.add_0_r in HQ0. }
  assert (in_file offset) as Hof by (unfold in_file; lia).
  pose proof (block_of offset Hof) as Hb. set (b := offset `div` BLOCK_SIZE) in *. set (o := offset `mod` BLOCK_SIZE) in *.
  assert (0 ≤ o < BLOCK_SIZE) as Hor by (by apply Z.mod_pos_bound).
  assert (offset = b * BLOCK_SIZE + o) as Eo by (pose proof (Z.div_mod offset BLOCK_SIZE ltac:(done)); unfold b, o; lia).
  assert (TOTAL_BLOCK * BLOCK_SIZE = 268966912 ∧ BLOCK_SIZE = 1024) as [Emax Ebs] by done.
  assert (u32 (Z.quot offset BLOCK_SIZE) = b) as ->.
  { rewrite Z.quot_div_nonneg by done. fold b. apply u32_small. change TOTAL_BLOCK with 262663 in Hb. lia. }
  assert (u32 (Z.rem offset BLOCK_SIZE) = o) as -> by (rewrite Z.rem_mod_nonneg by done; apply u32_small; fold o; lia).
  set (c := Z.min (BLOCK_SIZE - o) lft). assert (0 < c ≤ lft ∧ o + c ≤ BLOCK_SIZE) as Hc by (unfold c; lia). clearbody c.
  rewrite (s32_small (offset + c)) by lia.
  pose proof (slot_of_valid b Hb) as Hv.
  assert (zone_at (blocks s) (slot_of b) ≠ 0) as Hz by (destruct (Hby offset ltac:(lia)) as [v Hv0]; by apply byte_at_zone in Hv0).
  apply wp_bind, (wp_bmap L ib off p Hcover E s n b false); [done|done|done|done|].
  intros bs1 h1 _ _ _ _ Hn. destruct (Hn (or_introl eq_refl)) as [-> ->]. clear Hn.
  assert (upd s (∅ ⊎ held s) (blocks s) = s) as -> by (unfold upd; rewrite gmultiset_disj_union_left_id; by destruct s).
  apply wp_bind, wp_check_true; [by apply negb_true_iff, Z.eqb_neq|].
  pose proof Hi as (i & Hti & Hdev & _). apply wp_bind. eapply wp_deref; [exact Hti|]. rewrite Hdev.
  destruct (zone_facts s _ Hg Hv Hz) as (_ & _ & Hzr).
  destruct (lo_blocks _ _ _ (gd_laid _ _ _ _ _ Hg) _ Hzr) as (blk & Hblk & Hblen & _).
  apply wp_bind, wp_bread_block; [by eexists|]. apply wp_bind. eapply wp_deref; [exact Hblk|].
  apply wp_bind, wp_brelse; [change (held (s <| held $= ?f |>)) with (f (held s)); multiset_solver|].
  set (kz := (l_dev L, zone_at (blocks s) (slot_of b))).
  assert (s <| held $= λ h, {[+ kz +]} ⊎ h |> <| held $= λ h, h ∖ {[+ kz +]} |> = s) as ->.
  { pose proof (released s kz (blocks s)) as Er. by rewrite same_blocks in Er. }
  assert (length (slice (Z.to_nat o) (Z.to_nat c) blk) = Z.to_nat c) as Hls by (apply length_slice; lia).
  apply IH; [done|done|lia|lia|lia|lia|intros x Hx; apply Hby; lia|].
  intros l Hll Hlk. rewrite <-app_assoc. replace (offset + c + (lft - c)) with (offset + lft) by lia. apply HQ.
  - rewrite length_app, Hls. lia.
  - intros m Hm. rewrite length_app, Hls in Hm. destruct (decide (m < Z.to_nat c)%nat) as [Hlt|Hge].
    + rewrite lookup_app_l by lia. rewrite lookup_slice by done.
      assert ((offset + Z.of_nat m) `div` BLOCK_SIZE = b ∧ (offset + Z.of_nat m) `mod` BLOCK_SIZE = o + Z.of_nat m) as [E1 E2]
        by (rewrite Ebs in *; Z.div_mod_to_equations; lia).
      unfold byte_at. rewrite E1, E2, (proj2 (Z.eqb_neq _ _)), Hblk by done. cbn [mbind option_bind]. f_equal. lia.
    + rewrite lookup_app_r, Hls, Hlk by lia. f_equal. lia.
Qed.

(** ** The operations *)
Context (device_get : Z → ST fs unit) (device_read : Z → Z → Z → ST fs (Z * list Z)).
Context (device_write : Z → list Z → Z → Z → ST fs Z).

Definition regular (bs : gmap key (list Z)) : Prop := ISFILE (val 2 bs ikey (off + i_mode)) = true.

Lemma file_mode m : ISFILE m = true → ISCHR m = false ∧ ISBLK m = false.
Proof using. unfold ISFILE, ISCHR, ISBLK. intros H. apply Z.eqb_eq in H. by rewrite H. Qed.

Lemma wp_write s n data offset (Q : Z → fs → Prop) :
  let len := Z.of_nat (length data) in
  good s → inode_at s n → regular (blocks s) → 0 ≤ offset → offset + len ≤ TOTAL_BLOCK * BLOCK_SIZE →
  Forall (λ v, 0 ≤ v < 256) data → 3 * blocks_of offset len ≤ Z.of_nat (free_zones L (blocks s)) →
  (∀ s', written n offset data s s' → val 4 (blocks s') ikey (off + i_mtime) = u32 (now s) → Q len s') →
  wp E (minix_write device_get device_write n data offset) Q s.
Proof using Hcover.
  intros len Hg Hi Hreg Ho Hmax Hf Hfree HQ. destruct (file_mode _ Hreg) as [Hc Hb]. pose proof (gd_off _ _ _ _ _ Hg) as Hoff.
  assert (TOTAL_BLOCK * BLOCK_SIZE = 268966912) as Emax by done.
  pose proof Hi as (i & Hti & _ & Hdi & _). unfold minix_write. apply wp_bind. eapply wp_deref; [exact Hti|].
  apply wp_bind. eapply wp_deref; [exact Hdi|].
  apply wp_bind, wp_ld; [apply inode_in_block; [done|unfold i_mode; lia|unfold i_mode, sizeof_inode; lia]|].
  rewrite Hc, Hb. apply wp_bind, wp_check_true; [exact Hreg|]. apply wp_bind. rewrite u32_small by lia.
  apply wp_write_loop; try done; [lia|]. intros s1 Hw. fold len.
  pose proof (wr_changed _ _ _ _ _ Hw) as [Hg1 Hi1 _ _ _ _ _ _].
  destruct (touched_written s s1 n offset data Ho Hmax Hw) as [Hw2 Ht].
  apply wp_bind, wp_gets, wp_bind, wp_st; [apply inode_in_block; [done|unfold i_mtime; lia|unfold i_mtime, sizeof_inode; lia]|].
  apply wp_bind, wp_mod, wp_ret. rewrite s32_small by lia. replace (offset + len - offset) with len by lia.
  apply (HQ (touched s1 n)); done.
Qed.

Lemma wp_read s n len offset (Q : Z * list Z → fs → Prop) :
  let m := Z.min len (file_size (blocks s) - offset) in
  good s → inode_at s n → regular (blocks s) → 0 ≤ offset < 2 ^ 31 → 0 ≤ len < 2 ^ 31 → file_size (blocks s) ≤ TOTAL_BLOCK * BLOCK_SIZE →
  (∀ x, offset ≤ x < offset + m → is_Some (byte_at (blocks s) x)) →
  (file_size (blocks s) ≤ offset → Q (EOF, []) s) →
  (∀ l, offset < file_size (blocks s) → Z.of_nat (length l) = m →
     (∀ i, (i < length l)%nat → l !! i = byte_at (blocks s) (offset + Z.of_nat i)) →
     Q (m, l) (s <| inode_table $= alter (λ i, i <| atime := now s |>) n |>)) →
  wp E (minix_read device_get device_read n len offset) Q s.
Proof using Hcover.
  intros m Hg Hi Hreg Ho Hlen Hsz Hby HQe HQ. destruct (file_mode _ Hreg) as [Hc Hb]. pose proof (gd_off _ _ _ _ _ Hg) as Hoff.
  assert (TOTAL_BLOCK * BLOCK_SIZE = 268966912) as Emax by done. change (2 ^ 31) with 2147483648 in Hlen, Ho.
  pose proof Hi as (i & Hti & _ & Hdi & _). unfold minix_read. apply wp_bind. eapply wp_deref; [exact Hti|].
  apply wp_bind. eapply wp_deref; [exact Hdi|].
  apply wp_bind, wp_ld; [apply inode_in_block; [done|unfold i_mode; lia|unfold i_mode, sizeof_inode; lia]|].
  rewrite Hc, Hb. apply wp_bind, wp_check_true; [by rewrite Hreg|].
  apply wp_bind, wp_ld; [apply inode_in_block; [done|unfold i_size; lia|unfold i_size, sizeof_inode; lia]|].
  fold (file_size (blocks s)).
  rewrite (u32_small offset) by lia.
  destruct (Z.leb_spec (file_size (blocks s)) offset) as [Hge|Hlt]; [by apply wp_ret, HQe|].
  rewrite !u32_small by lia. fold m. apply wp_bind.
  apply wp_read_loop; try done; [lia|unfold m; lia|unfold m; lia|lia|].
  intros l Hl Hlk. apply wp_bind, wp_gets, wp_bind, wp_mod, wp_ret. cbn [fst snd app].
  replace (offset + m - offset) with m by lia. rewrite s32_small by (unfold m; lia). by apply HQ.
Qed.
End loop.
End file.

(** C2: writing [data] at an offset of a regular file and reading it back gives
    [data].  The write changes the bytes of its range only (those past the end of
    the file may come from zones that were free), sets the size and the time,
    takes free zones only, and leaves every block but the inode, the zone bitmap
    and the zones of the file as it was.  It needs three free zones for each block
    it touches: one for data and two for indices. *)
Theorem write_read L ib off p (s : fs) (n : nat) (data : list Z) (offset : Z) device_get device_read device_write
    (Hcover : l_zones L ≤ l_fdz L - 1 + l_zmap L * BLOCK_BITS)
    (Hg : good L ib off p s) (Hi : inode_at L ib off p s n) (Hreg : regular L ib off (blocks s))
    (Hsize : file_size L ib off (blocks s) ≤ TOTAL_BLOCK * BLOCK_SIZE)
    (Hbytes : Forall (λ v, 0 ≤ v < 256) data) (Hlen : (0 < length data)%nat)
    (Hrange : 0 ≤ offset ∧ offset + Z.of_nat (length data) ≤ TOTAL_BLOCK * BLOCK_SIZE)
    (Hfree : 3 * blocks_of offset (Z.of_nat (length data)) ≤ Z.of_nat (free_zones L (blocks s))) :
  wp no_stop (minix_write device_get device_write n data offset) (λ r s',
    r = Z.of_nat (length data) ∧ written L ib off p n offset data s s' ∧
    val 4 (blocks s') (ikey L ib) (off + i_mtime) = u32 (now s) ∧
    wp no_stop (minix_read device_get device_read n (Z.of_nat (length data)) offset) (λ r s2,
      r = (Z.of_nat (length data), data) ∧ blocks s2 = blocks s' ∧ held s2 = held s') s') s.
Proof.
  destruct Hrange as [Ho Hmax]. assert (TOTAL_BLOCK * BLOCK_SIZE = 268966912) as Emax by done.
  apply (wp_write L ib off p Hcover); try done. intros s' Hw Ht. split; [done|]. split; [done|]. split; [done|].
  pose proof (gd_off _ _ _ _ _ Hg) as Hoff.
  assert (file_size L ib off (blocks s') = Z.max (file_size L ib off (blocks s)) (offset + Z.of_nat (length data))) as Es.
  { rewrite (wr_size _ _ _ _ _ _ _ _ _ Hw). by rewrite (proj2 (Nat.ltb_lt _ _)). }
  assert (Z.min (Z.of_nat (length data)) (file_size L ib off (blocks s') - offset) = Z.of_nat (length data)) as Em by lia.
  assert (∀ i, (i < length data)%nat → byte_at L ib off (blocks s') (offset + Z.of_nat i) = data !! i) as Hd.
  { intros i Hlt. destruct (lookup_lt_is_Some_2 data i Hlt) as [v Hv]. rewrite Hv. by apply (wr_data _ _ _ _ _ _ _ _ _ Hw). }
  pose proof (wr_changed _ _ _ _ _ _ _ _ _ Hw) as [Hg' Hi' _ _ _ _ _ _].
  apply (wp_read L ib off p Hcover); [done|done| |lia|lia|lia| |lia|].
  - unfold regular. rewrite (ch_fields _ _ _ _ _ _ _ (wr_changed _ _ _ _ _ _ _ _ _ Hw)); [done|]. unfold other_field, i_mode, i_size. lia.
  - rewrite Em. intros x Hx. assert (x = offset + Z.of_nat (Z.to_nat (x - offset))) as -> by lia.
    rewrite Hd by lia. apply lookup_lt_is_Some_2. lia.
  - rewrite Em. intros l _ Hl Hlk. split; [|done]. f_equal. apply list_eq_same_length with (length data); [done|lia|].
    intros i x y Hlt Hx Hy. rewrite Hlk, Hd in Hx by lia. congruence.
Qed.
