(* ===== verification/MinixDir.v ===== *)
(** * Directories ([find_entry], [add_entry] of [src/src/fs/minix/minix.c] and
    [match_name] of [src/src/fs/namei.c])

    A directory is a list of entries: an inode number, 0 for an entry that is
    free, and a name.  [find_entry] is the search of the list, [add_entry] takes
    the first free entry or appends one. *)
From stdpp Require Import gmultiset.
From S2P Require Import Prelude Fs Minix MinixZone MinixMap MinixBmap MinixFile.
From S2P Require Str.
Open Scope Z_scope.

(** ** Names *)
Definition name_char (c : Z) : Prop := 0 < c < 256 ∧ Str.IS_SEPARATOR c = false.
Definition name_ok (nm : list Z) : Prop := (length nm <= 13)%nat ∧ Forall name_char nm.

(** The rest of a path after a component. *)
Definition path_rest (rest : list Z) : Prop := rest = [] ∨ Str.IS_SEPARATOR (char_at rest) = true.

Lemma separator_char c : Str.IS_SEPARATOR c = true → c ≠ 0.
Proof. by intros H ->. Qed.

Lemma match_loop_spec c : ∀ nm rest junk cnt, Forall name_char c → Forall name_char nm → path_rest rest →
  Z.of_nat (length nm) < cnt →
  ∃ lhs r cnt', match_loop (c ++ rest) (nm ++ 0 :: junk) cnt = Ok (lhs, r, cnt') ∧ 0 < cnt' ∧
    ((c = nm ∧ lhs = rest ∧ r = 0) ∨
     (c ≠ nm ∧ (r ≠ 0 ∨ char_at lhs ≠ 0 ∧ Str.IS_SEPARATOR (char_at lhs) = false))).
Proof.
  induction c as [|a c IH]; intros nm rest junk cnt Hc Hnm Hr Hcnt.
  - destruct nm as [|b nm]; cbn [app match_loop].
    + eexists _, _, _. rewrite andb_false_r. split; [done|]. split; [done|]. by left.
    + apply Forall_cons in Hnm as [[Hb Hsep] _].
      assert (char_at rest =? b = false ∨ char_at rest = 0) as Hne.
      { destruct Hr as [->|Hr]; [by right|left]. apply Z.eqb_neq. congruence. }
      assert ((char_at rest =? b) && negb (char_at rest =? 0) && negb (b =? 0) = false) as ->.
      { destruct Hne as [->| ->]; [done|]. by rewrite andb_false_r. }
      eexists _, _, _. split; [done|]. split; [lia|]. right. split; [done|]. left. lia.
  - apply Forall_cons in Hc as [[Ha Hsepa] Hc]. destruct nm as [|b nm]; cbn [app match_loop char_at hd].
    + eexists _, _, _. rewrite andb_false_r. split; [done|]. split; [done|]. right. split; [done|]. right.
      cbn. split; [lia|done].
    + pose proof Hnm as Hnm'. apply Forall_cons in Hnm' as [[Hb Hsep] Hnm2].
      destruct (Z.eqb_spec a b) as [->|Hab].
      * rewrite (proj2 (Z.eqb_neq b 0)) by lia. cbn [andb negb]. cbn [length] in Hcnt.
        rewrite (proj2 (Z.eqb_neq cnt 0)) by lia. cbn [tl].
        destruct (IH nm rest junk (cnt - 1) Hc Hnm2 Hr ltac:(lia)) as (lhs & r & cnt' & -> & Hp & Hcase).
        eexists _, _, _. split; [done|]. split; [done|]. destruct Hcase as [(-> & -> & ->)|[Hne Hcase]]; [by left|right].
        split; [congruence|done].
      * cbn [andb]. eexists _, _, _. split; [done|]. split; [lia|]. right. split; [congruence|]. left. lia.
Qed.

Lemma match_name_spec c nm rest junk : Forall name_char c → name_ok nm → path_rest rest →
  match_name (c ++ rest) (nm ++ 0 :: junk) MINIX1_NAME_LEN = Ok (if decide (c = nm) then Some (tl rest) else None).
Proof.
  intros Hc [Hl Hnm] Hr. unfold match_name.
  destruct (match_loop_spec c nm rest junk MINIX1_NAME_LEN Hc Hnm Hr) as (lhs & r & cnt' & -> & Hp & Hcase).
  { unfold MINIX1_NAME_LEN. lia. }
  cbn [res_bind]. destruct Hcase as [(-> & -> & ->)|(Hne & Hcase)].
  - rewrite decide_True by done. cbn [Z.eqb negb andb].
    destruct Hr as [->|Hr]; [done|]. rewrite Hr. cbn [negb]. by rewrite andb_false_r.
  - rewrite decide_False by done. rewrite (proj2 (Z.eqb_neq cnt' 0)) by lia.
    destruct (Z.eqb_spec r 0) as [->|Hr0]; [|done]. cbn [negb andb].
    destruct Hcase as [?|[H1 H2]]; [done|]. by rewrite H2, (proj2 (Z.eqb_neq _ 0)).
Qed.

(** ** Directories as lists *)
Abbreviation entry := (Z * list Z)%type.

(** The first entry in use with the name. *)
Definition dir_find (l : list entry) (c : list Z) : option nat :=
  find_from (λ e : entry, negb (e.1 =? 0) && bool_decide (e.2 = c)) l 0.
(** The first free entry, or the end. *)
Definition dir_free (l : list entry) : nat := default (length l) (find_from (λ e : entry, e.1 =? 0) l 0).
Definition dir_put (l : list entry) (i : nat) (e : entry) : list entry :=
  if (i <? length l)%nat then <[i := e]> l else l ++ [e].

Lemma dir_free_spec l : (dir_free l ≤ length l)%nat ∧ (∀ m e, (m < dir_free l)%nat → l !! m = Some e → e.1 ≠ 0) ∧
  (∀ e, l !! dir_free l = Some e → e.1 = 0).
Proof.
  unfold dir_free. destruct (find_from _ l 0) as [i|] eqn:Ei; cbn [default from_option]; unfold id.
  - apply find_from_Some in Ei as (x & Hx & Hp & Hmin). pose proof (lookup_lt_Some _ _ _ Hx). split; [lia|]. split.
    + intros m e Hm He. by apply Z.eqb_neq, (Hmin m e).
    + intros e He. simplify_eq. by apply Z.eqb_eq.
  - split; [done|]. pose proof (proj1 (find_from_None _ l) Ei) as Hall. split.
    + intros m e _ He. by apply Z.eqb_neq, (Hall m e).
    + intros e He. by rewrite lookup_ge_None_2 in He by lia.
Qed.

Lemma dir_put_lookup l i e j : (i ≤ length l)%nat → dir_put l i e !! j = if decide (j = i) then Some e else l !! j.
Proof.
  intros Hi. unfold dir_put. destruct (Nat.ltb_spec i (length l)).
  - destruct (decide (j = i)) as [->|]; [by rewrite list_lookup_insert_eq|by rewrite list_lookup_insert_ne].
  - assert (i = length l) as -> by lia. destruct (decide (j = length l)) as [->|]; [by rewrite list_lookup_middle|].
    destruct (decide (j < length l)%nat); [by rewrite lookup_app_l|].
    rewrite !lookup_ge_None_2; [done|lia|rewrite length_app; cbn; lia].
Qed.

Lemma dir_put_length l i e : length (dir_put l i e) = if (i <? length l)%nat then length l else S (length l).
Proof. unfold dir_put. destruct (i <? length l)%nat; [by rewrite length_insert|rewrite length_app; cbn; lia]. Qed.

(** The name that is added is found, and the search for others is not affected. *)
Lemma dir_put_find l c e c' : e ≠ 0 → dir_find l c = None →
  dir_find (dir_put l (dir_free l) (e, c)) c' = if decide (c' = c) then Some (dir_free l) else dir_find l c'.
Proof.
  intros He Hc. destruct (dir_free_spec l) as (Hle & _ & Hfree).
  pose proof (proj1 (find_from_None _ l) Hc) as Hnone. destruct (decide (c' = c)) as [->|Hne].
  - apply find_from_Some. exists (e, c). rewrite dir_put_lookup, decide_True by done. split; [done|].
    rewrite bool_decide_true, (proj2 (Z.eqb_neq _ _)) by done. split; [done|]. intros m y Hm.
    rewrite dir_put_lookup, decide_False by lia. apply Hnone.
  - unfold dir_find. set (P := λ e : entry, negb (e.1 =? 0) && bool_decide (e.2 = c')).
    assert (∀ j x, j ≠ dir_free l → dir_put l (dir_free l) (e, c) !! j = Some x ↔ l !! j = Some x) as Hl.
    { intros j x Hj. by rewrite dir_put_lookup, decide_False. }
    assert (P (e, c) = false) as Hpe by (unfold P; cbn; rewrite bool_decide_false by congruence; by rewrite andb_false_r).
    assert (∀ j x, dir_put l (dir_free l) (e, c) !! j = Some x → P x = true → l !! j = Some x) as H1.
    { intros j x Hx Hp. destruct (decide (j = dir_free l)) as [->|]; [|by apply Hl].
      rewrite dir_put_lookup, decide_True in Hx by done. simplify_eq. congruence. }
    assert (∀ j x, l !! j = Some x → P x = true → dir_put l (dir_free l) (e, c) !! j = Some x) as H2.
    { intros j x Hx Hp. destruct (decide (j = dir_free l)) as [->|]; [|by apply Hl].
      specialize (Hfree _ Hx). unfold P in Hp. by rewrite Hfree in Hp. }
    destruct (find_from P l 0) as [i|] eqn:Ei.
    + apply find_from_Some in Ei as (x & Hx & Hp & Hmin). apply find_from_Some. exists x. split; [by apply H2|].
      split; [done|]. intros m y Hm Hy. destruct (P y) eqn:Ey; [|done]. by rewrite (Hmin m y Hm (H1 m y Hy Ey)) in Ey.
    + apply find_from_None. intros m y Hy. destruct (P y) eqn:Ey; [|done].
      by rewrite (proj1 (find_from_None _ l) Ei m y (H1 m y Hy Ey)) in Ey.
Qed.

(** ** Entries on the disk *)
Section dir.
Context (L : layout) (ib off : Z) (p : nat).
Context (Hcover : l_zones L ≤ l_fdz L - 1 + l_zmap L * BLOCK_BITS).
Abbreviation zone_at := (zone_at L ib off).
Abbreviation ikey := (ikey L ib).
Abbreviation good := (good L ib off p).
Abbreviation inode_at := (inode_at L ib off p).
Abbreviation leaked := (leaked L).
Abbreviation file_size := (file_size L ib off).

(** The block and the offset of entry [i]. *)
Definition ent_block (i : Z) : Z := i `div` BLOCK_DENTRIES.
Definition ent_key (bs : gmap key (list Z)) (i : Z) : key := (l_dev L, zone_at bs (slot_of (ent_block i))).
Definition ent_off (i : Z) : Z := sizeof_dentry * (i `mod` BLOCK_DENTRIES).
Definition ent_ok (i : Z) : Prop := 0 ≤ i < TOTAL_BLOCK * BLOCK_DENTRIES.

(** The sixteen bytes of entry [i]. *)
Definition cell (bs : gmap key (list Z)) (i : Z) : option (list Z) :=
  slice (Z.to_nat (ent_off i)) 16 <$> bs !! ent_key bs i.

Definition cell_is (r : list Z) (e : entry) : Prop :=
  ∃ junk, r = le_bytes 2 e.1 ++ e.2 ++ 0 :: junk ∧ 0 ≤ e.1 < 65536 ∧ name_ok e.2.

Definition dir_is (bs : gmap key (list Z)) (l : list entry) : Prop :=
  file_size bs = sizeof_dentry * Z.of_nat (length l) ∧ Z.of_nat (length l) ≤ TOTAL_BLOCK * BLOCK_DENTRIES ∧
  ∀ i e, l !! i = Some e → zone_at bs (slot_of (ent_block (Z.of_nat i))) ≠ 0 ∧
    ∃ r, cell bs (Z.of_nat i) = Some r ∧ cell_is r e.

Lemma ent_bounds i : ent_ok i → 0 ≤ ent_block i < TOTAL_BLOCK ∧ 0 ≤ ent_off i ∧ ent_off i + 16 ≤ BLOCK_SIZE ∧
  i = 64 * ent_block i + i `mod` 64 ∧ ent_off i = 16 * (i `mod` 64).
Proof using.
  unfold ent_ok, ent_block, ent_off, sizeof_dentry. change BLOCK_DENTRIES with 64. change BLOCK_SIZE with 1024.
  change TOTAL_BLOCK with 262663. intros Hi. Z.div_mod_to_equations. lia.
Qed.

Lemma slice_inserts_in a n o l b : (a + length l ≤ n)%nat → (o + n ≤ length b)%nat →
  slice o n (list_inserts (o + a) l b) = list_inserts a l (slice o n b).
Proof using.
  intros Ha Ho. apply list_eq. intros i. destruct (decide (i < n)%nat) as [Hi|Hi].
  - rewrite lookup_slice by done. destruct (decide (a ≤ i < a + length l)%nat) as [Hin|Hout].
    + rewrite !list_lookup_inserts; [f_equal; lia|lia|rewrite length_slice; lia|lia|lia].
    + destruct (decide (i < a)%nat).
      * rewrite !list_lookup_inserts_lt by lia. by rewrite lookup_slice.
      * rewrite !list_lookup_inserts_ge by lia. by rewrite lookup_slice.
  - rewrite !lookup_ge_None_2; [done|rewrite length_inserts, length_slice; lia|rewrite length_slice; [lia|rewrite length_inserts; lia]].
Qed.

(** Stores in a cell. *)
Section cells.
Context (s : fs) (i : Z) (Hg : good s) (Hi : ent_ok i) (Hz : zone_at (blocks s) (slot_of (ent_block i)) ≠ 0).

Lemma cell_some : ∃ b r, blocks s !! ent_key (blocks s) i = Some b ∧ Z.of_nat (length b) = BLOCK_SIZE ∧
  cell (blocks s) i = Some r ∧ length r = 16%nat ∧ r = slice (Z.to_nat (ent_off i)) 16 b.
Proof using Hg Hi Hz.
  destruct (ent_bounds i Hi) as (Hb & Ho & Hf & _). destruct (zone_facts L ib off p s _ Hg (slot_of_valid _ Hb) Hz) as (_ & _ & Hr).
  destruct (lo_blocks _ _ _ (gd_laid _ _ _ _ _ Hg) _ Hr) as (b & Hbl & Hlen & _). eexists b, _.
  split; [exact Hbl|]. split; [done|]. split; [unfold cell, ent_key; by rewrite Hbl|].
  split; [|done]. apply length_slice. change BLOCK_SIZE with 1024 in *. lia.
Qed.

Lemma cell_in_block n o : 0 ≤ o → o + Z.of_nat n ≤ 16 → in_block n (blocks s) (ent_key (blocks s) i) (ent_off i + o).
Proof using Hg Hi Hz.
  intros H0 Hn. destruct (ent_bounds i Hi) as (Hb & Ho & Hf & _). destruct cell_some as (b & _ & Hbl & Hlen & _).
  exists b. split; [done|]. lia.
Qed.

Context (o : Z) (l : list Z) (Ho : 0 ≤ o) (Hl : o + Z.of_nat (length l) ≤ 16) (Hbytes : Forall (λ v, 0 ≤ v < 256) l).
Let bs' := put (blocks s) (ent_key (blocks s) i) (ent_off i + o) l.

Lemma cell_store_good h : good (upd s h bs') ∧ same_tree L ib off (blocks s) bs'.
Proof using Hcover Hg Hi Hz Ho Hl Hbytes.
  destruct (ent_bounds i Hi) as (Hb & Ho' & _). apply (data_store L ib off p Hcover); [done|done|done|lia|done].
Qed.

Lemma cell_store j r : ent_ok j → zone_at (blocks s) (slot_of (ent_block j)) ≠ 0 → cell (blocks s) j = Some r →
  cell bs' j = Some (if decide (j = i) then list_inserts (Z.to_nat o) l r else r).
Proof using Hcover Hg Hi Hz Ho Hl Hbytes.
  intros Hj Hzj Hr. destruct (ent_bounds i Hi) as (Hb & Hoi & Hfi & Ei & Eoi). destruct (ent_bounds j Hj) as (Hbj & Hoj & Hfj & Ej & Eoj).
  destruct (cell_store_good ∅) as [_ Hsm]. unfold cell in *.
  assert (ent_key bs' j = ent_key (blocks s) j) as Ek by (unfold ent_key; by rewrite (sm_zone _ _ _ _ _ Hsm) by (by apply slot_of_valid)).
  rewrite Ek. destruct (decide (ent_block j = ent_block i)) as [Eb|Eb].
  - assert (ent_key (blocks s) j = ent_key (blocks s) i) as Eki by (unfold ent_key; by rewrite Eb).
    rewrite Eki in *. destruct cell_some as (b & r' & Hbl & Hlen & _). rewrite Hbl in Hr. injection Hr as <-.
    unfold bs', put. rewrite lookup_alter_eq, Hbl. cbn [fmap option_fmap option_map]. f_equal. change BLOCK_SIZE with 1024 in *.
    destruct (decide (j = i)) as [->|Hne].
    + rewrite Z2Nat.inj_add by lia. apply slice_inserts_in; lia.
    + apply slice_inserts_apart. lia.
  - rewrite decide_False by congruence. unfold bs'. rewrite put_lookup_other; [done|]. intros [= E]. apply Eb, slot_of_inj; [done|done|].
    apply (tr_inj _ _ _ _ (gd_tree _ _ _ _ _ Hg)); [by apply slot_of_valid|by apply slot_of_valid|done|done].
Qed.
End cells.

Lemma cell_grows s h bs' b n i : good s → good (upd s h bs') → 0 ≤ b < TOTAL_BLOCK → grows L ib off (slot_of b) n (blocks s) bs' →
  ent_ok i → zone_at (blocks s) (slot_of (ent_block i)) ≠ 0 →
  zone_at bs' (slot_of (ent_block i)) = zone_at (blocks s) (slot_of (ent_block i)) ∧ cell bs' i = cell (blocks s) i.
Proof using.
  intros Hg Hg' Hb Hgr Hi Hz. destruct (ent_bounds i Hi) as (Hbi & _).
  assert (zone_at bs' (slot_of (ent_block i)) = zone_at (blocks s) (slot_of (ent_block i))) as E
    by (apply (gr_keep _ _ _ _ _ _ _ Hgr); [by apply slot_of_valid|done]).
  split; [done|]. unfold cell, ent_key. rewrite E. f_equal. by apply (grows_data L ib off p s h bs' b n).
Qed.

(** ** The walk over the entries *)
Definition cur_ok (bs : gmap key (list Z)) (i : Z) (cur : option (key * Z)) : Prop :=
  match cur with
  | None => i = 0
  | Some (k, o) => 0 < i ∧ k = ent_key bs (i - 1) ∧ o = ent_off (i - 1) + sizeof_dentry
  end.
Definition cur_held (cur : option (key * Z)) : gmultiset key :=
  match cur with None => ∅ | Some (k, _) => {[+ k +]} end.

Section walk.
Context (E : stop → Prop).

(** The block of the entry is found or made, and read. *)
Lemma wp_enter_block s n create i (Q : key * Z → fs → Prop) :
  good s → inode_at s n → ent_ok i → i `mod` BLOCK_DENTRIES = 0 →
  (create = false → zone_at (blocks s) (slot_of (ent_block i)) ≠ 0) →
  (create = true → zone_at (blocks s) (slot_of (ent_block i)) = 0 → (2 < free_zones L (blocks s))%nat) →
  (∀ bs' h', leaked h' → grows L ib off (slot_of (ent_block i)) 3 (blocks s) bs' → good (upd s (h' ⊎ held s) bs') →
     zone_at bs' (slot_of (ent_block i)) ≠ 0 → (create = false ∨ zone_at (blocks s) (slot_of (ent_block i)) ≠ 0 → bs' = blocks s ∧ h' = ∅) →
     Q (ent_key bs' i, ent_off i) (upd s ({[+ ent_key bs' i +]} ⊎ (h' ⊎ held s)) bs')) →
  wp E (let* z := minix_bmap n (i `div` BLOCK_DENTRIES) create in
        do! st_check (negb (z =? 0));
        let* ino := the_inode n in
        do! bread (dev ino, z);
        st_ret ((dev ino, z), 0)) Q s.
Proof using Hcover.
  intros Hg Hi He Hmod Hc0 Hc1 HQ. destruct (ent_bounds i He) as (Hb & Ho & _). fold (ent_block i).
  apply wp_bind, (wp_bmap L ib off p Hcover E s n (ent_block i) create); [done|done|done|done|].
  intros bs' h' Hl Hgr Hg' Hz Hn.
  assert (zone_at bs' (slot_of (ent_block i)) ≠ 0) as Hz'.
  { destruct create; [by apply Hz|]. destruct (Hn (or_introl eq_refl)) as [-> _]. by apply Hc0. }
  apply wp_bind, wp_check_true; [by apply negb_true_iff, Z.eqb_neq|].
  destruct Hi as (ino & Hti & Hdev & _). apply wp_bind. eapply wp_deref; [exact Hti|]. rewrite Hdev.
  destruct (zone_facts L ib off p _ _ Hg' (slot_of_valid _ Hb) Hz') as (_ & _ & Hr).
  destruct (lo_blocks _ _ _ (gd_laid _ _ _ _ _ Hg') _ Hr) as (b & Hbl & _).
  apply wp_bind, wp_bread_block; [by eexists|]. apply wp_ret. fold (ent_key bs' i).
  assert (ent_off i = 0) as Eo by (unfold ent_off; rewrite Hmod; done). rewrite <-Eo at 1.
  exact (HQ bs' h' Hl Hgr Hg' Hz' Hn).
Qed.

Lemma wp_next_entry s h n create i cur (Q : key * Z → fs → Prop) :
  good s → inode_at s n → ent_ok i → cur_ok (blocks s) i cur → held s = cur_held cur ⊎ h →
  (0 < i → zone_at (blocks s) (slot_of (ent_block (i - 1))) ≠ 0) →
  (create = false → zone_at (blocks s) (slot_of (ent_block i)) ≠ 0) →
  (create = true → zone_at (blocks s) (slot_of (ent_block i)) = 0 → (2 < free_zones L (blocks s))%nat) →
  (∀ bs' h', leaked h' → grows L ib off (slot_of (ent_block i)) 3 (blocks s) bs' → good (upd s (h' ⊎ h) bs') →
     zone_at bs' (slot_of (ent_block i)) ≠ 0 → (create = false ∨ zone_at (blocks s) (slot_of (ent_block i)) ≠ 0 → bs' = blocks s ∧ h' = ∅) →
     Q (ent_key bs' i, ent_off i) (upd s ({[+ ent_key bs' i +]} ⊎ (h' ⊎ h)) bs')) →
  wp E (next_entry n create i cur) Q s.
Proof using Hcover.
  intros Hg Hi He Hcur Hheld Hprev Hc0 Hc1 HQ. pose proof He as He'. unfold ent_ok in He'. unfold next_entry.
  destruct cur as [[k o]|]; cbn [cur_ok cur_held] in *.
  - destruct Hcur as (Hpos & -> & ->). specialize (Hprev Hpos).
    destruct (ent_bounds i He) as (_ & _ & _ & E1 & E2). destruct (ent_bounds (i - 1) ltac:(unfold ent_ok; lia)) as (_ & _ & _ & E3 & E4).
    pose proof (Z.mod_pos_bound i 64 ltac:(done)). pose proof (Z.mod_pos_bound (i - 1) 64 ltac:(done)).
    change sizeof_dentry with 16. change BLOCK_SIZE with 1024. destruct (Z.ltb_spec (ent_off (i - 1) + 16) 1024) as [Hlt|Hge].
    + assert (ent_block (i - 1) = ent_block i ∧ ent_off (i - 1) + 16 = ent_off i) as [Eb Eo] by lia.
      apply wp_ret. unfold ent_key in Hheld |- *. rewrite Eb, Eo in *. fold (ent_key (blocks s) i) in Hheld |- *.
      assert (upd s ({[+ ent_key (blocks s) i +]} ⊎ (∅ ⊎ h)) (blocks s) = s) as Es.
      { rewrite gmultiset_disj_union_left_id, <-Hheld. apply upd_same. }
      pose proof (HQ (blocks s) ∅ (leaked_empty L) (grows_refl L ib off _ _ _)) as HQ'. rewrite Es in HQ'.
      apply HQ'; [|done|done]. apply (good_upd L ib off p s (held s)). by rewrite upd_same.
    + assert (i `mod` 64 = 0) as Em by lia.
      apply wp_bind, wp_brelse; [rewrite Hheld; multiset_solver|].
      assert (s <| held $= λ x, x ∖ {[+ ent_key (blocks s) (i - 1) +]} |> = upd s h (blocks s)) as ->.
      { unfold upd, modify. cbn. f_equal. by apply release_eq. }
      apply (wp_enter_block (upd s h (blocks s)) n create i); try done.
      apply (good_upd L ib off p s (held s)). by rewrite upd_same.
  - subst i. assert (h = held s) as -> by (rewrite Hheld; symmetry; apply gmultiset_disj_union_left_id).
    by apply wp_enter_block.
Qed.

(** What the code reads of an entry. *)
Lemma cell_read bs i r e : ent_ok i → cell bs i = Some r → cell_is r e →
  ∃ b junk, bs !! ent_key bs i = Some b ∧ drop (Z.to_nat (ent_off i + d_name)) b = e.2 ++ 0 :: junk ∧
    val 2 bs (ent_key bs i) (ent_off i + d_nr) = e.1.
Proof using.
  intros Hi Hc (junk & Er & Hnr & _). destruct (ent_bounds i Hi) as (_ & Ho & _).
  unfold cell in Hc. destruct (bs !! ent_key bs i) as [b|] eqn:Eb; [|done]. injection Hc as Hc. unfold slice in Hc.
  pose proof (take_drop 16 (drop (Z.to_nat (ent_off i)) b)) as Hsplit. rewrite Hc, Er in Hsplit.
  revert Hsplit. generalize (drop 16 (drop (Z.to_nat (ent_off i)) b)). intros rest Hsplit.
  exists b, (junk ++ rest). split; [done|]. split.
  - unfold d_name. rewrite Z2Nat.inj_add, <-drop_drop, <-Hsplit by lia. by rewrite <-!app_assoc.
  - unfold val, d_nr, slice. rewrite Eb, Z.add_0_r, <-Hsplit, <-!app_assoc, take_app_length', le_le_bytes by done.
    apply Z.mod_small. done.
Qed.

Definition wanted (c : list Z) (e : entry) : bool := negb (e.1 =? 0) && bool_decide (e.2 = c).

Lemma wp_find_entry_loop left n c rest : Forall name_char c → path_rest rest → ∀ s h i cur l (Q : option (key * Z * list Z) → fs → Prop),
  good s → inode_at s n → dir_is (blocks s) l → (i + left)%nat = length l →
  cur_ok (blocks s) (Z.of_nat i) cur → held s = cur_held cur ⊎ h →
  match find_from (wanted c) (drop i l) i with
  | Some j => Q (Some (ent_key (blocks s) (Z.of_nat j), ent_off (Z.of_nat j), tl rest))
      (upd s ({[+ ent_key (blocks s) (Z.of_nat j) +]} ⊎ h) (blocks s))
  | None => Q None (upd s h (blocks s))
  end →
  wp E (find_entry_loop left n (c ++ rest) (Z.of_nat i) cur) Q s.
Proof using Hcover.
  intros Hc Hr. induction left as [|left IH]; intros s h i cur l Q Hg Hi Hd Hlen Hcur Hheld HQ; cbn [find_entry_loop].
  - rewrite drop_ge in HQ by lia. cbn [find_from] in HQ.
    assert (∀ P : unit → fs → Prop, P tt (upd s h (blocks s)) → wp E (brelse_opt (fst <$> cur)) P s) as Hrel.
    { intros P HP. destruct cur as [[k o]|]; cbn [fmap option_fmap option_map fst brelse_opt cur_held] in *.
      - apply wp_brelse; [rewrite Hheld; multiset_solver|].
        assert (s <| held $= λ x, x ∖ {[+ k +]} |> = upd s h (blocks s)) as ->; [|done].
        unfold upd, modify. cbn. f_equal. by apply release_eq.
      - apply wp_ret. rewrite gmultiset_disj_union_left_id in Hheld. rewrite <-Hheld, upd_same in HP. exact HP. }
    apply wp_bind, Hrel, wp_ret. exact HQ.
  - destruct Hd as (Hsz & Hmax & Hents).
    destruct (lookup_lt_is_Some_2 l i ltac:(lia)) as [e He]. destruct (Hents i e He) as (Hz & r & Hcell & Hcis).
    assert (ent_ok (Z.of_nat i)) as Hok by (unfold ent_ok; lia).
    apply wp_bind, (wp_next_entry s h n false (Z.of_nat i) cur); try done.
    { intros Hpos. destruct (lookup_lt_is_Some_2 l (i - 1) ltac:(lia)) as [e' He']. destruct (Hents _ _ He') as [Hz' _].
      by replace (Z.of_nat i - 1) with (Z.of_nat (i - 1)) by lia. }
    intros bs' h' _ _ Hg' _ Hn. destruct (Hn (or_introl eq_refl)) as [-> ->]. rewrite gmultiset_disj_union_left_id in *.
    set (s1 := upd s ({[+ ent_key (blocks s) (Z.of_nat i) +]} ⊎ h) (blocks s)).
    destruct (cell_read _ _ _ _ Hok Hcell Hcis) as (b & junk & Hb & Hdrop & Hnr).
    destruct Hcis as (_ & _ & Hnr' & Hnm).
    unfold match_entry. apply wp_bind, wp_bind. eapply wp_deref; [exact Hb|]. rewrite Hdrop.
    eapply wp_lift; [by apply match_name_spec|].
    assert (good s1) as Hg1 by (by apply (good_upd L ib off p s h)).
    apply wp_bind, wp_ld; [apply (cell_in_block s1 (Z.of_nat i) Hg1 Hok Hz 2 d_nr); unfold d_nr; lia|].
    change (blocks s1) with (blocks s). rewrite Hnr.
    rewrite (drop_S l e i He) in HQ. cbn [find_from] in HQ. unfold wanted in HQ at 1.
    assert (wp E (find_entry_loop left n (c ++ rest) (Z.of_nat i + 1)
      (Some (ent_key (blocks s) (Z.of_nat i), ent_off (Z.of_nat i) + sizeof_dentry))) Q s1 ∨
      (e.1 ≠ 0 ∧ e.2 = c)) as Hnext.
    { destruct (Z.eqb_spec e.1 0) as [E0|E0]; [left|destruct (decide (e.2 = c)); [by right|left]]; cbn [negb andb] in HQ;
        rewrite ?bool_decide_false in HQ by done; replace (Z.of_nat i + 1) with (Z.of_nat (S i)) by lia;
        apply (IH s1 h (S i) _ l); try done; try lia; cbn [cur_ok cur_held];
        (split; [lia|]; replace (Z.of_nat (S i) - 1) with (Z.of_nat i) by lia; done). }
    destruct (decide (c = e.2)) as [Ec|Hne].
    + destruct (Z.eqb_spec e.1 0) as [E0|E0]; cbn [negb andb] in *; [by destruct Hnext as [|[? _]]|].
      rewrite bool_decide_true in HQ by done. by apply wp_ret.
    + destruct Hnext as [|[_ ?]]; done.
Qed.

Lemma wp_find_entry s n c rest l (Q : option (key * Z * list Z) → fs → Prop) : Forall name_char c → path_rest rest →
  good s → inode_at s n → dir_is (blocks s) l → ISDIR (val 2 (blocks s) ikey (off + i_mode)) = true →
  match dir_find l c with
  | Some j => Q (Some (ent_key (blocks s) (Z.of_nat j), ent_off (Z.of_nat j), tl rest))
      (upd s ({[+ ent_key (blocks s) (Z.of_nat j) +]} ⊎ held s) (blocks s))
  | None => Q None s
  end →
  wp E (find_entry n (c ++ rest)) Q s.
Proof using Hcover.
  intros Hc Hr Hg Hi Hd Hdir HQ. pose proof (gd_off _ _ _ _ _ Hg) as Hoff. pose proof Hi as (i & Hti & _ & Hdi & _).
  unfold find_entry. apply wp_bind. eapply wp_deref; [exact Hti|]. apply wp_bind. eapply wp_deref; [exact Hdi|].
  apply wp_bind, wp_ld; [apply (inode_in_block L ib off p); [done|unfold i_mode; lia|unfold i_mode, sizeof_inode; lia]|].
  apply wp_bind, wp_check_true; [exact Hdir|].
  apply wp_bind, wp_ld; [apply (inode_in_block L ib off p); [done|unfold i_size; lia|unfold i_size, sizeof_inode; lia]|].
  fold (file_size (blocks s)). rewrite (proj1 Hd). change sizeof_dentry with 16.
  rewrite (Z.mul_comm 16), Z.div_mul, Nat2Z.id by done.
  apply (wp_find_entry_loop (length l) n c rest Hc Hr s (held s) 0 None l); try done.
  { change (held s = ∅ ⊎ held s). by rewrite gmultiset_disj_union_left_id. }
  rewrite drop_0, upd_same. exact HQ.
Qed.

(** ** Adding an entry *)

(** A change of the inode alone. *)
Lemma cell_frame s bs' j : good s → ent_ok j → zone_at (blocks s) (slot_of (ent_block j)) ≠ 0 →
  same_tree L ib off (blocks s) bs' → (∀ k, k ≠ ikey → bs' !! k = blocks s !! k) →
  ent_key bs' j = ent_key (blocks s) j ∧ cell bs' j = cell (blocks s) j.
Proof using.
  intros Hg Hj Hz Hsm Hlk. destruct (ent_bounds j Hj) as (Hb & _). pose proof (slot_of_valid _ Hb) as Hv.
  assert (ent_key bs' j = ent_key (blocks s) j) as Ek by (unfold ent_key; by rewrite (sm_zone _ _ _ _ _ Hsm)).
  split; [done|]. unfold cell. rewrite Ek, Hlk; [done|]. by apply (zone_facts L ib off p s).
Qed.

Lemma inserts_prefix (l r : list Z) : (length l ≤ length r)%nat → list_inserts 0 l r = l ++ drop (length l) r.
Proof using.
  intros Hl. apply list_eq. intros i. destruct (decide (i < length l)%nat).
  - rewrite list_lookup_inserts, lookup_app_l by lia. f_equal. lia.
  - rewrite list_lookup_inserts_ge, lookup_app_r, lookup_drop by lia. f_equal. lia.
Qed.

Lemma cell_named c nr r' : name_ok c → length r' = 14%nat → 0 ≤ nr < 65536 →
  cell_is (list_inserts 2 (name_bytes c) (le_bytes 2 nr ++ r')) (nr, c).
Proof using.
  intros Hc Hr Hnr. pose proof Hc as [Hl _]. unfold name_bytes. change (Z.to_nat MINIX1_NAME_LEN) with 14%nat.
  rewrite (proj2 (Nat.ltb_lt _ _)) by lia. exists (drop (length c + 1) r'). split; [|done]. cbn [fst snd].
  change 2%nat with (length (le_bytes 2 nr) + 0)%nat at 1. rewrite list_inserts_app_r.
  rewrite inserts_prefix by (rewrite length_app; cbn; lia).
  rewrite length_app, <-app_assoc. done.
Qed.

Lemma name_bytes_ok c : name_ok c → (length (name_bytes c) <= 14)%nat ∧ Forall (λ v, 0 ≤ v < 256) (name_bytes c).
Proof using.
  intros [Hl Hc]. unfold name_bytes. change (Z.to_nat MINIX1_NAME_LEN) with 14%nat.
  rewrite (proj2 (Nat.ltb_lt _ _)) by lia. rewrite length_app. cbn [length]. split; [lia|].
  apply Forall_app. split; [|by repeat constructor].
  eapply Forall_impl; [exact Hc|]. intros x [Hx _]. lia.
Qed.

(** [s'] is [s] with cell [i] replaced. *)
Record cell_changed (n : nat) (i : Z) (f : list Z → list Z) (s s' : fs) : Prop := {
  cc_changed : changed L ib off p n s s';
  cc_size : file_size (blocks s') = file_size (blocks s);
  cc_held : held s' = held s;
  cc_key : ent_key (blocks s') i = ent_key (blocks s) i;
  cc_cell : ∀ j r, ent_ok j → zone_at (blocks s) (slot_of (ent_block j)) ≠ 0 → cell (blocks s) j = Some r →
    cell (blocks s') j = Some (if decide (j = i) then f r else r) }.

Lemma cell_changed_store s n i o l : good s → inode_at s n → ent_ok i → zone_at (blocks s) (slot_of (ent_block i)) ≠ 0 →
  0 ≤ o → o + Z.of_nat (length l) ≤ 16 → Forall (λ v, 0 ≤ v < 256) l →
  cell_changed n i (list_inserts (Z.to_nat o) l) s (s <| blocks := put (blocks s) (ent_key (blocks s) i) (ent_off i + o) l |>).
Proof using Hcover.
  intros Hg Hn Hi Hz Ho Hl Hb. destruct (ent_bounds i Hi) as (Hbi & Hoi & _). pose proof (slot_of_valid _ Hbi) as Hv.
  destruct (cell_store_good s i Hg Hi Hz o l Ho Hl Hb (held s)) as [_ Hsm].
  assert (s <| blocks := put (blocks s) (ent_key (blocks s) i) (ent_off i + o) l |> =
    upd s (held s) (put (blocks s) (ent_key (blocks s) i) (ent_off i + o) l)) as -> by (by destruct s).
  split; [|unfold MinixFile.file_size, val|done| |].
  - apply (changed_data L ib off p Hcover); [done|done|done|done|lia|done].
  - change (blocks (upd s ?h ?x)) with x. rewrite put_lookup_other; [done|].
    intros E'. by destruct (zone_facts L ib off p s _ Hg Hv Hz).
  - change (blocks (upd s ?h ?x)) with x. unfold ent_key. by rewrite (sm_zone _ _ _ _ _ Hsm).
  - intros j r Hj Hzj Hr. by apply cell_store.
Qed.

Lemma cell_changed_trans n i f g s s1 s2 : ent_ok i →
  cell_changed n i f s s1 → cell_changed n i g s1 s2 → cell_changed n i (λ r, g (f r)) s s2.
Proof using.
  intros Hi [C Z H K F] [C' Z' H' K' F']. split; [by apply (file_changed_trans _ _ _ _ _ _ s1)|congruence|congruence|congruence|].
  intros j r Hj Hz Hr. destruct (ent_bounds j Hj) as (Hb & _). rewrite (F' j (if decide (j = i) then f r else r) Hj); [| |by apply F].
  - by destruct (decide (j = i)).
  - rewrite (ch_keep _ _ _ _ _ _ _ C); [done|by apply slot_of_valid|done].
Qed.

(** A change of the inode alone that keeps the size. *)
Lemma cell_changed_inode n i s s' : good s → ent_ok i → zone_at (blocks s) (slot_of (ent_block i)) ≠ 0 →
  changed L ib off p n s s' → same_tree L ib off (blocks s) (blocks s') → (∀ k, k ≠ ikey → blocks s' !! k = blocks s !! k) →
  held s' = held s → file_size (blocks s') = file_size (blocks s) → cell_changed n i id s s'.
Proof using.
  intros Hg Hi Hz Hch Hsm Hlk Hh Hs. split; [done|done|done|by apply (cell_frame s)|].
  intros j r Hj Hzj Hr. destruct (cell_frame s (blocks s') j Hg Hj Hzj Hsm Hlk) as [_ ->]. rewrite Hr. by destruct (decide _).
Qed.

(** The end of [add_entry]: the name, and the time of change. *)
Lemma wp_name_entry s n i c (Q : key * Z → fs → Prop) : good s → inode_at s n → ent_ok i →
  zone_at (blocks s) (slot_of (ent_block i)) ≠ 0 → name_ok c →
  (∀ s', cell_changed n i (list_inserts 2 (name_bytes c)) s s' → Q (ent_key (blocks s) i, ent_off i) s') →
  wp E (do! store_bytes (ent_key (blocks s) i) (ent_off i + d_name) (name_bytes c);
        let* t := st_gets now in
        do! st 4 ikey (off + i_mtime) t;
        do! mod_inode n (λ ino, ino <| mtime := t |>);
        st_ret (ent_key (blocks s) i, ent_off i)) Q s.
Proof using Hcover.
  intros Hg Hn Hi Hz Hc HQ. destruct (name_bytes_ok c Hc) as [Hl Hb].
  pose proof (cell_changed_store s n i 2 (name_bytes c) Hg Hn Hi Hz ltac:(lia) ltac:(lia) Hb) as H1.
  apply wp_bind, wp_store_bytes; [apply (cell_in_block s i Hg Hi Hz); unfold d_name; lia|].
  set (s1 := s <| blocks := put (blocks s) (ent_key (blocks s) i) (ent_off i + d_name) (name_bytes c) |>) in *.
  pose proof (cc_changed _ _ _ _ _ H1) as Hch1. pose proof (ch_good _ _ _ _ _ _ _ Hch1) as Hg1.
  pose proof (gd_off _ _ _ _ _ Hg) as Hoff. destruct (ent_bounds i Hi) as (Hbi & _).
  apply wp_bind, wp_gets, wp_bind, wp_st; [apply (inode_in_block L ib off p); [done|unfold i_mtime; lia|unfold i_mtime, sizeof_inode; lia]|].
  apply wp_bind, wp_mod, wp_ret. apply HQ.
  destruct (changed_inode L ib off p Hcover n s1 (off + i_mtime) (le_bytes 4 (now s1)) (λ ino, ino <| mtime := now s1 |>) Hg1
    (ch_inode _ _ _ _ _ _ _ Hch1)) as (Hch & Hsm & Hlk);
    [unfold i_size, i_mtime; lia|rewrite length_le_bytes; unfold i_mtime, i_gid; lia|apply le_bytes_range|done|].
  apply (cell_changed_trans n i (list_inserts 2 (name_bytes c)) id s s1); [done|done|].
  apply cell_changed_inode; try done.
  - rewrite (ch_keep _ _ _ _ _ _ _ Hch1); [done|by apply slot_of_valid|done].
  - unfold MinixFile.file_size. change (blocks (s1 <| blocks := ?x |> <| inode_table $= ?t |>)) with x.
    apply val_put_other. right. rewrite length_le_bytes. unfold i_size, i_mtime. lia.
Qed.

Lemma cell_free r e : cell_is r e → length r = 16%nat → e.1 = 0 → ∃ r', r = le_bytes 2 0 ++ r' ∧ length r' = 14%nat.
Proof using.
  intros (junk & -> & _) Hl E0. rewrite E0 in *. eexists. split; [done|]. rewrite !length_app, length_le_bytes in *. cbn in *. lia.
Qed.

Lemma dir_free_first l i : (i ≤ length l)%nat → (∀ m e, (m < i)%nat → l !! m = Some e → e.1 ≠ 0) →
  (∀ e, l !! i = Some e → e.1 = 0) → dir_free l = i.
Proof using.
  intros Hi Hmin Hfree. destruct (dir_free_spec l) as (Hle & Hmin' & Hfree').
  destruct (lt_eq_lt_dec i (dir_free l)) as [[Hlt|E']|Hlt]; [|done|].
  - destruct (lookup_lt_is_Some_2 l i ltac:(lia)) as [e He]. by destruct (Hmin' i e Hlt He), (Hfree e He).
  - destruct (lookup_lt_is_Some_2 l (dir_free l) ltac:(lia)) as [e He]. by destruct (Hmin _ e Hlt He), (Hfree' e He).
Qed.

(** The name is in cell [i]; the others are as in [l]. *)
Lemma dir_is_put s s' n i l c r' : ent_ok (Z.of_nat i) → (i ≤ length l)%nat → Z.of_nat (length l) < TOTAL_BLOCK * BLOCK_DENTRIES →
  name_ok c → length r' = 14%nat → good s → good s' →
  cell_changed n (Z.of_nat i) (list_inserts 2 (name_bytes c)) s s' →
  zone_at (blocks s) (slot_of (ent_block (Z.of_nat i))) ≠ 0 → cell (blocks s) (Z.of_nat i) = Some (le_bytes 2 0 ++ r') →
  (∀ j e, j ≠ i → l !! j = Some e → zone_at (blocks s) (slot_of (ent_block (Z.of_nat j))) ≠ 0 ∧
    ∃ r, cell (blocks s) (Z.of_nat j) = Some r ∧ cell_is r e) →
  file_size (blocks s) = sizeof_dentry * Z.of_nat (length (dir_put l i (0, c))) →
  dir_is (blocks s') (dir_put l i (0, c)).
Proof using.
  intros Hok Hi Hmax Hc Hr' Hg Hg' Hcc Hz Hcell Hothers Hsz. pose proof (cc_changed _ _ _ _ _ Hcc) as Hch.
  assert (∀ j, ent_ok j → zone_at (blocks s) (slot_of (ent_block j)) ≠ 0 → zone_at (blocks s') (slot_of (ent_block j)) ≠ 0) as Hzone.
  { intros j Hj Hzj. destruct (ent_bounds j Hj) as (Hb & _).
    rewrite (ch_keep _ _ _ _ _ _ _ Hch); [done|by apply slot_of_valid|done]. }
  split; [by rewrite (cc_size _ _ _ _ _ Hcc)|]. split.
  { rewrite dir_put_length. destruct (i <? length l)%nat; lia. }
  intros j e He. rewrite dir_put_lookup in He by done. destruct (decide (j = i)) as [->|Hne].
  - injection He as <-. split; [by apply Hzone|]. eexists.
    rewrite (cc_cell _ _ _ _ _ Hcc _ _ Hok Hz Hcell), decide_True by done. split; [done|]. by apply cell_named.
  - destruct (Hothers j e Hne He) as (Hzj & r & Hr & Hcis). pose proof (lookup_lt_Some _ _ _ He).
    assert (ent_ok (Z.of_nat j)) as Hj by (unfold ent_ok; lia). split; [by apply Hzone|]. exists r.
    rewrite (cc_cell _ _ _ _ _ Hcc _ _ Hj Hzj Hr), decide_False by lia. done.
Qed.

(** Past the last entry a free one is made. *)
Lemma wp_append_entry s n i (Q : unit → fs → Prop) : good s → inode_at s n → ent_ok i →
  zone_at (blocks s) (slot_of (ent_block i)) ≠ 0 →
  (∀ s' r', changed L ib off p n s s' → held s' = held s → ent_key (blocks s') i = ent_key (blocks s) i →
     file_size (blocks s') = (i + 1) * sizeof_dentry →
     cell (blocks s') i = Some (le_bytes 2 0 ++ r') → length r' = 14%nat →
     (∀ j r, j ≠ i → ent_ok j → zone_at (blocks s) (slot_of (ent_block j)) ≠ 0 → cell (blocks s) j = Some r → cell (blocks s') j = Some r) →
     Q tt s') →
  wp E (do! st 2 (ent_key (blocks s) i) (ent_off i + d_nr) 0;
        do! st 4 ikey (off + i_size) ((i + 1) * sizeof_dentry);
        mod_inode n (λ ino, ino <| size := (i + 1) * sizeof_dentry |>)) Q s.
Proof using Hcover.
  intros Hg Hn Hi Hz HQ. pose proof (gd_off _ _ _ _ _ Hg) as Hoff. destruct (ent_bounds i Hi) as (Hbi & _).
  pose proof (cell_changed_store s n i 0 (le_bytes 2 0) Hg Hn Hi Hz ltac:(lia) ltac:(by cbn) (le_bytes_range 2 0)) as H1.
  apply wp_bind, wp_st; [apply (cell_in_block s i Hg Hi Hz); unfold d_nr; lia|].
  set (s1 := s <| blocks := put (blocks s) (ent_key (blocks s) i) (ent_off i + d_nr) (le_bytes 2 0) |>) in *.
  change (cell_changed n i (list_inserts 0 (le_bytes 2 0)) s s1) in H1.
  pose proof (cc_changed _ _ _ _ _ H1) as Hch1. pose proof (ch_good _ _ _ _ _ _ _ Hch1) as Hg1.
  destruct (cell_some s i Hg Hi Hz) as (b & r & _ & _ & Hr & Hlr & _).
  assert (zone_at (blocks s1) (slot_of (ent_block i)) ≠ 0) as Hz1
    by (rewrite (ch_keep _ _ _ _ _ _ _ Hch1); [done|by apply slot_of_valid|done]).
  apply (wp_put_size L ib off p Hcover); [done|apply (ch_inode _ _ _ _ _ _ _ Hch1)| |].
  { unfold ent_ok in Hi. change (TOTAL_BLOCK * BLOCK_DENTRIES) with 16810432 in Hi. unfold sizeof_dentry. lia. }
  intros s2 Hch2 Hsm Hlk Hsz Hh.
  assert (∀ j, ent_ok j → zone_at (blocks s) (slot_of (ent_block j)) ≠ 0 → zone_at (blocks s1) (slot_of (ent_block j)) ≠ 0) as Hzone.
  { intros j Hj Hzj. destruct (ent_bounds j Hj) as (Hb & _).
    rewrite (ch_keep _ _ _ _ _ _ _ Hch1); [done|by apply slot_of_valid|done]. }
  destruct (cell_frame s1 (blocks s2) i Hg1 Hi Hz1 Hsm Hlk) as [Ek Ec].
  apply (HQ s2 (drop 2 r)); [by apply (file_changed_trans _ _ _ _ _ _ s1)|by rewrite Hh, (cc_held _ _ _ _ _ H1)| |done| |rewrite length_drop; lia|].
  - by rewrite Ek, (cc_key _ _ _ _ _ H1).
  - rewrite Ec, (cc_cell _ _ _ _ _ H1 i r Hi Hz Hr), decide_True by done. f_equal. by apply (inserts_prefix (le_bytes 2 0)); rewrite length_le_bytes; lia.
  - intros j r' Hne Hj Hzj Hr'. destruct (cell_frame s1 (blocks s2) j Hg1 Hj (Hzone j Hj Hzj) Hsm Hlk) as [_ ->].
    by rewrite (cc_cell _ _ _ _ _ H1 j r' Hj Hzj Hr'), decide_False.
Qed.

Lemma cell_nr bs i r' nr : ent_ok i → cell bs i = Some (le_bytes 2 nr ++ r') → val 2 bs (ent_key bs i) (ent_off i + d_nr) = u16 nr.
Proof using.
  intros Hi Hc. unfold cell in Hc. unfold val, d_nr, slice. rewrite Z.add_0_r.
  destruct (bs !! ent_key bs i) as [b|]; [|done]. cbn [fmap option_fmap option_map] in Hc.
  assert (slice (Z.to_nat (ent_off i)) 16 b = le_bytes 2 nr ++ r') as Hs by congruence. clear Hc. unfold slice in Hs.
  assert (take 2 (drop (Z.to_nat (ent_off i)) b) = le_bytes 2 nr) as ->.
  { transitivity (take 2 (take 16 (drop (Z.to_nat (ent_off i)) b))); [by rewrite take_take|]. rewrite Hs.
    apply take_app_length'. done. }
  by rewrite le_le_bytes.
Qed.

Lemma wp_add_entry_loop fuel n c : name_ok c → ∀ s h i cur l (Q : key * Z → fs → Prop),
  good s → inode_at s n → dir_is (blocks s) l → (i ≤ length l)%nat → (length l < i + fuel)%nat →
  (∀ m e, (m < i)%nat → l !! m = Some e → e.1 ≠ 0) → Z.of_nat (length l) < TOTAL_BLOCK * BLOCK_DENTRIES →
  (zone_at (blocks s) (slot_of (ent_block (Z.of_nat (length l)))) = 0 → (2 < free_zones L (blocks s))%nat) →
  cur_ok (blocks s) (Z.of_nat i) cur → held s = cur_held cur ⊎ h →
  (∀ s' h', changed L ib off p n s s' → leaked h' → held s' = {[+ ent_key (blocks s') (Z.of_nat (dir_free l)) +]} ⊎ (h' ⊎ h) →
     dir_is (blocks s') (dir_put l (dir_free l) (0, c)) →
     Q (ent_key (blocks s') (Z.of_nat (dir_free l)), ent_off (Z.of_nat (dir_free l))) s') →
  wp E (add_entry_loop fuel n ikey off c (Z.of_nat i) cur) Q s.
Proof using Hcover.
  intros Hc. induction fuel as [|fuel IH]; intros s h i cur l Q Hg Hn Hd Hi Hfuel Hmin Hmax Hfree Hcur Hheld HQ; [lia|].
  cbn [add_entry_loop]. pose proof Hd as (Hsz & _ & Hents). pose proof (gd_off _ _ _ _ _ Hg) as Hoff.
  assert (∀ j : nat, (j ≤ length l)%nat → ent_ok (Z.of_nat j)) as Hok by (unfold ent_ok; lia).
  assert (ent_ok (Z.of_nat i)) as Hoki by auto. destruct (ent_bounds _ Hoki) as (Hb & _). pose proof (slot_of_valid _ Hb) as Hv.
  apply wp_bind, (wp_next_entry s h n true (Z.of_nat i) cur); try done.
  { intros Hpos. destruct (lookup_lt_is_Some_2 l (i - 1) ltac:(lia)) as [e' He']. destruct (Hents _ _ He') as [Hz' _].
    by replace (Z.of_nat i - 1) with (Z.of_nat (i - 1)) by lia. }
  { intros _ Hz. destruct (decide (i = length l)) as [->|Hne]; [by apply Hfree|].
    destruct (lookup_lt_is_Some_2 l i ltac:(lia)) as [e He]. by destruct (Hents _ _ He) as [Hz' _]. }
  intros bs1 h1 Hl1 Hgr Hg1 Hz1 Hsame. set (k := ent_key bs1 (Z.of_nat i)).
  set (s1 := upd s ({[+ k +]} ⊎ (h1 ⊎ h)) bs1).
  assert (good s1) as Hgs1 by (by apply (good_upd L ib off p s (h1 ⊎ h))).
  pose proof (inode_frame _ _ _ _ s s1 n Hn eq_refl) as Hn1.
  pose proof (changed_grows L ib off p n s _ bs1 _ _ Hgs1 Hn Hv Hgr) as Hch1.
  assert (file_size bs1 = file_size (blocks s)) as Hsz1.
  { apply (gr_inode _ _ _ _ _ _ _ Hgr); unfold i_size, i_zone; lia. }
  apply wp_bind, wp_ld; [apply (inode_in_block L ib off p); [done|unfold i_size; lia|unfold i_size, sizeof_inode; lia]|].
  change (val 4 (blocks s1) ikey (off + i_size)) with (file_size bs1). rewrite Hsz1, Hsz.
  destruct (decide (i = length l)) as [Ei|Hlt].
  - rewrite (proj2 (Z.leb_le _ _)) by (unfold sizeof_dentry; lia). cbn [st_when]. apply wp_bind.
    assert (dir_free l = i) as Ef.
    { apply dir_free_first; [done|done|]. intros e He. rewrite Ei, lookup_ge_None_2 in He by done. done. }
    rewrite Ef in HQ. apply (wp_append_entry s1 n (Z.of_nat i)); [done|done|done|done|].
    intros s2 r' Hch2 Hh2 Hk2 Hsz2 Hcell2 Hlr Hrest. pose proof (ch_good _ _ _ _ _ _ _ Hch2) as Hg2.
    assert (zone_at (blocks s2) (slot_of (ent_block (Z.of_nat i))) ≠ 0) as Hz2 by (by rewrite (ch_keep _ _ _ _ _ _ _ Hch2)).
    change (ent_key (blocks s2) (Z.of_nat i) = k) in Hk2. rewrite <-Hk2.
    apply wp_bind, wp_ld; [apply (cell_in_block s2 _ Hg2 Hoki Hz2 2 d_nr); unfold d_nr; lia|].
    rewrite (cell_nr _ _ _ _ Hoki Hcell2). change (u16 0) with 0. cbn [Z.eqb negb].
    apply wp_name_entry; [done|apply (ch_inode _ _ _ _ _ _ _ Hch2)|done|done|done|].
    intros s3 Hcc. pose proof (cc_changed _ _ _ _ _ Hcc) as Hch3. rewrite <-(cc_key _ _ _ _ _ Hcc). apply (HQ s3 h1).
    + by apply (file_changed_trans _ _ _ _ _ _ s1); [|apply (file_changed_trans _ _ _ _ _ _ s2)].
    + done.
    + by rewrite (cc_key _ _ _ _ _ Hcc), Hk2, (cc_held _ _ _ _ _ Hcc), Hh2.
    + apply (dir_is_put s2 s3 n i l c r'); try done; [apply Hch3| |].
      * intros j e Hj He. destruct (Hents j e He) as (Hzj & r & Hr & Hcis). pose proof (lookup_lt_Some _ _ _ He).
        assert (ent_ok (Z.of_nat j)) as Hokj by (apply Hok; lia). destruct (ent_bounds _ Hokj) as (Hbj & _).
        destruct (cell_grows s _ bs1 _ 3 _ Hg Hg1 Hb Hgr Hokj Hzj) as [Ezj Ecj].
        assert (zone_at bs1 (slot_of (ent_block (Z.of_nat j))) ≠ 0) as Hzj1 by (by rewrite Ezj).
        split; [rewrite (ch_keep _ _ _ _ _ _ _ Hch2); [done|by apply slot_of_valid|done]|].
        exists r. split; [|done]. apply Hrest; [lia|done|done|]. change (blocks s1) with bs1. by rewrite Ecj.
      * rewrite Hsz2, dir_put_length, Ei, Nat.ltb_irrefl. unfold sizeof_dentry. lia.
  - rewrite (proj2 (Z.leb_gt _ _)) by (unfold sizeof_dentry; lia). cbn [st_when]. apply wp_bind, wp_ret.
    destruct (lookup_lt_is_Some_2 l i ltac:(lia)) as [e He]. destruct (Hents i e He) as (Hz & r & Hr & Hcis).
    destruct (Hsame (or_intror Hz)) as [-> ->]. clear Hsame Hgr.
    destruct (cell_read _ _ _ _ Hoki Hr Hcis) as (_ & _ & _ & _ & Hnr).
    apply wp_bind, wp_ld; [apply (cell_in_block s1 _ Hgs1 Hoki Hz 2 d_nr); unfold d_nr; lia|].
    change (val 2 (blocks s1) k (ent_off (Z.of_nat i) + d_nr)) with (val 2 (blocks s) (ent_key (blocks s) (Z.of_nat i)) (ent_off (Z.of_nat i) + d_nr)).
    rewrite Hnr. destruct (Z.eqb_spec e.1 0) as [E0|E0]; cbn [negb].
    + assert (dir_free l = i) as Ef by (apply dir_free_first; [done|done|intros e' He'; congruence]).
      rewrite Ef in HQ. destruct (cell_some s _ Hg Hoki Hz) as (_ & r2 & _ & _ & Hr2 & Hlr2 & _).
      assert (r2 = r) as -> by congruence. destruct (cell_free r e Hcis Hlr2 E0) as (r' & -> & Hlr').
      apply (wp_name_entry s1 n (Z.of_nat i) c); [done|done|done|done|done|].
      intros s3 Hcc. pose proof (cc_changed _ _ _ _ _ Hcc) as Hch3.
      assert (ent_key (blocks s1) (Z.of_nat i) = ent_key (blocks s3) (Z.of_nat i)) as -> by (by rewrite (cc_key _ _ _ _ _ Hcc)).
      apply (HQ s3 ∅); [by apply (file_changed_trans _ _ _ _ _ _ s1)|done|by rewrite (cc_key _ _ _ _ _ Hcc), (cc_held _ _ _ _ _ Hcc)|].
      apply (dir_is_put s1 s3 n i l c r'); try done; [apply Hch3| |].
      * intros j e' _ He'. by apply Hents.
      * change (blocks s1) with (blocks s). rewrite Hsz, dir_put_length, (proj2 (Nat.ltb_lt _ _)) by lia. done.
    + replace (Z.of_nat i + 1) with (Z.of_nat (S i)) by lia.
      apply (IH s1 (∅ ⊎ h) (S i) _ l); try done; try lia.
      * intros m e' Hm He'. destruct (decide (m = i)) as [->|]; [congruence|]. apply (Hmin m); [lia|done].
      * cbn [cur_ok]. split; [lia|]. by replace (Z.of_nat (S i) - 1) with (Z.of_nat i) by lia.
      * intros s' h' Hch' Hl' Hh' Hd'. apply (HQ s' h'); [by apply (file_changed_trans _ _ _ _ _ _ s1)|done| |done].
        rewrite Hh'. multiset_solver.
Qed.

Lemma name_no_separator c : Forall name_char c → existsb Str.IS_SEPARATOR (take (Z.to_nat MINIX1_NAME_LEN) c) = false.
Proof using.
  intros Hc. apply (Forall_take _ (Z.to_nat MINIX1_NAME_LEN)) in Hc. induction Hc as [|x l [_ Hx] _ IH]; [done|]. cbn. by rewrite Hx.
Qed.

Lemma wp_add_entry s n c l (Q : key * Z → fs → Prop) : name_ok c →
  good s → inode_at s n → dir_is (blocks s) l → ISDIR (val 2 (blocks s) ikey (off + i_mode)) = true → dir_find l c = None →
  Z.of_nat (length l) < TOTAL_BLOCK * BLOCK_DENTRIES →
  (zone_at (blocks s) (slot_of (ent_block (Z.of_nat (length l)))) = 0 → (2 < free_zones L (blocks s))%nat) →
  (∀ s' h', changed L ib off p n s s' → leaked h' → held s' = {[+ ent_key (blocks s') (Z.of_nat (dir_free l)) +]} ⊎ (h' ⊎ held s) →
     dir_is (blocks s') (dir_put l (dir_free l) (0, c)) →
     Q (ent_key (blocks s') (Z.of_nat (dir_free l)), ent_off (Z.of_nat (dir_free l))) s') →
  wp E (add_entry n c) Q s.
Proof using Hcover.
  intros Hc Hg Hn Hd Hdir Hnone Hmax Hfree HQ. pose proof (gd_off _ _ _ _ _ Hg) as Hoff. pose proof (proj2 Hc) as Hcc.
  unfold add_entry. apply wp_bind. rewrite <-(app_nil_r c) at 1. apply (wp_find_entry s n c [] l); try done; [by left|].
  rewrite Hnone. apply wp_bind, wp_check_true; [by rewrite name_no_separator|].
  pose proof Hn as (i & Hti & _ & Hdi & _). apply wp_bind. eapply wp_deref; [exact Hti|]. apply wp_bind. eapply wp_deref; [exact Hdi|].
  apply wp_bind, wp_ld; [apply (inode_in_block L ib off p); [done|unfold i_size; lia|unfold i_size, sizeof_inode; lia]|].
  fold (file_size (blocks s)). rewrite (proj1 Hd). change sizeof_dentry with 16.
  rewrite (Z.mul_comm 16), Z.div_mul, Nat2Z.id by done.
  apply (wp_add_entry_loop (S (S (length l))) n c Hc s (held s) 0 None l); try done; try lia.
  change (held s = ∅ ⊎ held s). by rewrite gmultiset_disj_union_left_id.
Qed.

(** The number of the inode is put into the entry. *)
Lemma wp_set_entry s n i nr c l (Q : unit → fs → Prop) nr' : good s → inode_at s n → dir_is (blocks s) l → l !! i = Some (nr, c) →
  0 ≤ nr' < 65536 →
  (∀ s', changed L ib off p n s s' → held s' = held s → dir_is (blocks s') (<[i := (nr', c)]> l) → Q tt s') →
  wp E (st 2 (ent_key (blocks s) (Z.of_nat i)) (ent_off (Z.of_nat i) + d_nr) nr') Q s.
Proof using Hcover.
  intros Hg Hn (Hsz & Hmax & Hents) He Hnr HQ. pose proof (lookup_lt_Some _ _ _ He) as Hlt.
  assert (∀ j : nat, (j < length l)%nat → ent_ok (Z.of_nat j)) as Hok by (unfold ent_ok; lia).
  destruct (Hents i _ He) as (Hz & r & Hr & (junk & -> & _ & Hc)). cbn [fst snd] in *. pose proof (Hok i Hlt) as Hoki.
  pose proof (cell_changed_store s n (Z.of_nat i) 0 (le_bytes 2 nr') Hg Hn Hoki Hz ltac:(lia) ltac:(by cbn) (le_bytes_range 2 nr')) as Hcc.
  apply wp_st; [apply (cell_in_block s _ Hg Hoki Hz); unfold d_nr; lia|].
  change (ent_off (Z.of_nat i) + 0) with (ent_off (Z.of_nat i) + d_nr) in Hcc. pose proof (cc_changed _ _ _ _ _ Hcc) as Hch.
  apply HQ; [done|apply (cc_held _ _ _ _ _ Hcc)|]. split; [by rewrite (cc_size _ _ _ _ _ Hcc), length_insert|].
  split; [by rewrite length_insert|]. intros j e Hj.
  assert (∃ e', l !! j = Some e' ∧ e = if decide (j = i) then (nr', c) else e') as (e' & He' & ->).
  { destruct (decide (j = i)) as [->|]; [rewrite list_lookup_insert_eq in Hj by done|rewrite list_lookup_insert_ne in Hj by done].
    - injection Hj as <-. by eexists.
    - by exists e. }
  destruct (Hents j e' He') as (Hzj & r & Hrj & Hcis). pose proof (lookup_lt_Some _ _ _ He') as Hltj.
  destruct (ent_bounds _ (Hok j Hltj)) as (Hbj & _).
  split; [rewrite (ch_keep _ _ _ _ _ _ _ Hch); [done|by apply slot_of_valid|done]|].
  eexists. split; [by apply (cc_cell _ _ _ _ _ Hcc); [apply Hok|..]|]. destruct (decide (j = i)) as [->|Hne].
  - rewrite decide_True by done. assert (r = le_bytes 2 nr ++ c ++ 0 :: junk) as -> by congruence. exists junk. split; [|done]. cbn [fst snd].
    change (Z.to_nat 0) with 0%nat. apply list_inserts_0_r. by rewrite !length_le_bytes.
  - by rewrite decide_False by lia.
Qed.
End walk.
End dir.

(** C3: [add_entry] followed by the store of an inode number puts the pair into the
    first free entry of the directory, or at its end; [find_entry] then finds it,
    gives the rest of the path, and answers for every other name as before.  Only
    the directory changes.  Names are those that [strncpy] keeps whole: at most 13
    characters.  A new block needs three free zones. *)
Theorem add_then_find L ib off p (s : fs) (n : nat) (l : list entry) (c : list Z) (e : Z)
    (Hcover : l_zones L ≤ l_fdz L - 1 + l_zmap L * BLOCK_BITS)
    (Hg : good L ib off p s) (Hn : inode_at L ib off p s n) (Hd : dir_is L ib off (blocks s) l)
    (Hdir : ISDIR (val 2 (blocks s) (ikey L ib) (off + i_mode)) = true) (Hc : name_ok c) (Hnew : dir_find l c = None)
    (He : 0 < e < 65536) (Hroom : Z.of_nat (length l) < TOTAL_BLOCK * BLOCK_DENTRIES)
    (Hfree : zone_at L ib off (blocks s) (slot_of (ent_block (Z.of_nat (length l)))) = 0 → (2 < free_zones L (blocks s))%nat) :
  wp no_stop (let* (k, o) := add_entry n c in st 2 k (o + d_nr) e) (λ _ s',
    changed L ib off p n s s' ∧ dir_is L ib off (blocks s') (dir_put l (dir_free l) (e, c)) ∧
    ∀ c' rest, Forall name_char c' → path_rest rest →
      wp no_stop (find_entry n (c' ++ rest)) (λ r s2, blocks s2 = blocks s' ∧
        r = (λ j : nat, (ent_key L ib off (blocks s') (Z.of_nat j), ent_off (Z.of_nat j), tl rest)) <$>
              (if decide (c' = c) then Some (dir_free l) else dir_find l c')) s') s.
Proof.
  apply wp_bind, (wp_add_entry L ib off p Hcover no_stop s n c l); try done.
  intros s1 h1 Hch1 Hl1 Hh1 Hd1. destruct (dir_free_spec l) as (Hle & _ & _).
  assert (dir_put l (dir_free l) (0, c) !! dir_free l = Some (0, c)) as Hlk by (by rewrite dir_put_lookup, decide_True).
  pose proof Hch1 as [Hg1 Hn1 _ _ _ _ _ _].
  apply (wp_set_entry L ib off p Hcover no_stop s1 n _ 0 c _ _ e Hg1 Hn1 Hd1 Hlk); [lia|].
  intros s2 Hch2 Hh2 Hd2. pose proof Hch2 as [Hg2 Hn2 _ _ _ _ _ _].
  assert (<[dir_free l := (e, c)]> (dir_put l (dir_free l) (0, c)) = dir_put l (dir_free l) (e, c)) as Eput.
  { apply list_eq. intros j. rewrite dir_put_lookup by done. pose proof (lookup_lt_Some _ _ _ Hlk).
    destruct (decide (j = dir_free l)) as [->|]; [by rewrite list_lookup_insert_eq|].
    by rewrite list_lookup_insert_ne, dir_put_lookup, decide_False. }
  rewrite Eput in Hd2. pose proof (file_changed_trans _ _ _ _ _ _ _ _ Hch1 Hch2) as Hch. split; [done|]. split; [done|].
  intros c' rest Hc' Hr. apply (wp_find_entry L ib off p Hcover no_stop s2 n c' rest _ _ Hc' Hr Hg2 Hn2 Hd2).
  - rewrite (ch_fields _ _ _ _ _ _ _ Hch); [done|]. pose proof (gd_off _ _ _ _ _ Hg). unfold other_field, i_mode, i_size. lia.
  - rewrite dir_put_find by (done || lia). by destruct (if decide (c' = c) then _ else _).
Qed.
