(* ===== verification/MinixTrunc.v ===== *)
(** * Truncating a file ([minix_truncate], [inode_bfree] of [src/src/fs/minix/minix.c])

    The walk over the tree of zones frees each zone once, blocks of indices
    included, and nothing else. *)
From stdpp Require Import gmultiset.
From S2P Require Import Prelude Fs Minix MinixZone MinixMap MinixBmap MinixFile.
Open Scope Z_scope.

(** The levels of the tree below a slot. *)
Fixpoint has_level (level : nat) (q : list Z) : Prop :=
  match level with
  | O => ∀ i, ¬ valid_slot (i :: q)
  | S level' => ∀ i, index_ok i → valid_slot (i :: q) ∧ has_level level' (i :: q)
  end.

Lemma root_level i : 0 ≤ i < 9 → has_level (if i <? 7 then 0%nat else if i =? 7 then 1%nat else 2%nat) [i].
Proof.
  intros Hi. destruct (Z.ltb_spec i 7); [intros j; cbn; lia|]. destruct (Z.eqb_spec i 7) as [->|].
  - intros j Hj. split; [by cbn; split|]. intros l. cbn. lia.
  - assert (i = 8) as -> by lia. intros j Hj. split; [by cbn; split|]. intros l Hl. split; [by cbn|]. by intros m Hm.
Qed.

Section trunc.
Context (L : layout) (ib off : Z) (p : nat).
Context (Hcover : l_zones L ≤ l_fdz L - 1 + l_zmap L * BLOCK_BITS).
Abbreviation zone_at := (zone_at L ib off).
Abbreviation array_of := (array_of L ib off).
Abbreviation ikey := (ikey L ib).
Abbreviation good := (good L ib off p).

(** The state at the beginning. *)
Context (s0 : fs) (Hg : good s0).
Context (Hfreeable : ∀ q, valid_slot q → zone_at (blocks s0) q ≠ 0 → freeable L (zone_at (blocks s0) q)).
Let bs0 := blocks s0.

(** The zones of the slots in [F] are freed, and the first [r] zones of the inode
    are cleared. *)
Record freed (F : list Z → Prop) (r : Z) (h : gmultiset key) (s : fs) : Prop := {
  fr_laid : laid_out s p L;
  fr_used : ∀ z, in_zmap L z →
    zone_used L (blocks s) z = true ↔ zone_used L bs0 z = true ∧ ∀ q, valid_slot q → F q → zone_at bs0 q = z → z = 0;
  fr_root : ∀ i, 0 ≤ i < 9 → val 2 (blocks s) ikey (off + i_zone i) = if i <? r then 0 else val 2 bs0 ikey (off + i_zone i);
  fr_inode : ∀ m o, 0 ≤ o → o + Z.of_nat m ≤ off + i_zone 0 ∨ off + i_zone 9 ≤ o → val m (blocks s) ikey o = val m bs0 ikey o;
  fr_same : ∀ k, k ≠ ikey → ¬ zmap_key L k → blocks s !! k = bs0 !! k;
  fr_held : held s = h;
  fr_tables : super_table s = super_table s0 ∧ inode_table s = inode_table s0 ∧ file_table s = file_table s0 ∧ task s = task s0 ∧ now s = now s0 }.

Lemma freed_start : freed (λ _, False) 0 (held s0) s0.
Proof using Hg.
  split; try done; [apply (gd_laid _ _ _ _ _ Hg)| |].
  - intros z _. split; [done|by intros [? _]].
  - intros i Hi. by rewrite (proj2 (Z.ltb_ge i 0)) by lia.
Qed.

Lemma freed_ext F F' r h s : (∀ q, valid_slot q → zone_at bs0 q ≠ 0 → F q ↔ F' q) → freed F r h s → freed F' r h s.
Proof using.
  intros HF [H1 H2 H3 H4 H5 H6 H7]. split; try done. intros z Hz. rewrite H2 by done.
  split; intros [Hu Hq]; (split; [done|]); intros q Hv Hf Ez; (destruct (decide (z = 0)) as [|Hne]; [done|]);
    apply (Hq q Hv); [apply HF; [done|congruence|done]|done|apply HF; [done|congruence|done]|done].
Qed.

Lemma zone_range q : valid_slot q → zone_at bs0 q ≠ 0 →
  l_fdz L ≤ zone_at bs0 q < l_zones L ∧ in_zmap L (zone_at bs0 q) ∧ zone_used L bs0 (zone_at bs0 q) = true.
Proof using Hg Hcover.
  intros Hv Hz. destruct (tr_zone _ _ _ _ (gd_tree _ _ _ _ _ Hg) q Hv Hz) as [Hr Hu].
  split; [done|]. split; [by apply data_zmap|done].
Qed.

Section ops.
Context (E : stop → Prop).

(** One zone is freed. *)
Lemma wp_free_slot F r h s q (Q : unit → fs → Prop) : freed F r h s → valid_slot q → zone_at bs0 q ≠ 0 → ¬ F q →
  (∀ s', freed (λ q', F q' ∨ q' = q) r h s' → Q tt s') → wp E (minix_bfree p (zone_at bs0 q)) Q s.
Proof using Hg Hcover Hfreeable.
  intros Hf Hv Hz HF HQ. destruct (zone_range q Hv Hz) as (Hr & Hin & Hu). pose proof Hf as [Hl H2 H3 H4 H5 H6 H7].
  apply (wp_bfree E p L s Hl); [done|done| |by apply Hfreeable|].
  - apply H2; [done|]. split; [done|]. intros q' Hv' HF' Ez. exfalso. apply HF.
    by rewrite (tr_inj _ _ _ _ (gd_tree _ _ _ _ _ Hg) q q' Hv Hv' (eq_sym Ez) Hz).
  - intros bs' Hch. apply HQ. pose proof (layout_pos L (lo_ok _ _ _ Hl)) as Hpos.
    pose proof (gd_inode _ _ _ _ _ Hg) as Hi. pose proof (zmap_index L _ Hin) as Hzi.
    assert (0 ≤ (zone_at bs0 q - (l_fdz L - 1)) `div` BLOCK_BITS) by (apply Z.div_pos; [lia|done]).
    assert (∀ k, ¬ zmap_key L k → bs' !! k = blocks s !! k) as Hlk.
    { intros k Hk. apply (changed_lookup _ _ _ _ _ _ Hch). intros ->. apply Hk. eexists. split; [|done]. lia. }
    assert (bs' !! ikey = blocks s !! ikey) as Hik.
    { apply Hlk. intros (j & Hj & [= E']). unfold l_zbase, l_itable in *. lia. }
    split; change (blocks (s <| blocks := bs' |>)) with bs'.
    + apply (changed_laid_out s p L bs' (l_zbase L) _ false Hl Hch). unfold l_zbase. pose proof (ly_imap _ (lo_ok _ _ _ Hl)). lia.
    + intros z Hzin. unfold zone_used. assert (0 ≤ zone_at bs0 q - (l_fdz L - 1)) as Hk by lia.
      rewrite (changed_mbit _ _ _ _ _ false Hk Hch) by (unfold in_zmap in Hzin; lia).
      fold (zone_used L bs0 z). destruct (Z.eqb_spec (z - (l_fdz L - 1)) (zone_at bs0 q - (l_fdz L - 1))) as [Ez|Ez].
      * assert (z = zone_at bs0 q) as -> by lia. split; [done|]. intros [_ Hq]. exfalso. apply Hz. apply (Hq q); auto.
      * change (mbit (blocks s) (l_dev L) (l_zbase L) (z - (l_fdz L - 1))) with (zone_used L (blocks s) z).
        rewrite H2 by done. split; intros [Hu' Hq]; (split; [done|]); intros q' Hv'.
        -- intros [HF'| ->] E'; [by apply (Hq q')|]. subst z. lia.
        -- intros HF'. apply (Hq q'); auto.
    + intros i Hii. unfold val. rewrite Hik. by apply H3.
    + intros m o Ho Hr'. unfold val. rewrite Hik. by apply H4.
    + intros k Hk Hzm. rewrite Hlk by done. by apply H5.
    + done.
    + done.
Qed.

(** The array of a slot that is not yet cleared. *)
Lemma freed_array F r h s i up : freed F r h s → valid_slot (i :: up) → up = [] ∨ zone_at bs0 up ≠ 0 → (up = [] → r ≤ i) →
  in_block 2 (blocks s) (array_of bs0 up).1 ((array_of bs0 up).2 + 2 * i) ∧
  val 2 (blocks s) (array_of bs0 up).1 ((array_of bs0 up).2 + 2 * i) = zone_at bs0 (i :: up).
Proof using Hg.
  intros Hf Hv Hup Hr. pose proof (layout_pos L (lo_ok _ _ _ (fr_laid _ _ _ _ Hf))) as Hpos.
  destruct (good_array L ib off p s0 i up Hg Hv Hup) as (j & Ej & Hj & H0 & H1). fold bs0 in Ej, H0, H1.
  split; [rewrite Ej; apply blk_in_block; [apply (lo_blocks _ _ _ (fr_laid _ _ _ _ Hf)); lia|done|exact H1]|].
  rewrite <-(array_val L ib off bs0 i up Hup). destruct (valid_index i up Hv) as [[-> Hi]|[Hne Hi]].
  - cbn [MinixMap.array_of fst snd]. replace (off + i_zone 0 + 2 * i) with (off + i_zone i) by (unfold i_zone; lia).
    rewrite (fr_root _ _ _ _ Hf) by done. rewrite (proj2 (Z.ltb_ge _ _)); [done|]. by apply Hr.
  - destruct Hup as [|Hz]; [done|]. pose proof (valid_up i up Hv Hne) as Hvu.
    destruct (zone_facts L ib off p s0 up Hg Hvu Hz) as (Hk1 & Hk2 & _). destruct up as [|u l]; [done|].
    cbn [MinixMap.array_of fst snd]. unfold val. by rewrite (fr_same _ _ _ _ Hf).
Qed.

Lemma freed_held F r h h' s : freed F r h s → freed F r h' (s <| held := h' |>).
Proof using. intros [H1 H2 H3 H4 H5 H6 H7]. split; try done. by apply laid_out_held. Qed.

(** The tree below a slot is freed. *)
Lemma wp_inode_bfree level : ∀ F r h s i up (Q : unit → fs → Prop),
  freed F r h s → valid_slot (i :: up) → has_level level (i :: up) → up = [] ∨ zone_at bs0 up ≠ 0 → (up = [] → r ≤ i) →
  (∀ q, valid_slot q → F q → ¬ (i :: up) `suffix_of` q) →
  (∀ s', freed (λ q, F q ∨ (i :: up) `suffix_of` q) r h s' → Q tt s') →
  wp E (inode_bfree level p (l_dev L) (array_of bs0 up).1 (array_of bs0 up).2 i) Q s.
Proof using Hg Hcover Hfreeable.
  induction level as [|level IH]; intros F r h s i up Q Hf Hv Hlev Hup Hr HF HQ; cbn [inode_bfree];
    destruct (freed_array F r h s i up Hf Hv Hup Hr) as [Hin Hval];
    (apply wp_bind, wp_ld; [exact Hin|]); rewrite Hval;
    (destruct (Z.eqb_spec (zone_at bs0 (i :: up)) 0) as [Hz|Hz];
      [apply wp_ret, HQ; apply (freed_ext F); [|done]; intros q _ Hzq; split; [by left|];
       intros [?|Hs]; [done|]; by destruct Hzq; apply (zone_at_zero L ib off _ (i :: up))|]).
  - apply (wp_free_slot F r h s); [done|done|done|by intros HF'; apply (HF _ Hv HF')|].
    intros s' Hf'. apply HQ. apply (freed_ext (λ q', F q' ∨ q' = i :: up)); [|done]. intros q Hq _. split; (intros [?|Hq']; [by left|right]).
    + by rewrite Hq'.
    + destruct Hq' as [[|j l] ->]; [done|]. exfalso.
      destruct (exists_last (l := j :: l) ltac:(done)) as (l' & m & El). rewrite El, <-app_assoc in Hq.
      apply (Hlev m), (valid_suffix (l' ++ [m] ++ i :: up)); [done|by exists l'|done].
  - destruct (zone_range _ Hv Hz) as (Hzr & _ & _). set (z := zone_at bs0 (i :: up)) in *.
    pose proof (layout_pos L (lo_ok _ _ _ (fr_laid _ _ _ _ Hf))) as Hpos.
    destruct (lo_blocks _ _ _ (fr_laid _ _ _ _ Hf) z ltac:(lia)) as (b & Hb & _).
    apply wp_bind, wp_bread_block; [by eexists|].
    assert (s <| held $= λ h, {[+ (l_dev L, z) +]} ⊎ h |> = s <| held := {[+ (l_dev L, z) +]} ⊎ h |>) as ->
      by (rewrite <-(fr_held _ _ _ _ Hf); by destruct s).
    apply wp_bind. set (I := λ k : Z, freed (λ q, F q ∨ ∃ j, 0 ≤ j < k ∧ (j :: i :: up) `suffix_of` q) r ({[+ (l_dev L, z) +]} ⊎ h)).
    eapply wp_conseq; [apply (wp_for_seq E BLOCK_INDEXES _ I); [done| |]|].
    + intros j s1 Hj HI. destruct (Hlev j Hj) as [Hvj Hlj].
      change (l_dev L, z) with (array_of bs0 (i :: up)).1 at 1. change 0 with (array_of bs0 (i :: up)).2 at 1.
      apply (IH _ r _ s1 j (i :: up) _ HI Hvj Hlj); [by right|done| |].
      * intros q Hq [Hq'|(j' & Hj' & Hs')] Hs.
        -- apply (HF q Hq Hq'). etrans; [|done]. by apply suffix_cons_r.
        -- destruct Hs as [l1 E1], Hs' as [l2 E2]. rewrite E1 in E2.
           change (l1 ++ [j] ++ i :: up = l2 ++ [j'] ++ i :: up) in E2. rewrite !app_assoc in E2.
           apply app_inv_tail, app_inj_tail in E2 as [_ ?]. lia.
      * intros s2 Hf2. eapply freed_ext; [|exact Hf2]. intros q _ _. cbn. split.
        -- intros [[?|(j' & ? & ?)]|Hs]; [by left|right; exists j'; split; [lia|done]|right; exists j; split; [lia|done]].
        -- intros [?|(j' & Hj' & Hs)]; [left; by left|]. destruct (decide (j' = j)) as [->|]; [by right|].
           left. right. exists j'. split; [lia|done].
    + eapply freed_ext; [|apply (freed_held _ _ _ ({[+ (l_dev L, z) +]} ⊎ h) _ Hf)].
      intros q _ _. split; [by left|]. intros [?|(j & ? & _)]; [done|lia].
    + intros [] s1 HI. apply wp_bind, wp_brelse; [rewrite (fr_held _ _ _ _ HI); multiset_solver|].
      assert (s1 <| held $= λ x, x ∖ {[+ (l_dev L, z) +]} |> = s1 <| held := h |>) as ->.
      { unfold modify. cbn. f_equal. apply release_eq. apply (fr_held _ _ _ _ HI). }
      pose proof (freed_held _ _ _ h _ HI) as HI2. set (s2 := s1 <| held := h |>) in *.
      destruct (freed_array _ _ _ s2 i up HI2 Hv Hup Hr) as [Hin2 Hval2].
      apply wp_bind, wp_ld; [exact Hin2|]. rewrite Hval2. fold z. apply (wp_free_slot _ _ _ s2 (i :: up) Q HI2 Hv Hz).
      * intros [HF'|(j & _ & [l El])]; [by apply (HF _ Hv HF')|].
        apply (f_equal length) in El. rewrite length_app in El. cbn in El. lia.
      * intros s3 Hf3. apply HQ. eapply freed_ext; [|exact Hf3]. intros q Hq _. cbn. split.
        -- intros [[?|(j & ? & Hs)]| ->]; [by left| |by right]. right. etrans; [|exact Hs]. by apply suffix_cons_r.
        -- intros [?|[l ->]]; [left; by left|]. destruct l as [|j l]; [by right|left; right].
           destruct (exists_last (l := j :: l) ltac:(done)) as (l' & m & El). rewrite El, <-app_assoc in Hq |- *.
           pose proof (valid_suffix (l' ++ [m] ++ i :: up) ([m] ++ i :: up) Hq ltac:(by exists l') ltac:(done)) as Hvm.
           exists m. split; [|by exists l']. destruct (valid_index m (i :: up) Hvm) as [[? _]|[_ Hm]]; [done|exact Hm].
Qed.

Lemma wp_assoc {A} (m1 m2 : ST fs unit) (k : ST fs A) (Q : A → fs → Prop) s :
  wp E (do! m1; m2) (λ _, wp E k Q) s → wp E (do! m1; do! m2; k) Q s.
Proof using. unfold wp, st_bind. destruct (m1 s) as [[? s1]|]; [|done]. by destruct (m2 s1) as [[]|]. Qed.

(** The first [r] zones of the inode are freed and cleared. *)
Definition first_slots (r : Z) (q : list Z) : Prop := ∃ j, 0 ≤ j < r ∧ [j] `suffix_of` q.
Let root := off + i_zone 0.

Lemma root_in_block s m o : laid_out s p L → 0 ≤ o → o + Z.of_nat m ≤ off + sizeof_inode → in_block m (blocks s) ikey o.
Proof using Hg.
  intros Hl H0 Hm. pose proof (layout_pos L (lo_ok _ _ _ Hl)) as Hpos. pose proof (ly_zones _ (lo_ok _ _ _ Hl)).
  pose proof (gd_inode _ _ _ _ _ Hg). pose proof (gd_off _ _ _ _ _ Hg). unfold sizeof_inode in Hm.
  apply blk_in_block; [apply (lo_blocks _ _ _ Hl); lia|done|change BLOCK_SIZE with 1024; lia].
Qed.

Lemma freed_clear F r h s : 0 ≤ r < 9 → freed F r h s →
  freed F (r + 1) h (s <| blocks := put (blocks s) ikey (root + 2 * r) (le_bytes 2 0) |>).
Proof using Hg.
  intros Hr [H1 H2 H3 H4 H5 H6 H7]. pose proof (layout_pos L (lo_ok _ _ _ H1)) as Hpos. pose proof (ly_zones _ (lo_ok _ _ _ H1)).
  pose proof (gd_inode _ _ _ _ _ Hg) as Hi. pose proof (gd_off _ _ _ _ _ Hg) as Hoff.
  assert (root + 2 * r = off + i_zone r) as -> by (unfold root, i_zone; lia).
  set (bs := put (blocks s) ikey (off + i_zone r) (le_bytes 2 0)). assert (∀ k, k ≠ ikey → bs !! k = blocks s !! k) as Hlk by (intros k Hk; by apply put_lookup_other).
  split; change (blocks (s <| blocks := bs |>)) with bs.
  - pose proof (laid_put L p s (held s) ib (off + i_zone r) (le_bytes 2 0) H1 ltac:(lia) (le_bytes_range 2 0)) as Hl.
    by destruct s.
  - intros z Hz. rewrite <-H2 by done. unfold zone_used, mbit. rewrite Hlk; [done|]. intros [= E'].
    assert ((z - (l_fdz L - 1)) `div` BLOCK_BITS < l_zmap L) by (by apply zmap_index). unfold l_zbase, l_itable in *. lia.
  - intros i Hii. destruct (decide (i = r)) as [->|Hne].
    + rewrite (proj2 (Z.ltb_lt _ _)) by lia. unfold bs.
      rewrite val_put_same; [done|]. apply root_in_block; [done|unfold i_zone; lia|unfold i_zone, sizeof_inode; lia].
    + unfold bs. rewrite val_put_other by (right; rewrite length_le_bytes; unfold i_zone in *; lia). rewrite H3 by done.
      destruct (Z.ltb_spec i r), (Z.ltb_spec i (r + 1)); try lia; done.
  - intros m o Ho Hm. unfold bs. rewrite val_put_other by (right; rewrite length_le_bytes; unfold i_zone in *; lia). by apply H4.
  - intros k Hk Hz. rewrite Hlk by done. by apply H5.
  - done.
  - done.
Qed.

Lemma wp_root_slot level r h s (Q : unit → fs → Prop) : 0 ≤ r < 9 → has_level level [r] → freed (first_slots r) r h s →
  (∀ s', freed (first_slots (r + 1)) (r + 1) h s' → Q tt s') →
  wp E (do! inode_bfree level p (l_dev L) ikey root r; st 2 ikey (root + 2 * r) 0) Q s.
Proof using Hg Hcover Hfreeable.
  intros Hr Hlev Hf HQ. apply wp_bind. change ikey with (array_of bs0 []).1 at 1. change root with (array_of bs0 []).2 at 1.
  apply (wp_inode_bfree level (first_slots r) r h s r []); [done|done|done|by left|lia| |].
  - intros q _ (j & Hj & [l1 E1]) [l2 E2]. rewrite E1 in E2. apply app_inj_tail in E2 as [_ ?]. lia.
  - intros s1 Hf1. apply wp_st; [apply root_in_block; [apply Hf1|..]; unfold root, i_zone, sizeof_inode; pose proof (gd_off _ _ _ _ _ Hg); lia|].
    apply HQ. apply freed_clear; [done|]. eapply freed_ext; [|exact Hf1]. intros q _ _. cbn. split.
    + intros [(j & ? & ?)|Hs]; [exists j; split; [lia|done]|exists r; split; [lia|done]].
    + intros (j & Hj & Hs). destruct (decide (j = r)) as [->|]; [by right|left]. exists j. split; [lia|done].
Qed.

(** The fields before the zones. *)
Record freed_zones (s : fs) : Prop := {
  fz_laid : laid_out s p L;
  fz_used : ∀ z, in_zmap L z →
    zone_used L (blocks s) z = true ↔ zone_used L bs0 z = true ∧ ∀ q, valid_slot q → zone_at bs0 q = z → z = 0;
  fz_zones : ∀ q, valid_slot q → zone_at (blocks s) q = 0;
  fz_fields : ∀ m o, other_field off m o → val m (blocks s) ikey o = val m bs0 ikey o;
  fz_same : ∀ k, k ≠ ikey → ¬ zmap_key L k → blocks s !! k = bs0 !! k;
  fz_held : held s = held s0;
  fz_tables : super_table s = super_table s0 ∧ file_table s = file_table s0 ∧ task s = task s0 ∧ now s = now s0 }.

Lemma slot_root q : valid_slot q → ∃ i, 0 ≤ i < 9 ∧ [i] `suffix_of` q.
Proof using.
  destruct q as [|i q _] using rev_ind; [done|]. intros Hv. exists i. split; [|by exists q].
  assert (valid_slot [i]) as Hi by (apply (valid_suffix (q ++ [i])); [done|by exists q|done]). exact Hi.
Qed.

Lemma freed_all s : freed (first_slots 9) 9 (held s0) s → freed_zones s.
Proof using.
  intros [H1 H2 H3 H4 H5 H6 H7]. split; [done| | | |done|done|tauto].
  - intros z Hz. rewrite H2 by done. split; intros [Hu Hq]; (split; [done|]); intros q Hv; [|intros _; by apply Hq].
    apply Hq; [done|]. destruct (slot_root q Hv) as (i & Hi & Hs). by exists i.
  - intros q Hv. destruct (slot_root q Hv) as (i & Hi & Hs). apply (zone_at_zero L ib off _ [i]); [done|done|].
    cbn [MinixMap.zone_at]. rewrite H3 by done. by rewrite (proj2 (Z.ltb_lt _ _)) by lia.
  - intros m o [Ho Hr]. apply H4; [done|]. unfold i_size, i_gid, i_zone in *. lia.
Qed.

(** A store before the zones. *)
Lemma freed_zones_store s o v t : freed_zones s → 0 ≤ o → o + Z.of_nat 4 ≤ off + i_zone 0 →
  off + i_size ≤ o → o + Z.of_nat 4 ≤ off + i_gid →
  freed_zones (s <| blocks := put (blocks s) ikey o (le_bytes 4 v) |> <| inode_table := t |>).
Proof using Hg.
  intros [H1 H2 H3 H4 H5 H6 H7] Ho Hr Hs1 Hs2. pose proof (layout_pos L (lo_ok _ _ _ H1)) as Hpos.
  pose proof (ly_zones _ (lo_ok _ _ _ H1)). pose proof (gd_inode _ _ _ _ _ Hg) as Hi.
  set (bs := put (blocks s) ikey o _). assert (∀ k, k ≠ ikey → bs !! k = blocks s !! k) as Hlk by (intros k Hk; by apply put_lookup_other).
  split; change (blocks (s <| blocks := bs |> <| inode_table := t |>)) with bs; try done.
  - pose proof (laid_put L p s (held s) ib o (le_bytes 4 v) H1 ltac:(lia) (le_bytes_range 4 v)) as Hl.
    destruct Hl as [? ? ? ? ? ? ? ?]. by split.
  - intros z Hz. rewrite <-H2 by done. unfold zone_used, mbit. rewrite Hlk; [done|]. intros [= E'].
    assert ((z - (l_fdz L - 1)) `div` BLOCK_BITS < l_zmap L) by (by apply zmap_index). unfold l_zbase, l_itable in *. lia.
  - intros q Hv. destruct (slot_root q Hv) as (i & Hii & Hsf). apply (zone_at_zero L ib off _ [i]); [done|done|].
    cbn [MinixMap.zone_at]. unfold bs. rewrite val_put_other by (right; rewrite length_le_bytes; unfold i_zone in *; lia).
    exact (H3 [i] Hii).
  - intros m x [Hx Hxr]. unfold bs. rewrite val_put_other by (right; rewrite length_le_bytes; unfold i_zone, i_size, i_gid in *; lia).
    by apply H4.
  - intros k Hk Hz. rewrite Hlk by done. by apply H5.
Qed.

Definition truncatable : bool :=
  let m := val 2 bs0 ikey (off + i_mode) in ISFILE m || ISDIR m.

Lemma wp_truncate n (Q : Z → fs → Prop) : inode_at L ib off p s0 n →
  (truncatable = false → Q (- EPERM) s0) →
  (truncatable = true → ∀ s', freed_zones s' → file_size L ib off (blocks s') = 0 →
     val 4 (blocks s') ikey (off + i_mtime) = u32 (now s0) →
     inode_table s' = alter (λ i, i <| size := 0 |>) n (inode_table s0) → Q EOK s') →
  wp E (minix_truncate n) Q s0.
Proof using Hg Hcover Hfreeable.
  intros (i & Hti & Hdev & Hdi & _ & Hsi) HQe HQ. pose proof (gd_off _ _ _ _ _ Hg) as Hoff. pose proof (gd_laid _ _ _ _ _ Hg) as Hl.
  unfold minix_truncate. apply wp_bind. eapply wp_deref; [exact Hti|]. apply wp_bind. eapply wp_deref; [exact Hdi|].
  apply wp_bind, wp_ld; [apply root_in_block; [done|unfold i_mode; lia|unfold i_mode, sizeof_inode; lia]|].
  rewrite <-negb_orb.
  unfold truncatable in HQe, HQ. unfold bs0 in HQe, HQ.
  destruct (ISFILE (val 2 (blocks s0) ikey (off + i_mode)) || ISDIR (val 2 (blocks s0) ikey (off + i_mode))); cbn [negb];
    [|apply wp_ret, HQe; reflexivity].
  apply wp_bind. eapply wp_deref; [exact Hsi|]. rewrite Hdev. fold root.
  apply wp_bind. set (I := λ r : Z, freed (first_slots r) r (held s0)).
  eapply wp_conseq; [apply (wp_for_seq E DIRECT_BLOCK _ I); [done| |]|].
  - intros j s Hj HI. change DIRECT_BLOCK with 7 in Hj.
    apply (wp_root_slot 0 j (held s0)); [lia| |exact HI|by intros s' Hf].
    pose proof (root_level j ltac:(lia)) as Hlv. by rewrite (proj2 (Z.ltb_lt _ _)) in Hlv by lia.
  - unfold I. eapply freed_ext; [|apply freed_start]. intros q _ _. split; [done|]. intros (j & ? & _). lia.
  - intros [] s1 H1. change (I DIRECT_BLOCK s1) with (freed (first_slots 7) 7 (held s0) s1) in H1.
    change DIRECT_BLOCK with 7. apply wp_assoc, (wp_root_slot 1 7 (held s0)); [lia|by apply (root_level 7)|exact H1|].
    intros s2 H2. change (7 + 1) with 8 in H2 |- *.
    apply wp_assoc, (wp_root_slot 2 8 (held s0)); [lia|by apply (root_level 8)|exact H2|].
    intros s3 H3. change (8 + 1) with 9 in H3. apply freed_all in H3 as H3'.
    apply wp_bind, wp_st; [apply root_in_block; [apply H3|unfold i_size; lia|unfold i_size, sizeof_inode; lia]|].
    assert (off + i_size + Z.of_nat 4 ≤ off + i_mtime ∧ off + i_mtime + Z.of_nat 4 ≤ off + i_gid ∧ off + i_gid ≤ off + i_zone 0) as (B1 & B2 & B3)
      by (unfold i_size, i_mtime, i_gid, i_zone; lia).
    assert (0 ≤ i_size) as B4 by done.
    pose proof (freed_zones_store s3 (off + i_size) 0 (alter (λ i, i <| size := 0 |>) n (inode_table s0)) H3') as H4.
    set (s4 := s3 <| blocks := _ |> <| inode_table := _ |>) in H4. assert (freed_zones s4) as H4' by (apply H4; lia).
    assert (inode_table s3 = inode_table s0) as Et by apply (fr_tables _ _ _ _ H3).
    apply wp_bind, wp_mod. match goal with |- wp _ _ _ ?x => assert (x = s4) as -> end.
    { unfold s4, modify. cbn. by rewrite Et. }
    clear H4. apply wp_bind, wp_gets, wp_bind.
    assert (in_block 4 (blocks s4) ikey (off + i_mtime)) as Hin
      by (apply root_in_block; [apply H4'|unfold i_mtime; lia|unfold i_mtime, sizeof_inode; lia]).
    apply wp_st; [exact Hin|]. apply wp_ret.
    set (bs := put (blocks s4) ikey (off + i_mtime) (le_bytes 4 (now s4))).
    assert (s4 <| blocks := bs |> = s4 <| blocks := bs |> <| inode_table := inode_table s4 |>) as -> by reflexivity. unfold bs; clear bs.
    apply (HQ eq_refl (s4 <| blocks := put (blocks s4) ikey (off + i_mtime) (le_bytes 4 (now s4)) |> <| inode_table := inode_table s4 |>)).
    + apply (freed_zones_store s4 (off + i_mtime) (now s4)); [done|lia..].
    + unfold file_size. change (blocks (s4 <| blocks := ?x |> <| inode_table := ?t |>)) with x.
      rewrite val_put_other by (right; rewrite length_le_bytes; lia).
      change (blocks s4) with (put (blocks s3) ikey (off + i_size) (le_bytes 4 0)).
      rewrite val_put_same; [done|]. apply root_in_block; [apply H3|unfold i_size; lia|unfold i_size, sizeof_inode; lia].
    + change (blocks (s4 <| blocks := ?x |> <| inode_table := ?t |>)) with x. rewrite val_put_same by exact Hin. pose proof (fz_tables _ H4') as (_ & _ & _ & ->). done.
    + done.
Qed.
End ops.
End trunc.

(** C29: truncating a regular file or a directory frees exactly the zones of its
    tree, blocks of indices included and each once, clears the nine slots and the
    size, and sets the time; no other zone, block, field or hold changes.  An inode
    of another kind is refused and nothing changes. *)
Theorem truncate_frees L ib off p (s : fs) (n : nat)
    (Hcover : l_zones L ≤ l_fdz L - 1 + l_zmap L * BLOCK_BITS)
    (Hg : good L ib off p s) (Hi : inode_at L ib off p s n)
    (Hfreeable : ∀ q, valid_slot q → zone_at L ib off (blocks s) q ≠ 0 → freeable L (zone_at L ib off (blocks s) q)) :
  wp no_stop (minix_truncate n) (λ r s',
    if truncatable L ib off s
    then r = EOK ∧ freed_zones L ib off p s s' ∧ file_size L ib off (blocks s') = 0 ∧
      val 4 (blocks s') (ikey L ib) (off + i_mtime) = u32 (now s) ∧
      inode_table s' = alter (λ i, i <| size := 0 |>) n (inode_table s)
    else r = - EPERM ∧ s' = s) s.
Proof. apply (wp_truncate L ib off p); try done; by intros ->. Qed.
