(* ===== verification/MinixDemo.v ===== *)
(** * A small minix file system

    Eight blocks on device 3: the super block, one block for each bitmap, the
    table of inodes in block 4 and three data zones.  The theorems on minix.c
    are applied to it. *)
From stdpp Require Import gmultiset.
From S2P Require Import Prelude Fs Minix MinixZone MinixMap MinixBmap MinixFile MinixDir MinixTrunc.
From S2P Require Bitmap.
Open Scope Z_scope.

Definition demo_layout : layout := mk_layout 3 32 8 1 1 5.
Definition zeros (n : nat) : list Z := replicate n 0.
Definition demo_super_block : list Z :=
  [32; 0; 8; 0; 1; 0; 1; 0; 5; 0; 0; 0; 0; 0x1c; 8; 0x10; 0x7f; 0x13] ++ zeros 1006.
(** Zones 5, 6 and 7 are free. *)
Definition demo_zmap : list Z := 0xf1 :: replicate 1023 0xff.

Definition demo_blocks (itable : list Z) : gmap key (list Z) :=
  list_to_map [((3, 0), zeros 1024); ((3, 1), demo_super_block); ((3, 2), 3 :: zeros 1023);
    ((3, 3), demo_zmap); ((3, 4), itable); ((3, 5), zeros 1024); ((3, 6), zeros 1024); ((3, 7), zeros 1024)].

Definition demo_super : super_t := mk_super (Some (3, 1)) 3 1 FS_TYPE_MINIX SECTOR_SIZE BLOCK_SIZE [1%nat] None None.

Definition demo_task : task_t := mk_task 1000 100 0x12 (replicate 16 None) 0 0 [47].

Definition demo_fs (itable : list Z) (inodes : list inode_t) : fs :=
  mk_fs (demo_blocks itable) ∅ inodes [demo_super] [] demo_task 1700000000.

(** A check of [blk_ok] by computation. *)
Definition blk_okb (b : list Z) : bool :=
  (Z.of_nat (length b) =? BLOCK_SIZE) && forallb (λ v, (0 <=? v) && (v <? 256)) b.

Lemma blk_okb_ok bs k b : bs !! k = Some b → blk_okb b = true → blk_ok bs k.
Proof.
  intros Hb H. apply andb_prop in H as [H1 H2]. exists b. split; [done|]. split; [by apply Z.eqb_eq|].
  apply Forall_forall. intros v Hv. apply forallb_forall with (x := v) in H2; [|by apply list_elem_of_In].
  apply andb_prop in H2 as [? ?]. lia.
Qed.

Lemma demo_layout_ok : layout_ok demo_layout.
Proof. by split. Qed.

Lemma demo_laid_out itable inodes : blk_okb itable = true → laid_out (demo_fs itable inodes) 0 demo_layout.
Proof.
  intros Hi. split; [apply demo_layout_ok|by eexists| |by vm_compute..].
  intros i Hr. cbn in Hr.
  assert (i = 0 ∨ i = 1 ∨ i = 2 ∨ i = 3 ∨ i = 4 ∨ i = 5 ∨ i = 6 ∨ i = 7) as H by lia.
  repeat destruct H as [->|H]; [..|subst i]; (eapply blk_okb_ok; [reflexivity|]; first [exact Hi|by vm_compute]).
Qed.

Lemma ones_byte m : 0 ≤ m < 8 → Z.testbit 0xff m = true.
Proof. intros Hr. change 0xff with (Z.ones 8). apply Z.ones_spec_low. lia. Qed.

Lemma demo_zmap_bit j : 4 ≤ j < 8192 → Bitmap.bit demo_zmap j = true.
Proof.
  intros Hj. unfold Bitmap.bit.
  assert (0 ≤ j `mod` 8 < 8) as Hm by (Z.div_mod_to_equations; lia).
  assert (0 ≤ j `div` 8 < 1024) as Hd by (Z.div_mod_to_equations; lia).
  destruct (Z.to_nat (j `div` 8)) as [|n] eqn:En.
  - assert (4 ≤ j `mod` 8) as Hm4 by (Z.div_mod_to_equations; lia). clear En Hd Hj. revert Hm4 Hm.
    generalize (j `mod` 8). intros m Hm4 Hm. assert (m = 4 ∨ m = 5 ∨ m = 6 ∨ m = 7) as H by lia.
    by repeat destruct H as [->|H]; [..|subst m].
  - unfold demo_zmap. change ((?a :: ?l) !! S n) with (l !! n).
    rewrite lookup_replicate_2 by lia. by apply ones_byte.
Qed.

Lemma demo_tail itable : tail_marked demo_layout (demo_blocks itable).
Proof.
  intros z [Hz1 Hz2] Hu. unfold zone_used, mbit in Hu.
  change (l_fdz demo_layout) with 5 in *. change (l_zmap demo_layout) with 1 in *.
  change (l_zones demo_layout) with 8. change BLOCK_BITS with 8192 in *.
  rewrite Z.div_small, Z.mod_small in Hu by lia.
  assert (demo_blocks itable !! (l_dev demo_layout, l_zbase demo_layout + 0) = Some demo_zmap) as E by done.
  rewrite E in Hu. destruct (Z.lt_ge_cases z 8); [|by rewrite demo_zmap_bit in Hu by lia].
  assert (z = 4 ∨ 5 ≤ z) as [->|?] by lia; [by vm_compute in Hu|lia].
Qed.

Lemma balloc_bfree_witness : laid_out (demo_fs (zeros 1024) []) 0 demo_layout ∧
  wp no_stop (minix_balloc 0) (λ z s', z = 5 ∧ wp no_stop (minix_bfree 0 5) (λ _ s2, zone_used demo_layout (blocks s2) 5 = false) s')
    (demo_fs (zeros 1024) []).
Proof.
  pose proof (demo_laid_out (zeros 1024) [] ltac:(by vm_compute)) as Hl. split; [exact Hl|].
  eapply wp_conseq; [exact (balloc_bfree _ _ _ Hl (demo_tail _))|].
  assert (zone_used demo_layout (demo_blocks (zeros 1024)) 5 = false) as E5 by (by vm_compute).
  assert (in_zmap demo_layout 5) as I5 by (unfold in_zmap; cbn; change BLOCK_BITS with 8192; lia).
  intros z s' [(_ & Hall & _)|(Hr & Hf & Hmin & _ & _ & _ & Hfree)].
  { specialize (Hall 5 I5). change (zone_used demo_layout (demo_blocks (zeros 1024)) 5 = true) in Hall. by rewrite E5 in Hall. }
  cbn [l_fdz l_zones demo_layout] in Hr.
  assert (z = 5) as ->.
  { destruct (Z.lt_ge_cases 5 z) as [H|]; [|lia]. specialize (Hmin 5 I5 H).
    change (zone_used demo_layout (demo_blocks (zeros 1024)) 5 = true) in Hmin. by rewrite E5 in Hmin. }
  split; [done|]. eapply wp_conseq; [apply Hfree; vm_compute; done|].
  intros _ s2 (_ & Hz & _). rewrite Hz by done. exact E5.
Defined.

(** ** An empty file or directory: inode 2 *)
Definition demo_itable (dir : bool) : list Z :=
  zeros 32 ++ (if dir then [0xed; 0x41] else [0xa4; 0x81]) ++ [0xe8; 3] ++ zeros 9 ++ [1] ++ zeros 978.
Definition demo_inode (dir : bool) : inode_t :=
  mk_inode (Some ((3, 4), 32)) (Some (3, 4)) 3 0 2 1 0 0 0 0 (if dir then 0x41ed else 0x81a4) 0 FS_TYPE_MINIX 1000 0 (Some 0%nat)
    (Some FS_TYPE_MINIX) None None.
Definition demo_file (dir : bool) : fs := demo_fs (demo_itable dir) [empty_inode; demo_inode dir].

Lemma val_zeros n k bs off m : bs !! k = Some (zeros m) → val n bs k off = 0.
Proof.
  intros Hb. unfold val. rewrite Hb. unfold slice, zeros. rewrite drop_replicate, take_replicate. apply le_zeros.
Qed.

Lemma demo_no_zones dir q : valid_slot q → zone_at demo_layout 4 32 (blocks (demo_file dir)) q = 0.
Proof.
  intros Hq. destruct q as [|i q] using rev_ind; [done|]. clear IHq.
  apply (zone_at_zero demo_layout 4 32 _ [i]); [by exists q|done|].
  assert (valid_slot [i]) as Hi by (apply (valid_suffix (q ++ [i])); [done|by exists q|done]).
  cbn in Hi. cbn [zone_at].
  assert (i = 0 ∨ i = 1 ∨ i = 2 ∨ i = 3 ∨ i = 4 ∨ i = 5 ∨ i = 6 ∨ i = 7 ∨ i = 8) as H by lia.
  repeat destruct H as [->|H]; [..|subst i]; destruct dir; by vm_compute.
Qed.

Lemma demo_good dir : good demo_layout 4 32 0 (demo_file dir).
Proof.
  split.
  - apply (demo_laid_out (demo_itable dir)). destruct dir; vm_compute; reflexivity.
  - by vm_compute.
  - done.
  - split; intros q; [intros Hq|intros q' Hq _ _]; by rewrite demo_no_zones.
  - intros z Hz _ i _. change (l_fdz demo_layout) with 5 in Hz. change (l_zones demo_layout) with 8 in Hz.
    apply (val_zeros 2 _ _ _ 1024). assert (z = 5 ∨ z = 6 ∨ z = 7) as [-> | [-> | ->]] by lia; done.
  - apply demo_tail.
Qed.

(** Three bytes are written to the empty file, and read. *)
Lemma write_read_witness :
  wp no_stop (minix_write (λ _, st_ret tt) (λ _ _ _ _, st_ret 0) 1 [104; 105; 10] 0) (λ r s',
    r = 3 ∧ wp no_stop (minix_read (λ _, st_ret tt) (λ _ _ _, st_ret (0, [])) 1 3 0) (λ r _, r = (3, [104; 105; 10])) s')
    (demo_file false).
Proof.
  eapply wp_conseq.
  - apply (write_read demo_layout 4 32 0 (demo_file false) 1 [104; 105; 10] 0 (λ _, st_ret tt) (λ _ _ _, st_ret (0, []))).
    + by vm_compute.
    + apply demo_good.
    + by exists (demo_inode false).
    + by vm_compute.
    + by vm_compute.
    + by repeat constructor.
    + cbn. lia.
    + by vm_compute.
    + by vm_compute.
  - intros r s' (-> & _ & _ & Hr). split; [done|]. eapply wp_conseq; [exact Hr|]. by intros r s2 [-> _].
Defined.

(** The name [ab] is added to the empty directory. *)
Lemma add_then_find_witness :
  wp no_stop (let* (k, o) := add_entry 1 [97; 98] in st 2 k (o + d_nr) 7) (λ _ s',
    wp no_stop (find_entry 1 [97; 98; 47; 99]) (λ r _, ∃ k, r = Some (k, 0, [99])) s' ∧
    wp no_stop (find_entry 1 [97]) (λ r _, r = None) s') (demo_file true).
Proof.
  eapply wp_conseq.
  - apply (add_then_find demo_layout 4 32 0 (demo_file true) 1 [] [97; 98] 7).
    + by vm_compute.
    + apply demo_good.
    + by exists (demo_inode true).
    + split; [by vm_compute|]. split; [by vm_compute|done].
    + by vm_compute.
    + split; [by cbn; lia|]. by repeat constructor.
    + done.
    + lia.
    + by vm_compute.
    + intros _. apply Nat.ltb_lt. by vm_compute.
  - intros [] s' (_ & _ & Hfind). split.
    + eapply wp_conseq; [apply (Hfind [97; 98] [47; 99]); [by repeat constructor|by right]|].
      intros r s2 [_ ->]. by eexists.
    + eapply wp_conseq; [apply (Hfind [97] []); [by repeat constructor|by left]|]. by intros r s2 [_ ->].
Defined.

(** Three bytes are written; the zone they went to is free again after truncation. *)
Lemma truncate_frees_witness :
  wp no_stop (minix_write (λ _, st_ret tt) (λ _ _ _ _, st_ret 0) 1 [104; 105; 10] 0) (λ _ s,
    zone_at demo_layout 4 32 (blocks s) [0] ≠ 0 ∧
    wp no_stop (minix_truncate 1) (λ r s', r = EOK ∧
      zone_used demo_layout (blocks s') (zone_at demo_layout 4 32 (blocks s) [0]) = false ∧
      zone_at demo_layout 4 32 (blocks s') [0] = 0 ∧ file_size demo_layout 4 32 (blocks s') = 0) s)
    (demo_file false).
Proof.
  assert (l_zones demo_layout ≤ l_fdz demo_layout - 1 + l_zmap demo_layout * BLOCK_BITS) as Hc by (by vm_compute).
  apply (wp_write demo_layout 4 32 0 Hc); [apply demo_good|by exists (demo_inode false)|by vm_compute|done|by vm_compute|
    by repeat constructor|by vm_compute|].
  intros s Hw _. pose proof (wr_changed _ _ _ _ _ _ _ _ _ Hw) as Hch. pose proof (ch_good _ _ _ _ _ _ _ Hch) as Hg.
  assert (zone_at demo_layout 4 32 (blocks s) [0] ≠ 0) as Hz.
  { apply (byte_at_zone _ _ _ _ 0 104). by apply (wr_data _ _ _ _ _ _ _ _ _ Hw 0%nat). }
  split; [exact Hz|]. eapply wp_conseq; [apply (truncate_frees demo_layout 4 32 0 s 1 Hc Hg (ch_inode _ _ _ _ _ _ _ Hch))|].
  - intros q Hv Hq. destruct (tr_zone _ _ _ _ (gd_tree _ _ _ _ _ Hg) q Hv Hq) as [Hr _].
    unfold freeable. change (l_fdz demo_layout) with 5 in *. change (l_zones demo_layout) with 8 in Hr. change BLOCK_BITS with 8192.
    rewrite Z.div_small by lia. lia.
  - intros r s'. assert (truncatable demo_layout 4 32 s = true) as ->.
    { unfold truncatable. rewrite (ch_fields _ _ _ _ _ _ _ Hch); [by vm_compute|]. unfold other_field, i_mode, i_size. lia. }
    intros (-> & Hf & Hs & _). split; [done|]. split; [|split; [by apply (fz_zones _ _ _ _ _ _ Hf)|done]].
    apply not_true_iff_false. rewrite (fz_used _ _ _ _ _ _ Hf).
    + intros [_ Hall]. apply Hz. by apply (Hall [0]).
    + destruct (tr_zone _ _ _ _ (gd_tree _ _ _ _ _ Hg) [0]) as [Hr _]; [done|done|].
      unfold in_zmap. change (l_fdz demo_layout) with 5 in *. change (l_zones demo_layout) with 8 in Hr.
      change (l_zmap demo_layout) with 1. change BLOCK_BITS with 8192. lia.
Defined.
