(* ===== verification/Fds.v ===== *)
(** * Descriptors and open files

    The system calls of Vfs keep the descriptor table of the task and the table of
    open files consistent, whatever the file system: its operations are only
    required not to touch the two tables ([KeepsOps]), which the operations of
    Minix do. *)
From stdpp Require Import gmultiset.
From S2P Require Import Prelude Fs Vfs.
From S2P Require Minix.
Open Scope Z_scope.

Definition any_stop : stop → Prop := λ _, True.

(** The two tables. *)
Definition fds (s : fs) : list file_t * list (option nat) := (file_table s, files (task s)).

(** ** Operations that leave the tables alone *)
Class Keeps {A} (m : ST fs A) : Prop := keeps : ∀ s, wp any_stop m (λ _ s', fds s' = fds s) s.

Lemma keeps_wp {A} (m : ST fs A) `{!Keeps m} (Q : A → fs → Prop) s :
  (∀ a s', fds s' = fds s → Q a s') → wp any_stop m Q s.
Proof. intros HQ. eapply wp_conseq; [apply keeps|]. exact HQ. Qed.

#[export] Instance keeps_ret {A} (a : A) : Keeps (st_ret a).
Proof. done. Qed.
#[export] Instance keeps_stop {A} e : Keeps (st_stop (A := A) e).
Proof. done. Qed.
#[export] Instance keeps_bind {A B} (m : ST fs A) (k : A → ST fs B) :
  Keeps m → (∀ a, Keeps (k a)) → Keeps (st_bind m k).
Proof. intros Hm Hk s. apply wp_bind, keeps_wp; [done|]. intros a s' <-. apply Hk. Qed.
#[export] Instance keeps_check b : Keeps (st_check b).
Proof. intros s. by destruct b. Qed.
#[export] Instance keeps_when b (m : ST fs unit) : Keeps m → Keeps (st_when b m).
Proof. by destruct b. Qed.
#[export] Instance keeps_gets {A} (f : fs → A) : Keeps (st_gets f).
Proof. done. Qed.
#[export] Instance keeps_deref {A} (f : fs → option A) : Keeps (st_deref f).
Proof. intros s. unfold wp, st_deref. by destruct (f s). Qed.
#[export] Instance keeps_lift {A} (m : res A) : Keeps (st_lift (S := fs) m).
Proof. intros s. unfold wp, st_lift. by destruct m. Qed.
#[export] Instance keeps_for {A} (l : list A) (body : A → ST fs unit) : (∀ a, Keeps (body a)) → Keeps (st_for l body).
Proof. intros Hb. induction l as [|a l IH]; cbn; apply _. Qed.

#[export] Instance keeps_mod_inode n f : Keeps (mod_inode n f). Proof. done. Qed.
#[export] Instance keeps_mod_super n f : Keeps (mod_super n f). Proof. done. Qed.
#[export] Instance keeps_mod_pwd f : Keeps (mod_task (λ t, t <| pwd := f t |>)). Proof. done. Qed.
#[export] Instance keeps_mod_tpwd f : Keeps (mod_task (λ t, t <| tpwd := f t |>)). Proof. done. Qed.
#[export] Instance keeps_mod_troot f : Keeps (mod_task (λ t, t <| troot := f t |>)). Proof. done. Qed.
#[export] Instance keeps_held f : Keeps (st_mod (λ s : fs, s <| held $= f |>)). Proof. done. Qed.
#[export] Instance keeps_blocks f : Keeps (st_mod (λ s : fs, s <| blocks $= f |>)). Proof. done. Qed.

(** Split a body at its sequences and cases; the parts have instances. *)
Ltac keeps_step :=
  lazymatch goal with
  | |- ∀ _, _ => intro
  | |- Keeps (st_bind _ _) => apply keeps_bind
  | |- Keeps (match ?x with _ => _ end) => destruct x
  | |- Keeps (let _ := _ in _) => cbv zeta
  | |- Keeps (st_for _ _) => apply keeps_for
  | |- Keeps (st_when _ _) => apply keeps_when
  | |- Keeps _ => first [assumption | solve [eauto with typeclass_instances]]
  end.
Ltac keeps := intros; repeat keeps_step.

(** ** The tables of Fs *)
#[export] Instance keeps_deref_opt {A} (o : option A) : Keeps (deref_opt o). Proof. unfold deref_opt. keeps. Qed.
#[export] Instance keeps_the_inode n : Keeps (the_inode n). Proof. unfold the_inode. keeps. Qed.
#[export] Instance keeps_the_super n : Keeps (the_super n). Proof. unfold the_super. keeps. Qed.
#[export] Instance keeps_the_file n : Keeps (the_file n). Proof. unfold the_file. keeps. Qed.
#[export] Instance keeps_bread k : Keeps (bread k). Proof. unfold bread. keeps. Qed.
#[export] Instance keeps_brelse k : Keeps (brelse k). Proof. unfold brelse. keeps. Qed.
#[export] Instance keeps_brelse_opt k : Keeps (brelse_opt k). Proof. unfold brelse_opt. keeps. Qed.
#[export] Instance keeps_ld n k off : Keeps (ld n k off). Proof. unfold ld. keeps. Qed.
#[export] Instance keeps_store k off l : Keeps (store_bytes k off l). Proof. unfold store_bytes. keeps. Qed.
#[export] Instance keeps_st n k off v : Keeps (st n k off v). Proof. unfold st. keeps. Qed.
#[export] Instance keeps_get_free_inode : Keeps get_free_inode. Proof. unfold get_free_inode. keeps. Qed.
#[export] Instance keeps_put_free_inode n : Keeps (put_free_inode n). Proof. unfold put_free_inode. keeps. Qed.
#[export] Instance keeps_get_free_super : Keeps get_free_super. Proof. unfold get_free_super. keeps. Qed.
#[export] Instance keeps_get_super dv : Keeps (get_super dv). Proof. unfold get_super. keeps. Qed.
#[export] Instance keeps_get_super_assert dv : Keeps (get_super_assert dv). Proof. unfold get_super_assert. keeps. Qed.
#[export] Instance keeps_find_inode dv n : Keeps (find_inode dv n). Proof. unfold find_inode. keeps. Qed.
#[export] Instance keeps_fd_check fd : Keeps (fd_check fd). Proof. unfold fd_check. keeps. Qed.

Section close.
Context (close_op : nat → ST fs unit) `{Hclose : !∀ n, Keeps (close_op n)}.
#[export] Instance keeps_iput n : Keeps (iput close_op n). Proof using Hclose. unfold iput. keeps. Qed.
#[export] Instance keeps_fit_inode n : Keeps (fit_inode close_op n). Proof using Hclose. unfold fit_inode. keeps. Qed.
#[export] Instance keeps_put_super p : Keeps (put_super close_op p). Proof using Hclose. unfold put_super. keeps. Qed.
End close.

(** What the layer relies on of a file system. *)
Record KeepsOps (o : fs_op_t) : Prop := {
  ko_mkfs dv a : Keeps (op_mkfs o dv a);
  ko_super dv p : Keeps (op_super o dv p);
  ko_open n name fl md : Keeps (op_open o n name fl md);
  ko_close n : Keeps (op_close o n);
  ko_ioctl n cmd a : Keeps (op_ioctl o n cmd a);
  ko_read n c off : Keeps (op_read o n c off);
  ko_write n d off : Keeps (op_write o n d off);
  ko_truncate n : Keeps (op_truncate o n);
  ko_stat n : Keeps (op_stat o n);
  ko_permission n m : Keeps (op_permission o n m);
  ko_namei n name : Keeps (op_namei o n name);
  ko_mkdir n name md : Keeps (op_mkdir o n name md);
  ko_rmdir n name : Keeps (op_rmdir o n name);
  ko_link n name m name' : Keeps (op_link o n name m name');
  ko_unlink n name : Keeps (op_unlink o n name);
  ko_mknod n name md dv : Keeps (op_mknod o n name md dv);
  ko_readdir n c off : Keeps (op_readdir o n c off) }.

(** ** Minix is such a file system *)
Module MX := Minix.
#[export] Instance keeps_super_field p o : Keeps (MX.super_field p o). Proof. unfold MX.super_field. keeps. Qed.
#[export] Instance keeps_scan_block k len off : Keeps (MX.scan_block k len off). Proof. unfold MX.scan_block. keeps. Qed.
#[export] Instance keeps_clear_block k len off idx : Keeps (MX.clear_block k len off idx).
Proof. unfold MX.clear_block. keeps. Qed.
#[export] Instance keeps_alloc_loop dv bidx len off0 limit js : ∀ last, Keeps (MX.alloc_loop dv bidx len off0 limit js last).
Proof. induction js; cbn [MX.alloc_loop]; keeps. Qed.
#[export] Instance keeps_free_loop dv bidx len off0 idx js : Keeps (MX.free_loop dv bidx len off0 idx js).
Proof. induction js; cbn [MX.free_loop]; keeps. Qed.
#[export] Instance keeps_balloc p : Keeps (MX.minix_balloc p). Proof. unfold MX.minix_balloc. keeps. Qed.
#[export] Instance keeps_bfree p z : Keeps (MX.minix_bfree p z). Proof. unfold MX.minix_bfree. keeps. Qed.
#[export] Instance keeps_ialloc p : Keeps (MX.minix_ialloc p). Proof. unfold MX.minix_ialloc. keeps. Qed.
#[export] Instance keeps_ifree p z : Keeps (MX.minix_ifree p z). Proof. unfold MX.minix_ifree. keeps. Qed.
#[export] Instance keeps_reckon level p dv create : ∀ b k off index block divider,
  Keeps (MX.reckon level p dv create b k off index block divider).
Proof. induction level; intros; cbn [MX.reckon]; keeps. Qed.
#[export] Instance keeps_hold k : Keeps (MX.hold k). Proof. unfold MX.hold. keeps. Qed.
#[export] Instance keeps_the_desc i : Keeps (MX.the_desc i). Proof. unfold MX.the_desc. keeps. Qed.
#[export] Instance keeps_bmap n b c : Keeps (MX.minix_bmap n b c). Proof. unfold MX.minix_bmap. keeps. Qed.
#[export] Instance keeps_minix_close n : Keeps (MX.minix_close n). Proof. unfold MX.minix_close. keeps. Qed.
#[export] Instance keeps_inode_block p n : Keeps (MX.inode_block p n). Proof. unfold MX.inode_block. keeps. Qed.
#[export] Instance keeps_inode_bfree level : ∀ p dv k off i, Keeps (MX.inode_bfree level p dv k off i).
Proof. induction level; intros; cbn [MX.inode_bfree]; keeps. Qed.
#[export] Instance keeps_truncate n : Keeps (MX.minix_truncate n). Proof. unfold MX.minix_truncate. keeps. Qed.
#[export] Instance keeps_stat n : Keeps (MX.minix_stat n). Proof. unfold MX.minix_stat. keeps. Qed.
#[export] Instance keeps_permission n m : Keeps (MX.minix_permission n m). Proof. unfold MX.minix_permission. keeps. Qed.
#[export] Instance keeps_next_entry n c i cur : Keeps (MX.next_entry n c i cur). Proof. unfold MX.next_entry. keeps. Qed.
#[export] Instance keeps_match_entry name k off : Keeps (MX.match_entry name k off). Proof. unfold MX.match_entry. keeps. Qed.
#[export] Instance keeps_find_entry_loop lft n name : ∀ i cur, Keeps (MX.find_entry_loop lft n name i cur).
Proof. induction lft; intros; cbn [MX.find_entry_loop]; keeps. Qed.
#[export] Instance keeps_find_entry n name : Keeps (MX.find_entry n name). Proof. unfold MX.find_entry. keeps. Qed.
#[export] Instance keeps_add_entry_loop fuel n kd offd name : ∀ i cur, Keeps (MX.add_entry_loop fuel n kd offd name i cur).
Proof. induction fuel; intros; cbn [MX.add_entry_loop]; keeps. Qed.
#[export] Instance keeps_add_entry n name : Keeps (MX.add_entry n name). Proof. unfold MX.add_entry. keeps. Qed.
#[export] Instance keeps_read_loop fuel n : ∀ l o acc, Keeps (MX.read_loop fuel n l o acc).
Proof. induction fuel; intros; cbn [MX.read_loop]; keeps. Qed.
#[export] Instance keeps_write_loop fuel n k off : ∀ d l o, Keeps (MX.write_loop fuel n k off d l o).
Proof. induction fuel; intros; cbn [MX.write_loop]; keeps. Qed.
#[export] Instance keeps_count_loop lft n : ∀ i c cur, Keeps (MX.count_loop lft n i c cur).
Proof. induction lft; intros; cbn [MX.count_loop]; keeps. Qed.
#[export] Instance keeps_is_empty n : Keeps (MX.is_empty n). Proof. unfold MX.is_empty. keeps. Qed.

Section minix.
Context (close_other : nat → ST fs unit) (truncate_other : nat → ST fs Z).
Context (device_get : Z → ST fs unit) (device_read : Z → Z → Z → ST fs (Z * list Z)).
Context (device_write : Z → list Z → Z → Z → ST fs Z) (device_ioctl : Z → Z → Z → ST fs Z).
Context `{Hco : !∀ n, Keeps (close_other n)} `{Hto : !∀ n, Keeps (truncate_other n)}.
Context `{Hdg : !∀ d, Keeps (device_get d)} `{Hdr : !∀ d c o, Keeps (device_read d c o)}.
Context `{Hdw : !∀ d l c o, Keeps (device_write d l c o)} `{Hdi : !∀ d c a, Keeps (device_ioctl d c a)}.
#[local] Set Default Proof Using "All".

#[local] Instance keeps_close_op n : Keeps (MX.close_op close_other n). Proof. unfold MX.close_op. keeps. Qed.
#[local] Instance keeps_iget dv n : Keeps (MX.iget close_other dv n). Proof. unfold MX.iget. keeps. Qed.
#[local] Instance keeps_new_inode dv n : Keeps (MX.new_inode close_other dv n). Proof. unfold MX.new_inode. keeps. Qed.
#[local] Instance keeps_minix_read n l o : Keeps (MX.minix_read device_get device_read n l o).
Proof. unfold MX.minix_read. keeps. Qed.
#[local] Instance keeps_minix_namei n name : Keeps (MX.minix_namei close_other n name).
Proof. unfold MX.minix_namei. keeps. Qed.

Lemma minix_keeps :
  KeepsOps (MX.minix_op close_other truncate_other device_get device_read device_write device_ioctl).
Proof.
  split; cbn [op_mkfs op_super op_open op_close op_ioctl op_read op_write op_truncate op_stat op_permission op_namei
    op_mkdir op_rmdir op_link op_unlink op_mknod op_readdir MX.minix_op].
  - unfold MX.minix_mkfs. keeps.
  - unfold MX.minix_super. keeps.
  - unfold MX.minix_open. keeps.
  - keeps.
  - unfold MX.minix_ioctl. keeps.
  - keeps.
  - unfold MX.minix_write. keeps.
  - keeps.
  - keeps.
  - keeps.
  - keeps.
  - unfold MX.minix_mkdir. keeps.
  - unfold MX.minix_rmdir. keeps.
  - unfold MX.minix_link. keeps.
  - unfold MX.minix_unlink. keeps.
  - unfold MX.minix_mknod. keeps.
  - unfold MX.minix_readdir. keeps.
Qed.
End minix.

(** ** The system calls *)

(** How many descriptors of the task are the open file [f]. *)
Fixpoint uses (f : nat) (l : list (option nat)) : Z :=
  match l with [] => 0 | o :: l' => (if decide (o = Some f) then 1 else 0) + uses f l' end.

(** The tables are consistent: a descriptor is an open file with an inode, and the
    count of a file is the number of its descriptors; [others f] are those of the
    other tasks. *)
Record fds_ok (others : nat → Z) (t : list file_t * list (option nat)) : Prop := {
  fd_len : length t.2 = Z.to_nat TASK_FILE_NR;
  fd_open : ∀ i f, t.2 !! i = Some (Some f) → ∃ e, t.1 !! f = Some e ∧ is_Some (finode e);
  fd_count : ∀ f e, t.1 !! f = Some e → fcount e = others f + uses f t.2 }.

(** There are fewer descriptors than a count can hold. *)
Definition few (others : nat → Z) : Prop := ∀ f, 0 ≤ others f < 2 ^ 32 - TASK_FILE_NR.

Lemma uses_insert f l i o x : l !! i = Some x →
  uses f (<[i := o]> l) = uses f l - (if decide (x = Some f) then 1 else 0) + (if decide (o = Some f) then 1 else 0).
Proof.
  revert i. induction l as [|y l IH]; intros [|i] Hi; try done; cbn [uses].
  - injection Hi as ->. change (<[0%nat := o]> (x :: l)) with (o :: l). cbn [uses]. lia.
  - change (<[S i := o]> (y :: l)) with (y :: <[i := o]> l). cbn [uses]. rewrite (IH i Hi). lia.
Qed.

Lemma uses_range f l : 0 ≤ uses f l ≤ Z.of_nat (length l).
Proof. induction l as [|o l IH]; cbn [uses length]; [done|]. case_decide; lia. Qed.

Lemma uses_pos f l i : l !! i = Some (Some f) → 0 < uses f l.
Proof.
  revert i. induction l as [|o l IH]; intros [|i] Hi; try done; cbn [uses]; pose proof (uses_range f l).
  - injection Hi as ->. rewrite decide_True by done. lia.
  - specialize (IH i Hi). case_decide; lia.
Qed.

(** One descriptor and the file it is change. *)
Lemma ok_update others ft fl f e g i x o : fds_ok others (ft, fl) → ft !! f = Some e → fl !! i = Some x →
  x = None ∨ x = Some f → o = None ∨ o = Some f →
  fcount (g e) = fcount e - (if decide (x = Some f) then 1 else 0) + (if decide (o = Some f) then 1 else 0) →
  (0 < uses f (<[i := o]> fl) → is_Some (finode (g e))) →
  fds_ok others (alter g f ft, <[i := o]> fl).
Proof.
  intros [H1 H2 H3] Hf Hi Hx Ho Hc Hn. cbn in *. pose proof (lookup_lt_Some _ _ _ Hi) as Hlt. split; cbn.
  - by rewrite length_insert.
  - intros j h Hj. destruct (decide (h = f)) as [->|Hne].
    + exists (g e). rewrite list_lookup_alter_eq, Hf. split; [done|]. by eapply Hn, uses_pos.
    + rewrite list_lookup_alter_ne by done. apply (H2 j). destruct (decide (i = j)) as [<-|].
      * rewrite list_lookup_insert_eq in Hj by done. destruct Ho as [-> | ->]; congruence.
      * by rewrite list_lookup_insert_ne in Hj.
  - intros h e' He'. rewrite (uses_insert h fl i o x Hi). destruct (decide (h = f)) as [->|Hne].
    + rewrite list_lookup_alter_eq, Hf in He'. cbn in He'. injection He' as <-. rewrite Hc, (H3 f e Hf). lia.
    + rewrite list_lookup_alter_ne in He' by done. rewrite (H3 h e' He').
      rewrite !decide_False; [lia|destruct Ho as [-> | ->]; congruence|destruct Hx as [-> | ->]; congruence].
Qed.

(** The calls of [fsyscall.c] by number and arguments, with the value they return
    ([sys_close] returns nothing). *)
Inductive call :=
  | Open (name : list Z) (flags mode : Z) | Creat (name : list Z) (mode : Z) | Close (fd : Z)
  | Read (fd buf cnt : Z) | Write (fd buf : Z) (data : list Z) (cnt : Z) | Lseek (fd offset whence : Z)
  | Readdir (fd buf cnt : Z) | Dup (fd : Z) | Dup2 (fd fd' : Z) | Stat (name : list Z) | Fstat (fd : Z)
  | Ioctl (fd cmd args : Z) | Chdir (name : list Z) | Chroot (name : list Z) | Mkdir (name : list Z) (mode : Z)
  | Rmdir (name : list Z) | Link (name name' : list Z) | Unlink (name : list Z) | Mknod (name : list Z) (mode dev : Z)
  | Mount (dev dir : list Z) | Umount (target : list Z) | Mkfs (dev : list Z) (args : Z).

Definition first {A} (m : ST fs (Z * A)) : ST fs Z := let* r := m in st_ret r.1.

Definition run (ops : Z → fs_op_t) (memory_access : Z → Z → bool → bool → bool) (c : call) : ST fs Z :=
  match c with
  | Open name fl md => sys_open ops name fl md
  | Creat name md => sys_creat ops name md
  | Close fd => do! sys_close ops fd; st_ret EOK
  | Read fd buf cnt => first (sys_read ops memory_access fd buf cnt)
  | Write fd buf data cnt => sys_write ops memory_access fd buf data cnt
  | Lseek fd off wh => sys_lseek fd off wh
  | Readdir fd buf cnt => first (sys_readdir ops memory_access fd buf cnt)
  | Dup fd => sys_dup fd
  | Dup2 fd fd' => sys_dup2 ops fd fd'
  | Stat name => first (sys_stat ops name)
  | Fstat fd => first (sys_fstat ops fd)
  | Ioctl fd cmd args => sys_ioctl ops fd cmd args
  | Chdir name => sys_chdir ops name
  | Chroot name => sys_chroot ops name
  | Mkdir name md => sys_mkdir ops name md
  | Rmdir name => sys_rmdir ops name
  | Link name name' => sys_link ops name name'
  | Unlink name => sys_unlink ops name
  | Mknod name md dv => sys_mknod ops name md dv
  | Mount dv dir => sys_mount ops dv dir
  | Umount target => sys_umount ops target
  | Mkfs dv args => sys_mkfs ops dv args
  end.

(** What a call that fails, with result [r], leaves: the descriptors and the open
    files as they were.  Two calls are different: [dup2] has closed its second
    descriptor, and [lseek] from the end of the file has stored a negative offset,
    which it returns. *)
Definition failure_leaves (ops : Z → fs_op_t) (c : call) (s : fs) (r : Z) (s' : fs) : Prop :=
  match c with
  | Dup2 _ newfd => ∃ s1, sys_close ops newfd s = Ok (tt, s1) ∧ fds s' = fds s1
  | Lseek fd _ wh => fds s' = fds s ∨ wh = SEEK_END ∧ ∃ f, files (task s) !! Z.to_nat fd = Some (Some f) ∧
      fds s' = (alter (λ e, e <| foffset := r |>) f (file_table s), files (task s))
  | _ => fds s' = fds s
  end.

Definition is_dup2 (c : call) : bool := match c with Dup2 _ _ => true | _ => false end.

Section calls.
Context (others : nat → Z) (Hfew : few others).
Context (ops : Z → fs_op_t) (Hops : ∀ t, KeepsOps (ops t)).
Context (memory_access : Z → Z → bool → bool → bool).
#[local] Set Default Proof Using "All".
Abbreviation ok s := (fds_ok others (fds s)).

Lemma use_room s f e : ok s → file_table s !! f = Some e → 0 ≤ fcount e < 2 ^ 32.
Proof.
  intros Hok Hf. rewrite (fd_count _ _ Hok f e Hf). pose proof (uses_range f (files (task s))) as Hu.
  pose proof (fd_len _ _ Hok) as Hl. change (fds s).2 with (files (task s)) in *. rewrite Hl in Hu.
  specialize (Hfew f). change TASK_FILE_NR with 16 in *. lia.
Qed.

Lemma wp_fd_check fd (Q : Z * option nat → fs → Prop) s : ok s → Q (- EINVAL, None) s →
  (∀ f e n, 0 ≤ fd → files (task s) !! Z.to_nat fd = Some (Some f) → file_table s !! f = Some e → finode e = Some n →
     Q (EOK, Some f) s) →
  wp any_stop (fd_check fd) Q s.
Proof.
  intros Hok Hno Hyes. unfold fd_check. apply wp_bind, wp_gets. destruct (TASK_FILE_NR <=? fd); [by apply wp_ret|].
  destruct (Z.ltb_spec fd 0); [done|]. apply wp_bind. unfold wp at 1, st_deref.
  destruct (files (task s) !! Z.to_nat fd) as [[f|]|] eqn:Hf; [|by apply wp_ret|done].
  destruct (fd_open _ _ Hok _ _ Hf) as (e & He & n & Hn). by eapply wp_ret, Hyes.
Qed.

(** A free descriptor and a free file. *)
Lemma wp_fd_get (Q : Z * option nat → fs → Prop) s : Q (- EMFILE, None) s →
  (∀ i f e s', (3 ≤ i)%nat → files (task s) !! i = Some None → file_table s !! f = Some e → fcount e = 0 →
     fds s' = (alter (λ e, e <| fcount := 1 |>) f (file_table s), <[i := Some f]> (files (task s))) →
     Q (Z.of_nat i, Some f) s') →
  wp any_stop fd_get Q s.
Proof.
  intros Hno Hyes. unfold fd_get. apply wp_bind, wp_gets.
  pose proof (find_from_spec none (drop 3 (files (task s))) 3) as H.
  destruct (find_from none (drop 3 (files (task s))) 3) as [i|]; [|by apply wp_ret].
  destruct H as (x & Hi & Hx & Hp & _). rewrite lookup_drop in Hx. replace (3 + (i - 3))%nat with i in Hx by lia.
  destruct x; [done|]. apply wp_bind. unfold get_file. apply wp_bind, wp_gets.
  pose proof (find_from_spec (λ f, fcount f =? 0) (drop 3 (file_table s)) 3) as H.
  destruct (find_from (λ f, fcount f =? 0) (drop 3 (file_table s)) 3) as [f|]; [|done].
  destruct H as (e & Hf & He & Hc & _). rewrite lookup_drop in He. replace (3 + (f - 3))%nat with f in He by lia.
  apply wp_bind, wp_mod, wp_ret, wp_bind, wp_mod, wp_ret. apply Z.eqb_eq in Hc.
  eapply (Hyes i f e); [done|done|done|done|]. unfold fds. rewrite Nat2Z.id. f_equal.
  change (alter (λ e, e <| fcount $= λ c, u32 (c + 1) |>) f (file_table s) = alter (λ e, e <| fcount := 1 |>) f (file_table s)).
  apply list_eq. intros j. destruct (decide (j = f)) as [->|].
  - rewrite !list_lookup_alter_eq, He. destruct e; cbn in Hc. by subst.
  - by rewrite !list_lookup_alter_ne.
Qed.

(** *** Paths *)
Lemma wp_op_of {A} n (k : fs_op_t → ST fs A) (Q : A → fs → Prop) s :
  (∀ t, wp any_stop (k (ops t)) Q s) → wp any_stop (st_bind (op_of ops n) k) Q s.
Proof.
  intros Hk. unfold op_of. unfold wp, st_bind, the_inode, deref_opt, st_deref, st_ret.
  destruct (inode_table s !! n) as [i|]; [|done]. destruct (op i) as [t|]; [|done]. apply Hk.
Qed.
Lemma keeps_op_of {A} n (k : fs_op_t → ST fs A) : (∀ t, KeepsOps (ops t) → Keeps (k (ops t))) → Keeps (st_bind (op_of ops n) k).
Proof. intros Hk s. apply wp_op_of. intros t. by apply Hk. Qed.

#[local] Hint Resolve ko_mkfs ko_super ko_open ko_close ko_ioctl ko_read ko_write ko_truncate ko_stat ko_permission
  ko_namei ko_mkdir ko_rmdir ko_link ko_unlink ko_mknod ko_readdir : typeclass_instances.
Ltac vkeeps := intros; repeat (lazymatch goal with |- Keeps (st_bind (op_of _ _) _) => apply keeps_op_of | |- _ => keeps_step end).

#[local] Instance keeps_close n : Keeps (Vfs.close_op ops n). Proof. unfold Vfs.close_op. vkeeps. Qed.
#[local] Instance keeps_vput n : Keeps (Fs.iput (Vfs.close_op ops) n). Proof. apply keeps_iput. apply _. Qed.
#[local] Instance keeps_count_up n : Keeps (count_up n). Proof. unfold count_up. vkeeps. Qed.
#[local] Instance keeps_leave_mount d name : Keeps (leave_mount ops d name). Proof. unfold leave_mount. vkeeps. Qed.
#[local] Instance keeps_named_loop fuel : ∀ d name right, Keeps (named_loop ops fuel d name right).
Proof. induction fuel; intros; cbn [named_loop]; vkeeps. Qed.
#[local] Instance keeps_named path : Keeps (named ops path). Proof. unfold named. vkeeps. Qed.
#[local] Instance keeps_namei path : Keeps (namei ops path). Proof. unfold namei. vkeeps. Qed.
#[local] Instance keeps_try_types dv p l : Keeps (try_types ops dv p l).
Proof. induction l; cbn [try_types]; vkeeps; apply Hops. Qed.
#[local] Instance keeps_vput_super p : Keeps (Fs.put_super (Vfs.close_op ops) p). Proof. apply keeps_put_super. apply _. Qed.
#[local] Instance keeps_read_super dv : Keeps (read_super ops dv). Proof. unfold read_super. vkeeps. Qed.

(** *** Each call *)
Definition post (c : call) (s : fs) (r : Z) (s' : fs) : Prop :=
  ok s' ∧ (r < 0 → failure_leaves ops c s r s').

Lemma post_same c s r s' : ok s → fds s' = fds s → is_dup2 c = false → post c s r s'.
Proof. intros Hok E Hc. split; [by rewrite E|]. intros _. destruct c; try done. by left. Qed.

(** A change of the offset of a file in use. *)
Lemma ok_offset s i f g : ok s → files (task s) !! i = Some (Some f) → (∀ e, fcount (g e) = fcount e ∧ finode (g e) = finode e) →
  fds_ok others (alter g f (file_table s), files (task s)).
Proof.
  intros Hok Hi Hg. destruct (fd_open _ _ Hok i f Hi) as (e & He & Hn). rewrite <-(list_insert_id (files (task s)) i (Some f)) by done.
  destruct (Hg e) as [Hc Hin]. eapply ok_update; [exact Hok|done|done|by right|by right| |by rewrite Hin].
  rewrite Hc, decide_True by done. lia.
Qed.

Lemma wp_advance c s i f len (Q : unit → fs → Prop) : is_dup2 c = false → ok s → files (task s) !! i = Some (Some f) →
  (∀ s', post c s len s' → Q tt s') → wp any_stop (advance f len) Q s.
Proof.
  intros Hc Hok Hi HQ. unfold advance, st_when. destruct (Z.ltb_spec 0 len); [|by apply wp_ret, HQ, post_same].
  apply wp_mod, HQ. split; [|lia].
  by apply (ok_offset s i f).
Qed.

Lemma wp_user_access b n w (Q : bool → fs → Prop) s : (∀ x, Q x s) → wp any_stop (user_access memory_access b n w) Q s.
Proof. intros HQ. unfold user_access. by apply wp_bind, wp_gets, wp_ret. Qed.
Lemma wp_deref_any {A} (o : option A) (Q : A → fs → Prop) s : (∀ a, o = Some a → Q a s) → wp any_stop (deref_opt o) Q s.
Proof. intros HQ. destruct o; [by apply HQ|done]. Qed.
Lemma wp_the_file f e (Q : file_t → fs → Prop) s : file_table s !! f = Some e → Q e s → wp any_stop (the_file f) Q s.
Proof. intros He HQ. unfold wp, the_file, st_deref. by rewrite He. Qed.
Lemma wp_check_any b (Q : unit → fs → Prop) s : (b = true → Q tt s) → wp any_stop (st_check b) Q s.
Proof. apply wp_check. done. Qed.

Lemma read_post fd buf cnt s : ok s → wp any_stop (run ops memory_access (Read fd buf cnt)) (post (Read fd buf cnt) s) s.
Proof.
  intros Hok. cbn [run]. unfold first, sys_read. apply wp_bind.
  destruct (cnt <? 0); [by apply wp_ret, wp_ret, post_same|].
  apply wp_bind, wp_user_access. intros [|]; [|by apply wp_ret, wp_ret, post_same]. cbn [negb].
  apply wp_bind, wp_fd_check; [done|by apply wp_ret, wp_ret, post_same|]. intros f e n _ Hf He Hn.
  apply wp_bind, (wp_the_file f e); [done|]. destruct (_ =? O_WRONLY); [by apply wp_ret, wp_ret, post_same|].
  rewrite Hn. apply wp_bind, wp_deref_any. intros ? [= <-]. apply wp_op_of. intros t.
  pose proof (ko_read _ (Hops t) n cnt (foffset e)) as Hk.
  apply wp_bind, keeps_wp; [done|]. intros [len bytes] s1 E1. injection E1 as Et Ef.
  apply wp_bind, (wp_advance (Read fd buf cnt) s1 (Z.to_nat fd)); [done|unfold fds; by rewrite Et, Ef|by rewrite Ef|].
  intros s2 [Hok2 Hp2]. apply wp_ret, wp_ret. split; [done|]. intros Hfl. cbn [failure_leaves] in *. rewrite (Hp2 Hfl). unfold fds. by rewrite Et, Ef.
Qed.

Lemma readdir_post fd buf cnt s : ok s → wp any_stop (run ops memory_access (Readdir fd buf cnt)) (post (Readdir fd buf cnt) s) s.
Proof.
  intros Hok. cbn [run]. unfold first, sys_readdir. apply wp_bind.
  apply wp_bind, wp_user_access. intros [|]; [|by apply wp_ret, wp_ret, post_same]. cbn [negb].
  apply wp_bind, wp_fd_check; [done|by apply wp_ret, wp_ret, post_same|]. intros f e n _ Hf He Hn.
  apply wp_bind, (wp_the_file f e); [done|]. destruct (_ =? O_WRONLY); [by apply wp_ret, wp_ret, post_same|].
  rewrite Hn. apply wp_bind, wp_deref_any. intros ? [= <-]. apply wp_op_of. intros t.
  pose proof (ko_readdir _ (Hops t) n cnt (foffset e)) as Hk.
  apply wp_bind, keeps_wp; [done|]. intros [len d] s1 E1. injection E1 as Et Ef.
  apply wp_bind, (wp_advance (Readdir fd buf cnt) s1 (Z.to_nat fd)); [done|unfold fds; by rewrite Et, Ef|by rewrite Ef|].
  intros s2 [Hok2 Hp2]. apply wp_ret, wp_ret. split; [done|]. intros Hfl. cbn [failure_leaves] in *. rewrite (Hp2 Hfl). unfold fds. by rewrite Et, Ef.
Qed.

Lemma write_post fd buf data cnt s : ok s →
  wp any_stop (run ops memory_access (Write fd buf data cnt)) (post (Write fd buf data cnt) s) s.
Proof.
  intros Hok. cbn [run]. unfold sys_write.
  destruct (cnt <? 0); [by apply wp_ret, post_same|].
  apply wp_bind, wp_user_access. intros [|]; [|by apply wp_ret, post_same]. cbn [negb].
  apply wp_bind, wp_fd_check; [done|by apply wp_ret, post_same|]. intros f e n _ Hf He Hn.
  apply wp_bind, (wp_the_file f e); [done|]. destruct (_ =? O_RDONLY); [by apply wp_ret, post_same|].
  rewrite Hn. apply wp_op_of. intros t. pose proof (ko_write _ (Hops t) n (take (Z.to_nat cnt) data) (foffset e)) as Hk.
  apply wp_bind, keeps_wp; [done|]. intros len s1 E1. injection E1 as Et Ef.
  apply wp_bind, (wp_advance (Write fd buf data cnt) s1 (Z.to_nat fd)); [done|unfold fds; by rewrite Et, Ef|by rewrite Ef|].
  intros s2 [Hok2 Hp2]. apply wp_ret. split; [done|]. intros Hfl. cbn [failure_leaves] in *. rewrite (Hp2 Hfl). unfold fds. by rewrite Et, Ef.
Qed.

Lemma lseek_post fd offset wh s : ok s → wp any_stop (run ops memory_access (Lseek fd offset wh)) (post (Lseek fd offset wh) s) s.
Proof.
  intros Hok. cbn [run]. unfold sys_lseek.
  apply wp_bind, wp_fd_check; [done|by apply wp_ret, post_same|]. intros f e n _ Hf He Hn.
  apply wp_bind, (wp_the_file f e); [done|]. apply wp_bind, wp_check_any. intros _. apply wp_bind.
  assert (∀ o, 0 ≤ o →
    wp any_stop (do! mod_file f (λ f, f <| foffset := o |>); st_ret o) (post (Lseek fd offset wh) s) s) as Hset.
  { intros o Ho. apply wp_bind, wp_mod, wp_ret. split; [by apply (ok_offset s (Z.to_nat fd) f)|lia]. }
  destruct (Z.eqb_spec wh SEEK_SET) as [->|]; [|destruct (Z.eqb_spec wh SEEK_CUR) as [->|]; [|destruct (Z.eqb_spec wh SEEK_END) as [->|]; [|done]]].
  - apply wp_bind, wp_check_any. intros Hp. by apply wp_ret, Hset, Z.leb_le.
  - apply wp_bind, wp_check_any. intros Hp. by apply wp_ret, Hset, Z.leb_le.
  - rewrite Hn. apply wp_bind, wp_deref_any. intros ? [= <-]. apply wp_bind, keeps_wp; [apply _|]. intros i s1 E1.
    apply wp_ret. injection E1 as Et Ef. apply wp_bind, wp_mod, wp_ret. split.
    2: { intros _. right. split; [done|]. exists f. split; [done|]. unfold fds. cbn. by rewrite <-Et, <-Ef. }
    rewrite <-Ef in Hf. apply (ok_offset s1 (Z.to_nat fd) f); [unfold fds; by rewrite Et, Ef|done|done].
Qed.

Lemma dup_post fd arg s : ok s → wp any_stop (dupfd fd arg) (λ r s', ok s' ∧ (r < 0 → fds s' = fds s)) s.
Proof.
  intros Hok. unfold dupfd. apply wp_bind, wp_fd_check; [done|by apply wp_ret|]. intros f e n _ Hf He Hn.
  destruct (arg <? 0); [done|]. apply wp_bind, wp_gets.
  pose proof (find_from_spec none (drop (Z.to_nat arg) (files (task s))) (Z.to_nat arg)) as H.
  destruct (find_from none (drop (Z.to_nat arg) (files (task s))) (Z.to_nat arg)) as [i|]; [|by apply wp_ret].
  destruct H as (x & Hi & Hx & Hp & _). rewrite lookup_drop in Hx.
  replace (Z.to_nat arg + (i - Z.to_nat arg))%nat with i in Hx by lia. destruct x; [done|].
  apply wp_bind, wp_mod, wp_bind, wp_mod, wp_ret. split; [|lia].
  change (fds_ok others (alter (λ e, e <| fcount $= λ c, u32 (c + 1) |>) f (file_table s), <[Z.to_nat (Z.of_nat i) := Some f]> (files (task s)))).
  rewrite Nat2Z.id. eapply ok_update; [exact Hok|done|exact Hx|by left|by right| |intros _; exists n; exact Hn].
  rewrite decide_False, decide_True by done. change (fcount (e <| fcount $= ?g |>)) with (g (fcount e)). cbn beta.
  pose proof (uses_insert f (files (task s)) i (Some f) None Hx) as Hu. rewrite decide_False, decide_True in Hu by done.
  pose proof (uses_range f (<[i := Some f]> (files (task s)))) as Hr. rewrite length_insert in Hr.
  pose proof (fd_len _ _ Hok) as Hl. change (fds s).2 with (files (task s)) in Hl. rewrite Hl in Hr.
  pose proof (fd_count _ _ Hok f e He) as Hc. change (fds s).2 with (files (task s)) in Hc.
  pose proof (uses_range f (files (task s))). specialize (Hfew f). change (Z.of_nat (Z.to_nat TASK_FILE_NR)) with TASK_FILE_NR in Hr.
  rewrite u32_small by lia. lia.
Qed.

Lemma close_post fd s : ok s → wp any_stop (fd_put (Vfs.close_op ops) fd) (λ r s', ok s' ∧ (r < 0 → fds s' = fds s)) s.
Proof.
  intros Hok. unfold fd_put. apply wp_bind, wp_fd_check; [done|by apply wp_ret|]. intros f e n _ Hf He Hn.
  apply wp_bind, (wp_the_file f e); [done|]. apply wp_bind, wp_check_any. intros _. apply wp_bind, wp_mod, wp_bind.
  unfold put_file. apply wp_bind, (wp_the_file f e); [done|]. apply wp_bind, wp_check_any. intros Hc%Z.ltb_lt.
  apply wp_bind, wp_mod. apply wp_bind, (wp_the_file f (e <| fcount $= λ c, u32 (c - 1) |>)).
  { change (alter (λ e, e <| fcount $= λ c, u32 (c - 1) |>) f (file_table s) !! f = Some (e <| fcount $= λ c, u32 (c - 1) |>)).
    by rewrite list_lookup_alter_eq, He. }
  match goal with |- wp _ _ _ ?x => set (s1 := x) end.
  assert (ok s1) as Hok1.
  { pose proof (use_room s f e Hok He) as Hr.
    apply (ok_update others (file_table s) (files (task s)) f e _ (Z.to_nat fd) (Some f) None); [exact Hok|done|done|by right|by left| |].
    - change (fcount (e <| fcount $= ?g |>)) with (g (fcount e)). cbn beta. rewrite decide_True, decide_False by done.
      rewrite u32_small by lia. lia.
    - intros _. by exists n. }
  assert (Keeps (if fcount (e <| fcount $= λ c, u32 (c - 1) |>) =? 0 then Fs.iput (Vfs.close_op ops) (finode (e <| fcount $= λ c, u32 (c - 1) |>)) else st_ret tt))
    as Hk by vkeeps.
  apply keeps_wp; [done|]. intros _ s2 E2. apply wp_ret. split; [by rewrite E2|]. by change EOK with 0.
Qed.

Lemma open_post name fl md s : ok s → wp any_stop (sys_open ops name fl md) (λ r s', ok s' ∧ (r < 0 → fds s' = fds s)) s.
Proof.
  intros Hok. unfold sys_open. apply wp_bind, keeps_wp; [apply _|]. intros r s1 E1.
  assert (ok s1) as Hok1 by (by rewrite E1). rewrite <-E1.
  destruct r as [[dir next]|]; [|by apply wp_ret].
  pose (makeup := λ n : nat,
    let* (fd, f) := fd_get in
    match f with
    | None => st_ret fd
    | Some f =>
        do! mod_file f (λ f, f <| finode := Some n |> <| fflags := fl |> <| fcount := 1 |> <| foffset := 0 |>);
        do! (if negb (Z.land fl O_APPEND =? 0) then
               let* i := the_inode n in mod_file f (λ f, f <| foffset := s32 (size i) |>)
             else st_ret tt);
        do! Fs.iput (Vfs.close_op ops) (Some dir);
        st_ret fd
    end).
  assert (∀ n s', ok s' → fds s' = fds s1 → wp any_stop (makeup n) (λ r s', ok s' ∧ (r < 0 → fds s' = fds s1)) s') as Hmk.
  { intros n s' Hok' E. unfold makeup. apply wp_bind, wp_fd_get; [by apply wp_ret|].
    intros i f e s2 _ Hi He Hc E2. apply wp_bind, wp_mod.
    match goal with |- wp _ _ _ ?x => set (s3 := x) end.
    assert (fds s3 = (alter (λ e, mk_file (Some n) 1 0 fl) f (file_table s'), <[i := Some f]> (files (task s')))) as E3.
    { injection E2 as Et Ef. unfold fds. change (files (task s3)) with (files (task s2)). rewrite Ef. f_equal.
      change (file_table s3) with (alter (λ e, e <| finode := Some n |> <| fflags := fl |> <| fcount := 1 |> <| foffset := 0 |>) f (file_table s2)).
      rewrite Et. apply list_eq. intros j. destruct (decide (j = f)) as [->|].
      - by rewrite !list_lookup_alter_eq, He.
      - by rewrite !list_lookup_alter_ne. }
    assert (ok s3) as Hok3.
    { rewrite E3. apply (ok_update others _ _ f e _ i None); [exact Hok'|done|done|by left|by right| |by eexists].
      rewrite decide_False, decide_True, Hc by done. done. }
    assert (files (task s3) !! i = Some (Some f)) as Hi3.
    { change (files (task s3)) with (fds s3).2. rewrite E3. cbn [snd]. apply list_lookup_insert_eq. by eapply lookup_lt_Some. }
    apply wp_bind. eapply (wp_conseq _ _ (λ _ s', ok s')).
    - destruct (negb _); [|by apply wp_ret]. apply wp_bind, keeps_wp; [apply _|]. intros a s4 E4. apply wp_mod.
      apply (ok_offset s4 i f); [by rewrite E4| |done]. by change (files (task s4)) with (fds s4).2; rewrite E4.
    - intros _ s4 Hok4. apply wp_bind, keeps_wp; [apply _|]. intros _ s5 E5. apply wp_ret. split; [by rewrite E5|lia]. }
  destruct next as [|c next].
  - apply wp_bind, keeps_wp; [apply _|]. intros _ s2 E2. apply (Hmk dir); [by rewrite E2|done].
  - apply wp_op_of. intros t. pose proof (ko_open _ (Hops t) dir (c :: next) fl md) as Hk.
    apply wp_bind, keeps_wp; [done|]. intros [ret n] s2 E2. destruct (ret <? 0).
    + apply wp_bind, keeps_wp; [apply _|]. intros _ s3 E3. apply wp_ret. rewrite E3, E2. done.
    + apply wp_bind, wp_deref_any. intros n' _. apply (Hmk n'); [by rewrite E2|done].
Qed.

Lemma run_post c s : ok s → wp any_stop (run ops memory_access c) (post c s) s.
Proof.
  intros Hok.
  assert (∀ m : ST fs Z, is_dup2 c = false → Keeps m → wp any_stop m (post c s) s) as Hkeep
    by (intros m Hc Hm; apply keeps_wp; [done|]; intros r s' E; by apply post_same).
  assert (∀ m : ST fs Z, is_dup2 c = false → wp any_stop m (λ r s', ok s' ∧ (r < 0 → fds s' = fds s)) s →
    wp any_stop m (post c s) s) as Hpost.
  { intros m Hc Hm. eapply wp_conseq; [exact Hm|]. intros r s' [H1 H2]. split; [done|]. intros Hfl.
    specialize (H2 Hfl). destruct c; try done. by left. }
  destruct c; try (apply Hkeep; [done|]; cbn [run]; unfold first, sys_stat, sys_fstat, sys_ioctl, sys_chdir, sys_chroot, sys_mkdir,
    sys_rmdir, sys_unlink, sys_mknod, sys_link, in_directory, sys_mount, sys_umount, sys_mkfs; by vkeeps).
  - by apply Hpost; [|apply open_post].
  - by apply Hpost; [|apply open_post].
  - apply Hpost; [done|]. cbn [run]. unfold sys_close. apply wp_bind, wp_bind.
    eapply wp_conseq; [by apply close_post|]. intros r s' [H1 _]. apply wp_ret, wp_ret. by split.
  - by apply read_post.
  - by apply write_post.
  - by apply lseek_post.
  - by apply readdir_post.
  - by apply Hpost; [|apply dup_post].
  - cbn [run]. unfold sys_dup2.
    assert (wp any_stop (sys_close ops fd') (λ _ s', ok s') s) as Hclose.
    { unfold sys_close. apply wp_bind. eapply wp_conseq; [by apply close_post|]. intros r s' [H1 _]. by apply wp_ret. }
    destruct (sys_close ops fd' s) as [[[] s1]|e] eqn:E; [|unfold wp, st_bind; by rewrite E].
    pose proof (wp_result _ _ _ _ _ _ Hclose E) as Hok1. unfold wp. rewrite (st_bind_ok _ _ s tt s1 E).
    eapply (wp_conseq _ (dupfd fd fd')); [by apply dup_post|]. intros r s2 [H1 H2]. split; [done|].
    intros Hr. exists s1. split; [done|by apply H2].
Qed.
End calls.

(** Some system calls, one after another. *)
Definition call_step (ops : Z → fs_op_t) (memory_access : Z → Z → bool → bool → bool) (s s' : fs) : Prop :=
  ∃ c r, run ops memory_access c s = Ok (r, s').

(** The descriptor a call is about, and what it answers when that is not open. *)
Definition bad_descriptor (c : call) : option (Z * Z) :=
  match c with
  | Read fd _ _ | Write fd _ _ _ | Lseek fd _ _ | Readdir fd _ _ | Dup fd | Fstat fd => Some (fd, - EINVAL)
  | Ioctl fd _ _ => Some (fd, - EBADF)
  | Close fd => Some (fd, EOK)
  | _ => None
  end.

Definition not_open (s : fs) (fd : Z) : Prop := 0 ≤ fd ∧ (fd < TASK_FILE_NR → files (task s) !! Z.to_nat fd = Some None).

Lemma fd_check_not_open s fd : not_open s fd → fd_check fd s = Ok ((- EINVAL, None), s).
Proof.
  intros [H0 Hf]. unfold fd_check. rewrite (st_bind_ok _ _ s (task s) s) by done.
  destruct (Z.leb_spec TASK_FILE_NR fd); [done|]. rewrite (proj2 (Z.ltb_ge _ _)) by lia.
  by rewrite (st_bind_ok _ _ s None s) by (unfold st_deref; by rewrite Hf by lia).
Qed.

Lemma refused ops memory_access c s fd e : bad_descriptor c = Some (fd, e) → not_open s fd →
  run ops memory_access c s = Ok (e, s).
Proof.
  intros Hc Hno. pose proof (fd_check_not_open s fd Hno) as Hck.
  assert (∀ {A} (k : Z * option nat → ST fs A), st_bind (fd_check fd) k s = k (- EINVAL, None) s) as Hbind
    by (intros A k; by apply st_bind_ok).
  assert (∀ {A} b n w (k : bool → ST fs A), st_bind (user_access memory_access b n w) k s =
    k (memory_access b n w (negb (tuid (task s) =? KERNEL_USER))) s) as Hua by done.
  destruct c; try done; injection Hc as <- <-; cbn [run];
    unfold first, sys_close, sys_read, sys_write, sys_lseek, sys_readdir, sys_dup, dupfd, sys_fstat.
  - rewrite (st_bind_ok _ _ s tt s); [done|]. rewrite (st_bind_ok _ _ s (- EINVAL) s); [done|]. unfold fd_put. by rewrite Hbind.
  - rewrite (st_bind_ok _ _ s (- EINVAL, []) s); [done|]. destruct (cnt <? 0); [done|]. rewrite Hua.
    destruct (memory_access _ _ _ _); [|done]. cbn [negb]. by rewrite Hbind.
  - destruct (cnt <? 0); [done|]. rewrite Hua. destruct (memory_access _ _ _ _); [|done]. cbn [negb]. by rewrite Hbind.
  - by rewrite Hbind.
  - rewrite (st_bind_ok _ _ s (- EINVAL, None) s); [done|]. rewrite Hua.
    destruct (memory_access _ _ _ _); [|done]. cbn [negb]. by rewrite Hbind.
  - by rewrite Hbind.
  - rewrite (st_bind_ok _ _ s (- EINVAL, None) s); [done|]. by rewrite Hbind.
  - destruct Hno as [H0 Hf]. unfold sys_ioctl. destruct (Z.leb_spec TASK_FILE_NR fd0); [done|].
    rewrite (proj2 (Z.ltb_ge _ _)) by lia. rewrite (st_bind_ok _ _ s (task s) s) by done.
    by rewrite (st_bind_ok _ _ s None s) by (unfold st_deref; by rewrite Hf by lia).
Qed.

(** C31: through any sequence of the system calls on files, over any file system that
    leaves the descriptors alone (Minix does, [minix_keeps]), each descriptor of the
    task is an open file that has an inode, and the count of each open file is the
    number of its descriptors in all tasks. *)
Theorem descriptors_counted ops memory_access others (s s' : fs) (Hops : ∀ t, KeepsOps (ops t)) (Hfew : few others)
    (Hok : fds_ok others (fds s)) (Hsteps : rtc (call_step ops memory_access) s s') :
  fds_ok others (fds s').
Proof.
  induction Hsteps as [|s s1 s2 (c & r & Hr) _ IH]; [done|]. apply IH.
  pose proof (run_post others Hfew ops Hops memory_access c s Hok) as Hp. unfold wp in Hp. rewrite Hr in Hp. apply Hp.
Qed.

(** C32: a system call that fails, with a negative result, leaves the descriptors of
    the task and the open files, their counts and offsets, as they were, except that
    [dup2] has closed its second descriptor and that [lseek] from the end of the file
    has made the negative result the offset of the file; with a descriptor that is
    not open a call returns its error at once and changes nothing at all. *)
Theorem failed_call_keeps ops memory_access others (s : fs) (c : call) (Hops : ∀ t, KeepsOps (ops t)) (Hfew : few others)
    (Hok : fds_ok others (fds s)) :
  (∀ r s', run ops memory_access c s = Ok (r, s') → r < 0 →
     match c with
     | Dup2 _ newfd => ∃ s1, sys_close ops newfd s = Ok (tt, s1) ∧
         files (task s') = files (task s1) ∧ file_table s' = file_table s1
     | Lseek fd _ wh => files (task s') = files (task s) ∧
         (file_table s' = file_table s ∨ wh = SEEK_END ∧ ∃ f, files (task s) !! Z.to_nat fd = Some (Some f) ∧
            file_table s' = alter (λ e, e <| foffset := r |>) f (file_table s))
     | _ => files (task s') = files (task s) ∧ file_table s' = file_table s
     end) ∧
  (∀ fd e, bad_descriptor c = Some (fd, e) → not_open s fd → run ops memory_access c s = Ok (e, s)).
Proof.
  split; [|intros fd e; apply refused]. intros r s' Hr Hf.
  pose proof (run_post others Hfew ops Hops memory_access c s Hok) as Hp. unfold wp in Hp. rewrite Hr in Hp.
  destruct Hp as [_ Hp]. specialize (Hp Hf). destruct c; try by injection Hp.
  - destruct Hp as [E|(Hwh & f & Hfd & E)]; injection E as Et Ef; [by auto|]. split; [done|]. right. by eauto.
  - destruct Hp as (s1 & H1 & E). injection E as Et Ef. by eauto.
Qed.

(** ** A task that opens the root of a Minix file system *)
Definition demo_ops (t : Z) : fs_op_t :=
  Minix.minix_op (λ _, st_ret tt) (λ _, st_ret EOK) (λ _, st_ret tt) (λ _ _ _, st_ret (0, [])) (λ _ _ _ _, st_ret 0)
    (λ _ _ _, st_ret 0).
Lemma demo_ops_keep t : KeepsOps (demo_ops t).
Proof. apply minix_keeps; intros; apply _. Qed.

Definition demo_root : inode_t :=
  mk_inode None None 3 0 1 1 0 0 0 0 0x41ed 0 FS_TYPE_MINIX 0 0 None (Some FS_TYPE_MINIX) None None.
Definition demo_start : fs :=
  mk_fs ∅ ∅ [demo_root] [] (replicate 8 (mk_file None 0 0 0)) (mk_task 1000 100 0x12 (replicate 16 None) 0 0 [47]) 0.
Definition after (c : call) (s : fs) : fs :=
  match run demo_ops (λ _ _ _ _, true) c s with Ok (_, s') => s' | Stop _ => s end.

Lemma demo_start_ok : fds_ok (λ _, 0) (fds demo_start).
Proof.
  split; [done| |].
  - intros i f Hi. change (fds demo_start).2 with (replicate 16 (None (A := nat))) in Hi. by apply lookup_replicate_1 in Hi as [? _].
  - intros f e Hf. change (fds demo_start).1 with (replicate 8 (mk_file None 0 0 0)) in Hf. by apply lookup_replicate_1 in Hf as [-> _].
Qed.

(** The root is opened as descriptor 3, which becomes 0 by [dup] and [close]. *)
Lemma descriptors_counted_witness :
  let s := after (Close 3) (after (Dup 3) (after (Open [47] 0 0) demo_start)) in
  files (task s) !! 0%nat = Some (Some 3%nat) ∧ files (task s) !! 3%nat = Some None ∧ fds_ok (λ _, 0) (fds s).
Proof.
  cbv zeta. split; [vm_compute; reflexivity|]. split; [vm_compute; reflexivity|].
  apply (descriptors_counted demo_ops (λ _ _ _ _, true) (λ _, 0) demo_start); [apply demo_ops_keep|done|apply demo_start_ok|].
  eapply rtc_l; [exists (Open [47] 0 0), 3; vm_compute; reflexivity|].
  eapply rtc_l; [exists (Dup 3), 0; vm_compute; reflexivity|].
  eapply rtc_l; [exists (Close 3), 0; vm_compute; reflexivity|]. apply rtc_refl.
Defined.

(** [dup] of a descriptor that is not open. *)
Lemma failed_call_keeps_witness :
  run demo_ops (λ _ _ _ _, true) (Dup 5) demo_start = Ok (- EINVAL, demo_start) ∧
  ∀ r s', run demo_ops (λ _ _ _ _, true) (Dup 5) demo_start = Ok (r, s') → r < 0 →
    files (task s') = files (task demo_start).
Proof.
  destruct (failed_call_keeps demo_ops (λ _ _ _ _, true) (λ _, 0) demo_start (Dup 5) demo_ops_keep ltac:(done) demo_start_ok) as [H1 H2].
  split; [by apply (H2 5)|]. intros r s' Hr Hf. by apply (H1 r).
Defined.
